(* ===== verification/_CoqProject ===== *)
-Q . S2P
Prelude.v
Sha256.v
Sorting.v
Resource.v
Codec.v
Authority.v
Crypto.v
Ipc.v
Observability.v
Session.v
Protocol.v
Driver.v
PathTables.v
PathGrammar.v
PathSpec.v
Plan.v
FsModel.v
Journal.v
Recovery.v
FilePath.v
FileSystem.v
LocalPayload.v
LocalPlan.v
LocalApply.v
LocalScan.v
LocalSession.v
LocalSync.v
LocalResume.v
LocalFresh.v
LocalRuns.v
RemoteMessages.v
RemoteWire.v
RemoteGate.v
RemoteStore.v
RemoteServe.v
RemoteRuns.v
RemoteKeys.v
RemoteSession.v
Rights.v
RemoteRoles.v
AuthRole.v
RemoteApply.v
JournalRole.v
RoleRuns.v
Supervisor.v
Confine.v
DaemonPlans.v
Restart.v
Deletion.v
RecoveryFiles.v
PathResolve.v
AtFS.v
LocalApplyAt.v
DeletionAt.v
LocalScanAt.v
RemoteStoreAt.v
