(* ===== verification/Prelude.v ===== *)
(** * Verification of Integris

    Integris synchronizes file trees between hosts.  A change goes through a
    classified and digested plan, is authorized over an authenticated session, is
    recorded in a hash-linked journal, and is recovered from that journal after a
    crash.  This library models the packages of src/internal that decide those
    things, as executable Rocq definitions written statement by statement after
    the Go code, and proves what makes them correct.

    ** How Go is modelled

    A byte slice, array or string is a list of bytes.  An integer is a [Z] kept in
    the range of its type, with [u16], [u32], [u64] where the code converts or
    wraps.  A call that can fail returns [res E A]: a value, an error of the
    package's type, or [Panic] for an index or slice out of range.  A method that
    changes its receiver is a function to the receiver after the call and the
    result; an error returns the receiver as the failure left it.  A loop is
    structural on the data it consumes, or has fuel that a lemma shows to suffice
    for every input (the length of the data: each iteration consumes at least one
    byte, rune or record; for the directory walk the depth 1026, since the grammar
    admits 1024 components).  Error values keep their kind and field; the text of
    messages is dropped.  Go interfaces are classes of operations, with a class of
    laws where a client relies on them.  Code outside the repository is a
    parameter: the AEAD cipher ([Crypto.AEADCipher], with the round trip of an
    AEAD), the operating system's file ([Journal.OSFile], with the laws of
    positioned reads and writes) and its tree ([FileSystem.FileSystem]).  SHA-256
    and HMAC are part of Go's library and are written out in Sha256.v, checked on the published vectors; no theorem
    assumes collision resistance, and where a digest identifies something the
    statement names the colliding pair instead.

    ** The parts

    - Prelude.v: results, integers, slices, little-endian bytes, shared lemmas
      and tactics.  Sha256.v: SHA-256 and HMAC.  Sorting.v: the planner's insertion
      sort and three-way comparisons.
    - Resource.v (resource.go): admission of sizes and cumulative budgets;
      overflow-checked sums are exact and a budget stays within its limits.
    - Codec.v (codec/): the journal record format.  Decoding never panics, encoding
      and decoding are mutually inverse, every cut of a record is "incomplete".
    - Journal.v (journal/): memory, file and crash-injecting segments behind one
      interface, the prefix reader, the writer and the independent verifier.
      [ReadPrefix] finds the unique longest chain of valid records; an append
      extends the chain or leaves every committed record recoverable, also when
      the segment fails at any point; the verifier agrees with the reader on every
      input.
    - Recovery.v (recovery/): the decision taken from a prefix and an observation.
      It never invents a publication or a confirmation, its effects are bounded,
      a confirmation is appended at most once across crashes, and its outcomes
      are reachable states of formal/transaction/Transaction.tla.
    - Plan.v (plan/): classification, representation choice, sorting, the canonical
      document.  The outcome does not depend on the order of the input, a blocked
      row never yields a plan, and the digest determines the plan.
    - PathTables.v, PathGrammar.v (path/): the component grammar, UTF-8 and NFC with
      the generated tables, joined paths; joining and parsing are inverse.  PathSpec.v:
      the grammar of docs/ip/IP-S-0001 by itself (UTF-8 as the encoding of scalar
      values, composition of characters, device names); what the code accepts is
      exactly that.
    - Authority.v (authority/): roles, capabilities and the default-deny probe.
    - Crypto.v (crypto/): HKDF, channel and traffic keys, transcripts, proofs.
    - Session.v (session/): negotiation, mutual authentication, authorization and
      activation, refined against formal/session/Session.tla; authority only with
      proofs; an honest handshake completes.
    - Protocol.v (protocol/): frames and bodies; decoders accept exactly the
      canonical encodings.
    - Driver.v (protocol/driver.go): frames in and out of a session.  Hostile bytes
      never break the session's invariants, frames are accepted in order, data
      chunks arrive complete and in order.
    - Ipc.v (ipc/): channels between local roles; a channel accepts exactly the
      next frame of its peer.
    - Observability.v (observability/): event validation, the bounded sink and the
      canonical event encoding.
    - FilePath.v, FileSystem.v: what the code uses of Go's path/filepath and os: the
      calls on paths as a class over a world ([FileSystem]), their documented
      effect on a tree as its laws ([FileSystemLaws]; every call may fail), weakest
      preconditions for computations on the world, and a tree in memory with
      scripted faults that satisfies the laws.
    - LocalPayload.v, LocalPlan.v, LocalApply.v, LocalScan.v, LocalSession.v,
      LocalSync.v (localsync/): journal payloads and the transaction of a prefix;
      manifests and plans; publishing files through temporary names; the scan and
      the roots; the journal session over a file; [Sync] with resume.
    - LocalResume.v, LocalFresh.v: the crash-safety argument.  [resumable] is what
      an interrupted run leaves: the plan snapshot is in the destination and the
      operations the journal counts are in the tree.  Every run preserves it,
      whatever fails, and a success means the plan is done; a run that plans anew
      establishes it.  A run without the journal that reports success has copied the
      source ([Sync_converges]).
      LocalRuns.v: runs on concrete trees and journals.

    - AtFS.v: the calls on directory descriptors (openat and the like) as a class with
      its laws ([AtCalls], [AtLaws]), the table of open descriptors, and a tree with
      links that satisfies them.  LocalApplyAt.v, LocalScanAt.v: the variants of
      localsync/ for roots that are open directories; they change nothing outside
      the destination wherever links lead, leak no descriptor, and agree with the
      variants on paths.
    - PathResolve.v (path/resolve.go, osfs_unix.go): resolution one component at a
      time over a tree that may change at every call.
    - RecoveryFiles.v (recovery/): publication and persistence over files; a
      publication that is killed anywhere is absent or whole after recovery.
    - Deletion.v, DeletionAt.v (deletion/): the gate of destructive plans and the
      moves to the quarantine by path and under descriptors.
    - FsModel.v (fsmodel/): capabilities of a filesystem and the preflight.
    - RemoteMessages.v, RemoteKeys.v, RemoteSession.v (remotesync/): the messages of a
      push, root keys and keyrings, the handshake and the session over a connection.
      What a serving side accepts rests on a key of the peer; the decoders are exact.
    - RemoteStore.v, RemoteServe.v, RemoteStoreAt.v: the receiving store on paths and
      under descriptors, and the two ends of a transfer.  A received file has the
      announced digest, and nothing outside the staging directories changes before
      the commit.  RemoteRuns.v: runs on concrete sessions.
    - RemoteWire.v, RemoteGate.v, RemoteRoles.v, RemoteApply.v, JournalRole.v: the roles
      that a push passes through, each a loop on authenticated links; what reaches
      apply was authorized by the plan role, whatever the network role asks.
      RoleRuns.v: runs on concrete requests.
    - Rights.v (ipc/rights_unix.go), AuthRole.v (remotesync/auth_ipc.go): descriptors
      over sockets, and the role that authenticates a connection and hands it over.
    - Supervisor.v (supervisor/), DaemonPlans.v, Restart.v (daemon/): plans, the mutual
      graph, launch tokens, the fabric of channels; the topologies of the daemon; the
      start of a fleet with its sockets and keys and the restart of roles after exits,
      which, with the exceptions named there, leaves every edge of the topology
      connected ([restart_rewires]).
    - Confine.v (confine/, daemon/child_unix.go): the policy of the roles, the probes of
      what a role was given, and the gate of a release child.

    Calls go the way of the Go imports: Journal uses Codec, Recovery uses Journal,
    Plan uses PathGrammar, Driver uses Protocol, Session and Crypto, Ipc uses
    Authority, LocalSync uses Journal and PathGrammar, the remote files use LocalSync
    and Driver, the supervisor's files Ipc and Authority.  The interfaces are
    [Journal.Segment] (and [SegmentLaws]), [Recovery.PersistIO], of which
    [RecoveryFiles] has an instance on files, [Crypto.AEADCipher],
    [FileSystem.FileSystem], [RecoveryFiles.PublishCalls], [AtFS.AtCalls],
    [DeletionAt.QuarantineCalls], [PathResolve.Descriptors] and [Kernel],
    [Rights.RightsSocket], [LocalSession.JournalSession], which [fileSession_laws]
    discharges from the verified journal and [IPCJournal_laws] over a link,
    [RemoteServe.Peer], and [RemoteWire.Bridge] with [RemoteRoles.Endpoint] between the
    roles.  Each has a concrete instance with its laws, on which the witnesses run.

    Some theorems show where the code departs from what its comments or its own
    checks say: a channel that stops after 1024 frames, a rejected data frame that
    still advances the offset, frames without a direction, an HKDF length that is
    refused, a confirmation repeated by re-entry, a confirmation accepted without
    publication, a confirmed plan that is reported as applied and is not, a copied
    file that is removed for its name, a payload that is written and not read back,
    a pushed file that leaves the staging directory, a quarantine directory that is
    followed through a link, a rename that replaces where it must not, descriptors
    that leak with a message of the wrong kind, an exit of a role that is lost, and a
    restart that ends the supervisor.

    ** What the laws leave out

    The laws of the parameters are documented behaviour of calls that return, on a
    machine that nothing else writes to.  Reads within a journal file do not fail
    ([Journal.OSFileLaws], [SegmentLaws]); its other calls do.  In the tree of
    [FileSystemLaws] any call may fail, a file has one name, modes are those asked for
    (no umask), and nobody else changes the tree during an operation; only
    PathResolve.v lets others change it at every call.  The laws of directory
    descriptors ([AtFS.AtLaws]) say what an open has done when it returns; the open of a
    named pipe may wait for ever.  The probes of a confinement ([Confine]) are findings
    that the gate is given, [platform.SyncFile] and [platform.SyncDir] are calls that
    may fail and change nothing in the tree, and closing a session's connection
    (RemoteSession.v) is left out.

    ** Not modelled

    System calls and what only wraps them: platform/, launcher/, the calls that apply
    and probe the sandbox (confine/) and a volume (fsmodel/), opening a journal under a
    descriptor, the listening loop, the ready file and the child environment of
    daemon/, the stub pairs of supervisor/, and the commands.  encoding/json is a
    parameter ([LocalSync.PlanJSON], [RemoteStore.MetaJSON]), so that the configuration
    document (config/), which is read with its tokenizer, is left out.  Durations,
    deadlines and the texts of reports are not modelled either. *)

From stdpp Require Export base list numbers option relations strings sets sorting.
From Stdlib Require Export ZArith Lia ZifyBool.
From Stdlib Require Strings.Byte.

(** ** Scopes and notations *)

Declare Scope go_scope.
Delimit Scope go_scope with go.
Global Open Scope Z_scope.

(** A Go byte slice, byte array or string is its sequence of bytes. *)
Abbreviation bytes := (list Byte.byte).

(** The bytes of a Go string literal. *)
Definition str (s : String.string) : bytes := String.list_byte_of_string s.
Arguments str s%_string.

(** The bytes of a Go string. *)
Abbreviation sbytes := String.list_byte_of_string.

Lemma sbytes_inj a b : sbytes a = sbytes b -> a = b.
Proof.
  intros E%(f_equal String.string_of_list_byte).
  by rewrite !String.string_of_list_byte_of_string in E.
Qed.

#[global] Instance byte_eq_decision : EqDecision Byte.byte := Byte.byte_eq_dec.
#[global] Instance byte_inhabited : Inhabited Byte.byte := populate Byte.x00.

(** [len(x)] of a slice, as a Go [int]. *)
Definition len {A} (l : list A) : Z := Z.of_nat (length l).

(** ** Outcomes of Go code

    A call returns a value ([Ok]), returns an error value ([Err]) or panics
    ([Panic]: an index or a slice bound out of range). *)
Inductive res (E A : Type) : Type :=
| Ok (a : A)
| Err (e : E)
| Panic.
Arguments Ok {E A} a.
Arguments Err {E A} e.
Arguments Panic {E A}.

Definition bind {E A B} (c : res E A) (k : A -> res E B) : res E B :=
  match c with
  | Ok a => k a
  | Err e => Err e
  | Panic => Panic
  end.

Notation "'let!' x := c 'in' k" := (bind c (fun x => k))
  (at level 10, x pattern, c at level 200, k at level 200,
   format "'[v' 'let!'  x  :=  c  'in' '/' k ']'") : go_scope.
Global Open Scope go_scope.

(** An error of one package re-reported by another. *)
Definition map_err {E F A} (f : E -> F) (c : res E A) : res F A :=
  match c with
  | Ok a => Ok a
  | Err e => Err (f e)
  | Panic => Panic
  end.

Definition is_ok {E A} (c : res E A) : bool :=
  match c with Ok _ => true | _ => false end.

Definition safe {E A} (c : res E A) : Prop := c <> Panic.

Lemma Ok_inj {E A} (a b : A) : @Ok E A a = Ok b -> a = b.
Proof. congruence. Qed.

(** ** Machine integers

    Unsigned integers are [Z] values in the range of their width; arithmetic
    that can leave the range wraps. *)
Definition MaxUint16 : Z := 65535.
Definition MaxUint32 : Z := 4294967295.
Definition MaxUint64 : Z := 18446744073709551615.

Definition u8 (z : Z) : Z := z mod 256.
Definition u16 (z : Z) : Z := z mod 65536.
Definition u32 (z : Z) : Z := z mod 4294967296.
Definition u64 (z : Z) : Z := z mod 18446744073709551616.

Definition is_u8 (z : Z) : Prop := 0 <= z < 256.
Definition is_u16 (z : Z) : Prop := 0 <= z < 65536.
Definition is_u32 (z : Z) : Prop := 0 <= z < 4294967296.
Definition is_u64 (z : Z) : Prop := 0 <= z < 18446744073709551616.

Lemma u32_range z : is_u32 (u32 z).
Proof. apply Z.mod_pos_bound. lia. Qed.
Lemma u64_range z : is_u64 (u64 z).
Proof. apply Z.mod_pos_bound. lia. Qed.

Lemma u64_small z : is_u64 z -> u64 z = z.
Proof. apply Z.mod_small. Qed.

Lemma u32_small z : is_u32 z -> u32 z = z.
Proof. apply Z.mod_small. Qed.

Lemma u16_small z : is_u16 z -> u16 z = z.
Proof. apply Z.mod_small. Qed.

(** ** Bytes *)

Definition byteZ (b : Byte.byte) : Z := Z.of_N (Byte.to_N b).

(** The conversion [byte(v)]: truncation to the low eight bits. *)
Definition byte_of (z : Z) : Byte.byte :=
  match Byte.of_N (Z.to_N (z mod 256)) with
  | Some b => b
  | None => Byte.x00
  end.

Lemma byteZ_range b : 0 <= byteZ b < 256.
Proof.
  unfold byteZ. pose proof (Byte.to_N_bounded b).
  split; [lia|]. apply (N2Z.inj_lt _ 256). lia.
Qed.

Lemma byteZ_inj a b : byteZ a = byteZ b -> a = b.
Proof.
  unfold byteZ. intros H%N2Z.inj.
  pose proof (Byte.of_to_N a) as Ha. rewrite H, Byte.of_to_N in Ha. congruence.
Qed.

Lemma byteZ_byte_of z : byteZ (byte_of z) = z mod 256.
Proof.
  unfold byteZ, byte_of.
  pose proof (Z.mod_pos_bound z 256 ltac:(lia)) as Hb.
  destruct (Byte.of_N (Z.to_N (z mod 256))) eqn:E.
  - apply Byte.to_of_N in E. rewrite E. rewrite Z2N.id; lia.
  - apply Byte.of_N_None_iff in E. lia.
Qed.

Lemma byte_of_byteZ b : byte_of (byteZ b) = b.
Proof.
  apply byteZ_inj. rewrite byteZ_byte_of. apply Z.mod_small, byteZ_range.
Qed.

Lemma byte_of_mod z : byte_of (z mod 256) = byte_of z.
Proof. unfold byte_of. by rewrite Z.mod_mod by lia. Qed.

(** ** Slices *)

Definition sub {A} (b : list A) (lo hi : Z) : list A :=
  take (Z.to_nat (hi - lo)) (drop (Z.to_nat lo) b).

Section Slices.
Context {E A : Type}.
Implicit Types (b d s : list A).

(** [b[lo:hi]]. *)
Definition slice b (lo hi : Z) : res E (list A) :=
  if (0 <=? lo) && (lo <=? hi) && (hi <=? len b)
  then Ok (sub b lo hi) else Panic.

(** [b[i]]. *)
Definition index b (i : Z) : res E A :=
  if 0 <=? i then
    match b !! Z.to_nat i with
    | Some x => Ok x
    | None => Panic
    end
  else Panic.

(** [b[i] = x]. *)
Definition set_index b (i : Z) (x : A) : res E (list A) :=
  if (0 <=? i) && (i <? len b) then Ok (<[Z.to_nat i := x]> b) else Panic.

(** [copy(dst, src)]: the overwritten destination. *)
Definition copy (d s : list A) : list A :=
  take (length d) s ++ drop (length s) d.

(** Run [f] on the sub-slice [b[lo:hi]], which shares memory with [b]. *)
Definition with_slice b (lo hi : Z) (f : list A -> res E (list A)) : res E (list A) :=
  let! s := slice b lo hi in
  let! s' := f s in
  Ok (sub b 0 lo ++ s' ++ sub b hi (len b)).

(** [copy(b[lo:hi], src)]. *)
Definition copy_into b (lo hi : Z) (src : list A) : res E (list A) :=
  with_slice b lo hi (fun d => Ok (copy d src)).

End Slices.

(** ** Length arithmetic *)

Lemma len_app {A} (a b : list A) : len (a ++ b) = len a + len b.
Proof. unfold len. rewrite length_app. lia. Qed.

Lemma len_nil {A} : len (@nil A) = 0.
Proof. done. Qed.

Lemma len_cons {A} (x : A) l : len (x :: l) = 1 + len l.
Proof. unfold len. simpl. lia. Qed.

Lemma len_nonneg {A} (l : list A) : 0 <= len l.
Proof. unfold len. lia. Qed.

Lemma len_replicate {A} n (x : A) : len (replicate n x) = Z.of_nat n.
Proof. unfold len. by rewrite length_replicate. Qed.

Lemma len_zero_nil {A} (l : list A) : len l = 0 -> l = [].
Proof. destruct l; [done|]. rewrite len_cons. pose proof (len_nonneg l). lia. Qed.

Lemma len_length {A} (l : list A) n : len l = Z.of_nat n <-> length l = n.
Proof. unfold len. lia. Qed.

Create Rewrite HintDb len.
#[export] Hint Rewrite @len_app @len_nil @len_cons @len_replicate : len.

(** Push [len] through the list constructors, then linear arithmetic. *)
Ltac len_lia :=
  autorewrite with len in *;
  repeat match goal with
         | |- context [len ?l] =>
             lazymatch goal with
             | _ : 0 <= len l |- _ => fail
             | _ => pose proof (len_nonneg l)
             end
         | _ : context [len ?l] |- _ =>
             lazymatch goal with
             | _ : 0 <= len l |- _ => fail
             | _ => pose proof (len_nonneg l)
             end
         end;
  lia.

Lemma len_sub {A} (b : list A) lo hi :
  0 <= lo -> lo <= hi -> hi <= len b -> len (sub b lo hi) = hi - lo.
Proof.
  intros. unfold sub, len in *. rewrite length_take, length_drop. lia.
Qed.

Lemma sub_app_l {A} (a b : list A) lo hi :
  0 <= lo -> hi <= len a -> sub (a ++ b) lo hi = sub a lo hi.
Proof.
  intros H0 H1. unfold sub, len in *.
  destruct (decide (lo <= hi)).
  - rewrite drop_app_le by lia. rewrite take_app_le; [done|].
    rewrite length_drop. lia.
  - by replace (Z.to_nat (hi - lo)) with 0%nat by lia.
Qed.

Lemma sub_app_r {A} (a b : list A) lo hi :
  len a <= lo -> sub (a ++ b) lo hi = sub b (lo - len a) (hi - len a).
Proof.
  intros H. unfold sub, len in *.
  rewrite drop_app_ge by lia.
  f_equal; [lia|]. f_equal. lia.
Qed.

Lemma sub_full {A} (b : list A) hi : len b <= hi -> sub b 0 hi = b.
Proof. intros. unfold sub, len in *. rewrite drop_0. apply take_ge. lia. Qed.

Lemma sub_whole {A} (b : list A) lo hi : lo = 0 -> len b <= hi -> sub b lo hi = b.
Proof. intros ->. apply sub_full. Qed.

Lemma sub_empty {A} (b : list A) lo : sub b lo lo = [].
Proof. unfold sub. by replace (Z.to_nat (lo - lo)) with 0%nat by lia. Qed.

Lemma sub_split {A} (b : list A) lo mid hi :
  0 <= lo -> lo <= mid -> mid <= hi ->
  sub b lo hi = sub b lo mid ++ sub b mid hi.
Proof.
  intros. unfold sub.
  rewrite <- (take_drop (Z.to_nat (mid - lo)) (take (Z.to_nat (hi - lo)) _)).
  rewrite take_take. f_equal; [f_equal; lia|].
  replace (Z.to_nat (hi - lo)) with (Z.to_nat (mid - lo) + Z.to_nat (hi - mid))%nat by lia.
  rewrite <- take_drop_commute, drop_drop. do 2 f_equal. lia.
Qed.

Lemma sub_0_prefix {A} (b : list A) hi : sub b 0 hi = take (Z.to_nat hi) b.
Proof. unfold sub. rewrite drop_0. f_equal. lia. Qed.

Lemma sub_suffix {A} (b : list A) lo :
  0 <= lo -> sub b lo (len b) = drop (Z.to_nat lo) b.
Proof.
  intros. unfold sub, len. apply take_ge. rewrite length_drop. lia.
Qed.

Lemma sub_sub {A} (b : list A) lo hi lo' hi' :
  0 <= lo -> 0 <= lo' -> lo' <= hi' -> hi' <= hi - lo ->
  sub (sub b lo hi) lo' hi' = sub b (lo + lo') (lo + hi').
Proof.
  intros. unfold sub.
  replace (Z.to_nat (hi - lo)) with (Z.to_nat lo' + Z.to_nat (hi - lo - lo'))%nat by lia.
  rewrite <- take_drop_commute, drop_drop, take_take.
  f_equal; [lia|]. f_equal. lia.
Qed.

Lemma slice_ok {E A} (b : list A) lo hi :
  0 <= lo -> lo <= hi -> hi <= len b -> @slice E A b lo hi = Ok (sub b lo hi).
Proof.
  intros. unfold slice.
  by rewrite !(proj2 (Z.leb_le _ _)) by lia.
Qed.

Lemma slice_app_here {E A} (a b : list A) hi :
  hi = len a -> @slice E A (a ++ b) 0 hi = Ok a.
Proof.
  intros ->. pose proof (len_nonneg a). pose proof (len_nonneg b).
  rewrite slice_ok by len_lia. by rewrite sub_app_l, sub_full by lia.
Qed.

Lemma index_ok {E A} (b : list A) i x :
  0 <= i -> b !! Z.to_nat i = Some x -> @index E A b i = Ok x.
Proof. intros ? H. unfold index. rewrite (proj2 (Z.leb_le _ _)) by lia. by rewrite H. Qed.

Lemma index_sub {E A} (b : list A) i :
  0 <= i -> i < len b -> exists x, @index E A b i = Ok x /\ sub b i (i + 1) = [x].
Proof.
  intros Hi Hl. destruct (lookup_lt_is_Some_2 b (Z.to_nat i)) as [x Hx]; [unfold len in Hl; lia|].
  exists x. split; [by apply index_ok|]. unfold sub. replace (i + 1 - i) with 1 by lia.
  by rewrite (drop_S _ _ _ Hx).
Qed.

Lemma index_app_r {E A} (a b : list A) x i : i = len a -> @index E A (a ++ x :: b) i = Ok x.
Proof.
  intros ->. apply index_ok; [apply len_nonneg|]. unfold len. rewrite Nat2Z.id.
  by apply list_lookup_middle.
Qed.

Lemma copy_exact {A} (d s : list A) : length d = length s -> copy d s = s.
Proof.
  intros H. unfold copy. rewrite take_ge by lia.
  rewrite drop_ge by lia. by rewrite app_nil_r.
Qed.

(** A buffer of [m] zero values, as [make] returns it. *)
Definition zeros (m : Z) : bytes := replicate (Z.to_nat m) Byte.x00.

Lemma len_zeros m : 0 <= m -> len (zeros m) = m.
Proof. intros. unfold zeros. rewrite len_replicate. lia. Qed.

Lemma zeros_done m : m <= 0 -> zeros m = [].
Proof. intros. unfold zeros. by replace (Z.to_nat m) with 0%nat by lia. Qed.

(** Filling a zeroed buffer from the left: the next field lands directly after
    the bytes written so far. *)
Lemma with_slice_fill {E} (p s : bytes) m lo hi f :
  lo = len p -> hi = lo + len s -> len s <= m ->
  f (zeros (len s)) = Ok s ->
  @with_slice E _ (p ++ zeros m) lo hi f = Ok ((p ++ s) ++ zeros (m - len s)).
Proof.
  intros -> -> Hn Hf. pose proof (len_nonneg p). pose proof (len_nonneg s).
  assert (Hz : len (zeros m) = m) by (apply len_zeros; lia).
  assert (Hs : sub (p ++ zeros m) (len p) (len p + len s) = zeros (len s)).
  { rewrite sub_app_r by lia. replace (len p - len p) with 0 by lia.
    unfold zeros. rewrite sub_0_prefix, take_replicate. f_equal. lia. }
  unfold with_slice. rewrite slice_ok by (rewrite ?len_app; lia).
  cbn [bind]. rewrite Hs, Hf. cbn [bind]. f_equal.
  rewrite sub_app_l, sub_full by lia.
  rewrite <- app_assoc. do 2 f_equal.
  rewrite sub_suffix by lia. rewrite drop_app_ge by (unfold len; lia).
  unfold zeros. rewrite drop_replicate. f_equal. unfold len. lia.
Qed.

Lemma copy_into_fill {E} (p s : bytes) m lo hi :
  lo = len p -> hi = lo + len s -> len s <= m ->
  @copy_into E _ (p ++ zeros m) lo hi s = Ok ((p ++ s) ++ zeros (m - len s)).
Proof.
  intros. apply with_slice_fill; [done..|].
  f_equal. apply copy_exact. pose proof (len_zeros (len s) (len_nonneg s)).
  unfold len in *. lia.
Qed.

(** ** Little-endian integers *)

(** The [n] low bytes of [v], least significant first. *)
Fixpoint le_bytes (n : nat) (v : Z) : bytes :=
  match n with
  | O => []
  | S n => byte_of v :: le_bytes n (v / 256)
  end.

Fixpoint le_val (b : bytes) : Z :=
  match b with
  | [] => 0
  | x :: b => byteZ x + 256 * le_val b
  end.

Lemma length_le_bytes n v : length (le_bytes n v) = n.
Proof. revert v. induction n as [|n IH]; intros v; simpl; [done|]. by rewrite IH. Qed.

Lemma len_le_bytes n v : len (le_bytes n v) = Z.of_nat n.
Proof. unfold len. by rewrite length_le_bytes. Qed.

#[export] Hint Rewrite len_le_bytes : len.

Lemma le_val_range b : 0 <= le_val b < 256 ^ len b.
Proof.
  induction b as [|x b IH]; simpl; [done|].
  rewrite len_cons, Z.pow_add_r by (pose proof (len_nonneg b); lia).
  pose proof (byteZ_range x). lia.
Qed.

Lemma le_val_bytes_mod n v : le_val (le_bytes n v) = v mod 256 ^ Z.of_nat n.
Proof.
  revert v. induction n as [|n IH]; intros v.
  { simpl. by rewrite Z.mod_1_r. }
  cbn [le_bytes le_val]. rewrite IH, byteZ_byte_of, Nat2Z.inj_succ, Z.pow_succ_r by lia.
  rewrite Z.rem_mul_r by lia. done.
Qed.

Lemma le_val_bytes n v :
  0 <= v < 256 ^ Z.of_nat n -> le_val (le_bytes n v) = v.
Proof. intros. rewrite le_val_bytes_mod. by apply Z.mod_small. Qed.

Lemma le_bytes_val b : le_bytes (length b) (le_val b) = b.
Proof.
  induction b as [|x b IH]; simpl; [done|].
  pose proof (byteZ_range x).
  rewrite <- byte_of_mod.
  replace ((byteZ x + 256 * le_val b) mod 256) with (byteZ x).
  2:{ rewrite Z.mul_comm, Z.mod_add, Z.mod_small; lia. }
  replace ((byteZ x + 256 * le_val b) / 256) with (le_val b).
  2:{ rewrite Z.mul_comm, Z.div_add, Z.div_small; lia. }
  by rewrite IH, byte_of_byteZ.
Qed.

Lemma le_bytes_val_n n b : length b = n -> le_bytes n (le_val b) = b.
Proof. intros <-. apply le_bytes_val. Qed.

Lemma le_bytes_inj n v w :
  0 <= v < 256 ^ Z.of_nat n -> 0 <= w < 256 ^ Z.of_nat n ->
  le_bytes n v = le_bytes n w -> v = w.
Proof. intros Hv Hw H%(f_equal le_val). by rewrite !le_val_bytes in H. Qed.

(** Assembling an integer from shifted bytes is addition. *)
Lemma lor_shiftl_add a b n :
  0 <= n -> 0 <= a < 2 ^ n -> Z.lor a (Z.shiftl b n) = a + b * 2 ^ n.
Proof.
  intros Hn Ha. rewrite <- Z.shiftl_mul_pow2 by done.
  rewrite <- Z.add_lor_land.
  replace (Z.land a (Z.shiftl b n)) with 0; [lia|].
  symmetry. apply Z.bits_inj'. intros i Hi.
  rewrite Z.land_spec, Z.bits_0.
  destruct (decide (i < n)).
  - rewrite Z.shiftl_spec_low by lia. apply andb_false_r.
  - destruct (decide (a = 0)) as [->|]; [by rewrite Z.bits_0|].
    rewrite (Z.bits_above_log2 a); [done|lia|].
    apply Z.log2_lt_pow2; [lia|].
    eapply Z.lt_le_trans; [apply Ha|]. apply Z.pow_le_mono_r; lia.
Qed.

(** ** Proof automation *)

(** Split a run of a monadic definition that ended in [Ok] into the facts of
    the guards and calls it went through. *)
Ltac inv_ok H :=
  repeat (cbn [bind map_err] in H;
  lazymatch type of H with
  | (if ?c then _ else _) = Ok _ => destruct c eqn:?; [try discriminate H|try discriminate H]
  | (if ?c then _ else _) = Err _ => destruct c eqn:?
  | bind ?c _ = Ok _ => destruct c eqn:?; [| discriminate H | discriminate H]
  | match ?c with _ => _ end = Ok _ => destruct c eqn:?; try discriminate H
  end);
  try (injection H as H); subst.

(** Case analysis on the first test of the goal. *)
Ltac case_if :=
  match goal with
  | |- context [if ?c then _ else _] => destruct c eqn:?
  end.

(** Reduce the reads of a buffer written as a concatenation of fields. *)
Ltac sub_step :=
  first
    [ rewrite sub_whole by len_lia
    | rewrite sub_app_r by len_lia
    | rewrite sub_app_l by len_lia ].

(** Discharge boolean tests whose outcome arithmetic decides. *)
Ltac dec_true c := replace c with true by (symmetry; len_lia); cbv match.
Ltac dec_false c := replace c with false by (symmetry; len_lia); cbv match.

(** Case analysis on the test a goal is stuck on. *)
Ltac head_if :=
  match goal with
  | |- (if ?c then _ else _) = _ => destruct c eqn:?
  | |- match (if ?c then _ else _) with _ => _ end => destruct c eqn:?
  end.

Lemma bool_decide_true_iff (P : Prop) `{Decision P} : bool_decide P = true <-> P.
Proof. apply bool_decide_eq_true. Qed.

Lemma bool_decide_false_iff (P : Prop) `{Decision P} : bool_decide P = false <-> ~ P.
Proof. apply bool_decide_eq_false. Qed.

(** Read the boolean facts of the context as propositions. *)
Ltac reflect_bools :=
  repeat match goal with
  | H : bool_decide _ = true |- _ => apply bool_decide_true_iff in H
  | H : bool_decide _ = false |- _ => apply bool_decide_false_iff in H
  | H : negb _ = true |- _ => apply negb_true_iff in H
  | H : negb _ = false |- _ => apply negb_false_iff in H
  | H : _ && _ = true |- _ => apply andb_true_iff in H as [? ?]
  | H : _ || _ = false |- _ => apply orb_false_iff in H as [? ?]
  | H : (_ =? _) = true |- _ => apply Z.eqb_eq in H
  | H : (_ =? _) = false |- _ => apply Z.eqb_neq in H
  | H : (_ <=? _) = true |- _ => apply Z.leb_le in H
  | H : (_ <=? _) = false |- _ => apply Z.leb_gt in H
  | H : (_ <? _) = true |- _ => apply Z.ltb_lt in H
  | H : (_ <? _) = false |- _ => apply Z.ltb_ge in H
  end.
