(* ===== verification/Sha256.v ===== *)
(** * SHA-256 and HMAC-SHA256

    Go's [crypto/sha256] and [crypto/hmac], which every commitment of the
    program goes through, as executable functions on byte sequences (FIPS 180-4
    and RFC 2104).  The published test vectors are checked at the end of the
    file.  The rest of the development uses three facts only: a digest has 32
    bytes, a tag has 32 bytes, and both are functions of their inputs; the
    definitions are opaque to conversion outside evaluation. *)

From S2P Require Import Prelude.

(** ** 32-bit words *)

Definition w32 (x : Z) : Z := x mod 4294967296.
Definition not32 (x : Z) : Z := 4294967295 - x.
Definition rotr (x n : Z) : Z :=
  Z.lor (Z.shiftr x n) (w32 (Z.shiftl x (32 - n))).

Definition ch (x y z : Z) : Z := Z.lxor (Z.land x y) (Z.land (not32 x) z).
Definition maj (x y z : Z) : Z :=
  Z.lxor (Z.land x y) (Z.lxor (Z.land x z) (Z.land y z)).
Definition bsig0 (x : Z) : Z := Z.lxor (rotr x 2) (Z.lxor (rotr x 13) (rotr x 22)).
Definition bsig1 (x : Z) : Z := Z.lxor (rotr x 6) (Z.lxor (rotr x 11) (rotr x 25)).
Definition ssig0 (x : Z) : Z := Z.lxor (rotr x 7) (Z.lxor (rotr x 18) (Z.shiftr x 3)).
Definition ssig1 (x : Z) : Z := Z.lxor (rotr x 17) (Z.lxor (rotr x 19) (Z.shiftr x 10)).

(** The constants, as the standard defines them: the first 32 bits of the
    fractional parts of the cube roots of the first 64 primes, and of the square
    roots of the first 8. *)
Definition prime (n : nat) : bool :=
  (2 <=? n)%nat && forallb (fun d => negb (n mod d =? 0)%nat) (seq 2 (n - 2)).

Definition primes : list Z := map Z.of_nat (List.filter prime (seq 2 310)).

(** The integer cube root of a number below [2 ^ (3 * k)], one bit at a time. *)
Fixpoint cube_root (k : nat) (n x : Z) : Z :=
  match k with
  | O => x
  | S k =>
      let y := x + 2 ^ Z.of_nat k in
      cube_root k n (if y * y * y <=? n then y else x)
  end.

Definition sha_k : list Z :=
  Eval vm_compute in map (fun p => w32 (cube_root 40 (p * 2 ^ 96) 0)) primes.

(** The chaining value. *)
Record sha_state := ShaState
  { sa : Z; sb : Z; sc : Z; sd : Z; se : Z; sf : Z; sg : Z; sh : Z }.

Definition sha_iv : sha_state :=
  Eval vm_compute in
  match map (fun p => w32 (Z.sqrt (p * 2 ^ 64))) primes with
  | a :: b :: c :: d :: e :: f :: g :: h :: _ => ShaState a b c d e f g h
  | _ => ShaState 0 0 0 0 0 0 0 0
  end.

(** The message schedule, most recent word first. *)
Fixpoint sha_extend (n : nat) (w : list Z) : list Z :=
  match n with
  | O => w
  | S n =>
      let x := w32 (ssig1 (nth 1 w 0) + nth 6 w 0 + ssig0 (nth 14 w 0) + nth 15 w 0) in
      sha_extend n (x :: w)
  end.

Definition sha_round (s : sha_state) (kw : Z * Z) : sha_state :=
  let '(k, w) := kw in
  let t1 := sh s + bsig1 (se s) + ch (se s) (sf s) (sg s) + k + w in
  let t2 := bsig0 (sa s) + maj (sa s) (sb s) (sc s) in
  ShaState (w32 (t1 + t2)) (sa s) (sb s) (sc s) (w32 (sd s + t1)) (se s) (sf s) (sg s).

(** Big-endian words. *)
Definition be_word (b : bytes) : Z := le_val (rev (take 4 b)).
Definition be_bytes (n : nat) (v : Z) : bytes := rev (le_bytes n v).

Fixpoint words_of (n : nat) (b : bytes) : list Z :=
  match n with
  | O => []
  | S n => be_word b :: words_of n (drop 4 b)
  end.

Definition sha_block (s : sha_state) (blk : bytes) : sha_state :=
  let w := rev (sha_extend 48 (rev (words_of 16 blk))) in
  let r := fold_left sha_round (zip sha_k w) s in
  ShaState (w32 (sa s + sa r)) (w32 (sb s + sb r)) (w32 (sc s + sc r)) (w32 (sd s + sd r))
           (w32 (se s + se r)) (w32 (sf s + sf r)) (w32 (sg s + sg r)) (w32 (sh s + sh r)).

Fixpoint sha_blocks (n : nat) (s : sha_state) (b : bytes) : sha_state :=
  match n with
  | O => s
  | S n => sha_blocks n (sha_block s (take 64 b)) (drop 64 b)
  end.

Definition sha_pad (m : bytes) : bytes :=
  let zeros := Z.to_nat ((55 - len m) mod 64) in
  m ++ [Byte.x80] ++ replicate zeros Byte.x00 ++ be_bytes 8 (8 * len m).

Definition sha_out (s : sha_state) : bytes :=
  be_bytes 4 (sa s) ++ be_bytes 4 (sb s) ++ be_bytes 4 (sc s) ++ be_bytes 4 (sd s) ++
  be_bytes 4 (se s) ++ be_bytes 4 (sf s) ++ be_bytes 4 (sg s) ++ be_bytes 4 (sh s).

(** [sha256.Sum256]. *)
Definition sha256 (m : bytes) : bytes :=
  let p := sha_pad m in
  sha_out (sha_blocks (Z.to_nat (len p / 64)) sha_iv p).

(** ** HMAC *)

Definition byte_xor (a : Z) (b : Byte.byte) : Byte.byte := byte_of (Z.lxor a (byteZ b)).

Definition hmac_key (key : bytes) : bytes :=
  let k := if 64 <? len key then sha256 key else key in
  k ++ replicate (64 - length k) Byte.x00.

(** [hmac.New(sha256.New, key)] written with [m], then [Sum(nil)]. *)
Definition hmac_sha256 (key m : bytes) : bytes :=
  let k := hmac_key key in
  sha256 (map (byte_xor 0x5c) k ++ sha256 (map (byte_xor 0x36) k ++ m)).

(** ** The facts used elsewhere *)

Lemma length_be_bytes n v : length (be_bytes n v) = n.
Proof. unfold be_bytes. by rewrite length_rev, length_le_bytes. Qed.

Lemma length_sha256 m : length (sha256 m) = 32%nat.
Proof. unfold sha256, sha_out. by rewrite !length_app, !length_be_bytes. Qed.

Lemma len_sha256 m : len (sha256 m) = 32.
Proof. unfold len. by rewrite length_sha256. Qed.

Lemma len_hmac_sha256 k m : len (hmac_sha256 k m) = 32.
Proof. apply len_sha256. Qed.

#[export] Hint Rewrite len_sha256 len_hmac_sha256 : len.

(** ** Test vectors (FIPS 180-4 and RFC 4231, case 2) *)

Definition hex_nibble (a : Byte.byte) : Z :=
  let c := byteZ a in if c <=? 57 then c - 48 else c - 87.

Fixpoint of_hex (b : bytes) : bytes :=
  match b with
  | h :: l :: b => byte_of (16 * hex_nibble h + hex_nibble l) :: of_hex b
  | _ => []
  end.

Lemma sha256_empty :
  sha256 [] = of_hex (str "e3b0c44298fc1c149afbf4c8996fb92427ae41e4649b934ca495991b7852b855").
Proof. vm_compute. reflexivity. Qed.

Lemma sha256_abc :
  sha256 (str "abc") = of_hex (str "ba7816bf8f01cfea414140de5dae2223b00361a396177a9cb410ff61f20015ad").
Proof. vm_compute. reflexivity. Qed.

Lemma hmac_rfc4231_2 :
  hmac_sha256 (str "Jefe") (str "what do ya want for nothing?") =
  of_hex (str "5bdcc146bf60754e6a042426089575c75a003f089d2739839dec58b964ec3843").
Proof. vm_compute. reflexivity. Qed.

#[global] Opaque sha256 hmac_sha256.
