(* ===== verification/Sorting.v ===== *)
(** * The insertion sorts and the orders they use

    The planner sorts with one loop, written out for three element types
    (internal/plan/sort.go): for each index the element is swapped down while its
    left neighbour is greater.  [insertion_sort] is that loop on an indexed list,
    with the comparison as a parameter, and the section shows that it returns a
    sorted permutation of its input for every total preorder.  Three-way
    comparisons in the style of [bytes.Compare] and their lexicographic
    extension are here too. *)

From S2P Require Import Prelude.

Module Sorting.

Lemma list_insert_middle_at {A} (l : list A) n x y r :
  n = length l -> <[n := x]> (l ++ y :: r) = l ++ x :: r.
Proof. intros ->. rewrite insert_app_r_alt by lia. by rewrite Nat.sub_diag. Qed.

Lemma StronglySorted_weaken {A} (R S : A -> A -> Prop) l :
  (forall a b, R a b -> S a b) -> StronglySorted R l -> StronglySorted S l.
Proof.
  intros H. induction 1 as [|x l Hs IH Hx]; constructor; [done|].
  eapply Forall_impl; [exact Hx|]. auto.
Qed.

(** ** The loop *)

Section Loop.
Context {A : Type}.
Variable gt : A -> A -> bool.

(** [for j > 0 && gt(out[j-1], out[j]) { swap; j-- }]. *)
Fixpoint sink (j : nat) (out : list A) : list A :=
  match j with
  | O => out
  | S j' =>
      match out !! j', out !! j with
      | Some a, Some b => if gt a b then sink j' (<[j' := b]> (<[j := a]> out)) else out
      | _, _ => out
      end
  end.

(** [for i := 1; i < len(out); i++], for the [n] indices from [i] on. *)
Fixpoint sort_from (n i : nat) (out : list A) : list A :=
  match n with
  | O => out
  | S n => sort_from n (S i) (sink i out)
  end.

Definition insertion_sort (inp : list A) : list A := sort_from (length inp - 1) 1 inp.

(** ** What the loop does *)

(** Insertion of [x] into a reversed prefix. *)
Fixpoint ins_rev (l : list A) (x : A) : list A :=
  match l with
  | [] => [x]
  | y :: l => if gt y x then y :: ins_rev l x else x :: y :: l
  end.

Lemma sink_ins l x r : sink (length l) (rev l ++ x :: r) = rev (ins_rev l x) ++ r.
Proof.
  revert x r. induction l as [|y l IH]; intros x r; [done|].
  cbn [length sink rev ins_rev]. rewrite <- app_assoc. cbn [app].
  rewrite list_lookup_middle by (by rewrite length_rev).
  replace (rev l ++ y :: x :: r) with ((rev l ++ [y]) ++ x :: r) by (by rewrite <- app_assoc).
  rewrite list_lookup_middle by (rewrite length_app, length_rev; cbn; lia).
  destruct (gt y x); cbn [rev]; [|by rewrite <- !app_assoc].
  rewrite (list_insert_middle_at (rev l ++ [y])) by (rewrite length_app, length_rev; cbn; lia).
  rewrite <- !app_assoc. cbn [app]. rewrite <- IH.
  by rewrite (list_insert_middle_at (rev l)) by (by rewrite length_rev).
Qed.

Lemma sort_from_app n l r :
  n = length r ->
  exists l', rev l' = sort_from n (length l) (rev l ++ r) /\
    l' = fold_left ins_rev r l.
Proof.
  intros ->. revert l. induction r as [|x r IH]; intros l; cbn [length sort_from fold_left].
  { exists l. by rewrite app_nil_r. }
  rewrite sink_ins.
  assert (S (length l) = length (ins_rev l x)) as ->.
  { clear. induction l as [|y l IH]; cbn; [done|]. destruct (gt y x); cbn; lia. }
  apply IH.
Qed.

(** The loop is insertion of the elements one after the other. *)
Lemma insertion_sort_fold inp : insertion_sort inp = rev (fold_left ins_rev inp []).
Proof.
  unfold insertion_sort. destruct inp as [|x r]; [done|].
  cbn [length]. rewrite Nat.sub_succ, Nat.sub_0_r.
  destruct (sort_from_app (length r) [x] r eq_refl) as (l' & Hl & ->). cbn in Hl. by rewrite <- Hl.
Qed.

Lemma ins_rev_perm l x : ins_rev l x ≡ₚ x :: l.
Proof.
  induction l as [|y l IH]; cbn; [done|]. destruct (gt y x); [|done].
  rewrite IH. apply Permutation_swap.
Qed.

Lemma fold_ins_perm r l : fold_left ins_rev r l ≡ₚ r ++ l.
Proof.
  revert l. induction r as [|x r IH]; intros l; cbn; [done|].
  rewrite IH, ins_rev_perm. by rewrite Permutation_middle.
Qed.

Lemma insertion_sort_perm inp : insertion_sort inp ≡ₚ inp.
Proof.
  rewrite insertion_sort_fold, <- Permutation_rev, fold_ins_perm, app_nil_r. done.
Qed.

(** The relation the loop sorts by. *)
Definition le_of (a b : A) : Prop := gt a b = false.

Hypothesis gt_total : forall a b, gt a b = true -> gt b a = false.
Hypothesis le_trans : forall a b c, le_of a b -> le_of b c -> le_of a c.

Lemma ins_rev_sorted l x :
  StronglySorted (flip le_of) l -> StronglySorted (flip le_of) (ins_rev l x).
Proof.
  induction 1 as [|y l Hl IH Hy]; cbn; [repeat constructor|].
  destruct (gt y x) eqn:E.
  - constructor; [done|]. rewrite ins_rev_perm. constructor; [|done]. by apply gt_total.
  - constructor; [by constructor|]. constructor; [exact E|].
    eapply Forall_impl; [exact Hy|]. unfold flip. intros z Hz. by eapply le_trans.
Qed.

Lemma StronglySorted_rev l : StronglySorted (flip le_of) l -> StronglySorted le_of (rev l).
Proof.
  induction 1 as [|y l Hl IH Hy]; cbn; [constructor|].
  apply StronglySorted_app_2; [|done|repeat constructor].
  intros a b Ha Hb. apply list_elem_of_singleton in Hb as ->.
  rewrite <- Permutation_rev in Ha. rewrite Forall_forall in Hy. by apply Hy.
Qed.

Lemma insertion_sort_sorted inp : StronglySorted le_of (insertion_sort inp).
Proof.
  rewrite insertion_sort_fold. apply StronglySorted_rev.
  assert (H : StronglySorted (flip le_of) []) by constructor. revert H.
  generalize (@nil A) as l. induction inp as [|x r IH]; intros l Hl; cbn; [done|].
  by apply IH, ins_rev_sorted.
Qed.
End Loop.

(** ** Three-way comparisons *)

Class ThreeWay {A} (cmp : A -> A -> Z) : Prop := {
  cmp_eq a b : cmp a b = 0 <-> a = b;
  cmp_opp a b : cmp b a = - cmp a b;
  cmp_trans a b c : cmp a b < 0 -> cmp b c < 0 -> cmp a c < 0 }.

Lemma cmp_zero {A} (cmp : A -> A -> Z) `{!ThreeWay cmp} a b : cmp a b = 0 -> a = b.
Proof. apply cmp_eq. Qed.

(** Comparison of integers, [-1], [0] or [1]. *)
Definition cmpZ (a b : Z) : Z := if a <? b then -1 else if b <? a then 1 else 0.

#[export] Instance cmpZ_three_way : ThreeWay cmpZ.
Proof.
  split; unfold cmpZ; intros a b; [..|intros c];
    repeat match goal with |- context [?x <? ?y] => destruct (Z.ltb_spec x y) end; lia.
Qed.

Section Lex.
Context {A : Type} (cmp : A -> A -> Z) `{!ThreeWay cmp}.

(** The first difference decides, then the length. *)
Fixpoint lexcmp (a b : list A) : Z :=
  match a, b with
  | [], [] => 0
  | [], _ => -1
  | _, [] => 1
  | x :: a, y :: b => if cmp x y =? 0 then lexcmp a b else cmp x y
  end.

Lemma lexcmp_eq a b : lexcmp a b = 0 <-> a = b.
Proof.
  revert b. induction a as [|x a IH]; intros [|y b]; cbn; try done.
  destruct (cmp x y =? 0) eqn:E; reflect_bools.
  - apply cmp_eq in E as ->. rewrite IH. split; congruence.
  - split; [done|]. intros [= -> ->]. destruct E. by apply cmp_eq.
Qed.

Lemma lexcmp_opp a b : lexcmp b a = - lexcmp a b.
Proof.
  revert b. induction a as [|x a IH]; intros [|y b]; cbn; try done.
  rewrite (cmp_opp x y). destruct (cmp x y =? 0) eqn:E; reflect_bools.
  - rewrite E. apply IH.
  - replace (- cmp x y =? 0) with false by lia. done.
Qed.

Lemma lexcmp_trans a b c : lexcmp a b < 0 -> lexcmp b c < 0 -> lexcmp a c < 0.
Proof.
  revert b c. induction a as [|x a IH]; intros [|y b] [|z c]; cbn; try done; try lia.
  destruct (cmp x y =? 0) eqn:E1; reflect_bools.
  - apply cmp_eq in E1 as ->. destruct (cmp y z =? 0); [apply IH|done].
  - intros H1. destruct (cmp y z =? 0) eqn:E2; reflect_bools.
    + apply cmp_eq in E2 as ->. by replace (cmp x z =? 0) with false by lia.
    + intros H2. pose proof (cmp_trans _ _ _ H1 H2). by replace (cmp x z =? 0) with false by lia.
Qed.

#[export] Instance lexcmp_three_way : ThreeWay lexcmp.
Proof. split; [apply lexcmp_eq|apply lexcmp_opp|apply lexcmp_trans]. Qed.
End Lex.

(** Comparison of pairs, the first components first. *)
Definition paircmp {A B} (ca : A -> A -> Z) (cb : B -> B -> Z) (p q : A * B) : Z :=
  if ca p.1 q.1 =? 0 then cb p.2 q.2 else ca p.1 q.1.

#[export] Instance paircmp_three_way {A B} (ca : A -> A -> Z) (cb : B -> B -> Z) :
  ThreeWay ca -> ThreeWay cb -> ThreeWay (paircmp ca cb).
Proof.
  intros Ha Hb. split; unfold paircmp.
  - intros [a b] [a' b']; cbn. destruct (ca a a' =? 0) eqn:E; reflect_bools.
    + apply cmp_eq in E as ->. rewrite cmp_eq. split; congruence.
    + split; [done|]. intros [= -> ->]. destruct E. by apply cmp_eq.
  - intros [a b] [a' b']; cbn. rewrite (cmp_opp a a'). destruct (ca a a' =? 0) eqn:E; reflect_bools.
    + rewrite E. apply cmp_opp.
    + by replace (- ca a a' =? 0) with false by lia.
  - intros [a b] [a' b'] [a'' b'']; cbn.
    destruct (ca a a' =? 0) eqn:E1; reflect_bools.
    + apply cmp_eq in E1 as ->. destruct (ca a' a'' =? 0); [apply cmp_trans|done].
    + intros H1. destruct (ca a' a'' =? 0) eqn:E2; reflect_bools.
      * apply cmp_eq in E2 as ->. by replace (ca a a'' =? 0) with false by lia.
      * intros H2. pose proof (cmp_trans _ _ _ H1 H2). by replace (ca a a'' =? 0) with false by lia.
Qed.

(** ** Bytes *)

Definition cmp_byte (a b : Byte.byte) : Z := cmpZ (byteZ a) (byteZ b).

(** [bytes.Compare]. *)
Definition bytes_Compare : bytes -> bytes -> Z := lexcmp cmp_byte.

#[export] Instance cmp_byte_three_way : ThreeWay cmp_byte.
Proof.
  split; unfold cmp_byte; intros.
  - rewrite cmp_eq. split; [apply byteZ_inj|by intros ->].
  - apply cmp_opp.
  - by eapply cmp_trans.
Qed.

#[export] Instance bytes_Compare_three_way : ThreeWay bytes_Compare := lexcmp_three_way cmp_byte.

(** ** Sorting by a key *)

Section ByKey.
Context {A K : Type} (key : A -> K) (cmp : K -> K -> Z) `{!ThreeWay cmp}.

Definition key_gt (a b : A) : bool := 0 <? cmp (key a) (key b).

Lemma key_le a b : le_of key_gt a b <-> cmp (key a) (key b) <= 0.
Proof. unfold le_of, key_gt. rewrite Z.ltb_ge. done. Qed.

Lemma key_gt_total a b : key_gt a b = true -> key_gt b a = false.
Proof. unfold key_gt. rewrite (cmp_opp (key a) (key b)). intros. lia. Qed.

Lemma key_le_trans a b c : le_of key_gt a b -> le_of key_gt b c -> le_of key_gt a c.
Proof.
  rewrite !key_le. intros H1 H2.
  destruct (decide (cmp (key a) (key b) = 0)) as [E|]; [apply cmp_eq in E as ->; done|].
  destruct (decide (cmp (key b) (key c) = 0)) as [E|]; [rewrite <- (proj1 (cmp_eq _ _) E); exact H1|].
  pose proof (cmp_trans (key a) (key b) (key c)). lia.
Qed.

Lemma key_le_antisym a b : le_of key_gt a b -> le_of key_gt b a -> key a = key b.
Proof. rewrite !key_le, (cmp_opp (key a) (key b)). intros. apply cmp_eq. lia. Qed.

Definition sort_key : list A -> list A := insertion_sort key_gt.

Lemma sort_key_sorted l : StronglySorted (le_of key_gt) (sort_key l).
Proof. apply insertion_sort_sorted; [apply key_gt_total|apply key_le_trans]. Qed.

(** Sorting forgets the order of its input when the keys are distinct. *)
Lemma sort_key_canonical l l' :
  l ≡ₚ l' -> NoDup (map key l) -> sort_key l = sort_key l'.
Proof.
  intros Hp Hnd. apply (StronglySorted_unique_strong (le_of key_gt)).
  - intros x y Hx Hy H1 H2. unfold sort_key in Hx, Hy. rewrite insertion_sort_perm in Hx, Hy.
    rewrite <- Hp in Hy. pose proof (key_le_antisym _ _ H1 H2) as E.
    apply list_elem_of_lookup in Hx as [i Hi]. apply list_elem_of_lookup in Hy as [j Hj].
    assert (i = j) as -> by (eapply (NoDup_lookup _ _ _ (key x) Hnd);
      rewrite list_lookup_fmap; [by rewrite Hi|by rewrite Hj, E]).
    congruence.
  - apply sort_key_sorted.
  - apply sort_key_sorted.
  - unfold sort_key. by rewrite !insertion_sort_perm.
Qed.

(** Strictly sorted when the keys are distinct. *)
Lemma sort_key_strict l :
  NoDup (map key l) -> StronglySorted (fun a b => cmp (key a) (key b) < 0) (sort_key l).
Proof.
  intros Hnd. assert (Hn : NoDup (map key (sort_key l))).
  { unfold sort_key. by rewrite insertion_sort_perm. }
  pose proof (sort_key_sorted l) as Hs. revert Hn. induction Hs as [|a l' Hs IH Ha]; intros Hn; constructor.
  - apply IH. by apply NoDup_cons in Hn as [_ ?].
  - apply NoDup_cons in Hn as [Hn _]. rewrite Forall_forall in *. intros b Hb. specialize (Ha b Hb). rewrite key_le in Ha.
    destruct (decide (cmp (key a) (key b) = 0)) as [E|]; [|lia]. apply cmp_zero in E; [|done].
    destruct Hn. rewrite E. apply list_elem_of_fmap. by exists b.
Qed.

Lemma sort_key_keys l l' : l ≡ₚ l' -> map key (sort_key l) = map key (sort_key l').
Proof.
  intros Hp. apply (StronglySorted_unique_strong (fun a b => cmp a b <= 0)).
  - intros x y _ _ H1 H2. rewrite (cmp_opp x y) in H2. apply cmp_eq. lia.
  - eapply StronglySorted_fmap; [|apply sort_key_sorted]. intros a b. apply key_le.
  - eapply StronglySorted_fmap; [|apply sort_key_sorted]. intros a b. apply key_le.
  - apply Permutation_map. unfold sort_key. by rewrite !insertion_sort_perm.
Qed.
End ByKey.

End Sorting.
