(* ===== verification/Resource.v ===== *)
(** * Resource admission (internal/resource/resource.go)

    Pre-allocation admission checks: every operation of the package, with the
    overflow checks written on 64-bit unsigned integers, and the cumulative
    [Budget].  The theorems state what admission guarantees: arithmetic that
    succeeds is exact, and a budget never exceeds its envelope whatever
    sequence of requests it sees. *)

From S2P Require Import Prelude.

Module Resource.

Record Limits := mkLimits {
  MaxBytes : Z;
  MaxCount : Z;
  MaxNesting : Z;
  MaxQueueDepth : Z;
  MaxConcurrent : Z;
  MaxRetries : Z }.

Definition DefaultLimits : Limits :=
  mkLimits (Z.shiftl 16 20) (Z.shiftl 1 20) 1024 1024 256 64.

Inductive Kind :=
| KindBytes | KindCount | KindNesting | KindQueue | KindConcurrent | KindRetries
| KindOverflow.

(** The typed refusal; the diagnostic text is left out. *)
Record Error := refuse { ErrKind : Kind; ErrLimit : Z; ErrRequest : Z }.

#[global] Instance Kind_eq_dec : EqDecision Kind.
Proof. solve_decision. Defined.

#[global] Instance Error_eq_dec : EqDecision Error.
Proof. solve_decision. Defined.

Definition AdmitBytes (l : Limits) (n : Z) : res Error unit :=
  if MaxBytes l =? 0 then Err (refuse KindBytes 0 n)
  else if MaxBytes l <? n then Err (refuse KindBytes (MaxBytes l) n)
  else Ok tt.

Definition AdmitCount (l : Limits) (n : Z) : res Error unit :=
  if MaxCount l =? 0 then Err (refuse KindCount 0 n)
  else if MaxCount l <? n then Err (refuse KindCount (MaxCount l) n)
  else Ok tt.

Definition AdmitNesting (l : Limits) (depth : Z) : res Error unit :=
  if MaxNesting l =? 0 then Err (refuse KindNesting 0 depth)
  else if MaxNesting l <? depth then Err (refuse KindNesting (MaxNesting l) depth)
  else Ok tt.

Definition AdmitQueue (l : Limits) (depth : Z) : res Error unit :=
  if MaxQueueDepth l =? 0 then Err (refuse KindQueue 0 depth)
  else if MaxQueueDepth l <? depth then Err (refuse KindQueue (MaxQueueDepth l) depth)
  else Ok tt.

Definition AdmitConcurrent (l : Limits) (n : Z) : res Error unit :=
  if MaxConcurrent l =? 0 then Err (refuse KindConcurrent 0 n)
  else if MaxConcurrent l <? n then Err (refuse KindConcurrent (MaxConcurrent l) n)
  else Ok tt.

Definition AdmitRetries (l : Limits) (n : Z) : res Error unit :=
  if MaxRetries l =? 0 then Err (refuse KindRetries 0 n)
  else if MaxRetries l <? n then Err (refuse KindRetries (MaxRetries l) n)
  else Ok tt.

Definition AddUint64 (a b : Z) : res Error Z :=
  if MaxUint64 - b <? a then Err (refuse KindOverflow MaxUint64 a)
  else Ok (u64 (a + b)).

Definition MulUint64 (a b : Z) : res Error Z :=
  if (a =? 0) || (b =? 0) then Ok 0
  else if MaxUint64 / b <? a then Err (refuse KindOverflow MaxUint64 a)
  else Ok (u64 (a * b)).

Definition AdmitSliceCap (l : Limits) (n elemSize : Z) : res Error unit :=
  let! _ := AdmitCount l n in
  let! total := MulUint64 n elemSize in
  AdmitBytes l total.

Record Budget := mkBudget { BLimits : Limits; Bytes : Z; Count : Z }.

(** The budget is updated in place; a refusal leaves it as it was. *)
Definition ConsumeBytes (b : Budget) (n : Z) : res Error Budget :=
  let! sum := AddUint64 (Bytes b) n in
  let! _ := AdmitBytes (BLimits b) sum in
  Ok (mkBudget (BLimits b) sum (Count b)).

Definition ConsumeCount (b : Budget) (n : Z) : res Error Budget :=
  let! sum := AddUint64 (Count b) n in
  let! _ := AdmitCount (BLimits b) sum in
  Ok (mkBudget (BLimits b) (Bytes b) sum).

(** ** Admission *)

Lemma AdmitBytes_ok l n : AdmitBytes l n = Ok tt <-> MaxBytes l <> 0 /\ n <= MaxBytes l.
Proof. unfold AdmitBytes. repeat case_if; split; intros; try discriminate; (done || lia). Qed.

Lemma AdmitCount_ok l n : AdmitCount l n = Ok tt <-> MaxCount l <> 0 /\ n <= MaxCount l.
Proof. unfold AdmitCount. repeat case_if; split; intros; try discriminate; (done || lia). Qed.

Lemma AdmitQueue_ok l n :
  AdmitQueue l n = Ok tt <-> MaxQueueDepth l <> 0 /\ n <= MaxQueueDepth l.
Proof. unfold AdmitQueue. repeat case_if; split; intros; try discriminate; (done || lia). Qed.

Lemma AddUint64_ok a b r :
  is_u64 a -> is_u64 b -> AddUint64 a b = Ok r <-> r = a + b /\ is_u64 r.
Proof.
  unfold AddUint64, is_u64, MaxUint64, u64. intros Ha Hb. case_if; split.
  - discriminate.
  - lia.
  - intros [= <-]. rewrite Z.mod_small by lia. lia.
  - intros [-> Hr]. by rewrite Z.mod_small by lia.
Qed.

Lemma MulUint64_ok a b r :
  is_u64 a -> is_u64 b -> MulUint64 a b = Ok r <-> r = a * b /\ is_u64 r.
Proof.
  unfold MulUint64, is_u64, MaxUint64, u64. intros Ha Hb.
  destruct ((a =? 0) || (b =? 0)) eqn:E0.
  { assert (a * b = 0) as -> by nia. split; [intros [= <-]|intros [-> _]]; split || done; lia. }
  assert (0 < b) by lia.
  destruct (_ <? a) eqn:E; split; try discriminate.
  - intros [-> Hr].
    assert (a <= 18446744073709551615 / b); [|lia].
    apply Z.div_le_lower_bound; lia.
  - intros [= <-].
    assert (b * a <= 18446744073709551615).
    { etransitivity; [|apply (Z.mul_div_le _ b); lia].
      apply Z.mul_le_mono_nonneg_l; lia. }
    rewrite Z.mod_small by lia. lia.
  - intros [-> Hr]. by rewrite Z.mod_small.
Qed.

(** ** Budgets *)

(** One request on a budget; a refused request leaves it unchanged. *)
Inductive request := RBytes (n : Z) | RCount (n : Z).

Definition consume (b : Budget) (r : request) : Budget :=
  match (match r with RBytes n => ConsumeBytes b n | RCount n => ConsumeCount b n end) with
  | Ok b' => b'
  | _ => b
  end.

Definition request_ok (r : request) : Prop :=
  match r with RBytes n | RCount n => is_u64 n end.

Definition within (b : Budget) : Prop :=
  is_u64 (Bytes b) /\ is_u64 (Count b) /\
  Bytes b <= MaxBytes (BLimits b) /\ Count b <= MaxCount (BLimits b).

Lemma ConsumeBytes_ok b n b' :
  is_u64 (Bytes b) -> is_u64 n -> ConsumeBytes b n = Ok b' ->
  b' = mkBudget (BLimits b) (Bytes b + n) (Count b) /\
  is_u64 (Bytes b + n) /\ Bytes b + n <= MaxBytes (BLimits b).
Proof.
  unfold ConsumeBytes. intros Hb Hn H. inv_ok H.
  match goal with H : AddUint64 _ _ = _ |- _ => apply AddUint64_ok in H as [-> ?]; [|done..] end.
  match goal with H : AdmitBytes _ _ = Ok ?u |- _ => destruct u; apply AdmitBytes_ok in H as [? ?] end.
  done.
Qed.

Lemma ConsumeCount_ok b n b' :
  is_u64 (Count b) -> is_u64 n -> ConsumeCount b n = Ok b' ->
  b' = mkBudget (BLimits b) (Bytes b) (Count b + n) /\
  is_u64 (Count b + n) /\ Count b + n <= MaxCount (BLimits b).
Proof.
  unfold ConsumeCount. intros Hb Hn H. inv_ok H.
  match goal with H : AddUint64 _ _ = _ |- _ => apply AddUint64_ok in H as [-> ?]; [|done..] end.
  match goal with H : AdmitCount _ _ = Ok ?u |- _ => destruct u; apply AdmitCount_ok in H as [? ?] end.
  done.
Qed.

Lemma consume_within b r : request_ok r -> within b -> within (consume b r).
Proof.
  intros Hr Hw. pose proof Hw as (? & ? & ? & ?). unfold consume. destruct r as [n|n].
  - destruct (ConsumeBytes b n) eqn:E; [|done..].
    apply ConsumeBytes_ok in E as (-> & ? & ?); done.
  - destruct (ConsumeCount b n) eqn:E; [|done..].
    apply ConsumeCount_ok in E as (-> & ? & ?); done.
Qed.

(** A budget that starts within its limits stays within them, in machine
    range, under every sequence of byte and count requests, refused or not. *)
Lemma budget_within_limits rs b :
  Forall request_ok rs -> within b -> within (fold_left consume rs b).
Proof.
  intros Hrs. revert b. induction Hrs as [|r rs Hr _ IH]; intros b Hb; [done|].
  apply IH, consume_within; done.
Qed.

Definition budget_demo : Budget := mkBudget (mkLimits 10 5 1 1 1 1) 0 0.

Lemma budget_within_limits_witness :
  within (fold_left consume [RBytes 7; RBytes 7; RCount 5; RCount 1; RBytes 3] budget_demo) /\
  fold_left consume [RBytes 7; RBytes 7; RCount 5; RCount 1; RBytes 3] budget_demo =
  mkBudget (mkLimits 10 5 1 1 1 1) 10 5.
Proof.
  split; [|vm_compute; reflexivity].
  apply (budget_within_limits [RBytes 7; RBytes 7; RCount 5; RCount 1; RBytes 3] budget_demo).
  - repeat constructor; vm_compute; congruence.
  - repeat split; vm_compute; congruence.
Defined.

End Resource.
