(* ===== verification/Codec.v ===== *)
(** * Canonical journal-record codec (internal/codec)

    The little-endian primitives ([le.go]), the size admission ([admit.go]),
    the digest helpers ([digest.go]) and the INTJRN01 record envelope
    ([journal.go]), with Go's bounds checks: a slice or index out of range is
    [Panic].  The theorems: encoding and decoding are inverse to each other on
    the nose (one record has one encoding), decoding never panics on any input,
    trailing bytes do not matter, and every proper prefix of a record decodes
    as incomplete. *)

From S2P Require Import Prelude Sha256 Resource.

Module Codec.

(** ** Errors (errors.go) *)

Inductive Kind :=
| KindIncomplete | KindNonCanonical | KindLimit | KindUnsupported | KindDigest.

(** The typed failure: kind and field; the message is diagnostic text that
    callers must not match on. *)
Record Error := mkError { ErrKind : Kind; ErrField : string }.

#[global] Instance Kind_eq_dec : EqDecision Kind.
Proof. solve_decision. Defined.

#[global] Instance Error_eq_dec : EqDecision Error.
Proof. solve_decision. Defined.

Definition incomplete (field : string) : Error := mkError KindIncomplete field.
Definition nonCanonical (field : string) : Error := mkError KindNonCanonical field.
Definition limit (field : string) : Error := mkError KindLimit field.
Definition unsupported (field : string) : Error := mkError KindUnsupported field.
Definition digestErr (field : string) : Error := mkError KindDigest field.

Definition AsKind (e : Error) (k : Kind) : bool := bool_decide (ErrKind e = k).

(** ** Little-endian primitives (le.go) *)

Section LE.
Context {E : Type}.

Definition PutU16LE (b : bytes) (v : Z) : res E bytes :=
  let! b := set_index b 0 (byte_of v) in
  set_index b 1 (byte_of (Z.shiftr v 8)).

Definition PutU32LE (b : bytes) (v : Z) : res E bytes :=
  let! b := set_index b 0 (byte_of v) in
  let! b := set_index b 1 (byte_of (Z.shiftr v 8)) in
  let! b := set_index b 2 (byte_of (Z.shiftr v 16)) in
  set_index b 3 (byte_of (Z.shiftr v 24)).

Definition PutU64LE (b : bytes) (v : Z) : res E bytes :=
  let! b := set_index b 0 (byte_of v) in
  let! b := set_index b 1 (byte_of (Z.shiftr v 8)) in
  let! b := set_index b 2 (byte_of (Z.shiftr v 16)) in
  let! b := set_index b 3 (byte_of (Z.shiftr v 24)) in
  let! b := set_index b 4 (byte_of (Z.shiftr v 32)) in
  let! b := set_index b 5 (byte_of (Z.shiftr v 40)) in
  let! b := set_index b 6 (byte_of (Z.shiftr v 48)) in
  set_index b 7 (byte_of (Z.shiftr v 56)).

Definition U16LE (b : bytes) : res E Z :=
  let! b0 := index b 0 in
  let! b1 := index b 1 in
  Ok (Z.lor (byteZ b0) (Z.shiftl (byteZ b1) 8)).

Definition U32LE (b : bytes) : res E Z :=
  let! b0 := index b 0 in
  let! b1 := index b 1 in
  let! b2 := index b 2 in
  let! b3 := index b 3 in
  Ok (Z.lor (Z.lor (Z.lor (byteZ b0) (Z.shiftl (byteZ b1) 8))
                   (Z.shiftl (byteZ b2) 16)) (Z.shiftl (byteZ b3) 24)).

Definition U64LE (b : bytes) : res E Z :=
  let! b0 := index b 0 in
  let! b1 := index b 1 in
  let! b2 := index b 2 in
  let! b3 := index b 3 in
  let! b4 := index b 4 in
  let! b5 := index b 5 in
  let! b6 := index b 6 in
  let! b7 := index b 7 in
  Ok (Z.lor (Z.lor (Z.lor (Z.lor (Z.lor (Z.lor (Z.lor
       (byteZ b0) (Z.shiftl (byteZ b1) 8)) (Z.shiftl (byteZ b2) 16))
       (Z.shiftl (byteZ b3) 24)) (Z.shiftl (byteZ b4) 32)) (Z.shiftl (byteZ b5) 40))
       (Z.shiftl (byteZ b6) 48)) (Z.shiftl (byteZ b7) 56)).

End LE.

(** ** Digests (digest.go) *)

Definition DigestSize : Z := 32.
Definition SHA256 (data : bytes) : bytes := sha256 data.
Definition GenesisCommitment : bytes := zeros 32.

(** ** The record envelope (journal.go) *)

Definition FormatVersion : Z := 1.
Definition HeaderLength : Z := 108.
Definition RecordOverhead : Z := 152.
Definition MaxPayloadBytes : Z := Z.shiftl 1 20.
Definition MaxRecordBytes : Z := RecordOverhead + MaxPayloadBytes.
Definition MaxJournalSegmentBytes : Z := Z.shiftl 1 30.
Definition TransactionIDSize : Z := 16.
Definition minFramingBytes : Z := 16.

Definition RecordMagic : bytes := str "INTJRN01".
Definition TrailerMagic : bytes := str "INTJRN0T".

Definition TypeObservation : Z := 1.
Definition TypePlanDigest : Z := 2.
Definition TypeAuthorization : Z := 3.
Definition TypeProgress : Z := 4.
Definition TypeConfirmation : Z := 5.
Definition TypeCancellation : Z := 6.
Definition TypeQuarantine : Z := 7.
Definition TypeRecovery : Z := 8.
Definition TypeCheckpoint : Z := 9.
Definition TypeEvidenceReference : Z := 10.

Definition ValidRecordType (t : Z) : bool :=
  (TypeObservation <=? t) && (t <=? TypeEvidenceReference).

Record RecordFields := mkFields {
  FSequence : Z;
  FTransactionID : bytes;
  FType : Z;
  FPreviousCommitment : bytes;
  FPayload : bytes }.

Record Record_ := mkRecord {
  Sequence : Z;
  TransactionID : bytes;
  Type_ : Z;
  PayloadDigest : bytes;
  PreviousCommitment : bytes;
  Payload : bytes;
  RecordCommitment : bytes;
  RecordLength : Z }.

#[global] Instance Record_eq_dec : EqDecision Record_.
Proof. solve_decision. Defined.

(** [admitRecordBytes] (admit.go). *)
Definition admitRecordBytes (n : Z) : res Error unit :=
  map_err (fun _ => limit "record_length")
    (Resource.AdmitBytes (Resource.mkLimits MaxRecordBytes 1 1 1 1 1) n).

Definition commitmentPreimage (recordLen seq : Z) (txid : bytes) (rtype : Z)
    (payloadDigest prev payload : bytes) : res Error bytes :=
  let n := 8 + 2 + 2 + 4 + 8 + TransactionIDSize + 2 + 2 + DigestSize + DigestSize + len payload in
  let buf := zeros n in
  let! buf := copy_into buf 0 8 RecordMagic in
  let! buf := with_slice buf 8 10 (fun s => PutU16LE s FormatVersion) in
  let! buf := with_slice buf 10 12 (fun s => PutU16LE s HeaderLength) in
  let! buf := with_slice buf 12 16 (fun s => PutU32LE s recordLen) in
  let! buf := with_slice buf 16 24 (fun s => PutU64LE s seq) in
  let! buf := copy_into buf 24 40 txid in
  let! buf := with_slice buf 40 42 (fun s => PutU16LE s rtype) in
  let! buf := with_slice buf 42 44 (fun s => PutU16LE s 0) in
  let! buf := copy_into buf 44 76 payloadDigest in
  let! buf := copy_into buf 76 108 prev in
  copy_into buf 108 n payload.

Definition EncodeRecord (f : RecordFields) : res Error bytes :=
  if FSequence f =? 0 then Err (nonCanonical "sequence")
  else if negb (ValidRecordType (FType f)) then Err (unsupported "record_type")
  else if (FSequence f =? 1) && negb (bool_decide (FPreviousCommitment f = GenesisCommitment))
  then Err (nonCanonical "previous_commitment")
  else
  let payloadLen := len (FPayload f) in
  if MaxPayloadBytes <? payloadLen then Err (limit "payload")
  else
  let recordLen := RecordOverhead + payloadLen in
  if MaxRecordBytes <? recordLen then Err (limit "record_length")
  else
  let! _ := admitRecordBytes (u64 recordLen) in
  let payloadDigest := SHA256 (FPayload f) in
  let out := zeros recordLen in
  let! out := copy_into out 0 8 RecordMagic in
  let! out := with_slice out 8 10 (fun s => PutU16LE s FormatVersion) in
  let! out := with_slice out 10 12 (fun s => PutU16LE s HeaderLength) in
  let! out := with_slice out 12 16 (fun s => PutU32LE s (u32 recordLen)) in
  let! out := with_slice out 16 24 (fun s => PutU64LE s (FSequence f)) in
  let! out := copy_into out 24 40 (FTransactionID f) in
  let! out := with_slice out 40 42 (fun s => PutU16LE s (FType f)) in
  let! out := with_slice out 42 44 (fun s => PutU16LE s 0) in
  let! out := copy_into out 44 76 payloadDigest in
  let! out := copy_into out 76 108 (FPreviousCommitment f) in
  let! out := copy_into out 108 (108 + payloadLen) (FPayload f) in
  let! pre := commitmentPreimage (u32 recordLen) (FSequence f) (FTransactionID f) (FType f)
                payloadDigest (FPreviousCommitment f) (FPayload f) in
  let commitment := SHA256 pre in
  let off := 108 + payloadLen in
  let! out := copy_into out off (off + 32) commitment in
  let! out := copy_into out (off + 32) (off + 40) TrailerMagic in
  with_slice out (off + 40) (off + 44) (fun s => PutU32LE s (u32 recordLen)).

Definition DecodeRecord (b : bytes) : res Error (Record_ * Z) :=
  if len b <? 8 then Err (incomplete "record") else
  let! magic := slice b 0 8 in
  if negb (bool_decide (magic = RecordMagic)) then Err (nonCanonical "magic") else
  if len b <? minFramingBytes then Err (incomplete "record") else
  let! s := slice b 8 10 in
  let! version := U16LE s in
  if negb (version =? FormatVersion) then Err (unsupported "format_version") else
  let! s := slice b 10 12 in
  let! headerLen := U16LE s in
  if negb (headerLen =? HeaderLength) then Err (nonCanonical "header_length") else
  let! s := slice b 12 16 in
  let! recordLen := U32LE s in
  if recordLen <? RecordOverhead then Err (nonCanonical "record_length") else
  if MaxRecordBytes <? recordLen then Err (limit "record_length") else
  if len b <? recordLen then Err (incomplete "record") else
  let! s := slice b 16 24 in
  let! seq := U64LE s in
  if seq =? 0 then Err (nonCanonical "sequence") else
  let! s := slice b 24 40 in
  let txid := copy (zeros 16) s in
  let! s := slice b 40 42 in
  let! rtype := U16LE s in
  if negb (ValidRecordType rtype) then Err (unsupported "record_type") else
  let! s := slice b 42 44 in
  let! reserved := U16LE s in
  if negb (reserved =? 0) then Err (nonCanonical "reserved") else
  let payloadLen := recordLen - RecordOverhead in
  if (payloadLen <? 0) || (MaxPayloadBytes <? payloadLen) then Err (limit "payload") else
  let! _ := admitRecordBytes (u64 recordLen) in
  let! s := slice b 44 76 in
  let payloadDigest := copy (zeros 32) s in
  let! s := slice b 76 108 in
  let prev := copy (zeros 32) s in
  let! s := slice b 108 (108 + payloadLen) in
  let payload := copy (zeros payloadLen) s in
  if negb (bool_decide (SHA256 payload = payloadDigest)) then Err (digestErr "payload_digest") else
  if (seq =? 1) && negb (bool_decide (prev = GenesisCommitment))
  then Err (nonCanonical "previous_commitment") else
  let off := 108 + payloadLen in
  let! s := slice b off (off + 32) in
  let commitment := copy (zeros 32) s in
  let! s := slice b (off + 32) (off + 40) in
  if negb (bool_decide (s = TrailerMagic)) then Err (nonCanonical "trailer_magic") else
  let! s := slice b (off + 40) (off + 44) in
  let! trailerLen := U32LE s in
  if negb (trailerLen =? recordLen) then Err (nonCanonical "record_length") else
  let! pre := commitmentPreimage recordLen seq txid rtype payloadDigest prev payload in
  if negb (bool_decide (SHA256 pre = commitment)) then Err (digestErr "record_commitment") else
  Ok (mkRecord seq txid rtype payloadDigest prev payload commitment recordLen, recordLen).

(** ** Little-endian primitives against [le_bytes] and [le_val] *)

Lemma PutU16LE_fill {E} v : @PutU16LE E (zeros 2) v = Ok (le_bytes 2 v).
Proof.
  unfold PutU16LE. cbn.
  by rewrite Z.shiftr_div_pow2 by lia.
Qed.

Lemma PutU32LE_fill {E} v : @PutU32LE E (zeros 4) v = Ok (le_bytes 4 v).
Proof.
  unfold PutU32LE. cbn.
  by rewrite !Z.shiftr_div_pow2, !Z.div_div by lia.
Qed.

Lemma PutU64LE_fill {E} v : @PutU64LE E (zeros 8) v = Ok (le_bytes 8 v).
Proof.
  unfold PutU64LE. cbn.
  by rewrite !Z.shiftr_div_pow2, !Z.div_div by lia.
Qed.

Ltac le_bound :=
  repeat match goal with
  | b : Byte.byte |- _ =>
      lazymatch goal with
      | _ : 0 <= byteZ b < 256 |- _ => fail
      | _ => pose proof (byteZ_range b)
      end
  end.

Lemma U16LE_ok {E} b : len b = 2 -> @U16LE E b = Ok (le_val b).
Proof.
  intros H. destruct b as [|x0 [|x1 [|]]];
    rewrite ?len_cons, ?len_nil in H; try lia.
  2:{ pose proof (len_nonneg l). lia. }
  unfold U16LE. cbv -[Z.lor Z.shiftl Z.mul Z.add byteZ]. le_bound.
  rewrite lor_shiftl_add by lia. f_equal. lia.
Qed.

Lemma U32LE_ok {E} b : len b = 4 -> @U32LE E b = Ok (le_val b).
Proof.
  intros H. destruct b as [|x0 [|x1 [|x2 [|x3 [|]]]]];
    rewrite ?len_cons, ?len_nil in H; try lia.
  2:{ pose proof (len_nonneg l). lia. }
  unfold U32LE. cbv -[Z.lor Z.shiftl Z.mul Z.add byteZ]. le_bound.
  rewrite (lor_shiftl_add (byteZ x0)) by lia.
  do 2 (rewrite (lor_shiftl_add (_ + _)) by lia).
  f_equal. lia.
Qed.

Lemma U64LE_ok {E} b : len b = 8 -> @U64LE E b = Ok (le_val b).
Proof.
  intros H. destruct b as [|x0 [|x1 [|x2 [|x3 [|x4 [|x5 [|x6 [|x7 [|]]]]]]]]];
    rewrite ?len_cons, ?len_nil in H; try lia.
  2:{ pose proof (len_nonneg l). lia. }
  unfold U64LE. cbv -[Z.lor Z.shiftl Z.mul Z.add byteZ]. le_bound.
  rewrite (lor_shiftl_add (byteZ x0)) by lia.
  do 6 (rewrite (lor_shiftl_add (_ + _)) by lia).
  f_equal. lia.
Qed.

(** ** Filling a zeroed buffer with fields *)

Lemma put16_fill {E} (p : bytes) m lo hi v :
  lo = len p -> hi = lo + 2 -> 2 <= m ->
  @with_slice E _ (p ++ zeros m) lo hi (fun s => PutU16LE s v) =
  Ok ((p ++ le_bytes 2 v) ++ zeros (m - 2)).
Proof.
  intros. apply (with_slice_fill p (le_bytes 2 v) m);
    rewrite ?len_le_bytes; try done. apply PutU16LE_fill.
Qed.

Lemma put32_fill {E} (p : bytes) m lo hi v :
  lo = len p -> hi = lo + 4 -> 4 <= m ->
  @with_slice E _ (p ++ zeros m) lo hi (fun s => PutU32LE s v) =
  Ok ((p ++ le_bytes 4 v) ++ zeros (m - 4)).
Proof.
  intros. apply (with_slice_fill p (le_bytes 4 v) m);
    rewrite ?len_le_bytes; try done. apply PutU32LE_fill.
Qed.

Lemma put64_fill {E} (p : bytes) m lo hi v :
  lo = len p -> hi = lo + 8 -> 8 <= m ->
  @with_slice E _ (p ++ zeros m) lo hi (fun s => PutU64LE s v) =
  Ok ((p ++ le_bytes 8 v) ++ zeros (m - 8)).
Proof.
  intros. apply (with_slice_fill p (le_bytes 8 v) m);
    rewrite ?len_le_bytes; try done. apply PutU64LE_fill.
Qed.

(** ** The layout of a record *)

Definition header (rl seq : Z) (txid : bytes) (t : Z) (pd prev : bytes) : bytes :=
  RecordMagic ++ le_bytes 2 FormatVersion ++ le_bytes 2 HeaderLength ++ le_bytes 4 rl ++
  le_bytes 8 seq ++ txid ++ le_bytes 2 t ++ le_bytes 2 0 ++ pd ++ prev.

Definition trailer (rl : Z) (commitment : bytes) : bytes :=
  commitment ++ TrailerMagic ++ le_bytes 4 rl.

(** What Go's types guarantee of [RecordFields]. *)
Definition wf_fields (f : RecordFields) : Prop :=
  is_u64 (FSequence f) /\ len (FTransactionID f) = 16 /\ is_u16 (FType f) /\
  len (FPreviousCommitment f) = 32.

(** What [EncodeRecord] requires of them. *)
Definition encodable (f : RecordFields) : Prop :=
  1 <= FSequence f /\ 1 <= FType f <= 10 /\
  (FSequence f = 1 -> FPreviousCommitment f = GenesisCommitment) /\
  len (FPayload f) <= MaxPayloadBytes.

Definition record_len (f : RecordFields) : Z := RecordOverhead + len (FPayload f).

Definition preimage_of (f : RecordFields) : bytes :=
  header (record_len f) (FSequence f) (FTransactionID f) (FType f)
    (sha256 (FPayload f)) (FPreviousCommitment f) ++ FPayload f.

Definition commitment_of (f : RecordFields) : bytes := sha256 (preimage_of f).

(** The one canonical encoding of [f]. *)
Definition layout (f : RecordFields) : bytes :=
  preimage_of f ++ trailer (record_len f) (commitment_of f).

(** The decoded record of [f]. *)
Definition record_of (f : RecordFields) : Record_ :=
  mkRecord (FSequence f) (FTransactionID f) (FType f) (sha256 (FPayload f))
    (FPreviousCommitment f) (FPayload f) (commitment_of f) (record_len f).

Definition fields_of (r : Record_) : RecordFields :=
  mkFields (Sequence r) (TransactionID r) (Type_ r) (PreviousCommitment r) (Payload r).

Lemma len_RecordMagic : len RecordMagic = 8.
Proof. done. Qed.

Lemma len_TrailerMagic : len TrailerMagic = 8.
Proof. done. Qed.

#[export] Hint Rewrite len_RecordMagic len_TrailerMagic : len.

Lemma len_header rl seq txid t pd prev :
  len txid = 16 -> len pd = 32 -> len prev = 32 ->
  len (header rl seq txid t pd prev) = 108.
Proof. intros. unfold header. len_lia. Qed.

Lemma len_layout f : wf_fields f -> len (layout f) = record_len f.
Proof.
  intros (? & ? & ? & ?). unfold layout, preimage_of, trailer, commitment_of.
  rewrite !len_app, len_header, !len_sha256, len_le_bytes by (done || apply len_sha256).
  rewrite len_TrailerMagic. unfold record_len, RecordOverhead. lia.
Qed.

Ltac fill_step :=
  first
    [ rewrite put16_fill by len_lia
    | rewrite put32_fill by len_lia
    | rewrite put64_fill by len_lia
    | rewrite copy_into_fill by len_lia ];
  cbn [bind].

Lemma commitmentPreimage_eq rl seq txid t pd prev payload :
  len txid = 16 -> len pd = 32 -> len prev = 32 ->
  commitmentPreimage rl seq txid t pd prev payload =
  Ok (header rl seq txid t pd prev ++ payload).
Proof.
  intros Ht Hd Hp. unfold commitmentPreimage.
  set (n := 8 + 2 + 2 + 4 + 8 + TransactionIDSize + 2 + 2 + DigestSize + DigestSize + len payload).
  assert (Hn : n = 108 + len payload) by (unfold n, TransactionIDSize, DigestSize; lia).
  clearbody n.
  rewrite <- (app_nil_l (zeros n)).
  do 11 fill_step.
  rewrite zeros_done by len_lia. rewrite app_nil_r.
  f_equal. unfold header. by rewrite <- !app_assoc.
Qed.

Lemma admitRecordBytes_ok n :
  0 <= n <= MaxRecordBytes -> admitRecordBytes (u64 n) = Ok tt.
Proof.
  intros H. unfold admitRecordBytes, u64. rewrite Z.mod_small.
  2:{ revert H. cbv [MaxRecordBytes RecordOverhead MaxPayloadBytes Z.shiftl]. simpl. lia. }
  rewrite (proj2 (Resource.AdmitBytes_ok _ _)); [done|].
  split; [done|]. cbn [Resource.MaxBytes]. lia.
Qed.

Lemma MaxPayloadBytes_val : MaxPayloadBytes = 1048576.
Proof. done. Qed.

Lemma EncodeRecord_layout f :
  wf_fields f -> encodable f -> EncodeRecord f = Ok (layout f).
Proof.
  intros (Hseq & Htx & Hty & Hprev) (H1 & H2 & H3 & H4).
  pose proof (len_nonneg (FPayload f)) as Hp0. pose proof MaxPayloadBytes_val as HM.
  unfold EncodeRecord, MaxRecordBytes, RecordOverhead, ValidRecordType,
    TypeObservation, TypeEvidenceReference.
  dec_false (FSequence f =? 0).
  dec_true ((1 <=? FType f) && (FType f <=? 10)). cbn [negb].
  replace ((FSequence f =? 1) && negb (bool_decide (FPreviousCommitment f = GenesisCommitment)))
    with false.
  2:{ destruct (FSequence f =? 1) eqn:E; [|done]. reflect_bools.
      by rewrite bool_decide_true by auto. }
  dec_false (MaxPayloadBytes <? len (FPayload f)).
  dec_false (152 + MaxPayloadBytes <? 152 + len (FPayload f)).
  rewrite admitRecordBytes_ok by (unfold MaxRecordBytes, RecordOverhead; lia). cbn [bind].
  replace (u32 (152 + len (FPayload f))) with (record_len f).
  2:{ unfold record_len, RecordOverhead, u32. rewrite Z.mod_small; lia. }
  rewrite <- (app_nil_l (zeros (152 + _))). unfold SHA256.
  do 11 fill_step.
  rewrite commitmentPreimage_eq by (done || apply len_sha256). cbn [bind].
  do 3 fill_step.
  rewrite zeros_done by len_lia. rewrite app_nil_r.
  f_equal. unfold layout, trailer, commitment_of, preimage_of, header.
  by rewrite <- !app_assoc.
Qed.

(** Everything [EncodeRecord] refuses, and with which error. *)
Lemma EncodeRecord_refused f e :
  wf_fields f -> EncodeRecord f = Err e -> ~ encodable f.
Proof. intros Hw He Henc. rewrite EncodeRecord_layout in He by done. discriminate. Qed.

(** Fields that pass the guards are encodable; the others are refused. *)
Lemma EncodeRecord_guards f :
  wf_fields f -> encodable f \/ exists e, EncodeRecord f = Err e.
Proof.
  intros (Hseq & Htx & Hty & Hprev). unfold EncodeRecord.
  destruct (FSequence f =? 0) eqn:E0; [eauto|].
  destruct (ValidRecordType (FType f)) eqn:E1; [|eauto]. cbn [negb].
  destruct ((FSequence f =? 1) && _) eqn:E2; [eauto|].
  destruct (MaxPayloadBytes <? _) eqn:E3; [eauto|]. left.
  unfold ValidRecordType, TypeObservation, TypeEvidenceReference, is_u64, encodable in *.
  repeat split; try lia. intros Hs1. rewrite Hs1 in E2. cbn in E2.
  by reflect_bools.
Qed.

Lemma EncodeRecord_encodable f b :
  wf_fields f -> EncodeRecord f = Ok b -> encodable f.
Proof.
  intros Hwf H. destruct (EncodeRecord_guards f Hwf) as [|[e He]]; [done|]. by rewrite He in H.
Qed.

Lemma EncodeRecord_no_panic f : wf_fields f -> EncodeRecord f <> Panic.
Proof.
  intros Hwf. destruct (EncodeRecord_guards f Hwf) as [Henc|[e He]].
  - by rewrite EncodeRecord_layout.
  - by rewrite He.
Qed.

(** ** Decoding a canonical encoding *)

(** The fields of a record, read at their offsets. *)
Definition read_as (b : bytes) (f : RecordFields) : Prop :=
  let off := 108 + len (FPayload f) in
  sub b 0 8 = RecordMagic /\ sub b 8 10 = le_bytes 2 FormatVersion /\
  sub b 10 12 = le_bytes 2 HeaderLength /\ sub b 12 16 = le_bytes 4 (record_len f) /\
  sub b 16 24 = le_bytes 8 (FSequence f) /\ sub b 24 40 = FTransactionID f /\
  sub b 40 42 = le_bytes 2 (FType f) /\ sub b 42 44 = le_bytes 2 0 /\
  sub b 44 76 = sha256 (FPayload f) /\ sub b 76 108 = FPreviousCommitment f /\
  sub b 108 off = FPayload f /\ sub b off (off + 32) = commitment_of f /\
  sub b (off + 32) (off + 40) = TrailerMagic /\
  sub b (off + 40) (off + 44) = le_bytes 4 (record_len f).

Lemma layout_read_as f rest : wf_fields f -> read_as (layout f ++ rest) f.
Proof.
  intros (Hseq & Htx & Hty & Hprev).
  unfold read_as, layout, preimage_of, header, trailer.
  assert (Hc : len (commitment_of f) = 32) by apply len_sha256.
  rewrite <- !app_assoc.
  repeat split; repeat sub_step; done.
Qed.

(** Decoding a buffer that is long enough, step by step. *)
Ltac read_step :=
  first
    [ rewrite U16LE_ok by (rewrite len_sub; lia)
    | rewrite U32LE_ok by (rewrite len_sub; lia)
    | rewrite U64LE_ok by (rewrite len_sub; lia)
    | rewrite slice_ok by lia ];
  cbn [bind].

Lemma copy_zeros n b : len b = n -> copy (zeros n) b = b.
Proof.
  intros <-. apply copy_exact. pose proof (len_zeros (len b) (len_nonneg b)).
  unfold len in *. lia.
Qed.

Lemma DecodeRecord_layout f rest :
  wf_fields f -> encodable f ->
  DecodeRecord (layout f ++ rest) = Ok (record_of f, record_len f).
Proof.
  intros Hwf Henc. pose proof (layout_read_as f rest Hwf) as Hr.
  pose proof (len_layout f Hwf) as Hl. pose proof (len_nonneg rest) as Hr0.
  assert (Hb : record_len f <= len (layout f ++ rest)) by (rewrite len_app; lia).
  remember (layout f ++ rest) as b eqn:Eb. clear Eb.
  destruct Hr as (R0 & R1 & R2 & R3 & R4 & R5 & R6 & R7 & R8 & R9 & R10 & R11 & R12 & R13).
  destruct Hwf as (Hseq & Htx & Hty & Hprev). destruct Henc as (H1 & H2 & H3 & H4).
  pose proof (len_nonneg (FPayload f)) as Hp0. rewrite MaxPayloadBytes_val in H4.
  assert (Hrl : record_len f = 152 + len (FPayload f)) by done.
  assert (V3 : le_val (le_bytes 4 (record_len f)) = record_len f) by (apply le_val_bytes; lia).
  assert (V4 : le_val (le_bytes 8 (FSequence f)) = FSequence f) by (apply le_val_bytes, Hseq).
  assert (V6 : le_val (le_bytes 2 (FType f)) = FType f) by (apply le_val_bytes, Hty).
  unfold DecodeRecord, minFramingBytes, RecordOverhead, MaxRecordBytes, ValidRecordType,
    TypeObservation, TypeEvidenceReference.
  rewrite MaxPayloadBytes_val.
  dec_false (len b <? 8). read_step. rewrite R0. rewrite bool_decide_true by done. cbn [negb].
  dec_false (len b <? 16). do 2 read_step. rewrite R1. cbn [negb].
  change (negb (le_val (le_bytes 2 FormatVersion) =? FormatVersion)) with false.
  do 2 read_step. rewrite R2.
  change (negb (le_val (le_bytes 2 HeaderLength) =? HeaderLength)) with false.
  do 2 read_step. rewrite R3, V3.
  dec_false (record_len f <? 152). unfold RecordOverhead.
  dec_false (152 + 1048576 <? record_len f). dec_false (len b <? record_len f).
  do 2 read_step. rewrite R4, V4. dec_false (FSequence f =? 0).
  read_step. rewrite R5, copy_zeros by done.
  do 2 read_step. rewrite R6, V6.
  dec_true ((1 <=? FType f) && (FType f <=? 10)). cbn [negb].
  do 2 read_step. rewrite R7. change (negb (le_val (le_bytes 2 0) =? 0)) with false.
  replace (record_len f - 152) with (len (FPayload f)) by lia.
  dec_false ((len (FPayload f) <? 0) || (1048576 <? len (FPayload f))).
  rewrite admitRecordBytes_ok by (unfold MaxRecordBytes, RecordOverhead;
    rewrite MaxPayloadBytes_val; lia). cbn [bind].
  read_step. rewrite R8, copy_zeros by apply len_sha256.
  read_step. rewrite R9, copy_zeros by done.
  read_step. rewrite R10, copy_zeros by done.
  unfold SHA256. rewrite bool_decide_true by done. cbn [negb].
  replace ((FSequence f =? 1) && _) with false.
  2:{ destruct (FSequence f =? 1) eqn:E; [|done]. reflect_bools.
      by rewrite bool_decide_true by auto. }
  read_step. rewrite R11, copy_zeros by apply len_sha256.
  read_step. rewrite R12, bool_decide_true by done. cbn [negb].
  do 2 read_step. rewrite R13, V3, Z.eqb_refl. cbn [negb].
  rewrite commitmentPreimage_eq by (done || apply len_sha256). cbn [bind].
  by rewrite bool_decide_true by done.
Qed.

(** ** Decoding an arbitrary buffer *)

Lemma le_bytes_sub n b lo hi v :
  0 <= lo -> hi = lo + Z.of_nat n -> hi <= len b -> le_val (sub b lo hi) = v ->
  sub b lo hi = le_bytes n v.
Proof.
  intros ? -> ? <-. symmetry. apply le_bytes_val_n.
  pose proof (len_sub b lo (lo + Z.of_nat n)). unfold len in *. lia.
Qed.

Lemma le_val_sub_range b lo hi :
  0 <= lo -> lo <= hi -> hi <= len b -> 0 <= le_val (sub b lo hi) < 256 ^ (hi - lo).
Proof. intros. rewrite <- (len_sub b lo hi) by lia. apply le_val_range. Qed.

(** A buffer whose fields read as [f] starts with the encoding of [f]. *)
Lemma read_as_layout b f :
  wf_fields f -> read_as b f -> record_len f <= len b -> sub b 0 (record_len f) = layout f.
Proof.
  intros (_ & Htx & _ & Hprev) Hr Hb. pose proof (len_nonneg (FPayload f)).
  destruct Hr as (R0 & R1 & R2 & R3 & R4 & R5 & R6 & R7 & R8 & R9 & R10 & R11 & R12 & R13).
  unfold layout, preimage_of, header, trailer. rewrite <- !app_assoc.
  unfold record_len, RecordOverhead in *.
  set (off := 108 + len (FPayload f)) in *.
  replace (152 + len (FPayload f)) with (off + 44) in * by lia.
  rewrite (sub_split b 0 8), (sub_split b 8 10), (sub_split b 10 12), (sub_split b 12 16),
    (sub_split b 16 24), (sub_split b 24 40), (sub_split b 40 42), (sub_split b 42 44),
    (sub_split b 44 76), (sub_split b 76 108), (sub_split b 108 off),
    (sub_split b off (off + 32)), (sub_split b (off + 32) (off + 40)) by lia.
  by rewrite R0, R1, R2, R3, R4, R5, R6, R7, R8, R9, R10, R11, R12, R13.
Qed.

(** A guard of the decoder: the refusing branch has nothing to show. *)
Ltac guard_step :=
  match goal with
  | |- match (if ?c then _ else _) with _ => _ end => destruct c eqn:?; [exact I|]
  end.

(** The outcome of decoding: a canonical encoding at the front of the buffer,
    or an error; never a panic. *)
Lemma DecodeRecord_outcome b :
  match DecodeRecord b with
  | Ok (r, n) => exists f,
      wf_fields f /\ encodable f /\ r = record_of f /\ n = record_len f /\
      n <= len b /\ sub b 0 n = layout f
  | Err _ => True
  | Panic => False
  end.
Proof.
  unfold DecodeRecord, minFramingBytes, RecordOverhead, ValidRecordType,
    TypeObservation, TypeEvidenceReference.
  guard_step. read_step. guard_step. guard_step.
  do 2 read_step. guard_step. do 2 read_step. guard_step. do 2 read_step.
  set (rl := le_val (sub b 12 16)). do 3 guard_step.
  do 2 read_step. guard_step. read_step. do 2 read_step. guard_step.
  do 2 read_step. do 2 guard_step.
  rewrite admitRecordBytes_ok by (unfold MaxRecordBytes, RecordOverhead in *; lia). cbn [bind].
  do 3 read_step. unfold SHA256.
  rewrite !copy_zeros by (rewrite len_sub; lia).
  do 2 guard_step. read_step. rewrite copy_zeros by (rewrite len_sub; lia). read_step. guard_step.
  do 2 read_step. guard_step.
  rewrite commitmentPreimage_eq by (rewrite len_sub; lia). cbn [bind]. guard_step.
  reflect_bools.
  set (f := mkFields (le_val (sub b 16 24)) (sub b 24 40) (le_val (sub b 40 42))
              (sub b 76 108) (sub b 108 (108 + (rl - 152)))).
  pose proof (le_val_sub_range b 16 24). pose proof (le_val_sub_range b 40 42).
  assert (Hp : len (FPayload f) = rl - 152) by (cbn; rewrite len_sub; lia).
  assert (Hrl : record_len f = rl) by (unfold record_len, RecordOverhead; lia).
  assert (Hwf : wf_fields f)
    by (repeat split; cbn; try (rewrite len_sub; lia); lia).
  assert (Hc : commitment_of f = sub b (108 + (rl - 152)) (108 + (rl - 152) + 32)).
  { rewrite <- Heqb16. unfold commitment_of, preimage_of. by rewrite Hrl, <- Heqb12. }
  exists f. split; [done|]. split.
  { unfold encodable. rewrite Hp. subst f. cbn [FSequence FType FPreviousCommitment].
    repeat split; try lia. intros Hs. rewrite Hs in Heqb13. cbn in Heqb13. by reflect_bools. }
  split. { unfold record_of. by rewrite Hc, Hrl, <- Heqb12. }
  split; [done|]. split; [done|]. rewrite <- Hrl.
  apply read_as_layout; [done| |lia].
  unfold read_as. rewrite Hp, Hc, Hrl. cbn [FSequence FTransactionID FType FPreviousCommitment FPayload f].
  repeat split; try done; apply le_bytes_sub; done || lia.
Qed.

Lemma DecodeRecord_no_panic b : DecodeRecord b <> Panic.
Proof. pose proof (DecodeRecord_outcome b) as H. intros E. by rewrite E in H. Qed.

(** Decoding is total and memory-safe: on every byte sequence, however
    malformed, [DecodeRecord] returns a record or an error and never indexes or
    slices out of range. *)
Lemma DecodeRecord_never_panics b : safe (DecodeRecord b).
Proof. apply DecodeRecord_no_panic. Qed.

Lemma DecodeRecord_inv b r n :
  DecodeRecord b = Ok (r, n) ->
  exists f, wf_fields f /\ encodable f /\ r = record_of f /\ n = record_len f /\
    n <= len b /\ sub b 0 n = layout f.
Proof. pose proof (DecodeRecord_outcome b) as H. intros E. by rewrite E in H. Qed.

(** Round trip: a record that [EncodeRecord] produces decodes, whatever
    bytes follow it, to the fields it was made from, with the payload digest
    and the commitment of those fields and the exact length consumed. *)
Lemma EncodeRecord_DecodeRecord f b rest :
  wf_fields f -> EncodeRecord f = Ok b ->
  DecodeRecord (b ++ rest) = Ok (record_of f, len b) /\ fields_of (record_of f) = f.
Proof.
  intros Hwf He. pose proof (EncodeRecord_encodable f b Hwf He) as Henc.
  rewrite EncodeRecord_layout in He by done. injection He as <-.
  rewrite DecodeRecord_layout, len_layout by done. split; [done|]. by destruct f.
Qed.

(** C36. Canonicity: whatever [DecodeRecord] accepts is exactly what
    [EncodeRecord] produces for the decoded fields, so a record has one
    encoding and a decoded record re-encodes to the bytes it was read from. *)
Theorem DecodeRecord_canonical b r n :
  DecodeRecord b = Ok (r, n) ->
  EncodeRecord (fields_of r) = Ok (sub b 0 n) /\ n = RecordLength r /\ 0 < n <= len b.
Proof.
  intros H. apply DecodeRecord_inv in H as (f & Hwf & Henc & -> & -> & Hn & Hl).
  replace (fields_of (record_of f)) with f by (by destruct f).
  rewrite EncodeRecord_layout by done. rewrite Hl. split; [done|]. split; [done|].
  unfold record_len, RecordOverhead in *. pose proof (len_nonneg (FPayload f)). lia.
Qed.

(** ** Windows and torn records *)

(** Read the next field in both of two buffers that agree by [Hs]. *)
Ltac both a b Hs :=
  repeat (first [ read_step | rewrite (slice_ok a) by lia; cbn [bind] | rewrite (slice_ok b) by lia; cbn [bind] ]);
  rewrite ?Hs by lia.

(** The decoder never looks past [MaxRecordBytes]: decoding a window of that
    size is decoding the whole buffer. *)
Lemma DecodeRecord_window a rest :
  MaxRecordBytes <= len a -> DecodeRecord (a ++ rest) = DecodeRecord a.
Proof.
  intros Ha. assert (Hab : MaxRecordBytes <= len (a ++ rest)) by len_lia.
  assert (HM : MaxRecordBytes = 1048728) by done.
  assert (Hs : forall lo hi, 0 <= lo -> hi <= MaxRecordBytes -> sub (a ++ rest) lo hi = sub a lo hi)
    by (intros; apply sub_app_l; lia).
  remember (a ++ rest) as b eqn:Eb. clear Eb.
  unfold DecodeRecord, minFramingBytes, RecordOverhead.
  dec_false (len b <? 8). dec_false (len a <? 8).
  dec_false (len b <? 16). dec_false (len a <? 16).
  both a b Hs. head_if; [done|].
  do 3 (both a b Hs; head_if; [done|]).
  head_if; [done|].
  dec_false (len b <? le_val (sub a 12 16)). dec_false (len a <? le_val (sub a 12 16)).
  both a b Hs. head_if; [done|]. both a b Hs. head_if; [done|]. both a b Hs. head_if; [done|]. head_if; [done|].
  both a b Hs. destruct (admitRecordBytes _) as [[]| |]; cbn [bind]; [|done..].
  both a b Hs. head_if; [done|]. head_if; [done|]. both a b Hs. head_if; [done|]. both a b Hs. done.
Qed.

Lemma DecodeRecord_take f n :
  wf_fields f -> encodable f -> (n < length (layout f))%nat ->
  DecodeRecord (take n (layout f)) = Err (incomplete "record").
Proof.
  intros Hwf Henc Hn.
  pose proof (layout_read_as f [] Hwf) as Hr. rewrite app_nil_r in Hr.
  pose proof (len_layout f Hwf) as Hl.
  destruct Hr as (R0 & R1 & R2 & R3 & _).
  assert (Ht : len (take n (layout f)) = Z.of_nat n)
    by (unfold len in *; rewrite length_take; lia).
  assert (Hs : forall lo hi, 0 <= lo -> hi <= Z.of_nat n ->
            sub (take n (layout f)) lo hi = sub (layout f) lo hi).
  { intros. rewrite <- (take_drop n (layout f)) at 2. symmetry. apply sub_app_l; lia. }
  assert (Hlt : Z.of_nat n < record_len f) by (unfold len in Hl; lia).
  assert (Hrl : 152 <= record_len f <= MaxRecordBytes).
  { unfold record_len, MaxRecordBytes, RecordOverhead. destruct Henc as (_ & _ & _ & ?).
    pose proof (len_nonneg (FPayload f)). lia. }
  assert (HM : MaxRecordBytes = 1048728) by done.
  assert (V3 : le_val (le_bytes 4 (record_len f)) = record_len f) by (apply le_val_bytes; lia).
  remember (take n (layout f)) as t eqn:Et. clear Et.
  unfold DecodeRecord, minFramingBytes, RecordOverhead.
  head_if; [done|]. read_step. rewrite Hs, R0, bool_decide_true by (lia || done). cbn [negb]; cbv match.
  head_if; [done|]. do 2 read_step. rewrite Hs, R1 by lia.
  change (negb (le_val (le_bytes 2 FormatVersion) =? FormatVersion)) with false. cbv match.
  do 2 read_step. rewrite Hs, R2 by lia.
  change (negb (le_val (le_bytes 2 HeaderLength) =? HeaderLength)) with false. cbv match.
  do 2 read_step. rewrite Hs, R3, V3 by lia.
  dec_false (record_len f <? 152). dec_false (MaxRecordBytes <? record_len f).
  dec_true (len t <? record_len f). done.
Qed.

(** Torn records: every proper prefix of an encoded record, however short,
    is reported as incomplete, never as a record and never as corruption. *)
Lemma DecodeRecord_torn f b n :
  wf_fields f -> EncodeRecord f = Ok b -> (n < length b)%nat ->
  DecodeRecord (take n b) = Err (incomplete "record").
Proof.
  intros Hwf He Hn. pose proof (EncodeRecord_encodable f b Hwf He) as Henc.
  rewrite EncodeRecord_layout in He by done. injection He as <-.
  by apply DecodeRecord_take.
Qed.

(** ** Witnesses *)

Definition f_demo : RecordFields :=
  mkFields 1 (zeros 16) TypeObservation GenesisCommitment (str "hello").

Definition b_demo : bytes :=
  match EncodeRecord f_demo with Ok b => b | _ => [] end.

Lemma f_demo_wf : wf_fields f_demo.
Proof. repeat split; vm_compute; congruence. Defined.

Lemma EncodeRecord_DecodeRecord_witness :
  wf_fields f_demo /\ EncodeRecord f_demo = Ok b_demo /\
  DecodeRecord (b_demo ++ str "tail") = Ok (record_of f_demo, len b_demo).
Proof.
  assert (He : EncodeRecord f_demo = Ok b_demo) by (vm_compute; reflexivity).
  split; [exact f_demo_wf|]. split; [exact He|].
  exact (proj1 (EncodeRecord_DecodeRecord f_demo b_demo (str "tail") f_demo_wf He)).
Defined.

Lemma DecodeRecord_canonical_witness :
  exists r n, DecodeRecord (b_demo ++ str "tail") = Ok (r, n) /\
    EncodeRecord (fields_of r) = Ok (sub (b_demo ++ str "tail") 0 n) /\ n = 157.
Proof.
  destruct (DecodeRecord (b_demo ++ str "tail")) as [[r n]| |] eqn:E.
  - exists r, n. split; [reflexivity|].
    destruct (DecodeRecord_canonical _ _ _ E) as (H1 & H2 & _).
    split; [exact H1|]. vm_compute in E. injection E as _ <-. reflexivity.
  - vm_compute in E. discriminate.
  - vm_compute in E. discriminate.
Defined.

Lemma DecodeRecord_torn_witness :
  DecodeRecord (take 100 b_demo) = Err (incomplete "record").
Proof.
  apply (DecodeRecord_torn f_demo b_demo 100 f_demo_wf).
  - vm_compute. reflexivity.
  - vm_compute. lia.
Defined.

End Codec.
