(* ===== verification/Authority.v ===== *)
(** * Process authority inventory (internal/authority/authority.go)

    Roles and capabilities are Go strings.  [Inventory] is the literal table;
    [ValidateInventory], [Allows], [DeniedProbe] and [RolesSorted] are the
    functions of the package, statement by statement.  The theorems show what
    a validated inventory guarantees and that the authorization decision is
    default-deny. *)

From S2P Require Import Prelude.

Module Authority.

Definition RoleSupervisor : string := "integrisd-supervisor".
Definition RoleNet : string := "integrisd-net".
Definition RoleAuth : string := "integrisd-auth".
Definition RoleParser : string := "integrisd-parser".
Definition RoleIndex : string := "integrisd-index".
Definition RolePlan : string := "integrisd-plan".
Definition RoleApply : string := "integrisd-apply".
Definition RoleJournal : string := "integrisd-journal".
Definition RoleAudit : string := "integrisd-audit".

Definition CapChildLifecycle : string := "child_lifecycle".
Definition CapPreopenedIPC : string := "preopened_ipc".
Definition CapPolicyIdentity : string := "policy_identity".
Definition CapNetworkSockets : string := "network_sockets".
Definition CapEncryptedFrames : string := "encrypted_frames".
Definition CapIdentityHandle : string := "identity_handle".
Definition CapSessionKeyDerive : string := "session_key_derive".
Definition CapAuthorizationPolicy : string := "authorization_policy".
Definition CapBoundedMessageIPC : string := "bounded_message_ipc".
Definition CapReadonlyArchiveRoot : string := "readonly_archive_root".
Definition CapBoundedIndexOutput : string := "bounded_index_output".
Definition CapCanonicalManifests : string := "canonical_manifests".
Definition CapPlanOutput : string := "plan_output".
Definition CapArchiveRoots : string := "archive_staging_quarantine_roots".
Definition CapJournalDescriptor : string := "journal_descriptor".
Definition CapAuthenticatedRecords : string := "authenticated_record_input".
Definition CapReadonlyJournal : string := "readonly_journal".
Definition CapRedactedEventSink : string := "redacted_event_sink".
Definition CapRemoteContentParser : string := "remote_content_parser".
Definition CapArchiveTraversal : string := "archive_traversal".
Definition CapLongTermKeys : string := "long_term_keys".
Definition CapArchiveDescriptors : string := "archive_descriptors".
Definition CapPermanentKeys : string := "permanent_keys".
Definition CapJournalWrites : string := "journal_writes".
Definition CapNetworkAcceptLoop : string := "network_accept_loop".
Definition CapArchiveContents : string := "archive_contents".
Definition CapPublicationRights : string := "publication_rights".
Definition CapNetwork : string := "network".
Definition CapPublication : string := "publication".
Definition CapDeletion : string := "deletion".
Definition CapFilesystemWrites : string := "filesystem_writes".
Definition CapKeys : string := "keys".
Definition CapIdentityKeys : string := "identity_keys".
Definition CapArbitraryPathLookup : string := "arbitrary_path_lookup".
Definition CapPolicyDecisions : string := "policy_decisions".
Definition CapArchiveMutation : string := "archive_mutation".
Definition CapOperationDecisions : string := "operation_decisions".
Definition CapArchives : string := "archives".
Definition CapSecrets : string := "secrets".

Record Entry := mkEntry {
  Role : string;
  MayHold : list string;
  MustNot : list string }.

(** The typed error; its message is left out. *)
Record Error := reject { Code : string }.

#[global] Instance Error_eq_dec : EqDecision Error.
Proof. solve_decision. Defined.

Definition Inventory : list Entry := [
  mkEntry RoleSupervisor [CapChildLifecycle; CapPreopenedIPC; CapPolicyIdentity]
    [CapRemoteContentParser; CapArchiveTraversal; CapLongTermKeys];
  mkEntry RoleNet [CapNetworkSockets; CapEncryptedFrames]
    [CapArchiveDescriptors; CapPermanentKeys; CapJournalWrites];
  mkEntry RoleAuth [CapIdentityHandle; CapSessionKeyDerive; CapAuthorizationPolicy]
    [CapNetworkAcceptLoop; CapArchiveContents; CapPublicationRights];
  mkEntry RoleParser [CapBoundedMessageIPC]
    [CapPermanentKeys; CapArchives; CapNetworkSockets];
  mkEntry RoleIndex [CapReadonlyArchiveRoot; CapBoundedIndexOutput]
    [CapNetwork; CapPublication; CapDeletion];
  mkEntry RolePlan [CapCanonicalManifests; CapPlanOutput]
    [CapFilesystemWrites; CapNetwork; CapKeys];
  mkEntry RoleApply [CapArchiveRoots]
    [CapNetwork; CapIdentityKeys; CapArbitraryPathLookup];
  mkEntry RoleJournal [CapJournalDescriptor; CapAuthenticatedRecords]
    [CapPolicyDecisions; CapNetwork; CapArchiveMutation];
  mkEntry RoleAudit [CapReadonlyJournal; CapRedactedEventSink]
    [CapOperationDecisions; CapArchives; CapSecrets] ].

(** The loop over [MayHold]; the set [may] built so far is passed along. *)
Fixpoint check_may (cs may : list string) : res Error (list string) :=
  match cs with
  | [] => Ok may
  | c :: cs =>
      if bool_decide (c = ""%string) then Err (reject "cap")
      else if bool_decide (c ∈ may) then Err (reject "duplicate")
      else check_may cs (c :: may)
  end.

(** The loop over [MustNot]. *)
Fixpoint check_deny (cs may deny : list string) : res Error unit :=
  match cs with
  | [] => Ok tt
  | c :: cs =>
      if bool_decide (c = ""%string) then Err (reject "cap")
      else if bool_decide (c ∈ deny) then Err (reject "duplicate")
      else if bool_decide (c ∈ may) then Err (reject "overlap")
      else check_deny cs may (c :: deny)
  end.

(** The loop over the entries; [seen] is the set of roles so far. *)
Fixpoint check_entries (es : list Entry) (seen : list string) : res Error (list string) :=
  match es with
  | [] => Ok seen
  | e :: es =>
      if bool_decide (Role e = ""%string) then Err (reject "role")
      else if bool_decide (Role e ∈ seen) then Err (reject "duplicate")
      else if len (MayHold e) =? 0 then Err (reject "may")
      else if len (MustNot e) =? 0 then Err (reject "must_not")
      else
        let! may := check_may (MayHold e) [] in
        let! _ := check_deny (MustNot e) may [] in
        check_entries es (Role e :: seen)
  end.

Definition required : list string :=
  [RoleSupervisor; RoleNet; RoleAuth; RoleParser; RoleIndex; RolePlan; RoleApply;
   RoleJournal; RoleAudit].

Definition ValidateInventory (entries : list Entry) : res Error unit :=
  if len entries =? 0 then Err (reject "empty") else
  let! seen := check_entries entries [] in
  if forallb (fun r => bool_decide (r ∈ seen)) required then Ok tt
  else Err (reject "missing").

(** The scan of [Allows] over the entries: the first entry of the role decides. *)
Fixpoint allows_in (es : list Entry) (role cap : string) : res Error bool :=
  match es with
  | [] => Err (reject "role")
  | e :: es =>
      if negb (bool_decide (Role e = role)) then allows_in es role cap
      else if bool_decide (cap ∈ MustNot e) then Ok false
      else if bool_decide (cap ∈ MayHold e) then Ok true
      else Ok false
  end.

Definition Allows (role cap : string) : res Error bool := allows_in Inventory role cap.

(** Both refusals of a capability carry the code "denied". *)
Fixpoint DeniedProbe (role : string) (conferred : list string) : res Error unit :=
  match conferred with
  | [] => Ok tt
  | c :: cs =>
      let! ok := Allows role c in
      if negb ok then Err (reject "denied") else DeniedProbe role cs
  end.

(** Go's string order, as a relation with a decision. *)
Definition str_le (a b : string) : Prop := String.leb a b = true.

#[global] Instance str_le_dec : RelDecision str_le.
Proof. intros a b. unfold str_le. apply _. Defined.

(** [sort.Slice]; the keys are distinct, so the result does not depend on the
    sorting algorithm. *)
Definition RolesSorted : list string := merge_sort str_le (map Role Inventory).

(** ** What validation guarantees *)

Definition entry_ok (e : Entry) : Prop :=
  Role e <> ""%string /\ MayHold e <> [] /\ MustNot e <> [] /\
  NoDup (MayHold e) /\ NoDup (MustNot e) /\
  (forall c, c ∈ MayHold e -> c ∉ MustNot e).

Lemma check_may_ok cs may may' :
  check_may cs may = Ok may' ->
  NoDup cs /\ (forall c, c ∈ cs -> c ∉ may) /\ forall c, c ∈ may' <-> c ∈ may \/ c ∈ cs.
Proof.
  revert may. induction cs as [|c cs IH]; intros may H; cbn in H.
  - injection H as ->. split; [constructor|]. set_solver.
  - inv_ok H. reflect_bools. apply IH in H as (Hcs & Hd & Hel).
    split; [constructor; set_solver|]. set_solver.
Qed.

Lemma check_deny_ok cs may deny :
  check_deny cs may deny = Ok tt ->
  NoDup cs /\ (forall c, c ∈ cs -> c ∉ deny) /\ (forall c, c ∈ cs -> c ∉ may).
Proof.
  revert deny. induction cs as [|c cs IH]; intros deny H; cbn in H.
  - split; [constructor|]. set_solver.
  - inv_ok H. reflect_bools. apply IH in H as (Hcs & Hd & Hm).
    split; [constructor; set_solver|]. set_solver.
Qed.

Lemma check_entries_ok es seen seen' :
  check_entries es seen = Ok seen' ->
  Forall entry_ok es /\ NoDup (map Role es) /\ (forall r, r ∈ map Role es -> r ∉ seen) /\
  forall r, r ∈ seen' <-> r ∈ seen \/ r ∈ map Role es.
Proof.
  revert seen. induction es as [|e es IH]; intros seen H; cbn in H.
  - injection H as ->. split; [constructor|]. split; [constructor|]. set_solver.
  - inv_ok H. reflect_bools. apply IH in H as (He & Hnd & Hd & Hs).
    match goal with H : check_may _ _ = _ |- _ => apply check_may_ok in H as (? & _ & Hm) end.
    match goal with H : check_deny _ _ _ = Ok ?u |- _ =>
      destruct u; apply check_deny_ok in H as (? & _ & ?) end.
    split; [|cbn [map]; split; [constructor; set_solver|set_solver]].
    constructor; [|done].
    split; [done|]. split; [by intros E; rewrite E in *|]. split; [by intros E; rewrite E in *|].
    set_solver.
Qed.

(** An inventory that validates is complete and unambiguous: every required
    role has exactly one row, no role or capability is listed twice, and no
    role may hold a capability it must not hold. *)
Lemma ValidateInventory_sound es :
  ValidateInventory es = Ok tt ->
  Forall entry_ok es /\ NoDup (map Role es) /\ (forall r, r ∈ required -> r ∈ map Role es).
Proof.
  unfold ValidateInventory. intros H. inv_ok H.
  match goal with H : check_entries _ _ = _ |- _ =>
    apply check_entries_ok in H as (He & Hnd & _ & Hs) end.
  split; [done|]. split; [done|]. intros r Hr.
  match goal with H : forallb _ _ = true |- _ => rewrite forallb_forall in H;
    specialize (H r (proj1 (list_elem_of_In _ _) Hr)) end.
  reflect_bools. set_solver.
Qed.

Lemma Inventory_valid : ValidateInventory Inventory = Ok tt.
Proof. vm_compute. reflexivity. Qed.

(** ** Authorization is default-deny *)

Lemma allows_in_spec es role cap :
  NoDup (map Role es) ->
  match allows_in es role cap with
  | Ok b => exists e, e ∈ es /\ Role e = role /\
              (b = true <-> cap ∈ MayHold e /\ cap ∉ MustNot e)
  | Err e => e = reject "role" /\ role ∉ map Role es
  | Panic => False
  end.
Proof.
  induction es as [|e es IH]; intros Hnd; cbn [allows_in map].
  { split; [done|]. set_solver. }
  apply NoDup_cons in Hnd as [Hni Hnd]. specialize (IH Hnd).
  case_bool_decide as Hr; cbn [negb].
  - repeat case_bool_decide; exists e; set_solver.
  - destruct (allows_in es role cap) as [b|err|]; [|set_solver|done].
    destruct IH as (e' & ? & ? & ?). exists e'. set_solver.
Qed.

Lemma Allows_true role cap :
  Allows role cap = Ok true <->
  exists e, e ∈ Inventory /\ Role e = role /\ cap ∈ MayHold e /\ cap ∉ MustNot e.
Proof.
  assert (Hnd : NoDup (map Role Inventory)) by (apply (bool_decide_unpack _); vm_compute; exact I).
  pose proof (allows_in_spec Inventory role cap Hnd) as H. unfold Allows. split.
  - intros E. rewrite E in H. destruct H as (e & ? & ? & [Hb _]). exists e. set_solver.
  - intros (e & He & <- & Hc).
    destruct (allows_in Inventory (Role e) cap) as [b|err|]; [|destruct H as [_ []]|done].
    2:{ apply list_elem_of_fmap. by exists e. }
    + destruct H as (e' & He' & Hr & Hb).
      assert (e' = e) as ->; [|by rewrite (proj2 Hb)].
      apply list_elem_of_lookup in He as [i Hi]. apply list_elem_of_lookup in He' as [j Hj].
      assert (i = j); [|congruence].
      eapply (NoDup_lookup (map Role Inventory)); [done|..]; rewrite list_lookup_fmap.
      * by rewrite Hi.
      * by rewrite Hj, <- Hr.
Qed.

(** A set of capabilities passes the probe of a role exactly when the
    inventory's row for that role grants every one of them and denies none:
    what is not listed is refused, and unknown roles hold nothing. *)
Lemma DeniedProbe_exact role caps :
  DeniedProbe role caps = Ok tt <->
  forall c, c ∈ caps ->
    exists e, e ∈ Inventory /\ Role e = role /\ c ∈ MayHold e /\ c ∉ MustNot e.
Proof.
  setoid_rewrite <- Allows_true. induction caps as [|c caps IH]; cbn [DeniedProbe].
  { split; [set_solver|done]. }
  destruct (Allows role c) as [[]|e|] eqn:E; cbn [bind negb].
  - rewrite IH. split; [|set_solver]. intros H c' [->|Hc']%elem_of_cons; auto.
  - split; [done|]. intros H. specialize (H c ltac:(set_solver)). congruence.
  - split; [done|]. intros H. specialize (H c ltac:(set_solver)). congruence.
  - split; [done|]. intros H. specialize (H c ltac:(set_solver)). congruence.
Qed.

(** ** Witnesses *)

Lemma ValidateInventory_sound_witness :
  Forall entry_ok Inventory /\ NoDup (map Role Inventory) /\
  (forall r, r ∈ required -> r ∈ map Role Inventory).
Proof.
  apply (ValidateInventory_sound Inventory). vm_compute. reflexivity.
Defined.

Example RolesSorted_order :
  RolesSorted = [RoleApply; RoleAudit; RoleAuth; RoleIndex; RoleJournal; RoleNet; RoleParser;
                 RolePlan; RoleSupervisor].
Proof. vm_compute. reflexivity. Qed.

End Authority.
