(* ===== verification/Crypto.v ===== *)
(** * Key derivation, transcripts and proofs (internal/crypto)

    [crypto.go] (HMAC, HKDF, the channel MAC key, the transcript), [aead.go]
    (session keys, nonces, [Seal] and [Open]), [peerauth.go] and
    [archiveauth.go].  SHA-256 and HMAC are executable; ChaCha20-Poly1305 comes
    from another module of Go and is the parameter [AEADCipher], with the
    round-trip law a cipher documents.

    A [hash.Hash] is the bytes written to it so far. *)

From S2P Require Import Prelude Sha256 Codec.

Module Crypto.

Record Error := fail { Code : string }.

#[global] Instance Error_eq_dec : EqDecision Error.
Proof. solve_decision. Defined.

Definition HMACSHA256 (key msg : bytes) : bytes := hmac_sha256 key msg.

(** ** HKDF *)

Definition HashSize : Z := 32.

(** The expand loop.  The block counter is one byte and a wrapped counter is an
    error, so 256 iterations are enough. *)
Fixpoint hkdf_loop (fuel : nat) (prk info : bytes) (length : Z) (out prev : bytes)
    (counter : Z) : res Error bytes :=
  if negb (len out <? length) then slice out 0 length else
  match fuel with
  | O => Panic
  | S fuel =>
      let prev := HMACSHA256 prk (prev ++ info ++ [byte_of counter]) in
      let out := out ++ prev in
      let counter := u8 (counter + 1) in
      if counter =? 0 then Err (fail "expand")
      else hkdf_loop fuel prk info length out prev counter
  end.

(** [salt] is [None] for a nil slice. *)
Definition HKDFSHA256 (ikm : bytes) (salt : option bytes) (info : bytes) (length : Z)
    : res Error bytes :=
  if (length <=? 0) || (255 * HashSize <? length) then Err (fail "length") else
  let salt := match salt with None => zeros HashSize | Some s => s end in
  let prk := HMACSHA256 salt ikm in
  hkdf_loop 256 prk info length [] [] 1.

Definition nul : bytes := [Byte.x00].

Definition ChannelMACKey (rootKey : bytes) (roleA roleB : string) : res Error bytes :=
  if len rootKey <? 16 then Err (fail "key")
  else if bool_decide (roleA = ""%string) || bool_decide (roleB = ""%string)
  then Err (fail "role")
  else if bool_decide (roleA = roleB) then Err (fail "role")
  else
    let '(lo, hi) := if String.ltb roleB roleA then (roleB, roleA) else (roleA, roleB) in
    let info := str "integris-ipc-mac-v1" ++ nul ++ sbytes lo ++ nul ++ sbytes hi in
    HKDFSHA256 rootKey None info 32.

(** ** Transcripts *)

Record Transcript := mkTranscript { h : bytes }.

Definition NewTranscript : Transcript := mkTranscript [].

Definition Append (t : Transcript) (label : string) (data : bytes) : res Error Transcript :=
  if bool_decide (label = ""%string) then Err (fail "label")
  else if (65535 <? len (sbytes label)) || (Z.shiftl 1 20 <? len data) then Err (fail "limit")
  else Ok (mkTranscript (h t ++ le_bytes 4 (u32 (len (sbytes label))) ++ sbytes label ++
                         le_bytes 4 (u32 (len data)) ++ data)).

Definition Digest (t : Transcript) : bytes := sha256 (h t).

(** ** Session keys and sealing *)

Definition SuiteIDAEAD : string := "integris-session-aead-chacha20poly1305-v1".
Definition AEADNonceSize : Z := 12.
Definition AEADKeySize : Z := 32.

Definition SessionAEADKey (rootKey sessionID : bytes) : res Error bytes :=
  if len rootKey <? 16 then Err (fail "key")
  else HKDFSHA256 rootKey None (sbytes SuiteIDAEAD ++ nul ++ sessionID) AEADKeySize.

Definition SequenceNonce (seq : Z) : bytes := zeros 4 ++ be_bytes 8 seq.

Definition TrafficKey (rootKey transcriptDig sessionID : bytes) (suite : string)
    : res Error bytes :=
  if negb (bool_decide (suite = SuiteIDAEAD)) then Err (fail "suite")
  else if len rootKey <? 16 then Err (fail "key")
  else HKDFSHA256 rootKey None (sbytes suite ++ nul ++ sessionID ++ transcriptDig) AEADKeySize.

(** ChaCha20-Poly1305: sealing and opening under a key, a nonce and
    additional data. *)
Class AEADCipher := {
  aead_Seal : bytes -> bytes -> bytes -> bytes -> bytes;
  aead_Open : bytes -> bytes -> bytes -> bytes -> option bytes }.

Class AEADLaws `{AEADCipher} := {
  aead_open_seal key nonce aad pt :
    len key = AEADKeySize -> len nonce = AEADNonceSize ->
    aead_Open key nonce aad (aead_Seal key nonce aad pt) = Some pt;
  aead_seal_len key nonce aad pt :
    len (aead_Seal key nonce aad pt) = len pt + 16 }.

Section Sealing.
Context `{AEADCipher}.

Definition Seal (key nonce aad plaintext : bytes) : res Error bytes :=
  if negb (len key =? AEADKeySize) then Err (fail "key")
  else if negb (len nonce =? AEADNonceSize) then Err (fail "nonce")
  else if Z.shiftl 1 20 <? len plaintext then Err (fail "limit")
  else Ok (aead_Seal key nonce aad plaintext).

Definition Open (key nonce aad ciphertext : bytes) : res Error bytes :=
  if negb (len key =? AEADKeySize) then Err (fail "key")
  else if negb (len nonce =? AEADNonceSize) then Err (fail "nonce")
  else match aead_Open key nonce aad ciphertext with
       | Some pt => Ok pt
       | None => Err (fail "auth")
       end.

End Sealing.

(** ** Peer and archive proofs *)

Definition SuiteIDPeerAuth : string := "integris-peer-auth-hmac-sha256-v1".
Definition SuiteIDArchiveAuth : string := "integris-archive-auth-hmac-sha256-v1".

Definition PeerAuthKey (rootKey sessionID : bytes) : res Error bytes :=
  if len rootKey <? 16 then Err (fail "key")
  else HKDFSHA256 rootKey None (sbytes SuiteIDPeerAuth ++ nul ++ sessionID) 32.

Definition PeerAuthProof (authKey transcriptDig sessionID : bytes) (direction : string)
    : res Error bytes :=
  if len authKey <? 16 then Err (fail "key")
  else if negb (bool_decide (direction = "i2r"%string)) &&
          negb (bool_decide (direction = "r2i"%string)) then Err (fail "direction")
  else Ok (HMACSHA256 authKey
             (sbytes SuiteIDPeerAuth ++ nul ++ sessionID ++ transcriptDig ++ sbytes direction)).

Definition VerifyPeerAuthProof (authKey transcriptDig sessionID : bytes) (direction : string)
    (proof : bytes) : res Error unit :=
  let! want := PeerAuthProof authKey transcriptDig sessionID direction in
  if negb (bool_decide (want = proof)) then Err (fail "auth") else Ok tt.

Definition ArchiveAuthKey (rootKey sessionID : bytes) : res Error bytes :=
  if len rootKey <? 16 then Err (fail "key")
  else HKDFSHA256 rootKey None (sbytes SuiteIDArchiveAuth ++ nul ++ sessionID) 32.

Definition ArchiveAuthProof (authKey transcriptDig sessionID : bytes) : res Error bytes :=
  if len authKey <? 16 then Err (fail "key")
  else Ok (HMACSHA256 authKey
             (sbytes SuiteIDArchiveAuth ++ nul ++ sessionID ++ transcriptDig)).

Definition VerifyArchiveAuthProof (authKey transcriptDig sessionID proof : bytes)
    : res Error unit :=
  let! want := ArchiveAuthProof authKey transcriptDig sessionID in
  if negb (bool_decide (want = proof)) then Err (fail "auth") else Ok tt.

(** ** HKDF is total, and where it stops *)

Lemma hkdf_loop_spec prk info length : forall fuel out prev i,
  0 < length <= 255 * HashSize ->
  len out = 32 * i -> 0 <= i <= 254 -> 256 <= Z.of_nat fuel + i ->
  32 * i < length + 32 ->
  match hkdf_loop fuel prk info length out prev (i + 1) with
  | Ok k => length <= 254 * 32 /\ len k = length
  | Err e => 254 * 32 < length /\ e = fail "expand"
  | Panic => False
  end.
Proof.
  induction fuel as [|fuel IH]; intros out prev i Hl Ho Hi Hf Hlt; [lia|].
  cbn [hkdf_loop]. destruct (len out <? length) eqn:E; cbn [negb].
  - unfold u8. destruct (Z.eq_dec i 254) as [->|].
    { change ((254 + 1 + 1) mod 256 =? 0) with true. cbv match. split; [lia|done]. }
    rewrite Z.mod_small by lia. rewrite (proj2 (Z.eqb_neq _ _)) by lia.
    apply IH; try lia. unfold HMACSHA256. rewrite len_app, len_hmac_sha256. lia.
  - rewrite slice_ok by lia. rewrite len_sub by lia. lia.
Qed.

Lemma HKDFSHA256_spec ikm salt info length :
  match HKDFSHA256 ikm salt info length with
  | Ok k => 0 < length <= 254 * 32 /\ len k = length
  | Err e => length <= 0 \/ 254 * 32 < length
  | Panic => False
  end.
Proof.
  unfold HKDFSHA256. destruct ((length <=? 0) || (255 * HashSize <? length)) eqn:E.
  { unfold HashSize in E. lia. }
  assert (0 < length <= 255 * HashSize) by lia.
  pose proof (hkdf_loop_spec (HMACSHA256 (match salt with None => zeros HashSize | Some s => s end) ikm)
    info length 256 [] [] 0 ltac:(done) ltac:(done) ltac:(lia) ltac:(lia) ltac:(lia)) as Hs.
  destruct (hkdf_loop _ _ _ _ _ _ _); [|tauto..]. lia.
Qed.

Lemma HKDFSHA256_ok ikm salt info length :
  0 < length <= 254 * 32 -> exists k, HKDFSHA256 ikm salt info length = Ok k /\ len k = length.
Proof.
  intros Hl. pose proof (HKDFSHA256_spec ikm salt info length) as Hs.
  destruct (HKDFSHA256 ikm salt info length) as [k|e|]; [|lia|done]. exists k. tauto.
Qed.

(** Key derivation is total: HKDF returns exactly [length] bytes for every
    length from 1 to 254 blocks, an error for every other length, and never
    panics or loops.  Lengths in the 255th block, which the comment of the
    function admits, are among the errors: the counter wraps first. *)
Lemma HKDFSHA256_total ikm salt info length :
  (0 < length <= 254 * 32 /\
     exists k, HKDFSHA256 ikm salt info length = Ok k /\ len k = length) \/
  (~ 0 < length <= 254 * 32 /\ exists e, HKDFSHA256 ikm salt info length = Err e).
Proof.
  pose proof (HKDFSHA256_spec ikm salt info length) as Hs.
  destruct (HKDFSHA256 ikm salt info length) as [k|e|].
  - left. split; [tauto|]. exists k. tauto.
  - right. split; [lia|]. by exists e.
  - done.
Qed.

(** ** Both ends derive one channel key *)

Lemma ltb_flip a b : a <> b -> String.ltb b a = negb (String.ltb a b).
Proof.
  intros Hne. unfold String.ltb. rewrite (String.compare_antisym b a).
  destruct (String.compare a b) eqn:E; [|done..]. by apply String.compare_eq_iff in E.
Qed.

(** The two ends of a channel agree: the derived MAC key does not depend on
    the order in which the roles are named, and every admissible root key and
    pair of distinct roles yields a 32-byte key. *)
Lemma ChannelMACKey_agrees rootKey a b :
  ChannelMACKey rootKey a b = ChannelMACKey rootKey b a /\
  (16 <= len rootKey -> a <> ""%string -> b <> ""%string -> a <> b ->
   exists k, ChannelMACKey rootKey a b = Ok k /\ len k = 32).
Proof.
  unfold ChannelMACKey. split.
  - destruct (len rootKey <? 16); [done|]. rewrite orb_comm.
    destruct (bool_decide (b = _) || _); [done|].
    destruct (decide (a = b)) as [->|Hne]; [done|].
    rewrite !bool_decide_false by congruence. rewrite (ltb_flip a b) by done.
    by destruct (String.ltb a b).
  - intros Hk Ha Hb Hne. dec_false (len rootKey <? 16).
    rewrite !bool_decide_false by done. cbn [orb].
    destruct (if String.ltb b a then _ else _) as [lo hi].
    by apply HKDFSHA256_ok.
Qed.

(** ** Transcripts are unambiguous *)

Fixpoint append_fields (t : Transcript) (fs : list (string * bytes)) : res Error Transcript :=
  match fs with
  | [] => Ok t
  | (l, d) :: fs => let! t := Append t l d in append_fields t fs
  end.

(** The framing of one field. *)
Definition framed (f : string * bytes) : bytes :=
  le_bytes 4 (len (sbytes f.1)) ++ sbytes f.1 ++ le_bytes 4 (len f.2) ++ f.2.

Definition frame_ok (f : string * bytes) : Prop :=
  f.1 <> ""%string /\ len (sbytes f.1) <= 65535 /\ len f.2 <= 1048576.

Lemma Append_ok t l d t' :
  Append t l d = Ok t' <-> frame_ok (l, d) /\ t' = mkTranscript (h t ++ framed (l, d)).
Proof.
  unfold Append, frame_ok, framed. change (Z.shiftl 1 20) with 1048576. cbn [fst snd].
  pose proof (len_nonneg (sbytes l)). pose proof (len_nonneg d).
  case_bool_decide; [naive_solver|].
  destruct (_ || _) eqn:E; [split; [done|]; intros ((_ & ? & ?) & _); lia|].
  unfold u32. rewrite !Z.mod_small by lia. split.
  - intros [= <-]. split; [|done]. repeat split; [done|lia..].
  - by intros (_ & ->).
Qed.

Lemma append_fields_ok t fs t' :
  append_fields t fs = Ok t' ->
  Forall frame_ok fs /\ h t' = h t ++ concat (map framed fs).
Proof.
  revert t. induction fs as [|[l d] fs IH]; intros t H; cbn in H.
  - injection H as <-. by rewrite app_nil_r.
  - destruct (Append t l d) as [t1| |] eqn:E; [|discriminate..].
    apply Append_ok in E as [Hok ->]. apply IH in H as [Hf Hh]. cbn [h] in Hh.
    split; [by constructor|]. by rewrite Hh, <- app_assoc.
Qed.

Lemma framed_split f g r1 r2 :
  frame_ok f -> frame_ok g -> framed f ++ r1 = framed g ++ r2 -> f = g /\ r1 = r2.
Proof.
  destruct f as [l d], g as [l' d']. unfold frame_ok, framed. cbn [fst snd].
  pose proof (len_nonneg (sbytes l)). pose proof (len_nonneg (sbytes l')).
  pose proof (len_nonneg d). pose proof (len_nonneg d').
  intros (_ & ? & ?) (_ & ? & ?) E. rewrite <- !app_assoc in E.
  apply app_inj_1 in E as [El E]; [|by rewrite !length_le_bytes].
  apply le_bytes_inj in El; [|cbn; lia..].
  apply app_inj_1 in E as [Es E]; [|unfold len in El; lia].
  apply app_inj_1 in E as [Ed E]; [|by rewrite !length_le_bytes].
  apply le_bytes_inj in Ed; [|cbn; lia..].
  apply app_inj_1 in E as [-> ->]; [|unfold len in Ed; lia].
  by apply sbytes_inj in Es as ->.
Qed.

Lemma framed_nonempty f r : framed f ++ r <> [].
Proof. unfold framed. cbn. done. Qed.

Lemma frames_inj fs gs :
  Forall frame_ok fs -> Forall frame_ok gs ->
  concat (map framed fs) = concat (map framed gs) -> fs = gs.
Proof.
  intros Hf. revert gs. induction Hf as [|f fs Hf Hfs IH]; intros gs Hg E.
  - destruct gs as [|g gs]; [done|]. cbn [map concat] in E. symmetry in E.
    by apply framed_nonempty in E.
  - destruct Hg as [|g gs Hg Hgs]; cbn [map concat] in E; [by apply framed_nonempty in E|].
    apply framed_split in E as [-> E]; [|done..]. f_equal. by apply IH.
Qed.

(** A transcript digest binds the whole negotiation: two transcripts with
    equal digests recorded the same labelled fields in the same order, unless
    the two framed inputs themselves are a SHA-256 collision.  No re-framing of
    labels and data can give the same input. *)
Lemma Transcript_binds fs gs t1 t2 :
  append_fields NewTranscript fs = Ok t1 -> append_fields NewTranscript gs = Ok t2 ->
  Digest t1 = Digest t2 ->
  fs = gs \/ (h t1 <> h t2 /\ sha256 (h t1) = sha256 (h t2)).
Proof.
  intros [Hf E1]%append_fields_ok [Hg E2]%append_fields_ok Hd.
  destruct (decide (h t1 = h t2)) as [E|Hne].
  - left. apply frames_inj; [done..|]. cbn in E1, E2. congruence.
  - by right.
Qed.

(** ** Nonces and sealing *)

Lemma be_bytes_inj n v w :
  0 <= v < 256 ^ Z.of_nat n -> 0 <= w < 256 ^ Z.of_nat n ->
  be_bytes n v = be_bytes n w -> v = w.
Proof.
  unfold be_bytes. intros Hv Hw E%(f_equal (@rev _)).
  rewrite !rev_involutive in E. by eapply le_bytes_inj.
Qed.

Lemma len_SequenceNonce seq : len (SequenceNonce seq) = AEADNonceSize.
Proof. unfold SequenceNonce, len. rewrite length_app, length_be_bytes. done. Qed.

Lemma SequenceNonce_inj a b :
  is_u64 a -> is_u64 b -> SequenceNonce a = SequenceNonce b -> a = b.
Proof. intros Ha Hb E%app_inj_1; [|done]. destruct E as [_ E]. by apply be_bytes_inj in E. Qed.

Lemma Open_Seal `{AEADLaws} key nonce aad pt ct :
  Seal key nonce aad pt = Ok ct -> Open key nonce aad ct = Ok pt.
Proof.
  unfold Seal, Open. intros Hs. inv_ok Hs. reflect_bools.
  by rewrite aead_open_seal.
Qed.

(** Sealing by sequence number: with a derived traffic key, every message
    within the size limit can be sealed, opens to itself under the same
    sequence number and additional data, and distinct sequence numbers never
    share a nonce. *)
Lemma TrafficKey_Seal_Open `{AEADLaws} rootKey dig sid key aad pt seq :
  TrafficKey rootKey dig sid SuiteIDAEAD = Ok key -> is_u64 seq -> len pt <= 1048576 ->
  (exists ct, Seal key (SequenceNonce seq) aad pt = Ok ct /\ len ct = len pt + 16 /\
     Open key (SequenceNonce seq) aad ct = Ok pt) /\
  (forall seq', is_u64 seq' -> SequenceNonce seq' = SequenceNonce seq -> seq' = seq).
Proof.
  intros Hk Hs Hp. split; [|intros; by apply SequenceNonce_inj].
  assert (len key = AEADKeySize) as Hlk.
  { unfold TrafficKey in Hk. rewrite bool_decide_true in Hk by done. cbn [negb] in Hk.
    destruct (len rootKey <? 16); [done|]. pose proof (HKDFSHA256_spec rootKey None
      (sbytes SuiteIDAEAD ++ nul ++ sid ++ dig) AEADKeySize) as Hspec. rewrite Hk in Hspec. tauto. }
  exists (aead_Seal key (SequenceNonce seq) aad pt).
  assert (Hseal : Seal key (SequenceNonce seq) aad pt = Ok (aead_Seal key (SequenceNonce seq) aad pt)).
  { unfold Seal. rewrite Hlk, len_SequenceNonce, !Z.eqb_refl. cbn [negb].
    change (Z.shiftl 1 20) with 1048576. by rewrite (proj2 (Z.ltb_ge _ _)) by lia. }
  split; [done|]. split; [apply aead_seal_len|]. by apply Open_Seal.
Qed.

(** ** Proofs *)

Lemma VerifyPeerAuthProof_ok k d sid dir proof :
  VerifyPeerAuthProof k d sid dir proof = Ok tt <-> PeerAuthProof k d sid dir = Ok proof.
Proof.
  unfold VerifyPeerAuthProof. destruct (PeerAuthProof k d sid dir); cbn [bind]; [|done..].
  case_bool_decide; cbn [negb]; split; congruence.
Qed.

Lemma VerifyArchiveAuthProof_ok k d sid proof :
  VerifyArchiveAuthProof k d sid proof = Ok tt <-> ArchiveAuthProof k d sid = Ok proof.
Proof.
  unfold VerifyArchiveAuthProof. destruct (ArchiveAuthProof k d sid); cbn [bind]; [|done..].
  case_bool_decide; cbn [negb]; split; congruence.
Qed.

(** ** Witnesses *)

(** A cipher that satisfies the laws: the plaintext with a fixed tag. *)
Definition demo_cipher : AEADCipher := {|
  aead_Seal _ _ _ pt := pt ++ zeros 16;
  aead_Open _ _ _ ct := Some (sub ct 0 (len ct - 16)) |}.

#[local] Existing Instance demo_cipher.

Lemma demo_cipher_laws : AEADLaws.
Proof.
  split; intros; cbn; rewrite ?len_app, ?len_zeros by lia; [|done].
  rewrite sub_app_l by lia. by rewrite sub_full by lia.
Qed.

#[local] Existing Instance demo_cipher_laws.

Lemma ChannelMACKey_agrees_witness :
  exists k, ChannelMACKey (zeros 32) "net" "auth" = Ok k /\ len k = 32.
Proof.
  apply (proj2 (ChannelMACKey_agrees (zeros 32) "net" "auth")); vm_compute; congruence.
Defined.

Lemma Transcript_binds_witness :
  exists t, append_fields NewTranscript [("a"%string, str "x"); ("b"%string, [])] = Ok t /\
    ([("a"%string, str "x"); ("b"%string, [])] = [("a"%string, str "x"); ("b"%string, [])] \/
     (h t <> h t /\ sha256 (h t) = sha256 (h t))).
Proof.
  eexists. split; [reflexivity|].
  eapply (Transcript_binds [("a"%string, str "x"); ("b"%string, [])]); reflexivity.
Defined.

Lemma TrafficKey_Seal_Open_witness :
  exists key ct, TrafficKey (zeros 32) (zeros 32) (zeros 16) SuiteIDAEAD = Ok key /\
    Seal key (SequenceNonce 7) [] (str "data") = Ok ct /\
    Open key (SequenceNonce 7) [] ct = Ok (str "data").
Proof.
  destruct (HKDFSHA256_ok (zeros 32) None
    (sbytes SuiteIDAEAD ++ nul ++ zeros 16 ++ zeros 32) AEADKeySize) as (key & Hk & _).
  { unfold AEADKeySize. lia. }
  destruct (TrafficKey_Seal_Open (zeros 32) (zeros 32) (zeros 16) key [] (str "data") 7)
    as [(ct & Hs & _ & Ho) _].
  - exact Hk.
  - unfold is_u64. lia.
  - vm_compute. congruence.
  - exists key, ct. split; [exact Hk|]. split; [exact Hs|exact Ho].
Defined.

End Crypto.
