(* ===== verification/Ipc.v ===== *)
(** * Local IPC frames (internal/ipc)

    [ipc.go]: the channel state machine that encodes and decodes role-bound,
    sequenced, optionally MACed frames; [stream.go]: the length-prefixed stream.
    A failing call returns the channel state it leaves behind with the error.

    The theorems: paired channels transport every payload in order; a decoded
    frame is exactly the next one the peer may send, authenticated when the
    channel has a key; a replayed or reordered frame is refused. *)

From S2P Require Import Prelude Sha256 Resource Codec Authority.
Import Codec Authority.

Module Ipc.

Definition ProtocolVersion : Z := 1.
Definition MaxFrameBytes : Z := Z.shiftl 1 20.
Definition MaxQueueDepth : Z := 1024.
Definition HeaderBytes : Z := 44.
Definition MACBytes : Z := 32.
Definition FrameMagic : bytes := str "INTIPC01".

Definition TypeRequest : Z := 1.
Definition TypeResponse : Z := 2.
Definition TypeClose : Z := 3.
Definition TypeCritical : Z := 4.

Record Frame := mkFrame {
  Version : Z;
  Type_ : Z;
  FSessionNonce : bytes;
  Sequence : Z;
  Sender : string;
  Receiver : string;
  Payload : bytes }.

Record ChannelState := mkChannel {
  LocalRole : string;
  RemoteRole : string;
  SessionNonce : bytes;
  NextSendSeq : Z;
  LastRecvSeq : Z;
  MaxFrame : Z;
  MaxQueue : Z;
  QueueDepth : Z;
  Closed : bool;
  MACKey : bytes }.

Record Error := fail { Code : string; Close : bool }.

#[global] Instance Error_eq_dec : EqDecision Error.
Proof. solve_decision. Defined.

Definition NewChannel (local remote : string) (nonce : bytes) : ChannelState :=
  mkChannel local remote nonce 1 0 MaxFrameBytes MaxQueueDepth 0 false [].

Definition NewAuthenticatedChannel (local remote : string) (nonce macKey : bytes)
    : res Error ChannelState :=
  if len macKey <? 16 then Err (fail "mac" false) else
  let ch := NewChannel local remote nonce in
  Ok (mkChannel (LocalRole ch) (RemoteRole ch) (SessionNonce ch) (NextSendSeq ch)
        (LastRecvSeq ch) (MaxFrame ch) (MaxQueue ch) (QueueDepth ch) (Closed ch) macKey).

Definition macLen (ch : ChannelState) : Z := if 0 <? len (MACKey ch) then MACBytes else 0.

Definition macSHA256 (key body : bytes) : bytes := hmac_sha256 key body.

Definition roleCode (r : string) : Z :=
  if bool_decide (r = RoleSupervisor) then 1
  else if bool_decide (r = RoleNet) then 2
  else if bool_decide (r = RoleAuth) then 3
  else if bool_decide (r = RoleParser) then 4
  else if bool_decide (r = RoleIndex) then 5
  else if bool_decide (r = RolePlan) then 6
  else if bool_decide (r = RoleApply) then 7
  else if bool_decide (r = RoleJournal) then 8
  else if bool_decide (r = RoleAudit) then 9
  else 0.

Definition roleFromCode (c : Z) : string :=
  if c =? 1 then RoleSupervisor
  else if c =? 2 then RoleNet
  else if c =? 3 then RoleAuth
  else if c =? 4 then RoleParser
  else if c =? 5 then RoleIndex
  else if c =? 6 then RolePlan
  else if c =? 7 then RoleApply
  else if c =? 8 then RoleJournal
  else if c =? 9 then RoleAudit
  else ""%string.

Definition set_closed (ch : ChannelState) : ChannelState :=
  mkChannel (LocalRole ch) (RemoteRole ch) (SessionNonce ch) (NextSendSeq ch) (LastRecvSeq ch)
    (MaxFrame ch) (MaxQueue ch) (QueueDepth ch) true (MACKey ch).

(** [ch.NextSendSeq = seq + 1], and [ch.Closed = true] for a close frame. *)
Definition sent (ch : ChannelState) (typ : Z) : ChannelState :=
  mkChannel (LocalRole ch) (RemoteRole ch) (SessionNonce ch) (u64 (NextSendSeq ch + 1))
    (LastRecvSeq ch) (MaxFrame ch) (MaxQueue ch) (QueueDepth ch)
    (if typ =? TypeClose then true else Closed ch) (MACKey ch).

(** [ch.LastRecvSeq = seq; ch.QueueDepth++], and close on a close frame. *)
Definition received (ch : ChannelState) (seq typ : Z) : ChannelState :=
  mkChannel (LocalRole ch) (RemoteRole ch) (SessionNonce ch) (NextSendSeq ch) seq
    (MaxFrame ch) (MaxQueue ch) (u64 (QueueDepth ch + 1))
    (if typ =? TypeClose then true else Closed ch) (MACKey ch).

Definition encode_limits (ch : ChannelState) : Resource.Limits :=
  Resource.mkLimits (MaxFrame ch + HeaderBytes + MACBytes) 1 1 (MaxQueue ch) 1 1.

(** The buffer [Encode] appends, before the MAC. *)
Definition frame_body (ch : ChannelState) (typ : Z) (payload : bytes) : bytes :=
  FrameMagic ++ le_bytes 2 ProtocolVersion ++ le_bytes 2 (u16 typ) ++ SessionNonce ch ++
  le_bytes 8 (NextSendSeq ch) ++ le_bytes 2 (roleCode (LocalRole ch)) ++
  le_bytes 2 (roleCode (RemoteRole ch)) ++ le_bytes 4 (u32 (len payload)) ++ payload.

Definition Encode (ch : ChannelState) (typ : Z) (payload : bytes)
    : res (ChannelState * Error) (ChannelState * bytes) :=
  if Closed ch then Err (ch, fail "closed" true)
  else if (typ <? TypeRequest) || (TypeCritical <? typ) then Err (ch, fail "type" true)
  else if MaxFrame ch <? len payload then Err (ch, fail "limit" true)
  else
    let total := HeaderBytes + len payload + macLen ch in
    match Resource.AdmitBytes (encode_limits ch) total with
    | Err _ => Err (ch, fail "limit" true)
    | Panic => Panic
    | Ok _ =>
        let buf := frame_body ch typ payload in
        let buf := if 0 <? len (MACKey ch) then buf ++ macSHA256 (MACKey ch) buf else buf in
        Ok (sent ch typ, buf)
    end.

Definition Decode (ch : ChannelState) (raw : bytes)
    : res (ChannelState * Error) (ChannelState * Frame) :=
  if Closed ch then Err (ch, fail "closed" true) else
  let need := HeaderBytes + macLen ch in
  if len raw <? need then Err (ch, fail "trunc" true) else
  let! magic := slice raw 0 8 in
  if negb (bool_decide (magic = FrameMagic)) then Err (ch, fail "magic" true) else
  let! s := slice raw 8 10 in
  let! ver := U16LE s in
  if negb (ver =? ProtocolVersion) then Err (ch, fail "version" true) else
  let! s := slice raw 10 12 in
  let! typ := U16LE s in
  let! s := slice raw 12 28 in
  let nonce := copy (zeros 16) s in
  if negb (bool_decide (nonce = SessionNonce ch)) then Err (ch, fail "nonce" true) else
  let! s := slice raw 28 36 in
  let! seq := U64LE s in
  let! s := slice raw 36 38 in
  let! sc := U16LE s in
  let sender := roleFromCode sc in
  let! s := slice raw 38 40 in
  let! rc := U16LE s in
  let receiver := roleFromCode rc in
  let! s := slice raw 40 44 in
  let! payLen := U32LE s in
  let expect := HeaderBytes + payLen + macLen ch in
  if negb (expect =? len raw) then Err (ch, fail "length" true) else
  if MaxFrame ch <? payLen then Err (ch, fail "limit" true) else
  let! _ :=
    (if 0 <? len (MACKey ch) then
       let! body := slice raw 0 (HeaderBytes + payLen) in
       let! want := slice raw (len raw - MACBytes) (len raw) in
       let got := macSHA256 (MACKey ch) body in
       if negb (bool_decide (want = got)) then Err (set_closed ch, fail "mac" true) else Ok tt
     else Ok tt) in
  if negb (bool_decide (sender = RemoteRole ch)) || negb (bool_decide (receiver = LocalRole ch))
  then Err (ch, fail "role" true) else
  if negb (seq =? u64 (LastRecvSeq ch + 1)) then Err (ch, fail "sequence" true) else
  if negb (is_ok (Resource.AdmitQueue Resource.DefaultLimits (u64 (QueueDepth ch + 1))))
  then Err (ch, fail "queue" true) else
  if typ =? TypeCritical then Err (set_closed ch, fail "critical" true) else
  let! payload := slice raw HeaderBytes (HeaderBytes + payLen) in
  Ok (received ch seq typ, mkFrame ver typ nonce seq sender receiver payload).

(** ** The stream framing (stream.go) *)

Definition max_stream : Z := MaxFrameBytes + HeaderBytes + MACBytes.

(** The bytes written, for a writer that accepts them. *)
Definition WriteFrame (raw : bytes) : res Error bytes :=
  if (len raw =? 0) || (max_stream <? len raw) then Err (fail "limit" true)
  else Ok (le_bytes 4 (u32 (len raw)) ++ raw).

(** A frame read from the bytes of a stream, and what is left of them;
    [io.ReadFull] fails on a short stream. *)
Definition ReadFrame (stream : bytes) (max : Z) : res Error (bytes * bytes) :=
  let max := if max <=? 0 then max_stream else max in
  if len stream <? 4 then Err (fail "io" true) else
  let n := le_val (sub stream 0 4) in
  if (n <=? 0) || (max <? n) then Err (fail "limit" true)
  else if len stream - 4 <? n then Err (fail "io" true)
  else Ok (sub stream 4 (4 + n), sub stream (4 + n) (len stream)).

(** ** The channel invariant: Go's integer ranges and the queue bound *)

Definition wf_channel (ch : ChannelState) : Prop :=
  len (SessionNonce ch) = 16 /\ is_u64 (NextSendSeq ch) /\ is_u64 (LastRecvSeq ch) /\
  is_u32 (MaxFrame ch) /\ 0 <= QueueDepth ch <= 1024.

Definition known_role (r : string) : Prop := r ∈ required.

Lemma roleFromCode_roleCode r : known_role r -> roleFromCode (roleCode r) = r.
Proof.
  unfold known_role, required. intros H.
  repeat (apply elem_of_cons in H as [->|H]; [vm_compute; reflexivity|]).
  by apply not_elem_of_nil in H.
Qed.

Lemma roleCode_range r : is_u16 (roleCode r).
Proof. unfold is_u16, roleCode. repeat case_if; lia. Qed.

Lemma roleCode_roleFromCode c r : known_role r -> roleFromCode c = r -> c = roleCode r.
Proof.
  intros Hk <-. revert Hk. unfold known_role, roleFromCode.
  do 9 (case_if; [intros _; reflect_bools; subst; vm_compute; reflexivity|]).
  intros H. exfalso. revert H. apply (bool_decide_unpack _). vm_compute. exact I.
Qed.

(** ** The wire format *)

(** The channel of the other end, about to send the frame [ch] expects. *)
Definition peer (ch : ChannelState) : ChannelState :=
  mkChannel (RemoteRole ch) (LocalRole ch) (SessionNonce ch) (u64 (LastRecvSeq ch + 1)) 0
    (MaxFrame ch) (MaxQueue ch) 0 false (MACKey ch).

Definition wire (ch : ChannelState) (typ : Z) (payload : bytes) : bytes :=
  frame_body ch typ payload ++
  (if 0 <? len (MACKey ch) then macSHA256 (MACKey ch) (frame_body ch typ payload) else []).

Definition frame_of (ch : ChannelState) (typ : Z) (payload : bytes) : Frame :=
  mkFrame ProtocolVersion typ (SessionNonce ch) (NextSendSeq ch) (LocalRole ch)
    (RemoteRole ch) payload.

Lemma ipc_len_FrameMagic : len FrameMagic = 8.
Proof. done. Qed.

#[local] Hint Rewrite ipc_len_FrameMagic : len.

Lemma ipc_len_frame_body ch typ payload :
  len (SessionNonce ch) = 16 -> len (frame_body ch typ payload) = 44 + len payload.
Proof. intros. unfold frame_body. len_lia. Qed.

Lemma len_wire ch typ payload :
  len (SessionNonce ch) = 16 -> len (wire ch typ payload) = 44 + len payload + macLen ch.
Proof.
  intros. unfold wire, macLen, macSHA256. rewrite len_app, ipc_len_frame_body by done.
  case_if; [by rewrite len_hmac_sha256|by rewrite len_nil].
Qed.

(** The fixed fields of a frame, read at their offsets. *)
Definition fields_at (raw : bytes) (typ seq sc rc plen : Z) (nonce : bytes) : Prop :=
  sub raw 0 8 = FrameMagic /\ sub raw 8 10 = le_bytes 2 ProtocolVersion /\
  sub raw 10 12 = le_bytes 2 typ /\ sub raw 12 28 = nonce /\ sub raw 28 36 = le_bytes 8 seq /\
  sub raw 36 38 = le_bytes 2 sc /\ sub raw 38 40 = le_bytes 2 rc /\
  sub raw 40 44 = le_bytes 4 plen.

Lemma ipc_body_fields ch typ payload rest :
  wf_channel ch -> is_u16 typ -> len payload < 4294967296 ->
  fields_at (frame_body ch typ payload ++ rest) typ (NextSendSeq ch)
    (roleCode (LocalRole ch)) (roleCode (RemoteRole ch)) (len payload) (SessionNonce ch) /\
  sub (frame_body ch typ payload ++ rest) 44 (44 + len payload) = payload.
Proof.
  intros (Hn & _) Ht Hp. pose proof (len_nonneg payload).
  unfold fields_at, frame_body, u16, u32. unfold is_u16 in Ht. rewrite !Z.mod_small by lia.
  rewrite <- !app_assoc. repeat split; repeat sub_step; done.
Qed.

Lemma ipc_fields_body raw ch typ plen :
  len (SessionNonce ch) = 16 -> 0 <= plen -> 44 + plen <= len raw -> is_u16 typ -> is_u32 plen ->
  fields_at raw typ (NextSendSeq ch) (roleCode (LocalRole ch)) (roleCode (RemoteRole ch)) plen
    (SessionNonce ch) ->
  sub raw 0 (44 + plen) = frame_body ch typ (sub raw 44 (44 + plen)).
Proof.
  intros Hn Hp Hl Ht Hpl (R0 & R1 & R2 & R3 & R4 & R5 & R6 & R7).
  unfold frame_body, u16, u32. unfold is_u16, is_u32 in *. rewrite len_sub by lia.
  replace (44 + plen - 44) with plen by lia. rewrite !Z.mod_small by lia.
  rewrite (sub_split raw 0 8), (sub_split raw 8 10), (sub_split raw 10 12), (sub_split raw 12 28),
    (sub_split raw 28 36), (sub_split raw 36 38), (sub_split raw 38 40), (sub_split raw 40 44) by lia.
  by rewrite R0, R1, R2, R3, R4, R5, R6, R7.
Qed.

Lemma queue_admits q :
  0 <= q <= 1024 ->
  is_ok (Resource.AdmitQueue Resource.DefaultLimits (u64 (q + 1))) = (q <? 1024).
Proof.
  intros Hq. rewrite u64_small by (unfold is_u64; lia). unfold Resource.AdmitQueue.
  change (Resource.MaxQueueDepth Resource.DefaultLimits) with 1024.
  change (1024 =? 0) with false. cbv match.
  destruct (q <? 1024) eqn:E; [by dec_false (1024 <? q + 1)|by dec_true (1024 <? q + 1)].
Qed.

(** Decoding what the peer sends next. *)
Lemma ipc_Decode_wire ch typ payload :
  wf_channel ch -> known_role (LocalRole ch) -> known_role (RemoteRole ch) ->
  Closed ch = false -> QueueDepth ch < 1024 ->
  is_u16 typ -> typ <> TypeCritical -> len payload <= MaxFrame ch ->
  Decode ch (wire (peer ch) typ payload) =
  Ok (received ch (u64 (LastRecvSeq ch + 1)) typ, frame_of (peer ch) typ payload).
Proof.
  intros Hwf Hl Hr Hc Hq Ht Hnc Hp. pose proof Hwf as (Hn & _ & Hseq & Hmf & Hqd).
  unfold is_u32, is_u64 in *. pose proof (len_nonneg payload).
  assert (Hwfp : wf_channel (peer ch)).
  { split; [done|]. split; [apply u64_range|]. done. }
  assert (Hlen : len (wire (peer ch) typ payload) = 44 + len payload + macLen ch)
    by (by rewrite len_wire).
  assert (Hbody : sub (wire (peer ch) typ payload) 0 (44 + len payload) =
                  frame_body (peer ch) typ payload).
  { unfold wire. rewrite sub_app_l by (rewrite ?ipc_len_frame_body by done; lia).
    apply sub_full. rewrite ipc_len_frame_body by done. lia. }
  assert (Hmac : 0 < len (MACKey ch) ->
    sub (wire (peer ch) typ payload) (44 + len payload) (44 + len payload + 32) =
    macSHA256 (MACKey ch) (frame_body (peer ch) typ payload)).
  { intros Hk. unfold wire. cbn [MACKey peer]. rewrite (proj2 (Z.ltb_lt _ _)) by done.
    rewrite sub_app_r, ipc_len_frame_body by (rewrite ?ipc_len_frame_body by done; done || lia).
    apply sub_whole; [lia|]. unfold macSHA256. rewrite len_hmac_sha256. lia. }
  destruct (ipc_body_fields (peer ch) typ payload
    (if 0 <? len (MACKey (peer ch)) then macSHA256 (MACKey (peer ch)) (frame_body (peer ch) typ payload) else [])
    Hwfp Ht ltac:(lia)) as [(R0 & R1 & R2 & R3 & R4 & R5 & R6 & R7) R8].
  fold (wire (peer ch) typ payload) in *.
  remember (wire (peer ch) typ payload) as raw eqn:Eraw. clear Eraw.
  assert (Hm0 : 0 <= macLen ch) by (unfold macLen; case_if; done).
  unfold Decode, HeaderBytes. rewrite Hc. cbv match. dec_false (len raw <? 44 + macLen ch).
  read_step. rewrite R0, bool_decide_true by done. cbn [negb].
  do 2 read_step. rewrite R1. change (negb (le_val (le_bytes 2 ProtocolVersion) =? ProtocolVersion)) with false.
  do 3 read_step. rewrite R2, (le_val_bytes 2) by (cbn; unfold is_u16 in Ht; lia).
  rewrite R3. cbn [peer SessionNonce]. rewrite copy_zeros, bool_decide_true by done. cbn [negb].
  do 6 read_step. rewrite R4, R5, R6. cbn [peer NextSendSeq LocalRole RemoteRole].
  pose proof (roleCode_range (LocalRole ch)). pose proof (roleCode_range (RemoteRole ch)).
  rewrite (le_val_bytes 8) by apply u64_range. rewrite !(le_val_bytes 2) by done.
  rewrite !roleFromCode_roleCode by done.
  do 2 read_step. rewrite R7, (le_val_bytes 4) by (cbn; lia).
  rewrite Hlen, Z.eqb_refl. cbn [negb]. dec_false (MaxFrame ch <? len payload).
  replace (if 0 <? len (MACKey ch) then _ else Ok tt)
    with (@Ok (ChannelState * Error) unit tt).
  2:{ destruct (0 <? len (MACKey ch)) eqn:Ek; [|done]. unfold macLen in *. rewrite Ek in *.
      unfold MACBytes in *. reflect_bools. do 2 read_step. rewrite Hbody.
      replace (44 + len payload + 32 - 32) with (44 + len payload) by lia.
      rewrite Hmac by done. by rewrite bool_decide_true. }
  cbn [bind]. rewrite !bool_decide_true by done. cbn [negb orb].
  rewrite Z.eqb_refl. cbn [negb].
  rewrite queue_admits by done. dec_true (QueueDepth ch <? 1024). cbn [negb].
  rewrite (proj2 (Z.eqb_neq _ _)) by done. read_step. rewrite R8. done.
Qed.

(** Everything [Decode] accepts is what the peer sends next; refusals change
    nothing but the closed flag. *)
Lemma ipc_Decode_outcome ch raw :
  wf_channel ch -> known_role (LocalRole ch) -> known_role (RemoteRole ch) ->
  match Decode ch raw with
  | Ok (ch', f) =>
      Closed ch = false /\ QueueDepth ch < 1024 /\
      exists typ payload, is_u16 typ /\ typ <> TypeCritical /\ len payload <= MaxFrame ch /\
        raw = wire (peer ch) typ payload /\
        ch' = received ch (u64 (LastRecvSeq ch + 1)) typ /\ f = frame_of (peer ch) typ payload
  | Err (ch', e) => ch' = ch \/ ch' = set_closed ch
  | Panic => False
  end.
Proof.
  intros Hwf Hl Hr. pose proof Hwf as (Hn & _ & Hseq & Hmf & Hqd). unfold Decode, HeaderBytes.
  assert (Hm0 : 0 <= macLen ch) by (unfold macLen; case_if; done).
  destruct (Closed ch) eqn:Hc; [by left|].
  destruct (len raw <? 44 + macLen ch) eqn:E0; [by left|]. reflect_bools.
  read_step. case_bool_decide as R0; cbn [negb]; [|by left].
  do 2 read_step. destruct (_ =? ProtocolVersion) eqn:E1; cbn [negb]; [|by left].
  do 3 read_step. rewrite copy_zeros by (rewrite len_sub; lia).
  case_bool_decide as R3; cbn [negb]; [|by left].
  do 8 read_step. set (plen := le_val (sub raw 40 44)).
  destruct (44 + plen + macLen ch =? len raw) eqn:E2; cbn [negb]; [|by left].
  destruct (MaxFrame ch <? plen) eqn:E3; [by left|].
  pose proof (le_val_sub_range raw 40 44 ltac:(lia) ltac:(lia) ltac:(lia)) as Hpl. fold plen in Hpl.
  pose proof (le_val_sub_range raw 10 12 ltac:(lia) ltac:(lia) ltac:(lia)) as Htp.
  reflect_bools.
  set (mac := if 0 <? len (MACKey ch) then _ else _).
  assert (Hmac : mac = Err (set_closed ch, fail "mac" true) \/
    mac = Ok tt /\ (0 < len (MACKey ch) ->
      sub raw (44 + plen) (44 + plen + 32) = macSHA256 (MACKey ch) (sub raw 0 (44 + plen)))).
  { unfold mac. destruct (0 <? len (MACKey ch)) eqn:Ek; [|right; split; [done|lia]].
    unfold macLen in E2. rewrite Ek in E2. unfold MACBytes in *. do 2 read_step.
    case_bool_decide as Hm; cbn [negb]; [right|by left]. split; [done|]. intros _.
    rewrite <- Hm. f_equal; lia. }
  clearbody mac. destruct Hmac as [->|[-> Hmac]]; cbn [bind]; [by right|].
  destruct (_ || _) eqn:E4; [by left|]. reflect_bools.
  destruct (_ =? u64 (LastRecvSeq ch + 1)) eqn:E5; cbn [negb]; [|by left].
  rewrite queue_admits by done. destruct (QueueDepth ch <? 1024) eqn:E6; cbn [negb]; [|by left].
  destruct (_ =? TypeCritical) eqn:E7; [by right|]. reflect_bools.
  read_step. split; [done|]. split; [done|].
  exists (le_val (sub raw 10 12)), (sub raw 44 (44 + plen)).
  assert (Ef : fields_at raw (le_val (sub raw 10 12)) (NextSendSeq (peer ch))
    (roleCode (LocalRole (peer ch))) (roleCode (RemoteRole (peer ch))) plen (SessionNonce (peer ch))).
  { cbn [peer NextSendSeq LocalRole RemoteRole SessionNonce].
    repeat split; try done; apply le_bytes_sub; try lia; try done;
      apply roleCode_roleFromCode; done. }
  assert (Hb := ipc_fields_body raw (peer ch) _ plen Hn ltac:(lia) ltac:(lia) Htp ltac:(done) Ef).
  split; [done|]. split; [done|]. split; [rewrite len_sub; lia|]. split.
  - unfold wire. cbn [peer MACKey]. fold (peer ch). rewrite <- Hb. unfold macLen in E2.
    destruct (0 <? len (MACKey ch)) eqn:Ek; reflect_bools.
    + rewrite <- Hmac by done. unfold MACBytes in E2. rewrite <- sub_split by lia.
      symmetry. apply sub_full. lia.
    + rewrite app_nil_r. symmetry. apply sub_full. lia.
  - split; [by rewrite E5|]. unfold frame_of. cbn [peer NextSendSeq LocalRole RemoteRole SessionNonce].
    f_equal; congruence.
Qed.

(** A channel accepts a frame if and only if it is, byte for byte, the next
    frame its peer can send: the expected nonce, roles and sequence number, a
    length that matches, and on a keyed channel the HMAC of exactly those bytes
    under the channel key.  What is delivered is what those bytes carry. *)
Lemma ipc_Decode_exact ch raw ch' f :
  wf_channel ch -> known_role (LocalRole ch) -> known_role (RemoteRole ch) ->
  Decode ch raw = Ok (ch', f) <->
  Closed ch = false /\ QueueDepth ch < 1024 /\
  exists typ payload, is_u16 typ /\ typ <> TypeCritical /\ len payload <= MaxFrame ch /\
    raw = wire (peer ch) typ payload /\
    ch' = received ch (u64 (LastRecvSeq ch + 1)) typ /\ f = frame_of (peer ch) typ payload.
Proof.
  intros Hwf Hl Hr. split.
  - intros E. pose proof (ipc_Decode_outcome ch raw Hwf Hl Hr) as H. by rewrite E in H.
  - intros (Hc & Hq & typ & payload & Ht & Hnc & Hp & -> & -> & ->). by apply ipc_Decode_wire.
Qed.

(** ** Encoding *)

Lemma ipc_Encode_ok ch typ payload :
  wf_channel ch -> Closed ch = false -> 1 <= typ <= 4 -> len payload <= MaxFrame ch ->
  Encode ch typ payload = Ok (sent ch typ, wire ch typ payload).
Proof.
  intros (Hn & _ & _ & Hmf & _) Hc Ht Hp. pose proof (len_nonneg payload).
  unfold Encode, TypeRequest, TypeCritical. rewrite Hc. cbv match.
  dec_false ((typ <? 1) || (4 <? typ)). dec_false (MaxFrame ch <? len payload).
  assert (Hm : 0 <= macLen ch <= 32) by (unfold macLen, MACBytes; case_if; lia).
  rewrite (proj2 (Resource.AdmitBytes_ok _ _)).
  2:{ unfold encode_limits, HeaderBytes, MACBytes, is_u32 in *. cbn [Resource.MaxBytes]. lia. }
  unfold wire. case_if; [done|]. by rewrite app_nil_r.
Qed.

(** Two ends of one connection, in step in the direction from [a] to [b]. *)
Definition paired (a b : ChannelState) : Prop :=
  wf_channel a /\ wf_channel b /\ Closed a = false /\ Closed b = false /\
  known_role (LocalRole b) /\ known_role (RemoteRole b) /\
  LocalRole a = RemoteRole b /\ RemoteRole a = LocalRole b /\
  SessionNonce a = SessionNonce b /\ MACKey a = MACKey b /\
  NextSendSeq a = u64 (LastRecvSeq b + 1) /\ MaxFrame a <= MaxFrame b.

Lemma wire_peer a b typ payload : paired a b -> wire a typ payload = wire (peer b) typ payload.
Proof.
  intros (_ & _ & _ & _ & _ & _ & Hl & Hr & Hn & Hk & Hs & _).
  unfold wire, frame_body. cbn [peer MACKey SessionNonce NextSendSeq LocalRole RemoteRole].
  by rewrite Hl, Hr, Hn, Hk, Hs.
Qed.

Lemma paired_step a b typ payload :
  paired a b -> QueueDepth b < 1024 -> 1 <= typ <= 3 -> len payload <= MaxFrame a ->
  Encode a typ payload = Ok (sent a typ, wire a typ payload) /\
  Decode b (wire a typ payload) =
    Ok (received b (u64 (LastRecvSeq b + 1)) typ, frame_of (peer b) typ payload) /\
  (typ <> TypeClose ->
   paired (sent a typ) (received b (u64 (LastRecvSeq b + 1)) typ)).
Proof.
  intros Hp Hq Ht Hl. pose proof Hp as (Hwa & Hwb & Hca & Hcb & Hk1 & Hk2 & ? & ? & ? & ? & Hs & ?).
  pose proof Hwb as (Hn & Hss & Hsr & Hmf & Hqd). pose proof Hwa as (Hna & _ & Hra & Hma & Hqa).
  split; [apply ipc_Encode_ok; (done || lia)|]. split.
  - rewrite (wire_peer a b) by done.
    apply ipc_Decode_wire; try done; unfold is_u16, TypeCritical; lia.
  - unfold TypeClose. intros Hnc. unfold paired, sent, received.
    cbn [LocalRole RemoteRole SessionNonce NextSendSeq LastRecvSeq MaxFrame QueueDepth Closed MACKey].
    rewrite (proj2 (Z.eqb_neq typ TypeClose)) by done.
    split; [split; [done|]; split; [apply u64_range|done]|].
    split; [split; [done|]; split; [done|]; split; [apply u64_range|]; split; [done|]|].
    { cbn. rewrite u64_small; unfold is_u64; lia. }
    rewrite Hs. done.
Qed.

(** Send every payload as a request from [a] and collect what [b] delivers. *)
Fixpoint transport (a b : ChannelState) (ps : list bytes)
    : res (ChannelState * Error) (list bytes) :=
  match ps with
  | [] => Ok []
  | p :: ps =>
      let! (a, raw) := Encode a TypeRequest p in
      let! (b, f) := Decode b raw in
      let! rest := transport a b ps in
      Ok (Payload f :: rest)
  end.

(** Paired channels transport: whatever payloads within the frame limit one
    end sends (up to the receiver's queue bound), the other end delivers the
    same payloads, all of them, in order. *)
Lemma transport_delivers a b ps :
  paired a b -> QueueDepth b + len ps <= 1024 ->
  Forall (fun p => len p <= MaxFrame a) ps ->
  transport a b ps = Ok ps.
Proof.
  intros Hp Hq Hf. revert a b Hp Hq Hf.
  induction ps as [|p ps IH]; intros a b Hp Hq Hf; [done|].
  apply Forall_cons in Hf as [Hl Hf]. rewrite len_cons in Hq. pose proof (len_nonneg ps).
  destruct (paired_step a b TypeRequest p Hp ltac:(lia) ltac:(unfold TypeRequest; lia) Hl)
    as (He & Hd & Hn).
  cbn [transport]. rewrite He. cbn [bind]. rewrite Hd. cbn [bind].
  rewrite IH; [done|by apply Hn| |done].
  pose proof Hp as (_ & (_ & _ & _ & _ & ?) & _).
  cbn [received QueueDepth]. rewrite u64_small; unfold is_u64; lia.
Qed.

(** ** What a hostile sender can achieve *)

(** Feed arbitrary frames to a channel and collect the accepted ones. *)
Fixpoint decode_all (ch : ChannelState) (raws : list bytes) : ChannelState * list Frame :=
  match raws with
  | [] => (ch, [])
  | raw :: raws =>
      match Decode ch raw with
      | Ok (ch', f) => let '(ch'', fs) := decode_all ch' raws in (ch'', f :: fs)
      | Err (ch', _) => decode_all ch' raws
      | Panic => (ch, [])
      end
  end.

(** The receive counters advance together from the channel's creation. *)
Definition in_step (ch : ChannelState) : Prop :=
  wf_channel ch /\ known_role (LocalRole ch) /\ known_role (RemoteRole ch) /\
  LastRecvSeq ch = QueueDepth ch.

Lemma in_step_closed ch : in_step ch -> in_step (set_closed ch).
Proof. done. Qed.

Lemma in_step_received ch typ :
  in_step ch -> QueueDepth ch < 1024 ->
  in_step (received ch (u64 (LastRecvSeq ch + 1)) typ).
Proof.
  intros ((? & ? & ? & ? & Hq) & ? & ? & Hs) Hlt. unfold in_step, received, wf_channel. cbn.
  rewrite Hs, u64_small by (unfold is_u64; lia).
  unfold is_u64 in *. split; [|done]. repeat (split; [done || lia|]). lia.
Qed.

Lemma decode_all_step ch raws ch' fs :
  in_step ch -> decode_all ch raws = (ch', fs) ->
  in_step ch' /\ map Sequence fs = seqZ (LastRecvSeq ch + 1) (len fs) /\
  QueueDepth ch' = QueueDepth ch + len fs.
Proof.
  revert ch fs. induction raws as [|raw raws IH]; intros ch fs Hi Hd; cbn [decode_all] in Hd.
  { injection Hd as <- <-. rewrite len_nil. split; [done|]. split; [done|lia]. }
  pose proof Hi as (Hwf & Hl & Hr & Hs). pose proof Hwf as (_ & _ & _ & _ & Hq0).
  pose proof (ipc_Decode_outcome ch raw Hwf Hl Hr) as Ho.
  destruct (Decode ch raw) as [[ch1 f]|[ch1 e]|]; [| |done].
  - destruct Ho as (Hc & Hq & typ & payload & Ht & _ & _ & _ & -> & ->).
    destruct (decode_all _ raws) as [ch2 fs2] eqn:E. injection Hd as <- <-.
    apply IH in E as (H1 & H2 & H3); [|by apply in_step_received].
    cbn [received LastRecvSeq QueueDepth] in H2, H3. rewrite u64_small in H2, H3 by (unfold is_u64; lia).
    split; [done|]. rewrite len_cons. pose proof (len_nonneg fs2). split; [|lia].
    cbn [map frame_of peer Sequence NextSendSeq].
    rewrite (seqZ_cons (LastRecvSeq ch + 1)) by lia.
    rewrite u64_small by (unfold is_u64; lia). f_equal. rewrite H2. f_equal; lia.
  - destruct Ho as [->| ->]; [by apply IH|]. by apply (IH (set_closed ch)).
Qed.

(** No replay, no reordering, no gaps: whatever bytes are injected into a
    channel, the frames it accepts over its lifetime carry consecutive sequence
    numbers, each accepted once and in order. *)
Lemma accepted_consecutive local remote nonce raws ch' fs :
  len nonce = 16 -> known_role local -> known_role remote ->
  decode_all (NewChannel local remote nonce) raws = (ch', fs) ->
  map Sequence fs = seqZ 1 (len fs).
Proof.
  intros Hn Hl Hr Hd.
  apply decode_all_step in Hd as (_ & H & _); [done|]. repeat split; try done.
Qed.

(** The receive queue is never drained: the depth counts every accepted
    frame, so over its whole lifetime a channel delivers at most 1024 frames,
    and refuses every further one even from an honest peer. *)
Lemma channel_lifetime local remote nonce raws ch' fs :
  len nonce = 16 -> known_role local -> known_role remote ->
  decode_all (NewChannel local remote nonce) raws = (ch', fs) ->
  len fs <= 1024 /\
  (len fs = 1024 -> forall raw ch'' f, Decode ch' raw <> Ok (ch'', f)).
Proof.
  intros Hn Hl Hr Hd.
  apply decode_all_step in Hd as (((Hw1 & Hw2 & Hw3 & Hw4 & Hq) & Hl' & Hr' & Hs) & _ & H);
    [|repeat split; done].
  cbn [NewChannel QueueDepth] in H. split; [lia|]. intros H1024 raw ch'' f E.
  pose proof (ipc_Decode_outcome ch' raw ltac:(done) Hl' Hr') as Ho. rewrite E in Ho.
  destruct Ho as (_ & Hlt & _). lia.
Qed.

(** ** Streams *)

(** Stream framing round trip: a frame written to a stream is read back
    exactly, whatever follows it on the stream, and what follows is untouched. *)
Lemma ReadFrame_WriteFrame raw out rest :
  WriteFrame raw = Ok out -> ReadFrame (out ++ rest) 0 = Ok (raw, rest).
Proof.
  unfold WriteFrame. destruct (_ || _) eqn:E; [done|]. intros Hw.
  assert (out = le_bytes 4 (u32 (len raw)) ++ raw) as -> by congruence. clear Hw.
  assert (Hmax : max_stream = 1048652) by done. rewrite Hmax in E.
  pose proof (len_nonneg raw). pose proof (len_nonneg rest).
  unfold ReadFrame. change (0 <=? 0) with true. cbv match.
  rewrite !len_app, len_le_bytes. dec_false (Z.of_nat 4 + len raw + len rest <? 4).
  rewrite <- app_assoc, sub_app_l, sub_full by (rewrite ?len_le_bytes; done).
  rewrite u32_small by (unfold is_u32; lia). rewrite le_val_bytes by (cbn; lia).
  rewrite Hmax. dec_false ((len raw <=? 0) || (1048652 <? len raw)).
  dec_false (Z.of_nat 4 + len raw + len rest - 4 <? len raw).
  do 2 f_equal.
  - rewrite sub_app_r by (rewrite len_le_bytes; done). rewrite len_le_bytes.
    rewrite sub_app_l by lia. apply sub_whole; lia.
  - rewrite sub_app_r by (rewrite len_le_bytes; lia). rewrite len_le_bytes.
    rewrite sub_app_r by lia. apply sub_whole; lia.
Qed.

(** ** Witnesses *)

Definition key_demo : bytes := zeros 32.

Definition keyed (local remote : string) : ChannelState :=
  mkChannel local remote (zeros 16) 1 0 MaxFrameBytes MaxQueueDepth 0 false key_demo.

Lemma keyed_new local remote :
  NewAuthenticatedChannel local remote (zeros 16) key_demo = Ok (keyed local remote).
Proof. reflexivity. Defined.

Lemma known_net : known_role RoleNet.
Proof. apply (bool_decide_unpack _). vm_compute. exact I. Defined.

Lemma known_auth : known_role RoleAuth.
Proof. apply (bool_decide_unpack _). vm_compute. exact I. Defined.

Lemma keyed_wf local remote : wf_channel (keyed local remote).
Proof. repeat split; vm_compute; congruence. Defined.

Lemma paired_demo : paired (keyed RoleNet RoleAuth) (keyed RoleAuth RoleNet).
Proof.
  split; [apply keyed_wf|]. split; [apply keyed_wf|]. split; [reflexivity|]. split; [reflexivity|].
  split; [exact known_auth|]. split; [exact known_net|].
  repeat (split; [reflexivity|]). vm_compute. congruence.
Defined.

Lemma ipc_Decode_exact_witness :
  exists ch' f,
    Decode (keyed RoleAuth RoleNet) (wire (peer (keyed RoleAuth RoleNet)) 1 (str "hi")) =
    Ok (ch', f) /\ Payload f = str "hi".
Proof.
  eexists _, _. split.
  - apply (ipc_Decode_exact (keyed RoleAuth RoleNet)
      (wire (peer (keyed RoleAuth RoleNet)) 1 (str "hi"))).
    + apply keyed_wf.
    + exact known_auth.
    + exact known_net.
    + split; [reflexivity|]. split; [reflexivity|].
      exists 1, (str "hi"). repeat split; vm_compute; congruence.
  - reflexivity.
Defined.

Lemma transport_delivers_witness :
  transport (keyed RoleNet RoleAuth) (keyed RoleAuth RoleNet) [str "one"; []; str "three"] =
  Ok [str "one"; []; str "three"].
Proof.
  apply (transport_delivers (keyed RoleNet RoleAuth) (keyed RoleAuth RoleNet)).
  - exact paired_demo.
  - vm_compute. congruence.
  - repeat constructor; vm_compute; congruence.
Defined.

(** A channel that accepts a frame and refuses its replay. *)
Definition plain : ChannelState := NewChannel RoleAuth RoleNet (zeros 16).
Definition replayed : list bytes := [wire (peer plain) 1 (str "hi"); wire (peer plain) 1 (str "hi")].
Definition plain' : ChannelState := received plain 1 1.
Definition accepted : list Frame := [frame_of (peer plain) 1 (str "hi")].

Lemma replayed_once : decode_all plain replayed = (plain', accepted).
Proof. vm_compute. reflexivity. Defined.

Lemma accepted_consecutive_witness :
  decode_all plain replayed = (plain', accepted) /\ map Sequence accepted = seqZ 1 1.
Proof.
  split; [exact replayed_once|].
  apply (accepted_consecutive RoleAuth RoleNet (zeros 16) replayed plain' accepted).
  - reflexivity.
  - exact known_auth.
  - exact known_net.
  - exact replayed_once.
Defined.

Lemma channel_lifetime_witness :
  decode_all plain replayed = (plain', accepted) /\ len accepted <= 1024.
Proof.
  split; [exact replayed_once|].
  apply (channel_lifetime RoleAuth RoleNet (zeros 16) replayed plain' accepted).
  - reflexivity.
  - exact known_auth.
  - exact known_net.
  - exact replayed_once.
Defined.

Lemma ReadFrame_WriteFrame_witness :
  exists out, WriteFrame (str "frame") = Ok out /\
    ReadFrame (out ++ str "next") 0 = Ok (str "frame", str "next").
Proof.
  eexists. split; [reflexivity|].
  apply (ReadFrame_WriteFrame (str "frame") _ (str "next")). reflexivity.
Defined.

End Ipc.
