(* ===== verification/Observability.v ===== *)
(** * Redacted events (internal/observability/observability.go)

    [Validate], the bounded in-memory sink and the canonical event encoding.
    A sink never holds an event that fails validation, more events than its
    bound, or two events with one sequence number; and the canonical encoding
    identifies the event. *)

From S2P Require Import Prelude Sha256 Resource Codec.

Module Observability.

Definition ChannelOperational : Z := 1.
Definition ChannelSecurity : Z := 2.
Definition ChannelAudit : Z := 3.
Definition ChannelDiagnostic : Z := 4.
Definition ChannelMetrics : Z := 5.

Definition SeverityDebug : Z := 1.
Definition SeverityInfo : Z := 2.
Definition SeverityWarning : Z := 3.
Definition SeverityError : Z := 4.
Definition SeverityCritical : Z := 5.

Definition RedactionPublic : Z := 1.
Definition RedactionInternal : Z := 2.
Definition RedactionSensitive : Z := 3.
Definition RedactionForbidden : Z := 4.

Record Event := mkEvent {
  ID : bytes;
  Channel : Z;
  Severity : Z;
  Component : bytes;
  ArchivePseudonym : bytes;
  TransactionID : bytes;
  Sequence : Z;
  CauseCategory : bytes;
  Redaction : Z;
  Message : bytes }.

Record Error := reject { Code : string }.

#[global] Instance Error_eq_dec : EqDecision Error.
Proof. solve_decision. Defined.

#[global] Instance Event_eq_dec : EqDecision Event.
Proof. solve_decision. Defined.

Definition maxEventIDLen : Z := 64.
Definition maxComponentLen : Z := 64.
Definition maxCauseLen : Z := 64.
Definition maxMessageLen : Z := 256.

(** The loop of [containsForbidden] for one marker: from offset [i] on. *)
Fixpoint occurs (fuel : nat) (s f : bytes) (i : Z) : bool :=
  match fuel with
  | O => false
  | S fuel =>
      if i + len f <=? len s then
        if bool_decide (sub s i (i + len f) = f) then true else occurs fuel s f (i + 1)
      else false
  end.

Definition forbidden : list bytes :=
  [str "-----BEGIN"; str "PRIVATE KEY"; str "password="; str "Authorization:"].

Definition containsForbidden (s : bytes) : bool :=
  existsb (fun f => if len f <=? len s then occurs (S (length s)) s f 0 else false) forbidden.

(** The loop over the runes of the identifier: a byte outside ASCII is part of
    a rune above 0x7e, so the loop accepts exactly the printable ASCII bytes. *)
Definition printable (b : Byte.byte) : bool := (0x20 <=? byteZ b) && (byteZ b <=? 0x7e).

Definition Validate (e : Event) : res Error unit :=
  if bool_decide (ID e = []) || (maxEventIDLen <? len (ID e)) then Err (reject "id")
  else if negb (forallb printable (ID e)) then Err (reject "id")
  else if (Channel e <? ChannelOperational) || (ChannelMetrics <? Channel e)
  then Err (reject "channel")
  else if (Severity e <? SeverityDebug) || (SeverityCritical <? Severity e)
  then Err (reject "severity")
  else if bool_decide (Component e = []) || (maxComponentLen <? len (Component e))
  then Err (reject "component")
  else if maxCauseLen <? len (CauseCategory e) then Err (reject "cause")
  else if (Redaction e <? RedactionPublic) || (RedactionForbidden <? Redaction e)
  then Err (reject "redaction")
  else
    let! _ :=
      (if Redaction e =? RedactionForbidden then
         if negb (bool_decide (Message e = [])) then Err (reject "redaction") else Ok tt
       else if Redaction e =? RedactionSensitive then
         if 64 <? len (Message e) then Err (reject "redaction") else Ok tt
       else if maxMessageLen <? len (Message e) then Err (reject "message") else Ok tt) in
    if containsForbidden (Message e) then Err (reject "sanitize") else Ok tt.

(** ** The in-memory sink *)

Record MemSink := mkSink {
  limits : Resource.Limits;
  events : list Event;
  seq : Z;
  dropped : Z }.

Definition NewMemSink (maxQueue : Z) : MemSink :=
  mkSink (Resource.mkLimits (Z.shiftl 1 20) maxQueue 1 maxQueue 1 1) [] 0 0.

Definition with_sequence (e : Event) (n : Z) : Event :=
  mkEvent (ID e) (Channel e) (Severity e) (Component e) (ArchivePseudonym e)
    (TransactionID e) n (CauseCategory e) (Redaction e) (Message e).

(** The sink after the call and what the call returned.  A dropped event still
    consumes a sequence number. *)
Definition Emit (s : MemSink) (e : Event) : MemSink * res Error unit :=
  match Validate e with
  | Err err => (s, Err err)
  | Panic => (s, Panic)
  | Ok _ =>
      let n := u64 (seq s + 1) in
      let e := with_sequence e n in
      match Resource.AdmitQueue (limits s) (len (events s) + 1) with
      | Ok _ => (mkSink (limits s) (events s ++ [e]) n (dropped s), Ok tt)
      | _ => (mkSink (limits s) (events s) n (u64 (dropped s + 1)), Err (reject "backpressure"))
      end
  end.

(** ** The canonical encoding *)

Definition appendU16String (buf s : bytes) : bytes :=
  let s := if 65535 <? len s then sub s 0 65535 else s in
  buf ++ le_bytes 2 (u16 (len s)) ++ s.

Definition EncodeCanonical (e : Event) : res Error bytes :=
  let! _ := Validate e in
  let buf := [byte_of (Channel e); byte_of (Severity e); byte_of (Redaction e)] in
  let buf := buf ++ le_bytes 8 (Sequence e) in
  let buf := buf ++ ArchivePseudonym e in
  let buf := buf ++ TransactionID e in
  let buf := appendU16String buf (ID e) in
  let buf := appendU16String buf (Component e) in
  let buf := appendU16String buf (CauseCategory e) in
  Ok (appendU16String buf (Message e)).

Definition PathPseudonym (key pathHint : bytes) : bytes := Codec.SHA256 (key ++ pathHint).

(** ** What validation guarantees *)

(** What Go's types guarantee of an event. *)
Definition wf_event (e : Event) : Prop :=
  len (ArchivePseudonym e) = 32 /\ len (TransactionID e) = 16 /\ is_u64 (Sequence e).

Definition event_ok (e : Event) : Prop :=
  1 <= len (ID e) <= 64 /\ 1 <= Channel e <= 5 /\ 1 <= Severity e <= 5 /\
  1 <= len (Component e) <= 64 /\ len (CauseCategory e) <= 64 /\ 1 <= Redaction e <= 4 /\
  len (Message e) <= 256 /\ (Redaction e = RedactionForbidden -> Message e = []) /\
  containsForbidden (Message e) = false.

Lemma len_pos {A} (l : list A) : l <> [] -> 1 <= len l.
Proof. destruct l; [done|]. rewrite len_cons. pose proof (len_nonneg l). lia. Qed.

Lemma Validate_ok e : Validate e = Ok tt -> event_ok e.
Proof.
  unfold Validate, maxEventIDLen, maxComponentLen, maxCauseLen, maxMessageLen, ChannelOperational,
    ChannelMetrics, SeverityDebug, SeverityCritical, RedactionPublic, RedactionForbidden,
    RedactionSensitive.
  intros H. inv_ok H. reflect_bools. unfold event_ok.
  repeat match goal with H : ?l <> [] |- _ => apply len_pos in H end.
  assert (len (Message e) <= 256 /\ (Redaction e = RedactionForbidden -> Message e = [])) as [? ?].
  { unfold RedactionForbidden.
    repeat match goal with H : (if _ then _ else _) = Ok _ |- _ => inv_ok H end;
      reflect_bools; (split; [rewrite ?len_nil|]); try lia; try done;
      match goal with H : Message e = [] |- _ => rewrite H; rewrite len_nil; lia end. }
  repeat split; (done || lia).
Qed.

(** ** The scan for forbidden markers *)

Lemma occurs_spec fuel s f i :
  0 <= i -> len s < Z.of_nat fuel + i ->
  occurs fuel s f i = true <-> exists j, i <= j /\ j + len f <= len s /\ sub s j (j + len f) = f.
Proof.
  revert i. induction fuel as [|fuel IH]; intros i Hi Hf; cbn [occurs].
  { split; [done|]. intros (j & ? & ? & _). pose proof (len_nonneg f). lia. }
  destruct (i + len f <=? len s) eqn:E; reflect_bools.
  - case_bool_decide as Hs; [by split; [exists i; split_and!; (done || lia)|]|].
    rewrite IH by lia. split.
    + intros (j & ? & ? & ?). exists j. split_and!; (done || lia).
    + intros (j & ? & ? & Hj). exists j. split_and!; [|done..].
      assert (j <> i) by (intros ->; done). lia.
  - split; [done|]. intros (j & ? & ? & _). lia.
Qed.

Lemma containsForbidden_spec s :
  containsForbidden s = true <->
  exists f a b, f ∈ forbidden /\ s = a ++ f ++ b.
Proof.
  unfold containsForbidden. rewrite existsb_exists. setoid_rewrite <- list_elem_of_In. split.
  - intros (f & Hf & Ho). destruct (len f <=? len s); [|done].
    apply occurs_spec in Ho as (j & Hj & Hl & Hs); [|lia|unfold len; lia].
    exists f, (sub s 0 j), (sub s (j + len f) (len s)). split; [done|]. rewrite <- Hs at 1.
    pose proof (len_nonneg f).
    rewrite <- (sub_split s j), <- (sub_split s 0) by lia. symmetry. by apply sub_full.
  - intros (f & a & b & Hf & ->). exists f. split; [done|].
    pose proof (len_nonneg a). pose proof (len_nonneg b). pose proof (len_nonneg f).
    rewrite !len_app. dec_true (len f <=? len a + (len f + len b)).
    apply occurs_spec; [lia|unfold len; rewrite !length_app; lia|].
    exists (len a). rewrite !len_app. split; [lia|]. split; [lia|].
    rewrite sub_app_r by lia. rewrite sub_app_l by lia. apply sub_whole; lia.
Qed.

(** ** The sink invariant *)

Definition sink_ok (maxQueue : Z) (s : MemSink) : Prop :=
  limits s = limits (NewMemSink maxQueue) /\
  Forall event_ok (events s) /\ len (events s) <= maxQueue /\
  StronglySorted Z.lt (map Sequence (events s)) /\
  Forall (fun n => n <= seq s) (map Sequence (events s)) /\ 0 <= seq s.

Lemma with_sequence_ok e n : event_ok e -> event_ok (with_sequence e n).
Proof. done. Qed.

Lemma StronglySorted_snoc l n :
  StronglySorted Z.lt l -> Forall (fun m => m < n) l -> StronglySorted Z.lt (l ++ [n]).
Proof.
  induction 1 as [|m l Hs IH Hm]; intros Hf; cbn; [repeat constructor|].
  apply Forall_cons in Hf as [? Hf]. constructor; [by apply IH|].
  apply Forall_app. split; [done|]. by repeat constructor.
Qed.

Lemma Emit_ok maxQueue s e :
  sink_ok maxQueue s -> seq s < MaxUint64 -> 0 <= maxQueue ->
  sink_ok maxQueue (Emit s e).1 /\ seq (Emit s e).1 <= seq s + 1.
Proof.
  intros (Hl & Hv & Hq & Hs & Hm & H0) Hlt Hmq. unfold Emit, MaxUint64 in *.
  destruct (Validate e) as [[]| |] eqn:E; [|by split; [|cbn [fst]; lia]..].
  rewrite u64_small by (unfold is_u64; lia).
  assert (Hm' : Forall (fun n => n <= seq s + 1) (map Sequence (events s))).
  { eapply Forall_impl; [done|]. cbn. lia. }
  destruct (Resource.AdmitQueue _ _) as [[]| |] eqn:Ea; cbn [fst seq]; (split; [|lia]).
  2,3: by unfold sink_ok; cbn [limits events seq]; split_and!; try lia.
  apply Resource.AdmitQueue_ok in Ea as [_ Ea]. rewrite Hl in Ea. cbn in Ea.
  unfold sink_ok. cbn [limits events seq]. rewrite !map_app. cbn [map with_sequence Sequence].
  split; [done|]. split.
  { apply Forall_app. split; [done|]. constructor; [|done]. by apply with_sequence_ok, Validate_ok. }
  split; [rewrite len_app, len_cons, len_nil; lia|]. split.
  { apply StronglySorted_snoc; [done|]. apply (Forall_impl _ _ _ Hm). cbn. lia. }
  split; [|lia]. apply Forall_app. split; [done|]. repeat constructor. lia.
Qed.

(** Whatever is emitted, a sink holds only validated events (bounded
    fields, no forbidden key or credential marker), never more than its queue
    bound, in strictly increasing sequence order. *)
Lemma MemSink_invariant maxQueue es :
  0 <= maxQueue -> len es <= MaxUint64 ->
  let s := fold_left (fun s e => (Emit s e).1) es (NewMemSink maxQueue) in
  Forall event_ok (events s) /\ len (events s) <= maxQueue /\
  StronglySorted Z.lt (map Sequence (events s)).
Proof.
  intros Hq Hl s. subst s.
  assert (forall s, sink_ok maxQueue s -> seq s + len es <= MaxUint64 ->
    sink_ok maxQueue (fold_left (fun s e => (Emit s e).1) es s)) as Hgen.
  { clear Hl. induction es as [|e es IH]; intros s Hs Hn; [done|]. cbn [fold_left].
    rewrite len_cons in Hn. pose proof (len_nonneg es).
    destruct (Emit_ok maxQueue s e Hs) as [? ?]; [lia|lia|]. apply IH; [done|lia]. }
  destruct (Hgen (NewMemSink maxQueue)) as (_ & ? & ? & ? & _); [|cbn; lia|done].
  split_and!; cbn; try done; try constructor.
Qed.

(** ** The encoding identifies the event *)

Lemma appendU16String_short buf s :
  len s <= 256 -> appendU16String buf s = buf ++ le_bytes 2 (len s) ++ s.
Proof.
  intros Hs. pose proof (len_nonneg s). unfold appendU16String.
  dec_false (65535 <? len s). by rewrite u16_small by (unfold is_u16; lia).
Qed.

Lemma u16_string_split s t r1 r2 :
  len s <= 256 -> len t <= 256 ->
  le_bytes 2 (len s) ++ s ++ r1 = le_bytes 2 (len t) ++ t ++ r2 -> s = t /\ r1 = r2.
Proof.
  intros Hs Ht E. pose proof (len_nonneg s). pose proof (len_nonneg t).
  apply app_inj_1 in E as [El E]; [|by rewrite !length_le_bytes].
  apply le_bytes_inj in El; [|cbn; lia..].
  apply app_inj_1 in E; [done|]. unfold len in El. lia.
Qed.

Definition tail_of (e : Event) : bytes :=
  (le_bytes 2 (len (ID e)) ++ ID e ++
   (le_bytes 2 (len (Component e)) ++ Component e ++
    (le_bytes 2 (len (CauseCategory e)) ++ CauseCategory e ++
     (le_bytes 2 (len (Message e)) ++ Message e ++ [])))).

Definition canonical (e : Event) : bytes :=
  [byte_of (Channel e); byte_of (Severity e); byte_of (Redaction e)] ++
  le_bytes 8 (Sequence e) ++ ArchivePseudonym e ++ TransactionID e ++ tail_of e.

Lemma EncodeCanonical_canonical e b :
  EncodeCanonical e = Ok b -> event_ok e /\ b = canonical e.
Proof.
  unfold EncodeCanonical. destruct (Validate e) as [[]| |] eqn:E; [|done..].
  apply Validate_ok in E. intros H. split; [done|].
  pose proof E as (? & _ & _ & ? & ? & _ & ? & _). cbn [bind] in H.
  rewrite !appendU16String_short in H by lia. rewrite <- !app_assoc in H.
  unfold canonical, tail_of. rewrite app_nil_r. congruence.
Qed.

Lemma byte_of_inj a b : 0 <= a < 256 -> 0 <= b < 256 -> byte_of a = byte_of b -> a = b.
Proof.
  intros Ha Hb E%(f_equal byteZ). rewrite !byteZ_byte_of in E.
  rewrite !Z.mod_small in E; lia.
Qed.

(** The canonical encoding is injective: two events that encode to the same
    bytes are the same event, field by field. *)
Lemma EncodeCanonical_injective e1 e2 b :
  wf_event e1 -> wf_event e2 ->
  EncodeCanonical e1 = Ok b -> EncodeCanonical e2 = Ok b -> e1 = e2.
Proof.
  intros (Hp1 & Ht1 & Hs1) (Hp2 & Ht2 & Hs2) [Hv1 ->]%EncodeCanonical_canonical
    [Hv2 E]%EncodeCanonical_canonical.
  pose proof Hv1 as (? & ? & ? & ? & ? & ? & ? & _). pose proof Hv2 as (? & ? & ? & ? & ? & ? & ? & _).
  unfold canonical in E. apply app_inj_1 in E as [E3 E]; [|done]. injection E3 as Ec Es Er.
  apply byte_of_inj in Ec; [|lia..]. apply byte_of_inj in Es; [|lia..].
  apply byte_of_inj in Er; [|lia..].
  apply app_inj_1 in E as [Eseq E]; [|by rewrite !length_le_bytes].
  apply le_bytes_inj in Eseq; [|done..].
  apply app_inj_1 in E as [Ep E]; [|unfold len in *; lia].
  apply app_inj_1 in E as [Et E]; [|unfold len in *; lia].
  unfold tail_of in E. apply u16_string_split in E as [Ei E]; [|lia..].
  apply u16_string_split in E as [Eco E]; [|lia..].
  apply u16_string_split in E as [Eca E]; [|lia..].
  apply u16_string_split in E as [Em _]; [|lia..].
  destruct e1, e2. cbn in *. congruence.
Qed.

(** ** Witnesses *)

Definition event_demo : Event :=
  mkEvent (str "session.closed") ChannelSecurity SeverityInfo (str "session") (zeros 32)
    (zeros 16) 0 (str "close") RedactionInternal (str "session closed").

Lemma MemSink_invariant_witness :
  let s := fold_left (fun s e => (Emit s e).1) [event_demo; event_demo] (NewMemSink 1) in
  len (events s) <= 1 /\ dropped s = 1.
Proof.
  split; [|vm_compute; reflexivity].
  apply (MemSink_invariant 1 [event_demo; event_demo]); vm_compute; congruence.
Defined.

Lemma EncodeCanonical_injective_witness :
  exists b, EncodeCanonical event_demo = Ok b /\ event_demo = event_demo.
Proof.
  eexists. split; [reflexivity|].
  eapply (EncodeCanonical_injective event_demo event_demo).
  - repeat split; vm_compute; congruence.
  - repeat split; vm_compute; congruence.
  - reflexivity.
  - reflexivity.
Defined.

End Observability.
