(* ===== verification/Session.v ===== *)
(** * Session state machine (internal/session)

    [session.go], [suite.go], [peerauth.go] and [archiveauth.go]: negotiation,
    mutual peer authentication, archive authorization, activation and message
    acceptance, with every early return and the state it leaves behind.  A Go
    method on [*Session] is a function from a session to the session after the
    call and what the call returned.

    The events handed to the sink are recorded in order; the sink's answer is
    discarded by the code and cannot influence a session.

    [Spec] is formal/session/Session.tla as a step relation, extended with the
    fail-closed transition the code takes when a check fails.  The refinement
    theorem says every call is a sequence of those steps; the invariant theorem
    that the checks of [Invariants] pass in every reachable state. *)

From S2P Require Import Prelude Sha256 Codec Crypto Observability.

Module Session.

Definition MinVersion : Z := 1.
Definition MaxVersion : Z := 3.
Definition LocalAllowed : list Z := [2; 3].
Definition MaxMessages : Z := 3.
Definition DefaultMaxAccept : Z := Z.shiftl 1 20.

Inductive State :=
| StateNew | StateNegotiated | StatePeerAuthenticated | StateArchiveAuthorized
| StateActive | StateClosed | StateFailed.

#[global] Instance State_eq_dec : EqDecision State.
Proof. solve_decision. Defined.

(** An event handed to the sink: its identifier, cause and severity; the other
    fields are constants. *)
Record Event := mkEvent { EID : string; Cause : string; Sev : Z }.

Record Session := mkSession {
  State_ : State;
  Offered : list Z;
  Selected : Z;
  OfferedSuites : list string;
  SelectedSuite : string;
  RequireSuite : bool;
  PeerAuthenticated : bool;
  AuthI2R : bool;
  AuthR2I : bool;
  ArchiveAuthorized : bool;
  ReceiveSequence : Z;
  MaxAccept : Z;
  ReplayAccepted : bool;
  ProductMutation : bool;
  Events : option (list Event);
  Transcript : option Crypto.Transcript;
  AuthBaseDigest : bytes;
  AuthBaseSet : bool;
  ArchiveBaseDigest : bytes;
  ArchiveBaseSet : bool }.

(** Assignments to one field. *)
Definition set_State (v : State) (s : Session) : Session :=
  mkSession v (Offered s) (Selected s) (OfferedSuites s) (SelectedSuite s)
    (RequireSuite s) (PeerAuthenticated s) (AuthI2R s) (AuthR2I s) (ArchiveAuthorized s)
    (ReceiveSequence s) (MaxAccept s) (ReplayAccepted s) (ProductMutation s) (Events s)
    (Transcript s) (AuthBaseDigest s) (AuthBaseSet s) (ArchiveBaseDigest s)
    (ArchiveBaseSet s).

Definition set_Selected (v : Z) (s : Session) : Session :=
  mkSession (State_ s) (Offered s) v (OfferedSuites s) (SelectedSuite s)
    (RequireSuite s) (PeerAuthenticated s) (AuthI2R s) (AuthR2I s) (ArchiveAuthorized s)
    (ReceiveSequence s) (MaxAccept s) (ReplayAccepted s) (ProductMutation s) (Events s)
    (Transcript s) (AuthBaseDigest s) (AuthBaseSet s) (ArchiveBaseDigest s)
    (ArchiveBaseSet s).

Definition set_SelectedSuite (v : string) (s : Session) : Session :=
  mkSession (State_ s) (Offered s) (Selected s) (OfferedSuites s) v (RequireSuite s)
    (PeerAuthenticated s) (AuthI2R s) (AuthR2I s) (ArchiveAuthorized s)
    (ReceiveSequence s) (MaxAccept s) (ReplayAccepted s) (ProductMutation s) (Events s) (Transcript s)
    (AuthBaseDigest s) (AuthBaseSet s) (ArchiveBaseDigest s) (ArchiveBaseSet s).

Definition set_PeerAuthenticated (v : bool) (s : Session) : Session :=
  mkSession (State_ s) (Offered s) (Selected s) (OfferedSuites s) (SelectedSuite s)
    (RequireSuite s) v (AuthI2R s) (AuthR2I s) (ArchiveAuthorized s) (ReceiveSequence s)
    (MaxAccept s) (ReplayAccepted s) (ProductMutation s) (Events s) (Transcript s)
    (AuthBaseDigest s) (AuthBaseSet s) (ArchiveBaseDigest s) (ArchiveBaseSet s).

Definition set_AuthI2R (v : bool) (s : Session) : Session :=
  mkSession (State_ s) (Offered s) (Selected s) (OfferedSuites s) (SelectedSuite s)
    (RequireSuite s) (PeerAuthenticated s) v (AuthR2I s) (ArchiveAuthorized s)
    (ReceiveSequence s) (MaxAccept s) (ReplayAccepted s) (ProductMutation s) (Events s)
    (Transcript s) (AuthBaseDigest s) (AuthBaseSet s) (ArchiveBaseDigest s)
    (ArchiveBaseSet s).

Definition set_AuthR2I (v : bool) (s : Session) : Session :=
  mkSession (State_ s) (Offered s) (Selected s) (OfferedSuites s) (SelectedSuite s)
    (RequireSuite s) (PeerAuthenticated s) (AuthI2R s) v (ArchiveAuthorized s)
    (ReceiveSequence s) (MaxAccept s) (ReplayAccepted s) (ProductMutation s) (Events s)
    (Transcript s) (AuthBaseDigest s) (AuthBaseSet s) (ArchiveBaseDigest s)
    (ArchiveBaseSet s).

Definition set_ArchiveAuthorized (v : bool) (s : Session) : Session :=
  mkSession (State_ s) (Offered s) (Selected s) (OfferedSuites s) (SelectedSuite s)
    (RequireSuite s) (PeerAuthenticated s) (AuthI2R s) (AuthR2I s) v (ReceiveSequence s)
    (MaxAccept s) (ReplayAccepted s) (ProductMutation s) (Events s) (Transcript s)
    (AuthBaseDigest s) (AuthBaseSet s) (ArchiveBaseDigest s) (ArchiveBaseSet s).

Definition set_ReceiveSequence (v : Z) (s : Session) : Session :=
  mkSession (State_ s) (Offered s) (Selected s) (OfferedSuites s) (SelectedSuite s)
    (RequireSuite s) (PeerAuthenticated s) (AuthI2R s) (AuthR2I s) (ArchiveAuthorized s)
    v (MaxAccept s) (ReplayAccepted s) (ProductMutation s) (Events s) (Transcript s)
    (AuthBaseDigest s) (AuthBaseSet s) (ArchiveBaseDigest s) (ArchiveBaseSet s).

Definition set_ReplayAccepted (v : bool) (s : Session) : Session :=
  mkSession (State_ s) (Offered s) (Selected s) (OfferedSuites s) (SelectedSuite s)
    (RequireSuite s) (PeerAuthenticated s) (AuthI2R s) (AuthR2I s) (ArchiveAuthorized s)
    (ReceiveSequence s) (MaxAccept s) v (ProductMutation s) (Events s) (Transcript s)
    (AuthBaseDigest s) (AuthBaseSet s) (ArchiveBaseDigest s) (ArchiveBaseSet s).

Definition set_ProductMutation (v : bool) (s : Session) : Session :=
  mkSession (State_ s) (Offered s) (Selected s) (OfferedSuites s) (SelectedSuite s)
    (RequireSuite s) (PeerAuthenticated s) (AuthI2R s) (AuthR2I s) (ArchiveAuthorized s)
    (ReceiveSequence s) (MaxAccept s) (ReplayAccepted s) v (Events s) (Transcript s)
    (AuthBaseDigest s) (AuthBaseSet s) (ArchiveBaseDigest s) (ArchiveBaseSet s).

Definition set_Events (v : option (list Event)) (s : Session) : Session :=
  mkSession (State_ s) (Offered s) (Selected s) (OfferedSuites s) (SelectedSuite s)
    (RequireSuite s) (PeerAuthenticated s) (AuthI2R s) (AuthR2I s) (ArchiveAuthorized s)
    (ReceiveSequence s) (MaxAccept s) (ReplayAccepted s) (ProductMutation s) v
    (Transcript s) (AuthBaseDigest s) (AuthBaseSet s) (ArchiveBaseDigest s)
    (ArchiveBaseSet s).

Definition set_Transcript (v : option Crypto.Transcript) (s : Session) : Session :=
  mkSession (State_ s) (Offered s) (Selected s) (OfferedSuites s) (SelectedSuite s)
    (RequireSuite s) (PeerAuthenticated s) (AuthI2R s) (AuthR2I s) (ArchiveAuthorized s)
    (ReceiveSequence s) (MaxAccept s) (ReplayAccepted s) (ProductMutation s) (Events s)
    v (AuthBaseDigest s) (AuthBaseSet s) (ArchiveBaseDigest s) (ArchiveBaseSet s).

Definition set_AuthBaseDigest (v : bytes) (s : Session) : Session :=
  mkSession (State_ s) (Offered s) (Selected s) (OfferedSuites s) (SelectedSuite s)
    (RequireSuite s) (PeerAuthenticated s) (AuthI2R s) (AuthR2I s) (ArchiveAuthorized s)
    (ReceiveSequence s) (MaxAccept s) (ReplayAccepted s) (ProductMutation s) (Events s)
    (Transcript s) v (AuthBaseSet s) (ArchiveBaseDigest s) (ArchiveBaseSet s).

Definition set_AuthBaseSet (v : bool) (s : Session) : Session :=
  mkSession (State_ s) (Offered s) (Selected s) (OfferedSuites s) (SelectedSuite s)
    (RequireSuite s) (PeerAuthenticated s) (AuthI2R s) (AuthR2I s) (ArchiveAuthorized s)
    (ReceiveSequence s) (MaxAccept s) (ReplayAccepted s) (ProductMutation s) (Events s)
    (Transcript s) (AuthBaseDigest s) v (ArchiveBaseDigest s) (ArchiveBaseSet s).

Definition set_ArchiveBaseDigest (v : bytes) (s : Session) : Session :=
  mkSession (State_ s) (Offered s) (Selected s) (OfferedSuites s) (SelectedSuite s)
    (RequireSuite s) (PeerAuthenticated s) (AuthI2R s) (AuthR2I s) (ArchiveAuthorized s)
    (ReceiveSequence s) (MaxAccept s) (ReplayAccepted s) (ProductMutation s) (Events s)
    (Transcript s) (AuthBaseDigest s) (AuthBaseSet s) v (ArchiveBaseSet s).

Definition set_ArchiveBaseSet (v : bool) (s : Session) : Session :=
  mkSession (State_ s) (Offered s) (Selected s) (OfferedSuites s) (SelectedSuite s)
    (RequireSuite s) (PeerAuthenticated s) (AuthI2R s) (AuthR2I s) (ArchiveAuthorized s)
    (ReceiveSequence s) (MaxAccept s) (ReplayAccepted s) (ProductMutation s) (Events s)
    (Transcript s) (AuthBaseDigest s) (AuthBaseSet s) (ArchiveBaseDigest s) v.

Record Error := fail { Code : string }.

#[global] Instance Error_eq_dec : EqDecision Error.
Proof. solve_decision. Defined.

Definition emit (id cause : string) (sev : Z) (s : Session) : Session :=
  match Events s with
  | None => s
  | Some evs => set_Events (Some (evs ++ [mkEvent id cause sev])) s
  end.

(** [_ = s.Transcript.Append(label, data)]: a refused append leaves the
    transcript as it was. *)
Definition bind_label (label : string) (data : bytes) (s : Session) : Session :=
  match Transcript s with
  | None => s
  | Some t =>
      match Crypto.Append t label data with
      | Ok t' => set_Transcript (Some t') s
      | _ => s
      end
  end.

Definition bindVersions (label : string) (vers : list Z) (s : Session) : Session :=
  bind_label label (map byte_of vers) s.

(** [New], with the fields a caller sets before negotiating. *)
Definition New (offered : list Z) : Session :=
  mkSession StateNew offered 0 [] "" false false false false false 0 0 false false
    None None (zeros 32) false (zeros 32) false.

Definition NewWithSuites (offered : list Z) (suites : list string) : Session :=
  mkSession StateNew offered 0 suites "" true false false false false 0 0 false false
    None None (zeros 32) false (zeros 32) false.

Definition highest (cands : list Z) : Z * bool :=
  match cands with
  | [] => (0, false)
  | c :: cs => (fold_left (fun h v => if h <? v then v else h) cs c, true)
  end.

Definition candidates (offered : list Z) : list Z :=
  List.filter (fun v => bool_decide (v ∈ LocalAllowed)) offered.

Definition LocalSuites : list string := [Crypto.SuiteIDAEAD].

Definition SelectSuite (local offered : list string) : string * bool :=
  if (len local =? 0) || (len offered =? 0) then (""%string, false)
  else
    let peer := List.filter (fun s => negb (bool_decide (s = ""%string))) offered in
    match List.find (fun s => negb (bool_decide (s = ""%string)) && bool_decide (s ∈ peer)) local with
    | Some s => (s, true)
    | None => (""%string, false)
    end.

Definition freezeAuthBase (s : Session) : Session :=
  match Transcript s with
  | None => s
  | Some t => set_AuthBaseSet true (set_AuthBaseDigest (Crypto.Digest t) s)
  end.

Definition freezeArchiveBase (s : Session) : Session :=
  match Transcript s with
  | None => s
  | Some t => set_ArchiveBaseSet true (set_ArchiveBaseDigest (Crypto.Digest t) s)
  end.

(** [s.State = StateFailed; s.emit("session.failed", cause, ...)]. *)
Definition fail_with (cause : string) (s : Session) : Session :=
  emit "session.failed" cause Observability.SeverityError (set_State StateFailed s).

Definition result : Type := Session * res Error unit.

Definition Negotiate (s : Session) : result :=
  if negb (bool_decide (State_ s = StateNew)) then (s, Err (fail "state")) else
  let cands := candidates (Offered s) in
  let '(h, ok) := highest cands in
  if negb ok then (fail_with "version" s, Err (fail "version")) else
  let s := set_Selected h s in
  let s := set_State StateNegotiated s in
  let s := bind_label "negotiate" [byte_of h] s in
  let s := bindVersions "offered" (Offered s) s in
  let s := bindVersions "local_allowed" LocalAllowed s in
  if RequireSuite s || (0 <? len (OfferedSuites s)) then
    let '(suite, ok) := SelectSuite LocalSuites (OfferedSuites s) in
    if negb ok then (fail_with "suite" s, Err (fail "suite")) else
    let s := set_SelectedSuite suite s in
    let s := bind_label "suite" (sbytes suite) s in
    (freezeAuthBase s, Ok tt)
  else (freezeAuthBase s, Ok tt).

Definition ConfirmAccept (vers : Z) (suite : string) (s : Session) : result :=
  if negb (bool_decide (State_ s = StateNegotiated)) then (s, Err (fail "state")) else
  if negb (Selected s =? vers) then (fail_with "version" s, Err (fail "version")) else
  if bool_decide (suite = ""%string) then
    if negb (bool_decide (SelectedSuite s = ""%string))
    then (fail_with "suite" s, Err (fail "suite"))
    else (s, Ok tt)
  else if negb (bool_decide (SelectedSuite s = suite))
  then (fail_with "suite" s, Err (fail "suite"))
  else (s, Ok tt).

Definition downgraded (s : Session) : bool :=
  let '(h, ok) := highest (candidates (Offered s)) in
  negb ok || negb (Selected s =? h).

Definition Authenticate (s : Session) : result :=
  if negb (bool_decide (State_ s = StateNegotiated)) then (s, Err (fail "state")) else
  if downgraded s then (fail_with "downgrade" s, Err (fail "downgrade")) else
  let s := set_AuthI2R true s in
  let s := set_AuthR2I true s in
  let s := set_PeerAuthenticated true s in
  let s := set_State StatePeerAuthenticated s in
  let s := bind_label "peer_auth" [Byte.x01] s in
  (freezeArchiveBase s, Ok tt).

Definition AuthorizeArchive (s : Session) : result :=
  if negb (bool_decide (State_ s = StatePeerAuthenticated)) || negb (PeerAuthenticated s)
  then (s, Err (fail "state")) else
  let s := set_ArchiveAuthorized true s in
  let s := set_State StateArchiveAuthorized s in
  (bind_label "archive_auth" [Byte.x01] s, Ok tt).

Definition Activate (s : Session) : result :=
  if negb (bool_decide (State_ s = StateArchiveAuthorized)) then (s, Err (fail "state")) else
  if negb (PeerAuthenticated s) || negb (ArchiveAuthorized s)
  then (fail_with "auth" s, Err (fail "auth")) else
  if downgraded s then (fail_with "downgrade" s, Err (fail "downgrade")) else
  let s := set_State StateActive s in
  let s := bind_label "activate" [byte_of (Selected s)] s in
  (if negb (bool_decide (SelectedSuite s = ""%string))
   then bind_label "suite_active" (sbytes (SelectedSuite s)) s
   else s, Ok tt).

Definition accept_limit (s : Session) : Z :=
  if MaxAccept s =? 0 then DefaultMaxAccept else MaxAccept s.

Definition AcceptNext (s : Session) : result :=
  if negb (bool_decide (State_ s = StateActive)) then (s, Err (fail "state")) else
  if accept_limit s <=? ReceiveSequence s then (s, Err (fail "limit")) else
  let s := set_ReceiveSequence (u64 (ReceiveSequence s + 1)) s in
  (set_ProductMutation true s, Ok tt).

Definition RejectReplay (s : Session) : result :=
  if negb (bool_decide (State_ s = StateActive)) then (s, Err (fail "state")) else
  let s := set_ReplayAccepted false s in
  let s := set_State StateFailed s in
  (emit "session.failed" "replay" Observability.SeverityCritical s, Ok tt).

Definition Close (s : Session) : result :=
  if negb (bool_decide (State_ s = StateActive)) then (s, Err (fail "state")) else
  (emit "session.closed" "close" Observability.SeverityInfo (set_State StateClosed s), Ok tt).

Definition Invariants (s : Session) : res Error unit :=
  if bool_decide (State_ s = StateActive) &&
     (negb (PeerAuthenticated s) || negb (ArchiveAuthorized s)) then Err (fail "inv")
  else if bool_decide (State_ s = StateActive) && downgraded s then Err (fail "inv")
  else if ReplayAccepted s then Err (fail "inv")
  else if ProductMutation s && negb (PeerAuthenticated s && ArchiveAuthorized s)
  then Err (fail "inv")
  else if (bool_decide (State_ s = StatePeerAuthenticated) || PeerAuthenticated s) &&
          negb (AuthI2R s && AuthR2I s) then Err (fail "inv")
  else Ok tt.

(** ** Proof-based authentication (peerauth.go, archiveauth.go) *)

(** An error of the crypto helpers is passed on. *)
Definition from_crypto (e : Crypto.Error) : Error := fail (Crypto.Code e).

Definition MakeAuthProof (authKey sessionID : bytes) (direction : string) (s : Session)
    : res Error bytes :=
  if negb (bool_decide (State_ s = StateNegotiated)) then Err (fail "state")
  else if negb (AuthBaseSet s) then Err (fail "transcript")
  else if downgraded s then Err (fail "downgrade")
  else map_err from_crypto (Crypto.PeerAuthProof authKey (AuthBaseDigest s) sessionID direction).

(** The part of [AuthenticateProof] after the duplicate checks. *)
Definition accept_proof (authKey sessionID : bytes) (direction : string) (proof : bytes)
    (s : Session) : result :=
  if negb (is_ok (Crypto.VerifyPeerAuthProof authKey (AuthBaseDigest s) sessionID direction proof))
  then (fail_with "auth" s, Err (fail "auth")) else
  let tag := Crypto.HMACSHA256 authKey (str "proof-tag:" ++ proof) in
  let s := bind_label "peer_auth" tag s in
  let s := bind_label "peer_auth_dir" (sbytes direction) s in
  let s := if bool_decide (direction = "i2r"%string) then set_AuthI2R true s
           else set_AuthR2I true s in
  if AuthI2R s && AuthR2I s then
    let s := set_PeerAuthenticated true s in
    let s := set_State StatePeerAuthenticated s in
    (freezeArchiveBase s, Ok tt)
  else (s, Ok tt).

Definition AuthenticateProof (authKey sessionID : bytes) (direction : string) (proof : bytes)
    (s : Session) : result :=
  if negb (bool_decide (State_ s = StateNegotiated)) then (s, Err (fail "state")) else
  if negb (AuthBaseSet s) then (s, Err (fail "transcript")) else
  if downgraded s then (fail_with "downgrade" s, Err (fail "downgrade")) else
  if bool_decide (direction = "i2r"%string) then
    if AuthI2R s then (fail_with "auth" s, Err (fail "auth"))
    else accept_proof authKey sessionID direction proof s
  else if bool_decide (direction = "r2i"%string) then
    if AuthR2I s then (fail_with "auth" s, Err (fail "auth"))
    else accept_proof authKey sessionID direction proof s
  else (s, Err (fail "direction")).

Definition MakeArchiveProof (authKey sessionID : bytes) (s : Session) : res Error bytes :=
  if negb (bool_decide (State_ s = StatePeerAuthenticated)) || negb (PeerAuthenticated s)
  then Err (fail "state")
  else if negb (ArchiveBaseSet s) then Err (fail "transcript")
  else map_err from_crypto (Crypto.ArchiveAuthProof authKey (ArchiveBaseDigest s) sessionID).

Definition AuthorizeArchiveProof (authKey sessionID proof : bytes) (s : Session) : result :=
  if negb (bool_decide (State_ s = StatePeerAuthenticated)) || negb (PeerAuthenticated s)
  then (s, Err (fail "state")) else
  if negb (ArchiveBaseSet s) then (s, Err (fail "transcript")) else
  if negb (is_ok (Crypto.VerifyArchiveAuthProof authKey (ArchiveBaseDigest s) sessionID proof))
  then (fail_with "archive" s, Err (fail "archive")) else
  let tag := Crypto.HMACSHA256 authKey (str "archive-tag:" ++ proof) in
  let s := bind_label "archive_auth" tag s in
  let s := set_ArchiveAuthorized true s in
  (set_State StateArchiveAuthorized s, Ok tt).

(** ** Calls *)

Inductive op :=
| OpNegotiate
| OpConfirmAccept (vers : Z) (suite : string)
| OpAuthenticate
| OpAuthenticateProof (authKey sessionID : bytes) (direction : string) (proof : bytes)
| OpAuthorizeArchive
| OpAuthorizeArchiveProof (authKey sessionID proof : bytes)
| OpActivate
| OpAcceptNext
| OpRejectReplay
| OpClose.

Definition exec (o : op) (s : Session) : result :=
  match o with
  | OpNegotiate => Negotiate s
  | OpConfirmAccept v su => ConfirmAccept v su s
  | OpAuthenticate => Authenticate s
  | OpAuthenticateProof k sid d p => AuthenticateProof k sid d p s
  | OpAuthorizeArchive => AuthorizeArchive s
  | OpAuthorizeArchiveProof k sid p => AuthorizeArchiveProof k sid p s
  | OpActivate => Activate s
  | OpAcceptNext => AcceptNext s
  | OpRejectReplay => RejectReplay s
  | OpClose => Close s
  end.

(** A session after a sequence of calls, whatever they returned. *)
Definition run (ops : list op) (s : Session) : Session :=
  fold_left (fun s o => (exec o s).1) ops s.

(** ** The abstract machine: formal/session/Session.tla *)

Module Spec.

Record spec_state := mk {
  state : Session.State;
  offered : list Z;
  selected : Z;
  peerAuthenticated : bool;
  archiveAuthorized : bool;
  receiveSequence : Z;
  replayAccepted : bool;
  productMutation : bool;
  authI2R : bool;
  authR2I : bool }.

Definition Highest (S : list Z) (h : Z) : Prop := h ∈ S /\ forall w, w ∈ S -> w <= h.

Definition Init (s : spec_state) : Prop :=
  state s = StateNew /\ selected s = 0 /\ peerAuthenticated s = false /\
  archiveAuthorized s = false /\ receiveSequence s = 0 /\ replayAccepted s = false /\
  productMutation s = false /\ authI2R s = false /\ authR2I s = false.

(** [Next], with the bound on accepted messages as a parameter, and [Abort],
    the fail-closed transition of a handshake whose check failed. *)
Inductive Next (limit : Z) : spec_state -> spec_state -> Prop :=
| Negotiate o h sel pa aa rs ra pm i r :
    Highest (candidates o) h ->
    Next limit (mk StateNew o sel pa aa rs ra pm i r)
               (mk StateNegotiated o h pa aa rs ra pm i r)
| NoCommonVersion o sel pa aa rs ra pm i r :
    candidates o = [] ->
    Next limit (mk StateNew o sel pa aa rs ra pm i r)
               (mk StateFailed o sel pa aa rs ra pm i r)
| AuthenticateI2R o sel pa aa rs ra pm r :
    Highest (candidates o) sel ->
    Next limit (mk StateNegotiated o sel pa aa rs ra pm false r)
               (mk (if r then StatePeerAuthenticated else StateNegotiated) o sel
                   (if r then true else pa) aa rs ra pm true r)
| AuthenticateR2I o sel pa aa rs ra pm i :
    Highest (candidates o) sel ->
    Next limit (mk StateNegotiated o sel pa aa rs ra pm i false)
               (mk (if i then StatePeerAuthenticated else StateNegotiated) o sel
                   (if i then true else pa) aa rs ra pm i true)
| AuthorizeArchive o sel aa rs ra pm i r :
    Next limit (mk StatePeerAuthenticated o sel true aa rs ra pm i r)
               (mk StateArchiveAuthorized o sel true true rs ra pm i r)
| Activate o sel rs ra pm i r :
    Highest (candidates o) sel ->
    Next limit (mk StateArchiveAuthorized o sel true true rs ra pm i r)
               (mk StateActive o sel true true rs ra pm i r)
| AcceptNext o sel pa aa rs ra pm i r :
    rs < limit ->
    Next limit (mk StateActive o sel pa aa rs ra pm i r)
               (mk StateActive o sel pa aa (rs + 1) ra true i r)
| RejectReplay o sel pa aa rs ra pm i r :
    Next limit (mk StateActive o sel pa aa rs ra pm i r)
               (mk StateFailed o sel pa aa rs false pm i r)
| Close o sel pa aa rs ra pm i r :
    Next limit (mk StateActive o sel pa aa rs ra pm i r)
               (mk StateClosed o sel pa aa rs ra pm i r)
| Abort st o sel pa aa rs ra pm i r :
    st ∈ [StateNegotiated; StatePeerAuthenticated; StateArchiveAuthorized] ->
    Next limit (mk st o sel pa aa rs ra pm i r)
               (mk StateFailed o sel pa aa rs ra pm i r).

(** How far the handshake of a state that has not failed got. *)
Definition negotiated (st : Session.State) : bool :=
  match st with StateNew | StateFailed => false | _ => true end.
Definition peer_done (st : Session.State) : bool :=
  match st with StateNew | StateFailed | StateNegotiated => false | _ => true end.
Definition archive_done (st : Session.State) : bool :=
  match st with StateArchiveAuthorized | StateActive | StateClosed => true | _ => false end.

(** The safety invariants of the module, with what makes them inductive. *)
Definition Safe (limit : Z) (s : spec_state) : Prop :=
  (peerAuthenticated s = true -> authI2R s = true /\ authR2I s = true) /\
  (peer_done (state s) = true -> peerAuthenticated s = true) /\
  (archive_done (state s) = true -> archiveAuthorized s = true) /\
  (archiveAuthorized s = true -> peerAuthenticated s = true) /\
  (productMutation s = true -> archiveAuthorized s = true) /\
  replayAccepted s = false /\
  (negotiated (state s) = true -> Highest (candidates (offered s)) (selected s)) /\
  0 <= receiveSequence s <= limit /\
  (state s = StateNew -> authI2R s = false /\ authR2I s = false) /\
  (state s = StateNegotiated -> authI2R s && authR2I s = false) /\
  (archiveAuthorized s = true -> archive_done (state s) = true \/ state s = StateFailed).

Lemma Init_Safe limit s : 0 <= limit -> Init s -> Safe limit s.
Proof.
  intros Hl (E1 & E2 & E3 & E4 & E5 & E6 & E7 & E8 & E9). unfold Safe.
  rewrite E1, E3, E4, E5, E6, E7, E8, E9. cbn. split_and!; (done || lia).
Qed.

Lemma Next_Safe limit s s' : Next limit s s' -> Safe limit s -> Safe limit s'.
Proof.
  intros Hn (H1 & H2 & H3 & H4 & H5 & H6 & H7 & H8 & H9 & H10 & H11). unfold Safe.
  destruct Hn; repeat match goal with b : bool |- _ => destruct b end; cbn in *;
    split_and!; try done; try lia; try tauto; naive_solver.
Qed.

End Spec.

(** ** Refinement *)

(** The variables of the specification, read off a session. *)
Definition abs (s : Session) : Spec.spec_state :=
  Spec.mk (State_ s) (Offered s) (Selected s) (PeerAuthenticated s) (ArchiveAuthorized s)
    (ReceiveSequence s) (ReplayAccepted s) (ProductMutation s) (AuthI2R s) (AuthR2I s).

(** Events and transcripts are not variables of the specification, and none of
    the bookkeeping changes the message limit. *)
Lemma abs_emit id c v s : abs (emit id c v s) = abs s /\ MaxAccept (emit id c v s) = MaxAccept s.
Proof. unfold emit. by destruct (Events s). Qed.

Lemma abs_bind l d s :
  abs (bind_label l d s) = abs s /\ MaxAccept (bind_label l d s) = MaxAccept s.
Proof. unfold bind_label. destruct (Transcript s); [|done]. by case_match. Qed.

Lemma abs_freezeAuth s :
  abs (freezeAuthBase s) = abs s /\ MaxAccept (freezeAuthBase s) = MaxAccept s.
Proof. unfold freezeAuthBase. by destruct (Transcript s). Qed.

Lemma abs_freezeArchive s :
  abs (freezeArchiveBase s) = abs s /\ MaxAccept (freezeArchiveBase s) = MaxAccept s.
Proof. unfold freezeArchiveBase. by destruct (Transcript s). Qed.

Lemma highest_spec l :
  match highest l with
  | (h, true) => Spec.Highest l h
  | (_, false) => l = []
  end.
Proof.
  destruct l as [|c cs]; [done|]. cbn [highest]. revert c.
  induction cs as [|v cs IH]; intros c; cbn [fold_left].
  { split; [set_solver|]. intros w Hw. assert (w = c) by set_solver. lia. }
  specialize (IH (if c <? v then v else c)). destruct IH as [Hin Hmax].
  destruct (c <? v) eqn:E; reflect_bools; (split; [set_solver|]); intros w Hw.
  - apply elem_of_cons in Hw as [->|Hw]; [|by apply Hmax].
    specialize (Hmax v ltac:(set_solver)). lia.
  - apply elem_of_cons in Hw as [->|Hw]; [apply Hmax; set_solver|].
    apply elem_of_cons in Hw as [->|Hw]; [|apply Hmax; set_solver].
    specialize (Hmax c ltac:(set_solver)). lia.
Qed.

Lemma downgraded_spec s :
  downgraded s = false -> Spec.Highest (candidates (Offered s)) (Selected s).
Proof.
  unfold downgraded. pose proof (highest_spec (candidates (Offered s))) as H.
  destruct (highest (candidates (Offered s))) as [h []]; cbn [negb orb]; [|done].
  intros E. reflect_bools. by rewrite E.
Qed.

Lemma downgraded_Highest s :
  Spec.Highest (candidates (Offered s)) (Selected s) -> downgraded s = false.
Proof.
  intros [Hin Hmax]. unfold downgraded. pose proof (highest_spec (candidates (Offered s))) as H.
  destruct (highest (candidates (Offered s))) as [h []]; cbn [negb orb].
  - destruct H as [Hin' Hmax']. specialize (Hmax' _ Hin). specialize (Hmax _ Hin').
    rewrite (proj2 (Z.eqb_eq _ _)) by lia. done.
  - rewrite H in Hin. by apply not_elem_of_nil in Hin.
Qed.

(** What one call may do. *)
Definition simulates (s s' : Session) : Prop :=
  rtc (Spec.Next (accept_limit s)) (abs s) (abs s') /\ MaxAccept s' = MaxAccept s.

Lemma simulates_refl s : simulates s s.
Proof. by split. Qed.

Lemma fail_with_simulates c s :
  State_ s ∈ [StateNegotiated; StatePeerAuthenticated; StateArchiveAuthorized] ->
  simulates s (fail_with c s).
Proof.
  intros Hs. unfold simulates, fail_with. rewrite !(proj1 (abs_emit _ _ _ _)), !(proj2 (abs_emit _ _ _ _)).
  split; [|done]. apply rtc_once. by apply Spec.Abort.
Qed.

Lemma simulates_trans s1 s2 s3 : simulates s1 s2 -> simulates s2 s3 -> simulates s1 s3.
Proof.
  intros [H1 E1] [H2 E2]. split; [|congruence].
  assert (accept_limit s2 = accept_limit s1) as El by (unfold accept_limit; by rewrite E1).
  rewrite El in H2. by etransitivity.
Qed.

(** Bookkeeping after a step. *)
Ltac bookkeeping :=
  repeat first
    [ rewrite (proj1 (abs_emit _ _ _ _)) | rewrite (proj2 (abs_emit _ _ _ _))
    | rewrite (proj1 (abs_bind _ _ _)) | rewrite (proj2 (abs_bind _ _ _))
    | rewrite (proj1 (abs_freezeAuth _)) | rewrite (proj2 (abs_freezeAuth _))
    | rewrite (proj1 (abs_freezeArchive _)) | rewrite (proj2 (abs_freezeArchive _)) ].

Lemma abs_eta s :
  abs s = Spec.mk (State_ s) (Offered s) (Selected s) (PeerAuthenticated s) (ArchiveAuthorized s)
    (ReceiveSequence s) (ReplayAccepted s) (ProductMutation s) (AuthI2R s) (AuthR2I s).
Proof. done. Qed.

Lemma Negotiate_simulates s : simulates s (Negotiate s).1.
Proof.
  unfold Negotiate. case_bool_decide as Hst; cbn [negb]; [|apply simulates_refl].
  pose proof (highest_spec (candidates (Offered s))) as Hh.
  destruct (highest (candidates (Offered s))) as [h []]; cbn [negb fst].
  2:{ unfold simulates, fail_with. bookkeeping. split; [|done].
      apply rtc_once. rewrite abs_eta, Hst. by apply Spec.NoCommonVersion. }
  assert (Hn : simulates s (set_State StateNegotiated (set_Selected h s))).
  { split; [|done]. apply rtc_once. rewrite abs_eta, Hst. by apply Spec.Negotiate. }
  set (s1 := set_State _ _) in *.
  set (s2 := bindVersions "local_allowed" _ _).
  assert (H2 : simulates s s2).
  { eapply simulates_trans; [exact Hn|]. unfold simulates, s2, bindVersions. by bookkeeping. }
  assert (Hs2 : State_ s2 = StateNegotiated).
  { change (Spec.state (abs s2) = StateNegotiated). unfold s2, bindVersions. by bookkeeping. }
  clearbody s2. destruct (RequireSuite s2 || _).
  - destruct (SelectSuite LocalSuites (OfferedSuites s2)) as [suite []]; cbn [negb fst].
    + eapply simulates_trans; [exact H2|]. unfold simulates. by bookkeeping.
    + eapply simulates_trans; [exact H2|]. apply fail_with_simulates. rewrite Hs2. set_solver.
  - eapply simulates_trans; [exact H2|]. unfold simulates. cbn [fst]. by bookkeeping.
Qed.

Lemma ConfirmAccept_simulates v su s : simulates s (ConfirmAccept v su s).1.
Proof.
  unfold ConfirmAccept. case_bool_decide as Hst; cbn [negb]; [|apply simulates_refl].
  assert (forall c, simulates s (fail_with c s)) by (intros; apply fail_with_simulates; set_solver).
  repeat case_match; cbn [fst]; auto using simulates_refl.
Qed.

Lemma Authenticate_simulates s :
  (State_ s = StateNegotiated -> AuthI2R s && AuthR2I s = false) ->
  simulates s (Authenticate s).1.
Proof.
  intros Hauth. unfold Authenticate. case_bool_decide as Hst; cbn [negb]; [|apply simulates_refl].
  destruct (downgraded s) eqn:Hd; [apply fail_with_simulates; set_solver|].
  apply downgraded_spec in Hd. specialize (Hauth Hst).
  unfold simulates. cbn [fst]. bookkeeping. split; [|done]. rewrite (abs_eta s), Hst.
  destruct (AuthI2R s) eqn:Hi, (AuthR2I s) eqn:Hr; try done.
  - apply rtc_once. by apply Spec.AuthenticateR2I.
  - apply rtc_once. by apply Spec.AuthenticateI2R.
  - eapply rtc_l; [by apply Spec.AuthenticateI2R|]. apply rtc_once. by apply Spec.AuthenticateR2I.
Qed.

Lemma accept_proof_simulates k sid d p s :
  State_ s = StateNegotiated -> downgraded s = false ->
  (if bool_decide (d = "i2r"%string) then AuthI2R s else AuthR2I s) = false ->
  simulates s (accept_proof k sid d p s).1.
Proof.
  intros Hst Hd Hdir. apply downgraded_spec in Hd. unfold accept_proof.
  destruct (negb _); [apply fail_with_simulates; set_solver|].
  set (s1 := bind_label "peer_auth_dir" _ _).
  assert (H1 : abs s1 = abs s /\ MaxAccept s1 = MaxAccept s) by (unfold s1; by bookkeeping).
  clearbody s1. destruct H1 as [Ha Hm].
  pose proof Ha as Ha'. rewrite !abs_eta in Ha'. injection Ha' as E1 E2 E3 E4 E5 E6 E7 E8 E9 E10.
  destruct (bool_decide (d = _)) eqn:Ed; cbn [AuthI2R AuthR2I set_AuthI2R set_AuthR2I andb].
  - destruct (AuthR2I s1) eqn:Er; cbn [fst]; unfold simulates; bookkeeping; (split; [|done]);
      apply rtc_once; rewrite !abs_eta; cbn; rewrite ?E1, ?E2, ?E3, ?E4, ?E5, ?E6, ?E7, ?E8, ?Er, ?Hst, ?Hdir;
      rewrite <- ?E10; rewrite ?Er.
    + by apply Spec.AuthenticateI2R.
    + by apply Spec.AuthenticateI2R.
  - destruct (AuthI2R s1) eqn:Er; cbn [fst andb]; unfold simulates; bookkeeping; (split; [|done]);
      apply rtc_once; rewrite !abs_eta; cbn; rewrite ?E1, ?E2, ?E3, ?E4, ?E5, ?E6, ?E7, ?E8, ?Er, ?Hst, ?Hdir;
      rewrite <- ?E9; rewrite ?Er.
    + by apply Spec.AuthenticateR2I.
    + by apply Spec.AuthenticateR2I.
Qed.

Lemma AuthenticateProof_simulates k sid d p s : simulates s (AuthenticateProof k sid d p s).1.
Proof.
  unfold AuthenticateProof. case_bool_decide as Hst; cbn [negb]; [|apply simulates_refl].
  destruct (AuthBaseSet s); cbn [negb]; [|apply simulates_refl].
  assert (Hf : forall c, simulates s (fail_with c s)) by (intros; apply fail_with_simulates; set_solver).
  destruct (downgraded s) eqn:Hd; [apply Hf|].
  case_bool_decide as H1.
  - destruct (AuthI2R s) eqn:Ei; [apply Hf|]. apply accept_proof_simulates; [done..|].
    by rewrite bool_decide_true.
  - case_bool_decide as H2; [|apply simulates_refl].
    destruct (AuthR2I s) eqn:Er; [apply Hf|]. apply accept_proof_simulates; [done..|].
    by rewrite bool_decide_false.
Qed.

Lemma AuthorizeArchive_simulates s : simulates s (AuthorizeArchive s).1.
Proof.
  unfold AuthorizeArchive. case_bool_decide as Hst; cbn [negb orb]; [|apply simulates_refl].
  destruct (PeerAuthenticated s) eqn:Hp; cbn [negb fst]; [|apply simulates_refl].
  unfold simulates. bookkeeping. split; [|done]. apply rtc_once.
  rewrite !abs_eta. cbn. rewrite Hst, Hp. apply Spec.AuthorizeArchive.
Qed.

Lemma AuthorizeArchiveProof_simulates k sid p s :
  simulates s (AuthorizeArchiveProof k sid p s).1.
Proof.
  unfold AuthorizeArchiveProof. case_bool_decide as Hst; cbn [negb orb]; [|apply simulates_refl].
  destruct (PeerAuthenticated s) eqn:Hp; cbn [negb]; [|apply simulates_refl].
  destruct (ArchiveBaseSet s); cbn [negb]; [|apply simulates_refl].
  destruct (negb _); [apply fail_with_simulates; set_solver|]. cbn [fst].
  set (s1 := bind_label "archive_auth" _ _).
  assert (H1 : abs s1 = abs s /\ MaxAccept s1 = MaxAccept s) by (unfold s1; by bookkeeping).
  clearbody s1. destruct H1 as [Ha Hm]. split; [|done]. apply rtc_once.
  rewrite !abs_eta in Ha. injection Ha as E1 E2 E3 E4 E5 E6 E7 E8 E9 E10.
  rewrite !abs_eta. cbn. rewrite Hst, E2, E3, E4, E6, E7, E8, E9, E10, Hp.
  apply Spec.AuthorizeArchive.
Qed.

Lemma Activate_simulates s : simulates s (Activate s).1.
Proof.
  unfold Activate. case_bool_decide as Hst; cbn [negb]; [|apply simulates_refl].
  assert (Hf : forall c, simulates s (fail_with c s)) by (intros; apply fail_with_simulates; set_solver).
  destruct (PeerAuthenticated s) eqn:Hp; cbn [negb orb]; [|apply Hf].
  destruct (ArchiveAuthorized s) eqn:Ha; cbn [negb]; [|apply Hf].
  destruct (downgraded s) eqn:Hd; [apply Hf|]. apply downgraded_spec in Hd.
  assert (Hn : simulates s (set_State StateActive s)).
  { split; [|done]. apply rtc_once. rewrite !abs_eta. cbn. rewrite Hst, Hp, Ha. by apply Spec.Activate. }
  eapply simulates_trans; [exact Hn|]. cbn [fst]. unfold simulates.
  case_bool_decide; cbn [negb]; by bookkeeping.
Qed.

Lemma AcceptNext_simulates s :
  is_u64 (MaxAccept s) -> 0 <= ReceiveSequence s -> simulates s (AcceptNext s).1.
Proof.
  intros Hm Hr. unfold AcceptNext. case_bool_decide as Hst; cbn [negb]; [|apply simulates_refl].
  destruct (accept_limit s <=? ReceiveSequence s) eqn:E; [apply simulates_refl|]. reflect_bools.
  cbn [fst]. split; [|done]. apply rtc_once. rewrite !abs_eta. cbn.
  assert (accept_limit s < 18446744073709551616).
  { unfold accept_limit, DefaultMaxAccept, is_u64 in *. case_if; [done|lia]. }
  rewrite Hst, u64_small by (unfold is_u64; lia). by apply Spec.AcceptNext.
Qed.

Lemma RejectReplay_simulates s : simulates s (RejectReplay s).1.
Proof.
  unfold RejectReplay. case_bool_decide as Hst; cbn [negb fst]; [|apply simulates_refl].
  unfold simulates. bookkeeping. split; [|done]. apply rtc_once. rewrite !abs_eta. cbn.
  rewrite Hst. apply Spec.RejectReplay.
Qed.

Lemma Close_simulates s : simulates s (Close s).1.
Proof.
  unfold Close. case_bool_decide as Hst; cbn [negb fst]; [|apply simulates_refl].
  unfold simulates. bookkeeping. split; [|done]. apply rtc_once. rewrite !abs_eta. cbn.
  rewrite Hst. apply Spec.Close.
Qed.

#[local] Hint Resolve Negotiate_simulates ConfirmAccept_simulates AuthenticateProof_simulates
  AuthorizeArchive_simulates AuthorizeArchiveProof_simulates Activate_simulates
  RejectReplay_simulates Close_simulates : core.

(** A session as its constructors make it, with the fields a caller may set. *)
Definition initial (s : Session) : Prop := Spec.Init (abs s) /\ is_u64 (MaxAccept s).

(** The invariant of every reachable session. *)
Definition ok (s : Session) : Prop := Spec.Safe (accept_limit s) (abs s) /\ is_u64 (MaxAccept s).

Lemma accept_limit_pos s : is_u64 (MaxAccept s) -> 0 <= accept_limit s.
Proof. unfold accept_limit, is_u64. intros. case_if; [done|lia]. Qed.

Lemma initial_ok s : initial s -> ok s.
Proof.
  intros [Hi Hm]. split; [|done]. apply Spec.Init_Safe; [|done]. by apply accept_limit_pos.
Qed.

Lemma exec_simulates o s : ok s -> simulates s (exec o s).1.
Proof.
  intros [Hs Hm]. destruct o; cbn [exec]; auto.
  - apply Authenticate_simulates. apply Hs.
  - apply AcceptNext_simulates; [done|]. apply Hs.
Qed.

Lemma simulates_ok s s' : ok s -> simulates s s' -> ok s'.
Proof.
  intros [Hs Hm] [Hr E].
  assert (accept_limit s' = accept_limit s) as El by (unfold accept_limit; by rewrite E).
  split; [|by rewrite E]. rewrite El. clear E El Hm.
  induction Hr as [|x y z Hn _ IH]; [done|]. apply IH. by eapply Spec.Next_Safe.
Qed.

Lemma exec_ok o s : ok s -> ok (exec o s).1.
Proof. intros Hs. eapply simulates_ok; [done|]. by apply exec_simulates. Qed.

Lemma run_ok ops s : ok s -> ok (run ops s).
Proof. revert s. induction ops as [|o ops IH]; intros s Hs; [done|]. apply IH. by apply exec_ok. Qed.

Lemma ok_Invariants s : ok s -> Invariants s = Ok tt.
Proof.
  intros [(H1 & H2 & H3 & H4 & H5 & H6 & H7 & H8 & H9 & H10 & _) _]. cbn in *.
  unfold Invariants. rewrite H6.
  case_bool_decide as Hst; cbn [andb].
  - rewrite Hst in *. rewrite H2, H3 by done. cbn [negb orb andb].
    rewrite downgraded_Highest by (by apply H7). destruct (H1 (H2 eq_refl)) as [-> ->].
    rewrite andb_false_r. by case_bool_decide.
  - assert (ProductMutation s && negb (PeerAuthenticated s && ArchiveAuthorized s) = false) as ->.
    { destruct (ProductMutation s) eqn:E; [|done]. cbn. rewrite (H4 (H5 eq_refl)), (H5 eq_refl). done. }
    destruct (PeerAuthenticated s) eqn:Ep.
    + destruct (H1 eq_refl) as [-> ->]. by rewrite andb_false_r.
    + case_bool_decide as Hs2; [|done]. rewrite Hs2 in H2. by specialize (H2 eq_refl).
Qed.

(** C9. The session code refines the session specification: every call, in
    every reachable state and whatever its arguments, takes the session through
    a (possibly empty) sequence of steps of Session.tla, extended only with
    the transition to FAILED when a check fails. *)
Theorem exec_refines_spec ops s o :
  initial s ->
  rtc (Spec.Next (accept_limit s)) (abs (run ops s)) (abs (exec o (run ops s)).1).
Proof.
  intros Hi. assert (Hok : ok (run ops s)) by (by apply run_ok, initial_ok).
  assert (Hl : accept_limit (run ops s) = accept_limit s).
  { clear Hok. pose proof (initial_ok s Hi) as Hok. clear Hi. revert s Hok.
    induction ops as [|o' ops IH]; intros s Hok; [done|]. cbn [run fold_left].
    fold (run ops (exec o' s).1). rewrite IH by (by apply exec_ok).
    destruct (exec_simulates o' s Hok) as [_ E]. unfold accept_limit. by rewrite E. }
  rewrite <- Hl. by apply exec_simulates.
Qed.

(** The safety checks of the session hold in every reachable state: no
    sequence of calls, in any order, with any arguments and any failures in
    between, makes [Invariants] fail.  An active session is mutually
    authenticated, archive-authorized and not downgraded; a mutated product
    was authorized; a replay is never accepted. *)
Lemma reachable_Invariants ops s : initial s -> Invariants (run ops s) = Ok tt.
Proof. intros Hi. by apply ok_Invariants, run_ok, initial_ok. Qed.

(** ** Authority comes from verified proofs *)

(** Calls other than the two that record authority without a proof. *)
Definition proof_mode (o : op) : Prop :=
  match o with OpAuthenticate | OpAuthorizeArchive => False | _ => True end.

(** One of the calls [h] presented a peer proof for [dir] that verifies against
    the digest [s] froze. *)
Definition peer_proved (h : list op) (dir : string) (s : Session) : Prop :=
  exists k sid p, OpAuthenticateProof k sid dir p ∈ h /\
    Crypto.PeerAuthProof k (AuthBaseDigest s) sid dir = Ok p.

Definition archive_proved (h : list op) (s : Session) : Prop :=
  exists k sid p, OpAuthorizeArchiveProof k sid p ∈ h /\
    Crypto.ArchiveAuthProof k (ArchiveBaseDigest s) sid = Ok p.

Definition proved (h : list op) (s : Session) : Prop :=
  (AuthI2R s = true -> peer_proved h "i2r" s) /\
  (AuthR2I s = true -> peer_proved h "r2i" s) /\
  (ArchiveAuthorized s = true -> archive_proved h s).

(** The fields [proved] looks at. *)
Definition view (s : Session) : bool * bool * bool * bytes * bytes :=
  (AuthI2R s, AuthR2I s, ArchiveAuthorized s, AuthBaseDigest s, ArchiveBaseDigest s).

Lemma view_emit id c v s : view (emit id c v s) = view s.
Proof. unfold emit. by destruct (Events s). Qed.

Lemma view_bind l d s : view (bind_label l d s) = view s.
Proof. unfold bind_label. destruct (Transcript s); [|done]. by case_match. Qed.

Lemma view_fail c s : view (fail_with c s) = view s.
Proof. unfold fail_with. by rewrite view_emit. Qed.

Lemma proved_view h s s' : view s' = view s -> proved h s -> proved h s'.
Proof.
  unfold view, proved, peer_proved, archive_proved. intros [= -> -> -> -> ->]. done.
Qed.

Lemma proved_more h o s : proved h s -> proved (h ++ [o]) s.
Proof.
  unfold proved, peer_proved, archive_proved. intros (H1 & H2 & H3).
  split_and!; intros Hx; [apply H1 in Hx|apply H2 in Hx|apply H3 in Hx];
    destruct Hx as (k & sid & p & Hin & Hp); exists k, sid, p; (split; [|done]);
    apply elem_of_app; by left.
Qed.

Lemma proved_same h o s s' : view s' = view s -> proved h s -> proved (h ++ [o]) s'.
Proof. intros E H. by apply proved_more, (proved_view h s). Qed.

Lemma Negotiate_proved h o s : ok s -> proved h s -> proved (h ++ [o]) (Negotiate s).1.
Proof.
  intros [(_ & _ & _ & _ & _ & _ & _ & _ & H9 & _ & H11) _] Hp. cbn in H9, H11. unfold Negotiate.
  case_bool_decide as Hst; cbn [negb fst]; [|by apply proved_more].
  destruct (H9 Hst) as [Hi Hr]. clear H9.
  assert (Ha : ArchiveAuthorized s = false).
  { destruct (ArchiveAuthorized s); [|done]. rewrite Hst in H11. by destruct (H11 eq_refl). }
  assert (Hnone : forall s', (AuthI2R s', AuthR2I s', ArchiveAuthorized s') = (false, false, false) ->
    proved (h ++ [o]) s').
  { intros s' [= E1 E2 E3]. unfold proved. rewrite E1, E2, E3. done. }
  destruct (highest _) as [x []]; cbn [negb fst].
  2:{ apply (proved_same h o s); [by rewrite view_fail|done]. }
  set (s2 := bindVersions "local_allowed" _ _).
  assert (H2 : view s2 = view s) by (unfold s2, bindVersions; by rewrite !view_bind).
  clearbody s2. unfold view in H2. injection H2 as E1 E2 E3 E4 E5.
  assert (Hfr : forall s', (AuthI2R (freezeAuthBase s'), AuthR2I (freezeAuthBase s'),
    ArchiveAuthorized (freezeAuthBase s')) = (AuthI2R s', AuthR2I s', ArchiveAuthorized s'))
    by (intros s'; unfold freezeAuthBase; by destruct (Transcript s')).
  assert (Hb : forall l d s', (AuthI2R (bind_label l d s'), AuthR2I (bind_label l d s'),
    ArchiveAuthorized (bind_label l d s')) = (AuthI2R s', AuthR2I s', ArchiveAuthorized s')).
  { intros l d s'. pose proof (view_bind l d s') as Hv. unfold view in Hv. congruence. }
  destruct (RequireSuite s2 || _); [destruct (SelectSuite _ _) as [su []]|]; cbn [negb fst]; apply Hnone.
  - rewrite Hfr, Hb. cbn. congruence.
  - pose proof (view_fail "suite" s2) as Hv. unfold view in Hv. congruence.
  - rewrite Hfr. congruence.
Qed.

Lemma freezeArchive_proved h s :
  ArchiveAuthorized s = false -> proved h s -> proved h (freezeArchiveBase s).
Proof.
  unfold freezeArchiveBase. intros Ha Hp. destruct (Transcript s); [|done].
  destruct Hp as (H1 & H2 & _). split; [done|]. split; [done|]. cbn. by rewrite Ha.
Qed.

Lemma AuthenticateProof_proved h k sid d p s :
  ok s -> proved h s ->
  proved (h ++ [OpAuthenticateProof k sid d p]) (AuthenticateProof k sid d p s).1.
Proof.
  intros [(_ & _ & _ & _ & _ & _ & _ & _ & _ & _ & H11) _] Hp. cbn in H11.
  set (o := OpAuthenticateProof k sid d p). unfold AuthenticateProof.
  assert (Hf : forall c, proved (h ++ [o]) (fail_with c s)).
  { intros c. apply (proved_same h o s); [by rewrite view_fail|done]. }
  case_bool_decide as Hst; cbn [negb fst]; [|by apply proved_more].
  destruct (AuthBaseSet s); cbn [negb fst]; [|by apply proved_more].
  assert (Ha : ArchiveAuthorized s = false).
  { destruct (ArchiveAuthorized s); [|done]. rewrite Hst in H11. by destruct (H11 eq_refl). }
  destruct (downgraded s); [apply Hf|].
  assert (Hacc : d = "i2r"%string \/ d = "r2i"%string ->
    proved (h ++ [o]) (accept_proof k sid d p s).1).
  { intros Hdir. unfold accept_proof.
    destruct (Crypto.VerifyPeerAuthProof k (AuthBaseDigest s) sid d p) as [[]| |] eqn:Ev;
      cbn [is_ok negb fst]; [|apply Hf..].
    apply Crypto.VerifyPeerAuthProof_ok in Ev.
    set (s1 := bind_label "peer_auth_dir" _ _).
    assert (H1 : view s1 = view s) by (unfold s1; by rewrite !view_bind).
    clearbody s1. assert (Hp1 : proved (h ++ [o]) s1) by (by apply (proved_same h o s)).
    assert (Hnew : peer_proved (h ++ [o]) d s1).
    { exists k, sid, p. split; [apply elem_of_app; right; set_solver|].
      unfold view in H1. by injection H1 as _ _ _ -> _. }
    assert (Ha1 : ArchiveAuthorized s1 = false) by (unfold view in H1; congruence).
    assert (Hset : proved (h ++ [o]) (if bool_decide (d = "i2r"%string) then set_AuthI2R true s1
                                      else set_AuthR2I true s1)).
    { destruct Hp1 as (P1 & P2 & P3). destruct Hdir as [-> | ->].
      - rewrite bool_decide_true by done. by split.
      - rewrite bool_decide_false by done. by split. }
    set (s2 := if bool_decide _ then _ else _) in *.
    assert (Ha2 : ArchiveAuthorized s2 = false) by (unfold s2; by case_bool_decide).
    clearbody s2. destruct (AuthI2R s2 && AuthR2I s2); cbn [fst]; [|done].
    apply freezeArchive_proved; done. }
  case_bool_decide; [destruct (AuthI2R s); [apply Hf|]; by apply Hacc; left|].
  case_bool_decide; [destruct (AuthR2I s); [apply Hf|]; by apply Hacc; right|].
  by apply proved_more.
Qed.

Lemma AuthorizeArchiveProof_proved h k sid p s :
  proved h s ->
  proved (h ++ [OpAuthorizeArchiveProof k sid p]) (AuthorizeArchiveProof k sid p s).1.
Proof.
  intros Hp. set (o := OpAuthorizeArchiveProof k sid p). unfold AuthorizeArchiveProof.
  destruct (negb _ || negb _); cbn [fst]; [by apply proved_more|].
  destruct (ArchiveBaseSet s); cbn [negb fst]; [|by apply proved_more].
  destruct (Crypto.VerifyArchiveAuthProof _ _ _ _) as [[]| |] eqn:Ev; cbn [is_ok negb fst];
    [|by apply (proved_same h o s); [by rewrite view_fail|]..].
  apply Crypto.VerifyArchiveAuthProof_ok in Ev.
  set (s1 := bind_label "archive_auth" _ _).
  assert (H1 : view s1 = view s) by (unfold s1; by rewrite !view_bind).
  clearbody s1. assert (Hp1 : proved (h ++ [o]) s1) by (by apply (proved_same h o s)).
  destruct Hp1 as (P1 & P2 & _). split; [done|]. split; [done|]. intros _.
  exists k, sid, p. split; [apply elem_of_app; right; set_solver|].
  unfold view in H1. cbn. by injection H1 as _ _ _ _ ->.
Qed.

Lemma exec_proved h o s : ok s -> proof_mode o -> proved h s -> proved (h ++ [o]) (exec o s).1.
Proof.
  intros Hok Hm Hp. destruct o; cbn [exec]; try done.
  - by apply Negotiate_proved.
  - apply (proved_same h _ s); [|done]. unfold ConfirmAccept.
    repeat case_match; cbn [fst]; by rewrite ?view_fail.
  - by apply AuthenticateProof_proved.
  - by apply AuthorizeArchiveProof_proved.
  - apply (proved_same h _ s); [|done]. unfold Activate.
    repeat case_match; cbn [fst]; by rewrite ?view_fail, ?view_bind.
  - apply (proved_same h _ s); [|done]. unfold AcceptNext. by repeat case_match.
  - apply (proved_same h _ s); [|done]. unfold RejectReplay.
    repeat case_match; cbn [fst]; by rewrite ?view_emit.
  - apply (proved_same h _ s); [|done]. unfold Close.
    repeat case_match; cbn [fst]; by rewrite ?view_emit.
Qed.

Lemma run_proved h ops s :
  ok s -> Forall proof_mode ops -> proved h s -> proved (h ++ ops) (run ops s).
Proof.
  intros Hok Hm. revert h s Hok. induction Hm as [|o ops Ho Hm IH]; intros h s Hok Hp.
  { by rewrite app_nil_r. }
  change (h ++ o :: ops) with (h ++ [o] ++ ops). rewrite app_assoc. apply IH; [by apply exec_ok|].
  by apply exec_proved.
Qed.

(** C10. No authority without proof: a session driven by proofs that ends up
    peer-authenticated was shown, in both directions, the HMAC of its frozen
    negotiation digest under a key it was given; one that ends up
    archive-authorized was shown the HMAC of its frozen authentication digest. *)
Theorem authorized_by_proofs ops s :
  initial s -> Forall proof_mode ops ->
  let s' := run ops s in
  (PeerAuthenticated s' = true -> peer_proved ops "i2r" s' /\ peer_proved ops "r2i" s') /\
  (ArchiveAuthorized s' = true -> archive_proved ops s').
Proof.
  intros Hi Hm s'. pose proof (initial_ok s Hi) as Hok.
  assert (Hp : proved [] s).
  { destruct Hi as [(_ & _ & _ & E1 & _ & _ & _ & E2 & E3) _]. cbn in *.
    unfold proved. rewrite E1, E2, E3. done. }
  destruct (run_proved [] ops s Hok Hm Hp) as (H1 & H2 & H3). cbn [app] in *. fold s' in H1, H2, H3.
  split; [|done]. intros Hpa. destruct (run_ok ops s Hok) as [[Hs _] _].
  destruct (Hs Hpa) as [? ?]. by split; [apply H1|apply H2].
Qed.

(** ** An honest handshake completes *)

(** Everything a later step of the handshake depends on. *)
Definition hs_state (s : Session) :=
  (abs s, view s, AuthBaseSet s, ArchiveBaseSet s, bool_decide (is_Some (Transcript s)),
   RequireSuite s, OfferedSuites s).

Lemma hs_bind l d s : hs_state (bind_label l d s) = hs_state s.
Proof.
  unfold bind_label. destruct (Transcript s) as [t|] eqn:E; [|done]. case_match; [|done..].
  unfold hs_state. cbn. by rewrite E.
Qed.

Lemma freezeAuth_some s :
  is_Some (Transcript s) ->
  abs (freezeAuthBase s) = abs s /\ AuthBaseSet (freezeAuthBase s) = true /\
  ArchiveBaseSet (freezeAuthBase s) = ArchiveBaseSet s /\ is_Some (Transcript (freezeAuthBase s)).
Proof. intros [t E]. unfold freezeAuthBase. rewrite E. cbn. rewrite E. done. Qed.

Lemma SelectSuite_local su :
  Crypto.SuiteIDAEAD ∈ su -> SelectSuite LocalSuites su = (Crypto.SuiteIDAEAD, true).
Proof.
  intros Hin. unfold SelectSuite. assert (su <> []) by (intros ->; by apply not_elem_of_nil in Hin).
  change (len LocalSuites =? 0) with false. rewrite (proj2 (Z.eqb_neq _ _)).
  2:{ intros E%len_zero_nil. done. }
  cbn [orb LocalSuites List.find]. rewrite bool_decide_false by done. cbn [negb andb].
  rewrite bool_decide_true; [done|]. apply list_elem_of_In, filter_In.
  split; [by apply list_elem_of_In|]. by rewrite bool_decide_false.
Qed.

(** After negotiation: ready to make and check peer proofs. *)
Definition ready (s : Session) : Prop :=
  State_ s = StateNegotiated /\ downgraded s = false /\ AuthI2R s = false /\ AuthR2I s = false /\
  AuthBaseSet s = true /\ is_Some (Transcript s).

Lemma hs_fields s s' :
  hs_state s' = hs_state s ->
  abs s' = abs s /\ view s' = view s /\ AuthBaseSet s' = AuthBaseSet s /\
  ArchiveBaseSet s' = ArchiveBaseSet s /\ (is_Some (Transcript s) -> is_Some (Transcript s')) /\
  RequireSuite s' = RequireSuite s /\ OfferedSuites s' = OfferedSuites s.
Proof.
  unfold hs_state. intros E. apply pair_equal_spec in E as [E E7].
  apply pair_equal_spec in E as [E E6]. apply pair_equal_spec in E as [E E5].
  apply pair_equal_spec in E as [E E4]. apply pair_equal_spec in E as [E E3].
  apply pair_equal_spec in E as [E1 E2]. split_and!; try done.
  intros Ht. rewrite (bool_decide_true (is_Some (Transcript s))) in E5 by done.
  by apply bool_decide_true_iff in E5.
Qed.

Lemma Negotiate_ready s :
  initial s -> is_Some (Transcript s) -> candidates (Offered s) <> [] ->
  (RequireSuite s || (0 <? len (OfferedSuites s)) = true -> Crypto.SuiteIDAEAD ∈ OfferedSuites s) ->
  (Negotiate s).2 = Ok tt /\ ready (Negotiate s).1.
Proof.
  intros [(Hst & _ & _ & _ & _ & _ & _ & Hi & Hr) _] Ht Hc Hsu. cbn in Hst, Hi, Hr.
  unfold Negotiate. rewrite bool_decide_true by done. cbn [negb].
  pose proof (highest_spec (candidates (Offered s))) as Hh.
  destruct (highest (candidates (Offered s))) as [h []]; [|done]. cbn [negb].
  set (s2 := bindVersions "local_allowed" _ _).
  assert (H2 : hs_state s2 = hs_state (set_State StateNegotiated (set_Selected h s)))
    by (unfold s2, bindVersions; by rewrite !hs_bind).
  apply hs_fields in H2 as (Ha & Hv & Hb & Hab & Htr & Hrs & Hos). clearbody s2.
  specialize (Htr Ht). cbn [set_State set_Selected RequireSuite OfferedSuites] in *.
  assert (Hready : forall s3, abs s3 = abs s2 -> is_Some (Transcript s3) -> ready (freezeAuthBase s3)).
  { intros s3 Ha3 Ht3. destruct (freezeAuth_some s3 Ht3) as (Hf & Hfb & _ & Hft).
    rewrite Ha3, Ha in Hf. rewrite !abs_eta in Hf. cbn in Hf. injection Hf as F1 F2 F3 _ _ _ _ _ F9 F10.
    split_and!; try done; try congruence.
    apply downgraded_Highest. by rewrite F2, F3. }
  rewrite Hrs, Hos. destruct (RequireSuite s || _) eqn:Er.
  - rewrite SelectSuite_local by auto. cbn [negb fst snd]. split; [done|].
    set (s3 := bind_label "suite" _ _).
    assert (H3 : hs_state s3 = hs_state (set_SelectedSuite Crypto.SuiteIDAEAD s2))
      by (unfold s3; by rewrite hs_bind).
    apply hs_fields in H3 as (Ha3 & _ & _ & _ & Ht3 & _). apply Hready; [done|by apply Ht3].
  - split; [done|]. by apply Hready.
Qed.

Lemma PeerAuthProof_made k d sid dir :
  16 <= len k -> dir = "i2r"%string \/ dir = "r2i"%string ->
  exists p, Crypto.PeerAuthProof k d sid dir = Ok p /\
    Crypto.VerifyPeerAuthProof k d sid dir p = Ok tt.
Proof.
  intros Hk Hd. setoid_rewrite Crypto.VerifyPeerAuthProof_ok. unfold Crypto.PeerAuthProof.
  rewrite (proj2 (Z.ltb_ge _ _)) by lia.
  destruct Hd as [-> | ->]; rewrite ?bool_decide_true by done; rewrite ?andb_false_r; eauto.
Qed.

Lemma ArchiveAuthProof_made k d sid :
  16 <= len k ->
  exists p, Crypto.ArchiveAuthProof k d sid = Ok p /\
    Crypto.VerifyArchiveAuthProof k d sid p = Ok tt.
Proof.
  intros Hk. setoid_rewrite Crypto.VerifyArchiveAuthProof_ok. unfold Crypto.ArchiveAuthProof.
  rewrite (proj2 (Z.ltb_ge _ _)) by lia. eauto.
Qed.

(** Both directions, one after the other. *)
Lemma proofs_accepted k sid p1 p2 s :
  ready s ->
  Crypto.VerifyPeerAuthProof k (AuthBaseDigest s) sid "i2r" p1 = Ok tt ->
  Crypto.VerifyPeerAuthProof k (AuthBaseDigest s) sid "r2i" p2 = Ok tt ->
  exists s',
  run [OpAuthenticateProof k sid "i2r" p1; OpAuthenticateProof k sid "r2i" p2] s = s' /\
  State_ s' = StatePeerAuthenticated /\ PeerAuthenticated s' = true /\ downgraded s' = false /\
  ArchiveBaseSet s' = true.
Proof.
  intros (Hst & Hd & Hi & Hr & Hb & Ht) V1 V2. cbn [run fold_left exec].
  unfold AuthenticateProof at 2. rewrite bool_decide_true by done. cbn [negb].
  rewrite Hb, Hd, Hi. cbn [negb]. rewrite bool_decide_true by done.
  unfold accept_proof. rewrite V1. cbn [is_ok negb]. rewrite (bool_decide_true ("i2r"%string = _)) by done.
  set (s1 := bind_label "peer_auth_dir" _ _).
  assert (H1 : hs_state s1 = hs_state s) by (unfold s1; by rewrite !hs_bind).
  clearbody s1. apply hs_fields in H1 as (Ha & Hv & Hb1 & _ & Ht1 & _).
  rewrite !abs_eta in Ha. injection Ha as A1 A2 A3 A4 A5 A6 A7 A8 A9 A10.
  assert (Hbd : AuthBaseDigest s1 = AuthBaseDigest s) by (unfold view in Hv; congruence).
  assert (Hd1 : downgraded (set_AuthI2R true s1) = false).
  { unfold downgraded in *. cbn. by rewrite A2, A3. }
  cbn [AuthI2R AuthR2I set_AuthI2R andb]. rewrite A10, Hr. cbn [fst].
  set (s2 := set_AuthI2R true s1) in *.
  unfold AuthenticateProof. change (State_ s2) with (State_ s1). rewrite A1, bool_decide_true by done.
  change (AuthBaseSet s2) with (AuthBaseSet s1). rewrite Hb1, Hb, Hd1. cbn [negb].
  rewrite bool_decide_false by done. rewrite bool_decide_true by done.
  change (AuthR2I s2) with (AuthR2I s1). rewrite A10, Hr.
  unfold accept_proof. change (AuthBaseDigest s2) with (AuthBaseDigest s1). rewrite Hbd, V2.
  cbn [is_ok negb]. rewrite bool_decide_false by done.
  set (s3 := bind_label "peer_auth_dir" _ _).
  assert (H3 : hs_state s3 = hs_state s2) by (unfold s3; by rewrite !hs_bind).
  clearbody s3. apply hs_fields in H3 as (Ha3 & Hv3 & _ & _ & Ht3 & _).
  assert (Ei : AuthI2R s3 = true) by (unfold view in Hv3; unfold s2 in Hv3; cbn in Hv3; congruence).
  cbn [AuthI2R AuthR2I set_AuthR2I]. rewrite Ei. cbn [andb fst].
  assert (Hts : is_Some (Transcript s3)) by (by apply Ht3, Ht1). destruct Hts as [t Et].
  unfold freezeArchiveBase. cbn [Transcript set_State set_PeerAuthenticated set_AuthR2I].
  rewrite Et. eexists. split; [done|]. split_and!; try done.
  rewrite !abs_eta in Ha3. injection Ha3 as _ B2 B3 _ _ _ _ _ _ _.
  unfold downgraded in *. cbn in *. by rewrite B2, B3.
Qed.

Lemma archive_activates ka sid pa s :
  State_ s = StatePeerAuthenticated -> PeerAuthenticated s = true -> downgraded s = false ->
  ArchiveBaseSet s = true ->
  Crypto.VerifyArchiveAuthProof ka (ArchiveBaseDigest s) sid pa = Ok tt ->
  State_ (run [OpAuthorizeArchiveProof ka sid pa; OpActivate] s) = StateActive.
Proof.
  intros Hst Hp Hd Hab Hv. cbn [run fold_left exec].
  unfold AuthorizeArchiveProof. rewrite bool_decide_true, Hp, Hab, Hv by done.
  cbn [negb orb is_ok fst].
  set (s1 := bind_label "archive_auth" _ _).
  assert (H1 : abs s1 = abs s) by (unfold s1; apply abs_bind).
  clearbody s1. rewrite !abs_eta in H1. injection H1 as A1 A2 A3 A4 A5 A6 A7 A8 A9 A10.
  unfold Activate. rewrite bool_decide_true by done. cbn [negb].
  cbn [PeerAuthenticated ArchiveAuthorized set_State set_ArchiveAuthorized]. rewrite A4, Hp. cbn [negb orb].
  replace (downgraded _) with false.
  2:{ unfold downgraded in *. cbn. by rewrite A2, A3. }
  cbn [fst]. set (s2 := bind_label "activate" _ _).
  assert (H2 : State_ s2 = StateActive).
  { change (Spec.state (abs s2) = StateActive). unfold s2. by rewrite (proj1 (abs_bind _ _ _)). }
  clearbody s2. case_bool_decide; cbn [negb]; [done|].
  change (Spec.state (abs (bind_label "suite_active" (sbytes (SelectedSuite s2)) s2)) = StateActive).
  by rewrite (proj1 (abs_bind _ _ _)).
Qed.

(** An honest handshake completes: two ends that hold a common version and
    suite, record a transcript and share the two keys make proofs that verify,
    in both directions and for the archive, and reach ACTIVE. *)
Lemma handshake_reaches_active s k ka sid :
  initial s -> is_Some (Transcript s) -> candidates (Offered s) <> [] ->
  (RequireSuite s || (0 <? len (OfferedSuites s)) = true -> Crypto.SuiteIDAEAD ∈ OfferedSuites s) ->
  16 <= len k -> 16 <= len ka ->
  let s1 := run [OpNegotiate] s in
  exists p1 p2, MakeAuthProof k sid "i2r" s1 = Ok p1 /\ MakeAuthProof k sid "r2i" s1 = Ok p2 /\
  let s2 := run [OpAuthenticateProof k sid "i2r" p1; OpAuthenticateProof k sid "r2i" p2] s1 in
  exists pa, MakeArchiveProof ka sid s2 = Ok pa /\
  State_ (run [OpAuthorizeArchiveProof ka sid pa; OpActivate] s2) = StateActive.
Proof.
  intros Hi Ht Hc Hsu Hk Hka s1.
  destruct (Negotiate_ready s Hi Ht Hc Hsu) as [_ Hready]. change (Negotiate s).1 with s1 in Hready.
  clearbody s1. pose proof Hready as (Hst & Hd & _ & _ & Hb & _).
  destruct (PeerAuthProof_made k (AuthBaseDigest s1) sid "i2r" Hk ltac:(by left)) as (p1 & M1 & V1).
  destruct (PeerAuthProof_made k (AuthBaseDigest s1) sid "r2i" Hk ltac:(by right)) as (p2 & M2 & V2).
  exists p1, p2. unfold MakeAuthProof. rewrite bool_decide_true by done. cbn [negb].
  rewrite Hb, Hd, M1, M2. cbn [negb map_err]. split; [done|]. split; [done|].
  destruct (proofs_accepted k sid p1 p2 s1 Hready V1 V2) as (s2 & -> & Hst2 & Hp2 & Hd2 & Hab2).
  destruct (ArchiveAuthProof_made ka (ArchiveBaseDigest s2) sid Hka) as (pa & Ma & Va).
  exists pa. unfold MakeArchiveProof. rewrite bool_decide_true by done. rewrite Hp2, Hab2, Ma.
  cbn [negb orb map_err]. split; [done|]. by apply archive_activates.
Qed.

(** ** Witnesses *)

Definition s_demo : Session :=
  set_Transcript (Some Crypto.NewTranscript) (NewWithSuites [1; 2; 3] [Crypto.SuiteIDAEAD]).

Lemma s_demo_initial : initial s_demo.
Proof. split; [repeat split|]; vm_compute; split; congruence. Defined.

Lemma exec_refines_spec_witness :
  rtc (Spec.Next (accept_limit s_demo)) (abs (run [OpNegotiate] s_demo))
    (abs (exec OpAuthenticate (run [OpNegotiate] s_demo)).1) /\
  State_ (exec OpAuthenticate (run [OpNegotiate] s_demo)).1 = StatePeerAuthenticated.
Proof.
  split; [|reflexivity].
  apply (exec_refines_spec [OpNegotiate] s_demo OpAuthenticate). exact s_demo_initial.
Defined.

Lemma reachable_Invariants_witness :
  Invariants (run [OpNegotiate; OpAuthenticate; OpAuthorizeArchive; OpActivate; OpAcceptNext;
                   OpNegotiate; OpRejectReplay] s_demo) = Ok tt.
Proof.
  apply (reachable_Invariants [OpNegotiate; OpAuthenticate; OpAuthorizeArchive; OpActivate;
    OpAcceptNext; OpNegotiate; OpRejectReplay] s_demo). exact s_demo_initial.
Defined.

Lemma handshake_reaches_active_witness :
  exists p1 p2, MakeAuthProof (zeros 32) (zeros 16) "i2r" (run [OpNegotiate] s_demo) = Ok p1 /\
  MakeAuthProof (zeros 32) (zeros 16) "r2i" (run [OpNegotiate] s_demo) = Ok p2.
Proof.
  destruct (handshake_reaches_active s_demo (zeros 32) (zeros 32) (zeros 16))
    as (p1 & p2 & H1 & H2 & _).
  - exact s_demo_initial.
  - eexists. reflexivity.
  - vm_compute. congruence.
  - intros _. left.
  - vm_compute. congruence.
  - vm_compute. congruence.
  - exists p1, p2. split; [exact H1|exact H2].
Defined.

Lemma run_cons o ops s : run (o :: ops) s = run ops (exec o s).1.
Proof. reflexivity. Defined.

Lemma authorized_by_proofs_witness :
  exists ops, Forall proof_mode ops /\ PeerAuthenticated (run ops s_demo) = true /\
    peer_proved ops "i2r" (run ops s_demo) /\ peer_proved ops "r2i" (run ops s_demo).
Proof.
  destruct (Negotiate_ready s_demo s_demo_initial) as [_ Hr].
  { eexists. reflexivity. }
  { vm_compute. congruence. }
  { intros _. left. }
  destruct (PeerAuthProof_made (zeros 32) (AuthBaseDigest (Negotiate s_demo).1) (zeros 16) "i2r")
    as (p1 & _ & V1).
  { vm_compute. congruence. }
  { left. reflexivity. }
  destruct (PeerAuthProof_made (zeros 32) (AuthBaseDigest (Negotiate s_demo).1) (zeros 16) "r2i")
    as (p2 & _ & V2).
  { vm_compute. congruence. }
  { right. reflexivity. }
  destruct (proofs_accepted (zeros 32) (zeros 16) p1 p2 _ Hr V1 V2) as (s2 & E & _ & Hpa & _).
  exists [OpNegotiate; OpAuthenticateProof (zeros 32) (zeros 16) "i2r" p1;
          OpAuthenticateProof (zeros 32) (zeros 16) "r2i" p2].
  assert (Hm : Forall proof_mode [OpNegotiate; OpAuthenticateProof (zeros 32) (zeros 16) "i2r" p1;
          OpAuthenticateProof (zeros 32) (zeros 16) "r2i" p2]) by (repeat constructor).
  destruct (authorized_by_proofs [OpNegotiate; OpAuthenticateProof (zeros 32) (zeros 16) "i2r" p1;
    OpAuthenticateProof (zeros 32) (zeros 16) "r2i" p2] s_demo s_demo_initial Hm) as [Hauth _].
  rewrite run_cons in Hauth |- *. cbn [exec] in Hauth |- *. rewrite E in Hauth |- *.
  split; [exact Hm|]. split; [exact Hpa|]. exact (Hauth Hpa).
Defined.

End Session.
