(* ===== verification/Protocol.v ===== *)
(** * Wire frames (internal/protocol: protocol.go, negotiate.go, peerauth.go,
    data_chunk.go)

    The frame codec and the codecs of the bodies it carries.  [Decode_exact]
    characterizes what the frame decoder accepts; the body codecs are proved
    to be inverse to each other in both directions, so each body has one
    encoding and nothing else parses. *)

From S2P Require Import Prelude Sha256 Resource Codec Crypto.
Import Codec.

Module Protocol.

Definition ProtocolVersion : Z := 1.
Definition HeaderBytes : Z := 42.
Definition AuthBytes : Z := 32.
Definition MaxBodyBytes : Z := Z.shiftl 1 20.
Definition FrameMagic : bytes := str "INTPRO01".

Definition TypeNegotiateOffer : Z := 1.
Definition TypeNegotiateAccept : Z := 2.
Definition TypePeerAuth : Z := 3.
Definition TypeArchiveAuth : Z := 4.
Definition TypeActivate : Z := 5.
Definition TypeData : Z := 6.
Definition TypeClose : Z := 7.
Definition TypeFailure : Z := 8.

Definition FlagRequiresMAC : Z := 1.

Record Frame := mkFrame {
  Version : Z;
  Type_ : Z;
  Flags : Z;
  SessionID : bytes;
  Sequence : Z;
  Body : bytes }.

Record Error := fail { Code : string }.

#[global] Instance Error_eq_dec : EqDecision Error.
Proof. solve_decision. Defined.

Definition known (t : Z) : bool := (TypeNegotiateOffer <=? t) && (t <=? TypeFailure).
Definition CriticalUnknown (t : Z) : bool := negb (known t).

Definition macSHA256 (key body : bytes) : bytes := hmac_sha256 key body.

(** The bytes of a frame before the authenticator. *)
Definition frame_body (f : Frame) : bytes :=
  FrameMagic ++ le_bytes 2 (Version f) ++ le_bytes 2 (Type_ f) ++ le_bytes 2 (Flags f) ++
  le_bytes 4 (u32 (len (Body f))) ++ SessionID f ++ le_bytes 8 (Sequence f) ++ Body f.

Definition set_Version (f : Frame) (v : Z) : Frame :=
  mkFrame v (Type_ f) (Flags f) (SessionID f) (Sequence f) (Body f).

Definition set_Flags (f : Frame) (v : Z) : Frame :=
  mkFrame (Version f) (Type_ f) v (SessionID f) (Sequence f) (Body f).

Definition encode_limits : Resource.Limits :=
  Resource.mkLimits (MaxBodyBytes + HeaderBytes + AuthBytes) 1 1 1 1 1.

Definition Encode (f : Frame) (macKey : bytes) : res Error bytes :=
  let f := if Version f =? 0 then set_Version f ProtocolVersion else f in
  if negb (Version f =? ProtocolVersion) then Err (fail "version") else
  if negb (known (Type_ f)) then Err (fail "type") else
  if negb (Z.ldiff (Flags f) FlagRequiresMAC =? 0) then Err (fail "flags") else
  if MaxBodyBytes <? len (Body f) then Err (fail "limit") else
  let needMAC := negb (Z.land (Flags f) FlagRequiresMAC =? 0) || (0 <? len macKey) in
  let f := if needMAC then set_Flags f (Z.lor (Flags f) FlagRequiresMAC) else f in
  if needMAC && (len macKey <? 16) then Err (fail "mac") else
  let total := HeaderBytes + len (Body f) in
  let total := if needMAC then total + AuthBytes else total in
  match Resource.AdmitBytes encode_limits total with
  | Err _ => Err (fail "limit")
  | Panic => Panic
  | Ok _ =>
      let buf := frame_body f in
      Ok (if needMAC then buf ++ macSHA256 macKey buf else buf)
  end.

Definition Decode (raw macKey : bytes) (requireMAC : bool) : res Error Frame :=
  let min := if requireMAC || (0 <? len macKey) then HeaderBytes + AuthBytes else HeaderBytes in
  if len raw <? min then Err (fail "trunc") else
  let! magic := slice raw 0 8 in
  if negb (bool_decide (magic = FrameMagic)) then Err (fail "magic") else
  let! s := slice raw 8 10 in
  let! ver := U16LE s in
  if negb (ver =? ProtocolVersion) then Err (fail "version") else
  let! s := slice raw 10 12 in
  let! typ := U16LE s in
  let! s := slice raw 12 14 in
  let! flags := U16LE s in
  if negb (Z.ldiff flags FlagRequiresMAC =? 0) then Err (fail "flags") else
  let! s := slice raw 14 18 in
  let! bodyLen := U32LE s in
  if MaxBodyBytes <? bodyLen then Err (fail "limit") else
  let needMAC := requireMAC || negb (Z.land flags FlagRequiresMAC =? 0) || (0 <? len macKey) in
  let expect := HeaderBytes + bodyLen in
  let expect := if needMAC then expect + AuthBytes else expect in
  if negb (len raw =? expect) then Err (fail "length") else
  if negb (known typ) then Err (fail "critical") else
  let! _ :=
    (if needMAC then
       if len macKey <? 16 then Err (fail "mac") else
       let! body := slice raw 0 (HeaderBytes + bodyLen) in
       let! want := slice raw (len raw - AuthBytes) (len raw) in
       let got := macSHA256 macKey body in
       if negb (bool_decide (want = got)) then Err (fail "mac") else Ok tt
     else Ok tt) in
  let! s := slice raw 18 34 in
  let sid := copy (zeros 16) s in
  let! s := slice raw 34 42 in
  let! seq := U64LE s in
  let! body := slice raw 42 (42 + bodyLen) in
  Ok (mkFrame ver typ flags sid seq body).

(** ** Negotiation bodies (negotiate.go) *)

Definition maxNegotiateVersions : Z := 8.
Definition maxNegotiateSuites : Z := 8.
Definition maxSuiteIDLen : Z := 96.

Definition suite_bad (s : string) : bool :=
  bool_decide (s = ""%string) || (maxSuiteIDLen <? len (sbytes s)).

Definition encode_suite (s : string) : bytes := byte_of (len (sbytes s)) :: sbytes s.

Definition EncodeNegotiateOfferBody (vers : list Z) (suites : list string) : res Error bytes :=
  if (len vers =? 0) || (maxNegotiateVersions <? len vers) then Err (fail "negotiate")
  else if maxNegotiateSuites <? len suites then Err (fail "negotiate")
  else if existsb suite_bad suites then Err (fail "negotiate")
  else Ok ([byte_of (len vers)] ++ map byte_of vers ++ [byte_of (len suites)] ++
           concat (map encode_suite suites)).

(** The suite loop: [n] suites left to read at offset [off]. *)
Fixpoint parse_suites (n : nat) (body : bytes) (off : Z) (suites : list string)
    : res Error (list string * Z) :=
  match n with
  | O => Ok (suites, off)
  | S n =>
      if len body <=? off then Err (fail "negotiate") else
      let! b := index body off in
      let l := byteZ b in
      let off := off + 1 in
      if (l =? 0) || (maxSuiteIDLen <? l) then Err (fail "negotiate") else
      if len body <? off + l then Err (fail "negotiate") else
      let! s := slice body off (off + l) in
      parse_suites n body (off + l) (suites ++ [String.string_of_list_byte s])
  end.

Definition ParseNegotiateOfferBody (body : bytes) : res Error (list Z * list string) :=
  if len body <? 2 then Err (fail "negotiate") else
  let! b := index body 0 in
  let nV := byteZ b in
  if (nV =? 0) || (maxNegotiateVersions <? nV) then Err (fail "negotiate") else
  if len body <? 1 + nV + 1 then Err (fail "negotiate") else
  let! vs := slice body 1 (1 + nV) in
  let vers := map byteZ vs in
  let off := 1 + nV in
  let! b := index body off in
  let nS := byteZ b in
  let off := off + 1 in
  if maxNegotiateSuites <? nS then Err (fail "negotiate") else
  let! (suites, off) := parse_suites (Z.to_nat nS) body off [] in
  if negb (off =? len body) then Err (fail "negotiate") else Ok (vers, suites).

Definition EncodeNegotiateAcceptBody (vers : Z) (suite : string) : res Error bytes :=
  if vers =? 0 then Err (fail "negotiate")
  else if maxSuiteIDLen <? len (sbytes suite) then Err (fail "negotiate")
  else Ok ([byte_of vers; byte_of (len (sbytes suite))] ++ sbytes suite).

Definition ParseNegotiateAcceptBody (body : bytes) : res Error (Z * string) :=
  if len body <? 2 then Err (fail "negotiate") else
  let! b := index body 0 in
  let vers := byteZ b in
  if vers =? 0 then Err (fail "negotiate") else
  let! b := index body 1 in
  let n := byteZ b in
  if maxSuiteIDLen <? n then Err (fail "negotiate") else
  if negb (len body =? 2 + n) then Err (fail "negotiate") else
  if 0 <? n then
    let! s := slice body 2 (len body) in Ok (vers, String.string_of_list_byte s)
  else Ok (vers, ""%string).

(** ** Peer authentication bodies (peerauth.go) *)

Definition peerAuthDirLen : Z := 3.

Definition EncodePeerAuthBody (direction : string) (proof : bytes) : bytes :=
  sbytes direction ++ proof.

Definition ParsePeerAuthBody (body : bytes) : res Error (string * bytes) :=
  if len body <? peerAuthDirLen + 16 then Err (fail "auth") else
  let! d := slice body 0 peerAuthDirLen in
  let direction := String.string_of_list_byte d in
  if negb (bool_decide (direction = "i2r"%string)) && negb (bool_decide (direction = "r2i"%string))
  then Err (fail "auth") else
  let! proof := slice body peerAuthDirLen (len body) in
  Ok (direction, proof).

(** ** Data chunks (data_chunk.go) *)

Definition DataChunkHeaderBytes : Z := 12.
Definition MaxDataChunkBytes : Z := MaxBodyBytes - DataChunkHeaderBytes.

Definition EncodeDataChunkBody (offset : Z) (data : bytes) : res Error bytes :=
  if MaxDataChunkBytes <? len data then Err (fail "chunk")
  else if MaxUint64 - len data <? offset then Err (fail "chunk")
  else
    let out := zeros (DataChunkHeaderBytes + len data) in
    let! out := with_slice out 0 8 (fun s => PutU64LE s offset) in
    let! out := with_slice out 8 12 (fun s => PutU32LE s (u32 (len data))) in
    copy_into out DataChunkHeaderBytes (len out) data.

Definition ParseDataChunkBody (body : bytes) : res Error (Z * bytes) :=
  if len body <? DataChunkHeaderBytes then Err (fail "chunk") else
  let! s := slice body 0 8 in
  let! offset := U64LE s in
  let! s := slice body 8 12 in
  let! n := U32LE s in
  if negb (DataChunkHeaderBytes + n =? len body) then Err (fail "chunk") else
  if MaxDataChunkBytes <? n then Err (fail "chunk") else
  if MaxUint64 - n <? offset then Err (fail "chunk") else
  let! data := slice body DataChunkHeaderBytes (len body) in
  Ok (offset, data).

(** ** What the frame decoder accepts *)

(** The frames of the format. *)
Definition valid_frame (f : Frame) : Prop :=
  Version f = 1 /\ known (Type_ f) = true /\ (Flags f = 0 \/ Flags f = 1) /\
  len (SessionID f) = 16 /\ is_u64 (Sequence f) /\ len (Body f) <= MaxBodyBytes.

(** Whether a frame needs an authenticator. *)
Definition needs (f : Frame) (key : bytes) (req : bool) : bool :=
  req || negb (Z.land (Flags f) FlagRequiresMAC =? 0) || (0 <? len key).

Definition wire (f : Frame) (key : bytes) (req : bool) : bytes :=
  frame_body f ++ (if needs f key req then macSHA256 key (frame_body f) else []).

Lemma len_FrameMagic : len FrameMagic = 8.
Proof. done. Qed.

#[local] Hint Rewrite len_FrameMagic : len.

Lemma MaxBodyBytes_val : MaxBodyBytes = 1048576.
Proof. done. Qed.

Lemma ldiff_flags n : 0 <= n -> Z.ldiff n FlagRequiresMAC = 0 <-> n = 0 \/ n = 1.
Proof.
  intros Hn. unfold FlagRequiresMAC. split; [|by intros [-> | ->]].
  intros E. destruct (decide (n < 2)) as [|Hge]; [lia|]. exfalso.
  assert (Hb : Z.testbit (Z.ldiff n 1) (Z.log2 n) = true).
  { rewrite Z.ldiff_spec, Z.bit_log2 by lia. pose proof (Z.log2_le_pow2 n 1 ltac:(lia)).
    rewrite (Z.bits_above_log2 1); [done|lia|]. cbn. lia. }
  by rewrite E, Z.bits_0 in Hb.
Qed.

Lemma len_frame_body f : len (SessionID f) = 16 -> len (frame_body f) = 42 + len (Body f).
Proof. intros. unfold frame_body. len_lia. Qed.

Definition fields_at (raw : bytes) (f : Frame) : Prop :=
  sub raw 0 8 = FrameMagic /\ sub raw 8 10 = le_bytes 2 (Version f) /\
  sub raw 10 12 = le_bytes 2 (Type_ f) /\ sub raw 12 14 = le_bytes 2 (Flags f) /\
  sub raw 14 18 = le_bytes 4 (len (Body f)) /\ sub raw 18 34 = SessionID f /\
  sub raw 34 42 = le_bytes 8 (Sequence f) /\ sub raw 42 (42 + len (Body f)) = Body f.

Lemma body_fields f rest :
  len (SessionID f) = 16 -> len (Body f) < 4294967296 -> fields_at (frame_body f ++ rest) f.
Proof.
  intros Hs Hb. pose proof (len_nonneg (Body f)).
  unfold fields_at, frame_body, u32. rewrite Z.mod_small by lia.
  rewrite <- !app_assoc. repeat split; repeat sub_step; done.
Qed.

Lemma fields_body raw f :
  len (Body f) < 4294967296 -> 42 + len (Body f) <= len raw -> fields_at raw f ->
  sub raw 0 (42 + len (Body f)) = frame_body f.
Proof.
  intros Hb Hl (R0 & R1 & R2 & R3 & R4 & R5 & R6 & R7). pose proof (len_nonneg (Body f)).
  unfold frame_body, u32. rewrite Z.mod_small by lia.
  rewrite (sub_split raw 0 8), (sub_split raw 8 10), (sub_split raw 10 12), (sub_split raw 12 14),
    (sub_split raw 14 18), (sub_split raw 18 34), (sub_split raw 34 42) by lia.
  by rewrite R0, R1, R2, R3, R4, R5, R6, R7.
Qed.

Lemma known_range t : known t = true <-> 1 <= t <= 8.
Proof. unfold known, TypeNegotiateOffer, TypeFailure. lia. Qed.

Lemma Decode_wire f key req :
  valid_frame f -> (needs f key req = true -> 16 <= len key) ->
  Decode (wire f key req) key req = Ok f.
Proof.
  intros (Hv & Hk & Hf & Hs & Hq & Hb) Hkey. rewrite MaxBodyBytes_val in Hb.
  pose proof (len_nonneg (Body f)). apply known_range in Hk as Hk'.
  pose proof (len_frame_body f Hs) as Hlb.
  pose proof (body_fields f (if needs f key req then macSHA256 key (frame_body f) else []) Hs ltac:(lia))
    as (R0 & R1 & R2 & R3 & R4 & R5 & R6 & R7). fold (wire f key req) in *.
  assert (Hlen : len (wire f key req) = 42 + len (Body f) + if needs f key req then 32 else 0).
  { unfold wire. rewrite len_app, Hlb. unfold macSHA256.
    destruct (needs f key req); [by rewrite len_hmac_sha256|by rewrite len_nil]. }
  assert (Hbody : sub (wire f key req) 0 (42 + len (Body f)) = frame_body f).
  { unfold wire. rewrite sub_app_l by lia. apply sub_full. lia. }
  assert (Hmac : needs f key req = true ->
    sub (wire f key req) (42 + len (Body f)) (42 + len (Body f) + 32) = macSHA256 key (frame_body f)).
  { intros Hn. unfold wire. rewrite Hn, sub_app_r by lia. rewrite Hlb.
    apply sub_whole; [lia|]. unfold macSHA256. rewrite len_hmac_sha256. lia. }
  remember (wire f key req) as raw eqn:Er. clear Er.
  assert (Hge : (req || (0 <? len key) = true -> needs f key req = true)) by (unfold needs; lia).
  unfold Decode, HeaderBytes, AuthBytes.
  rewrite (proj2 (Z.ltb_ge (len raw) _)).
  2:{ destruct (req || (0 <? len key)); [rewrite Hge in Hlen by done; lia|].
      destruct (needs f key req); lia. }
  assert (0 <= if needs f key req then 32 else 0) by (destruct (needs f key req); lia).
  read_step. rewrite R0, bool_decide_true by done. cbn [negb].
  do 2 read_step. rewrite R1, Hv. change (negb (le_val (le_bytes 2 1) =? ProtocolVersion)) with false.
  do 4 read_step. rewrite R2, R3. rewrite !le_val_bytes by (cbn; lia).
  rewrite (proj2 (Z.eqb_eq _ _)) by (by apply ldiff_flags; [lia|]). cbn [negb].
  do 2 read_step. rewrite R4, le_val_bytes by (cbn; lia). rewrite MaxBodyBytes_val.
  dec_false (1048576 <? len (Body f)). fold (needs f key req).
  rewrite (proj2 (Z.eqb_eq (len raw) _)) by (destruct (needs f key req); lia).
  cbn [negb]. rewrite Hk. cbn [negb].
  replace (if needs f key req then _ else Ok tt) with (@Ok Error unit tt).
  2:{ destruct (needs f key req) eqn:En; [|done]. specialize (Hkey eq_refl).
      dec_false (len key <? 16). do 2 read_step. rewrite Hbody, Hlen.
      replace (42 + len (Body f) + 32 - 32) with (42 + len (Body f)) by lia.
      rewrite Hmac by done. by rewrite bool_decide_true. }
  cbn [bind]. do 4 read_step. rewrite R5, R6, R7, copy_zeros by done.
  rewrite le_val_bytes by done. destruct f. cbn in *. by rewrite Hv.
Qed.

Lemma Decode_outcome raw key req :
  match Decode raw key req with
  | Ok f => valid_frame f /\ (needs f key req = true -> 16 <= len key) /\ raw = wire f key req
  | Err _ => True
  | Panic => False
  end.
Proof.
  unfold Decode, HeaderBytes, AuthBytes.
  set (min := if req || (0 <? len key) then _ else _).
  assert (Hmin : 42 <= min) by (unfold min; case_if; lia).
  guard_step. reflect_bools.
  read_step. guard_step. do 2 read_step. guard_step. do 4 read_step. guard_step. do 2 read_step.
  set (blen := le_val (sub raw 14 18)). rewrite MaxBodyBytes_val. guard_step.
  pose proof (le_val_sub_range raw 14 18 ltac:(lia) ltac:(lia) ltac:(lia)) as Hbl. fold blen in Hbl.
  pose proof (le_val_sub_range raw 10 12 ltac:(lia) ltac:(lia) ltac:(lia)) as Htp.
  pose proof (le_val_sub_range raw 12 14 ltac:(lia) ltac:(lia) ltac:(lia)) as Hfl.
  pose proof (le_val_sub_range raw 34 42 ltac:(lia) ltac:(lia) ltac:(lia)) as Hsq.
  set (need := req || _ || _). guard_step. guard_step. reflect_bools.
  assert (42 + blen <= len raw) by (destruct need; lia).
  set (f := mkFrame 1 (le_val (sub raw 10 12)) (le_val (sub raw 12 14)) (sub raw 18 34)
              (le_val (sub raw 34 42)) (sub raw 42 (42 + blen))).
  assert (Hlb : len (Body f) = blen) by (cbn; rewrite len_sub; lia).
  assert (Hneed : needs f key req = need) by done.
  set (mac := if need then _ else _).
  assert (Hmac : (exists e, mac = Err e) \/ mac = Ok tt /\ (need = true -> 16 <= len key /\
      sub raw (42 + blen) (42 + blen + 32) = macSHA256 key (sub raw 0 (42 + blen)))).
  { unfold mac. destruct need; [|right; done].
    destruct (len key <? 16) eqn:Ek; [left; eauto|]. do 2 read_step.
    case_bool_decide as Hm; cbn [negb]; [right|left; eauto]. split; [done|]. intros _.
    reflect_bools. split; [done|]. rewrite <- Hm. f_equal; lia. }
  clearbody mac. destruct Hmac as [[e ->]|[-> Hmac]]; cbn [bind]; [done|].
  do 4 read_step. rewrite copy_zeros by (rewrite len_sub; lia).
  assert (Hv : le_val (sub raw 8 10) = 1) by done. rewrite Hv. fold f.
  assert (Hfields : fields_at raw f).
  { unfold fields_at. rewrite Hlb. cbn [f Version Type_ Flags SessionID Sequence Body].
    repeat split; try done; apply le_bytes_sub; try lia; done. }
  assert (Hb := fields_body raw f ltac:(lia) ltac:(lia) Hfields). rewrite Hlb in Hb.
  split; [|rewrite Hneed; split; [intros Hn; by apply Hmac|]].
  - unfold valid_frame. rewrite Hlb, MaxBodyBytes_val. split; [done|]. split; [done|].
    split; [by apply ldiff_flags; cbn; lia|]. split; [cbn; rewrite len_sub; lia|].
    split; [done|lia].
  - unfold wire. rewrite Hneed, <- Hb. destruct need.
    + destruct (Hmac eq_refl) as [_ <-]. rewrite <- sub_split by lia. symmetry. apply sub_full. lia.
    + rewrite app_nil_r. symmetry. apply sub_full. lia.
Qed.

(** The frame decoder accepts exactly the frames of the format: the bytes
    are the canonical encoding of the decoded frame, followed by the HMAC of
    all of them under the key whenever the caller, the flag or the presence of
    a key asks for one; on every other input it returns an error. *)
Lemma Decode_exact raw key req f :
  Decode raw key req = Ok f <->
  valid_frame f /\ (needs f key req = true -> 16 <= len key) /\ raw = wire f key req.
Proof.
  split.
  - intros E. pose proof (Decode_outcome raw key req) as H. by rewrite E in H.
  - intros (Hv & Hk & ->). by apply Decode_wire.
Qed.

(** ** Encoding frames *)

(** The frame as it goes on the wire: the version filled in, the flag set when
    there is an authenticator. *)
Definition normalize (f : Frame) (key : bytes) : Frame :=
  mkFrame 1 (Type_ f) (if needs f key false then 1 else Flags f) (SessionID f) (Sequence f) (Body f).

Lemma needs_normalize f key : needs (normalize f key) key false = needs f key false.
Proof.
  unfold needs at 1, normalize. cbn [Flags]. destruct (needs f key false) eqn:En; [done|].
  unfold needs in En. by rewrite En.
Qed.

Lemma Encode_outcome f key :
  len (SessionID f) = 16 -> is_u64 (Sequence f) -> 0 <= Flags f ->
  match Encode f key with
  | Ok raw =>
      valid_frame (normalize f key) /\ (needs f key false = true -> 16 <= len key) /\
      raw = wire (normalize f key) key false
  | Err _ => True
  | Panic => False
  end.
Proof.
  intros Hs Hq Hf. unfold Encode.
  set (f0 := if Version f =? 0 then _ else f).
  assert (H0 : Type_ f0 = Type_ f /\ Flags f0 = Flags f /\ SessionID f0 = SessionID f /\
               Sequence f0 = Sequence f /\ Body f0 = Body f) by (unfold f0; by case_if).
  destruct H0 as (E1 & E2 & E3 & E4 & E5).
  destruct (Version f0 =? ProtocolVersion) eqn:Ev; cbn [negb]; [|done]. reflect_bools.
  rewrite E1, E2, E5. guard_step. guard_step. guard_step. rewrite MaxBodyBytes_val in *. reflect_bools.
  assert (Hfl : Flags f = 0 \/ Flags f = 1) by (by apply ldiff_flags).
  change (negb (Z.land (Flags f) FlagRequiresMAC =? 0) || (0 <? len key)) with (needs f key false).
  destruct (needs f key false && (len key <? 16)) eqn:Ek; [done|].
  set (f1 := if needs f key false then _ else f0).
  assert (H1 : f1 = normalize f key).
  { unfold f1, normalize. destruct (needs f key false) eqn:En.
    - unfold set_Flags. rewrite ?Ev, ?E1, ?E2, ?E3, ?E4, ?E5. f_equal. by destruct Hfl as [-> | ->].
    - rewrite <- E1, <- E2, <- E3, <- E4, <- E5. unfold ProtocolVersion in Ev.
      clear -Ev. clearbody f0. destruct f0. cbn in *. by rewrite Ev. }
  pose proof (len_nonneg (Body f)).
  rewrite (proj2 (Resource.AdmitBytes_ok _ _)).
  2:{ rewrite H1. unfold encode_limits, HeaderBytes, AuthBytes. rewrite MaxBodyBytes_val.
      cbn [Resource.MaxBytes normalize Body]. destruct (needs f key false); lia. }
  rewrite H1. clear f1 H1. split.
  - unfold valid_frame, normalize. cbn. rewrite MaxBodyBytes_val. split; [done|]. split; [done|].
    split; [destruct (needs f key false); auto|]. done.
  - split; [intros En; rewrite En in Ek; cbn in Ek; lia|].
    unfold wire. rewrite needs_normalize. destruct (needs f key false); [done|].
    by rewrite app_nil_r.
Qed.

Lemma Encode_then_Decode f key raw req :
  len (SessionID f) = 16 -> is_u64 (Sequence f) -> 0 <= Flags f ->
  Encode f key = Ok raw -> (req = true -> needs f key false = true) ->
  Decode raw key req = Ok (normalize f key).
Proof.
  intros Hs Hq Hf He Hreq. pose proof (Encode_outcome f key Hs Hq Hf) as H. rewrite He in H.
  destruct H as (Hv & Hk & ->).
  pose proof (needs_normalize f key) as Hn.
  assert (Hw : wire (normalize f key) key false = wire (normalize f key) key req).
  { unfold wire. replace (needs (normalize f key) key req) with (needs (normalize f key) key false); [done|].
    destruct req; [|done]. rewrite Hn, Hreq by done. done. }
  rewrite Hw. apply Decode_wire; [done|]. intros E. apply Hk.
  destruct req; [by apply Hreq|]. by rewrite <- Hn.
Qed.

(** Frames of the format are encoded. *)
Lemma Encode_ok f key :
  Version f = 0 -> known (Type_ f) = true -> Flags f = 0 \/ Flags f = 1 ->
  len (Body f) <= MaxBodyBytes -> (needs f key false = true -> 16 <= len key) ->
  exists raw, Encode f key = Ok raw.
Proof.
  intros Hv Hk Hf Hb Hkey. rewrite MaxBodyBytes_val in Hb. pose proof (len_nonneg (Body f)).
  unfold Encode. rewrite Hv. cbn [set_Version Version Type_ Flags Body]. change (0 =? 0) with true.
  cbv match. cbn [set_Version Version Type_ Flags Body]. rewrite Hk. cbn [negb].
  change (ProtocolVersion =? ProtocolVersion) with true. cbn [negb].
  rewrite (proj2 (Z.eqb_eq _ _)) by (apply ldiff_flags; [lia|done]). cbn [negb].
  rewrite MaxBodyBytes_val. rewrite (proj2 (Z.ltb_ge _ _)) by lia.
  change (negb (Z.land (Flags f) FlagRequiresMAC =? 0) || (0 <? len key)) with (needs f key false).
  destruct (needs f key false) eqn:En; cbn [andb].
  - rewrite (proj2 (Z.ltb_ge (len key) 16)) by (by apply Hkey).
    rewrite (proj2 (Resource.AdmitBytes_ok _ _)); [eauto|].
    unfold encode_limits, HeaderBytes, AuthBytes. rewrite MaxBodyBytes_val. cbn. lia.
  - rewrite (proj2 (Resource.AdmitBytes_ok _ _)); [eauto|].
    unfold encode_limits, HeaderBytes, AuthBytes. rewrite MaxBodyBytes_val. cbn. lia.
Qed.

(** Frame round trip: what [Encode] produces decodes, under the same key,
    to the frame that was encoded (with the version and the MAC flag filled
    in), also for a receiver that insists on an authenticator whenever one was
    made; encoding never panics. *)
Lemma Encode_Decode f key raw req :
  len (SessionID f) = 16 -> is_u64 (Sequence f) -> 0 <= Flags f ->
  Encode f key = Ok raw -> (req = true -> needs f key false = true) ->
  Decode raw key req = Ok (normalize f key).
Proof. apply Encode_then_Decode. Qed.

(** ** Body codecs *)

Lemma byteZ_list vs : Forall (fun v => 0 <= v < 256) vs -> map byteZ (map byte_of vs) = vs.
Proof.
  induction 1 as [|v vs Hv _ IH]; [done|]. cbn. rewrite IH, byteZ_byte_of, Z.mod_small by lia. done.
Qed.

Lemma byte_list_Z bs : map byte_of (map byteZ bs) = bs.
Proof. induction bs as [|b bs IH]; [done|]. cbn. by rewrite IH, byte_of_byteZ. Qed.

Lemma byteZ_len n : 0 <= n < 256 -> byteZ (byte_of n) = n.
Proof. intros. rewrite byteZ_byte_of. by apply Z.mod_small. Qed.

Lemma suite_good s : suite_bad s = false -> 1 <= len (sbytes s) <= 96.
Proof.
  unfold suite_bad, maxSuiteIDLen. intros E. reflect_bools.
  split; [|lia]. destruct (decide (len (sbytes s) = 0)) as [E0|]; [|pose proof (len_nonneg (sbytes s)); lia].
  apply len_zero_nil in E0. exfalso. by apply H, (sbytes_inj s "").
Qed.

Lemma len_encode_suite s : len (encode_suite s) = 1 + len (sbytes s).
Proof. unfold encode_suite. by rewrite len_cons. Qed.

(** Reading back encoded suites. *)
Lemma parse_suites_encode ss pre acc :
  Forall (fun s => suite_bad s = false) ss ->
  parse_suites (length ss) (pre ++ concat (map encode_suite ss)) (len pre) acc =
  Ok (acc ++ ss, len pre + len (concat (map encode_suite ss))).
Proof.
  intros Hss. revert pre acc. induction Hss as [|s ss Hs _ IH]; intros pre acc.
  { cbn [length parse_suites map concat]. by rewrite app_nil_r, len_nil, Z.add_0_r. }
  apply suite_good in Hs. cbn [length parse_suites map concat].
  set (tl := concat (map encode_suite ss)) in *. pose proof (len_nonneg tl). pose proof (len_nonneg pre).
  assert (Hl : len (pre ++ encode_suite s ++ tl) = len pre + 1 + len (sbytes s) + len tl)
    by (rewrite !len_app, len_encode_suite; lia).
  rewrite Hl. dec_false (len pre + 1 + len (sbytes s) + len tl <=? len pre).
  unfold encode_suite at 1. cbn [app]. rewrite index_app_r by done. cbn [bind].
  rewrite byteZ_len by lia. unfold maxSuiteIDLen.
  dec_false ((len (sbytes s) =? 0) || (96 <? len (sbytes s))).
  dec_false (len pre + 1 + len (sbytes s) + len tl <? len pre + 1 + len (sbytes s)).
  rewrite slice_ok by (rewrite ?Hl; lia). cbn [bind].
  assert (Hpre : pre ++ encode_suite s ++ tl = (pre ++ encode_suite s) ++ tl) by (by rewrite app_assoc).
  replace (sub (pre ++ encode_suite s ++ tl) (len pre + 1) (len pre + 1 + len (sbytes s)))
    with (sbytes s).
  2:{ rewrite sub_app_r by lia. unfold encode_suite. cbn [app].
      change (byte_of (len (sbytes s)) :: sbytes s ++ tl) with ([byte_of (len (sbytes s))] ++ sbytes s ++ tl).
      rewrite sub_app_r by (rewrite len_cons, len_nil; lia). rewrite len_cons, len_nil.
      rewrite sub_app_l by lia. symmetry. apply sub_whole; lia. }
  rewrite String.string_of_list_byte_of_string.
  replace (len pre + 1 + len (sbytes s)) with (len (pre ++ encode_suite s))
    by (rewrite len_app, len_encode_suite; lia).
  rewrite Hpre, IH, <- app_assoc. cbn [app]. rewrite !len_app. do 2 f_equal. lia.
Qed.

(** Everything the suite loop accepts is an encoding. *)
Lemma parse_suites_inv n body off acc ss off' :
  0 <= off <= len body -> parse_suites n body off acc = Ok (ss, off') ->
  exists new, ss = acc ++ new /\ length new = n /\
    Forall (fun s => suite_bad s = false) new /\
    sub body off off' = concat (map encode_suite new) /\ off <= off' <= len body.
Proof.
  revert off acc. induction n as [|n IH]; intros off acc Hoff H; cbn [parse_suites] in H.
  { injection H as <- <-. exists []. rewrite app_nil_r, sub_empty. repeat split; try done; lia. }
  destruct (len body <=? off) eqn:E0; [done|]. reflect_bools.
  destruct (index_sub (E := Error) body off) as (b & Hi & Hsb); [lia..|]. rewrite Hi in H. cbn [bind] in H.
  pose proof (byteZ_range b) as Hb.
  destruct ((byteZ b =? 0) || _) eqn:E1; [done|]. unfold maxSuiteIDLen in E1. reflect_bools.
  destruct (len body <? _) eqn:E2; [done|]. reflect_bools.
  rewrite slice_ok in H by lia. cbn [bind] in H.
  set (s := String.string_of_list_byte (sub body (off + 1) (off + 1 + byteZ b))) in *.
  assert (Hs : sbytes s = sub body (off + 1) (off + 1 + byteZ b))
    by apply String.list_byte_of_string_of_list_byte.
  assert (Hls : len (sbytes s) = byteZ b) by (rewrite Hs, len_sub; lia).
  apply IH in H as (new & -> & Hn & Hf & Hsub & Hr); [|lia].
  exists (s :: new). split; [by rewrite <- app_assoc|]. split; [cbn; lia|]. split.
  { constructor; [|done]. unfold suite_bad, maxSuiteIDLen. rewrite Hls.
    rewrite bool_decide_false; [lia|]. intros E. rewrite E in Hls. change (len (sbytes "")) with 0 in Hls. lia. }
  split; [|lia]. cbn [map concat]. rewrite (sub_split _ _ (off + 1)), (sub_split _ (off + 1) (off + 1 + byteZ b)) by lia.
  rewrite Hsb, Hsub, <- Hs. unfold encode_suite. rewrite Hls, byte_of_byteZ. done.
Qed.

(** What Go's [Version] type guarantees. *)
Definition wf_versions (vers : list Z) : Prop := Forall (fun v => 0 <= v < 256) vers.

Lemma offer_encoded vers ss body :
  EncodeNegotiateOfferBody vers ss = Ok body ->
  1 <= len vers <= 8 /\ len ss <= 8 /\ Forall (fun s => suite_bad s = false) ss /\
  body = ([byte_of (len vers)] ++ map byte_of vers ++ [byte_of (len ss)]) ++
         concat (map encode_suite ss).
Proof.
  unfold EncodeNegotiateOfferBody, maxNegotiateVersions, maxNegotiateSuites. intros H.
  destruct ((len vers =? 0) || _) eqn:E1; [done|]. destruct (8 <? len ss) eqn:E2; [done|].
  destruct (existsb suite_bad ss) eqn:E3; [done|]. pose proof (len_nonneg vers).
  split; [lia|]. split; [lia|]. split.
  - apply Forall_forall. intros s Hs. destruct (suite_bad s) eqn:Eb; [|done].
    assert (existsb suite_bad ss = true); [|congruence].
    apply existsb_exists. exists s. split; [by apply list_elem_of_In|done].
  - rewrite <- !app_assoc. congruence.
Qed.

Lemma ParseOffer_encode vers ss body :
  wf_versions vers -> EncodeNegotiateOfferBody vers ss = Ok body ->
  ParseNegotiateOfferBody body = Ok (vers, ss).
Proof.
  intros Hv H. apply offer_encoded in H as (Hnv & Hns & Hss & ->).
  set (pre := [byte_of (len vers)] ++ map byte_of vers ++ [byte_of (len ss)]).
  set (tl := concat (map encode_suite ss)). pose proof (len_nonneg tl). pose proof (len_nonneg ss).
  assert (Hm : len (map byte_of vers) = len vers) by (unfold len; by rewrite length_map).
  assert (Hlp : len pre = 2 + len vers).
  { unfold pre. rewrite !len_app, Hm, !len_cons, !len_nil. lia. }
  unfold ParseNegotiateOfferBody. rewrite len_app, Hlp.
  dec_false (2 + len vers + len tl <? 2).
  assert (Hi0 : @index Error _ (pre ++ tl) 0 = Ok (byte_of (len vers))) by done.
  rewrite Hi0. cbn [bind]. rewrite byteZ_len by lia. unfold maxNegotiateVersions, maxNegotiateSuites.
  dec_false ((len vers =? 0) || (8 <? len vers)).
  dec_false (2 + len vers + len tl <? 1 + len vers + 1).
  rewrite slice_ok by (rewrite ?len_app, ?Hlp; lia). cbn [bind].
  replace (sub (pre ++ tl) 1 (1 + len vers)) with (map byte_of vers).
  2:{ unfold pre. rewrite sub_app_l by (rewrite ?len_app, ?Hm, ?len_cons, ?len_nil; lia).
      rewrite sub_app_r by done. change (len [byte_of (len vers)]) with 1.
      rewrite sub_app_l by lia. symmetry. apply sub_whole; lia. }
  rewrite byteZ_list by done.
  assert (Hi1 : @index Error _ (pre ++ tl) (1 + len vers) = Ok (byte_of (len ss))).
  { unfold pre. cbn [app]. rewrite <- app_assoc. cbn [app].
    apply (index_app_r (byte_of (len vers) :: map byte_of vers)). rewrite len_cons, Hm. done. }
  rewrite Hi1. cbn [bind]. rewrite byteZ_len by lia. dec_false (8 <? len ss).
  replace (Z.to_nat (len ss)) with (length ss) by (unfold len; lia).
  replace (1 + len vers + 1) with (len pre) by lia.
  unfold tl. rewrite parse_suites_encode by done. cbn [bind]. fold tl.
  rewrite (proj2 (Z.eqb_eq _ _)) by lia. done.
Qed.

Lemma ParseOffer_canonical body vers ss :
  ParseNegotiateOfferBody body = Ok (vers, ss) ->
  EncodeNegotiateOfferBody vers ss = Ok body /\ wf_versions vers.
Proof.
  unfold ParseNegotiateOfferBody, maxNegotiateVersions, maxNegotiateSuites. intros H.
  destruct (len body <? 2) eqn:E0; [done|]. reflect_bools.
  destruct (index_sub (E := Error) body 0) as (b & Hi & Hs0); [lia..|]. rewrite Hi in H. cbn [bind] in H.
  pose proof (byteZ_range b). destruct ((byteZ b =? 0) || _) eqn:E1; [done|].
  destruct (len body <? 1 + byteZ b + 1) eqn:E2; [done|]. reflect_bools.
  rewrite slice_ok in H by lia. cbn [bind] in H.
  destruct (index_sub (E := Error) body (1 + byteZ b)) as (c & Hi1 & Hs1); [lia..|].
  rewrite Hi1 in H. cbn [bind] in H. pose proof (byteZ_range c).
  destruct (8 <? byteZ c) eqn:E3; [done|]. reflect_bools.
  destruct (parse_suites _ _ _ _) as [[ss' off']| |] eqn:Ep; [|done..]. cbn [bind] in H.
  destruct (off' =? len body) eqn:E4; [|done]. cbn [negb] in H. reflect_bools.
  assert (vers = map byteZ (sub body 1 (1 + byteZ b)) /\ ss = ss') as [-> ->] by (split; congruence).
  clear H. apply parse_suites_inv in Ep as (new & -> & Hn & Hf & Hsub & _); [|lia]. cbn [app].
  assert (Hlv : len (map byteZ (sub body 1 (1 + byteZ b))) = byteZ b).
  { pose proof (len_sub body 1 (1 + byteZ b)) as Hl. unfold len in *. rewrite length_map. lia. }
  assert (Hls : len new = byteZ c) by (unfold len; lia).
  split.
  - unfold EncodeNegotiateOfferBody, maxNegotiateVersions, maxNegotiateSuites. rewrite Hlv, Hls.
    dec_false ((byteZ b =? 0) || (8 <? byteZ b)). dec_false (8 <? byteZ c).
    assert (existsb suite_bad new = false) as ->.
    { destruct (existsb suite_bad new) eqn:Ee; [|done]. apply existsb_exists in Ee as (s & Hin & Hb).
      rewrite Forall_forall in Hf. rewrite Hf in Hb; [done|]. by apply list_elem_of_In. }
    rewrite byte_list_Z, !byte_of_byteZ, <- Hsub, <- Hs0, <- Hs1. f_equal.
    rewrite <- (sub_split body (1 + byteZ b)), <- (sub_split body 1), <- (sub_split body 0) by lia.
    apply sub_full. lia.
  - unfold wf_versions. apply Forall_map, Forall_true. apply byteZ_range.
Qed.

(** Negotiation offers have one encoding: a body parses to versions and
    suites exactly when it is what the encoder produces for them, so parsing
    inverts encoding and nothing else is accepted (bad counts, empty or long
    suite names, truncation and trailing bytes are all refused). *)
Lemma NegotiateOffer_bijective vers suites body :
  wf_versions vers ->
  EncodeNegotiateOfferBody vers suites = Ok body <->
  ParseNegotiateOfferBody body = Ok (vers, suites).
Proof.
  intros Hv. split.
  - by apply ParseOffer_encode.
  - intros H. by apply ParseOffer_canonical.
Qed.

Lemma sub_index2 (body : bytes) :
  2 <= len body ->
  exists a b, @index Error _ body 0 = Ok a /\ @index Error _ body 1 = Ok b /\
    body = [a; b] ++ sub body 2 (len body).
Proof.
  intros Hl. destruct body as [|a [|b r]]; rewrite ?len_cons, ?len_nil in Hl; try lia.
  exists a, b. split; [done|]. split; [done|]. cbn [app]. do 2 f_equal.
  pose proof (len_nonneg r). rewrite sub_suffix by lia. done.
Qed.

(** Negotiation accepts have one encoding, in both directions, the empty
    suite included. *)
Lemma NegotiateAccept_bijective vers suite body :
  0 <= vers < 256 ->
  EncodeNegotiateAcceptBody vers suite = Ok body <->
  ParseNegotiateAcceptBody body = Ok (vers, suite).
Proof.
  intros Hv. unfold EncodeNegotiateAcceptBody, ParseNegotiateAcceptBody, maxSuiteIDLen.
  pose proof (len_nonneg (sbytes suite)). split.
  - destruct (vers =? 0) eqn:E0; [done|]. destruct (96 <? _) eqn:E1; [done|]. intros H1.
    assert (body = [byte_of vers; byte_of (len (sbytes suite))] ++ sbytes suite) as -> by congruence.
    rewrite len_app, !len_cons, len_nil. dec_false (1 + (1 + 0) + len (sbytes suite) <? 2).
    change (@index Error _ ([byte_of vers; byte_of (len (sbytes suite))] ++ sbytes suite) 0)
      with (@Ok Error _ (byte_of vers)).
    change (@index Error _ ([byte_of vers; byte_of (len (sbytes suite))] ++ sbytes suite) 1)
      with (@Ok Error _ (byte_of (len (sbytes suite)))).
    cbn [bind]. rewrite !byteZ_len by lia. rewrite E0, E1.
    rewrite (proj2 (Z.eqb_eq _ _)) by lia. cbn [negb].
    destruct (0 <? len (sbytes suite)) eqn:E2.
    + clear H1. rewrite slice_ok; [|lia|lia|len_lia]. cbn [bind].
      rewrite sub_app_r by done.
      change (len [byte_of vers; byte_of (len (sbytes suite))]) with 2.
      rewrite sub_whole by lia. by rewrite String.string_of_list_byte_of_string.
    + assert (suite = ""%string) as ->; [|done]. apply sbytes_inj. apply len_zero_nil. lia.
  - destruct (len body <? 2) eqn:E0; [done|]. reflect_bools.
    destruct (sub_index2 body E0) as (a & b & -> & -> & Hb). cbn [bind].
    pose proof (byteZ_range a). pose proof (byteZ_range b).
    destruct (byteZ a =? 0) eqn:E1; [done|]. destruct (96 <? byteZ b) eqn:E2; [done|].
    destruct (len body =? 2 + byteZ b) eqn:E3; [|done]. cbn [negb]. reflect_bools.
    destruct (0 <? byteZ b) eqn:E4; reflect_bools.
    + rewrite slice_ok by lia. cbn [bind]. intros E.
      assert (vers = byteZ a) as -> by congruence.
      assert (suite = String.string_of_list_byte (sub body 2 (len body))) as -> by congruence.
      rewrite String.list_byte_of_string_of_list_byte, len_sub by lia.
      rewrite (proj2 (Z.eqb_neq _ _)) by done. rewrite (proj2 (Z.ltb_ge _ _)) by lia.
      replace (len body - 2) with (byteZ b) by lia. rewrite !byte_of_byteZ. by rewrite <- Hb.
    + intros E. assert (vers = byteZ a) as -> by congruence.
      assert (suite = ""%string) as -> by congruence.
      rewrite (proj2 (Z.eqb_neq _ _)) by done. change (len (sbytes "")) with 0. change (96 <? 0) with false.
      cbv match. rewrite byte_of_byteZ. f_equal. rewrite Hb.
      assert (byteZ b = 0) as Eb by lia. replace (byte_of 0) with b by (rewrite <- Eb; symmetry; apply byte_of_byteZ).
      cbn [app]. do 2 f_equal. symmetry. replace (len body) with 2 by lia. apply sub_empty.
Qed.

Lemma ParsePeerAuth_encode dir proof :
  dir = "i2r"%string \/ dir = "r2i"%string -> 16 <= len proof ->
  ParsePeerAuthBody (EncodePeerAuthBody dir proof) = Ok (dir, proof).
Proof.
  intros Hd Hp. unfold ParsePeerAuthBody, EncodePeerAuthBody, peerAuthDirLen.
  assert (Hl : len (sbytes dir) = 3) by (by destruct Hd as [-> | ->]).
  rewrite len_app, Hl. dec_false (3 + len proof <? 3 + 16).
  rewrite slice_app_here by done. cbn [bind].
  rewrite String.string_of_list_byte_of_string.
  replace (_ && _) with false by (by destruct Hd as [-> | ->]).
  rewrite slice_ok by (rewrite ?len_app; lia). cbn [bind].
  rewrite sub_app_r by lia. rewrite sub_whole by lia. done.
Qed.

(** ** Data chunks *)

Definition chunk_layout (offset : Z) (data : bytes) : bytes :=
  le_bytes 8 offset ++ le_bytes 4 (len data) ++ data.

Lemma EncodeDataChunkBody_layout offset data :
  len data <= MaxDataChunkBytes -> offset + len data <= MaxUint64 ->
  EncodeDataChunkBody offset data = Ok (chunk_layout offset data).
Proof.
  assert (HM : MaxDataChunkBytes = 1048564) by done. intros Hd Ho. pose proof (len_nonneg data).
  unfold EncodeDataChunkBody, DataChunkHeaderBytes.
  dec_false (MaxDataChunkBytes <? len data). dec_false (MaxUint64 - len data <? offset).
  rewrite u32_small by (unfold is_u32; lia).
  rewrite <- (app_nil_l (zeros (12 + len data))).
  fill_step. fill_step.
  match goal with |- copy_into ?b _ _ _ = _ => assert (Hlb : len b = 12 + len data) end.
  { rewrite !len_app, !len_le_bytes, len_nil, len_zeros; lia. }
  rewrite Hlb. fill_step. rewrite zeros_done by lia. rewrite app_nil_r.
  unfold chunk_layout. by rewrite <- !app_assoc.
Qed.

Lemma ParseDataChunkBody_layout offset data :
  is_u64 offset -> len data <= MaxDataChunkBytes -> offset + len data <= MaxUint64 ->
  ParseDataChunkBody (chunk_layout offset data) = Ok (offset, data).
Proof.
  assert (HM : MaxDataChunkBytes = 1048564) by done. intros Hu Hd Ho. pose proof (len_nonneg data).
  assert (Hl : len (chunk_layout offset data) = 12 + len data) by (unfold chunk_layout; len_lia).
  assert (R0 : sub (chunk_layout offset data) 0 8 = le_bytes 8 offset)
    by (unfold chunk_layout; repeat sub_step; done).
  assert (R1 : sub (chunk_layout offset data) 8 12 = le_bytes 4 (len data))
    by (unfold chunk_layout; repeat sub_step; done).
  assert (R2 : sub (chunk_layout offset data) 12 (12 + len data) = data)
    by (unfold chunk_layout; repeat sub_step; done).
  remember (chunk_layout offset data) as b eqn:Eb. clear Eb.
  unfold ParseDataChunkBody, DataChunkHeaderBytes. dec_false (len b <? 12).
  do 4 read_step. rewrite R0, R1, !le_val_bytes by (done || cbn; lia). rewrite Hl.
  rewrite Z.eqb_refl. cbn [negb]. dec_false (MaxDataChunkBytes <? len data).
  dec_false (MaxUint64 - len data <? offset). read_step. by rewrite R2.
Qed.

Lemma ParseDataChunkBody_inv body offset data :
  ParseDataChunkBody body = Ok (offset, data) ->
  is_u64 offset /\ len data <= MaxDataChunkBytes /\ offset + len data <= MaxUint64 /\
  body = chunk_layout offset data.
Proof.
  assert (HM : MaxDataChunkBytes = 1048564) by done.
  unfold ParseDataChunkBody, DataChunkHeaderBytes. intros H.
  destruct (len body <? 12) eqn:E0; [done|]. reflect_bools.
  repeat (rewrite slice_ok in H by lia; cbn [bind] in H).
  rewrite U64LE_ok in H by (rewrite len_sub; lia). cbn [bind] in H.
  rewrite U32LE_ok in H by (rewrite len_sub; lia). cbn [bind] in H.
  set (n := le_val (sub body 8 12)) in *.
  pose proof (le_val_sub_range body 0 8 ltac:(lia) ltac:(lia) ltac:(lia)) as Ho.
  destruct (12 + n =? len body) eqn:E1; [|done]. cbn [negb] in H.
  destruct (MaxDataChunkBytes <? n) eqn:E2; [done|].
  destruct (MaxUint64 - n <? _) eqn:E3; [done|]. reflect_bools.
  cbn [bind] in H.
  assert (offset = le_val (sub body 0 8) /\ data = sub body 12 (len body)) as [-> ->] by (split; congruence).
  assert (Hn : len (sub body 12 (len body)) = n) by (rewrite len_sub; lia).
  rewrite Hn. split; [done|]. split; [lia|]. split; [lia|].
  unfold chunk_layout. rewrite Hn.
  rewrite <- (le_bytes_sub 8 body 0 8 (le_val (sub body 0 8))) by (done || lia).
  rewrite <- (le_bytes_sub 4 body 8 12 n) by (done || lia).
  rewrite <- (sub_split body 8 12), <- (sub_split body 0 8) by lia. symmetry. apply sub_full. lia.
Qed.

(** Data chunks have one encoding, in both directions: the offset, the
    length and the data are recovered exactly, no chunk whose end would
    overflow a 64-bit offset can be built or read, and neither side panics. *)
Lemma DataChunk_bijective offset data body :
  is_u64 offset ->
  EncodeDataChunkBody offset data = Ok body <-> ParseDataChunkBody body = Ok (offset, data).
Proof.
  intros Ho. split.
  - intros He.
    destruct (decide (len data <= MaxDataChunkBytes /\ offset + len data <= MaxUint64)) as [[Hl Hs]|Hn].
    + rewrite EncodeDataChunkBody_layout in He by done. injection He as <-.
      by apply ParseDataChunkBody_layout.
    + exfalso. unfold EncodeDataChunkBody in He.
      destruct (MaxDataChunkBytes <? len data) eqn:E1; [done|].
      destruct (MaxUint64 - len data <? offset) eqn:E2; [done|]. lia.
  - intros (_ & Hl & Hs & ->)%ParseDataChunkBody_inv. by apply EncodeDataChunkBody_layout.
Qed.

(** ** Witnesses *)

Definition frame_demo : Frame := mkFrame 0 TypeData 0 (zeros 16) 7 (str "body").

Lemma Encode_Decode_witness :
  exists raw, Encode frame_demo [] = Ok raw /\ Decode raw [] false = Ok (normalize frame_demo []).
Proof.
  eexists. split; [reflexivity|].
  apply (Encode_Decode frame_demo [] _ false); try reflexivity.
  - vm_compute. split; congruence.
  - discriminate.
Defined.

Lemma wf_versions_demo : wf_versions [2; 3].
Proof. repeat constructor; lia. Defined.

Lemma NegotiateOffer_bijective_witness :
  exists body, EncodeNegotiateOfferBody [2; 3] [Crypto.SuiteIDAEAD] = Ok body /\
    ParseNegotiateOfferBody body = Ok ([2; 3], [Crypto.SuiteIDAEAD]).
Proof.
  eexists. split; [reflexivity|].
  apply (NegotiateOffer_bijective [2; 3] [Crypto.SuiteIDAEAD]); [exact wf_versions_demo|reflexivity].
Defined.

Lemma NegotiateAccept_bijective_witness :
  exists body, EncodeNegotiateAcceptBody 3 "" = Ok body /\
    ParseNegotiateAcceptBody body = Ok (3, ""%string).
Proof.
  eexists. split; [reflexivity|].
  apply (NegotiateAccept_bijective 3 ""); [lia|reflexivity].
Defined.

Lemma DataChunk_bijective_witness :
  exists body, EncodeDataChunkBody 4096 (str "chunk") = Ok body /\
    ParseDataChunkBody body = Ok (4096, str "chunk").
Proof.
  eexists. split; [reflexivity|].
  apply (DataChunk_bijective 4096 (str "chunk")); [unfold is_u64; lia|reflexivity].
Defined.

End Protocol.
