(* ===== verification/Driver.v ===== *)
(** * The protocol driver (internal/protocol/driver.go)

    [Driver] maps inbound frames onto the session state machine and builds the
    outbound ones.  A method on [*Driver] is a function from the driver to the
    driver after the call and what the call returned; a call that fails returns
    the driver as the failure left it. *)

From S2P Require Import Prelude Sha256 Codec Crypto Observability Session Protocol.
Import Protocol.

Module Driver.

Record Driver := mkDriver {
  Session_ : Session.Session;
  DSessionID : bytes;
  SendSeq : Z;
  RecvSeq : Z;
  MACKey : bytes;
  AEADKey : bytes;
  AuthKey : bytes;
  AuthDir : string;
  ArchiveKey : bytes;
  RequireMAC : bool;
  LastPlaintext : bytes;
  TrackDataChunks : bool;
  NextDataOffset : Z;
  NextSendOffset : Z }.

(** Assignments to one field. *)
Definition set_Session (v : Session.Session) (d : Driver) : Driver :=
  mkDriver v (DSessionID d) (SendSeq d) (RecvSeq d) (MACKey d) (AEADKey d) (AuthKey d) (AuthDir d)
    (ArchiveKey d) (RequireMAC d) (LastPlaintext d) (TrackDataChunks d) (NextDataOffset d)
    (NextSendOffset d).

Definition set_SendSeq (v : Z) (d : Driver) : Driver :=
  mkDriver (Session_ d) (DSessionID d) v (RecvSeq d) (MACKey d) (AEADKey d) (AuthKey d) (AuthDir d)
    (ArchiveKey d) (RequireMAC d) (LastPlaintext d) (TrackDataChunks d) (NextDataOffset d)
    (NextSendOffset d).

Definition set_RecvSeq (v : Z) (d : Driver) : Driver :=
  mkDriver (Session_ d) (DSessionID d) (SendSeq d) v (MACKey d) (AEADKey d) (AuthKey d) (AuthDir d)
    (ArchiveKey d) (RequireMAC d) (LastPlaintext d) (TrackDataChunks d) (NextDataOffset d)
    (NextSendOffset d).

Definition set_AEADKey_field (v : bytes) (d : Driver) : Driver :=
  mkDriver (Session_ d) (DSessionID d) (SendSeq d) (RecvSeq d) (MACKey d) v (AuthKey d) (AuthDir d)
    (ArchiveKey d) (RequireMAC d) (LastPlaintext d) (TrackDataChunks d) (NextDataOffset d)
    (NextSendOffset d).

Definition set_received (data : bytes) (off : Z) (d : Driver) : Driver :=
  mkDriver (Session_ d) (DSessionID d) (SendSeq d) (RecvSeq d) (MACKey d) (AEADKey d) (AuthKey d)
    (AuthDir d) (ArchiveKey d) (RequireMAC d) data (TrackDataChunks d) off (NextSendOffset d).

Definition set_NextSendOffset (v : Z) (d : Driver) : Driver :=
  mkDriver (Session_ d) (DSessionID d) (SendSeq d) (RecvSeq d) (MACKey d) (AEADKey d) (AuthKey d)
    (AuthDir d) (ArchiveKey d) (RequireMAC d) (LastPlaintext d) (TrackDataChunks d)
    (NextDataOffset d) v.

Definition NewDriver (offered : list Z) (sessionID macKey : bytes) (requireMAC : bool) : Driver :=
  mkDriver (Session.New offered) sessionID 1 1 macKey [] [] "" [] requireMAC [] false 0 0.

Definition NewDriverWithSuites (offered : list Z) (suites : list string)
    (sessionID macKey : bytes) (requireMAC : bool) : Driver :=
  let d := NewDriver offered sessionID macKey requireMAC in
  set_Session (Session.set_Transcript (Some Crypto.NewTranscript)
                 (Session.NewWithSuites offered suites)) d.

(** Errors of other packages keep their code. *)
Definition from_session (e : Session.Error) : Error := fail (Session.Code e).

Definition result (A : Type) : Type := Driver * res Error A.

(** Run a session call inside the driver; [k] continues when it succeeds. *)
Definition on_session {A} (d : Driver) (r : Session.result) (k : Driver -> result A) : result A :=
  let d := set_Session r.1 d in
  match r.2 with
  | Ok _ => k d
  | Err e => (d, Err (from_session e))
  | Panic => (d, Panic)
  end.

(** A call that does not change the driver. *)
Definition on_value {A B} (d : Driver) (c : res Error A) (k : A -> result B) : result B :=
  match c with
  | Ok a => k a
  | Err e => (d, Err e)
  | Panic => (d, Panic)
  end.

Definition SetAEADKey (key : bytes) (d : Driver) : result unit :=
  if negb (len key =? Crypto.AEADKeySize) then (d, Err (fail "aead"))
  else (set_AEADKey_field key d, Ok tt).

Definition InstallTrafficKey (rootKey : bytes) (d : Driver) : result unit :=
  if negb (bool_decide (Session.State_ (Session_ d) = Session.StateActive))
  then (d, Err (fail "state")) else
  match Session.Transcript (Session_ d) with
  | None => (d, Err (fail "transcript"))
  | Some t =>
      if bool_decide (Session.SelectedSuite (Session_ d) = ""%string) then (d, Err (fail "suite")) else
      match Crypto.TrafficKey rootKey (Crypto.Digest t) (DSessionID d)
              (Session.SelectedSuite (Session_ d)) with
      | Ok key => SetAEADKey key d
      | Err _ => (d, Err (fail "aead"))
      | Panic => (d, Panic)
      end
  end.

Definition dataAAD (d : Driver) (typ seq : Z) : bytes :=
  FrameMagic ++ le_bytes 2 typ ++ DSessionID d ++ le_bytes 8 seq.

Section Driving.
Context `{Crypto.AEADCipher}.

(** The [TypeData] case of [Handle]. *)
Definition handle_data (d : Driver) (f : Frame) (k : Driver -> result unit) : result unit :=
  let opened :=
    if 0 <? len (AEADKey d) then
      match Crypto.Open (AEADKey d) (Crypto.SequenceNonce (Sequence f))
              (dataAAD d TypeData (Sequence f)) (Body f) with
      | Ok pt => Ok pt
      | Err _ => Err (fail "aead")
      | Panic => Panic
      end
    else Ok (Body f) in
  on_value d opened (fun body =>
  if TrackDataChunks d then
    on_value d (ParseDataChunkBody body) (fun '(off, data) =>
    if negb (off =? NextDataOffset d) then (d, Err (fail "chunk")) else
    let d := set_received data (u64 (off + len data)) d in
    on_session d (Session.AcceptNext (Session_ d)) k)
  else
    let d := set_received body (NextDataOffset d) d in
    on_session d (Session.AcceptNext (Session_ d)) k).

Definition with_offer (vers : list Z) (suites : list string) (s : Session.Session)
    : Session.Session :=
  Session.mkSession (Session.State_ s) vers (Session.Selected s)
    (if 0 <? len suites then suites else Session.OfferedSuites s) (Session.SelectedSuite s)
    (Session.RequireSuite s) (Session.PeerAuthenticated s) (Session.AuthI2R s) (Session.AuthR2I s)
    (Session.ArchiveAuthorized s) (Session.ReceiveSequence s) (Session.MaxAccept s)
    (Session.ReplayAccepted s) (Session.ProductMutation s) (Session.Events s)
    (Session.Transcript s) (Session.AuthBaseDigest s) (Session.AuthBaseSet s)
    (Session.ArchiveBaseDigest s) (Session.ArchiveBaseSet s).

(** The end of [Handle]: [d.RecvSeq++; return nil]. *)
Definition accepted (d : Driver) : result unit :=
  (set_RecvSeq (u64 (RecvSeq d + 1)) d, Ok tt).

Definition Handle (f : Frame) (d : Driver) : result unit :=
  if negb (bool_decide (SessionID f = DSessionID d)) then (d, Err (fail "session")) else
  if negb (Sequence f =? RecvSeq d) then (d, Err (fail "sequence")) else
  if CriticalUnknown (Type_ f) then (d, Err (fail "critical")) else
  let s := Session_ d in
  if Type_ f =? TypeNegotiateOffer then
    if bool_decide (Session.State_ s = Session.StateNew) then
      if 0 <? len (Body f) then
        on_value d (ParseNegotiateOfferBody (Body f)) (fun '(vers, suites) =>
        on_session d (Session.Negotiate (with_offer vers suites s)) accepted)
      else on_session d (Session.Negotiate s) accepted
    else accepted d
  else if Type_ f =? TypeNegotiateAccept then
    let hasBody := 0 <? len (Body f) in
    on_value d (if hasBody then ParseNegotiateAcceptBody (Body f) else Ok (0, ""%string))
      (fun '(wireVers, wireSuite) =>
    let confirm := fun d =>
      if hasBody then on_session d (Session.ConfirmAccept wireVers wireSuite (Session_ d)) accepted
      else accepted d in
    if bool_decide (Session.State_ s = Session.StateNew)
    then on_session d (Session.Negotiate s) confirm
    else confirm d)
  else if Type_ f =? TypePeerAuth then
    if 0 <? len (AuthKey d) then
      on_value d (ParsePeerAuthBody (Body f)) (fun '(dir, proof) =>
      on_session d (Session.AuthenticateProof (AuthKey d) (DSessionID d) dir proof s) accepted)
    else on_session d (Session.Authenticate s) accepted
  else if Type_ f =? TypeArchiveAuth then
    if 0 <? len (ArchiveKey d) then
      on_session d (Session.AuthorizeArchiveProof (ArchiveKey d) (DSessionID d) (Body f) s) accepted
    else on_session d (Session.AuthorizeArchive s) accepted
  else if Type_ f =? TypeActivate then on_session d (Session.Activate s) accepted
  else if Type_ f =? TypeData then handle_data d f accepted
  else if Type_ f =? TypeClose then on_session d (Session.Close s) accepted
  else if Type_ f =? TypeFailure then
    (set_Session (Session.set_State Session.StateFailed s) d, Err (fail "peer"))
  else (d, Err (fail "type")).

Definition EncodeFrame (typ : Z) (body : bytes) (d : Driver) : result bytes :=
  let seq := SendSeq d in
  let sealed :=
    if (typ =? TypeData) && (0 <? len (AEADKey d)) then
      match Crypto.Seal (AEADKey d) (Crypto.SequenceNonce seq) (dataAAD d TypeData seq) body with
      | Ok ct => Ok ct
      | Err _ => Err (fail "aead")
      | Panic => Panic
      end
    else Ok body in
  on_value d sealed (fun body =>
  let flags := if RequireMAC d || (0 <? len (MACKey d)) then FlagRequiresMAC else 0 in
  on_value d (Encode (mkFrame 0 typ flags (DSessionID d) seq body) (MACKey d)) (fun raw =>
  (set_SendSeq (u64 (SendSeq d + 1)) d, Ok raw))).

Definition EncodeNegotiateOffer (vers : list Z) (d : Driver) : result bytes :=
  let suites := Session.OfferedSuites (Session_ d) in
  let suites := if len suites =? 0 then Session.LocalSuites else suites in
  on_value d (EncodeNegotiateOfferBody vers suites) (fun body =>
  EncodeFrame TypeNegotiateOffer body d).

Definition EncodeNegotiateAccept (d : Driver) : result bytes :=
  let send := fun d =>
    if negb (bool_decide (Session.State_ (Session_ d) = Session.StateNegotiated))
    then (d, Err (fail "state"))
    else on_value d (EncodeNegotiateAcceptBody (Session.Selected (Session_ d))
                       (Session.SelectedSuite (Session_ d))) (fun body =>
         EncodeFrame TypeNegotiateAccept body d) in
  if bool_decide (Session.State_ (Session_ d) = Session.StateNew)
  then on_session d (Session.Negotiate (Session_ d)) send
  else send d.

Definition EncodeDataChunk (data : bytes) (d : Driver) : result bytes :=
  on_value d (EncodeDataChunkBody (NextSendOffset d) data) (fun body =>
  let '(d', r) := EncodeFrame TypeData body d in
  match r with
  | Ok raw => (set_NextSendOffset (u64 (NextSendOffset d' + len data)) d', Ok raw)
  | Err e => (d', Err e)
  | Panic => (d', Panic)
  end).

(** [EncodeFrame] followed by a session call on the sender's own session. *)
Definition send_then (r : result bytes) (call : Session.Session -> Session.result) : result bytes :=
  let '(d, c) := r in
  on_value d c (fun raw => on_session d (call (Session_ d)) (fun d => (d, Ok raw))).

Definition EncodePeerAuth (d : Driver) : result bytes :=
  if len (AuthKey d) =? 0 then (d, Err (fail "auth")) else
  let dir := if bool_decide (AuthDir d = ""%string) then "i2r"%string else AuthDir d in
  on_value d (map_err from_session
                (Session.MakeAuthProof (AuthKey d) (DSessionID d) dir (Session_ d))) (fun proof =>
  send_then (EncodeFrame TypePeerAuth (EncodePeerAuthBody dir proof) d)
    (Session.AuthenticateProof (AuthKey d) (DSessionID d) dir proof)).

Definition EncodeArchiveAuth (d : Driver) : result bytes :=
  if len (ArchiveKey d) =? 0 then (d, Err (fail "archive")) else
  on_value d (map_err from_session
                (Session.MakeArchiveProof (ArchiveKey d) (DSessionID d) (Session_ d))) (fun proof =>
  send_then (EncodeFrame TypeArchiveAuth proof d)
    (Session.AuthorizeArchiveProof (ArchiveKey d) (DSessionID d) proof)).

Definition DecodeAndHandle (raw : bytes) (d : Driver) : result Frame :=
  on_value d (Decode raw (MACKey d) (RequireMAC d)) (fun f =>
  let '(d, r) := Handle f d in
  match r with
  | Ok _ => (d, Ok f)
  | Err e => (d, Err e)
  | Panic => (d, Panic)
  end).

End Driving.

(** ** Calls on a driver *)

Inductive call :=
| CInbound (raw : bytes)
| CSetAEADKey (key : bytes)
| CInstallTrafficKey (rootKey : bytes)
| CFrame (typ : Z) (body : bytes)
| COffer (vers : list Z)
| CAccept
| CDataChunk (data : bytes)
| CPeerAuth
| CArchiveAuth.

Section Safety.
Context `{Crypto.AEADCipher}.

(** The driver after a call, whatever it returned. *)
Definition dexec (d : Driver) (c : call) : Driver :=
  match c with
  | CInbound raw => (DecodeAndHandle raw d).1
  | CSetAEADKey key => (SetAEADKey key d).1
  | CInstallTrafficKey rootKey => (InstallTrafficKey rootKey d).1
  | CFrame typ body => (EncodeFrame typ body d).1
  | COffer vers => (EncodeNegotiateOffer vers d).1
  | CAccept => (EncodeNegotiateAccept d).1
  | CDataChunk data => (EncodeDataChunk data d).1
  | CPeerAuth => (EncodePeerAuth d).1
  | CArchiveAuth => (EncodeArchiveAuth d).1
  end.

Definition dok (d : Driver) : Prop := Session.ok (Session_ d).

Lemma with_offer_ok vers suites s :
  Session.ok s -> Session.State_ s = Session.StateNew -> Session.ok (with_offer vers suites s).
Proof.
  intros [(H1 & H2 & H3 & H4 & H5 & H6 & _ & H8 & H9 & H10 & H11) Hm] Hst.
  split; [|done]. unfold Session.Spec.Safe. cbn in *. rewrite Hst in *. split_and!; try done; apply H8.
Qed.

Lemma failed_ok s : Session.ok s -> Session.ok (Session.set_State Session.StateFailed s).
Proof.
  intros [(H1 & _ & _ & H4 & H5 & H6 & _ & H8 & _ & _ & _) Hm].
  split; [|done]. unfold Session.Spec.Safe. cbn in *. split_and!; try done; try apply H8; intros; by right.
Qed.

Lemma on_session_dok {A} d o s (k : Driver -> result A) :
  Session.ok s -> (forall d', dok d' -> dok (k d').1) ->
  dok (on_session d (Session.exec o s) k).1.
Proof.
  intros Hs Hk. unfold on_session. pose proof (Session.exec_ok o s Hs).
  destruct (Session.exec o s).2; [by apply Hk|done..].
Qed.

Lemma on_value_dok {A B} d (c : res Error A) (k : A -> result B) :
  dok d -> (forall a, dok (k a).1) -> dok (on_value d c k).1.
Proof. intros Hd Hk. unfold on_value. destruct c; [apply Hk|done..]. Qed.

Lemma EncodeFrame_session typ body d : Session_ (EncodeFrame typ body d).1 = Session_ d.
Proof. unfold EncodeFrame, on_value. repeat case_match; done. Qed.

Lemma EncodeFrame_dok typ body d : dok d -> dok (EncodeFrame typ body d).1.
Proof. unfold dok. by rewrite EncodeFrame_session. Qed.

Lemma handle_data_dok d f k :
  dok d -> (forall d', dok d' -> dok (k d').1) -> dok (handle_data d f k).1.
Proof.
  intros Hd Hk. unfold handle_data. apply on_value_dok; [done|]. intros body.
  destruct (TrackDataChunks d).
  - apply on_value_dok; [done|]. intros [off data]. case_match; [done|].
    by apply (on_session_dok _ Session.OpAcceptNext).
  - by apply (on_session_dok _ Session.OpAcceptNext).
Qed.

Lemma Handle_dok f d : dok d -> dok (Handle f d).1.
Proof.
  intros Hd. unfold Handle.
  assert (Hacc : forall d', dok d' -> dok (accepted d').1) by done. cbv zeta.
  destruct (negb _); [done|]. destruct (negb _); [done|]. destruct (CriticalUnknown _); [done|].
  case_if.
  { case_bool_decide as Hst; [|by apply Hacc]. case_if.
    - apply on_value_dok; [done|]. intros [vers suites].
      apply (on_session_dok _ Session.OpNegotiate); [|done]. by apply with_offer_ok.
    - by apply (on_session_dok _ Session.OpNegotiate). }
  case_if.
  { apply on_value_dok; [done|]. intros [v su].
    assert (Hc : forall d', dok d' -> dok (if 0 <? len (Body f)
      then on_session d' (Session.ConfirmAccept v su (Session_ d')) accepted else accepted d').1).
    { intros d' Hd'. case_if; [|by apply Hacc]. by apply (on_session_dok _ (Session.OpConfirmAccept v su)). }
    case_if; [|by apply Hc]. by apply (on_session_dok _ Session.OpNegotiate). }
  case_if.
  { case_if; [|by apply (on_session_dok _ Session.OpAuthenticate)].
    apply on_value_dok; [done|]. intros [dir proof].
    by apply (on_session_dok _ (Session.OpAuthenticateProof (AuthKey d) (DSessionID d) dir proof)). }
  case_if.
  { case_if; [|by apply (on_session_dok _ Session.OpAuthorizeArchive)].
    by apply (on_session_dok _ (Session.OpAuthorizeArchiveProof (ArchiveKey d) (DSessionID d) (Body f))). }
  case_if; [by apply (on_session_dok _ Session.OpActivate)|].
  case_if; [by apply handle_data_dok|].
  case_if; [by apply (on_session_dok _ Session.OpClose)|].
  case_if; [|done]. by apply failed_ok.
Qed.

Lemma send_then_dok r o (Hr : dok r.1) :
  dok (send_then r (Session.exec o)).1.
Proof.
  unfold send_then. destruct r as [d c]. apply on_value_dok; [done|]. intros raw.
  by apply on_session_dok.
Qed.

Lemma dexec_dok d c : dok d -> dok (dexec d c).
Proof.
  intros Hd. destruct c; cbn [dexec].
  - unfold DecodeAndHandle. apply on_value_dok; [done|]. intros f.
    pose proof (Handle_dok f d Hd). destruct (Handle f d) as [d' []]; done.
  - unfold SetAEADKey. by case_match.
  - unfold InstallTrafficKey, SetAEADKey. repeat case_match; done.
  - by apply EncodeFrame_dok.
  - unfold EncodeNegotiateOffer. apply on_value_dok; [done|]. intros. by apply EncodeFrame_dok.
  - unfold EncodeNegotiateAccept.
    assert (Hs : forall d', dok d' -> dok (if negb (bool_decide (Session.State_ (Session_ d') = Session.StateNegotiated))
      then (d', Err (fail "state"))
      else on_value d' (EncodeNegotiateAcceptBody (Session.Selected (Session_ d'))
                       (Session.SelectedSuite (Session_ d'))) (fun body =>
         EncodeFrame TypeNegotiateAccept body d')).1).
    { intros d' Hd'. case_if; [done|]. apply on_value_dok; [done|]. intros. by apply EncodeFrame_dok. }
    case_if; [|by apply Hs]. by apply (on_session_dok _ Session.OpNegotiate).
  - unfold EncodeDataChunk. apply on_value_dok; [done|]. intros body.
    pose proof (EncodeFrame_dok TypeData body d Hd). destruct (EncodeFrame TypeData body d) as [d' []]; done.
  - unfold EncodePeerAuth. case_if; [done|]. apply on_value_dok; [done|]. intros proof.
    apply (send_then_dok _ (Session.OpAuthenticateProof (AuthKey d) (DSessionID d) _ proof)).
    by apply EncodeFrame_dok.
  - unfold EncodeArchiveAuth. case_if; [done|]. apply on_value_dok; [done|]. intros proof.
    apply (send_then_dok _ (Session.OpAuthorizeArchiveProof (ArchiveKey d) (DSessionID d) proof)).
    by apply EncodeFrame_dok.
Qed.

(** Safety against a hostile peer: whatever bytes arrive, in whatever
    order, interleaved with whatever the local side sends or installs, the
    session inside the driver never violates its safety invariants. *)
Lemma driver_session_safe cs d :
  Session.initial (Session_ d) ->
  Session.Invariants (Session_ (fold_left dexec cs d)) = Ok tt.
Proof.
  intros Hi. apply Session.ok_Invariants.
  assert (Hd : dok d) by (by apply Session.initial_ok). clear Hi.
  change (dok (fold_left dexec cs d)). revert d Hd.
  induction cs as [|c cs IH]; intros d Hd; [done|]. apply IH. by apply dexec_dok.
Qed.

End Safety.

(** ** Ordering *)

Section Ordering.
Context `{Crypto.AEADCipher}.

(** The effect of a call on the receive counter and the fixed configuration. *)
Definition config (d : Driver) := (DSessionID d, MACKey d, AEADKey d, RequireMAC d, TrackDataChunks d).

Definition steps_to (d : Driver) (r : result unit) : Prop :=
  config r.1 = config d /\ SendSeq r.1 = SendSeq d /\
  RecvSeq r.1 = match r.2 with Ok _ => u64 (RecvSeq d + 1) | _ => RecvSeq d end.

Lemma accepted_steps d d' :
  config d' = config d -> SendSeq d' = SendSeq d -> RecvSeq d' = RecvSeq d ->
  steps_to d (accepted d').
Proof. intros Hc Hs Hr. unfold steps_to, accepted. cbn. by rewrite Hr. Qed.

Lemma on_session_steps d d0 r (k : Driver -> result unit) :
  config d0 = config d -> SendSeq d0 = SendSeq d -> RecvSeq d0 = RecvSeq d ->
  (forall s, steps_to d (k (set_Session s d0))) ->
  steps_to d (on_session d0 r k).
Proof. intros Hc Hs Hr Hk. unfold on_session. destruct r.2; [apply Hk|done..]. Qed.

Lemma on_value_steps {A} d (c : res Error A) (k : A -> result unit) :
  (forall a, steps_to d (k a)) -> steps_to d (on_value d c k).
Proof. intros Hk. unfold on_value. destruct c; [apply Hk|done..]. Qed.

Lemma Handle_steps f d : steps_to d (Handle f d).
Proof.
  assert (Ha : forall d0, config d0 = config d -> SendSeq d0 = SendSeq d -> RecvSeq d0 = RecvSeq d ->
    forall r, steps_to d (on_session d0 r accepted)).
  { intros. apply on_session_steps; [done..|]. intros. by apply accepted_steps. }
  unfold Handle. cbv zeta. repeat (case_if; [done|]).
  case_if. { repeat case_if; [apply on_value_steps; intros []|..]; by auto using accepted_steps. }
  case_if.
  { apply on_value_steps. intros [v su].
    assert (Hc : forall d0, config d0 = config d -> SendSeq d0 = SendSeq d -> RecvSeq d0 = RecvSeq d ->
      steps_to d (if 0 <? len (Body f)
        then on_session d0 (Session.ConfirmAccept v su (Session_ d0)) accepted else accepted d0)).
    { intros. case_if; [by apply Ha|by apply accepted_steps]. }
    case_if; [|by apply Hc]. apply on_session_steps; [done..|]. intros. by apply Hc. }
  case_if. { case_if; [apply on_value_steps; intros []|]; auto. }
  case_if. { case_if; auto. }
  case_if; [by apply Ha|].
  case_if.
  { unfold handle_data. apply on_value_steps. intros body. case_if; [|by apply Ha].
    apply on_value_steps. intros [off data]. case_if; [done|]. by apply Ha. }
  case_if; [by apply Ha|]. by case_if.
Qed.

Lemma Handle_Ok_sequence f d : (Handle f d).2 = Ok tt -> Sequence f = RecvSeq d.
Proof.
  unfold Handle. case_if; [done|]. destruct (Sequence f =? RecvSeq d) eqn:E; [|done].
  reflect_bools. done.
Qed.

(** Feed inbound bytes to a driver and collect the frames it accepts. *)
Fixpoint receive (d : Driver) (raws : list bytes) : Driver * list Frame :=
  match raws with
  | [] => (d, [])
  | raw :: raws =>
      let '(d, r) := DecodeAndHandle raw d in
      let '(d, fs) := receive d raws in
      (d, match r with Ok f => f :: fs | _ => fs end)
  end.

(** Inbound ordering: whatever bytes arrive, the frames a driver accepts
    carry consecutive sequence numbers from its receive counter on; replayed,
    reordered and skipped frames are refused and do not move the counter. *)
Lemma receive_in_order d raws d' fs :
  is_u64 (RecvSeq d) -> RecvSeq d + len raws <= MaxUint64 -> receive d raws = (d', fs) ->
  map Sequence fs = seqZ (RecvSeq d) (len fs) /\ RecvSeq d' = RecvSeq d + len fs.
Proof.
  unfold MaxUint64. intros Hu Hr. revert d fs Hu Hr.
  induction raws as [|raw raws IH]; intros d fs Hu Hr Hrec; cbn [receive] in Hrec.
  { injection Hrec as <- <-. rewrite len_nil. split; [done|lia]. }
  rewrite len_cons in Hr. pose proof (len_nonneg raws).
  destruct (DecodeAndHandle raw d) as [d1 r] eqn:E.
  destruct (receive d1 raws) as [d2 fs2] eqn:E2.
  assert (Hstep : match r with Ok f => Sequence f = RecvSeq d /\ RecvSeq d1 = RecvSeq d + 1
                          | _ => RecvSeq d1 = RecvSeq d end).
  { unfold DecodeAndHandle, on_value in E. destruct (Decode _ _ _) as [f|e|]; [|by injection E as <- <-..].
    pose proof (Handle_steps f d) as (_ & _ & Hs). pose proof (Handle_Ok_sequence f d) as Hq.
    destruct (Handle f d) as [d3 [[]|e|]]; injection E as <- <-; cbn in *; [|done..].
    rewrite u64_small in Hs by (unfold is_u64 in *; lia). auto. }
  unfold is_u64 in Hu.
  destruct r as [f|e|]; injection Hrec as <- <-.
  - destruct Hstep as [Hf H1].
    apply IH in E2 as [Hm Hd]; [|unfold is_u64; lia|lia]. rewrite len_cons. pose proof (len_nonneg fs2).
    cbn [map]. rewrite seqZ_cons by lia. split; [|lia]. rewrite Hf, Hm, H1. do 2 f_equal. lia.
  - apply IH in E2 as [Hm Hd]; [|unfold is_u64; lia|lia]. rewrite Hstep in *. done.
  - apply IH in E2 as [Hm Hd]; [|unfold is_u64; lia|lia]. rewrite Hstep in *. done.
Qed.

End Ordering.

(** ** Chunked transfer *)

Section Transfer.
Context `{Crypto.AEADLaws}.

Definition auth_flags (d : Driver) : Z :=
  if RequireMAC d || (0 <? len (MACKey d)) then FlagRequiresMAC else 0.

(** A configuration that can send: the keys have the lengths the codec asks for. *)
Definition sendable (d : Driver) : Prop :=
  len (DSessionID d) = 16 /\
  (RequireMAC d || (0 <? len (MACKey d)) = true -> 16 <= len (MACKey d)) /\
  (len (AEADKey d) = 0 \/ len (AEADKey d) = Crypto.AEADKeySize).

(** The body as it goes into the frame. *)
Definition sealed (d : Driver) (typ seq : Z) (body : bytes) : bytes :=
  if (typ =? TypeData) && (0 <? len (AEADKey d))
  then Crypto.aead_Seal (AEADKey d) (Crypto.SequenceNonce seq) (dataAAD d TypeData seq) body
  else body.

Definition sent_frame (d : Driver) (typ : Z) (body : bytes) : Frame :=
  normalize (mkFrame 0 typ (auth_flags d) (DSessionID d) (SendSeq d)
               (sealed d typ (SendSeq d) body)) (MACKey d).

Lemma len_sealed d typ seq body : len body <= len (sealed d typ seq body) <= len body + 16.
Proof. unfold sealed. case_if; [rewrite Crypto.aead_seal_len|]; lia. Qed.

Lemma auth_needs d typ body :
  needs (mkFrame 0 typ (auth_flags d) (DSessionID d) (SendSeq d) body) (MACKey d) false =
  RequireMAC d || (0 <? len (MACKey d)).
Proof.
  unfold needs, auth_flags. cbn [Flags]. destruct (RequireMAC d); [done|]. cbn [orb].
  by destruct (0 <? len (MACKey d)).
Qed.

(** What a driver sends, a driver with the same keys decodes. *)
Lemma EncodeFrame_delivers d typ body :
  sendable d -> is_u64 (SendSeq d) -> known typ = true -> len body <= MaxBodyBytes - 16 ->
  exists raw, EncodeFrame typ body d = (set_SendSeq (u64 (SendSeq d + 1)) d, Ok raw) /\
    Decode raw (MACKey d) (RequireMAC d) = Ok (sent_frame d typ body).
Proof.
  intros (Hsid & Hkey & Hak) Hs Hk Hb. rewrite MaxBodyBytes_val in Hb.
  pose proof (len_sealed d typ (SendSeq d) body) as Hlen.
  destruct (Encode_ok (mkFrame 0 typ (auth_flags d) (DSessionID d) (SendSeq d)
    (sealed d typ (SendSeq d) body)) (MACKey d)) as [raw Hraw]; try done.
  { cbn. unfold auth_flags, FlagRequiresMAC. case_if; auto. }
  { cbn [Body]. rewrite MaxBodyBytes_val. lia. }
  { rewrite auth_needs. done. }
  exists raw. split.
  - unfold EncodeFrame. fold (auth_flags d).
    assert (Hseal : (if (typ =? TypeData) && (0 <? len (AEADKey d)) then
      match Crypto.Seal (AEADKey d) (Crypto.SequenceNonce (SendSeq d))
        (dataAAD d TypeData (SendSeq d)) body with
      | Ok ct => Ok ct | Err _ => Err (fail "aead") | Panic => Panic end
      else Ok body) = Ok (sealed d typ (SendSeq d) body)).
    { unfold sealed. destruct (_ && _) eqn:E; [|done]. reflect_bools. unfold Crypto.Seal.
      rewrite Crypto.len_SequenceNonce. destruct Hak as [Hak|Hak]; [lia|]. rewrite Hak, !Z.eqb_refl.
      cbn [negb]. change (Z.shiftl 1 20) with 1048576. by rewrite (proj2 (Z.ltb_ge _ _)) by lia. }
    rewrite Hseal. cbn [on_value]. by rewrite Hraw.
  - apply Encode_then_Decode; [done|done| |done|].
    + cbn. unfold auth_flags, FlagRequiresMAC. case_if; lia.
    + intros Hr. rewrite auth_needs, Hr. done.
Qed.

(** Opening what was sealed for the same sequence number. *)
Lemma open_sealed a b body :
  sendable a -> AEADKey b = AEADKey a -> DSessionID b = DSessionID a ->
  (if 0 <? len (AEADKey b) then
     match Crypto.Open (AEADKey b) (Crypto.SequenceNonce (SendSeq a))
             (dataAAD b TypeData (SendSeq a)) (sealed a TypeData (SendSeq a) body) with
     | Ok pt => Ok pt
     | Err _ => Err (fail "aead")
     | Panic => Panic
     end
   else Ok (sealed a TypeData (SendSeq a) body)) = Ok body.
Proof.
  intros (_ & _ & Hak) Hk Hsid. unfold dataAAD, sealed. rewrite Hk, Hsid.
  change (TypeData =? TypeData) with true. cbn [andb].
  destruct (0 <? len (AEADKey a)) eqn:E; [|done]. reflect_bools.
  destruct Hak as [Hak|Hak]; [lia|]. unfold Crypto.Open.
  rewrite Hak, Crypto.len_SequenceNonce, !Z.eqb_refl. cbn [negb].
  unfold dataAAD. by rewrite Crypto.aead_open_seal by (done || apply Crypto.len_SequenceNonce).
Qed.

(** A data frame of [a] at a receiver with the same keys and the next sequence
    number: the plaintext reaches the chunk tracking and the session. *)
Lemma Handle_sent a b body :
  sendable a -> AEADKey b = AEADKey a -> DSessionID b = DSessionID a -> RecvSeq b = SendSeq a ->
  Handle (sent_frame a TypeData body) b =
  if TrackDataChunks b then
    on_value b (ParseDataChunkBody body) (fun '(off, data) =>
    if negb (off =? NextDataOffset b) then (b, Err (fail "chunk")) else
    let b := set_received data (u64 (off + len data)) b in
    on_session b (Session.AcceptNext (Session_ b)) accepted)
  else
    let b := set_received body (NextDataOffset b) b in
    on_session b (Session.AcceptNext (Session_ b)) accepted.
Proof.
  intros Hsa Hk Hsid Hrs.
  unfold Handle, sent_frame, normalize. cbn [SessionID Sequence Type_ Body].
  rewrite bool_decide_true by (by rewrite Hsid). rewrite Hrs, Z.eqb_refl. cbn [negb].
  change (CriticalUnknown TypeData) with false. cbv match.
  change (TypeData =? TypeNegotiateOffer) with false. change (TypeData =? TypeNegotiateAccept) with false.
  change (TypeData =? TypePeerAuth) with false. change (TypeData =? TypeArchiveAuth) with false.
  change (TypeData =? TypeActivate) with false. change (TypeData =? TypeData) with true. cbv match.
  unfold handle_data. cbn [SessionID Sequence Type_ Body].
  by rewrite open_sealed.
Qed.

(** The two ends of a transfer from [a] to [b], in step. *)
Definition transferring (a b : Driver) : Prop :=
  sendable a /\ config b = (DSessionID a, MACKey a, AEADKey a, RequireMAC a, true) /\
  RecvSeq b = SendSeq a /\ NextDataOffset b = NextSendOffset a /\
  is_u64 (SendSeq a) /\ is_u64 (NextSendOffset a) /\
  Session.State_ (Session_ b) = Session.StateActive /\ 0 <= Session.ReceiveSequence (Session_ b) /\
  Session.accept_limit (Session_ b) <= MaxUint64.

(** How many more messages the receiver's session accepts. *)
Definition budget (b : Driver) : Z :=
  Session.accept_limit (Session_ b) - Session.ReceiveSequence (Session_ b).

Definition max_chunk : Z := MaxBodyBytes - DataChunkHeaderBytes - 16.

Lemma transfer_step a b data :
  transferring a b -> 0 < budget b -> len data <= max_chunk ->
  NextSendOffset a + len data <= MaxUint64 -> SendSeq a < MaxUint64 ->
  exists a' b' raw f,
    EncodeDataChunk data a = (a', Ok raw) /\ DecodeAndHandle raw b = (b', Ok f) /\
    LastPlaintext b' = data /\ NextDataOffset b' = NextDataOffset b + len data /\
    transferring a' b' /\ budget b' = budget b - 1 /\ SendSeq a' = SendSeq a + 1.
Proof.
  assert (HM : MaxBodyBytes = 1048576) by done. assert (HD : MaxDataChunkBytes = 1048564) by done.
  unfold max_chunk, DataChunkHeaderBytes, MaxUint64, budget.
  intros (Hsa & Hcfg & Hrs & Hof & Hu & Huo & Hst & Hrq & Hlim) Hbud Hd Hoff Hseq.
  pose proof (len_nonneg data).
  unfold config in Hcfg. injection Hcfg as C1 C2 C3 C4 C5. unfold is_u64, MaxUint64 in *.
  set (body := chunk_layout (NextSendOffset a) data).
  assert (Hlb : len body = 12 + len data) by (unfold body, chunk_layout; len_lia).
  destruct (EncodeFrame_delivers a TypeData body) as (raw & He & Hdec); [done|done|done|lia|].
  set (a' := set_NextSendOffset (NextSendOffset a + len data) (set_SendSeq (SendSeq a + 1) a)).
  set (s' := Session.set_ProductMutation true
    (Session.set_ReceiveSequence (Session.ReceiveSequence (Session_ b) + 1) (Session_ b))).
  set (b' := set_RecvSeq (RecvSeq b + 1) (set_Session s'
    (set_received data (NextSendOffset a + len data) b))).
  exists a', b', raw, (sent_frame a TypeData body). split.
  { unfold EncodeDataChunk. rewrite EncodeDataChunkBody_layout by (unfold MaxUint64; lia).
    cbn [on_value]. fold body. rewrite He. cbn [NextSendOffset set_SendSeq].
    rewrite !u64_small by (unfold is_u64; lia). done. }
  split.
  { unfold DecodeAndHandle. rewrite C2, C4, Hdec. cbn [on_value].
    assert (Hh : Handle (sent_frame a TypeData body) b = (b', Ok tt)); [|by rewrite Hh].
    rewrite Handle_sent, C5 by done. unfold body. rewrite ParseDataChunkBody_layout by (unfold is_u64, MaxUint64; lia).
    cbn [on_value]. rewrite Hof, Z.eqb_refl. cbn [negb].
    rewrite u64_small by (unfold is_u64; lia). cbn [Session_ set_received].
    unfold Session.AcceptNext. rewrite bool_decide_true by done. cbn [negb].
    rewrite (proj2 (Z.leb_gt _ _)) by lia. rewrite u64_small by (unfold is_u64; lia).
    unfold on_session. cbn [fst snd]. unfold accepted. cbn [RecvSeq set_Session set_received].
    rewrite u64_small by (unfold is_u64; lia). done. }
  split; [done|]. split; [cbn -[Z.add Z.sub]; lia|]. split; [|split; [cbn -[Z.add Z.sub]; unfold Session.accept_limit; cbn -[Z.add Z.sub]; lia|done]].
  split; [done|]. split; [unfold config; cbn; by rewrite C1, C2, C3, C4, C5|].
  split; [cbn -[Z.add Z.sub]; lia|]. split; [cbn -[Z.add Z.sub]; lia|]. split; [unfold is_u64; cbn -[Z.add Z.sub]; lia|].
  split; [unfold is_u64; cbn -[Z.add Z.sub]; lia|]. split; [done|]. split; [cbn -[Z.add Z.sub]; lia|]. done.
Qed.

(** Send the chunks from [a] one by one and collect what [b] receives. *)
Fixpoint transfer (a b : Driver) (chunks : list bytes) : Driver * res Error (list bytes) :=
  match chunks with
  | [] => (b, Ok [])
  | c :: chunks =>
      let '(a, r) := EncodeDataChunk c a in
      on_value b r (fun raw =>
      let '(b, r) := DecodeAndHandle raw b in
      on_value b r (fun _ =>
      let got := LastPlaintext b in
      let '(b, r) := transfer a b chunks in
      on_value b r (fun rest => (b, Ok (got :: rest)))))
  end.

(** Content transfer: chunks sent by one end of an active session arrive at
    the other end complete, unaltered and in order (sealed when there is a
    traffic key, authenticated when there is a MAC key), and the receiver's
    offset advances by exactly the bytes delivered. *)
Lemma transfer_delivers a b chunks :
  transferring a b -> len chunks <= budget b -> Forall (fun c => len c <= max_chunk) chunks ->
  NextSendOffset a + len (concat chunks) <= MaxUint64 -> SendSeq a + len chunks <= MaxUint64 ->
  exists b', transfer a b chunks = (b', Ok chunks) /\
    NextDataOffset b' = NextDataOffset b + len (concat chunks).
Proof.
  intros Ht Hb Hf. revert a b Ht Hb. induction Hf as [|c chunks Hc Hf IH]; intros a b Ht Hb Ho Hs.
  { exists b. split; [done|]. cbn [concat]. rewrite len_nil. lia. }
  cbn [concat] in *. rewrite len_app in Ho |- *. rewrite len_cons in Hb, Hs.
  pose proof (len_nonneg chunks). pose proof (len_nonneg (concat chunks)).
  destruct (transfer_step a b c Ht) as (a1 & b1 & raw & f & He & Hd & Hl & Hn & Ht1 & Hb1 & Hs1);
    [lia|done|lia|lia|].
  pose proof Ht as (_ & _ & _ & Hof & _). pose proof Ht1 as (_ & _ & _ & Hof1 & _).
  destruct (IH a1 b1 Ht1) as (b2 & Htr & Hn2); [lia|lia|lia|].
  exists b2. split; [|lia]. cbn [transfer]. rewrite He. cbn [on_value]. rewrite Hd. cbn [on_value].
  rewrite Htr. cbn [on_value]. by rewrite Hl.
Qed.

(** ** Two defects of the driver *)

(** A refused data frame moves the transfer offset: when the session has
    reached its message limit, a well-formed next chunk is rejected, yet the
    expected offset advances past it, so that after the error the same chunk
    is a replay and the following one is accepted as contiguous. *)
Lemma rejected_chunk_advances_offset a b data :
  transferring a b -> budget b = 0 -> len data <= max_chunk ->
  NextSendOffset a + len data <= MaxUint64 ->
  exists a' b' raw,
    EncodeDataChunk data a = (a', Ok raw) /\
    DecodeAndHandle raw b = (b', Err (fail "limit")) /\
    RecvSeq b' = RecvSeq b /\ NextDataOffset b' = NextDataOffset b + len data.
Proof.
  assert (HM : MaxBodyBytes = 1048576) by done. assert (HD : MaxDataChunkBytes = 1048564) by done.
  unfold max_chunk, DataChunkHeaderBytes, MaxUint64, budget.
  intros (Hsa & Hcfg & Hrs & Hof & Hu & Huo & Hst & Hrq & Hlim) Hbud Hd Hoff.
  pose proof (len_nonneg data). unfold config in Hcfg. injection Hcfg as C1 C2 C3 C4 C5.
  unfold is_u64, MaxUint64 in *. set (body := chunk_layout (NextSendOffset a) data).
  assert (Hlb : len body = 12 + len data) by (unfold body, chunk_layout; len_lia).
  destruct (EncodeFrame_delivers a TypeData body) as (raw & He & Hdec); [done|done|done|lia|].
  eexists _, _, raw. split.
  { unfold EncodeDataChunk. rewrite EncodeDataChunkBody_layout by (unfold MaxUint64; lia).
    cbn [on_value]. fold body. rewrite He. done. }
  split.
  { unfold DecodeAndHandle. rewrite C2, C4, Hdec. cbn [on_value].
    assert (Hh : Handle (sent_frame a TypeData body) b =
      (set_Session (Session_ b) (set_received data (NextSendOffset a + len data) b),
       Err (fail "limit"))); [|by rewrite Hh].
    rewrite Handle_sent, C5 by done. unfold body. rewrite ParseDataChunkBody_layout by (unfold is_u64, MaxUint64; lia).
    cbn [on_value]. rewrite Hof, Z.eqb_refl. cbn [negb].
    rewrite u64_small by (unfold is_u64; lia). cbn [Session_ set_received].
    unfold Session.AcceptNext. rewrite bool_decide_true by done. cbn [negb].
    rewrite (proj2 (Z.leb_le _ _)) by lia. done. }
  split; [done|]. cbn -[Z.add Z.sub]. lia.
Qed.

(** Frames carry no direction: an active driver whose two counters agree
    accepts its own sealed data frame, reflected back to it, as a frame of the
    peer, because both directions share the session key, the MAC key, the nonce
    of a sequence number and the additional data. *)
Lemma reflected_frame_accepted d body :
  sendable d -> is_u64 (SendSeq d) -> RecvSeq d = SendSeq d -> TrackDataChunks d = false ->
  Session.State_ (Session_ d) = Session.StateActive ->
  Session.ReceiveSequence (Session_ d) < Session.accept_limit (Session_ d) ->
  len body <= MaxBodyBytes - 16 ->
  exists d' d'' raw f,
    EncodeFrame TypeData body d = (d', Ok raw) /\
    DecodeAndHandle raw d' = (d'', Ok f) /\ LastPlaintext d'' = body.
Proof.
  intros Hsd Hu Hrs Htr Hst Hlim Hb.
  destruct (EncodeFrame_delivers d TypeData body) as (raw & He & Hdec); [done..|].
  set (d' := set_SendSeq (u64 (SendSeq d + 1)) d) in *.
  eexists d', _, raw, _. split; [exact He|]. unfold DecodeAndHandle.
  change (MACKey d') with (MACKey d). change (RequireMAC d') with (RequireMAC d).
  rewrite Hdec. cbn [on_value]. rewrite (Handle_sent d d') by done.
  change (TrackDataChunks d') with (TrackDataChunks d). rewrite Htr. cbv zeta.
  unfold Session.AcceptNext. cbn [Session_ set_received set_SendSeq d'].
  rewrite bool_decide_true by done. cbn [negb]. rewrite (proj2 (Z.leb_gt _ _)) by lia.
  unfold on_session. cbn [fst snd]. by split.
Qed.

End Transfer.

(** ** Witnesses *)

Definition active_demo : Session.Session :=
  Session.set_State Session.StateActive (Session.New [2]).

Definition sender_demo : Driver :=
  mkDriver active_demo (zeros 16) 1 1 (zeros 32) (zeros 32) [] "" [] true [] false 0 0.

Definition receiver_demo (used : Z) : Driver :=
  mkDriver (Session.set_ReceiveSequence used active_demo) (zeros 16) 1 1 (zeros 32) (zeros 32) []
    "" [] true [] true 0 0.

#[local] Existing Instances Crypto.demo_cipher Crypto.demo_cipher_laws.

Lemma sendable_demo : sendable sender_demo.
Proof. split; [reflexivity|]. split; [vm_compute; congruence|]. right. reflexivity. Defined.

Lemma transferring_demo used : 0 <= used -> transferring sender_demo (receiver_demo used).
Proof.
  intros Hu. split; [exact sendable_demo|]. do 3 (split; [reflexivity|]).
  split; [unfold is_u64; cbn; lia|]. split; [unfold is_u64; cbn; lia|].
  split; [reflexivity|]. split; [exact Hu|]. vm_compute. congruence.
Defined.

Lemma driver_session_safe_witness :
  Session.Invariants (Session_ (fold_left dexec
    [CAccept; CInbound (str "garbage"); CPeerAuth; CFrame TypeData (str "x")]
    (NewDriverWithSuites [1; 2; 3] [Crypto.SuiteIDAEAD] (zeros 16) [] false))) = Ok tt.
Proof.
  apply (driver_session_safe
    [CAccept; CInbound (str "garbage"); CPeerAuth; CFrame TypeData (str "x")]
    (NewDriverWithSuites [1; 2; 3] [Crypto.SuiteIDAEAD] (zeros 16) [] false)).
  exact Session.s_demo_initial.
Defined.

Lemma receive_in_order_witness :
  exists d' fs, receive sender_demo [str "garbage"] = (d', fs) /\
    map Sequence fs = seqZ 1 (len fs).
Proof.
  exists sender_demo, []. split; [reflexivity|].
  apply (receive_in_order sender_demo [str "garbage"] sender_demo []).
  - unfold is_u64. cbn. lia.
  - vm_compute. congruence.
  - reflexivity.
Defined.

Lemma transfer_delivers_witness :
  exists b', transfer sender_demo (receiver_demo 0) [str "one"; []; str "three"] =
    (b', Ok [str "one"; []; str "three"]) /\ NextDataOffset b' = 8.
Proof.
  apply (transfer_delivers sender_demo (receiver_demo 0) [str "one"; []; str "three"]).
  - apply transferring_demo. lia.
  - vm_compute. congruence.
  - repeat constructor; vm_compute; congruence.
  - vm_compute. congruence.
  - vm_compute. congruence.
Defined.

Lemma rejected_chunk_advances_offset_witness :
  exists a' b' raw,
    EncodeDataChunk (str "data") sender_demo = (a', Ok raw) /\
    DecodeAndHandle raw (receiver_demo Session.DefaultMaxAccept) = (b', Err (fail "limit")) /\
    RecvSeq b' = 1 /\ NextDataOffset b' = 4.
Proof.
  apply (rejected_chunk_advances_offset sender_demo (receiver_demo Session.DefaultMaxAccept)
    (str "data")).
  - apply transferring_demo. vm_compute. congruence.
  - reflexivity.
  - vm_compute. congruence.
  - vm_compute. congruence.
Defined.

Lemma reflected_frame_accepted_witness :
  exists d' d'' raw f,
    EncodeFrame TypeData (str "mine") sender_demo = (d', Ok raw) /\
    DecodeAndHandle raw d' = (d'', Ok f) /\ LastPlaintext d'' = str "mine".
Proof.
  apply (reflected_frame_accepted sender_demo (str "mine")).
  - exact sendable_demo.
  - unfold is_u64. cbn. lia.
  - reflexivity.
  - reflexivity.
  - reflexivity.
  - vm_compute. reflexivity.
  - vm_compute. congruence.
Defined.

End Driver.
