(* ===== verification/PathTables.v ===== *)
(** * Unicode tables (internal/path/nfc_tables.go)

    The three tables of the normalization check, entry for entry, in the order
    of the source: combining classes, the runes that never occur in NFC, and
    the primary compositions keyed by [lead << 32 | trail]. *)

From S2P Require Import Prelude.

Module PathTables.

Definition nfcCCC_0 : list (Z * Z) := [
  (0x300, 230); (0x301, 230); (0x302, 230); (0x303, 230); (0x304, 230);
  (0x305, 230); (0x306, 230); (0x307, 230); (0x308, 230); (0x309, 230);
  (0x30A, 230); (0x30B, 230); (0x30C, 230); (0x30D, 230); (0x30E, 230);
  (0x30F, 230); (0x310, 230); (0x311, 230); (0x312, 230); (0x313, 230);
  (0x314, 230); (0x315, 232); (0x316, 220); (0x317, 220); (0x318, 220);
  (0x319, 220); (0x31A, 232); (0x31B, 216); (0x31C, 220); (0x31D, 220);
  (0x31E, 220); (0x31F, 220); (0x320, 220); (0x321, 202); (0x322, 202);
  (0x323, 220); (0x324, 220); (0x325, 220); (0x326, 220); (0x327, 202);
  (0x328, 202); (0x329, 220); (0x32A, 220); (0x32B, 220); (0x32C, 220);
  (0x32D, 220); (0x32E, 220); (0x32F, 220); (0x330, 220); (0x331, 220);
  (0x332, 220); (0x333, 220); (0x334, 1); (0x335, 1); (0x336, 1);
  (0x337, 1); (0x338, 1); (0x339, 220); (0x33A, 220); (0x33B, 220);
  (0x33C, 220); (0x33D, 230); (0x33E, 230); (0x33F, 230); (0x340, 230);
  (0x341, 230); (0x342, 230); (0x343, 230); (0x344, 230); (0x345, 240);
  (0x346, 230); (0x347, 220); (0x348, 220); (0x349, 220); (0x34A, 230);
  (0x34B, 230); (0x34C, 230); (0x34D, 220); (0x34E, 220); (0x350, 230);
  (0x351, 230); (0x352, 230); (0x353, 220); (0x354, 220); (0x355, 220);
  (0x356, 220); (0x357, 230); (0x358, 232); (0x359, 220); (0x35A, 220);
  (0x35B, 230); (0x35C, 233); (0x35D, 234); (0x35E, 234); (0x35F, 233);
  (0x360, 234); (0x361, 234); (0x362, 233); (0x363, 230); (0x364, 230);
  (0x365, 230); (0x366, 230); (0x367, 230); (0x368, 230); (0x369, 230);
  (0x36A, 230); (0x36B, 230); (0x36C, 230); (0x36D, 230); (0x36E, 230);
  (0x36F, 230); (0x483, 230); (0x484, 230); (0x485, 230); (0x486, 230);
  (0x487, 230); (0x591, 220); (0x592, 230); (0x593, 230); (0x594, 230);
  (0x595, 230); (0x596, 220); (0x597, 230); (0x598, 230); (0x599, 230);
  (0x59A, 222); (0x59B, 220); (0x59C, 230); (0x59D, 230); (0x59E, 230);
  (0x59F, 230); (0x5A0, 230); (0x5A1, 230); (0x5A2, 220); (0x5A3, 220);
  (0x5A4, 220); (0x5A5, 220); (0x5A6, 220); (0x5A7, 220); (0x5A8, 230);
  (0x5A9, 230); (0x5AA, 220); (0x5AB, 230); (0x5AC, 230); (0x5AD, 222);
  (0x5AE, 228); (0x5AF, 230); (0x5B0, 10); (0x5B1, 11); (0x5B2, 12) ].

Definition nfcCCC_1 : list (Z * Z) := [
  (0x5B3, 13); (0x5B4, 14); (0x5B5, 15); (0x5B6, 16); (0x5B7, 17);
  (0x5B8, 18); (0x5B9, 19); (0x5BA, 19); (0x5BB, 20); (0x5BC, 21);
  (0x5BD, 22); (0x5BF, 23); (0x5C1, 24); (0x5C2, 25); (0x5C4, 230);
  (0x5C5, 220); (0x5C7, 18); (0x610, 230); (0x611, 230); (0x612, 230);
  (0x613, 230); (0x614, 230); (0x615, 230); (0x616, 230); (0x617, 230);
  (0x618, 30); (0x619, 31); (0x61A, 32); (0x64B, 27); (0x64C, 28);
  (0x64D, 29); (0x64E, 30); (0x64F, 31); (0x650, 32); (0x651, 33);
  (0x652, 34); (0x653, 230); (0x654, 230); (0x655, 220); (0x656, 220);
  (0x657, 230); (0x658, 230); (0x659, 230); (0x65A, 230); (0x65B, 230);
  (0x65C, 220); (0x65D, 230); (0x65E, 230); (0x65F, 220); (0x670, 35);
  (0x6D6, 230); (0x6D7, 230); (0x6D8, 230); (0x6D9, 230); (0x6DA, 230);
  (0x6DB, 230); (0x6DC, 230); (0x6DF, 230); (0x6E0, 230); (0x6E1, 230);
  (0x6E2, 230); (0x6E3, 220); (0x6E4, 230); (0x6E7, 230); (0x6E8, 230);
  (0x6EA, 220); (0x6EB, 230); (0x6EC, 230); (0x6ED, 220); (0x711, 36);
  (0x730, 230); (0x731, 220); (0x732, 230); (0x733, 230); (0x734, 220);
  (0x735, 230); (0x736, 230); (0x737, 220); (0x738, 220); (0x739, 220);
  (0x73A, 230); (0x73B, 220); (0x73C, 220); (0x73D, 230); (0x73E, 220);
  (0x73F, 230); (0x740, 230); (0x741, 230); (0x742, 220); (0x743, 230);
  (0x744, 220); (0x745, 230); (0x746, 220); (0x747, 230); (0x748, 220);
  (0x749, 230); (0x74A, 230); (0x7EB, 230); (0x7EC, 230); (0x7ED, 230);
  (0x7EE, 230); (0x7EF, 230); (0x7F0, 230); (0x7F1, 230); (0x7F2, 220);
  (0x7F3, 230); (0x7FD, 220); (0x816, 230); (0x817, 230); (0x818, 230);
  (0x819, 230); (0x81B, 230); (0x81C, 230); (0x81D, 230); (0x81E, 230);
  (0x81F, 230); (0x820, 230); (0x821, 230); (0x822, 230); (0x823, 230);
  (0x825, 230); (0x826, 230); (0x827, 230); (0x829, 230); (0x82A, 230);
  (0x82B, 230); (0x82C, 230); (0x82D, 230); (0x859, 220); (0x85A, 220);
  (0x85B, 220); (0x898, 230); (0x899, 220); (0x89A, 220); (0x89B, 220);
  (0x89C, 230); (0x89D, 230); (0x89E, 230); (0x89F, 230); (0x8CA, 230);
  (0x8CB, 230); (0x8CC, 230); (0x8CD, 230); (0x8CE, 230); (0x8CF, 220);
  (0x8D0, 220); (0x8D1, 220); (0x8D2, 220); (0x8D3, 220); (0x8D4, 230) ].

Definition nfcCCC_2 : list (Z * Z) := [
  (0x8D5, 230); (0x8D6, 230); (0x8D7, 230); (0x8D8, 230); (0x8D9, 230);
  (0x8DA, 230); (0x8DB, 230); (0x8DC, 230); (0x8DD, 230); (0x8DE, 230);
  (0x8DF, 230); (0x8E0, 230); (0x8E1, 230); (0x8E3, 220); (0x8E4, 230);
  (0x8E5, 230); (0x8E6, 220); (0x8E7, 230); (0x8E8, 230); (0x8E9, 220);
  (0x8EA, 230); (0x8EB, 230); (0x8EC, 230); (0x8ED, 220); (0x8EE, 220);
  (0x8EF, 220); (0x8F0, 27); (0x8F1, 28); (0x8F2, 29); (0x8F3, 230);
  (0x8F4, 230); (0x8F5, 230); (0x8F6, 220); (0x8F7, 230); (0x8F8, 230);
  (0x8F9, 220); (0x8FA, 220); (0x8FB, 230); (0x8FC, 230); (0x8FD, 230);
  (0x8FE, 230); (0x8FF, 230); (0x93C, 7); (0x94D, 9); (0x951, 230);
  (0x952, 220); (0x953, 230); (0x954, 230); (0x9BC, 7); (0x9CD, 9);
  (0x9FE, 230); (0xA3C, 7); (0xA4D, 9); (0xABC, 7); (0xACD, 9);
  (0xB3C, 7); (0xB4D, 9); (0xBCD, 9); (0xC3C, 7); (0xC4D, 9);
  (0xC55, 84); (0xC56, 91); (0xCBC, 7); (0xCCD, 9); (0xD3B, 9);
  (0xD3C, 9); (0xD4D, 9); (0xDCA, 9); (0xE38, 103); (0xE39, 103);
  (0xE3A, 9); (0xE48, 107); (0xE49, 107); (0xE4A, 107); (0xE4B, 107);
  (0xEB8, 118); (0xEB9, 118); (0xEBA, 9); (0xEC8, 122); (0xEC9, 122);
  (0xECA, 122); (0xECB, 122); (0xF18, 220); (0xF19, 220); (0xF35, 220);
  (0xF37, 220); (0xF39, 216); (0xF71, 129); (0xF72, 130); (0xF74, 132);
  (0xF7A, 130); (0xF7B, 130); (0xF7C, 130); (0xF7D, 130); (0xF80, 130);
  (0xF82, 230); (0xF83, 230); (0xF84, 9); (0xF86, 230); (0xF87, 230);
  (0xFC6, 220); (0x1037, 7); (0x1039, 9); (0x103A, 9); (0x108D, 220);
  (0x135D, 230); (0x135E, 230); (0x135F, 230); (0x1714, 9); (0x1715, 9);
  (0x1734, 9); (0x17D2, 9); (0x17DD, 230); (0x18A9, 228); (0x1939, 222);
  (0x193A, 230); (0x193B, 220); (0x1A17, 230); (0x1A18, 220); (0x1A60, 9);
  (0x1A75, 230); (0x1A76, 230); (0x1A77, 230); (0x1A78, 230); (0x1A79, 230);
  (0x1A7A, 230); (0x1A7B, 230); (0x1A7C, 230); (0x1A7F, 220); (0x1AB0, 230);
  (0x1AB1, 230); (0x1AB2, 230); (0x1AB3, 230); (0x1AB4, 230); (0x1AB5, 220);
  (0x1AB6, 220); (0x1AB7, 220); (0x1AB8, 220); (0x1AB9, 220); (0x1ABA, 220);
  (0x1ABB, 230); (0x1ABC, 230); (0x1ABD, 220); (0x1ABF, 220); (0x1AC0, 220);
  (0x1AC1, 230); (0x1AC2, 230); (0x1AC3, 220); (0x1AC4, 220); (0x1AC5, 230) ].

Definition nfcCCC_3 : list (Z * Z) := [
  (0x1AC6, 230); (0x1AC7, 230); (0x1AC8, 230); (0x1AC9, 230); (0x1ACA, 220);
  (0x1ACB, 230); (0x1ACC, 230); (0x1ACD, 230); (0x1ACE, 230); (0x1B34, 7);
  (0x1B44, 9); (0x1B6B, 230); (0x1B6C, 220); (0x1B6D, 230); (0x1B6E, 230);
  (0x1B6F, 230); (0x1B70, 230); (0x1B71, 230); (0x1B72, 230); (0x1B73, 230);
  (0x1BAA, 9); (0x1BAB, 9); (0x1BE6, 7); (0x1BF2, 9); (0x1BF3, 9);
  (0x1C37, 7); (0x1CD0, 230); (0x1CD1, 230); (0x1CD2, 230); (0x1CD4, 1);
  (0x1CD5, 220); (0x1CD6, 220); (0x1CD7, 220); (0x1CD8, 220); (0x1CD9, 220);
  (0x1CDA, 230); (0x1CDB, 230); (0x1CDC, 220); (0x1CDD, 220); (0x1CDE, 220);
  (0x1CDF, 220); (0x1CE0, 230); (0x1CE2, 1); (0x1CE3, 1); (0x1CE4, 1);
  (0x1CE5, 1); (0x1CE6, 1); (0x1CE7, 1); (0x1CE8, 1); (0x1CED, 220);
  (0x1CF4, 230); (0x1CF8, 230); (0x1CF9, 230); (0x1DC0, 230); (0x1DC1, 230);
  (0x1DC2, 220); (0x1DC3, 230); (0x1DC4, 230); (0x1DC5, 230); (0x1DC6, 230);
  (0x1DC7, 230); (0x1DC8, 230); (0x1DC9, 230); (0x1DCA, 220); (0x1DCB, 230);
  (0x1DCC, 230); (0x1DCD, 234); (0x1DCE, 214); (0x1DCF, 220); (0x1DD0, 202);
  (0x1DD1, 230); (0x1DD2, 230); (0x1DD3, 230); (0x1DD4, 230); (0x1DD5, 230);
  (0x1DD6, 230); (0x1DD7, 230); (0x1DD8, 230); (0x1DD9, 230); (0x1DDA, 230);
  (0x1DDB, 230); (0x1DDC, 230); (0x1DDD, 230); (0x1DDE, 230); (0x1DDF, 230);
  (0x1DE0, 230); (0x1DE1, 230); (0x1DE2, 230); (0x1DE3, 230); (0x1DE4, 230);
  (0x1DE5, 230); (0x1DE6, 230); (0x1DE7, 230); (0x1DE8, 230); (0x1DE9, 230);
  (0x1DEA, 230); (0x1DEB, 230); (0x1DEC, 230); (0x1DED, 230); (0x1DEE, 230);
  (0x1DEF, 230); (0x1DF0, 230); (0x1DF1, 230); (0x1DF2, 230); (0x1DF3, 230);
  (0x1DF4, 230); (0x1DF5, 230); (0x1DF6, 232); (0x1DF7, 228); (0x1DF8, 228);
  (0x1DF9, 220); (0x1DFA, 218); (0x1DFB, 230); (0x1DFC, 233); (0x1DFD, 220);
  (0x1DFE, 230); (0x1DFF, 220); (0x20D0, 230); (0x20D1, 230); (0x20D2, 1);
  (0x20D3, 1); (0x20D4, 230); (0x20D5, 230); (0x20D6, 230); (0x20D7, 230);
  (0x20D8, 1); (0x20D9, 1); (0x20DA, 1); (0x20DB, 230); (0x20DC, 230);
  (0x20E1, 230); (0x20E5, 1); (0x20E6, 1); (0x20E7, 230); (0x20E8, 220);
  (0x20E9, 230); (0x20EA, 1); (0x20EB, 1); (0x20EC, 220); (0x20ED, 220);
  (0x20EE, 220); (0x20EF, 220); (0x20F0, 230); (0x2CEF, 230); (0x2CF0, 230);
  (0x2CF1, 230); (0x2D7F, 9); (0x2DE0, 230); (0x2DE1, 230); (0x2DE2, 230) ].

Definition nfcCCC_4 : list (Z * Z) := [
  (0x2DE3, 230); (0x2DE4, 230); (0x2DE5, 230); (0x2DE6, 230); (0x2DE7, 230);
  (0x2DE8, 230); (0x2DE9, 230); (0x2DEA, 230); (0x2DEB, 230); (0x2DEC, 230);
  (0x2DED, 230); (0x2DEE, 230); (0x2DEF, 230); (0x2DF0, 230); (0x2DF1, 230);
  (0x2DF2, 230); (0x2DF3, 230); (0x2DF4, 230); (0x2DF5, 230); (0x2DF6, 230);
  (0x2DF7, 230); (0x2DF8, 230); (0x2DF9, 230); (0x2DFA, 230); (0x2DFB, 230);
  (0x2DFC, 230); (0x2DFD, 230); (0x2DFE, 230); (0x2DFF, 230); (0x302A, 218);
  (0x302B, 228); (0x302C, 232); (0x302D, 222); (0x302E, 224); (0x302F, 224);
  (0x3099, 8); (0x309A, 8); (0xA66F, 230); (0xA674, 230); (0xA675, 230);
  (0xA676, 230); (0xA677, 230); (0xA678, 230); (0xA679, 230); (0xA67A, 230);
  (0xA67B, 230); (0xA67C, 230); (0xA67D, 230); (0xA69E, 230); (0xA69F, 230);
  (0xA6F0, 230); (0xA6F1, 230); (0xA806, 9); (0xA82C, 9); (0xA8C4, 9);
  (0xA8E0, 230); (0xA8E1, 230); (0xA8E2, 230); (0xA8E3, 230); (0xA8E4, 230);
  (0xA8E5, 230); (0xA8E6, 230); (0xA8E7, 230); (0xA8E8, 230); (0xA8E9, 230);
  (0xA8EA, 230); (0xA8EB, 230); (0xA8EC, 230); (0xA8ED, 230); (0xA8EE, 230);
  (0xA8EF, 230); (0xA8F0, 230); (0xA8F1, 230); (0xA92B, 220); (0xA92C, 220);
  (0xA92D, 220); (0xA953, 9); (0xA9B3, 7); (0xA9C0, 9); (0xAAB0, 230);
  (0xAAB2, 230); (0xAAB3, 230); (0xAAB4, 220); (0xAAB7, 230); (0xAAB8, 230);
  (0xAABE, 230); (0xAABF, 230); (0xAAC1, 230); (0xAAF6, 9); (0xABED, 9);
  (0xFB1E, 26); (0xFE20, 230); (0xFE21, 230); (0xFE22, 230); (0xFE23, 230);
  (0xFE24, 230); (0xFE25, 230); (0xFE26, 230); (0xFE27, 220); (0xFE28, 220);
  (0xFE29, 220); (0xFE2A, 220); (0xFE2B, 220); (0xFE2C, 220); (0xFE2D, 220);
  (0xFE2E, 230); (0xFE2F, 230); (0x101FD, 220); (0x102E0, 220); (0x10376, 230);
  (0x10377, 230); (0x10378, 230); (0x10379, 230); (0x1037A, 230); (0x10A0D, 220);
  (0x10A0F, 230); (0x10A38, 230); (0x10A39, 1); (0x10A3A, 220); (0x10A3F, 9);
  (0x10AE5, 230); (0x10AE6, 220); (0x10D24, 230); (0x10D25, 230); (0x10D26, 230);
  (0x10D27, 230); (0x10EAB, 230); (0x10EAC, 230); (0x10EFD, 220); (0x10EFE, 220);
  (0x10EFF, 220); (0x10F46, 220); (0x10F47, 220); (0x10F48, 230); (0x10F49, 230);
  (0x10F4A, 230); (0x10F4B, 220); (0x10F4C, 230); (0x10F4D, 220); (0x10F4E, 220);
  (0x10F4F, 220); (0x10F50, 220); (0x10F82, 230); (0x10F83, 220); (0x10F84, 230);
  (0x10F85, 220); (0x11046, 9); (0x11070, 9); (0x1107F, 9); (0x110B9, 9) ].

Definition nfcCCC_5 : list (Z * Z) := [
  (0x110BA, 7); (0x11100, 230); (0x11101, 230); (0x11102, 230); (0x11133, 9);
  (0x11134, 9); (0x11173, 7); (0x111C0, 9); (0x111CA, 7); (0x11235, 9);
  (0x11236, 7); (0x112E9, 7); (0x112EA, 9); (0x1133B, 7); (0x1133C, 7);
  (0x1134D, 9); (0x11366, 230); (0x11367, 230); (0x11368, 230); (0x11369, 230);
  (0x1136A, 230); (0x1136B, 230); (0x1136C, 230); (0x11370, 230); (0x11371, 230);
  (0x11372, 230); (0x11373, 230); (0x11374, 230); (0x11442, 9); (0x11446, 7);
  (0x1145E, 230); (0x114C2, 9); (0x114C3, 7); (0x115BF, 9); (0x115C0, 7);
  (0x1163F, 9); (0x116B6, 9); (0x116B7, 7); (0x1172B, 9); (0x11839, 9);
  (0x1183A, 7); (0x1193D, 9); (0x1193E, 9); (0x11943, 7); (0x119E0, 9);
  (0x11A34, 9); (0x11A47, 9); (0x11A99, 9); (0x11C3F, 9); (0x11D42, 7);
  (0x11D44, 9); (0x11D45, 9); (0x11D97, 9); (0x11F41, 9); (0x11F42, 9);
  (0x16AF0, 1); (0x16AF1, 1); (0x16AF2, 1); (0x16AF3, 1); (0x16AF4, 1);
  (0x16B30, 230); (0x16B31, 230); (0x16B32, 230); (0x16B33, 230); (0x16B34, 230);
  (0x16B35, 230); (0x16B36, 230); (0x16FF0, 6); (0x16FF1, 6); (0x1BC9E, 1);
  (0x1D165, 216); (0x1D166, 216); (0x1D167, 1); (0x1D168, 1); (0x1D169, 1);
  (0x1D16D, 226); (0x1D16E, 216); (0x1D16F, 216); (0x1D170, 216); (0x1D171, 216);
  (0x1D172, 216); (0x1D17B, 220); (0x1D17C, 220); (0x1D17D, 220); (0x1D17E, 220);
  (0x1D17F, 220); (0x1D180, 220); (0x1D181, 220); (0x1D182, 220); (0x1D185, 230);
  (0x1D186, 230); (0x1D187, 230); (0x1D188, 230); (0x1D189, 230); (0x1D18A, 220);
  (0x1D18B, 220); (0x1D1AA, 230); (0x1D1AB, 230); (0x1D1AC, 230); (0x1D1AD, 230);
  (0x1D242, 230); (0x1D243, 230); (0x1D244, 230); (0x1E000, 230); (0x1E001, 230);
  (0x1E002, 230); (0x1E003, 230); (0x1E004, 230); (0x1E005, 230); (0x1E006, 230);
  (0x1E008, 230); (0x1E009, 230); (0x1E00A, 230); (0x1E00B, 230); (0x1E00C, 230);
  (0x1E00D, 230); (0x1E00E, 230); (0x1E00F, 230); (0x1E010, 230); (0x1E011, 230);
  (0x1E012, 230); (0x1E013, 230); (0x1E014, 230); (0x1E015, 230); (0x1E016, 230);
  (0x1E017, 230); (0x1E018, 230); (0x1E01B, 230); (0x1E01C, 230); (0x1E01D, 230);
  (0x1E01E, 230); (0x1E01F, 230); (0x1E020, 230); (0x1E021, 230); (0x1E023, 230);
  (0x1E024, 230); (0x1E026, 230); (0x1E027, 230); (0x1E028, 230); (0x1E029, 230);
  (0x1E02A, 230); (0x1E08F, 230); (0x1E130, 230); (0x1E131, 230); (0x1E132, 230);
  (0x1E133, 230); (0x1E134, 230); (0x1E135, 230); (0x1E136, 230); (0x1E2AE, 230) ].

Definition nfcCCC_6 : list (Z * Z) := [
  (0x1E2EC, 230); (0x1E2ED, 230); (0x1E2EE, 230); (0x1E2EF, 230); (0x1E4EC, 232);
  (0x1E4ED, 232); (0x1E4EE, 220); (0x1E4EF, 230); (0x1E8D0, 220); (0x1E8D1, 220);
  (0x1E8D2, 220); (0x1E8D3, 220); (0x1E8D4, 220); (0x1E8D5, 220); (0x1E8D6, 220);
  (0x1E944, 230); (0x1E945, 230); (0x1E946, 230); (0x1E947, 230); (0x1E948, 230);
  (0x1E949, 230); (0x1E94A, 7) ].

Definition nfcQCNo_0 : list Z := [
  0x340; 0x341; 0x343; 0x344; 0x374; 0x37E; 0x387; 0x958;
  0x959; 0x95A; 0x95B; 0x95C; 0x95D; 0x95E; 0x95F; 0x9DC;
  0x9DD; 0x9DF; 0xA33; 0xA36; 0xA59; 0xA5A; 0xA5B; 0xA5E;
  0xB5C; 0xB5D; 0xF43; 0xF4D; 0xF52; 0xF57; 0xF5C; 0xF69;
  0xF73; 0xF75; 0xF76; 0xF78; 0xF81; 0xF93; 0xF9D; 0xFA2;
  0xFA7; 0xFAC; 0xFB9; 0x1F71; 0x1F73; 0x1F75; 0x1F77; 0x1F79;
  0x1F7B; 0x1F7D; 0x1FBB; 0x1FBE; 0x1FC9; 0x1FCB; 0x1FD3; 0x1FDB;
  0x1FE3; 0x1FEB; 0x1FEE; 0x1FEF; 0x1FF9; 0x1FFB; 0x1FFD; 0x2000;
  0x2001; 0x2126; 0x212A; 0x212B; 0x2329; 0x232A; 0x2ADC; 0xF900;
  0xF901; 0xF902; 0xF903; 0xF904; 0xF905; 0xF906; 0xF907; 0xF908;
  0xF909; 0xF90A; 0xF90B; 0xF90C; 0xF90D; 0xF90E; 0xF90F; 0xF910;
  0xF911; 0xF912; 0xF913; 0xF914; 0xF915; 0xF916; 0xF917; 0xF918;
  0xF919; 0xF91A; 0xF91B; 0xF91C; 0xF91D; 0xF91E; 0xF91F; 0xF920;
  0xF921; 0xF922; 0xF923; 0xF924; 0xF925; 0xF926; 0xF927; 0xF928;
  0xF929; 0xF92A; 0xF92B; 0xF92C; 0xF92D; 0xF92E; 0xF92F; 0xF930;
  0xF931; 0xF932; 0xF933; 0xF934; 0xF935; 0xF936; 0xF937; 0xF938;
  0xF939; 0xF93A; 0xF93B; 0xF93C; 0xF93D; 0xF93E; 0xF93F; 0xF940;
  0xF941; 0xF942; 0xF943; 0xF944; 0xF945; 0xF946; 0xF947; 0xF948;
  0xF949; 0xF94A; 0xF94B; 0xF94C; 0xF94D; 0xF94E; 0xF94F; 0xF950;
  0xF951; 0xF952; 0xF953; 0xF954; 0xF955; 0xF956; 0xF957; 0xF958;
  0xF959; 0xF95A; 0xF95B; 0xF95C; 0xF95D; 0xF95E; 0xF95F; 0xF960;
  0xF961; 0xF962; 0xF963; 0xF964; 0xF965; 0xF966; 0xF967; 0xF968;
  0xF969; 0xF96A; 0xF96B; 0xF96C; 0xF96D; 0xF96E; 0xF96F; 0xF970;
  0xF971; 0xF972; 0xF973; 0xF974; 0xF975; 0xF976; 0xF977; 0xF978;
  0xF979; 0xF97A; 0xF97B; 0xF97C; 0xF97D; 0xF97E; 0xF97F; 0xF980;
  0xF981; 0xF982; 0xF983; 0xF984; 0xF985; 0xF986; 0xF987; 0xF988;
  0xF989; 0xF98A; 0xF98B; 0xF98C; 0xF98D; 0xF98E; 0xF98F; 0xF990;
  0xF991; 0xF992; 0xF993; 0xF994; 0xF995; 0xF996; 0xF997; 0xF998;
  0xF999; 0xF99A; 0xF99B; 0xF99C; 0xF99D; 0xF99E; 0xF99F; 0xF9A0;
  0xF9A1; 0xF9A2; 0xF9A3; 0xF9A4; 0xF9A5; 0xF9A6; 0xF9A7; 0xF9A8;
  0xF9A9; 0xF9AA; 0xF9AB; 0xF9AC; 0xF9AD; 0xF9AE; 0xF9AF; 0xF9B0;
  0xF9B1; 0xF9B2; 0xF9B3; 0xF9B4; 0xF9B5; 0xF9B6; 0xF9B7; 0xF9B8;
  0xF9B9; 0xF9BA; 0xF9BB; 0xF9BC; 0xF9BD; 0xF9BE; 0xF9BF; 0xF9C0;
  0xF9C1; 0xF9C2; 0xF9C3; 0xF9C4; 0xF9C5; 0xF9C6; 0xF9C7; 0xF9C8;
  0xF9C9; 0xF9CA; 0xF9CB; 0xF9CC; 0xF9CD; 0xF9CE; 0xF9CF; 0xF9D0;
  0xF9D1; 0xF9D2; 0xF9D3; 0xF9D4; 0xF9D5; 0xF9D6; 0xF9D7; 0xF9D8;
  0xF9D9; 0xF9DA; 0xF9DB; 0xF9DC; 0xF9DD; 0xF9DE; 0xF9DF; 0xF9E0;
  0xF9E1; 0xF9E2; 0xF9E3; 0xF9E4; 0xF9E5; 0xF9E6; 0xF9E7; 0xF9E8;
  0xF9E9; 0xF9EA; 0xF9EB; 0xF9EC; 0xF9ED; 0xF9EE; 0xF9EF; 0xF9F0;
  0xF9F1; 0xF9F2; 0xF9F3; 0xF9F4; 0xF9F5; 0xF9F6; 0xF9F7; 0xF9F8;
  0xF9F9; 0xF9FA; 0xF9FB; 0xF9FC; 0xF9FD; 0xF9FE; 0xF9FF; 0xFA00;
  0xFA01; 0xFA02; 0xFA03; 0xFA04; 0xFA05; 0xFA06; 0xFA07; 0xFA08;
  0xFA09; 0xFA0A; 0xFA0B; 0xFA0C; 0xFA0D; 0xFA10; 0xFA12; 0xFA15;
  0xFA16; 0xFA17; 0xFA18; 0xFA19; 0xFA1A; 0xFA1B; 0xFA1C; 0xFA1D;
  0xFA1E; 0xFA20; 0xFA22; 0xFA25; 0xFA26; 0xFA2A; 0xFA2B; 0xFA2C;
  0xFA2D; 0xFA2E; 0xFA2F; 0xFA30; 0xFA31; 0xFA32; 0xFA33; 0xFA34;
  0xFA35; 0xFA36; 0xFA37; 0xFA38; 0xFA39; 0xFA3A; 0xFA3B; 0xFA3C;
  0xFA3D; 0xFA3E; 0xFA3F; 0xFA40; 0xFA41; 0xFA42; 0xFA43; 0xFA44;
  0xFA45; 0xFA46; 0xFA47; 0xFA48; 0xFA49; 0xFA4A; 0xFA4B; 0xFA4C;
  0xFA4D; 0xFA4E; 0xFA4F; 0xFA50; 0xFA51; 0xFA52; 0xFA53; 0xFA54;
  0xFA55; 0xFA56; 0xFA57; 0xFA58; 0xFA59; 0xFA5A; 0xFA5B; 0xFA5C;
  0xFA5D; 0xFA5E; 0xFA5F; 0xFA60; 0xFA61; 0xFA62; 0xFA63; 0xFA64;
  0xFA65; 0xFA66; 0xFA67; 0xFA68; 0xFA69; 0xFA6A; 0xFA6B; 0xFA6C;
  0xFA6D; 0xFA70; 0xFA71; 0xFA72; 0xFA73; 0xFA74; 0xFA75; 0xFA76;
  0xFA77; 0xFA78; 0xFA79; 0xFA7A; 0xFA7B; 0xFA7C; 0xFA7D; 0xFA7E;
  0xFA7F; 0xFA80; 0xFA81; 0xFA82; 0xFA83; 0xFA84; 0xFA85; 0xFA86;
  0xFA87; 0xFA88; 0xFA89; 0xFA8A; 0xFA8B; 0xFA8C; 0xFA8D; 0xFA8E;
  0xFA8F; 0xFA90; 0xFA91; 0xFA92; 0xFA93; 0xFA94; 0xFA95; 0xFA96;
  0xFA97; 0xFA98; 0xFA99; 0xFA9A; 0xFA9B; 0xFA9C; 0xFA9D; 0xFA9E;
  0xFA9F; 0xFAA0; 0xFAA1; 0xFAA2; 0xFAA3; 0xFAA4; 0xFAA5; 0xFAA6;
  0xFAA7; 0xFAA8; 0xFAA9; 0xFAAA; 0xFAAB; 0xFAAC; 0xFAAD; 0xFAAE;
  0xFAAF; 0xFAB0; 0xFAB1; 0xFAB2; 0xFAB3; 0xFAB4; 0xFAB5; 0xFAB6;
  0xFAB7; 0xFAB8; 0xFAB9; 0xFABA; 0xFABB; 0xFABC; 0xFABD; 0xFABE;
  0xFABF; 0xFAC0; 0xFAC1; 0xFAC2; 0xFAC3; 0xFAC4; 0xFAC5; 0xFAC6;
  0xFAC7; 0xFAC8; 0xFAC9; 0xFACA; 0xFACB; 0xFACC; 0xFACD; 0xFACE;
  0xFACF; 0xFAD0; 0xFAD1; 0xFAD2; 0xFAD3; 0xFAD4; 0xFAD5; 0xFAD6;
  0xFAD7; 0xFAD8; 0xFAD9; 0xFB1D; 0xFB1F; 0xFB2A; 0xFB2B; 0xFB2C;
  0xFB2D; 0xFB2E; 0xFB2F; 0xFB30; 0xFB31; 0xFB32; 0xFB33; 0xFB34;
  0xFB35; 0xFB36; 0xFB38; 0xFB39; 0xFB3A; 0xFB3B; 0xFB3C; 0xFB3E;
  0xFB40; 0xFB41; 0xFB43; 0xFB44; 0xFB46; 0xFB47; 0xFB48; 0xFB49;
  0xFB4A; 0xFB4B; 0xFB4C; 0xFB4D; 0xFB4E; 0x1D15E; 0x1D15F; 0x1D160;
  0x1D161; 0x1D162; 0x1D163; 0x1D164; 0x1D1BB; 0x1D1BC; 0x1D1BD; 0x1D1BE;
  0x1D1BF; 0x1D1C0; 0x2F800; 0x2F801; 0x2F802; 0x2F803; 0x2F804; 0x2F805;
  0x2F806; 0x2F807; 0x2F808; 0x2F809; 0x2F80A; 0x2F80B; 0x2F80C; 0x2F80D;
  0x2F80E; 0x2F80F; 0x2F810; 0x2F811; 0x2F812; 0x2F813; 0x2F814; 0x2F815;
  0x2F816; 0x2F817; 0x2F818; 0x2F819; 0x2F81A; 0x2F81B; 0x2F81C; 0x2F81D;
  0x2F81E; 0x2F81F; 0x2F820; 0x2F821; 0x2F822; 0x2F823; 0x2F824; 0x2F825;
  0x2F826; 0x2F827; 0x2F828; 0x2F829; 0x2F82A; 0x2F82B; 0x2F82C; 0x2F82D;
  0x2F82E; 0x2F82F; 0x2F830; 0x2F831; 0x2F832; 0x2F833; 0x2F834; 0x2F835;
  0x2F836; 0x2F837; 0x2F838; 0x2F839; 0x2F83A; 0x2F83B; 0x2F83C; 0x2F83D;
  0x2F83E; 0x2F83F; 0x2F840; 0x2F841; 0x2F842; 0x2F843; 0x2F844; 0x2F845;
  0x2F846; 0x2F847; 0x2F848; 0x2F849; 0x2F84A; 0x2F84B; 0x2F84C; 0x2F84D;
  0x2F84E; 0x2F84F; 0x2F850; 0x2F851; 0x2F852; 0x2F853; 0x2F854; 0x2F855;
  0x2F856; 0x2F857; 0x2F858; 0x2F859; 0x2F85A; 0x2F85B; 0x2F85C; 0x2F85D;
  0x2F85E; 0x2F85F; 0x2F860; 0x2F861; 0x2F862; 0x2F863; 0x2F864; 0x2F865;
  0x2F866; 0x2F867; 0x2F868; 0x2F869; 0x2F86A; 0x2F86B; 0x2F86C; 0x2F86D;
  0x2F86E; 0x2F86F; 0x2F870; 0x2F871; 0x2F872; 0x2F873; 0x2F874; 0x2F875;
  0x2F876; 0x2F877; 0x2F878; 0x2F879; 0x2F87A; 0x2F87B; 0x2F87C; 0x2F87D;
  0x2F87E; 0x2F87F; 0x2F880; 0x2F881; 0x2F882; 0x2F883; 0x2F884; 0x2F885;
  0x2F886; 0x2F887; 0x2F888; 0x2F889; 0x2F88A; 0x2F88B; 0x2F88C; 0x2F88D;
  0x2F88E; 0x2F88F; 0x2F890; 0x2F891; 0x2F892; 0x2F893; 0x2F894; 0x2F895;
  0x2F896; 0x2F897; 0x2F898; 0x2F899; 0x2F89A; 0x2F89B; 0x2F89C; 0x2F89D;
  0x2F89E; 0x2F89F; 0x2F8A0; 0x2F8A1; 0x2F8A2; 0x2F8A3; 0x2F8A4; 0x2F8A5;
  0x2F8A6; 0x2F8A7; 0x2F8A8; 0x2F8A9; 0x2F8AA; 0x2F8AB; 0x2F8AC; 0x2F8AD;
  0x2F8AE; 0x2F8AF; 0x2F8B0; 0x2F8B1; 0x2F8B2; 0x2F8B3; 0x2F8B4; 0x2F8B5;
  0x2F8B6; 0x2F8B7; 0x2F8B8; 0x2F8B9; 0x2F8BA; 0x2F8BB; 0x2F8BC; 0x2F8BD;
  0x2F8BE; 0x2F8BF; 0x2F8C0; 0x2F8C1; 0x2F8C2; 0x2F8C3; 0x2F8C4; 0x2F8C5;
  0x2F8C6; 0x2F8C7; 0x2F8C8; 0x2F8C9; 0x2F8CA; 0x2F8CB; 0x2F8CC; 0x2F8CD;
  0x2F8CE; 0x2F8CF; 0x2F8D0; 0x2F8D1; 0x2F8D2; 0x2F8D3; 0x2F8D4; 0x2F8D5;
  0x2F8D6; 0x2F8D7; 0x2F8D8; 0x2F8D9; 0x2F8DA; 0x2F8DB; 0x2F8DC; 0x2F8DD;
  0x2F8DE; 0x2F8DF; 0x2F8E0; 0x2F8E1; 0x2F8E2; 0x2F8E3; 0x2F8E4; 0x2F8E5;
  0x2F8E6; 0x2F8E7; 0x2F8E8; 0x2F8E9; 0x2F8EA; 0x2F8EB; 0x2F8EC; 0x2F8ED;
  0x2F8EE; 0x2F8EF; 0x2F8F0; 0x2F8F1; 0x2F8F2; 0x2F8F3; 0x2F8F4; 0x2F8F5;
  0x2F8F6; 0x2F8F7; 0x2F8F8; 0x2F8F9; 0x2F8FA; 0x2F8FB; 0x2F8FC; 0x2F8FD;
  0x2F8FE; 0x2F8FF; 0x2F900; 0x2F901; 0x2F902; 0x2F903; 0x2F904; 0x2F905;
  0x2F906; 0x2F907; 0x2F908; 0x2F909; 0x2F90A; 0x2F90B; 0x2F90C; 0x2F90D;
  0x2F90E; 0x2F90F; 0x2F910; 0x2F911; 0x2F912; 0x2F913; 0x2F914; 0x2F915;
  0x2F916; 0x2F917; 0x2F918; 0x2F919; 0x2F91A; 0x2F91B; 0x2F91C; 0x2F91D;
  0x2F91E; 0x2F91F; 0x2F920; 0x2F921; 0x2F922; 0x2F923; 0x2F924; 0x2F925;
  0x2F926; 0x2F927; 0x2F928; 0x2F929; 0x2F92A; 0x2F92B; 0x2F92C; 0x2F92D;
  0x2F92E; 0x2F92F; 0x2F930; 0x2F931; 0x2F932; 0x2F933; 0x2F934; 0x2F935;
  0x2F936; 0x2F937; 0x2F938; 0x2F939; 0x2F93A; 0x2F93B; 0x2F93C; 0x2F93D;
  0x2F93E; 0x2F93F; 0x2F940; 0x2F941; 0x2F942; 0x2F943; 0x2F944; 0x2F945;
  0x2F946; 0x2F947; 0x2F948; 0x2F949; 0x2F94A; 0x2F94B; 0x2F94C; 0x2F94D;
  0x2F94E; 0x2F94F; 0x2F950; 0x2F951; 0x2F952; 0x2F953; 0x2F954; 0x2F955;
  0x2F956; 0x2F957; 0x2F958; 0x2F959; 0x2F95A; 0x2F95B; 0x2F95C; 0x2F95D;
  0x2F95E; 0x2F95F; 0x2F960; 0x2F961; 0x2F962; 0x2F963; 0x2F964; 0x2F965;
  0x2F966; 0x2F967; 0x2F968; 0x2F969; 0x2F96A; 0x2F96B; 0x2F96C; 0x2F96D;
  0x2F96E; 0x2F96F; 0x2F970; 0x2F971; 0x2F972; 0x2F973; 0x2F974; 0x2F975;
  0x2F976; 0x2F977; 0x2F978; 0x2F979; 0x2F97A; 0x2F97B; 0x2F97C; 0x2F97D;
  0x2F97E; 0x2F97F; 0x2F980; 0x2F981; 0x2F982; 0x2F983; 0x2F984; 0x2F985;
  0x2F986; 0x2F987; 0x2F988; 0x2F989; 0x2F98A; 0x2F98B; 0x2F98C; 0x2F98D;
  0x2F98E; 0x2F98F; 0x2F990; 0x2F991; 0x2F992; 0x2F993; 0x2F994; 0x2F995;
  0x2F996; 0x2F997; 0x2F998; 0x2F999; 0x2F99A; 0x2F99B; 0x2F99C; 0x2F99D;
  0x2F99E; 0x2F99F; 0x2F9A0; 0x2F9A1; 0x2F9A2; 0x2F9A3; 0x2F9A4; 0x2F9A5;
  0x2F9A6; 0x2F9A7; 0x2F9A8; 0x2F9A9; 0x2F9AA; 0x2F9AB; 0x2F9AC; 0x2F9AD;
  0x2F9AE; 0x2F9AF; 0x2F9B0; 0x2F9B1; 0x2F9B2; 0x2F9B3; 0x2F9B4; 0x2F9B5;
  0x2F9B6; 0x2F9B7; 0x2F9B8; 0x2F9B9; 0x2F9BA; 0x2F9BB; 0x2F9BC; 0x2F9BD;
  0x2F9BE; 0x2F9BF; 0x2F9C0; 0x2F9C1; 0x2F9C2; 0x2F9C3; 0x2F9C4; 0x2F9C5;
  0x2F9C6; 0x2F9C7; 0x2F9C8; 0x2F9C9; 0x2F9CA; 0x2F9CB; 0x2F9CC; 0x2F9CD;
  0x2F9CE; 0x2F9CF; 0x2F9D0; 0x2F9D1; 0x2F9D2; 0x2F9D3; 0x2F9D4; 0x2F9D5;
  0x2F9D6; 0x2F9D7; 0x2F9D8; 0x2F9D9; 0x2F9DA; 0x2F9DB; 0x2F9DC; 0x2F9DD;
  0x2F9DE; 0x2F9DF; 0x2F9E0; 0x2F9E1; 0x2F9E2; 0x2F9E3; 0x2F9E4; 0x2F9E5;
  0x2F9E6; 0x2F9E7; 0x2F9E8; 0x2F9E9; 0x2F9EA; 0x2F9EB; 0x2F9EC; 0x2F9ED;
  0x2F9EE; 0x2F9EF; 0x2F9F0; 0x2F9F1; 0x2F9F2; 0x2F9F3; 0x2F9F4; 0x2F9F5;
  0x2F9F6; 0x2F9F7; 0x2F9F8; 0x2F9F9; 0x2F9FA; 0x2F9FB; 0x2F9FC; 0x2F9FD;
  0x2F9FE; 0x2F9FF; 0x2FA00; 0x2FA01; 0x2FA02; 0x2FA03; 0x2FA04; 0x2FA05;
  0x2FA06; 0x2FA07; 0x2FA08; 0x2FA09; 0x2FA0A; 0x2FA0B; 0x2FA0C; 0x2FA0D;
  0x2FA0E; 0x2FA0F; 0x2FA10; 0x2FA11; 0x2FA12; 0x2FA13; 0x2FA14; 0x2FA15;
  0x2FA16; 0x2FA17; 0x2FA18; 0x2FA19; 0x2FA1A; 0x2FA1B; 0x2FA1C; 0x2FA1D ].

Definition nfcCompose_0 : list (Z * Z) := [
  (0x3C00000338, 0x226E); (0x3D00000338, 0x2260); (0x3E00000338, 0x226F);
  (0x4100000300, 0xC0); (0x4100000301, 0xC1); (0x4100000302, 0xC2);
  (0x4100000303, 0xC3); (0x4100000304, 0x100); (0x4100000306, 0x102);
  (0x4100000307, 0x226); (0x4100000308, 0xC4); (0x4100000309, 0x1EA2);
  (0x410000030A, 0xC5); (0x410000030C, 0x1CD); (0x410000030F, 0x200);
  (0x4100000311, 0x202); (0x4100000323, 0x1EA0); (0x4100000325, 0x1E00);
  (0x4100000328, 0x104); (0x4200000307, 0x1E02); (0x4200000323, 0x1E04);
  (0x4200000331, 0x1E06); (0x4300000301, 0x106); (0x4300000302, 0x108);
  (0x4300000307, 0x10A); (0x430000030C, 0x10C); (0x4300000327, 0xC7);
  (0x4400000307, 0x1E0A); (0x440000030C, 0x10E); (0x4400000323, 0x1E0C);
  (0x4400000327, 0x1E10); (0x440000032D, 0x1E12); (0x4400000331, 0x1E0E);
  (0x4500000300, 0xC8); (0x4500000301, 0xC9); (0x4500000302, 0xCA);
  (0x4500000303, 0x1EBC); (0x4500000304, 0x112); (0x4500000306, 0x114);
  (0x4500000307, 0x116); (0x4500000308, 0xCB); (0x4500000309, 0x1EBA);
  (0x450000030C, 0x11A); (0x450000030F, 0x204); (0x4500000311, 0x206);
  (0x4500000323, 0x1EB8); (0x4500000327, 0x228); (0x4500000328, 0x118);
  (0x450000032D, 0x1E18); (0x4500000330, 0x1E1A); (0x4600000307, 0x1E1E);
  (0x4700000301, 0x1F4); (0x4700000302, 0x11C); (0x4700000304, 0x1E20);
  (0x4700000306, 0x11E); (0x4700000307, 0x120); (0x470000030C, 0x1E6);
  (0x4700000327, 0x122); (0x4800000302, 0x124); (0x4800000307, 0x1E22);
  (0x4800000308, 0x1E26); (0x480000030C, 0x21E); (0x4800000323, 0x1E24);
  (0x4800000327, 0x1E28); (0x480000032E, 0x1E2A); (0x4900000300, 0xCC);
  (0x4900000301, 0xCD); (0x4900000302, 0xCE); (0x4900000303, 0x128);
  (0x4900000304, 0x12A); (0x4900000306, 0x12C); (0x4900000307, 0x130);
  (0x4900000308, 0xCF); (0x4900000309, 0x1EC8); (0x490000030C, 0x1CF);
  (0x490000030F, 0x208); (0x4900000311, 0x20A); (0x4900000323, 0x1ECA);
  (0x4900000328, 0x12E); (0x4900000330, 0x1E2C); (0x4A00000302, 0x134);
  (0x4B00000301, 0x1E30); (0x4B0000030C, 0x1E8); (0x4B00000323, 0x1E32);
  (0x4B00000327, 0x136); (0x4B00000331, 0x1E34); (0x4C00000301, 0x139);
  (0x4C0000030C, 0x13D); (0x4C00000323, 0x1E36); (0x4C00000327, 0x13B);
  (0x4C0000032D, 0x1E3C); (0x4C00000331, 0x1E3A); (0x4D00000301, 0x1E3E);
  (0x4D00000307, 0x1E40); (0x4D00000323, 0x1E42); (0x4E00000300, 0x1F8);
  (0x4E00000301, 0x143); (0x4E00000303, 0xD1); (0x4E00000307, 0x1E44);
  (0x4E0000030C, 0x147); (0x4E00000323, 0x1E46); (0x4E00000327, 0x145);
  (0x4E0000032D, 0x1E4A); (0x4E00000331, 0x1E48); (0x4F00000300, 0xD2);
  (0x4F00000301, 0xD3); (0x4F00000302, 0xD4); (0x4F00000303, 0xD5);
  (0x4F00000304, 0x14C); (0x4F00000306, 0x14E); (0x4F00000307, 0x22E);
  (0x4F00000308, 0xD6); (0x4F00000309, 0x1ECE); (0x4F0000030B, 0x150);
  (0x4F0000030C, 0x1D1); (0x4F0000030F, 0x20C); (0x4F00000311, 0x20E);
  (0x4F0000031B, 0x1A0); (0x4F00000323, 0x1ECC); (0x4F00000328, 0x1EA);
  (0x5000000301, 0x1E54); (0x5000000307, 0x1E56); (0x5200000301, 0x154);
  (0x5200000307, 0x1E58); (0x520000030C, 0x158); (0x520000030F, 0x210);
  (0x5200000311, 0x212); (0x5200000323, 0x1E5A); (0x5200000327, 0x156);
  (0x5200000331, 0x1E5E); (0x5300000301, 0x15A); (0x5300000302, 0x15C);
  (0x5300000307, 0x1E60); (0x530000030C, 0x160); (0x5300000323, 0x1E62);
  (0x5300000326, 0x218); (0x5300000327, 0x15E); (0x5400000307, 0x1E6A);
  (0x540000030C, 0x164); (0x5400000323, 0x1E6C); (0x5400000326, 0x21A);
  (0x5400000327, 0x162); (0x540000032D, 0x1E70); (0x5400000331, 0x1E6E);
  (0x5500000300, 0xD9); (0x5500000301, 0xDA); (0x5500000302, 0xDB);
  (0x5500000303, 0x168); (0x5500000304, 0x16A); (0x5500000306, 0x16C) ].

Definition nfcCompose_1 : list (Z * Z) := [
  (0x5500000308, 0xDC); (0x5500000309, 0x1EE6); (0x550000030A, 0x16E);
  (0x550000030B, 0x170); (0x550000030C, 0x1D3); (0x550000030F, 0x214);
  (0x5500000311, 0x216); (0x550000031B, 0x1AF); (0x5500000323, 0x1EE4);
  (0x5500000324, 0x1E72); (0x5500000328, 0x172); (0x550000032D, 0x1E76);
  (0x5500000330, 0x1E74); (0x5600000303, 0x1E7C); (0x5600000323, 0x1E7E);
  (0x5700000300, 0x1E80); (0x5700000301, 0x1E82); (0x5700000302, 0x174);
  (0x5700000307, 0x1E86); (0x5700000308, 0x1E84); (0x5700000323, 0x1E88);
  (0x5800000307, 0x1E8A); (0x5800000308, 0x1E8C); (0x5900000300, 0x1EF2);
  (0x5900000301, 0xDD); (0x5900000302, 0x176); (0x5900000303, 0x1EF8);
  (0x5900000304, 0x232); (0x5900000307, 0x1E8E); (0x5900000308, 0x178);
  (0x5900000309, 0x1EF6); (0x5900000323, 0x1EF4); (0x5A00000301, 0x179);
  (0x5A00000302, 0x1E90); (0x5A00000307, 0x17B); (0x5A0000030C, 0x17D);
  (0x5A00000323, 0x1E92); (0x5A00000331, 0x1E94); (0x6100000300, 0xE0);
  (0x6100000301, 0xE1); (0x6100000302, 0xE2); (0x6100000303, 0xE3);
  (0x6100000304, 0x101); (0x6100000306, 0x103); (0x6100000307, 0x227);
  (0x6100000308, 0xE4); (0x6100000309, 0x1EA3); (0x610000030A, 0xE5);
  (0x610000030C, 0x1CE); (0x610000030F, 0x201); (0x6100000311, 0x203);
  (0x6100000323, 0x1EA1); (0x6100000325, 0x1E01); (0x6100000328, 0x105);
  (0x6200000307, 0x1E03); (0x6200000323, 0x1E05); (0x6200000331, 0x1E07);
  (0x6300000301, 0x107); (0x6300000302, 0x109); (0x6300000307, 0x10B);
  (0x630000030C, 0x10D); (0x6300000327, 0xE7); (0x6400000307, 0x1E0B);
  (0x640000030C, 0x10F); (0x6400000323, 0x1E0D); (0x6400000327, 0x1E11);
  (0x640000032D, 0x1E13); (0x6400000331, 0x1E0F); (0x6500000300, 0xE8);
  (0x6500000301, 0xE9); (0x6500000302, 0xEA); (0x6500000303, 0x1EBD);
  (0x6500000304, 0x113); (0x6500000306, 0x115); (0x6500000307, 0x117);
  (0x6500000308, 0xEB); (0x6500000309, 0x1EBB); (0x650000030C, 0x11B);
  (0x650000030F, 0x205); (0x6500000311, 0x207); (0x6500000323, 0x1EB9);
  (0x6500000327, 0x229); (0x6500000328, 0x119); (0x650000032D, 0x1E19);
  (0x6500000330, 0x1E1B); (0x6600000307, 0x1E1F); (0x6700000301, 0x1F5);
  (0x6700000302, 0x11D); (0x6700000304, 0x1E21); (0x6700000306, 0x11F);
  (0x6700000307, 0x121); (0x670000030C, 0x1E7); (0x6700000327, 0x123);
  (0x6800000302, 0x125); (0x6800000307, 0x1E23); (0x6800000308, 0x1E27);
  (0x680000030C, 0x21F); (0x6800000323, 0x1E25); (0x6800000327, 0x1E29);
  (0x680000032E, 0x1E2B); (0x6800000331, 0x1E96); (0x6900000300, 0xEC);
  (0x6900000301, 0xED); (0x6900000302, 0xEE); (0x6900000303, 0x129);
  (0x6900000304, 0x12B); (0x6900000306, 0x12D); (0x6900000308, 0xEF);
  (0x6900000309, 0x1EC9); (0x690000030C, 0x1D0); (0x690000030F, 0x209);
  (0x6900000311, 0x20B); (0x6900000323, 0x1ECB); (0x6900000328, 0x12F);
  (0x6900000330, 0x1E2D); (0x6A00000302, 0x135); (0x6A0000030C, 0x1F0);
  (0x6B00000301, 0x1E31); (0x6B0000030C, 0x1E9); (0x6B00000323, 0x1E33);
  (0x6B00000327, 0x137); (0x6B00000331, 0x1E35); (0x6C00000301, 0x13A);
  (0x6C0000030C, 0x13E); (0x6C00000323, 0x1E37); (0x6C00000327, 0x13C);
  (0x6C0000032D, 0x1E3D); (0x6C00000331, 0x1E3B); (0x6D00000301, 0x1E3F);
  (0x6D00000307, 0x1E41); (0x6D00000323, 0x1E43); (0x6E00000300, 0x1F9);
  (0x6E00000301, 0x144); (0x6E00000303, 0xF1); (0x6E00000307, 0x1E45);
  (0x6E0000030C, 0x148); (0x6E00000323, 0x1E47); (0x6E00000327, 0x146);
  (0x6E0000032D, 0x1E4B); (0x6E00000331, 0x1E49); (0x6F00000300, 0xF2);
  (0x6F00000301, 0xF3); (0x6F00000302, 0xF4); (0x6F00000303, 0xF5);
  (0x6F00000304, 0x14D); (0x6F00000306, 0x14F); (0x6F00000307, 0x22F);
  (0x6F00000308, 0xF6); (0x6F00000309, 0x1ECF); (0x6F0000030B, 0x151) ].

Definition nfcCompose_2 : list (Z * Z) := [
  (0x6F0000030C, 0x1D2); (0x6F0000030F, 0x20D); (0x6F00000311, 0x20F);
  (0x6F0000031B, 0x1A1); (0x6F00000323, 0x1ECD); (0x6F00000328, 0x1EB);
  (0x7000000301, 0x1E55); (0x7000000307, 0x1E57); (0x7200000301, 0x155);
  (0x7200000307, 0x1E59); (0x720000030C, 0x159); (0x720000030F, 0x211);
  (0x7200000311, 0x213); (0x7200000323, 0x1E5B); (0x7200000327, 0x157);
  (0x7200000331, 0x1E5F); (0x7300000301, 0x15B); (0x7300000302, 0x15D);
  (0x7300000307, 0x1E61); (0x730000030C, 0x161); (0x7300000323, 0x1E63);
  (0x7300000326, 0x219); (0x7300000327, 0x15F); (0x7400000307, 0x1E6B);
  (0x7400000308, 0x1E97); (0x740000030C, 0x165); (0x7400000323, 0x1E6D);
  (0x7400000326, 0x21B); (0x7400000327, 0x163); (0x740000032D, 0x1E71);
  (0x7400000331, 0x1E6F); (0x7500000300, 0xF9); (0x7500000301, 0xFA);
  (0x7500000302, 0xFB); (0x7500000303, 0x169); (0x7500000304, 0x16B);
  (0x7500000306, 0x16D); (0x7500000308, 0xFC); (0x7500000309, 0x1EE7);
  (0x750000030A, 0x16F); (0x750000030B, 0x171); (0x750000030C, 0x1D4);
  (0x750000030F, 0x215); (0x7500000311, 0x217); (0x750000031B, 0x1B0);
  (0x7500000323, 0x1EE5); (0x7500000324, 0x1E73); (0x7500000328, 0x173);
  (0x750000032D, 0x1E77); (0x7500000330, 0x1E75); (0x7600000303, 0x1E7D);
  (0x7600000323, 0x1E7F); (0x7700000300, 0x1E81); (0x7700000301, 0x1E83);
  (0x7700000302, 0x175); (0x7700000307, 0x1E87); (0x7700000308, 0x1E85);
  (0x770000030A, 0x1E98); (0x7700000323, 0x1E89); (0x7800000307, 0x1E8B);
  (0x7800000308, 0x1E8D); (0x7900000300, 0x1EF3); (0x7900000301, 0xFD);
  (0x7900000302, 0x177); (0x7900000303, 0x1EF9); (0x7900000304, 0x233);
  (0x7900000307, 0x1E8F); (0x7900000308, 0xFF); (0x7900000309, 0x1EF7);
  (0x790000030A, 0x1E99); (0x7900000323, 0x1EF5); (0x7A00000301, 0x17A);
  (0x7A00000302, 0x1E91); (0x7A00000307, 0x17C); (0x7A0000030C, 0x17E);
  (0x7A00000323, 0x1E93); (0x7A00000331, 0x1E95); (0xA800000300, 0x1FED);
  (0xA800000301, 0x385); (0xA800000342, 0x1FC1); (0xC200000300, 0x1EA6);
  (0xC200000301, 0x1EA4); (0xC200000303, 0x1EAA); (0xC200000309, 0x1EA8);
  (0xC400000304, 0x1DE); (0xC500000301, 0x1FA); (0xC600000301, 0x1FC);
  (0xC600000304, 0x1E2); (0xC700000301, 0x1E08); (0xCA00000300, 0x1EC0);
  (0xCA00000301, 0x1EBE); (0xCA00000303, 0x1EC4); (0xCA00000309, 0x1EC2);
  (0xCF00000301, 0x1E2E); (0xD400000300, 0x1ED2); (0xD400000301, 0x1ED0);
  (0xD400000303, 0x1ED6); (0xD400000309, 0x1ED4); (0xD500000301, 0x1E4C);
  (0xD500000304, 0x22C); (0xD500000308, 0x1E4E); (0xD600000304, 0x22A);
  (0xD800000301, 0x1FE); (0xDC00000300, 0x1DB); (0xDC00000301, 0x1D7);
  (0xDC00000304, 0x1D5); (0xDC0000030C, 0x1D9); (0xE200000300, 0x1EA7);
  (0xE200000301, 0x1EA5); (0xE200000303, 0x1EAB); (0xE200000309, 0x1EA9);
  (0xE400000304, 0x1DF); (0xE500000301, 0x1FB); (0xE600000301, 0x1FD);
  (0xE600000304, 0x1E3); (0xE700000301, 0x1E09); (0xEA00000300, 0x1EC1);
  (0xEA00000301, 0x1EBF); (0xEA00000303, 0x1EC5); (0xEA00000309, 0x1EC3);
  (0xEF00000301, 0x1E2F); (0xF400000300, 0x1ED3); (0xF400000301, 0x1ED1);
  (0xF400000303, 0x1ED7); (0xF400000309, 0x1ED5); (0xF500000301, 0x1E4D);
  (0xF500000304, 0x22D); (0xF500000308, 0x1E4F); (0xF600000304, 0x22B);
  (0xF800000301, 0x1FF); (0xFC00000300, 0x1DC); (0xFC00000301, 0x1D8);
  (0xFC00000304, 0x1D6); (0xFC0000030C, 0x1DA); (0x10200000300, 0x1EB0);
  (0x10200000301, 0x1EAE); (0x10200000303, 0x1EB4); (0x10200000309, 0x1EB2);
  (0x10300000300, 0x1EB1); (0x10300000301, 0x1EAF); (0x10300000303, 0x1EB5);
  (0x10300000309, 0x1EB3); (0x11200000300, 0x1E14); (0x11200000301, 0x1E16);
  (0x11300000300, 0x1E15); (0x11300000301, 0x1E17); (0x14C00000300, 0x1E50);
  (0x14C00000301, 0x1E52); (0x14D00000300, 0x1E51); (0x14D00000301, 0x1E53) ].

Definition nfcCompose_3 : list (Z * Z) := [
  (0x15A00000307, 0x1E64); (0x15B00000307, 0x1E65); (0x16000000307, 0x1E66);
  (0x16100000307, 0x1E67); (0x16800000301, 0x1E78); (0x16900000301, 0x1E79);
  (0x16A00000308, 0x1E7A); (0x16B00000308, 0x1E7B); (0x17F00000307, 0x1E9B);
  (0x1A000000300, 0x1EDC); (0x1A000000301, 0x1EDA); (0x1A000000303, 0x1EE0);
  (0x1A000000309, 0x1EDE); (0x1A000000323, 0x1EE2); (0x1A100000300, 0x1EDD);
  (0x1A100000301, 0x1EDB); (0x1A100000303, 0x1EE1); (0x1A100000309, 0x1EDF);
  (0x1A100000323, 0x1EE3); (0x1AF00000300, 0x1EEA); (0x1AF00000301, 0x1EE8);
  (0x1AF00000303, 0x1EEE); (0x1AF00000309, 0x1EEC); (0x1AF00000323, 0x1EF0);
  (0x1B000000300, 0x1EEB); (0x1B000000301, 0x1EE9); (0x1B000000303, 0x1EEF);
  (0x1B000000309, 0x1EED); (0x1B000000323, 0x1EF1); (0x1B70000030C, 0x1EE);
  (0x1EA00000304, 0x1EC); (0x1EB00000304, 0x1ED); (0x22600000304, 0x1E0);
  (0x22700000304, 0x1E1); (0x22800000306, 0x1E1C); (0x22900000306, 0x1E1D);
  (0x22E00000304, 0x230); (0x22F00000304, 0x231); (0x2920000030C, 0x1EF);
  (0x39100000300, 0x1FBA); (0x39100000301, 0x386); (0x39100000304, 0x1FB9);
  (0x39100000306, 0x1FB8); (0x39100000313, 0x1F08); (0x39100000314, 0x1F09);
  (0x39100000345, 0x1FBC); (0x39500000300, 0x1FC8); (0x39500000301, 0x388);
  (0x39500000313, 0x1F18); (0x39500000314, 0x1F19); (0x39700000300, 0x1FCA);
  (0x39700000301, 0x389); (0x39700000313, 0x1F28); (0x39700000314, 0x1F29);
  (0x39700000345, 0x1FCC); (0x39900000300, 0x1FDA); (0x39900000301, 0x38A);
  (0x39900000304, 0x1FD9); (0x39900000306, 0x1FD8); (0x39900000308, 0x3AA);
  (0x39900000313, 0x1F38); (0x39900000314, 0x1F39); (0x39F00000300, 0x1FF8);
  (0x39F00000301, 0x38C); (0x39F00000313, 0x1F48); (0x39F00000314, 0x1F49);
  (0x3A100000314, 0x1FEC); (0x3A500000300, 0x1FEA); (0x3A500000301, 0x38E);
  (0x3A500000304, 0x1FE9); (0x3A500000306, 0x1FE8); (0x3A500000308, 0x3AB);
  (0x3A500000314, 0x1F59); (0x3A900000300, 0x1FFA); (0x3A900000301, 0x38F);
  (0x3A900000313, 0x1F68); (0x3A900000314, 0x1F69); (0x3A900000345, 0x1FFC);
  (0x3AC00000345, 0x1FB4); (0x3AE00000345, 0x1FC4); (0x3B100000300, 0x1F70);
  (0x3B100000301, 0x3AC); (0x3B100000304, 0x1FB1); (0x3B100000306, 0x1FB0);
  (0x3B100000313, 0x1F00); (0x3B100000314, 0x1F01); (0x3B100000342, 0x1FB6);
  (0x3B100000345, 0x1FB3); (0x3B500000300, 0x1F72); (0x3B500000301, 0x3AD);
  (0x3B500000313, 0x1F10); (0x3B500000314, 0x1F11); (0x3B700000300, 0x1F74);
  (0x3B700000301, 0x3AE); (0x3B700000313, 0x1F20); (0x3B700000314, 0x1F21);
  (0x3B700000342, 0x1FC6); (0x3B700000345, 0x1FC3); (0x3B900000300, 0x1F76);
  (0x3B900000301, 0x3AF); (0x3B900000304, 0x1FD1); (0x3B900000306, 0x1FD0);
  (0x3B900000308, 0x3CA); (0x3B900000313, 0x1F30); (0x3B900000314, 0x1F31);
  (0x3B900000342, 0x1FD6); (0x3BF00000300, 0x1F78); (0x3BF00000301, 0x3CC);
  (0x3BF00000313, 0x1F40); (0x3BF00000314, 0x1F41); (0x3C100000313, 0x1FE4);
  (0x3C100000314, 0x1FE5); (0x3C500000300, 0x1F7A); (0x3C500000301, 0x3CD);
  (0x3C500000304, 0x1FE1); (0x3C500000306, 0x1FE0); (0x3C500000308, 0x3CB);
  (0x3C500000313, 0x1F50); (0x3C500000314, 0x1F51); (0x3C500000342, 0x1FE6);
  (0x3C900000300, 0x1F7C); (0x3C900000301, 0x3CE); (0x3C900000313, 0x1F60);
  (0x3C900000314, 0x1F61); (0x3C900000342, 0x1FF6); (0x3C900000345, 0x1FF3);
  (0x3CA00000300, 0x1FD2); (0x3CA00000301, 0x390); (0x3CA00000342, 0x1FD7);
  (0x3CB00000300, 0x1FE2); (0x3CB00000301, 0x3B0); (0x3CB00000342, 0x1FE7);
  (0x3CE00000345, 0x1FF4); (0x3D200000301, 0x3D3); (0x3D200000308, 0x3D4);
  (0x40600000308, 0x407); (0x41000000306, 0x4D0); (0x41000000308, 0x4D2);
  (0x41300000301, 0x403); (0x41500000300, 0x400); (0x41500000306, 0x4D6);
  (0x41500000308, 0x401); (0x41600000306, 0x4C1); (0x41600000308, 0x4DC);
  (0x41700000308, 0x4DE); (0x41800000300, 0x40D); (0x41800000304, 0x4E2);
  (0x41800000306, 0x419); (0x41800000308, 0x4E4); (0x41A00000301, 0x40C) ].

Definition nfcCompose_4 : list (Z * Z) := [
  (0x41E00000308, 0x4E6); (0x42300000304, 0x4EE); (0x42300000306, 0x40E);
  (0x42300000308, 0x4F0); (0x4230000030B, 0x4F2); (0x42700000308, 0x4F4);
  (0x42B00000308, 0x4F8); (0x42D00000308, 0x4EC); (0x43000000306, 0x4D1);
  (0x43000000308, 0x4D3); (0x43300000301, 0x453); (0x43500000300, 0x450);
  (0x43500000306, 0x4D7); (0x43500000308, 0x451); (0x43600000306, 0x4C2);
  (0x43600000308, 0x4DD); (0x43700000308, 0x4DF); (0x43800000300, 0x45D);
  (0x43800000304, 0x4E3); (0x43800000306, 0x439); (0x43800000308, 0x4E5);
  (0x43A00000301, 0x45C); (0x43E00000308, 0x4E7); (0x44300000304, 0x4EF);
  (0x44300000306, 0x45E); (0x44300000308, 0x4F1); (0x4430000030B, 0x4F3);
  (0x44700000308, 0x4F5); (0x44B00000308, 0x4F9); (0x44D00000308, 0x4ED);
  (0x45600000308, 0x457); (0x4740000030F, 0x476); (0x4750000030F, 0x477);
  (0x4D800000308, 0x4DA); (0x4D900000308, 0x4DB); (0x4E800000308, 0x4EA);
  (0x4E900000308, 0x4EB); (0x62700000653, 0x622); (0x62700000654, 0x623);
  (0x62700000655, 0x625); (0x64800000654, 0x624); (0x64A00000654, 0x626);
  (0x6C100000654, 0x6C2); (0x6D200000654, 0x6D3); (0x6D500000654, 0x6C0);
  (0x9280000093C, 0x929); (0x9300000093C, 0x931); (0x9330000093C, 0x934);
  (0x9C7000009BE, 0x9CB); (0x9C7000009D7, 0x9CC); (0xB4700000B3E, 0xB4B);
  (0xB4700000B56, 0xB48); (0xB4700000B57, 0xB4C); (0xB9200000BD7, 0xB94);
  (0xBC600000BBE, 0xBCA); (0xBC600000BD7, 0xBCC); (0xBC700000BBE, 0xBCB);
  (0xC4600000C56, 0xC48); (0xCBF00000CD5, 0xCC0); (0xCC600000CC2, 0xCCA);
  (0xCC600000CD5, 0xCC7); (0xCC600000CD6, 0xCC8); (0xCCA00000CD5, 0xCCB);
  (0xD4600000D3E, 0xD4A); (0xD4600000D57, 0xD4C); (0xD4700000D3E, 0xD4B);
  (0xDD900000DCA, 0xDDA); (0xDD900000DCF, 0xDDC); (0xDD900000DDF, 0xDDE);
  (0xDDC00000DCA, 0xDDD); (0x10250000102E, 0x1026); (0x110000001161, 0xAC00);
  (0x110000001162, 0xAC1C); (0x110000001163, 0xAC38); (0x110000001164, 0xAC54);
  (0x110000001165, 0xAC70); (0x110000001166, 0xAC8C); (0x110000001167, 0xACA8);
  (0x110000001168, 0xACC4); (0x110000001169, 0xACE0); (0x11000000116A, 0xACFC);
  (0x11000000116B, 0xAD18); (0x11000000116C, 0xAD34); (0x11000000116D, 0xAD50);
  (0x11000000116E, 0xAD6C); (0x11000000116F, 0xAD88); (0x110000001170, 0xADA4);
  (0x110000001171, 0xADC0); (0x110000001172, 0xADDC); (0x110000001173, 0xADF8);
  (0x110000001174, 0xAE14); (0x110000001175, 0xAE30); (0x110100001161, 0xAE4C);
  (0x110100001162, 0xAE68); (0x110100001163, 0xAE84); (0x110100001164, 0xAEA0);
  (0x110100001165, 0xAEBC); (0x110100001166, 0xAED8); (0x110100001167, 0xAEF4);
  (0x110100001168, 0xAF10); (0x110100001169, 0xAF2C); (0x11010000116A, 0xAF48);
  (0x11010000116B, 0xAF64); (0x11010000116C, 0xAF80); (0x11010000116D, 0xAF9C);
  (0x11010000116E, 0xAFB8); (0x11010000116F, 0xAFD4); (0x110100001170, 0xAFF0);
  (0x110100001171, 0xB00C); (0x110100001172, 0xB028); (0x110100001173, 0xB044);
  (0x110100001174, 0xB060); (0x110100001175, 0xB07C); (0x110200001161, 0xB098);
  (0x110200001162, 0xB0B4); (0x110200001163, 0xB0D0); (0x110200001164, 0xB0EC);
  (0x110200001165, 0xB108); (0x110200001166, 0xB124); (0x110200001167, 0xB140);
  (0x110200001168, 0xB15C); (0x110200001169, 0xB178); (0x11020000116A, 0xB194);
  (0x11020000116B, 0xB1B0); (0x11020000116C, 0xB1CC); (0x11020000116D, 0xB1E8);
  (0x11020000116E, 0xB204); (0x11020000116F, 0xB220); (0x110200001170, 0xB23C);
  (0x110200001171, 0xB258); (0x110200001172, 0xB274); (0x110200001173, 0xB290);
  (0x110200001174, 0xB2AC); (0x110200001175, 0xB2C8); (0x110300001161, 0xB2E4);
  (0x110300001162, 0xB300); (0x110300001163, 0xB31C); (0x110300001164, 0xB338);
  (0x110300001165, 0xB354); (0x110300001166, 0xB370); (0x110300001167, 0xB38C);
  (0x110300001168, 0xB3A8); (0x110300001169, 0xB3C4); (0x11030000116A, 0xB3E0);
  (0x11030000116B, 0xB3FC); (0x11030000116C, 0xB418); (0x11030000116D, 0xB434);
  (0x11030000116E, 0xB450); (0x11030000116F, 0xB46C); (0x110300001170, 0xB488) ].

Definition nfcCompose_5 : list (Z * Z) := [
  (0x110300001171, 0xB4A4); (0x110300001172, 0xB4C0); (0x110300001173, 0xB4DC);
  (0x110300001174, 0xB4F8); (0x110300001175, 0xB514); (0x110400001161, 0xB530);
  (0x110400001162, 0xB54C); (0x110400001163, 0xB568); (0x110400001164, 0xB584);
  (0x110400001165, 0xB5A0); (0x110400001166, 0xB5BC); (0x110400001167, 0xB5D8);
  (0x110400001168, 0xB5F4); (0x110400001169, 0xB610); (0x11040000116A, 0xB62C);
  (0x11040000116B, 0xB648); (0x11040000116C, 0xB664); (0x11040000116D, 0xB680);
  (0x11040000116E, 0xB69C); (0x11040000116F, 0xB6B8); (0x110400001170, 0xB6D4);
  (0x110400001171, 0xB6F0); (0x110400001172, 0xB70C); (0x110400001173, 0xB728);
  (0x110400001174, 0xB744); (0x110400001175, 0xB760); (0x110500001161, 0xB77C);
  (0x110500001162, 0xB798); (0x110500001163, 0xB7B4); (0x110500001164, 0xB7D0);
  (0x110500001165, 0xB7EC); (0x110500001166, 0xB808); (0x110500001167, 0xB824);
  (0x110500001168, 0xB840); (0x110500001169, 0xB85C); (0x11050000116A, 0xB878);
  (0x11050000116B, 0xB894); (0x11050000116C, 0xB8B0); (0x11050000116D, 0xB8CC);
  (0x11050000116E, 0xB8E8); (0x11050000116F, 0xB904); (0x110500001170, 0xB920);
  (0x110500001171, 0xB93C); (0x110500001172, 0xB958); (0x110500001173, 0xB974);
  (0x110500001174, 0xB990); (0x110500001175, 0xB9AC); (0x110600001161, 0xB9C8);
  (0x110600001162, 0xB9E4); (0x110600001163, 0xBA00); (0x110600001164, 0xBA1C);
  (0x110600001165, 0xBA38); (0x110600001166, 0xBA54); (0x110600001167, 0xBA70);
  (0x110600001168, 0xBA8C); (0x110600001169, 0xBAA8); (0x11060000116A, 0xBAC4);
  (0x11060000116B, 0xBAE0); (0x11060000116C, 0xBAFC); (0x11060000116D, 0xBB18);
  (0x11060000116E, 0xBB34); (0x11060000116F, 0xBB50); (0x110600001170, 0xBB6C);
  (0x110600001171, 0xBB88); (0x110600001172, 0xBBA4); (0x110600001173, 0xBBC0);
  (0x110600001174, 0xBBDC); (0x110600001175, 0xBBF8); (0x110700001161, 0xBC14);
  (0x110700001162, 0xBC30); (0x110700001163, 0xBC4C); (0x110700001164, 0xBC68);
  (0x110700001165, 0xBC84); (0x110700001166, 0xBCA0); (0x110700001167, 0xBCBC);
  (0x110700001168, 0xBCD8); (0x110700001169, 0xBCF4); (0x11070000116A, 0xBD10);
  (0x11070000116B, 0xBD2C); (0x11070000116C, 0xBD48); (0x11070000116D, 0xBD64);
  (0x11070000116E, 0xBD80); (0x11070000116F, 0xBD9C); (0x110700001170, 0xBDB8);
  (0x110700001171, 0xBDD4); (0x110700001172, 0xBDF0); (0x110700001173, 0xBE0C);
  (0x110700001174, 0xBE28); (0x110700001175, 0xBE44); (0x110800001161, 0xBE60);
  (0x110800001162, 0xBE7C); (0x110800001163, 0xBE98); (0x110800001164, 0xBEB4);
  (0x110800001165, 0xBED0); (0x110800001166, 0xBEEC); (0x110800001167, 0xBF08);
  (0x110800001168, 0xBF24); (0x110800001169, 0xBF40); (0x11080000116A, 0xBF5C);
  (0x11080000116B, 0xBF78); (0x11080000116C, 0xBF94); (0x11080000116D, 0xBFB0);
  (0x11080000116E, 0xBFCC); (0x11080000116F, 0xBFE8); (0x110800001170, 0xC004);
  (0x110800001171, 0xC020); (0x110800001172, 0xC03C); (0x110800001173, 0xC058);
  (0x110800001174, 0xC074); (0x110800001175, 0xC090); (0x110900001161, 0xC0AC);
  (0x110900001162, 0xC0C8); (0x110900001163, 0xC0E4); (0x110900001164, 0xC100);
  (0x110900001165, 0xC11C); (0x110900001166, 0xC138); (0x110900001167, 0xC154);
  (0x110900001168, 0xC170); (0x110900001169, 0xC18C); (0x11090000116A, 0xC1A8);
  (0x11090000116B, 0xC1C4); (0x11090000116C, 0xC1E0); (0x11090000116D, 0xC1FC);
  (0x11090000116E, 0xC218); (0x11090000116F, 0xC234); (0x110900001170, 0xC250);
  (0x110900001171, 0xC26C); (0x110900001172, 0xC288); (0x110900001173, 0xC2A4);
  (0x110900001174, 0xC2C0); (0x110900001175, 0xC2DC); (0x110A00001161, 0xC2F8);
  (0x110A00001162, 0xC314); (0x110A00001163, 0xC330); (0x110A00001164, 0xC34C);
  (0x110A00001165, 0xC368); (0x110A00001166, 0xC384); (0x110A00001167, 0xC3A0);
  (0x110A00001168, 0xC3BC); (0x110A00001169, 0xC3D8); (0x110A0000116A, 0xC3F4);
  (0x110A0000116B, 0xC410); (0x110A0000116C, 0xC42C); (0x110A0000116D, 0xC448);
  (0x110A0000116E, 0xC464); (0x110A0000116F, 0xC480); (0x110A00001170, 0xC49C);
  (0x110A00001171, 0xC4B8); (0x110A00001172, 0xC4D4); (0x110A00001173, 0xC4F0) ].

Definition nfcCompose_6 : list (Z * Z) := [
  (0x110A00001174, 0xC50C); (0x110A00001175, 0xC528); (0x110B00001161, 0xC544);
  (0x110B00001162, 0xC560); (0x110B00001163, 0xC57C); (0x110B00001164, 0xC598);
  (0x110B00001165, 0xC5B4); (0x110B00001166, 0xC5D0); (0x110B00001167, 0xC5EC);
  (0x110B00001168, 0xC608); (0x110B00001169, 0xC624); (0x110B0000116A, 0xC640);
  (0x110B0000116B, 0xC65C); (0x110B0000116C, 0xC678); (0x110B0000116D, 0xC694);
  (0x110B0000116E, 0xC6B0); (0x110B0000116F, 0xC6CC); (0x110B00001170, 0xC6E8);
  (0x110B00001171, 0xC704); (0x110B00001172, 0xC720); (0x110B00001173, 0xC73C);
  (0x110B00001174, 0xC758); (0x110B00001175, 0xC774); (0x110C00001161, 0xC790);
  (0x110C00001162, 0xC7AC); (0x110C00001163, 0xC7C8); (0x110C00001164, 0xC7E4);
  (0x110C00001165, 0xC800); (0x110C00001166, 0xC81C); (0x110C00001167, 0xC838);
  (0x110C00001168, 0xC854); (0x110C00001169, 0xC870); (0x110C0000116A, 0xC88C);
  (0x110C0000116B, 0xC8A8); (0x110C0000116C, 0xC8C4); (0x110C0000116D, 0xC8E0);
  (0x110C0000116E, 0xC8FC); (0x110C0000116F, 0xC918); (0x110C00001170, 0xC934);
  (0x110C00001171, 0xC950); (0x110C00001172, 0xC96C); (0x110C00001173, 0xC988);
  (0x110C00001174, 0xC9A4); (0x110C00001175, 0xC9C0); (0x110D00001161, 0xC9DC);
  (0x110D00001162, 0xC9F8); (0x110D00001163, 0xCA14); (0x110D00001164, 0xCA30);
  (0x110D00001165, 0xCA4C); (0x110D00001166, 0xCA68); (0x110D00001167, 0xCA84);
  (0x110D00001168, 0xCAA0); (0x110D00001169, 0xCABC); (0x110D0000116A, 0xCAD8);
  (0x110D0000116B, 0xCAF4); (0x110D0000116C, 0xCB10); (0x110D0000116D, 0xCB2C);
  (0x110D0000116E, 0xCB48); (0x110D0000116F, 0xCB64); (0x110D00001170, 0xCB80);
  (0x110D00001171, 0xCB9C); (0x110D00001172, 0xCBB8); (0x110D00001173, 0xCBD4);
  (0x110D00001174, 0xCBF0); (0x110D00001175, 0xCC0C); (0x110E00001161, 0xCC28);
  (0x110E00001162, 0xCC44); (0x110E00001163, 0xCC60); (0x110E00001164, 0xCC7C);
  (0x110E00001165, 0xCC98); (0x110E00001166, 0xCCB4); (0x110E00001167, 0xCCD0);
  (0x110E00001168, 0xCCEC); (0x110E00001169, 0xCD08); (0x110E0000116A, 0xCD24);
  (0x110E0000116B, 0xCD40); (0x110E0000116C, 0xCD5C); (0x110E0000116D, 0xCD78);
  (0x110E0000116E, 0xCD94); (0x110E0000116F, 0xCDB0); (0x110E00001170, 0xCDCC);
  (0x110E00001171, 0xCDE8); (0x110E00001172, 0xCE04); (0x110E00001173, 0xCE20);
  (0x110E00001174, 0xCE3C); (0x110E00001175, 0xCE58); (0x110F00001161, 0xCE74);
  (0x110F00001162, 0xCE90); (0x110F00001163, 0xCEAC); (0x110F00001164, 0xCEC8);
  (0x110F00001165, 0xCEE4); (0x110F00001166, 0xCF00); (0x110F00001167, 0xCF1C);
  (0x110F00001168, 0xCF38); (0x110F00001169, 0xCF54); (0x110F0000116A, 0xCF70);
  (0x110F0000116B, 0xCF8C); (0x110F0000116C, 0xCFA8); (0x110F0000116D, 0xCFC4);
  (0x110F0000116E, 0xCFE0); (0x110F0000116F, 0xCFFC); (0x110F00001170, 0xD018);
  (0x110F00001171, 0xD034); (0x110F00001172, 0xD050); (0x110F00001173, 0xD06C);
  (0x110F00001174, 0xD088); (0x110F00001175, 0xD0A4); (0x111000001161, 0xD0C0);
  (0x111000001162, 0xD0DC); (0x111000001163, 0xD0F8); (0x111000001164, 0xD114);
  (0x111000001165, 0xD130); (0x111000001166, 0xD14C); (0x111000001167, 0xD168);
  (0x111000001168, 0xD184); (0x111000001169, 0xD1A0); (0x11100000116A, 0xD1BC);
  (0x11100000116B, 0xD1D8); (0x11100000116C, 0xD1F4); (0x11100000116D, 0xD210);
  (0x11100000116E, 0xD22C); (0x11100000116F, 0xD248); (0x111000001170, 0xD264);
  (0x111000001171, 0xD280); (0x111000001172, 0xD29C); (0x111000001173, 0xD2B8);
  (0x111000001174, 0xD2D4); (0x111000001175, 0xD2F0); (0x111100001161, 0xD30C);
  (0x111100001162, 0xD328); (0x111100001163, 0xD344); (0x111100001164, 0xD360);
  (0x111100001165, 0xD37C); (0x111100001166, 0xD398); (0x111100001167, 0xD3B4);
  (0x111100001168, 0xD3D0); (0x111100001169, 0xD3EC); (0x11110000116A, 0xD408);
  (0x11110000116B, 0xD424); (0x11110000116C, 0xD440); (0x11110000116D, 0xD45C);
  (0x11110000116E, 0xD478); (0x11110000116F, 0xD494); (0x111100001170, 0xD4B0);
  (0x111100001171, 0xD4CC); (0x111100001172, 0xD4E8); (0x111100001173, 0xD504);
  (0x111100001174, 0xD520); (0x111100001175, 0xD53C); (0x111200001161, 0xD558) ].

Definition nfcCompose_7 : list (Z * Z) := [
  (0x111200001162, 0xD574); (0x111200001163, 0xD590); (0x111200001164, 0xD5AC);
  (0x111200001165, 0xD5C8); (0x111200001166, 0xD5E4); (0x111200001167, 0xD600);
  (0x111200001168, 0xD61C); (0x111200001169, 0xD638); (0x11120000116A, 0xD654);
  (0x11120000116B, 0xD670); (0x11120000116C, 0xD68C); (0x11120000116D, 0xD6A8);
  (0x11120000116E, 0xD6C4); (0x11120000116F, 0xD6E0); (0x111200001170, 0xD6FC);
  (0x111200001171, 0xD718); (0x111200001172, 0xD734); (0x111200001173, 0xD750);
  (0x111200001174, 0xD76C); (0x111200001175, 0xD788); (0x1B0500001B35, 0x1B06);
  (0x1B0700001B35, 0x1B08); (0x1B0900001B35, 0x1B0A); (0x1B0B00001B35, 0x1B0C);
  (0x1B0D00001B35, 0x1B0E); (0x1B1100001B35, 0x1B12); (0x1B3A00001B35, 0x1B3B);
  (0x1B3C00001B35, 0x1B3D); (0x1B3E00001B35, 0x1B40); (0x1B3F00001B35, 0x1B41);
  (0x1B4200001B35, 0x1B43); (0x1E3600000304, 0x1E38); (0x1E3700000304, 0x1E39);
  (0x1E5A00000304, 0x1E5C); (0x1E5B00000304, 0x1E5D); (0x1E6200000307, 0x1E68);
  (0x1E6300000307, 0x1E69); (0x1EA000000302, 0x1EAC); (0x1EA000000306, 0x1EB6);
  (0x1EA100000302, 0x1EAD); (0x1EA100000306, 0x1EB7); (0x1EB800000302, 0x1EC6);
  (0x1EB900000302, 0x1EC7); (0x1ECC00000302, 0x1ED8); (0x1ECD00000302, 0x1ED9);
  (0x1F0000000300, 0x1F02); (0x1F0000000301, 0x1F04); (0x1F0000000342, 0x1F06);
  (0x1F0000000345, 0x1F80); (0x1F0100000300, 0x1F03); (0x1F0100000301, 0x1F05);
  (0x1F0100000342, 0x1F07); (0x1F0100000345, 0x1F81); (0x1F0200000345, 0x1F82);
  (0x1F0300000345, 0x1F83); (0x1F0400000345, 0x1F84); (0x1F0500000345, 0x1F85);
  (0x1F0600000345, 0x1F86); (0x1F0700000345, 0x1F87); (0x1F0800000300, 0x1F0A);
  (0x1F0800000301, 0x1F0C); (0x1F0800000342, 0x1F0E); (0x1F0800000345, 0x1F88);
  (0x1F0900000300, 0x1F0B); (0x1F0900000301, 0x1F0D); (0x1F0900000342, 0x1F0F);
  (0x1F0900000345, 0x1F89); (0x1F0A00000345, 0x1F8A); (0x1F0B00000345, 0x1F8B);
  (0x1F0C00000345, 0x1F8C); (0x1F0D00000345, 0x1F8D); (0x1F0E00000345, 0x1F8E);
  (0x1F0F00000345, 0x1F8F); (0x1F1000000300, 0x1F12); (0x1F1000000301, 0x1F14);
  (0x1F1100000300, 0x1F13); (0x1F1100000301, 0x1F15); (0x1F1800000300, 0x1F1A);
  (0x1F1800000301, 0x1F1C); (0x1F1900000300, 0x1F1B); (0x1F1900000301, 0x1F1D);
  (0x1F2000000300, 0x1F22); (0x1F2000000301, 0x1F24); (0x1F2000000342, 0x1F26);
  (0x1F2000000345, 0x1F90); (0x1F2100000300, 0x1F23); (0x1F2100000301, 0x1F25);
  (0x1F2100000342, 0x1F27); (0x1F2100000345, 0x1F91); (0x1F2200000345, 0x1F92);
  (0x1F2300000345, 0x1F93); (0x1F2400000345, 0x1F94); (0x1F2500000345, 0x1F95);
  (0x1F2600000345, 0x1F96); (0x1F2700000345, 0x1F97); (0x1F2800000300, 0x1F2A);
  (0x1F2800000301, 0x1F2C); (0x1F2800000342, 0x1F2E); (0x1F2800000345, 0x1F98);
  (0x1F2900000300, 0x1F2B); (0x1F2900000301, 0x1F2D); (0x1F2900000342, 0x1F2F);
  (0x1F2900000345, 0x1F99); (0x1F2A00000345, 0x1F9A); (0x1F2B00000345, 0x1F9B);
  (0x1F2C00000345, 0x1F9C); (0x1F2D00000345, 0x1F9D); (0x1F2E00000345, 0x1F9E);
  (0x1F2F00000345, 0x1F9F); (0x1F3000000300, 0x1F32); (0x1F3000000301, 0x1F34);
  (0x1F3000000342, 0x1F36); (0x1F3100000300, 0x1F33); (0x1F3100000301, 0x1F35);
  (0x1F3100000342, 0x1F37); (0x1F3800000300, 0x1F3A); (0x1F3800000301, 0x1F3C);
  (0x1F3800000342, 0x1F3E); (0x1F3900000300, 0x1F3B); (0x1F3900000301, 0x1F3D);
  (0x1F3900000342, 0x1F3F); (0x1F4000000300, 0x1F42); (0x1F4000000301, 0x1F44);
  (0x1F4100000300, 0x1F43); (0x1F4100000301, 0x1F45); (0x1F4800000300, 0x1F4A);
  (0x1F4800000301, 0x1F4C); (0x1F4900000300, 0x1F4B); (0x1F4900000301, 0x1F4D);
  (0x1F5000000300, 0x1F52); (0x1F5000000301, 0x1F54); (0x1F5000000342, 0x1F56);
  (0x1F5100000300, 0x1F53); (0x1F5100000301, 0x1F55); (0x1F5100000342, 0x1F57);
  (0x1F5900000300, 0x1F5B); (0x1F5900000301, 0x1F5D); (0x1F5900000342, 0x1F5F);
  (0x1F6000000300, 0x1F62); (0x1F6000000301, 0x1F64); (0x1F6000000342, 0x1F66);
  (0x1F6000000345, 0x1FA0); (0x1F6100000300, 0x1F63); (0x1F6100000301, 0x1F65);
  (0x1F6100000342, 0x1F67); (0x1F6100000345, 0x1FA1); (0x1F6200000345, 0x1FA2);
  (0x1F6300000345, 0x1FA3); (0x1F6400000345, 0x1FA4); (0x1F6500000345, 0x1FA5) ].

Definition nfcCompose_8 : list (Z * Z) := [
  (0x1F6600000345, 0x1FA6); (0x1F6700000345, 0x1FA7); (0x1F6800000300, 0x1F6A);
  (0x1F6800000301, 0x1F6C); (0x1F6800000342, 0x1F6E); (0x1F6800000345, 0x1FA8);
  (0x1F6900000300, 0x1F6B); (0x1F6900000301, 0x1F6D); (0x1F6900000342, 0x1F6F);
  (0x1F6900000345, 0x1FA9); (0x1F6A00000345, 0x1FAA); (0x1F6B00000345, 0x1FAB);
  (0x1F6C00000345, 0x1FAC); (0x1F6D00000345, 0x1FAD); (0x1F6E00000345, 0x1FAE);
  (0x1F6F00000345, 0x1FAF); (0x1F7000000345, 0x1FB2); (0x1F7400000345, 0x1FC2);
  (0x1F7C00000345, 0x1FF2); (0x1FB600000345, 0x1FB7); (0x1FBF00000300, 0x1FCD);
  (0x1FBF00000301, 0x1FCE); (0x1FBF00000342, 0x1FCF); (0x1FC600000345, 0x1FC7);
  (0x1FF600000345, 0x1FF7); (0x1FFE00000300, 0x1FDD); (0x1FFE00000301, 0x1FDE);
  (0x1FFE00000342, 0x1FDF); (0x219000000338, 0x219A); (0x219200000338, 0x219B);
  (0x219400000338, 0x21AE); (0x21D000000338, 0x21CD); (0x21D200000338, 0x21CF);
  (0x21D400000338, 0x21CE); (0x220300000338, 0x2204); (0x220800000338, 0x2209);
  (0x220B00000338, 0x220C); (0x222300000338, 0x2224); (0x222500000338, 0x2226);
  (0x223C00000338, 0x2241); (0x224300000338, 0x2244); (0x224500000338, 0x2247);
  (0x224800000338, 0x2249); (0x224D00000338, 0x226D); (0x226100000338, 0x2262);
  (0x226400000338, 0x2270); (0x226500000338, 0x2271); (0x227200000338, 0x2274);
  (0x227300000338, 0x2275); (0x227600000338, 0x2278); (0x227700000338, 0x2279);
  (0x227A00000338, 0x2280); (0x227B00000338, 0x2281); (0x227C00000338, 0x22E0);
  (0x227D00000338, 0x22E1); (0x228200000338, 0x2284); (0x228300000338, 0x2285);
  (0x228600000338, 0x2288); (0x228700000338, 0x2289); (0x229100000338, 0x22E2);
  (0x229200000338, 0x22E3); (0x22A200000338, 0x22AC); (0x22A800000338, 0x22AD);
  (0x22A900000338, 0x22AE); (0x22AB00000338, 0x22AF); (0x22B200000338, 0x22EA);
  (0x22B300000338, 0x22EB); (0x22B400000338, 0x22EC); (0x22B500000338, 0x22ED);
  (0x304600003099, 0x3094); (0x304B00003099, 0x304C); (0x304D00003099, 0x304E);
  (0x304F00003099, 0x3050); (0x305100003099, 0x3052); (0x305300003099, 0x3054);
  (0x305500003099, 0x3056); (0x305700003099, 0x3058); (0x305900003099, 0x305A);
  (0x305B00003099, 0x305C); (0x305D00003099, 0x305E); (0x305F00003099, 0x3060);
  (0x306100003099, 0x3062); (0x306400003099, 0x3065); (0x306600003099, 0x3067);
  (0x306800003099, 0x3069); (0x306F00003099, 0x3070); (0x306F0000309A, 0x3071);
  (0x307200003099, 0x3073); (0x30720000309A, 0x3074); (0x307500003099, 0x3076);
  (0x30750000309A, 0x3077); (0x307800003099, 0x3079); (0x30780000309A, 0x307A);
  (0x307B00003099, 0x307C); (0x307B0000309A, 0x307D); (0x309D00003099, 0x309E);
  (0x30A600003099, 0x30F4); (0x30AB00003099, 0x30AC); (0x30AD00003099, 0x30AE);
  (0x30AF00003099, 0x30B0); (0x30B100003099, 0x30B2); (0x30B300003099, 0x30B4);
  (0x30B500003099, 0x30B6); (0x30B700003099, 0x30B8); (0x30B900003099, 0x30BA);
  (0x30BB00003099, 0x30BC); (0x30BD00003099, 0x30BE); (0x30BF00003099, 0x30C0);
  (0x30C100003099, 0x30C2); (0x30C400003099, 0x30C5); (0x30C600003099, 0x30C7);
  (0x30C800003099, 0x30C9); (0x30CF00003099, 0x30D0); (0x30CF0000309A, 0x30D1);
  (0x30D200003099, 0x30D3); (0x30D20000309A, 0x30D4); (0x30D500003099, 0x30D6);
  (0x30D50000309A, 0x30D7); (0x30D800003099, 0x30D9); (0x30D80000309A, 0x30DA);
  (0x30DB00003099, 0x30DC); (0x30DB0000309A, 0x30DD); (0x30EF00003099, 0x30F7);
  (0x30F000003099, 0x30F8); (0x30F100003099, 0x30F9); (0x30F200003099, 0x30FA);
  (0x30FD00003099, 0x30FE); (0xAC00000011A8, 0xAC01); (0xAC00000011A9, 0xAC02);
  (0xAC00000011AA, 0xAC03); (0xAC00000011AB, 0xAC04); (0xAC00000011AC, 0xAC05);
  (0xAC00000011AD, 0xAC06); (0xAC00000011AE, 0xAC07); (0xAC00000011AF, 0xAC08);
  (0xAC00000011B0, 0xAC09); (0xAC00000011B1, 0xAC0A); (0xAC00000011B2, 0xAC0B);
  (0xAC00000011B3, 0xAC0C); (0xAC00000011B4, 0xAC0D); (0xAC00000011B5, 0xAC0E);
  (0xAC00000011B6, 0xAC0F); (0xAC00000011B7, 0xAC10); (0xAC00000011B8, 0xAC11);
  (0xAC00000011B9, 0xAC12); (0xAC00000011BA, 0xAC13); (0xAC00000011BB, 0xAC14);
  (0xAC00000011BC, 0xAC15); (0xAC00000011BD, 0xAC16); (0xAC00000011BE, 0xAC17) ].

Definition nfcCompose_9 : list (Z * Z) := [
  (0xAC00000011BF, 0xAC18); (0xAC00000011C0, 0xAC19); (0xAC00000011C1, 0xAC1A);
  (0xAC00000011C2, 0xAC1B); (0xAC1C000011A8, 0xAC1D); (0xAC1C000011A9, 0xAC1E);
  (0xAC1C000011AA, 0xAC1F); (0xAC1C000011AB, 0xAC20); (0xAC1C000011AC, 0xAC21);
  (0xAC1C000011AD, 0xAC22); (0xAC1C000011AE, 0xAC23); (0xAC1C000011AF, 0xAC24);
  (0xAC1C000011B0, 0xAC25); (0xAC1C000011B1, 0xAC26); (0xAC1C000011B2, 0xAC27);
  (0xAC1C000011B3, 0xAC28); (0xAC1C000011B4, 0xAC29); (0xAC1C000011B5, 0xAC2A);
  (0xAC1C000011B6, 0xAC2B); (0xAC1C000011B7, 0xAC2C); (0xAC1C000011B8, 0xAC2D);
  (0xAC1C000011B9, 0xAC2E); (0xAC1C000011BA, 0xAC2F); (0xAC1C000011BB, 0xAC30);
  (0xAC1C000011BC, 0xAC31); (0xAC1C000011BD, 0xAC32); (0xAC1C000011BE, 0xAC33);
  (0xAC1C000011BF, 0xAC34); (0xAC1C000011C0, 0xAC35); (0xAC1C000011C1, 0xAC36);
  (0xAC1C000011C2, 0xAC37); (0xAC38000011A8, 0xAC39); (0xAC38000011A9, 0xAC3A);
  (0xAC38000011AA, 0xAC3B); (0xAC38000011AB, 0xAC3C); (0xAC38000011AC, 0xAC3D);
  (0xAC38000011AD, 0xAC3E); (0xAC38000011AE, 0xAC3F); (0xAC38000011AF, 0xAC40);
  (0xAC38000011B0, 0xAC41); (0xAC38000011B1, 0xAC42); (0xAC38000011B2, 0xAC43);
  (0xAC38000011B3, 0xAC44); (0xAC38000011B4, 0xAC45); (0xAC38000011B5, 0xAC46);
  (0xAC38000011B6, 0xAC47); (0xAC38000011B7, 0xAC48); (0xAC38000011B8, 0xAC49);
  (0xAC38000011B9, 0xAC4A); (0xAC38000011BA, 0xAC4B); (0xAC38000011BB, 0xAC4C);
  (0xAC38000011BC, 0xAC4D); (0xAC38000011BD, 0xAC4E); (0xAC38000011BE, 0xAC4F);
  (0xAC38000011BF, 0xAC50); (0xAC38000011C0, 0xAC51); (0xAC38000011C1, 0xAC52);
  (0xAC38000011C2, 0xAC53); (0xAC54000011A8, 0xAC55); (0xAC54000011A9, 0xAC56);
  (0xAC54000011AA, 0xAC57); (0xAC54000011AB, 0xAC58); (0xAC54000011AC, 0xAC59);
  (0xAC54000011AD, 0xAC5A); (0xAC54000011AE, 0xAC5B); (0xAC54000011AF, 0xAC5C);
  (0xAC54000011B0, 0xAC5D); (0xAC54000011B1, 0xAC5E); (0xAC54000011B2, 0xAC5F);
  (0xAC54000011B3, 0xAC60); (0xAC54000011B4, 0xAC61); (0xAC54000011B5, 0xAC62);
  (0xAC54000011B6, 0xAC63); (0xAC54000011B7, 0xAC64); (0xAC54000011B8, 0xAC65);
  (0xAC54000011B9, 0xAC66); (0xAC54000011BA, 0xAC67); (0xAC54000011BB, 0xAC68);
  (0xAC54000011BC, 0xAC69); (0xAC54000011BD, 0xAC6A); (0xAC54000011BE, 0xAC6B);
  (0xAC54000011BF, 0xAC6C); (0xAC54000011C0, 0xAC6D); (0xAC54000011C1, 0xAC6E);
  (0xAC54000011C2, 0xAC6F); (0xAC70000011A8, 0xAC71); (0xAC70000011A9, 0xAC72);
  (0xAC70000011AA, 0xAC73); (0xAC70000011AB, 0xAC74); (0xAC70000011AC, 0xAC75);
  (0xAC70000011AD, 0xAC76); (0xAC70000011AE, 0xAC77); (0xAC70000011AF, 0xAC78);
  (0xAC70000011B0, 0xAC79); (0xAC70000011B1, 0xAC7A); (0xAC70000011B2, 0xAC7B);
  (0xAC70000011B3, 0xAC7C); (0xAC70000011B4, 0xAC7D); (0xAC70000011B5, 0xAC7E);
  (0xAC70000011B6, 0xAC7F); (0xAC70000011B7, 0xAC80); (0xAC70000011B8, 0xAC81);
  (0xAC70000011B9, 0xAC82); (0xAC70000011BA, 0xAC83); (0xAC70000011BB, 0xAC84);
  (0xAC70000011BC, 0xAC85); (0xAC70000011BD, 0xAC86); (0xAC70000011BE, 0xAC87);
  (0xAC70000011BF, 0xAC88); (0xAC70000011C0, 0xAC89); (0xAC70000011C1, 0xAC8A);
  (0xAC70000011C2, 0xAC8B); (0xAC8C000011A8, 0xAC8D); (0xAC8C000011A9, 0xAC8E);
  (0xAC8C000011AA, 0xAC8F); (0xAC8C000011AB, 0xAC90); (0xAC8C000011AC, 0xAC91);
  (0xAC8C000011AD, 0xAC92); (0xAC8C000011AE, 0xAC93); (0xAC8C000011AF, 0xAC94);
  (0xAC8C000011B0, 0xAC95); (0xAC8C000011B1, 0xAC96); (0xAC8C000011B2, 0xAC97);
  (0xAC8C000011B3, 0xAC98); (0xAC8C000011B4, 0xAC99); (0xAC8C000011B5, 0xAC9A);
  (0xAC8C000011B6, 0xAC9B); (0xAC8C000011B7, 0xAC9C); (0xAC8C000011B8, 0xAC9D);
  (0xAC8C000011B9, 0xAC9E); (0xAC8C000011BA, 0xAC9F); (0xAC8C000011BB, 0xACA0);
  (0xAC8C000011BC, 0xACA1); (0xAC8C000011BD, 0xACA2); (0xAC8C000011BE, 0xACA3);
  (0xAC8C000011BF, 0xACA4); (0xAC8C000011C0, 0xACA5); (0xAC8C000011C1, 0xACA6);
  (0xAC8C000011C2, 0xACA7); (0xACA8000011A8, 0xACA9); (0xACA8000011A9, 0xACAA);
  (0xACA8000011AA, 0xACAB); (0xACA8000011AB, 0xACAC); (0xACA8000011AC, 0xACAD);
  (0xACA8000011AD, 0xACAE); (0xACA8000011AE, 0xACAF); (0xACA8000011AF, 0xACB0);
  (0xACA8000011B0, 0xACB1); (0xACA8000011B1, 0xACB2); (0xACA8000011B2, 0xACB3) ].

Definition nfcCompose_10 : list (Z * Z) := [
  (0xACA8000011B3, 0xACB4); (0xACA8000011B4, 0xACB5); (0xACA8000011B5, 0xACB6);
  (0xACA8000011B6, 0xACB7); (0xACA8000011B7, 0xACB8); (0xACA8000011B8, 0xACB9);
  (0xACA8000011B9, 0xACBA); (0xACA8000011BA, 0xACBB); (0xACA8000011BB, 0xACBC);
  (0xACA8000011BC, 0xACBD); (0xACA8000011BD, 0xACBE); (0xACA8000011BE, 0xACBF);
  (0xACA8000011BF, 0xACC0); (0xACA8000011C0, 0xACC1); (0xACA8000011C1, 0xACC2);
  (0xACA8000011C2, 0xACC3); (0xACC4000011A8, 0xACC5); (0xACC4000011A9, 0xACC6);
  (0xACC4000011AA, 0xACC7); (0xACC4000011AB, 0xACC8); (0xACC4000011AC, 0xACC9);
  (0xACC4000011AD, 0xACCA); (0xACC4000011AE, 0xACCB); (0xACC4000011AF, 0xACCC);
  (0xACC4000011B0, 0xACCD); (0xACC4000011B1, 0xACCE); (0xACC4000011B2, 0xACCF);
  (0xACC4000011B3, 0xACD0); (0xACC4000011B4, 0xACD1); (0xACC4000011B5, 0xACD2);
  (0xACC4000011B6, 0xACD3); (0xACC4000011B7, 0xACD4); (0xACC4000011B8, 0xACD5);
  (0xACC4000011B9, 0xACD6); (0xACC4000011BA, 0xACD7); (0xACC4000011BB, 0xACD8);
  (0xACC4000011BC, 0xACD9); (0xACC4000011BD, 0xACDA); (0xACC4000011BE, 0xACDB);
  (0xACC4000011BF, 0xACDC); (0xACC4000011C0, 0xACDD); (0xACC4000011C1, 0xACDE);
  (0xACC4000011C2, 0xACDF); (0xACE0000011A8, 0xACE1); (0xACE0000011A9, 0xACE2);
  (0xACE0000011AA, 0xACE3); (0xACE0000011AB, 0xACE4); (0xACE0000011AC, 0xACE5);
  (0xACE0000011AD, 0xACE6); (0xACE0000011AE, 0xACE7); (0xACE0000011AF, 0xACE8);
  (0xACE0000011B0, 0xACE9); (0xACE0000011B1, 0xACEA); (0xACE0000011B2, 0xACEB);
  (0xACE0000011B3, 0xACEC); (0xACE0000011B4, 0xACED); (0xACE0000011B5, 0xACEE);
  (0xACE0000011B6, 0xACEF); (0xACE0000011B7, 0xACF0); (0xACE0000011B8, 0xACF1);
  (0xACE0000011B9, 0xACF2); (0xACE0000011BA, 0xACF3); (0xACE0000011BB, 0xACF4);
  (0xACE0000011BC, 0xACF5); (0xACE0000011BD, 0xACF6); (0xACE0000011BE, 0xACF7);
  (0xACE0000011BF, 0xACF8); (0xACE0000011C0, 0xACF9); (0xACE0000011C1, 0xACFA);
  (0xACE0000011C2, 0xACFB); (0xACFC000011A8, 0xACFD); (0xACFC000011A9, 0xACFE);
  (0xACFC000011AA, 0xACFF); (0xACFC000011AB, 0xAD00); (0xACFC000011AC, 0xAD01);
  (0xACFC000011AD, 0xAD02); (0xACFC000011AE, 0xAD03); (0xACFC000011AF, 0xAD04);
  (0xACFC000011B0, 0xAD05); (0xACFC000011B1, 0xAD06); (0xACFC000011B2, 0xAD07);
  (0xACFC000011B3, 0xAD08); (0xACFC000011B4, 0xAD09); (0xACFC000011B5, 0xAD0A);
  (0xACFC000011B6, 0xAD0B); (0xACFC000011B7, 0xAD0C); (0xACFC000011B8, 0xAD0D);
  (0xACFC000011B9, 0xAD0E); (0xACFC000011BA, 0xAD0F); (0xACFC000011BB, 0xAD10);
  (0xACFC000011BC, 0xAD11); (0xACFC000011BD, 0xAD12); (0xACFC000011BE, 0xAD13);
  (0xACFC000011BF, 0xAD14); (0xACFC000011C0, 0xAD15); (0xACFC000011C1, 0xAD16);
  (0xACFC000011C2, 0xAD17); (0xAD18000011A8, 0xAD19); (0xAD18000011A9, 0xAD1A);
  (0xAD18000011AA, 0xAD1B); (0xAD18000011AB, 0xAD1C); (0xAD18000011AC, 0xAD1D);
  (0xAD18000011AD, 0xAD1E); (0xAD18000011AE, 0xAD1F); (0xAD18000011AF, 0xAD20);
  (0xAD18000011B0, 0xAD21); (0xAD18000011B1, 0xAD22); (0xAD18000011B2, 0xAD23);
  (0xAD18000011B3, 0xAD24); (0xAD18000011B4, 0xAD25); (0xAD18000011B5, 0xAD26);
  (0xAD18000011B6, 0xAD27); (0xAD18000011B7, 0xAD28); (0xAD18000011B8, 0xAD29);
  (0xAD18000011B9, 0xAD2A); (0xAD18000011BA, 0xAD2B); (0xAD18000011BB, 0xAD2C);
  (0xAD18000011BC, 0xAD2D); (0xAD18000011BD, 0xAD2E); (0xAD18000011BE, 0xAD2F);
  (0xAD18000011BF, 0xAD30); (0xAD18000011C0, 0xAD31); (0xAD18000011C1, 0xAD32);
  (0xAD18000011C2, 0xAD33); (0xAD34000011A8, 0xAD35); (0xAD34000011A9, 0xAD36);
  (0xAD34000011AA, 0xAD37); (0xAD34000011AB, 0xAD38); (0xAD34000011AC, 0xAD39);
  (0xAD34000011AD, 0xAD3A); (0xAD34000011AE, 0xAD3B); (0xAD34000011AF, 0xAD3C);
  (0xAD34000011B0, 0xAD3D); (0xAD34000011B1, 0xAD3E); (0xAD34000011B2, 0xAD3F);
  (0xAD34000011B3, 0xAD40); (0xAD34000011B4, 0xAD41); (0xAD34000011B5, 0xAD42);
  (0xAD34000011B6, 0xAD43); (0xAD34000011B7, 0xAD44); (0xAD34000011B8, 0xAD45);
  (0xAD34000011B9, 0xAD46); (0xAD34000011BA, 0xAD47); (0xAD34000011BB, 0xAD48);
  (0xAD34000011BC, 0xAD49); (0xAD34000011BD, 0xAD4A); (0xAD34000011BE, 0xAD4B);
  (0xAD34000011BF, 0xAD4C); (0xAD34000011C0, 0xAD4D); (0xAD34000011C1, 0xAD4E) ].

Definition nfcCompose_11 : list (Z * Z) := [
  (0xAD34000011C2, 0xAD4F); (0xAD50000011A8, 0xAD51); (0xAD50000011A9, 0xAD52);
  (0xAD50000011AA, 0xAD53); (0xAD50000011AB, 0xAD54); (0xAD50000011AC, 0xAD55);
  (0xAD50000011AD, 0xAD56); (0xAD50000011AE, 0xAD57); (0xAD50000011AF, 0xAD58);
  (0xAD50000011B0, 0xAD59); (0xAD50000011B1, 0xAD5A); (0xAD50000011B2, 0xAD5B);
  (0xAD50000011B3, 0xAD5C); (0xAD50000011B4, 0xAD5D); (0xAD50000011B5, 0xAD5E);
  (0xAD50000011B6, 0xAD5F); (0xAD50000011B7, 0xAD60); (0xAD50000011B8, 0xAD61);
  (0xAD50000011B9, 0xAD62); (0xAD50000011BA, 0xAD63); (0xAD50000011BB, 0xAD64);
  (0xAD50000011BC, 0xAD65); (0xAD50000011BD, 0xAD66); (0xAD50000011BE, 0xAD67);
  (0xAD50000011BF, 0xAD68); (0xAD50000011C0, 0xAD69); (0xAD50000011C1, 0xAD6A);
  (0xAD50000011C2, 0xAD6B); (0xAD6C000011A8, 0xAD6D); (0xAD6C000011A9, 0xAD6E);
  (0xAD6C000011AA, 0xAD6F); (0xAD6C000011AB, 0xAD70); (0xAD6C000011AC, 0xAD71);
  (0xAD6C000011AD, 0xAD72); (0xAD6C000011AE, 0xAD73); (0xAD6C000011AF, 0xAD74);
  (0xAD6C000011B0, 0xAD75); (0xAD6C000011B1, 0xAD76); (0xAD6C000011B2, 0xAD77);
  (0xAD6C000011B3, 0xAD78); (0xAD6C000011B4, 0xAD79); (0xAD6C000011B5, 0xAD7A);
  (0xAD6C000011B6, 0xAD7B); (0xAD6C000011B7, 0xAD7C); (0xAD6C000011B8, 0xAD7D);
  (0xAD6C000011B9, 0xAD7E); (0xAD6C000011BA, 0xAD7F); (0xAD6C000011BB, 0xAD80);
  (0xAD6C000011BC, 0xAD81); (0xAD6C000011BD, 0xAD82); (0xAD6C000011BE, 0xAD83);
  (0xAD6C000011BF, 0xAD84); (0xAD6C000011C0, 0xAD85); (0xAD6C000011C1, 0xAD86);
  (0xAD6C000011C2, 0xAD87); (0xAD88000011A8, 0xAD89); (0xAD88000011A9, 0xAD8A);
  (0xAD88000011AA, 0xAD8B); (0xAD88000011AB, 0xAD8C); (0xAD88000011AC, 0xAD8D);
  (0xAD88000011AD, 0xAD8E); (0xAD88000011AE, 0xAD8F); (0xAD88000011AF, 0xAD90);
  (0xAD88000011B0, 0xAD91); (0xAD88000011B1, 0xAD92); (0xAD88000011B2, 0xAD93);
  (0xAD88000011B3, 0xAD94); (0xAD88000011B4, 0xAD95); (0xAD88000011B5, 0xAD96);
  (0xAD88000011B6, 0xAD97); (0xAD88000011B7, 0xAD98); (0xAD88000011B8, 0xAD99);
  (0xAD88000011B9, 0xAD9A); (0xAD88000011BA, 0xAD9B); (0xAD88000011BB, 0xAD9C);
  (0xAD88000011BC, 0xAD9D); (0xAD88000011BD, 0xAD9E); (0xAD88000011BE, 0xAD9F);
  (0xAD88000011BF, 0xADA0); (0xAD88000011C0, 0xADA1); (0xAD88000011C1, 0xADA2);
  (0xAD88000011C2, 0xADA3); (0xADA4000011A8, 0xADA5); (0xADA4000011A9, 0xADA6);
  (0xADA4000011AA, 0xADA7); (0xADA4000011AB, 0xADA8); (0xADA4000011AC, 0xADA9);
  (0xADA4000011AD, 0xADAA); (0xADA4000011AE, 0xADAB); (0xADA4000011AF, 0xADAC);
  (0xADA4000011B0, 0xADAD); (0xADA4000011B1, 0xADAE); (0xADA4000011B2, 0xADAF);
  (0xADA4000011B3, 0xADB0); (0xADA4000011B4, 0xADB1); (0xADA4000011B5, 0xADB2);
  (0xADA4000011B6, 0xADB3); (0xADA4000011B7, 0xADB4); (0xADA4000011B8, 0xADB5);
  (0xADA4000011B9, 0xADB6); (0xADA4000011BA, 0xADB7); (0xADA4000011BB, 0xADB8);
  (0xADA4000011BC, 0xADB9); (0xADA4000011BD, 0xADBA); (0xADA4000011BE, 0xADBB);
  (0xADA4000011BF, 0xADBC); (0xADA4000011C0, 0xADBD); (0xADA4000011C1, 0xADBE);
  (0xADA4000011C2, 0xADBF); (0xADC0000011A8, 0xADC1); (0xADC0000011A9, 0xADC2);
  (0xADC0000011AA, 0xADC3); (0xADC0000011AB, 0xADC4); (0xADC0000011AC, 0xADC5);
  (0xADC0000011AD, 0xADC6); (0xADC0000011AE, 0xADC7); (0xADC0000011AF, 0xADC8);
  (0xADC0000011B0, 0xADC9); (0xADC0000011B1, 0xADCA); (0xADC0000011B2, 0xADCB);
  (0xADC0000011B3, 0xADCC); (0xADC0000011B4, 0xADCD); (0xADC0000011B5, 0xADCE);
  (0xADC0000011B6, 0xADCF); (0xADC0000011B7, 0xADD0); (0xADC0000011B8, 0xADD1);
  (0xADC0000011B9, 0xADD2); (0xADC0000011BA, 0xADD3); (0xADC0000011BB, 0xADD4);
  (0xADC0000011BC, 0xADD5); (0xADC0000011BD, 0xADD6); (0xADC0000011BE, 0xADD7);
  (0xADC0000011BF, 0xADD8); (0xADC0000011C0, 0xADD9); (0xADC0000011C1, 0xADDA);
  (0xADC0000011C2, 0xADDB); (0xADDC000011A8, 0xADDD); (0xADDC000011A9, 0xADDE);
  (0xADDC000011AA, 0xADDF); (0xADDC000011AB, 0xADE0); (0xADDC000011AC, 0xADE1);
  (0xADDC000011AD, 0xADE2); (0xADDC000011AE, 0xADE3); (0xADDC000011AF, 0xADE4);
  (0xADDC000011B0, 0xADE5); (0xADDC000011B1, 0xADE6); (0xADDC000011B2, 0xADE7);
  (0xADDC000011B3, 0xADE8); (0xADDC000011B4, 0xADE9); (0xADDC000011B5, 0xADEA) ].

Definition nfcCompose_12 : list (Z * Z) := [
  (0xADDC000011B6, 0xADEB); (0xADDC000011B7, 0xADEC); (0xADDC000011B8, 0xADED);
  (0xADDC000011B9, 0xADEE); (0xADDC000011BA, 0xADEF); (0xADDC000011BB, 0xADF0);
  (0xADDC000011BC, 0xADF1); (0xADDC000011BD, 0xADF2); (0xADDC000011BE, 0xADF3);
  (0xADDC000011BF, 0xADF4); (0xADDC000011C0, 0xADF5); (0xADDC000011C1, 0xADF6);
  (0xADDC000011C2, 0xADF7); (0xADF8000011A8, 0xADF9); (0xADF8000011A9, 0xADFA);
  (0xADF8000011AA, 0xADFB); (0xADF8000011AB, 0xADFC); (0xADF8000011AC, 0xADFD);
  (0xADF8000011AD, 0xADFE); (0xADF8000011AE, 0xADFF); (0xADF8000011AF, 0xAE00);
  (0xADF8000011B0, 0xAE01); (0xADF8000011B1, 0xAE02); (0xADF8000011B2, 0xAE03);
  (0xADF8000011B3, 0xAE04); (0xADF8000011B4, 0xAE05); (0xADF8000011B5, 0xAE06);
  (0xADF8000011B6, 0xAE07); (0xADF8000011B7, 0xAE08); (0xADF8000011B8, 0xAE09);
  (0xADF8000011B9, 0xAE0A); (0xADF8000011BA, 0xAE0B); (0xADF8000011BB, 0xAE0C);
  (0xADF8000011BC, 0xAE0D); (0xADF8000011BD, 0xAE0E); (0xADF8000011BE, 0xAE0F);
  (0xADF8000011BF, 0xAE10); (0xADF8000011C0, 0xAE11); (0xADF8000011C1, 0xAE12);
  (0xADF8000011C2, 0xAE13); (0xAE14000011A8, 0xAE15); (0xAE14000011A9, 0xAE16);
  (0xAE14000011AA, 0xAE17); (0xAE14000011AB, 0xAE18); (0xAE14000011AC, 0xAE19);
  (0xAE14000011AD, 0xAE1A); (0xAE14000011AE, 0xAE1B); (0xAE14000011AF, 0xAE1C);
  (0xAE14000011B0, 0xAE1D); (0xAE14000011B1, 0xAE1E); (0xAE14000011B2, 0xAE1F);
  (0xAE14000011B3, 0xAE20); (0xAE14000011B4, 0xAE21); (0xAE14000011B5, 0xAE22);
  (0xAE14000011B6, 0xAE23); (0xAE14000011B7, 0xAE24); (0xAE14000011B8, 0xAE25);
  (0xAE14000011B9, 0xAE26); (0xAE14000011BA, 0xAE27); (0xAE14000011BB, 0xAE28);
  (0xAE14000011BC, 0xAE29); (0xAE14000011BD, 0xAE2A); (0xAE14000011BE, 0xAE2B);
  (0xAE14000011BF, 0xAE2C); (0xAE14000011C0, 0xAE2D); (0xAE14000011C1, 0xAE2E);
  (0xAE14000011C2, 0xAE2F); (0xAE30000011A8, 0xAE31); (0xAE30000011A9, 0xAE32);
  (0xAE30000011AA, 0xAE33); (0xAE30000011AB, 0xAE34); (0xAE30000011AC, 0xAE35);
  (0xAE30000011AD, 0xAE36); (0xAE30000011AE, 0xAE37); (0xAE30000011AF, 0xAE38);
  (0xAE30000011B0, 0xAE39); (0xAE30000011B1, 0xAE3A); (0xAE30000011B2, 0xAE3B);
  (0xAE30000011B3, 0xAE3C); (0xAE30000011B4, 0xAE3D); (0xAE30000011B5, 0xAE3E);
  (0xAE30000011B6, 0xAE3F); (0xAE30000011B7, 0xAE40); (0xAE30000011B8, 0xAE41);
  (0xAE30000011B9, 0xAE42); (0xAE30000011BA, 0xAE43); (0xAE30000011BB, 0xAE44);
  (0xAE30000011BC, 0xAE45); (0xAE30000011BD, 0xAE46); (0xAE30000011BE, 0xAE47);
  (0xAE30000011BF, 0xAE48); (0xAE30000011C0, 0xAE49); (0xAE30000011C1, 0xAE4A);
  (0xAE30000011C2, 0xAE4B); (0xAE4C000011A8, 0xAE4D); (0xAE4C000011A9, 0xAE4E);
  (0xAE4C000011AA, 0xAE4F); (0xAE4C000011AB, 0xAE50); (0xAE4C000011AC, 0xAE51);
  (0xAE4C000011AD, 0xAE52); (0xAE4C000011AE, 0xAE53); (0xAE4C000011AF, 0xAE54);
  (0xAE4C000011B0, 0xAE55); (0xAE4C000011B1, 0xAE56); (0xAE4C000011B2, 0xAE57);
  (0xAE4C000011B3, 0xAE58); (0xAE4C000011B4, 0xAE59); (0xAE4C000011B5, 0xAE5A);
  (0xAE4C000011B6, 0xAE5B); (0xAE4C000011B7, 0xAE5C); (0xAE4C000011B8, 0xAE5D);
  (0xAE4C000011B9, 0xAE5E); (0xAE4C000011BA, 0xAE5F); (0xAE4C000011BB, 0xAE60);
  (0xAE4C000011BC, 0xAE61); (0xAE4C000011BD, 0xAE62); (0xAE4C000011BE, 0xAE63);
  (0xAE4C000011BF, 0xAE64); (0xAE4C000011C0, 0xAE65); (0xAE4C000011C1, 0xAE66);
  (0xAE4C000011C2, 0xAE67); (0xAE68000011A8, 0xAE69); (0xAE68000011A9, 0xAE6A);
  (0xAE68000011AA, 0xAE6B); (0xAE68000011AB, 0xAE6C); (0xAE68000011AC, 0xAE6D);
  (0xAE68000011AD, 0xAE6E); (0xAE68000011AE, 0xAE6F); (0xAE68000011AF, 0xAE70);
  (0xAE68000011B0, 0xAE71); (0xAE68000011B1, 0xAE72); (0xAE68000011B2, 0xAE73);
  (0xAE68000011B3, 0xAE74); (0xAE68000011B4, 0xAE75); (0xAE68000011B5, 0xAE76);
  (0xAE68000011B6, 0xAE77); (0xAE68000011B7, 0xAE78); (0xAE68000011B8, 0xAE79);
  (0xAE68000011B9, 0xAE7A); (0xAE68000011BA, 0xAE7B); (0xAE68000011BB, 0xAE7C);
  (0xAE68000011BC, 0xAE7D); (0xAE68000011BD, 0xAE7E); (0xAE68000011BE, 0xAE7F);
  (0xAE68000011BF, 0xAE80); (0xAE68000011C0, 0xAE81); (0xAE68000011C1, 0xAE82);
  (0xAE68000011C2, 0xAE83); (0xAE84000011A8, 0xAE85); (0xAE84000011A9, 0xAE86) ].

Definition nfcCompose_13 : list (Z * Z) := [
  (0xAE84000011AA, 0xAE87); (0xAE84000011AB, 0xAE88); (0xAE84000011AC, 0xAE89);
  (0xAE84000011AD, 0xAE8A); (0xAE84000011AE, 0xAE8B); (0xAE84000011AF, 0xAE8C);
  (0xAE84000011B0, 0xAE8D); (0xAE84000011B1, 0xAE8E); (0xAE84000011B2, 0xAE8F);
  (0xAE84000011B3, 0xAE90); (0xAE84000011B4, 0xAE91); (0xAE84000011B5, 0xAE92);
  (0xAE84000011B6, 0xAE93); (0xAE84000011B7, 0xAE94); (0xAE84000011B8, 0xAE95);
  (0xAE84000011B9, 0xAE96); (0xAE84000011BA, 0xAE97); (0xAE84000011BB, 0xAE98);
  (0xAE84000011BC, 0xAE99); (0xAE84000011BD, 0xAE9A); (0xAE84000011BE, 0xAE9B);
  (0xAE84000011BF, 0xAE9C); (0xAE84000011C0, 0xAE9D); (0xAE84000011C1, 0xAE9E);
  (0xAE84000011C2, 0xAE9F); (0xAEA0000011A8, 0xAEA1); (0xAEA0000011A9, 0xAEA2);
  (0xAEA0000011AA, 0xAEA3); (0xAEA0000011AB, 0xAEA4); (0xAEA0000011AC, 0xAEA5);
  (0xAEA0000011AD, 0xAEA6); (0xAEA0000011AE, 0xAEA7); (0xAEA0000011AF, 0xAEA8);
  (0xAEA0000011B0, 0xAEA9); (0xAEA0000011B1, 0xAEAA); (0xAEA0000011B2, 0xAEAB);
  (0xAEA0000011B3, 0xAEAC); (0xAEA0000011B4, 0xAEAD); (0xAEA0000011B5, 0xAEAE);
  (0xAEA0000011B6, 0xAEAF); (0xAEA0000011B7, 0xAEB0); (0xAEA0000011B8, 0xAEB1);
  (0xAEA0000011B9, 0xAEB2); (0xAEA0000011BA, 0xAEB3); (0xAEA0000011BB, 0xAEB4);
  (0xAEA0000011BC, 0xAEB5); (0xAEA0000011BD, 0xAEB6); (0xAEA0000011BE, 0xAEB7);
  (0xAEA0000011BF, 0xAEB8); (0xAEA0000011C0, 0xAEB9); (0xAEA0000011C1, 0xAEBA);
  (0xAEA0000011C2, 0xAEBB); (0xAEBC000011A8, 0xAEBD); (0xAEBC000011A9, 0xAEBE);
  (0xAEBC000011AA, 0xAEBF); (0xAEBC000011AB, 0xAEC0); (0xAEBC000011AC, 0xAEC1);
  (0xAEBC000011AD, 0xAEC2); (0xAEBC000011AE, 0xAEC3); (0xAEBC000011AF, 0xAEC4);
  (0xAEBC000011B0, 0xAEC5); (0xAEBC000011B1, 0xAEC6); (0xAEBC000011B2, 0xAEC7);
  (0xAEBC000011B3, 0xAEC8); (0xAEBC000011B4, 0xAEC9); (0xAEBC000011B5, 0xAECA);
  (0xAEBC000011B6, 0xAECB); (0xAEBC000011B7, 0xAECC); (0xAEBC000011B8, 0xAECD);
  (0xAEBC000011B9, 0xAECE); (0xAEBC000011BA, 0xAECF); (0xAEBC000011BB, 0xAED0);
  (0xAEBC000011BC, 0xAED1); (0xAEBC000011BD, 0xAED2); (0xAEBC000011BE, 0xAED3);
  (0xAEBC000011BF, 0xAED4); (0xAEBC000011C0, 0xAED5); (0xAEBC000011C1, 0xAED6);
  (0xAEBC000011C2, 0xAED7); (0xAED8000011A8, 0xAED9); (0xAED8000011A9, 0xAEDA);
  (0xAED8000011AA, 0xAEDB); (0xAED8000011AB, 0xAEDC); (0xAED8000011AC, 0xAEDD);
  (0xAED8000011AD, 0xAEDE); (0xAED8000011AE, 0xAEDF); (0xAED8000011AF, 0xAEE0);
  (0xAED8000011B0, 0xAEE1); (0xAED8000011B1, 0xAEE2); (0xAED8000011B2, 0xAEE3);
  (0xAED8000011B3, 0xAEE4); (0xAED8000011B4, 0xAEE5); (0xAED8000011B5, 0xAEE6);
  (0xAED8000011B6, 0xAEE7); (0xAED8000011B7, 0xAEE8); (0xAED8000011B8, 0xAEE9);
  (0xAED8000011B9, 0xAEEA); (0xAED8000011BA, 0xAEEB); (0xAED8000011BB, 0xAEEC);
  (0xAED8000011BC, 0xAEED); (0xAED8000011BD, 0xAEEE); (0xAED8000011BE, 0xAEEF);
  (0xAED8000011BF, 0xAEF0); (0xAED8000011C0, 0xAEF1); (0xAED8000011C1, 0xAEF2);
  (0xAED8000011C2, 0xAEF3); (0xAEF4000011A8, 0xAEF5); (0xAEF4000011A9, 0xAEF6);
  (0xAEF4000011AA, 0xAEF7); (0xAEF4000011AB, 0xAEF8); (0xAEF4000011AC, 0xAEF9);
  (0xAEF4000011AD, 0xAEFA); (0xAEF4000011AE, 0xAEFB); (0xAEF4000011AF, 0xAEFC);
  (0xAEF4000011B0, 0xAEFD); (0xAEF4000011B1, 0xAEFE); (0xAEF4000011B2, 0xAEFF);
  (0xAEF4000011B3, 0xAF00); (0xAEF4000011B4, 0xAF01); (0xAEF4000011B5, 0xAF02);
  (0xAEF4000011B6, 0xAF03); (0xAEF4000011B7, 0xAF04); (0xAEF4000011B8, 0xAF05);
  (0xAEF4000011B9, 0xAF06); (0xAEF4000011BA, 0xAF07); (0xAEF4000011BB, 0xAF08);
  (0xAEF4000011BC, 0xAF09); (0xAEF4000011BD, 0xAF0A); (0xAEF4000011BE, 0xAF0B);
  (0xAEF4000011BF, 0xAF0C); (0xAEF4000011C0, 0xAF0D); (0xAEF4000011C1, 0xAF0E);
  (0xAEF4000011C2, 0xAF0F); (0xAF10000011A8, 0xAF11); (0xAF10000011A9, 0xAF12);
  (0xAF10000011AA, 0xAF13); (0xAF10000011AB, 0xAF14); (0xAF10000011AC, 0xAF15);
  (0xAF10000011AD, 0xAF16); (0xAF10000011AE, 0xAF17); (0xAF10000011AF, 0xAF18);
  (0xAF10000011B0, 0xAF19); (0xAF10000011B1, 0xAF1A); (0xAF10000011B2, 0xAF1B);
  (0xAF10000011B3, 0xAF1C); (0xAF10000011B4, 0xAF1D); (0xAF10000011B5, 0xAF1E);
  (0xAF10000011B6, 0xAF1F); (0xAF10000011B7, 0xAF20); (0xAF10000011B8, 0xAF21) ].

Definition nfcCompose_14 : list (Z * Z) := [
  (0xAF10000011B9, 0xAF22); (0xAF10000011BA, 0xAF23); (0xAF10000011BB, 0xAF24);
  (0xAF10000011BC, 0xAF25); (0xAF10000011BD, 0xAF26); (0xAF10000011BE, 0xAF27);
  (0xAF10000011BF, 0xAF28); (0xAF10000011C0, 0xAF29); (0xAF10000011C1, 0xAF2A);
  (0xAF10000011C2, 0xAF2B); (0xAF2C000011A8, 0xAF2D); (0xAF2C000011A9, 0xAF2E);
  (0xAF2C000011AA, 0xAF2F); (0xAF2C000011AB, 0xAF30); (0xAF2C000011AC, 0xAF31);
  (0xAF2C000011AD, 0xAF32); (0xAF2C000011AE, 0xAF33); (0xAF2C000011AF, 0xAF34);
  (0xAF2C000011B0, 0xAF35); (0xAF2C000011B1, 0xAF36); (0xAF2C000011B2, 0xAF37);
  (0xAF2C000011B3, 0xAF38); (0xAF2C000011B4, 0xAF39); (0xAF2C000011B5, 0xAF3A);
  (0xAF2C000011B6, 0xAF3B); (0xAF2C000011B7, 0xAF3C); (0xAF2C000011B8, 0xAF3D);
  (0xAF2C000011B9, 0xAF3E); (0xAF2C000011BA, 0xAF3F); (0xAF2C000011BB, 0xAF40);
  (0xAF2C000011BC, 0xAF41); (0xAF2C000011BD, 0xAF42); (0xAF2C000011BE, 0xAF43);
  (0xAF2C000011BF, 0xAF44); (0xAF2C000011C0, 0xAF45); (0xAF2C000011C1, 0xAF46);
  (0xAF2C000011C2, 0xAF47); (0xAF48000011A8, 0xAF49); (0xAF48000011A9, 0xAF4A);
  (0xAF48000011AA, 0xAF4B); (0xAF48000011AB, 0xAF4C); (0xAF48000011AC, 0xAF4D);
  (0xAF48000011AD, 0xAF4E); (0xAF48000011AE, 0xAF4F); (0xAF48000011AF, 0xAF50);
  (0xAF48000011B0, 0xAF51); (0xAF48000011B1, 0xAF52); (0xAF48000011B2, 0xAF53);
  (0xAF48000011B3, 0xAF54); (0xAF48000011B4, 0xAF55); (0xAF48000011B5, 0xAF56);
  (0xAF48000011B6, 0xAF57); (0xAF48000011B7, 0xAF58); (0xAF48000011B8, 0xAF59);
  (0xAF48000011B9, 0xAF5A); (0xAF48000011BA, 0xAF5B); (0xAF48000011BB, 0xAF5C);
  (0xAF48000011BC, 0xAF5D); (0xAF48000011BD, 0xAF5E); (0xAF48000011BE, 0xAF5F);
  (0xAF48000011BF, 0xAF60); (0xAF48000011C0, 0xAF61); (0xAF48000011C1, 0xAF62);
  (0xAF48000011C2, 0xAF63); (0xAF64000011A8, 0xAF65); (0xAF64000011A9, 0xAF66);
  (0xAF64000011AA, 0xAF67); (0xAF64000011AB, 0xAF68); (0xAF64000011AC, 0xAF69);
  (0xAF64000011AD, 0xAF6A); (0xAF64000011AE, 0xAF6B); (0xAF64000011AF, 0xAF6C);
  (0xAF64000011B0, 0xAF6D); (0xAF64000011B1, 0xAF6E); (0xAF64000011B2, 0xAF6F);
  (0xAF64000011B3, 0xAF70); (0xAF64000011B4, 0xAF71); (0xAF64000011B5, 0xAF72);
  (0xAF64000011B6, 0xAF73); (0xAF64000011B7, 0xAF74); (0xAF64000011B8, 0xAF75);
  (0xAF64000011B9, 0xAF76); (0xAF64000011BA, 0xAF77); (0xAF64000011BB, 0xAF78);
  (0xAF64000011BC, 0xAF79); (0xAF64000011BD, 0xAF7A); (0xAF64000011BE, 0xAF7B);
  (0xAF64000011BF, 0xAF7C); (0xAF64000011C0, 0xAF7D); (0xAF64000011C1, 0xAF7E);
  (0xAF64000011C2, 0xAF7F); (0xAF80000011A8, 0xAF81); (0xAF80000011A9, 0xAF82);
  (0xAF80000011AA, 0xAF83); (0xAF80000011AB, 0xAF84); (0xAF80000011AC, 0xAF85);
  (0xAF80000011AD, 0xAF86); (0xAF80000011AE, 0xAF87); (0xAF80000011AF, 0xAF88);
  (0xAF80000011B0, 0xAF89); (0xAF80000011B1, 0xAF8A); (0xAF80000011B2, 0xAF8B);
  (0xAF80000011B3, 0xAF8C); (0xAF80000011B4, 0xAF8D); (0xAF80000011B5, 0xAF8E);
  (0xAF80000011B6, 0xAF8F); (0xAF80000011B7, 0xAF90); (0xAF80000011B8, 0xAF91);
  (0xAF80000011B9, 0xAF92); (0xAF80000011BA, 0xAF93); (0xAF80000011BB, 0xAF94);
  (0xAF80000011BC, 0xAF95); (0xAF80000011BD, 0xAF96); (0xAF80000011BE, 0xAF97);
  (0xAF80000011BF, 0xAF98); (0xAF80000011C0, 0xAF99); (0xAF80000011C1, 0xAF9A);
  (0xAF80000011C2, 0xAF9B); (0xAF9C000011A8, 0xAF9D); (0xAF9C000011A9, 0xAF9E);
  (0xAF9C000011AA, 0xAF9F); (0xAF9C000011AB, 0xAFA0); (0xAF9C000011AC, 0xAFA1);
  (0xAF9C000011AD, 0xAFA2); (0xAF9C000011AE, 0xAFA3); (0xAF9C000011AF, 0xAFA4);
  (0xAF9C000011B0, 0xAFA5); (0xAF9C000011B1, 0xAFA6); (0xAF9C000011B2, 0xAFA7);
  (0xAF9C000011B3, 0xAFA8); (0xAF9C000011B4, 0xAFA9); (0xAF9C000011B5, 0xAFAA);
  (0xAF9C000011B6, 0xAFAB); (0xAF9C000011B7, 0xAFAC); (0xAF9C000011B8, 0xAFAD);
  (0xAF9C000011B9, 0xAFAE); (0xAF9C000011BA, 0xAFAF); (0xAF9C000011BB, 0xAFB0);
  (0xAF9C000011BC, 0xAFB1); (0xAF9C000011BD, 0xAFB2); (0xAF9C000011BE, 0xAFB3);
  (0xAF9C000011BF, 0xAFB4); (0xAF9C000011C0, 0xAFB5); (0xAF9C000011C1, 0xAFB6);
  (0xAF9C000011C2, 0xAFB7); (0xAFB8000011A8, 0xAFB9); (0xAFB8000011A9, 0xAFBA);
  (0xAFB8000011AA, 0xAFBB); (0xAFB8000011AB, 0xAFBC); (0xAFB8000011AC, 0xAFBD) ].

Definition nfcCompose_15 : list (Z * Z) := [
  (0xAFB8000011AD, 0xAFBE); (0xAFB8000011AE, 0xAFBF); (0xAFB8000011AF, 0xAFC0);
  (0xAFB8000011B0, 0xAFC1); (0xAFB8000011B1, 0xAFC2); (0xAFB8000011B2, 0xAFC3);
  (0xAFB8000011B3, 0xAFC4); (0xAFB8000011B4, 0xAFC5); (0xAFB8000011B5, 0xAFC6);
  (0xAFB8000011B6, 0xAFC7); (0xAFB8000011B7, 0xAFC8); (0xAFB8000011B8, 0xAFC9);
  (0xAFB8000011B9, 0xAFCA); (0xAFB8000011BA, 0xAFCB); (0xAFB8000011BB, 0xAFCC);
  (0xAFB8000011BC, 0xAFCD); (0xAFB8000011BD, 0xAFCE); (0xAFB8000011BE, 0xAFCF);
  (0xAFB8000011BF, 0xAFD0); (0xAFB8000011C0, 0xAFD1); (0xAFB8000011C1, 0xAFD2);
  (0xAFB8000011C2, 0xAFD3); (0xAFD4000011A8, 0xAFD5); (0xAFD4000011A9, 0xAFD6);
  (0xAFD4000011AA, 0xAFD7); (0xAFD4000011AB, 0xAFD8); (0xAFD4000011AC, 0xAFD9);
  (0xAFD4000011AD, 0xAFDA); (0xAFD4000011AE, 0xAFDB); (0xAFD4000011AF, 0xAFDC);
  (0xAFD4000011B0, 0xAFDD); (0xAFD4000011B1, 0xAFDE); (0xAFD4000011B2, 0xAFDF);
  (0xAFD4000011B3, 0xAFE0); (0xAFD4000011B4, 0xAFE1); (0xAFD4000011B5, 0xAFE2);
  (0xAFD4000011B6, 0xAFE3); (0xAFD4000011B7, 0xAFE4); (0xAFD4000011B8, 0xAFE5);
  (0xAFD4000011B9, 0xAFE6); (0xAFD4000011BA, 0xAFE7); (0xAFD4000011BB, 0xAFE8);
  (0xAFD4000011BC, 0xAFE9); (0xAFD4000011BD, 0xAFEA); (0xAFD4000011BE, 0xAFEB);
  (0xAFD4000011BF, 0xAFEC); (0xAFD4000011C0, 0xAFED); (0xAFD4000011C1, 0xAFEE);
  (0xAFD4000011C2, 0xAFEF); (0xAFF0000011A8, 0xAFF1); (0xAFF0000011A9, 0xAFF2);
  (0xAFF0000011AA, 0xAFF3); (0xAFF0000011AB, 0xAFF4); (0xAFF0000011AC, 0xAFF5);
  (0xAFF0000011AD, 0xAFF6); (0xAFF0000011AE, 0xAFF7); (0xAFF0000011AF, 0xAFF8);
  (0xAFF0000011B0, 0xAFF9); (0xAFF0000011B1, 0xAFFA); (0xAFF0000011B2, 0xAFFB);
  (0xAFF0000011B3, 0xAFFC); (0xAFF0000011B4, 0xAFFD); (0xAFF0000011B5, 0xAFFE);
  (0xAFF0000011B6, 0xAFFF); (0xAFF0000011B7, 0xB000); (0xAFF0000011B8, 0xB001);
  (0xAFF0000011B9, 0xB002); (0xAFF0000011BA, 0xB003); (0xAFF0000011BB, 0xB004);
  (0xAFF0000011BC, 0xB005); (0xAFF0000011BD, 0xB006); (0xAFF0000011BE, 0xB007);
  (0xAFF0000011BF, 0xB008); (0xAFF0000011C0, 0xB009); (0xAFF0000011C1, 0xB00A);
  (0xAFF0000011C2, 0xB00B); (0xB00C000011A8, 0xB00D); (0xB00C000011A9, 0xB00E);
  (0xB00C000011AA, 0xB00F); (0xB00C000011AB, 0xB010); (0xB00C000011AC, 0xB011);
  (0xB00C000011AD, 0xB012); (0xB00C000011AE, 0xB013); (0xB00C000011AF, 0xB014);
  (0xB00C000011B0, 0xB015); (0xB00C000011B1, 0xB016); (0xB00C000011B2, 0xB017);
  (0xB00C000011B3, 0xB018); (0xB00C000011B4, 0xB019); (0xB00C000011B5, 0xB01A);
  (0xB00C000011B6, 0xB01B); (0xB00C000011B7, 0xB01C); (0xB00C000011B8, 0xB01D);
  (0xB00C000011B9, 0xB01E); (0xB00C000011BA, 0xB01F); (0xB00C000011BB, 0xB020);
  (0xB00C000011BC, 0xB021); (0xB00C000011BD, 0xB022); (0xB00C000011BE, 0xB023);
  (0xB00C000011BF, 0xB024); (0xB00C000011C0, 0xB025); (0xB00C000011C1, 0xB026);
  (0xB00C000011C2, 0xB027); (0xB028000011A8, 0xB029); (0xB028000011A9, 0xB02A);
  (0xB028000011AA, 0xB02B); (0xB028000011AB, 0xB02C); (0xB028000011AC, 0xB02D);
  (0xB028000011AD, 0xB02E); (0xB028000011AE, 0xB02F); (0xB028000011AF, 0xB030);
  (0xB028000011B0, 0xB031); (0xB028000011B1, 0xB032); (0xB028000011B2, 0xB033);
  (0xB028000011B3, 0xB034); (0xB028000011B4, 0xB035); (0xB028000011B5, 0xB036);
  (0xB028000011B6, 0xB037); (0xB028000011B7, 0xB038); (0xB028000011B8, 0xB039);
  (0xB028000011B9, 0xB03A); (0xB028000011BA, 0xB03B); (0xB028000011BB, 0xB03C);
  (0xB028000011BC, 0xB03D); (0xB028000011BD, 0xB03E); (0xB028000011BE, 0xB03F);
  (0xB028000011BF, 0xB040); (0xB028000011C0, 0xB041); (0xB028000011C1, 0xB042);
  (0xB028000011C2, 0xB043); (0xB044000011A8, 0xB045); (0xB044000011A9, 0xB046);
  (0xB044000011AA, 0xB047); (0xB044000011AB, 0xB048); (0xB044000011AC, 0xB049);
  (0xB044000011AD, 0xB04A); (0xB044000011AE, 0xB04B); (0xB044000011AF, 0xB04C);
  (0xB044000011B0, 0xB04D); (0xB044000011B1, 0xB04E); (0xB044000011B2, 0xB04F);
  (0xB044000011B3, 0xB050); (0xB044000011B4, 0xB051); (0xB044000011B5, 0xB052);
  (0xB044000011B6, 0xB053); (0xB044000011B7, 0xB054); (0xB044000011B8, 0xB055);
  (0xB044000011B9, 0xB056); (0xB044000011BA, 0xB057); (0xB044000011BB, 0xB058) ].

Definition nfcCompose_16 : list (Z * Z) := [
  (0xB044000011BC, 0xB059); (0xB044000011BD, 0xB05A); (0xB044000011BE, 0xB05B);
  (0xB044000011BF, 0xB05C); (0xB044000011C0, 0xB05D); (0xB044000011C1, 0xB05E);
  (0xB044000011C2, 0xB05F); (0xB060000011A8, 0xB061); (0xB060000011A9, 0xB062);
  (0xB060000011AA, 0xB063); (0xB060000011AB, 0xB064); (0xB060000011AC, 0xB065);
  (0xB060000011AD, 0xB066); (0xB060000011AE, 0xB067); (0xB060000011AF, 0xB068);
  (0xB060000011B0, 0xB069); (0xB060000011B1, 0xB06A); (0xB060000011B2, 0xB06B);
  (0xB060000011B3, 0xB06C); (0xB060000011B4, 0xB06D); (0xB060000011B5, 0xB06E);
  (0xB060000011B6, 0xB06F); (0xB060000011B7, 0xB070); (0xB060000011B8, 0xB071);
  (0xB060000011B9, 0xB072); (0xB060000011BA, 0xB073); (0xB060000011BB, 0xB074);
  (0xB060000011BC, 0xB075); (0xB060000011BD, 0xB076); (0xB060000011BE, 0xB077);
  (0xB060000011BF, 0xB078); (0xB060000011C0, 0xB079); (0xB060000011C1, 0xB07A);
  (0xB060000011C2, 0xB07B); (0xB07C000011A8, 0xB07D); (0xB07C000011A9, 0xB07E);
  (0xB07C000011AA, 0xB07F); (0xB07C000011AB, 0xB080); (0xB07C000011AC, 0xB081);
  (0xB07C000011AD, 0xB082); (0xB07C000011AE, 0xB083); (0xB07C000011AF, 0xB084);
  (0xB07C000011B0, 0xB085); (0xB07C000011B1, 0xB086); (0xB07C000011B2, 0xB087);
  (0xB07C000011B3, 0xB088); (0xB07C000011B4, 0xB089); (0xB07C000011B5, 0xB08A);
  (0xB07C000011B6, 0xB08B); (0xB07C000011B7, 0xB08C); (0xB07C000011B8, 0xB08D);
  (0xB07C000011B9, 0xB08E); (0xB07C000011BA, 0xB08F); (0xB07C000011BB, 0xB090);
  (0xB07C000011BC, 0xB091); (0xB07C000011BD, 0xB092); (0xB07C000011BE, 0xB093);
  (0xB07C000011BF, 0xB094); (0xB07C000011C0, 0xB095); (0xB07C000011C1, 0xB096);
  (0xB07C000011C2, 0xB097); (0xB098000011A8, 0xB099); (0xB098000011A9, 0xB09A);
  (0xB098000011AA, 0xB09B); (0xB098000011AB, 0xB09C); (0xB098000011AC, 0xB09D);
  (0xB098000011AD, 0xB09E); (0xB098000011AE, 0xB09F); (0xB098000011AF, 0xB0A0);
  (0xB098000011B0, 0xB0A1); (0xB098000011B1, 0xB0A2); (0xB098000011B2, 0xB0A3);
  (0xB098000011B3, 0xB0A4); (0xB098000011B4, 0xB0A5); (0xB098000011B5, 0xB0A6);
  (0xB098000011B6, 0xB0A7); (0xB098000011B7, 0xB0A8); (0xB098000011B8, 0xB0A9);
  (0xB098000011B9, 0xB0AA); (0xB098000011BA, 0xB0AB); (0xB098000011BB, 0xB0AC);
  (0xB098000011BC, 0xB0AD); (0xB098000011BD, 0xB0AE); (0xB098000011BE, 0xB0AF);
  (0xB098000011BF, 0xB0B0); (0xB098000011C0, 0xB0B1); (0xB098000011C1, 0xB0B2);
  (0xB098000011C2, 0xB0B3); (0xB0B4000011A8, 0xB0B5); (0xB0B4000011A9, 0xB0B6);
  (0xB0B4000011AA, 0xB0B7); (0xB0B4000011AB, 0xB0B8); (0xB0B4000011AC, 0xB0B9);
  (0xB0B4000011AD, 0xB0BA); (0xB0B4000011AE, 0xB0BB); (0xB0B4000011AF, 0xB0BC);
  (0xB0B4000011B0, 0xB0BD); (0xB0B4000011B1, 0xB0BE); (0xB0B4000011B2, 0xB0BF);
  (0xB0B4000011B3, 0xB0C0); (0xB0B4000011B4, 0xB0C1); (0xB0B4000011B5, 0xB0C2);
  (0xB0B4000011B6, 0xB0C3); (0xB0B4000011B7, 0xB0C4); (0xB0B4000011B8, 0xB0C5);
  (0xB0B4000011B9, 0xB0C6); (0xB0B4000011BA, 0xB0C7); (0xB0B4000011BB, 0xB0C8);
  (0xB0B4000011BC, 0xB0C9); (0xB0B4000011BD, 0xB0CA); (0xB0B4000011BE, 0xB0CB);
  (0xB0B4000011BF, 0xB0CC); (0xB0B4000011C0, 0xB0CD); (0xB0B4000011C1, 0xB0CE);
  (0xB0B4000011C2, 0xB0CF); (0xB0D0000011A8, 0xB0D1); (0xB0D0000011A9, 0xB0D2);
  (0xB0D0000011AA, 0xB0D3); (0xB0D0000011AB, 0xB0D4); (0xB0D0000011AC, 0xB0D5);
  (0xB0D0000011AD, 0xB0D6); (0xB0D0000011AE, 0xB0D7); (0xB0D0000011AF, 0xB0D8);
  (0xB0D0000011B0, 0xB0D9); (0xB0D0000011B1, 0xB0DA); (0xB0D0000011B2, 0xB0DB);
  (0xB0D0000011B3, 0xB0DC); (0xB0D0000011B4, 0xB0DD); (0xB0D0000011B5, 0xB0DE);
  (0xB0D0000011B6, 0xB0DF); (0xB0D0000011B7, 0xB0E0); (0xB0D0000011B8, 0xB0E1);
  (0xB0D0000011B9, 0xB0E2); (0xB0D0000011BA, 0xB0E3); (0xB0D0000011BB, 0xB0E4);
  (0xB0D0000011BC, 0xB0E5); (0xB0D0000011BD, 0xB0E6); (0xB0D0000011BE, 0xB0E7);
  (0xB0D0000011BF, 0xB0E8); (0xB0D0000011C0, 0xB0E9); (0xB0D0000011C1, 0xB0EA);
  (0xB0D0000011C2, 0xB0EB); (0xB0EC000011A8, 0xB0ED); (0xB0EC000011A9, 0xB0EE);
  (0xB0EC000011AA, 0xB0EF); (0xB0EC000011AB, 0xB0F0); (0xB0EC000011AC, 0xB0F1);
  (0xB0EC000011AD, 0xB0F2); (0xB0EC000011AE, 0xB0F3); (0xB0EC000011AF, 0xB0F4) ].

Definition nfcCompose_17 : list (Z * Z) := [
  (0xB0EC000011B0, 0xB0F5); (0xB0EC000011B1, 0xB0F6); (0xB0EC000011B2, 0xB0F7);
  (0xB0EC000011B3, 0xB0F8); (0xB0EC000011B4, 0xB0F9); (0xB0EC000011B5, 0xB0FA);
  (0xB0EC000011B6, 0xB0FB); (0xB0EC000011B7, 0xB0FC); (0xB0EC000011B8, 0xB0FD);
  (0xB0EC000011B9, 0xB0FE); (0xB0EC000011BA, 0xB0FF); (0xB0EC000011BB, 0xB100);
  (0xB0EC000011BC, 0xB101); (0xB0EC000011BD, 0xB102); (0xB0EC000011BE, 0xB103);
  (0xB0EC000011BF, 0xB104); (0xB0EC000011C0, 0xB105); (0xB0EC000011C1, 0xB106);
  (0xB0EC000011C2, 0xB107); (0xB108000011A8, 0xB109); (0xB108000011A9, 0xB10A);
  (0xB108000011AA, 0xB10B); (0xB108000011AB, 0xB10C); (0xB108000011AC, 0xB10D);
  (0xB108000011AD, 0xB10E); (0xB108000011AE, 0xB10F); (0xB108000011AF, 0xB110);
  (0xB108000011B0, 0xB111); (0xB108000011B1, 0xB112); (0xB108000011B2, 0xB113);
  (0xB108000011B3, 0xB114); (0xB108000011B4, 0xB115); (0xB108000011B5, 0xB116);
  (0xB108000011B6, 0xB117); (0xB108000011B7, 0xB118); (0xB108000011B8, 0xB119);
  (0xB108000011B9, 0xB11A); (0xB108000011BA, 0xB11B); (0xB108000011BB, 0xB11C);
  (0xB108000011BC, 0xB11D); (0xB108000011BD, 0xB11E); (0xB108000011BE, 0xB11F);
  (0xB108000011BF, 0xB120); (0xB108000011C0, 0xB121); (0xB108000011C1, 0xB122);
  (0xB108000011C2, 0xB123); (0xB124000011A8, 0xB125); (0xB124000011A9, 0xB126);
  (0xB124000011AA, 0xB127); (0xB124000011AB, 0xB128); (0xB124000011AC, 0xB129);
  (0xB124000011AD, 0xB12A); (0xB124000011AE, 0xB12B); (0xB124000011AF, 0xB12C);
  (0xB124000011B0, 0xB12D); (0xB124000011B1, 0xB12E); (0xB124000011B2, 0xB12F);
  (0xB124000011B3, 0xB130); (0xB124000011B4, 0xB131); (0xB124000011B5, 0xB132);
  (0xB124000011B6, 0xB133); (0xB124000011B7, 0xB134); (0xB124000011B8, 0xB135);
  (0xB124000011B9, 0xB136); (0xB124000011BA, 0xB137); (0xB124000011BB, 0xB138);
  (0xB124000011BC, 0xB139); (0xB124000011BD, 0xB13A); (0xB124000011BE, 0xB13B);
  (0xB124000011BF, 0xB13C); (0xB124000011C0, 0xB13D); (0xB124000011C1, 0xB13E);
  (0xB124000011C2, 0xB13F); (0xB140000011A8, 0xB141); (0xB140000011A9, 0xB142);
  (0xB140000011AA, 0xB143); (0xB140000011AB, 0xB144); (0xB140000011AC, 0xB145);
  (0xB140000011AD, 0xB146); (0xB140000011AE, 0xB147); (0xB140000011AF, 0xB148);
  (0xB140000011B0, 0xB149); (0xB140000011B1, 0xB14A); (0xB140000011B2, 0xB14B);
  (0xB140000011B3, 0xB14C); (0xB140000011B4, 0xB14D); (0xB140000011B5, 0xB14E);
  (0xB140000011B6, 0xB14F); (0xB140000011B7, 0xB150); (0xB140000011B8, 0xB151);
  (0xB140000011B9, 0xB152); (0xB140000011BA, 0xB153); (0xB140000011BB, 0xB154);
  (0xB140000011BC, 0xB155); (0xB140000011BD, 0xB156); (0xB140000011BE, 0xB157);
  (0xB140000011BF, 0xB158); (0xB140000011C0, 0xB159); (0xB140000011C1, 0xB15A);
  (0xB140000011C2, 0xB15B); (0xB15C000011A8, 0xB15D); (0xB15C000011A9, 0xB15E);
  (0xB15C000011AA, 0xB15F); (0xB15C000011AB, 0xB160); (0xB15C000011AC, 0xB161);
  (0xB15C000011AD, 0xB162); (0xB15C000011AE, 0xB163); (0xB15C000011AF, 0xB164);
  (0xB15C000011B0, 0xB165); (0xB15C000011B1, 0xB166); (0xB15C000011B2, 0xB167);
  (0xB15C000011B3, 0xB168); (0xB15C000011B4, 0xB169); (0xB15C000011B5, 0xB16A);
  (0xB15C000011B6, 0xB16B); (0xB15C000011B7, 0xB16C); (0xB15C000011B8, 0xB16D);
  (0xB15C000011B9, 0xB16E); (0xB15C000011BA, 0xB16F); (0xB15C000011BB, 0xB170);
  (0xB15C000011BC, 0xB171); (0xB15C000011BD, 0xB172); (0xB15C000011BE, 0xB173);
  (0xB15C000011BF, 0xB174); (0xB15C000011C0, 0xB175); (0xB15C000011C1, 0xB176);
  (0xB15C000011C2, 0xB177); (0xB178000011A8, 0xB179); (0xB178000011A9, 0xB17A);
  (0xB178000011AA, 0xB17B); (0xB178000011AB, 0xB17C); (0xB178000011AC, 0xB17D);
  (0xB178000011AD, 0xB17E); (0xB178000011AE, 0xB17F); (0xB178000011AF, 0xB180);
  (0xB178000011B0, 0xB181); (0xB178000011B1, 0xB182); (0xB178000011B2, 0xB183);
  (0xB178000011B3, 0xB184); (0xB178000011B4, 0xB185); (0xB178000011B5, 0xB186);
  (0xB178000011B6, 0xB187); (0xB178000011B7, 0xB188); (0xB178000011B8, 0xB189);
  (0xB178000011B9, 0xB18A); (0xB178000011BA, 0xB18B); (0xB178000011BB, 0xB18C);
  (0xB178000011BC, 0xB18D); (0xB178000011BD, 0xB18E); (0xB178000011BE, 0xB18F) ].

Definition nfcCompose_18 : list (Z * Z) := [
  (0xB178000011BF, 0xB190); (0xB178000011C0, 0xB191); (0xB178000011C1, 0xB192);
  (0xB178000011C2, 0xB193); (0xB194000011A8, 0xB195); (0xB194000011A9, 0xB196);
  (0xB194000011AA, 0xB197); (0xB194000011AB, 0xB198); (0xB194000011AC, 0xB199);
  (0xB194000011AD, 0xB19A); (0xB194000011AE, 0xB19B); (0xB194000011AF, 0xB19C);
  (0xB194000011B0, 0xB19D); (0xB194000011B1, 0xB19E); (0xB194000011B2, 0xB19F);
  (0xB194000011B3, 0xB1A0); (0xB194000011B4, 0xB1A1); (0xB194000011B5, 0xB1A2);
  (0xB194000011B6, 0xB1A3); (0xB194000011B7, 0xB1A4); (0xB194000011B8, 0xB1A5);
  (0xB194000011B9, 0xB1A6); (0xB194000011BA, 0xB1A7); (0xB194000011BB, 0xB1A8);
  (0xB194000011BC, 0xB1A9); (0xB194000011BD, 0xB1AA); (0xB194000011BE, 0xB1AB);
  (0xB194000011BF, 0xB1AC); (0xB194000011C0, 0xB1AD); (0xB194000011C1, 0xB1AE);
  (0xB194000011C2, 0xB1AF); (0xB1B0000011A8, 0xB1B1); (0xB1B0000011A9, 0xB1B2);
  (0xB1B0000011AA, 0xB1B3); (0xB1B0000011AB, 0xB1B4); (0xB1B0000011AC, 0xB1B5);
  (0xB1B0000011AD, 0xB1B6); (0xB1B0000011AE, 0xB1B7); (0xB1B0000011AF, 0xB1B8);
  (0xB1B0000011B0, 0xB1B9); (0xB1B0000011B1, 0xB1BA); (0xB1B0000011B2, 0xB1BB);
  (0xB1B0000011B3, 0xB1BC); (0xB1B0000011B4, 0xB1BD); (0xB1B0000011B5, 0xB1BE);
  (0xB1B0000011B6, 0xB1BF); (0xB1B0000011B7, 0xB1C0); (0xB1B0000011B8, 0xB1C1);
  (0xB1B0000011B9, 0xB1C2); (0xB1B0000011BA, 0xB1C3); (0xB1B0000011BB, 0xB1C4);
  (0xB1B0000011BC, 0xB1C5); (0xB1B0000011BD, 0xB1C6); (0xB1B0000011BE, 0xB1C7);
  (0xB1B0000011BF, 0xB1C8); (0xB1B0000011C0, 0xB1C9); (0xB1B0000011C1, 0xB1CA);
  (0xB1B0000011C2, 0xB1CB); (0xB1CC000011A8, 0xB1CD); (0xB1CC000011A9, 0xB1CE);
  (0xB1CC000011AA, 0xB1CF); (0xB1CC000011AB, 0xB1D0); (0xB1CC000011AC, 0xB1D1);
  (0xB1CC000011AD, 0xB1D2); (0xB1CC000011AE, 0xB1D3); (0xB1CC000011AF, 0xB1D4);
  (0xB1CC000011B0, 0xB1D5); (0xB1CC000011B1, 0xB1D6); (0xB1CC000011B2, 0xB1D7);
  (0xB1CC000011B3, 0xB1D8); (0xB1CC000011B4, 0xB1D9); (0xB1CC000011B5, 0xB1DA);
  (0xB1CC000011B6, 0xB1DB); (0xB1CC000011B7, 0xB1DC); (0xB1CC000011B8, 0xB1DD);
  (0xB1CC000011B9, 0xB1DE); (0xB1CC000011BA, 0xB1DF); (0xB1CC000011BB, 0xB1E0);
  (0xB1CC000011BC, 0xB1E1); (0xB1CC000011BD, 0xB1E2); (0xB1CC000011BE, 0xB1E3);
  (0xB1CC000011BF, 0xB1E4); (0xB1CC000011C0, 0xB1E5); (0xB1CC000011C1, 0xB1E6);
  (0xB1CC000011C2, 0xB1E7); (0xB1E8000011A8, 0xB1E9); (0xB1E8000011A9, 0xB1EA);
  (0xB1E8000011AA, 0xB1EB); (0xB1E8000011AB, 0xB1EC); (0xB1E8000011AC, 0xB1ED);
  (0xB1E8000011AD, 0xB1EE); (0xB1E8000011AE, 0xB1EF); (0xB1E8000011AF, 0xB1F0);
  (0xB1E8000011B0, 0xB1F1); (0xB1E8000011B1, 0xB1F2); (0xB1E8000011B2, 0xB1F3);
  (0xB1E8000011B3, 0xB1F4); (0xB1E8000011B4, 0xB1F5); (0xB1E8000011B5, 0xB1F6);
  (0xB1E8000011B6, 0xB1F7); (0xB1E8000011B7, 0xB1F8); (0xB1E8000011B8, 0xB1F9);
  (0xB1E8000011B9, 0xB1FA); (0xB1E8000011BA, 0xB1FB); (0xB1E8000011BB, 0xB1FC);
  (0xB1E8000011BC, 0xB1FD); (0xB1E8000011BD, 0xB1FE); (0xB1E8000011BE, 0xB1FF);
  (0xB1E8000011BF, 0xB200); (0xB1E8000011C0, 0xB201); (0xB1E8000011C1, 0xB202);
  (0xB1E8000011C2, 0xB203); (0xB204000011A8, 0xB205); (0xB204000011A9, 0xB206);
  (0xB204000011AA, 0xB207); (0xB204000011AB, 0xB208); (0xB204000011AC, 0xB209);
  (0xB204000011AD, 0xB20A); (0xB204000011AE, 0xB20B); (0xB204000011AF, 0xB20C);
  (0xB204000011B0, 0xB20D); (0xB204000011B1, 0xB20E); (0xB204000011B2, 0xB20F);
  (0xB204000011B3, 0xB210); (0xB204000011B4, 0xB211); (0xB204000011B5, 0xB212);
  (0xB204000011B6, 0xB213); (0xB204000011B7, 0xB214); (0xB204000011B8, 0xB215);
  (0xB204000011B9, 0xB216); (0xB204000011BA, 0xB217); (0xB204000011BB, 0xB218);
  (0xB204000011BC, 0xB219); (0xB204000011BD, 0xB21A); (0xB204000011BE, 0xB21B);
  (0xB204000011BF, 0xB21C); (0xB204000011C0, 0xB21D); (0xB204000011C1, 0xB21E);
  (0xB204000011C2, 0xB21F); (0xB220000011A8, 0xB221); (0xB220000011A9, 0xB222);
  (0xB220000011AA, 0xB223); (0xB220000011AB, 0xB224); (0xB220000011AC, 0xB225);
  (0xB220000011AD, 0xB226); (0xB220000011AE, 0xB227); (0xB220000011AF, 0xB228);
  (0xB220000011B0, 0xB229); (0xB220000011B1, 0xB22A); (0xB220000011B2, 0xB22B) ].

Definition nfcCompose_19 : list (Z * Z) := [
  (0xB220000011B3, 0xB22C); (0xB220000011B4, 0xB22D); (0xB220000011B5, 0xB22E);
  (0xB220000011B6, 0xB22F); (0xB220000011B7, 0xB230); (0xB220000011B8, 0xB231);
  (0xB220000011B9, 0xB232); (0xB220000011BA, 0xB233); (0xB220000011BB, 0xB234);
  (0xB220000011BC, 0xB235); (0xB220000011BD, 0xB236); (0xB220000011BE, 0xB237);
  (0xB220000011BF, 0xB238); (0xB220000011C0, 0xB239); (0xB220000011C1, 0xB23A);
  (0xB220000011C2, 0xB23B); (0xB23C000011A8, 0xB23D); (0xB23C000011A9, 0xB23E);
  (0xB23C000011AA, 0xB23F); (0xB23C000011AB, 0xB240); (0xB23C000011AC, 0xB241);
  (0xB23C000011AD, 0xB242); (0xB23C000011AE, 0xB243); (0xB23C000011AF, 0xB244);
  (0xB23C000011B0, 0xB245); (0xB23C000011B1, 0xB246); (0xB23C000011B2, 0xB247);
  (0xB23C000011B3, 0xB248); (0xB23C000011B4, 0xB249); (0xB23C000011B5, 0xB24A);
  (0xB23C000011B6, 0xB24B); (0xB23C000011B7, 0xB24C); (0xB23C000011B8, 0xB24D);
  (0xB23C000011B9, 0xB24E); (0xB23C000011BA, 0xB24F); (0xB23C000011BB, 0xB250);
  (0xB23C000011BC, 0xB251); (0xB23C000011BD, 0xB252); (0xB23C000011BE, 0xB253);
  (0xB23C000011BF, 0xB254); (0xB23C000011C0, 0xB255); (0xB23C000011C1, 0xB256);
  (0xB23C000011C2, 0xB257); (0xB258000011A8, 0xB259); (0xB258000011A9, 0xB25A);
  (0xB258000011AA, 0xB25B); (0xB258000011AB, 0xB25C); (0xB258000011AC, 0xB25D);
  (0xB258000011AD, 0xB25E); (0xB258000011AE, 0xB25F); (0xB258000011AF, 0xB260);
  (0xB258000011B0, 0xB261); (0xB258000011B1, 0xB262); (0xB258000011B2, 0xB263);
  (0xB258000011B3, 0xB264); (0xB258000011B4, 0xB265); (0xB258000011B5, 0xB266);
  (0xB258000011B6, 0xB267); (0xB258000011B7, 0xB268); (0xB258000011B8, 0xB269);
  (0xB258000011B9, 0xB26A); (0xB258000011BA, 0xB26B); (0xB258000011BB, 0xB26C);
  (0xB258000011BC, 0xB26D); (0xB258000011BD, 0xB26E); (0xB258000011BE, 0xB26F);
  (0xB258000011BF, 0xB270); (0xB258000011C0, 0xB271); (0xB258000011C1, 0xB272);
  (0xB258000011C2, 0xB273); (0xB274000011A8, 0xB275); (0xB274000011A9, 0xB276);
  (0xB274000011AA, 0xB277); (0xB274000011AB, 0xB278); (0xB274000011AC, 0xB279);
  (0xB274000011AD, 0xB27A); (0xB274000011AE, 0xB27B); (0xB274000011AF, 0xB27C);
  (0xB274000011B0, 0xB27D); (0xB274000011B1, 0xB27E); (0xB274000011B2, 0xB27F);
  (0xB274000011B3, 0xB280); (0xB274000011B4, 0xB281); (0xB274000011B5, 0xB282);
  (0xB274000011B6, 0xB283); (0xB274000011B7, 0xB284); (0xB274000011B8, 0xB285);
  (0xB274000011B9, 0xB286); (0xB274000011BA, 0xB287); (0xB274000011BB, 0xB288);
  (0xB274000011BC, 0xB289); (0xB274000011BD, 0xB28A); (0xB274000011BE, 0xB28B);
  (0xB274000011BF, 0xB28C); (0xB274000011C0, 0xB28D); (0xB274000011C1, 0xB28E);
  (0xB274000011C2, 0xB28F); (0xB290000011A8, 0xB291); (0xB290000011A9, 0xB292);
  (0xB290000011AA, 0xB293); (0xB290000011AB, 0xB294); (0xB290000011AC, 0xB295);
  (0xB290000011AD, 0xB296); (0xB290000011AE, 0xB297); (0xB290000011AF, 0xB298);
  (0xB290000011B0, 0xB299); (0xB290000011B1, 0xB29A); (0xB290000011B2, 0xB29B);
  (0xB290000011B3, 0xB29C); (0xB290000011B4, 0xB29D); (0xB290000011B5, 0xB29E);
  (0xB290000011B6, 0xB29F); (0xB290000011B7, 0xB2A0); (0xB290000011B8, 0xB2A1);
  (0xB290000011B9, 0xB2A2); (0xB290000011BA, 0xB2A3); (0xB290000011BB, 0xB2A4);
  (0xB290000011BC, 0xB2A5); (0xB290000011BD, 0xB2A6); (0xB290000011BE, 0xB2A7);
  (0xB290000011BF, 0xB2A8); (0xB290000011C0, 0xB2A9); (0xB290000011C1, 0xB2AA);
  (0xB290000011C2, 0xB2AB); (0xB2AC000011A8, 0xB2AD); (0xB2AC000011A9, 0xB2AE);
  (0xB2AC000011AA, 0xB2AF); (0xB2AC000011AB, 0xB2B0); (0xB2AC000011AC, 0xB2B1);
  (0xB2AC000011AD, 0xB2B2); (0xB2AC000011AE, 0xB2B3); (0xB2AC000011AF, 0xB2B4);
  (0xB2AC000011B0, 0xB2B5); (0xB2AC000011B1, 0xB2B6); (0xB2AC000011B2, 0xB2B7);
  (0xB2AC000011B3, 0xB2B8); (0xB2AC000011B4, 0xB2B9); (0xB2AC000011B5, 0xB2BA);
  (0xB2AC000011B6, 0xB2BB); (0xB2AC000011B7, 0xB2BC); (0xB2AC000011B8, 0xB2BD);
  (0xB2AC000011B9, 0xB2BE); (0xB2AC000011BA, 0xB2BF); (0xB2AC000011BB, 0xB2C0);
  (0xB2AC000011BC, 0xB2C1); (0xB2AC000011BD, 0xB2C2); (0xB2AC000011BE, 0xB2C3);
  (0xB2AC000011BF, 0xB2C4); (0xB2AC000011C0, 0xB2C5); (0xB2AC000011C1, 0xB2C6) ].

Definition nfcCompose_20 : list (Z * Z) := [
  (0xB2AC000011C2, 0xB2C7); (0xB2C8000011A8, 0xB2C9); (0xB2C8000011A9, 0xB2CA);
  (0xB2C8000011AA, 0xB2CB); (0xB2C8000011AB, 0xB2CC); (0xB2C8000011AC, 0xB2CD);
  (0xB2C8000011AD, 0xB2CE); (0xB2C8000011AE, 0xB2CF); (0xB2C8000011AF, 0xB2D0);
  (0xB2C8000011B0, 0xB2D1); (0xB2C8000011B1, 0xB2D2); (0xB2C8000011B2, 0xB2D3);
  (0xB2C8000011B3, 0xB2D4); (0xB2C8000011B4, 0xB2D5); (0xB2C8000011B5, 0xB2D6);
  (0xB2C8000011B6, 0xB2D7); (0xB2C8000011B7, 0xB2D8); (0xB2C8000011B8, 0xB2D9);
  (0xB2C8000011B9, 0xB2DA); (0xB2C8000011BA, 0xB2DB); (0xB2C8000011BB, 0xB2DC);
  (0xB2C8000011BC, 0xB2DD); (0xB2C8000011BD, 0xB2DE); (0xB2C8000011BE, 0xB2DF);
  (0xB2C8000011BF, 0xB2E0); (0xB2C8000011C0, 0xB2E1); (0xB2C8000011C1, 0xB2E2);
  (0xB2C8000011C2, 0xB2E3); (0xB2E4000011A8, 0xB2E5); (0xB2E4000011A9, 0xB2E6);
  (0xB2E4000011AA, 0xB2E7); (0xB2E4000011AB, 0xB2E8); (0xB2E4000011AC, 0xB2E9);
  (0xB2E4000011AD, 0xB2EA); (0xB2E4000011AE, 0xB2EB); (0xB2E4000011AF, 0xB2EC);
  (0xB2E4000011B0, 0xB2ED); (0xB2E4000011B1, 0xB2EE); (0xB2E4000011B2, 0xB2EF);
  (0xB2E4000011B3, 0xB2F0); (0xB2E4000011B4, 0xB2F1); (0xB2E4000011B5, 0xB2F2);
  (0xB2E4000011B6, 0xB2F3); (0xB2E4000011B7, 0xB2F4); (0xB2E4000011B8, 0xB2F5);
  (0xB2E4000011B9, 0xB2F6); (0xB2E4000011BA, 0xB2F7); (0xB2E4000011BB, 0xB2F8);
  (0xB2E4000011BC, 0xB2F9); (0xB2E4000011BD, 0xB2FA); (0xB2E4000011BE, 0xB2FB);
  (0xB2E4000011BF, 0xB2FC); (0xB2E4000011C0, 0xB2FD); (0xB2E4000011C1, 0xB2FE);
  (0xB2E4000011C2, 0xB2FF); (0xB300000011A8, 0xB301); (0xB300000011A9, 0xB302);
  (0xB300000011AA, 0xB303); (0xB300000011AB, 0xB304); (0xB300000011AC, 0xB305);
  (0xB300000011AD, 0xB306); (0xB300000011AE, 0xB307); (0xB300000011AF, 0xB308);
  (0xB300000011B0, 0xB309); (0xB300000011B1, 0xB30A); (0xB300000011B2, 0xB30B);
  (0xB300000011B3, 0xB30C); (0xB300000011B4, 0xB30D); (0xB300000011B5, 0xB30E);
  (0xB300000011B6, 0xB30F); (0xB300000011B7, 0xB310); (0xB300000011B8, 0xB311);
  (0xB300000011B9, 0xB312); (0xB300000011BA, 0xB313); (0xB300000011BB, 0xB314);
  (0xB300000011BC, 0xB315); (0xB300000011BD, 0xB316); (0xB300000011BE, 0xB317);
  (0xB300000011BF, 0xB318); (0xB300000011C0, 0xB319); (0xB300000011C1, 0xB31A);
  (0xB300000011C2, 0xB31B); (0xB31C000011A8, 0xB31D); (0xB31C000011A9, 0xB31E);
  (0xB31C000011AA, 0xB31F); (0xB31C000011AB, 0xB320); (0xB31C000011AC, 0xB321);
  (0xB31C000011AD, 0xB322); (0xB31C000011AE, 0xB323); (0xB31C000011AF, 0xB324);
  (0xB31C000011B0, 0xB325); (0xB31C000011B1, 0xB326); (0xB31C000011B2, 0xB327);
  (0xB31C000011B3, 0xB328); (0xB31C000011B4, 0xB329); (0xB31C000011B5, 0xB32A);
  (0xB31C000011B6, 0xB32B); (0xB31C000011B7, 0xB32C); (0xB31C000011B8, 0xB32D);
  (0xB31C000011B9, 0xB32E); (0xB31C000011BA, 0xB32F); (0xB31C000011BB, 0xB330);
  (0xB31C000011BC, 0xB331); (0xB31C000011BD, 0xB332); (0xB31C000011BE, 0xB333);
  (0xB31C000011BF, 0xB334); (0xB31C000011C0, 0xB335); (0xB31C000011C1, 0xB336);
  (0xB31C000011C2, 0xB337); (0xB338000011A8, 0xB339); (0xB338000011A9, 0xB33A);
  (0xB338000011AA, 0xB33B); (0xB338000011AB, 0xB33C); (0xB338000011AC, 0xB33D);
  (0xB338000011AD, 0xB33E); (0xB338000011AE, 0xB33F); (0xB338000011AF, 0xB340);
  (0xB338000011B0, 0xB341); (0xB338000011B1, 0xB342); (0xB338000011B2, 0xB343);
  (0xB338000011B3, 0xB344); (0xB338000011B4, 0xB345); (0xB338000011B5, 0xB346);
  (0xB338000011B6, 0xB347); (0xB338000011B7, 0xB348); (0xB338000011B8, 0xB349);
  (0xB338000011B9, 0xB34A); (0xB338000011BA, 0xB34B); (0xB338000011BB, 0xB34C);
  (0xB338000011BC, 0xB34D); (0xB338000011BD, 0xB34E); (0xB338000011BE, 0xB34F);
  (0xB338000011BF, 0xB350); (0xB338000011C0, 0xB351); (0xB338000011C1, 0xB352);
  (0xB338000011C2, 0xB353); (0xB354000011A8, 0xB355); (0xB354000011A9, 0xB356);
  (0xB354000011AA, 0xB357); (0xB354000011AB, 0xB358); (0xB354000011AC, 0xB359);
  (0xB354000011AD, 0xB35A); (0xB354000011AE, 0xB35B); (0xB354000011AF, 0xB35C);
  (0xB354000011B0, 0xB35D); (0xB354000011B1, 0xB35E); (0xB354000011B2, 0xB35F);
  (0xB354000011B3, 0xB360); (0xB354000011B4, 0xB361); (0xB354000011B5, 0xB362) ].

Definition nfcCompose_21 : list (Z * Z) := [
  (0xB354000011B6, 0xB363); (0xB354000011B7, 0xB364); (0xB354000011B8, 0xB365);
  (0xB354000011B9, 0xB366); (0xB354000011BA, 0xB367); (0xB354000011BB, 0xB368);
  (0xB354000011BC, 0xB369); (0xB354000011BD, 0xB36A); (0xB354000011BE, 0xB36B);
  (0xB354000011BF, 0xB36C); (0xB354000011C0, 0xB36D); (0xB354000011C1, 0xB36E);
  (0xB354000011C2, 0xB36F); (0xB370000011A8, 0xB371); (0xB370000011A9, 0xB372);
  (0xB370000011AA, 0xB373); (0xB370000011AB, 0xB374); (0xB370000011AC, 0xB375);
  (0xB370000011AD, 0xB376); (0xB370000011AE, 0xB377); (0xB370000011AF, 0xB378);
  (0xB370000011B0, 0xB379); (0xB370000011B1, 0xB37A); (0xB370000011B2, 0xB37B);
  (0xB370000011B3, 0xB37C); (0xB370000011B4, 0xB37D); (0xB370000011B5, 0xB37E);
  (0xB370000011B6, 0xB37F); (0xB370000011B7, 0xB380); (0xB370000011B8, 0xB381);
  (0xB370000011B9, 0xB382); (0xB370000011BA, 0xB383); (0xB370000011BB, 0xB384);
  (0xB370000011BC, 0xB385); (0xB370000011BD, 0xB386); (0xB370000011BE, 0xB387);
  (0xB370000011BF, 0xB388); (0xB370000011C0, 0xB389); (0xB370000011C1, 0xB38A);
  (0xB370000011C2, 0xB38B); (0xB38C000011A8, 0xB38D); (0xB38C000011A9, 0xB38E);
  (0xB38C000011AA, 0xB38F); (0xB38C000011AB, 0xB390); (0xB38C000011AC, 0xB391);
  (0xB38C000011AD, 0xB392); (0xB38C000011AE, 0xB393); (0xB38C000011AF, 0xB394);
  (0xB38C000011B0, 0xB395); (0xB38C000011B1, 0xB396); (0xB38C000011B2, 0xB397);
  (0xB38C000011B3, 0xB398); (0xB38C000011B4, 0xB399); (0xB38C000011B5, 0xB39A);
  (0xB38C000011B6, 0xB39B); (0xB38C000011B7, 0xB39C); (0xB38C000011B8, 0xB39D);
  (0xB38C000011B9, 0xB39E); (0xB38C000011BA, 0xB39F); (0xB38C000011BB, 0xB3A0);
  (0xB38C000011BC, 0xB3A1); (0xB38C000011BD, 0xB3A2); (0xB38C000011BE, 0xB3A3);
  (0xB38C000011BF, 0xB3A4); (0xB38C000011C0, 0xB3A5); (0xB38C000011C1, 0xB3A6);
  (0xB38C000011C2, 0xB3A7); (0xB3A8000011A8, 0xB3A9); (0xB3A8000011A9, 0xB3AA);
  (0xB3A8000011AA, 0xB3AB); (0xB3A8000011AB, 0xB3AC); (0xB3A8000011AC, 0xB3AD);
  (0xB3A8000011AD, 0xB3AE); (0xB3A8000011AE, 0xB3AF); (0xB3A8000011AF, 0xB3B0);
  (0xB3A8000011B0, 0xB3B1); (0xB3A8000011B1, 0xB3B2); (0xB3A8000011B2, 0xB3B3);
  (0xB3A8000011B3, 0xB3B4); (0xB3A8000011B4, 0xB3B5); (0xB3A8000011B5, 0xB3B6);
  (0xB3A8000011B6, 0xB3B7); (0xB3A8000011B7, 0xB3B8); (0xB3A8000011B8, 0xB3B9);
  (0xB3A8000011B9, 0xB3BA); (0xB3A8000011BA, 0xB3BB); (0xB3A8000011BB, 0xB3BC);
  (0xB3A8000011BC, 0xB3BD); (0xB3A8000011BD, 0xB3BE); (0xB3A8000011BE, 0xB3BF);
  (0xB3A8000011BF, 0xB3C0); (0xB3A8000011C0, 0xB3C1); (0xB3A8000011C1, 0xB3C2);
  (0xB3A8000011C2, 0xB3C3); (0xB3C4000011A8, 0xB3C5); (0xB3C4000011A9, 0xB3C6);
  (0xB3C4000011AA, 0xB3C7); (0xB3C4000011AB, 0xB3C8); (0xB3C4000011AC, 0xB3C9);
  (0xB3C4000011AD, 0xB3CA); (0xB3C4000011AE, 0xB3CB); (0xB3C4000011AF, 0xB3CC);
  (0xB3C4000011B0, 0xB3CD); (0xB3C4000011B1, 0xB3CE); (0xB3C4000011B2, 0xB3CF);
  (0xB3C4000011B3, 0xB3D0); (0xB3C4000011B4, 0xB3D1); (0xB3C4000011B5, 0xB3D2);
  (0xB3C4000011B6, 0xB3D3); (0xB3C4000011B7, 0xB3D4); (0xB3C4000011B8, 0xB3D5);
  (0xB3C4000011B9, 0xB3D6); (0xB3C4000011BA, 0xB3D7); (0xB3C4000011BB, 0xB3D8);
  (0xB3C4000011BC, 0xB3D9); (0xB3C4000011BD, 0xB3DA); (0xB3C4000011BE, 0xB3DB);
  (0xB3C4000011BF, 0xB3DC); (0xB3C4000011C0, 0xB3DD); (0xB3C4000011C1, 0xB3DE);
  (0xB3C4000011C2, 0xB3DF); (0xB3E0000011A8, 0xB3E1); (0xB3E0000011A9, 0xB3E2);
  (0xB3E0000011AA, 0xB3E3); (0xB3E0000011AB, 0xB3E4); (0xB3E0000011AC, 0xB3E5);
  (0xB3E0000011AD, 0xB3E6); (0xB3E0000011AE, 0xB3E7); (0xB3E0000011AF, 0xB3E8);
  (0xB3E0000011B0, 0xB3E9); (0xB3E0000011B1, 0xB3EA); (0xB3E0000011B2, 0xB3EB);
  (0xB3E0000011B3, 0xB3EC); (0xB3E0000011B4, 0xB3ED); (0xB3E0000011B5, 0xB3EE);
  (0xB3E0000011B6, 0xB3EF); (0xB3E0000011B7, 0xB3F0); (0xB3E0000011B8, 0xB3F1);
  (0xB3E0000011B9, 0xB3F2); (0xB3E0000011BA, 0xB3F3); (0xB3E0000011BB, 0xB3F4);
  (0xB3E0000011BC, 0xB3F5); (0xB3E0000011BD, 0xB3F6); (0xB3E0000011BE, 0xB3F7);
  (0xB3E0000011BF, 0xB3F8); (0xB3E0000011C0, 0xB3F9); (0xB3E0000011C1, 0xB3FA);
  (0xB3E0000011C2, 0xB3FB); (0xB3FC000011A8, 0xB3FD); (0xB3FC000011A9, 0xB3FE) ].

Definition nfcCompose_22 : list (Z * Z) := [
  (0xB3FC000011AA, 0xB3FF); (0xB3FC000011AB, 0xB400); (0xB3FC000011AC, 0xB401);
  (0xB3FC000011AD, 0xB402); (0xB3FC000011AE, 0xB403); (0xB3FC000011AF, 0xB404);
  (0xB3FC000011B0, 0xB405); (0xB3FC000011B1, 0xB406); (0xB3FC000011B2, 0xB407);
  (0xB3FC000011B3, 0xB408); (0xB3FC000011B4, 0xB409); (0xB3FC000011B5, 0xB40A);
  (0xB3FC000011B6, 0xB40B); (0xB3FC000011B7, 0xB40C); (0xB3FC000011B8, 0xB40D);
  (0xB3FC000011B9, 0xB40E); (0xB3FC000011BA, 0xB40F); (0xB3FC000011BB, 0xB410);
  (0xB3FC000011BC, 0xB411); (0xB3FC000011BD, 0xB412); (0xB3FC000011BE, 0xB413);
  (0xB3FC000011BF, 0xB414); (0xB3FC000011C0, 0xB415); (0xB3FC000011C1, 0xB416);
  (0xB3FC000011C2, 0xB417); (0xB418000011A8, 0xB419); (0xB418000011A9, 0xB41A);
  (0xB418000011AA, 0xB41B); (0xB418000011AB, 0xB41C); (0xB418000011AC, 0xB41D);
  (0xB418000011AD, 0xB41E); (0xB418000011AE, 0xB41F); (0xB418000011AF, 0xB420);
  (0xB418000011B0, 0xB421); (0xB418000011B1, 0xB422); (0xB418000011B2, 0xB423);
  (0xB418000011B3, 0xB424); (0xB418000011B4, 0xB425); (0xB418000011B5, 0xB426);
  (0xB418000011B6, 0xB427); (0xB418000011B7, 0xB428); (0xB418000011B8, 0xB429);
  (0xB418000011B9, 0xB42A); (0xB418000011BA, 0xB42B); (0xB418000011BB, 0xB42C);
  (0xB418000011BC, 0xB42D); (0xB418000011BD, 0xB42E); (0xB418000011BE, 0xB42F);
  (0xB418000011BF, 0xB430); (0xB418000011C0, 0xB431); (0xB418000011C1, 0xB432);
  (0xB418000011C2, 0xB433); (0xB434000011A8, 0xB435); (0xB434000011A9, 0xB436);
  (0xB434000011AA, 0xB437); (0xB434000011AB, 0xB438); (0xB434000011AC, 0xB439);
  (0xB434000011AD, 0xB43A); (0xB434000011AE, 0xB43B); (0xB434000011AF, 0xB43C);
  (0xB434000011B0, 0xB43D); (0xB434000011B1, 0xB43E); (0xB434000011B2, 0xB43F);
  (0xB434000011B3, 0xB440); (0xB434000011B4, 0xB441); (0xB434000011B5, 0xB442);
  (0xB434000011B6, 0xB443); (0xB434000011B7, 0xB444); (0xB434000011B8, 0xB445);
  (0xB434000011B9, 0xB446); (0xB434000011BA, 0xB447); (0xB434000011BB, 0xB448);
  (0xB434000011BC, 0xB449); (0xB434000011BD, 0xB44A); (0xB434000011BE, 0xB44B);
  (0xB434000011BF, 0xB44C); (0xB434000011C0, 0xB44D); (0xB434000011C1, 0xB44E);
  (0xB434000011C2, 0xB44F); (0xB450000011A8, 0xB451); (0xB450000011A9, 0xB452);
  (0xB450000011AA, 0xB453); (0xB450000011AB, 0xB454); (0xB450000011AC, 0xB455);
  (0xB450000011AD, 0xB456); (0xB450000011AE, 0xB457); (0xB450000011AF, 0xB458);
  (0xB450000011B0, 0xB459); (0xB450000011B1, 0xB45A); (0xB450000011B2, 0xB45B);
  (0xB450000011B3, 0xB45C); (0xB450000011B4, 0xB45D); (0xB450000011B5, 0xB45E);
  (0xB450000011B6, 0xB45F); (0xB450000011B7, 0xB460); (0xB450000011B8, 0xB461);
  (0xB450000011B9, 0xB462); (0xB450000011BA, 0xB463); (0xB450000011BB, 0xB464);
  (0xB450000011BC, 0xB465); (0xB450000011BD, 0xB466); (0xB450000011BE, 0xB467);
  (0xB450000011BF, 0xB468); (0xB450000011C0, 0xB469); (0xB450000011C1, 0xB46A);
  (0xB450000011C2, 0xB46B); (0xB46C000011A8, 0xB46D); (0xB46C000011A9, 0xB46E);
  (0xB46C000011AA, 0xB46F); (0xB46C000011AB, 0xB470); (0xB46C000011AC, 0xB471);
  (0xB46C000011AD, 0xB472); (0xB46C000011AE, 0xB473); (0xB46C000011AF, 0xB474);
  (0xB46C000011B0, 0xB475); (0xB46C000011B1, 0xB476); (0xB46C000011B2, 0xB477);
  (0xB46C000011B3, 0xB478); (0xB46C000011B4, 0xB479); (0xB46C000011B5, 0xB47A);
  (0xB46C000011B6, 0xB47B); (0xB46C000011B7, 0xB47C); (0xB46C000011B8, 0xB47D);
  (0xB46C000011B9, 0xB47E); (0xB46C000011BA, 0xB47F); (0xB46C000011BB, 0xB480);
  (0xB46C000011BC, 0xB481); (0xB46C000011BD, 0xB482); (0xB46C000011BE, 0xB483);
  (0xB46C000011BF, 0xB484); (0xB46C000011C0, 0xB485); (0xB46C000011C1, 0xB486);
  (0xB46C000011C2, 0xB487); (0xB488000011A8, 0xB489); (0xB488000011A9, 0xB48A);
  (0xB488000011AA, 0xB48B); (0xB488000011AB, 0xB48C); (0xB488000011AC, 0xB48D);
  (0xB488000011AD, 0xB48E); (0xB488000011AE, 0xB48F); (0xB488000011AF, 0xB490);
  (0xB488000011B0, 0xB491); (0xB488000011B1, 0xB492); (0xB488000011B2, 0xB493);
  (0xB488000011B3, 0xB494); (0xB488000011B4, 0xB495); (0xB488000011B5, 0xB496);
  (0xB488000011B6, 0xB497); (0xB488000011B7, 0xB498); (0xB488000011B8, 0xB499) ].

Definition nfcCompose_23 : list (Z * Z) := [
  (0xB488000011B9, 0xB49A); (0xB488000011BA, 0xB49B); (0xB488000011BB, 0xB49C);
  (0xB488000011BC, 0xB49D); (0xB488000011BD, 0xB49E); (0xB488000011BE, 0xB49F);
  (0xB488000011BF, 0xB4A0); (0xB488000011C0, 0xB4A1); (0xB488000011C1, 0xB4A2);
  (0xB488000011C2, 0xB4A3); (0xB4A4000011A8, 0xB4A5); (0xB4A4000011A9, 0xB4A6);
  (0xB4A4000011AA, 0xB4A7); (0xB4A4000011AB, 0xB4A8); (0xB4A4000011AC, 0xB4A9);
  (0xB4A4000011AD, 0xB4AA); (0xB4A4000011AE, 0xB4AB); (0xB4A4000011AF, 0xB4AC);
  (0xB4A4000011B0, 0xB4AD); (0xB4A4000011B1, 0xB4AE); (0xB4A4000011B2, 0xB4AF);
  (0xB4A4000011B3, 0xB4B0); (0xB4A4000011B4, 0xB4B1); (0xB4A4000011B5, 0xB4B2);
  (0xB4A4000011B6, 0xB4B3); (0xB4A4000011B7, 0xB4B4); (0xB4A4000011B8, 0xB4B5);
  (0xB4A4000011B9, 0xB4B6); (0xB4A4000011BA, 0xB4B7); (0xB4A4000011BB, 0xB4B8);
  (0xB4A4000011BC, 0xB4B9); (0xB4A4000011BD, 0xB4BA); (0xB4A4000011BE, 0xB4BB);
  (0xB4A4000011BF, 0xB4BC); (0xB4A4000011C0, 0xB4BD); (0xB4A4000011C1, 0xB4BE);
  (0xB4A4000011C2, 0xB4BF); (0xB4C0000011A8, 0xB4C1); (0xB4C0000011A9, 0xB4C2);
  (0xB4C0000011AA, 0xB4C3); (0xB4C0000011AB, 0xB4C4); (0xB4C0000011AC, 0xB4C5);
  (0xB4C0000011AD, 0xB4C6); (0xB4C0000011AE, 0xB4C7); (0xB4C0000011AF, 0xB4C8);
  (0xB4C0000011B0, 0xB4C9); (0xB4C0000011B1, 0xB4CA); (0xB4C0000011B2, 0xB4CB);
  (0xB4C0000011B3, 0xB4CC); (0xB4C0000011B4, 0xB4CD); (0xB4C0000011B5, 0xB4CE);
  (0xB4C0000011B6, 0xB4CF); (0xB4C0000011B7, 0xB4D0); (0xB4C0000011B8, 0xB4D1);
  (0xB4C0000011B9, 0xB4D2); (0xB4C0000011BA, 0xB4D3); (0xB4C0000011BB, 0xB4D4);
  (0xB4C0000011BC, 0xB4D5); (0xB4C0000011BD, 0xB4D6); (0xB4C0000011BE, 0xB4D7);
  (0xB4C0000011BF, 0xB4D8); (0xB4C0000011C0, 0xB4D9); (0xB4C0000011C1, 0xB4DA);
  (0xB4C0000011C2, 0xB4DB); (0xB4DC000011A8, 0xB4DD); (0xB4DC000011A9, 0xB4DE);
  (0xB4DC000011AA, 0xB4DF); (0xB4DC000011AB, 0xB4E0); (0xB4DC000011AC, 0xB4E1);
  (0xB4DC000011AD, 0xB4E2); (0xB4DC000011AE, 0xB4E3); (0xB4DC000011AF, 0xB4E4);
  (0xB4DC000011B0, 0xB4E5); (0xB4DC000011B1, 0xB4E6); (0xB4DC000011B2, 0xB4E7);
  (0xB4DC000011B3, 0xB4E8); (0xB4DC000011B4, 0xB4E9); (0xB4DC000011B5, 0xB4EA);
  (0xB4DC000011B6, 0xB4EB); (0xB4DC000011B7, 0xB4EC); (0xB4DC000011B8, 0xB4ED);
  (0xB4DC000011B9, 0xB4EE); (0xB4DC000011BA, 0xB4EF); (0xB4DC000011BB, 0xB4F0);
  (0xB4DC000011BC, 0xB4F1); (0xB4DC000011BD, 0xB4F2); (0xB4DC000011BE, 0xB4F3);
  (0xB4DC000011BF, 0xB4F4); (0xB4DC000011C0, 0xB4F5); (0xB4DC000011C1, 0xB4F6);
  (0xB4DC000011C2, 0xB4F7); (0xB4F8000011A8, 0xB4F9); (0xB4F8000011A9, 0xB4FA);
  (0xB4F8000011AA, 0xB4FB); (0xB4F8000011AB, 0xB4FC); (0xB4F8000011AC, 0xB4FD);
  (0xB4F8000011AD, 0xB4FE); (0xB4F8000011AE, 0xB4FF); (0xB4F8000011AF, 0xB500);
  (0xB4F8000011B0, 0xB501); (0xB4F8000011B1, 0xB502); (0xB4F8000011B2, 0xB503);
  (0xB4F8000011B3, 0xB504); (0xB4F8000011B4, 0xB505); (0xB4F8000011B5, 0xB506);
  (0xB4F8000011B6, 0xB507); (0xB4F8000011B7, 0xB508); (0xB4F8000011B8, 0xB509);
  (0xB4F8000011B9, 0xB50A); (0xB4F8000011BA, 0xB50B); (0xB4F8000011BB, 0xB50C);
  (0xB4F8000011BC, 0xB50D); (0xB4F8000011BD, 0xB50E); (0xB4F8000011BE, 0xB50F);
  (0xB4F8000011BF, 0xB510); (0xB4F8000011C0, 0xB511); (0xB4F8000011C1, 0xB512);
  (0xB4F8000011C2, 0xB513); (0xB514000011A8, 0xB515); (0xB514000011A9, 0xB516);
  (0xB514000011AA, 0xB517); (0xB514000011AB, 0xB518); (0xB514000011AC, 0xB519);
  (0xB514000011AD, 0xB51A); (0xB514000011AE, 0xB51B); (0xB514000011AF, 0xB51C);
  (0xB514000011B0, 0xB51D); (0xB514000011B1, 0xB51E); (0xB514000011B2, 0xB51F);
  (0xB514000011B3, 0xB520); (0xB514000011B4, 0xB521); (0xB514000011B5, 0xB522);
  (0xB514000011B6, 0xB523); (0xB514000011B7, 0xB524); (0xB514000011B8, 0xB525);
  (0xB514000011B9, 0xB526); (0xB514000011BA, 0xB527); (0xB514000011BB, 0xB528);
  (0xB514000011BC, 0xB529); (0xB514000011BD, 0xB52A); (0xB514000011BE, 0xB52B);
  (0xB514000011BF, 0xB52C); (0xB514000011C0, 0xB52D); (0xB514000011C1, 0xB52E);
  (0xB514000011C2, 0xB52F); (0xB530000011A8, 0xB531); (0xB530000011A9, 0xB532);
  (0xB530000011AA, 0xB533); (0xB530000011AB, 0xB534); (0xB530000011AC, 0xB535) ].

Definition nfcCompose_24 : list (Z * Z) := [
  (0xB530000011AD, 0xB536); (0xB530000011AE, 0xB537); (0xB530000011AF, 0xB538);
  (0xB530000011B0, 0xB539); (0xB530000011B1, 0xB53A); (0xB530000011B2, 0xB53B);
  (0xB530000011B3, 0xB53C); (0xB530000011B4, 0xB53D); (0xB530000011B5, 0xB53E);
  (0xB530000011B6, 0xB53F); (0xB530000011B7, 0xB540); (0xB530000011B8, 0xB541);
  (0xB530000011B9, 0xB542); (0xB530000011BA, 0xB543); (0xB530000011BB, 0xB544);
  (0xB530000011BC, 0xB545); (0xB530000011BD, 0xB546); (0xB530000011BE, 0xB547);
  (0xB530000011BF, 0xB548); (0xB530000011C0, 0xB549); (0xB530000011C1, 0xB54A);
  (0xB530000011C2, 0xB54B); (0xB54C000011A8, 0xB54D); (0xB54C000011A9, 0xB54E);
  (0xB54C000011AA, 0xB54F); (0xB54C000011AB, 0xB550); (0xB54C000011AC, 0xB551);
  (0xB54C000011AD, 0xB552); (0xB54C000011AE, 0xB553); (0xB54C000011AF, 0xB554);
  (0xB54C000011B0, 0xB555); (0xB54C000011B1, 0xB556); (0xB54C000011B2, 0xB557);
  (0xB54C000011B3, 0xB558); (0xB54C000011B4, 0xB559); (0xB54C000011B5, 0xB55A);
  (0xB54C000011B6, 0xB55B); (0xB54C000011B7, 0xB55C); (0xB54C000011B8, 0xB55D);
  (0xB54C000011B9, 0xB55E); (0xB54C000011BA, 0xB55F); (0xB54C000011BB, 0xB560);
  (0xB54C000011BC, 0xB561); (0xB54C000011BD, 0xB562); (0xB54C000011BE, 0xB563);
  (0xB54C000011BF, 0xB564); (0xB54C000011C0, 0xB565); (0xB54C000011C1, 0xB566);
  (0xB54C000011C2, 0xB567); (0xB568000011A8, 0xB569); (0xB568000011A9, 0xB56A);
  (0xB568000011AA, 0xB56B); (0xB568000011AB, 0xB56C); (0xB568000011AC, 0xB56D);
  (0xB568000011AD, 0xB56E); (0xB568000011AE, 0xB56F); (0xB568000011AF, 0xB570);
  (0xB568000011B0, 0xB571); (0xB568000011B1, 0xB572); (0xB568000011B2, 0xB573);
  (0xB568000011B3, 0xB574); (0xB568000011B4, 0xB575); (0xB568000011B5, 0xB576);
  (0xB568000011B6, 0xB577); (0xB568000011B7, 0xB578); (0xB568000011B8, 0xB579);
  (0xB568000011B9, 0xB57A); (0xB568000011BA, 0xB57B); (0xB568000011BB, 0xB57C);
  (0xB568000011BC, 0xB57D); (0xB568000011BD, 0xB57E); (0xB568000011BE, 0xB57F);
  (0xB568000011BF, 0xB580); (0xB568000011C0, 0xB581); (0xB568000011C1, 0xB582);
  (0xB568000011C2, 0xB583); (0xB584000011A8, 0xB585); (0xB584000011A9, 0xB586);
  (0xB584000011AA, 0xB587); (0xB584000011AB, 0xB588); (0xB584000011AC, 0xB589);
  (0xB584000011AD, 0xB58A); (0xB584000011AE, 0xB58B); (0xB584000011AF, 0xB58C);
  (0xB584000011B0, 0xB58D); (0xB584000011B1, 0xB58E); (0xB584000011B2, 0xB58F);
  (0xB584000011B3, 0xB590); (0xB584000011B4, 0xB591); (0xB584000011B5, 0xB592);
  (0xB584000011B6, 0xB593); (0xB584000011B7, 0xB594); (0xB584000011B8, 0xB595);
  (0xB584000011B9, 0xB596); (0xB584000011BA, 0xB597); (0xB584000011BB, 0xB598);
  (0xB584000011BC, 0xB599); (0xB584000011BD, 0xB59A); (0xB584000011BE, 0xB59B);
  (0xB584000011BF, 0xB59C); (0xB584000011C0, 0xB59D); (0xB584000011C1, 0xB59E);
  (0xB584000011C2, 0xB59F); (0xB5A0000011A8, 0xB5A1); (0xB5A0000011A9, 0xB5A2);
  (0xB5A0000011AA, 0xB5A3); (0xB5A0000011AB, 0xB5A4); (0xB5A0000011AC, 0xB5A5);
  (0xB5A0000011AD, 0xB5A6); (0xB5A0000011AE, 0xB5A7); (0xB5A0000011AF, 0xB5A8);
  (0xB5A0000011B0, 0xB5A9); (0xB5A0000011B1, 0xB5AA); (0xB5A0000011B2, 0xB5AB);
  (0xB5A0000011B3, 0xB5AC); (0xB5A0000011B4, 0xB5AD); (0xB5A0000011B5, 0xB5AE);
  (0xB5A0000011B6, 0xB5AF); (0xB5A0000011B7, 0xB5B0); (0xB5A0000011B8, 0xB5B1);
  (0xB5A0000011B9, 0xB5B2); (0xB5A0000011BA, 0xB5B3); (0xB5A0000011BB, 0xB5B4);
  (0xB5A0000011BC, 0xB5B5); (0xB5A0000011BD, 0xB5B6); (0xB5A0000011BE, 0xB5B7);
  (0xB5A0000011BF, 0xB5B8); (0xB5A0000011C0, 0xB5B9); (0xB5A0000011C1, 0xB5BA);
  (0xB5A0000011C2, 0xB5BB); (0xB5BC000011A8, 0xB5BD); (0xB5BC000011A9, 0xB5BE);
  (0xB5BC000011AA, 0xB5BF); (0xB5BC000011AB, 0xB5C0); (0xB5BC000011AC, 0xB5C1);
  (0xB5BC000011AD, 0xB5C2); (0xB5BC000011AE, 0xB5C3); (0xB5BC000011AF, 0xB5C4);
  (0xB5BC000011B0, 0xB5C5); (0xB5BC000011B1, 0xB5C6); (0xB5BC000011B2, 0xB5C7);
  (0xB5BC000011B3, 0xB5C8); (0xB5BC000011B4, 0xB5C9); (0xB5BC000011B5, 0xB5CA);
  (0xB5BC000011B6, 0xB5CB); (0xB5BC000011B7, 0xB5CC); (0xB5BC000011B8, 0xB5CD);
  (0xB5BC000011B9, 0xB5CE); (0xB5BC000011BA, 0xB5CF); (0xB5BC000011BB, 0xB5D0) ].

Definition nfcCompose_25 : list (Z * Z) := [
  (0xB5BC000011BC, 0xB5D1); (0xB5BC000011BD, 0xB5D2); (0xB5BC000011BE, 0xB5D3);
  (0xB5BC000011BF, 0xB5D4); (0xB5BC000011C0, 0xB5D5); (0xB5BC000011C1, 0xB5D6);
  (0xB5BC000011C2, 0xB5D7); (0xB5D8000011A8, 0xB5D9); (0xB5D8000011A9, 0xB5DA);
  (0xB5D8000011AA, 0xB5DB); (0xB5D8000011AB, 0xB5DC); (0xB5D8000011AC, 0xB5DD);
  (0xB5D8000011AD, 0xB5DE); (0xB5D8000011AE, 0xB5DF); (0xB5D8000011AF, 0xB5E0);
  (0xB5D8000011B0, 0xB5E1); (0xB5D8000011B1, 0xB5E2); (0xB5D8000011B2, 0xB5E3);
  (0xB5D8000011B3, 0xB5E4); (0xB5D8000011B4, 0xB5E5); (0xB5D8000011B5, 0xB5E6);
  (0xB5D8000011B6, 0xB5E7); (0xB5D8000011B7, 0xB5E8); (0xB5D8000011B8, 0xB5E9);
  (0xB5D8000011B9, 0xB5EA); (0xB5D8000011BA, 0xB5EB); (0xB5D8000011BB, 0xB5EC);
  (0xB5D8000011BC, 0xB5ED); (0xB5D8000011BD, 0xB5EE); (0xB5D8000011BE, 0xB5EF);
  (0xB5D8000011BF, 0xB5F0); (0xB5D8000011C0, 0xB5F1); (0xB5D8000011C1, 0xB5F2);
  (0xB5D8000011C2, 0xB5F3); (0xB5F4000011A8, 0xB5F5); (0xB5F4000011A9, 0xB5F6);
  (0xB5F4000011AA, 0xB5F7); (0xB5F4000011AB, 0xB5F8); (0xB5F4000011AC, 0xB5F9);
  (0xB5F4000011AD, 0xB5FA); (0xB5F4000011AE, 0xB5FB); (0xB5F4000011AF, 0xB5FC);
  (0xB5F4000011B0, 0xB5FD); (0xB5F4000011B1, 0xB5FE); (0xB5F4000011B2, 0xB5FF);
  (0xB5F4000011B3, 0xB600); (0xB5F4000011B4, 0xB601); (0xB5F4000011B5, 0xB602);
  (0xB5F4000011B6, 0xB603); (0xB5F4000011B7, 0xB604); (0xB5F4000011B8, 0xB605);
  (0xB5F4000011B9, 0xB606); (0xB5F4000011BA, 0xB607); (0xB5F4000011BB, 0xB608);
  (0xB5F4000011BC, 0xB609); (0xB5F4000011BD, 0xB60A); (0xB5F4000011BE, 0xB60B);
  (0xB5F4000011BF, 0xB60C); (0xB5F4000011C0, 0xB60D); (0xB5F4000011C1, 0xB60E);
  (0xB5F4000011C2, 0xB60F); (0xB610000011A8, 0xB611); (0xB610000011A9, 0xB612);
  (0xB610000011AA, 0xB613); (0xB610000011AB, 0xB614); (0xB610000011AC, 0xB615);
  (0xB610000011AD, 0xB616); (0xB610000011AE, 0xB617); (0xB610000011AF, 0xB618);
  (0xB610000011B0, 0xB619); (0xB610000011B1, 0xB61A); (0xB610000011B2, 0xB61B);
  (0xB610000011B3, 0xB61C); (0xB610000011B4, 0xB61D); (0xB610000011B5, 0xB61E);
  (0xB610000011B6, 0xB61F); (0xB610000011B7, 0xB620); (0xB610000011B8, 0xB621);
  (0xB610000011B9, 0xB622); (0xB610000011BA, 0xB623); (0xB610000011BB, 0xB624);
  (0xB610000011BC, 0xB625); (0xB610000011BD, 0xB626); (0xB610000011BE, 0xB627);
  (0xB610000011BF, 0xB628); (0xB610000011C0, 0xB629); (0xB610000011C1, 0xB62A);
  (0xB610000011C2, 0xB62B); (0xB62C000011A8, 0xB62D); (0xB62C000011A9, 0xB62E);
  (0xB62C000011AA, 0xB62F); (0xB62C000011AB, 0xB630); (0xB62C000011AC, 0xB631);
  (0xB62C000011AD, 0xB632); (0xB62C000011AE, 0xB633); (0xB62C000011AF, 0xB634);
  (0xB62C000011B0, 0xB635); (0xB62C000011B1, 0xB636); (0xB62C000011B2, 0xB637);
  (0xB62C000011B3, 0xB638); (0xB62C000011B4, 0xB639); (0xB62C000011B5, 0xB63A);
  (0xB62C000011B6, 0xB63B); (0xB62C000011B7, 0xB63C); (0xB62C000011B8, 0xB63D);
  (0xB62C000011B9, 0xB63E); (0xB62C000011BA, 0xB63F); (0xB62C000011BB, 0xB640);
  (0xB62C000011BC, 0xB641); (0xB62C000011BD, 0xB642); (0xB62C000011BE, 0xB643);
  (0xB62C000011BF, 0xB644); (0xB62C000011C0, 0xB645); (0xB62C000011C1, 0xB646);
  (0xB62C000011C2, 0xB647); (0xB648000011A8, 0xB649); (0xB648000011A9, 0xB64A);
  (0xB648000011AA, 0xB64B); (0xB648000011AB, 0xB64C); (0xB648000011AC, 0xB64D);
  (0xB648000011AD, 0xB64E); (0xB648000011AE, 0xB64F); (0xB648000011AF, 0xB650);
  (0xB648000011B0, 0xB651); (0xB648000011B1, 0xB652); (0xB648000011B2, 0xB653);
  (0xB648000011B3, 0xB654); (0xB648000011B4, 0xB655); (0xB648000011B5, 0xB656);
  (0xB648000011B6, 0xB657); (0xB648000011B7, 0xB658); (0xB648000011B8, 0xB659);
  (0xB648000011B9, 0xB65A); (0xB648000011BA, 0xB65B); (0xB648000011BB, 0xB65C);
  (0xB648000011BC, 0xB65D); (0xB648000011BD, 0xB65E); (0xB648000011BE, 0xB65F);
  (0xB648000011BF, 0xB660); (0xB648000011C0, 0xB661); (0xB648000011C1, 0xB662);
  (0xB648000011C2, 0xB663); (0xB664000011A8, 0xB665); (0xB664000011A9, 0xB666);
  (0xB664000011AA, 0xB667); (0xB664000011AB, 0xB668); (0xB664000011AC, 0xB669);
  (0xB664000011AD, 0xB66A); (0xB664000011AE, 0xB66B); (0xB664000011AF, 0xB66C) ].

Definition nfcCompose_26 : list (Z * Z) := [
  (0xB664000011B0, 0xB66D); (0xB664000011B1, 0xB66E); (0xB664000011B2, 0xB66F);
  (0xB664000011B3, 0xB670); (0xB664000011B4, 0xB671); (0xB664000011B5, 0xB672);
  (0xB664000011B6, 0xB673); (0xB664000011B7, 0xB674); (0xB664000011B8, 0xB675);
  (0xB664000011B9, 0xB676); (0xB664000011BA, 0xB677); (0xB664000011BB, 0xB678);
  (0xB664000011BC, 0xB679); (0xB664000011BD, 0xB67A); (0xB664000011BE, 0xB67B);
  (0xB664000011BF, 0xB67C); (0xB664000011C0, 0xB67D); (0xB664000011C1, 0xB67E);
  (0xB664000011C2, 0xB67F); (0xB680000011A8, 0xB681); (0xB680000011A9, 0xB682);
  (0xB680000011AA, 0xB683); (0xB680000011AB, 0xB684); (0xB680000011AC, 0xB685);
  (0xB680000011AD, 0xB686); (0xB680000011AE, 0xB687); (0xB680000011AF, 0xB688);
  (0xB680000011B0, 0xB689); (0xB680000011B1, 0xB68A); (0xB680000011B2, 0xB68B);
  (0xB680000011B3, 0xB68C); (0xB680000011B4, 0xB68D); (0xB680000011B5, 0xB68E);
  (0xB680000011B6, 0xB68F); (0xB680000011B7, 0xB690); (0xB680000011B8, 0xB691);
  (0xB680000011B9, 0xB692); (0xB680000011BA, 0xB693); (0xB680000011BB, 0xB694);
  (0xB680000011BC, 0xB695); (0xB680000011BD, 0xB696); (0xB680000011BE, 0xB697);
  (0xB680000011BF, 0xB698); (0xB680000011C0, 0xB699); (0xB680000011C1, 0xB69A);
  (0xB680000011C2, 0xB69B); (0xB69C000011A8, 0xB69D); (0xB69C000011A9, 0xB69E);
  (0xB69C000011AA, 0xB69F); (0xB69C000011AB, 0xB6A0); (0xB69C000011AC, 0xB6A1);
  (0xB69C000011AD, 0xB6A2); (0xB69C000011AE, 0xB6A3); (0xB69C000011AF, 0xB6A4);
  (0xB69C000011B0, 0xB6A5); (0xB69C000011B1, 0xB6A6); (0xB69C000011B2, 0xB6A7);
  (0xB69C000011B3, 0xB6A8); (0xB69C000011B4, 0xB6A9); (0xB69C000011B5, 0xB6AA);
  (0xB69C000011B6, 0xB6AB); (0xB69C000011B7, 0xB6AC); (0xB69C000011B8, 0xB6AD);
  (0xB69C000011B9, 0xB6AE); (0xB69C000011BA, 0xB6AF); (0xB69C000011BB, 0xB6B0);
  (0xB69C000011BC, 0xB6B1); (0xB69C000011BD, 0xB6B2); (0xB69C000011BE, 0xB6B3);
  (0xB69C000011BF, 0xB6B4); (0xB69C000011C0, 0xB6B5); (0xB69C000011C1, 0xB6B6);
  (0xB69C000011C2, 0xB6B7); (0xB6B8000011A8, 0xB6B9); (0xB6B8000011A9, 0xB6BA);
  (0xB6B8000011AA, 0xB6BB); (0xB6B8000011AB, 0xB6BC); (0xB6B8000011AC, 0xB6BD);
  (0xB6B8000011AD, 0xB6BE); (0xB6B8000011AE, 0xB6BF); (0xB6B8000011AF, 0xB6C0);
  (0xB6B8000011B0, 0xB6C1); (0xB6B8000011B1, 0xB6C2); (0xB6B8000011B2, 0xB6C3);
  (0xB6B8000011B3, 0xB6C4); (0xB6B8000011B4, 0xB6C5); (0xB6B8000011B5, 0xB6C6);
  (0xB6B8000011B6, 0xB6C7); (0xB6B8000011B7, 0xB6C8); (0xB6B8000011B8, 0xB6C9);
  (0xB6B8000011B9, 0xB6CA); (0xB6B8000011BA, 0xB6CB); (0xB6B8000011BB, 0xB6CC);
  (0xB6B8000011BC, 0xB6CD); (0xB6B8000011BD, 0xB6CE); (0xB6B8000011BE, 0xB6CF);
  (0xB6B8000011BF, 0xB6D0); (0xB6B8000011C0, 0xB6D1); (0xB6B8000011C1, 0xB6D2);
  (0xB6B8000011C2, 0xB6D3); (0xB6D4000011A8, 0xB6D5); (0xB6D4000011A9, 0xB6D6);
  (0xB6D4000011AA, 0xB6D7); (0xB6D4000011AB, 0xB6D8); (0xB6D4000011AC, 0xB6D9);
  (0xB6D4000011AD, 0xB6DA); (0xB6D4000011AE, 0xB6DB); (0xB6D4000011AF, 0xB6DC);
  (0xB6D4000011B0, 0xB6DD); (0xB6D4000011B1, 0xB6DE); (0xB6D4000011B2, 0xB6DF);
  (0xB6D4000011B3, 0xB6E0); (0xB6D4000011B4, 0xB6E1); (0xB6D4000011B5, 0xB6E2);
  (0xB6D4000011B6, 0xB6E3); (0xB6D4000011B7, 0xB6E4); (0xB6D4000011B8, 0xB6E5);
  (0xB6D4000011B9, 0xB6E6); (0xB6D4000011BA, 0xB6E7); (0xB6D4000011BB, 0xB6E8);
  (0xB6D4000011BC, 0xB6E9); (0xB6D4000011BD, 0xB6EA); (0xB6D4000011BE, 0xB6EB);
  (0xB6D4000011BF, 0xB6EC); (0xB6D4000011C0, 0xB6ED); (0xB6D4000011C1, 0xB6EE);
  (0xB6D4000011C2, 0xB6EF); (0xB6F0000011A8, 0xB6F1); (0xB6F0000011A9, 0xB6F2);
  (0xB6F0000011AA, 0xB6F3); (0xB6F0000011AB, 0xB6F4); (0xB6F0000011AC, 0xB6F5);
  (0xB6F0000011AD, 0xB6F6); (0xB6F0000011AE, 0xB6F7); (0xB6F0000011AF, 0xB6F8);
  (0xB6F0000011B0, 0xB6F9); (0xB6F0000011B1, 0xB6FA); (0xB6F0000011B2, 0xB6FB);
  (0xB6F0000011B3, 0xB6FC); (0xB6F0000011B4, 0xB6FD); (0xB6F0000011B5, 0xB6FE);
  (0xB6F0000011B6, 0xB6FF); (0xB6F0000011B7, 0xB700); (0xB6F0000011B8, 0xB701);
  (0xB6F0000011B9, 0xB702); (0xB6F0000011BA, 0xB703); (0xB6F0000011BB, 0xB704);
  (0xB6F0000011BC, 0xB705); (0xB6F0000011BD, 0xB706); (0xB6F0000011BE, 0xB707) ].

Definition nfcCompose_27 : list (Z * Z) := [
  (0xB6F0000011BF, 0xB708); (0xB6F0000011C0, 0xB709); (0xB6F0000011C1, 0xB70A);
  (0xB6F0000011C2, 0xB70B); (0xB70C000011A8, 0xB70D); (0xB70C000011A9, 0xB70E);
  (0xB70C000011AA, 0xB70F); (0xB70C000011AB, 0xB710); (0xB70C000011AC, 0xB711);
  (0xB70C000011AD, 0xB712); (0xB70C000011AE, 0xB713); (0xB70C000011AF, 0xB714);
  (0xB70C000011B0, 0xB715); (0xB70C000011B1, 0xB716); (0xB70C000011B2, 0xB717);
  (0xB70C000011B3, 0xB718); (0xB70C000011B4, 0xB719); (0xB70C000011B5, 0xB71A);
  (0xB70C000011B6, 0xB71B); (0xB70C000011B7, 0xB71C); (0xB70C000011B8, 0xB71D);
  (0xB70C000011B9, 0xB71E); (0xB70C000011BA, 0xB71F); (0xB70C000011BB, 0xB720);
  (0xB70C000011BC, 0xB721); (0xB70C000011BD, 0xB722); (0xB70C000011BE, 0xB723);
  (0xB70C000011BF, 0xB724); (0xB70C000011C0, 0xB725); (0xB70C000011C1, 0xB726);
  (0xB70C000011C2, 0xB727); (0xB728000011A8, 0xB729); (0xB728000011A9, 0xB72A);
  (0xB728000011AA, 0xB72B); (0xB728000011AB, 0xB72C); (0xB728000011AC, 0xB72D);
  (0xB728000011AD, 0xB72E); (0xB728000011AE, 0xB72F); (0xB728000011AF, 0xB730);
  (0xB728000011B0, 0xB731); (0xB728000011B1, 0xB732); (0xB728000011B2, 0xB733);
  (0xB728000011B3, 0xB734); (0xB728000011B4, 0xB735); (0xB728000011B5, 0xB736);
  (0xB728000011B6, 0xB737); (0xB728000011B7, 0xB738); (0xB728000011B8, 0xB739);
  (0xB728000011B9, 0xB73A); (0xB728000011BA, 0xB73B); (0xB728000011BB, 0xB73C);
  (0xB728000011BC, 0xB73D); (0xB728000011BD, 0xB73E); (0xB728000011BE, 0xB73F);
  (0xB728000011BF, 0xB740); (0xB728000011C0, 0xB741); (0xB728000011C1, 0xB742);
  (0xB728000011C2, 0xB743); (0xB744000011A8, 0xB745); (0xB744000011A9, 0xB746);
  (0xB744000011AA, 0xB747); (0xB744000011AB, 0xB748); (0xB744000011AC, 0xB749);
  (0xB744000011AD, 0xB74A); (0xB744000011AE, 0xB74B); (0xB744000011AF, 0xB74C);
  (0xB744000011B0, 0xB74D); (0xB744000011B1, 0xB74E); (0xB744000011B2, 0xB74F);
  (0xB744000011B3, 0xB750); (0xB744000011B4, 0xB751); (0xB744000011B5, 0xB752);
  (0xB744000011B6, 0xB753); (0xB744000011B7, 0xB754); (0xB744000011B8, 0xB755);
  (0xB744000011B9, 0xB756); (0xB744000011BA, 0xB757); (0xB744000011BB, 0xB758);
  (0xB744000011BC, 0xB759); (0xB744000011BD, 0xB75A); (0xB744000011BE, 0xB75B);
  (0xB744000011BF, 0xB75C); (0xB744000011C0, 0xB75D); (0xB744000011C1, 0xB75E);
  (0xB744000011C2, 0xB75F); (0xB760000011A8, 0xB761); (0xB760000011A9, 0xB762);
  (0xB760000011AA, 0xB763); (0xB760000011AB, 0xB764); (0xB760000011AC, 0xB765);
  (0xB760000011AD, 0xB766); (0xB760000011AE, 0xB767); (0xB760000011AF, 0xB768);
  (0xB760000011B0, 0xB769); (0xB760000011B1, 0xB76A); (0xB760000011B2, 0xB76B);
  (0xB760000011B3, 0xB76C); (0xB760000011B4, 0xB76D); (0xB760000011B5, 0xB76E);
  (0xB760000011B6, 0xB76F); (0xB760000011B7, 0xB770); (0xB760000011B8, 0xB771);
  (0xB760000011B9, 0xB772); (0xB760000011BA, 0xB773); (0xB760000011BB, 0xB774);
  (0xB760000011BC, 0xB775); (0xB760000011BD, 0xB776); (0xB760000011BE, 0xB777);
  (0xB760000011BF, 0xB778); (0xB760000011C0, 0xB779); (0xB760000011C1, 0xB77A);
  (0xB760000011C2, 0xB77B); (0xB77C000011A8, 0xB77D); (0xB77C000011A9, 0xB77E);
  (0xB77C000011AA, 0xB77F); (0xB77C000011AB, 0xB780); (0xB77C000011AC, 0xB781);
  (0xB77C000011AD, 0xB782); (0xB77C000011AE, 0xB783); (0xB77C000011AF, 0xB784);
  (0xB77C000011B0, 0xB785); (0xB77C000011B1, 0xB786); (0xB77C000011B2, 0xB787);
  (0xB77C000011B3, 0xB788); (0xB77C000011B4, 0xB789); (0xB77C000011B5, 0xB78A);
  (0xB77C000011B6, 0xB78B); (0xB77C000011B7, 0xB78C); (0xB77C000011B8, 0xB78D);
  (0xB77C000011B9, 0xB78E); (0xB77C000011BA, 0xB78F); (0xB77C000011BB, 0xB790);
  (0xB77C000011BC, 0xB791); (0xB77C000011BD, 0xB792); (0xB77C000011BE, 0xB793);
  (0xB77C000011BF, 0xB794); (0xB77C000011C0, 0xB795); (0xB77C000011C1, 0xB796);
  (0xB77C000011C2, 0xB797); (0xB798000011A8, 0xB799); (0xB798000011A9, 0xB79A);
  (0xB798000011AA, 0xB79B); (0xB798000011AB, 0xB79C); (0xB798000011AC, 0xB79D);
  (0xB798000011AD, 0xB79E); (0xB798000011AE, 0xB79F); (0xB798000011AF, 0xB7A0);
  (0xB798000011B0, 0xB7A1); (0xB798000011B1, 0xB7A2); (0xB798000011B2, 0xB7A3) ].

Definition nfcCompose_28 : list (Z * Z) := [
  (0xB798000011B3, 0xB7A4); (0xB798000011B4, 0xB7A5); (0xB798000011B5, 0xB7A6);
  (0xB798000011B6, 0xB7A7); (0xB798000011B7, 0xB7A8); (0xB798000011B8, 0xB7A9);
  (0xB798000011B9, 0xB7AA); (0xB798000011BA, 0xB7AB); (0xB798000011BB, 0xB7AC);
  (0xB798000011BC, 0xB7AD); (0xB798000011BD, 0xB7AE); (0xB798000011BE, 0xB7AF);
  (0xB798000011BF, 0xB7B0); (0xB798000011C0, 0xB7B1); (0xB798000011C1, 0xB7B2);
  (0xB798000011C2, 0xB7B3); (0xB7B4000011A8, 0xB7B5); (0xB7B4000011A9, 0xB7B6);
  (0xB7B4000011AA, 0xB7B7); (0xB7B4000011AB, 0xB7B8); (0xB7B4000011AC, 0xB7B9);
  (0xB7B4000011AD, 0xB7BA); (0xB7B4000011AE, 0xB7BB); (0xB7B4000011AF, 0xB7BC);
  (0xB7B4000011B0, 0xB7BD); (0xB7B4000011B1, 0xB7BE); (0xB7B4000011B2, 0xB7BF);
  (0xB7B4000011B3, 0xB7C0); (0xB7B4000011B4, 0xB7C1); (0xB7B4000011B5, 0xB7C2);
  (0xB7B4000011B6, 0xB7C3); (0xB7B4000011B7, 0xB7C4); (0xB7B4000011B8, 0xB7C5);
  (0xB7B4000011B9, 0xB7C6); (0xB7B4000011BA, 0xB7C7); (0xB7B4000011BB, 0xB7C8);
  (0xB7B4000011BC, 0xB7C9); (0xB7B4000011BD, 0xB7CA); (0xB7B4000011BE, 0xB7CB);
  (0xB7B4000011BF, 0xB7CC); (0xB7B4000011C0, 0xB7CD); (0xB7B4000011C1, 0xB7CE);
  (0xB7B4000011C2, 0xB7CF); (0xB7D0000011A8, 0xB7D1); (0xB7D0000011A9, 0xB7D2);
  (0xB7D0000011AA, 0xB7D3); (0xB7D0000011AB, 0xB7D4); (0xB7D0000011AC, 0xB7D5);
  (0xB7D0000011AD, 0xB7D6); (0xB7D0000011AE, 0xB7D7); (0xB7D0000011AF, 0xB7D8);
  (0xB7D0000011B0, 0xB7D9); (0xB7D0000011B1, 0xB7DA); (0xB7D0000011B2, 0xB7DB);
  (0xB7D0000011B3, 0xB7DC); (0xB7D0000011B4, 0xB7DD); (0xB7D0000011B5, 0xB7DE);
  (0xB7D0000011B6, 0xB7DF); (0xB7D0000011B7, 0xB7E0); (0xB7D0000011B8, 0xB7E1);
  (0xB7D0000011B9, 0xB7E2); (0xB7D0000011BA, 0xB7E3); (0xB7D0000011BB, 0xB7E4);
  (0xB7D0000011BC, 0xB7E5); (0xB7D0000011BD, 0xB7E6); (0xB7D0000011BE, 0xB7E7);
  (0xB7D0000011BF, 0xB7E8); (0xB7D0000011C0, 0xB7E9); (0xB7D0000011C1, 0xB7EA);
  (0xB7D0000011C2, 0xB7EB); (0xB7EC000011A8, 0xB7ED); (0xB7EC000011A9, 0xB7EE);
  (0xB7EC000011AA, 0xB7EF); (0xB7EC000011AB, 0xB7F0); (0xB7EC000011AC, 0xB7F1);
  (0xB7EC000011AD, 0xB7F2); (0xB7EC000011AE, 0xB7F3); (0xB7EC000011AF, 0xB7F4);
  (0xB7EC000011B0, 0xB7F5); (0xB7EC000011B1, 0xB7F6); (0xB7EC000011B2, 0xB7F7);
  (0xB7EC000011B3, 0xB7F8); (0xB7EC000011B4, 0xB7F9); (0xB7EC000011B5, 0xB7FA);
  (0xB7EC000011B6, 0xB7FB); (0xB7EC000011B7, 0xB7FC); (0xB7EC000011B8, 0xB7FD);
  (0xB7EC000011B9, 0xB7FE); (0xB7EC000011BA, 0xB7FF); (0xB7EC000011BB, 0xB800);
  (0xB7EC000011BC, 0xB801); (0xB7EC000011BD, 0xB802); (0xB7EC000011BE, 0xB803);
  (0xB7EC000011BF, 0xB804); (0xB7EC000011C0, 0xB805); (0xB7EC000011C1, 0xB806);
  (0xB7EC000011C2, 0xB807); (0xB808000011A8, 0xB809); (0xB808000011A9, 0xB80A);
  (0xB808000011AA, 0xB80B); (0xB808000011AB, 0xB80C); (0xB808000011AC, 0xB80D);
  (0xB808000011AD, 0xB80E); (0xB808000011AE, 0xB80F); (0xB808000011AF, 0xB810);
  (0xB808000011B0, 0xB811); (0xB808000011B1, 0xB812); (0xB808000011B2, 0xB813);
  (0xB808000011B3, 0xB814); (0xB808000011B4, 0xB815); (0xB808000011B5, 0xB816);
  (0xB808000011B6, 0xB817); (0xB808000011B7, 0xB818); (0xB808000011B8, 0xB819);
  (0xB808000011B9, 0xB81A); (0xB808000011BA, 0xB81B); (0xB808000011BB, 0xB81C);
  (0xB808000011BC, 0xB81D); (0xB808000011BD, 0xB81E); (0xB808000011BE, 0xB81F);
  (0xB808000011BF, 0xB820); (0xB808000011C0, 0xB821); (0xB808000011C1, 0xB822);
  (0xB808000011C2, 0xB823); (0xB824000011A8, 0xB825); (0xB824000011A9, 0xB826);
  (0xB824000011AA, 0xB827); (0xB824000011AB, 0xB828); (0xB824000011AC, 0xB829);
  (0xB824000011AD, 0xB82A); (0xB824000011AE, 0xB82B); (0xB824000011AF, 0xB82C);
  (0xB824000011B0, 0xB82D); (0xB824000011B1, 0xB82E); (0xB824000011B2, 0xB82F);
  (0xB824000011B3, 0xB830); (0xB824000011B4, 0xB831); (0xB824000011B5, 0xB832);
  (0xB824000011B6, 0xB833); (0xB824000011B7, 0xB834); (0xB824000011B8, 0xB835);
  (0xB824000011B9, 0xB836); (0xB824000011BA, 0xB837); (0xB824000011BB, 0xB838);
  (0xB824000011BC, 0xB839); (0xB824000011BD, 0xB83A); (0xB824000011BE, 0xB83B);
  (0xB824000011BF, 0xB83C); (0xB824000011C0, 0xB83D); (0xB824000011C1, 0xB83E) ].

Definition nfcCompose_29 : list (Z * Z) := [
  (0xB824000011C2, 0xB83F); (0xB840000011A8, 0xB841); (0xB840000011A9, 0xB842);
  (0xB840000011AA, 0xB843); (0xB840000011AB, 0xB844); (0xB840000011AC, 0xB845);
  (0xB840000011AD, 0xB846); (0xB840000011AE, 0xB847); (0xB840000011AF, 0xB848);
  (0xB840000011B0, 0xB849); (0xB840000011B1, 0xB84A); (0xB840000011B2, 0xB84B);
  (0xB840000011B3, 0xB84C); (0xB840000011B4, 0xB84D); (0xB840000011B5, 0xB84E);
  (0xB840000011B6, 0xB84F); (0xB840000011B7, 0xB850); (0xB840000011B8, 0xB851);
  (0xB840000011B9, 0xB852); (0xB840000011BA, 0xB853); (0xB840000011BB, 0xB854);
  (0xB840000011BC, 0xB855); (0xB840000011BD, 0xB856); (0xB840000011BE, 0xB857);
  (0xB840000011BF, 0xB858); (0xB840000011C0, 0xB859); (0xB840000011C1, 0xB85A);
  (0xB840000011C2, 0xB85B); (0xB85C000011A8, 0xB85D); (0xB85C000011A9, 0xB85E);
  (0xB85C000011AA, 0xB85F); (0xB85C000011AB, 0xB860); (0xB85C000011AC, 0xB861);
  (0xB85C000011AD, 0xB862); (0xB85C000011AE, 0xB863); (0xB85C000011AF, 0xB864);
  (0xB85C000011B0, 0xB865); (0xB85C000011B1, 0xB866); (0xB85C000011B2, 0xB867);
  (0xB85C000011B3, 0xB868); (0xB85C000011B4, 0xB869); (0xB85C000011B5, 0xB86A);
  (0xB85C000011B6, 0xB86B); (0xB85C000011B7, 0xB86C); (0xB85C000011B8, 0xB86D);
  (0xB85C000011B9, 0xB86E); (0xB85C000011BA, 0xB86F); (0xB85C000011BB, 0xB870);
  (0xB85C000011BC, 0xB871); (0xB85C000011BD, 0xB872); (0xB85C000011BE, 0xB873);
  (0xB85C000011BF, 0xB874); (0xB85C000011C0, 0xB875); (0xB85C000011C1, 0xB876);
  (0xB85C000011C2, 0xB877); (0xB878000011A8, 0xB879); (0xB878000011A9, 0xB87A);
  (0xB878000011AA, 0xB87B); (0xB878000011AB, 0xB87C); (0xB878000011AC, 0xB87D);
  (0xB878000011AD, 0xB87E); (0xB878000011AE, 0xB87F); (0xB878000011AF, 0xB880);
  (0xB878000011B0, 0xB881); (0xB878000011B1, 0xB882); (0xB878000011B2, 0xB883);
  (0xB878000011B3, 0xB884); (0xB878000011B4, 0xB885); (0xB878000011B5, 0xB886);
  (0xB878000011B6, 0xB887); (0xB878000011B7, 0xB888); (0xB878000011B8, 0xB889);
  (0xB878000011B9, 0xB88A); (0xB878000011BA, 0xB88B); (0xB878000011BB, 0xB88C);
  (0xB878000011BC, 0xB88D); (0xB878000011BD, 0xB88E); (0xB878000011BE, 0xB88F);
  (0xB878000011BF, 0xB890); (0xB878000011C0, 0xB891); (0xB878000011C1, 0xB892);
  (0xB878000011C2, 0xB893); (0xB894000011A8, 0xB895); (0xB894000011A9, 0xB896);
  (0xB894000011AA, 0xB897); (0xB894000011AB, 0xB898); (0xB894000011AC, 0xB899);
  (0xB894000011AD, 0xB89A); (0xB894000011AE, 0xB89B); (0xB894000011AF, 0xB89C);
  (0xB894000011B0, 0xB89D); (0xB894000011B1, 0xB89E); (0xB894000011B2, 0xB89F);
  (0xB894000011B3, 0xB8A0); (0xB894000011B4, 0xB8A1); (0xB894000011B5, 0xB8A2);
  (0xB894000011B6, 0xB8A3); (0xB894000011B7, 0xB8A4); (0xB894000011B8, 0xB8A5);
  (0xB894000011B9, 0xB8A6); (0xB894000011BA, 0xB8A7); (0xB894000011BB, 0xB8A8);
  (0xB894000011BC, 0xB8A9); (0xB894000011BD, 0xB8AA); (0xB894000011BE, 0xB8AB);
  (0xB894000011BF, 0xB8AC); (0xB894000011C0, 0xB8AD); (0xB894000011C1, 0xB8AE);
  (0xB894000011C2, 0xB8AF); (0xB8B0000011A8, 0xB8B1); (0xB8B0000011A9, 0xB8B2);
  (0xB8B0000011AA, 0xB8B3); (0xB8B0000011AB, 0xB8B4); (0xB8B0000011AC, 0xB8B5);
  (0xB8B0000011AD, 0xB8B6); (0xB8B0000011AE, 0xB8B7); (0xB8B0000011AF, 0xB8B8);
  (0xB8B0000011B0, 0xB8B9); (0xB8B0000011B1, 0xB8BA); (0xB8B0000011B2, 0xB8BB);
  (0xB8B0000011B3, 0xB8BC); (0xB8B0000011B4, 0xB8BD); (0xB8B0000011B5, 0xB8BE);
  (0xB8B0000011B6, 0xB8BF); (0xB8B0000011B7, 0xB8C0); (0xB8B0000011B8, 0xB8C1);
  (0xB8B0000011B9, 0xB8C2); (0xB8B0000011BA, 0xB8C3); (0xB8B0000011BB, 0xB8C4);
  (0xB8B0000011BC, 0xB8C5); (0xB8B0000011BD, 0xB8C6); (0xB8B0000011BE, 0xB8C7);
  (0xB8B0000011BF, 0xB8C8); (0xB8B0000011C0, 0xB8C9); (0xB8B0000011C1, 0xB8CA);
  (0xB8B0000011C2, 0xB8CB); (0xB8CC000011A8, 0xB8CD); (0xB8CC000011A9, 0xB8CE);
  (0xB8CC000011AA, 0xB8CF); (0xB8CC000011AB, 0xB8D0); (0xB8CC000011AC, 0xB8D1);
  (0xB8CC000011AD, 0xB8D2); (0xB8CC000011AE, 0xB8D3); (0xB8CC000011AF, 0xB8D4);
  (0xB8CC000011B0, 0xB8D5); (0xB8CC000011B1, 0xB8D6); (0xB8CC000011B2, 0xB8D7);
  (0xB8CC000011B3, 0xB8D8); (0xB8CC000011B4, 0xB8D9); (0xB8CC000011B5, 0xB8DA) ].

Definition nfcCompose_30 : list (Z * Z) := [
  (0xB8CC000011B6, 0xB8DB); (0xB8CC000011B7, 0xB8DC); (0xB8CC000011B8, 0xB8DD);
  (0xB8CC000011B9, 0xB8DE); (0xB8CC000011BA, 0xB8DF); (0xB8CC000011BB, 0xB8E0);
  (0xB8CC000011BC, 0xB8E1); (0xB8CC000011BD, 0xB8E2); (0xB8CC000011BE, 0xB8E3);
  (0xB8CC000011BF, 0xB8E4); (0xB8CC000011C0, 0xB8E5); (0xB8CC000011C1, 0xB8E6);
  (0xB8CC000011C2, 0xB8E7); (0xB8E8000011A8, 0xB8E9); (0xB8E8000011A9, 0xB8EA);
  (0xB8E8000011AA, 0xB8EB); (0xB8E8000011AB, 0xB8EC); (0xB8E8000011AC, 0xB8ED);
  (0xB8E8000011AD, 0xB8EE); (0xB8E8000011AE, 0xB8EF); (0xB8E8000011AF, 0xB8F0);
  (0xB8E8000011B0, 0xB8F1); (0xB8E8000011B1, 0xB8F2); (0xB8E8000011B2, 0xB8F3);
  (0xB8E8000011B3, 0xB8F4); (0xB8E8000011B4, 0xB8F5); (0xB8E8000011B5, 0xB8F6);
  (0xB8E8000011B6, 0xB8F7); (0xB8E8000011B7, 0xB8F8); (0xB8E8000011B8, 0xB8F9);
  (0xB8E8000011B9, 0xB8FA); (0xB8E8000011BA, 0xB8FB); (0xB8E8000011BB, 0xB8FC);
  (0xB8E8000011BC, 0xB8FD); (0xB8E8000011BD, 0xB8FE); (0xB8E8000011BE, 0xB8FF);
  (0xB8E8000011BF, 0xB900); (0xB8E8000011C0, 0xB901); (0xB8E8000011C1, 0xB902);
  (0xB8E8000011C2, 0xB903); (0xB904000011A8, 0xB905); (0xB904000011A9, 0xB906);
  (0xB904000011AA, 0xB907); (0xB904000011AB, 0xB908); (0xB904000011AC, 0xB909);
  (0xB904000011AD, 0xB90A); (0xB904000011AE, 0xB90B); (0xB904000011AF, 0xB90C);
  (0xB904000011B0, 0xB90D); (0xB904000011B1, 0xB90E); (0xB904000011B2, 0xB90F);
  (0xB904000011B3, 0xB910); (0xB904000011B4, 0xB911); (0xB904000011B5, 0xB912);
  (0xB904000011B6, 0xB913); (0xB904000011B7, 0xB914); (0xB904000011B8, 0xB915);
  (0xB904000011B9, 0xB916); (0xB904000011BA, 0xB917); (0xB904000011BB, 0xB918);
  (0xB904000011BC, 0xB919); (0xB904000011BD, 0xB91A); (0xB904000011BE, 0xB91B);
  (0xB904000011BF, 0xB91C); (0xB904000011C0, 0xB91D); (0xB904000011C1, 0xB91E);
  (0xB904000011C2, 0xB91F); (0xB920000011A8, 0xB921); (0xB920000011A9, 0xB922);
  (0xB920000011AA, 0xB923); (0xB920000011AB, 0xB924); (0xB920000011AC, 0xB925);
  (0xB920000011AD, 0xB926); (0xB920000011AE, 0xB927); (0xB920000011AF, 0xB928);
  (0xB920000011B0, 0xB929); (0xB920000011B1, 0xB92A); (0xB920000011B2, 0xB92B);
  (0xB920000011B3, 0xB92C); (0xB920000011B4, 0xB92D); (0xB920000011B5, 0xB92E);
  (0xB920000011B6, 0xB92F); (0xB920000011B7, 0xB930); (0xB920000011B8, 0xB931);
  (0xB920000011B9, 0xB932); (0xB920000011BA, 0xB933); (0xB920000011BB, 0xB934);
  (0xB920000011BC, 0xB935); (0xB920000011BD, 0xB936); (0xB920000011BE, 0xB937);
  (0xB920000011BF, 0xB938); (0xB920000011C0, 0xB939); (0xB920000011C1, 0xB93A);
  (0xB920000011C2, 0xB93B); (0xB93C000011A8, 0xB93D); (0xB93C000011A9, 0xB93E);
  (0xB93C000011AA, 0xB93F); (0xB93C000011AB, 0xB940); (0xB93C000011AC, 0xB941);
  (0xB93C000011AD, 0xB942); (0xB93C000011AE, 0xB943); (0xB93C000011AF, 0xB944);
  (0xB93C000011B0, 0xB945); (0xB93C000011B1, 0xB946); (0xB93C000011B2, 0xB947);
  (0xB93C000011B3, 0xB948); (0xB93C000011B4, 0xB949); (0xB93C000011B5, 0xB94A);
  (0xB93C000011B6, 0xB94B); (0xB93C000011B7, 0xB94C); (0xB93C000011B8, 0xB94D);
  (0xB93C000011B9, 0xB94E); (0xB93C000011BA, 0xB94F); (0xB93C000011BB, 0xB950);
  (0xB93C000011BC, 0xB951); (0xB93C000011BD, 0xB952); (0xB93C000011BE, 0xB953);
  (0xB93C000011BF, 0xB954); (0xB93C000011C0, 0xB955); (0xB93C000011C1, 0xB956);
  (0xB93C000011C2, 0xB957); (0xB958000011A8, 0xB959); (0xB958000011A9, 0xB95A);
  (0xB958000011AA, 0xB95B); (0xB958000011AB, 0xB95C); (0xB958000011AC, 0xB95D);
  (0xB958000011AD, 0xB95E); (0xB958000011AE, 0xB95F); (0xB958000011AF, 0xB960);
  (0xB958000011B0, 0xB961); (0xB958000011B1, 0xB962); (0xB958000011B2, 0xB963);
  (0xB958000011B3, 0xB964); (0xB958000011B4, 0xB965); (0xB958000011B5, 0xB966);
  (0xB958000011B6, 0xB967); (0xB958000011B7, 0xB968); (0xB958000011B8, 0xB969);
  (0xB958000011B9, 0xB96A); (0xB958000011BA, 0xB96B); (0xB958000011BB, 0xB96C);
  (0xB958000011BC, 0xB96D); (0xB958000011BD, 0xB96E); (0xB958000011BE, 0xB96F);
  (0xB958000011BF, 0xB970); (0xB958000011C0, 0xB971); (0xB958000011C1, 0xB972);
  (0xB958000011C2, 0xB973); (0xB974000011A8, 0xB975); (0xB974000011A9, 0xB976) ].

Definition nfcCompose_31 : list (Z * Z) := [
  (0xB974000011AA, 0xB977); (0xB974000011AB, 0xB978); (0xB974000011AC, 0xB979);
  (0xB974000011AD, 0xB97A); (0xB974000011AE, 0xB97B); (0xB974000011AF, 0xB97C);
  (0xB974000011B0, 0xB97D); (0xB974000011B1, 0xB97E); (0xB974000011B2, 0xB97F);
  (0xB974000011B3, 0xB980); (0xB974000011B4, 0xB981); (0xB974000011B5, 0xB982);
  (0xB974000011B6, 0xB983); (0xB974000011B7, 0xB984); (0xB974000011B8, 0xB985);
  (0xB974000011B9, 0xB986); (0xB974000011BA, 0xB987); (0xB974000011BB, 0xB988);
  (0xB974000011BC, 0xB989); (0xB974000011BD, 0xB98A); (0xB974000011BE, 0xB98B);
  (0xB974000011BF, 0xB98C); (0xB974000011C0, 0xB98D); (0xB974000011C1, 0xB98E);
  (0xB974000011C2, 0xB98F); (0xB990000011A8, 0xB991); (0xB990000011A9, 0xB992);
  (0xB990000011AA, 0xB993); (0xB990000011AB, 0xB994); (0xB990000011AC, 0xB995);
  (0xB990000011AD, 0xB996); (0xB990000011AE, 0xB997); (0xB990000011AF, 0xB998);
  (0xB990000011B0, 0xB999); (0xB990000011B1, 0xB99A); (0xB990000011B2, 0xB99B);
  (0xB990000011B3, 0xB99C); (0xB990000011B4, 0xB99D); (0xB990000011B5, 0xB99E);
  (0xB990000011B6, 0xB99F); (0xB990000011B7, 0xB9A0); (0xB990000011B8, 0xB9A1);
  (0xB990000011B9, 0xB9A2); (0xB990000011BA, 0xB9A3); (0xB990000011BB, 0xB9A4);
  (0xB990000011BC, 0xB9A5); (0xB990000011BD, 0xB9A6); (0xB990000011BE, 0xB9A7);
  (0xB990000011BF, 0xB9A8); (0xB990000011C0, 0xB9A9); (0xB990000011C1, 0xB9AA);
  (0xB990000011C2, 0xB9AB); (0xB9AC000011A8, 0xB9AD); (0xB9AC000011A9, 0xB9AE);
  (0xB9AC000011AA, 0xB9AF); (0xB9AC000011AB, 0xB9B0); (0xB9AC000011AC, 0xB9B1);
  (0xB9AC000011AD, 0xB9B2); (0xB9AC000011AE, 0xB9B3); (0xB9AC000011AF, 0xB9B4);
  (0xB9AC000011B0, 0xB9B5); (0xB9AC000011B1, 0xB9B6); (0xB9AC000011B2, 0xB9B7);
  (0xB9AC000011B3, 0xB9B8); (0xB9AC000011B4, 0xB9B9); (0xB9AC000011B5, 0xB9BA);
  (0xB9AC000011B6, 0xB9BB); (0xB9AC000011B7, 0xB9BC); (0xB9AC000011B8, 0xB9BD);
  (0xB9AC000011B9, 0xB9BE); (0xB9AC000011BA, 0xB9BF); (0xB9AC000011BB, 0xB9C0);
  (0xB9AC000011BC, 0xB9C1); (0xB9AC000011BD, 0xB9C2); (0xB9AC000011BE, 0xB9C3);
  (0xB9AC000011BF, 0xB9C4); (0xB9AC000011C0, 0xB9C5); (0xB9AC000011C1, 0xB9C6);
  (0xB9AC000011C2, 0xB9C7); (0xB9C8000011A8, 0xB9C9); (0xB9C8000011A9, 0xB9CA);
  (0xB9C8000011AA, 0xB9CB); (0xB9C8000011AB, 0xB9CC); (0xB9C8000011AC, 0xB9CD);
  (0xB9C8000011AD, 0xB9CE); (0xB9C8000011AE, 0xB9CF); (0xB9C8000011AF, 0xB9D0);
  (0xB9C8000011B0, 0xB9D1); (0xB9C8000011B1, 0xB9D2); (0xB9C8000011B2, 0xB9D3);
  (0xB9C8000011B3, 0xB9D4); (0xB9C8000011B4, 0xB9D5); (0xB9C8000011B5, 0xB9D6);
  (0xB9C8000011B6, 0xB9D7); (0xB9C8000011B7, 0xB9D8); (0xB9C8000011B8, 0xB9D9);
  (0xB9C8000011B9, 0xB9DA); (0xB9C8000011BA, 0xB9DB); (0xB9C8000011BB, 0xB9DC);
  (0xB9C8000011BC, 0xB9DD); (0xB9C8000011BD, 0xB9DE); (0xB9C8000011BE, 0xB9DF);
  (0xB9C8000011BF, 0xB9E0); (0xB9C8000011C0, 0xB9E1); (0xB9C8000011C1, 0xB9E2);
  (0xB9C8000011C2, 0xB9E3); (0xB9E4000011A8, 0xB9E5); (0xB9E4000011A9, 0xB9E6);
  (0xB9E4000011AA, 0xB9E7); (0xB9E4000011AB, 0xB9E8); (0xB9E4000011AC, 0xB9E9);
  (0xB9E4000011AD, 0xB9EA); (0xB9E4000011AE, 0xB9EB); (0xB9E4000011AF, 0xB9EC);
  (0xB9E4000011B0, 0xB9ED); (0xB9E4000011B1, 0xB9EE); (0xB9E4000011B2, 0xB9EF);
  (0xB9E4000011B3, 0xB9F0); (0xB9E4000011B4, 0xB9F1); (0xB9E4000011B5, 0xB9F2);
  (0xB9E4000011B6, 0xB9F3); (0xB9E4000011B7, 0xB9F4); (0xB9E4000011B8, 0xB9F5);
  (0xB9E4000011B9, 0xB9F6); (0xB9E4000011BA, 0xB9F7); (0xB9E4000011BB, 0xB9F8);
  (0xB9E4000011BC, 0xB9F9); (0xB9E4000011BD, 0xB9FA); (0xB9E4000011BE, 0xB9FB);
  (0xB9E4000011BF, 0xB9FC); (0xB9E4000011C0, 0xB9FD); (0xB9E4000011C1, 0xB9FE);
  (0xB9E4000011C2, 0xB9FF); (0xBA00000011A8, 0xBA01); (0xBA00000011A9, 0xBA02);
  (0xBA00000011AA, 0xBA03); (0xBA00000011AB, 0xBA04); (0xBA00000011AC, 0xBA05);
  (0xBA00000011AD, 0xBA06); (0xBA00000011AE, 0xBA07); (0xBA00000011AF, 0xBA08);
  (0xBA00000011B0, 0xBA09); (0xBA00000011B1, 0xBA0A); (0xBA00000011B2, 0xBA0B);
  (0xBA00000011B3, 0xBA0C); (0xBA00000011B4, 0xBA0D); (0xBA00000011B5, 0xBA0E);
  (0xBA00000011B6, 0xBA0F); (0xBA00000011B7, 0xBA10); (0xBA00000011B8, 0xBA11) ].

Definition nfcCompose_32 : list (Z * Z) := [
  (0xBA00000011B9, 0xBA12); (0xBA00000011BA, 0xBA13); (0xBA00000011BB, 0xBA14);
  (0xBA00000011BC, 0xBA15); (0xBA00000011BD, 0xBA16); (0xBA00000011BE, 0xBA17);
  (0xBA00000011BF, 0xBA18); (0xBA00000011C0, 0xBA19); (0xBA00000011C1, 0xBA1A);
  (0xBA00000011C2, 0xBA1B); (0xBA1C000011A8, 0xBA1D); (0xBA1C000011A9, 0xBA1E);
  (0xBA1C000011AA, 0xBA1F); (0xBA1C000011AB, 0xBA20); (0xBA1C000011AC, 0xBA21);
  (0xBA1C000011AD, 0xBA22); (0xBA1C000011AE, 0xBA23); (0xBA1C000011AF, 0xBA24);
  (0xBA1C000011B0, 0xBA25); (0xBA1C000011B1, 0xBA26); (0xBA1C000011B2, 0xBA27);
  (0xBA1C000011B3, 0xBA28); (0xBA1C000011B4, 0xBA29); (0xBA1C000011B5, 0xBA2A);
  (0xBA1C000011B6, 0xBA2B); (0xBA1C000011B7, 0xBA2C); (0xBA1C000011B8, 0xBA2D);
  (0xBA1C000011B9, 0xBA2E); (0xBA1C000011BA, 0xBA2F); (0xBA1C000011BB, 0xBA30);
  (0xBA1C000011BC, 0xBA31); (0xBA1C000011BD, 0xBA32); (0xBA1C000011BE, 0xBA33);
  (0xBA1C000011BF, 0xBA34); (0xBA1C000011C0, 0xBA35); (0xBA1C000011C1, 0xBA36);
  (0xBA1C000011C2, 0xBA37); (0xBA38000011A8, 0xBA39); (0xBA38000011A9, 0xBA3A);
  (0xBA38000011AA, 0xBA3B); (0xBA38000011AB, 0xBA3C); (0xBA38000011AC, 0xBA3D);
  (0xBA38000011AD, 0xBA3E); (0xBA38000011AE, 0xBA3F); (0xBA38000011AF, 0xBA40);
  (0xBA38000011B0, 0xBA41); (0xBA38000011B1, 0xBA42); (0xBA38000011B2, 0xBA43);
  (0xBA38000011B3, 0xBA44); (0xBA38000011B4, 0xBA45); (0xBA38000011B5, 0xBA46);
  (0xBA38000011B6, 0xBA47); (0xBA38000011B7, 0xBA48); (0xBA38000011B8, 0xBA49);
  (0xBA38000011B9, 0xBA4A); (0xBA38000011BA, 0xBA4B); (0xBA38000011BB, 0xBA4C);
  (0xBA38000011BC, 0xBA4D); (0xBA38000011BD, 0xBA4E); (0xBA38000011BE, 0xBA4F);
  (0xBA38000011BF, 0xBA50); (0xBA38000011C0, 0xBA51); (0xBA38000011C1, 0xBA52);
  (0xBA38000011C2, 0xBA53); (0xBA54000011A8, 0xBA55); (0xBA54000011A9, 0xBA56);
  (0xBA54000011AA, 0xBA57); (0xBA54000011AB, 0xBA58); (0xBA54000011AC, 0xBA59);
  (0xBA54000011AD, 0xBA5A); (0xBA54000011AE, 0xBA5B); (0xBA54000011AF, 0xBA5C);
  (0xBA54000011B0, 0xBA5D); (0xBA54000011B1, 0xBA5E); (0xBA54000011B2, 0xBA5F);
  (0xBA54000011B3, 0xBA60); (0xBA54000011B4, 0xBA61); (0xBA54000011B5, 0xBA62);
  (0xBA54000011B6, 0xBA63); (0xBA54000011B7, 0xBA64); (0xBA54000011B8, 0xBA65);
  (0xBA54000011B9, 0xBA66); (0xBA54000011BA, 0xBA67); (0xBA54000011BB, 0xBA68);
  (0xBA54000011BC, 0xBA69); (0xBA54000011BD, 0xBA6A); (0xBA54000011BE, 0xBA6B);
  (0xBA54000011BF, 0xBA6C); (0xBA54000011C0, 0xBA6D); (0xBA54000011C1, 0xBA6E);
  (0xBA54000011C2, 0xBA6F); (0xBA70000011A8, 0xBA71); (0xBA70000011A9, 0xBA72);
  (0xBA70000011AA, 0xBA73); (0xBA70000011AB, 0xBA74); (0xBA70000011AC, 0xBA75);
  (0xBA70000011AD, 0xBA76); (0xBA70000011AE, 0xBA77); (0xBA70000011AF, 0xBA78);
  (0xBA70000011B0, 0xBA79); (0xBA70000011B1, 0xBA7A); (0xBA70000011B2, 0xBA7B);
  (0xBA70000011B3, 0xBA7C); (0xBA70000011B4, 0xBA7D); (0xBA70000011B5, 0xBA7E);
  (0xBA70000011B6, 0xBA7F); (0xBA70000011B7, 0xBA80); (0xBA70000011B8, 0xBA81);
  (0xBA70000011B9, 0xBA82); (0xBA70000011BA, 0xBA83); (0xBA70000011BB, 0xBA84);
  (0xBA70000011BC, 0xBA85); (0xBA70000011BD, 0xBA86); (0xBA70000011BE, 0xBA87);
  (0xBA70000011BF, 0xBA88); (0xBA70000011C0, 0xBA89); (0xBA70000011C1, 0xBA8A);
  (0xBA70000011C2, 0xBA8B); (0xBA8C000011A8, 0xBA8D); (0xBA8C000011A9, 0xBA8E);
  (0xBA8C000011AA, 0xBA8F); (0xBA8C000011AB, 0xBA90); (0xBA8C000011AC, 0xBA91);
  (0xBA8C000011AD, 0xBA92); (0xBA8C000011AE, 0xBA93); (0xBA8C000011AF, 0xBA94);
  (0xBA8C000011B0, 0xBA95); (0xBA8C000011B1, 0xBA96); (0xBA8C000011B2, 0xBA97);
  (0xBA8C000011B3, 0xBA98); (0xBA8C000011B4, 0xBA99); (0xBA8C000011B5, 0xBA9A);
  (0xBA8C000011B6, 0xBA9B); (0xBA8C000011B7, 0xBA9C); (0xBA8C000011B8, 0xBA9D);
  (0xBA8C000011B9, 0xBA9E); (0xBA8C000011BA, 0xBA9F); (0xBA8C000011BB, 0xBAA0);
  (0xBA8C000011BC, 0xBAA1); (0xBA8C000011BD, 0xBAA2); (0xBA8C000011BE, 0xBAA3);
  (0xBA8C000011BF, 0xBAA4); (0xBA8C000011C0, 0xBAA5); (0xBA8C000011C1, 0xBAA6);
  (0xBA8C000011C2, 0xBAA7); (0xBAA8000011A8, 0xBAA9); (0xBAA8000011A9, 0xBAAA);
  (0xBAA8000011AA, 0xBAAB); (0xBAA8000011AB, 0xBAAC); (0xBAA8000011AC, 0xBAAD) ].

Definition nfcCompose_33 : list (Z * Z) := [
  (0xBAA8000011AD, 0xBAAE); (0xBAA8000011AE, 0xBAAF); (0xBAA8000011AF, 0xBAB0);
  (0xBAA8000011B0, 0xBAB1); (0xBAA8000011B1, 0xBAB2); (0xBAA8000011B2, 0xBAB3);
  (0xBAA8000011B3, 0xBAB4); (0xBAA8000011B4, 0xBAB5); (0xBAA8000011B5, 0xBAB6);
  (0xBAA8000011B6, 0xBAB7); (0xBAA8000011B7, 0xBAB8); (0xBAA8000011B8, 0xBAB9);
  (0xBAA8000011B9, 0xBABA); (0xBAA8000011BA, 0xBABB); (0xBAA8000011BB, 0xBABC);
  (0xBAA8000011BC, 0xBABD); (0xBAA8000011BD, 0xBABE); (0xBAA8000011BE, 0xBABF);
  (0xBAA8000011BF, 0xBAC0); (0xBAA8000011C0, 0xBAC1); (0xBAA8000011C1, 0xBAC2);
  (0xBAA8000011C2, 0xBAC3); (0xBAC4000011A8, 0xBAC5); (0xBAC4000011A9, 0xBAC6);
  (0xBAC4000011AA, 0xBAC7); (0xBAC4000011AB, 0xBAC8); (0xBAC4000011AC, 0xBAC9);
  (0xBAC4000011AD, 0xBACA); (0xBAC4000011AE, 0xBACB); (0xBAC4000011AF, 0xBACC);
  (0xBAC4000011B0, 0xBACD); (0xBAC4000011B1, 0xBACE); (0xBAC4000011B2, 0xBACF);
  (0xBAC4000011B3, 0xBAD0); (0xBAC4000011B4, 0xBAD1); (0xBAC4000011B5, 0xBAD2);
  (0xBAC4000011B6, 0xBAD3); (0xBAC4000011B7, 0xBAD4); (0xBAC4000011B8, 0xBAD5);
  (0xBAC4000011B9, 0xBAD6); (0xBAC4000011BA, 0xBAD7); (0xBAC4000011BB, 0xBAD8);
  (0xBAC4000011BC, 0xBAD9); (0xBAC4000011BD, 0xBADA); (0xBAC4000011BE, 0xBADB);
  (0xBAC4000011BF, 0xBADC); (0xBAC4000011C0, 0xBADD); (0xBAC4000011C1, 0xBADE);
  (0xBAC4000011C2, 0xBADF); (0xBAE0000011A8, 0xBAE1); (0xBAE0000011A9, 0xBAE2);
  (0xBAE0000011AA, 0xBAE3); (0xBAE0000011AB, 0xBAE4); (0xBAE0000011AC, 0xBAE5);
  (0xBAE0000011AD, 0xBAE6); (0xBAE0000011AE, 0xBAE7); (0xBAE0000011AF, 0xBAE8);
  (0xBAE0000011B0, 0xBAE9); (0xBAE0000011B1, 0xBAEA); (0xBAE0000011B2, 0xBAEB);
  (0xBAE0000011B3, 0xBAEC); (0xBAE0000011B4, 0xBAED); (0xBAE0000011B5, 0xBAEE);
  (0xBAE0000011B6, 0xBAEF); (0xBAE0000011B7, 0xBAF0); (0xBAE0000011B8, 0xBAF1);
  (0xBAE0000011B9, 0xBAF2); (0xBAE0000011BA, 0xBAF3); (0xBAE0000011BB, 0xBAF4);
  (0xBAE0000011BC, 0xBAF5); (0xBAE0000011BD, 0xBAF6); (0xBAE0000011BE, 0xBAF7);
  (0xBAE0000011BF, 0xBAF8); (0xBAE0000011C0, 0xBAF9); (0xBAE0000011C1, 0xBAFA);
  (0xBAE0000011C2, 0xBAFB); (0xBAFC000011A8, 0xBAFD); (0xBAFC000011A9, 0xBAFE);
  (0xBAFC000011AA, 0xBAFF); (0xBAFC000011AB, 0xBB00); (0xBAFC000011AC, 0xBB01);
  (0xBAFC000011AD, 0xBB02); (0xBAFC000011AE, 0xBB03); (0xBAFC000011AF, 0xBB04);
  (0xBAFC000011B0, 0xBB05); (0xBAFC000011B1, 0xBB06); (0xBAFC000011B2, 0xBB07);
  (0xBAFC000011B3, 0xBB08); (0xBAFC000011B4, 0xBB09); (0xBAFC000011B5, 0xBB0A);
  (0xBAFC000011B6, 0xBB0B); (0xBAFC000011B7, 0xBB0C); (0xBAFC000011B8, 0xBB0D);
  (0xBAFC000011B9, 0xBB0E); (0xBAFC000011BA, 0xBB0F); (0xBAFC000011BB, 0xBB10);
  (0xBAFC000011BC, 0xBB11); (0xBAFC000011BD, 0xBB12); (0xBAFC000011BE, 0xBB13);
  (0xBAFC000011BF, 0xBB14); (0xBAFC000011C0, 0xBB15); (0xBAFC000011C1, 0xBB16);
  (0xBAFC000011C2, 0xBB17); (0xBB18000011A8, 0xBB19); (0xBB18000011A9, 0xBB1A);
  (0xBB18000011AA, 0xBB1B); (0xBB18000011AB, 0xBB1C); (0xBB18000011AC, 0xBB1D);
  (0xBB18000011AD, 0xBB1E); (0xBB18000011AE, 0xBB1F); (0xBB18000011AF, 0xBB20);
  (0xBB18000011B0, 0xBB21); (0xBB18000011B1, 0xBB22); (0xBB18000011B2, 0xBB23);
  (0xBB18000011B3, 0xBB24); (0xBB18000011B4, 0xBB25); (0xBB18000011B5, 0xBB26);
  (0xBB18000011B6, 0xBB27); (0xBB18000011B7, 0xBB28); (0xBB18000011B8, 0xBB29);
  (0xBB18000011B9, 0xBB2A); (0xBB18000011BA, 0xBB2B); (0xBB18000011BB, 0xBB2C);
  (0xBB18000011BC, 0xBB2D); (0xBB18000011BD, 0xBB2E); (0xBB18000011BE, 0xBB2F);
  (0xBB18000011BF, 0xBB30); (0xBB18000011C0, 0xBB31); (0xBB18000011C1, 0xBB32);
  (0xBB18000011C2, 0xBB33); (0xBB34000011A8, 0xBB35); (0xBB34000011A9, 0xBB36);
  (0xBB34000011AA, 0xBB37); (0xBB34000011AB, 0xBB38); (0xBB34000011AC, 0xBB39);
  (0xBB34000011AD, 0xBB3A); (0xBB34000011AE, 0xBB3B); (0xBB34000011AF, 0xBB3C);
  (0xBB34000011B0, 0xBB3D); (0xBB34000011B1, 0xBB3E); (0xBB34000011B2, 0xBB3F);
  (0xBB34000011B3, 0xBB40); (0xBB34000011B4, 0xBB41); (0xBB34000011B5, 0xBB42);
  (0xBB34000011B6, 0xBB43); (0xBB34000011B7, 0xBB44); (0xBB34000011B8, 0xBB45);
  (0xBB34000011B9, 0xBB46); (0xBB34000011BA, 0xBB47); (0xBB34000011BB, 0xBB48) ].

Definition nfcCompose_34 : list (Z * Z) := [
  (0xBB34000011BC, 0xBB49); (0xBB34000011BD, 0xBB4A); (0xBB34000011BE, 0xBB4B);
  (0xBB34000011BF, 0xBB4C); (0xBB34000011C0, 0xBB4D); (0xBB34000011C1, 0xBB4E);
  (0xBB34000011C2, 0xBB4F); (0xBB50000011A8, 0xBB51); (0xBB50000011A9, 0xBB52);
  (0xBB50000011AA, 0xBB53); (0xBB50000011AB, 0xBB54); (0xBB50000011AC, 0xBB55);
  (0xBB50000011AD, 0xBB56); (0xBB50000011AE, 0xBB57); (0xBB50000011AF, 0xBB58);
  (0xBB50000011B0, 0xBB59); (0xBB50000011B1, 0xBB5A); (0xBB50000011B2, 0xBB5B);
  (0xBB50000011B3, 0xBB5C); (0xBB50000011B4, 0xBB5D); (0xBB50000011B5, 0xBB5E);
  (0xBB50000011B6, 0xBB5F); (0xBB50000011B7, 0xBB60); (0xBB50000011B8, 0xBB61);
  (0xBB50000011B9, 0xBB62); (0xBB50000011BA, 0xBB63); (0xBB50000011BB, 0xBB64);
  (0xBB50000011BC, 0xBB65); (0xBB50000011BD, 0xBB66); (0xBB50000011BE, 0xBB67);
  (0xBB50000011BF, 0xBB68); (0xBB50000011C0, 0xBB69); (0xBB50000011C1, 0xBB6A);
  (0xBB50000011C2, 0xBB6B); (0xBB6C000011A8, 0xBB6D); (0xBB6C000011A9, 0xBB6E);
  (0xBB6C000011AA, 0xBB6F); (0xBB6C000011AB, 0xBB70); (0xBB6C000011AC, 0xBB71);
  (0xBB6C000011AD, 0xBB72); (0xBB6C000011AE, 0xBB73); (0xBB6C000011AF, 0xBB74);
  (0xBB6C000011B0, 0xBB75); (0xBB6C000011B1, 0xBB76); (0xBB6C000011B2, 0xBB77);
  (0xBB6C000011B3, 0xBB78); (0xBB6C000011B4, 0xBB79); (0xBB6C000011B5, 0xBB7A);
  (0xBB6C000011B6, 0xBB7B); (0xBB6C000011B7, 0xBB7C); (0xBB6C000011B8, 0xBB7D);
  (0xBB6C000011B9, 0xBB7E); (0xBB6C000011BA, 0xBB7F); (0xBB6C000011BB, 0xBB80);
  (0xBB6C000011BC, 0xBB81); (0xBB6C000011BD, 0xBB82); (0xBB6C000011BE, 0xBB83);
  (0xBB6C000011BF, 0xBB84); (0xBB6C000011C0, 0xBB85); (0xBB6C000011C1, 0xBB86);
  (0xBB6C000011C2, 0xBB87); (0xBB88000011A8, 0xBB89); (0xBB88000011A9, 0xBB8A);
  (0xBB88000011AA, 0xBB8B); (0xBB88000011AB, 0xBB8C); (0xBB88000011AC, 0xBB8D);
  (0xBB88000011AD, 0xBB8E); (0xBB88000011AE, 0xBB8F); (0xBB88000011AF, 0xBB90);
  (0xBB88000011B0, 0xBB91); (0xBB88000011B1, 0xBB92); (0xBB88000011B2, 0xBB93);
  (0xBB88000011B3, 0xBB94); (0xBB88000011B4, 0xBB95); (0xBB88000011B5, 0xBB96);
  (0xBB88000011B6, 0xBB97); (0xBB88000011B7, 0xBB98); (0xBB88000011B8, 0xBB99);
  (0xBB88000011B9, 0xBB9A); (0xBB88000011BA, 0xBB9B); (0xBB88000011BB, 0xBB9C);
  (0xBB88000011BC, 0xBB9D); (0xBB88000011BD, 0xBB9E); (0xBB88000011BE, 0xBB9F);
  (0xBB88000011BF, 0xBBA0); (0xBB88000011C0, 0xBBA1); (0xBB88000011C1, 0xBBA2);
  (0xBB88000011C2, 0xBBA3); (0xBBA4000011A8, 0xBBA5); (0xBBA4000011A9, 0xBBA6);
  (0xBBA4000011AA, 0xBBA7); (0xBBA4000011AB, 0xBBA8); (0xBBA4000011AC, 0xBBA9);
  (0xBBA4000011AD, 0xBBAA); (0xBBA4000011AE, 0xBBAB); (0xBBA4000011AF, 0xBBAC);
  (0xBBA4000011B0, 0xBBAD); (0xBBA4000011B1, 0xBBAE); (0xBBA4000011B2, 0xBBAF);
  (0xBBA4000011B3, 0xBBB0); (0xBBA4000011B4, 0xBBB1); (0xBBA4000011B5, 0xBBB2);
  (0xBBA4000011B6, 0xBBB3); (0xBBA4000011B7, 0xBBB4); (0xBBA4000011B8, 0xBBB5);
  (0xBBA4000011B9, 0xBBB6); (0xBBA4000011BA, 0xBBB7); (0xBBA4000011BB, 0xBBB8);
  (0xBBA4000011BC, 0xBBB9); (0xBBA4000011BD, 0xBBBA); (0xBBA4000011BE, 0xBBBB);
  (0xBBA4000011BF, 0xBBBC); (0xBBA4000011C0, 0xBBBD); (0xBBA4000011C1, 0xBBBE);
  (0xBBA4000011C2, 0xBBBF); (0xBBC0000011A8, 0xBBC1); (0xBBC0000011A9, 0xBBC2);
  (0xBBC0000011AA, 0xBBC3); (0xBBC0000011AB, 0xBBC4); (0xBBC0000011AC, 0xBBC5);
  (0xBBC0000011AD, 0xBBC6); (0xBBC0000011AE, 0xBBC7); (0xBBC0000011AF, 0xBBC8);
  (0xBBC0000011B0, 0xBBC9); (0xBBC0000011B1, 0xBBCA); (0xBBC0000011B2, 0xBBCB);
  (0xBBC0000011B3, 0xBBCC); (0xBBC0000011B4, 0xBBCD); (0xBBC0000011B5, 0xBBCE);
  (0xBBC0000011B6, 0xBBCF); (0xBBC0000011B7, 0xBBD0); (0xBBC0000011B8, 0xBBD1);
  (0xBBC0000011B9, 0xBBD2); (0xBBC0000011BA, 0xBBD3); (0xBBC0000011BB, 0xBBD4);
  (0xBBC0000011BC, 0xBBD5); (0xBBC0000011BD, 0xBBD6); (0xBBC0000011BE, 0xBBD7);
  (0xBBC0000011BF, 0xBBD8); (0xBBC0000011C0, 0xBBD9); (0xBBC0000011C1, 0xBBDA);
  (0xBBC0000011C2, 0xBBDB); (0xBBDC000011A8, 0xBBDD); (0xBBDC000011A9, 0xBBDE);
  (0xBBDC000011AA, 0xBBDF); (0xBBDC000011AB, 0xBBE0); (0xBBDC000011AC, 0xBBE1);
  (0xBBDC000011AD, 0xBBE2); (0xBBDC000011AE, 0xBBE3); (0xBBDC000011AF, 0xBBE4) ].

Definition nfcCompose_35 : list (Z * Z) := [
  (0xBBDC000011B0, 0xBBE5); (0xBBDC000011B1, 0xBBE6); (0xBBDC000011B2, 0xBBE7);
  (0xBBDC000011B3, 0xBBE8); (0xBBDC000011B4, 0xBBE9); (0xBBDC000011B5, 0xBBEA);
  (0xBBDC000011B6, 0xBBEB); (0xBBDC000011B7, 0xBBEC); (0xBBDC000011B8, 0xBBED);
  (0xBBDC000011B9, 0xBBEE); (0xBBDC000011BA, 0xBBEF); (0xBBDC000011BB, 0xBBF0);
  (0xBBDC000011BC, 0xBBF1); (0xBBDC000011BD, 0xBBF2); (0xBBDC000011BE, 0xBBF3);
  (0xBBDC000011BF, 0xBBF4); (0xBBDC000011C0, 0xBBF5); (0xBBDC000011C1, 0xBBF6);
  (0xBBDC000011C2, 0xBBF7); (0xBBF8000011A8, 0xBBF9); (0xBBF8000011A9, 0xBBFA);
  (0xBBF8000011AA, 0xBBFB); (0xBBF8000011AB, 0xBBFC); (0xBBF8000011AC, 0xBBFD);
  (0xBBF8000011AD, 0xBBFE); (0xBBF8000011AE, 0xBBFF); (0xBBF8000011AF, 0xBC00);
  (0xBBF8000011B0, 0xBC01); (0xBBF8000011B1, 0xBC02); (0xBBF8000011B2, 0xBC03);
  (0xBBF8000011B3, 0xBC04); (0xBBF8000011B4, 0xBC05); (0xBBF8000011B5, 0xBC06);
  (0xBBF8000011B6, 0xBC07); (0xBBF8000011B7, 0xBC08); (0xBBF8000011B8, 0xBC09);
  (0xBBF8000011B9, 0xBC0A); (0xBBF8000011BA, 0xBC0B); (0xBBF8000011BB, 0xBC0C);
  (0xBBF8000011BC, 0xBC0D); (0xBBF8000011BD, 0xBC0E); (0xBBF8000011BE, 0xBC0F);
  (0xBBF8000011BF, 0xBC10); (0xBBF8000011C0, 0xBC11); (0xBBF8000011C1, 0xBC12);
  (0xBBF8000011C2, 0xBC13); (0xBC14000011A8, 0xBC15); (0xBC14000011A9, 0xBC16);
  (0xBC14000011AA, 0xBC17); (0xBC14000011AB, 0xBC18); (0xBC14000011AC, 0xBC19);
  (0xBC14000011AD, 0xBC1A); (0xBC14000011AE, 0xBC1B); (0xBC14000011AF, 0xBC1C);
  (0xBC14000011B0, 0xBC1D); (0xBC14000011B1, 0xBC1E); (0xBC14000011B2, 0xBC1F);
  (0xBC14000011B3, 0xBC20); (0xBC14000011B4, 0xBC21); (0xBC14000011B5, 0xBC22);
  (0xBC14000011B6, 0xBC23); (0xBC14000011B7, 0xBC24); (0xBC14000011B8, 0xBC25);
  (0xBC14000011B9, 0xBC26); (0xBC14000011BA, 0xBC27); (0xBC14000011BB, 0xBC28);
  (0xBC14000011BC, 0xBC29); (0xBC14000011BD, 0xBC2A); (0xBC14000011BE, 0xBC2B);
  (0xBC14000011BF, 0xBC2C); (0xBC14000011C0, 0xBC2D); (0xBC14000011C1, 0xBC2E);
  (0xBC14000011C2, 0xBC2F); (0xBC30000011A8, 0xBC31); (0xBC30000011A9, 0xBC32);
  (0xBC30000011AA, 0xBC33); (0xBC30000011AB, 0xBC34); (0xBC30000011AC, 0xBC35);
  (0xBC30000011AD, 0xBC36); (0xBC30000011AE, 0xBC37); (0xBC30000011AF, 0xBC38);
  (0xBC30000011B0, 0xBC39); (0xBC30000011B1, 0xBC3A); (0xBC30000011B2, 0xBC3B);
  (0xBC30000011B3, 0xBC3C); (0xBC30000011B4, 0xBC3D); (0xBC30000011B5, 0xBC3E);
  (0xBC30000011B6, 0xBC3F); (0xBC30000011B7, 0xBC40); (0xBC30000011B8, 0xBC41);
  (0xBC30000011B9, 0xBC42); (0xBC30000011BA, 0xBC43); (0xBC30000011BB, 0xBC44);
  (0xBC30000011BC, 0xBC45); (0xBC30000011BD, 0xBC46); (0xBC30000011BE, 0xBC47);
  (0xBC30000011BF, 0xBC48); (0xBC30000011C0, 0xBC49); (0xBC30000011C1, 0xBC4A);
  (0xBC30000011C2, 0xBC4B); (0xBC4C000011A8, 0xBC4D); (0xBC4C000011A9, 0xBC4E);
  (0xBC4C000011AA, 0xBC4F); (0xBC4C000011AB, 0xBC50); (0xBC4C000011AC, 0xBC51);
  (0xBC4C000011AD, 0xBC52); (0xBC4C000011AE, 0xBC53); (0xBC4C000011AF, 0xBC54);
  (0xBC4C000011B0, 0xBC55); (0xBC4C000011B1, 0xBC56); (0xBC4C000011B2, 0xBC57);
  (0xBC4C000011B3, 0xBC58); (0xBC4C000011B4, 0xBC59); (0xBC4C000011B5, 0xBC5A);
  (0xBC4C000011B6, 0xBC5B); (0xBC4C000011B7, 0xBC5C); (0xBC4C000011B8, 0xBC5D);
  (0xBC4C000011B9, 0xBC5E); (0xBC4C000011BA, 0xBC5F); (0xBC4C000011BB, 0xBC60);
  (0xBC4C000011BC, 0xBC61); (0xBC4C000011BD, 0xBC62); (0xBC4C000011BE, 0xBC63);
  (0xBC4C000011BF, 0xBC64); (0xBC4C000011C0, 0xBC65); (0xBC4C000011C1, 0xBC66);
  (0xBC4C000011C2, 0xBC67); (0xBC68000011A8, 0xBC69); (0xBC68000011A9, 0xBC6A);
  (0xBC68000011AA, 0xBC6B); (0xBC68000011AB, 0xBC6C); (0xBC68000011AC, 0xBC6D);
  (0xBC68000011AD, 0xBC6E); (0xBC68000011AE, 0xBC6F); (0xBC68000011AF, 0xBC70);
  (0xBC68000011B0, 0xBC71); (0xBC68000011B1, 0xBC72); (0xBC68000011B2, 0xBC73);
  (0xBC68000011B3, 0xBC74); (0xBC68000011B4, 0xBC75); (0xBC68000011B5, 0xBC76);
  (0xBC68000011B6, 0xBC77); (0xBC68000011B7, 0xBC78); (0xBC68000011B8, 0xBC79);
  (0xBC68000011B9, 0xBC7A); (0xBC68000011BA, 0xBC7B); (0xBC68000011BB, 0xBC7C);
  (0xBC68000011BC, 0xBC7D); (0xBC68000011BD, 0xBC7E); (0xBC68000011BE, 0xBC7F) ].

Definition nfcCompose_36 : list (Z * Z) := [
  (0xBC68000011BF, 0xBC80); (0xBC68000011C0, 0xBC81); (0xBC68000011C1, 0xBC82);
  (0xBC68000011C2, 0xBC83); (0xBC84000011A8, 0xBC85); (0xBC84000011A9, 0xBC86);
  (0xBC84000011AA, 0xBC87); (0xBC84000011AB, 0xBC88); (0xBC84000011AC, 0xBC89);
  (0xBC84000011AD, 0xBC8A); (0xBC84000011AE, 0xBC8B); (0xBC84000011AF, 0xBC8C);
  (0xBC84000011B0, 0xBC8D); (0xBC84000011B1, 0xBC8E); (0xBC84000011B2, 0xBC8F);
  (0xBC84000011B3, 0xBC90); (0xBC84000011B4, 0xBC91); (0xBC84000011B5, 0xBC92);
  (0xBC84000011B6, 0xBC93); (0xBC84000011B7, 0xBC94); (0xBC84000011B8, 0xBC95);
  (0xBC84000011B9, 0xBC96); (0xBC84000011BA, 0xBC97); (0xBC84000011BB, 0xBC98);
  (0xBC84000011BC, 0xBC99); (0xBC84000011BD, 0xBC9A); (0xBC84000011BE, 0xBC9B);
  (0xBC84000011BF, 0xBC9C); (0xBC84000011C0, 0xBC9D); (0xBC84000011C1, 0xBC9E);
  (0xBC84000011C2, 0xBC9F); (0xBCA0000011A8, 0xBCA1); (0xBCA0000011A9, 0xBCA2);
  (0xBCA0000011AA, 0xBCA3); (0xBCA0000011AB, 0xBCA4); (0xBCA0000011AC, 0xBCA5);
  (0xBCA0000011AD, 0xBCA6); (0xBCA0000011AE, 0xBCA7); (0xBCA0000011AF, 0xBCA8);
  (0xBCA0000011B0, 0xBCA9); (0xBCA0000011B1, 0xBCAA); (0xBCA0000011B2, 0xBCAB);
  (0xBCA0000011B3, 0xBCAC); (0xBCA0000011B4, 0xBCAD); (0xBCA0000011B5, 0xBCAE);
  (0xBCA0000011B6, 0xBCAF); (0xBCA0000011B7, 0xBCB0); (0xBCA0000011B8, 0xBCB1);
  (0xBCA0000011B9, 0xBCB2); (0xBCA0000011BA, 0xBCB3); (0xBCA0000011BB, 0xBCB4);
  (0xBCA0000011BC, 0xBCB5); (0xBCA0000011BD, 0xBCB6); (0xBCA0000011BE, 0xBCB7);
  (0xBCA0000011BF, 0xBCB8); (0xBCA0000011C0, 0xBCB9); (0xBCA0000011C1, 0xBCBA);
  (0xBCA0000011C2, 0xBCBB); (0xBCBC000011A8, 0xBCBD); (0xBCBC000011A9, 0xBCBE);
  (0xBCBC000011AA, 0xBCBF); (0xBCBC000011AB, 0xBCC0); (0xBCBC000011AC, 0xBCC1);
  (0xBCBC000011AD, 0xBCC2); (0xBCBC000011AE, 0xBCC3); (0xBCBC000011AF, 0xBCC4);
  (0xBCBC000011B0, 0xBCC5); (0xBCBC000011B1, 0xBCC6); (0xBCBC000011B2, 0xBCC7);
  (0xBCBC000011B3, 0xBCC8); (0xBCBC000011B4, 0xBCC9); (0xBCBC000011B5, 0xBCCA);
  (0xBCBC000011B6, 0xBCCB); (0xBCBC000011B7, 0xBCCC); (0xBCBC000011B8, 0xBCCD);
  (0xBCBC000011B9, 0xBCCE); (0xBCBC000011BA, 0xBCCF); (0xBCBC000011BB, 0xBCD0);
  (0xBCBC000011BC, 0xBCD1); (0xBCBC000011BD, 0xBCD2); (0xBCBC000011BE, 0xBCD3);
  (0xBCBC000011BF, 0xBCD4); (0xBCBC000011C0, 0xBCD5); (0xBCBC000011C1, 0xBCD6);
  (0xBCBC000011C2, 0xBCD7); (0xBCD8000011A8, 0xBCD9); (0xBCD8000011A9, 0xBCDA);
  (0xBCD8000011AA, 0xBCDB); (0xBCD8000011AB, 0xBCDC); (0xBCD8000011AC, 0xBCDD);
  (0xBCD8000011AD, 0xBCDE); (0xBCD8000011AE, 0xBCDF); (0xBCD8000011AF, 0xBCE0);
  (0xBCD8000011B0, 0xBCE1); (0xBCD8000011B1, 0xBCE2); (0xBCD8000011B2, 0xBCE3);
  (0xBCD8000011B3, 0xBCE4); (0xBCD8000011B4, 0xBCE5); (0xBCD8000011B5, 0xBCE6);
  (0xBCD8000011B6, 0xBCE7); (0xBCD8000011B7, 0xBCE8); (0xBCD8000011B8, 0xBCE9);
  (0xBCD8000011B9, 0xBCEA); (0xBCD8000011BA, 0xBCEB); (0xBCD8000011BB, 0xBCEC);
  (0xBCD8000011BC, 0xBCED); (0xBCD8000011BD, 0xBCEE); (0xBCD8000011BE, 0xBCEF);
  (0xBCD8000011BF, 0xBCF0); (0xBCD8000011C0, 0xBCF1); (0xBCD8000011C1, 0xBCF2);
  (0xBCD8000011C2, 0xBCF3); (0xBCF4000011A8, 0xBCF5); (0xBCF4000011A9, 0xBCF6);
  (0xBCF4000011AA, 0xBCF7); (0xBCF4000011AB, 0xBCF8); (0xBCF4000011AC, 0xBCF9);
  (0xBCF4000011AD, 0xBCFA); (0xBCF4000011AE, 0xBCFB); (0xBCF4000011AF, 0xBCFC);
  (0xBCF4000011B0, 0xBCFD); (0xBCF4000011B1, 0xBCFE); (0xBCF4000011B2, 0xBCFF);
  (0xBCF4000011B3, 0xBD00); (0xBCF4000011B4, 0xBD01); (0xBCF4000011B5, 0xBD02);
  (0xBCF4000011B6, 0xBD03); (0xBCF4000011B7, 0xBD04); (0xBCF4000011B8, 0xBD05);
  (0xBCF4000011B9, 0xBD06); (0xBCF4000011BA, 0xBD07); (0xBCF4000011BB, 0xBD08);
  (0xBCF4000011BC, 0xBD09); (0xBCF4000011BD, 0xBD0A); (0xBCF4000011BE, 0xBD0B);
  (0xBCF4000011BF, 0xBD0C); (0xBCF4000011C0, 0xBD0D); (0xBCF4000011C1, 0xBD0E);
  (0xBCF4000011C2, 0xBD0F); (0xBD10000011A8, 0xBD11); (0xBD10000011A9, 0xBD12);
  (0xBD10000011AA, 0xBD13); (0xBD10000011AB, 0xBD14); (0xBD10000011AC, 0xBD15);
  (0xBD10000011AD, 0xBD16); (0xBD10000011AE, 0xBD17); (0xBD10000011AF, 0xBD18);
  (0xBD10000011B0, 0xBD19); (0xBD10000011B1, 0xBD1A); (0xBD10000011B2, 0xBD1B) ].

Definition nfcCompose_37 : list (Z * Z) := [
  (0xBD10000011B3, 0xBD1C); (0xBD10000011B4, 0xBD1D); (0xBD10000011B5, 0xBD1E);
  (0xBD10000011B6, 0xBD1F); (0xBD10000011B7, 0xBD20); (0xBD10000011B8, 0xBD21);
  (0xBD10000011B9, 0xBD22); (0xBD10000011BA, 0xBD23); (0xBD10000011BB, 0xBD24);
  (0xBD10000011BC, 0xBD25); (0xBD10000011BD, 0xBD26); (0xBD10000011BE, 0xBD27);
  (0xBD10000011BF, 0xBD28); (0xBD10000011C0, 0xBD29); (0xBD10000011C1, 0xBD2A);
  (0xBD10000011C2, 0xBD2B); (0xBD2C000011A8, 0xBD2D); (0xBD2C000011A9, 0xBD2E);
  (0xBD2C000011AA, 0xBD2F); (0xBD2C000011AB, 0xBD30); (0xBD2C000011AC, 0xBD31);
  (0xBD2C000011AD, 0xBD32); (0xBD2C000011AE, 0xBD33); (0xBD2C000011AF, 0xBD34);
  (0xBD2C000011B0, 0xBD35); (0xBD2C000011B1, 0xBD36); (0xBD2C000011B2, 0xBD37);
  (0xBD2C000011B3, 0xBD38); (0xBD2C000011B4, 0xBD39); (0xBD2C000011B5, 0xBD3A);
  (0xBD2C000011B6, 0xBD3B); (0xBD2C000011B7, 0xBD3C); (0xBD2C000011B8, 0xBD3D);
  (0xBD2C000011B9, 0xBD3E); (0xBD2C000011BA, 0xBD3F); (0xBD2C000011BB, 0xBD40);
  (0xBD2C000011BC, 0xBD41); (0xBD2C000011BD, 0xBD42); (0xBD2C000011BE, 0xBD43);
  (0xBD2C000011BF, 0xBD44); (0xBD2C000011C0, 0xBD45); (0xBD2C000011C1, 0xBD46);
  (0xBD2C000011C2, 0xBD47); (0xBD48000011A8, 0xBD49); (0xBD48000011A9, 0xBD4A);
  (0xBD48000011AA, 0xBD4B); (0xBD48000011AB, 0xBD4C); (0xBD48000011AC, 0xBD4D);
  (0xBD48000011AD, 0xBD4E); (0xBD48000011AE, 0xBD4F); (0xBD48000011AF, 0xBD50);
  (0xBD48000011B0, 0xBD51); (0xBD48000011B1, 0xBD52); (0xBD48000011B2, 0xBD53);
  (0xBD48000011B3, 0xBD54); (0xBD48000011B4, 0xBD55); (0xBD48000011B5, 0xBD56);
  (0xBD48000011B6, 0xBD57); (0xBD48000011B7, 0xBD58); (0xBD48000011B8, 0xBD59);
  (0xBD48000011B9, 0xBD5A); (0xBD48000011BA, 0xBD5B); (0xBD48000011BB, 0xBD5C);
  (0xBD48000011BC, 0xBD5D); (0xBD48000011BD, 0xBD5E); (0xBD48000011BE, 0xBD5F);
  (0xBD48000011BF, 0xBD60); (0xBD48000011C0, 0xBD61); (0xBD48000011C1, 0xBD62);
  (0xBD48000011C2, 0xBD63); (0xBD64000011A8, 0xBD65); (0xBD64000011A9, 0xBD66);
  (0xBD64000011AA, 0xBD67); (0xBD64000011AB, 0xBD68); (0xBD64000011AC, 0xBD69);
  (0xBD64000011AD, 0xBD6A); (0xBD64000011AE, 0xBD6B); (0xBD64000011AF, 0xBD6C);
  (0xBD64000011B0, 0xBD6D); (0xBD64000011B1, 0xBD6E); (0xBD64000011B2, 0xBD6F);
  (0xBD64000011B3, 0xBD70); (0xBD64000011B4, 0xBD71); (0xBD64000011B5, 0xBD72);
  (0xBD64000011B6, 0xBD73); (0xBD64000011B7, 0xBD74); (0xBD64000011B8, 0xBD75);
  (0xBD64000011B9, 0xBD76); (0xBD64000011BA, 0xBD77); (0xBD64000011BB, 0xBD78);
  (0xBD64000011BC, 0xBD79); (0xBD64000011BD, 0xBD7A); (0xBD64000011BE, 0xBD7B);
  (0xBD64000011BF, 0xBD7C); (0xBD64000011C0, 0xBD7D); (0xBD64000011C1, 0xBD7E);
  (0xBD64000011C2, 0xBD7F); (0xBD80000011A8, 0xBD81); (0xBD80000011A9, 0xBD82);
  (0xBD80000011AA, 0xBD83); (0xBD80000011AB, 0xBD84); (0xBD80000011AC, 0xBD85);
  (0xBD80000011AD, 0xBD86); (0xBD80000011AE, 0xBD87); (0xBD80000011AF, 0xBD88);
  (0xBD80000011B0, 0xBD89); (0xBD80000011B1, 0xBD8A); (0xBD80000011B2, 0xBD8B);
  (0xBD80000011B3, 0xBD8C); (0xBD80000011B4, 0xBD8D); (0xBD80000011B5, 0xBD8E);
  (0xBD80000011B6, 0xBD8F); (0xBD80000011B7, 0xBD90); (0xBD80000011B8, 0xBD91);
  (0xBD80000011B9, 0xBD92); (0xBD80000011BA, 0xBD93); (0xBD80000011BB, 0xBD94);
  (0xBD80000011BC, 0xBD95); (0xBD80000011BD, 0xBD96); (0xBD80000011BE, 0xBD97);
  (0xBD80000011BF, 0xBD98); (0xBD80000011C0, 0xBD99); (0xBD80000011C1, 0xBD9A);
  (0xBD80000011C2, 0xBD9B); (0xBD9C000011A8, 0xBD9D); (0xBD9C000011A9, 0xBD9E);
  (0xBD9C000011AA, 0xBD9F); (0xBD9C000011AB, 0xBDA0); (0xBD9C000011AC, 0xBDA1);
  (0xBD9C000011AD, 0xBDA2); (0xBD9C000011AE, 0xBDA3); (0xBD9C000011AF, 0xBDA4);
  (0xBD9C000011B0, 0xBDA5); (0xBD9C000011B1, 0xBDA6); (0xBD9C000011B2, 0xBDA7);
  (0xBD9C000011B3, 0xBDA8); (0xBD9C000011B4, 0xBDA9); (0xBD9C000011B5, 0xBDAA);
  (0xBD9C000011B6, 0xBDAB); (0xBD9C000011B7, 0xBDAC); (0xBD9C000011B8, 0xBDAD);
  (0xBD9C000011B9, 0xBDAE); (0xBD9C000011BA, 0xBDAF); (0xBD9C000011BB, 0xBDB0);
  (0xBD9C000011BC, 0xBDB1); (0xBD9C000011BD, 0xBDB2); (0xBD9C000011BE, 0xBDB3);
  (0xBD9C000011BF, 0xBDB4); (0xBD9C000011C0, 0xBDB5); (0xBD9C000011C1, 0xBDB6) ].

Definition nfcCompose_38 : list (Z * Z) := [
  (0xBD9C000011C2, 0xBDB7); (0xBDB8000011A8, 0xBDB9); (0xBDB8000011A9, 0xBDBA);
  (0xBDB8000011AA, 0xBDBB); (0xBDB8000011AB, 0xBDBC); (0xBDB8000011AC, 0xBDBD);
  (0xBDB8000011AD, 0xBDBE); (0xBDB8000011AE, 0xBDBF); (0xBDB8000011AF, 0xBDC0);
  (0xBDB8000011B0, 0xBDC1); (0xBDB8000011B1, 0xBDC2); (0xBDB8000011B2, 0xBDC3);
  (0xBDB8000011B3, 0xBDC4); (0xBDB8000011B4, 0xBDC5); (0xBDB8000011B5, 0xBDC6);
  (0xBDB8000011B6, 0xBDC7); (0xBDB8000011B7, 0xBDC8); (0xBDB8000011B8, 0xBDC9);
  (0xBDB8000011B9, 0xBDCA); (0xBDB8000011BA, 0xBDCB); (0xBDB8000011BB, 0xBDCC);
  (0xBDB8000011BC, 0xBDCD); (0xBDB8000011BD, 0xBDCE); (0xBDB8000011BE, 0xBDCF);
  (0xBDB8000011BF, 0xBDD0); (0xBDB8000011C0, 0xBDD1); (0xBDB8000011C1, 0xBDD2);
  (0xBDB8000011C2, 0xBDD3); (0xBDD4000011A8, 0xBDD5); (0xBDD4000011A9, 0xBDD6);
  (0xBDD4000011AA, 0xBDD7); (0xBDD4000011AB, 0xBDD8); (0xBDD4000011AC, 0xBDD9);
  (0xBDD4000011AD, 0xBDDA); (0xBDD4000011AE, 0xBDDB); (0xBDD4000011AF, 0xBDDC);
  (0xBDD4000011B0, 0xBDDD); (0xBDD4000011B1, 0xBDDE); (0xBDD4000011B2, 0xBDDF);
  (0xBDD4000011B3, 0xBDE0); (0xBDD4000011B4, 0xBDE1); (0xBDD4000011B5, 0xBDE2);
  (0xBDD4000011B6, 0xBDE3); (0xBDD4000011B7, 0xBDE4); (0xBDD4000011B8, 0xBDE5);
  (0xBDD4000011B9, 0xBDE6); (0xBDD4000011BA, 0xBDE7); (0xBDD4000011BB, 0xBDE8);
  (0xBDD4000011BC, 0xBDE9); (0xBDD4000011BD, 0xBDEA); (0xBDD4000011BE, 0xBDEB);
  (0xBDD4000011BF, 0xBDEC); (0xBDD4000011C0, 0xBDED); (0xBDD4000011C1, 0xBDEE);
  (0xBDD4000011C2, 0xBDEF); (0xBDF0000011A8, 0xBDF1); (0xBDF0000011A9, 0xBDF2);
  (0xBDF0000011AA, 0xBDF3); (0xBDF0000011AB, 0xBDF4); (0xBDF0000011AC, 0xBDF5);
  (0xBDF0000011AD, 0xBDF6); (0xBDF0000011AE, 0xBDF7); (0xBDF0000011AF, 0xBDF8);
  (0xBDF0000011B0, 0xBDF9); (0xBDF0000011B1, 0xBDFA); (0xBDF0000011B2, 0xBDFB);
  (0xBDF0000011B3, 0xBDFC); (0xBDF0000011B4, 0xBDFD); (0xBDF0000011B5, 0xBDFE);
  (0xBDF0000011B6, 0xBDFF); (0xBDF0000011B7, 0xBE00); (0xBDF0000011B8, 0xBE01);
  (0xBDF0000011B9, 0xBE02); (0xBDF0000011BA, 0xBE03); (0xBDF0000011BB, 0xBE04);
  (0xBDF0000011BC, 0xBE05); (0xBDF0000011BD, 0xBE06); (0xBDF0000011BE, 0xBE07);
  (0xBDF0000011BF, 0xBE08); (0xBDF0000011C0, 0xBE09); (0xBDF0000011C1, 0xBE0A);
  (0xBDF0000011C2, 0xBE0B); (0xBE0C000011A8, 0xBE0D); (0xBE0C000011A9, 0xBE0E);
  (0xBE0C000011AA, 0xBE0F); (0xBE0C000011AB, 0xBE10); (0xBE0C000011AC, 0xBE11);
  (0xBE0C000011AD, 0xBE12); (0xBE0C000011AE, 0xBE13); (0xBE0C000011AF, 0xBE14);
  (0xBE0C000011B0, 0xBE15); (0xBE0C000011B1, 0xBE16); (0xBE0C000011B2, 0xBE17);
  (0xBE0C000011B3, 0xBE18); (0xBE0C000011B4, 0xBE19); (0xBE0C000011B5, 0xBE1A);
  (0xBE0C000011B6, 0xBE1B); (0xBE0C000011B7, 0xBE1C); (0xBE0C000011B8, 0xBE1D);
  (0xBE0C000011B9, 0xBE1E); (0xBE0C000011BA, 0xBE1F); (0xBE0C000011BB, 0xBE20);
  (0xBE0C000011BC, 0xBE21); (0xBE0C000011BD, 0xBE22); (0xBE0C000011BE, 0xBE23);
  (0xBE0C000011BF, 0xBE24); (0xBE0C000011C0, 0xBE25); (0xBE0C000011C1, 0xBE26);
  (0xBE0C000011C2, 0xBE27); (0xBE28000011A8, 0xBE29); (0xBE28000011A9, 0xBE2A);
  (0xBE28000011AA, 0xBE2B); (0xBE28000011AB, 0xBE2C); (0xBE28000011AC, 0xBE2D);
  (0xBE28000011AD, 0xBE2E); (0xBE28000011AE, 0xBE2F); (0xBE28000011AF, 0xBE30);
  (0xBE28000011B0, 0xBE31); (0xBE28000011B1, 0xBE32); (0xBE28000011B2, 0xBE33);
  (0xBE28000011B3, 0xBE34); (0xBE28000011B4, 0xBE35); (0xBE28000011B5, 0xBE36);
  (0xBE28000011B6, 0xBE37); (0xBE28000011B7, 0xBE38); (0xBE28000011B8, 0xBE39);
  (0xBE28000011B9, 0xBE3A); (0xBE28000011BA, 0xBE3B); (0xBE28000011BB, 0xBE3C);
  (0xBE28000011BC, 0xBE3D); (0xBE28000011BD, 0xBE3E); (0xBE28000011BE, 0xBE3F);
  (0xBE28000011BF, 0xBE40); (0xBE28000011C0, 0xBE41); (0xBE28000011C1, 0xBE42);
  (0xBE28000011C2, 0xBE43); (0xBE44000011A8, 0xBE45); (0xBE44000011A9, 0xBE46);
  (0xBE44000011AA, 0xBE47); (0xBE44000011AB, 0xBE48); (0xBE44000011AC, 0xBE49);
  (0xBE44000011AD, 0xBE4A); (0xBE44000011AE, 0xBE4B); (0xBE44000011AF, 0xBE4C);
  (0xBE44000011B0, 0xBE4D); (0xBE44000011B1, 0xBE4E); (0xBE44000011B2, 0xBE4F);
  (0xBE44000011B3, 0xBE50); (0xBE44000011B4, 0xBE51); (0xBE44000011B5, 0xBE52) ].

Definition nfcCompose_39 : list (Z * Z) := [
  (0xBE44000011B6, 0xBE53); (0xBE44000011B7, 0xBE54); (0xBE44000011B8, 0xBE55);
  (0xBE44000011B9, 0xBE56); (0xBE44000011BA, 0xBE57); (0xBE44000011BB, 0xBE58);
  (0xBE44000011BC, 0xBE59); (0xBE44000011BD, 0xBE5A); (0xBE44000011BE, 0xBE5B);
  (0xBE44000011BF, 0xBE5C); (0xBE44000011C0, 0xBE5D); (0xBE44000011C1, 0xBE5E);
  (0xBE44000011C2, 0xBE5F); (0xBE60000011A8, 0xBE61); (0xBE60000011A9, 0xBE62);
  (0xBE60000011AA, 0xBE63); (0xBE60000011AB, 0xBE64); (0xBE60000011AC, 0xBE65);
  (0xBE60000011AD, 0xBE66); (0xBE60000011AE, 0xBE67); (0xBE60000011AF, 0xBE68);
  (0xBE60000011B0, 0xBE69); (0xBE60000011B1, 0xBE6A); (0xBE60000011B2, 0xBE6B);
  (0xBE60000011B3, 0xBE6C); (0xBE60000011B4, 0xBE6D); (0xBE60000011B5, 0xBE6E);
  (0xBE60000011B6, 0xBE6F); (0xBE60000011B7, 0xBE70); (0xBE60000011B8, 0xBE71);
  (0xBE60000011B9, 0xBE72); (0xBE60000011BA, 0xBE73); (0xBE60000011BB, 0xBE74);
  (0xBE60000011BC, 0xBE75); (0xBE60000011BD, 0xBE76); (0xBE60000011BE, 0xBE77);
  (0xBE60000011BF, 0xBE78); (0xBE60000011C0, 0xBE79); (0xBE60000011C1, 0xBE7A);
  (0xBE60000011C2, 0xBE7B); (0xBE7C000011A8, 0xBE7D); (0xBE7C000011A9, 0xBE7E);
  (0xBE7C000011AA, 0xBE7F); (0xBE7C000011AB, 0xBE80); (0xBE7C000011AC, 0xBE81);
  (0xBE7C000011AD, 0xBE82); (0xBE7C000011AE, 0xBE83); (0xBE7C000011AF, 0xBE84);
  (0xBE7C000011B0, 0xBE85); (0xBE7C000011B1, 0xBE86); (0xBE7C000011B2, 0xBE87);
  (0xBE7C000011B3, 0xBE88); (0xBE7C000011B4, 0xBE89); (0xBE7C000011B5, 0xBE8A);
  (0xBE7C000011B6, 0xBE8B); (0xBE7C000011B7, 0xBE8C); (0xBE7C000011B8, 0xBE8D);
  (0xBE7C000011B9, 0xBE8E); (0xBE7C000011BA, 0xBE8F); (0xBE7C000011BB, 0xBE90);
  (0xBE7C000011BC, 0xBE91); (0xBE7C000011BD, 0xBE92); (0xBE7C000011BE, 0xBE93);
  (0xBE7C000011BF, 0xBE94); (0xBE7C000011C0, 0xBE95); (0xBE7C000011C1, 0xBE96);
  (0xBE7C000011C2, 0xBE97); (0xBE98000011A8, 0xBE99); (0xBE98000011A9, 0xBE9A);
  (0xBE98000011AA, 0xBE9B); (0xBE98000011AB, 0xBE9C); (0xBE98000011AC, 0xBE9D);
  (0xBE98000011AD, 0xBE9E); (0xBE98000011AE, 0xBE9F); (0xBE98000011AF, 0xBEA0);
  (0xBE98000011B0, 0xBEA1); (0xBE98000011B1, 0xBEA2); (0xBE98000011B2, 0xBEA3);
  (0xBE98000011B3, 0xBEA4); (0xBE98000011B4, 0xBEA5); (0xBE98000011B5, 0xBEA6);
  (0xBE98000011B6, 0xBEA7); (0xBE98000011B7, 0xBEA8); (0xBE98000011B8, 0xBEA9);
  (0xBE98000011B9, 0xBEAA); (0xBE98000011BA, 0xBEAB); (0xBE98000011BB, 0xBEAC);
  (0xBE98000011BC, 0xBEAD); (0xBE98000011BD, 0xBEAE); (0xBE98000011BE, 0xBEAF);
  (0xBE98000011BF, 0xBEB0); (0xBE98000011C0, 0xBEB1); (0xBE98000011C1, 0xBEB2);
  (0xBE98000011C2, 0xBEB3); (0xBEB4000011A8, 0xBEB5); (0xBEB4000011A9, 0xBEB6);
  (0xBEB4000011AA, 0xBEB7); (0xBEB4000011AB, 0xBEB8); (0xBEB4000011AC, 0xBEB9);
  (0xBEB4000011AD, 0xBEBA); (0xBEB4000011AE, 0xBEBB); (0xBEB4000011AF, 0xBEBC);
  (0xBEB4000011B0, 0xBEBD); (0xBEB4000011B1, 0xBEBE); (0xBEB4000011B2, 0xBEBF);
  (0xBEB4000011B3, 0xBEC0); (0xBEB4000011B4, 0xBEC1); (0xBEB4000011B5, 0xBEC2);
  (0xBEB4000011B6, 0xBEC3); (0xBEB4000011B7, 0xBEC4); (0xBEB4000011B8, 0xBEC5);
  (0xBEB4000011B9, 0xBEC6); (0xBEB4000011BA, 0xBEC7); (0xBEB4000011BB, 0xBEC8);
  (0xBEB4000011BC, 0xBEC9); (0xBEB4000011BD, 0xBECA); (0xBEB4000011BE, 0xBECB);
  (0xBEB4000011BF, 0xBECC); (0xBEB4000011C0, 0xBECD); (0xBEB4000011C1, 0xBECE);
  (0xBEB4000011C2, 0xBECF); (0xBED0000011A8, 0xBED1); (0xBED0000011A9, 0xBED2);
  (0xBED0000011AA, 0xBED3); (0xBED0000011AB, 0xBED4); (0xBED0000011AC, 0xBED5);
  (0xBED0000011AD, 0xBED6); (0xBED0000011AE, 0xBED7); (0xBED0000011AF, 0xBED8);
  (0xBED0000011B0, 0xBED9); (0xBED0000011B1, 0xBEDA); (0xBED0000011B2, 0xBEDB);
  (0xBED0000011B3, 0xBEDC); (0xBED0000011B4, 0xBEDD); (0xBED0000011B5, 0xBEDE);
  (0xBED0000011B6, 0xBEDF); (0xBED0000011B7, 0xBEE0); (0xBED0000011B8, 0xBEE1);
  (0xBED0000011B9, 0xBEE2); (0xBED0000011BA, 0xBEE3); (0xBED0000011BB, 0xBEE4);
  (0xBED0000011BC, 0xBEE5); (0xBED0000011BD, 0xBEE6); (0xBED0000011BE, 0xBEE7);
  (0xBED0000011BF, 0xBEE8); (0xBED0000011C0, 0xBEE9); (0xBED0000011C1, 0xBEEA);
  (0xBED0000011C2, 0xBEEB); (0xBEEC000011A8, 0xBEED); (0xBEEC000011A9, 0xBEEE) ].

Definition nfcCompose_40 : list (Z * Z) := [
  (0xBEEC000011AA, 0xBEEF); (0xBEEC000011AB, 0xBEF0); (0xBEEC000011AC, 0xBEF1);
  (0xBEEC000011AD, 0xBEF2); (0xBEEC000011AE, 0xBEF3); (0xBEEC000011AF, 0xBEF4);
  (0xBEEC000011B0, 0xBEF5); (0xBEEC000011B1, 0xBEF6); (0xBEEC000011B2, 0xBEF7);
  (0xBEEC000011B3, 0xBEF8); (0xBEEC000011B4, 0xBEF9); (0xBEEC000011B5, 0xBEFA);
  (0xBEEC000011B6, 0xBEFB); (0xBEEC000011B7, 0xBEFC); (0xBEEC000011B8, 0xBEFD);
  (0xBEEC000011B9, 0xBEFE); (0xBEEC000011BA, 0xBEFF); (0xBEEC000011BB, 0xBF00);
  (0xBEEC000011BC, 0xBF01); (0xBEEC000011BD, 0xBF02); (0xBEEC000011BE, 0xBF03);
  (0xBEEC000011BF, 0xBF04); (0xBEEC000011C0, 0xBF05); (0xBEEC000011C1, 0xBF06);
  (0xBEEC000011C2, 0xBF07); (0xBF08000011A8, 0xBF09); (0xBF08000011A9, 0xBF0A);
  (0xBF08000011AA, 0xBF0B); (0xBF08000011AB, 0xBF0C); (0xBF08000011AC, 0xBF0D);
  (0xBF08000011AD, 0xBF0E); (0xBF08000011AE, 0xBF0F); (0xBF08000011AF, 0xBF10);
  (0xBF08000011B0, 0xBF11); (0xBF08000011B1, 0xBF12); (0xBF08000011B2, 0xBF13);
  (0xBF08000011B3, 0xBF14); (0xBF08000011B4, 0xBF15); (0xBF08000011B5, 0xBF16);
  (0xBF08000011B6, 0xBF17); (0xBF08000011B7, 0xBF18); (0xBF08000011B8, 0xBF19);
  (0xBF08000011B9, 0xBF1A); (0xBF08000011BA, 0xBF1B); (0xBF08000011BB, 0xBF1C);
  (0xBF08000011BC, 0xBF1D); (0xBF08000011BD, 0xBF1E); (0xBF08000011BE, 0xBF1F);
  (0xBF08000011BF, 0xBF20); (0xBF08000011C0, 0xBF21); (0xBF08000011C1, 0xBF22);
  (0xBF08000011C2, 0xBF23); (0xBF24000011A8, 0xBF25); (0xBF24000011A9, 0xBF26);
  (0xBF24000011AA, 0xBF27); (0xBF24000011AB, 0xBF28); (0xBF24000011AC, 0xBF29);
  (0xBF24000011AD, 0xBF2A); (0xBF24000011AE, 0xBF2B); (0xBF24000011AF, 0xBF2C);
  (0xBF24000011B0, 0xBF2D); (0xBF24000011B1, 0xBF2E); (0xBF24000011B2, 0xBF2F);
  (0xBF24000011B3, 0xBF30); (0xBF24000011B4, 0xBF31); (0xBF24000011B5, 0xBF32);
  (0xBF24000011B6, 0xBF33); (0xBF24000011B7, 0xBF34); (0xBF24000011B8, 0xBF35);
  (0xBF24000011B9, 0xBF36); (0xBF24000011BA, 0xBF37); (0xBF24000011BB, 0xBF38);
  (0xBF24000011BC, 0xBF39); (0xBF24000011BD, 0xBF3A); (0xBF24000011BE, 0xBF3B);
  (0xBF24000011BF, 0xBF3C); (0xBF24000011C0, 0xBF3D); (0xBF24000011C1, 0xBF3E);
  (0xBF24000011C2, 0xBF3F); (0xBF40000011A8, 0xBF41); (0xBF40000011A9, 0xBF42);
  (0xBF40000011AA, 0xBF43); (0xBF40000011AB, 0xBF44); (0xBF40000011AC, 0xBF45);
  (0xBF40000011AD, 0xBF46); (0xBF40000011AE, 0xBF47); (0xBF40000011AF, 0xBF48);
  (0xBF40000011B0, 0xBF49); (0xBF40000011B1, 0xBF4A); (0xBF40000011B2, 0xBF4B);
  (0xBF40000011B3, 0xBF4C); (0xBF40000011B4, 0xBF4D); (0xBF40000011B5, 0xBF4E);
  (0xBF40000011B6, 0xBF4F); (0xBF40000011B7, 0xBF50); (0xBF40000011B8, 0xBF51);
  (0xBF40000011B9, 0xBF52); (0xBF40000011BA, 0xBF53); (0xBF40000011BB, 0xBF54);
  (0xBF40000011BC, 0xBF55); (0xBF40000011BD, 0xBF56); (0xBF40000011BE, 0xBF57);
  (0xBF40000011BF, 0xBF58); (0xBF40000011C0, 0xBF59); (0xBF40000011C1, 0xBF5A);
  (0xBF40000011C2, 0xBF5B); (0xBF5C000011A8, 0xBF5D); (0xBF5C000011A9, 0xBF5E);
  (0xBF5C000011AA, 0xBF5F); (0xBF5C000011AB, 0xBF60); (0xBF5C000011AC, 0xBF61);
  (0xBF5C000011AD, 0xBF62); (0xBF5C000011AE, 0xBF63); (0xBF5C000011AF, 0xBF64);
  (0xBF5C000011B0, 0xBF65); (0xBF5C000011B1, 0xBF66); (0xBF5C000011B2, 0xBF67);
  (0xBF5C000011B3, 0xBF68); (0xBF5C000011B4, 0xBF69); (0xBF5C000011B5, 0xBF6A);
  (0xBF5C000011B6, 0xBF6B); (0xBF5C000011B7, 0xBF6C); (0xBF5C000011B8, 0xBF6D);
  (0xBF5C000011B9, 0xBF6E); (0xBF5C000011BA, 0xBF6F); (0xBF5C000011BB, 0xBF70);
  (0xBF5C000011BC, 0xBF71); (0xBF5C000011BD, 0xBF72); (0xBF5C000011BE, 0xBF73);
  (0xBF5C000011BF, 0xBF74); (0xBF5C000011C0, 0xBF75); (0xBF5C000011C1, 0xBF76);
  (0xBF5C000011C2, 0xBF77); (0xBF78000011A8, 0xBF79); (0xBF78000011A9, 0xBF7A);
  (0xBF78000011AA, 0xBF7B); (0xBF78000011AB, 0xBF7C); (0xBF78000011AC, 0xBF7D);
  (0xBF78000011AD, 0xBF7E); (0xBF78000011AE, 0xBF7F); (0xBF78000011AF, 0xBF80);
  (0xBF78000011B0, 0xBF81); (0xBF78000011B1, 0xBF82); (0xBF78000011B2, 0xBF83);
  (0xBF78000011B3, 0xBF84); (0xBF78000011B4, 0xBF85); (0xBF78000011B5, 0xBF86);
  (0xBF78000011B6, 0xBF87); (0xBF78000011B7, 0xBF88); (0xBF78000011B8, 0xBF89) ].

Definition nfcCompose_41 : list (Z * Z) := [
  (0xBF78000011B9, 0xBF8A); (0xBF78000011BA, 0xBF8B); (0xBF78000011BB, 0xBF8C);
  (0xBF78000011BC, 0xBF8D); (0xBF78000011BD, 0xBF8E); (0xBF78000011BE, 0xBF8F);
  (0xBF78000011BF, 0xBF90); (0xBF78000011C0, 0xBF91); (0xBF78000011C1, 0xBF92);
  (0xBF78000011C2, 0xBF93); (0xBF94000011A8, 0xBF95); (0xBF94000011A9, 0xBF96);
  (0xBF94000011AA, 0xBF97); (0xBF94000011AB, 0xBF98); (0xBF94000011AC, 0xBF99);
  (0xBF94000011AD, 0xBF9A); (0xBF94000011AE, 0xBF9B); (0xBF94000011AF, 0xBF9C);
  (0xBF94000011B0, 0xBF9D); (0xBF94000011B1, 0xBF9E); (0xBF94000011B2, 0xBF9F);
  (0xBF94000011B3, 0xBFA0); (0xBF94000011B4, 0xBFA1); (0xBF94000011B5, 0xBFA2);
  (0xBF94000011B6, 0xBFA3); (0xBF94000011B7, 0xBFA4); (0xBF94000011B8, 0xBFA5);
  (0xBF94000011B9, 0xBFA6); (0xBF94000011BA, 0xBFA7); (0xBF94000011BB, 0xBFA8);
  (0xBF94000011BC, 0xBFA9); (0xBF94000011BD, 0xBFAA); (0xBF94000011BE, 0xBFAB);
  (0xBF94000011BF, 0xBFAC); (0xBF94000011C0, 0xBFAD); (0xBF94000011C1, 0xBFAE);
  (0xBF94000011C2, 0xBFAF); (0xBFB0000011A8, 0xBFB1); (0xBFB0000011A9, 0xBFB2);
  (0xBFB0000011AA, 0xBFB3); (0xBFB0000011AB, 0xBFB4); (0xBFB0000011AC, 0xBFB5);
  (0xBFB0000011AD, 0xBFB6); (0xBFB0000011AE, 0xBFB7); (0xBFB0000011AF, 0xBFB8);
  (0xBFB0000011B0, 0xBFB9); (0xBFB0000011B1, 0xBFBA); (0xBFB0000011B2, 0xBFBB);
  (0xBFB0000011B3, 0xBFBC); (0xBFB0000011B4, 0xBFBD); (0xBFB0000011B5, 0xBFBE);
  (0xBFB0000011B6, 0xBFBF); (0xBFB0000011B7, 0xBFC0); (0xBFB0000011B8, 0xBFC1);
  (0xBFB0000011B9, 0xBFC2); (0xBFB0000011BA, 0xBFC3); (0xBFB0000011BB, 0xBFC4);
  (0xBFB0000011BC, 0xBFC5); (0xBFB0000011BD, 0xBFC6); (0xBFB0000011BE, 0xBFC7);
  (0xBFB0000011BF, 0xBFC8); (0xBFB0000011C0, 0xBFC9); (0xBFB0000011C1, 0xBFCA);
  (0xBFB0000011C2, 0xBFCB); (0xBFCC000011A8, 0xBFCD); (0xBFCC000011A9, 0xBFCE);
  (0xBFCC000011AA, 0xBFCF); (0xBFCC000011AB, 0xBFD0); (0xBFCC000011AC, 0xBFD1);
  (0xBFCC000011AD, 0xBFD2); (0xBFCC000011AE, 0xBFD3); (0xBFCC000011AF, 0xBFD4);
  (0xBFCC000011B0, 0xBFD5); (0xBFCC000011B1, 0xBFD6); (0xBFCC000011B2, 0xBFD7);
  (0xBFCC000011B3, 0xBFD8); (0xBFCC000011B4, 0xBFD9); (0xBFCC000011B5, 0xBFDA);
  (0xBFCC000011B6, 0xBFDB); (0xBFCC000011B7, 0xBFDC); (0xBFCC000011B8, 0xBFDD);
  (0xBFCC000011B9, 0xBFDE); (0xBFCC000011BA, 0xBFDF); (0xBFCC000011BB, 0xBFE0);
  (0xBFCC000011BC, 0xBFE1); (0xBFCC000011BD, 0xBFE2); (0xBFCC000011BE, 0xBFE3);
  (0xBFCC000011BF, 0xBFE4); (0xBFCC000011C0, 0xBFE5); (0xBFCC000011C1, 0xBFE6);
  (0xBFCC000011C2, 0xBFE7); (0xBFE8000011A8, 0xBFE9); (0xBFE8000011A9, 0xBFEA);
  (0xBFE8000011AA, 0xBFEB); (0xBFE8000011AB, 0xBFEC); (0xBFE8000011AC, 0xBFED);
  (0xBFE8000011AD, 0xBFEE); (0xBFE8000011AE, 0xBFEF); (0xBFE8000011AF, 0xBFF0);
  (0xBFE8000011B0, 0xBFF1); (0xBFE8000011B1, 0xBFF2); (0xBFE8000011B2, 0xBFF3);
  (0xBFE8000011B3, 0xBFF4); (0xBFE8000011B4, 0xBFF5); (0xBFE8000011B5, 0xBFF6);
  (0xBFE8000011B6, 0xBFF7); (0xBFE8000011B7, 0xBFF8); (0xBFE8000011B8, 0xBFF9);
  (0xBFE8000011B9, 0xBFFA); (0xBFE8000011BA, 0xBFFB); (0xBFE8000011BB, 0xBFFC);
  (0xBFE8000011BC, 0xBFFD); (0xBFE8000011BD, 0xBFFE); (0xBFE8000011BE, 0xBFFF);
  (0xBFE8000011BF, 0xC000); (0xBFE8000011C0, 0xC001); (0xBFE8000011C1, 0xC002);
  (0xBFE8000011C2, 0xC003); (0xC004000011A8, 0xC005); (0xC004000011A9, 0xC006);
  (0xC004000011AA, 0xC007); (0xC004000011AB, 0xC008); (0xC004000011AC, 0xC009);
  (0xC004000011AD, 0xC00A); (0xC004000011AE, 0xC00B); (0xC004000011AF, 0xC00C);
  (0xC004000011B0, 0xC00D); (0xC004000011B1, 0xC00E); (0xC004000011B2, 0xC00F);
  (0xC004000011B3, 0xC010); (0xC004000011B4, 0xC011); (0xC004000011B5, 0xC012);
  (0xC004000011B6, 0xC013); (0xC004000011B7, 0xC014); (0xC004000011B8, 0xC015);
  (0xC004000011B9, 0xC016); (0xC004000011BA, 0xC017); (0xC004000011BB, 0xC018);
  (0xC004000011BC, 0xC019); (0xC004000011BD, 0xC01A); (0xC004000011BE, 0xC01B);
  (0xC004000011BF, 0xC01C); (0xC004000011C0, 0xC01D); (0xC004000011C1, 0xC01E);
  (0xC004000011C2, 0xC01F); (0xC020000011A8, 0xC021); (0xC020000011A9, 0xC022);
  (0xC020000011AA, 0xC023); (0xC020000011AB, 0xC024); (0xC020000011AC, 0xC025) ].

Definition nfcCompose_42 : list (Z * Z) := [
  (0xC020000011AD, 0xC026); (0xC020000011AE, 0xC027); (0xC020000011AF, 0xC028);
  (0xC020000011B0, 0xC029); (0xC020000011B1, 0xC02A); (0xC020000011B2, 0xC02B);
  (0xC020000011B3, 0xC02C); (0xC020000011B4, 0xC02D); (0xC020000011B5, 0xC02E);
  (0xC020000011B6, 0xC02F); (0xC020000011B7, 0xC030); (0xC020000011B8, 0xC031);
  (0xC020000011B9, 0xC032); (0xC020000011BA, 0xC033); (0xC020000011BB, 0xC034);
  (0xC020000011BC, 0xC035); (0xC020000011BD, 0xC036); (0xC020000011BE, 0xC037);
  (0xC020000011BF, 0xC038); (0xC020000011C0, 0xC039); (0xC020000011C1, 0xC03A);
  (0xC020000011C2, 0xC03B); (0xC03C000011A8, 0xC03D); (0xC03C000011A9, 0xC03E);
  (0xC03C000011AA, 0xC03F); (0xC03C000011AB, 0xC040); (0xC03C000011AC, 0xC041);
  (0xC03C000011AD, 0xC042); (0xC03C000011AE, 0xC043); (0xC03C000011AF, 0xC044);
  (0xC03C000011B0, 0xC045); (0xC03C000011B1, 0xC046); (0xC03C000011B2, 0xC047);
  (0xC03C000011B3, 0xC048); (0xC03C000011B4, 0xC049); (0xC03C000011B5, 0xC04A);
  (0xC03C000011B6, 0xC04B); (0xC03C000011B7, 0xC04C); (0xC03C000011B8, 0xC04D);
  (0xC03C000011B9, 0xC04E); (0xC03C000011BA, 0xC04F); (0xC03C000011BB, 0xC050);
  (0xC03C000011BC, 0xC051); (0xC03C000011BD, 0xC052); (0xC03C000011BE, 0xC053);
  (0xC03C000011BF, 0xC054); (0xC03C000011C0, 0xC055); (0xC03C000011C1, 0xC056);
  (0xC03C000011C2, 0xC057); (0xC058000011A8, 0xC059); (0xC058000011A9, 0xC05A);
  (0xC058000011AA, 0xC05B); (0xC058000011AB, 0xC05C); (0xC058000011AC, 0xC05D);
  (0xC058000011AD, 0xC05E); (0xC058000011AE, 0xC05F); (0xC058000011AF, 0xC060);
  (0xC058000011B0, 0xC061); (0xC058000011B1, 0xC062); (0xC058000011B2, 0xC063);
  (0xC058000011B3, 0xC064); (0xC058000011B4, 0xC065); (0xC058000011B5, 0xC066);
  (0xC058000011B6, 0xC067); (0xC058000011B7, 0xC068); (0xC058000011B8, 0xC069);
  (0xC058000011B9, 0xC06A); (0xC058000011BA, 0xC06B); (0xC058000011BB, 0xC06C);
  (0xC058000011BC, 0xC06D); (0xC058000011BD, 0xC06E); (0xC058000011BE, 0xC06F);
  (0xC058000011BF, 0xC070); (0xC058000011C0, 0xC071); (0xC058000011C1, 0xC072);
  (0xC058000011C2, 0xC073); (0xC074000011A8, 0xC075); (0xC074000011A9, 0xC076);
  (0xC074000011AA, 0xC077); (0xC074000011AB, 0xC078); (0xC074000011AC, 0xC079);
  (0xC074000011AD, 0xC07A); (0xC074000011AE, 0xC07B); (0xC074000011AF, 0xC07C);
  (0xC074000011B0, 0xC07D); (0xC074000011B1, 0xC07E); (0xC074000011B2, 0xC07F);
  (0xC074000011B3, 0xC080); (0xC074000011B4, 0xC081); (0xC074000011B5, 0xC082);
  (0xC074000011B6, 0xC083); (0xC074000011B7, 0xC084); (0xC074000011B8, 0xC085);
  (0xC074000011B9, 0xC086); (0xC074000011BA, 0xC087); (0xC074000011BB, 0xC088);
  (0xC074000011BC, 0xC089); (0xC074000011BD, 0xC08A); (0xC074000011BE, 0xC08B);
  (0xC074000011BF, 0xC08C); (0xC074000011C0, 0xC08D); (0xC074000011C1, 0xC08E);
  (0xC074000011C2, 0xC08F); (0xC090000011A8, 0xC091); (0xC090000011A9, 0xC092);
  (0xC090000011AA, 0xC093); (0xC090000011AB, 0xC094); (0xC090000011AC, 0xC095);
  (0xC090000011AD, 0xC096); (0xC090000011AE, 0xC097); (0xC090000011AF, 0xC098);
  (0xC090000011B0, 0xC099); (0xC090000011B1, 0xC09A); (0xC090000011B2, 0xC09B);
  (0xC090000011B3, 0xC09C); (0xC090000011B4, 0xC09D); (0xC090000011B5, 0xC09E);
  (0xC090000011B6, 0xC09F); (0xC090000011B7, 0xC0A0); (0xC090000011B8, 0xC0A1);
  (0xC090000011B9, 0xC0A2); (0xC090000011BA, 0xC0A3); (0xC090000011BB, 0xC0A4);
  (0xC090000011BC, 0xC0A5); (0xC090000011BD, 0xC0A6); (0xC090000011BE, 0xC0A7);
  (0xC090000011BF, 0xC0A8); (0xC090000011C0, 0xC0A9); (0xC090000011C1, 0xC0AA);
  (0xC090000011C2, 0xC0AB); (0xC0AC000011A8, 0xC0AD); (0xC0AC000011A9, 0xC0AE);
  (0xC0AC000011AA, 0xC0AF); (0xC0AC000011AB, 0xC0B0); (0xC0AC000011AC, 0xC0B1);
  (0xC0AC000011AD, 0xC0B2); (0xC0AC000011AE, 0xC0B3); (0xC0AC000011AF, 0xC0B4);
  (0xC0AC000011B0, 0xC0B5); (0xC0AC000011B1, 0xC0B6); (0xC0AC000011B2, 0xC0B7);
  (0xC0AC000011B3, 0xC0B8); (0xC0AC000011B4, 0xC0B9); (0xC0AC000011B5, 0xC0BA);
  (0xC0AC000011B6, 0xC0BB); (0xC0AC000011B7, 0xC0BC); (0xC0AC000011B8, 0xC0BD);
  (0xC0AC000011B9, 0xC0BE); (0xC0AC000011BA, 0xC0BF); (0xC0AC000011BB, 0xC0C0) ].

Definition nfcCompose_43 : list (Z * Z) := [
  (0xC0AC000011BC, 0xC0C1); (0xC0AC000011BD, 0xC0C2); (0xC0AC000011BE, 0xC0C3);
  (0xC0AC000011BF, 0xC0C4); (0xC0AC000011C0, 0xC0C5); (0xC0AC000011C1, 0xC0C6);
  (0xC0AC000011C2, 0xC0C7); (0xC0C8000011A8, 0xC0C9); (0xC0C8000011A9, 0xC0CA);
  (0xC0C8000011AA, 0xC0CB); (0xC0C8000011AB, 0xC0CC); (0xC0C8000011AC, 0xC0CD);
  (0xC0C8000011AD, 0xC0CE); (0xC0C8000011AE, 0xC0CF); (0xC0C8000011AF, 0xC0D0);
  (0xC0C8000011B0, 0xC0D1); (0xC0C8000011B1, 0xC0D2); (0xC0C8000011B2, 0xC0D3);
  (0xC0C8000011B3, 0xC0D4); (0xC0C8000011B4, 0xC0D5); (0xC0C8000011B5, 0xC0D6);
  (0xC0C8000011B6, 0xC0D7); (0xC0C8000011B7, 0xC0D8); (0xC0C8000011B8, 0xC0D9);
  (0xC0C8000011B9, 0xC0DA); (0xC0C8000011BA, 0xC0DB); (0xC0C8000011BB, 0xC0DC);
  (0xC0C8000011BC, 0xC0DD); (0xC0C8000011BD, 0xC0DE); (0xC0C8000011BE, 0xC0DF);
  (0xC0C8000011BF, 0xC0E0); (0xC0C8000011C0, 0xC0E1); (0xC0C8000011C1, 0xC0E2);
  (0xC0C8000011C2, 0xC0E3); (0xC0E4000011A8, 0xC0E5); (0xC0E4000011A9, 0xC0E6);
  (0xC0E4000011AA, 0xC0E7); (0xC0E4000011AB, 0xC0E8); (0xC0E4000011AC, 0xC0E9);
  (0xC0E4000011AD, 0xC0EA); (0xC0E4000011AE, 0xC0EB); (0xC0E4000011AF, 0xC0EC);
  (0xC0E4000011B0, 0xC0ED); (0xC0E4000011B1, 0xC0EE); (0xC0E4000011B2, 0xC0EF);
  (0xC0E4000011B3, 0xC0F0); (0xC0E4000011B4, 0xC0F1); (0xC0E4000011B5, 0xC0F2);
  (0xC0E4000011B6, 0xC0F3); (0xC0E4000011B7, 0xC0F4); (0xC0E4000011B8, 0xC0F5);
  (0xC0E4000011B9, 0xC0F6); (0xC0E4000011BA, 0xC0F7); (0xC0E4000011BB, 0xC0F8);
  (0xC0E4000011BC, 0xC0F9); (0xC0E4000011BD, 0xC0FA); (0xC0E4000011BE, 0xC0FB);
  (0xC0E4000011BF, 0xC0FC); (0xC0E4000011C0, 0xC0FD); (0xC0E4000011C1, 0xC0FE);
  (0xC0E4000011C2, 0xC0FF); (0xC100000011A8, 0xC101); (0xC100000011A9, 0xC102);
  (0xC100000011AA, 0xC103); (0xC100000011AB, 0xC104); (0xC100000011AC, 0xC105);
  (0xC100000011AD, 0xC106); (0xC100000011AE, 0xC107); (0xC100000011AF, 0xC108);
  (0xC100000011B0, 0xC109); (0xC100000011B1, 0xC10A); (0xC100000011B2, 0xC10B);
  (0xC100000011B3, 0xC10C); (0xC100000011B4, 0xC10D); (0xC100000011B5, 0xC10E);
  (0xC100000011B6, 0xC10F); (0xC100000011B7, 0xC110); (0xC100000011B8, 0xC111);
  (0xC100000011B9, 0xC112); (0xC100000011BA, 0xC113); (0xC100000011BB, 0xC114);
  (0xC100000011BC, 0xC115); (0xC100000011BD, 0xC116); (0xC100000011BE, 0xC117);
  (0xC100000011BF, 0xC118); (0xC100000011C0, 0xC119); (0xC100000011C1, 0xC11A);
  (0xC100000011C2, 0xC11B); (0xC11C000011A8, 0xC11D); (0xC11C000011A9, 0xC11E);
  (0xC11C000011AA, 0xC11F); (0xC11C000011AB, 0xC120); (0xC11C000011AC, 0xC121);
  (0xC11C000011AD, 0xC122); (0xC11C000011AE, 0xC123); (0xC11C000011AF, 0xC124);
  (0xC11C000011B0, 0xC125); (0xC11C000011B1, 0xC126); (0xC11C000011B2, 0xC127);
  (0xC11C000011B3, 0xC128); (0xC11C000011B4, 0xC129); (0xC11C000011B5, 0xC12A);
  (0xC11C000011B6, 0xC12B); (0xC11C000011B7, 0xC12C); (0xC11C000011B8, 0xC12D);
  (0xC11C000011B9, 0xC12E); (0xC11C000011BA, 0xC12F); (0xC11C000011BB, 0xC130);
  (0xC11C000011BC, 0xC131); (0xC11C000011BD, 0xC132); (0xC11C000011BE, 0xC133);
  (0xC11C000011BF, 0xC134); (0xC11C000011C0, 0xC135); (0xC11C000011C1, 0xC136);
  (0xC11C000011C2, 0xC137); (0xC138000011A8, 0xC139); (0xC138000011A9, 0xC13A);
  (0xC138000011AA, 0xC13B); (0xC138000011AB, 0xC13C); (0xC138000011AC, 0xC13D);
  (0xC138000011AD, 0xC13E); (0xC138000011AE, 0xC13F); (0xC138000011AF, 0xC140);
  (0xC138000011B0, 0xC141); (0xC138000011B1, 0xC142); (0xC138000011B2, 0xC143);
  (0xC138000011B3, 0xC144); (0xC138000011B4, 0xC145); (0xC138000011B5, 0xC146);
  (0xC138000011B6, 0xC147); (0xC138000011B7, 0xC148); (0xC138000011B8, 0xC149);
  (0xC138000011B9, 0xC14A); (0xC138000011BA, 0xC14B); (0xC138000011BB, 0xC14C);
  (0xC138000011BC, 0xC14D); (0xC138000011BD, 0xC14E); (0xC138000011BE, 0xC14F);
  (0xC138000011BF, 0xC150); (0xC138000011C0, 0xC151); (0xC138000011C1, 0xC152);
  (0xC138000011C2, 0xC153); (0xC154000011A8, 0xC155); (0xC154000011A9, 0xC156);
  (0xC154000011AA, 0xC157); (0xC154000011AB, 0xC158); (0xC154000011AC, 0xC159);
  (0xC154000011AD, 0xC15A); (0xC154000011AE, 0xC15B); (0xC154000011AF, 0xC15C) ].

Definition nfcCompose_44 : list (Z * Z) := [
  (0xC154000011B0, 0xC15D); (0xC154000011B1, 0xC15E); (0xC154000011B2, 0xC15F);
  (0xC154000011B3, 0xC160); (0xC154000011B4, 0xC161); (0xC154000011B5, 0xC162);
  (0xC154000011B6, 0xC163); (0xC154000011B7, 0xC164); (0xC154000011B8, 0xC165);
  (0xC154000011B9, 0xC166); (0xC154000011BA, 0xC167); (0xC154000011BB, 0xC168);
  (0xC154000011BC, 0xC169); (0xC154000011BD, 0xC16A); (0xC154000011BE, 0xC16B);
  (0xC154000011BF, 0xC16C); (0xC154000011C0, 0xC16D); (0xC154000011C1, 0xC16E);
  (0xC154000011C2, 0xC16F); (0xC170000011A8, 0xC171); (0xC170000011A9, 0xC172);
  (0xC170000011AA, 0xC173); (0xC170000011AB, 0xC174); (0xC170000011AC, 0xC175);
  (0xC170000011AD, 0xC176); (0xC170000011AE, 0xC177); (0xC170000011AF, 0xC178);
  (0xC170000011B0, 0xC179); (0xC170000011B1, 0xC17A); (0xC170000011B2, 0xC17B);
  (0xC170000011B3, 0xC17C); (0xC170000011B4, 0xC17D); (0xC170000011B5, 0xC17E);
  (0xC170000011B6, 0xC17F); (0xC170000011B7, 0xC180); (0xC170000011B8, 0xC181);
  (0xC170000011B9, 0xC182); (0xC170000011BA, 0xC183); (0xC170000011BB, 0xC184);
  (0xC170000011BC, 0xC185); (0xC170000011BD, 0xC186); (0xC170000011BE, 0xC187);
  (0xC170000011BF, 0xC188); (0xC170000011C0, 0xC189); (0xC170000011C1, 0xC18A);
  (0xC170000011C2, 0xC18B); (0xC18C000011A8, 0xC18D); (0xC18C000011A9, 0xC18E);
  (0xC18C000011AA, 0xC18F); (0xC18C000011AB, 0xC190); (0xC18C000011AC, 0xC191);
  (0xC18C000011AD, 0xC192); (0xC18C000011AE, 0xC193); (0xC18C000011AF, 0xC194);
  (0xC18C000011B0, 0xC195); (0xC18C000011B1, 0xC196); (0xC18C000011B2, 0xC197);
  (0xC18C000011B3, 0xC198); (0xC18C000011B4, 0xC199); (0xC18C000011B5, 0xC19A);
  (0xC18C000011B6, 0xC19B); (0xC18C000011B7, 0xC19C); (0xC18C000011B8, 0xC19D);
  (0xC18C000011B9, 0xC19E); (0xC18C000011BA, 0xC19F); (0xC18C000011BB, 0xC1A0);
  (0xC18C000011BC, 0xC1A1); (0xC18C000011BD, 0xC1A2); (0xC18C000011BE, 0xC1A3);
  (0xC18C000011BF, 0xC1A4); (0xC18C000011C0, 0xC1A5); (0xC18C000011C1, 0xC1A6);
  (0xC18C000011C2, 0xC1A7); (0xC1A8000011A8, 0xC1A9); (0xC1A8000011A9, 0xC1AA);
  (0xC1A8000011AA, 0xC1AB); (0xC1A8000011AB, 0xC1AC); (0xC1A8000011AC, 0xC1AD);
  (0xC1A8000011AD, 0xC1AE); (0xC1A8000011AE, 0xC1AF); (0xC1A8000011AF, 0xC1B0);
  (0xC1A8000011B0, 0xC1B1); (0xC1A8000011B1, 0xC1B2); (0xC1A8000011B2, 0xC1B3);
  (0xC1A8000011B3, 0xC1B4); (0xC1A8000011B4, 0xC1B5); (0xC1A8000011B5, 0xC1B6);
  (0xC1A8000011B6, 0xC1B7); (0xC1A8000011B7, 0xC1B8); (0xC1A8000011B8, 0xC1B9);
  (0xC1A8000011B9, 0xC1BA); (0xC1A8000011BA, 0xC1BB); (0xC1A8000011BB, 0xC1BC);
  (0xC1A8000011BC, 0xC1BD); (0xC1A8000011BD, 0xC1BE); (0xC1A8000011BE, 0xC1BF);
  (0xC1A8000011BF, 0xC1C0); (0xC1A8000011C0, 0xC1C1); (0xC1A8000011C1, 0xC1C2);
  (0xC1A8000011C2, 0xC1C3); (0xC1C4000011A8, 0xC1C5); (0xC1C4000011A9, 0xC1C6);
  (0xC1C4000011AA, 0xC1C7); (0xC1C4000011AB, 0xC1C8); (0xC1C4000011AC, 0xC1C9);
  (0xC1C4000011AD, 0xC1CA); (0xC1C4000011AE, 0xC1CB); (0xC1C4000011AF, 0xC1CC);
  (0xC1C4000011B0, 0xC1CD); (0xC1C4000011B1, 0xC1CE); (0xC1C4000011B2, 0xC1CF);
  (0xC1C4000011B3, 0xC1D0); (0xC1C4000011B4, 0xC1D1); (0xC1C4000011B5, 0xC1D2);
  (0xC1C4000011B6, 0xC1D3); (0xC1C4000011B7, 0xC1D4); (0xC1C4000011B8, 0xC1D5);
  (0xC1C4000011B9, 0xC1D6); (0xC1C4000011BA, 0xC1D7); (0xC1C4000011BB, 0xC1D8);
  (0xC1C4000011BC, 0xC1D9); (0xC1C4000011BD, 0xC1DA); (0xC1C4000011BE, 0xC1DB);
  (0xC1C4000011BF, 0xC1DC); (0xC1C4000011C0, 0xC1DD); (0xC1C4000011C1, 0xC1DE);
  (0xC1C4000011C2, 0xC1DF); (0xC1E0000011A8, 0xC1E1); (0xC1E0000011A9, 0xC1E2);
  (0xC1E0000011AA, 0xC1E3); (0xC1E0000011AB, 0xC1E4); (0xC1E0000011AC, 0xC1E5);
  (0xC1E0000011AD, 0xC1E6); (0xC1E0000011AE, 0xC1E7); (0xC1E0000011AF, 0xC1E8);
  (0xC1E0000011B0, 0xC1E9); (0xC1E0000011B1, 0xC1EA); (0xC1E0000011B2, 0xC1EB);
  (0xC1E0000011B3, 0xC1EC); (0xC1E0000011B4, 0xC1ED); (0xC1E0000011B5, 0xC1EE);
  (0xC1E0000011B6, 0xC1EF); (0xC1E0000011B7, 0xC1F0); (0xC1E0000011B8, 0xC1F1);
  (0xC1E0000011B9, 0xC1F2); (0xC1E0000011BA, 0xC1F3); (0xC1E0000011BB, 0xC1F4);
  (0xC1E0000011BC, 0xC1F5); (0xC1E0000011BD, 0xC1F6); (0xC1E0000011BE, 0xC1F7) ].

Definition nfcCompose_45 : list (Z * Z) := [
  (0xC1E0000011BF, 0xC1F8); (0xC1E0000011C0, 0xC1F9); (0xC1E0000011C1, 0xC1FA);
  (0xC1E0000011C2, 0xC1FB); (0xC1FC000011A8, 0xC1FD); (0xC1FC000011A9, 0xC1FE);
  (0xC1FC000011AA, 0xC1FF); (0xC1FC000011AB, 0xC200); (0xC1FC000011AC, 0xC201);
  (0xC1FC000011AD, 0xC202); (0xC1FC000011AE, 0xC203); (0xC1FC000011AF, 0xC204);
  (0xC1FC000011B0, 0xC205); (0xC1FC000011B1, 0xC206); (0xC1FC000011B2, 0xC207);
  (0xC1FC000011B3, 0xC208); (0xC1FC000011B4, 0xC209); (0xC1FC000011B5, 0xC20A);
  (0xC1FC000011B6, 0xC20B); (0xC1FC000011B7, 0xC20C); (0xC1FC000011B8, 0xC20D);
  (0xC1FC000011B9, 0xC20E); (0xC1FC000011BA, 0xC20F); (0xC1FC000011BB, 0xC210);
  (0xC1FC000011BC, 0xC211); (0xC1FC000011BD, 0xC212); (0xC1FC000011BE, 0xC213);
  (0xC1FC000011BF, 0xC214); (0xC1FC000011C0, 0xC215); (0xC1FC000011C1, 0xC216);
  (0xC1FC000011C2, 0xC217); (0xC218000011A8, 0xC219); (0xC218000011A9, 0xC21A);
  (0xC218000011AA, 0xC21B); (0xC218000011AB, 0xC21C); (0xC218000011AC, 0xC21D);
  (0xC218000011AD, 0xC21E); (0xC218000011AE, 0xC21F); (0xC218000011AF, 0xC220);
  (0xC218000011B0, 0xC221); (0xC218000011B1, 0xC222); (0xC218000011B2, 0xC223);
  (0xC218000011B3, 0xC224); (0xC218000011B4, 0xC225); (0xC218000011B5, 0xC226);
  (0xC218000011B6, 0xC227); (0xC218000011B7, 0xC228); (0xC218000011B8, 0xC229);
  (0xC218000011B9, 0xC22A); (0xC218000011BA, 0xC22B); (0xC218000011BB, 0xC22C);
  (0xC218000011BC, 0xC22D); (0xC218000011BD, 0xC22E); (0xC218000011BE, 0xC22F);
  (0xC218000011BF, 0xC230); (0xC218000011C0, 0xC231); (0xC218000011C1, 0xC232);
  (0xC218000011C2, 0xC233); (0xC234000011A8, 0xC235); (0xC234000011A9, 0xC236);
  (0xC234000011AA, 0xC237); (0xC234000011AB, 0xC238); (0xC234000011AC, 0xC239);
  (0xC234000011AD, 0xC23A); (0xC234000011AE, 0xC23B); (0xC234000011AF, 0xC23C);
  (0xC234000011B0, 0xC23D); (0xC234000011B1, 0xC23E); (0xC234000011B2, 0xC23F);
  (0xC234000011B3, 0xC240); (0xC234000011B4, 0xC241); (0xC234000011B5, 0xC242);
  (0xC234000011B6, 0xC243); (0xC234000011B7, 0xC244); (0xC234000011B8, 0xC245);
  (0xC234000011B9, 0xC246); (0xC234000011BA, 0xC247); (0xC234000011BB, 0xC248);
  (0xC234000011BC, 0xC249); (0xC234000011BD, 0xC24A); (0xC234000011BE, 0xC24B);
  (0xC234000011BF, 0xC24C); (0xC234000011C0, 0xC24D); (0xC234000011C1, 0xC24E);
  (0xC234000011C2, 0xC24F); (0xC250000011A8, 0xC251); (0xC250000011A9, 0xC252);
  (0xC250000011AA, 0xC253); (0xC250000011AB, 0xC254); (0xC250000011AC, 0xC255);
  (0xC250000011AD, 0xC256); (0xC250000011AE, 0xC257); (0xC250000011AF, 0xC258);
  (0xC250000011B0, 0xC259); (0xC250000011B1, 0xC25A); (0xC250000011B2, 0xC25B);
  (0xC250000011B3, 0xC25C); (0xC250000011B4, 0xC25D); (0xC250000011B5, 0xC25E);
  (0xC250000011B6, 0xC25F); (0xC250000011B7, 0xC260); (0xC250000011B8, 0xC261);
  (0xC250000011B9, 0xC262); (0xC250000011BA, 0xC263); (0xC250000011BB, 0xC264);
  (0xC250000011BC, 0xC265); (0xC250000011BD, 0xC266); (0xC250000011BE, 0xC267);
  (0xC250000011BF, 0xC268); (0xC250000011C0, 0xC269); (0xC250000011C1, 0xC26A);
  (0xC250000011C2, 0xC26B); (0xC26C000011A8, 0xC26D); (0xC26C000011A9, 0xC26E);
  (0xC26C000011AA, 0xC26F); (0xC26C000011AB, 0xC270); (0xC26C000011AC, 0xC271);
  (0xC26C000011AD, 0xC272); (0xC26C000011AE, 0xC273); (0xC26C000011AF, 0xC274);
  (0xC26C000011B0, 0xC275); (0xC26C000011B1, 0xC276); (0xC26C000011B2, 0xC277);
  (0xC26C000011B3, 0xC278); (0xC26C000011B4, 0xC279); (0xC26C000011B5, 0xC27A);
  (0xC26C000011B6, 0xC27B); (0xC26C000011B7, 0xC27C); (0xC26C000011B8, 0xC27D);
  (0xC26C000011B9, 0xC27E); (0xC26C000011BA, 0xC27F); (0xC26C000011BB, 0xC280);
  (0xC26C000011BC, 0xC281); (0xC26C000011BD, 0xC282); (0xC26C000011BE, 0xC283);
  (0xC26C000011BF, 0xC284); (0xC26C000011C0, 0xC285); (0xC26C000011C1, 0xC286);
  (0xC26C000011C2, 0xC287); (0xC288000011A8, 0xC289); (0xC288000011A9, 0xC28A);
  (0xC288000011AA, 0xC28B); (0xC288000011AB, 0xC28C); (0xC288000011AC, 0xC28D);
  (0xC288000011AD, 0xC28E); (0xC288000011AE, 0xC28F); (0xC288000011AF, 0xC290);
  (0xC288000011B0, 0xC291); (0xC288000011B1, 0xC292); (0xC288000011B2, 0xC293) ].

Definition nfcCompose_46 : list (Z * Z) := [
  (0xC288000011B3, 0xC294); (0xC288000011B4, 0xC295); (0xC288000011B5, 0xC296);
  (0xC288000011B6, 0xC297); (0xC288000011B7, 0xC298); (0xC288000011B8, 0xC299);
  (0xC288000011B9, 0xC29A); (0xC288000011BA, 0xC29B); (0xC288000011BB, 0xC29C);
  (0xC288000011BC, 0xC29D); (0xC288000011BD, 0xC29E); (0xC288000011BE, 0xC29F);
  (0xC288000011BF, 0xC2A0); (0xC288000011C0, 0xC2A1); (0xC288000011C1, 0xC2A2);
  (0xC288000011C2, 0xC2A3); (0xC2A4000011A8, 0xC2A5); (0xC2A4000011A9, 0xC2A6);
  (0xC2A4000011AA, 0xC2A7); (0xC2A4000011AB, 0xC2A8); (0xC2A4000011AC, 0xC2A9);
  (0xC2A4000011AD, 0xC2AA); (0xC2A4000011AE, 0xC2AB); (0xC2A4000011AF, 0xC2AC);
  (0xC2A4000011B0, 0xC2AD); (0xC2A4000011B1, 0xC2AE); (0xC2A4000011B2, 0xC2AF);
  (0xC2A4000011B3, 0xC2B0); (0xC2A4000011B4, 0xC2B1); (0xC2A4000011B5, 0xC2B2);
  (0xC2A4000011B6, 0xC2B3); (0xC2A4000011B7, 0xC2B4); (0xC2A4000011B8, 0xC2B5);
  (0xC2A4000011B9, 0xC2B6); (0xC2A4000011BA, 0xC2B7); (0xC2A4000011BB, 0xC2B8);
  (0xC2A4000011BC, 0xC2B9); (0xC2A4000011BD, 0xC2BA); (0xC2A4000011BE, 0xC2BB);
  (0xC2A4000011BF, 0xC2BC); (0xC2A4000011C0, 0xC2BD); (0xC2A4000011C1, 0xC2BE);
  (0xC2A4000011C2, 0xC2BF); (0xC2C0000011A8, 0xC2C1); (0xC2C0000011A9, 0xC2C2);
  (0xC2C0000011AA, 0xC2C3); (0xC2C0000011AB, 0xC2C4); (0xC2C0000011AC, 0xC2C5);
  (0xC2C0000011AD, 0xC2C6); (0xC2C0000011AE, 0xC2C7); (0xC2C0000011AF, 0xC2C8);
  (0xC2C0000011B0, 0xC2C9); (0xC2C0000011B1, 0xC2CA); (0xC2C0000011B2, 0xC2CB);
  (0xC2C0000011B3, 0xC2CC); (0xC2C0000011B4, 0xC2CD); (0xC2C0000011B5, 0xC2CE);
  (0xC2C0000011B6, 0xC2CF); (0xC2C0000011B7, 0xC2D0); (0xC2C0000011B8, 0xC2D1);
  (0xC2C0000011B9, 0xC2D2); (0xC2C0000011BA, 0xC2D3); (0xC2C0000011BB, 0xC2D4);
  (0xC2C0000011BC, 0xC2D5); (0xC2C0000011BD, 0xC2D6); (0xC2C0000011BE, 0xC2D7);
  (0xC2C0000011BF, 0xC2D8); (0xC2C0000011C0, 0xC2D9); (0xC2C0000011C1, 0xC2DA);
  (0xC2C0000011C2, 0xC2DB); (0xC2DC000011A8, 0xC2DD); (0xC2DC000011A9, 0xC2DE);
  (0xC2DC000011AA, 0xC2DF); (0xC2DC000011AB, 0xC2E0); (0xC2DC000011AC, 0xC2E1);
  (0xC2DC000011AD, 0xC2E2); (0xC2DC000011AE, 0xC2E3); (0xC2DC000011AF, 0xC2E4);
  (0xC2DC000011B0, 0xC2E5); (0xC2DC000011B1, 0xC2E6); (0xC2DC000011B2, 0xC2E7);
  (0xC2DC000011B3, 0xC2E8); (0xC2DC000011B4, 0xC2E9); (0xC2DC000011B5, 0xC2EA);
  (0xC2DC000011B6, 0xC2EB); (0xC2DC000011B7, 0xC2EC); (0xC2DC000011B8, 0xC2ED);
  (0xC2DC000011B9, 0xC2EE); (0xC2DC000011BA, 0xC2EF); (0xC2DC000011BB, 0xC2F0);
  (0xC2DC000011BC, 0xC2F1); (0xC2DC000011BD, 0xC2F2); (0xC2DC000011BE, 0xC2F3);
  (0xC2DC000011BF, 0xC2F4); (0xC2DC000011C0, 0xC2F5); (0xC2DC000011C1, 0xC2F6);
  (0xC2DC000011C2, 0xC2F7); (0xC2F8000011A8, 0xC2F9); (0xC2F8000011A9, 0xC2FA);
  (0xC2F8000011AA, 0xC2FB); (0xC2F8000011AB, 0xC2FC); (0xC2F8000011AC, 0xC2FD);
  (0xC2F8000011AD, 0xC2FE); (0xC2F8000011AE, 0xC2FF); (0xC2F8000011AF, 0xC300);
  (0xC2F8000011B0, 0xC301); (0xC2F8000011B1, 0xC302); (0xC2F8000011B2, 0xC303);
  (0xC2F8000011B3, 0xC304); (0xC2F8000011B4, 0xC305); (0xC2F8000011B5, 0xC306);
  (0xC2F8000011B6, 0xC307); (0xC2F8000011B7, 0xC308); (0xC2F8000011B8, 0xC309);
  (0xC2F8000011B9, 0xC30A); (0xC2F8000011BA, 0xC30B); (0xC2F8000011BB, 0xC30C);
  (0xC2F8000011BC, 0xC30D); (0xC2F8000011BD, 0xC30E); (0xC2F8000011BE, 0xC30F);
  (0xC2F8000011BF, 0xC310); (0xC2F8000011C0, 0xC311); (0xC2F8000011C1, 0xC312);
  (0xC2F8000011C2, 0xC313); (0xC314000011A8, 0xC315); (0xC314000011A9, 0xC316);
  (0xC314000011AA, 0xC317); (0xC314000011AB, 0xC318); (0xC314000011AC, 0xC319);
  (0xC314000011AD, 0xC31A); (0xC314000011AE, 0xC31B); (0xC314000011AF, 0xC31C);
  (0xC314000011B0, 0xC31D); (0xC314000011B1, 0xC31E); (0xC314000011B2, 0xC31F);
  (0xC314000011B3, 0xC320); (0xC314000011B4, 0xC321); (0xC314000011B5, 0xC322);
  (0xC314000011B6, 0xC323); (0xC314000011B7, 0xC324); (0xC314000011B8, 0xC325);
  (0xC314000011B9, 0xC326); (0xC314000011BA, 0xC327); (0xC314000011BB, 0xC328);
  (0xC314000011BC, 0xC329); (0xC314000011BD, 0xC32A); (0xC314000011BE, 0xC32B);
  (0xC314000011BF, 0xC32C); (0xC314000011C0, 0xC32D); (0xC314000011C1, 0xC32E) ].

Definition nfcCompose_47 : list (Z * Z) := [
  (0xC314000011C2, 0xC32F); (0xC330000011A8, 0xC331); (0xC330000011A9, 0xC332);
  (0xC330000011AA, 0xC333); (0xC330000011AB, 0xC334); (0xC330000011AC, 0xC335);
  (0xC330000011AD, 0xC336); (0xC330000011AE, 0xC337); (0xC330000011AF, 0xC338);
  (0xC330000011B0, 0xC339); (0xC330000011B1, 0xC33A); (0xC330000011B2, 0xC33B);
  (0xC330000011B3, 0xC33C); (0xC330000011B4, 0xC33D); (0xC330000011B5, 0xC33E);
  (0xC330000011B6, 0xC33F); (0xC330000011B7, 0xC340); (0xC330000011B8, 0xC341);
  (0xC330000011B9, 0xC342); (0xC330000011BA, 0xC343); (0xC330000011BB, 0xC344);
  (0xC330000011BC, 0xC345); (0xC330000011BD, 0xC346); (0xC330000011BE, 0xC347);
  (0xC330000011BF, 0xC348); (0xC330000011C0, 0xC349); (0xC330000011C1, 0xC34A);
  (0xC330000011C2, 0xC34B); (0xC34C000011A8, 0xC34D); (0xC34C000011A9, 0xC34E);
  (0xC34C000011AA, 0xC34F); (0xC34C000011AB, 0xC350); (0xC34C000011AC, 0xC351);
  (0xC34C000011AD, 0xC352); (0xC34C000011AE, 0xC353); (0xC34C000011AF, 0xC354);
  (0xC34C000011B0, 0xC355); (0xC34C000011B1, 0xC356); (0xC34C000011B2, 0xC357);
  (0xC34C000011B3, 0xC358); (0xC34C000011B4, 0xC359); (0xC34C000011B5, 0xC35A);
  (0xC34C000011B6, 0xC35B); (0xC34C000011B7, 0xC35C); (0xC34C000011B8, 0xC35D);
  (0xC34C000011B9, 0xC35E); (0xC34C000011BA, 0xC35F); (0xC34C000011BB, 0xC360);
  (0xC34C000011BC, 0xC361); (0xC34C000011BD, 0xC362); (0xC34C000011BE, 0xC363);
  (0xC34C000011BF, 0xC364); (0xC34C000011C0, 0xC365); (0xC34C000011C1, 0xC366);
  (0xC34C000011C2, 0xC367); (0xC368000011A8, 0xC369); (0xC368000011A9, 0xC36A);
  (0xC368000011AA, 0xC36B); (0xC368000011AB, 0xC36C); (0xC368000011AC, 0xC36D);
  (0xC368000011AD, 0xC36E); (0xC368000011AE, 0xC36F); (0xC368000011AF, 0xC370);
  (0xC368000011B0, 0xC371); (0xC368000011B1, 0xC372); (0xC368000011B2, 0xC373);
  (0xC368000011B3, 0xC374); (0xC368000011B4, 0xC375); (0xC368000011B5, 0xC376);
  (0xC368000011B6, 0xC377); (0xC368000011B7, 0xC378); (0xC368000011B8, 0xC379);
  (0xC368000011B9, 0xC37A); (0xC368000011BA, 0xC37B); (0xC368000011BB, 0xC37C);
  (0xC368000011BC, 0xC37D); (0xC368000011BD, 0xC37E); (0xC368000011BE, 0xC37F);
  (0xC368000011BF, 0xC380); (0xC368000011C0, 0xC381); (0xC368000011C1, 0xC382);
  (0xC368000011C2, 0xC383); (0xC384000011A8, 0xC385); (0xC384000011A9, 0xC386);
  (0xC384000011AA, 0xC387); (0xC384000011AB, 0xC388); (0xC384000011AC, 0xC389);
  (0xC384000011AD, 0xC38A); (0xC384000011AE, 0xC38B); (0xC384000011AF, 0xC38C);
  (0xC384000011B0, 0xC38D); (0xC384000011B1, 0xC38E); (0xC384000011B2, 0xC38F);
  (0xC384000011B3, 0xC390); (0xC384000011B4, 0xC391); (0xC384000011B5, 0xC392);
  (0xC384000011B6, 0xC393); (0xC384000011B7, 0xC394); (0xC384000011B8, 0xC395);
  (0xC384000011B9, 0xC396); (0xC384000011BA, 0xC397); (0xC384000011BB, 0xC398);
  (0xC384000011BC, 0xC399); (0xC384000011BD, 0xC39A); (0xC384000011BE, 0xC39B);
  (0xC384000011BF, 0xC39C); (0xC384000011C0, 0xC39D); (0xC384000011C1, 0xC39E);
  (0xC384000011C2, 0xC39F); (0xC3A0000011A8, 0xC3A1); (0xC3A0000011A9, 0xC3A2);
  (0xC3A0000011AA, 0xC3A3); (0xC3A0000011AB, 0xC3A4); (0xC3A0000011AC, 0xC3A5);
  (0xC3A0000011AD, 0xC3A6); (0xC3A0000011AE, 0xC3A7); (0xC3A0000011AF, 0xC3A8);
  (0xC3A0000011B0, 0xC3A9); (0xC3A0000011B1, 0xC3AA); (0xC3A0000011B2, 0xC3AB);
  (0xC3A0000011B3, 0xC3AC); (0xC3A0000011B4, 0xC3AD); (0xC3A0000011B5, 0xC3AE);
  (0xC3A0000011B6, 0xC3AF); (0xC3A0000011B7, 0xC3B0); (0xC3A0000011B8, 0xC3B1);
  (0xC3A0000011B9, 0xC3B2); (0xC3A0000011BA, 0xC3B3); (0xC3A0000011BB, 0xC3B4);
  (0xC3A0000011BC, 0xC3B5); (0xC3A0000011BD, 0xC3B6); (0xC3A0000011BE, 0xC3B7);
  (0xC3A0000011BF, 0xC3B8); (0xC3A0000011C0, 0xC3B9); (0xC3A0000011C1, 0xC3BA);
  (0xC3A0000011C2, 0xC3BB); (0xC3BC000011A8, 0xC3BD); (0xC3BC000011A9, 0xC3BE);
  (0xC3BC000011AA, 0xC3BF); (0xC3BC000011AB, 0xC3C0); (0xC3BC000011AC, 0xC3C1);
  (0xC3BC000011AD, 0xC3C2); (0xC3BC000011AE, 0xC3C3); (0xC3BC000011AF, 0xC3C4);
  (0xC3BC000011B0, 0xC3C5); (0xC3BC000011B1, 0xC3C6); (0xC3BC000011B2, 0xC3C7);
  (0xC3BC000011B3, 0xC3C8); (0xC3BC000011B4, 0xC3C9); (0xC3BC000011B5, 0xC3CA) ].

Definition nfcCompose_48 : list (Z * Z) := [
  (0xC3BC000011B6, 0xC3CB); (0xC3BC000011B7, 0xC3CC); (0xC3BC000011B8, 0xC3CD);
  (0xC3BC000011B9, 0xC3CE); (0xC3BC000011BA, 0xC3CF); (0xC3BC000011BB, 0xC3D0);
  (0xC3BC000011BC, 0xC3D1); (0xC3BC000011BD, 0xC3D2); (0xC3BC000011BE, 0xC3D3);
  (0xC3BC000011BF, 0xC3D4); (0xC3BC000011C0, 0xC3D5); (0xC3BC000011C1, 0xC3D6);
  (0xC3BC000011C2, 0xC3D7); (0xC3D8000011A8, 0xC3D9); (0xC3D8000011A9, 0xC3DA);
  (0xC3D8000011AA, 0xC3DB); (0xC3D8000011AB, 0xC3DC); (0xC3D8000011AC, 0xC3DD);
  (0xC3D8000011AD, 0xC3DE); (0xC3D8000011AE, 0xC3DF); (0xC3D8000011AF, 0xC3E0);
  (0xC3D8000011B0, 0xC3E1); (0xC3D8000011B1, 0xC3E2); (0xC3D8000011B2, 0xC3E3);
  (0xC3D8000011B3, 0xC3E4); (0xC3D8000011B4, 0xC3E5); (0xC3D8000011B5, 0xC3E6);
  (0xC3D8000011B6, 0xC3E7); (0xC3D8000011B7, 0xC3E8); (0xC3D8000011B8, 0xC3E9);
  (0xC3D8000011B9, 0xC3EA); (0xC3D8000011BA, 0xC3EB); (0xC3D8000011BB, 0xC3EC);
  (0xC3D8000011BC, 0xC3ED); (0xC3D8000011BD, 0xC3EE); (0xC3D8000011BE, 0xC3EF);
  (0xC3D8000011BF, 0xC3F0); (0xC3D8000011C0, 0xC3F1); (0xC3D8000011C1, 0xC3F2);
  (0xC3D8000011C2, 0xC3F3); (0xC3F4000011A8, 0xC3F5); (0xC3F4000011A9, 0xC3F6);
  (0xC3F4000011AA, 0xC3F7); (0xC3F4000011AB, 0xC3F8); (0xC3F4000011AC, 0xC3F9);
  (0xC3F4000011AD, 0xC3FA); (0xC3F4000011AE, 0xC3FB); (0xC3F4000011AF, 0xC3FC);
  (0xC3F4000011B0, 0xC3FD); (0xC3F4000011B1, 0xC3FE); (0xC3F4000011B2, 0xC3FF);
  (0xC3F4000011B3, 0xC400); (0xC3F4000011B4, 0xC401); (0xC3F4000011B5, 0xC402);
  (0xC3F4000011B6, 0xC403); (0xC3F4000011B7, 0xC404); (0xC3F4000011B8, 0xC405);
  (0xC3F4000011B9, 0xC406); (0xC3F4000011BA, 0xC407); (0xC3F4000011BB, 0xC408);
  (0xC3F4000011BC, 0xC409); (0xC3F4000011BD, 0xC40A); (0xC3F4000011BE, 0xC40B);
  (0xC3F4000011BF, 0xC40C); (0xC3F4000011C0, 0xC40D); (0xC3F4000011C1, 0xC40E);
  (0xC3F4000011C2, 0xC40F); (0xC410000011A8, 0xC411); (0xC410000011A9, 0xC412);
  (0xC410000011AA, 0xC413); (0xC410000011AB, 0xC414); (0xC410000011AC, 0xC415);
  (0xC410000011AD, 0xC416); (0xC410000011AE, 0xC417); (0xC410000011AF, 0xC418);
  (0xC410000011B0, 0xC419); (0xC410000011B1, 0xC41A); (0xC410000011B2, 0xC41B);
  (0xC410000011B3, 0xC41C); (0xC410000011B4, 0xC41D); (0xC410000011B5, 0xC41E);
  (0xC410000011B6, 0xC41F); (0xC410000011B7, 0xC420); (0xC410000011B8, 0xC421);
  (0xC410000011B9, 0xC422); (0xC410000011BA, 0xC423); (0xC410000011BB, 0xC424);
  (0xC410000011BC, 0xC425); (0xC410000011BD, 0xC426); (0xC410000011BE, 0xC427);
  (0xC410000011BF, 0xC428); (0xC410000011C0, 0xC429); (0xC410000011C1, 0xC42A);
  (0xC410000011C2, 0xC42B); (0xC42C000011A8, 0xC42D); (0xC42C000011A9, 0xC42E);
  (0xC42C000011AA, 0xC42F); (0xC42C000011AB, 0xC430); (0xC42C000011AC, 0xC431);
  (0xC42C000011AD, 0xC432); (0xC42C000011AE, 0xC433); (0xC42C000011AF, 0xC434);
  (0xC42C000011B0, 0xC435); (0xC42C000011B1, 0xC436); (0xC42C000011B2, 0xC437);
  (0xC42C000011B3, 0xC438); (0xC42C000011B4, 0xC439); (0xC42C000011B5, 0xC43A);
  (0xC42C000011B6, 0xC43B); (0xC42C000011B7, 0xC43C); (0xC42C000011B8, 0xC43D);
  (0xC42C000011B9, 0xC43E); (0xC42C000011BA, 0xC43F); (0xC42C000011BB, 0xC440);
  (0xC42C000011BC, 0xC441); (0xC42C000011BD, 0xC442); (0xC42C000011BE, 0xC443);
  (0xC42C000011BF, 0xC444); (0xC42C000011C0, 0xC445); (0xC42C000011C1, 0xC446);
  (0xC42C000011C2, 0xC447); (0xC448000011A8, 0xC449); (0xC448000011A9, 0xC44A);
  (0xC448000011AA, 0xC44B); (0xC448000011AB, 0xC44C); (0xC448000011AC, 0xC44D);
  (0xC448000011AD, 0xC44E); (0xC448000011AE, 0xC44F); (0xC448000011AF, 0xC450);
  (0xC448000011B0, 0xC451); (0xC448000011B1, 0xC452); (0xC448000011B2, 0xC453);
  (0xC448000011B3, 0xC454); (0xC448000011B4, 0xC455); (0xC448000011B5, 0xC456);
  (0xC448000011B6, 0xC457); (0xC448000011B7, 0xC458); (0xC448000011B8, 0xC459);
  (0xC448000011B9, 0xC45A); (0xC448000011BA, 0xC45B); (0xC448000011BB, 0xC45C);
  (0xC448000011BC, 0xC45D); (0xC448000011BD, 0xC45E); (0xC448000011BE, 0xC45F);
  (0xC448000011BF, 0xC460); (0xC448000011C0, 0xC461); (0xC448000011C1, 0xC462);
  (0xC448000011C2, 0xC463); (0xC464000011A8, 0xC465); (0xC464000011A9, 0xC466) ].

Definition nfcCompose_49 : list (Z * Z) := [
  (0xC464000011AA, 0xC467); (0xC464000011AB, 0xC468); (0xC464000011AC, 0xC469);
  (0xC464000011AD, 0xC46A); (0xC464000011AE, 0xC46B); (0xC464000011AF, 0xC46C);
  (0xC464000011B0, 0xC46D); (0xC464000011B1, 0xC46E); (0xC464000011B2, 0xC46F);
  (0xC464000011B3, 0xC470); (0xC464000011B4, 0xC471); (0xC464000011B5, 0xC472);
  (0xC464000011B6, 0xC473); (0xC464000011B7, 0xC474); (0xC464000011B8, 0xC475);
  (0xC464000011B9, 0xC476); (0xC464000011BA, 0xC477); (0xC464000011BB, 0xC478);
  (0xC464000011BC, 0xC479); (0xC464000011BD, 0xC47A); (0xC464000011BE, 0xC47B);
  (0xC464000011BF, 0xC47C); (0xC464000011C0, 0xC47D); (0xC464000011C1, 0xC47E);
  (0xC464000011C2, 0xC47F); (0xC480000011A8, 0xC481); (0xC480000011A9, 0xC482);
  (0xC480000011AA, 0xC483); (0xC480000011AB, 0xC484); (0xC480000011AC, 0xC485);
  (0xC480000011AD, 0xC486); (0xC480000011AE, 0xC487); (0xC480000011AF, 0xC488);
  (0xC480000011B0, 0xC489); (0xC480000011B1, 0xC48A); (0xC480000011B2, 0xC48B);
  (0xC480000011B3, 0xC48C); (0xC480000011B4, 0xC48D); (0xC480000011B5, 0xC48E);
  (0xC480000011B6, 0xC48F); (0xC480000011B7, 0xC490); (0xC480000011B8, 0xC491);
  (0xC480000011B9, 0xC492); (0xC480000011BA, 0xC493); (0xC480000011BB, 0xC494);
  (0xC480000011BC, 0xC495); (0xC480000011BD, 0xC496); (0xC480000011BE, 0xC497);
  (0xC480000011BF, 0xC498); (0xC480000011C0, 0xC499); (0xC480000011C1, 0xC49A);
  (0xC480000011C2, 0xC49B); (0xC49C000011A8, 0xC49D); (0xC49C000011A9, 0xC49E);
  (0xC49C000011AA, 0xC49F); (0xC49C000011AB, 0xC4A0); (0xC49C000011AC, 0xC4A1);
  (0xC49C000011AD, 0xC4A2); (0xC49C000011AE, 0xC4A3); (0xC49C000011AF, 0xC4A4);
  (0xC49C000011B0, 0xC4A5); (0xC49C000011B1, 0xC4A6); (0xC49C000011B2, 0xC4A7);
  (0xC49C000011B3, 0xC4A8); (0xC49C000011B4, 0xC4A9); (0xC49C000011B5, 0xC4AA);
  (0xC49C000011B6, 0xC4AB); (0xC49C000011B7, 0xC4AC); (0xC49C000011B8, 0xC4AD);
  (0xC49C000011B9, 0xC4AE); (0xC49C000011BA, 0xC4AF); (0xC49C000011BB, 0xC4B0);
  (0xC49C000011BC, 0xC4B1); (0xC49C000011BD, 0xC4B2); (0xC49C000011BE, 0xC4B3);
  (0xC49C000011BF, 0xC4B4); (0xC49C000011C0, 0xC4B5); (0xC49C000011C1, 0xC4B6);
  (0xC49C000011C2, 0xC4B7); (0xC4B8000011A8, 0xC4B9); (0xC4B8000011A9, 0xC4BA);
  (0xC4B8000011AA, 0xC4BB); (0xC4B8000011AB, 0xC4BC); (0xC4B8000011AC, 0xC4BD);
  (0xC4B8000011AD, 0xC4BE); (0xC4B8000011AE, 0xC4BF); (0xC4B8000011AF, 0xC4C0);
  (0xC4B8000011B0, 0xC4C1); (0xC4B8000011B1, 0xC4C2); (0xC4B8000011B2, 0xC4C3);
  (0xC4B8000011B3, 0xC4C4); (0xC4B8000011B4, 0xC4C5); (0xC4B8000011B5, 0xC4C6);
  (0xC4B8000011B6, 0xC4C7); (0xC4B8000011B7, 0xC4C8); (0xC4B8000011B8, 0xC4C9);
  (0xC4B8000011B9, 0xC4CA); (0xC4B8000011BA, 0xC4CB); (0xC4B8000011BB, 0xC4CC);
  (0xC4B8000011BC, 0xC4CD); (0xC4B8000011BD, 0xC4CE); (0xC4B8000011BE, 0xC4CF);
  (0xC4B8000011BF, 0xC4D0); (0xC4B8000011C0, 0xC4D1); (0xC4B8000011C1, 0xC4D2);
  (0xC4B8000011C2, 0xC4D3); (0xC4D4000011A8, 0xC4D5); (0xC4D4000011A9, 0xC4D6);
  (0xC4D4000011AA, 0xC4D7); (0xC4D4000011AB, 0xC4D8); (0xC4D4000011AC, 0xC4D9);
  (0xC4D4000011AD, 0xC4DA); (0xC4D4000011AE, 0xC4DB); (0xC4D4000011AF, 0xC4DC);
  (0xC4D4000011B0, 0xC4DD); (0xC4D4000011B1, 0xC4DE); (0xC4D4000011B2, 0xC4DF);
  (0xC4D4000011B3, 0xC4E0); (0xC4D4000011B4, 0xC4E1); (0xC4D4000011B5, 0xC4E2);
  (0xC4D4000011B6, 0xC4E3); (0xC4D4000011B7, 0xC4E4); (0xC4D4000011B8, 0xC4E5);
  (0xC4D4000011B9, 0xC4E6); (0xC4D4000011BA, 0xC4E7); (0xC4D4000011BB, 0xC4E8);
  (0xC4D4000011BC, 0xC4E9); (0xC4D4000011BD, 0xC4EA); (0xC4D4000011BE, 0xC4EB);
  (0xC4D4000011BF, 0xC4EC); (0xC4D4000011C0, 0xC4ED); (0xC4D4000011C1, 0xC4EE);
  (0xC4D4000011C2, 0xC4EF); (0xC4F0000011A8, 0xC4F1); (0xC4F0000011A9, 0xC4F2);
  (0xC4F0000011AA, 0xC4F3); (0xC4F0000011AB, 0xC4F4); (0xC4F0000011AC, 0xC4F5);
  (0xC4F0000011AD, 0xC4F6); (0xC4F0000011AE, 0xC4F7); (0xC4F0000011AF, 0xC4F8);
  (0xC4F0000011B0, 0xC4F9); (0xC4F0000011B1, 0xC4FA); (0xC4F0000011B2, 0xC4FB);
  (0xC4F0000011B3, 0xC4FC); (0xC4F0000011B4, 0xC4FD); (0xC4F0000011B5, 0xC4FE);
  (0xC4F0000011B6, 0xC4FF); (0xC4F0000011B7, 0xC500); (0xC4F0000011B8, 0xC501) ].

Definition nfcCompose_50 : list (Z * Z) := [
  (0xC4F0000011B9, 0xC502); (0xC4F0000011BA, 0xC503); (0xC4F0000011BB, 0xC504);
  (0xC4F0000011BC, 0xC505); (0xC4F0000011BD, 0xC506); (0xC4F0000011BE, 0xC507);
  (0xC4F0000011BF, 0xC508); (0xC4F0000011C0, 0xC509); (0xC4F0000011C1, 0xC50A);
  (0xC4F0000011C2, 0xC50B); (0xC50C000011A8, 0xC50D); (0xC50C000011A9, 0xC50E);
  (0xC50C000011AA, 0xC50F); (0xC50C000011AB, 0xC510); (0xC50C000011AC, 0xC511);
  (0xC50C000011AD, 0xC512); (0xC50C000011AE, 0xC513); (0xC50C000011AF, 0xC514);
  (0xC50C000011B0, 0xC515); (0xC50C000011B1, 0xC516); (0xC50C000011B2, 0xC517);
  (0xC50C000011B3, 0xC518); (0xC50C000011B4, 0xC519); (0xC50C000011B5, 0xC51A);
  (0xC50C000011B6, 0xC51B); (0xC50C000011B7, 0xC51C); (0xC50C000011B8, 0xC51D);
  (0xC50C000011B9, 0xC51E); (0xC50C000011BA, 0xC51F); (0xC50C000011BB, 0xC520);
  (0xC50C000011BC, 0xC521); (0xC50C000011BD, 0xC522); (0xC50C000011BE, 0xC523);
  (0xC50C000011BF, 0xC524); (0xC50C000011C0, 0xC525); (0xC50C000011C1, 0xC526);
  (0xC50C000011C2, 0xC527); (0xC528000011A8, 0xC529); (0xC528000011A9, 0xC52A);
  (0xC528000011AA, 0xC52B); (0xC528000011AB, 0xC52C); (0xC528000011AC, 0xC52D);
  (0xC528000011AD, 0xC52E); (0xC528000011AE, 0xC52F); (0xC528000011AF, 0xC530);
  (0xC528000011B0, 0xC531); (0xC528000011B1, 0xC532); (0xC528000011B2, 0xC533);
  (0xC528000011B3, 0xC534); (0xC528000011B4, 0xC535); (0xC528000011B5, 0xC536);
  (0xC528000011B6, 0xC537); (0xC528000011B7, 0xC538); (0xC528000011B8, 0xC539);
  (0xC528000011B9, 0xC53A); (0xC528000011BA, 0xC53B); (0xC528000011BB, 0xC53C);
  (0xC528000011BC, 0xC53D); (0xC528000011BD, 0xC53E); (0xC528000011BE, 0xC53F);
  (0xC528000011BF, 0xC540); (0xC528000011C0, 0xC541); (0xC528000011C1, 0xC542);
  (0xC528000011C2, 0xC543); (0xC544000011A8, 0xC545); (0xC544000011A9, 0xC546);
  (0xC544000011AA, 0xC547); (0xC544000011AB, 0xC548); (0xC544000011AC, 0xC549);
  (0xC544000011AD, 0xC54A); (0xC544000011AE, 0xC54B); (0xC544000011AF, 0xC54C);
  (0xC544000011B0, 0xC54D); (0xC544000011B1, 0xC54E); (0xC544000011B2, 0xC54F);
  (0xC544000011B3, 0xC550); (0xC544000011B4, 0xC551); (0xC544000011B5, 0xC552);
  (0xC544000011B6, 0xC553); (0xC544000011B7, 0xC554); (0xC544000011B8, 0xC555);
  (0xC544000011B9, 0xC556); (0xC544000011BA, 0xC557); (0xC544000011BB, 0xC558);
  (0xC544000011BC, 0xC559); (0xC544000011BD, 0xC55A); (0xC544000011BE, 0xC55B);
  (0xC544000011BF, 0xC55C); (0xC544000011C0, 0xC55D); (0xC544000011C1, 0xC55E);
  (0xC544000011C2, 0xC55F); (0xC560000011A8, 0xC561); (0xC560000011A9, 0xC562);
  (0xC560000011AA, 0xC563); (0xC560000011AB, 0xC564); (0xC560000011AC, 0xC565);
  (0xC560000011AD, 0xC566); (0xC560000011AE, 0xC567); (0xC560000011AF, 0xC568);
  (0xC560000011B0, 0xC569); (0xC560000011B1, 0xC56A); (0xC560000011B2, 0xC56B);
  (0xC560000011B3, 0xC56C); (0xC560000011B4, 0xC56D); (0xC560000011B5, 0xC56E);
  (0xC560000011B6, 0xC56F); (0xC560000011B7, 0xC570); (0xC560000011B8, 0xC571);
  (0xC560000011B9, 0xC572); (0xC560000011BA, 0xC573); (0xC560000011BB, 0xC574);
  (0xC560000011BC, 0xC575); (0xC560000011BD, 0xC576); (0xC560000011BE, 0xC577);
  (0xC560000011BF, 0xC578); (0xC560000011C0, 0xC579); (0xC560000011C1, 0xC57A);
  (0xC560000011C2, 0xC57B); (0xC57C000011A8, 0xC57D); (0xC57C000011A9, 0xC57E);
  (0xC57C000011AA, 0xC57F); (0xC57C000011AB, 0xC580); (0xC57C000011AC, 0xC581);
  (0xC57C000011AD, 0xC582); (0xC57C000011AE, 0xC583); (0xC57C000011AF, 0xC584);
  (0xC57C000011B0, 0xC585); (0xC57C000011B1, 0xC586); (0xC57C000011B2, 0xC587);
  (0xC57C000011B3, 0xC588); (0xC57C000011B4, 0xC589); (0xC57C000011B5, 0xC58A);
  (0xC57C000011B6, 0xC58B); (0xC57C000011B7, 0xC58C); (0xC57C000011B8, 0xC58D);
  (0xC57C000011B9, 0xC58E); (0xC57C000011BA, 0xC58F); (0xC57C000011BB, 0xC590);
  (0xC57C000011BC, 0xC591); (0xC57C000011BD, 0xC592); (0xC57C000011BE, 0xC593);
  (0xC57C000011BF, 0xC594); (0xC57C000011C0, 0xC595); (0xC57C000011C1, 0xC596);
  (0xC57C000011C2, 0xC597); (0xC598000011A8, 0xC599); (0xC598000011A9, 0xC59A);
  (0xC598000011AA, 0xC59B); (0xC598000011AB, 0xC59C); (0xC598000011AC, 0xC59D) ].

Definition nfcCompose_51 : list (Z * Z) := [
  (0xC598000011AD, 0xC59E); (0xC598000011AE, 0xC59F); (0xC598000011AF, 0xC5A0);
  (0xC598000011B0, 0xC5A1); (0xC598000011B1, 0xC5A2); (0xC598000011B2, 0xC5A3);
  (0xC598000011B3, 0xC5A4); (0xC598000011B4, 0xC5A5); (0xC598000011B5, 0xC5A6);
  (0xC598000011B6, 0xC5A7); (0xC598000011B7, 0xC5A8); (0xC598000011B8, 0xC5A9);
  (0xC598000011B9, 0xC5AA); (0xC598000011BA, 0xC5AB); (0xC598000011BB, 0xC5AC);
  (0xC598000011BC, 0xC5AD); (0xC598000011BD, 0xC5AE); (0xC598000011BE, 0xC5AF);
  (0xC598000011BF, 0xC5B0); (0xC598000011C0, 0xC5B1); (0xC598000011C1, 0xC5B2);
  (0xC598000011C2, 0xC5B3); (0xC5B4000011A8, 0xC5B5); (0xC5B4000011A9, 0xC5B6);
  (0xC5B4000011AA, 0xC5B7); (0xC5B4000011AB, 0xC5B8); (0xC5B4000011AC, 0xC5B9);
  (0xC5B4000011AD, 0xC5BA); (0xC5B4000011AE, 0xC5BB); (0xC5B4000011AF, 0xC5BC);
  (0xC5B4000011B0, 0xC5BD); (0xC5B4000011B1, 0xC5BE); (0xC5B4000011B2, 0xC5BF);
  (0xC5B4000011B3, 0xC5C0); (0xC5B4000011B4, 0xC5C1); (0xC5B4000011B5, 0xC5C2);
  (0xC5B4000011B6, 0xC5C3); (0xC5B4000011B7, 0xC5C4); (0xC5B4000011B8, 0xC5C5);
  (0xC5B4000011B9, 0xC5C6); (0xC5B4000011BA, 0xC5C7); (0xC5B4000011BB, 0xC5C8);
  (0xC5B4000011BC, 0xC5C9); (0xC5B4000011BD, 0xC5CA); (0xC5B4000011BE, 0xC5CB);
  (0xC5B4000011BF, 0xC5CC); (0xC5B4000011C0, 0xC5CD); (0xC5B4000011C1, 0xC5CE);
  (0xC5B4000011C2, 0xC5CF); (0xC5D0000011A8, 0xC5D1); (0xC5D0000011A9, 0xC5D2);
  (0xC5D0000011AA, 0xC5D3); (0xC5D0000011AB, 0xC5D4); (0xC5D0000011AC, 0xC5D5);
  (0xC5D0000011AD, 0xC5D6); (0xC5D0000011AE, 0xC5D7); (0xC5D0000011AF, 0xC5D8);
  (0xC5D0000011B0, 0xC5D9); (0xC5D0000011B1, 0xC5DA); (0xC5D0000011B2, 0xC5DB);
  (0xC5D0000011B3, 0xC5DC); (0xC5D0000011B4, 0xC5DD); (0xC5D0000011B5, 0xC5DE);
  (0xC5D0000011B6, 0xC5DF); (0xC5D0000011B7, 0xC5E0); (0xC5D0000011B8, 0xC5E1);
  (0xC5D0000011B9, 0xC5E2); (0xC5D0000011BA, 0xC5E3); (0xC5D0000011BB, 0xC5E4);
  (0xC5D0000011BC, 0xC5E5); (0xC5D0000011BD, 0xC5E6); (0xC5D0000011BE, 0xC5E7);
  (0xC5D0000011BF, 0xC5E8); (0xC5D0000011C0, 0xC5E9); (0xC5D0000011C1, 0xC5EA);
  (0xC5D0000011C2, 0xC5EB); (0xC5EC000011A8, 0xC5ED); (0xC5EC000011A9, 0xC5EE);
  (0xC5EC000011AA, 0xC5EF); (0xC5EC000011AB, 0xC5F0); (0xC5EC000011AC, 0xC5F1);
  (0xC5EC000011AD, 0xC5F2); (0xC5EC000011AE, 0xC5F3); (0xC5EC000011AF, 0xC5F4);
  (0xC5EC000011B0, 0xC5F5); (0xC5EC000011B1, 0xC5F6); (0xC5EC000011B2, 0xC5F7);
  (0xC5EC000011B3, 0xC5F8); (0xC5EC000011B4, 0xC5F9); (0xC5EC000011B5, 0xC5FA);
  (0xC5EC000011B6, 0xC5FB); (0xC5EC000011B7, 0xC5FC); (0xC5EC000011B8, 0xC5FD);
  (0xC5EC000011B9, 0xC5FE); (0xC5EC000011BA, 0xC5FF); (0xC5EC000011BB, 0xC600);
  (0xC5EC000011BC, 0xC601); (0xC5EC000011BD, 0xC602); (0xC5EC000011BE, 0xC603);
  (0xC5EC000011BF, 0xC604); (0xC5EC000011C0, 0xC605); (0xC5EC000011C1, 0xC606);
  (0xC5EC000011C2, 0xC607); (0xC608000011A8, 0xC609); (0xC608000011A9, 0xC60A);
  (0xC608000011AA, 0xC60B); (0xC608000011AB, 0xC60C); (0xC608000011AC, 0xC60D);
  (0xC608000011AD, 0xC60E); (0xC608000011AE, 0xC60F); (0xC608000011AF, 0xC610);
  (0xC608000011B0, 0xC611); (0xC608000011B1, 0xC612); (0xC608000011B2, 0xC613);
  (0xC608000011B3, 0xC614); (0xC608000011B4, 0xC615); (0xC608000011B5, 0xC616);
  (0xC608000011B6, 0xC617); (0xC608000011B7, 0xC618); (0xC608000011B8, 0xC619);
  (0xC608000011B9, 0xC61A); (0xC608000011BA, 0xC61B); (0xC608000011BB, 0xC61C);
  (0xC608000011BC, 0xC61D); (0xC608000011BD, 0xC61E); (0xC608000011BE, 0xC61F);
  (0xC608000011BF, 0xC620); (0xC608000011C0, 0xC621); (0xC608000011C1, 0xC622);
  (0xC608000011C2, 0xC623); (0xC624000011A8, 0xC625); (0xC624000011A9, 0xC626);
  (0xC624000011AA, 0xC627); (0xC624000011AB, 0xC628); (0xC624000011AC, 0xC629);
  (0xC624000011AD, 0xC62A); (0xC624000011AE, 0xC62B); (0xC624000011AF, 0xC62C);
  (0xC624000011B0, 0xC62D); (0xC624000011B1, 0xC62E); (0xC624000011B2, 0xC62F);
  (0xC624000011B3, 0xC630); (0xC624000011B4, 0xC631); (0xC624000011B5, 0xC632);
  (0xC624000011B6, 0xC633); (0xC624000011B7, 0xC634); (0xC624000011B8, 0xC635);
  (0xC624000011B9, 0xC636); (0xC624000011BA, 0xC637); (0xC624000011BB, 0xC638) ].

Definition nfcCompose_52 : list (Z * Z) := [
  (0xC624000011BC, 0xC639); (0xC624000011BD, 0xC63A); (0xC624000011BE, 0xC63B);
  (0xC624000011BF, 0xC63C); (0xC624000011C0, 0xC63D); (0xC624000011C1, 0xC63E);
  (0xC624000011C2, 0xC63F); (0xC640000011A8, 0xC641); (0xC640000011A9, 0xC642);
  (0xC640000011AA, 0xC643); (0xC640000011AB, 0xC644); (0xC640000011AC, 0xC645);
  (0xC640000011AD, 0xC646); (0xC640000011AE, 0xC647); (0xC640000011AF, 0xC648);
  (0xC640000011B0, 0xC649); (0xC640000011B1, 0xC64A); (0xC640000011B2, 0xC64B);
  (0xC640000011B3, 0xC64C); (0xC640000011B4, 0xC64D); (0xC640000011B5, 0xC64E);
  (0xC640000011B6, 0xC64F); (0xC640000011B7, 0xC650); (0xC640000011B8, 0xC651);
  (0xC640000011B9, 0xC652); (0xC640000011BA, 0xC653); (0xC640000011BB, 0xC654);
  (0xC640000011BC, 0xC655); (0xC640000011BD, 0xC656); (0xC640000011BE, 0xC657);
  (0xC640000011BF, 0xC658); (0xC640000011C0, 0xC659); (0xC640000011C1, 0xC65A);
  (0xC640000011C2, 0xC65B); (0xC65C000011A8, 0xC65D); (0xC65C000011A9, 0xC65E);
  (0xC65C000011AA, 0xC65F); (0xC65C000011AB, 0xC660); (0xC65C000011AC, 0xC661);
  (0xC65C000011AD, 0xC662); (0xC65C000011AE, 0xC663); (0xC65C000011AF, 0xC664);
  (0xC65C000011B0, 0xC665); (0xC65C000011B1, 0xC666); (0xC65C000011B2, 0xC667);
  (0xC65C000011B3, 0xC668); (0xC65C000011B4, 0xC669); (0xC65C000011B5, 0xC66A);
  (0xC65C000011B6, 0xC66B); (0xC65C000011B7, 0xC66C); (0xC65C000011B8, 0xC66D);
  (0xC65C000011B9, 0xC66E); (0xC65C000011BA, 0xC66F); (0xC65C000011BB, 0xC670);
  (0xC65C000011BC, 0xC671); (0xC65C000011BD, 0xC672); (0xC65C000011BE, 0xC673);
  (0xC65C000011BF, 0xC674); (0xC65C000011C0, 0xC675); (0xC65C000011C1, 0xC676);
  (0xC65C000011C2, 0xC677); (0xC678000011A8, 0xC679); (0xC678000011A9, 0xC67A);
  (0xC678000011AA, 0xC67B); (0xC678000011AB, 0xC67C); (0xC678000011AC, 0xC67D);
  (0xC678000011AD, 0xC67E); (0xC678000011AE, 0xC67F); (0xC678000011AF, 0xC680);
  (0xC678000011B0, 0xC681); (0xC678000011B1, 0xC682); (0xC678000011B2, 0xC683);
  (0xC678000011B3, 0xC684); (0xC678000011B4, 0xC685); (0xC678000011B5, 0xC686);
  (0xC678000011B6, 0xC687); (0xC678000011B7, 0xC688); (0xC678000011B8, 0xC689);
  (0xC678000011B9, 0xC68A); (0xC678000011BA, 0xC68B); (0xC678000011BB, 0xC68C);
  (0xC678000011BC, 0xC68D); (0xC678000011BD, 0xC68E); (0xC678000011BE, 0xC68F);
  (0xC678000011BF, 0xC690); (0xC678000011C0, 0xC691); (0xC678000011C1, 0xC692);
  (0xC678000011C2, 0xC693); (0xC694000011A8, 0xC695); (0xC694000011A9, 0xC696);
  (0xC694000011AA, 0xC697); (0xC694000011AB, 0xC698); (0xC694000011AC, 0xC699);
  (0xC694000011AD, 0xC69A); (0xC694000011AE, 0xC69B); (0xC694000011AF, 0xC69C);
  (0xC694000011B0, 0xC69D); (0xC694000011B1, 0xC69E); (0xC694000011B2, 0xC69F);
  (0xC694000011B3, 0xC6A0); (0xC694000011B4, 0xC6A1); (0xC694000011B5, 0xC6A2);
  (0xC694000011B6, 0xC6A3); (0xC694000011B7, 0xC6A4); (0xC694000011B8, 0xC6A5);
  (0xC694000011B9, 0xC6A6); (0xC694000011BA, 0xC6A7); (0xC694000011BB, 0xC6A8);
  (0xC694000011BC, 0xC6A9); (0xC694000011BD, 0xC6AA); (0xC694000011BE, 0xC6AB);
  (0xC694000011BF, 0xC6AC); (0xC694000011C0, 0xC6AD); (0xC694000011C1, 0xC6AE);
  (0xC694000011C2, 0xC6AF); (0xC6B0000011A8, 0xC6B1); (0xC6B0000011A9, 0xC6B2);
  (0xC6B0000011AA, 0xC6B3); (0xC6B0000011AB, 0xC6B4); (0xC6B0000011AC, 0xC6B5);
  (0xC6B0000011AD, 0xC6B6); (0xC6B0000011AE, 0xC6B7); (0xC6B0000011AF, 0xC6B8);
  (0xC6B0000011B0, 0xC6B9); (0xC6B0000011B1, 0xC6BA); (0xC6B0000011B2, 0xC6BB);
  (0xC6B0000011B3, 0xC6BC); (0xC6B0000011B4, 0xC6BD); (0xC6B0000011B5, 0xC6BE);
  (0xC6B0000011B6, 0xC6BF); (0xC6B0000011B7, 0xC6C0); (0xC6B0000011B8, 0xC6C1);
  (0xC6B0000011B9, 0xC6C2); (0xC6B0000011BA, 0xC6C3); (0xC6B0000011BB, 0xC6C4);
  (0xC6B0000011BC, 0xC6C5); (0xC6B0000011BD, 0xC6C6); (0xC6B0000011BE, 0xC6C7);
  (0xC6B0000011BF, 0xC6C8); (0xC6B0000011C0, 0xC6C9); (0xC6B0000011C1, 0xC6CA);
  (0xC6B0000011C2, 0xC6CB); (0xC6CC000011A8, 0xC6CD); (0xC6CC000011A9, 0xC6CE);
  (0xC6CC000011AA, 0xC6CF); (0xC6CC000011AB, 0xC6D0); (0xC6CC000011AC, 0xC6D1);
  (0xC6CC000011AD, 0xC6D2); (0xC6CC000011AE, 0xC6D3); (0xC6CC000011AF, 0xC6D4) ].

Definition nfcCompose_53 : list (Z * Z) := [
  (0xC6CC000011B0, 0xC6D5); (0xC6CC000011B1, 0xC6D6); (0xC6CC000011B2, 0xC6D7);
  (0xC6CC000011B3, 0xC6D8); (0xC6CC000011B4, 0xC6D9); (0xC6CC000011B5, 0xC6DA);
  (0xC6CC000011B6, 0xC6DB); (0xC6CC000011B7, 0xC6DC); (0xC6CC000011B8, 0xC6DD);
  (0xC6CC000011B9, 0xC6DE); (0xC6CC000011BA, 0xC6DF); (0xC6CC000011BB, 0xC6E0);
  (0xC6CC000011BC, 0xC6E1); (0xC6CC000011BD, 0xC6E2); (0xC6CC000011BE, 0xC6E3);
  (0xC6CC000011BF, 0xC6E4); (0xC6CC000011C0, 0xC6E5); (0xC6CC000011C1, 0xC6E6);
  (0xC6CC000011C2, 0xC6E7); (0xC6E8000011A8, 0xC6E9); (0xC6E8000011A9, 0xC6EA);
  (0xC6E8000011AA, 0xC6EB); (0xC6E8000011AB, 0xC6EC); (0xC6E8000011AC, 0xC6ED);
  (0xC6E8000011AD, 0xC6EE); (0xC6E8000011AE, 0xC6EF); (0xC6E8000011AF, 0xC6F0);
  (0xC6E8000011B0, 0xC6F1); (0xC6E8000011B1, 0xC6F2); (0xC6E8000011B2, 0xC6F3);
  (0xC6E8000011B3, 0xC6F4); (0xC6E8000011B4, 0xC6F5); (0xC6E8000011B5, 0xC6F6);
  (0xC6E8000011B6, 0xC6F7); (0xC6E8000011B7, 0xC6F8); (0xC6E8000011B8, 0xC6F9);
  (0xC6E8000011B9, 0xC6FA); (0xC6E8000011BA, 0xC6FB); (0xC6E8000011BB, 0xC6FC);
  (0xC6E8000011BC, 0xC6FD); (0xC6E8000011BD, 0xC6FE); (0xC6E8000011BE, 0xC6FF);
  (0xC6E8000011BF, 0xC700); (0xC6E8000011C0, 0xC701); (0xC6E8000011C1, 0xC702);
  (0xC6E8000011C2, 0xC703); (0xC704000011A8, 0xC705); (0xC704000011A9, 0xC706);
  (0xC704000011AA, 0xC707); (0xC704000011AB, 0xC708); (0xC704000011AC, 0xC709);
  (0xC704000011AD, 0xC70A); (0xC704000011AE, 0xC70B); (0xC704000011AF, 0xC70C);
  (0xC704000011B0, 0xC70D); (0xC704000011B1, 0xC70E); (0xC704000011B2, 0xC70F);
  (0xC704000011B3, 0xC710); (0xC704000011B4, 0xC711); (0xC704000011B5, 0xC712);
  (0xC704000011B6, 0xC713); (0xC704000011B7, 0xC714); (0xC704000011B8, 0xC715);
  (0xC704000011B9, 0xC716); (0xC704000011BA, 0xC717); (0xC704000011BB, 0xC718);
  (0xC704000011BC, 0xC719); (0xC704000011BD, 0xC71A); (0xC704000011BE, 0xC71B);
  (0xC704000011BF, 0xC71C); (0xC704000011C0, 0xC71D); (0xC704000011C1, 0xC71E);
  (0xC704000011C2, 0xC71F); (0xC720000011A8, 0xC721); (0xC720000011A9, 0xC722);
  (0xC720000011AA, 0xC723); (0xC720000011AB, 0xC724); (0xC720000011AC, 0xC725);
  (0xC720000011AD, 0xC726); (0xC720000011AE, 0xC727); (0xC720000011AF, 0xC728);
  (0xC720000011B0, 0xC729); (0xC720000011B1, 0xC72A); (0xC720000011B2, 0xC72B);
  (0xC720000011B3, 0xC72C); (0xC720000011B4, 0xC72D); (0xC720000011B5, 0xC72E);
  (0xC720000011B6, 0xC72F); (0xC720000011B7, 0xC730); (0xC720000011B8, 0xC731);
  (0xC720000011B9, 0xC732); (0xC720000011BA, 0xC733); (0xC720000011BB, 0xC734);
  (0xC720000011BC, 0xC735); (0xC720000011BD, 0xC736); (0xC720000011BE, 0xC737);
  (0xC720000011BF, 0xC738); (0xC720000011C0, 0xC739); (0xC720000011C1, 0xC73A);
  (0xC720000011C2, 0xC73B); (0xC73C000011A8, 0xC73D); (0xC73C000011A9, 0xC73E);
  (0xC73C000011AA, 0xC73F); (0xC73C000011AB, 0xC740); (0xC73C000011AC, 0xC741);
  (0xC73C000011AD, 0xC742); (0xC73C000011AE, 0xC743); (0xC73C000011AF, 0xC744);
  (0xC73C000011B0, 0xC745); (0xC73C000011B1, 0xC746); (0xC73C000011B2, 0xC747);
  (0xC73C000011B3, 0xC748); (0xC73C000011B4, 0xC749); (0xC73C000011B5, 0xC74A);
  (0xC73C000011B6, 0xC74B); (0xC73C000011B7, 0xC74C); (0xC73C000011B8, 0xC74D);
  (0xC73C000011B9, 0xC74E); (0xC73C000011BA, 0xC74F); (0xC73C000011BB, 0xC750);
  (0xC73C000011BC, 0xC751); (0xC73C000011BD, 0xC752); (0xC73C000011BE, 0xC753);
  (0xC73C000011BF, 0xC754); (0xC73C000011C0, 0xC755); (0xC73C000011C1, 0xC756);
  (0xC73C000011C2, 0xC757); (0xC758000011A8, 0xC759); (0xC758000011A9, 0xC75A);
  (0xC758000011AA, 0xC75B); (0xC758000011AB, 0xC75C); (0xC758000011AC, 0xC75D);
  (0xC758000011AD, 0xC75E); (0xC758000011AE, 0xC75F); (0xC758000011AF, 0xC760);
  (0xC758000011B0, 0xC761); (0xC758000011B1, 0xC762); (0xC758000011B2, 0xC763);
  (0xC758000011B3, 0xC764); (0xC758000011B4, 0xC765); (0xC758000011B5, 0xC766);
  (0xC758000011B6, 0xC767); (0xC758000011B7, 0xC768); (0xC758000011B8, 0xC769);
  (0xC758000011B9, 0xC76A); (0xC758000011BA, 0xC76B); (0xC758000011BB, 0xC76C);
  (0xC758000011BC, 0xC76D); (0xC758000011BD, 0xC76E); (0xC758000011BE, 0xC76F) ].

Definition nfcCompose_54 : list (Z * Z) := [
  (0xC758000011BF, 0xC770); (0xC758000011C0, 0xC771); (0xC758000011C1, 0xC772);
  (0xC758000011C2, 0xC773); (0xC774000011A8, 0xC775); (0xC774000011A9, 0xC776);
  (0xC774000011AA, 0xC777); (0xC774000011AB, 0xC778); (0xC774000011AC, 0xC779);
  (0xC774000011AD, 0xC77A); (0xC774000011AE, 0xC77B); (0xC774000011AF, 0xC77C);
  (0xC774000011B0, 0xC77D); (0xC774000011B1, 0xC77E); (0xC774000011B2, 0xC77F);
  (0xC774000011B3, 0xC780); (0xC774000011B4, 0xC781); (0xC774000011B5, 0xC782);
  (0xC774000011B6, 0xC783); (0xC774000011B7, 0xC784); (0xC774000011B8, 0xC785);
  (0xC774000011B9, 0xC786); (0xC774000011BA, 0xC787); (0xC774000011BB, 0xC788);
  (0xC774000011BC, 0xC789); (0xC774000011BD, 0xC78A); (0xC774000011BE, 0xC78B);
  (0xC774000011BF, 0xC78C); (0xC774000011C0, 0xC78D); (0xC774000011C1, 0xC78E);
  (0xC774000011C2, 0xC78F); (0xC790000011A8, 0xC791); (0xC790000011A9, 0xC792);
  (0xC790000011AA, 0xC793); (0xC790000011AB, 0xC794); (0xC790000011AC, 0xC795);
  (0xC790000011AD, 0xC796); (0xC790000011AE, 0xC797); (0xC790000011AF, 0xC798);
  (0xC790000011B0, 0xC799); (0xC790000011B1, 0xC79A); (0xC790000011B2, 0xC79B);
  (0xC790000011B3, 0xC79C); (0xC790000011B4, 0xC79D); (0xC790000011B5, 0xC79E);
  (0xC790000011B6, 0xC79F); (0xC790000011B7, 0xC7A0); (0xC790000011B8, 0xC7A1);
  (0xC790000011B9, 0xC7A2); (0xC790000011BA, 0xC7A3); (0xC790000011BB, 0xC7A4);
  (0xC790000011BC, 0xC7A5); (0xC790000011BD, 0xC7A6); (0xC790000011BE, 0xC7A7);
  (0xC790000011BF, 0xC7A8); (0xC790000011C0, 0xC7A9); (0xC790000011C1, 0xC7AA);
  (0xC790000011C2, 0xC7AB); (0xC7AC000011A8, 0xC7AD); (0xC7AC000011A9, 0xC7AE);
  (0xC7AC000011AA, 0xC7AF); (0xC7AC000011AB, 0xC7B0); (0xC7AC000011AC, 0xC7B1);
  (0xC7AC000011AD, 0xC7B2); (0xC7AC000011AE, 0xC7B3); (0xC7AC000011AF, 0xC7B4);
  (0xC7AC000011B0, 0xC7B5); (0xC7AC000011B1, 0xC7B6); (0xC7AC000011B2, 0xC7B7);
  (0xC7AC000011B3, 0xC7B8); (0xC7AC000011B4, 0xC7B9); (0xC7AC000011B5, 0xC7BA);
  (0xC7AC000011B6, 0xC7BB); (0xC7AC000011B7, 0xC7BC); (0xC7AC000011B8, 0xC7BD);
  (0xC7AC000011B9, 0xC7BE); (0xC7AC000011BA, 0xC7BF); (0xC7AC000011BB, 0xC7C0);
  (0xC7AC000011BC, 0xC7C1); (0xC7AC000011BD, 0xC7C2); (0xC7AC000011BE, 0xC7C3);
  (0xC7AC000011BF, 0xC7C4); (0xC7AC000011C0, 0xC7C5); (0xC7AC000011C1, 0xC7C6);
  (0xC7AC000011C2, 0xC7C7); (0xC7C8000011A8, 0xC7C9); (0xC7C8000011A9, 0xC7CA);
  (0xC7C8000011AA, 0xC7CB); (0xC7C8000011AB, 0xC7CC); (0xC7C8000011AC, 0xC7CD);
  (0xC7C8000011AD, 0xC7CE); (0xC7C8000011AE, 0xC7CF); (0xC7C8000011AF, 0xC7D0);
  (0xC7C8000011B0, 0xC7D1); (0xC7C8000011B1, 0xC7D2); (0xC7C8000011B2, 0xC7D3);
  (0xC7C8000011B3, 0xC7D4); (0xC7C8000011B4, 0xC7D5); (0xC7C8000011B5, 0xC7D6);
  (0xC7C8000011B6, 0xC7D7); (0xC7C8000011B7, 0xC7D8); (0xC7C8000011B8, 0xC7D9);
  (0xC7C8000011B9, 0xC7DA); (0xC7C8000011BA, 0xC7DB); (0xC7C8000011BB, 0xC7DC);
  (0xC7C8000011BC, 0xC7DD); (0xC7C8000011BD, 0xC7DE); (0xC7C8000011BE, 0xC7DF);
  (0xC7C8000011BF, 0xC7E0); (0xC7C8000011C0, 0xC7E1); (0xC7C8000011C1, 0xC7E2);
  (0xC7C8000011C2, 0xC7E3); (0xC7E4000011A8, 0xC7E5); (0xC7E4000011A9, 0xC7E6);
  (0xC7E4000011AA, 0xC7E7); (0xC7E4000011AB, 0xC7E8); (0xC7E4000011AC, 0xC7E9);
  (0xC7E4000011AD, 0xC7EA); (0xC7E4000011AE, 0xC7EB); (0xC7E4000011AF, 0xC7EC);
  (0xC7E4000011B0, 0xC7ED); (0xC7E4000011B1, 0xC7EE); (0xC7E4000011B2, 0xC7EF);
  (0xC7E4000011B3, 0xC7F0); (0xC7E4000011B4, 0xC7F1); (0xC7E4000011B5, 0xC7F2);
  (0xC7E4000011B6, 0xC7F3); (0xC7E4000011B7, 0xC7F4); (0xC7E4000011B8, 0xC7F5);
  (0xC7E4000011B9, 0xC7F6); (0xC7E4000011BA, 0xC7F7); (0xC7E4000011BB, 0xC7F8);
  (0xC7E4000011BC, 0xC7F9); (0xC7E4000011BD, 0xC7FA); (0xC7E4000011BE, 0xC7FB);
  (0xC7E4000011BF, 0xC7FC); (0xC7E4000011C0, 0xC7FD); (0xC7E4000011C1, 0xC7FE);
  (0xC7E4000011C2, 0xC7FF); (0xC800000011A8, 0xC801); (0xC800000011A9, 0xC802);
  (0xC800000011AA, 0xC803); (0xC800000011AB, 0xC804); (0xC800000011AC, 0xC805);
  (0xC800000011AD, 0xC806); (0xC800000011AE, 0xC807); (0xC800000011AF, 0xC808);
  (0xC800000011B0, 0xC809); (0xC800000011B1, 0xC80A); (0xC800000011B2, 0xC80B) ].

Definition nfcCompose_55 : list (Z * Z) := [
  (0xC800000011B3, 0xC80C); (0xC800000011B4, 0xC80D); (0xC800000011B5, 0xC80E);
  (0xC800000011B6, 0xC80F); (0xC800000011B7, 0xC810); (0xC800000011B8, 0xC811);
  (0xC800000011B9, 0xC812); (0xC800000011BA, 0xC813); (0xC800000011BB, 0xC814);
  (0xC800000011BC, 0xC815); (0xC800000011BD, 0xC816); (0xC800000011BE, 0xC817);
  (0xC800000011BF, 0xC818); (0xC800000011C0, 0xC819); (0xC800000011C1, 0xC81A);
  (0xC800000011C2, 0xC81B); (0xC81C000011A8, 0xC81D); (0xC81C000011A9, 0xC81E);
  (0xC81C000011AA, 0xC81F); (0xC81C000011AB, 0xC820); (0xC81C000011AC, 0xC821);
  (0xC81C000011AD, 0xC822); (0xC81C000011AE, 0xC823); (0xC81C000011AF, 0xC824);
  (0xC81C000011B0, 0xC825); (0xC81C000011B1, 0xC826); (0xC81C000011B2, 0xC827);
  (0xC81C000011B3, 0xC828); (0xC81C000011B4, 0xC829); (0xC81C000011B5, 0xC82A);
  (0xC81C000011B6, 0xC82B); (0xC81C000011B7, 0xC82C); (0xC81C000011B8, 0xC82D);
  (0xC81C000011B9, 0xC82E); (0xC81C000011BA, 0xC82F); (0xC81C000011BB, 0xC830);
  (0xC81C000011BC, 0xC831); (0xC81C000011BD, 0xC832); (0xC81C000011BE, 0xC833);
  (0xC81C000011BF, 0xC834); (0xC81C000011C0, 0xC835); (0xC81C000011C1, 0xC836);
  (0xC81C000011C2, 0xC837); (0xC838000011A8, 0xC839); (0xC838000011A9, 0xC83A);
  (0xC838000011AA, 0xC83B); (0xC838000011AB, 0xC83C); (0xC838000011AC, 0xC83D);
  (0xC838000011AD, 0xC83E); (0xC838000011AE, 0xC83F); (0xC838000011AF, 0xC840);
  (0xC838000011B0, 0xC841); (0xC838000011B1, 0xC842); (0xC838000011B2, 0xC843);
  (0xC838000011B3, 0xC844); (0xC838000011B4, 0xC845); (0xC838000011B5, 0xC846);
  (0xC838000011B6, 0xC847); (0xC838000011B7, 0xC848); (0xC838000011B8, 0xC849);
  (0xC838000011B9, 0xC84A); (0xC838000011BA, 0xC84B); (0xC838000011BB, 0xC84C);
  (0xC838000011BC, 0xC84D); (0xC838000011BD, 0xC84E); (0xC838000011BE, 0xC84F);
  (0xC838000011BF, 0xC850); (0xC838000011C0, 0xC851); (0xC838000011C1, 0xC852);
  (0xC838000011C2, 0xC853); (0xC854000011A8, 0xC855); (0xC854000011A9, 0xC856);
  (0xC854000011AA, 0xC857); (0xC854000011AB, 0xC858); (0xC854000011AC, 0xC859);
  (0xC854000011AD, 0xC85A); (0xC854000011AE, 0xC85B); (0xC854000011AF, 0xC85C);
  (0xC854000011B0, 0xC85D); (0xC854000011B1, 0xC85E); (0xC854000011B2, 0xC85F);
  (0xC854000011B3, 0xC860); (0xC854000011B4, 0xC861); (0xC854000011B5, 0xC862);
  (0xC854000011B6, 0xC863); (0xC854000011B7, 0xC864); (0xC854000011B8, 0xC865);
  (0xC854000011B9, 0xC866); (0xC854000011BA, 0xC867); (0xC854000011BB, 0xC868);
  (0xC854000011BC, 0xC869); (0xC854000011BD, 0xC86A); (0xC854000011BE, 0xC86B);
  (0xC854000011BF, 0xC86C); (0xC854000011C0, 0xC86D); (0xC854000011C1, 0xC86E);
  (0xC854000011C2, 0xC86F); (0xC870000011A8, 0xC871); (0xC870000011A9, 0xC872);
  (0xC870000011AA, 0xC873); (0xC870000011AB, 0xC874); (0xC870000011AC, 0xC875);
  (0xC870000011AD, 0xC876); (0xC870000011AE, 0xC877); (0xC870000011AF, 0xC878);
  (0xC870000011B0, 0xC879); (0xC870000011B1, 0xC87A); (0xC870000011B2, 0xC87B);
  (0xC870000011B3, 0xC87C); (0xC870000011B4, 0xC87D); (0xC870000011B5, 0xC87E);
  (0xC870000011B6, 0xC87F); (0xC870000011B7, 0xC880); (0xC870000011B8, 0xC881);
  (0xC870000011B9, 0xC882); (0xC870000011BA, 0xC883); (0xC870000011BB, 0xC884);
  (0xC870000011BC, 0xC885); (0xC870000011BD, 0xC886); (0xC870000011BE, 0xC887);
  (0xC870000011BF, 0xC888); (0xC870000011C0, 0xC889); (0xC870000011C1, 0xC88A);
  (0xC870000011C2, 0xC88B); (0xC88C000011A8, 0xC88D); (0xC88C000011A9, 0xC88E);
  (0xC88C000011AA, 0xC88F); (0xC88C000011AB, 0xC890); (0xC88C000011AC, 0xC891);
  (0xC88C000011AD, 0xC892); (0xC88C000011AE, 0xC893); (0xC88C000011AF, 0xC894);
  (0xC88C000011B0, 0xC895); (0xC88C000011B1, 0xC896); (0xC88C000011B2, 0xC897);
  (0xC88C000011B3, 0xC898); (0xC88C000011B4, 0xC899); (0xC88C000011B5, 0xC89A);
  (0xC88C000011B6, 0xC89B); (0xC88C000011B7, 0xC89C); (0xC88C000011B8, 0xC89D);
  (0xC88C000011B9, 0xC89E); (0xC88C000011BA, 0xC89F); (0xC88C000011BB, 0xC8A0);
  (0xC88C000011BC, 0xC8A1); (0xC88C000011BD, 0xC8A2); (0xC88C000011BE, 0xC8A3);
  (0xC88C000011BF, 0xC8A4); (0xC88C000011C0, 0xC8A5); (0xC88C000011C1, 0xC8A6) ].

Definition nfcCompose_56 : list (Z * Z) := [
  (0xC88C000011C2, 0xC8A7); (0xC8A8000011A8, 0xC8A9); (0xC8A8000011A9, 0xC8AA);
  (0xC8A8000011AA, 0xC8AB); (0xC8A8000011AB, 0xC8AC); (0xC8A8000011AC, 0xC8AD);
  (0xC8A8000011AD, 0xC8AE); (0xC8A8000011AE, 0xC8AF); (0xC8A8000011AF, 0xC8B0);
  (0xC8A8000011B0, 0xC8B1); (0xC8A8000011B1, 0xC8B2); (0xC8A8000011B2, 0xC8B3);
  (0xC8A8000011B3, 0xC8B4); (0xC8A8000011B4, 0xC8B5); (0xC8A8000011B5, 0xC8B6);
  (0xC8A8000011B6, 0xC8B7); (0xC8A8000011B7, 0xC8B8); (0xC8A8000011B8, 0xC8B9);
  (0xC8A8000011B9, 0xC8BA); (0xC8A8000011BA, 0xC8BB); (0xC8A8000011BB, 0xC8BC);
  (0xC8A8000011BC, 0xC8BD); (0xC8A8000011BD, 0xC8BE); (0xC8A8000011BE, 0xC8BF);
  (0xC8A8000011BF, 0xC8C0); (0xC8A8000011C0, 0xC8C1); (0xC8A8000011C1, 0xC8C2);
  (0xC8A8000011C2, 0xC8C3); (0xC8C4000011A8, 0xC8C5); (0xC8C4000011A9, 0xC8C6);
  (0xC8C4000011AA, 0xC8C7); (0xC8C4000011AB, 0xC8C8); (0xC8C4000011AC, 0xC8C9);
  (0xC8C4000011AD, 0xC8CA); (0xC8C4000011AE, 0xC8CB); (0xC8C4000011AF, 0xC8CC);
  (0xC8C4000011B0, 0xC8CD); (0xC8C4000011B1, 0xC8CE); (0xC8C4000011B2, 0xC8CF);
  (0xC8C4000011B3, 0xC8D0); (0xC8C4000011B4, 0xC8D1); (0xC8C4000011B5, 0xC8D2);
  (0xC8C4000011B6, 0xC8D3); (0xC8C4000011B7, 0xC8D4); (0xC8C4000011B8, 0xC8D5);
  (0xC8C4000011B9, 0xC8D6); (0xC8C4000011BA, 0xC8D7); (0xC8C4000011BB, 0xC8D8);
  (0xC8C4000011BC, 0xC8D9); (0xC8C4000011BD, 0xC8DA); (0xC8C4000011BE, 0xC8DB);
  (0xC8C4000011BF, 0xC8DC); (0xC8C4000011C0, 0xC8DD); (0xC8C4000011C1, 0xC8DE);
  (0xC8C4000011C2, 0xC8DF); (0xC8E0000011A8, 0xC8E1); (0xC8E0000011A9, 0xC8E2);
  (0xC8E0000011AA, 0xC8E3); (0xC8E0000011AB, 0xC8E4); (0xC8E0000011AC, 0xC8E5);
  (0xC8E0000011AD, 0xC8E6); (0xC8E0000011AE, 0xC8E7); (0xC8E0000011AF, 0xC8E8);
  (0xC8E0000011B0, 0xC8E9); (0xC8E0000011B1, 0xC8EA); (0xC8E0000011B2, 0xC8EB);
  (0xC8E0000011B3, 0xC8EC); (0xC8E0000011B4, 0xC8ED); (0xC8E0000011B5, 0xC8EE);
  (0xC8E0000011B6, 0xC8EF); (0xC8E0000011B7, 0xC8F0); (0xC8E0000011B8, 0xC8F1);
  (0xC8E0000011B9, 0xC8F2); (0xC8E0000011BA, 0xC8F3); (0xC8E0000011BB, 0xC8F4);
  (0xC8E0000011BC, 0xC8F5); (0xC8E0000011BD, 0xC8F6); (0xC8E0000011BE, 0xC8F7);
  (0xC8E0000011BF, 0xC8F8); (0xC8E0000011C0, 0xC8F9); (0xC8E0000011C1, 0xC8FA);
  (0xC8E0000011C2, 0xC8FB); (0xC8FC000011A8, 0xC8FD); (0xC8FC000011A9, 0xC8FE);
  (0xC8FC000011AA, 0xC8FF); (0xC8FC000011AB, 0xC900); (0xC8FC000011AC, 0xC901);
  (0xC8FC000011AD, 0xC902); (0xC8FC000011AE, 0xC903); (0xC8FC000011AF, 0xC904);
  (0xC8FC000011B0, 0xC905); (0xC8FC000011B1, 0xC906); (0xC8FC000011B2, 0xC907);
  (0xC8FC000011B3, 0xC908); (0xC8FC000011B4, 0xC909); (0xC8FC000011B5, 0xC90A);
  (0xC8FC000011B6, 0xC90B); (0xC8FC000011B7, 0xC90C); (0xC8FC000011B8, 0xC90D);
  (0xC8FC000011B9, 0xC90E); (0xC8FC000011BA, 0xC90F); (0xC8FC000011BB, 0xC910);
  (0xC8FC000011BC, 0xC911); (0xC8FC000011BD, 0xC912); (0xC8FC000011BE, 0xC913);
  (0xC8FC000011BF, 0xC914); (0xC8FC000011C0, 0xC915); (0xC8FC000011C1, 0xC916);
  (0xC8FC000011C2, 0xC917); (0xC918000011A8, 0xC919); (0xC918000011A9, 0xC91A);
  (0xC918000011AA, 0xC91B); (0xC918000011AB, 0xC91C); (0xC918000011AC, 0xC91D);
  (0xC918000011AD, 0xC91E); (0xC918000011AE, 0xC91F); (0xC918000011AF, 0xC920);
  (0xC918000011B0, 0xC921); (0xC918000011B1, 0xC922); (0xC918000011B2, 0xC923);
  (0xC918000011B3, 0xC924); (0xC918000011B4, 0xC925); (0xC918000011B5, 0xC926);
  (0xC918000011B6, 0xC927); (0xC918000011B7, 0xC928); (0xC918000011B8, 0xC929);
  (0xC918000011B9, 0xC92A); (0xC918000011BA, 0xC92B); (0xC918000011BB, 0xC92C);
  (0xC918000011BC, 0xC92D); (0xC918000011BD, 0xC92E); (0xC918000011BE, 0xC92F);
  (0xC918000011BF, 0xC930); (0xC918000011C0, 0xC931); (0xC918000011C1, 0xC932);
  (0xC918000011C2, 0xC933); (0xC934000011A8, 0xC935); (0xC934000011A9, 0xC936);
  (0xC934000011AA, 0xC937); (0xC934000011AB, 0xC938); (0xC934000011AC, 0xC939);
  (0xC934000011AD, 0xC93A); (0xC934000011AE, 0xC93B); (0xC934000011AF, 0xC93C);
  (0xC934000011B0, 0xC93D); (0xC934000011B1, 0xC93E); (0xC934000011B2, 0xC93F);
  (0xC934000011B3, 0xC940); (0xC934000011B4, 0xC941); (0xC934000011B5, 0xC942) ].

Definition nfcCompose_57 : list (Z * Z) := [
  (0xC934000011B6, 0xC943); (0xC934000011B7, 0xC944); (0xC934000011B8, 0xC945);
  (0xC934000011B9, 0xC946); (0xC934000011BA, 0xC947); (0xC934000011BB, 0xC948);
  (0xC934000011BC, 0xC949); (0xC934000011BD, 0xC94A); (0xC934000011BE, 0xC94B);
  (0xC934000011BF, 0xC94C); (0xC934000011C0, 0xC94D); (0xC934000011C1, 0xC94E);
  (0xC934000011C2, 0xC94F); (0xC950000011A8, 0xC951); (0xC950000011A9, 0xC952);
  (0xC950000011AA, 0xC953); (0xC950000011AB, 0xC954); (0xC950000011AC, 0xC955);
  (0xC950000011AD, 0xC956); (0xC950000011AE, 0xC957); (0xC950000011AF, 0xC958);
  (0xC950000011B0, 0xC959); (0xC950000011B1, 0xC95A); (0xC950000011B2, 0xC95B);
  (0xC950000011B3, 0xC95C); (0xC950000011B4, 0xC95D); (0xC950000011B5, 0xC95E);
  (0xC950000011B6, 0xC95F); (0xC950000011B7, 0xC960); (0xC950000011B8, 0xC961);
  (0xC950000011B9, 0xC962); (0xC950000011BA, 0xC963); (0xC950000011BB, 0xC964);
  (0xC950000011BC, 0xC965); (0xC950000011BD, 0xC966); (0xC950000011BE, 0xC967);
  (0xC950000011BF, 0xC968); (0xC950000011C0, 0xC969); (0xC950000011C1, 0xC96A);
  (0xC950000011C2, 0xC96B); (0xC96C000011A8, 0xC96D); (0xC96C000011A9, 0xC96E);
  (0xC96C000011AA, 0xC96F); (0xC96C000011AB, 0xC970); (0xC96C000011AC, 0xC971);
  (0xC96C000011AD, 0xC972); (0xC96C000011AE, 0xC973); (0xC96C000011AF, 0xC974);
  (0xC96C000011B0, 0xC975); (0xC96C000011B1, 0xC976); (0xC96C000011B2, 0xC977);
  (0xC96C000011B3, 0xC978); (0xC96C000011B4, 0xC979); (0xC96C000011B5, 0xC97A);
  (0xC96C000011B6, 0xC97B); (0xC96C000011B7, 0xC97C); (0xC96C000011B8, 0xC97D);
  (0xC96C000011B9, 0xC97E); (0xC96C000011BA, 0xC97F); (0xC96C000011BB, 0xC980);
  (0xC96C000011BC, 0xC981); (0xC96C000011BD, 0xC982); (0xC96C000011BE, 0xC983);
  (0xC96C000011BF, 0xC984); (0xC96C000011C0, 0xC985); (0xC96C000011C1, 0xC986);
  (0xC96C000011C2, 0xC987); (0xC988000011A8, 0xC989); (0xC988000011A9, 0xC98A);
  (0xC988000011AA, 0xC98B); (0xC988000011AB, 0xC98C); (0xC988000011AC, 0xC98D);
  (0xC988000011AD, 0xC98E); (0xC988000011AE, 0xC98F); (0xC988000011AF, 0xC990);
  (0xC988000011B0, 0xC991); (0xC988000011B1, 0xC992); (0xC988000011B2, 0xC993);
  (0xC988000011B3, 0xC994); (0xC988000011B4, 0xC995); (0xC988000011B5, 0xC996);
  (0xC988000011B6, 0xC997); (0xC988000011B7, 0xC998); (0xC988000011B8, 0xC999);
  (0xC988000011B9, 0xC99A); (0xC988000011BA, 0xC99B); (0xC988000011BB, 0xC99C);
  (0xC988000011BC, 0xC99D); (0xC988000011BD, 0xC99E); (0xC988000011BE, 0xC99F);
  (0xC988000011BF, 0xC9A0); (0xC988000011C0, 0xC9A1); (0xC988000011C1, 0xC9A2);
  (0xC988000011C2, 0xC9A3); (0xC9A4000011A8, 0xC9A5); (0xC9A4000011A9, 0xC9A6);
  (0xC9A4000011AA, 0xC9A7); (0xC9A4000011AB, 0xC9A8); (0xC9A4000011AC, 0xC9A9);
  (0xC9A4000011AD, 0xC9AA); (0xC9A4000011AE, 0xC9AB); (0xC9A4000011AF, 0xC9AC);
  (0xC9A4000011B0, 0xC9AD); (0xC9A4000011B1, 0xC9AE); (0xC9A4000011B2, 0xC9AF);
  (0xC9A4000011B3, 0xC9B0); (0xC9A4000011B4, 0xC9B1); (0xC9A4000011B5, 0xC9B2);
  (0xC9A4000011B6, 0xC9B3); (0xC9A4000011B7, 0xC9B4); (0xC9A4000011B8, 0xC9B5);
  (0xC9A4000011B9, 0xC9B6); (0xC9A4000011BA, 0xC9B7); (0xC9A4000011BB, 0xC9B8);
  (0xC9A4000011BC, 0xC9B9); (0xC9A4000011BD, 0xC9BA); (0xC9A4000011BE, 0xC9BB);
  (0xC9A4000011BF, 0xC9BC); (0xC9A4000011C0, 0xC9BD); (0xC9A4000011C1, 0xC9BE);
  (0xC9A4000011C2, 0xC9BF); (0xC9C0000011A8, 0xC9C1); (0xC9C0000011A9, 0xC9C2);
  (0xC9C0000011AA, 0xC9C3); (0xC9C0000011AB, 0xC9C4); (0xC9C0000011AC, 0xC9C5);
  (0xC9C0000011AD, 0xC9C6); (0xC9C0000011AE, 0xC9C7); (0xC9C0000011AF, 0xC9C8);
  (0xC9C0000011B0, 0xC9C9); (0xC9C0000011B1, 0xC9CA); (0xC9C0000011B2, 0xC9CB);
  (0xC9C0000011B3, 0xC9CC); (0xC9C0000011B4, 0xC9CD); (0xC9C0000011B5, 0xC9CE);
  (0xC9C0000011B6, 0xC9CF); (0xC9C0000011B7, 0xC9D0); (0xC9C0000011B8, 0xC9D1);
  (0xC9C0000011B9, 0xC9D2); (0xC9C0000011BA, 0xC9D3); (0xC9C0000011BB, 0xC9D4);
  (0xC9C0000011BC, 0xC9D5); (0xC9C0000011BD, 0xC9D6); (0xC9C0000011BE, 0xC9D7);
  (0xC9C0000011BF, 0xC9D8); (0xC9C0000011C0, 0xC9D9); (0xC9C0000011C1, 0xC9DA);
  (0xC9C0000011C2, 0xC9DB); (0xC9DC000011A8, 0xC9DD); (0xC9DC000011A9, 0xC9DE) ].

Definition nfcCompose_58 : list (Z * Z) := [
  (0xC9DC000011AA, 0xC9DF); (0xC9DC000011AB, 0xC9E0); (0xC9DC000011AC, 0xC9E1);
  (0xC9DC000011AD, 0xC9E2); (0xC9DC000011AE, 0xC9E3); (0xC9DC000011AF, 0xC9E4);
  (0xC9DC000011B0, 0xC9E5); (0xC9DC000011B1, 0xC9E6); (0xC9DC000011B2, 0xC9E7);
  (0xC9DC000011B3, 0xC9E8); (0xC9DC000011B4, 0xC9E9); (0xC9DC000011B5, 0xC9EA);
  (0xC9DC000011B6, 0xC9EB); (0xC9DC000011B7, 0xC9EC); (0xC9DC000011B8, 0xC9ED);
  (0xC9DC000011B9, 0xC9EE); (0xC9DC000011BA, 0xC9EF); (0xC9DC000011BB, 0xC9F0);
  (0xC9DC000011BC, 0xC9F1); (0xC9DC000011BD, 0xC9F2); (0xC9DC000011BE, 0xC9F3);
  (0xC9DC000011BF, 0xC9F4); (0xC9DC000011C0, 0xC9F5); (0xC9DC000011C1, 0xC9F6);
  (0xC9DC000011C2, 0xC9F7); (0xC9F8000011A8, 0xC9F9); (0xC9F8000011A9, 0xC9FA);
  (0xC9F8000011AA, 0xC9FB); (0xC9F8000011AB, 0xC9FC); (0xC9F8000011AC, 0xC9FD);
  (0xC9F8000011AD, 0xC9FE); (0xC9F8000011AE, 0xC9FF); (0xC9F8000011AF, 0xCA00);
  (0xC9F8000011B0, 0xCA01); (0xC9F8000011B1, 0xCA02); (0xC9F8000011B2, 0xCA03);
  (0xC9F8000011B3, 0xCA04); (0xC9F8000011B4, 0xCA05); (0xC9F8000011B5, 0xCA06);
  (0xC9F8000011B6, 0xCA07); (0xC9F8000011B7, 0xCA08); (0xC9F8000011B8, 0xCA09);
  (0xC9F8000011B9, 0xCA0A); (0xC9F8000011BA, 0xCA0B); (0xC9F8000011BB, 0xCA0C);
  (0xC9F8000011BC, 0xCA0D); (0xC9F8000011BD, 0xCA0E); (0xC9F8000011BE, 0xCA0F);
  (0xC9F8000011BF, 0xCA10); (0xC9F8000011C0, 0xCA11); (0xC9F8000011C1, 0xCA12);
  (0xC9F8000011C2, 0xCA13); (0xCA14000011A8, 0xCA15); (0xCA14000011A9, 0xCA16);
  (0xCA14000011AA, 0xCA17); (0xCA14000011AB, 0xCA18); (0xCA14000011AC, 0xCA19);
  (0xCA14000011AD, 0xCA1A); (0xCA14000011AE, 0xCA1B); (0xCA14000011AF, 0xCA1C);
  (0xCA14000011B0, 0xCA1D); (0xCA14000011B1, 0xCA1E); (0xCA14000011B2, 0xCA1F);
  (0xCA14000011B3, 0xCA20); (0xCA14000011B4, 0xCA21); (0xCA14000011B5, 0xCA22);
  (0xCA14000011B6, 0xCA23); (0xCA14000011B7, 0xCA24); (0xCA14000011B8, 0xCA25);
  (0xCA14000011B9, 0xCA26); (0xCA14000011BA, 0xCA27); (0xCA14000011BB, 0xCA28);
  (0xCA14000011BC, 0xCA29); (0xCA14000011BD, 0xCA2A); (0xCA14000011BE, 0xCA2B);
  (0xCA14000011BF, 0xCA2C); (0xCA14000011C0, 0xCA2D); (0xCA14000011C1, 0xCA2E);
  (0xCA14000011C2, 0xCA2F); (0xCA30000011A8, 0xCA31); (0xCA30000011A9, 0xCA32);
  (0xCA30000011AA, 0xCA33); (0xCA30000011AB, 0xCA34); (0xCA30000011AC, 0xCA35);
  (0xCA30000011AD, 0xCA36); (0xCA30000011AE, 0xCA37); (0xCA30000011AF, 0xCA38);
  (0xCA30000011B0, 0xCA39); (0xCA30000011B1, 0xCA3A); (0xCA30000011B2, 0xCA3B);
  (0xCA30000011B3, 0xCA3C); (0xCA30000011B4, 0xCA3D); (0xCA30000011B5, 0xCA3E);
  (0xCA30000011B6, 0xCA3F); (0xCA30000011B7, 0xCA40); (0xCA30000011B8, 0xCA41);
  (0xCA30000011B9, 0xCA42); (0xCA30000011BA, 0xCA43); (0xCA30000011BB, 0xCA44);
  (0xCA30000011BC, 0xCA45); (0xCA30000011BD, 0xCA46); (0xCA30000011BE, 0xCA47);
  (0xCA30000011BF, 0xCA48); (0xCA30000011C0, 0xCA49); (0xCA30000011C1, 0xCA4A);
  (0xCA30000011C2, 0xCA4B); (0xCA4C000011A8, 0xCA4D); (0xCA4C000011A9, 0xCA4E);
  (0xCA4C000011AA, 0xCA4F); (0xCA4C000011AB, 0xCA50); (0xCA4C000011AC, 0xCA51);
  (0xCA4C000011AD, 0xCA52); (0xCA4C000011AE, 0xCA53); (0xCA4C000011AF, 0xCA54);
  (0xCA4C000011B0, 0xCA55); (0xCA4C000011B1, 0xCA56); (0xCA4C000011B2, 0xCA57);
  (0xCA4C000011B3, 0xCA58); (0xCA4C000011B4, 0xCA59); (0xCA4C000011B5, 0xCA5A);
  (0xCA4C000011B6, 0xCA5B); (0xCA4C000011B7, 0xCA5C); (0xCA4C000011B8, 0xCA5D);
  (0xCA4C000011B9, 0xCA5E); (0xCA4C000011BA, 0xCA5F); (0xCA4C000011BB, 0xCA60);
  (0xCA4C000011BC, 0xCA61); (0xCA4C000011BD, 0xCA62); (0xCA4C000011BE, 0xCA63);
  (0xCA4C000011BF, 0xCA64); (0xCA4C000011C0, 0xCA65); (0xCA4C000011C1, 0xCA66);
  (0xCA4C000011C2, 0xCA67); (0xCA68000011A8, 0xCA69); (0xCA68000011A9, 0xCA6A);
  (0xCA68000011AA, 0xCA6B); (0xCA68000011AB, 0xCA6C); (0xCA68000011AC, 0xCA6D);
  (0xCA68000011AD, 0xCA6E); (0xCA68000011AE, 0xCA6F); (0xCA68000011AF, 0xCA70);
  (0xCA68000011B0, 0xCA71); (0xCA68000011B1, 0xCA72); (0xCA68000011B2, 0xCA73);
  (0xCA68000011B3, 0xCA74); (0xCA68000011B4, 0xCA75); (0xCA68000011B5, 0xCA76);
  (0xCA68000011B6, 0xCA77); (0xCA68000011B7, 0xCA78); (0xCA68000011B8, 0xCA79) ].

Definition nfcCompose_59 : list (Z * Z) := [
  (0xCA68000011B9, 0xCA7A); (0xCA68000011BA, 0xCA7B); (0xCA68000011BB, 0xCA7C);
  (0xCA68000011BC, 0xCA7D); (0xCA68000011BD, 0xCA7E); (0xCA68000011BE, 0xCA7F);
  (0xCA68000011BF, 0xCA80); (0xCA68000011C0, 0xCA81); (0xCA68000011C1, 0xCA82);
  (0xCA68000011C2, 0xCA83); (0xCA84000011A8, 0xCA85); (0xCA84000011A9, 0xCA86);
  (0xCA84000011AA, 0xCA87); (0xCA84000011AB, 0xCA88); (0xCA84000011AC, 0xCA89);
  (0xCA84000011AD, 0xCA8A); (0xCA84000011AE, 0xCA8B); (0xCA84000011AF, 0xCA8C);
  (0xCA84000011B0, 0xCA8D); (0xCA84000011B1, 0xCA8E); (0xCA84000011B2, 0xCA8F);
  (0xCA84000011B3, 0xCA90); (0xCA84000011B4, 0xCA91); (0xCA84000011B5, 0xCA92);
  (0xCA84000011B6, 0xCA93); (0xCA84000011B7, 0xCA94); (0xCA84000011B8, 0xCA95);
  (0xCA84000011B9, 0xCA96); (0xCA84000011BA, 0xCA97); (0xCA84000011BB, 0xCA98);
  (0xCA84000011BC, 0xCA99); (0xCA84000011BD, 0xCA9A); (0xCA84000011BE, 0xCA9B);
  (0xCA84000011BF, 0xCA9C); (0xCA84000011C0, 0xCA9D); (0xCA84000011C1, 0xCA9E);
  (0xCA84000011C2, 0xCA9F); (0xCAA0000011A8, 0xCAA1); (0xCAA0000011A9, 0xCAA2);
  (0xCAA0000011AA, 0xCAA3); (0xCAA0000011AB, 0xCAA4); (0xCAA0000011AC, 0xCAA5);
  (0xCAA0000011AD, 0xCAA6); (0xCAA0000011AE, 0xCAA7); (0xCAA0000011AF, 0xCAA8);
  (0xCAA0000011B0, 0xCAA9); (0xCAA0000011B1, 0xCAAA); (0xCAA0000011B2, 0xCAAB);
  (0xCAA0000011B3, 0xCAAC); (0xCAA0000011B4, 0xCAAD); (0xCAA0000011B5, 0xCAAE);
  (0xCAA0000011B6, 0xCAAF); (0xCAA0000011B7, 0xCAB0); (0xCAA0000011B8, 0xCAB1);
  (0xCAA0000011B9, 0xCAB2); (0xCAA0000011BA, 0xCAB3); (0xCAA0000011BB, 0xCAB4);
  (0xCAA0000011BC, 0xCAB5); (0xCAA0000011BD, 0xCAB6); (0xCAA0000011BE, 0xCAB7);
  (0xCAA0000011BF, 0xCAB8); (0xCAA0000011C0, 0xCAB9); (0xCAA0000011C1, 0xCABA);
  (0xCAA0000011C2, 0xCABB); (0xCABC000011A8, 0xCABD); (0xCABC000011A9, 0xCABE);
  (0xCABC000011AA, 0xCABF); (0xCABC000011AB, 0xCAC0); (0xCABC000011AC, 0xCAC1);
  (0xCABC000011AD, 0xCAC2); (0xCABC000011AE, 0xCAC3); (0xCABC000011AF, 0xCAC4);
  (0xCABC000011B0, 0xCAC5); (0xCABC000011B1, 0xCAC6); (0xCABC000011B2, 0xCAC7);
  (0xCABC000011B3, 0xCAC8); (0xCABC000011B4, 0xCAC9); (0xCABC000011B5, 0xCACA);
  (0xCABC000011B6, 0xCACB); (0xCABC000011B7, 0xCACC); (0xCABC000011B8, 0xCACD);
  (0xCABC000011B9, 0xCACE); (0xCABC000011BA, 0xCACF); (0xCABC000011BB, 0xCAD0);
  (0xCABC000011BC, 0xCAD1); (0xCABC000011BD, 0xCAD2); (0xCABC000011BE, 0xCAD3);
  (0xCABC000011BF, 0xCAD4); (0xCABC000011C0, 0xCAD5); (0xCABC000011C1, 0xCAD6);
  (0xCABC000011C2, 0xCAD7); (0xCAD8000011A8, 0xCAD9); (0xCAD8000011A9, 0xCADA);
  (0xCAD8000011AA, 0xCADB); (0xCAD8000011AB, 0xCADC); (0xCAD8000011AC, 0xCADD);
  (0xCAD8000011AD, 0xCADE); (0xCAD8000011AE, 0xCADF); (0xCAD8000011AF, 0xCAE0);
  (0xCAD8000011B0, 0xCAE1); (0xCAD8000011B1, 0xCAE2); (0xCAD8000011B2, 0xCAE3);
  (0xCAD8000011B3, 0xCAE4); (0xCAD8000011B4, 0xCAE5); (0xCAD8000011B5, 0xCAE6);
  (0xCAD8000011B6, 0xCAE7); (0xCAD8000011B7, 0xCAE8); (0xCAD8000011B8, 0xCAE9);
  (0xCAD8000011B9, 0xCAEA); (0xCAD8000011BA, 0xCAEB); (0xCAD8000011BB, 0xCAEC);
  (0xCAD8000011BC, 0xCAED); (0xCAD8000011BD, 0xCAEE); (0xCAD8000011BE, 0xCAEF);
  (0xCAD8000011BF, 0xCAF0); (0xCAD8000011C0, 0xCAF1); (0xCAD8000011C1, 0xCAF2);
  (0xCAD8000011C2, 0xCAF3); (0xCAF4000011A8, 0xCAF5); (0xCAF4000011A9, 0xCAF6);
  (0xCAF4000011AA, 0xCAF7); (0xCAF4000011AB, 0xCAF8); (0xCAF4000011AC, 0xCAF9);
  (0xCAF4000011AD, 0xCAFA); (0xCAF4000011AE, 0xCAFB); (0xCAF4000011AF, 0xCAFC);
  (0xCAF4000011B0, 0xCAFD); (0xCAF4000011B1, 0xCAFE); (0xCAF4000011B2, 0xCAFF);
  (0xCAF4000011B3, 0xCB00); (0xCAF4000011B4, 0xCB01); (0xCAF4000011B5, 0xCB02);
  (0xCAF4000011B6, 0xCB03); (0xCAF4000011B7, 0xCB04); (0xCAF4000011B8, 0xCB05);
  (0xCAF4000011B9, 0xCB06); (0xCAF4000011BA, 0xCB07); (0xCAF4000011BB, 0xCB08);
  (0xCAF4000011BC, 0xCB09); (0xCAF4000011BD, 0xCB0A); (0xCAF4000011BE, 0xCB0B);
  (0xCAF4000011BF, 0xCB0C); (0xCAF4000011C0, 0xCB0D); (0xCAF4000011C1, 0xCB0E);
  (0xCAF4000011C2, 0xCB0F); (0xCB10000011A8, 0xCB11); (0xCB10000011A9, 0xCB12);
  (0xCB10000011AA, 0xCB13); (0xCB10000011AB, 0xCB14); (0xCB10000011AC, 0xCB15) ].

Definition nfcCompose_60 : list (Z * Z) := [
  (0xCB10000011AD, 0xCB16); (0xCB10000011AE, 0xCB17); (0xCB10000011AF, 0xCB18);
  (0xCB10000011B0, 0xCB19); (0xCB10000011B1, 0xCB1A); (0xCB10000011B2, 0xCB1B);
  (0xCB10000011B3, 0xCB1C); (0xCB10000011B4, 0xCB1D); (0xCB10000011B5, 0xCB1E);
  (0xCB10000011B6, 0xCB1F); (0xCB10000011B7, 0xCB20); (0xCB10000011B8, 0xCB21);
  (0xCB10000011B9, 0xCB22); (0xCB10000011BA, 0xCB23); (0xCB10000011BB, 0xCB24);
  (0xCB10000011BC, 0xCB25); (0xCB10000011BD, 0xCB26); (0xCB10000011BE, 0xCB27);
  (0xCB10000011BF, 0xCB28); (0xCB10000011C0, 0xCB29); (0xCB10000011C1, 0xCB2A);
  (0xCB10000011C2, 0xCB2B); (0xCB2C000011A8, 0xCB2D); (0xCB2C000011A9, 0xCB2E);
  (0xCB2C000011AA, 0xCB2F); (0xCB2C000011AB, 0xCB30); (0xCB2C000011AC, 0xCB31);
  (0xCB2C000011AD, 0xCB32); (0xCB2C000011AE, 0xCB33); (0xCB2C000011AF, 0xCB34);
  (0xCB2C000011B0, 0xCB35); (0xCB2C000011B1, 0xCB36); (0xCB2C000011B2, 0xCB37);
  (0xCB2C000011B3, 0xCB38); (0xCB2C000011B4, 0xCB39); (0xCB2C000011B5, 0xCB3A);
  (0xCB2C000011B6, 0xCB3B); (0xCB2C000011B7, 0xCB3C); (0xCB2C000011B8, 0xCB3D);
  (0xCB2C000011B9, 0xCB3E); (0xCB2C000011BA, 0xCB3F); (0xCB2C000011BB, 0xCB40);
  (0xCB2C000011BC, 0xCB41); (0xCB2C000011BD, 0xCB42); (0xCB2C000011BE, 0xCB43);
  (0xCB2C000011BF, 0xCB44); (0xCB2C000011C0, 0xCB45); (0xCB2C000011C1, 0xCB46);
  (0xCB2C000011C2, 0xCB47); (0xCB48000011A8, 0xCB49); (0xCB48000011A9, 0xCB4A);
  (0xCB48000011AA, 0xCB4B); (0xCB48000011AB, 0xCB4C); (0xCB48000011AC, 0xCB4D);
  (0xCB48000011AD, 0xCB4E); (0xCB48000011AE, 0xCB4F); (0xCB48000011AF, 0xCB50);
  (0xCB48000011B0, 0xCB51); (0xCB48000011B1, 0xCB52); (0xCB48000011B2, 0xCB53);
  (0xCB48000011B3, 0xCB54); (0xCB48000011B4, 0xCB55); (0xCB48000011B5, 0xCB56);
  (0xCB48000011B6, 0xCB57); (0xCB48000011B7, 0xCB58); (0xCB48000011B8, 0xCB59);
  (0xCB48000011B9, 0xCB5A); (0xCB48000011BA, 0xCB5B); (0xCB48000011BB, 0xCB5C);
  (0xCB48000011BC, 0xCB5D); (0xCB48000011BD, 0xCB5E); (0xCB48000011BE, 0xCB5F);
  (0xCB48000011BF, 0xCB60); (0xCB48000011C0, 0xCB61); (0xCB48000011C1, 0xCB62);
  (0xCB48000011C2, 0xCB63); (0xCB64000011A8, 0xCB65); (0xCB64000011A9, 0xCB66);
  (0xCB64000011AA, 0xCB67); (0xCB64000011AB, 0xCB68); (0xCB64000011AC, 0xCB69);
  (0xCB64000011AD, 0xCB6A); (0xCB64000011AE, 0xCB6B); (0xCB64000011AF, 0xCB6C);
  (0xCB64000011B0, 0xCB6D); (0xCB64000011B1, 0xCB6E); (0xCB64000011B2, 0xCB6F);
  (0xCB64000011B3, 0xCB70); (0xCB64000011B4, 0xCB71); (0xCB64000011B5, 0xCB72);
  (0xCB64000011B6, 0xCB73); (0xCB64000011B7, 0xCB74); (0xCB64000011B8, 0xCB75);
  (0xCB64000011B9, 0xCB76); (0xCB64000011BA, 0xCB77); (0xCB64000011BB, 0xCB78);
  (0xCB64000011BC, 0xCB79); (0xCB64000011BD, 0xCB7A); (0xCB64000011BE, 0xCB7B);
  (0xCB64000011BF, 0xCB7C); (0xCB64000011C0, 0xCB7D); (0xCB64000011C1, 0xCB7E);
  (0xCB64000011C2, 0xCB7F); (0xCB80000011A8, 0xCB81); (0xCB80000011A9, 0xCB82);
  (0xCB80000011AA, 0xCB83); (0xCB80000011AB, 0xCB84); (0xCB80000011AC, 0xCB85);
  (0xCB80000011AD, 0xCB86); (0xCB80000011AE, 0xCB87); (0xCB80000011AF, 0xCB88);
  (0xCB80000011B0, 0xCB89); (0xCB80000011B1, 0xCB8A); (0xCB80000011B2, 0xCB8B);
  (0xCB80000011B3, 0xCB8C); (0xCB80000011B4, 0xCB8D); (0xCB80000011B5, 0xCB8E);
  (0xCB80000011B6, 0xCB8F); (0xCB80000011B7, 0xCB90); (0xCB80000011B8, 0xCB91);
  (0xCB80000011B9, 0xCB92); (0xCB80000011BA, 0xCB93); (0xCB80000011BB, 0xCB94);
  (0xCB80000011BC, 0xCB95); (0xCB80000011BD, 0xCB96); (0xCB80000011BE, 0xCB97);
  (0xCB80000011BF, 0xCB98); (0xCB80000011C0, 0xCB99); (0xCB80000011C1, 0xCB9A);
  (0xCB80000011C2, 0xCB9B); (0xCB9C000011A8, 0xCB9D); (0xCB9C000011A9, 0xCB9E);
  (0xCB9C000011AA, 0xCB9F); (0xCB9C000011AB, 0xCBA0); (0xCB9C000011AC, 0xCBA1);
  (0xCB9C000011AD, 0xCBA2); (0xCB9C000011AE, 0xCBA3); (0xCB9C000011AF, 0xCBA4);
  (0xCB9C000011B0, 0xCBA5); (0xCB9C000011B1, 0xCBA6); (0xCB9C000011B2, 0xCBA7);
  (0xCB9C000011B3, 0xCBA8); (0xCB9C000011B4, 0xCBA9); (0xCB9C000011B5, 0xCBAA);
  (0xCB9C000011B6, 0xCBAB); (0xCB9C000011B7, 0xCBAC); (0xCB9C000011B8, 0xCBAD);
  (0xCB9C000011B9, 0xCBAE); (0xCB9C000011BA, 0xCBAF); (0xCB9C000011BB, 0xCBB0) ].

Definition nfcCompose_61 : list (Z * Z) := [
  (0xCB9C000011BC, 0xCBB1); (0xCB9C000011BD, 0xCBB2); (0xCB9C000011BE, 0xCBB3);
  (0xCB9C000011BF, 0xCBB4); (0xCB9C000011C0, 0xCBB5); (0xCB9C000011C1, 0xCBB6);
  (0xCB9C000011C2, 0xCBB7); (0xCBB8000011A8, 0xCBB9); (0xCBB8000011A9, 0xCBBA);
  (0xCBB8000011AA, 0xCBBB); (0xCBB8000011AB, 0xCBBC); (0xCBB8000011AC, 0xCBBD);
  (0xCBB8000011AD, 0xCBBE); (0xCBB8000011AE, 0xCBBF); (0xCBB8000011AF, 0xCBC0);
  (0xCBB8000011B0, 0xCBC1); (0xCBB8000011B1, 0xCBC2); (0xCBB8000011B2, 0xCBC3);
  (0xCBB8000011B3, 0xCBC4); (0xCBB8000011B4, 0xCBC5); (0xCBB8000011B5, 0xCBC6);
  (0xCBB8000011B6, 0xCBC7); (0xCBB8000011B7, 0xCBC8); (0xCBB8000011B8, 0xCBC9);
  (0xCBB8000011B9, 0xCBCA); (0xCBB8000011BA, 0xCBCB); (0xCBB8000011BB, 0xCBCC);
  (0xCBB8000011BC, 0xCBCD); (0xCBB8000011BD, 0xCBCE); (0xCBB8000011BE, 0xCBCF);
  (0xCBB8000011BF, 0xCBD0); (0xCBB8000011C0, 0xCBD1); (0xCBB8000011C1, 0xCBD2);
  (0xCBB8000011C2, 0xCBD3); (0xCBD4000011A8, 0xCBD5); (0xCBD4000011A9, 0xCBD6);
  (0xCBD4000011AA, 0xCBD7); (0xCBD4000011AB, 0xCBD8); (0xCBD4000011AC, 0xCBD9);
  (0xCBD4000011AD, 0xCBDA); (0xCBD4000011AE, 0xCBDB); (0xCBD4000011AF, 0xCBDC);
  (0xCBD4000011B0, 0xCBDD); (0xCBD4000011B1, 0xCBDE); (0xCBD4000011B2, 0xCBDF);
  (0xCBD4000011B3, 0xCBE0); (0xCBD4000011B4, 0xCBE1); (0xCBD4000011B5, 0xCBE2);
  (0xCBD4000011B6, 0xCBE3); (0xCBD4000011B7, 0xCBE4); (0xCBD4000011B8, 0xCBE5);
  (0xCBD4000011B9, 0xCBE6); (0xCBD4000011BA, 0xCBE7); (0xCBD4000011BB, 0xCBE8);
  (0xCBD4000011BC, 0xCBE9); (0xCBD4000011BD, 0xCBEA); (0xCBD4000011BE, 0xCBEB);
  (0xCBD4000011BF, 0xCBEC); (0xCBD4000011C0, 0xCBED); (0xCBD4000011C1, 0xCBEE);
  (0xCBD4000011C2, 0xCBEF); (0xCBF0000011A8, 0xCBF1); (0xCBF0000011A9, 0xCBF2);
  (0xCBF0000011AA, 0xCBF3); (0xCBF0000011AB, 0xCBF4); (0xCBF0000011AC, 0xCBF5);
  (0xCBF0000011AD, 0xCBF6); (0xCBF0000011AE, 0xCBF7); (0xCBF0000011AF, 0xCBF8);
  (0xCBF0000011B0, 0xCBF9); (0xCBF0000011B1, 0xCBFA); (0xCBF0000011B2, 0xCBFB);
  (0xCBF0000011B3, 0xCBFC); (0xCBF0000011B4, 0xCBFD); (0xCBF0000011B5, 0xCBFE);
  (0xCBF0000011B6, 0xCBFF); (0xCBF0000011B7, 0xCC00); (0xCBF0000011B8, 0xCC01);
  (0xCBF0000011B9, 0xCC02); (0xCBF0000011BA, 0xCC03); (0xCBF0000011BB, 0xCC04);
  (0xCBF0000011BC, 0xCC05); (0xCBF0000011BD, 0xCC06); (0xCBF0000011BE, 0xCC07);
  (0xCBF0000011BF, 0xCC08); (0xCBF0000011C0, 0xCC09); (0xCBF0000011C1, 0xCC0A);
  (0xCBF0000011C2, 0xCC0B); (0xCC0C000011A8, 0xCC0D); (0xCC0C000011A9, 0xCC0E);
  (0xCC0C000011AA, 0xCC0F); (0xCC0C000011AB, 0xCC10); (0xCC0C000011AC, 0xCC11);
  (0xCC0C000011AD, 0xCC12); (0xCC0C000011AE, 0xCC13); (0xCC0C000011AF, 0xCC14);
  (0xCC0C000011B0, 0xCC15); (0xCC0C000011B1, 0xCC16); (0xCC0C000011B2, 0xCC17);
  (0xCC0C000011B3, 0xCC18); (0xCC0C000011B4, 0xCC19); (0xCC0C000011B5, 0xCC1A);
  (0xCC0C000011B6, 0xCC1B); (0xCC0C000011B7, 0xCC1C); (0xCC0C000011B8, 0xCC1D);
  (0xCC0C000011B9, 0xCC1E); (0xCC0C000011BA, 0xCC1F); (0xCC0C000011BB, 0xCC20);
  (0xCC0C000011BC, 0xCC21); (0xCC0C000011BD, 0xCC22); (0xCC0C000011BE, 0xCC23);
  (0xCC0C000011BF, 0xCC24); (0xCC0C000011C0, 0xCC25); (0xCC0C000011C1, 0xCC26);
  (0xCC0C000011C2, 0xCC27); (0xCC28000011A8, 0xCC29); (0xCC28000011A9, 0xCC2A);
  (0xCC28000011AA, 0xCC2B); (0xCC28000011AB, 0xCC2C); (0xCC28000011AC, 0xCC2D);
  (0xCC28000011AD, 0xCC2E); (0xCC28000011AE, 0xCC2F); (0xCC28000011AF, 0xCC30);
  (0xCC28000011B0, 0xCC31); (0xCC28000011B1, 0xCC32); (0xCC28000011B2, 0xCC33);
  (0xCC28000011B3, 0xCC34); (0xCC28000011B4, 0xCC35); (0xCC28000011B5, 0xCC36);
  (0xCC28000011B6, 0xCC37); (0xCC28000011B7, 0xCC38); (0xCC28000011B8, 0xCC39);
  (0xCC28000011B9, 0xCC3A); (0xCC28000011BA, 0xCC3B); (0xCC28000011BB, 0xCC3C);
  (0xCC28000011BC, 0xCC3D); (0xCC28000011BD, 0xCC3E); (0xCC28000011BE, 0xCC3F);
  (0xCC28000011BF, 0xCC40); (0xCC28000011C0, 0xCC41); (0xCC28000011C1, 0xCC42);
  (0xCC28000011C2, 0xCC43); (0xCC44000011A8, 0xCC45); (0xCC44000011A9, 0xCC46);
  (0xCC44000011AA, 0xCC47); (0xCC44000011AB, 0xCC48); (0xCC44000011AC, 0xCC49);
  (0xCC44000011AD, 0xCC4A); (0xCC44000011AE, 0xCC4B); (0xCC44000011AF, 0xCC4C) ].

Definition nfcCompose_62 : list (Z * Z) := [
  (0xCC44000011B0, 0xCC4D); (0xCC44000011B1, 0xCC4E); (0xCC44000011B2, 0xCC4F);
  (0xCC44000011B3, 0xCC50); (0xCC44000011B4, 0xCC51); (0xCC44000011B5, 0xCC52);
  (0xCC44000011B6, 0xCC53); (0xCC44000011B7, 0xCC54); (0xCC44000011B8, 0xCC55);
  (0xCC44000011B9, 0xCC56); (0xCC44000011BA, 0xCC57); (0xCC44000011BB, 0xCC58);
  (0xCC44000011BC, 0xCC59); (0xCC44000011BD, 0xCC5A); (0xCC44000011BE, 0xCC5B);
  (0xCC44000011BF, 0xCC5C); (0xCC44000011C0, 0xCC5D); (0xCC44000011C1, 0xCC5E);
  (0xCC44000011C2, 0xCC5F); (0xCC60000011A8, 0xCC61); (0xCC60000011A9, 0xCC62);
  (0xCC60000011AA, 0xCC63); (0xCC60000011AB, 0xCC64); (0xCC60000011AC, 0xCC65);
  (0xCC60000011AD, 0xCC66); (0xCC60000011AE, 0xCC67); (0xCC60000011AF, 0xCC68);
  (0xCC60000011B0, 0xCC69); (0xCC60000011B1, 0xCC6A); (0xCC60000011B2, 0xCC6B);
  (0xCC60000011B3, 0xCC6C); (0xCC60000011B4, 0xCC6D); (0xCC60000011B5, 0xCC6E);
  (0xCC60000011B6, 0xCC6F); (0xCC60000011B7, 0xCC70); (0xCC60000011B8, 0xCC71);
  (0xCC60000011B9, 0xCC72); (0xCC60000011BA, 0xCC73); (0xCC60000011BB, 0xCC74);
  (0xCC60000011BC, 0xCC75); (0xCC60000011BD, 0xCC76); (0xCC60000011BE, 0xCC77);
  (0xCC60000011BF, 0xCC78); (0xCC60000011C0, 0xCC79); (0xCC60000011C1, 0xCC7A);
  (0xCC60000011C2, 0xCC7B); (0xCC7C000011A8, 0xCC7D); (0xCC7C000011A9, 0xCC7E);
  (0xCC7C000011AA, 0xCC7F); (0xCC7C000011AB, 0xCC80); (0xCC7C000011AC, 0xCC81);
  (0xCC7C000011AD, 0xCC82); (0xCC7C000011AE, 0xCC83); (0xCC7C000011AF, 0xCC84);
  (0xCC7C000011B0, 0xCC85); (0xCC7C000011B1, 0xCC86); (0xCC7C000011B2, 0xCC87);
  (0xCC7C000011B3, 0xCC88); (0xCC7C000011B4, 0xCC89); (0xCC7C000011B5, 0xCC8A);
  (0xCC7C000011B6, 0xCC8B); (0xCC7C000011B7, 0xCC8C); (0xCC7C000011B8, 0xCC8D);
  (0xCC7C000011B9, 0xCC8E); (0xCC7C000011BA, 0xCC8F); (0xCC7C000011BB, 0xCC90);
  (0xCC7C000011BC, 0xCC91); (0xCC7C000011BD, 0xCC92); (0xCC7C000011BE, 0xCC93);
  (0xCC7C000011BF, 0xCC94); (0xCC7C000011C0, 0xCC95); (0xCC7C000011C1, 0xCC96);
  (0xCC7C000011C2, 0xCC97); (0xCC98000011A8, 0xCC99); (0xCC98000011A9, 0xCC9A);
  (0xCC98000011AA, 0xCC9B); (0xCC98000011AB, 0xCC9C); (0xCC98000011AC, 0xCC9D);
  (0xCC98000011AD, 0xCC9E); (0xCC98000011AE, 0xCC9F); (0xCC98000011AF, 0xCCA0);
  (0xCC98000011B0, 0xCCA1); (0xCC98000011B1, 0xCCA2); (0xCC98000011B2, 0xCCA3);
  (0xCC98000011B3, 0xCCA4); (0xCC98000011B4, 0xCCA5); (0xCC98000011B5, 0xCCA6);
  (0xCC98000011B6, 0xCCA7); (0xCC98000011B7, 0xCCA8); (0xCC98000011B8, 0xCCA9);
  (0xCC98000011B9, 0xCCAA); (0xCC98000011BA, 0xCCAB); (0xCC98000011BB, 0xCCAC);
  (0xCC98000011BC, 0xCCAD); (0xCC98000011BD, 0xCCAE); (0xCC98000011BE, 0xCCAF);
  (0xCC98000011BF, 0xCCB0); (0xCC98000011C0, 0xCCB1); (0xCC98000011C1, 0xCCB2);
  (0xCC98000011C2, 0xCCB3); (0xCCB4000011A8, 0xCCB5); (0xCCB4000011A9, 0xCCB6);
  (0xCCB4000011AA, 0xCCB7); (0xCCB4000011AB, 0xCCB8); (0xCCB4000011AC, 0xCCB9);
  (0xCCB4000011AD, 0xCCBA); (0xCCB4000011AE, 0xCCBB); (0xCCB4000011AF, 0xCCBC);
  (0xCCB4000011B0, 0xCCBD); (0xCCB4000011B1, 0xCCBE); (0xCCB4000011B2, 0xCCBF);
  (0xCCB4000011B3, 0xCCC0); (0xCCB4000011B4, 0xCCC1); (0xCCB4000011B5, 0xCCC2);
  (0xCCB4000011B6, 0xCCC3); (0xCCB4000011B7, 0xCCC4); (0xCCB4000011B8, 0xCCC5);
  (0xCCB4000011B9, 0xCCC6); (0xCCB4000011BA, 0xCCC7); (0xCCB4000011BB, 0xCCC8);
  (0xCCB4000011BC, 0xCCC9); (0xCCB4000011BD, 0xCCCA); (0xCCB4000011BE, 0xCCCB);
  (0xCCB4000011BF, 0xCCCC); (0xCCB4000011C0, 0xCCCD); (0xCCB4000011C1, 0xCCCE);
  (0xCCB4000011C2, 0xCCCF); (0xCCD0000011A8, 0xCCD1); (0xCCD0000011A9, 0xCCD2);
  (0xCCD0000011AA, 0xCCD3); (0xCCD0000011AB, 0xCCD4); (0xCCD0000011AC, 0xCCD5);
  (0xCCD0000011AD, 0xCCD6); (0xCCD0000011AE, 0xCCD7); (0xCCD0000011AF, 0xCCD8);
  (0xCCD0000011B0, 0xCCD9); (0xCCD0000011B1, 0xCCDA); (0xCCD0000011B2, 0xCCDB);
  (0xCCD0000011B3, 0xCCDC); (0xCCD0000011B4, 0xCCDD); (0xCCD0000011B5, 0xCCDE);
  (0xCCD0000011B6, 0xCCDF); (0xCCD0000011B7, 0xCCE0); (0xCCD0000011B8, 0xCCE1);
  (0xCCD0000011B9, 0xCCE2); (0xCCD0000011BA, 0xCCE3); (0xCCD0000011BB, 0xCCE4);
  (0xCCD0000011BC, 0xCCE5); (0xCCD0000011BD, 0xCCE6); (0xCCD0000011BE, 0xCCE7) ].

Definition nfcCompose_63 : list (Z * Z) := [
  (0xCCD0000011BF, 0xCCE8); (0xCCD0000011C0, 0xCCE9); (0xCCD0000011C1, 0xCCEA);
  (0xCCD0000011C2, 0xCCEB); (0xCCEC000011A8, 0xCCED); (0xCCEC000011A9, 0xCCEE);
  (0xCCEC000011AA, 0xCCEF); (0xCCEC000011AB, 0xCCF0); (0xCCEC000011AC, 0xCCF1);
  (0xCCEC000011AD, 0xCCF2); (0xCCEC000011AE, 0xCCF3); (0xCCEC000011AF, 0xCCF4);
  (0xCCEC000011B0, 0xCCF5); (0xCCEC000011B1, 0xCCF6); (0xCCEC000011B2, 0xCCF7);
  (0xCCEC000011B3, 0xCCF8); (0xCCEC000011B4, 0xCCF9); (0xCCEC000011B5, 0xCCFA);
  (0xCCEC000011B6, 0xCCFB); (0xCCEC000011B7, 0xCCFC); (0xCCEC000011B8, 0xCCFD);
  (0xCCEC000011B9, 0xCCFE); (0xCCEC000011BA, 0xCCFF); (0xCCEC000011BB, 0xCD00);
  (0xCCEC000011BC, 0xCD01); (0xCCEC000011BD, 0xCD02); (0xCCEC000011BE, 0xCD03);
  (0xCCEC000011BF, 0xCD04); (0xCCEC000011C0, 0xCD05); (0xCCEC000011C1, 0xCD06);
  (0xCCEC000011C2, 0xCD07); (0xCD08000011A8, 0xCD09); (0xCD08000011A9, 0xCD0A);
  (0xCD08000011AA, 0xCD0B); (0xCD08000011AB, 0xCD0C); (0xCD08000011AC, 0xCD0D);
  (0xCD08000011AD, 0xCD0E); (0xCD08000011AE, 0xCD0F); (0xCD08000011AF, 0xCD10);
  (0xCD08000011B0, 0xCD11); (0xCD08000011B1, 0xCD12); (0xCD08000011B2, 0xCD13);
  (0xCD08000011B3, 0xCD14); (0xCD08000011B4, 0xCD15); (0xCD08000011B5, 0xCD16);
  (0xCD08000011B6, 0xCD17); (0xCD08000011B7, 0xCD18); (0xCD08000011B8, 0xCD19);
  (0xCD08000011B9, 0xCD1A); (0xCD08000011BA, 0xCD1B); (0xCD08000011BB, 0xCD1C);
  (0xCD08000011BC, 0xCD1D); (0xCD08000011BD, 0xCD1E); (0xCD08000011BE, 0xCD1F);
  (0xCD08000011BF, 0xCD20); (0xCD08000011C0, 0xCD21); (0xCD08000011C1, 0xCD22);
  (0xCD08000011C2, 0xCD23); (0xCD24000011A8, 0xCD25); (0xCD24000011A9, 0xCD26);
  (0xCD24000011AA, 0xCD27); (0xCD24000011AB, 0xCD28); (0xCD24000011AC, 0xCD29);
  (0xCD24000011AD, 0xCD2A); (0xCD24000011AE, 0xCD2B); (0xCD24000011AF, 0xCD2C);
  (0xCD24000011B0, 0xCD2D); (0xCD24000011B1, 0xCD2E); (0xCD24000011B2, 0xCD2F);
  (0xCD24000011B3, 0xCD30); (0xCD24000011B4, 0xCD31); (0xCD24000011B5, 0xCD32);
  (0xCD24000011B6, 0xCD33); (0xCD24000011B7, 0xCD34); (0xCD24000011B8, 0xCD35);
  (0xCD24000011B9, 0xCD36); (0xCD24000011BA, 0xCD37); (0xCD24000011BB, 0xCD38);
  (0xCD24000011BC, 0xCD39); (0xCD24000011BD, 0xCD3A); (0xCD24000011BE, 0xCD3B);
  (0xCD24000011BF, 0xCD3C); (0xCD24000011C0, 0xCD3D); (0xCD24000011C1, 0xCD3E);
  (0xCD24000011C2, 0xCD3F); (0xCD40000011A8, 0xCD41); (0xCD40000011A9, 0xCD42);
  (0xCD40000011AA, 0xCD43); (0xCD40000011AB, 0xCD44); (0xCD40000011AC, 0xCD45);
  (0xCD40000011AD, 0xCD46); (0xCD40000011AE, 0xCD47); (0xCD40000011AF, 0xCD48);
  (0xCD40000011B0, 0xCD49); (0xCD40000011B1, 0xCD4A); (0xCD40000011B2, 0xCD4B);
  (0xCD40000011B3, 0xCD4C); (0xCD40000011B4, 0xCD4D); (0xCD40000011B5, 0xCD4E);
  (0xCD40000011B6, 0xCD4F); (0xCD40000011B7, 0xCD50); (0xCD40000011B8, 0xCD51);
  (0xCD40000011B9, 0xCD52); (0xCD40000011BA, 0xCD53); (0xCD40000011BB, 0xCD54);
  (0xCD40000011BC, 0xCD55); (0xCD40000011BD, 0xCD56); (0xCD40000011BE, 0xCD57);
  (0xCD40000011BF, 0xCD58); (0xCD40000011C0, 0xCD59); (0xCD40000011C1, 0xCD5A);
  (0xCD40000011C2, 0xCD5B); (0xCD5C000011A8, 0xCD5D); (0xCD5C000011A9, 0xCD5E);
  (0xCD5C000011AA, 0xCD5F); (0xCD5C000011AB, 0xCD60); (0xCD5C000011AC, 0xCD61);
  (0xCD5C000011AD, 0xCD62); (0xCD5C000011AE, 0xCD63); (0xCD5C000011AF, 0xCD64);
  (0xCD5C000011B0, 0xCD65); (0xCD5C000011B1, 0xCD66); (0xCD5C000011B2, 0xCD67);
  (0xCD5C000011B3, 0xCD68); (0xCD5C000011B4, 0xCD69); (0xCD5C000011B5, 0xCD6A);
  (0xCD5C000011B6, 0xCD6B); (0xCD5C000011B7, 0xCD6C); (0xCD5C000011B8, 0xCD6D);
  (0xCD5C000011B9, 0xCD6E); (0xCD5C000011BA, 0xCD6F); (0xCD5C000011BB, 0xCD70);
  (0xCD5C000011BC, 0xCD71); (0xCD5C000011BD, 0xCD72); (0xCD5C000011BE, 0xCD73);
  (0xCD5C000011BF, 0xCD74); (0xCD5C000011C0, 0xCD75); (0xCD5C000011C1, 0xCD76);
  (0xCD5C000011C2, 0xCD77); (0xCD78000011A8, 0xCD79); (0xCD78000011A9, 0xCD7A);
  (0xCD78000011AA, 0xCD7B); (0xCD78000011AB, 0xCD7C); (0xCD78000011AC, 0xCD7D);
  (0xCD78000011AD, 0xCD7E); (0xCD78000011AE, 0xCD7F); (0xCD78000011AF, 0xCD80);
  (0xCD78000011B0, 0xCD81); (0xCD78000011B1, 0xCD82); (0xCD78000011B2, 0xCD83) ].

Definition nfcCompose_64 : list (Z * Z) := [
  (0xCD78000011B3, 0xCD84); (0xCD78000011B4, 0xCD85); (0xCD78000011B5, 0xCD86);
  (0xCD78000011B6, 0xCD87); (0xCD78000011B7, 0xCD88); (0xCD78000011B8, 0xCD89);
  (0xCD78000011B9, 0xCD8A); (0xCD78000011BA, 0xCD8B); (0xCD78000011BB, 0xCD8C);
  (0xCD78000011BC, 0xCD8D); (0xCD78000011BD, 0xCD8E); (0xCD78000011BE, 0xCD8F);
  (0xCD78000011BF, 0xCD90); (0xCD78000011C0, 0xCD91); (0xCD78000011C1, 0xCD92);
  (0xCD78000011C2, 0xCD93); (0xCD94000011A8, 0xCD95); (0xCD94000011A9, 0xCD96);
  (0xCD94000011AA, 0xCD97); (0xCD94000011AB, 0xCD98); (0xCD94000011AC, 0xCD99);
  (0xCD94000011AD, 0xCD9A); (0xCD94000011AE, 0xCD9B); (0xCD94000011AF, 0xCD9C);
  (0xCD94000011B0, 0xCD9D); (0xCD94000011B1, 0xCD9E); (0xCD94000011B2, 0xCD9F);
  (0xCD94000011B3, 0xCDA0); (0xCD94000011B4, 0xCDA1); (0xCD94000011B5, 0xCDA2);
  (0xCD94000011B6, 0xCDA3); (0xCD94000011B7, 0xCDA4); (0xCD94000011B8, 0xCDA5);
  (0xCD94000011B9, 0xCDA6); (0xCD94000011BA, 0xCDA7); (0xCD94000011BB, 0xCDA8);
  (0xCD94000011BC, 0xCDA9); (0xCD94000011BD, 0xCDAA); (0xCD94000011BE, 0xCDAB);
  (0xCD94000011BF, 0xCDAC); (0xCD94000011C0, 0xCDAD); (0xCD94000011C1, 0xCDAE);
  (0xCD94000011C2, 0xCDAF); (0xCDB0000011A8, 0xCDB1); (0xCDB0000011A9, 0xCDB2);
  (0xCDB0000011AA, 0xCDB3); (0xCDB0000011AB, 0xCDB4); (0xCDB0000011AC, 0xCDB5);
  (0xCDB0000011AD, 0xCDB6); (0xCDB0000011AE, 0xCDB7); (0xCDB0000011AF, 0xCDB8);
  (0xCDB0000011B0, 0xCDB9); (0xCDB0000011B1, 0xCDBA); (0xCDB0000011B2, 0xCDBB);
  (0xCDB0000011B3, 0xCDBC); (0xCDB0000011B4, 0xCDBD); (0xCDB0000011B5, 0xCDBE);
  (0xCDB0000011B6, 0xCDBF); (0xCDB0000011B7, 0xCDC0); (0xCDB0000011B8, 0xCDC1);
  (0xCDB0000011B9, 0xCDC2); (0xCDB0000011BA, 0xCDC3); (0xCDB0000011BB, 0xCDC4);
  (0xCDB0000011BC, 0xCDC5); (0xCDB0000011BD, 0xCDC6); (0xCDB0000011BE, 0xCDC7);
  (0xCDB0000011BF, 0xCDC8); (0xCDB0000011C0, 0xCDC9); (0xCDB0000011C1, 0xCDCA);
  (0xCDB0000011C2, 0xCDCB); (0xCDCC000011A8, 0xCDCD); (0xCDCC000011A9, 0xCDCE);
  (0xCDCC000011AA, 0xCDCF); (0xCDCC000011AB, 0xCDD0); (0xCDCC000011AC, 0xCDD1);
  (0xCDCC000011AD, 0xCDD2); (0xCDCC000011AE, 0xCDD3); (0xCDCC000011AF, 0xCDD4);
  (0xCDCC000011B0, 0xCDD5); (0xCDCC000011B1, 0xCDD6); (0xCDCC000011B2, 0xCDD7);
  (0xCDCC000011B3, 0xCDD8); (0xCDCC000011B4, 0xCDD9); (0xCDCC000011B5, 0xCDDA);
  (0xCDCC000011B6, 0xCDDB); (0xCDCC000011B7, 0xCDDC); (0xCDCC000011B8, 0xCDDD);
  (0xCDCC000011B9, 0xCDDE); (0xCDCC000011BA, 0xCDDF); (0xCDCC000011BB, 0xCDE0);
  (0xCDCC000011BC, 0xCDE1); (0xCDCC000011BD, 0xCDE2); (0xCDCC000011BE, 0xCDE3);
  (0xCDCC000011BF, 0xCDE4); (0xCDCC000011C0, 0xCDE5); (0xCDCC000011C1, 0xCDE6);
  (0xCDCC000011C2, 0xCDE7); (0xCDE8000011A8, 0xCDE9); (0xCDE8000011A9, 0xCDEA);
  (0xCDE8000011AA, 0xCDEB); (0xCDE8000011AB, 0xCDEC); (0xCDE8000011AC, 0xCDED);
  (0xCDE8000011AD, 0xCDEE); (0xCDE8000011AE, 0xCDEF); (0xCDE8000011AF, 0xCDF0);
  (0xCDE8000011B0, 0xCDF1); (0xCDE8000011B1, 0xCDF2); (0xCDE8000011B2, 0xCDF3);
  (0xCDE8000011B3, 0xCDF4); (0xCDE8000011B4, 0xCDF5); (0xCDE8000011B5, 0xCDF6);
  (0xCDE8000011B6, 0xCDF7); (0xCDE8000011B7, 0xCDF8); (0xCDE8000011B8, 0xCDF9);
  (0xCDE8000011B9, 0xCDFA); (0xCDE8000011BA, 0xCDFB); (0xCDE8000011BB, 0xCDFC);
  (0xCDE8000011BC, 0xCDFD); (0xCDE8000011BD, 0xCDFE); (0xCDE8000011BE, 0xCDFF);
  (0xCDE8000011BF, 0xCE00); (0xCDE8000011C0, 0xCE01); (0xCDE8000011C1, 0xCE02);
  (0xCDE8000011C2, 0xCE03); (0xCE04000011A8, 0xCE05); (0xCE04000011A9, 0xCE06);
  (0xCE04000011AA, 0xCE07); (0xCE04000011AB, 0xCE08); (0xCE04000011AC, 0xCE09);
  (0xCE04000011AD, 0xCE0A); (0xCE04000011AE, 0xCE0B); (0xCE04000011AF, 0xCE0C);
  (0xCE04000011B0, 0xCE0D); (0xCE04000011B1, 0xCE0E); (0xCE04000011B2, 0xCE0F);
  (0xCE04000011B3, 0xCE10); (0xCE04000011B4, 0xCE11); (0xCE04000011B5, 0xCE12);
  (0xCE04000011B6, 0xCE13); (0xCE04000011B7, 0xCE14); (0xCE04000011B8, 0xCE15);
  (0xCE04000011B9, 0xCE16); (0xCE04000011BA, 0xCE17); (0xCE04000011BB, 0xCE18);
  (0xCE04000011BC, 0xCE19); (0xCE04000011BD, 0xCE1A); (0xCE04000011BE, 0xCE1B);
  (0xCE04000011BF, 0xCE1C); (0xCE04000011C0, 0xCE1D); (0xCE04000011C1, 0xCE1E) ].

Definition nfcCompose_65 : list (Z * Z) := [
  (0xCE04000011C2, 0xCE1F); (0xCE20000011A8, 0xCE21); (0xCE20000011A9, 0xCE22);
  (0xCE20000011AA, 0xCE23); (0xCE20000011AB, 0xCE24); (0xCE20000011AC, 0xCE25);
  (0xCE20000011AD, 0xCE26); (0xCE20000011AE, 0xCE27); (0xCE20000011AF, 0xCE28);
  (0xCE20000011B0, 0xCE29); (0xCE20000011B1, 0xCE2A); (0xCE20000011B2, 0xCE2B);
  (0xCE20000011B3, 0xCE2C); (0xCE20000011B4, 0xCE2D); (0xCE20000011B5, 0xCE2E);
  (0xCE20000011B6, 0xCE2F); (0xCE20000011B7, 0xCE30); (0xCE20000011B8, 0xCE31);
  (0xCE20000011B9, 0xCE32); (0xCE20000011BA, 0xCE33); (0xCE20000011BB, 0xCE34);
  (0xCE20000011BC, 0xCE35); (0xCE20000011BD, 0xCE36); (0xCE20000011BE, 0xCE37);
  (0xCE20000011BF, 0xCE38); (0xCE20000011C0, 0xCE39); (0xCE20000011C1, 0xCE3A);
  (0xCE20000011C2, 0xCE3B); (0xCE3C000011A8, 0xCE3D); (0xCE3C000011A9, 0xCE3E);
  (0xCE3C000011AA, 0xCE3F); (0xCE3C000011AB, 0xCE40); (0xCE3C000011AC, 0xCE41);
  (0xCE3C000011AD, 0xCE42); (0xCE3C000011AE, 0xCE43); (0xCE3C000011AF, 0xCE44);
  (0xCE3C000011B0, 0xCE45); (0xCE3C000011B1, 0xCE46); (0xCE3C000011B2, 0xCE47);
  (0xCE3C000011B3, 0xCE48); (0xCE3C000011B4, 0xCE49); (0xCE3C000011B5, 0xCE4A);
  (0xCE3C000011B6, 0xCE4B); (0xCE3C000011B7, 0xCE4C); (0xCE3C000011B8, 0xCE4D);
  (0xCE3C000011B9, 0xCE4E); (0xCE3C000011BA, 0xCE4F); (0xCE3C000011BB, 0xCE50);
  (0xCE3C000011BC, 0xCE51); (0xCE3C000011BD, 0xCE52); (0xCE3C000011BE, 0xCE53);
  (0xCE3C000011BF, 0xCE54); (0xCE3C000011C0, 0xCE55); (0xCE3C000011C1, 0xCE56);
  (0xCE3C000011C2, 0xCE57); (0xCE58000011A8, 0xCE59); (0xCE58000011A9, 0xCE5A);
  (0xCE58000011AA, 0xCE5B); (0xCE58000011AB, 0xCE5C); (0xCE58000011AC, 0xCE5D);
  (0xCE58000011AD, 0xCE5E); (0xCE58000011AE, 0xCE5F); (0xCE58000011AF, 0xCE60);
  (0xCE58000011B0, 0xCE61); (0xCE58000011B1, 0xCE62); (0xCE58000011B2, 0xCE63);
  (0xCE58000011B3, 0xCE64); (0xCE58000011B4, 0xCE65); (0xCE58000011B5, 0xCE66);
  (0xCE58000011B6, 0xCE67); (0xCE58000011B7, 0xCE68); (0xCE58000011B8, 0xCE69);
  (0xCE58000011B9, 0xCE6A); (0xCE58000011BA, 0xCE6B); (0xCE58000011BB, 0xCE6C);
  (0xCE58000011BC, 0xCE6D); (0xCE58000011BD, 0xCE6E); (0xCE58000011BE, 0xCE6F);
  (0xCE58000011BF, 0xCE70); (0xCE58000011C0, 0xCE71); (0xCE58000011C1, 0xCE72);
  (0xCE58000011C2, 0xCE73); (0xCE74000011A8, 0xCE75); (0xCE74000011A9, 0xCE76);
  (0xCE74000011AA, 0xCE77); (0xCE74000011AB, 0xCE78); (0xCE74000011AC, 0xCE79);
  (0xCE74000011AD, 0xCE7A); (0xCE74000011AE, 0xCE7B); (0xCE74000011AF, 0xCE7C);
  (0xCE74000011B0, 0xCE7D); (0xCE74000011B1, 0xCE7E); (0xCE74000011B2, 0xCE7F);
  (0xCE74000011B3, 0xCE80); (0xCE74000011B4, 0xCE81); (0xCE74000011B5, 0xCE82);
  (0xCE74000011B6, 0xCE83); (0xCE74000011B7, 0xCE84); (0xCE74000011B8, 0xCE85);
  (0xCE74000011B9, 0xCE86); (0xCE74000011BA, 0xCE87); (0xCE74000011BB, 0xCE88);
  (0xCE74000011BC, 0xCE89); (0xCE74000011BD, 0xCE8A); (0xCE74000011BE, 0xCE8B);
  (0xCE74000011BF, 0xCE8C); (0xCE74000011C0, 0xCE8D); (0xCE74000011C1, 0xCE8E);
  (0xCE74000011C2, 0xCE8F); (0xCE90000011A8, 0xCE91); (0xCE90000011A9, 0xCE92);
  (0xCE90000011AA, 0xCE93); (0xCE90000011AB, 0xCE94); (0xCE90000011AC, 0xCE95);
  (0xCE90000011AD, 0xCE96); (0xCE90000011AE, 0xCE97); (0xCE90000011AF, 0xCE98);
  (0xCE90000011B0, 0xCE99); (0xCE90000011B1, 0xCE9A); (0xCE90000011B2, 0xCE9B);
  (0xCE90000011B3, 0xCE9C); (0xCE90000011B4, 0xCE9D); (0xCE90000011B5, 0xCE9E);
  (0xCE90000011B6, 0xCE9F); (0xCE90000011B7, 0xCEA0); (0xCE90000011B8, 0xCEA1);
  (0xCE90000011B9, 0xCEA2); (0xCE90000011BA, 0xCEA3); (0xCE90000011BB, 0xCEA4);
  (0xCE90000011BC, 0xCEA5); (0xCE90000011BD, 0xCEA6); (0xCE90000011BE, 0xCEA7);
  (0xCE90000011BF, 0xCEA8); (0xCE90000011C0, 0xCEA9); (0xCE90000011C1, 0xCEAA);
  (0xCE90000011C2, 0xCEAB); (0xCEAC000011A8, 0xCEAD); (0xCEAC000011A9, 0xCEAE);
  (0xCEAC000011AA, 0xCEAF); (0xCEAC000011AB, 0xCEB0); (0xCEAC000011AC, 0xCEB1);
  (0xCEAC000011AD, 0xCEB2); (0xCEAC000011AE, 0xCEB3); (0xCEAC000011AF, 0xCEB4);
  (0xCEAC000011B0, 0xCEB5); (0xCEAC000011B1, 0xCEB6); (0xCEAC000011B2, 0xCEB7);
  (0xCEAC000011B3, 0xCEB8); (0xCEAC000011B4, 0xCEB9); (0xCEAC000011B5, 0xCEBA) ].

Definition nfcCompose_66 : list (Z * Z) := [
  (0xCEAC000011B6, 0xCEBB); (0xCEAC000011B7, 0xCEBC); (0xCEAC000011B8, 0xCEBD);
  (0xCEAC000011B9, 0xCEBE); (0xCEAC000011BA, 0xCEBF); (0xCEAC000011BB, 0xCEC0);
  (0xCEAC000011BC, 0xCEC1); (0xCEAC000011BD, 0xCEC2); (0xCEAC000011BE, 0xCEC3);
  (0xCEAC000011BF, 0xCEC4); (0xCEAC000011C0, 0xCEC5); (0xCEAC000011C1, 0xCEC6);
  (0xCEAC000011C2, 0xCEC7); (0xCEC8000011A8, 0xCEC9); (0xCEC8000011A9, 0xCECA);
  (0xCEC8000011AA, 0xCECB); (0xCEC8000011AB, 0xCECC); (0xCEC8000011AC, 0xCECD);
  (0xCEC8000011AD, 0xCECE); (0xCEC8000011AE, 0xCECF); (0xCEC8000011AF, 0xCED0);
  (0xCEC8000011B0, 0xCED1); (0xCEC8000011B1, 0xCED2); (0xCEC8000011B2, 0xCED3);
  (0xCEC8000011B3, 0xCED4); (0xCEC8000011B4, 0xCED5); (0xCEC8000011B5, 0xCED6);
  (0xCEC8000011B6, 0xCED7); (0xCEC8000011B7, 0xCED8); (0xCEC8000011B8, 0xCED9);
  (0xCEC8000011B9, 0xCEDA); (0xCEC8000011BA, 0xCEDB); (0xCEC8000011BB, 0xCEDC);
  (0xCEC8000011BC, 0xCEDD); (0xCEC8000011BD, 0xCEDE); (0xCEC8000011BE, 0xCEDF);
  (0xCEC8000011BF, 0xCEE0); (0xCEC8000011C0, 0xCEE1); (0xCEC8000011C1, 0xCEE2);
  (0xCEC8000011C2, 0xCEE3); (0xCEE4000011A8, 0xCEE5); (0xCEE4000011A9, 0xCEE6);
  (0xCEE4000011AA, 0xCEE7); (0xCEE4000011AB, 0xCEE8); (0xCEE4000011AC, 0xCEE9);
  (0xCEE4000011AD, 0xCEEA); (0xCEE4000011AE, 0xCEEB); (0xCEE4000011AF, 0xCEEC);
  (0xCEE4000011B0, 0xCEED); (0xCEE4000011B1, 0xCEEE); (0xCEE4000011B2, 0xCEEF);
  (0xCEE4000011B3, 0xCEF0); (0xCEE4000011B4, 0xCEF1); (0xCEE4000011B5, 0xCEF2);
  (0xCEE4000011B6, 0xCEF3); (0xCEE4000011B7, 0xCEF4); (0xCEE4000011B8, 0xCEF5);
  (0xCEE4000011B9, 0xCEF6); (0xCEE4000011BA, 0xCEF7); (0xCEE4000011BB, 0xCEF8);
  (0xCEE4000011BC, 0xCEF9); (0xCEE4000011BD, 0xCEFA); (0xCEE4000011BE, 0xCEFB);
  (0xCEE4000011BF, 0xCEFC); (0xCEE4000011C0, 0xCEFD); (0xCEE4000011C1, 0xCEFE);
  (0xCEE4000011C2, 0xCEFF); (0xCF00000011A8, 0xCF01); (0xCF00000011A9, 0xCF02);
  (0xCF00000011AA, 0xCF03); (0xCF00000011AB, 0xCF04); (0xCF00000011AC, 0xCF05);
  (0xCF00000011AD, 0xCF06); (0xCF00000011AE, 0xCF07); (0xCF00000011AF, 0xCF08);
  (0xCF00000011B0, 0xCF09); (0xCF00000011B1, 0xCF0A); (0xCF00000011B2, 0xCF0B);
  (0xCF00000011B3, 0xCF0C); (0xCF00000011B4, 0xCF0D); (0xCF00000011B5, 0xCF0E);
  (0xCF00000011B6, 0xCF0F); (0xCF00000011B7, 0xCF10); (0xCF00000011B8, 0xCF11);
  (0xCF00000011B9, 0xCF12); (0xCF00000011BA, 0xCF13); (0xCF00000011BB, 0xCF14);
  (0xCF00000011BC, 0xCF15); (0xCF00000011BD, 0xCF16); (0xCF00000011BE, 0xCF17);
  (0xCF00000011BF, 0xCF18); (0xCF00000011C0, 0xCF19); (0xCF00000011C1, 0xCF1A);
  (0xCF00000011C2, 0xCF1B); (0xCF1C000011A8, 0xCF1D); (0xCF1C000011A9, 0xCF1E);
  (0xCF1C000011AA, 0xCF1F); (0xCF1C000011AB, 0xCF20); (0xCF1C000011AC, 0xCF21);
  (0xCF1C000011AD, 0xCF22); (0xCF1C000011AE, 0xCF23); (0xCF1C000011AF, 0xCF24);
  (0xCF1C000011B0, 0xCF25); (0xCF1C000011B1, 0xCF26); (0xCF1C000011B2, 0xCF27);
  (0xCF1C000011B3, 0xCF28); (0xCF1C000011B4, 0xCF29); (0xCF1C000011B5, 0xCF2A);
  (0xCF1C000011B6, 0xCF2B); (0xCF1C000011B7, 0xCF2C); (0xCF1C000011B8, 0xCF2D);
  (0xCF1C000011B9, 0xCF2E); (0xCF1C000011BA, 0xCF2F); (0xCF1C000011BB, 0xCF30);
  (0xCF1C000011BC, 0xCF31); (0xCF1C000011BD, 0xCF32); (0xCF1C000011BE, 0xCF33);
  (0xCF1C000011BF, 0xCF34); (0xCF1C000011C0, 0xCF35); (0xCF1C000011C1, 0xCF36);
  (0xCF1C000011C2, 0xCF37); (0xCF38000011A8, 0xCF39); (0xCF38000011A9, 0xCF3A);
  (0xCF38000011AA, 0xCF3B); (0xCF38000011AB, 0xCF3C); (0xCF38000011AC, 0xCF3D);
  (0xCF38000011AD, 0xCF3E); (0xCF38000011AE, 0xCF3F); (0xCF38000011AF, 0xCF40);
  (0xCF38000011B0, 0xCF41); (0xCF38000011B1, 0xCF42); (0xCF38000011B2, 0xCF43);
  (0xCF38000011B3, 0xCF44); (0xCF38000011B4, 0xCF45); (0xCF38000011B5, 0xCF46);
  (0xCF38000011B6, 0xCF47); (0xCF38000011B7, 0xCF48); (0xCF38000011B8, 0xCF49);
  (0xCF38000011B9, 0xCF4A); (0xCF38000011BA, 0xCF4B); (0xCF38000011BB, 0xCF4C);
  (0xCF38000011BC, 0xCF4D); (0xCF38000011BD, 0xCF4E); (0xCF38000011BE, 0xCF4F);
  (0xCF38000011BF, 0xCF50); (0xCF38000011C0, 0xCF51); (0xCF38000011C1, 0xCF52);
  (0xCF38000011C2, 0xCF53); (0xCF54000011A8, 0xCF55); (0xCF54000011A9, 0xCF56) ].

Definition nfcCompose_67 : list (Z * Z) := [
  (0xCF54000011AA, 0xCF57); (0xCF54000011AB, 0xCF58); (0xCF54000011AC, 0xCF59);
  (0xCF54000011AD, 0xCF5A); (0xCF54000011AE, 0xCF5B); (0xCF54000011AF, 0xCF5C);
  (0xCF54000011B0, 0xCF5D); (0xCF54000011B1, 0xCF5E); (0xCF54000011B2, 0xCF5F);
  (0xCF54000011B3, 0xCF60); (0xCF54000011B4, 0xCF61); (0xCF54000011B5, 0xCF62);
  (0xCF54000011B6, 0xCF63); (0xCF54000011B7, 0xCF64); (0xCF54000011B8, 0xCF65);
  (0xCF54000011B9, 0xCF66); (0xCF54000011BA, 0xCF67); (0xCF54000011BB, 0xCF68);
  (0xCF54000011BC, 0xCF69); (0xCF54000011BD, 0xCF6A); (0xCF54000011BE, 0xCF6B);
  (0xCF54000011BF, 0xCF6C); (0xCF54000011C0, 0xCF6D); (0xCF54000011C1, 0xCF6E);
  (0xCF54000011C2, 0xCF6F); (0xCF70000011A8, 0xCF71); (0xCF70000011A9, 0xCF72);
  (0xCF70000011AA, 0xCF73); (0xCF70000011AB, 0xCF74); (0xCF70000011AC, 0xCF75);
  (0xCF70000011AD, 0xCF76); (0xCF70000011AE, 0xCF77); (0xCF70000011AF, 0xCF78);
  (0xCF70000011B0, 0xCF79); (0xCF70000011B1, 0xCF7A); (0xCF70000011B2, 0xCF7B);
  (0xCF70000011B3, 0xCF7C); (0xCF70000011B4, 0xCF7D); (0xCF70000011B5, 0xCF7E);
  (0xCF70000011B6, 0xCF7F); (0xCF70000011B7, 0xCF80); (0xCF70000011B8, 0xCF81);
  (0xCF70000011B9, 0xCF82); (0xCF70000011BA, 0xCF83); (0xCF70000011BB, 0xCF84);
  (0xCF70000011BC, 0xCF85); (0xCF70000011BD, 0xCF86); (0xCF70000011BE, 0xCF87);
  (0xCF70000011BF, 0xCF88); (0xCF70000011C0, 0xCF89); (0xCF70000011C1, 0xCF8A);
  (0xCF70000011C2, 0xCF8B); (0xCF8C000011A8, 0xCF8D); (0xCF8C000011A9, 0xCF8E);
  (0xCF8C000011AA, 0xCF8F); (0xCF8C000011AB, 0xCF90); (0xCF8C000011AC, 0xCF91);
  (0xCF8C000011AD, 0xCF92); (0xCF8C000011AE, 0xCF93); (0xCF8C000011AF, 0xCF94);
  (0xCF8C000011B0, 0xCF95); (0xCF8C000011B1, 0xCF96); (0xCF8C000011B2, 0xCF97);
  (0xCF8C000011B3, 0xCF98); (0xCF8C000011B4, 0xCF99); (0xCF8C000011B5, 0xCF9A);
  (0xCF8C000011B6, 0xCF9B); (0xCF8C000011B7, 0xCF9C); (0xCF8C000011B8, 0xCF9D);
  (0xCF8C000011B9, 0xCF9E); (0xCF8C000011BA, 0xCF9F); (0xCF8C000011BB, 0xCFA0);
  (0xCF8C000011BC, 0xCFA1); (0xCF8C000011BD, 0xCFA2); (0xCF8C000011BE, 0xCFA3);
  (0xCF8C000011BF, 0xCFA4); (0xCF8C000011C0, 0xCFA5); (0xCF8C000011C1, 0xCFA6);
  (0xCF8C000011C2, 0xCFA7); (0xCFA8000011A8, 0xCFA9); (0xCFA8000011A9, 0xCFAA);
  (0xCFA8000011AA, 0xCFAB); (0xCFA8000011AB, 0xCFAC); (0xCFA8000011AC, 0xCFAD);
  (0xCFA8000011AD, 0xCFAE); (0xCFA8000011AE, 0xCFAF); (0xCFA8000011AF, 0xCFB0);
  (0xCFA8000011B0, 0xCFB1); (0xCFA8000011B1, 0xCFB2); (0xCFA8000011B2, 0xCFB3);
  (0xCFA8000011B3, 0xCFB4); (0xCFA8000011B4, 0xCFB5); (0xCFA8000011B5, 0xCFB6);
  (0xCFA8000011B6, 0xCFB7); (0xCFA8000011B7, 0xCFB8); (0xCFA8000011B8, 0xCFB9);
  (0xCFA8000011B9, 0xCFBA); (0xCFA8000011BA, 0xCFBB); (0xCFA8000011BB, 0xCFBC);
  (0xCFA8000011BC, 0xCFBD); (0xCFA8000011BD, 0xCFBE); (0xCFA8000011BE, 0xCFBF);
  (0xCFA8000011BF, 0xCFC0); (0xCFA8000011C0, 0xCFC1); (0xCFA8000011C1, 0xCFC2);
  (0xCFA8000011C2, 0xCFC3); (0xCFC4000011A8, 0xCFC5); (0xCFC4000011A9, 0xCFC6);
  (0xCFC4000011AA, 0xCFC7); (0xCFC4000011AB, 0xCFC8); (0xCFC4000011AC, 0xCFC9);
  (0xCFC4000011AD, 0xCFCA); (0xCFC4000011AE, 0xCFCB); (0xCFC4000011AF, 0xCFCC);
  (0xCFC4000011B0, 0xCFCD); (0xCFC4000011B1, 0xCFCE); (0xCFC4000011B2, 0xCFCF);
  (0xCFC4000011B3, 0xCFD0); (0xCFC4000011B4, 0xCFD1); (0xCFC4000011B5, 0xCFD2);
  (0xCFC4000011B6, 0xCFD3); (0xCFC4000011B7, 0xCFD4); (0xCFC4000011B8, 0xCFD5);
  (0xCFC4000011B9, 0xCFD6); (0xCFC4000011BA, 0xCFD7); (0xCFC4000011BB, 0xCFD8);
  (0xCFC4000011BC, 0xCFD9); (0xCFC4000011BD, 0xCFDA); (0xCFC4000011BE, 0xCFDB);
  (0xCFC4000011BF, 0xCFDC); (0xCFC4000011C0, 0xCFDD); (0xCFC4000011C1, 0xCFDE);
  (0xCFC4000011C2, 0xCFDF); (0xCFE0000011A8, 0xCFE1); (0xCFE0000011A9, 0xCFE2);
  (0xCFE0000011AA, 0xCFE3); (0xCFE0000011AB, 0xCFE4); (0xCFE0000011AC, 0xCFE5);
  (0xCFE0000011AD, 0xCFE6); (0xCFE0000011AE, 0xCFE7); (0xCFE0000011AF, 0xCFE8);
  (0xCFE0000011B0, 0xCFE9); (0xCFE0000011B1, 0xCFEA); (0xCFE0000011B2, 0xCFEB);
  (0xCFE0000011B3, 0xCFEC); (0xCFE0000011B4, 0xCFED); (0xCFE0000011B5, 0xCFEE);
  (0xCFE0000011B6, 0xCFEF); (0xCFE0000011B7, 0xCFF0); (0xCFE0000011B8, 0xCFF1) ].

Definition nfcCompose_68 : list (Z * Z) := [
  (0xCFE0000011B9, 0xCFF2); (0xCFE0000011BA, 0xCFF3); (0xCFE0000011BB, 0xCFF4);
  (0xCFE0000011BC, 0xCFF5); (0xCFE0000011BD, 0xCFF6); (0xCFE0000011BE, 0xCFF7);
  (0xCFE0000011BF, 0xCFF8); (0xCFE0000011C0, 0xCFF9); (0xCFE0000011C1, 0xCFFA);
  (0xCFE0000011C2, 0xCFFB); (0xCFFC000011A8, 0xCFFD); (0xCFFC000011A9, 0xCFFE);
  (0xCFFC000011AA, 0xCFFF); (0xCFFC000011AB, 0xD000); (0xCFFC000011AC, 0xD001);
  (0xCFFC000011AD, 0xD002); (0xCFFC000011AE, 0xD003); (0xCFFC000011AF, 0xD004);
  (0xCFFC000011B0, 0xD005); (0xCFFC000011B1, 0xD006); (0xCFFC000011B2, 0xD007);
  (0xCFFC000011B3, 0xD008); (0xCFFC000011B4, 0xD009); (0xCFFC000011B5, 0xD00A);
  (0xCFFC000011B6, 0xD00B); (0xCFFC000011B7, 0xD00C); (0xCFFC000011B8, 0xD00D);
  (0xCFFC000011B9, 0xD00E); (0xCFFC000011BA, 0xD00F); (0xCFFC000011BB, 0xD010);
  (0xCFFC000011BC, 0xD011); (0xCFFC000011BD, 0xD012); (0xCFFC000011BE, 0xD013);
  (0xCFFC000011BF, 0xD014); (0xCFFC000011C0, 0xD015); (0xCFFC000011C1, 0xD016);
  (0xCFFC000011C2, 0xD017); (0xD018000011A8, 0xD019); (0xD018000011A9, 0xD01A);
  (0xD018000011AA, 0xD01B); (0xD018000011AB, 0xD01C); (0xD018000011AC, 0xD01D);
  (0xD018000011AD, 0xD01E); (0xD018000011AE, 0xD01F); (0xD018000011AF, 0xD020);
  (0xD018000011B0, 0xD021); (0xD018000011B1, 0xD022); (0xD018000011B2, 0xD023);
  (0xD018000011B3, 0xD024); (0xD018000011B4, 0xD025); (0xD018000011B5, 0xD026);
  (0xD018000011B6, 0xD027); (0xD018000011B7, 0xD028); (0xD018000011B8, 0xD029);
  (0xD018000011B9, 0xD02A); (0xD018000011BA, 0xD02B); (0xD018000011BB, 0xD02C);
  (0xD018000011BC, 0xD02D); (0xD018000011BD, 0xD02E); (0xD018000011BE, 0xD02F);
  (0xD018000011BF, 0xD030); (0xD018000011C0, 0xD031); (0xD018000011C1, 0xD032);
  (0xD018000011C2, 0xD033); (0xD034000011A8, 0xD035); (0xD034000011A9, 0xD036);
  (0xD034000011AA, 0xD037); (0xD034000011AB, 0xD038); (0xD034000011AC, 0xD039);
  (0xD034000011AD, 0xD03A); (0xD034000011AE, 0xD03B); (0xD034000011AF, 0xD03C);
  (0xD034000011B0, 0xD03D); (0xD034000011B1, 0xD03E); (0xD034000011B2, 0xD03F);
  (0xD034000011B3, 0xD040); (0xD034000011B4, 0xD041); (0xD034000011B5, 0xD042);
  (0xD034000011B6, 0xD043); (0xD034000011B7, 0xD044); (0xD034000011B8, 0xD045);
  (0xD034000011B9, 0xD046); (0xD034000011BA, 0xD047); (0xD034000011BB, 0xD048);
  (0xD034000011BC, 0xD049); (0xD034000011BD, 0xD04A); (0xD034000011BE, 0xD04B);
  (0xD034000011BF, 0xD04C); (0xD034000011C0, 0xD04D); (0xD034000011C1, 0xD04E);
  (0xD034000011C2, 0xD04F); (0xD050000011A8, 0xD051); (0xD050000011A9, 0xD052);
  (0xD050000011AA, 0xD053); (0xD050000011AB, 0xD054); (0xD050000011AC, 0xD055);
  (0xD050000011AD, 0xD056); (0xD050000011AE, 0xD057); (0xD050000011AF, 0xD058);
  (0xD050000011B0, 0xD059); (0xD050000011B1, 0xD05A); (0xD050000011B2, 0xD05B);
  (0xD050000011B3, 0xD05C); (0xD050000011B4, 0xD05D); (0xD050000011B5, 0xD05E);
  (0xD050000011B6, 0xD05F); (0xD050000011B7, 0xD060); (0xD050000011B8, 0xD061);
  (0xD050000011B9, 0xD062); (0xD050000011BA, 0xD063); (0xD050000011BB, 0xD064);
  (0xD050000011BC, 0xD065); (0xD050000011BD, 0xD066); (0xD050000011BE, 0xD067);
  (0xD050000011BF, 0xD068); (0xD050000011C0, 0xD069); (0xD050000011C1, 0xD06A);
  (0xD050000011C2, 0xD06B); (0xD06C000011A8, 0xD06D); (0xD06C000011A9, 0xD06E);
  (0xD06C000011AA, 0xD06F); (0xD06C000011AB, 0xD070); (0xD06C000011AC, 0xD071);
  (0xD06C000011AD, 0xD072); (0xD06C000011AE, 0xD073); (0xD06C000011AF, 0xD074);
  (0xD06C000011B0, 0xD075); (0xD06C000011B1, 0xD076); (0xD06C000011B2, 0xD077);
  (0xD06C000011B3, 0xD078); (0xD06C000011B4, 0xD079); (0xD06C000011B5, 0xD07A);
  (0xD06C000011B6, 0xD07B); (0xD06C000011B7, 0xD07C); (0xD06C000011B8, 0xD07D);
  (0xD06C000011B9, 0xD07E); (0xD06C000011BA, 0xD07F); (0xD06C000011BB, 0xD080);
  (0xD06C000011BC, 0xD081); (0xD06C000011BD, 0xD082); (0xD06C000011BE, 0xD083);
  (0xD06C000011BF, 0xD084); (0xD06C000011C0, 0xD085); (0xD06C000011C1, 0xD086);
  (0xD06C000011C2, 0xD087); (0xD088000011A8, 0xD089); (0xD088000011A9, 0xD08A);
  (0xD088000011AA, 0xD08B); (0xD088000011AB, 0xD08C); (0xD088000011AC, 0xD08D) ].

Definition nfcCompose_69 : list (Z * Z) := [
  (0xD088000011AD, 0xD08E); (0xD088000011AE, 0xD08F); (0xD088000011AF, 0xD090);
  (0xD088000011B0, 0xD091); (0xD088000011B1, 0xD092); (0xD088000011B2, 0xD093);
  (0xD088000011B3, 0xD094); (0xD088000011B4, 0xD095); (0xD088000011B5, 0xD096);
  (0xD088000011B6, 0xD097); (0xD088000011B7, 0xD098); (0xD088000011B8, 0xD099);
  (0xD088000011B9, 0xD09A); (0xD088000011BA, 0xD09B); (0xD088000011BB, 0xD09C);
  (0xD088000011BC, 0xD09D); (0xD088000011BD, 0xD09E); (0xD088000011BE, 0xD09F);
  (0xD088000011BF, 0xD0A0); (0xD088000011C0, 0xD0A1); (0xD088000011C1, 0xD0A2);
  (0xD088000011C2, 0xD0A3); (0xD0A4000011A8, 0xD0A5); (0xD0A4000011A9, 0xD0A6);
  (0xD0A4000011AA, 0xD0A7); (0xD0A4000011AB, 0xD0A8); (0xD0A4000011AC, 0xD0A9);
  (0xD0A4000011AD, 0xD0AA); (0xD0A4000011AE, 0xD0AB); (0xD0A4000011AF, 0xD0AC);
  (0xD0A4000011B0, 0xD0AD); (0xD0A4000011B1, 0xD0AE); (0xD0A4000011B2, 0xD0AF);
  (0xD0A4000011B3, 0xD0B0); (0xD0A4000011B4, 0xD0B1); (0xD0A4000011B5, 0xD0B2);
  (0xD0A4000011B6, 0xD0B3); (0xD0A4000011B7, 0xD0B4); (0xD0A4000011B8, 0xD0B5);
  (0xD0A4000011B9, 0xD0B6); (0xD0A4000011BA, 0xD0B7); (0xD0A4000011BB, 0xD0B8);
  (0xD0A4000011BC, 0xD0B9); (0xD0A4000011BD, 0xD0BA); (0xD0A4000011BE, 0xD0BB);
  (0xD0A4000011BF, 0xD0BC); (0xD0A4000011C0, 0xD0BD); (0xD0A4000011C1, 0xD0BE);
  (0xD0A4000011C2, 0xD0BF); (0xD0C0000011A8, 0xD0C1); (0xD0C0000011A9, 0xD0C2);
  (0xD0C0000011AA, 0xD0C3); (0xD0C0000011AB, 0xD0C4); (0xD0C0000011AC, 0xD0C5);
  (0xD0C0000011AD, 0xD0C6); (0xD0C0000011AE, 0xD0C7); (0xD0C0000011AF, 0xD0C8);
  (0xD0C0000011B0, 0xD0C9); (0xD0C0000011B1, 0xD0CA); (0xD0C0000011B2, 0xD0CB);
  (0xD0C0000011B3, 0xD0CC); (0xD0C0000011B4, 0xD0CD); (0xD0C0000011B5, 0xD0CE);
  (0xD0C0000011B6, 0xD0CF); (0xD0C0000011B7, 0xD0D0); (0xD0C0000011B8, 0xD0D1);
  (0xD0C0000011B9, 0xD0D2); (0xD0C0000011BA, 0xD0D3); (0xD0C0000011BB, 0xD0D4);
  (0xD0C0000011BC, 0xD0D5); (0xD0C0000011BD, 0xD0D6); (0xD0C0000011BE, 0xD0D7);
  (0xD0C0000011BF, 0xD0D8); (0xD0C0000011C0, 0xD0D9); (0xD0C0000011C1, 0xD0DA);
  (0xD0C0000011C2, 0xD0DB); (0xD0DC000011A8, 0xD0DD); (0xD0DC000011A9, 0xD0DE);
  (0xD0DC000011AA, 0xD0DF); (0xD0DC000011AB, 0xD0E0); (0xD0DC000011AC, 0xD0E1);
  (0xD0DC000011AD, 0xD0E2); (0xD0DC000011AE, 0xD0E3); (0xD0DC000011AF, 0xD0E4);
  (0xD0DC000011B0, 0xD0E5); (0xD0DC000011B1, 0xD0E6); (0xD0DC000011B2, 0xD0E7);
  (0xD0DC000011B3, 0xD0E8); (0xD0DC000011B4, 0xD0E9); (0xD0DC000011B5, 0xD0EA);
  (0xD0DC000011B6, 0xD0EB); (0xD0DC000011B7, 0xD0EC); (0xD0DC000011B8, 0xD0ED);
  (0xD0DC000011B9, 0xD0EE); (0xD0DC000011BA, 0xD0EF); (0xD0DC000011BB, 0xD0F0);
  (0xD0DC000011BC, 0xD0F1); (0xD0DC000011BD, 0xD0F2); (0xD0DC000011BE, 0xD0F3);
  (0xD0DC000011BF, 0xD0F4); (0xD0DC000011C0, 0xD0F5); (0xD0DC000011C1, 0xD0F6);
  (0xD0DC000011C2, 0xD0F7); (0xD0F8000011A8, 0xD0F9); (0xD0F8000011A9, 0xD0FA);
  (0xD0F8000011AA, 0xD0FB); (0xD0F8000011AB, 0xD0FC); (0xD0F8000011AC, 0xD0FD);
  (0xD0F8000011AD, 0xD0FE); (0xD0F8000011AE, 0xD0FF); (0xD0F8000011AF, 0xD100);
  (0xD0F8000011B0, 0xD101); (0xD0F8000011B1, 0xD102); (0xD0F8000011B2, 0xD103);
  (0xD0F8000011B3, 0xD104); (0xD0F8000011B4, 0xD105); (0xD0F8000011B5, 0xD106);
  (0xD0F8000011B6, 0xD107); (0xD0F8000011B7, 0xD108); (0xD0F8000011B8, 0xD109);
  (0xD0F8000011B9, 0xD10A); (0xD0F8000011BA, 0xD10B); (0xD0F8000011BB, 0xD10C);
  (0xD0F8000011BC, 0xD10D); (0xD0F8000011BD, 0xD10E); (0xD0F8000011BE, 0xD10F);
  (0xD0F8000011BF, 0xD110); (0xD0F8000011C0, 0xD111); (0xD0F8000011C1, 0xD112);
  (0xD0F8000011C2, 0xD113); (0xD114000011A8, 0xD115); (0xD114000011A9, 0xD116);
  (0xD114000011AA, 0xD117); (0xD114000011AB, 0xD118); (0xD114000011AC, 0xD119);
  (0xD114000011AD, 0xD11A); (0xD114000011AE, 0xD11B); (0xD114000011AF, 0xD11C);
  (0xD114000011B0, 0xD11D); (0xD114000011B1, 0xD11E); (0xD114000011B2, 0xD11F);
  (0xD114000011B3, 0xD120); (0xD114000011B4, 0xD121); (0xD114000011B5, 0xD122);
  (0xD114000011B6, 0xD123); (0xD114000011B7, 0xD124); (0xD114000011B8, 0xD125);
  (0xD114000011B9, 0xD126); (0xD114000011BA, 0xD127); (0xD114000011BB, 0xD128) ].

Definition nfcCompose_70 : list (Z * Z) := [
  (0xD114000011BC, 0xD129); (0xD114000011BD, 0xD12A); (0xD114000011BE, 0xD12B);
  (0xD114000011BF, 0xD12C); (0xD114000011C0, 0xD12D); (0xD114000011C1, 0xD12E);
  (0xD114000011C2, 0xD12F); (0xD130000011A8, 0xD131); (0xD130000011A9, 0xD132);
  (0xD130000011AA, 0xD133); (0xD130000011AB, 0xD134); (0xD130000011AC, 0xD135);
  (0xD130000011AD, 0xD136); (0xD130000011AE, 0xD137); (0xD130000011AF, 0xD138);
  (0xD130000011B0, 0xD139); (0xD130000011B1, 0xD13A); (0xD130000011B2, 0xD13B);
  (0xD130000011B3, 0xD13C); (0xD130000011B4, 0xD13D); (0xD130000011B5, 0xD13E);
  (0xD130000011B6, 0xD13F); (0xD130000011B7, 0xD140); (0xD130000011B8, 0xD141);
  (0xD130000011B9, 0xD142); (0xD130000011BA, 0xD143); (0xD130000011BB, 0xD144);
  (0xD130000011BC, 0xD145); (0xD130000011BD, 0xD146); (0xD130000011BE, 0xD147);
  (0xD130000011BF, 0xD148); (0xD130000011C0, 0xD149); (0xD130000011C1, 0xD14A);
  (0xD130000011C2, 0xD14B); (0xD14C000011A8, 0xD14D); (0xD14C000011A9, 0xD14E);
  (0xD14C000011AA, 0xD14F); (0xD14C000011AB, 0xD150); (0xD14C000011AC, 0xD151);
  (0xD14C000011AD, 0xD152); (0xD14C000011AE, 0xD153); (0xD14C000011AF, 0xD154);
  (0xD14C000011B0, 0xD155); (0xD14C000011B1, 0xD156); (0xD14C000011B2, 0xD157);
  (0xD14C000011B3, 0xD158); (0xD14C000011B4, 0xD159); (0xD14C000011B5, 0xD15A);
  (0xD14C000011B6, 0xD15B); (0xD14C000011B7, 0xD15C); (0xD14C000011B8, 0xD15D);
  (0xD14C000011B9, 0xD15E); (0xD14C000011BA, 0xD15F); (0xD14C000011BB, 0xD160);
  (0xD14C000011BC, 0xD161); (0xD14C000011BD, 0xD162); (0xD14C000011BE, 0xD163);
  (0xD14C000011BF, 0xD164); (0xD14C000011C0, 0xD165); (0xD14C000011C1, 0xD166);
  (0xD14C000011C2, 0xD167); (0xD168000011A8, 0xD169); (0xD168000011A9, 0xD16A);
  (0xD168000011AA, 0xD16B); (0xD168000011AB, 0xD16C); (0xD168000011AC, 0xD16D);
  (0xD168000011AD, 0xD16E); (0xD168000011AE, 0xD16F); (0xD168000011AF, 0xD170);
  (0xD168000011B0, 0xD171); (0xD168000011B1, 0xD172); (0xD168000011B2, 0xD173);
  (0xD168000011B3, 0xD174); (0xD168000011B4, 0xD175); (0xD168000011B5, 0xD176);
  (0xD168000011B6, 0xD177); (0xD168000011B7, 0xD178); (0xD168000011B8, 0xD179);
  (0xD168000011B9, 0xD17A); (0xD168000011BA, 0xD17B); (0xD168000011BB, 0xD17C);
  (0xD168000011BC, 0xD17D); (0xD168000011BD, 0xD17E); (0xD168000011BE, 0xD17F);
  (0xD168000011BF, 0xD180); (0xD168000011C0, 0xD181); (0xD168000011C1, 0xD182);
  (0xD168000011C2, 0xD183); (0xD184000011A8, 0xD185); (0xD184000011A9, 0xD186);
  (0xD184000011AA, 0xD187); (0xD184000011AB, 0xD188); (0xD184000011AC, 0xD189);
  (0xD184000011AD, 0xD18A); (0xD184000011AE, 0xD18B); (0xD184000011AF, 0xD18C);
  (0xD184000011B0, 0xD18D); (0xD184000011B1, 0xD18E); (0xD184000011B2, 0xD18F);
  (0xD184000011B3, 0xD190); (0xD184000011B4, 0xD191); (0xD184000011B5, 0xD192);
  (0xD184000011B6, 0xD193); (0xD184000011B7, 0xD194); (0xD184000011B8, 0xD195);
  (0xD184000011B9, 0xD196); (0xD184000011BA, 0xD197); (0xD184000011BB, 0xD198);
  (0xD184000011BC, 0xD199); (0xD184000011BD, 0xD19A); (0xD184000011BE, 0xD19B);
  (0xD184000011BF, 0xD19C); (0xD184000011C0, 0xD19D); (0xD184000011C1, 0xD19E);
  (0xD184000011C2, 0xD19F); (0xD1A0000011A8, 0xD1A1); (0xD1A0000011A9, 0xD1A2);
  (0xD1A0000011AA, 0xD1A3); (0xD1A0000011AB, 0xD1A4); (0xD1A0000011AC, 0xD1A5);
  (0xD1A0000011AD, 0xD1A6); (0xD1A0000011AE, 0xD1A7); (0xD1A0000011AF, 0xD1A8);
  (0xD1A0000011B0, 0xD1A9); (0xD1A0000011B1, 0xD1AA); (0xD1A0000011B2, 0xD1AB);
  (0xD1A0000011B3, 0xD1AC); (0xD1A0000011B4, 0xD1AD); (0xD1A0000011B5, 0xD1AE);
  (0xD1A0000011B6, 0xD1AF); (0xD1A0000011B7, 0xD1B0); (0xD1A0000011B8, 0xD1B1);
  (0xD1A0000011B9, 0xD1B2); (0xD1A0000011BA, 0xD1B3); (0xD1A0000011BB, 0xD1B4);
  (0xD1A0000011BC, 0xD1B5); (0xD1A0000011BD, 0xD1B6); (0xD1A0000011BE, 0xD1B7);
  (0xD1A0000011BF, 0xD1B8); (0xD1A0000011C0, 0xD1B9); (0xD1A0000011C1, 0xD1BA);
  (0xD1A0000011C2, 0xD1BB); (0xD1BC000011A8, 0xD1BD); (0xD1BC000011A9, 0xD1BE);
  (0xD1BC000011AA, 0xD1BF); (0xD1BC000011AB, 0xD1C0); (0xD1BC000011AC, 0xD1C1);
  (0xD1BC000011AD, 0xD1C2); (0xD1BC000011AE, 0xD1C3); (0xD1BC000011AF, 0xD1C4) ].

Definition nfcCompose_71 : list (Z * Z) := [
  (0xD1BC000011B0, 0xD1C5); (0xD1BC000011B1, 0xD1C6); (0xD1BC000011B2, 0xD1C7);
  (0xD1BC000011B3, 0xD1C8); (0xD1BC000011B4, 0xD1C9); (0xD1BC000011B5, 0xD1CA);
  (0xD1BC000011B6, 0xD1CB); (0xD1BC000011B7, 0xD1CC); (0xD1BC000011B8, 0xD1CD);
  (0xD1BC000011B9, 0xD1CE); (0xD1BC000011BA, 0xD1CF); (0xD1BC000011BB, 0xD1D0);
  (0xD1BC000011BC, 0xD1D1); (0xD1BC000011BD, 0xD1D2); (0xD1BC000011BE, 0xD1D3);
  (0xD1BC000011BF, 0xD1D4); (0xD1BC000011C0, 0xD1D5); (0xD1BC000011C1, 0xD1D6);
  (0xD1BC000011C2, 0xD1D7); (0xD1D8000011A8, 0xD1D9); (0xD1D8000011A9, 0xD1DA);
  (0xD1D8000011AA, 0xD1DB); (0xD1D8000011AB, 0xD1DC); (0xD1D8000011AC, 0xD1DD);
  (0xD1D8000011AD, 0xD1DE); (0xD1D8000011AE, 0xD1DF); (0xD1D8000011AF, 0xD1E0);
  (0xD1D8000011B0, 0xD1E1); (0xD1D8000011B1, 0xD1E2); (0xD1D8000011B2, 0xD1E3);
  (0xD1D8000011B3, 0xD1E4); (0xD1D8000011B4, 0xD1E5); (0xD1D8000011B5, 0xD1E6);
  (0xD1D8000011B6, 0xD1E7); (0xD1D8000011B7, 0xD1E8); (0xD1D8000011B8, 0xD1E9);
  (0xD1D8000011B9, 0xD1EA); (0xD1D8000011BA, 0xD1EB); (0xD1D8000011BB, 0xD1EC);
  (0xD1D8000011BC, 0xD1ED); (0xD1D8000011BD, 0xD1EE); (0xD1D8000011BE, 0xD1EF);
  (0xD1D8000011BF, 0xD1F0); (0xD1D8000011C0, 0xD1F1); (0xD1D8000011C1, 0xD1F2);
  (0xD1D8000011C2, 0xD1F3); (0xD1F4000011A8, 0xD1F5); (0xD1F4000011A9, 0xD1F6);
  (0xD1F4000011AA, 0xD1F7); (0xD1F4000011AB, 0xD1F8); (0xD1F4000011AC, 0xD1F9);
  (0xD1F4000011AD, 0xD1FA); (0xD1F4000011AE, 0xD1FB); (0xD1F4000011AF, 0xD1FC);
  (0xD1F4000011B0, 0xD1FD); (0xD1F4000011B1, 0xD1FE); (0xD1F4000011B2, 0xD1FF);
  (0xD1F4000011B3, 0xD200); (0xD1F4000011B4, 0xD201); (0xD1F4000011B5, 0xD202);
  (0xD1F4000011B6, 0xD203); (0xD1F4000011B7, 0xD204); (0xD1F4000011B8, 0xD205);
  (0xD1F4000011B9, 0xD206); (0xD1F4000011BA, 0xD207); (0xD1F4000011BB, 0xD208);
  (0xD1F4000011BC, 0xD209); (0xD1F4000011BD, 0xD20A); (0xD1F4000011BE, 0xD20B);
  (0xD1F4000011BF, 0xD20C); (0xD1F4000011C0, 0xD20D); (0xD1F4000011C1, 0xD20E);
  (0xD1F4000011C2, 0xD20F); (0xD210000011A8, 0xD211); (0xD210000011A9, 0xD212);
  (0xD210000011AA, 0xD213); (0xD210000011AB, 0xD214); (0xD210000011AC, 0xD215);
  (0xD210000011AD, 0xD216); (0xD210000011AE, 0xD217); (0xD210000011AF, 0xD218);
  (0xD210000011B0, 0xD219); (0xD210000011B1, 0xD21A); (0xD210000011B2, 0xD21B);
  (0xD210000011B3, 0xD21C); (0xD210000011B4, 0xD21D); (0xD210000011B5, 0xD21E);
  (0xD210000011B6, 0xD21F); (0xD210000011B7, 0xD220); (0xD210000011B8, 0xD221);
  (0xD210000011B9, 0xD222); (0xD210000011BA, 0xD223); (0xD210000011BB, 0xD224);
  (0xD210000011BC, 0xD225); (0xD210000011BD, 0xD226); (0xD210000011BE, 0xD227);
  (0xD210000011BF, 0xD228); (0xD210000011C0, 0xD229); (0xD210000011C1, 0xD22A);
  (0xD210000011C2, 0xD22B); (0xD22C000011A8, 0xD22D); (0xD22C000011A9, 0xD22E);
  (0xD22C000011AA, 0xD22F); (0xD22C000011AB, 0xD230); (0xD22C000011AC, 0xD231);
  (0xD22C000011AD, 0xD232); (0xD22C000011AE, 0xD233); (0xD22C000011AF, 0xD234);
  (0xD22C000011B0, 0xD235); (0xD22C000011B1, 0xD236); (0xD22C000011B2, 0xD237);
  (0xD22C000011B3, 0xD238); (0xD22C000011B4, 0xD239); (0xD22C000011B5, 0xD23A);
  (0xD22C000011B6, 0xD23B); (0xD22C000011B7, 0xD23C); (0xD22C000011B8, 0xD23D);
  (0xD22C000011B9, 0xD23E); (0xD22C000011BA, 0xD23F); (0xD22C000011BB, 0xD240);
  (0xD22C000011BC, 0xD241); (0xD22C000011BD, 0xD242); (0xD22C000011BE, 0xD243);
  (0xD22C000011BF, 0xD244); (0xD22C000011C0, 0xD245); (0xD22C000011C1, 0xD246);
  (0xD22C000011C2, 0xD247); (0xD248000011A8, 0xD249); (0xD248000011A9, 0xD24A);
  (0xD248000011AA, 0xD24B); (0xD248000011AB, 0xD24C); (0xD248000011AC, 0xD24D);
  (0xD248000011AD, 0xD24E); (0xD248000011AE, 0xD24F); (0xD248000011AF, 0xD250);
  (0xD248000011B0, 0xD251); (0xD248000011B1, 0xD252); (0xD248000011B2, 0xD253);
  (0xD248000011B3, 0xD254); (0xD248000011B4, 0xD255); (0xD248000011B5, 0xD256);
  (0xD248000011B6, 0xD257); (0xD248000011B7, 0xD258); (0xD248000011B8, 0xD259);
  (0xD248000011B9, 0xD25A); (0xD248000011BA, 0xD25B); (0xD248000011BB, 0xD25C);
  (0xD248000011BC, 0xD25D); (0xD248000011BD, 0xD25E); (0xD248000011BE, 0xD25F) ].

Definition nfcCompose_72 : list (Z * Z) := [
  (0xD248000011BF, 0xD260); (0xD248000011C0, 0xD261); (0xD248000011C1, 0xD262);
  (0xD248000011C2, 0xD263); (0xD264000011A8, 0xD265); (0xD264000011A9, 0xD266);
  (0xD264000011AA, 0xD267); (0xD264000011AB, 0xD268); (0xD264000011AC, 0xD269);
  (0xD264000011AD, 0xD26A); (0xD264000011AE, 0xD26B); (0xD264000011AF, 0xD26C);
  (0xD264000011B0, 0xD26D); (0xD264000011B1, 0xD26E); (0xD264000011B2, 0xD26F);
  (0xD264000011B3, 0xD270); (0xD264000011B4, 0xD271); (0xD264000011B5, 0xD272);
  (0xD264000011B6, 0xD273); (0xD264000011B7, 0xD274); (0xD264000011B8, 0xD275);
  (0xD264000011B9, 0xD276); (0xD264000011BA, 0xD277); (0xD264000011BB, 0xD278);
  (0xD264000011BC, 0xD279); (0xD264000011BD, 0xD27A); (0xD264000011BE, 0xD27B);
  (0xD264000011BF, 0xD27C); (0xD264000011C0, 0xD27D); (0xD264000011C1, 0xD27E);
  (0xD264000011C2, 0xD27F); (0xD280000011A8, 0xD281); (0xD280000011A9, 0xD282);
  (0xD280000011AA, 0xD283); (0xD280000011AB, 0xD284); (0xD280000011AC, 0xD285);
  (0xD280000011AD, 0xD286); (0xD280000011AE, 0xD287); (0xD280000011AF, 0xD288);
  (0xD280000011B0, 0xD289); (0xD280000011B1, 0xD28A); (0xD280000011B2, 0xD28B);
  (0xD280000011B3, 0xD28C); (0xD280000011B4, 0xD28D); (0xD280000011B5, 0xD28E);
  (0xD280000011B6, 0xD28F); (0xD280000011B7, 0xD290); (0xD280000011B8, 0xD291);
  (0xD280000011B9, 0xD292); (0xD280000011BA, 0xD293); (0xD280000011BB, 0xD294);
  (0xD280000011BC, 0xD295); (0xD280000011BD, 0xD296); (0xD280000011BE, 0xD297);
  (0xD280000011BF, 0xD298); (0xD280000011C0, 0xD299); (0xD280000011C1, 0xD29A);
  (0xD280000011C2, 0xD29B); (0xD29C000011A8, 0xD29D); (0xD29C000011A9, 0xD29E);
  (0xD29C000011AA, 0xD29F); (0xD29C000011AB, 0xD2A0); (0xD29C000011AC, 0xD2A1);
  (0xD29C000011AD, 0xD2A2); (0xD29C000011AE, 0xD2A3); (0xD29C000011AF, 0xD2A4);
  (0xD29C000011B0, 0xD2A5); (0xD29C000011B1, 0xD2A6); (0xD29C000011B2, 0xD2A7);
  (0xD29C000011B3, 0xD2A8); (0xD29C000011B4, 0xD2A9); (0xD29C000011B5, 0xD2AA);
  (0xD29C000011B6, 0xD2AB); (0xD29C000011B7, 0xD2AC); (0xD29C000011B8, 0xD2AD);
  (0xD29C000011B9, 0xD2AE); (0xD29C000011BA, 0xD2AF); (0xD29C000011BB, 0xD2B0);
  (0xD29C000011BC, 0xD2B1); (0xD29C000011BD, 0xD2B2); (0xD29C000011BE, 0xD2B3);
  (0xD29C000011BF, 0xD2B4); (0xD29C000011C0, 0xD2B5); (0xD29C000011C1, 0xD2B6);
  (0xD29C000011C2, 0xD2B7); (0xD2B8000011A8, 0xD2B9); (0xD2B8000011A9, 0xD2BA);
  (0xD2B8000011AA, 0xD2BB); (0xD2B8000011AB, 0xD2BC); (0xD2B8000011AC, 0xD2BD);
  (0xD2B8000011AD, 0xD2BE); (0xD2B8000011AE, 0xD2BF); (0xD2B8000011AF, 0xD2C0);
  (0xD2B8000011B0, 0xD2C1); (0xD2B8000011B1, 0xD2C2); (0xD2B8000011B2, 0xD2C3);
  (0xD2B8000011B3, 0xD2C4); (0xD2B8000011B4, 0xD2C5); (0xD2B8000011B5, 0xD2C6);
  (0xD2B8000011B6, 0xD2C7); (0xD2B8000011B7, 0xD2C8); (0xD2B8000011B8, 0xD2C9);
  (0xD2B8000011B9, 0xD2CA); (0xD2B8000011BA, 0xD2CB); (0xD2B8000011BB, 0xD2CC);
  (0xD2B8000011BC, 0xD2CD); (0xD2B8000011BD, 0xD2CE); (0xD2B8000011BE, 0xD2CF);
  (0xD2B8000011BF, 0xD2D0); (0xD2B8000011C0, 0xD2D1); (0xD2B8000011C1, 0xD2D2);
  (0xD2B8000011C2, 0xD2D3); (0xD2D4000011A8, 0xD2D5); (0xD2D4000011A9, 0xD2D6);
  (0xD2D4000011AA, 0xD2D7); (0xD2D4000011AB, 0xD2D8); (0xD2D4000011AC, 0xD2D9);
  (0xD2D4000011AD, 0xD2DA); (0xD2D4000011AE, 0xD2DB); (0xD2D4000011AF, 0xD2DC);
  (0xD2D4000011B0, 0xD2DD); (0xD2D4000011B1, 0xD2DE); (0xD2D4000011B2, 0xD2DF);
  (0xD2D4000011B3, 0xD2E0); (0xD2D4000011B4, 0xD2E1); (0xD2D4000011B5, 0xD2E2);
  (0xD2D4000011B6, 0xD2E3); (0xD2D4000011B7, 0xD2E4); (0xD2D4000011B8, 0xD2E5);
  (0xD2D4000011B9, 0xD2E6); (0xD2D4000011BA, 0xD2E7); (0xD2D4000011BB, 0xD2E8);
  (0xD2D4000011BC, 0xD2E9); (0xD2D4000011BD, 0xD2EA); (0xD2D4000011BE, 0xD2EB);
  (0xD2D4000011BF, 0xD2EC); (0xD2D4000011C0, 0xD2ED); (0xD2D4000011C1, 0xD2EE);
  (0xD2D4000011C2, 0xD2EF); (0xD2F0000011A8, 0xD2F1); (0xD2F0000011A9, 0xD2F2);
  (0xD2F0000011AA, 0xD2F3); (0xD2F0000011AB, 0xD2F4); (0xD2F0000011AC, 0xD2F5);
  (0xD2F0000011AD, 0xD2F6); (0xD2F0000011AE, 0xD2F7); (0xD2F0000011AF, 0xD2F8);
  (0xD2F0000011B0, 0xD2F9); (0xD2F0000011B1, 0xD2FA); (0xD2F0000011B2, 0xD2FB) ].

Definition nfcCompose_73 : list (Z * Z) := [
  (0xD2F0000011B3, 0xD2FC); (0xD2F0000011B4, 0xD2FD); (0xD2F0000011B5, 0xD2FE);
  (0xD2F0000011B6, 0xD2FF); (0xD2F0000011B7, 0xD300); (0xD2F0000011B8, 0xD301);
  (0xD2F0000011B9, 0xD302); (0xD2F0000011BA, 0xD303); (0xD2F0000011BB, 0xD304);
  (0xD2F0000011BC, 0xD305); (0xD2F0000011BD, 0xD306); (0xD2F0000011BE, 0xD307);
  (0xD2F0000011BF, 0xD308); (0xD2F0000011C0, 0xD309); (0xD2F0000011C1, 0xD30A);
  (0xD2F0000011C2, 0xD30B); (0xD30C000011A8, 0xD30D); (0xD30C000011A9, 0xD30E);
  (0xD30C000011AA, 0xD30F); (0xD30C000011AB, 0xD310); (0xD30C000011AC, 0xD311);
  (0xD30C000011AD, 0xD312); (0xD30C000011AE, 0xD313); (0xD30C000011AF, 0xD314);
  (0xD30C000011B0, 0xD315); (0xD30C000011B1, 0xD316); (0xD30C000011B2, 0xD317);
  (0xD30C000011B3, 0xD318); (0xD30C000011B4, 0xD319); (0xD30C000011B5, 0xD31A);
  (0xD30C000011B6, 0xD31B); (0xD30C000011B7, 0xD31C); (0xD30C000011B8, 0xD31D);
  (0xD30C000011B9, 0xD31E); (0xD30C000011BA, 0xD31F); (0xD30C000011BB, 0xD320);
  (0xD30C000011BC, 0xD321); (0xD30C000011BD, 0xD322); (0xD30C000011BE, 0xD323);
  (0xD30C000011BF, 0xD324); (0xD30C000011C0, 0xD325); (0xD30C000011C1, 0xD326);
  (0xD30C000011C2, 0xD327); (0xD328000011A8, 0xD329); (0xD328000011A9, 0xD32A);
  (0xD328000011AA, 0xD32B); (0xD328000011AB, 0xD32C); (0xD328000011AC, 0xD32D);
  (0xD328000011AD, 0xD32E); (0xD328000011AE, 0xD32F); (0xD328000011AF, 0xD330);
  (0xD328000011B0, 0xD331); (0xD328000011B1, 0xD332); (0xD328000011B2, 0xD333);
  (0xD328000011B3, 0xD334); (0xD328000011B4, 0xD335); (0xD328000011B5, 0xD336);
  (0xD328000011B6, 0xD337); (0xD328000011B7, 0xD338); (0xD328000011B8, 0xD339);
  (0xD328000011B9, 0xD33A); (0xD328000011BA, 0xD33B); (0xD328000011BB, 0xD33C);
  (0xD328000011BC, 0xD33D); (0xD328000011BD, 0xD33E); (0xD328000011BE, 0xD33F);
  (0xD328000011BF, 0xD340); (0xD328000011C0, 0xD341); (0xD328000011C1, 0xD342);
  (0xD328000011C2, 0xD343); (0xD344000011A8, 0xD345); (0xD344000011A9, 0xD346);
  (0xD344000011AA, 0xD347); (0xD344000011AB, 0xD348); (0xD344000011AC, 0xD349);
  (0xD344000011AD, 0xD34A); (0xD344000011AE, 0xD34B); (0xD344000011AF, 0xD34C);
  (0xD344000011B0, 0xD34D); (0xD344000011B1, 0xD34E); (0xD344000011B2, 0xD34F);
  (0xD344000011B3, 0xD350); (0xD344000011B4, 0xD351); (0xD344000011B5, 0xD352);
  (0xD344000011B6, 0xD353); (0xD344000011B7, 0xD354); (0xD344000011B8, 0xD355);
  (0xD344000011B9, 0xD356); (0xD344000011BA, 0xD357); (0xD344000011BB, 0xD358);
  (0xD344000011BC, 0xD359); (0xD344000011BD, 0xD35A); (0xD344000011BE, 0xD35B);
  (0xD344000011BF, 0xD35C); (0xD344000011C0, 0xD35D); (0xD344000011C1, 0xD35E);
  (0xD344000011C2, 0xD35F); (0xD360000011A8, 0xD361); (0xD360000011A9, 0xD362);
  (0xD360000011AA, 0xD363); (0xD360000011AB, 0xD364); (0xD360000011AC, 0xD365);
  (0xD360000011AD, 0xD366); (0xD360000011AE, 0xD367); (0xD360000011AF, 0xD368);
  (0xD360000011B0, 0xD369); (0xD360000011B1, 0xD36A); (0xD360000011B2, 0xD36B);
  (0xD360000011B3, 0xD36C); (0xD360000011B4, 0xD36D); (0xD360000011B5, 0xD36E);
  (0xD360000011B6, 0xD36F); (0xD360000011B7, 0xD370); (0xD360000011B8, 0xD371);
  (0xD360000011B9, 0xD372); (0xD360000011BA, 0xD373); (0xD360000011BB, 0xD374);
  (0xD360000011BC, 0xD375); (0xD360000011BD, 0xD376); (0xD360000011BE, 0xD377);
  (0xD360000011BF, 0xD378); (0xD360000011C0, 0xD379); (0xD360000011C1, 0xD37A);
  (0xD360000011C2, 0xD37B); (0xD37C000011A8, 0xD37D); (0xD37C000011A9, 0xD37E);
  (0xD37C000011AA, 0xD37F); (0xD37C000011AB, 0xD380); (0xD37C000011AC, 0xD381);
  (0xD37C000011AD, 0xD382); (0xD37C000011AE, 0xD383); (0xD37C000011AF, 0xD384);
  (0xD37C000011B0, 0xD385); (0xD37C000011B1, 0xD386); (0xD37C000011B2, 0xD387);
  (0xD37C000011B3, 0xD388); (0xD37C000011B4, 0xD389); (0xD37C000011B5, 0xD38A);
  (0xD37C000011B6, 0xD38B); (0xD37C000011B7, 0xD38C); (0xD37C000011B8, 0xD38D);
  (0xD37C000011B9, 0xD38E); (0xD37C000011BA, 0xD38F); (0xD37C000011BB, 0xD390);
  (0xD37C000011BC, 0xD391); (0xD37C000011BD, 0xD392); (0xD37C000011BE, 0xD393);
  (0xD37C000011BF, 0xD394); (0xD37C000011C0, 0xD395); (0xD37C000011C1, 0xD396) ].

Definition nfcCompose_74 : list (Z * Z) := [
  (0xD37C000011C2, 0xD397); (0xD398000011A8, 0xD399); (0xD398000011A9, 0xD39A);
  (0xD398000011AA, 0xD39B); (0xD398000011AB, 0xD39C); (0xD398000011AC, 0xD39D);
  (0xD398000011AD, 0xD39E); (0xD398000011AE, 0xD39F); (0xD398000011AF, 0xD3A0);
  (0xD398000011B0, 0xD3A1); (0xD398000011B1, 0xD3A2); (0xD398000011B2, 0xD3A3);
  (0xD398000011B3, 0xD3A4); (0xD398000011B4, 0xD3A5); (0xD398000011B5, 0xD3A6);
  (0xD398000011B6, 0xD3A7); (0xD398000011B7, 0xD3A8); (0xD398000011B8, 0xD3A9);
  (0xD398000011B9, 0xD3AA); (0xD398000011BA, 0xD3AB); (0xD398000011BB, 0xD3AC);
  (0xD398000011BC, 0xD3AD); (0xD398000011BD, 0xD3AE); (0xD398000011BE, 0xD3AF);
  (0xD398000011BF, 0xD3B0); (0xD398000011C0, 0xD3B1); (0xD398000011C1, 0xD3B2);
  (0xD398000011C2, 0xD3B3); (0xD3B4000011A8, 0xD3B5); (0xD3B4000011A9, 0xD3B6);
  (0xD3B4000011AA, 0xD3B7); (0xD3B4000011AB, 0xD3B8); (0xD3B4000011AC, 0xD3B9);
  (0xD3B4000011AD, 0xD3BA); (0xD3B4000011AE, 0xD3BB); (0xD3B4000011AF, 0xD3BC);
  (0xD3B4000011B0, 0xD3BD); (0xD3B4000011B1, 0xD3BE); (0xD3B4000011B2, 0xD3BF);
  (0xD3B4000011B3, 0xD3C0); (0xD3B4000011B4, 0xD3C1); (0xD3B4000011B5, 0xD3C2);
  (0xD3B4000011B6, 0xD3C3); (0xD3B4000011B7, 0xD3C4); (0xD3B4000011B8, 0xD3C5);
  (0xD3B4000011B9, 0xD3C6); (0xD3B4000011BA, 0xD3C7); (0xD3B4000011BB, 0xD3C8);
  (0xD3B4000011BC, 0xD3C9); (0xD3B4000011BD, 0xD3CA); (0xD3B4000011BE, 0xD3CB);
  (0xD3B4000011BF, 0xD3CC); (0xD3B4000011C0, 0xD3CD); (0xD3B4000011C1, 0xD3CE);
  (0xD3B4000011C2, 0xD3CF); (0xD3D0000011A8, 0xD3D1); (0xD3D0000011A9, 0xD3D2);
  (0xD3D0000011AA, 0xD3D3); (0xD3D0000011AB, 0xD3D4); (0xD3D0000011AC, 0xD3D5);
  (0xD3D0000011AD, 0xD3D6); (0xD3D0000011AE, 0xD3D7); (0xD3D0000011AF, 0xD3D8);
  (0xD3D0000011B0, 0xD3D9); (0xD3D0000011B1, 0xD3DA); (0xD3D0000011B2, 0xD3DB);
  (0xD3D0000011B3, 0xD3DC); (0xD3D0000011B4, 0xD3DD); (0xD3D0000011B5, 0xD3DE);
  (0xD3D0000011B6, 0xD3DF); (0xD3D0000011B7, 0xD3E0); (0xD3D0000011B8, 0xD3E1);
  (0xD3D0000011B9, 0xD3E2); (0xD3D0000011BA, 0xD3E3); (0xD3D0000011BB, 0xD3E4);
  (0xD3D0000011BC, 0xD3E5); (0xD3D0000011BD, 0xD3E6); (0xD3D0000011BE, 0xD3E7);
  (0xD3D0000011BF, 0xD3E8); (0xD3D0000011C0, 0xD3E9); (0xD3D0000011C1, 0xD3EA);
  (0xD3D0000011C2, 0xD3EB); (0xD3EC000011A8, 0xD3ED); (0xD3EC000011A9, 0xD3EE);
  (0xD3EC000011AA, 0xD3EF); (0xD3EC000011AB, 0xD3F0); (0xD3EC000011AC, 0xD3F1);
  (0xD3EC000011AD, 0xD3F2); (0xD3EC000011AE, 0xD3F3); (0xD3EC000011AF, 0xD3F4);
  (0xD3EC000011B0, 0xD3F5); (0xD3EC000011B1, 0xD3F6); (0xD3EC000011B2, 0xD3F7);
  (0xD3EC000011B3, 0xD3F8); (0xD3EC000011B4, 0xD3F9); (0xD3EC000011B5, 0xD3FA);
  (0xD3EC000011B6, 0xD3FB); (0xD3EC000011B7, 0xD3FC); (0xD3EC000011B8, 0xD3FD);
  (0xD3EC000011B9, 0xD3FE); (0xD3EC000011BA, 0xD3FF); (0xD3EC000011BB, 0xD400);
  (0xD3EC000011BC, 0xD401); (0xD3EC000011BD, 0xD402); (0xD3EC000011BE, 0xD403);
  (0xD3EC000011BF, 0xD404); (0xD3EC000011C0, 0xD405); (0xD3EC000011C1, 0xD406);
  (0xD3EC000011C2, 0xD407); (0xD408000011A8, 0xD409); (0xD408000011A9, 0xD40A);
  (0xD408000011AA, 0xD40B); (0xD408000011AB, 0xD40C); (0xD408000011AC, 0xD40D);
  (0xD408000011AD, 0xD40E); (0xD408000011AE, 0xD40F); (0xD408000011AF, 0xD410);
  (0xD408000011B0, 0xD411); (0xD408000011B1, 0xD412); (0xD408000011B2, 0xD413);
  (0xD408000011B3, 0xD414); (0xD408000011B4, 0xD415); (0xD408000011B5, 0xD416);
  (0xD408000011B6, 0xD417); (0xD408000011B7, 0xD418); (0xD408000011B8, 0xD419);
  (0xD408000011B9, 0xD41A); (0xD408000011BA, 0xD41B); (0xD408000011BB, 0xD41C);
  (0xD408000011BC, 0xD41D); (0xD408000011BD, 0xD41E); (0xD408000011BE, 0xD41F);
  (0xD408000011BF, 0xD420); (0xD408000011C0, 0xD421); (0xD408000011C1, 0xD422);
  (0xD408000011C2, 0xD423); (0xD424000011A8, 0xD425); (0xD424000011A9, 0xD426);
  (0xD424000011AA, 0xD427); (0xD424000011AB, 0xD428); (0xD424000011AC, 0xD429);
  (0xD424000011AD, 0xD42A); (0xD424000011AE, 0xD42B); (0xD424000011AF, 0xD42C);
  (0xD424000011B0, 0xD42D); (0xD424000011B1, 0xD42E); (0xD424000011B2, 0xD42F);
  (0xD424000011B3, 0xD430); (0xD424000011B4, 0xD431); (0xD424000011B5, 0xD432) ].

Definition nfcCompose_75 : list (Z * Z) := [
  (0xD424000011B6, 0xD433); (0xD424000011B7, 0xD434); (0xD424000011B8, 0xD435);
  (0xD424000011B9, 0xD436); (0xD424000011BA, 0xD437); (0xD424000011BB, 0xD438);
  (0xD424000011BC, 0xD439); (0xD424000011BD, 0xD43A); (0xD424000011BE, 0xD43B);
  (0xD424000011BF, 0xD43C); (0xD424000011C0, 0xD43D); (0xD424000011C1, 0xD43E);
  (0xD424000011C2, 0xD43F); (0xD440000011A8, 0xD441); (0xD440000011A9, 0xD442);
  (0xD440000011AA, 0xD443); (0xD440000011AB, 0xD444); (0xD440000011AC, 0xD445);
  (0xD440000011AD, 0xD446); (0xD440000011AE, 0xD447); (0xD440000011AF, 0xD448);
  (0xD440000011B0, 0xD449); (0xD440000011B1, 0xD44A); (0xD440000011B2, 0xD44B);
  (0xD440000011B3, 0xD44C); (0xD440000011B4, 0xD44D); (0xD440000011B5, 0xD44E);
  (0xD440000011B6, 0xD44F); (0xD440000011B7, 0xD450); (0xD440000011B8, 0xD451);
  (0xD440000011B9, 0xD452); (0xD440000011BA, 0xD453); (0xD440000011BB, 0xD454);
  (0xD440000011BC, 0xD455); (0xD440000011BD, 0xD456); (0xD440000011BE, 0xD457);
  (0xD440000011BF, 0xD458); (0xD440000011C0, 0xD459); (0xD440000011C1, 0xD45A);
  (0xD440000011C2, 0xD45B); (0xD45C000011A8, 0xD45D); (0xD45C000011A9, 0xD45E);
  (0xD45C000011AA, 0xD45F); (0xD45C000011AB, 0xD460); (0xD45C000011AC, 0xD461);
  (0xD45C000011AD, 0xD462); (0xD45C000011AE, 0xD463); (0xD45C000011AF, 0xD464);
  (0xD45C000011B0, 0xD465); (0xD45C000011B1, 0xD466); (0xD45C000011B2, 0xD467);
  (0xD45C000011B3, 0xD468); (0xD45C000011B4, 0xD469); (0xD45C000011B5, 0xD46A);
  (0xD45C000011B6, 0xD46B); (0xD45C000011B7, 0xD46C); (0xD45C000011B8, 0xD46D);
  (0xD45C000011B9, 0xD46E); (0xD45C000011BA, 0xD46F); (0xD45C000011BB, 0xD470);
  (0xD45C000011BC, 0xD471); (0xD45C000011BD, 0xD472); (0xD45C000011BE, 0xD473);
  (0xD45C000011BF, 0xD474); (0xD45C000011C0, 0xD475); (0xD45C000011C1, 0xD476);
  (0xD45C000011C2, 0xD477); (0xD478000011A8, 0xD479); (0xD478000011A9, 0xD47A);
  (0xD478000011AA, 0xD47B); (0xD478000011AB, 0xD47C); (0xD478000011AC, 0xD47D);
  (0xD478000011AD, 0xD47E); (0xD478000011AE, 0xD47F); (0xD478000011AF, 0xD480);
  (0xD478000011B0, 0xD481); (0xD478000011B1, 0xD482); (0xD478000011B2, 0xD483);
  (0xD478000011B3, 0xD484); (0xD478000011B4, 0xD485); (0xD478000011B5, 0xD486);
  (0xD478000011B6, 0xD487); (0xD478000011B7, 0xD488); (0xD478000011B8, 0xD489);
  (0xD478000011B9, 0xD48A); (0xD478000011BA, 0xD48B); (0xD478000011BB, 0xD48C);
  (0xD478000011BC, 0xD48D); (0xD478000011BD, 0xD48E); (0xD478000011BE, 0xD48F);
  (0xD478000011BF, 0xD490); (0xD478000011C0, 0xD491); (0xD478000011C1, 0xD492);
  (0xD478000011C2, 0xD493); (0xD494000011A8, 0xD495); (0xD494000011A9, 0xD496);
  (0xD494000011AA, 0xD497); (0xD494000011AB, 0xD498); (0xD494000011AC, 0xD499);
  (0xD494000011AD, 0xD49A); (0xD494000011AE, 0xD49B); (0xD494000011AF, 0xD49C);
  (0xD494000011B0, 0xD49D); (0xD494000011B1, 0xD49E); (0xD494000011B2, 0xD49F);
  (0xD494000011B3, 0xD4A0); (0xD494000011B4, 0xD4A1); (0xD494000011B5, 0xD4A2);
  (0xD494000011B6, 0xD4A3); (0xD494000011B7, 0xD4A4); (0xD494000011B8, 0xD4A5);
  (0xD494000011B9, 0xD4A6); (0xD494000011BA, 0xD4A7); (0xD494000011BB, 0xD4A8);
  (0xD494000011BC, 0xD4A9); (0xD494000011BD, 0xD4AA); (0xD494000011BE, 0xD4AB);
  (0xD494000011BF, 0xD4AC); (0xD494000011C0, 0xD4AD); (0xD494000011C1, 0xD4AE);
  (0xD494000011C2, 0xD4AF); (0xD4B0000011A8, 0xD4B1); (0xD4B0000011A9, 0xD4B2);
  (0xD4B0000011AA, 0xD4B3); (0xD4B0000011AB, 0xD4B4); (0xD4B0000011AC, 0xD4B5);
  (0xD4B0000011AD, 0xD4B6); (0xD4B0000011AE, 0xD4B7); (0xD4B0000011AF, 0xD4B8);
  (0xD4B0000011B0, 0xD4B9); (0xD4B0000011B1, 0xD4BA); (0xD4B0000011B2, 0xD4BB);
  (0xD4B0000011B3, 0xD4BC); (0xD4B0000011B4, 0xD4BD); (0xD4B0000011B5, 0xD4BE);
  (0xD4B0000011B6, 0xD4BF); (0xD4B0000011B7, 0xD4C0); (0xD4B0000011B8, 0xD4C1);
  (0xD4B0000011B9, 0xD4C2); (0xD4B0000011BA, 0xD4C3); (0xD4B0000011BB, 0xD4C4);
  (0xD4B0000011BC, 0xD4C5); (0xD4B0000011BD, 0xD4C6); (0xD4B0000011BE, 0xD4C7);
  (0xD4B0000011BF, 0xD4C8); (0xD4B0000011C0, 0xD4C9); (0xD4B0000011C1, 0xD4CA);
  (0xD4B0000011C2, 0xD4CB); (0xD4CC000011A8, 0xD4CD); (0xD4CC000011A9, 0xD4CE) ].

Definition nfcCompose_76 : list (Z * Z) := [
  (0xD4CC000011AA, 0xD4CF); (0xD4CC000011AB, 0xD4D0); (0xD4CC000011AC, 0xD4D1);
  (0xD4CC000011AD, 0xD4D2); (0xD4CC000011AE, 0xD4D3); (0xD4CC000011AF, 0xD4D4);
  (0xD4CC000011B0, 0xD4D5); (0xD4CC000011B1, 0xD4D6); (0xD4CC000011B2, 0xD4D7);
  (0xD4CC000011B3, 0xD4D8); (0xD4CC000011B4, 0xD4D9); (0xD4CC000011B5, 0xD4DA);
  (0xD4CC000011B6, 0xD4DB); (0xD4CC000011B7, 0xD4DC); (0xD4CC000011B8, 0xD4DD);
  (0xD4CC000011B9, 0xD4DE); (0xD4CC000011BA, 0xD4DF); (0xD4CC000011BB, 0xD4E0);
  (0xD4CC000011BC, 0xD4E1); (0xD4CC000011BD, 0xD4E2); (0xD4CC000011BE, 0xD4E3);
  (0xD4CC000011BF, 0xD4E4); (0xD4CC000011C0, 0xD4E5); (0xD4CC000011C1, 0xD4E6);
  (0xD4CC000011C2, 0xD4E7); (0xD4E8000011A8, 0xD4E9); (0xD4E8000011A9, 0xD4EA);
  (0xD4E8000011AA, 0xD4EB); (0xD4E8000011AB, 0xD4EC); (0xD4E8000011AC, 0xD4ED);
  (0xD4E8000011AD, 0xD4EE); (0xD4E8000011AE, 0xD4EF); (0xD4E8000011AF, 0xD4F0);
  (0xD4E8000011B0, 0xD4F1); (0xD4E8000011B1, 0xD4F2); (0xD4E8000011B2, 0xD4F3);
  (0xD4E8000011B3, 0xD4F4); (0xD4E8000011B4, 0xD4F5); (0xD4E8000011B5, 0xD4F6);
  (0xD4E8000011B6, 0xD4F7); (0xD4E8000011B7, 0xD4F8); (0xD4E8000011B8, 0xD4F9);
  (0xD4E8000011B9, 0xD4FA); (0xD4E8000011BA, 0xD4FB); (0xD4E8000011BB, 0xD4FC);
  (0xD4E8000011BC, 0xD4FD); (0xD4E8000011BD, 0xD4FE); (0xD4E8000011BE, 0xD4FF);
  (0xD4E8000011BF, 0xD500); (0xD4E8000011C0, 0xD501); (0xD4E8000011C1, 0xD502);
  (0xD4E8000011C2, 0xD503); (0xD504000011A8, 0xD505); (0xD504000011A9, 0xD506);
  (0xD504000011AA, 0xD507); (0xD504000011AB, 0xD508); (0xD504000011AC, 0xD509);
  (0xD504000011AD, 0xD50A); (0xD504000011AE, 0xD50B); (0xD504000011AF, 0xD50C);
  (0xD504000011B0, 0xD50D); (0xD504000011B1, 0xD50E); (0xD504000011B2, 0xD50F);
  (0xD504000011B3, 0xD510); (0xD504000011B4, 0xD511); (0xD504000011B5, 0xD512);
  (0xD504000011B6, 0xD513); (0xD504000011B7, 0xD514); (0xD504000011B8, 0xD515);
  (0xD504000011B9, 0xD516); (0xD504000011BA, 0xD517); (0xD504000011BB, 0xD518);
  (0xD504000011BC, 0xD519); (0xD504000011BD, 0xD51A); (0xD504000011BE, 0xD51B);
  (0xD504000011BF, 0xD51C); (0xD504000011C0, 0xD51D); (0xD504000011C1, 0xD51E);
  (0xD504000011C2, 0xD51F); (0xD520000011A8, 0xD521); (0xD520000011A9, 0xD522);
  (0xD520000011AA, 0xD523); (0xD520000011AB, 0xD524); (0xD520000011AC, 0xD525);
  (0xD520000011AD, 0xD526); (0xD520000011AE, 0xD527); (0xD520000011AF, 0xD528);
  (0xD520000011B0, 0xD529); (0xD520000011B1, 0xD52A); (0xD520000011B2, 0xD52B);
  (0xD520000011B3, 0xD52C); (0xD520000011B4, 0xD52D); (0xD520000011B5, 0xD52E);
  (0xD520000011B6, 0xD52F); (0xD520000011B7, 0xD530); (0xD520000011B8, 0xD531);
  (0xD520000011B9, 0xD532); (0xD520000011BA, 0xD533); (0xD520000011BB, 0xD534);
  (0xD520000011BC, 0xD535); (0xD520000011BD, 0xD536); (0xD520000011BE, 0xD537);
  (0xD520000011BF, 0xD538); (0xD520000011C0, 0xD539); (0xD520000011C1, 0xD53A);
  (0xD520000011C2, 0xD53B); (0xD53C000011A8, 0xD53D); (0xD53C000011A9, 0xD53E);
  (0xD53C000011AA, 0xD53F); (0xD53C000011AB, 0xD540); (0xD53C000011AC, 0xD541);
  (0xD53C000011AD, 0xD542); (0xD53C000011AE, 0xD543); (0xD53C000011AF, 0xD544);
  (0xD53C000011B0, 0xD545); (0xD53C000011B1, 0xD546); (0xD53C000011B2, 0xD547);
  (0xD53C000011B3, 0xD548); (0xD53C000011B4, 0xD549); (0xD53C000011B5, 0xD54A);
  (0xD53C000011B6, 0xD54B); (0xD53C000011B7, 0xD54C); (0xD53C000011B8, 0xD54D);
  (0xD53C000011B9, 0xD54E); (0xD53C000011BA, 0xD54F); (0xD53C000011BB, 0xD550);
  (0xD53C000011BC, 0xD551); (0xD53C000011BD, 0xD552); (0xD53C000011BE, 0xD553);
  (0xD53C000011BF, 0xD554); (0xD53C000011C0, 0xD555); (0xD53C000011C1, 0xD556);
  (0xD53C000011C2, 0xD557); (0xD558000011A8, 0xD559); (0xD558000011A9, 0xD55A);
  (0xD558000011AA, 0xD55B); (0xD558000011AB, 0xD55C); (0xD558000011AC, 0xD55D);
  (0xD558000011AD, 0xD55E); (0xD558000011AE, 0xD55F); (0xD558000011AF, 0xD560);
  (0xD558000011B0, 0xD561); (0xD558000011B1, 0xD562); (0xD558000011B2, 0xD563);
  (0xD558000011B3, 0xD564); (0xD558000011B4, 0xD565); (0xD558000011B5, 0xD566);
  (0xD558000011B6, 0xD567); (0xD558000011B7, 0xD568); (0xD558000011B8, 0xD569) ].

Definition nfcCompose_77 : list (Z * Z) := [
  (0xD558000011B9, 0xD56A); (0xD558000011BA, 0xD56B); (0xD558000011BB, 0xD56C);
  (0xD558000011BC, 0xD56D); (0xD558000011BD, 0xD56E); (0xD558000011BE, 0xD56F);
  (0xD558000011BF, 0xD570); (0xD558000011C0, 0xD571); (0xD558000011C1, 0xD572);
  (0xD558000011C2, 0xD573); (0xD574000011A8, 0xD575); (0xD574000011A9, 0xD576);
  (0xD574000011AA, 0xD577); (0xD574000011AB, 0xD578); (0xD574000011AC, 0xD579);
  (0xD574000011AD, 0xD57A); (0xD574000011AE, 0xD57B); (0xD574000011AF, 0xD57C);
  (0xD574000011B0, 0xD57D); (0xD574000011B1, 0xD57E); (0xD574000011B2, 0xD57F);
  (0xD574000011B3, 0xD580); (0xD574000011B4, 0xD581); (0xD574000011B5, 0xD582);
  (0xD574000011B6, 0xD583); (0xD574000011B7, 0xD584); (0xD574000011B8, 0xD585);
  (0xD574000011B9, 0xD586); (0xD574000011BA, 0xD587); (0xD574000011BB, 0xD588);
  (0xD574000011BC, 0xD589); (0xD574000011BD, 0xD58A); (0xD574000011BE, 0xD58B);
  (0xD574000011BF, 0xD58C); (0xD574000011C0, 0xD58D); (0xD574000011C1, 0xD58E);
  (0xD574000011C2, 0xD58F); (0xD590000011A8, 0xD591); (0xD590000011A9, 0xD592);
  (0xD590000011AA, 0xD593); (0xD590000011AB, 0xD594); (0xD590000011AC, 0xD595);
  (0xD590000011AD, 0xD596); (0xD590000011AE, 0xD597); (0xD590000011AF, 0xD598);
  (0xD590000011B0, 0xD599); (0xD590000011B1, 0xD59A); (0xD590000011B2, 0xD59B);
  (0xD590000011B3, 0xD59C); (0xD590000011B4, 0xD59D); (0xD590000011B5, 0xD59E);
  (0xD590000011B6, 0xD59F); (0xD590000011B7, 0xD5A0); (0xD590000011B8, 0xD5A1);
  (0xD590000011B9, 0xD5A2); (0xD590000011BA, 0xD5A3); (0xD590000011BB, 0xD5A4);
  (0xD590000011BC, 0xD5A5); (0xD590000011BD, 0xD5A6); (0xD590000011BE, 0xD5A7);
  (0xD590000011BF, 0xD5A8); (0xD590000011C0, 0xD5A9); (0xD590000011C1, 0xD5AA);
  (0xD590000011C2, 0xD5AB); (0xD5AC000011A8, 0xD5AD); (0xD5AC000011A9, 0xD5AE);
  (0xD5AC000011AA, 0xD5AF); (0xD5AC000011AB, 0xD5B0); (0xD5AC000011AC, 0xD5B1);
  (0xD5AC000011AD, 0xD5B2); (0xD5AC000011AE, 0xD5B3); (0xD5AC000011AF, 0xD5B4);
  (0xD5AC000011B0, 0xD5B5); (0xD5AC000011B1, 0xD5B6); (0xD5AC000011B2, 0xD5B7);
  (0xD5AC000011B3, 0xD5B8); (0xD5AC000011B4, 0xD5B9); (0xD5AC000011B5, 0xD5BA);
  (0xD5AC000011B6, 0xD5BB); (0xD5AC000011B7, 0xD5BC); (0xD5AC000011B8, 0xD5BD);
  (0xD5AC000011B9, 0xD5BE); (0xD5AC000011BA, 0xD5BF); (0xD5AC000011BB, 0xD5C0);
  (0xD5AC000011BC, 0xD5C1); (0xD5AC000011BD, 0xD5C2); (0xD5AC000011BE, 0xD5C3);
  (0xD5AC000011BF, 0xD5C4); (0xD5AC000011C0, 0xD5C5); (0xD5AC000011C1, 0xD5C6);
  (0xD5AC000011C2, 0xD5C7); (0xD5C8000011A8, 0xD5C9); (0xD5C8000011A9, 0xD5CA);
  (0xD5C8000011AA, 0xD5CB); (0xD5C8000011AB, 0xD5CC); (0xD5C8000011AC, 0xD5CD);
  (0xD5C8000011AD, 0xD5CE); (0xD5C8000011AE, 0xD5CF); (0xD5C8000011AF, 0xD5D0);
  (0xD5C8000011B0, 0xD5D1); (0xD5C8000011B1, 0xD5D2); (0xD5C8000011B2, 0xD5D3);
  (0xD5C8000011B3, 0xD5D4); (0xD5C8000011B4, 0xD5D5); (0xD5C8000011B5, 0xD5D6);
  (0xD5C8000011B6, 0xD5D7); (0xD5C8000011B7, 0xD5D8); (0xD5C8000011B8, 0xD5D9);
  (0xD5C8000011B9, 0xD5DA); (0xD5C8000011BA, 0xD5DB); (0xD5C8000011BB, 0xD5DC);
  (0xD5C8000011BC, 0xD5DD); (0xD5C8000011BD, 0xD5DE); (0xD5C8000011BE, 0xD5DF);
  (0xD5C8000011BF, 0xD5E0); (0xD5C8000011C0, 0xD5E1); (0xD5C8000011C1, 0xD5E2);
  (0xD5C8000011C2, 0xD5E3); (0xD5E4000011A8, 0xD5E5); (0xD5E4000011A9, 0xD5E6);
  (0xD5E4000011AA, 0xD5E7); (0xD5E4000011AB, 0xD5E8); (0xD5E4000011AC, 0xD5E9);
  (0xD5E4000011AD, 0xD5EA); (0xD5E4000011AE, 0xD5EB); (0xD5E4000011AF, 0xD5EC);
  (0xD5E4000011B0, 0xD5ED); (0xD5E4000011B1, 0xD5EE); (0xD5E4000011B2, 0xD5EF);
  (0xD5E4000011B3, 0xD5F0); (0xD5E4000011B4, 0xD5F1); (0xD5E4000011B5, 0xD5F2);
  (0xD5E4000011B6, 0xD5F3); (0xD5E4000011B7, 0xD5F4); (0xD5E4000011B8, 0xD5F5);
  (0xD5E4000011B9, 0xD5F6); (0xD5E4000011BA, 0xD5F7); (0xD5E4000011BB, 0xD5F8);
  (0xD5E4000011BC, 0xD5F9); (0xD5E4000011BD, 0xD5FA); (0xD5E4000011BE, 0xD5FB);
  (0xD5E4000011BF, 0xD5FC); (0xD5E4000011C0, 0xD5FD); (0xD5E4000011C1, 0xD5FE);
  (0xD5E4000011C2, 0xD5FF); (0xD600000011A8, 0xD601); (0xD600000011A9, 0xD602);
  (0xD600000011AA, 0xD603); (0xD600000011AB, 0xD604); (0xD600000011AC, 0xD605) ].

Definition nfcCompose_78 : list (Z * Z) := [
  (0xD600000011AD, 0xD606); (0xD600000011AE, 0xD607); (0xD600000011AF, 0xD608);
  (0xD600000011B0, 0xD609); (0xD600000011B1, 0xD60A); (0xD600000011B2, 0xD60B);
  (0xD600000011B3, 0xD60C); (0xD600000011B4, 0xD60D); (0xD600000011B5, 0xD60E);
  (0xD600000011B6, 0xD60F); (0xD600000011B7, 0xD610); (0xD600000011B8, 0xD611);
  (0xD600000011B9, 0xD612); (0xD600000011BA, 0xD613); (0xD600000011BB, 0xD614);
  (0xD600000011BC, 0xD615); (0xD600000011BD, 0xD616); (0xD600000011BE, 0xD617);
  (0xD600000011BF, 0xD618); (0xD600000011C0, 0xD619); (0xD600000011C1, 0xD61A);
  (0xD600000011C2, 0xD61B); (0xD61C000011A8, 0xD61D); (0xD61C000011A9, 0xD61E);
  (0xD61C000011AA, 0xD61F); (0xD61C000011AB, 0xD620); (0xD61C000011AC, 0xD621);
  (0xD61C000011AD, 0xD622); (0xD61C000011AE, 0xD623); (0xD61C000011AF, 0xD624);
  (0xD61C000011B0, 0xD625); (0xD61C000011B1, 0xD626); (0xD61C000011B2, 0xD627);
  (0xD61C000011B3, 0xD628); (0xD61C000011B4, 0xD629); (0xD61C000011B5, 0xD62A);
  (0xD61C000011B6, 0xD62B); (0xD61C000011B7, 0xD62C); (0xD61C000011B8, 0xD62D);
  (0xD61C000011B9, 0xD62E); (0xD61C000011BA, 0xD62F); (0xD61C000011BB, 0xD630);
  (0xD61C000011BC, 0xD631); (0xD61C000011BD, 0xD632); (0xD61C000011BE, 0xD633);
  (0xD61C000011BF, 0xD634); (0xD61C000011C0, 0xD635); (0xD61C000011C1, 0xD636);
  (0xD61C000011C2, 0xD637); (0xD638000011A8, 0xD639); (0xD638000011A9, 0xD63A);
  (0xD638000011AA, 0xD63B); (0xD638000011AB, 0xD63C); (0xD638000011AC, 0xD63D);
  (0xD638000011AD, 0xD63E); (0xD638000011AE, 0xD63F); (0xD638000011AF, 0xD640);
  (0xD638000011B0, 0xD641); (0xD638000011B1, 0xD642); (0xD638000011B2, 0xD643);
  (0xD638000011B3, 0xD644); (0xD638000011B4, 0xD645); (0xD638000011B5, 0xD646);
  (0xD638000011B6, 0xD647); (0xD638000011B7, 0xD648); (0xD638000011B8, 0xD649);
  (0xD638000011B9, 0xD64A); (0xD638000011BA, 0xD64B); (0xD638000011BB, 0xD64C);
  (0xD638000011BC, 0xD64D); (0xD638000011BD, 0xD64E); (0xD638000011BE, 0xD64F);
  (0xD638000011BF, 0xD650); (0xD638000011C0, 0xD651); (0xD638000011C1, 0xD652);
  (0xD638000011C2, 0xD653); (0xD654000011A8, 0xD655); (0xD654000011A9, 0xD656);
  (0xD654000011AA, 0xD657); (0xD654000011AB, 0xD658); (0xD654000011AC, 0xD659);
  (0xD654000011AD, 0xD65A); (0xD654000011AE, 0xD65B); (0xD654000011AF, 0xD65C);
  (0xD654000011B0, 0xD65D); (0xD654000011B1, 0xD65E); (0xD654000011B2, 0xD65F);
  (0xD654000011B3, 0xD660); (0xD654000011B4, 0xD661); (0xD654000011B5, 0xD662);
  (0xD654000011B6, 0xD663); (0xD654000011B7, 0xD664); (0xD654000011B8, 0xD665);
  (0xD654000011B9, 0xD666); (0xD654000011BA, 0xD667); (0xD654000011BB, 0xD668);
  (0xD654000011BC, 0xD669); (0xD654000011BD, 0xD66A); (0xD654000011BE, 0xD66B);
  (0xD654000011BF, 0xD66C); (0xD654000011C0, 0xD66D); (0xD654000011C1, 0xD66E);
  (0xD654000011C2, 0xD66F); (0xD670000011A8, 0xD671); (0xD670000011A9, 0xD672);
  (0xD670000011AA, 0xD673); (0xD670000011AB, 0xD674); (0xD670000011AC, 0xD675);
  (0xD670000011AD, 0xD676); (0xD670000011AE, 0xD677); (0xD670000011AF, 0xD678);
  (0xD670000011B0, 0xD679); (0xD670000011B1, 0xD67A); (0xD670000011B2, 0xD67B);
  (0xD670000011B3, 0xD67C); (0xD670000011B4, 0xD67D); (0xD670000011B5, 0xD67E);
  (0xD670000011B6, 0xD67F); (0xD670000011B7, 0xD680); (0xD670000011B8, 0xD681);
  (0xD670000011B9, 0xD682); (0xD670000011BA, 0xD683); (0xD670000011BB, 0xD684);
  (0xD670000011BC, 0xD685); (0xD670000011BD, 0xD686); (0xD670000011BE, 0xD687);
  (0xD670000011BF, 0xD688); (0xD670000011C0, 0xD689); (0xD670000011C1, 0xD68A);
  (0xD670000011C2, 0xD68B); (0xD68C000011A8, 0xD68D); (0xD68C000011A9, 0xD68E);
  (0xD68C000011AA, 0xD68F); (0xD68C000011AB, 0xD690); (0xD68C000011AC, 0xD691);
  (0xD68C000011AD, 0xD692); (0xD68C000011AE, 0xD693); (0xD68C000011AF, 0xD694);
  (0xD68C000011B0, 0xD695); (0xD68C000011B1, 0xD696); (0xD68C000011B2, 0xD697);
  (0xD68C000011B3, 0xD698); (0xD68C000011B4, 0xD699); (0xD68C000011B5, 0xD69A);
  (0xD68C000011B6, 0xD69B); (0xD68C000011B7, 0xD69C); (0xD68C000011B8, 0xD69D);
  (0xD68C000011B9, 0xD69E); (0xD68C000011BA, 0xD69F); (0xD68C000011BB, 0xD6A0) ].

Definition nfcCompose_79 : list (Z * Z) := [
  (0xD68C000011BC, 0xD6A1); (0xD68C000011BD, 0xD6A2); (0xD68C000011BE, 0xD6A3);
  (0xD68C000011BF, 0xD6A4); (0xD68C000011C0, 0xD6A5); (0xD68C000011C1, 0xD6A6);
  (0xD68C000011C2, 0xD6A7); (0xD6A8000011A8, 0xD6A9); (0xD6A8000011A9, 0xD6AA);
  (0xD6A8000011AA, 0xD6AB); (0xD6A8000011AB, 0xD6AC); (0xD6A8000011AC, 0xD6AD);
  (0xD6A8000011AD, 0xD6AE); (0xD6A8000011AE, 0xD6AF); (0xD6A8000011AF, 0xD6B0);
  (0xD6A8000011B0, 0xD6B1); (0xD6A8000011B1, 0xD6B2); (0xD6A8000011B2, 0xD6B3);
  (0xD6A8000011B3, 0xD6B4); (0xD6A8000011B4, 0xD6B5); (0xD6A8000011B5, 0xD6B6);
  (0xD6A8000011B6, 0xD6B7); (0xD6A8000011B7, 0xD6B8); (0xD6A8000011B8, 0xD6B9);
  (0xD6A8000011B9, 0xD6BA); (0xD6A8000011BA, 0xD6BB); (0xD6A8000011BB, 0xD6BC);
  (0xD6A8000011BC, 0xD6BD); (0xD6A8000011BD, 0xD6BE); (0xD6A8000011BE, 0xD6BF);
  (0xD6A8000011BF, 0xD6C0); (0xD6A8000011C0, 0xD6C1); (0xD6A8000011C1, 0xD6C2);
  (0xD6A8000011C2, 0xD6C3); (0xD6C4000011A8, 0xD6C5); (0xD6C4000011A9, 0xD6C6);
  (0xD6C4000011AA, 0xD6C7); (0xD6C4000011AB, 0xD6C8); (0xD6C4000011AC, 0xD6C9);
  (0xD6C4000011AD, 0xD6CA); (0xD6C4000011AE, 0xD6CB); (0xD6C4000011AF, 0xD6CC);
  (0xD6C4000011B0, 0xD6CD); (0xD6C4000011B1, 0xD6CE); (0xD6C4000011B2, 0xD6CF);
  (0xD6C4000011B3, 0xD6D0); (0xD6C4000011B4, 0xD6D1); (0xD6C4000011B5, 0xD6D2);
  (0xD6C4000011B6, 0xD6D3); (0xD6C4000011B7, 0xD6D4); (0xD6C4000011B8, 0xD6D5);
  (0xD6C4000011B9, 0xD6D6); (0xD6C4000011BA, 0xD6D7); (0xD6C4000011BB, 0xD6D8);
  (0xD6C4000011BC, 0xD6D9); (0xD6C4000011BD, 0xD6DA); (0xD6C4000011BE, 0xD6DB);
  (0xD6C4000011BF, 0xD6DC); (0xD6C4000011C0, 0xD6DD); (0xD6C4000011C1, 0xD6DE);
  (0xD6C4000011C2, 0xD6DF); (0xD6E0000011A8, 0xD6E1); (0xD6E0000011A9, 0xD6E2);
  (0xD6E0000011AA, 0xD6E3); (0xD6E0000011AB, 0xD6E4); (0xD6E0000011AC, 0xD6E5);
  (0xD6E0000011AD, 0xD6E6); (0xD6E0000011AE, 0xD6E7); (0xD6E0000011AF, 0xD6E8);
  (0xD6E0000011B0, 0xD6E9); (0xD6E0000011B1, 0xD6EA); (0xD6E0000011B2, 0xD6EB);
  (0xD6E0000011B3, 0xD6EC); (0xD6E0000011B4, 0xD6ED); (0xD6E0000011B5, 0xD6EE);
  (0xD6E0000011B6, 0xD6EF); (0xD6E0000011B7, 0xD6F0); (0xD6E0000011B8, 0xD6F1);
  (0xD6E0000011B9, 0xD6F2); (0xD6E0000011BA, 0xD6F3); (0xD6E0000011BB, 0xD6F4);
  (0xD6E0000011BC, 0xD6F5); (0xD6E0000011BD, 0xD6F6); (0xD6E0000011BE, 0xD6F7);
  (0xD6E0000011BF, 0xD6F8); (0xD6E0000011C0, 0xD6F9); (0xD6E0000011C1, 0xD6FA);
  (0xD6E0000011C2, 0xD6FB); (0xD6FC000011A8, 0xD6FD); (0xD6FC000011A9, 0xD6FE);
  (0xD6FC000011AA, 0xD6FF); (0xD6FC000011AB, 0xD700); (0xD6FC000011AC, 0xD701);
  (0xD6FC000011AD, 0xD702); (0xD6FC000011AE, 0xD703); (0xD6FC000011AF, 0xD704);
  (0xD6FC000011B0, 0xD705); (0xD6FC000011B1, 0xD706); (0xD6FC000011B2, 0xD707);
  (0xD6FC000011B3, 0xD708); (0xD6FC000011B4, 0xD709); (0xD6FC000011B5, 0xD70A);
  (0xD6FC000011B6, 0xD70B); (0xD6FC000011B7, 0xD70C); (0xD6FC000011B8, 0xD70D);
  (0xD6FC000011B9, 0xD70E); (0xD6FC000011BA, 0xD70F); (0xD6FC000011BB, 0xD710);
  (0xD6FC000011BC, 0xD711); (0xD6FC000011BD, 0xD712); (0xD6FC000011BE, 0xD713);
  (0xD6FC000011BF, 0xD714); (0xD6FC000011C0, 0xD715); (0xD6FC000011C1, 0xD716);
  (0xD6FC000011C2, 0xD717); (0xD718000011A8, 0xD719); (0xD718000011A9, 0xD71A);
  (0xD718000011AA, 0xD71B); (0xD718000011AB, 0xD71C); (0xD718000011AC, 0xD71D);
  (0xD718000011AD, 0xD71E); (0xD718000011AE, 0xD71F); (0xD718000011AF, 0xD720);
  (0xD718000011B0, 0xD721); (0xD718000011B1, 0xD722); (0xD718000011B2, 0xD723);
  (0xD718000011B3, 0xD724); (0xD718000011B4, 0xD725); (0xD718000011B5, 0xD726);
  (0xD718000011B6, 0xD727); (0xD718000011B7, 0xD728); (0xD718000011B8, 0xD729);
  (0xD718000011B9, 0xD72A); (0xD718000011BA, 0xD72B); (0xD718000011BB, 0xD72C);
  (0xD718000011BC, 0xD72D); (0xD718000011BD, 0xD72E); (0xD718000011BE, 0xD72F);
  (0xD718000011BF, 0xD730); (0xD718000011C0, 0xD731); (0xD718000011C1, 0xD732);
  (0xD718000011C2, 0xD733); (0xD734000011A8, 0xD735); (0xD734000011A9, 0xD736);
  (0xD734000011AA, 0xD737); (0xD734000011AB, 0xD738); (0xD734000011AC, 0xD739);
  (0xD734000011AD, 0xD73A); (0xD734000011AE, 0xD73B); (0xD734000011AF, 0xD73C) ].

Definition nfcCompose_80 : list (Z * Z) := [
  (0xD734000011B0, 0xD73D); (0xD734000011B1, 0xD73E); (0xD734000011B2, 0xD73F);
  (0xD734000011B3, 0xD740); (0xD734000011B4, 0xD741); (0xD734000011B5, 0xD742);
  (0xD734000011B6, 0xD743); (0xD734000011B7, 0xD744); (0xD734000011B8, 0xD745);
  (0xD734000011B9, 0xD746); (0xD734000011BA, 0xD747); (0xD734000011BB, 0xD748);
  (0xD734000011BC, 0xD749); (0xD734000011BD, 0xD74A); (0xD734000011BE, 0xD74B);
  (0xD734000011BF, 0xD74C); (0xD734000011C0, 0xD74D); (0xD734000011C1, 0xD74E);
  (0xD734000011C2, 0xD74F); (0xD750000011A8, 0xD751); (0xD750000011A9, 0xD752);
  (0xD750000011AA, 0xD753); (0xD750000011AB, 0xD754); (0xD750000011AC, 0xD755);
  (0xD750000011AD, 0xD756); (0xD750000011AE, 0xD757); (0xD750000011AF, 0xD758);
  (0xD750000011B0, 0xD759); (0xD750000011B1, 0xD75A); (0xD750000011B2, 0xD75B);
  (0xD750000011B3, 0xD75C); (0xD750000011B4, 0xD75D); (0xD750000011B5, 0xD75E);
  (0xD750000011B6, 0xD75F); (0xD750000011B7, 0xD760); (0xD750000011B8, 0xD761);
  (0xD750000011B9, 0xD762); (0xD750000011BA, 0xD763); (0xD750000011BB, 0xD764);
  (0xD750000011BC, 0xD765); (0xD750000011BD, 0xD766); (0xD750000011BE, 0xD767);
  (0xD750000011BF, 0xD768); (0xD750000011C0, 0xD769); (0xD750000011C1, 0xD76A);
  (0xD750000011C2, 0xD76B); (0xD76C000011A8, 0xD76D); (0xD76C000011A9, 0xD76E);
  (0xD76C000011AA, 0xD76F); (0xD76C000011AB, 0xD770); (0xD76C000011AC, 0xD771);
  (0xD76C000011AD, 0xD772); (0xD76C000011AE, 0xD773); (0xD76C000011AF, 0xD774);
  (0xD76C000011B0, 0xD775); (0xD76C000011B1, 0xD776); (0xD76C000011B2, 0xD777);
  (0xD76C000011B3, 0xD778); (0xD76C000011B4, 0xD779); (0xD76C000011B5, 0xD77A);
  (0xD76C000011B6, 0xD77B); (0xD76C000011B7, 0xD77C); (0xD76C000011B8, 0xD77D);
  (0xD76C000011B9, 0xD77E); (0xD76C000011BA, 0xD77F); (0xD76C000011BB, 0xD780);
  (0xD76C000011BC, 0xD781); (0xD76C000011BD, 0xD782); (0xD76C000011BE, 0xD783);
  (0xD76C000011BF, 0xD784); (0xD76C000011C0, 0xD785); (0xD76C000011C1, 0xD786);
  (0xD76C000011C2, 0xD787); (0xD788000011A8, 0xD789); (0xD788000011A9, 0xD78A);
  (0xD788000011AA, 0xD78B); (0xD788000011AB, 0xD78C); (0xD788000011AC, 0xD78D);
  (0xD788000011AD, 0xD78E); (0xD788000011AE, 0xD78F); (0xD788000011AF, 0xD790);
  (0xD788000011B0, 0xD791); (0xD788000011B1, 0xD792); (0xD788000011B2, 0xD793);
  (0xD788000011B3, 0xD794); (0xD788000011B4, 0xD795); (0xD788000011B5, 0xD796);
  (0xD788000011B6, 0xD797); (0xD788000011B7, 0xD798); (0xD788000011B8, 0xD799);
  (0xD788000011B9, 0xD79A); (0xD788000011BA, 0xD79B); (0xD788000011BB, 0xD79C);
  (0xD788000011BC, 0xD79D); (0xD788000011BD, 0xD79E); (0xD788000011BE, 0xD79F);
  (0xD788000011BF, 0xD7A0); (0xD788000011C0, 0xD7A1); (0xD788000011C1, 0xD7A2);
  (0xD788000011C2, 0xD7A3); (0x11099000110BA, 0x1109A); (0x1109B000110BA, 0x1109C);
  (0x110A5000110BA, 0x110AB); (0x1113100011127, 0x1112E); (0x1113200011127, 0x1112F);
  (0x113470001133E, 0x1134B); (0x1134700011357, 0x1134C); (0x114B9000114B0, 0x114BC);
  (0x114B9000114BA, 0x114BB); (0x114B9000114BD, 0x114BE); (0x115B8000115AF, 0x115BA);
  (0x115B9000115AF, 0x115BB); (0x1193500011930, 0x11938) ].

(** The tables. *)
Definition nfcCCC : list (Z * Z) :=
  nfcCCC_0 ++ nfcCCC_1 ++ nfcCCC_2 ++ nfcCCC_3 ++ nfcCCC_4 ++ nfcCCC_5 ++ nfcCCC_6.

Definition nfcQCNo : list Z :=
  nfcQCNo_0.

Definition nfcCompose : list (Z * Z) :=
  nfcCompose_0 ++ nfcCompose_1 ++ nfcCompose_2 ++ nfcCompose_3 ++ nfcCompose_4 ++ nfcCompose_5
  ++ nfcCompose_6 ++ nfcCompose_7 ++ nfcCompose_8 ++ nfcCompose_9 ++ nfcCompose_10 ++
  nfcCompose_11 ++ nfcCompose_12 ++ nfcCompose_13 ++ nfcCompose_14 ++ nfcCompose_15 ++
  nfcCompose_16 ++ nfcCompose_17 ++ nfcCompose_18 ++ nfcCompose_19 ++ nfcCompose_20 ++
  nfcCompose_21 ++ nfcCompose_22 ++ nfcCompose_23 ++ nfcCompose_24 ++ nfcCompose_25 ++
  nfcCompose_26 ++ nfcCompose_27 ++ nfcCompose_28 ++ nfcCompose_29 ++ nfcCompose_30 ++
  nfcCompose_31 ++ nfcCompose_32 ++ nfcCompose_33 ++ nfcCompose_34 ++ nfcCompose_35 ++
  nfcCompose_36 ++ nfcCompose_37 ++ nfcCompose_38 ++ nfcCompose_39 ++ nfcCompose_40 ++
  nfcCompose_41 ++ nfcCompose_42 ++ nfcCompose_43 ++ nfcCompose_44 ++ nfcCompose_45 ++
  nfcCompose_46 ++ nfcCompose_47 ++ nfcCompose_48 ++ nfcCompose_49 ++ nfcCompose_50 ++
  nfcCompose_51 ++ nfcCompose_52 ++ nfcCompose_53 ++ nfcCompose_54 ++ nfcCompose_55 ++
  nfcCompose_56 ++ nfcCompose_57 ++ nfcCompose_58 ++ nfcCompose_59 ++ nfcCompose_60 ++
  nfcCompose_61 ++ nfcCompose_62 ++ nfcCompose_63 ++ nfcCompose_64 ++ nfcCompose_65 ++
  nfcCompose_66 ++ nfcCompose_67 ++ nfcCompose_68 ++ nfcCompose_69 ++ nfcCompose_70 ++
  nfcCompose_71 ++ nfcCompose_72 ++ nfcCompose_73 ++ nfcCompose_74 ++ nfcCompose_75 ++
  nfcCompose_76 ++ nfcCompose_77 ++ nfcCompose_78 ++ nfcCompose_79 ++ nfcCompose_80.

End PathTables.
