(* ===== verification/PathGrammar.v ===== *)
(** * Path grammar (internal/path: path.go, validate.go, nfc.go)

    The validation of protocol path components: the byte rules, UTF-8, the
    Unicode NFC check with the tables of [PathTables], the Windows profile, and
    the joined form.  UTF-8 decoding is Go's [utf8.DecodeRune]. *)

From S2P Require Import Prelude PathTables.
Import PathTables.

Module PathGrammar.

Definition MaxComponentBytes : Z := 255.
Definition MaxComponents : Z := 1024.
Definition MaxPathBytes : Z := 4096.

Inductive RuleID :=
| RuleEmpty | RuleDot | RuleDotDot | RuleNUL | RuleSep | RuleAbs | RuleUTF8 | RuleNorm
| RuleCtrl | RuleLen | RuleCount | RuleBudget | RuleWinRes | RuleUnk | RuleLink | RuleType
| RuleIdent | RuleVolume | RuleOpen | RulePolicy.

#[global] Instance RuleID_eq_dec : EqDecision RuleID.
Proof. solve_decision. Defined.

Record Profile := mkProfile { WindowsReserved : bool }.

Definition DefaultProfile : Profile := mkProfile false.

Record Error := reject { Rule : RuleID; Index : Z }.

#[global] Instance Error_eq_dec : EqDecision Error.
Proof. solve_decision. Defined.

(** ** UTF-8 *)

Definition RuneError : Z := 0xFFFD.

(** The length of a sequence and the range of its second byte, from its first
    byte; [None] for a byte that starts no sequence. *)
Definition utf8_first (b0 : Z) : option (Z * Z * Z) :=
  if b0 <? 0x80 then Some (1, 0, 0)
  else if b0 <? 0xC2 then None
  else if b0 <? 0xE0 then Some (2, 0x80, 0xBF)
  else if b0 =? 0xE0 then Some (3, 0xA0, 0xBF)
  else if b0 =? 0xED then Some (3, 0x80, 0x9F)
  else if b0 <? 0xF0 then Some (3, 0x80, 0xBF)
  else if b0 =? 0xF0 then Some (4, 0x90, 0xBF)
  else if b0 <? 0xF4 then Some (4, 0x80, 0xBF)
  else if b0 =? 0xF4 then Some (4, 0x80, 0x8F)
  else None.

Definition in_range (lo hi b : Z) : bool := (lo <=? b) && (b <=? hi).

(** [utf8.DecodeRune]: the rune and the bytes it takes; [(RuneError, 1)] on
    malformed input. *)
Definition DecodeRune (p : bytes) : Z * Z :=
  match map byteZ p with
  | [] => (RuneError, 0)
  | b0 :: rest =>
      match utf8_first b0 with
      | None => (RuneError, 1)
      | Some (size, lo, hi) =>
          if size =? 1 then (b0, 1) else
          match rest with
          | [] => (RuneError, 1)
          | b1 :: rest =>
              if negb (in_range lo hi b1) then (RuneError, 1)
              else if size =? 2 then
                (Z.lor (Z.shiftl (Z.land b0 0x1F) 6) (Z.land b1 0x3F), 2)
              else
              match rest with
              | [] => (RuneError, 1)
              | b2 :: rest =>
                  if negb (in_range 0x80 0xBF b2) then (RuneError, 1)
                  else if size =? 3 then
                    (Z.lor (Z.lor (Z.shiftl (Z.land b0 0x0F) 12) (Z.shiftl (Z.land b1 0x3F) 6))
                       (Z.land b2 0x3F), 3)
                  else
                  match rest with
                  | [] => (RuneError, 1)
                  | b3 :: _ =>
                      if negb (in_range 0x80 0xBF b3) then (RuneError, 1)
                      else
                        (Z.lor (Z.lor (Z.lor (Z.shiftl (Z.land b0 0x07) 18)
                           (Z.shiftl (Z.land b1 0x3F) 12)) (Z.shiftl (Z.land b2 0x3F) 6))
                           (Z.land b3 0x3F), 4)
                  end
              end
          end
      end
  end.

(** [utf8.Valid]: every sequence decodes.  A rune takes at least one byte, so
    the length of the input bounds the iterations. *)
Fixpoint valid_loop (fuel : nat) (p : bytes) : bool :=
  match p with
  | [] => true
  | _ =>
      match fuel with
      | O => false
      | S fuel =>
          let '(r, size) := DecodeRune p in
          if (r =? RuneError) && (size =? 1) then false
          else valid_loop fuel (drop (Z.to_nat size) p)
      end
  end.

Definition utf8_Valid (p : bytes) : bool := valid_loop (length p) p.

(** ** Unicode NFC (nfc.go) *)

Definition hangulSBase : Z := 0xAC00.
Definition hangulLBase : Z := 0x1100.
Definition hangulVBase : Z := 0x1161.
Definition hangulTBase : Z := 0x11A7.
Definition hangulLCount : Z := 19.
Definition hangulVCount : Z := 21.
Definition hangulTCount : Z := 28.
Definition hangulSCount : Z := hangulLCount * hangulVCount * hangulTCount.

(** A Go map, as its entries. *)
Definition map_get (l : list (Z * Z)) (k : Z) : option Z :=
  option_map snd (List.find (fun e => e.1 =? k) l).

(** [nfcCCC[r]], 0 if absent. *)
Definition ccc (r : Z) : Z := default 0 (map_get nfcCCC r).

Definition composeHangul (a b : Z) : option Z :=
  if (hangulLBase <=? a) && (a <? hangulLBase + hangulLCount) &&
     ((hangulVBase <=? b) && (b <? hangulVBase + hangulVCount))
  then
    let l := a - hangulLBase in
    let v := b - hangulVBase in
    Some (hangulSBase + (l * hangulVCount + v) * hangulTCount)
  else if (hangulSBase <=? a) && (a <? hangulSBase + hangulSCount) &&
          ((a - hangulSBase) mod hangulTCount =? 0) &&
          ((hangulTBase <? b) && (b <? hangulTBase + hangulTCount))
  then Some (a + (b - hangulTBase))
  else None.

Definition composePair (a b : Z) : option Z :=
  match composeHangul a b with
  | Some c => Some c
  | None =>
      let key := Z.lor (Z.shiftl (u64 a) 32) (u32 b) in
      map_get nfcCompose key
  end.

(** [sort.Search]: binary search for the first index at which [f] holds. *)
Fixpoint search_loop (fuel : nat) (f : Z -> bool) (i j : Z) : Z :=
  match fuel with
  | O => i
  | S fuel =>
      if i <? j then
        let h := (i + j) / 2 in
        if negb (f h) then search_loop fuel f (h + 1) j else search_loop fuel f i h
      else i
  end.

Definition sort_Search (n : Z) (f : Z -> bool) : Z := search_loop (Z.to_nat n) f 0 n.

Definition runeInSorted (l : list Z) (r : Z) : bool :=
  let at_ i := nth (Z.to_nat i) l 0 in
  let i := sort_Search (len l) (fun i => r <=? at_ i) in
  (i <? len l) && (at_ i =? r).

Definition isBlocked (intervening : list Z) (cc : Z) : bool :=
  existsb (fun m => (m =? 0) || (cc <=? m)) intervening.

(** The loop of [isNFC].  [starter] is the last starter, if any; of the marks
    only the combining classes are looked at. *)
Fixpoint nfc_loop (fuel : nat) (b : bytes) (starter : option Z) (intervening : list Z)
    (lastCC : Z) : bool :=
  match b with
  | [] => true
  | _ =>
      match fuel with
      | O => false
      | S fuel =>
          let '(r, size) := DecodeRune b in
          if (r =? RuneError) && (size =? 1) then false
          else if runeInSorted nfcQCNo r then false
          else
            let cc := ccc r in
            if (cc <? lastCC) && negb (cc =? 0) then false
            else if match starter with
                    | Some s =>
                        match composePair s r with
                        | Some _ => negb (isBlocked intervening cc)
                        | None => false
                        end
                    | None => false
                    end then false
            else
              let rest := drop (Z.to_nat size) b in
              if cc =? 0 then nfc_loop fuel rest (Some r) [] cc
              else
                nfc_loop fuel rest starter
                  (match starter with Some _ => intervening ++ [cc] | None => intervening end) cc
      end
  end.

Definition isNFC (b : bytes) : bool :=
  if negb (utf8_Valid b) then false else nfc_loop (length b) b None [] 0.

(** ** Components (validate.go) *)

Definition isASCIILetter (b : Z) : bool :=
  ((97 <=? b) && (b <=? 122)) || ((65 <=? b) && (b <=? 90)).

(** [c[i]] where the code has checked the length. *)
Definition at_ (c : bytes) (i : nat) : Z := byteZ (nth i c Byte.x00).

Definition isAbsoluteComponent (c : bytes) : bool :=
  (2 <=? len c) && isASCIILetter (at_ c 0) && (at_ c 1 =? 58).

(** The name before the first dot. *)
Fixpoint before_dot (c : bytes) : bytes :=
  match c with
  | [] => []
  | b :: c => if byteZ b =? 46 then [] else b :: before_dot c
  end.

Definition to_upper (b : Byte.byte) : Byte.byte :=
  if (97 <=? byteZ b) && (byteZ b <=? 122) then byte_of (byteZ b - 32) else b.

Definition isWindowsReserved (c : bytes) : bool :=
  let last := at_ c (length c - 1) in
  if (last =? 46) || (last =? 32) then true else
  let base := before_dot c in
  if (len base =? 0) || (4 <? len base) then false else
  let s := map to_upper base in
  if bool_decide (s ∈ [str "CON"; str "PRN"; str "AUX"; str "NUL"]) then true
  else if len s =? 4 then
    if bool_decide (take 3 s ∈ [str "COM"; str "LPT"]) then
      (49 <=? at_ s 3) && (at_ s 3 <=? 57)
    else false
  else false.

(** The first scan of a component: NUL and separators. *)
Fixpoint scan_separators (c : bytes) : option RuleID :=
  match c with
  | [] => None
  | b :: c =>
      if byteZ b =? 0 then Some RuleNUL
      else if (byteZ b =? 47) || (byteZ b =? 92) then Some RuleSep
      else scan_separators c
  end.

Definition is_control (b : Byte.byte) : bool := (byteZ b <? 0x20) || (byteZ b =? 0x7F).

Definition validateComponent (c : bytes) (index : Z) (profile : Profile) : res Error unit :=
  if len c =? 0 then Err (reject RuleEmpty index)
  else if MaxComponentBytes <? len c then Err (reject RuleLen index)
  else if (len c =? 1) && (at_ c 0 =? 46) then Err (reject RuleDot index)
  else if (len c =? 2) && (at_ c 0 =? 46) && (at_ c 1 =? 46) then Err (reject RuleDotDot index)
  else match scan_separators c with
  | Some r => Err (reject r index)
  | None =>
  if isAbsoluteComponent c then Err (reject RuleAbs index)
  else if negb (utf8_Valid c) then Err (reject RuleUTF8 index)
  else if existsb is_control c then Err (reject RuleCtrl index)
  else if negb (isNFC c) then Err (reject RuleNorm index)
  else if WindowsReserved profile && isWindowsReserved c then Err (reject RuleWinRes index)
  else Ok tt
  end.

(** The loop over the components, with the bytes counted so far. *)
Fixpoint validate_loop (cs : list bytes) (i budget : Z) (profile : Profile) : res Error unit :=
  match cs with
  | [] => Ok tt
  | c :: cs =>
      let! _ := validateComponent c i profile in
      let budget := budget + len c in
      if MaxPathBytes <? budget then Err (reject RuleBudget i)
      else validate_loop cs (i + 1) budget profile
  end.

Definition ValidateComponents (components : list bytes) (profile : Profile) : res Error unit :=
  if len components =? 0 then Err (reject RuleEmpty (-1))
  else if MaxComponents <? len components then Err (reject RuleCount (-1))
  else validate_loop components 0 0 profile.

Definition ValidateComponentsDefault (components : list bytes) : res Error unit :=
  ValidateComponents components DefaultProfile.

(** ** The joined form *)

Definition isAbsoluteJoined (s : bytes) : bool :=
  if len s =? 0 then false
  else if (at_ s 0 =? 47) || (at_ s 0 =? 92) then true
  else (2 <=? len s) && isASCIILetter (at_ s 0) && (at_ s 1 =? 58).

(** The splitting loop: the current part (reversed) and the parts so far. *)
Fixpoint split_loop (s cur : bytes) (out : list bytes) : list bytes :=
  match s with
  | [] => out ++ [rev cur]
  | b :: s =>
      if byteZ b =? 47 then split_loop s [] (out ++ [rev cur]) else split_loop s (b :: cur) out
  end.

Definition splitSlash (s : bytes) : list bytes :=
  if len s =? 0 then [] else split_loop s [] [].

Definition ValidateJoined (joined : bytes) (profile : Profile) : res Error (list bytes) :=
  if len joined =? 0 then Err (reject RuleEmpty (-1))
  else if isAbsoluteJoined joined then Err (reject RuleAbs (-1))
  else
    let comps := splitSlash joined in
    let! _ := ValidateComponents comps profile in
    Ok comps.

(** U+00E9 is NFC; U+0065 U+0301 and U+1100 U+1161 are not; U+0065 U+0323 U+0302
    is refused, since U+0065 and U+0323 compose. *)
Example nfc_examples :
  map (fun l => isNFC (map byte_of l))
    [[0xC3; 0xA9]; [0x65; 0xCC; 0x81]; [0xE1; 0x84; 0x80; 0xE1; 0x85; 0xA1];
     [0x65; 0xCC; 0xA3; 0xCC; 0x82]; [0xCC; 0x81; 0x65]] = [true; false; false; false; true].
Proof. vm_compute. reflexivity. Qed.

(** ** Binary search *)

Lemma search_loop_spec fuel f i j n :
  0 <= i -> i <= j -> j <= n -> j - i < 2 ^ Z.of_nat fuel ->
  (forall k, 0 <= k < i -> f k = false) -> (forall k, j <= k < n -> f k = true) ->
  (forall k l, 0 <= k -> k <= l -> l < n -> f k = true -> f l = true) ->
  let r := search_loop fuel f i j in
  i <= r <= j /\ (forall k, 0 <= k < r -> f k = false) /\ (forall k, r <= k < n -> f k = true).
Proof.
  revert i j. induction fuel as [|fuel IH]; intros i j Hi Hij Hjn Hf Hlo Hhi Hmono; cbn [search_loop].
  { assert (i = j) as -> by (cbn in Hf; lia). split; [lia|done]. }
  rewrite Nat2Z.inj_succ, Z.pow_succ_r in Hf by lia.
  destruct (i <? j) eqn:E; reflect_bools; cycle 1.
  { assert (i = j) as -> by lia. split; [lia|done]. }
  assert (Hh : 2 * ((i + j) / 2) <= i + j < 2 * ((i + j) / 2) + 2).
  { pose proof (Z.div_mod (i + j) 2 ltac:(lia)). pose proof (Z.mod_pos_bound (i + j) 2 ltac:(lia)). lia. }
  revert Hh. generalize ((i + j) / 2) as h. intros h Hh. destruct (f h) eqn:Eh; cbn [negb].
  - destruct (IH i h) as (? & ? & ?); [lia..|done| |done|].
    { intros k Hk. apply (Hmono h k); (done || lia). }
    split; [lia|done].
  - destruct (IH (h + 1) j) as (? & ? & ?); [lia..| |done|done|].
    { intros k Hk. destruct (f k) eqn:Ek; [|done]. exfalso.
      assert (f h = true) by (apply (Hmono k h); (done || lia)). congruence. }
    split; [lia|done].
Qed.

Lemma sort_Search_spec n f :
  0 <= n -> (forall k l, 0 <= k -> k <= l -> l < n -> f k = true -> f l = true) ->
  let r := sort_Search n f in
  0 <= r <= n /\ (forall k, 0 <= k < r -> f k = false) /\ (forall k, r <= k < n -> f k = true).
Proof.
  intros Hn Hm. apply search_loop_spec; try done; try lia.
  rewrite Z2Nat.id by lia. pose proof (Z.pow_gt_lin_r 2 n ltac:(lia) Hn). lia.
Qed.

Lemma sorted_nth l i j :
  StronglySorted Z.lt l -> (i < j)%nat -> (j < length l)%nat -> nth i l 0 < nth j l 0.
Proof.
  intros Hs. revert i j. induction Hs as [|x l Hs IH Hx]; intros i j Hij Hj; [cbn in Hj; lia|].
  destruct j as [|j]; [lia|]. cbn in Hj. destruct i as [|i]; cbn [nth].
  - rewrite Forall_forall in Hx. apply Hx. apply list_elem_of_In, nth_In. lia.
  - apply IH; lia.
Qed.

Lemma runeInSorted_spec l r :
  StronglySorted Z.lt l -> runeInSorted l r = true <-> r ∈ l.
Proof.
  intros Hs. unfold runeInSorted. set (f := fun i => r <=? nth (Z.to_nat i) l 0).
  assert (Hm : forall k j, 0 <= k -> k <= j -> j < len l -> f k = true -> f j = true).
  { intros k j Hk Hkj Hj Hfk. unfold f in *. destruct (decide (k = j)) as [->|]; [done|].
    pose proof (sorted_nth l (Z.to_nat k) (Z.to_nat j) Hs ltac:(lia) ltac:(unfold len in Hj; lia)). lia. }
  destruct (sort_Search_spec (len l) f (len_nonneg l) Hm) as (Hr & Hlo & Hhi).
  set (i := sort_Search (len l) f) in *. clearbody i. rewrite andb_true_iff, Z.ltb_lt, Z.eqb_eq. split.
  - intros [Hi Hn]. rewrite <- Hn. apply list_elem_of_In, nth_In. unfold len in Hi. lia.
  - intros Hin. apply list_elem_of_In, (In_nth _ _ 0) in Hin as (k & Hk & Hnk).
    assert (Hfk : f (Z.of_nat k) = true) by (unfold f; rewrite Nat2Z.id, Hnk; lia).
    assert (Hik : i <= Z.of_nat k).
    { destruct (decide (Z.of_nat k < i)); [|lia]. rewrite Hlo in Hfk by lia. done. }
    assert (Hil : i < len l) by (unfold len; lia). split; [done|].
    destruct (decide (i = Z.of_nat k)) as [->|]; [by rewrite Nat2Z.id|].
    pose proof (sorted_nth l (Z.to_nat i) k Hs ltac:(lia) Hk).
    specialize (Hhi i ltac:(lia)). unfold f in Hhi. lia.
Qed.

(** ** The tables *)

Fixpoint sortedb (l : list Z) : bool :=
  match l with
  | a :: (b :: _) as l' => (a <? b) && sortedb l'
  | _ => true
  end.

Lemma sortedb_sound l : sortedb l = true -> StronglySorted Z.lt l.
Proof.
  intros Hl. apply Sorted_StronglySorted; [intros a b c; lia|].
  induction l as [|a [|b l] IH]; [constructor|repeat constructor|].
  cbn [sortedb] in Hl. apply andb_true_iff in Hl as [H1 H2].
  constructor; [by apply IH|]. constructor. lia.
Qed.

Lemma nfcQCNo_sorted : StronglySorted Z.lt nfcQCNo.
Proof. apply sortedb_sound. vm_compute. reflexivity. Qed.

Lemma nfcCCC_sorted : StronglySorted Z.lt (map fst nfcCCC).
Proof. apply sortedb_sound. vm_compute. reflexivity. Qed.

Lemma nfcCompose_sorted : StronglySorted Z.lt (map fst nfcCompose).
Proof. apply sortedb_sound. vm_compute. reflexivity. Qed.

(** Every trail of the composition table is a combining mark or a Hangul vowel
    or trailing consonant, far above ASCII. *)
Lemma nfcCompose_trails : forallb (fun e => 0x300 <=? Z.land e.1 0xFFFFFFFF) nfcCompose = true.
Proof. vm_compute. reflexivity. Qed.

(** The Hangul entries of the table, and what the algorithm says of them. *)
Definition hangul_entry (e : Z * Z) : bool :=
  (hangulSBase <=? e.2) && (e.2 <? hangulSBase + hangulSCount).

Lemma nfcCompose_hangul :
  forallb (fun e => if hangul_entry e
             then bool_decide (composeHangul (Z.shiftr e.1 32) (Z.land e.1 0xFFFFFFFF) = Some e.2)
             else true) nfcCompose = true.
Proof. vm_compute. reflexivity. Qed.

(** ** What validation accepts *)

(** The byte rules of the grammar, as predicates on a component. *)
Definition plain_byte (b : Byte.byte) : Prop :=
  0x20 <= byteZ b /\ byteZ b <> 0x7F /\ byteZ b <> 47 /\ byteZ b <> 92.

Definition component_ok (profile : Profile) (c : bytes) : Prop :=
  1 <= len c <= MaxComponentBytes /\
  c <> str "." /\ c <> str ".." /\
  Forall plain_byte c /\
  isAbsoluteComponent c = false /\
  utf8_Valid c = true /\ isNFC c = true /\
  (WindowsReserved profile = true -> isWindowsReserved c = false).

Definition path_bytes (cs : list bytes) : Z := fold_right (fun c n => len c + n) 0 cs.

Definition path_ok (profile : Profile) (cs : list bytes) : Prop :=
  1 <= len cs <= MaxComponents /\ Forall (component_ok profile) cs /\
  path_bytes cs <= MaxPathBytes.

Lemma at_dot c : len c = 1 -> at_ c 0 = 46 <-> c = str ".".
Proof.
  intros Hl. destruct c as [|b [|? ?]]; unfold len in Hl; cbn in Hl; try lia.
  split; [|by intros ->]. unfold at_. cbn. intros Hb. f_equal. apply byteZ_inj. exact Hb.
Qed.

Lemma at_dotdot c : len c = 2 -> at_ c 0 = 46 /\ at_ c 1 = 46 <-> c = str "..".
Proof.
  intros Hl. destruct c as [|b [|b' [|? ?]]]; unfold len in Hl; cbn in Hl; try lia.
  split; [|by intros ->]. unfold at_. cbn. intros [H1 H2].
  f_equal; [|f_equal]; apply byteZ_inj; assumption.
Qed.

Lemma scan_separators_None c :
  scan_separators c = None <-> Forall (fun b => byteZ b <> 0 /\ byteZ b <> 47 /\ byteZ b <> 92) c.
Proof.
  induction c as [|b c IH]; cbn [scan_separators]; [by split|].
  rewrite Forall_cons. destruct (byteZ b =? 0) eqn:E0; [|destruct (_ || _) eqn:E1]; reflect_bools.
  - split; [done|]. intros [(? & ? & ?) _]. lia.
  - split; [done|]. intros [(? & ? & ?) _]. lia.
  - rewrite IH. split; [intros ?; split; [lia|done]|tauto].
Qed.

Lemma existsb_control c :
  existsb is_control c = false <-> Forall (fun b => 0x20 <= byteZ b /\ byteZ b <> 0x7F) c.
Proof.
  induction c as [|b c IH]; cbn [existsb]; [by split|].
  rewrite Forall_cons, orb_false_iff, IH. unfold is_control. rewrite orb_false_iff, Z.ltb_ge, Z.eqb_neq.
  reflexivity.
Qed.

Lemma plain_bytes c :
  Forall plain_byte c <-> scan_separators c = None /\ existsb is_control c = false.
Proof.
  rewrite scan_separators_None, existsb_control, <- Forall_and.
  split; intros H; (eapply Forall_impl; [exact H|]); unfold plain_byte; cbn; intros; lia.
Qed.

Lemma validateComponent_ok c i profile :
  validateComponent c i profile = Ok tt <-> component_ok profile c.
Proof.
  unfold validateComponent, component_ok. rewrite plain_bytes.
  destruct (len c =? 0) eqn:E0; reflect_bools; [split; [done|lia]|].
  pose proof (len_nonneg c).
  destruct (MaxComponentBytes <? len c) eqn:E1; reflect_bools; [split; [done|lia]|].
  destruct ((len c =? 1) && _) eqn:E2; reflect_bools.
  { rewrite at_dot in * by lia. split; [done|]. intros (_ & ? & _). tauto. }
  destruct ((len c =? 2) && _ && _) eqn:E3; reflect_bools.
  { split; [done|]. intros (_ & _ & Hc & _). destruct Hc. apply at_dotdot; lia. }
  assert (c <> str ".") by (intros ->; vm_compute in E2; discriminate).
  assert (c <> str "..") by (intros ->; vm_compute in E3; discriminate).
  destruct (scan_separators c) eqn:E4; [split; [done|]; intuition congruence|].
  destruct (isAbsoluteComponent c) eqn:E5; [split; [done|]; intuition congruence|].
  destruct (utf8_Valid c) eqn:E6; cbn [negb]; [|split; [done|]; intuition congruence].
  destruct (existsb is_control c) eqn:E7; [split; [done|]; intuition congruence|].
  destruct (isNFC c) eqn:E8; cbn [negb]; [|split; [done|]; intuition congruence].
  destruct (WindowsReserved profile) eqn:E9; cbn [andb].
  - destruct (isWindowsReserved c) eqn:E10; split; try done; [intuition congruence|].
    intros _. repeat split; try done; lia.
  - split; [|done]. intros _. repeat split; try done; lia.
Qed.

Lemma path_bytes_nonneg cs : 0 <= path_bytes cs.
Proof. induction cs as [|c cs IH]; cbn; [lia|]. pose proof (len_nonneg c). unfold path_bytes in IH. lia. Qed.

Lemma validate_loop_ok cs profile i budget :
  budget <= MaxPathBytes ->
  validate_loop cs i budget profile = Ok tt <->
  Forall (component_ok profile) cs /\ budget + path_bytes cs <= MaxPathBytes.
Proof.
  revert i budget. induction cs as [|c cs IH]; intros i budget Hb; cbn [validate_loop path_bytes fold_right].
  { split; [intros _; split; [constructor|lia]|done]. }
  fold (path_bytes cs). pose proof (path_bytes_nonneg cs). rewrite Forall_cons.
  rewrite <- (validateComponent_ok c i). destruct (validateComponent c i profile) as [[]|e|]; cbn;
    [|split; [done|]; intros [[? _] _]; done|split; [done|]; intros [[? _] _]; done].
  destruct (MaxPathBytes <? budget + len c) eqn:E; reflect_bools; [split; [done|lia]|].
  rewrite IH by lia. split; intros; intuition lia.
Qed.

Lemma ValidateComponents_iff profile cs :
  ValidateComponents cs profile = Ok tt <-> path_ok profile cs.
Proof.
  unfold ValidateComponents, path_ok. pose proof (len_nonneg cs).
  destruct (len cs =? 0) eqn:E0; reflect_bools; [split; [done|lia]|].
  destruct (MaxComponents <? len cs) eqn:E1; reflect_bools; [split; [done|lia]|].
  rewrite validate_loop_ok by (unfold MaxPathBytes; lia). rewrite Z.add_0_l. intuition lia.
Qed.

(** ** The joined form *)

(** The components separated by slashes. *)
Fixpoint join_slash (cs : list bytes) : bytes :=
  match cs with
  | [] => []
  | [c] => c
  | c :: cs => c ++ byte_of 47 :: join_slash cs
  end.

Definition no_slash (c : bytes) : Prop := Forall (fun b => byteZ b <> 47) c.

Lemma join_slash_cons c d cs : join_slash (c :: d :: cs) = c ++ byte_of 47 :: join_slash (d :: cs).
Proof. reflexivity. Qed.

Lemma split_loop_part c s cur out :
  no_slash c -> split_loop (c ++ s) cur out = split_loop s (rev c ++ cur) out.
Proof.
  intros Hc. revert cur. induction Hc as [|b c Hb Hc IH]; intros cur; [done|].
  cbn [app split_loop rev]. apply Z.eqb_neq in Hb. rewrite Hb, IH, <- app_assoc. done.
Qed.

Lemma split_loop_join cs c out :
  Forall no_slash (c :: cs) -> split_loop (join_slash (c :: cs)) [] out = out ++ c :: cs.
Proof.
  revert c out. induction cs as [|d cs IH]; intros c out [Hc Hcs]%Forall_cons.
  - cbn [join_slash]. rewrite <- (app_nil_r c) at 1. rewrite split_loop_part by done.
    cbn [split_loop]. by rewrite app_nil_r, rev_involutive.
  - rewrite join_slash_cons, split_loop_part by done. cbn [split_loop].
    change (byteZ (byte_of 47) =? 47) with true. cbv iota.
    rewrite IH by done. rewrite app_nil_r, rev_involutive, <- app_assoc. done.
Qed.

Lemma join_slash_snoc cs c s : join_slash (cs ++ [c]) ++ s = join_slash (cs ++ [c ++ s]).
Proof.
  induction cs as [|d cs IH]; [done|]. destruct cs as [|e cs]; cbn [app] in *.
  - rewrite !join_slash_cons, <- app_assoc. done.
  - rewrite !join_slash_cons, <- app_assoc. cbn [app]. by rewrite IH.
Qed.

Lemma join_slash_app cs c d : join_slash (cs ++ [c; d]) = join_slash (cs ++ [c]) ++ byte_of 47 :: d.
Proof.
  induction cs as [|e cs IH]; [done|].
  destruct cs as [|e' cs]; cbn [app] in *; rewrite !join_slash_cons, <- app_assoc; cbn [app];
    rewrite ?IH; done.
Qed.

Lemma split_loop_inv s cur out :
  join_slash (split_loop s cur out) = join_slash (out ++ [rev cur]) ++ s.
Proof.
  revert cur out. induction s as [|b s IH]; intros cur out; cbn [split_loop].
  { by rewrite app_nil_r. }
  destruct (byteZ b =? 47) eqn:E; rewrite IH; reflect_bools.
  - assert (b = byte_of 47) as -> by (apply byteZ_inj; rewrite E; reflexivity).
    rewrite <- app_assoc. cbn [app rev]. rewrite join_slash_app, <- app_assoc. done.
  - cbn [rev]. rewrite <- join_slash_snoc, <- app_assoc. done.
Qed.

Lemma component_no_slash profile c : component_ok profile c -> no_slash c.
Proof.
  intros (_ & _ & _ & Hp & _). eapply Forall_impl; [exact Hp|]. unfold plain_byte. cbn. intros. lia.
Qed.

(** A path of valid components is not absolute once joined. *)
Lemma join_not_absolute profile c cs :
  component_ok profile c -> isAbsoluteJoined (join_slash (c :: cs)) = false.
Proof.
  intros (Hl & _ & _ & Hp & Habs & _). destruct c as [|b c]; [unfold len in Hl; cbn in Hl; lia|].
  apply Forall_cons in Hp as [(_ & _ & H47 & H92) _].
  assert (Hj : exists s, join_slash ((b :: c) :: cs) = b :: c ++ s /\
             (s = [] \/ exists s', s = byte_of 47 :: s')).
  { destruct cs as [|d cs]; [exists []; rewrite app_nil_r; auto|].
    exists (byte_of 47 :: join_slash (d :: cs)). rewrite join_slash_cons. eauto. }
  destruct Hj as (s & -> & Hs). unfold isAbsoluteJoined, isAbsoluteComponent, at_ in *.
  cbn [nth] in *. apply Z.eqb_neq in H47, H92. rewrite len_cons, H47, H92. cbn [orb].
  pose proof (len_nonneg (c ++ s)). replace (1 + len (c ++ s) =? 0) with false by lia.
  destruct (isASCIILetter (byteZ b)) eqn:E; [|by rewrite andb_false_r].
  destruct c as [|b' c]; cbn [app nth] in *.
  - destruct Hs as [->|[s' ->]]; [done|]. cbn [nth]. by rewrite andb_false_r.
  - rewrite !len_cons in *. pose proof (len_nonneg c). rewrite andb_true_r in *.
    replace (2 <=? 1 + (1 + len c)) with true in Habs by lia. cbn [andb] in Habs. rewrite Habs.
    by rewrite andb_false_r.
Qed.

Lemma ValidateJoined_iff profile s cs :
  ValidateJoined s profile = Ok cs <->
  ValidateComponents cs profile = Ok tt /\ s = join_slash cs.
Proof.
  unfold ValidateJoined. split.
  - destruct (len s =? 0) eqn:E0; [done|]. destruct (isAbsoluteJoined s); [done|].
    destruct (ValidateComponents _ _) as [[]|e|] eqn:EV; cbn; try done. intros H.
    assert (cs = splitSlash s) as -> by congruence. split; [done|].
    unfold splitSlash. rewrite E0, split_loop_inv. done.
  - intros [HV ->]. pose proof HV as HV'.
    unfold ValidateComponents in HV'. destruct cs as [|c cs]; [done|].
    destruct (_ =? 0); [done|]. destruct (_ <? _); [done|].
    apply validate_loop_ok in HV' as [Hok _]; [|unfold MaxPathBytes; lia].
    assert (Hns : Forall no_slash (c :: cs)).
    { eapply Forall_impl; [exact Hok|]. intros. by eapply component_no_slash. }
    apply Forall_cons in Hok as [Hc _]. rewrite (join_not_absolute profile) by done.
    assert ((len (join_slash (c :: cs)) =? 0) = false) as E0.
    { apply Z.eqb_neq. destruct Hc as [Hl _]. destruct cs as [|d cs]; [cbn [join_slash]; lia|].
      rewrite join_slash_cons, len_app, len_cons.
      pose proof (len_nonneg (join_slash (d :: cs))). lia. }
    unfold splitSlash. rewrite E0, split_loop_join by done. cbn [app]. rewrite HV. done.
Qed.

(** The joined form is a faithful encoding of a valid path: a string parses
    to a component sequence exactly when the sequence is valid and the string is
    its join with slashes.  So printing then parsing a valid path gives it back,
    and parsing accepts no second spelling of a path (no empty parts, no leading
    or trailing slash, no absolute form). *)
Lemma ValidateJoined_roundtrip profile s cs :
  ValidateJoined s profile = Ok cs <->
  ValidateComponents cs profile = Ok tt /\ s = join_slash cs.
Proof. apply ValidateJoined_iff. Qed.

Lemma validate_loop_safe cs i budget profile : validate_loop cs i budget profile <> Panic.
Proof.
  revert i budget. induction cs as [|c cs IH]; intros i budget; cbn [validate_loop]; [done|].
  assert (validateComponent c i profile <> Panic).
  { unfold validateComponent. destruct (scan_separators c); repeat case_if; done. }
  destruct (validateComponent c i profile); cbn [bind]; try done. case_if; [done|apply IH].
Qed.

Lemma ValidateJoined_safe s profile : ValidateJoined s profile <> Panic.
Proof.
  unfold ValidateJoined, ValidateComponents. do 2 (case_if; [done|]).
  pose proof (validate_loop_safe (splitSlash s) 0 0 profile).
  do 2 (case_if; [done|]). by destruct (validate_loop _ _ _ _).
Qed.

(** ** Portable names *)

Lemma ascii_DecodeRune b p : byteZ b < 0x80 -> DecodeRune (b :: p) = (byteZ b, 1).
Proof.
  intros Hb. unfold DecodeRune, utf8_first. cbn [map]. rewrite (proj2 (Z.ltb_lt _ _) Hb). done.
Qed.

Definition ascii_name (c : bytes) : Prop := Forall (fun b => 0x20 <= byteZ b < 0x7F) c.

Lemma ascii_valid_loop c fuel : ascii_name c -> (length c <= fuel)%nat -> valid_loop fuel c = true.
Proof.
  intros Hc. revert fuel. induction Hc as [|b c Hb Hc IH]; intros fuel Hf; [by destruct fuel|].
  destruct fuel as [|fuel]; [cbn in Hf; lia|]. cbn [valid_loop].
  rewrite ascii_DecodeRune by lia. replace (byteZ b =? RuneError) with false by (unfold RuneError; lia).
  cbn [andb]. apply IH. cbn in Hf. lia.
Qed.

Lemma map_get_absent l k : k ∉ l.*1 -> map_get l k = None.
Proof.
  unfold map_get. induction l as [|[k' v] l IH]; intros Hk; [done|].
  cbn in *. rewrite not_elem_of_cons in Hk. destruct Hk as [H1 H2].
  destruct (k' =? k) eqn:E; reflect_bools; [congruence|]. by apply IH.
Qed.

Lemma ascii_no_tables :
  forallb (fun r => negb (runeInSorted nfcQCNo r) && (ccc r =? 0)) (map Z.of_nat (seq 0 128)) = true.
Proof. vm_compute. reflexivity. Qed.

Lemma ascii_in_no_table r :
  0 <= r < 0x80 -> runeInSorted nfcQCNo r = false /\ ccc r = 0.
Proof.
  intros Hr. pose proof ascii_no_tables as H. rewrite forallb_forall in H.
  assert (Hin : In r (map Z.of_nat (seq 0 128))).
  { apply in_map_iff. exists (Z.to_nat r). rewrite in_seq. lia. }
  specialize (H r Hin). reflect_bools. done.
Qed.

(** No rune composes with an ASCII character that follows it. *)
Lemma ascii_no_compose a b : 0 <= b < 0x80 -> composePair a b = None.
Proof.
  intros Hb. unfold composePair.
  assert (composeHangul a b = None) as ->.
  { unfold composeHangul. replace (hangulVBase <=? b) with false by (unfold hangulVBase; lia).
    replace (hangulTBase <? b) with false by (unfold hangulTBase; lia). by rewrite !andb_false_r. }
  apply map_get_absent. intros (e & He & Hin)%list_elem_of_fmap.
  pose proof nfcCompose_trails as Ht. rewrite forallb_forall in Ht.
  apply list_elem_of_In in Hin. specialize (Ht _ Hin). rewrite <- He in Ht. apply Z.leb_le in Ht.
  assert (Z.land (Z.lor (Z.shiftl (u64 a) 32) (u32 b)) 0xFFFFFFFF = b); [|lia].
  change 0xFFFFFFFF with (Z.ones 32). apply Z.bits_inj'. intros i Hi.
  rewrite Z.land_spec, Z.lor_spec, Z.shiftl_spec by lia. rewrite u32_small by (unfold is_u32; lia).
  destruct (decide (i < 32)).
  - rewrite (Z.testbit_neg_r (u64 a)), Z.ones_spec_low by lia. by rewrite andb_true_r.
  - rewrite Z.ones_spec_high, andb_false_r by lia. symmetry.
    apply Z.bits_above_log2; [lia|]. destruct (decide (b = 0)) as [->|]; [cbn; lia|].
    apply Z.log2_lt_pow2; [lia|]. pose proof (Z.pow_le_mono_r 2 32 i). lia.
Qed.

Lemma ascii_nfc_loop c fuel starter marks :
  ascii_name c -> (length c <= fuel)%nat -> nfc_loop fuel c starter marks 0 = true.
Proof.
  intros Hc. revert fuel starter marks.
  induction Hc as [|b c Hb Hc IH]; intros fuel starter marks Hf; [by destruct fuel|].
  destruct fuel as [|fuel]; [cbn in Hf; lia|]. cbn [nfc_loop].
  rewrite ascii_DecodeRune by lia. replace (byteZ b =? RuneError) with false by (unfold RuneError; lia).
  cbn [andb]. destruct (ascii_in_no_table (byteZ b) ltac:(lia)) as [-> ->].
  change (0 <? 0) with false. cbn [andb].
  assert ((match starter with
           | Some s => match composePair s (byteZ b) with
                       | Some _ => negb (isBlocked marks 0) | None => false end
           | None => false end) = false) as ->.
  { destruct starter; [|done]. rewrite ascii_no_compose by lia. done. }
  cbn. apply IH. cbn in Hf. lia.
Qed.

Lemma ascii_isNFC c : ascii_name c -> utf8_Valid c = true /\ isNFC c = true.
Proof.
  intros Hc. assert (utf8_Valid c = true) as Hv by (by apply ascii_valid_loop).
  split; [done|]. unfold isNFC. rewrite Hv. by apply ascii_nfc_loop.
Qed.

(** The Unicode checks never refuse a portable name: every component of 1
    to 255 printable ASCII bytes without slash or backslash, other than "." and
    "..", that is not of drive form, is accepted by the default profile. *)
Lemma portable_name_accepted c i :
  1 <= len c <= MaxComponentBytes -> ascii_name c ->
  Forall (fun b => byteZ b <> 47 /\ byteZ b <> 92) c ->
  c <> str "." -> c <> str ".." -> isAbsoluteComponent c = false ->
  validateComponent c i DefaultProfile = Ok tt.
Proof.
  intros Hl Ha Hs Hd Hdd Habs. apply validateComponent_ok.
  destruct (ascii_isNFC c Ha) as [Hv Hn]. repeat (split; [done|]). split; [|done].
  pose proof (conj Ha Hs) as H. unfold ascii_name in H. rewrite <- Forall_and in H.
  eapply Forall_impl; [exact H|]. unfold plain_byte. cbn. intros. lia.
Qed.

Lemma portable_name_accepted_witness :
  validateComponent (str "main.go") 3 DefaultProfile = Ok tt.
Proof.
  apply portable_name_accepted; try done; repeat constructor; try done.
Defined.

End PathGrammar.
