(* ===== verification/PathSpec.v ===== *)
(** * The path grammar of IP-S-0001 (docs/ip/IP-S-0001-path-grammar-resolution.md)

    The rules of the document, stated without the code of PathGrammar.v: well-formed
    UTF-8 as the encoding of Unicode scalar values, NFC as canonical order without a
    pair that composes (UAX #15, over the generated tables), the drive form, and the
    reserved names of Windows.  [ValidateComponents_exact] says that the code accepts
    exactly this grammar. *)

From S2P Require Import Prelude PathTables PathGrammar.
Import PathTables PathGrammar.

Module PathSpec.

(** ** Scalar values and UTF-8 *)

Definition scalar (r : Z) : Prop := 0 <= r < 0xD800 \/ 0xE000 <= r <= 0x10FFFF.

(** The bytes of a scalar value (RFC 3629). *)
Definition utf8_encode (r : Z) : list Z :=
  if r <? 0x80 then [r]
  else if r <? 0x800 then [0xC0 + r / 64; 0x80 + r mod 64]
  else if r <? 0x10000 then [0xE0 + r / 4096; 0x80 + r / 64 mod 64; 0x80 + r mod 64]
  else [0xF0 + r / 262144; 0x80 + r / 4096 mod 64; 0x80 + r / 64 mod 64; 0x80 + r mod 64].

(** [c] is the text of the scalar values [rs]. *)
Definition text (c : bytes) (rs : list Z) : Prop := Forall scalar rs /\ map byteZ c = concat (map utf8_encode rs).

(** ** NFC *)

(** The canonical combining class of a scalar value. *)
Definition class_of (r k : Z) : Prop := (r, k) ∈ nfcCCC \/ (k = 0 /\ forall k', (r, k') ∉ nfcCCC).

Definition starter (r : Z) : Prop := class_of r 0.

(** Two scalar values compose to a third: Hangul syllables by their formula (Unicode,
    section 3.12), the others by the table of primary composites. *)
Definition composes (a b : Z) : Prop :=
  (0x1100 <= a < 0x1113 /\ 0x1161 <= b < 0x1176) \/
  (0xAC00 <= a < 0xAC00 + 11172 /\ (a - 0xAC00) mod 28 = 0 /\ 0x11A7 < b < 0x11A7 + 28) \/
  exists c, (a * 2 ^ 32 + b, c) ∈ nfcCompose.

(** Of what is between a starter and a later value, all has a class other than 0 and
    less than that of the value. *)
Definition unblocked (mid : list Z) (r : Z) : Prop := forall m k l, m ∈ mid -> class_of m k -> class_of r l -> k <> 0 /\ k < l.

(** No value is excluded from NFC, marks are in canonical order, and no value
    composes with the starter before it from which it is not blocked. *)
Definition nfc_form (rs : list Z) : Prop :=
  (forall r, r ∈ rs -> r ∉ nfcQCNo) /\
  (forall pre a b post k l, rs = pre ++ a :: b :: post -> class_of a k -> class_of b l -> l <> 0 -> k <= l) /\
  (forall pre s mid r post, rs = pre ++ s :: mid ++ r :: post -> starter s -> unblocked mid r -> ~ composes s r).

(** ** Names *)

Definition letter (b : Z) : Prop := 65 <= b <= 90 \/ 97 <= b <= 122.

(** A drive letter and a colon. *)
Definition drive_form (c : bytes) : Prop := exists a b rest, c = a :: b :: rest /\ letter (byteZ a) /\ byteZ b = 58.

Definition devices : list bytes :=
  [str "CON"; str "PRN"; str "AUX"; str "NUL";
   str "COM1"; str "COM2"; str "COM3"; str "COM4"; str "COM5"; str "COM6"; str "COM7"; str "COM8"; str "COM9";
   str "LPT1"; str "LPT2"; str "LPT3"; str "LPT4"; str "LPT5"; str "LPT6"; str "LPT7"; str "LPT8"; str "LPT9"].

(** The same letter, in upper or in lower case. *)
Definition folds (a b : Byte.byte) : Prop := byteZ a = byteZ b \/ (65 <= byteZ b <= 90 /\ byteZ a = byteZ b + 32).

(** A device name in any case, with or without an extension, or a name that ends in a
    dot or a space. *)
Definition windows_reserved (c : bytes) : Prop :=
  (exists init b, c = init ++ [b] /\ (byteZ b = 46 \/ byteZ b = 32)) \/
  (exists base ext d, c = base ++ ext /\ d ∈ devices /\ Forall2 folds base d /\ (ext = [] \/ exists e, ext = byte_of 46 :: e)).

(** ** The grammar *)

Definition component (profile : Profile) (c : bytes) : Prop :=
  c <> [] /\ len c <= 255 /\ c <> str "." /\ c <> str ".." /\
  (forall b, b ∈ c -> byteZ b <> 47 /\ byteZ b <> 92 /\ 32 <= byteZ b /\ byteZ b <> 127) /\
  ~ drive_form c /\ (exists rs, text c rs /\ nfc_form rs) /\
  (WindowsReserved profile = true -> ~ windows_reserved c).

Definition grammar (profile : Profile) (cs : list bytes) : Prop :=
  cs <> [] /\ len cs <= 1024 /\ Forall (component profile) cs /\ len (concat cs) <= 4096.

(** ** UTF-8 *)

Lemma lor_pack a b n m : 0 <= n -> m = 2 ^ n -> 0 <= b < m -> Z.lor (Z.shiftl a n) b = a * m + b.
Proof. intros Hn -> Hb. rewrite Z.lor_comm, lor_shiftl_add by done. lia. Qed.

Lemma land_mask b n : 0 <= n -> Z.land b (2 ^ n - 1) = b mod 2 ^ n.
Proof. intros Hn. rewrite <- Z.land_ones by done. f_equal. rewrite Z.ones_equiv. lia. Qed.

Lemma land_3F b : Z.land b 0x3F = b mod 64.
Proof. exact (land_mask b 6 ltac:(done)). Qed.

Lemma pack2 a b : Z.lor (Z.shiftl (Z.land a 0x1F) 6) (Z.land b 0x3F) = a mod 32 * 64 + b mod 64.
Proof.
  rewrite land_3F, (land_mask a 5 ltac:(done) : Z.land a 0x1F = a mod 32). apply lor_pack; [done..|]. apply Z.mod_pos_bound. lia.
Qed.

Lemma pack3 a b c : Z.lor (Z.lor (Z.shiftl (Z.land a 0x0F) 12) (Z.shiftl (Z.land b 0x3F) 6)) (Z.land c 0x3F) =
  a mod 16 * 4096 + b mod 64 * 64 + c mod 64.
Proof.
  rewrite !land_3F, (land_mask a 4 ltac:(done) : Z.land a 0x0F = a mod 16).
  pose proof (Z.mod_pos_bound b 64 eq_refl). pose proof (Z.mod_pos_bound c 64 eq_refl).
  rewrite (Z.shiftl_mul_pow2 (b mod 64) 6 : _ -> _ = b mod 64 * 64) by lia. rewrite (lor_pack _ _ 12 4096) by (done || lia).
  replace (a mod 16 * 4096 + b mod 64 * 64) with (Z.shiftl (a mod 16 * 64 + b mod 64) 6) by (rewrite Z.shiftl_mul_pow2 by lia; change (2 ^ 6) with 64; lia).
  rewrite (lor_pack _ _ 6 64) by (done || lia). by rewrite Z.shiftl_mul_pow2 by lia.
Qed.

Lemma pack4 a b c d : Z.lor (Z.lor (Z.lor (Z.shiftl (Z.land a 0x07) 18) (Z.shiftl (Z.land b 0x3F) 12)) (Z.shiftl (Z.land c 0x3F) 6)) (Z.land d 0x3F) =
  a mod 8 * 262144 + b mod 64 * 4096 + c mod 64 * 64 + d mod 64.
Proof.
  rewrite !land_3F, (land_mask a 3 ltac:(done) : Z.land a 0x07 = a mod 8).
  pose proof (Z.mod_pos_bound b 64 eq_refl). pose proof (Z.mod_pos_bound c 64 eq_refl). pose proof (Z.mod_pos_bound d 64 eq_refl).
  rewrite (Z.shiftl_mul_pow2 (b mod 64) 12 : _ -> _ = b mod 64 * 4096), (Z.shiftl_mul_pow2 (c mod 64) 6 : _ -> _ = c mod 64 * 64) by lia.
  rewrite (lor_pack _ _ 18 262144) by (done || lia).
  replace (a mod 8 * 262144 + b mod 64 * 4096) with (Z.shiftl (a mod 8 * 64 + b mod 64) 12) by (rewrite Z.shiftl_mul_pow2 by lia; change (2 ^ 12) with 4096; lia).
  rewrite (lor_pack _ _ 12 4096) by (done || lia).
  replace ((a mod 8 * 64 + b mod 64) * 4096 + c mod 64 * 64) with (Z.shiftl ((a mod 8 * 64 + b mod 64) * 64 + c mod 64) 6)
    by (rewrite Z.shiftl_mul_pow2 by lia; change (2 ^ 6) with 64; lia).
  rewrite (lor_pack _ _ 6 64) by (done || lia). rewrite !Z.shiftl_mul_pow2 by lia.
  change (2 ^ 12) with 4096. ring.
Qed.

(** What one step of the decoder recognises. *)
Definition starts_with (p : list Z) (r : Z) : Prop := scalar r /\ exists rest, p = utf8_encode r ++ rest.

Definition decode (p : list Z) : Z * Z :=
  match p with
  | [] => (RuneError, 0)
  | b0 :: rest =>
      match utf8_first b0 with
      | None => (RuneError, 1)
      | Some (size, lo, hi) =>
          if size =? 1 then (b0, 1) else
          match rest with
          | [] => (RuneError, 1)
          | b1 :: rest =>
              if negb (in_range lo hi b1) then (RuneError, 1)
              else if size =? 2 then (b0 mod 32 * 64 + b1 mod 64, 2)
              else
              match rest with
              | [] => (RuneError, 1)
              | b2 :: rest =>
                  if negb (in_range 0x80 0xBF b2) then (RuneError, 1)
                  else if size =? 3 then (b0 mod 16 * 4096 + b1 mod 64 * 64 + b2 mod 64, 3)
                  else
                  match rest with
                  | [] => (RuneError, 1)
                  | b3 :: _ =>
                      if negb (in_range 0x80 0xBF b3) then (RuneError, 1)
                      else (b0 mod 8 * 262144 + b1 mod 64 * 4096 + b2 mod 64 * 64 + b3 mod 64, 4)
                  end
              end
          end
      end
  end.

Lemma DecodeRune_decode p : DecodeRune p = decode (map byteZ p).
Proof.
  unfold DecodeRune, decode. destruct (map byteZ p) as [|b0 [|b1 [|b2 [|b3 q]]]]; try done;
    destruct (utf8_first b0) as [[[size lo] hi]|]; try done; by rewrite ?pack2, ?pack3, ?pack4.
Qed.

Definition malformed (x : Z * Z) : bool := (x.1 =? RuneError) && (x.2 =? 1).

Lemma first_1 b : 0 <= b < 0x80 -> utf8_first b = Some (1, 0, 0).
Proof. intros H. unfold utf8_first. by rewrite (proj2 (Z.ltb_lt _ _)) by lia. Qed.

Lemma first_2 b : 0xC2 <= b < 0xE0 -> utf8_first b = Some (2, 0x80, 0xBF).
Proof. intros H. unfold utf8_first. repeat (case_match; [lia|]); case_match; [done|lia]. Qed.

Lemma first_3 b : 0xE0 <= b < 0xF0 -> exists lo hi, utf8_first b = Some (3, lo, hi) /\
  forall b1, in_range lo hi b1 = true <-> 0x80 <= b1 <= 0xBF /\ (b = 0xE0 -> 0xA0 <= b1) /\ (b = 0xED -> b1 <= 0x9F).
Proof.
  intros H. unfold utf8_first, in_range. repeat (case_match; [lia|]). repeat case_match; try lia; (do 2 eexists; split; [done|]; intros b1; lia).
Qed.

Lemma first_4 b : 0xF0 <= b <= 0xF4 -> exists lo hi, utf8_first b = Some (4, lo, hi) /\
  forall b1, in_range lo hi b1 = true <-> 0x80 <= b1 <= 0xBF /\ (b = 0xF0 -> 0x90 <= b1) /\ (b = 0xF4 -> b1 <= 0x8F).
Proof.
  intros H. unfold utf8_first, in_range. repeat (case_match; [lia|]). repeat case_match; try lia; (do 2 eexists; split; [done|]; intros b1; lia).
Qed.

(** The digits to the base 64 and the bytes that carry them. *)
Lemma digits r : 0 <= r ->
  r mod 64 = r - r / 64 * 64 /\ 0 <= r mod 64 < 64 /\ r / 64 mod 64 = r / 64 - r / 4096 * 64 /\ 0 <= r / 64 mod 64 < 64 /\
  r / 4096 mod 64 = r / 4096 - r / 262144 * 64 /\ 0 <= r / 4096 mod 64 < 64.
Proof.
  intros Hr. replace (r / 4096) with (r / 64 / 64) by (by rewrite Zdiv.Zdiv_Zdiv). replace (r / 262144) with (r / 64 / 64 / 64) by (by rewrite !Zdiv.Zdiv_Zdiv).
  Z.div_mod_to_equations. lia.
Qed.

Lemma cont_mod x : 0 <= x < 64 -> (0x80 + x) mod 64 = x.
Proof. intros H. Z.div_mod_to_equations. lia. Qed.

Lemma cont_range x : 0 <= x < 64 -> in_range 0x80 0xBF (0x80 + x) = true.
Proof. intros H. unfold in_range. lia. Qed.

(** A well-formed start is decoded to its value and its length. *)
Lemma decode_encode r rest : scalar r -> decode (utf8_encode r ++ rest) = (r, len (utf8_encode r)).
Proof.
  intros Hr. assert (H0 : 0 <= r) by (unfold scalar in Hr; lia). destruct (digits r H0) as (D1 & B1 & D2 & B2 & D3 & B3). unfold utf8_encode.
  destruct (r <? 0x80) eqn:E1; reflect_bools; [cbn; by rewrite first_1 by lia|].
  destruct (r <? 0x800) eqn:E2; reflect_bools.
  { cbn [app decode]. rewrite first_2 by lia. cbn -[Z.modulo Z.div Z.mul Z.add in_range]. rewrite cont_range, cont_mod by lia. cbn [negb].
    f_equal. replace ((0xC0 + r / 64) mod 32) with (r / 64) by (Z.div_mod_to_equations; lia). lia. }
  destruct (r <? 0x10000) eqn:E3; reflect_bools.
  - cbn [app decode]. destruct (first_3 (0xE0 + r / 4096)) as (lo & hi & -> & Hin); [lia|]. cbn -[Z.modulo Z.div Z.mul Z.add in_range].
    rewrite (proj2 (Hin _)) by (unfold scalar in Hr; lia). rewrite cont_range, !cont_mod by lia. cbn [negb].
    f_equal. replace ((0xE0 + r / 4096) mod 16) with (r / 4096) by (Z.div_mod_to_equations; lia). lia.
  - cbn [app decode]. destruct (first_4 (0xF0 + r / 262144)) as (lo & hi & -> & Hin); [unfold scalar in Hr; lia|]. cbn -[Z.modulo Z.div Z.mul Z.add in_range].
    rewrite (proj2 (Hin _)) by (unfold scalar in Hr; lia). rewrite !cont_range, !cont_mod by lia. cbn [negb].
    f_equal. replace ((0xF0 + r / 262144) mod 8) with (r / 262144) by (unfold scalar in Hr; Z.div_mod_to_equations; lia). lia.
Qed.
Lemma first_cases b size lo hi : 0 <= b -> utf8_first b = Some (size, lo, hi) ->
  (size = 1 /\ b < 0x80) \/ (size = 2 /\ lo = 0x80 /\ hi = 0xBF /\ 0xC2 <= b < 0xE0) \/
  (size = 3 /\ 0xE0 <= b < 0xF0) \/ (size = 4 /\ 0xF0 <= b <= 0xF4).
Proof. intros H. unfold utf8_first. repeat case_match; intros [= <- <- <-]; lia. Qed.

Lemma encode_2 b0 b1 : 0xC2 <= b0 < 0xE0 -> 0x80 <= b1 <= 0xBF ->
  let r := b0 mod 32 * 64 + b1 mod 64 in scalar r /\ utf8_encode r = [b0; b1].
Proof.
  intros H0 H1 r. assert (Hr : r = (b0 - 0xC0) * 64 + (b1 - 0x80)) by (unfold r; Z.div_mod_to_equations; lia).
  split; [unfold scalar; lia|]. unfold utf8_encode. rewrite (proj2 (Z.ltb_ge r 0x80)), (proj2 (Z.ltb_lt r 0x800)) by lia.
  f_equal; [|f_equal]; Z.div_mod_to_equations; lia.
Qed.

Lemma encode_3 b0 b1 b2 : 0xE0 <= b0 < 0xF0 -> 0x80 <= b1 <= 0xBF -> (b0 = 0xE0 -> 0xA0 <= b1) -> (b0 = 0xED -> b1 <= 0x9F) -> 0x80 <= b2 <= 0xBF ->
  let r := b0 mod 16 * 4096 + b1 mod 64 * 64 + b2 mod 64 in scalar r /\ utf8_encode r = [b0; b1; b2].
Proof.
  intros H0 H1 HE HD H2 r. assert (Hr : r = (b0 - 0xE0) * 4096 + (b1 - 0x80) * 64 + (b2 - 0x80)) by (unfold r; Z.div_mod_to_equations; lia).
  split; [unfold scalar; lia|]. destruct (digits r) as (D1 & B1 & D2 & B2 & _); [lia|]. unfold utf8_encode.
  rewrite (proj2 (Z.ltb_ge r 0x80)), (proj2 (Z.ltb_ge r 0x800)), (proj2 (Z.ltb_lt r 0x10000)) by lia.
  f_equal; [|f_equal; [|f_equal]]; lia.
Qed.

Lemma encode_4 b0 b1 b2 b3 : 0xF0 <= b0 <= 0xF4 -> 0x80 <= b1 <= 0xBF -> (b0 = 0xF0 -> 0x90 <= b1) -> (b0 = 0xF4 -> b1 <= 0x8F) -> 0x80 <= b2 <= 0xBF -> 0x80 <= b3 <= 0xBF ->
  let r := b0 mod 8 * 262144 + b1 mod 64 * 4096 + b2 mod 64 * 64 + b3 mod 64 in scalar r /\ utf8_encode r = [b0; b1; b2; b3].
Proof.
  intros H0 H1 HE HD H2 H3 r.
  assert (Hr : r = (b0 - 0xF0) * 262144 + (b1 - 0x80) * 4096 + (b2 - 0x80) * 64 + (b3 - 0x80)) by (unfold r; Z.div_mod_to_equations; lia).
  split; [unfold scalar; lia|]. destruct (digits r) as (D1 & B1 & D2 & B2 & D3 & B3); [lia|]. unfold utf8_encode.
  rewrite (proj2 (Z.ltb_ge r 0x80)), (proj2 (Z.ltb_ge r 0x800)), (proj2 (Z.ltb_ge r 0x10000)) by lia.
  f_equal; [|f_equal; [|f_equal; [|f_equal]]]; lia.
Qed.

(** What is decoded was well-formed. *)
Lemma decode_sound p : p <> [] -> Forall (fun b => 0 <= b) p -> malformed (decode p) = false ->
  scalar (decode p).1 /\ p = utf8_encode (decode p).1 ++ drop (Z.to_nat (decode p).2) p.
Proof.
  intros Hp Hb. destruct p as [|b0 p]; [done|]. apply Forall_cons in Hb as [Hb0 _]. unfold decode.
  destruct (utf8_first b0) as [[[size lo] hi]|] eqn:E; [|done].
  destruct (first_cases _ _ _ _ Hb0 E) as [[-> H]|[(-> & -> & -> & H)|[[-> H]|[-> H]]]]; cbn -[Z.modulo Z.mul Z.add in_range utf8_encode].
  - intros _. split; [unfold scalar; lia|]. unfold utf8_encode. rewrite (proj2 (Z.ltb_lt _ _)) by lia. done.
  - destruct p as [|b1 p]; [done|]. destruct (in_range 0x80 0xBF b1) eqn:E1; [|done]. cbn -[Z.modulo Z.mul Z.add utf8_encode]. intros _.
    destruct (encode_2 b0 b1) as [Hs He]; [lia|unfold in_range in E1; lia|]. split; [done|]. by rewrite He.
  - destruct p as [|b1 p]; [done|]. destruct (in_range lo hi b1) eqn:E1; [|done]. cbn -[Z.modulo Z.mul Z.add in_range utf8_encode].
    destruct p as [|b2 p]; [done|]. destruct (in_range 0x80 0xBF b2) eqn:E2; [|done]. cbn -[Z.modulo Z.mul Z.add utf8_encode]. intros _.
    destruct (first_3 b0 H) as (lo' & hi' & E' & Hin). rewrite E in E'. injection E' as <- <-. apply Hin in E1 as (? & ? & ?).
    destruct (encode_3 b0 b1 b2) as [Hs He]; try done; [unfold in_range in E2; lia|]. split; [done|]. by rewrite He.
  - destruct p as [|b1 p]; [done|]. destruct (in_range lo hi b1) eqn:E1; [|done]. cbn -[Z.modulo Z.mul Z.add in_range utf8_encode].
    destruct p as [|b2 p]; [done|]. destruct (in_range 0x80 0xBF b2) eqn:E2; [|done]. cbn -[Z.modulo Z.mul Z.add in_range utf8_encode].
    destruct p as [|b3 p]; [done|]. destruct (in_range 0x80 0xBF b3) eqn:E3; [|done]. cbn -[Z.modulo Z.mul Z.add utf8_encode]. intros _.
    destruct (first_4 b0 H) as (lo' & hi' & E' & Hin). rewrite E in E'. injection E' as <- <-. apply Hin in E1 as (? & ? & ?).
    destruct (encode_4 b0 b1 b2 b3) as [Hs He]; try done; [unfold in_range in E2; lia|unfold in_range in E3; lia|]. split; [done|]. by rewrite He.
Qed.

Lemma encode_length r : 1 <= len (utf8_encode r) <= 4.
Proof. unfold utf8_encode, len. repeat case_match; cbn; lia. Qed.

Lemma encode_wellformed r : scalar r -> malformed (r, len (utf8_encode r)) = false.
Proof.
  intros Hr. unfold malformed, RuneError. cbn. destruct (r =? 0xFFFD) eqn:E; [|done]. apply Z.eqb_eq in E as ->. done.
Qed.

Lemma text_cons c r rs : text c (r :: rs) -> scalar r /\ DecodeRune c = (r, len (utf8_encode r)) /\ text (drop (length (utf8_encode r)) c) rs /\ c <> [].
Proof.
  intros [Hs E]. apply Forall_cons in Hs as [Hr Hs]. cbn in E. split; [done|]. rewrite DecodeRune_decode, E. split; [by apply decode_encode|].
  split; [|intros ->; pose proof (encode_length r) as Hl; destruct (utf8_encode r); [unfold len in Hl; cbn in Hl; lia|done]].
  split; [done|]. change (byteZ <$> drop (length (utf8_encode r)) c = concat (map utf8_encode rs)).
  rewrite fmap_drop. change (byteZ <$> c) with (map byteZ c). by rewrite E, drop_app_length.
Qed.

Lemma text_decoded c : c <> [] -> malformed (DecodeRune c) = false ->
  let r := (DecodeRune c).1 in scalar r /\ DecodeRune c = (r, len (utf8_encode r)) /\
    forall rs, text (drop (length (utf8_encode r)) c) rs -> text c (r :: rs).
Proof.
  intros Hc Hm r. unfold r. rewrite DecodeRune_decode in *. destruct (decode_sound (map byteZ c)) as [Hs E]; [by destruct c| |done|].
  { apply Forall_forall. intros b (x & -> & _)%list_elem_of_fmap. pose proof (byteZ_range x). lia. }
  assert (Hd : decode (map byteZ c) = ((decode (map byteZ c)).1, len (utf8_encode (decode (map byteZ c)).1))).
  { rewrite E at 1. by apply decode_encode. }
  split; [done|]. split; [done|]. intros rs [Hrs Er]. split; [by constructor|]. cbn. rewrite <- Er, E at 1. f_equal.
  rewrite Hd. cbn [snd]. unfold len. rewrite Nat2Z.id. symmetry. apply fmap_drop.
Qed.

Lemma text_nil rs : text [] rs -> rs = [].
Proof.
  intros [_ E]. destruct rs as [|r rs]; [done|]. cbn in E. pose proof (encode_length r) as Hl. destruct (utf8_encode r); [unfold len in Hl; cbn in Hl; lia|done].
Qed.

Lemma valid_loop_text fuel c : (length c <= fuel)%nat -> valid_loop fuel c = true <-> exists rs, text c rs.
Proof.
  revert c. induction fuel as [|fuel IH]; intros c Hl.
  { destruct c; [|cbn in Hl; lia]. split; [|done]. intros _. exists []. by split. }
  destruct (decide (c = [])) as [->|Hc]; [split; [|done]; intros _; exists []; by split|].
  assert (E : valid_loop (S fuel) c = if malformed (DecodeRune c) then false else valid_loop fuel (drop (Z.to_nat (DecodeRune c).2) c)).
  { destruct c; [done|]. cbn [valid_loop]. by destruct (DecodeRune _). }
  rewrite E. destruct (malformed (DecodeRune c)) eqn:Em.
  - split; [done|]. intros ([|r rs] & H); [destruct H as [_ H]; by destruct c|]. destruct (text_cons _ _ _ H) as (Hr & Hd & _).
    rewrite Hd, encode_wellformed in Em; done.
  - destruct (text_decoded c Hc Em) as (Hs & Hd & Ht). pose proof (encode_length (DecodeRune c).1) as He. rewrite Hd. cbn [snd]. unfold len in *. rewrite Nat2Z.id.
    rewrite IH by (rewrite length_drop; destruct c; [done|cbn in *; lia]). split.
    + intros (rs & H%Ht). eauto.
    + intros ([|r rs] & H); [destruct H as [_ H]; by destruct c|]. destruct (text_cons _ _ _ H) as (_ & Hd' & H' & _). rewrite Hd'. cbn [fst]. eauto.
Qed.

Lemma utf8_Valid_text c : utf8_Valid c = true <-> exists rs, text c rs.
Proof. by apply valid_loop_text. Qed.

(** ** NFC *)

Lemma map_get_elem l k v : NoDup l.*1 -> map_get l k = Some v <-> (k, v) ∈ l.
Proof.
  unfold map_get. induction l as [|[k' v'] l IH]; intros Hd; cbn; [split; [done|by intros ?%not_elem_of_nil]|].
  apply NoDup_cons in Hd as [Hn Hd]. cbn in Hn. destruct (k' =? k) eqn:E; rewrite elem_of_cons.
  - apply Z.eqb_eq in E as ->. cbn. split; [intros [= ->]; by left|]. intros [[= ->]|H]; [done|]. destruct Hn. apply list_elem_of_fmap. by exists (k, v).
  - rewrite IH by done. split; [by right|]. intros [[= -> ->]|H]; [by rewrite Z.eqb_refl in E|done].
Qed.

Lemma sorted_NoDup (l : list Z) : StronglySorted Z.lt l -> NoDup l.
Proof.
  induction 1 as [|x l _ IH Hl]; constructor; [|done]. intros Hx. rewrite Forall_forall in Hl. specialize (Hl _ Hx). lia.
Qed.

Lemma class_ccc r k : class_of r k <-> ccc r = k.
Proof.
  unfold class_of, ccc. pose proof (fun v => map_get_elem nfcCCC r v (sorted_NoDup _ nfcCCC_sorted)) as H.
  destruct (map_get nfcCCC r) as [v|] eqn:E; cbn.
  - assert (Hv : (r, v) ∈ nfcCCC) by (by apply H). split; [intros [Hk%H|[_ Hk]]; [by injection Hk|by destruct (Hk v)]|]. intros <-. by left.
  - split; [intros [Hk%H|[-> _]]; done|]. intros <-. right. split; [done|]. intros k' Hk%H. done.
Qed.

Lemma scalar_key a b : scalar a -> scalar b -> Z.lor (Z.shiftl (u64 a) 32) (u32 b) = a * 2 ^ 32 + b.
Proof.
  intros Ha Hb. unfold u64, u32. rewrite (Z.mod_small a), (Z.mod_small b) by (unfold scalar in *; lia).
  apply lor_pack; [done..|]. unfold scalar in Hb. lia.
Qed.

Lemma composePair_composes a b : scalar a -> scalar b -> composePair a b = None <-> ~ composes a b.
Proof.
  intros Ha Hb. unfold composePair, composes, composeHangul. rewrite scalar_key by done.
  unfold hangulSCount, hangulLBase, hangulLCount, hangulVBase, hangulVCount, hangulSBase, hangulTBase, hangulTCount.
  destruct ((_ <=? a) && _ && _) eqn:E1; [split; [done|]; intros Hn; exfalso; apply Hn; left; lia|].
  destruct ((_ <=? a) && _ && _ && _) eqn:E2; [split; [done|]; intros Hn; exfalso; apply Hn; right; left; lia|].
  pose proof (fun v => map_get_elem nfcCompose (a * 2 ^ 32 + b) v (sorted_NoDup _ nfcCompose_sorted)) as Hget.
  destruct (map_get nfcCompose (a * 2 ^ 32 + b)) as [c|]; split; try done.
  - intros Hn. exfalso. apply Hn. right. right. exists c. by apply Hget.
  - intros _ [Hx|[Hx|[c Hc%Hget]]]; [lia|lia|done].
Qed.

(** The loop of [isNFC] on the values of a text. *)
Fixpoint nfc_runes (rs : list Z) (st : option Z) (marks : list Z) (last : Z) : bool :=
  match rs with
  | [] => true
  | r :: rs =>
      if runeInSorted nfcQCNo r then false
      else if (ccc r <? last) && negb (ccc r =? 0) then false
      else if match st with
              | Some s => match composePair s r with Some _ => negb (isBlocked marks (ccc r)) | None => false end
              | None => false
              end then false
      else if ccc r =? 0 then nfc_runes rs (Some r) [] (ccc r)
      else nfc_runes rs st (match st with Some _ => marks ++ [ccc r] | None => marks end) (ccc r)
  end.

Lemma nfc_loop_runes fuel c rs st marks last : (length c <= fuel)%nat -> text c rs -> nfc_loop fuel c st marks last = nfc_runes rs st marks last.
Proof.
  revert c rs st marks last. induction fuel as [|fuel IH]; intros c rs st marks last Hl Ht.
  { destruct c; [|cbn in Hl; lia]. by rewrite (text_nil rs Ht). }
  destruct rs as [|r rs]; [destruct Ht as [_ Ht]; by destruct c|]. destruct (text_cons _ _ _ Ht) as (Hr & Hd & Ht' & Hc).
  pose proof (encode_length r) as He. destruct c as [|x c]; [done|]. cbn [nfc_loop nfc_runes]. rewrite Hd.
  pose proof (encode_wellformed r Hr) as Hw. unfold malformed in Hw. cbn [fst snd] in Hw. rewrite Hw. unfold len. rewrite Nat2Z.id.
  assert (Hl' : (length (drop (length (utf8_encode r)) (x :: c)) <= fuel)%nat) by (rewrite length_drop; unfold len in He; cbn in *; lia).
  destruct (runeInSorted nfcQCNo r); [done|]. destruct ((ccc r <? last) && negb (ccc r =? 0)); [done|].
  destruct (match st with Some _ => _ | None => false end); [done|]. destruct (ccc r =? 0); by apply IH.
Qed.

Lemma isNFC_runes c rs : text c rs -> isNFC c = nfc_runes rs None [] 0.
Proof.
  intros Ht. unfold isNFC. rewrite (proj2 (utf8_Valid_text c)) by eauto. cbn [negb]. by apply nfc_loop_runes.
Qed.

(** What the rules ask of a value after those in [pre]. *)
Definition fits (pre : list Z) (r : Z) : Prop :=
  (r ∉ nfcQCNo) /\ (forall pre' a, pre = pre' ++ [a] -> ccc r <> 0 -> ccc a <= ccc r) /\
  (forall pre' s mid, pre = pre' ++ s :: mid -> ccc s = 0 -> (forall m, m ∈ mid -> ccc m <> 0 /\ ccc m < ccc r) -> ~ composes s r).

Lemma nfc_form_fits rs : nfc_form rs <-> forall pre r post, rs = pre ++ r :: post -> fits pre r.
Proof.
  unfold nfc_form, fits, unblocked, starter. setoid_rewrite class_ccc. split.
  - intros (H1 & H2 & H3) pre r post ->. split_and!; [apply H1; set_solver| |].
    + intros pre' a -> Hr. apply (H2 pre' a r post); [by rewrite <- app_assoc|done..].
    + intros pre' s mid -> Hs Hm. apply (H3 pre' s mid r post); [by rewrite <- app_assoc|done|]. intros m k l Hin <- <-. by apply Hm.
  - intros H. split_and!.
    + intros r (pre & post & ->)%list_elem_of_split. by destruct (H pre r post eq_refl).
    + intros pre a b post k l -> <- <- Hb. destruct (H (pre ++ [a]) b post) as (_ & H2 & _); [by rewrite <- app_assoc|]. by apply (H2 pre).
    + intros pre s mid r post -> Hs Hm. destruct (H (pre ++ s :: mid) r post) as (_ & _ & H3); [by rewrite <- app_assoc|].
      apply (H3 pre s mid); [done..|]. intros m Hin. by apply (Hm m (ccc m) (ccc r)).
Qed.
(** What the loop knows of the values it has read. *)
Definition reads (pre : list Z) (st : option Z) (marks : list Z) (last_ : Z) : Prop :=
  last_ = default 0 (ccc <$> last pre) /\
  match st with
  | Some s => exists pre' mid, pre = pre' ++ s :: mid /\ ccc s = 0 /\ (forall m, m ∈ mid -> ccc m <> 0) /\ marks = map ccc mid
  | None => (forall m, m ∈ pre -> ccc m <> 0) /\ marks = []
  end.

Lemma ccc_table : forallb (fun e => 0 <=? e.2) nfcCCC = true.
Proof. vm_compute. reflexivity. Qed.

Lemma ccc_nonneg r : 0 <= ccc r.
Proof.
  destruct (proj2 (class_ccc r (ccc r)) eq_refl) as [H|[-> _]]; [|done]. pose proof ccc_table as Ht. rewrite forallb_forall in Ht.
  apply list_elem_of_In in H. specialize (Ht _ H). cbn in Ht. lia.
Qed.

Lemma last_starter pre pre' s s' mid mid' : pre ++ s :: mid = pre' ++ s' :: mid' -> ccc s = 0 -> ccc s' = 0 ->
  (forall m, m ∈ mid -> ccc m <> 0) -> (forall m, m ∈ mid' -> ccc m <> 0) -> s = s' /\ mid = mid'.
Proof.
  intros E Hs Hs' Hm Hm'. apply app_eq_inv in E as [([|x k] & -> & E)|([|x k] & -> & E)]; cbn in E; try (by injection E).
  - injection E as <- E. exfalso. apply (Hm' s); [|done]. rewrite E. set_solver.
  - injection E as <- E. exfalso. apply (Hm s'); [|done]. rewrite E. set_solver.
Qed.

Lemma isBlocked_spec mid r : isBlocked (map ccc mid) (ccc r) = false <-> forall m, m ∈ mid -> ccc m <> 0 /\ ccc m < ccc r.
Proof.
  unfold isBlocked. induction mid as [|x mid IH]; cbn; [split; [intros _ m ?%not_elem_of_nil; done|done]|].
  rewrite orb_false_iff, IH. split.
  - intros [H1 H2] m [->|Hm]%elem_of_cons; [lia|by apply H2].
  - intros H. split; [specialize (H x ltac:(by left)); lia|]. intros m Hm. apply H. by right.
Qed.

Lemma and3_iff (A A' B B' C C' : Prop) : (A <-> A') -> (B <-> B') -> (C <-> C') -> A /\ B /\ C <-> A' /\ B' /\ C'.
Proof. tauto. Qed.

Lemma fits_tests pre r st marks last_ : reads pre st marks last_ -> Forall scalar pre -> scalar r ->
  fits pre r <-> runeInSorted nfcQCNo r = false /\ (ccc r <? last_) && negb (ccc r =? 0) = false /\
    match st with Some s => match composePair s r with Some _ => negb (isBlocked marks (ccc r)) | None => false end | None => false end = false.
Proof.
  intros [-> Hst] Hpre Hr. unfold fits. apply and3_iff.
  - rewrite <- not_true_iff_false, (runeInSorted_spec _ _ nfcQCNo_sorted). done.
  - pose proof (ccc_nonneg r). destruct pre as [|a pre _] using rev_ind; cbn; [split; [lia|]; intros _ [|??] a E; done|].
    rewrite last_snoc. cbn. split; [intros Hl; specialize (Hl pre a eq_refl); lia|]. intros Hl pre' b [_ <-]%app_inj_tail ?. lia.
  - destruct st as [s|].
    + destruct Hst as (pre' & mid & -> & Hs & Hm & ->). assert (Hss : scalar s) by (rewrite Forall_app, Forall_cons in Hpre; tauto).
      pose proof (composePair_composes s r Hss Hr) as Hcp. split.
      * intros Hc. destruct (composePair s r); [|done]. destruct (isBlocked (map ccc mid) (ccc r)) eqn:E; [done|]. exfalso.
        rewrite isBlocked_spec in E. specialize (Hc pre' s mid eq_refl Hs E). by apply Hcp in Hc.
      * intros Ht p' s' mid' E Hs' Hu. destruct (last_starter _ _ _ _ _ _ E Hs Hs' Hm) as [<- <-]; [intros m Hin; by apply Hu|].
        apply isBlocked_spec in Hu. rewrite Hu in Ht. apply Hcp. by destruct (composePair s r).
    + destruct Hst as [Hm _]. split; [done|]. intros _ p' s mid -> Hs. exfalso. apply (Hm s); [set_solver|done].
Qed.

Lemma reads_next pre r st marks last_ : reads pre st marks last_ ->
  reads (pre ++ [r]) (if ccc r =? 0 then Some r else st)
    (if ccc r =? 0 then [] else match st with Some _ => marks ++ [ccc r] | None => marks end) (ccc r).
Proof.
  intros [_ Hst]. split; [by rewrite last_snoc|]. destruct (ccc r =? 0) eqn:E.
  - exists pre, []. split_and!; [done|lia|by intros m ?%not_elem_of_nil|done].
  - destruct st as [s|].
    + destruct Hst as (pre' & mid & -> & Hs & Hm & ->). exists pre', (mid ++ [r]). split_and!; [by rewrite <- app_assoc|done| |by rewrite map_app].
      intros m [Hin|Hin%list_elem_of_singleton]%elem_of_app; [by apply Hm|subst m; lia].
    + destruct Hst as [Hm ->]. split; [|done]. intros m [Hin|Hin%list_elem_of_singleton]%elem_of_app; [by apply Hm|subst m; lia].
Qed.

Lemma nfc_runes_fits rs pre st marks last_ : reads pre st marks last_ -> Forall scalar (pre ++ rs) ->
  nfc_runes rs st marks last_ = true <-> forall p r q, rs = p ++ r :: q -> fits (pre ++ p) r.
Proof.
  revert pre st marks last_. induction rs as [|r rs IH]; intros pre st marks last_ Hi Hs; [split; [intros _ [|??] r q E; done|done]|].
  pose proof Hs as Hs'. rewrite Forall_app, Forall_cons in Hs'. destruct Hs' as (Hs1 & Hr & Hs2).
  pose proof (fits_tests pre r st marks last_ Hi Hs1 Hr) as Hf. pose proof (reads_next pre r st marks last_ Hi) as Hn.
  apply IH in Hn; [|by rewrite <- app_assoc]. cbn [nfc_runes].
  transitivity (fits pre r /\ forall p x q, rs = p ++ x :: q -> fits ((pre ++ [r]) ++ p) x).
  - rewrite Hf, <- Hn. destruct (runeInSorted nfcQCNo r); [naive_solver|]. destruct ((ccc r <? last_) && negb (ccc r =? 0)); [naive_solver|].
    destruct (match st with Some _ => _ | None => false end); [naive_solver|]. destruct (ccc r =? 0); naive_solver.
  - split.
    + intros [H1 H2] [|y p] x q [= -> ->]; [by rewrite app_nil_r|]. specialize (H2 p x q eq_refl). by rewrite <- app_assoc in H2.
    + intros H. split; [specialize (H [] r rs eq_refl); by rewrite app_nil_r in H|]. intros p x q ->. specialize (H (r :: p) x q eq_refl). by rewrite <- app_assoc.
Qed.

Lemma isNFC_form c rs : text c rs -> isNFC c = true <-> nfc_form rs.
Proof.
  intros Ht. rewrite (isNFC_runes c rs Ht), nfc_form_fits. apply (nfc_runes_fits rs [] None [] 0); [|apply Ht].
  split; [done|]. split; [by intros m ?%not_elem_of_nil|done].
Qed.

(** ** Names *)

Lemma drive_form_spec c : isAbsoluteComponent c = true <-> drive_form c.
Proof.
  unfold isAbsoluteComponent, drive_form, isASCIILetter, letter. destruct c as [|a [|b rest]]; cbn.
  - split; [done|]. by intros (? & ? & ? & ? & _).
  - split; [done|]. by intros (? & ? & ? & ? & _).
  - unfold at_. cbn. pose proof (len_nonneg rest). split.
    + intros Hc. exists a, b, rest. split; [done|]. lia.
    + intros (x & y & z & [= <- <- <-] & Hx & Hy). unfold len in *. cbn. lia.
Qed.

Lemma before_dot_split c : exists ext, c = before_dot c ++ ext /\ (ext = [] \/ exists e, ext = byte_of 46 :: e) /\ Forall (fun b => byteZ b <> 46) (before_dot c).
Proof.
  induction c as [|b c IH]; cbn; [exists []; auto|]. destruct (byteZ b =? 46) eqn:E; reflect_bools.
  - exists (b :: c). split_and!; [done| |done]. right. exists c. f_equal. apply byteZ_inj. by rewrite E.
  - destruct IH as (ext & Hc & He & Hf). exists ext. split_and!; [by rewrite Hc at 1|done|]. by constructor.
Qed.

Lemma before_dot_unique base ext : Forall (fun b => byteZ b <> 46) base -> ext = [] \/ (exists e, ext = byte_of 46 :: e) -> before_dot (base ++ ext) = base.
Proof.
  intros Hb He. induction Hb as [|b base Hb _ IH]; cbn; [destruct He as [->|[e ->]]; done|]. rewrite (proj2 (Z.eqb_neq _ _) Hb). by rewrite IH.
Qed.

(** Upper-case letters and digits. *)
Definition device_byte (b : Byte.byte) : Prop := 65 <= byteZ b <= 90 \/ 48 <= byteZ b <= 57.

#[local] Instance device_byte_dec b : Decision (device_byte b).
Proof. unfold device_byte. apply _. Defined.

Lemma devices_bytes : Forall (Forall device_byte) devices.
Proof. apply (bool_decide_eq_true _). vm_compute. reflexivity. Qed.

Lemma folds_upper a b : device_byte b -> folds a b <-> to_upper a = b.
Proof.
  intros Hb. unfold folds, to_upper. pose proof (byteZ_range a). destruct ((97 <=? byteZ a) && (byteZ a <=? 122)) eqn:E.
  - split.
    + intros [Hf|[_ Hf]]; [unfold device_byte in Hb; lia|]. apply byteZ_inj. rewrite byteZ_byte_of, Z.mod_small; lia.
    + intros <-. right. rewrite byteZ_byte_of, Z.mod_small by lia. lia.
  - split; [|intros ->; by left]. intros [Hf|Hf]; [by apply byteZ_inj|lia].
Qed.

Lemma folds_all base d : Forall device_byte d -> Forall2 folds base d <-> map to_upper base = d.
Proof.
  intros Hd. revert base. induction Hd as [|b d Hb _ IH]; intros base.
  - split; [by inversion 1|]. destruct base; [constructor|done].
  - destruct base as [|a base]; [split; [by inversion 1|done]|]. rewrite Forall2_cons, IH, folds_upper by done. cbn. split; [by intros [-> ->]|by intros [= -> ->]].
Qed.

Lemma digit_cases x : 49 <= byteZ x <= 57 -> x ∈ str "123456789".
Proof.
  intros H. assert (E : x = byte_of (byteZ x)) by (by rewrite byte_of_byteZ). rewrite E. clear E.
  assert (Hz : byteZ x = 49 \/ byteZ x = 50 \/ byteZ x = 51 \/ byteZ x = 52 \/ byteZ x = 53 \/ byteZ x = 54 \/ byteZ x = 55 \/ byteZ x = 56 \/ byteZ x = 57) by lia.
  apply (bool_decide_eq_true _). repeat destruct Hz as [->|Hz]; [vm_compute; reflexivity..|]. rewrite Hz. vm_compute. reflexivity.
Qed.

Lemma devices_spec s : s ∈ devices <-> s ∈ [str "CON"; str "PRN"; str "AUX"; str "NUL"] \/
  (len s = 4 /\ take 3 s ∈ [str "COM"; str "LPT"] /\ 49 <= at_ s 3 <= 57).
Proof.
  split.
  - intros H. assert (Hb : bool_decide (s ∈ [str "CON"; str "PRN"; str "AUX"; str "NUL"]) ||
      ((len s =? 4) && bool_decide (take 3 s ∈ [str "COM"; str "LPT"]) && (49 <=? at_ s 3) && (at_ s 3 <=? 57)) = true).
    { revert s H. apply Forall_forall. repeat constructor. }
    rewrite orb_true_iff, !andb_true_iff, !bool_decide_eq_true in Hb. destruct Hb as [Hb|Hb]; [by left|right]. intuition lia.
  - intros [H|(Hl & Ht & Hd)].
    + revert s H. apply Forall_forall. repeat constructor; apply (bool_decide_eq_true _); vm_compute; reflexivity.
    + destruct s as [|a [|b [|c [|x [|? ?]]]]]; unfold len in Hl; cbn in Hl; try lia. unfold at_ in Hd. cbn in Hd, Ht. apply digit_cases in Hd.
      change [a; b; c; x] with ([a; b; c] ++ [x]). revert x Hd. apply Forall_forall.
      apply elem_of_cons in Ht as [Ht|Ht%list_elem_of_singleton]; rewrite Ht; repeat constructor; apply (bool_decide_eq_true _); vm_compute; reflexivity.
Qed.

Lemma device_lengths s : s ∈ devices -> 0 < len s <= 4.
Proof.
  intros H. enough (E : (0 <? len s) && (len s <=? 4) = true) by lia. revert s H. apply Forall_forall. repeat constructor.
Qed.

Lemma device_name_spec c : (exists base ext d, c = base ++ ext /\ d ∈ devices /\ Forall2 folds base d /\ (ext = [] \/ exists e, ext = byte_of 46 :: e)) <->
  map to_upper (before_dot c) ∈ devices.
Proof.
  pose proof devices_bytes as Hdev. rewrite Forall_forall in Hdev. split.
  - intros (base & ext & d & -> & Hd & Hf & He). pose proof (Hdev d Hd) as Hb. rewrite (before_dot_unique base ext); [|clear - Hf Hb|done].
    + by rewrite (proj1 (folds_all base d Hb) Hf).
    + induction Hf as [|a b base d Hab _ IH]; [constructor|]. apply Forall_cons in Hb as [Hb Hbs]. constructor; [|by apply IH].
      unfold folds, device_byte in *. lia.
  - intros Hd. destruct (before_dot_split c) as (ext & Hc & He & _). exists (before_dot c), ext, (map to_upper (before_dot c)). split_and!; try done.
    by apply folds_all; [apply Hdev|].
Qed.

Lemma windows_reserved_spec c : c <> [] -> isWindowsReserved c = true <-> windows_reserved c.
Proof.
  intros Hc. unfold isWindowsReserved, windows_reserved. rewrite device_name_spec.
  destruct c as [|b init _] using rev_ind; [done|]. set (c := init ++ [b]).
  assert (Hlast : at_ c (length c - 1) = byteZ b) by (unfold at_, c; rewrite length_app, Nat.add_sub; by rewrite app_nth2, Nat.sub_diag by lia).
  rewrite Hlast. destruct ((byteZ b =? 46) || (byteZ b =? 32)) eqn:E.
  { split; [intros _|done]. left. exists init, b. split; [done|]. lia. }
  assert (Hno : ~ exists init' b', c = init' ++ [b'] /\ (byteZ b' = 46 \/ byteZ b' = 32)).
  { intros (init' & b' & [_ <-]%app_inj_tail & Hb'). lia. }
  set (s := map to_upper (before_dot c)). assert (Hlen : len (before_dot c) = len s) by (unfold len, s; by rewrite length_map).
  rewrite Hlen. transitivity (s ∈ devices); [|tauto]. destruct ((len s =? 0) || (4 <? len s)) eqn:El.
  { split; [done|]. intros H%device_lengths. lia. }
  rewrite devices_spec. case_bool_decide as H1; [tauto|]. destruct (len s =? 4) eqn:E4; [|split; [done|]; intros [?|(? & _)]; [done|lia]].
  case_bool_decide as H2; [|split; [done|]; intros [?|(_ & ? & _)]; done]. split; [intros Hd; right; split_and!; (done || lia)|]. intros [?|(_ & _ & Hd)]; [done|lia].
Qed.

Lemma component_ok_grammar profile c : component_ok profile c <-> component profile c.
Proof.
  unfold component_ok, component, MaxComponentBytes, plain_byte. rewrite Forall_forall.
  pose proof (drive_form_spec c) as Hd. pose proof (utf8_Valid_text c) as Hu.
  assert (Hempty : 1 <= len c <-> c <> []) by (destruct c; unfold len; cbn; split; (done || lia)).
  assert (Hn : utf8_Valid c = true /\ isNFC c = true <-> exists rs, text c rs /\ nfc_form rs).
  { rewrite Hu. split; [intros [(rs & Ht) Hf]; exists rs; by rewrite <- (isNFC_form c rs Ht)|]. intros (rs & Ht & Hf). split; [eauto|]. by apply (isNFC_form c rs Ht). }
  assert (Ha : isAbsoluteComponent c = false <-> ~ drive_form c) by (rewrite <- Hd; by destruct (isAbsoluteComponent c)).
  assert (Hw : c <> [] -> isWindowsReserved c = false <-> ~ windows_reserved c).
  { intros Hc. rewrite <- (windows_reserved_spec c Hc). by destruct (isWindowsReserved c). }
  rewrite <- Hempty in *. split.
  - intros ((H1 & H2) & H3 & H4 & H5 & H6 & H7 & H8 & H9). split_and!; try tauto. intros b Hb. specialize (H5 b Hb). lia.
  - intros (H1 & H2 & H3 & H4 & H5 & H6 & H7 & H8). apply Hn in H7 as [H7 H7']. split_and!; try tauto. intros b Hb. specialize (H5 b Hb). lia.
Qed.

Lemma path_bytes_concat cs : path_bytes cs = len (concat cs).
Proof.
  induction cs as [|c cs IH]; [done|]. change (path_bytes (c :: cs)) with (len c + path_bytes cs). rewrite IH. unfold len. cbn [concat]. rewrite length_app. lia.
Qed.

(** C39. [ValidateComponents] accepts exactly the paths of IP-S-0001: a sequence of 1 to
    1024 components with at most 4096 bytes in all, each of 1 to 255 bytes, none "." or
    "..", none with a separator, a control byte or DEL, none of drive form, each the
    UTF-8 encoding of scalar values in NFC, and, under the Windows profile, none a device
    name in any case with or without an extension and none that ends in a dot or a
    space. *)
Theorem ValidateComponents_exact profile cs : ValidateComponents cs profile = Ok tt <-> grammar profile cs.
Proof.
  rewrite ValidateComponents_iff. unfold path_ok, grammar, MaxComponents, MaxPathBytes. rewrite path_bytes_concat.
  assert (Hempty : 1 <= len cs <-> cs <> []) by (destruct cs; unfold len; cbn; split; (done || lia)). rewrite <- Hempty.
  assert (Hc : Forall (component_ok profile) cs <-> Forall (component profile) cs) by (rewrite !Forall_forall; by setoid_rewrite component_ok_grammar).
  rewrite Hc. tauto.
Qed.

End PathSpec.
