(* ===== verification/Plan.v ===== *)
(** * The canonical planner (internal/plan: types.go, errors.go, sort.go,
    encode.go, build.go)

    The planner takes classified (path, capability) rows and returns either a
    canonical plan document or a preflight that lists what blocks it.  The
    theorems show that the document does not depend on the order in which the
    rows were acquired, that it holds exactly the resolved rows and none that
    blocks, that the representation chosen is the least eligible one, and that
    the document determines what was planned. *)

From S2P Require Import Prelude Sha256 Sorting Codec PathGrammar.
Import Sorting.
Import Sha256.

Module Plan.

(** ** types.go *)

Definition PlanVersion : Z := 1.
Definition MaxDefaultEntries : Z := Z.shiftl 1 20.
Definition MaxDefaultPlanBytes : Z := Z.shiftl 16 20.
Definition MaxDefaultCapabilityComparisons : Z := Z.shiftl 1 24.
Definition PlanMagic : bytes := str "INTPLAN1".

Definition ActionCreate : Z := 1.
Definition ActionReplace : Z := 2.
Definition ActionMetadataUpdate : Z := 3.
Definition ActionQuarantineDelete : Z := 4.
Definition ActionSkipIdentical : Z := 5.

Definition ValidAction (a : Z) : bool := (ActionCreate <=? a) && (a <=? ActionSkipIdentical).
Definition IsDestructive (a : Z) : bool := a =? ActionQuarantineDelete.

Definition ResultLossless : Z := 1.
Definition ResultWrapped : Z := 2.
Definition ResultUnrepresentable : Z := 3.
Definition ResultPolicyForbidden : Z := 4.
Definition ResultUnknown : Z := 5.

Definition ValidResult (r : Z) : bool := (ResultLossless <=? r) && (r <=? ResultUnknown).

Definition BlocksAuthorization (r : Z) : bool :=
  (r =? ResultUnrepresentable) || (r =? ResultPolicyForbidden) || (r =? ResultUnknown).

Definition CapIdentity : Z := 1.
Definition CapDurability : Z := 20.

Definition KnownCapability (id : Z) : bool := (CapIdentity <=? id) && (id <=? CapDurability).

Record Classification := mkClassification {
  CPath : list bytes;
  CCapabilityID : Z;
  CAction : Z;
  CResult : Z;
  RepresentationIDs : list Z;
  CAuxDigest : bytes }.

Record Policy := mkPolicy { WrapAllowList : list Z; RepresentationAllowList : list Z }.

Record Limits := mkLimits { MaxEntries : Z; MaxPlanBytes : Z; MaxCapabilityComparisons : Z }.

Definition Resolve (l : Limits) : Limits :=
  mkLimits (if MaxEntries l =? 0 then MaxDefaultEntries else MaxEntries l)
    (if MaxPlanBytes l =? 0 then MaxDefaultPlanBytes else MaxPlanBytes l)
    (if MaxCapabilityComparisons l =? 0 then MaxDefaultCapabilityComparisons
     else MaxCapabilityComparisons l).

Record CanonicalInput := mkCanonicalInput {
  ManifestDigest : bytes;
  CapabilityVectorDigest : bytes;
  ConfigurationDigest : bytes;
  Classifications : list Classification;
  IPolicy : Policy;
  ILimits : Limits }.

Record BlockingItem := mkBlockingItem { BPath : list bytes; BCapabilityID : Z; BResult : Z }.

Record Preflight := mkPreflight { Blocking : list BlockingItem }.

Definition Authorized (p : Preflight) : bool := len (Blocking p) =? 0.

Record PlanDoc := mkPlan { Bytes : bytes; PDigest : bytes }.

(** [var zero Plan]. *)
Definition zero : PlanDoc := mkPlan [] (zeros 32).

Record Entry := mkEntry {
  EPath : list bytes;
  ECapabilityID : Z;
  EAction : Z;
  EResult : Z;
  RepresentationID : Z;
  EAuxDigest : bytes }.

(** ** errors.go *)

Inductive Kind := KindRefuse | KindLimit | KindNonCanonical | KindUnsupported.

Record Error := mkError { EKind : Kind; EField : string }.

Definition refuse (field : string) : Error := mkError KindRefuse field.
Definition limit (field : string) : Error := mkError KindLimit field.
Definition nonCanonical (field : string) : Error := mkError KindNonCanonical field.
Definition unsupported (field : string) : Error := mkError KindUnsupported field.

(** ** sort.go *)

(** The loop over the components both paths have: the first difference. *)
Fixpoint compare_common (a b : list bytes) : Z :=
  match a, b with
  | x :: a, y :: b =>
      let c := bytes_Compare x y in
      if negb (c =? 0) then c else compare_common a b
  | _, _ => 0
  end.

Definition comparePathComponents (a b : list bytes) : Z :=
  let c := compare_common a b in
  if negb (c =? 0) then c
  else if len a <? len b then -1
  else if len b <? len a then 1
  else 0.

Definition compareEntries (a b : Entry) : Z :=
  let c := comparePathComponents (EPath a) (EPath b) in
  if negb (c =? 0) then c
  else if ECapabilityID a <? ECapabilityID b then -1
  else if ECapabilityID b <? ECapabilityID a then 1
  else if EAction a <? EAction b then -1
  else if EAction b <? EAction a then 1
  else 0.

Definition compareClassifications (a b : Classification) : Z :=
  let c := comparePathComponents (CPath a) (CPath b) in
  if negb (c =? 0) then c
  else if CCapabilityID a <? CCapabilityID b then -1
  else if CCapabilityID b <? CCapabilityID a then 1
  else if CAction a <? CAction b then -1
  else if CAction b <? CAction a then 1
  else 0.

Definition sortClassifications (inp : list Classification) : list Classification :=
  insertion_sort (fun a b => 0 <? compareClassifications a b) inp.

Definition sortEntries (inp : list Entry) : list Entry :=
  insertion_sort (fun a b => 0 <? compareEntries a b) inp.

Definition sortUint16 (inp : list Z) : list Z := insertion_sort (fun a b => b <? a) inp.

Definition allowContains (l : list Z) (id : Z) : bool := existsb (fun v => v =? id) l.

(** ** encode.go *)

Fixpoint encode_components (path : list bytes) : res Error bytes :=
  match path with
  | [] => Ok []
  | c :: path =>
      if MaxUint16 <? len c then Err (limit "component") else
      let! rest := encode_components path in
      Ok (le_bytes 2 (u16 (len c)) ++ c ++ rest)
  end.

Definition encodeEntry (e : Entry) : res Error bytes :=
  if MaxUint16 <? len (EPath e) then Err (limit "path_component_count") else
  let! comps := encode_components (EPath e) in
  Ok (le_bytes 2 (u16 (len (EPath e))) ++ comps ++
      le_bytes 2 (ECapabilityID e) ++ le_bytes 2 (EAction e) ++ le_bytes 2 (EResult e) ++
      le_bytes 2 (RepresentationID e) ++ EAuxDigest e).

Fixpoint measurePlanBody (entries : list Entry) : res Error Z :=
  match entries with
  | [] => Ok 0
  | e :: entries =>
      let! enc := encodeEntry e in
      let! n := measurePlanBody entries in
      Ok (len enc + n)
  end.

Fixpoint append_entries (buf : bytes) (entries : list Entry) : res Error bytes :=
  match entries with
  | [] => Ok buf
  | e :: entries =>
      let! enc := encodeEntry e in
      append_entries (buf ++ enc) entries
  end.

Definition encodePlan (manifestDigest capDigest cfgDigest : bytes) (entries : list Entry)
    (destructiveDigest : bytes) : res Error (bytes * bytes) :=
  if MaxUint32 <? len entries then Err (limit "entry_count") else
  let! bodyLen := measurePlanBody entries in
  let buf := PlanMagic ++ le_bytes 2 PlanVersion ++ manifestDigest ++ capDigest ++ cfgDigest ++
             le_bytes 4 (u32 (len entries)) in
  let! buf := append_entries buf entries in
  let buf := buf ++ destructiveDigest in
  let digest := sha256 buf in
  Ok (buf ++ digest, digest).

Fixpoint encodeDestructiveSubset (entries : list Entry) : bytes :=
  match entries with
  | [] => []
  | e :: entries =>
      (if negb (IsDestructive (EAction e)) then []
       else match encodeEntry e with
            | Ok enc => enc
            | _ => []
            end) ++ encodeDestructiveSubset entries
  end.

Definition Digest (p : PlanDoc) : bytes :=
  if len (Bytes p) <? 32 then sha256 (Bytes p) else sha256 (sub (Bytes p) 0 (len (Bytes p) - 32)).

(** ** build.go *)

Definition validateClassification (c : Classification) : res Error unit :=
  match PathGrammar.ValidateComponentsDefault (CPath c) with
  | Err _ => Err (nonCanonical "path")
  | Panic => Panic
  | Ok _ =>
      if negb (ValidAction (CAction c)) then Err (unsupported "action_code")
      else if negb (ValidResult (CResult c)) then Err (unsupported "result_code")
      else if CCapabilityID c =? 0 then Err (unsupported "capability_id")
      else if negb (KnownCapability (CCapabilityID c)) then Ok tt
      else if MaxDefaultCapabilityComparisons <? len (RepresentationIDs c)
           then Err (limit "representation_ids")
      else Ok tt
  end.

(** The loop of [pickRepresentation], with [best] and [found]. *)
Fixpoint pick_loop (sorted allow : list Z) (emptyAllowAll : bool) (best : Z) (found : bool) : Z * bool :=
  match sorted with
  | [] => (best, found)
  | id :: sorted =>
      if id =? 0 then pick_loop sorted allow emptyAllowAll best found else
      let eligible := if 0 <? len allow then allowContains allow id else emptyAllowAll in
      if negb eligible then pick_loop sorted allow emptyAllowAll best found
      else if negb found || (id <? best) then pick_loop sorted allow emptyAllowAll id true
      else pick_loop sorted allow emptyAllowAll best found
  end.

Definition pickRepresentation (candidates allow : list Z) (emptyAllowAll : bool) : Z * bool :=
  let sorted := sortUint16 candidates in
  let '(best, found) := pick_loop sorted allow emptyAllowAll 0 false in
  if negb found && (len sorted =? 0) && emptyAllowAll then (0, true) else (best, found).

(** The entry and whether it blocks. *)
Definition resolveClassification (c : Classification) (wrapAllow repAllow : list Z)
    : res Error (Entry * bool) :=
  let e result rep :=
    mkEntry (CPath c) (CCapabilityID c) (CAction c) result rep (CAuxDigest c) in
  if negb (KnownCapability (CCapabilityID c)) then Ok (e ResultUnknown 0, true)
  else if BlocksAuthorization (CResult c) then Ok (e (CResult c) 0, true)
  else if CResult c =? ResultLossless then
    let '(id, ok) := pickRepresentation (RepresentationIDs c) repAllow true in
    if negb ok && (0 <? len (RepresentationIDs c)) then Ok (e ResultPolicyForbidden 0, true)
    else Ok (e (CResult c) id, false)
  else if CResult c =? ResultWrapped then
    let '(id, ok) := pickRepresentation (RepresentationIDs c) wrapAllow false in
    if negb ok then Ok (e ResultPolicyForbidden 0, true)
    else Ok (e (CResult c) id, false)
  else Err (unsupported "result_code").

(** The loop of [Build]; [prev] is [sorted[i-1]]. *)
Fixpoint build_loop (prev : option Classification) (sorted : list Classification)
    (wrapAllow repAllow : list Z) (entries : list Entry) (blocking : list BlockingItem)
    : res Error (list Entry * list BlockingItem) :=
  match sorted with
  | [] => Ok (entries, blocking)
  | c :: sorted =>
      let! _ := validateClassification c in
      if match prev with Some p => compareClassifications p c =? 0 | None => false end
      then Err (nonCanonical "classifications") else
      let! r := resolveClassification c wrapAllow repAllow in
      let '(resolved, block) := r in
      if block then
        build_loop (Some c) sorted wrapAllow repAllow entries
          (blocking ++ [mkBlockingItem (CPath c) (CCapabilityID c) (EResult resolved)])
      else build_loop (Some c) sorted wrapAllow repAllow (entries ++ [resolved]) blocking
  end.

(** A body that panics has no value; none does (below). *)
Inductive outcome := Returns (p : PlanDoc) (pf : Preflight) (err : option Error) | Panics.

Definition Build (inp : CanonicalInput) : outcome :=
  let limits := Resolve (ILimits inp) in
  if MaxCapabilityComparisons limits <? len (Classifications inp) then
    Returns zero (mkPreflight []) (Some (limit "classifications"))
  else if MaxEntries limits <? len (Classifications inp) then
    Returns zero (mkPreflight []) (Some (limit "entries"))
  else
    let sorted := sortClassifications (Classifications inp) in
    let wrapAllow := sortUint16 (WrapAllowList (IPolicy inp)) in
    let repAllow := sortUint16 (RepresentationAllowList (IPolicy inp)) in
    match build_loop None sorted wrapAllow repAllow [] [] with
    | Panic => Panics
    | Err e => Returns zero (mkPreflight []) (Some e)
    | Ok (entries, blocking) =>
        let pf := mkPreflight blocking in
        if 0 <? len blocking then Returns zero pf (Some (refuse "preflight")) else
        let entries := sortEntries entries in
        let destrDigest := sha256 (encodeDestructiveSubset entries) in
        match encodePlan (ManifestDigest inp) (CapabilityVectorDigest inp)
                (ConfigurationDigest inp) entries destrDigest with
        | Panic => Panics
        | Err e => Returns zero pf (Some e)
        | Ok (doc, digest) =>
            if MaxPlanBytes limits <? len doc then Returns zero pf (Some (limit "plan_bytes"))
            else Returns (mkPlan doc digest) pf None
        end
    end.

(** ** The orders *)

Lemma comparePathComponents_lex a b : comparePathComponents a b = lexcmp bytes_Compare a b.
Proof.
  unfold comparePathComponents. revert b.
  induction a as [|x a IH]; intros [|y b]; cbn [compare_common lexcmp]; try done.
  destruct (bytes_Compare x y =? 0) eqn:E; cbn [negb].
  - rewrite <- IH, !len_cons. replace (1 + len a <? 1 + len b) with (len a <? len b) by lia.
    replace (1 + len b <? 1 + len a) with (len b <? len a) by lia. done.
  - by rewrite E.
Qed.

(** The path, the capability and the action: what rows and entries are ordered by. *)
Definition plan_key : Type := list bytes * (Z * Z).
Definition key_cmp : plan_key -> plan_key -> Z :=
  paircmp (lexcmp bytes_Compare) (paircmp cmpZ cmpZ).

#[export] Instance key_cmp_three_way : ThreeWay key_cmp.
Proof. apply paircmp_three_way; [apply lexcmp_three_way, _|apply paircmp_three_way; apply _]. Qed.

Definition ckey (c : Classification) : plan_key := (CPath c, (CCapabilityID c, CAction c)).
Definition ekey (e : Entry) : plan_key := (EPath e, (ECapabilityID e, EAction e)).

Lemma switch_cmp (c1 c2 a1 a2 : Z) :
  (if c1 <? c2 then -1 else if c2 <? c1 then 1
   else if a1 <? a2 then -1 else if a2 <? a1 then 1 else 0) = paircmp cmpZ cmpZ (c1, a1) (c2, a2).
Proof. unfold paircmp, cmpZ. cbn. destruct (c1 <? c2); [done|]. by destruct (c2 <? c1). Qed.

Lemma compareClassifications_key a b : compareClassifications a b = key_cmp (ckey a) (ckey b).
Proof.
  unfold compareClassifications, key_cmp, paircmp at 1. cbn [fst snd ckey].
  rewrite comparePathComponents_lex, switch_cmp. by destruct (_ =? 0).
Qed.

Lemma compareEntries_key a b : compareEntries a b = key_cmp (ekey a) (ekey b).
Proof.
  unfold compareEntries, key_cmp, paircmp at 1. cbn [fst snd ekey].
  rewrite comparePathComponents_lex, switch_cmp. by destruct (_ =? 0).
Qed.

Lemma insertion_sort_ext {A} (f g : A -> A -> bool) l :
  (forall a b, f a b = g a b) -> insertion_sort f l = insertion_sort g l.
Proof.
  intros H. rewrite !insertion_sort_fold. f_equal. generalize (@nil A) as r.
  induction l as [|x l IH]; intros r; cbn; [done|]. rewrite IH. f_equal.
  induction r as [|y r IHr]; cbn; [done|]. by rewrite H, IHr.
Qed.

Lemma sortClassifications_key l : sortClassifications l = sort_key ckey key_cmp l.
Proof.
  apply insertion_sort_ext. intros a b. unfold key_gt. by rewrite compareClassifications_key.
Qed.

Lemma sortEntries_key l : sortEntries l = sort_key ekey key_cmp l.
Proof. apply insertion_sort_ext. intros a b. unfold key_gt. by rewrite compareEntries_key. Qed.

Lemma sortUint16_key l : sortUint16 l = sort_key id cmpZ l.
Proof.
  apply insertion_sort_ext. intros a b. unfold key_gt, cmpZ, id.
  destruct (Z.ltb_spec b a), (Z.ltb_spec a b); try done; lia.
Qed.

Lemma sortUint16_canonical l l' : l ≡ₚ l' -> sortUint16 l = sortUint16 l'.
Proof.
  intros Hp. rewrite !sortUint16_key. pose proof (sort_key_keys id cmpZ l l' Hp) as E.
  by rewrite !map_id in E.
Qed.

Lemma sortClassifications_perm l : sortClassifications l ≡ₚ l.
Proof. apply insertion_sort_perm. Qed.

Lemma sortUint16_perm l : sortUint16 l ≡ₚ l.
Proof. apply insertion_sort_perm. Qed.

Lemma sortUint16_sorted l : StronglySorted Z.le (sortUint16 l).
Proof.
  rewrite sortUint16_key. pose proof (sort_key_sorted id cmpZ l) as H.
  induction H as [|x r Hs IH Hx]; constructor; [done|]. eapply Forall_impl; [exact Hx|].
  intros y. rewrite key_le. unfold cmpZ, id. destruct (Z.ltb_spec x y), (Z.ltb_spec y x); lia.
Qed.

(** ** The representation chosen *)

(** Eligible candidates: positive, and in the allow-list, or any when there is
    no allow-list and an empty one allows all. *)
Definition eligible (allow : list Z) (emptyAllowAll : bool) (id : Z) : bool :=
  negb (id =? 0) && (if 0 <? len allow then allowContains allow id else emptyAllowAll).

Lemma pick_loop_found sorted allow ea best :
  Forall (fun id => best <= id) sorted -> pick_loop sorted allow ea best true = (best, true).
Proof.
  induction 1 as [|id l Hid Hl IH]; cbn [pick_loop]; [done|]. cbn [negb orb].
  replace (id <? best) with false by lia. repeat case_if; done.
Qed.

Lemma pick_loop_spec sorted allow ea :
  StronglySorted Z.le sorted ->
  pick_loop sorted allow ea 0 false =
  match List.find (eligible allow ea) sorted with Some id => (id, true) | None => (0, false) end.
Proof.
  induction 1 as [|id l Hs IH Hid]; cbn [pick_loop List.find]; [done|].
  unfold eligible at 1. destruct (id =? 0); cbn [negb andb]; [done|].
  destruct (if 0 <? len allow then _ else _); cbn [negb orb]; [|done].
  by apply pick_loop_found.
Qed.

Lemma find_least (f : Z -> bool) l :
  StronglySorted Z.le l ->
  match List.find f l with
  | Some x => x ∈ l /\ f x = true /\ (forall y, y ∈ l -> f y = true -> x <= y)
  | None => forall y, y ∈ l -> f y = false
  end.
Proof.
  induction 1 as [|a l Hs IH Ha]; cbn [List.find]; [by intros y ?%not_elem_of_nil|].
  destruct (f a) eqn:E.
  - split_and!; [left|done|]. intros y [->|Hy]%elem_of_cons _; [lia|].
    rewrite Forall_forall in Ha. by apply Ha.
  - destruct (List.find f l) as [x|].
    + destruct IH as (Hx & Hf & Hle). split_and!; [by right|done|].
      intros y [->|Hy]%elem_of_cons ?; [congruence|auto].
    + intros y [->|Hy]%elem_of_cons; [done|auto].
Qed.

(** What the choice must be. *)
Definition representation_spec (candidates allow : list Z) (ea : bool) (r : Z * bool) : Prop :=
  if r.2 then
    (r.1 ∈ candidates /\ eligible allow ea r.1 = true /\
      (forall id, id ∈ candidates -> eligible allow ea id = true -> r.1 <= id)) \/
    (candidates = [] /\ ea = true /\ r.1 = 0)
  else
    r.1 = 0 /\ (forall id, id ∈ candidates -> eligible allow ea id = false) /\
    ~ (candidates = [] /\ ea = true).

(** [pickRepresentation] returns the least eligible candidate: positive, and
    allowed by the list when there is one.  With no candidate at all it returns
    the unused ID 0 where an empty list allows all, and it reports failure
    exactly when no candidate is eligible. *)
Lemma pickRepresentation_spec candidates allow ea :
  representation_spec candidates allow ea (pickRepresentation candidates allow ea).
Proof.
  unfold pickRepresentation, representation_spec.
  pose proof (sortUint16_perm candidates) as Hp. pose proof (sortUint16_sorted candidates) as Hs.
  rewrite pick_loop_spec by done. pose proof (find_least (eligible allow ea) _ Hs) as Hf.
  destruct (List.find _ _) as [id|]; cbn [negb andb fst snd].
  - left. setoid_rewrite Hp in Hf. done.
  - setoid_rewrite Hp in Hf.
    assert (Hlen : len (sortUint16 candidates) = len candidates) by (unfold len; by rewrite Hp).
    rewrite Hlen. destruct candidates as [|c cs].
    + change (len [] =? 0) with true. destruct ea; cbn; [by right|].
      split_and!; [done|done|]. intros [_ ?]. done.
    + rewrite len_cons. pose proof (len_nonneg cs). replace (1 + len cs =? 0) with false by lia.
      cbn. split_and!; [done|done|]. intros [? _]. done.
Qed.

(** ** The rows *)

Lemma ValidateComponents_no_panic cs profile : PathGrammar.ValidateComponents cs profile <> Panic.
Proof.
  unfold PathGrammar.ValidateComponents. repeat case_if; try done. clear.
  generalize 0 at 1. generalize 0. induction cs as [|c cs IH]; intros i b; [done|].
  cbn [PathGrammar.validate_loop].
  assert (PathGrammar.validateComponent c b profile <> Panic).
  { unfold PathGrammar.validateComponent. destruct (PathGrammar.scan_separators c); repeat case_if; done. }
  destruct (PathGrammar.validateComponent _ _ _) as [[]|?|]; cbn; try done.
  case_if; [done|apply IH].
Qed.

(** What [validateClassification] accepts. *)
Definition row_valid (c : Classification) : Prop :=
  PathGrammar.ValidateComponentsDefault (CPath c) = Ok tt /\
  ValidAction (CAction c) = true /\ ValidResult (CResult c) = true /\ CCapabilityID c <> 0 /\
  (KnownCapability (CCapabilityID c) = true ->
   len (RepresentationIDs c) <= MaxDefaultCapabilityComparisons).

Lemma validateClassification_spec c :
  validateClassification c <> Panic /\ (validateClassification c = Ok tt <-> row_valid c).
Proof.
  unfold validateClassification, row_valid.
  pose proof (ValidateComponents_no_panic (CPath c) PathGrammar.DefaultProfile).
  unfold PathGrammar.ValidateComponentsDefault in *.
  destruct (PathGrammar.ValidateComponents _ _) as [[]|?|]; [|split; [done|]; intuition congruence|done].
  destruct (ValidAction _); cbn [negb]; [|split; [done|]; intuition congruence].
  destruct (ValidResult _); cbn [negb]; [|split; [done|]; intuition congruence].
  destruct (CCapabilityID c =? 0) eqn:E; reflect_bools; [split; [done|]; intuition congruence|].
  destruct (KnownCapability _); cbn [negb]; [|split; [done|]; intuition congruence].
  destruct (_ <? _) eqn:E2; reflect_bools; split; try done; split; try done.
  intros (_ & _ & _ & _ & H1). specialize (H1 eq_refl). lia.
Qed.

Section Rows.
Variables wrapAllow repAllow : list Z.

(** The entry of a row and whether it blocks. *)
Definition resolved (c : Classification) : Entry * bool :=
  match resolveClassification c wrapAllow repAllow with
  | Ok r => r
  | _ => (mkEntry [] 0 0 0 0 [], true)
  end.

Definition entries_of (cs : list Classification) : list Entry :=
  flat_map (fun c => if (resolved c).2 then [] else [(resolved c).1]) cs.

Definition block_item (c : Classification) : BlockingItem :=
  mkBlockingItem (CPath c) (CCapabilityID c) (EResult (resolved c).1).

Definition blocking_of (cs : list Classification) : list BlockingItem :=
  flat_map (fun c => if (resolved c).2 then [block_item c] else []) cs.

(** Consecutive rows differ, [prev] included. *)
Fixpoint distinct_next (prev : option Classification) (cs : list Classification) : Prop :=
  match cs with
  | [] => True
  | c :: cs => (forall p, prev = Some p -> ckey p <> ckey c) /\ distinct_next (Some c) cs
  end.

Lemma resolve_valid c : row_valid c ->
  resolveClassification c wrapAllow repAllow = Ok (resolved c) .
Proof.
  intros (_ & _ & Hr & _). unfold resolved. revert Hr. unfold resolveClassification, ValidResult.
  unfold BlocksAuthorization, ResultUnrepresentable, ResultPolicyForbidden, ResultUnknown,
    ResultLossless, ResultWrapped. intros Hr. reflect_bools.
  destruct (KnownCapability _); cbn [negb]; [|done].
  destruct (_ || _ || _) eqn:E; [done|]. reflect_bools.
  destruct (CResult c =? 1) eqn:E1; [by destruct (pickRepresentation _ _ _) as [? []], (0 <? _)|].
  destruct (CResult c =? 2) eqn:E2; [by destruct (pickRepresentation _ _ _) as [? []]|].
  reflect_bools. lia.
Qed.

Lemma build_loop_spec cs prev en bl :
  build_loop prev cs wrapAllow repAllow en bl <> Panic /\
  (forall r, build_loop prev cs wrapAllow repAllow en bl = Ok r <->
     Forall row_valid cs /\ distinct_next prev cs /\
     r = (en ++ entries_of cs, bl ++ blocking_of cs)).
Proof.
  revert prev en bl. induction cs as [|c cs IH]; intros prev en bl; cbn [build_loop].
  { split; [done|]. intros r. cbn. rewrite !app_nil_r. split.
    - intros. split_and!; [constructor|done|congruence].
    - intros (_ & _ & ->). done. }
  destruct (validateClassification_spec c) as [Hp Hv]. setoid_rewrite Forall_cons. setoid_rewrite <- Hv.
  destruct (validateClassification c) as [[]|?|]; cbn [bind];
    [|split; [done|]; intros; split; [done|]; intros [[? _] _]; done|done].
  assert (Hval : row_valid c) by (by apply Hv).
  destruct (match prev with Some p => _ | None => false end) eqn:Ed.
  { split; [done|]. intros r. split; [done|]. intros (_ & [Hd _] & _). exfalso.
    destruct prev as [p|]; [|done]. apply (Hd p eq_refl). reflect_bools.
    rewrite compareClassifications_key in Ed. by apply (cmp_zero key_cmp) in Ed. }
  assert (Hd : forall p, prev = Some p -> ckey p <> ckey c).
  { intros p -> E. apply Z.eqb_neq in Ed. rewrite compareClassifications_key in Ed.
    destruct Ed. by apply cmp_eq. }
  rewrite resolve_valid by done. cbn [bind distinct_next entries_of blocking_of flat_map].
  unfold block_item. destruct (resolved c) as [e b] eqn:Er. cbn [fst snd].
  destruct b; (edestruct IH as [Hnp Hok]; split; [apply Hnp|]); intros r; rewrite Hok;
    unfold block_item; cbn [app]; rewrite <- ?app_assoc; cbn [app]; tauto.
Qed.
End Rows.

(** ** Sorted rows *)

Lemma distinct_next_NoDup cs prev :
  StronglySorted (le_of (key_gt ckey key_cmp)) cs -> distinct_next prev cs -> NoDup (map ckey cs).
Proof.
  intros Hs. revert prev. induction Hs as [|c cs Hs IH Hc]; intros prev Hd; [constructor|].
  cbn [map]. destruct Hd as [_ Hd]. constructor; [|by eapply IH].
  intros (x & Hx & Hin)%list_elem_of_fmap.
  destruct cs as [|h cs]; [by apply not_elem_of_nil in Hin|].
  destruct Hd as [Hh _]. specialize (Hh c eq_refl).
  apply Forall_cons in Hc as [Hch Hc]. apply Hh. apply (key_le_antisym ckey key_cmp); [done|].
  apply StronglySorted_inv in Hs as [_ Hs].
  assert (Hhx : le_of (key_gt ckey key_cmp) h x).
  { apply elem_of_cons in Hin as [->|Hin]; [|rewrite Forall_forall in Hs; by apply Hs].
    apply key_le. rewrite (proj2 (cmp_eq _ _)) by done. lia. }
  rewrite key_le in *. by rewrite Hx.
Qed.

Lemma NoDup_distinct_next cs prev :
  NoDup (map ckey (match prev with Some p => p :: cs | None => cs end)) -> distinct_next prev cs.
Proof.
  revert prev. induction cs as [|c cs IH]; intros prev Hnd; [done|]. split.
  - intros p ->. cbn in Hnd. apply NoDup_cons in Hnd as [Hnd _]. intros E. apply Hnd. rewrite E. left.
  - apply (IH (Some c)). destruct prev; [|done]. by apply NoDup_cons in Hnd as [_ Hnd].
Qed.

(** The rows [Build] goes through: the loop succeeds exactly on valid rows with
    distinct keys. *)
Lemma sorted_rows cs wa ra :
  let sorted := sortClassifications cs in
  build_loop None sorted wa ra [] [] <> Panic /\
  (forall r, build_loop None sorted wa ra [] [] = Ok r <->
     Forall row_valid cs /\ NoDup (map ckey cs) /\
     r = (entries_of wa ra sorted, blocking_of wa ra sorted)).
Proof.
  intros sorted. destruct (build_loop_spec wa ra sorted None [] []) as [Hp Hok].
  split; [done|]. intros r. rewrite Hok. cbn [app].
  assert (Hperm : sorted ≡ₚ cs) by apply insertion_sort_perm.
  assert (Forall row_valid sorted <-> Forall row_valid cs) as -> by (by rewrite Hperm).
  assert (distinct_next None sorted <-> NoDup (map ckey cs)) as ->; [|done].
  rewrite <- Hperm. split.
  - apply distinct_next_NoDup. unfold sorted. rewrite sortClassifications_key.
    apply (sort_key_sorted ckey key_cmp).
  - apply (NoDup_distinct_next sorted None).
Qed.

(** Bring in [sorted_rows] for the loop in the goal. *)
Ltac rows Hp Hok :=
  match goal with |- context [build_loop None (sortClassifications ?cs) ?wa ?ra [] []] =>
    destruct (sorted_rows cs wa ra) as [Hp Hok] end.

(** ** Order of acquisition *)

(** The same input with its rows and its policy lists in another order. *)
Definition reordered (a b : CanonicalInput) : Prop :=
  ManifestDigest a = ManifestDigest b /\ CapabilityVectorDigest a = CapabilityVectorDigest b /\
  ConfigurationDigest a = ConfigurationDigest b /\ ILimits a = ILimits b /\
  Classifications a ≡ₚ Classifications b /\
  WrapAllowList (IPolicy a) ≡ₚ WrapAllowList (IPolicy b) /\
  RepresentationAllowList (IPolicy a) ≡ₚ RepresentationAllowList (IPolicy b).

Lemma encode_components_no_panic path : encode_components path <> Panic.
Proof.
  induction path as [|c path IH]; cbn; [done|]. case_if; [done|].
  by destruct (encode_components path).
Qed.

Lemma encodeEntry_no_panic e : encodeEntry e <> Panic.
Proof.
  unfold encodeEntry. case_if; [done|]. pose proof (encode_components_no_panic (EPath e)).
  by destruct (encode_components _).
Qed.

Lemma append_entries_no_panic es buf : append_entries buf es <> Panic.
Proof.
  revert buf. induction es as [|e es IH]; intros buf; cbn; [done|].
  pose proof (encodeEntry_no_panic e). destruct (encodeEntry e); cbn; [apply IH|done|done].
Qed.

Lemma measurePlanBody_no_panic es : measurePlanBody es <> Panic.
Proof.
  induction es as [|e es IH]; cbn; [done|].
  pose proof (encodeEntry_no_panic e). destruct (encodeEntry e); cbn; try done.
  by destruct (measurePlanBody es).
Qed.

Lemma encodePlan_no_panic m c g es d : encodePlan m c g es d <> Panic.
Proof.
  unfold encodePlan. case_if; [done|]. pose proof (measurePlanBody_no_panic es).
  destruct (measurePlanBody es); cbn [bind]; try done.
  match goal with |- context [append_entries ?b es] => pose proof (append_entries_no_panic es b) end.
  by destruct (append_entries _ _).
Qed.

Lemma Build_returns inp : Build inp <> Panics.
Proof.
  unfold Build. destruct (_ <? _); [done|]. destruct (_ <? _); [done|].
  rows Hp Hok. destruct (build_loop _ _ _ _ _ _) as [[en bl]|e|]; [|done|done].
  destruct (_ <? _); [done|].
  match goal with |- context [encodePlan ?a ?b ?c ?d ?e] => pose proof (encodePlan_no_panic a b c d e) end.
  destruct (encodePlan _ _ _ _ _) as [[doc dg]|e|]; [|done|done]. by destruct (_ <? _).
Qed.

Lemma reordered_Build a b :
  reordered a b -> NoDup (map ckey (Classifications a)) -> Build a = Build b.
Proof.
  intros (Hm & Hc & Hg & Hl & Hp & Hw & Hr) Hnd. unfold Build. rewrite Hm, Hc, Hg, Hl.
  assert (len (Classifications a) = len (Classifications b)) as -> by (unfold len; by rewrite Hp).
  assert (sortClassifications (Classifications a) = sortClassifications (Classifications b)) as ->.
  { rewrite !sortClassifications_key. by apply sort_key_canonical; [apply _|..]. }
  rewrite (sortUint16_canonical _ _ Hw), (sortUint16_canonical _ _ Hr). done.
Qed.

(** Rows with one key have no plan. *)
Lemma duplicate_rows inp :
  ~ NoDup (map ckey (Classifications inp)) ->
  exists e, Build inp = Returns zero (mkPreflight []) (Some e).
Proof.
  intros Hd. unfold Build. destruct (_ <? _); [eauto|]. destruct (_ <? _); [eauto|].
  rows Hp Hok. destruct (build_loop _ _ _ _ _ _) as [r|e|]; [|eauto|done].
  exfalso. apply Hd. by apply (Hok r).
Qed.

(** C35. The order of acquisition does not matter: for the same rows and policy
    lists in any other order, [Build] returns the same plan and the same
    preflight, and fails on one input exactly when it fails on the other; the
    errors agree too unless two rows have one path, capability and action. *)
Theorem Build_order_independent a b :
  reordered a b ->
  (NoDup (map ckey (Classifications a)) -> Build a = Build b) /\
  match Build a, Build b with
  | Returns p pf err, Returns p' pf' err' => p = p' /\ pf = pf' /\ (err = None <-> err' = None)
  | _, _ => False
  end.
Proof.
  intros Hr. split; [by apply reordered_Build|].
  destruct (decide (NoDup (map ckey (Classifications a)))) as [Hnd|Hnd].
  - rewrite (reordered_Build a b) by done. pose proof (Build_returns b). by destruct (Build b).
  - destruct (duplicate_rows a Hnd) as [e ->].
    assert (Hnd' : ~ NoDup (map ckey (Classifications b))).
    { destruct Hr as (_ & _ & _ & _ & Hp & _). by rewrite <- Hp. }
    destruct (duplicate_rows b Hnd') as [e' ->]. done.
Qed.

(** ** The document *)

Definition component_bytes (path : list bytes) : bytes :=
  concat (map (fun c => le_bytes 2 (len c) ++ c) path).

Definition entry_bytes (e : Entry) : bytes :=
  le_bytes 2 (len (EPath e)) ++ component_bytes (EPath e) ++
  le_bytes 2 (ECapabilityID e) ++ le_bytes 2 (EAction e) ++ le_bytes 2 (EResult e) ++
  le_bytes 2 (RepresentationID e) ++ EAuxDigest e.

Definition path_fits (path : list bytes) : Prop :=
  len path <= MaxUint16 /\ Forall (fun c => len c <= MaxUint16) path.

Lemma encode_components_ok path :
  Forall (fun c => len c <= MaxUint16) path -> encode_components path = Ok (component_bytes path).
Proof.
  induction 1 as [|c path Hc Hp IH]; cbn [encode_components]; [done|].
  replace (MaxUint16 <? len c) with false by lia. rewrite IH. cbn [bind].
  pose proof (len_nonneg c). rewrite u16_small by (unfold is_u16, MaxUint16 in *; lia).
  unfold component_bytes. cbn [map concat]. by rewrite <- app_assoc.
Qed.

Lemma encodeEntry_ok e : path_fits (EPath e) -> encodeEntry e = Ok (entry_bytes e).
Proof.
  intros [Hl Hc]. unfold encodeEntry. replace (MaxUint16 <? len (EPath e)) with false by lia.
  rewrite encode_components_ok by done. cbn [bind]. pose proof (len_nonneg (EPath e)).
  rewrite u16_small by (unfold is_u16, MaxUint16 in *; lia). done.
Qed.

Lemma append_entries_ok es buf :
  Forall (fun e => path_fits (EPath e)) es ->
  append_entries buf es = Ok (buf ++ concat (map entry_bytes es)).
Proof.
  intros Hf. revert buf. induction Hf as [|e es He Hes IH]; intros buf; cbn [append_entries map concat].
  { by rewrite app_nil_r. }
  rewrite encodeEntry_ok by done. cbn [bind]. by rewrite IH, <- app_assoc.
Qed.

Lemma measurePlanBody_ok es :
  Forall (fun e => path_fits (EPath e)) es ->
  measurePlanBody es = Ok (len (concat (map entry_bytes es))).
Proof.
  induction 1 as [|e es He Hes IH]; cbn [measurePlanBody map concat]; [done|].
  rewrite encodeEntry_ok by done. cbn [bind]. by rewrite IH, len_app.
Qed.

(** What the digest of a plan is taken over. *)
Definition plan_body (m c g : bytes) (es : list Entry) : bytes :=
  PlanMagic ++ le_bytes 2 PlanVersion ++ m ++ c ++ g ++ le_bytes 4 (len es) ++
  concat (map entry_bytes es) ++ sha256 (encodeDestructiveSubset es).

Lemma encodePlan_ok m c g es :
  len es <= MaxUint32 -> Forall (fun e => path_fits (EPath e)) es ->
  encodePlan m c g es (sha256 (encodeDestructiveSubset es)) =
  Ok (plan_body m c g es ++ sha256 (plan_body m c g es), sha256 (plan_body m c g es)).
Proof.
  intros Hl Hf. unfold encodePlan. replace (MaxUint32 <? len es) with false by lia.
  rewrite measurePlanBody_ok by done. cbn [bind]. rewrite append_entries_ok by done. cbn [bind].
  pose proof (len_nonneg es). rewrite u32_small by (unfold is_u32, MaxUint32 in *; lia).
  assert (E : forall a b v x y z d r s : bytes,
    ((a ++ b ++ v ++ x ++ y ++ z) ++ d) ++ s = a ++ b ++ v ++ x ++ y ++ z ++ d ++ s).
  { intros. by rewrite <- !app_assoc. }
  rewrite E by exact []. done.
Qed.

(** Entries with fields of their widths. *)
Definition wf_entry (e : Entry) : Prop :=
  path_fits (EPath e) /\ is_u16 (ECapabilityID e) /\ is_u16 (EAction e) /\ is_u16 (EResult e) /\
  is_u16 (RepresentationID e) /\ len (EAuxDigest e) = 32.

Lemma le2_app_inj v w (r s : bytes) :
  is_u16 v -> is_u16 w -> le_bytes 2 v ++ r = le_bytes 2 w ++ s -> v = w /\ r = s.
Proof.
  intros Hv Hw E. apply app_inj_1 in E as [Ev E]; [|by rewrite !length_le_bytes].
  apply le_bytes_inj in Ev; done.
Qed.

Lemma component_bytes_inj p q r s :
  length p = length q -> Forall (fun c => len c <= MaxUint16) p ->
  Forall (fun c => len c <= MaxUint16) q ->
  component_bytes p ++ r = component_bytes q ++ s -> p = q /\ r = s.
Proof.
  intros Hl Hp. revert q Hl. induction Hp as [|c p Hc Hp IH]; intros [|d q] Hl Hq E;
    try discriminate Hl; [done|].
  apply Forall_cons in Hq as [Hd Hq]. unfold component_bytes in E. cbn [map concat] in E.
  rewrite <- !app_assoc in E. pose proof (len_nonneg c). pose proof (len_nonneg d).
  apply le2_app_inj in E as [El E]; [|unfold is_u16, MaxUint16 in *; lia..].
  apply app_inj_1 in E as [-> E]; [|unfold len in El; lia].
  apply IH in E as [-> ->]; [done|cbn in Hl; lia|done].
Qed.

Lemma entry_bytes_inj e f r s :
  wf_entry e -> wf_entry f -> entry_bytes e ++ r = entry_bytes f ++ s -> e = f /\ r = s.
Proof.
  intros ([Hl1 Hp1] & ? & ? & ? & ? & Ha1) ([Hl2 Hp2] & ? & ? & ? & ? & Ha2) E.
  unfold entry_bytes in E. rewrite <- !app_assoc in E.
  pose proof (len_nonneg (EPath e)). pose proof (len_nonneg (EPath f)).
  apply le2_app_inj in E as [El E]; [|unfold is_u16, MaxUint16 in *; lia..].
  apply component_bytes_inj in E as [Ep E]; [|unfold len in El; lia|done..].
  do 4 (apply le2_app_inj in E as [? E]; [|done..]).
  apply app_inj_1 in E as [? ->]; [|unfold len in *; lia].
  destruct e, f; cbn in *; subst. done.
Qed.

Lemma entries_inj es fs r s :
  length es = length fs -> Forall wf_entry es -> Forall wf_entry fs ->
  concat (map entry_bytes es) ++ r = concat (map entry_bytes fs) ++ s -> es = fs /\ r = s.
Proof.
  intros Hl He. revert fs Hl. induction He as [|e es He Hes IH]; intros [|f fs] Hl Hf E;
    try discriminate Hl; [done|].
  apply Forall_cons in Hf as [Hf Hfs]. cbn [map concat] in E. rewrite <- !app_assoc in E.
  apply entry_bytes_inj in E as [-> E]; [|done..].
  apply IH in E as [-> ->]; [done|cbn in Hl; lia|done].
Qed.

Lemma plan_body_inj m c g es m' c' g' es' :
  len m = 32 -> len c = 32 -> len g = 32 -> len m' = 32 -> len c' = 32 -> len g' = 32 ->
  len es <= MaxUint32 -> len es' <= MaxUint32 -> Forall wf_entry es -> Forall wf_entry es' ->
  plan_body m c g es = plan_body m' c' g' es' -> m = m' /\ c = c' /\ g = g' /\ es = es'.
Proof.
  unfold len, plan_body. intros ? ? ? ? ? ? Hl Hl' Hw Hw' E.
  do 2 (apply app_inj_1 in E as [_ E]; [|done]).
  do 3 (apply app_inj_1 in E as [? E]; [|lia]).
  apply app_inj_1 in E as [El E]; [|by rewrite !length_le_bytes].
  apply le_bytes_inj in El; [|change (256 ^ Z.of_nat 4) with 4294967296; unfold len, MaxUint32 in *; lia..].
  apply entries_inj in E as [? _]; [|unfold len in El; lia|done..]. done.
Qed.

(** ** What a row becomes *)

(** The row [c] is planned as the entry [e]: the same path, capability, action,
    result and digest, and the least representation the policy allows. *)
Definition planned (pol : Policy) (c : Classification) (e : Entry) : Prop :=
  EPath e = CPath c /\ ECapabilityID e = CCapabilityID c /\ EAction e = CAction c /\
  EResult e = CResult c /\ EAuxDigest e = CAuxDigest c /\ KnownCapability (CCapabilityID c) = true /\
  ((CResult c = ResultLossless /\
    representation_spec (RepresentationIDs c) (RepresentationAllowList pol) true
      (RepresentationID e, true)) \/
   (CResult c = ResultWrapped /\
    representation_spec (RepresentationIDs c) (WrapAllowList pol) false (RepresentationID e, true))).

(** The row [c] blocks with the result [r]. *)
Definition blocked (pol : Policy) (c : Classification) (r : Z) : Prop :=
  (KnownCapability (CCapabilityID c) = false /\ r = ResultUnknown) \/
  (KnownCapability (CCapabilityID c) = true /\ BlocksAuthorization (CResult c) = true /\
   r = CResult c) \/
  (KnownCapability (CCapabilityID c) = true /\ r = ResultPolicyForbidden /\
   ((CResult c = ResultLossless /\
     representation_spec (RepresentationIDs c) (RepresentationAllowList pol) true (0, false)) \/
    (CResult c = ResultWrapped /\
     representation_spec (RepresentationIDs c) (WrapAllowList pol) false (0, false)))).

Lemma eligible_perm l l' ea id : l ≡ₚ l' -> eligible l ea id = eligible l' ea id.
Proof.
  intros Hp. unfold eligible. assert (len l = len l') as -> by (unfold len; by rewrite Hp).
  f_equal. destruct (_ <? _); [|done]. apply eq_iff_eq_true. unfold allowContains.
  rewrite !existsb_exists. setoid_rewrite <- list_elem_of_In. by setoid_rewrite Hp.
Qed.

Lemma representation_spec_perm cs l l' ea r :
  l ≡ₚ l' -> representation_spec cs l ea r -> representation_spec cs l' ea r.
Proof.
  intros Hp. unfold representation_spec.
  pose proof (fun id => eligible_perm l l' ea id Hp) as He. destruct (r.2).
  - intros [(H1 & H2 & H3)|H]; [left|by right].
    rewrite <- He. split_and!; [done..|]. intros id. rewrite <- He. apply H3.
  - intros (H1 & H2 & H3). split_and!; [done| |done]. intros id. rewrite <- He. apply H2.
Qed.

(** With the policy lists sorted, as [Build] has them. *)
Definition resolved_by (pol : Policy) : Classification -> Entry * bool :=
  resolved (sortUint16 (WrapAllowList pol)) (sortUint16 (RepresentationAllowList pol)).

Lemma picked cs allow ea :
  representation_spec cs allow ea (pickRepresentation cs (sortUint16 allow) ea).
Proof.
  eapply representation_spec_perm; [apply sortUint16_perm|]. apply pickRepresentation_spec.
Qed.

Lemma resolved_by_spec pol c :
  row_valid c ->
  let r := resolved_by pol c in
  if r.2 then blocked pol c (EResult r.1) else planned pol c r.1.
Proof.
  intros (_ & _ & Hr & _). unfold resolved_by, resolved, resolveClassification, planned, blocked.
  destruct (KnownCapability _); cbn [negb]; [|cbn; auto].
  destruct (BlocksAuthorization _) eqn:Eb; [cbn; tauto|].
  pose proof (picked (RepresentationIDs c) (RepresentationAllowList pol) true) as H1.
  pose proof (picked (RepresentationIDs c) (WrapAllowList pol) false) as H2.
  destruct (CResult c =? ResultLossless) eqn:E1; reflect_bools.
  { destruct (pickRepresentation _ _ _) as [id []]; cbn [negb andb].
    - cbn. tauto.
    - destruct H1 as (H10 & H11 & H12). cbn in H10. subst id.
      destruct (0 <? len (RepresentationIDs c)) eqn:El; reflect_bools.
      + cbn -[representation_spec]. unfold representation_spec at 1. cbn. tauto.
      + destruct H12. split; [|done]. apply len_zero_nil. pose proof (len_nonneg (RepresentationIDs c)). lia. }
  destruct (CResult c =? ResultWrapped) eqn:E2; reflect_bools.
  { clear H1. destruct (pickRepresentation _ _ _) as [id []]; cbn [negb andb]; [cbn; tauto|].
    destruct H2 as (H20 & H21 & H22). cbn in H20. subst id. cbn. tauto. }
  exfalso. unfold ValidResult, BlocksAuthorization, ResultLossless, ResultWrapped, ResultUnknown,
    ResultUnrepresentable, ResultPolicyForbidden in *. reflect_bools. lia.
Qed.

Lemma planned_not_blocked pol c e r : planned pol c e -> ~ blocked pol c r.
Proof.
  intros (_ & _ & _ & _ & _ & Hk & Hp) [[? _]|[(_ & Hb & _)|(_ & _ & Hr)]]; [congruence|..].
  - destruct Hp as [[E _]|[E _]]; rewrite E in Hb; done.
  - unfold representation_spec in *. cbn in Hp, Hr.
    destruct Hp as [[E Hp]|[E Hp]], Hr as [[E' Hr]|[E' Hr]]; rewrite E in E'; try done;
      destruct Hr as (_ & H2 & H3), Hp as [(Hi & He & _)|(? & ? & _)]; try tauto;
      rewrite H2 in He; done.
Qed.

Lemma resolved_key pol c : row_valid c -> (resolved_by pol c).2 = false -> ekey (resolved_by pol c).1 = ckey c.
Proof.
  intros Hv Hb. pose proof (resolved_by_spec pol c Hv) as H. cbn zeta in H. rewrite Hb in H.
  destruct H as (E1 & E2 & E3 & _). unfold ekey, ckey. by rewrite E1, E2, E3.
Qed.

Lemma entries_of_unblocked wa ra cs :
  blocking_of wa ra cs = [] ->
  entries_of wa ra cs = map (fun c => (resolved wa ra c).1) cs /\
  Forall (fun c => (resolved wa ra c).2 = false) cs.
Proof.
  unfold entries_of, blocking_of.
  induction cs as [|c cs IH]; cbn; [split; [done|constructor]|].
  destruct (resolved wa ra c).2 eqn:E; cbn; [done|].
  intros H. destruct (IH H) as [-> ?]. split; [done|by constructor].
Qed.

Lemma path_valid_fits c : row_valid c -> path_fits (CPath c).
Proof.
  intros [Hp _]. unfold PathGrammar.ValidateComponentsDefault, PathGrammar.ValidateComponents in Hp.
  destruct (_ =? 0); [done|]. destruct (_ <? _) eqn:E; [done|]. reflect_bools.
  apply PathGrammar.validate_loop_ok in Hp as [Hc _]; [|done].
  unfold PathGrammar.MaxComponents in E. split; [unfold MaxUint16; lia|].
  eapply Forall_impl; [exact Hc|]. intros x [Hx _]. unfold PathGrammar.MaxComponentBytes in Hx.
  unfold MaxUint16. lia.
Qed.

(** ** The outcome of Build *)

(** The widths the Go types give. *)
Definition wf_row (c : Classification) : Prop :=
  is_u16 (CCapabilityID c) /\ is_u16 (CAction c) /\ is_u16 (CResult c) /\
  Forall is_u16 (RepresentationIDs c) /\ len (CAuxDigest c) = 32.

Definition wf_input (inp : CanonicalInput) : Prop :=
  len (ManifestDigest inp) = 32 /\ len (CapabilityVectorDigest inp) = 32 /\
  len (ConfigurationDigest inp) = 32 /\ Forall wf_row (Classifications inp) /\
  is_u32 (MaxEntries (ILimits inp)).

(** The entries of a plan, and its body. *)
Definition plan_entries (inp : CanonicalInput) : list Entry :=
  sortEntries (map (fun c => (resolved_by (IPolicy inp) c).1) (sortClassifications (Classifications inp))).

Definition body_of (inp : CanonicalInput) : bytes :=
  plan_body (ManifestDigest inp) (CapabilityVectorDigest inp) (ConfigurationDigest inp) (plan_entries inp).

Definition plan_of (inp : CanonicalInput) : PlanDoc :=
  mkPlan (body_of inp ++ sha256 (body_of inp)) (sha256 (body_of inp)).

Definition blockers (inp : CanonicalInput) : list BlockingItem :=
  blocking_of (sortUint16 (WrapAllowList (IPolicy inp)))
    (sortUint16 (RepresentationAllowList (IPolicy inp))) (sortClassifications (Classifications inp)).

Definition within_counts (inp : CanonicalInput) : Prop :=
  len (Classifications inp) <= MaxCapabilityComparisons (Resolve (ILimits inp)) /\
  len (Classifications inp) <= MaxEntries (Resolve (ILimits inp)).

Lemma plan_entries_perm inp :
  plan_entries inp ≡ₚ map (fun c => (resolved_by (IPolicy inp) c).1) (Classifications inp).
Proof.
  unfold plan_entries. unfold sortEntries at 1. rewrite insertion_sort_perm.
  apply Permutation_map. apply insertion_sort_perm.
Qed.

(** Every row is valid and none blocks. *)
Definition all_planned (inp : CanonicalInput) : Prop :=
  Forall row_valid (Classifications inp) /\ NoDup (map ckey (Classifications inp)) /\
  Forall (fun c => (resolved_by (IPolicy inp) c).2 = false) (Classifications inp).

Lemma plan_entries_planned inp :
  all_planned inp ->
  Forall2 (planned (IPolicy inp)) (Classifications inp)
    (map (fun c => (resolved_by (IPolicy inp) c).1) (Classifications inp)).
Proof.
  intros (Hv & _ & Hb). induction Hv as [|c cs Hc Hcs IH]; constructor.
  - apply Forall_cons in Hb as [Hb _]. pose proof (resolved_by_spec (IPolicy inp) c Hc) as H.
    cbn zeta in H. by rewrite Hb in H.
  - apply IH. by apply Forall_cons in Hb as [_ Hb].
Qed.

Lemma plan_entries_wf inp : wf_input inp -> all_planned inp -> Forall wf_entry (plan_entries inp).
Proof.
  intros (_ & _ & _ & Hw & _) Hp. pose proof (plan_entries_planned _ Hp) as Hpl.
  destruct Hp as (Hv & _ & _). rewrite plan_entries_perm. revert Hv Hw.
  induction Hpl as [|c e cs es Hpe Hes IH]; intros Hv Hw; constructor.
  - apply Forall_cons in Hv as [Hv _]. apply Forall_cons in Hw as [(? & ? & ? & Hr & ?) _].
    destruct Hpe as (E1 & E2 & E3 & E4 & E5 & _ & Hrep). unfold wf_entry.
    assert (is_u16 (RepresentationID e)).
    { rewrite Forall_forall in Hr. cbn in Hrep.
      destruct Hrep as [[_ [(Hi & _)|(_ & _ & E)]]|[_ [(Hi & _)|(_ & _ & E)]]];
        [by apply Hr|rewrite E; unfold is_u16; lia|by apply Hr|rewrite E; unfold is_u16; lia]. }
    rewrite E1, E2, E3, E4, E5. split; [by apply path_valid_fits|tauto].
  - apply IH; [by apply Forall_cons in Hv as [_ Hv]|by apply Forall_cons in Hw as [_ Hw]].
Qed.

Lemma wf_entries_fit es : Forall wf_entry es -> Forall (fun e => path_fits (EPath e)) es.
Proof. intros H. eapply Forall_impl; [exact H|]. by intros e [? _]. Qed.

Lemma Resolve_u32 l : is_u32 (MaxEntries l) -> MaxEntries (Resolve l) <= MaxUint32.
Proof. unfold is_u32, MaxUint32. intros H. cbn. case_if; [vm_compute; congruence|lia]. Qed.

Lemma len_plan_entries inp : len (plan_entries inp) = len (Classifications inp).
Proof. unfold len. by rewrite plan_entries_perm, length_map. Qed.

(** The unblocked path of [Build], and its blocked one. *)
Lemma Build_planned inp :
  wf_input inp -> within_counts inp -> all_planned inp ->
  Build inp =
  if MaxPlanBytes (Resolve (ILimits inp)) <? len (Bytes (plan_of inp))
  then Returns zero (mkPreflight []) (Some (limit "plan_bytes"))
  else Returns (plan_of inp) (mkPreflight []) None.
Proof.
  intros Hwf [Hc1 Hc2] Hp. pose proof (plan_entries_wf _ Hwf Hp) as Hw.
  destruct Hp as (Hv & Hnd & Hb). unfold Build.
  replace (_ <? _) with false by lia. replace (_ <? _) with false by lia.
  rows Hp' Hok. rewrite (proj2 (Hok _) (conj Hv (conj Hnd eq_refl))).
  assert (Hbl : blockers inp = []).
  { unfold blockers, blocking_of. assert (Hb' : Forall (fun c => (resolved_by (IPolicy inp) c).2 = false)
      (sortClassifications (Classifications inp))) by (by rewrite sortClassifications_perm).
    clear -Hb'. induction Hb' as [|c cs Hc Hcs IH]; [done|]. cbn [flat_map].
    unfold resolved_by in Hc. by rewrite Hc, IH. }
  unfold blockers in Hbl. destruct (entries_of_unblocked _ _ _ Hbl) as [-> _]. rewrite Hbl.
  change (0 <? len []) with false. cbv iota zeta.
  change (sortEntries _) with (plan_entries inp).
  rewrite encodePlan_ok; [done| |by apply wf_entries_fit].
  rewrite len_plan_entries. destruct Hwf as (_ & _ & _ & _ & Hm). pose proof (Resolve_u32 _ Hm). lia.
Qed.

Lemma Build_cases inp p pf err :
  wf_input inp -> Build inp = Returns p pf err ->
  (err = None /\ p = plan_of inp /\ pf = mkPreflight [] /\ within_counts inp /\ all_planned inp /\
   len (Bytes p) <= MaxPlanBytes (Resolve (ILimits inp))) \/
  (exists e, err = Some e /\ p = zero /\
    (Blocking pf = [] \/
     (e = refuse "preflight" /\ Forall row_valid (Classifications inp) /\
      NoDup (map ckey (Classifications inp)) /\ pf = mkPreflight (blockers inp)))).
Proof.
  intros Hwf HB. destruct (decide (within_counts inp)) as [Hc|Hc]; cycle 1.
  { right. unfold within_counts in Hc. revert HB. unfold Build.
    destruct (_ <? _) eqn:E1; [intros HB; inversion HB; subst; by eauto 6|].
    reflect_bools. destruct (_ <? _) eqn:E2; [intros HB; inversion HB; subst; by eauto 6|]. reflect_bools. exfalso. lia. }
  destruct (decide (blockers inp = [] /\ is_ok (build_loop None
    (sortClassifications (Classifications inp)) (sortUint16 (WrapAllowList (IPolicy inp)))
    (sortUint16 (RepresentationAllowList (IPolicy inp))) [] []) = true)) as [[Hb Hi]|Hn].
  - assert (Hp : all_planned inp).
    { revert Hi. rows Hp' Hok. destruct (build_loop _ _ _ _ _ _) as [r| |]; [|done..]. intros _.
      destruct (proj1 (Hok r) eq_refl) as (Hv & Hnd & _). split_and!; [done..|].
      rewrite <- sortClassifications_perm. by apply entries_of_unblocked. }
    rewrite Build_planned in HB by done. destruct (_ <? _) eqn:E; reflect_bools; injection HB as <- <- <-.
    + right. eexists. split; [done|]. auto.
    + left. auto 7.
  - right. revert HB. destruct Hc as [Hc1 Hc2]. unfold Build.
    replace (_ <? _) with false by lia. replace (_ <? _) with false by lia. revert Hn.
    rows Hp' Hok. destruct (build_loop _ _ _ _ _ _) as [r|e|]; intros Hn; [|intros HB; inversion HB; subst; by eauto 6|done].
    destruct (proj1 (Hok r) eq_refl) as (Hv & Hnd & ->).
    assert (Hb : blockers inp <> []) by (intros E; by destruct Hn).
    unfold blockers in *. destruct (blocking_of _ _ _) as [|b bl]; [done|].
    rewrite len_cons. pose proof (len_nonneg bl). replace (0 <? 1 + len bl) with true by lia.
    intros HB. inversion HB; subst. eexists. split_and!; [done..|]. right. done.
Qed.

Lemma blocked_functional pol c r r' : blocked pol c r -> blocked pol c r' -> r = r'.
Proof.
  unfold blocked. intros [[? ?]|[(? & Hb & ?)|(? & ? & Hr)]] [[? ?]|[(? & Hb' & ?)|(? & ? & Hr')]];
    try congruence.
  - destruct Hr' as [[E _]|[E _]]; rewrite E in Hb; done.
  - destruct Hr as [[E _]|[E _]]; rewrite E in Hb'; done.
Qed.

Lemma elem_of_blocking pol cs it :
  Forall row_valid cs ->
  it ∈ blocking_of (sortUint16 (WrapAllowList pol)) (sortUint16 (RepresentationAllowList pol)) cs <->
  exists c, c ∈ cs /\ BPath it = CPath c /\ BCapabilityID it = CCapabilityID c /\
    blocked pol c (BResult it).
Proof.
  intros Hv. unfold blocking_of. rewrite list_elem_of_In, in_flat_map.
  setoid_rewrite <- list_elem_of_In. rewrite Forall_forall in Hv. split.
  - intros (c & Hc & Hit). pose proof (resolved_by_spec pol c (Hv c Hc)) as H. cbn zeta in H.
    unfold resolved_by in H. destruct (resolved _ _ c).2; [|by apply not_elem_of_nil in Hit].
    apply list_elem_of_singleton in Hit as ->. by exists c.
  - intros (c & Hc & E1 & E2 & Hb). exists c. split; [done|].
    pose proof (resolved_by_spec pol c (Hv c Hc)) as H. cbn zeta in H. unfold resolved_by in H.
    unfold block_item. destruct (resolved _ _ c) as [e []]; cbn [fst snd] in *.
    + apply list_elem_of_singleton. rewrite (blocked_functional _ _ _ _ H Hb), <- E1, <- E2.
      by destruct it.
    + exfalso. by eapply planned_not_blocked.
Qed.

(** The canonical order of blocking items: by path, then capability. *)
Definition item_le (a b : BlockingItem) : Prop :=
  paircmp (lexcmp bytes_Compare) cmpZ (BPath a, BCapabilityID a) (BPath b, BCapabilityID b) <= 0.

Lemma ckey_le_item wa ra a b :
  le_of (key_gt ckey key_cmp) a b -> item_le (block_item wa ra a) (block_item wa ra b).
Proof.
  rewrite key_le. unfold item_le, key_cmp, paircmp, ckey. cbn [fst snd block_item BPath BCapabilityID].
  destruct (lexcmp _ _ _ =? 0); [|done]. destruct (cmpZ _ _ =? 0) eqn:E; reflect_bools; [lia|done].
Qed.

Lemma blocking_sorted wa ra cs :
  StronglySorted (le_of (key_gt ckey key_cmp)) cs -> StronglySorted item_le (blocking_of wa ra cs).
Proof.
  induction 1 as [|c cs Hs IH Hc]; [constructor|]. unfold blocking_of. cbn [flat_map].
  destruct (resolved wa ra c).2; [|done]. cbn [app]. constructor; [done|].
  pose proof (proj1 (Forall_forall _ _) Hc) as Hc'. apply Forall_forall. intros it Hit.
  apply list_elem_of_In, in_flat_map in Hit as (d & Hd & Hit).
  apply list_elem_of_In in Hd, Hit. destruct (resolved wa ra d).2; [|by apply not_elem_of_nil in Hit].
  apply list_elem_of_singleton in Hit as ->. apply ckey_le_item. by apply Hc'.
Qed.

(** What [Build] returns.  Without an error: nothing blocks, every row is
    valid, and the document is the canonical encoding, within [MaxPlanBytes], of
    the entries the rows are planned as (each with the least representation the
    policy allows), sorted by path, capability and action without duplicates;
    its digest is the one [Digest] recomputes.  With an error the plan is the
    zero plan, and the preflight is empty or lists, in canonical order, exactly
    the rows that block, under the refusal. *)
Lemma Build_outcome inp p pf err :
  wf_input inp -> Build inp = Returns p pf err ->
  match err with
  | None =>
      Blocking pf = [] /\ Forall row_valid (Classifications inp) /\
      exists es sorted_es,
        Forall2 (planned (IPolicy inp)) (Classifications inp) es /\
        sorted_es ≡ₚ es /\ NoDup (map ekey sorted_es) /\
        StronglySorted (fun a b => compareEntries a b <= 0) sorted_es /\
        Bytes p = plan_body (ManifestDigest inp) (CapabilityVectorDigest inp)
                    (ConfigurationDigest inp) sorted_es ++ PDigest p /\
        PDigest p = Digest p /\ len (Bytes p) <= MaxPlanBytes (Resolve (ILimits inp))
  | Some e =>
      p = zero /\
      (Blocking pf <> [] ->
       e = refuse "preflight" /\ StronglySorted item_le (Blocking pf) /\
       forall it, it ∈ Blocking pf <->
         exists c, c ∈ Classifications inp /\ BPath it = CPath c /\
           BCapabilityID it = CCapabilityID c /\ blocked (IPolicy inp) c (BResult it))
  end.
Proof.
  intros Hwf HB. destruct (Build_cases _ _ _ _ Hwf HB)
    as [(-> & -> & -> & _ & Hp & Hl)|(e & -> & -> & Hpf)].
  - split; [done|]. split; [apply Hp|].
    exists (map (fun c => (resolved_by (IPolicy inp) c).1) (Classifications inp)), (plan_entries inp).
    pose proof (plan_entries_planned _ Hp) as Hpl. split; [done|]. split; [apply plan_entries_perm|].
    split_and!; [| |done| |done].
    + rewrite plan_entries_perm. destruct Hp as (_ & Hnd & _). clear -Hnd Hpl.
      enough (E : forall cs es, Forall2 (planned (IPolicy inp)) cs es -> map ekey es = map ckey cs)
        by (by rewrite (E _ _ Hpl)).
      clear. induction 1 as [|c e cs es (E1 & E2 & E3 & _) H IH]; [done|]. cbn [map].
      rewrite IH. unfold ekey, ckey. by rewrite E1, E2, E3.
    + unfold plan_entries. rewrite sortEntries_key.
      eapply StronglySorted_weaken; [|apply (sort_key_sorted ekey key_cmp)].
      intros a b. by rewrite compareEntries_key, <- key_le.
    + unfold Digest, plan_of. cbn [Bytes PDigest]. rewrite len_app, len_sha256.
      pose proof (len_nonneg (body_of inp)). replace (_ <? 32) with false by lia.
      rewrite sub_app_l by lia. rewrite sub_full by lia. done.
  - split; [done|]. intros Hne. destruct Hpf as [?|(-> & Hv & Hnd & ->)]; [done|].
    split; [done|]. split.
    + apply blocking_sorted. rewrite sortClassifications_key. apply (sort_key_sorted ckey key_cmp).
    + intros it. cbn [Blocking]. unfold blockers. rewrite elem_of_blocking
        by (by rewrite sortClassifications_perm).
      by setoid_rewrite sortClassifications_perm.
Qed.

(** ** Success, and what the digest determines *)

(** The length of the document for some rows. *)
Definition path_size (path : list bytes) : Z := fold_right (fun c n => 2 + len c + n) 0 path.
Definition plan_size (cs : list Classification) : Z :=
  174 + fold_right (fun c n => 42 + path_size (CPath c) + n) 0 cs.

Lemma len_component_bytes path : len (component_bytes path) = path_size path.
Proof.
  unfold component_bytes. induction path as [|c path IH]; [done|]. cbn [map concat path_size fold_right].
  fold (path_size path). rewrite !len_app, len_le_bytes, IH. lia.
Qed.

Lemma len_entry_bytes e : wf_entry e -> len (entry_bytes e) = 42 + path_size (EPath e).
Proof.
  intros (_ & _ & _ & _ & _ & Ha). unfold entry_bytes.
  rewrite !len_app, !len_le_bytes, len_component_bytes, Ha. lia.
Qed.

Lemma len_entries_perm es fs :
  es ≡ₚ fs -> len (concat (map entry_bytes es)) = len (concat (map entry_bytes fs)).
Proof. intros Hp. induction Hp; cbn [map concat]; rewrite ?len_app; lia. Qed.

Lemma len_plan_of inp :
  wf_input inp -> all_planned inp -> len (Bytes (plan_of inp)) = plan_size (Classifications inp).
Proof.
  intros Hwf Hp. pose proof (plan_entries_wf _ Hwf Hp) as Hw.
  pose proof (plan_entries_planned _ Hp) as Hpl. destruct Hwf as (Hm & Hc & Hg & _).
  unfold plan_of, body_of, plan_body. cbn [Bytes].
  rewrite !len_app, !len_le_bytes, !len_sha256, Hm, Hc, Hg.
  rewrite (len_entries_perm _ _ (plan_entries_perm inp)). rewrite plan_entries_perm in Hw.
  change (len PlanMagic) with 8. unfold plan_size.
  enough (E : forall cs es, Forall2 (planned (IPolicy inp)) cs es -> Forall wf_entry es ->
    len (concat (map entry_bytes es)) = fold_right (fun c n => 42 + path_size (CPath c) + n) 0 cs)
    by (rewrite (E _ _ Hpl Hw); lia).
  clear. induction 1 as [|c e cs es (Ep & _) H IH]; intros Hw; [done|].
  apply Forall_cons in Hw as [He Hw]. cbn [map concat fold_right].
  rewrite len_app, len_entry_bytes, Ep, IH by done. lia.
Qed.

(** Planning succeeds whenever it should: when the rows are within the
    limits, valid, distinct, none blocks, and the document fits, [Build] returns
    a plan and no blocker. *)
Lemma Build_succeeds inp :
  wf_input inp -> within_counts inp -> Forall row_valid (Classifications inp) ->
  NoDup (map ckey (Classifications inp)) ->
  (forall c r, c ∈ Classifications inp -> ~ blocked (IPolicy inp) c r) ->
  plan_size (Classifications inp) <= MaxPlanBytes (Resolve (ILimits inp)) ->
  exists p, Build inp = Returns p (mkPreflight []) None.
Proof.
  intros Hwf Hc Hv Hnd Hb Hs.
  assert (Hp : all_planned inp).
  { split_and!; [done..|]. apply Forall_forall. intros c Hin.
    pose proof (resolved_by_spec (IPolicy inp) c (proj1 (Forall_forall _ _) Hv c Hin)) as H.
    cbn zeta in H. destruct (resolved_by _ c).2; [|done]. by apply Hb in H. }
  rewrite Build_planned, len_plan_of by done. replace (_ <? _) with false by lia. eauto.
Qed.

(** The plan digest determines what was planned: two plans with one digest
    were built for the same manifest, capability vector and configuration and
    hold the same entries, unless the two plan bodies are themselves a SHA-256
    collision. *)
Lemma plan_digest_binds a b p q pf pf' :
  wf_input a -> wf_input b ->
  Build a = Returns p pf None -> Build b = Returns q pf' None -> PDigest p = PDigest q ->
  (ManifestDigest a = ManifestDigest b /\ CapabilityVectorDigest a = CapabilityVectorDigest b /\
   ConfigurationDigest a = ConfigurationDigest b /\ plan_entries a = plan_entries b /\ p = q) \/
  (body_of a <> body_of b /\ sha256 (body_of a) = sha256 (body_of b)).
Proof.
  intros Ha Hb HA HB Hd.
  destruct (Build_cases _ _ _ _ Ha HA) as [(_ & -> & -> & Hca & Hpa & _)|(? & ? & _)]; [|done].
  destruct (Build_cases _ _ _ _ Hb HB) as [(_ & -> & -> & Hcb & Hpb & _)|(? & ? & _)]; [|done].
  destruct (decide (body_of a = body_of b)) as [E|Hne]; [left|by right].
  unfold plan_of. rewrite E. unfold body_of in E.
  pose proof (plan_entries_wf _ Ha Hpa). pose proof (plan_entries_wf _ Hb Hpb).
  destruct Ha as (? & ? & ? & _ & Hma), Hb as (? & ? & ? & _ & Hmb).
  apply Resolve_u32 in Hma, Hmb. destruct Hca as [_ Hca], Hcb as [_ Hcb].
  apply plan_body_inj in E; try done; [tauto|rewrite len_plan_entries; lia..].
Qed.

(** ** Witnesses *)

Definition c_create : Classification :=
  mkClassification [str "src"; str "main.go"] CapIdentity ActionCreate ResultLossless [7; 3] (zeros 32).
Definition c_wrap : Classification :=
  mkClassification [str "docs"] 7 ActionReplace ResultWrapped [9; 5; 4] (zeros 32).
Definition c_unknown : Classification :=
  mkClassification [str "docs"] 99 ActionReplace ResultLossless [] (zeros 32).

Definition inp_demo (cs : list Classification) (wrap : list Z) : CanonicalInput :=
  mkCanonicalInput (zeros 32) (zeros 32) (zeros 32) cs (mkPolicy wrap []) (mkLimits 0 0 0).

(** The least allowed representations are picked, the rows are sorted, and an
    unknown capability blocks. *)
Example Build_demo :
  plan_entries (inp_demo [c_create; c_wrap] [5; 9]) =
    [mkEntry [str "docs"] 7 2 2 5 (zeros 32); mkEntry [str "src"; str "main.go"] 1 1 1 3 (zeros 32)] /\
  Build (inp_demo [c_create; c_unknown] [5; 9]) =
    Returns zero (mkPreflight [mkBlockingItem [str "docs"] 99 ResultUnknown])
      (Some (refuse "preflight")).
Proof. split; vm_compute; reflexivity. Qed.

Lemma wf_demo cs wrap : Forall wf_row cs -> wf_input (inp_demo cs wrap).
Proof. intros H. repeat split; try done. Defined.

Lemma wf_rows_demo : Forall wf_row [c_create; c_wrap].
Proof. repeat constructor; vm_compute; congruence. Defined.

Lemma valid_rows_demo : Forall row_valid [c_create; c_wrap].
Proof. repeat constructor; vm_compute; congruence. Defined.

Lemma nodup_demo : NoDup (map ckey [c_create; c_wrap]).
Proof. apply (bool_decide_unpack _). vm_compute. exact I. Defined.

Lemma unblocked_demo c r : c ∈ [c_create; c_wrap] -> ~ blocked (mkPolicy [5; 9] []) c r.
Proof.
  intros Hc. assert (Hv : row_valid c) by exact (proj1 (Forall_forall _ _) valid_rows_demo c Hc).
  pose proof (resolved_by_spec (mkPolicy [5; 9] []) c Hv) as H. cbn zeta in H.
  assert (Hb : (resolved_by (mkPolicy [5; 9] []) c).2 = false).
  { apply elem_of_cons in Hc as [->|Hc]; [reflexivity|].
    apply list_elem_of_singleton in Hc as ->. reflexivity. }
  rewrite Hb in H. by eapply planned_not_blocked.
Qed.

Lemma Build_succeeds_witness :
  exists p, Build (inp_demo [c_create; c_wrap] [5; 9]) = Returns p (mkPreflight []) None.
Proof.
  apply Build_succeeds; [exact (wf_demo _ _ wf_rows_demo)| |exact valid_rows_demo|exact nodup_demo| |].
  - split; vm_compute; congruence.
  - exact unblocked_demo.
  - vm_compute. congruence.
Defined.

Lemma Build_order_independent_witness :
  Build (inp_demo [c_create; c_wrap] [5; 9]) = Build (inp_demo [c_wrap; c_create] [9; 5]).
Proof.
  apply Build_order_independent; [|exact nodup_demo].
  repeat split; try done; apply Permutation_swap.
Defined.

Lemma demo_Build :
  Build (inp_demo [c_create; c_wrap] [5; 9]) =
  Returns (plan_of (inp_demo [c_create; c_wrap] [5; 9])) (mkPreflight []) None.
Proof.
  assert (Hp : all_planned (inp_demo [c_create; c_wrap] [5; 9])).
  { split; [exact valid_rows_demo|]. split; [exact nodup_demo|]. repeat constructor. }
  rewrite Build_planned; [|exact (wf_demo _ _ wf_rows_demo)|split; vm_compute; congruence|done].
  rewrite len_plan_of; [reflexivity|exact (wf_demo _ _ wf_rows_demo)|done].
Qed.

Lemma Build_outcome_witness :
  PDigest (plan_of (inp_demo [c_create; c_wrap] [5; 9])) =
  Digest (plan_of (inp_demo [c_create; c_wrap] [5; 9])).
Proof.
  destruct (Build_outcome _ _ _ _ (wf_demo _ _ wf_rows_demo) demo_Build)
    as (_ & _ & es & ss & _ & _ & _ & _ & _ & Hd & _).
  exact Hd.
Defined.

Lemma plan_digest_binds_witness :
  let a := inp_demo [c_create; c_wrap] [5; 9] in
  (ManifestDigest a = ManifestDigest a /\ CapabilityVectorDigest a = CapabilityVectorDigest a /\
   ConfigurationDigest a = ConfigurationDigest a /\ plan_entries a = plan_entries a /\
   plan_of a = plan_of a) \/
  (body_of a <> body_of a /\ sha256 (body_of a) = sha256 (body_of a)).
Proof.
  cbv zeta. eapply plan_digest_binds; [exact (wf_demo _ _ wf_rows_demo)..|exact demo_Build
    |exact demo_Build|reflexivity].
Defined.

End Plan.
