(* ===== verification/FsModel.v ===== *)
(** * Filesystem capabilities (internal/fsmodel: fsmodel.go)

    What a volume can represent is a vector of facts; a source is compared with the vector
    of the target before anything is authorized.  [preflight_exact]: the comparison lets a
    plan pass exactly when every capability the source needs is known on both sides and
    lossless or wrapped on both, and does not depend on the order of the facts.
    [vector_digest_binds]: the digest of a vector determines it. *)

From stdpp Require Import gmap.
From S2P Require Import Prelude Sha256 Sorting Codec Plan.
Import Sorting Codec Plan.

Module FsModel.

Record Fact := mkFact { ID : Z; Result : Z; DetailDigest : bytes }.

Record Vector := mkVector { VolumeIdentity : bytes; Facts : list Fact }.

(** The error's code; its message is left out. *)
Record Error := reject { Code : string }.

#[global] Instance Error_eq_dec : EqDecision Error.
Proof. solve_decision. Defined.

(** The checks of the sorted facts; [seen] holds the IDs so far. *)
Fixpoint check_facts (facts : list Fact) (seen : gset Z) : res Error unit :=
  match facts with
  | [] => Ok tt
  | f :: facts =>
      if negb (KnownCapability (ID f)) then Err (reject "capability") else
      if negb (ValidResult (Result f)) then Err (reject "result") else
      if bool_decide (ID f ∈ seen) then Err (reject "duplicate") else
      check_facts facts ({[ID f]} ∪ seen)
  end.

(** Go's sort leaves the order of equal IDs open; equal IDs are an error either way. *)
Definition normalizeFacts (facts : list Fact) : res Error (list Fact) :=
  let cp := sort_key ID cmpZ facts in
  let! _ := check_facts cp ∅ in Ok cp.

Definition NewVector (volume : bytes) (facts : list Fact) : res Error Vector :=
  if bool_decide (volume = zeros 32) then Err (reject "volume") else
  let! cp := normalizeFacts facts in
  Ok (mkVector volume cp).

Definition encode_fact (f : Fact) : bytes := le_bytes 2 (u16 (ID f)) ++ le_bytes 2 (u16 (Result f)) ++ DetailDigest f.

Definition encode_vector (v : Vector) : bytes :=
  VolumeIdentity v ++ le_bytes 2 (u16 (len (Facts v))) ++ concat (map encode_fact (Facts v)).

Definition Digest (v : Vector) : bytes := SHA256 (encode_vector v).

(** [Missing] says whether the reason is the missing target capability. *)
Record Issue := mkIssue { Capability : Z; Source : Z; Target : Z; Outcome : Z; Blocks : bool; Missing : bool }.

Record PreflightReport := mkReport { Allowed : bool; Issues : list Issue }.

Definition rank (r : Z) : Z :=
  if r =? ResultLossless then 1
  else if r =? ResultWrapped then 2
  else if r =? ResultPolicyForbidden then 3
  else if r =? ResultUnrepresentable then 4
  else 5.

Definition merge (src tgt : Z) : Z := if rank tgt <=? rank src then src else tgt.

(** A later fact replaces an earlier one of the same ID. *)
Definition index (facts : list Fact) : gmap Z Fact := fold_left (fun m f => <[ID f := f]> m) facts ∅.

Definition issue_of (idx : gmap Z Fact) (s : Fact) : Issue :=
  match idx !! ID s with
  | None => mkIssue (ID s) (Result s) ResultUnknown ResultUnknown (BlocksAuthorization ResultUnknown) true
  | Some t =>
      let outcome := merge (Result s) (Result t) in
      mkIssue (ID s) (Result s) (Result t) outcome (BlocksAuthorization outcome) false
  end.

Definition Compare (source : list Fact) (target : Vector) : res Error PreflightReport :=
  let! src := normalizeFacts source in
  let issues := map (issue_of (index (Facts target))) src in
  Ok (mkReport (negb (existsb Blocks issues)) (sort_key Capability cmpZ issues)).

Definition RequireNoSilentLoss (rep : PreflightReport) : res Error unit :=
  if Allowed rep then Ok tt else Err (reject "preflight").

(** ** Facts *)

Definition wf_fact (f : Fact) : Prop := KnownCapability (ID f) = true /\ ValidResult (Result f) = true.

Definition wf_facts (facts : list Fact) : Prop := Forall wf_fact facts /\ NoDup (map ID facts).

Lemma check_facts_exact facts seen : check_facts facts seen <> Panic /\
  (check_facts facts seen = Ok tt <-> wf_facts facts /\ Forall (fun f => ID f ∉ seen) facts).
Proof.
  revert seen. unfold wf_facts. induction facts as [|f facts IH]; intros seen; cbn [check_facts map].
  { split; [done|]. split; [|done]. repeat constructor. }
  rewrite !Forall_cons, NoDup_cons. unfold wf_fact at 1. destruct (KnownCapability (ID f)); cbn [negb]; [|naive_solver].
  destruct (ValidResult (Result f)); cbn [negb]; [|naive_solver]. case_bool_decide as Hs; [naive_solver|].
  destruct (IH ({[ID f]} ∪ seen)) as [Hp ->]. split; [done|]. rewrite !Forall_forall.
  assert (Hin : ID f ∉ map ID facts <-> forall g, g ∈ facts -> ID g <> ID f).
  { split; [intros Hn g Hg E; apply Hn; rewrite <- E; by apply list_elem_of_fmap_2|]. intros Hn (g & E & Hg)%list_elem_of_fmap. by apply (Hn g). }
  rewrite Hin. set_solver.
Qed.

Lemma wf_facts_perm a b : a ≡ₚ b -> wf_facts a -> wf_facts b.
Proof. intros Hp [Hf Hn]. split; [by rewrite <- Hp|]. by rewrite <- Hp. Qed.

(** The facts are accepted when they are well formed, in any order. *)
Lemma normalizeFacts_exact facts :
  (wf_facts facts /\ normalizeFacts facts = Ok (sort_key ID cmpZ facts)) \/ (~ wf_facts facts /\ exists e, normalizeFacts facts = Err e).
Proof.
  unfold normalizeFacts. destruct (check_facts_exact (sort_key ID cmpZ facts) ∅) as [Hp He].
  assert (Hs : wf_facts (sort_key ID cmpZ facts) <-> wf_facts facts) by (split; apply wf_facts_perm; unfold sort_key; by rewrite insertion_sort_perm).
  rewrite Hs in He. destruct (check_facts _ _) as [[]|e|]; [|right|done].
  - left. split; [by apply He|done].
  - split; [|by exists e]. intros Hw. enough (Err e = Ok tt) by done. apply He. split; [done|]. apply Forall_forall. set_solver.
Qed.

Lemma NewVector_facts volume facts v : NewVector volume facts = Ok v -> wf_facts facts /\ v = mkVector volume (sort_key ID cmpZ facts) /\ volume <> zeros 32.
Proof.
  unfold NewVector. case_bool_decide; [done|]. destruct (normalizeFacts_exact facts) as [[Hw ->]|[_ [e ->]]]; [|done]. by intros [= <-].
Qed.

(** ** The comparison *)

Lemma index_fold facts (m : gmap Z Fact) : NoDup (map ID facts) -> forall i f, fold_left (fun m f => <[ID f := f]> m) facts m !! i = Some f <->
  (f ∈ facts /\ ID f = i) \/ ((forall g, g ∈ facts -> ID g <> i) /\ m !! i = Some f).
Proof.
  revert m. induction facts as [|g facts IH]; intros m Hn i f; cbn [fold_left]; [set_solver|].
  cbn in Hn. apply NoDup_cons in Hn as [Hg Hn]. rewrite (IH _ Hn). destruct (decide (ID g = i)) as [<-|Hne].
  - rewrite lookup_insert_eq. split.
    + intros [[Hf E]|[_ [= <-]]]; [|left; set_solver]. exfalso. apply Hg. rewrite <- E. by apply list_elem_of_fmap_2.
    + intros [[Hf E]|[Hf _]]; [|exfalso; apply (Hf g); set_solver]. apply elem_of_cons in Hf as [->|Hf]; [|exfalso; apply Hg; rewrite <- E; by apply list_elem_of_fmap_2].
      right. split; [|done]. intros h Hh E'. apply Hg. rewrite <- E'. by apply list_elem_of_fmap_2.
  - rewrite lookup_insert_ne by done. set_solver.
Qed.

Lemma index_lookup facts i f : NoDup (map ID facts) -> index facts !! i = Some f <-> f ∈ facts /\ ID f = i.
Proof. intros Hn. unfold index. rewrite index_fold by done. rewrite lookup_empty. naive_solver. Qed.

(** The merged result blocks exactly when one of the two does. *)
Lemma merge_blocks a b : ValidResult a = true -> ValidResult b = true -> BlocksAuthorization (merge a b) = BlocksAuthorization a || BlocksAuthorization b.
Proof.
  unfold ValidResult, ResultLossless, ResultUnknown. intros Ha Hb. assert (Ha' : a ∈ [1; 2; 3; 4; 5]) by (assert (a = 1 \/ a = 2 \/ a = 3 \/ a = 4 \/ a = 5) by lia; set_solver).
  assert (Hb' : b ∈ [1; 2; 3; 4; 5]) by (assert (b = 1 \/ b = 2 \/ b = 3 \/ b = 4 \/ b = 5) by lia; set_solver). clear Ha Hb.
  repeat (apply elem_of_cons in Ha' as [->|Ha']; [repeat (apply elem_of_cons in Hb' as [->|Hb']; [reflexivity|]); by apply elem_of_nil in Hb'|]). by apply elem_of_nil in Ha'.
Qed.

(** Nothing is lost for this fact: the target has the capability, and neither side blocks. *)
Definition carried (target : Vector) (s : Fact) : Prop :=
  exists t, t ∈ Facts target /\ ID t = ID s /\ BlocksAuthorization (Result s) = false /\ BlocksAuthorization (Result t) = false.

Lemma issue_carried target s : wf_facts (Facts target) -> wf_fact s -> Blocks (issue_of (index (Facts target)) s) = false <-> carried target s.
Proof.
  intros [Hf Hn] [_ Hs]. unfold issue_of, carried. destruct (index (Facts target) !! ID s) as [t|] eqn:E.
  - pose proof E as E'. apply index_lookup in E' as [Ht Hi]; [|done]. rewrite Forall_forall in Hf. destruct (Hf t Ht) as [_ Hv]. cbn [Blocks]. rewrite merge_blocks by done.
    rewrite orb_false_iff. split; [intros [? ?]; exists t; auto|]. intros (t' & Ht' & Hi' & ? & ?).
    assert (E2 : index (Facts target) !! ID s = Some t') by (by apply index_lookup). rewrite E in E2. by injection E2 as <-.
  - split; [done|]. intros (t & Ht & Hi & _). assert (E2 : index (Facts target) !! ID s = Some t) by (by apply index_lookup). congruence.
Qed.

(** No silent loss.  A source is compared with the vector of the target.  The
    comparison is refused exactly when the facts of the source are malformed or repeated;
    otherwise it lists one issue for each of them in the order of the capabilities, does
    not depend on the order in which they were given, and passes exactly when the target
    has every capability of the source and none of the results on either side blocks. *)
Lemma preflight_exact source volume facts target :
  NewVector volume facts = Ok target ->
  match Compare source target with
  | Ok rep =>
      wf_facts source /\ (RequireNoSilentLoss rep = Ok tt <-> forall s, s ∈ source -> carried target s) /\
      StronglySorted Z.lt (map Capability (Issues rep)) /\
      Issues rep ≡ₚ map (issue_of (index (Facts target))) source /\
      forall source', source' ≡ₚ source -> Compare source' target = Ok rep
  | Err _ => ~ wf_facts source
  | Panic => False
  end.
Proof.
  intros (Hw & -> & _)%NewVector_facts. set (target := mkVector _ _).
  assert (Ht : wf_facts (Facts target)) by (eapply wf_facts_perm; [|exact Hw]; unfold target, sort_key; cbn; by rewrite insertion_sort_perm).
  unfold Compare. destruct (normalizeFacts_exact source) as [[Hs E]|[Hs [e E]]]; rewrite E; cbn [bind]; [|done].
  set (issues := map _ _). assert (Hc : map Capability issues = map ID (sort_key ID cmpZ source)).
  { unfold issues. rewrite map_map. apply map_ext. intros s. unfold issue_of. by destruct (_ !! _). }
  assert (Hp : sort_key ID cmpZ source ≡ₚ source) by (unfold sort_key; apply insertion_sort_perm).
  assert (Hnd : NoDup (map Capability issues)) by (rewrite Hc, Hp; apply Hs).
  split; [done|]. split_and!.
  - unfold RequireNoSilentLoss. cbn [Allowed]. assert (Ha : negb (existsb Blocks issues) = true <-> forall s, s ∈ source -> carried target s).
    { rewrite negb_true_iff, <- not_true_iff_false, existsb_exists. destruct Hs as [Hs _]. rewrite Forall_forall in Hs. split.
      - intros Hn s Hin. apply (issue_carried target s Ht (Hs s Hin)). apply not_true_iff_false. intros Hb. apply Hn. eexists. split; [|exact Hb].
        unfold issues. apply in_map, list_elem_of_In. by rewrite Hp.
      - intros Hall (i & Hi & Hb). unfold issues in Hi. apply in_map_iff in Hi as (s & <- & Hin). apply list_elem_of_In in Hin. rewrite Hp in Hin.
        specialize (Hall s Hin). apply (issue_carried target s Ht (Hs s Hin)) in Hall. congruence. }
    rewrite <- Ha. by destruct (negb _).
  - cbn [Issues]. eapply StronglySorted_fmap; [|by apply (sort_key_strict Capability cmpZ)]. intros a b. unfold cmpZ. repeat case_match; lia.
  - cbn [Issues]. unfold sort_key at 1. rewrite insertion_sort_perm. unfold issues. by rewrite Hp.
  - intros source' Hp'. assert (Es : sort_key ID cmpZ source' = sort_key ID cmpZ source) by (apply (sort_key_canonical ID cmpZ); [done|]; rewrite Hp'; apply Hs).
    destruct (normalizeFacts_exact source') as [[_ E']|[Hs' _]]; [|exfalso; apply Hs'; by eapply wf_facts_perm]. rewrite E'. cbn [bind]. by rewrite Es.
Qed.

(** ** The digest *)

Definition wf_digests (v : Vector) : Prop := len (VolumeIdentity v) = 32 /\ Forall (fun f => len (DetailDigest f) = 32) (Facts v).

Lemma fact_range f : wf_fact f -> is_u16 (ID f) /\ is_u16 (Result f).
Proof. unfold wf_fact, KnownCapability, ValidResult, CapIdentity, CapDurability, ResultLossless, ResultUnknown, is_u16. lia. Qed.

Lemma facts_few facts : wf_facts facts -> len facts <= 20.
Proof.
  intros [Hf Hn]. assert (Hs : map ID facts ⊆ seqZ 1 20).
  { intros i (f & -> & Hin)%list_elem_of_fmap. rewrite Forall_forall in Hf. destruct (Hf f Hin) as [Hk _]. apply elem_of_seqZ.
    unfold KnownCapability, CapIdentity, CapDurability in Hk. lia. }
  assert (Hm : map ID facts ⊆+ seqZ 1 20) by (apply NoDup_submseteq; [done|exact Hs]). apply submseteq_length in Hm. rewrite length_map, length_seqZ in Hm. unfold len. lia.
Qed.

Lemma encode_facts_inj a b : wf_facts a -> wf_facts b -> Forall (fun f => len (DetailDigest f) = 32) a -> Forall (fun f => len (DetailDigest f) = 32) b ->
  length a = length b -> concat (map encode_fact a) = concat (map encode_fact b) -> a = b.
Proof.
  intros [Ha _] [Hb _] Hda Hdb Hl. revert b Hb Hdb Hl. induction a as [|f a IH]; intros [|g b] Hb Hdb Hl E; try done.
  apply Forall_cons in Ha as [Hf Ha]. apply Forall_cons in Hb as [Hg Hb]. apply Forall_cons in Hda as [Hdf Hda]. apply Forall_cons in Hdb as [Hdg Hdb].
  destruct (fact_range f Hf) as [Hfi Hfr], (fact_range g Hg) as [Hgi Hgr]. cbn [map concat] in E. unfold encode_fact in E. rewrite <- !app_assoc in E.
  apply app_inj_1 in E as [E1 E]; [|by rewrite !length_le_bytes]. apply app_inj_1 in E as [E2 E]; [|by rewrite !length_le_bytes].
  apply app_inj_1 in E as [E3 E]; [|unfold len in *; lia]. rewrite !u16_small in E1, E2 by done.
  apply le_bytes_inj in E1; [|unfold is_u16 in *; cbn; lia..]. apply le_bytes_inj in E2; [|unfold is_u16 in *; cbn; lia..].
  f_equal; [destruct f, g; cbn in *; congruence|]. apply IH; try done. by injection Hl.
Qed.

(** Two vectors with one digest are the same, unless their encodings are a SHA-256
    collision. *)
Lemma vector_digest_binds va fa vb fb a b :
  NewVector va fa = Ok a -> NewVector vb fb = Ok b -> wf_digests a -> wf_digests b -> Digest a = Digest b ->
  a = b \/ (encode_vector a <> encode_vector b /\ SHA256 (encode_vector a) = SHA256 (encode_vector b)).
Proof.
  intros (Ha & -> & _)%NewVector_facts (Hb & -> & _)%NewVector_facts [Hva Hda] [Hvb Hdb] Hd. set (a := mkVector va _) in *. set (b := mkVector vb _) in *.
  destruct (decide (encode_vector a = encode_vector b)) as [E|Hne]; [left|by right].
  assert (Hwa : wf_facts (Facts a)) by (eapply wf_facts_perm; [|exact Ha]; cbn; unfold sort_key; by rewrite insertion_sort_perm).
  assert (Hwb : wf_facts (Facts b)) by (eapply wf_facts_perm; [|exact Hb]; cbn; unfold sort_key; by rewrite insertion_sort_perm).
  pose proof (facts_few _ Hwa) as Hla. pose proof (facts_few _ Hwb) as Hlb. pose proof (len_nonneg (Facts a)). pose proof (len_nonneg (Facts b)).
  unfold encode_vector in E. apply app_inj_1 in E as [E1 E]; [|unfold len in *; lia]. apply app_inj_1 in E as [E2 E]; [|by rewrite !length_le_bytes].
  rewrite !u16_small in E2 by (unfold is_u16; lia). apply le_bytes_inj in E2; [|change (256 ^ Z.of_nat 2) with 65536; lia..].
  apply encode_facts_inj in E; [|done..|unfold len in E2; lia]. destruct a, b. cbn in *. congruence.
Qed.

(** ** Witnesses *)

Definition facts_demo : list Fact := [mkFact 5 ResultLossless (zeros 32); mkFact 2 ResultWrapped (zeros 32)].
Definition vector_demo : Vector := mkVector (SHA256 (str "v")) (sort_key ID cmpZ facts_demo).

(** A link can be kept on the target; an extended attribute cannot be. *)
Lemma preflight_exact_witness :
  (forall s, s ∈ [mkFact 5 ResultLossless []] -> carried vector_demo s) /\ ~ (forall s, s ∈ [mkFact 8 ResultLossless []] -> carried vector_demo s).
Proof.
  assert (E : NewVector (SHA256 (str "v")) facts_demo = Ok vector_demo) by (vm_compute; reflexivity). split.
  - pose proof (preflight_exact [mkFact 5 ResultLossless []] _ _ _ E) as Hp.
    assert (E1 : Compare [mkFact 5 ResultLossless []] vector_demo = Ok (mkReport true [mkIssue 5 1 1 1 false false])) by (vm_compute; reflexivity).
    rewrite E1 in Hp. apply Hp. reflexivity.
  - pose proof (preflight_exact [mkFact 8 ResultLossless []] _ _ _ E) as Hp.
    assert (E1 : Compare [mkFact 8 ResultLossless []] vector_demo = Ok (mkReport false [mkIssue 8 1 5 5 true true])) by (vm_compute; reflexivity).
    rewrite E1 in Hp. intros Hc. apply Hp in Hc. discriminate Hc.
Defined.

End FsModel.
