(* ===== verification/Journal.v ===== *)
(** * Append-only journal (internal/journal)

    [segment.go] (the [Segment] interface with its memory and file
    implementations), [reader.go] ([ReadPrefix]), [writer.go] ([OpenWriter],
    [Append]), [errors.go] ([classifyDecode]) and the independent verifier
    [verify/verify.go].  [Segment] is a class of operations and [SegmentLaws]
    what an implementation promises; the reader and the writer are verified
    against the laws and the implementations discharge them.

    [chain] is the abstract journal: a list of records with consecutive
    sequence numbers from 1, each naming the commitment of its predecessor.
    The reader is proved to return the longest such chain at the front of a
    segment, the verifier to agree with it, and the writer to extend it by
    exactly one record. *)

From S2P Require Import Prelude Sha256 Resource Codec.
Import Codec.

Module Journal.

(** ** Errors (errors.go) *)

Inductive Kind := KindTornTail | KindFatal | KindClosed | KindState.

(** I/O failures of a segment: the end of input, a fault injected at a crash
    label (crashseg.go), or any other failure. *)
Inductive ioerr := EOF | IOFailure | InjectedCrash (label : string).

Inductive Error :=
| JError (k : Kind) (offset : Z)
| CodecError (e : Codec.Error)
| IOError (e : ioerr).

#[global] Instance Kind_eq_dec : EqDecision Kind.
Proof. solve_decision. Defined.

#[global] Instance ioerr_eq_dec : EqDecision ioerr.
Proof. solve_decision. Defined.

#[global] Instance Error_eq_dec : EqDecision Error.
Proof. solve_decision. Defined.

Definition torn (offset : Z) : Error := JError KindTornTail offset.
Definition fatal (offset : Z) : Error := JError KindFatal offset.

Definition IsTorn (e : Error) : bool :=
  match e with JError KindTornTail _ => true | _ => false end.

Definition IsFatal (e : Error) : bool :=
  match e with JError KindFatal _ => true | _ => false end.

Definition classifyDecode (offset : Z) (e : Codec.Error) : Error :=
  if AsKind e KindIncomplete then torn offset else fatal offset.

(** ** Segments (segment.go) *)

(** The [Segment] interface.  [ReadAt s n off] fills a buffer of [n] bytes and
    returns the bytes read. *)
Class Segment (S : Type) := {
  Size : S -> Z;
  ReadAt : S -> Z -> Z -> bytes * option ioerr;
  SegAppend : S -> bytes -> S * option ioerr;
  SegSync : S -> S * option ioerr }.

(** What an implementation promises: on states that satisfy its invariant
    [valid], the durable bytes [contents] are what [Size] and [ReadAt] report;
    an append, successful or not, only ever adds bytes of its argument after
    them, and every operation keeps the invariant. *)
Class SegmentLaws (S : Type) `{Segment S} := {
  valid : S -> Prop;
  contents : S -> bytes;
  size_contents s : valid s -> Size s = len (contents s);
  read_contents s n off :
    valid s -> 0 < n -> 0 <= off -> off + n <= len (contents s) ->
    ReadAt s n off = (sub (contents s) off (off + n), None);
  append_contents s p s' :
    valid s -> SegAppend s p = (s', None) -> valid s' /\ contents s' = contents s ++ p;
  append_failed s p s' e :
    valid s -> SegAppend s p = (s', Some e) ->
    valid s' /\ exists n, contents s' = contents s ++ take n p;
  sync_contents s s' e :
    valid s -> SegSync s = (s', e) -> valid s' /\ contents s' = contents s }.

(** [MemSegment]. *)
Record MemSegment := mkMem { mbuf : bytes }.

Definition NewMemSegment : MemSegment := mkMem [].

Definition mem_ReadAt (m : MemSegment) (n off : Z) : bytes * option ioerr :=
  if off <? 0 then ([], Some IOFailure)
  else if len (mbuf m) <=? off then ([], Some EOF)
  else
    let got := take (Z.to_nat n) (drop (Z.to_nat off) (mbuf m)) in
    if len got <? n then (got, Some EOF) else (got, None).

Definition mem_Append (m : MemSegment) (p : bytes) : MemSegment * option ioerr :=
  (mkMem (mbuf m ++ p), None).

Definition mem_Sync (m : MemSegment) : MemSegment * option ioerr := (m, None).

#[global] Instance MemSegment_Segment : Segment MemSegment := {
  Size m := len (mbuf m);
  ReadAt := mem_ReadAt;
  SegAppend := mem_Append;
  SegSync := mem_Sync }.

Definition mem_Truncate (m : MemSegment) (n : Z) : MemSegment :=
  let n := if n <? 0 then 0 else n in
  let n := if len (mbuf m) <? n then len (mbuf m) else n in
  mkMem (take (Z.to_nat n) (mbuf m)).

Definition mem_Corrupt (m : MemSegment) (off xor : Z) : MemSegment :=
  if (0 <=? off) && (off <? len (mbuf m)) then
    match mbuf m !! Z.to_nat off with
    | Some b => mkMem (<[Z.to_nat off := byte_of (Z.lxor (byteZ b) xor)]> (mbuf m))
    | None => m
    end
  else m.

(** [FileSegment], over an operating-system file.  The file is not part of the
    program: [OSFile] gives its calls ([ReadAt], [WriteAt] returning the number
    of bytes written, [Sync], [Truncate]) and [OSFileLaws] the documented
    behaviour the segment relies on; a failed write may have changed any byte
    from its offset on. *)
Class OSFile (F : Type) := {
  FReadAt : F -> Z -> Z -> bytes * option ioerr;
  FWriteAt : F -> bytes -> Z -> F * Z * option ioerr;
  FSync : F -> F * option ioerr;
  FTruncate : F -> Z -> F * option ioerr }.

Class OSFileLaws (F : Type) `{OSFile F} := {
  fdata : F -> bytes;
  fread_within f n off :
    0 < n -> 0 <= off -> off + n <= len (fdata f) ->
    FReadAt f n off = (sub (fdata f) off (off + n), None);
  fwrite_keeps f p off f' n e :
    FWriteAt f p off = (f', n, e) -> 0 <= off <= len (fdata f) ->
    sub (fdata f') 0 off = sub (fdata f) 0 off /\ off <= len (fdata f');
  fwrite_all f p off f' n :
    FWriteAt f p off = (f', n, None) -> n = len p -> 0 <= off <= len (fdata f) ->
    sub (fdata f') off (off + n) = p /\ off + n <= len (fdata f');
  fsync_keeps f f' e : FSync f = (f', e) -> fdata f' = fdata f;
  ftruncate_ok f n f' :
    FTruncate f n = (f', None) -> 0 <= n <= len (fdata f) -> fdata f' = sub (fdata f) 0 n;
  ftruncate_failed f n f' e :
    FTruncate f n = (f', Some e) -> fdata f' = fdata f }.

Record FileSegment (F : Type) := mkFile { ff : F; fsize : Z }.
Arguments mkFile {F} ff fsize.
Arguments ff {F} f.
Arguments fsize {F} f.

Section FileSegments.
Context {F : Type} `{OSFile F}.

Definition file_ReadAt (s : FileSegment F) (n off : Z) : bytes * option ioerr :=
  FReadAt (ff s) n off.

Definition file_Append (s : FileSegment F) (p : bytes) : FileSegment F * option ioerr :=
  let '(f', n, err) := FWriteAt (ff s) p (fsize s) in
  match err with
  | Some e => (mkFile f' (fsize s), Some e)
  | None =>
      if negb (n =? len p) then (mkFile f' (fsize s), Some IOFailure)
      else (mkFile f' (fsize s + n), None)
  end.

Definition file_Sync (s : FileSegment F) : FileSegment F * option ioerr :=
  let '(f', e) := FSync (ff s) in (mkFile f' (fsize s), e).

Definition file_Truncate (s : FileSegment F) (n : Z) : FileSegment F * option ioerr :=
  let n := if n <? 0 then 0 else n in
  let '(f', err) := FTruncate (ff s) n in
  match err with
  | Some e => (mkFile f' (fsize s), Some e)
  | None => (mkFile f' n, None)
  end.

#[global] Instance FileSegment_Segment : Segment (FileSegment F) := {
  Size s := fsize s;
  ReadAt := file_ReadAt;
  SegAppend := file_Append;
  SegSync := file_Sync }.

End FileSegments.

(** [CrashSegment] (crashseg.go): a segment that fails at a labelled persistence
    boundary.  [killSelfAt] and the directory sync are the platform's. *)
Definition CrashJAppendPre : string := "J-APPEND-PRE".
Definition CrashJAppendMid : string := "J-APPEND-MID".
Definition CrashJAppendPost : string := "J-APPEND-POST".
Definition CrashJMetaPost : string := "J-META-POST".

Record CrashSegment (S : Type) := mkCrash {
  Inner : S;
  FailAt : string;
  KillAt : string;
  Dir : string;
  Hits : list string }.
Arguments mkCrash {S} Inner FailAt KillAt Dir Hits.
Arguments Inner {S} c.
Arguments FailAt {S} c.
Arguments KillAt {S} c.
Arguments Dir {S} c.
Arguments Hits {S} c.

Section Crash.
Context {S : Type} `{Segment S}.
Variable killSelfAt : string -> ioerr.
Variable SyncDir : string -> option ioerr.
Implicit Types c : CrashSegment S.

Definition armed c (label : string) : bool :=
  (negb (bool_decide (KillAt c = ""%string)) && bool_decide (KillAt c = label)) ||
  (negb (bool_decide (FailAt c = ""%string)) && bool_decide (FailAt c = label)).

Definition with_inner c (s : S) : CrashSegment S :=
  mkCrash s (FailAt c) (KillAt c) (Dir c) (Hits c).

Definition stopAt c (label : string) : CrashSegment S * option ioerr :=
  if negb (armed c label) then (c, None) else
  let c' := mkCrash (Inner c) (FailAt c) (KillAt c) (Dir c) (Hits c ++ [label]) in
  if negb (bool_decide (KillAt c = ""%string)) && bool_decide (KillAt c = label)
  then (c', Some (killSelfAt label))
  else (c', Some (InjectedCrash label)).

Definition crash_Append c (p : bytes) : CrashSegment S * option ioerr :=
  let '(c, e0) := stopAt c CrashJAppendPre in
  match e0 with
  | Some e => (c, Some e)
  | None =>
    if armed c CrashJAppendMid then
      let n := len p / 2 in
      let n := if (n <? 1) && (0 <? len p) then 1 else n in
      if 0 <? n then
        let '(s, e1) := SegAppend (Inner c) (sub p 0 n) in
        match e1 with
        | Some e => (with_inner c s, Some e)
        | None => stopAt (with_inner c s) CrashJAppendMid
        end
      else stopAt c CrashJAppendMid
    else
      let '(s, e1) := SegAppend (Inner c) p in (with_inner c s, e1)
  end.

Definition crash_Sync c : CrashSegment S * option ioerr :=
  if armed c CrashJAppendPost then
    let '(s, e) := SegSync (Inner c) in
    match e with
    | Some e => (with_inner c s, Some e)
    | None => stopAt (with_inner c s) CrashJAppendPost
    end
  else if armed c CrashJMetaPost then
    let '(s, e) := SegSync (Inner c) in
    match e with
    | Some e => (with_inner c s, Some e)
    | None =>
      match (if negb (bool_decide (Dir c = ""%string)) then SyncDir (Dir c) else None) with
      | Some e => (with_inner c s, Some e)
      | None => stopAt (with_inner c s) CrashJMetaPost
      end
    end
  else
    let '(s, e) := SegSync (Inner c) in (with_inner c s, e).

Definition CrashSegment_Segment : Segment (CrashSegment S) := {|
  Size c := Size (Inner c);
  ReadAt c := ReadAt (Inner c);
  SegAppend := crash_Append;
  SegSync := crash_Sync |}.

End Crash.

(** ** The reader (reader.go) *)

Record Prefix := mkPrefix {
  Records : list Record_;
  Bytes : Z;
  HeadCommitment : bytes;
  NextSequence : Z;
  Torn : bool;
  TornOffset : Z;
  Quarantine : bytes }.

Definition zeroDigest : bytes := zeros 32.

Definition emptyPrefix : Prefix := mkPrefix [] 0 zeroDigest 1 false 0 [].

Section Reader.
Context {S : Type} `{Segment S}.

Definition clamp (n : Z) : Z := if MaxRecordBytes <? n then MaxRecordBytes else n.

(** The torn-tail branch: quarantine what is left, at most one record's worth. *)
Definition quarantine (seg : S) (out : Prefix) (offset remaining : Z) : res Error Prefix :=
  let '(q, rerr) := ReadAt seg (clamp remaining) offset in
  if bool_decide (rerr <> None) && bool_decide (rerr <> Some EOF) && (len q =? 0)
  then Err (fatal offset)
  else Ok (mkPrefix (Records out) (Bytes out) (HeadCommitment out) (NextSequence out)
             true offset q).

(** Chain and monotonicity checks. *)
Definition chain_ok (expected : Z) (prev : bytes) (r : Record_) : bool :=
  if negb (Sequence r =? expected) then false
  else if expected =? 1 then bool_decide (PreviousCommitment r = GenesisCommitment)
  else bool_decide (PreviousCommitment r = prev).

Definition accept (out : Prefix) (r : Record_) (recLen : Z) : Prefix :=
  mkPrefix (Records out ++ [r]) (Bytes out + recLen) (RecordCommitment r)
    (u64 (Sequence r + 1)) (Torn out) (TornOffset out) (Quarantine out).

(** The scan loop.  Every accepted record is at least 152 bytes long, so
    [size / 152 + 1] iterations are enough; running out of fuel is [Panic],
    and is proved not to happen. *)
Fixpoint read_loop (fuel : nat) (seg : S) (size offset expected : Z) (prev : bytes)
    (out : Prefix) : res Error Prefix :=
  match fuel with
  | O => Panic
  | Datatypes.S fuel =>
    if negb (offset <? size) then Ok out else
    let remaining := size - offset in
    let '(buf, err) := ReadAt seg (clamp remaining) offset in
    match (if len buf =? 0 then err else None) with
    | Some EOF => Ok out
    | Some _ => Err (fatal offset)
    | None =>
      match DecodeRecord buf with
      | Panic => Panic
      | Err derr =>
          if AsKind derr KindIncomplete then quarantine seg out offset remaining
          else Err (classifyDecode offset derr)
      | Ok (rec, recLen) =>
          if negb (chain_ok expected prev rec) then Err (fatal offset)
          else read_loop fuel seg size (offset + recLen) (u64 (expected + 1))
                 (RecordCommitment rec) (accept out rec recLen)
      end
    end
  end.

Definition scan_fuel (size : Z) : nat := Z.to_nat (size / 152 + 1).

Definition ReadPrefix (seg : S) : res Error Prefix :=
  let size := Size seg in
  if size <? 0 then Err (fatal 0)
  else if size =? 0 then Ok emptyPrefix
  else read_loop (scan_fuel size) seg size 0 1 zeroDigest emptyPrefix.

End Reader.

Definition ReadPrefixBytes (data : bytes) : res Error Prefix := ReadPrefix (mkMem data).

(** ** The independent verifier (verify/verify.go) *)

Module Verify.

Record Result := mkResult {
  RecordCount : Z;
  VBytes : Z;
  VHeadCommitment : bytes;
  VNextSequence : Z;
  VTorn : bool;
  VTornOffset : Z;
  Fatal : bool;
  FatalOffset : Z }.

Definition set_torn (r : Result) (off : Z) : Result :=
  mkResult (RecordCount r) (VBytes r) (VHeadCommitment r) (VNextSequence r)
    true off (Fatal r) (FatalOffset r).

Definition set_fatal (r : Result) (off : Z) : Result :=
  mkResult (RecordCount r) (VBytes r) (VHeadCommitment r) (VNextSequence r)
    (VTorn r) (VTornOffset r) true off.

Fixpoint verify_loop (fuel : nat) (data : bytes) (offset expected : Z) (prev : bytes)
    (r : Result) : res Error Result :=
  match fuel with
  | O => Panic
  | Datatypes.S fuel =>
    if negb (offset <? len data) then Ok r else
    let! d := slice data offset (len data) in
    match DecodeRecord d with
    | Panic => Panic
    | Err e =>
        if AsKind e KindIncomplete then Ok (set_torn r offset) else Ok (set_fatal r offset)
    | Ok (rec, n) =>
        if negb (Sequence rec =? expected) then Ok (set_fatal r offset)
        else if (if expected =? 1
                 then negb (bool_decide (PreviousCommitment rec = GenesisCommitment))
                 else negb (bool_decide (PreviousCommitment rec = prev)))
        then Ok (set_fatal r offset)
        else verify_loop fuel data (offset + n) (u64 (expected + 1)) (RecordCommitment rec)
               (mkResult (RecordCount r + 1) (VBytes r + n) (RecordCommitment rec)
                  (u64 (Sequence rec + 1)) (VTorn r) (VTornOffset r) (Fatal r) (FatalOffset r))
    end
  end.

Definition emptyResult : Result := mkResult 0 0 zeroDigest 1 false 0 false 0.

Definition VerifyBytes (data : bytes) : res Error Result :=
  if len data =? 0 then Ok emptyResult
  else verify_loop (scan_fuel (len data)) data 0 1 zeroDigest emptyResult.

End Verify.

(** ** The writer (writer.go) *)

Section Writer.
Context {S : Type} `{Segment S}.

Record Writer := mkWriter {
  seg : S;
  nextSeq : Z;
  prevCommitment : bytes;
  closed : bool }.

Definition OpenWriter (s : S) : res Error (Writer * Prefix) :=
  let! p := ReadPrefix s in
  let prev := if NextSequence p =? 1 then GenesisCommitment else HeadCommitment p in
  Ok (mkWriter s (NextSequence p) prev false, p).

Definition with_seg (w : Writer) (s : S) : Writer :=
  mkWriter s (nextSeq w) (prevCommitment w) (closed w).

(** [Append]: the writer after the call, and what the call returned.  A failed
    call may have changed the segment, never the writer's own position. *)
Definition Append (w : Writer) (txid : bytes) (rtype : Z) (payload : bytes)
    : Writer * res Error Record_ :=
  if closed w then (w, Err (JError KindClosed 0)) else
  if (0 <? Size (seg w)) && (nextSeq w =? 1) then (w, Err (JError KindState 0)) else
  match ReadPrefix (seg w) with
  | Panic => (w, Panic)
  | Err e => (w, Err e)
  | Ok p =>
    if Torn p then (w, Err (JError KindState (TornOffset p))) else
    if negb (NextSequence p =? nextSeq w) then (w, Err (JError KindState 0)) else
    match EncodeRecord (mkFields (nextSeq w) txid rtype (prevCommitment w) payload) with
    | Panic => (w, Panic)
    | Err e => (w, Err (CodecError e))
    | Ok enc =>
      if MaxJournalSegmentBytes <? Size (seg w) + len enc then (w, Err (fatal 0)) else
      let '(s1, aerr) := SegAppend (seg w) enc in
      match aerr with
      | Some e => (with_seg w s1, Err (IOError e))
      | None =>
        let '(s2, serr) := SegSync s1 in
        match serr with
        | Some e => (with_seg w s2, Err (IOError e))
        | None =>
          match DecodeRecord enc with
          | Panic => (with_seg w s2, Panic)
          | Err _ => (with_seg w s2, Err (fatal (Size s2 - len enc)))
          | Ok (rec, _) =>
              (mkWriter s2 (u64 (nextSeq w + 1)) (RecordCommitment rec) (closed w), Ok rec)
          end
        end
      end
    end
  end.

Definition Close (w : Writer) : Writer :=
  mkWriter (seg w) (nextSeq w) (prevCommitment w) true.

End Writer.
Arguments Writer S : clear implicits.

(** ** The abstract journal *)

(** Records numbered from [k], the first naming [prev], each naming the
    commitment of the one before it. *)
Fixpoint linked (k : Z) (prev : bytes) (fs : list RecordFields) : Prop :=
  match fs with
  | [] => True
  | f :: fs =>
      wf_fields f /\ encodable f /\ FSequence f = k /\ FPreviousCommitment f = prev /\
      linked (k + 1) (commitment_of f) fs
  end.

Definition chain (fs : list RecordFields) : Prop := linked 1 GenesisCommitment fs.

(** The bytes of a journal. *)
Definition image (fs : list RecordFields) : bytes := concat (map layout fs).

(** The commitment a chain ends in. *)
Fixpoint head_from (prev : bytes) (fs : list RecordFields) : bytes :=
  match fs with
  | [] => prev
  | f :: fs => head_from (commitment_of f) fs
  end.

(** Why a scan stops in front of [tail]. *)
Inductive verdict := Done | TornHere | FatalHere | Continue.

#[global] Instance verdict_eq_dec : EqDecision verdict.
Proof. solve_decision. Defined.

Definition verdict_at (k : Z) (prev : bytes) (tail : bytes) : verdict :=
  if len tail =? 0 then Done
  else match DecodeRecord tail with
       | Ok (r, _) => if chain_ok k prev r then Continue else FatalHere
       | Err e => if AsKind e KindIncomplete then TornHere else FatalHere
       | Panic => FatalHere
       end.

(** The longest chain at the front of [data]: [fs] and what is left. *)
Definition longest (k : Z) (prev : bytes) (data : bytes) (fs : list RecordFields)
    (tail : bytes) : Prop :=
  data = image fs ++ tail /\ linked k prev fs /\
  verdict_at (k + len fs) (head_from prev fs) tail <> Continue.

Lemma image_app a b : image (a ++ b) = image a ++ image b.
Proof. unfold image. by rewrite map_app, concat_app. Qed.

Lemma image_cons f fs : image (f :: fs) = layout f ++ image fs.
Proof. done. Qed.

Lemma linked_app k prev a b :
  linked k prev (a ++ b) <->
  linked k prev a /\ linked (k + len a) (head_from prev a) b.
Proof.
  revert k prev. induction a as [|f a IH]; intros k prev; cbn [app linked head_from].
  - rewrite len_nil, Z.add_0_r. tauto.
  - rewrite IH, len_cons. replace (k + 1 + len a) with (k + (1 + len a)) by lia. tauto.
Qed.

Lemma head_from_app prev a b :
  head_from prev (a ++ b) = head_from (head_from prev a) b.
Proof. revert prev. induction a as [|f a IH]; intros prev; [done|]. cbn. apply IH. Qed.

Lemma len_layout_ge f : wf_fields f -> 152 <= len (layout f).
Proof.
  intros Hf. rewrite len_layout by done. unfold record_len, RecordOverhead.
  pose proof (len_nonneg (FPayload f)). lia.
Qed.

Lemma linked_Forall_wf k prev fs : linked k prev fs -> Forall wf_fields fs.
Proof.
  revert k prev. induction fs as [|f fs IH]; intros k prev; [constructor|].
  intros (? & ? & ? & ? & ?). constructor; eauto.
Qed.

Lemma len_image fs : Forall wf_fields fs -> 152 * len fs <= len (image fs).
Proof.
  induction 1 as [|f fs Hf _ IH]; [done|].
  rewrite image_cons, len_app, len_cons. pose proof (len_layout_ge f Hf). lia.
Qed.

Lemma linked_decode k prev f fs rest :
  linked k prev (f :: fs) ->
  DecodeRecord (image (f :: fs) ++ rest) = Ok (record_of f, len (layout f)).
Proof.
  intros (? & ? & _). rewrite image_cons, <- app_assoc, DecodeRecord_layout, len_layout; done.
Qed.

Lemma chain_ok_record k prev f :
  (k = 1 -> prev = GenesisCommitment) ->
  chain_ok k prev (record_of f) = true <-> FSequence f = k /\ FPreviousCommitment f = prev.
Proof.
  intros Hk. unfold chain_ok. cbn [record_of Sequence PreviousCommitment].
  destruct (FSequence f =? k) eqn:E; reflect_bools; cbn [negb].
  - destruct (k =? 1) eqn:E1; reflect_bools.
    + rewrite Hk by done. rewrite bool_decide_true_iff. tauto.
    + rewrite bool_decide_true_iff. tauto.
  - split; [discriminate|tauto].
Qed.

(** A record that continues the chain splits off the data. *)
Lemma verdict_continue k prev data :
  (k = 1 -> prev = GenesisCommitment) -> verdict_at k prev data = Continue ->
  exists f rest, data = layout f ++ rest /\ linked k prev [f] /\
    DecodeRecord data = Ok (record_of f, len (layout f)).
Proof.
  intros Hk. unfold verdict_at. destruct (len data =? 0); [done|].
  destruct (DecodeRecord data) as [[r n]|e|] eqn:E; [|case_if; done|done].
  case_if; [|done]. intros _.
  apply DecodeRecord_inv in E as E'. destruct E' as (f & Hwf & Henc & -> & -> & Hn & Hl).
  apply chain_ok_record in Heqb as [? ?]; [|done].
  exists f, (drop (Z.to_nat (record_len f)) data). split.
  { rewrite <- Hl, sub_0_prefix. by rewrite take_drop. }
  split; [cbn [linked]; tauto|]. by rewrite len_layout.
Qed.

(** ** The segments keep their promises *)

#[global] Program Instance MemSegment_Laws : SegmentLaws MemSegment := {
  valid _ := True;
  contents := mbuf }.
Next Obligation. done. Qed.
Next Obligation.
  intros s n off _ Hn Ho Hl. cbn [ReadAt MemSegment_Segment]. unfold mem_ReadAt.
  dec_false (off <? 0). dec_false (len (mbuf s) <=? off).
  assert (Hg : len (take (Z.to_nat n) (drop (Z.to_nat off) (mbuf s))) = n)
    by (unfold len in *; rewrite length_take, length_drop; lia).
  rewrite Hg. dec_false (n <? n). unfold sub. do 3 f_equal. lia.
Qed.
Next Obligation. intros s p s' _ [= <-]. done. Qed.
Next Obligation. by intros s p s' e _ [=]. Qed.
Next Obligation. intros s s' e _ [= <- _]. done. Qed.

Section FileLaws.
Context {F : Type} `{OSFileLaws F}.
Implicit Types s : FileSegment F.

(** A file segment is sound when its size is within the file.  Bytes past
    [fsize], left by a failed write, are not part of the segment. *)
Definition file_sound s : Prop := 0 <= fsize s <= len (fdata (ff s)).
Definition file_contents s : bytes := sub (fdata (ff s)) 0 (fsize s).

Lemma file_append_sound s p s' e :
  file_sound s -> file_Append s p = (s', e) ->
  file_sound s' /\
  match e with
  | None => file_contents s' = file_contents s ++ p
  | Some _ => file_contents s' = file_contents s
  end.
Proof.
  unfold file_sound, file_contents, file_Append. intros Hs.
  destruct (FWriteAt (ff s) p (fsize s)) as [[f' n] err] eqn:E.
  destruct (fwrite_keeps _ _ _ _ _ _ E Hs) as [Hk Hl].
  assert (forall x, file_sound (mkFile f' (fsize s)) -> (mkFile f' (fsize s), Some x) = (s', e) ->
    (0 <= fsize s' <= len (fdata (ff s'))) /\
    match e with None => sub (fdata (ff s')) 0 (fsize s') = sub (fdata (ff s)) 0 (fsize s) ++ p
            | Some _ => sub (fdata (ff s')) 0 (fsize s') = sub (fdata (ff s)) 0 (fsize s) end) as Hbad.
  { intros x Hx [= <- <-]. done. }
  unfold file_sound in Hbad. cbn [ff fsize] in Hbad.
  destruct err as [x|]; [apply Hbad; lia|].
  destruct (n =? len p) eqn:En; cbn [negb]; [|apply Hbad; lia].
  reflect_bools. destruct (fwrite_all _ _ _ _ _ E En Hs) as [Hw Hl'].
  pose proof (len_nonneg p). intros [= <- <-]. cbn [ff fsize]. split; [lia|].
  rewrite (sub_split _ 0 (fsize s)) by lia. by rewrite Hk, Hw.
Qed.

Lemma file_sync_sound s s' e :
  file_sound s -> file_Sync s = (s', e) ->
  file_sound s' /\ file_contents s' = file_contents s.
Proof.
  unfold file_sound, file_contents, file_Sync. intros Hs.
  destruct (FSync (ff s)) as [f' x] eqn:E. apply fsync_keeps in E.
  intros [= <- <-]. cbn [ff fsize]. by rewrite E.
Qed.

Lemma file_read_sound s n off :
  file_sound s -> 0 < n -> 0 <= off -> off + n <= len (file_contents s) ->
  file_ReadAt s n off = (sub (file_contents s) off (off + n), None).
Proof.
  unfold file_sound, file_contents, file_ReadAt. intros Hs Hn Ho Hl.
  rewrite len_sub in Hl by lia. rewrite fread_within by lia.
  rewrite sub_sub by lia. by rewrite !Z.add_0_l.
Qed.

Lemma file_truncate_sound s n s' :
  file_sound s -> 0 <= n <= fsize s -> file_Truncate s n = (s', None) ->
  file_sound s' /\ file_contents s' = sub (file_contents s) 0 n.
Proof.
  unfold file_sound, file_contents, file_Truncate. intros Hs Hn.
  dec_false (n <? 0). destruct (FTruncate (ff s) n) as [f' [x|]] eqn:E; [done|].
  apply ftruncate_ok in E; [|lia]. intros [= <-]. cbn [ff fsize].
  rewrite E, len_sub by lia. split; [lia|].
  rewrite !sub_sub by lia. by rewrite !Z.add_0_l.
Qed.

#[global] Program Instance FileSegment_Laws : SegmentLaws (FileSegment F) := {
  valid := file_sound;
  contents := file_contents }.
Next Obligation.
  intros s Hs. unfold file_contents, file_sound in *. rewrite len_sub by lia. cbn. lia.
Qed.
Next Obligation. intros s n off. apply file_read_sound. Qed.
Next Obligation. intros s p s' Hs E. apply (file_append_sound _ _ _ _ Hs E). Qed.
Next Obligation.
  intros s p s' e Hs E. destruct (file_append_sound _ _ _ _ Hs E) as [? Hc].
  split; [done|]. exists 0%nat. by rewrite take_0, app_nil_r.
Qed.
Next Obligation. intros s s' e. apply file_sync_sound. Qed.

End FileLaws.

Section CrashLaws.
Context {S : Type} `{SegmentLaws S}.
Variable killSelfAt : string -> ioerr.
Variable SyncDir : string -> option ioerr.

Lemma stopAt_inner (c c' : CrashSegment S) label e :
  stopAt killSelfAt c label = (c', e) ->
  Inner c' = Inner c /\ (armed c label = true -> e <> None).
Proof.
  unfold stopAt. destruct (armed c label); cbn [negb].
  - case_if; intros [= <- <-]; done.
  - by intros [= <- <-].
Qed.

Lemma crash_append_spec (c c' : CrashSegment S) p e :
  valid (Inner c) -> crash_Append killSelfAt c p = (c', e) ->
  valid (Inner c') /\
  match e with
  | None => contents (Inner c') = contents (Inner c) ++ p
  | Some _ => exists n, contents (Inner c') = contents (Inner c) ++ take n p
  end.
Proof.
  unfold crash_Append. intros Hv.
  assert (Hno : exists n, contents (Inner c) = contents (Inner c) ++ take n p)
    by (exists 0%nat; by rewrite take_0, app_nil_r).
  destruct (stopAt killSelfAt c CrashJAppendPre) as [c1 e0] eqn:E0.
  apply stopAt_inner in E0 as [Hc1 _].
  destruct e0 as [x|]; [intros [= <- <-]; by rewrite Hc1|].
  destruct (armed c1 CrashJAppendMid) eqn:Ea.
  - set (n := if _ && _ then 1 else len p / 2). destruct (0 <? n).
    + destruct (SegAppend (Inner c1) (sub p 0 n)) as [s e1] eqn:E1.
      rewrite Hc1, sub_0_prefix in E1. destruct e1 as [x|].
      * intros [= <- <-]. destruct (append_failed _ _ _ _ Hv E1) as [? [m Hm]].
        split; [done|]. exists (m `min` Z.to_nat n)%nat. cbn. by rewrite Hm, take_take.
      * intros E2. destruct (append_contents _ _ _ Hv E1) as [Hvs Hm].
        apply stopAt_inner in E2 as [Hi Hne]. rewrite Hi. cbn [with_inner Inner].
        split; [done|]. destruct e; [by exists (Z.to_nat n)|]. by destruct (Hne Ea).
    + intros E2. apply stopAt_inner in E2 as [Hi Hne]. rewrite Hi, Hc1. split; [done|].
      destruct e; [done|]. by destruct (Hne Ea).
  - destruct (SegAppend (Inner c1) p) as [s e1] eqn:E1. rewrite Hc1 in E1.
    intros [= <- <-]. cbn [with_inner Inner].
    destruct e1; [by eapply append_failed|by apply append_contents].
Qed.

Lemma crash_sync_spec (c c' : CrashSegment S) e :
  valid (Inner c) -> crash_Sync killSelfAt SyncDir c = (c', e) ->
  valid (Inner c') /\ contents (Inner c') = contents (Inner c).
Proof.
  unfold crash_Sync. intros Hv. destruct (SegSync (Inner c)) as [s x] eqn:E.
  destruct (sync_contents _ _ _ Hv E) as [Hs Hc].
  assert (Hstop : forall l, stopAt killSelfAt (with_inner c s) l = (c', e) ->
    valid (Inner c') /\ contents (Inner c') = contents (Inner c)).
  { intros l [-> _]%stopAt_inner. done. }
  repeat case_match; try (by intros [= <- <-]); eauto.
Qed.

#[global] Program Instance CrashSegment_Laws :
    @SegmentLaws _ (CrashSegment_Segment killSelfAt SyncDir) := {
  valid c := valid (Inner c);
  contents c := contents (Inner c) }.
Next Obligation. intros c. exact (size_contents (Inner c)). Qed.
Next Obligation. intros c. exact (read_contents (Inner c)). Qed.
Next Obligation. intros c p c' Hv E. apply (crash_append_spec _ _ _ _ Hv E). Qed.
Next Obligation. intros c p c' e Hv E. apply (crash_append_spec _ _ _ _ Hv E). Qed.
Next Obligation. intros c c' e. apply crash_sync_spec. Qed.

End CrashLaws.

(** ** The loops against the abstract journal *)

(** Both loops, run from the start of [data], get past exactly [fs]. *)
Lemma longest_cons k prev f rest fs tail :
  linked k prev [f] -> longest (k + 1) (commitment_of f) rest fs tail ->
  longest k prev (layout f ++ rest) (f :: fs) tail.
Proof.
  intros (? & ? & ? & ? & _) (-> & ? & Hv).
  split; [by rewrite image_cons, app_assoc|]. split; [cbn [linked]; tauto|].
  rewrite len_cons. cbn [head_from].
  by replace (k + (1 + len fs)) with (k + 1 + len fs) by lia.
Qed.

Lemma longest_nil k prev data :
  verdict_at k prev data <> Continue -> longest k prev data [] data.
Proof. intros. split; [done|]. split; [done|]. by rewrite len_nil, Z.add_0_r. Qed.

Definition extend (out : Prefix) (k : Z) (prev : bytes) (fs : list RecordFields) : Prefix :=
  match fs with
  | [] => out
  | _ => mkPrefix (Records out ++ map record_of fs) (Bytes out + len (image fs))
           (head_from prev fs) (k + len fs) (Torn out) (TornOffset out) (Quarantine out)
  end.

Lemma extend_cons out k prev f fs :
  k + 1 < 18446744073709551616 -> 0 <= k -> FSequence f = k -> wf_fields f ->
  extend (accept out (record_of f) (len (layout f))) (k + 1) (commitment_of f) fs =
  extend out k prev (f :: fs).
Proof.
  intros Hk H0 Hs Hf. unfold extend, accept. cbn [record_of Sequence RecordCommitment].
  rewrite Hs. unfold u64. rewrite Z.mod_small by lia.
  destruct fs as [|g fs]; cbn [Records Bytes Torn TornOffset Quarantine map head_from].
  - rewrite image_cons. unfold image at 1. cbn [map concat]. rewrite app_nil_r. f_equal. 
  - rewrite (image_cons f), len_app, !len_cons, <- app_assoc. f_equal; lia.
Qed.

Definition finish (out : Prefix) (tail : bytes) (v : verdict) : res Error Prefix :=
  match v with
  | Done => Ok out
  | TornHere =>
      Ok (mkPrefix (Records out) (Bytes out) (HeadCommitment out) (NextSequence out)
            true (Bytes out) (take (Z.to_nat MaxRecordBytes) tail))
  | _ => Err (fatal (Bytes out))
  end.

Lemma clamp_pos n : 0 < n -> 0 < clamp n <= n.
Proof. unfold clamp. assert (MaxRecordBytes = 1048728) by done. case_if; lia. Qed.

Lemma take_clamp (b : bytes) : take (Z.to_nat (clamp (len b))) b = take (Z.to_nat MaxRecordBytes) b.
Proof.
  unfold clamp. case_if; [done|]. rewrite !take_ge; [done|unfold len in *; lia..].
Qed.

Lemma DecodeRecord_clamped b :
  DecodeRecord (take (Z.to_nat (clamp (len b))) b) = DecodeRecord b.
Proof.
  unfold clamp. case_if.
  - rewrite <- (take_drop (Z.to_nat MaxRecordBytes) b) at 2.
    symmetry. apply DecodeRecord_window.
    assert (MaxRecordBytes = 1048728) by done.
    unfold len in *. rewrite length_take. lia.
  - by rewrite take_ge by (unfold len in *; lia).
Qed.

Section Loops.
Context {S : Type} `{SegmentLaws S}.
Variable s : S.
Hypothesis Hok : valid s.

Lemma read_rest pre data n :
  contents s = pre ++ data -> 0 < n -> n <= len data ->
  ReadAt s n (len pre) = (take (Z.to_nat n) data, None).
Proof.
  intros Hc Hp Hn. rewrite read_contents; [|done|lia|apply len_nonneg|rewrite Hc, len_app; lia].
  rewrite Hc, sub_app_r by lia. f_equal. rewrite Z.sub_diag.
  rewrite sub_0_prefix. f_equal. lia.
Qed.

(** One iteration, in front of the bytes [data]. *)
Lemma read_loop_step fuel pre data k prev out :
  contents s = pre ++ data -> len data <> 0 ->
  read_loop (Datatypes.S fuel) s (len (contents s)) (len pre) k prev out =
  match DecodeRecord data with
  | Panic => Panic
  | Err e =>
      if AsKind e KindIncomplete
      then Ok (mkPrefix (Records out) (Bytes out) (HeadCommitment out) (NextSequence out)
                 true (len pre) (take (Z.to_nat MaxRecordBytes) data))
      else Err (fatal (len pre))
  | Ok (r, n) =>
      if negb (chain_ok k prev r) then Err (fatal (len pre))
      else read_loop fuel s (len (contents s)) (len pre + n) (u64 (k + 1))
             (RecordCommitment r) (accept out r n)
  end.
Proof.
  intros Hc Hne. pose proof (len_nonneg data).
  assert (Hsz : len (contents s) - len pre = len data) by (rewrite Hc, len_app; lia).
  pose proof (clamp_pos (len data) ltac:(lia)).
  cbn [read_loop]. rewrite Hsz.
  dec_true (len pre <? len (contents s)). cbn [negb].
  rewrite (read_rest pre data) by (done || lia).
  assert (Hlen : len (take (Z.to_nat (clamp (len data))) data) <> 0)
    by (unfold len in *; rewrite length_take; lia).
  dec_false (len (take (Z.to_nat (clamp (len data))) data) =? 0).
  rewrite DecodeRecord_clamped.
  destruct (DecodeRecord data) as [[r n]|e|]; [done| |done].
  unfold classifyDecode. destruct (AsKind e KindIncomplete); [|done].
  unfold quarantine. rewrite (read_rest pre data) by (done || lia).
  by rewrite take_clamp.
Qed.

Lemma finish_here fuel pre data k prev out :
  contents s = pre ++ data -> Bytes out = len pre -> verdict_at k prev data <> Continue ->
  read_loop (Datatypes.S fuel) s (len (contents s)) (len pre) k prev out =
  finish out data (verdict_at k prev data).
Proof.
  intros Hc Hout. unfold verdict_at.
  destruct (len data =? 0) eqn:E; reflect_bools.
  { intros _. apply len_zero_nil in E as ->. rewrite app_nil_r in Hc.
    cbn [read_loop]. rewrite Hc. by dec_false (len pre <? len pre). }
  rewrite (read_loop_step _ pre data) by done.
  destruct (DecodeRecord data) as [[r n]|e|] eqn:D.
  - destruct (chain_ok k prev r); [done|]. intros _. cbn. by rewrite Hout.
  - destruct (AsKind e KindIncomplete); cbn; by rewrite Hout.
  - by apply DecodeRecord_no_panic in D.
Qed.

Lemma fuel_step fuel f (rest : bytes) :
  wf_fields f -> len (layout f ++ rest) / 152 < Z.of_nat (Datatypes.S fuel) ->
  len rest / 152 < Z.of_nat fuel.
Proof.
  intros Hwf Hfuel. rewrite len_app in Hfuel. pose proof (len_layout_ge f Hwf).
  pose proof (Z.div_le_mono (1 * 152 + len rest) (len (layout f) + len rest) 152).
  rewrite Z.div_add_l in * by lia. lia.
Qed.

Lemma read_loop_longest fuel pre data k prev out :
  contents s = pre ++ data -> Bytes out = len pre ->
  len data / 152 < Z.of_nat fuel ->
  1 <= k -> k + len data < 18446744073709551616 ->
  (k = 1 -> prev = GenesisCommitment) ->
  exists fs tail,
    longest k prev data fs tail /\
    read_loop fuel s (len (contents s)) (len pre) k prev out =
    finish (extend out k prev fs) tail (verdict_at (k + len fs) (head_from prev fs) tail).
Proof.
  revert pre data k prev out.
  induction fuel as [|fuel IH]; intros pre data k prev out Hc Hout Hfuel Hk Hkd Hgen.
  { pose proof (Z.div_pos (len data) 152 (len_nonneg _)). lia. }
  destruct (decide (verdict_at k prev data = Continue)) as [Hv|Hv].
  - apply verdict_continue in Hv as (f & rest & -> & Hlf & Hdec); [|done].
    pose proof Hlf as (Hwf & Henc & Hseq & Hpv & _).
    pose proof (len_layout_ge f Hwf) as Hge. pose proof (len_nonneg rest).
    rewrite len_app in Hkd.
    destruct (IH (pre ++ layout f) rest (k + 1) (commitment_of f)
                (accept out (record_of f) (len (layout f)))) as (fs & tail & Hl & Hr);
      [by rewrite <- app_assoc | cbn; rewrite len_app; lia | by eapply fuel_step | lia..|].
    exists (f :: fs), tail. split; [by apply longest_cons|].
    rewrite (read_loop_step _ pre (layout f ++ rest)) by (done || rewrite len_app; lia).
    rewrite Hdec. rewrite (proj2 (chain_ok_record k prev f Hgen)) by done. cbn [negb].
    unfold u64 at 1. rewrite Z.mod_small by lia. rewrite <- len_app.
    cbn [record_of RecordCommitment]. rewrite Hr, (extend_cons _ _ prev) by (done || lia).
    rewrite len_cons. cbn [head_from].
    by replace (k + (1 + len fs)) with (k + 1 + len fs) by lia.
  - exists [], data. split; [by apply longest_nil|].
    rewrite len_nil, Z.add_0_r. by apply finish_here.
Qed.

Lemma ReadPrefix_scan :
  len (contents s) < 9223372036854775808 ->
  exists fs tail,
    longest 1 GenesisCommitment (contents s) fs tail /\
    ReadPrefix s =
    finish (extend emptyPrefix 1 GenesisCommitment fs) tail
      (verdict_at (1 + len fs) (head_from GenesisCommitment fs) tail).
Proof.
  intros Hs. pose proof (len_nonneg (contents s)) as H0'.
  destruct (read_loop_longest (scan_fuel (len (contents s))) [] (contents s) 1
              GenesisCommitment emptyPrefix) as (fs & tail & Hl & Hr); [done|done| |lia|lia|done|].
  { unfold scan_fuel. pose proof (Z.div_pos (len (contents s)) 152 H0'). lia. }
  exists fs, tail. split; [done|]. rewrite <- Hr. unfold ReadPrefix. rewrite size_contents by done.
  dec_false (len (contents s) <? 0).
  destruct (len (contents s) =? 0) eqn:E; [|done].
  reflect_bools. unfold scan_fuel. by rewrite E.
Qed.

End Loops.

(** In front of a linked record a scan continues. *)
Lemma linked_continue k prev f fs rest :
  (k = 1 -> prev = GenesisCommitment) -> linked k prev (f :: fs) ->
  verdict_at k prev (image (f :: fs) ++ rest) = Continue.
Proof.
  intros Hgen Hl. unfold verdict_at. rewrite (linked_decode _ _ _ _ _ Hl).
  destruct Hl as (Hw & _ & Hs & Hp & _).
  rewrite (proj2 (chain_ok_record k prev f Hgen)) by done.
  pose proof (len_layout_ge f Hw) as Hge.
  rewrite image_cons, !len_app.
  pose proof (len_nonneg (image fs)). pose proof (len_nonneg rest).
  by rewrite (proj2 (Z.eqb_neq _ _)) by lia.
Qed.

Lemma record_of_inj f g : record_of f = record_of g -> f = g.
Proof.
  assert (Hf : forall h, fields_of (record_of h) = h) by (by intros []).
  intros E%(f_equal fields_of). by rewrite !Hf in E.
Qed.

(** A buffer has one longest chain. *)
Lemma longest_unique k prev data fs1 t1 fs2 t2 :
  1 <= k -> (k = 1 -> prev = GenesisCommitment) ->
  longest k prev data fs1 t1 -> longest k prev data fs2 t2 -> fs1 = fs2 /\ t1 = t2.
Proof.
  revert k prev data fs2. induction fs1 as [|f fs1 IH]; intros k prev data fs2 Hk Hgen L1 L2.
  - destruct fs2 as [|g fs2].
    { destruct L1 as (-> & _ & _), L2 as (E & _ & _). done. }
    exfalso. destruct L1 as (-> & _ & Hv), L2 as (E & Hg & _). cbn [image map concat app] in E, Hv.
    rewrite len_nil, Z.add_0_r in Hv. apply Hv. cbn in E. rewrite E.
    by apply linked_continue.
  - destruct fs2 as [|g fs2].
    { exfalso. destruct L1 as (E & Hg & _), L2 as (-> & _ & Hv).
      rewrite len_nil, Z.add_0_r in Hv. apply Hv. cbn in E. rewrite E.
      by apply linked_continue. }
    destruct L1 as (E1 & Hf & Hv1), L2 as (E2 & Hg & Hv2).
    pose proof (linked_decode _ _ _ _ t1 Hf) as D1.
    pose proof (linked_decode _ _ _ _ t2 Hg) as D2.
    rewrite <- E1 in D1. rewrite <- E2 in D2. rewrite D1 in D2.
    assert (f = g) as <- by (apply record_of_inj; congruence). clear D1 D2.
    rewrite !len_cons in *. cbn [head_from] in *.
    destruct (IH (k + 1) (commitment_of f) (image fs1 ++ t1) fs2) as [-> ->];
      [lia|lia| | |done].
    + split; [done|]. split; [apply Hf|].
      by replace (k + 1 + len fs1) with (k + (1 + len fs1)) by lia.
    + split; [|split; [apply Hg|by replace (k + 1 + len fs2) with (k + (1 + len fs2)) by lia]].
      rewrite E1, !image_cons, <- !app_assoc in E2. by apply app_inv_head in E2.
Qed.

(** A segment in a valid state whose size fits Go's [int64]. *)
Definition sized {S} `{SegmentLaws S} (s : S) : Prop :=
  valid s /\ len (contents s) < 9223372036854775808.

(** The prefix a reader reports for the records [fs]. *)
Definition prefix_of (fs : list RecordFields) (torn : bool) (q : bytes) : Prefix :=
  mkPrefix (map record_of fs) (len (image fs)) (head_from zeroDigest fs) (1 + len fs)
    torn (if torn then len (image fs) else 0) q.

Lemma extend_empty fs :
  extend emptyPrefix 1 GenesisCommitment fs = prefix_of fs false [].
Proof. by destruct fs. Qed.

Lemma ReadPrefix_cases {S} `{SegmentLaws S} (s : S) fs tail :
  sized s -> longest 1 GenesisCommitment (contents s) fs tail ->
  ReadPrefix s =
  match verdict_at (1 + len fs) (head_from GenesisCommitment fs) tail with
  | Done => Ok (prefix_of fs false [])
  | TornHere => Ok (prefix_of fs true (take (Z.to_nat MaxRecordBytes) tail))
  | _ => Err (fatal (len (image fs)))
  end.
Proof.
  intros [Hv Hs] Hl. destruct (ReadPrefix_scan s Hv Hs) as (fs' & tail' & Hl' & ->).
  destruct (longest_unique 1 GenesisCommitment _ _ _ _ _ ltac:(lia) ltac:(done) Hl Hl') as [<- <-].
  rewrite extend_empty. by destruct (verdict_at _ _ tail).
Qed.

Lemma longest_exists {S} `{SegmentLaws S} (s : S) :
  sized s -> exists fs tail, longest 1 GenesisCommitment (contents s) fs tail.
Proof.
  intros [Hv Hs]. destruct (ReadPrefix_scan s Hv Hs) as (fs & tail & Hl & _). eauto.
Qed.

Lemma longest_split {S} `{SegmentLaws S} (s : S) fs tail :
  chain fs -> contents s = image fs ++ tail ->
  verdict_at (1 + len fs) (head_from GenesisCommitment fs) tail <> Continue ->
  longest 1 GenesisCommitment (contents s) fs tail.
Proof. by split. Qed.

(** Reading a whole chain. *)
Lemma ReadPrefix_image {S} `{SegmentLaws S} (s : S) fs :
  sized s -> chain fs -> contents s = image fs -> ReadPrefix s = Ok (prefix_of fs false []).
Proof.
  intros Hs Hc E. rewrite (ReadPrefix_cases s fs [] Hs); [done|].
  apply longest_split; [done|by rewrite app_nil_r|done].
Qed.

(** C7. Reading a segment is total and finds its one longest valid chain:
    whatever the bytes, [ReadPrefix] reports the records of the unique list
    [fs] of well-formed, hash-linked, consecutively numbered records after
    which the bytes stop being a record that continues the chain.  It reports
    them complete when nothing follows, as a torn prefix (with the bytes to
    quarantine) when what follows is cut short, and refuses the segment at the
    exact offset when what follows is corrupt.  No input makes it panic. *)
Theorem ReadPrefix_longest_chain {S} `{SegmentLaws S} (s : S) :
  sized s ->
  exists fs tail,
    longest 1 GenesisCommitment (contents s) fs tail /\
    (forall fs' tail', longest 1 GenesisCommitment (contents s) fs' tail' ->
       fs' = fs /\ tail' = tail) /\
    ReadPrefix s =
    match verdict_at (1 + len fs) (head_from GenesisCommitment fs) tail with
    | Done => Ok (prefix_of fs false [])
    | TornHere => Ok (prefix_of fs true (take (Z.to_nat MaxRecordBytes) tail))
    | _ => Err (fatal (len (image fs)))
    end.
Proof.
  intros Hs. destruct (longest_exists s Hs) as (fs & tail & Hl). exists fs, tail.
  split; [done|]. split; [|by apply ReadPrefix_cases].
  intros fs' tail' Hl'. by apply (longest_unique 1 GenesisCommitment (contents s)).
Qed.

Lemma verdict_torn k prev f n :
  wf_fields f -> encodable f -> (0 < n < length (layout f))%nat ->
  verdict_at k prev (take n (layout f)) = TornHere.
Proof.
  intros Hwf Henc Hn. unfold verdict_at. rewrite DecodeRecord_take by (done || lia).
  rewrite (proj2 (Z.eqb_neq _ _)); [done|]. unfold len. rewrite length_take. lia.
Qed.

Lemma layout_small f n :
  wf_fields f -> encodable f ->
  take (Z.to_nat MaxRecordBytes) (take n (layout f)) = take n (layout f).
Proof.
  intros Hwf (_ & _ & _ & Hp). apply take_ge. rewrite length_take.
  pose proof (len_layout f Hwf) as Hl. unfold record_len in Hl.
  rewrite MaxPayloadBytes_val in Hp. unfold RecordOverhead in Hl.
  assert (MaxRecordBytes = 1048728) by done. unfold len in *. lia.
Qed.

Lemma ReadPrefix_cut {S} `{SegmentLaws S} (s : S) fs f n :
  sized s -> chain fs -> wf_fields f -> encodable f -> (n < length (layout f))%nat ->
  contents s = image fs ++ take n (layout f) ->
  ReadPrefix s = Ok (prefix_of fs (bool_decide (0 < n)%nat) (take n (layout f))).
Proof.
  intros Hs Hc Hwf Henc Hn E. destruct n as [|n].
  { rewrite take_0, app_nil_r in E. rewrite bool_decide_false by lia.
    by apply ReadPrefix_image. }
  rewrite bool_decide_true by lia.
  pose proof (verdict_torn (1 + len fs) (head_from GenesisCommitment fs) f (Datatypes.S n)
    Hwf Henc ltac:(lia)) as Hv.
  rewrite (ReadPrefix_cases s fs (take (Datatypes.S n) (layout f))); [|done|].
  - rewrite Hv, layout_small by done. done.
  - apply longest_split; [done|done|]. by rewrite Hv.
Qed.

(** Crash recovery of an append: after any number of committed records, a
    crash that leaves an arbitrary proper prefix of the next record leaves a
    segment that reads back as exactly the committed records; the tail is
    reported torn, and quarantined verbatim, precisely when there is one. *)
Lemma ReadPrefix_after_crash {S} `{SegmentLaws S} (s : S) fs f n :
  sized s -> chain fs -> wf_fields f -> encodable f -> (n < length (layout f))%nat ->
  contents s = image fs ++ take n (layout f) ->
  ReadPrefix s = Ok (prefix_of fs (bool_decide (0 < n)%nat) (take n (layout f))).
Proof. apply ReadPrefix_cut. Qed.

(** ** The verifier agrees with the reader *)

Module VerifyProofs.
Import Verify.

Definition vextend (r : Result) (k : Z) (prev : bytes) (fs : list RecordFields) : Result :=
  match fs with
  | [] => r
  | _ => mkResult (RecordCount r + len fs) (VBytes r + len (image fs)) (head_from prev fs)
           (k + len fs) (VTorn r) (VTornOffset r) (Fatal r) (FatalOffset r)
  end.

Definition vfinish (r : Result) (off : Z) (v : verdict) : Result :=
  match v with
  | Done => r
  | TornHere => set_torn r off
  | _ => set_fatal r off
  end.

Lemma verify_loop_step fuel pre data k prev r :
  len data <> 0 ->
  verify_loop (Datatypes.S fuel) (pre ++ data) (len pre) k prev r =
  match DecodeRecord data with
  | Panic => Panic
  | Err e => if AsKind e KindIncomplete then Ok (set_torn r (len pre)) else Ok (set_fatal r (len pre))
  | Ok (rec, n) =>
      if negb (chain_ok k prev rec) then Ok (set_fatal r (len pre))
      else verify_loop fuel (pre ++ data) (len pre + n) (u64 (k + 1)) (RecordCommitment rec)
             (mkResult (RecordCount r + 1) (VBytes r + n) (RecordCommitment rec)
                (u64 (Sequence rec + 1)) (VTorn r) (VTornOffset r) (Fatal r) (FatalOffset r))
  end.
Proof.
  intros Hne. pose proof (len_nonneg data). pose proof (len_nonneg pre).
  cbn [verify_loop]. rewrite len_app. dec_true (len pre <? len pre + len data). cbn [negb].
  rewrite slice_ok by (rewrite ?len_app; lia). cbn [bind].
  rewrite sub_app_r by lia. rewrite Z.sub_diag, sub_full by lia.
  destruct (DecodeRecord data) as [[rec n]|e|]; [|done..].
  unfold chain_ok. destruct (Sequence rec =? k); [|done]. cbn [negb].
  destruct (k =? 1); by case_bool_decide.
Qed.

Lemma vextend_cons r k prev f fs :
  1 <= k -> k + 1 < 18446744073709551616 -> FSequence f = k ->
  vextend (mkResult (RecordCount r + 1) (VBytes r + len (layout f)) (commitment_of f)
    (u64 (FSequence f + 1)) (VTorn r) (VTornOffset r) (Fatal r) (FatalOffset r))
    (k + 1) (commitment_of f) fs = vextend r k prev (f :: fs).
Proof.
  intros Hk Hk1 ->. unfold u64. rewrite Z.mod_small by lia. unfold vextend.
  destruct fs as [|g fs]; cbn [RecordCount VBytes VTorn VTornOffset Fatal FatalOffset head_from].
  - rewrite image_cons. unfold image. cbn [map concat]. by rewrite app_nil_r.
  - rewrite (image_cons f), len_app, !len_cons. f_equal; lia.
Qed.

Lemma verify_loop_longest fuel pre data k prev r fs tail :
  longest k prev data fs tail -> VBytes r = len pre ->
  len data / 152 < Z.of_nat fuel ->
  1 <= k -> k + len data < 18446744073709551616 -> (k = 1 -> prev = GenesisCommitment) ->
  verify_loop fuel (pre ++ data) (len pre) k prev r =
  Ok (vfinish (vextend r k prev fs) (len pre + len (image fs))
        (verdict_at (k + len fs) (head_from prev fs) tail)).
Proof.
  revert pre data k prev r fs.
  induction fuel as [|fuel IH]; intros pre data k prev r fs Hl Hr Hfuel Hk Hkd Hgen.
  { pose proof (Z.div_pos (len data) 152 (len_nonneg _)). lia. }
  destruct fs as [|f fs].
  - destruct Hl as (-> & _ & Hv). cbn [image map concat app head_from] in *.
    rewrite len_nil, !Z.add_0_r in *. cbn [vextend]. revert Hv. unfold verdict_at.
    destruct (len tail =? 0) eqn:E; reflect_bools.
    { intros _. apply len_zero_nil in E as ->. cbn [app verify_loop]. rewrite app_nil_r.
      by dec_false (len pre <? len pre). }
    rewrite verify_loop_step by done.
    destruct (DecodeRecord tail) as [[rec n]|e|] eqn:D.
    + by destruct (chain_ok k prev rec).
    + by destruct (AsKind e KindIncomplete).
    + by apply DecodeRecord_no_panic in D.
  - destruct Hl as (-> & Hf & Hv). pose proof (linked_decode _ _ _ _ tail Hf) as Hd.
    pose proof Hf as (Hwf & Henc & Hseq & Hpv & Hfs).
    pose proof (len_layout_ge f Hwf) as Hge.
    rewrite image_cons, <- app_assoc in *. pose proof (len_nonneg (image fs ++ tail)).
    rewrite len_app in Hkd.
    rewrite verify_loop_step by (rewrite len_app; lia). rewrite Hd.
    rewrite (proj2 (chain_ok_record k prev f Hgen)) by done. cbn [negb].
    cbn [record_of RecordCommitment Sequence]. unfold u64 at 1. rewrite Z.mod_small by lia.
    rewrite <- len_app, app_assoc. rewrite len_cons in *.
    rewrite (IH _ _ _ _ _ fs); [|..|by eapply fuel_step| | |];
      try lia; try (cbn; rewrite ?len_app; lia).
    + rewrite (vextend_cons _ _ prev) by (done || lia). rewrite !len_app. cbn [head_from].
      replace (k + 1 + len fs) with (k + (1 + len fs)) by lia.
      by rewrite (Z.add_assoc (len pre)).
    + split; [done|]. split; [done|].
      by replace (k + 1 + len fs) with (k + (1 + len fs)) by lia.
Qed.

(** What the verifier reports for the records [fs]. *)
Definition result_of (fs : list RecordFields) : Result :=
  mkResult (len fs) (len (image fs)) (head_from zeroDigest fs) (1 + len fs) false 0 false 0.

Lemma VerifyBytes_cases data fs tail :
  len data < 9223372036854775808 -> longest 1 GenesisCommitment data fs tail ->
  VerifyBytes data =
  Ok (vfinish (result_of fs) (len (image fs))
        (verdict_at (1 + len fs) (head_from GenesisCommitment fs) tail)).
Proof.
  intros Hs Hl. pose proof (len_nonneg data) as H0'.
  assert (Hr : vextend emptyResult 1 GenesisCommitment fs = result_of fs) by (by destruct fs).
  pose proof (verify_loop_longest (scan_fuel (len data)) [] data 1 GenesisCommitment emptyResult
    fs tail Hl ltac:(done)) as Hloop.
  rewrite <- Hr, <- (Z.add_0_l (len (image fs))). cbn [app] in Hloop. rewrite len_nil in Hloop.
  rewrite <- Hloop; [|unfold scan_fuel; pose proof (Z.div_pos (len data) 152 H0'); lia|lia..|done].
  unfold VerifyBytes. destruct (len data =? 0) eqn:E; [|done].
  reflect_bools. apply len_zero_nil in E as ->. done.
Qed.

(** C37. The independent verifier and the recovering reader agree on every byte
    sequence: the same record count, accepted length, head commitment and next
    sequence, the same torn verdict and offset, and the verifier declares a
    fatal offset exactly when, and where, the reader refuses the segment. *)
Theorem VerifyBytes_agrees data :
  len data < 9223372036854775808 ->
  exists r, VerifyBytes data = Ok r /\
    match ReadPrefixBytes data with
    | Ok p =>
        RecordCount r = len (Records p) /\ VBytes r = Bytes p /\
        VHeadCommitment r = HeadCommitment p /\ VNextSequence r = NextSequence p /\
        VTorn r = Torn p /\ VTornOffset r = TornOffset p /\ Fatal r = false
    | Err e => Fatal r = true /\ e = fatal (FatalOffset r) /\ FatalOffset r = VBytes r
    | Panic => False
    end.
Proof.
  intros Hs. assert (Hm : sized (mkMem data)) by done.
  destruct (longest_exists (mkMem data) Hm) as (fs & tail & Hl).
  rewrite (VerifyBytes_cases data fs tail Hs Hl). eexists. split; [done|].
  unfold ReadPrefixBytes. rewrite (ReadPrefix_cases _ fs tail Hm Hl).
  assert (Hlen : len fs = len (map record_of fs)) by (unfold len; by rewrite length_map).
  destruct (verdict_at _ _ tail); done.
Qed.

End VerifyProofs.

(** ** The writer against the abstract journal *)

Section WriterProofs.
Context {S : Type} `{SegmentLaws S}.
Implicit Types (w : Writer S) (fs : list RecordFields).

(** The record the writer appends next. *)
Definition next_fields fs (txid : bytes) (rtype : Z) (payload : bytes) : RecordFields :=
  mkFields (1 + len fs) txid rtype (head_from GenesisCommitment fs) payload.

(** The writer stands at the end of the chain [fs]. *)
Definition positioned w fs : Prop :=
  nextSeq w = 1 + len fs /\ prevCommitment w = head_from GenesisCommitment fs.

(** ... and the segment holds exactly that chain. *)
Definition synced w fs : Prop :=
  sized (seg w) /\ chain fs /\ contents (seg w) = image fs /\ positioned w fs.

Lemma len_head_from prev fs : len prev = 32 -> len (head_from prev fs) = 32.
Proof.
  revert prev. induction fs as [|f fs IH]; intros prev Hp; [done|].
  cbn. apply IH. apply len_sha256.
Qed.

Lemma chain_len fs : chain fs -> 152 * len fs <= len (image fs).
Proof. intros Hc. by eapply len_image, linked_Forall_wf. Qed.

Lemma next_fields_wf fs txid rtype payload :
  chain fs -> len (image fs) < 9223372036854775808 -> len txid = 16 -> is_u16 rtype ->
  wf_fields (next_fields fs txid rtype payload).
Proof.
  intros Hc Hs Ht Hr. pose proof (chain_len fs Hc). pose proof (len_nonneg fs).
  split; [unfold is_u64; cbn; lia|]. split; [done|]. split; [done|]. by apply len_head_from.
Qed.

Lemma chain_snoc fs f :
  chain fs -> wf_fields f -> encodable f -> FSequence f = 1 + len fs ->
  FPreviousCommitment f = head_from GenesisCommitment fs -> chain (fs ++ [f]).
Proof. intros. apply linked_app. split; [done|]. cbn [linked]. tauto. Qed.

Lemma head_snoc fs f : head_from GenesisCommitment (fs ++ [f]) = commitment_of f.
Proof. by rewrite head_from_app. Qed.

Lemma image_snoc fs f : image (fs ++ [f]) = image fs ++ layout f.
Proof. rewrite image_app. unfold image at 2. cbn. by rewrite app_nil_r. Qed.

Lemma NextSequence_1 fs : chain fs -> (1 + len fs =? 1) = bool_decide (fs = []).
Proof.
  intros _. destruct fs as [|f fs]; [done|]. rewrite len_cons. pose proof (len_nonneg fs).
  rewrite bool_decide_false by done. lia.
Qed.

Lemma open_prev fs :
  chain fs ->
  (if 1 + len fs =? 1 then GenesisCommitment else head_from zeroDigest fs) =
  head_from GenesisCommitment fs.
Proof. intros Hc. rewrite NextSequence_1 by done. case_bool_decide; by subst. Qed.

(** The calls an append makes once its guards have passed. *)
Lemma Append_synced w fs txid rtype payload :
  synced w fs -> closed w = false ->
  Append w txid rtype payload =
  match EncodeRecord (next_fields fs txid rtype payload) with
  | Panic => (w, Panic)
  | Err e => (w, Err (CodecError e))
  | Ok enc =>
    if MaxJournalSegmentBytes <? len (image fs) + len enc then (w, Err (fatal 0)) else
    let '(s1, aerr) := SegAppend (seg w) enc in
    match aerr with
    | Some e => (with_seg w s1, Err (IOError e))
    | None =>
      let '(s2, serr) := SegSync s1 in
      match serr with
      | Some e => (with_seg w s2, Err (IOError e))
      | None =>
        match DecodeRecord enc with
        | Panic => (with_seg w s2, Panic)
        | Err _ => (with_seg w s2, Err (fatal (Size s2 - len enc)))
        | Ok (rec, _) =>
            (mkWriter s2 (u64 (nextSeq w + 1)) (RecordCommitment rec) (closed w), Ok rec)
        end
      end
    end
  end.
Proof.
  intros (Hs & Hc & Hi & Hn & Hp) Hcl. unfold Append. rewrite Hcl.
  pose proof Hs as [Hv Hlt]. rewrite size_contents, Hi by done.
  rewrite Hn, NextSequence_1, Hp by done.
  assert (Hg : (0 <? len (image fs)) && bool_decide (fs = []) = false).
  { case_bool_decide; [by subst|]. apply andb_false_r. }
  rewrite Hg, (ReadPrefix_image _ fs) by done.
  cbn [prefix_of Torn NextSequence]. by rewrite Z.eqb_refl.
Qed.

Lemma sized_grow s s' p n :
  sized s -> valid s' -> contents s' = contents s ++ take n p ->
  len (contents s) + len p <= MaxJournalSegmentBytes -> sized s'.
Proof.
  intros _ Hv Hc Hl. split; [done|]. rewrite Hc, len_app.
  assert (MaxJournalSegmentBytes = 1073741824) by done.
  unfold len in *. rewrite length_take. lia.
Qed.

(** After an append that stopped anywhere, the committed records are readable. *)
Lemma read_after_partial s fs f n :
  sized s -> chain fs -> wf_fields f -> encodable f -> FSequence f = 1 + len fs ->
  FPreviousCommitment f = head_from GenesisCommitment fs ->
  contents s = image fs ++ take n (layout f) ->
  exists p, ReadPrefix s = Ok p /\
    (Records p = map record_of fs \/ Records p = map record_of (fs ++ [f])).
Proof.
  intros Hs Hc Hwf Henc Hseq Hpv Hct.
  destruct (decide (n < length (layout f))%nat) as [Hn|Hn].
  - eexists. split; [by apply (ReadPrefix_cut s fs f n)|]. by left.
  - eexists. split; [apply (ReadPrefix_image s (fs ++ [f])); [done|by apply chain_snoc|]|by right].
    by rewrite Hct, image_snoc, take_ge by lia.
Qed.

(** What a failed append leaves behind: the writer's position is unchanged and
    the segment holds the chain followed by part of the new record. *)
Definition stopped w w' fs f : Prop :=
  positioned w' fs /\ closed w' = closed w /\ sized (seg w') /\
  (contents (seg w') = image fs \/
   wf_fields f /\ encodable f /\ exists n, contents (seg w') = image fs ++ take n (layout f)).

Lemma Append_outcome w fs txid rtype payload :
  synced w fs -> closed w = false -> len txid = 16 -> is_u16 rtype ->
  let f := next_fields fs txid rtype payload in
  match Append w txid rtype payload with
  | (w', Ok rec) =>
      encodable f /\ rec = record_of f /\ synced w' (fs ++ [f]) /\ closed w' = false
  | (w', Err e) => stopped w w' fs f
  | (_, Panic) => False
  end.
Proof.
  intros Hsy Hcl Ht Hr f. rewrite (Append_synced w fs) by done. fold f.
  pose proof Hsy as (Hs & Hc & Hi & Hn & Hp). pose proof Hs as [Hv Hlt]. rewrite Hi in Hlt.
  assert (Hwf : wf_fields f) by (by apply next_fields_wf).
  assert (Hstay : stopped w w fs f) by (split; [done|]; split; [done|]; split; [done|]; by left).
  destruct (EncodeRecord f) as [enc|e|] eqn:He; [|done|by apply (EncodeRecord_no_panic f Hwf) in He].
  pose proof (EncodeRecord_encodable f enc Hwf He) as Henc.
  rewrite EncodeRecord_layout in He by done. injection He as <-.
  destruct (MaxJournalSegmentBytes <? _) eqn:Hfit; [done|]. reflect_bools. rewrite <- Hi in Hfit.
  assert (Hpart : forall s' n, valid s' -> contents s' = contents (seg w) ++ take n (layout f) ->
            stopped w (with_seg w s') fs f).
  { intros s' n Hv' Hct. split; [done|]. split; [done|].
    split; [|by right; rewrite <- Hi; eauto].
    apply (sized_grow (seg w) s' (layout f) n); done. }
  destruct (SegAppend (seg w) (layout f)) as [s1 [e|]] eqn:Ea.
  { destruct (append_failed _ _ _ _ Hv Ea) as (? & n & ?). by eapply Hpart. }
  destruct (append_contents _ _ _ Hv Ea) as [Hv1 Hc1].
  destruct (SegSync s1) as [s2 serr] eqn:Es.
  destruct (sync_contents _ _ _ Hv1 Es) as [Hv2 Hc2].
  assert (Hfull : contents s2 = contents (seg w) ++ take (length (layout f)) (layout f))
    by (by rewrite Hc2, Hc1, take_ge).
  destruct serr as [e|]; [by eapply Hpart|].
  pose proof (DecodeRecord_layout f [] Hwf Henc) as Hd. rewrite app_nil_r in Hd. rewrite Hd.
  split; [done|]. split; [done|]. split; [|done].
  split; [apply (sized_grow (seg w) s2 (layout f) (length (layout f))); done|].
  split; [by apply chain_snoc|]. split; [cbn; rewrite Hc2, Hc1, Hi; by rewrite image_snoc|].
  pose proof (chain_len fs Hc). pose proof (len_nonneg fs).
  split; cbn [nextSeq prevCommitment]; [|by rewrite head_snoc]. rewrite Hn, len_app. unfold u64.
  rewrite Z.mod_small by lia. rewrite len_cons, len_nil. lia.
Qed.

(** C8. Appending is atomic with respect to the chain.  A writer at the end of
    the segment's chain [fs] either appends exactly one record (the next
    sequence number, linked to the head commitment) and stands at the end of
    the longer chain, or fails without moving and leaves a segment from which
    [ReadPrefix] still recovers every committed record, with at most the new
    record after them.  It never panics. *)
Theorem Append_extends_or_preserves w fs txid rtype payload :
  synced w fs -> closed w = false -> len txid = 16 -> is_u16 rtype ->
  let f := next_fields fs txid rtype payload in
  match Append w txid rtype payload with
  | (w', Ok rec) => rec = record_of f /\ synced w' (fs ++ [f])
  | (w', Err e) =>
      positioned w' fs /\
      exists p, ReadPrefix (seg w') = Ok p /\
        (Records p = map record_of fs \/ Records p = map record_of (fs ++ [f]))
  | (_, Panic) => False
  end.
Proof.
  intros Hsy Hcl Ht Hr f.
  pose proof (Append_outcome w fs txid rtype payload Hsy Hcl Ht Hr) as Ho. cbn zeta in Ho. fold f in Ho.
  destruct (Append w txid rtype payload) as [w' [rec|e|]]; [tauto| |done].
  destruct Hsy as (_ & Hc & _ & _).
  destruct Ho as (Hpos & _ & Hs & [Hct|(Hwf & Henc & n & Hct)]); (split; [done|]).
  - eexists. split; [by apply ReadPrefix_image|by left].
  - by apply (read_after_partial _ fs f n).
Qed.

(** No append over unfinished bytes: a writer whose segment holds, after
    the chain it knows, any nonempty part of a further record (left by a failed
    append or sync) refuses to append and changes nothing. *)
Lemma Append_refuses_unsynced w fs f n txid rtype payload :
  sized (seg w) -> chain fs -> positioned w fs -> closed w = false ->
  wf_fields f -> encodable f -> FSequence f = 1 + len fs ->
  FPreviousCommitment f = head_from GenesisCommitment fs ->
  (0 < n)%nat -> contents (seg w) = image fs ++ take n (layout f) ->
  exists off, Append w txid rtype payload = (w, Err (JError KindState off)).
Proof.
  intros Hs Hc [Hn Hp] Hcl Hwf Henc Hseq Hpv Hpos Hct. unfold Append. rewrite Hcl, Hn.
  destruct ((0 <? Size (seg w)) && _); [eauto|].
  destruct (decide (n < length (layout f))%nat) as [Hlt|Hge].
  - rewrite (ReadPrefix_cut _ fs f n) by done. rewrite bool_decide_true by done. cbn. eauto.
  - rewrite (ReadPrefix_image _ (fs ++ [f])); [|done|by apply chain_snoc|].
    2:{ by rewrite Hct, image_snoc, take_ge by lia. }
    cbn [prefix_of Torn NextSequence]. rewrite len_app, len_cons, len_nil.
    rewrite (proj2 (Z.eqb_neq _ _)) by lia. eauto.
Qed.

(** Reopening: on a segment that reads back without a torn tail,
    [OpenWriter] yields a writer positioned at the end of exactly the records
    it returns, ready to append. *)
Lemma OpenWriter_synced s w p :
  sized s -> OpenWriter s = Ok (w, p) -> Torn p = false ->
  exists fs, synced w fs /\ Records p = map record_of fs /\ closed w = false /\ seg w = s.
Proof.
  intros Hs Ho Ht. destruct (longest_exists s Hs) as (fs & tail & Hl).
  unfold OpenWriter in Ho. rewrite (ReadPrefix_cases s fs tail) in Ho by done.
  destruct (verdict_at _ _ tail) eqn:Hv; cbn [bind] in Ho; [|by injection Ho as <- <-|done..].
  injection Ho as <- <-. exists fs. destruct Hl as (Hct & Hch & _).
  assert (tail = []) as ->.
  { unfold verdict_at in Hv. destruct (len tail =? 0) eqn:E.
    - reflect_bools. by apply len_zero_nil.
    - repeat case_match; done. }
  split; [|done]. split; [done|]. split; [done|]. split; [by rewrite app_nil_r in Hct|].
  split; [done|]. by apply open_prev.
Qed.

End WriterProofs.

(** Appending makes progress: on a segment whose append and sync succeed,
    every record the format admits and the segment has room for is appended. *)
Lemma Append_succeeds {S} `{SegmentLaws S} (w : Writer S) fs txid rtype payload s1 s2 :
  synced w fs -> closed w = false -> len txid = 16 -> 1 <= rtype <= 10 ->
  len payload <= MaxPayloadBytes ->
  len (image fs) + 152 + len payload <= MaxJournalSegmentBytes ->
  let f := next_fields fs txid rtype payload in
  SegAppend (seg w) (layout f) = (s1, None) -> SegSync s1 = (s2, None) ->
  exists w', Append w txid rtype payload = (w', Ok (record_of f)) /\ seg w' = s2.
Proof.
  intros Hsy Hcl Ht Hr Hp Hfit f Ha Hs.
  pose proof Hsy as ([_ Hlt] & Hc & Hi & _). rewrite Hi in Hlt.
  assert (Hwf : wf_fields f) by (apply next_fields_wf; done || unfold is_u16; lia).
  assert (Henc : encodable f).
  { pose proof (len_nonneg fs). unfold encodable, f, next_fields.
    cbn [FSequence FType FPreviousCommitment FPayload].
    split; [lia|]. split; [lia|]. split; [|done]. intros Hone.
    assert (fs = []) as -> by (apply len_zero_nil; lia). done. }
  rewrite (Append_synced w fs) by done. fold f. rewrite EncodeRecord_layout by done.
  rewrite len_layout by done. unfold record_len, RecordOverhead. cbn [FPayload f next_fields].
  rewrite (proj2 (Z.ltb_ge _ _)) by lia. rewrite Ha, Hs.
  pose proof (DecodeRecord_layout f [] Hwf Henc) as Hd. rewrite app_nil_r in Hd. rewrite Hd.
  by eexists.
Qed.

(** ** The hash chain binds the history *)

Lemma header_inj rl1 s1 tx1 t1 pd1 p1 rl2 s2 tx2 t2 pd2 p2 :
  is_u32 rl1 -> is_u32 rl2 -> is_u64 s1 -> is_u64 s2 -> is_u16 t1 -> is_u16 t2 ->
  len tx1 = 16 -> len tx2 = 16 -> len pd1 = len pd2 ->
  header rl1 s1 tx1 t1 pd1 p1 = header rl2 s2 tx2 t2 pd2 p2 ->
  s1 = s2 /\ tx1 = tx2 /\ t1 = t2 /\ pd1 = pd2 /\ p1 = p2.
Proof.
  unfold header, len. intros ? ? ? ? ? ? ? ? Hpd E.
  do 3 (apply app_inj_1 in E as [_ E]; [|done]).
  apply app_inj_1 in E as [_ E]; [|by rewrite !length_le_bytes].
  apply app_inj_1 in E as [Es E]; [|by rewrite !length_le_bytes].
  apply app_inj_1 in E as [Etx E]; [|lia].
  apply app_inj_1 in E as [Et E]; [|by rewrite !length_le_bytes].
  apply app_inj_1 in E as [_ E]; [|by rewrite !length_le_bytes].
  apply app_inj_1 in E as [Epd Ep]; [|lia].
  apply le_bytes_inj in Es; [|done..]. apply le_bytes_inj in Et; [|done..]. done.
Qed.

Lemma preimage_of_inj f g :
  wf_fields f -> encodable f -> wf_fields g -> encodable g ->
  preimage_of f = preimage_of g -> f = g.
Proof.
  intros (Hs & Htx & Hty & Hpv) (_ & _ & _ & Hpl) (Hs' & Htx' & Hty' & Hpv') (_ & _ & _ & Hpl') E.
  rewrite MaxPayloadBytes_val in *.
  pose proof (len_nonneg (FPayload f)). pose proof (len_nonneg (FPayload g)).
  unfold preimage_of in E. apply app_inj_1 in E as [Eh Ep].
  2:{ apply Nat2Z.inj. fold (len (header (record_len f) (FSequence f) (FTransactionID f)
        (FType f) (sha256 (FPayload f)) (FPreviousCommitment f))).
      rewrite len_header by (done || apply len_sha256). symmetry.
      by apply (len_header (record_len g)); [..|apply len_sha256|]. }
  apply header_inj in Eh as (? & ? & ? & _ & ?); try done;
    try (by rewrite !len_sha256); try (unfold is_u32, record_len, RecordOverhead; lia).
  destruct f, g; cbn in *; congruence.
Qed.

Lemma elem_of_snoc {A} (x : A) l : x ∈ l ++ [x].
Proof. apply elem_of_app. right. left. Qed.

(** A record of each journal, with one digest for two preimages. *)
Definition colliding (fs gs : list RecordFields) : Prop :=
  exists f g, f ∈ fs /\ g ∈ gs /\ preimage_of f <> preimage_of g /\
    sha256 (preimage_of f) = sha256 (preimage_of g).

(** The head commitment pins the whole history: two journals with the same
    head commitment hold the same records, unless the commitment preimages of a
    record of each are a SHA-256 collision, or the preimage of one of the
    records has the all-zero digest. *)
Lemma head_commitment_binds fs gs :
  chain fs -> chain gs ->
  head_from GenesisCommitment fs = head_from GenesisCommitment gs ->
  fs = gs \/ colliding fs gs \/
  (exists f, f ∈ fs ++ gs /\ sha256 (preimage_of f) = GenesisCommitment).
Proof.
  revert gs. induction fs as [|f fs IH] using rev_ind; intros gs Hf Hg E.
  - destruct gs as [|g gs _] using rev_ind; [by left|]. rewrite head_snoc in E.
    right. right. exists g. split; [apply elem_of_snoc|by symmetry].
  - destruct gs as [|g gs _] using rev_ind; rewrite head_snoc in E.
    { right. right. exists f. split; [rewrite app_nil_r; apply elem_of_snoc|done]. }
    rewrite head_snoc in E.
    destruct (decide (preimage_of f = preimage_of g)) as [Ep|Ep].
    2:{ right. left. exists f, g. split_and!; [apply elem_of_snoc|apply elem_of_snoc|done|done]. }
    apply linked_app in Hf as [Hf (? & ? & Hs & Hp & _)].
    apply linked_app in Hg as [Hg (? & ? & Hs' & Hp' & _)].
    apply preimage_of_inj in Ep as ->; [|done..].
    destruct (IH gs Hf Hg) as [->|[(f' & g' & ? & ? & ?)|(f' & ? & ?)]]; [congruence|by left|..].
    + right. left. exists f', g'. rewrite !elem_of_app. tauto.
    + right. right. exists f'. rewrite !elem_of_app in *. tauto.
Qed.

(** ** Witnesses *)

Lemma f_demo_encodable : encodable f_demo.
Proof. repeat split; vm_compute; congruence. Defined.

Lemma chain_demo : chain [f_demo].
Proof.
  split; [exact f_demo_wf|]. split; [exact f_demo_encodable|]. repeat split; reflexivity.
Defined.

Lemma len_layout_demo : len (layout f_demo) = 157.
Proof. rewrite len_layout by exact f_demo_wf. reflexivity. Defined.

Lemma sized_demo m : len m < 1000 -> sized (mkMem m).
Proof. intros Hm. split; [exact I|]. cbn. lia. Defined.

Definition w_demo : Writer MemSegment :=
  mkWriter (mkMem (layout f_demo)) 2 (commitment_of f_demo) false.

Lemma synced_demo : synced w_demo [f_demo].
Proof.
  split; [apply sized_demo; rewrite len_layout_demo; lia|].
  split; [exact chain_demo|]. split; [|split; reflexivity].
  cbn. by rewrite app_nil_r.
Defined.

(** A segment with one record and four bytes of the next. *)
Example ReadPrefix_torn_demo :
  match ReadPrefix (mkMem (b_demo ++ str "INTJ")) with
  | Ok p => (len (Records p), Bytes p, NextSequence p, Torn p, TornOffset p, Quarantine p)
            = (1, 157, 2, true, 157, str "INTJ")
  | _ => False
  end.
Proof. vm_compute. reflexivity. Qed.

Lemma ReadPrefix_longest_chain_witness :
  exists fs tail,
    longest 1 GenesisCommitment (layout f_demo ++ str "INTJ") fs tail /\
    ReadPrefix (mkMem (layout f_demo ++ str "INTJ")) =
    match verdict_at (1 + len fs) (head_from GenesisCommitment fs) tail with
    | Done => Ok (prefix_of fs false [])
    | TornHere => Ok (prefix_of fs true (take (Z.to_nat MaxRecordBytes) tail))
    | _ => Err (fatal (len (image fs)))
    end.
Proof.
  destruct (ReadPrefix_longest_chain (mkMem (layout f_demo ++ str "INTJ")))
    as (fs & tail & Hl & _ & Hr).
  - apply sized_demo. rewrite len_app, len_layout_demo. reflexivity.
  - exists fs, tail. split; [exact Hl|exact Hr].
Defined.

Lemma ReadPrefix_after_crash_witness :
  ReadPrefix (mkMem (take 100 (layout f_demo))) =
  Ok (prefix_of [] true (take 100 (layout f_demo))).
Proof.
  pose proof len_layout_demo as Hl. unfold len in Hl.
  apply (ReadPrefix_after_crash (mkMem (take 100 (layout f_demo))) [] f_demo 100).
  - apply sized_demo. unfold len. rewrite length_take. lia.
  - exact I.
  - exact f_demo_wf.
  - exact f_demo_encodable.
  - lia.
  - reflexivity.
Defined.

Lemma VerifyBytes_agrees_witness :
  exists r, Verify.VerifyBytes (layout f_demo) = Ok r.
Proof.
  destruct (VerifyProofs.VerifyBytes_agrees (layout f_demo)) as (r & Hr & _).
  - rewrite len_layout_demo. reflexivity.
  - exists r. exact Hr.
Defined.

Lemma Append_extends_or_preserves_witness :
  synced w_demo [f_demo] /\
  match Append w_demo (zeros 16) TypeProgress (str "x") with
  | (w', Ok rec) => synced w' ([f_demo] ++ [next_fields [f_demo] (zeros 16) TypeProgress (str "x")])
  | (w', Err e) => positioned w' [f_demo]
  | (_, Panic) => False
  end.
Proof.
  split; [exact synced_demo|].
  pose proof (Append_extends_or_preserves w_demo [f_demo] (zeros 16) TypeProgress (str "x")
    synced_demo eq_refl eq_refl ltac:(unfold is_u16, TypeProgress; lia)) as Ht.
  cbn zeta in Ht. destruct (Append w_demo (zeros 16) TypeProgress (str "x")) as [w' [rec|e|]];
    [apply Ht|apply Ht|exact Ht].
Defined.

Lemma Append_refuses_unsynced_witness :
  exists off,
    Append (mkWriter (mkMem (take 20 (layout f_demo))) 1 GenesisCommitment false) (zeros 16) 4 [] =
    (mkWriter (mkMem (take 20 (layout f_demo))) 1 GenesisCommitment false,
     Err (JError KindState off)).
Proof.
  apply (Append_refuses_unsynced
    (mkWriter (mkMem (take 20 (layout f_demo))) 1 GenesisCommitment false) [] f_demo 20).
  - apply sized_demo. unfold len. rewrite length_take. lia.
  - exact I.
  - split; reflexivity.
  - reflexivity.
  - exact f_demo_wf.
  - exact f_demo_encodable.
  - reflexivity.
  - reflexivity.
  - lia.
  - reflexivity.
Defined.

Lemma OpenWriter_synced_witness :
  exists fs, synced (mkWriter NewMemSegment 1 GenesisCommitment false) fs.
Proof.
  destruct (OpenWriter_synced NewMemSegment (mkWriter NewMemSegment 1 GenesisCommitment false)
    emptyPrefix) as (fs & Hs & _).
  - apply sized_demo. reflexivity.
  - reflexivity.
  - reflexivity.
  - exists fs. exact Hs.
Defined.

Lemma Append_succeeds_witness :
  exists w', Append w_demo (zeros 16) TypeProgress (str "x") =
    (w', Ok (record_of (next_fields [f_demo] (zeros 16) TypeProgress (str "x")))).
Proof.
  destruct (Append_succeeds w_demo [f_demo] (zeros 16) TypeProgress (str "x")
    (mkMem (mbuf (seg w_demo) ++ layout (next_fields [f_demo] (zeros 16) TypeProgress (str "x"))))
    (mkMem (mbuf (seg w_demo) ++ layout (next_fields [f_demo] (zeros 16) TypeProgress (str "x")))))
    as (w' & Hw & _).
  - exact synced_demo.
  - reflexivity.
  - reflexivity.
  - unfold TypeProgress. lia.
  - vm_compute. congruence.
  - unfold image. cbn [map concat]. rewrite app_nil_r, len_layout_demo. vm_compute. congruence.
  - reflexivity.
  - reflexivity.
  - exists w'. exact Hw.
Defined.

Lemma head_commitment_binds_witness :
  chain [f_demo] /\
  ([f_demo] = [f_demo] \/ colliding [f_demo] [f_demo] \/
   (exists f, f ∈ [f_demo] ++ [f_demo] /\ sha256 (preimage_of f) = GenesisCommitment)).
Proof.
  split; [exact chain_demo|].
  exact (head_commitment_binds [f_demo] [f_demo] chain_demo chain_demo eq_refl).
Defined.

End Journal.
