(* ===== verification/Recovery.v ===== *)
(** * Crash recovery (internal/recovery: types.go, errors.go, persist.go, recover.go)

    [Recover] decides what became of a transaction from the longest valid journal
    prefix and an observation of the filesystem, and performs the few effects its
    policy allows.  Persistence is an interface ([PersistIO]); [MemPersist] is the
    in-memory implementation of persist.go.  [Spec] is
    formal/transaction/Transaction.tla. *)

From S2P Require Import Prelude Codec Observability Journal.
Import Codec.

Module Recovery.

(** ** types.go *)

Inductive State :=
| StateCreated | StateAuthenticated | StateManifestVerified | StatePlanned | StateAuthorized
| StateContentReceived | StatePrepared | StateVerified | StatePublishing | StatePublished
| StateConfirmed | StateSuspended | StateCancelled | StateQuarantined | StateRecovering
| StateIrrecoverable.

#[global] Instance State_eq_dec : EqDecision State.
Proof. solve_decision. Defined.

Inductive CrashLabel :=
| LabelJAppendPre | LabelJAppendMid | LabelJAppendPost | LabelJMetaPost | LabelPStageCreate
| LabelPStageSync | LabelPPublishRename | LabelPPublishDirSync | LabelPConfirmPre
| LabelPConfirmPost.

#[global] Instance CrashLabel_eq_dec : EqDecision CrashLabel.
Proof. solve_decision. Defined.

Definition ProgressContentReceived : Z := 1.
Definition ProgressPrepared : Z := 2.
Definition ProgressVerified : Z := 3.
Definition ProgressPublishing : Z := 4.

Definition AuthorizationPayloadSize : Z := 192.

Record AuthorizationBinding := mkBinding {
  PlanDigest : bytes;
  ConfigurationDigest : bytes;
  CapabilityVectorDigest : bytes;
  BRootIdentity : bytes;
  BVolumeIdentity : bytes;
  AuthDigest : bytes }.

(** ** errors.go *)

Inductive Kind := KindFatal | KindQuarantine | KindIdentity | KindState | KindIO.

(** A failure of the package, or one a [PersistIO] returned. *)
Inductive Error :=
| RError (kind : Kind) (field : string)
| IOError (kind : Kind) (label : CrashLabel)
| External.

Definition fatal (field : string) : Error := RError KindFatal field.
Definition identityErr : Error := RError KindIdentity "identity".
Definition stateErr : Error := RError KindState "state".
Definition ioErr (label : CrashLabel) : Error := IOError KindIO label.

Definition DecodeAuthorizationPayload (p : bytes) : res Error AuthorizationBinding :=
  if negb (len p =? AuthorizationPayloadSize) then Err stateErr else
  let! a := slice p 0 32 in
  let! b := slice p 32 64 in
  let! c := slice p 64 96 in
  let! d := slice p 96 128 in
  let! e := slice p 128 160 in
  let! f := slice p 160 192 in
  Ok (mkBinding (copy (zeros 32) a) (copy (zeros 32) b) (copy (zeros 32) c)
        (copy (zeros 32) d) (copy (zeros 32) e) (copy (zeros 32) f)).

Definition EncodeAuthorizationPayload (b : AuthorizationBinding) : res Error bytes :=
  let out := zeros AuthorizationPayloadSize in
  let! out := copy_into out 0 32 (PlanDigest b) in
  let! out := copy_into out 32 64 (ConfigurationDigest b) in
  let! out := copy_into out 64 96 (CapabilityVectorDigest b) in
  let! out := copy_into out 96 128 (BRootIdentity b) in
  let! out := copy_into out 128 160 (BVolumeIdentity b) in
  copy_into out 160 192 (AuthDigest b).

Definition EncodeProgressPayload (code : Z) : res Error bytes := PutU16LE (zeros 2) (u16 code).

Record FSObservation := mkObservation {
  RootIdentity : bytes;
  VolumeIdentity : bytes;
  StagingPresent : bool;
  PublicationStarted : bool;
  PublicationLinearized : bool;
  PublishedContentMatches : bool }.

(** [Events] says whether the policy has a sink. *)
Record Policy := mkPolicy { AllowStagingCleanup : bool; AllowConfirm : bool; Events : bool }.

Inductive ActionKind :=
| ActionEnterRecovering | ActionCleanupStaging | ActionQuarantineStaging | ActionConfirm | ActionNoop.

Record Action := mkAction { AKind : ActionKind; ALabel : option CrashLabel }.

Record Outcome := mkOutcome {
  OState : option State;
  Actions : list Action;
  IdempotentNoop : bool;
  TornTail : bool;
  OTransactionID : bytes;
  Authorized : bool;
  Published : bool;
  Confirmations : Z;
  RecoveryCount : Z;
  Binding : option AuthorizationBinding }.

Definition Terminal (s : State) : bool :=
  match s with
  | StatePublished | StateConfirmed | StateCancelled | StateQuarantined | StateIrrecoverable => true
  | _ => false
  end.

(** [Outcome{}], with the zero transaction ID. *)
Definition emptyOutcome : Outcome := mkOutcome None [] false false (zeros 16) false false 0 0 None.

(** ** persist.go *)

Class PersistIO (P : Type) := {
  Checkpoint : P -> CrashLabel -> P * option Error;
  CleanupStaging : P -> P * option Error;
  QuarantineStaging : P -> P * option Error;
  AppendConfirmation : P -> bytes -> bytes -> P * option Error }.

Record MemPersist := mkMemPersist {
  FailAt : option CrashLabel;
  Checkpoints : list CrashLabel;
  Cleanups : Z;
  Quarantines : Z;
  Confirms : Z;
  ConfirmTX : bytes;
  StagingGone : bool;
  Quarantined : bool }.

Definition mem_Checkpoint (m : MemPersist) (label : CrashLabel) : MemPersist * option Error :=
  (mkMemPersist (FailAt m) (Checkpoints m ++ [label]) (Cleanups m) (Quarantines m) (Confirms m)
     (ConfirmTX m) (StagingGone m) (Quarantined m),
   if bool_decide (FailAt m = Some label) then Some (ioErr label) else None).

Definition mem_CleanupStaging (m : MemPersist) : MemPersist * option Error :=
  (mkMemPersist (FailAt m) (Checkpoints m) (Cleanups m + 1) (Quarantines m) (Confirms m)
     (ConfirmTX m) true (Quarantined m), None).

Definition mem_QuarantineStaging (m : MemPersist) : MemPersist * option Error :=
  (mkMemPersist (FailAt m) (Checkpoints m) (Cleanups m) (Quarantines m + 1) (Confirms m)
     (ConfirmTX m) true true, None).

Definition mem_AppendConfirmation (m : MemPersist) (txid payload : bytes) : MemPersist * option Error :=
  (mkMemPersist (FailAt m) (Checkpoints m) (Cleanups m) (Quarantines m) (Confirms m + 1)
     txid (StagingGone m) (Quarantined m), None).

#[global] Instance MemPersist_PersistIO : PersistIO MemPersist := {
  Checkpoint := mem_Checkpoint;
  CleanupStaging := mem_CleanupStaging;
  QuarantineStaging := mem_QuarantineStaging;
  AppendConfirmation := mem_AppendConfirmation }.

(** ** recover.go: the scan *)

Record abstractFlags := mkFlags {
  txid : option bytes;
  planDigestSeen : bool;
  authorized : bool;
  contentReceived : bool;
  prepared : bool;
  contentVerified : bool;
  publicationStarted : bool;
  published : bool;
  confirmationCount : Z;
  cancelled : bool;
  quarantined : bool;
  recoveryRecords : Z;
  binding : option AuthorizationBinding;
  contradiction : string }.

Definition noFlags : abstractFlags :=
  mkFlags None false false false false false false false 0 false false 0 None "".

Definition set_txid v f := mkFlags v (planDigestSeen f) (authorized f) (contentReceived f)
  (prepared f) (contentVerified f) (publicationStarted f) (published f) (confirmationCount f)
  (cancelled f) (quarantined f) (recoveryRecords f) (binding f) (contradiction f).
Definition set_planDigestSeen v f := mkFlags (txid f) v (authorized f) (contentReceived f)
  (prepared f) (contentVerified f) (publicationStarted f) (published f) (confirmationCount f)
  (cancelled f) (quarantined f) (recoveryRecords f) (binding f) (contradiction f).
Definition set_authorized v b f := mkFlags (txid f) (planDigestSeen f) v (contentReceived f)
  (prepared f) (contentVerified f) (publicationStarted f) (published f) (confirmationCount f)
  (cancelled f) (quarantined f) (recoveryRecords f) b (contradiction f).
Definition set_contentReceived v f := mkFlags (txid f) (planDigestSeen f) (authorized f) v
  (prepared f) (contentVerified f) (publicationStarted f) (published f) (confirmationCount f)
  (cancelled f) (quarantined f) (recoveryRecords f) (binding f) (contradiction f).
Definition set_prepared v f := mkFlags (txid f) (planDigestSeen f) (authorized f)
  (contentReceived f) v (contentVerified f) (publicationStarted f) (published f)
  (confirmationCount f) (cancelled f) (quarantined f) (recoveryRecords f) (binding f) (contradiction f).
Definition set_contentVerified v f := mkFlags (txid f) (planDigestSeen f) (authorized f)
  (contentReceived f) (prepared f) v (publicationStarted f) (published f) (confirmationCount f)
  (cancelled f) (quarantined f) (recoveryRecords f) (binding f) (contradiction f).
Definition set_publication started pub f := mkFlags (txid f) (planDigestSeen f) (authorized f)
  (contentReceived f) (prepared f) (contentVerified f) started pub (confirmationCount f)
  (cancelled f) (quarantined f) (recoveryRecords f) (binding f) (contradiction f).
Definition set_confirmationCount v f := mkFlags (txid f) (planDigestSeen f) (authorized f)
  (contentReceived f) (prepared f) (contentVerified f) (publicationStarted f) (published f) v
  (cancelled f) (quarantined f) (recoveryRecords f) (binding f) (contradiction f).
Definition set_cancelled v f := mkFlags (txid f) (planDigestSeen f) (authorized f)
  (contentReceived f) (prepared f) (contentVerified f) (publicationStarted f) (published f)
  (confirmationCount f) v (quarantined f) (recoveryRecords f) (binding f) (contradiction f).
Definition set_quarantined v f := mkFlags (txid f) (planDigestSeen f) (authorized f)
  (contentReceived f) (prepared f) (contentVerified f) (publicationStarted f) (published f)
  (confirmationCount f) (cancelled f) v (recoveryRecords f) (binding f) (contradiction f).
Definition set_recoveryRecords v f := mkFlags (txid f) (planDigestSeen f) (authorized f)
  (contentReceived f) (prepared f) (contentVerified f) (publicationStarted f) (published f)
  (confirmationCount f) (cancelled f) (quarantined f) v (binding f) (contradiction f).
Definition set_contradiction v f := mkFlags (txid f) (planDigestSeen f) (authorized f)
  (contentReceived f) (prepared f) (contentVerified f) (publicationStarted f) (published f)
  (confirmationCount f) (cancelled f) (quarantined f) (recoveryRecords f) (binding f) v.

(** One record: the flags to go on with, or the flags the scan returns with. *)
Inductive scanned := Go (f : abstractFlags) | Return (f : abstractFlags).

Definition scan_record (rec : Record_) (f : abstractFlags) : res Error scanned :=
  let stop msg := Ok (Return (set_contradiction msg f)) in
  let t := Type_ rec in
  if t =? TypePlanDigest then Ok (Go (set_planDigestSeen true f))
  else if t =? TypeAuthorization then
    if authorized f then stop "duplicate authorization"%string else
    let! b := DecodeAuthorizationPayload (Payload rec) in
    Ok (Go (set_authorized true (Some b) f))
  else if t =? TypeProgress then
    if len (Payload rec) <? 2 then stop "progress payload too short"%string else
    let! p := slice (Payload rec) 0 2 in
    let! code := U16LE p in
    if code =? ProgressContentReceived then Ok (Go (set_contentReceived true f))
    else if code =? ProgressPrepared then Ok (Go (set_prepared true f))
    else if code =? ProgressVerified then Ok (Go (set_contentVerified true f))
    else if code =? ProgressPublishing then Ok (Go (set_publication true (published f) f))
    else stop "unknown progress code"%string
  else if t =? TypeConfirmation then Ok (Go (set_confirmationCount (confirmationCount f + 1) f))
  else if t =? TypeCancellation then Ok (Go (set_cancelled true f))
  else if t =? TypeQuarantine then Ok (Go (set_quarantined true f))
  else if t =? TypeRecovery then Ok (Go (set_recoveryRecords (recoveryRecords f + 1) f))
  else if (t =? TypeObservation) || (t =? TypeCheckpoint) || (t =? TypeEvidenceReference)
  then Ok (Go f)
  else stop "unsupported record type in recovery scan"%string.

Fixpoint scan_loop (recs : list Record_) (f : abstractFlags) : res Error scanned :=
  match recs with
  | [] => Ok (Go f)
  | rec :: recs =>
      let foreign := match txid f with Some t => negb (bool_decide (TransactionID rec = t)) | None => false end in
      if foreign then Ok (Return (set_contradiction "multiple transaction ids in prefix" f)) else
      let f := match txid f with Some _ => f | None => set_txid (Some (TransactionID rec)) f end in
      let! r := scan_record rec f in
      match r with
      | Return f => Ok (Return f)
      | Go f => scan_loop recs f
      end
  end.

(** The checks after the loop; each overwrites the message of the one before. *)
Definition scan_checks (f : abstractFlags) : abstractFlags :=
  let f := match binding f with
           | Some b =>
               if authorized f && negb (planDigestSeen f) && bool_decide (PlanDigest b = zeros 32)
               then set_contradiction "authorization missing plan digest binding" f else f
           | None => f
           end in
  let f := if prepared f && negb (contentReceived f)
           then set_contradiction "prepared without content received" f else f in
  let f := if contentVerified f && negb (prepared f && contentReceived f)
           then set_contradiction "verified without preparation chain" f else f in
  if publicationStarted f && negb (authorized f && contentVerified f)
  then set_contradiction "publication started without authorization/verification" f else f.

Definition scanPrefix (prefix : Journal.Prefix) : res Error abstractFlags :=
  let! r := scan_loop (Journal.Records prefix) noFlags in
  match r with
  | Return f => Ok f
  | Go f => Ok (scan_checks f)
  end.

Definition terminalFromFlags (f : abstractFlags) : bool :=
  if (confirmationCount f =? 1) && published f then true
  else if cancelled f && negb (publicationStarted f) then true
  else quarantined f && negb (published f) && negb (publicationStarted f).

Definition stateFromFlags (f : abstractFlags) : State :=
  if (confirmationCount f =? 1) && published f then StateConfirmed
  else if cancelled f then StateCancelled
  else if quarantined f then StateQuarantined
  else if published f then StatePublished
  else StateQuarantined.

(** ** recover.go: the decision and its effects *)

Definition set_OState v o := mkOutcome v (Actions o) (IdempotentNoop o) (TornTail o)
  (OTransactionID o) (Authorized o) (Published o) (Confirmations o) (RecoveryCount o) (Binding o).
Definition add_Action a o := mkOutcome (OState o) (Actions o ++ [a]) (IdempotentNoop o) (TornTail o)
  (OTransactionID o) (Authorized o) (Published o) (Confirmations o) (RecoveryCount o) (Binding o).
Definition set_Published v o := mkOutcome (OState o) (Actions o) (IdempotentNoop o) (TornTail o)
  (OTransactionID o) (Authorized o) v (Confirmations o) (RecoveryCount o) (Binding o).
Definition set_Confirmations v o := mkOutcome (OState o) (Actions o) (IdempotentNoop o) (TornTail o)
  (OTransactionID o) (Authorized o) (Published o) v (RecoveryCount o) (Binding o).
Definition set_IdempotentNoop v o := mkOutcome (OState o) (Actions o) v (TornTail o)
  (OTransactionID o) (Authorized o) (Published o) (Confirmations o) (RecoveryCount o) (Binding o).

(** [out.State = s; out.IdempotentNoop = true; out.RecoveryCount = 1]. *)
Definition settle (s : State) (o : Outcome) : Outcome :=
  mkOutcome (Some s) (Actions o) true (TornTail o) (OTransactionID o) (Authorized o) (Published o)
    (Confirmations o) 1 (Binding o).

Section Recover.
Context {P : Type} `{PersistIO P}.

(** The persistence handed in, if any, and the events handed to the sink. *)
Record World := mkWorld { wio : option P; wevents : list Observability.Event }.

Definition result : Type := World * Outcome * option Error.

Definition emit (policy : Policy) (id cause message : string) (tx : bytes) (w : World) : World :=
  if negb (Events policy) then w else
  let '(sev, ch) :=
    if bool_decide (id = "recovery.confirmed"%string)
    then (Observability.SeverityInfo, Observability.ChannelOperational)
    else (Observability.SeverityWarning, Observability.ChannelSecurity) in
  mkWorld (wio w) (wevents w ++
    [Observability.mkEvent (sbytes id) ch sev (str "recovery") (zeros 32) tx 0 (sbytes cause)
       Observability.RedactionInternal (sbytes message)]).

Definition with_io (w : World) (p : P) : World := mkWorld (Some p) (wevents w).

(** Run one persistence operation and go on unless it fails. *)
Definition on_io (w : World) (out : Outcome) (op : P -> P * option Error) (wrap : Error -> Error)
    (k : World -> result) : result :=
  match wio w with
  | None => (w, out, None)
  | Some p =>
      let '(p, err) := op p in
      match err with
      | Some e => (with_io w p, out, Some (wrap e))
      | None => k (with_io w p)
      end
  end.

Definition maybeCleanup (policy : Policy) (obs : FSObservation) (w : World) (out : Outcome) : result :=
  if negb (AllowStagingCleanup policy) || bool_decide (wio w = None) || negb (StagingPresent obs)
  then (w, out, None) else
  on_io w out (fun p => Checkpoint p LabelPStageCreate) id (fun w =>
  on_io w out CleanupStaging (fun _ => ioErr LabelPStageCreate) (fun w =>
  let out := add_Action (mkAction ActionCleanupStaging (Some LabelPStageCreate)) out in
  on_io w out (fun p => Checkpoint p LabelPStageSync) id (fun w =>
  (w, add_Action (mkAction ActionCleanupStaging (Some LabelPStageSync)) out, None)))).

Definition maybeQuarantine (policy : Policy) (obs : FSObservation) (w : World) (out : Outcome) : result :=
  if negb (AllowStagingCleanup policy) || bool_decide (wio w = None) then (w, out, None)
  else if negb (StagingPresent obs) && negb (PublicationStarted obs) then (w, out, None) else
  on_io w out (fun p => Checkpoint p LabelPPublishRename) id (fun w =>
  on_io w out QuarantineStaging (fun _ => ioErr LabelPPublishRename) (fun w =>
  let out := add_Action (mkAction ActionQuarantineStaging (Some LabelPPublishRename)) out in
  on_io w out (fun p => Checkpoint p LabelPPublishDirSync) id (fun w =>
  (w, add_Action (mkAction ActionQuarantineStaging (Some LabelPPublishDirSync)) out, None)))).

Definition confirmOnce (tx : bytes) (w : World) (out : Outcome) : result :=
  on_io w out (fun p => Checkpoint p LabelPConfirmPre) id (fun w =>
  on_io w out (fun p => AppendConfirmation p tx []) (fun _ => ioErr LabelPConfirmPre) (fun w =>
  on_io w out (fun p => Checkpoint p LabelPConfirmPost) id (fun w =>
  (w, add_Action (mkAction ActionConfirm (Some LabelPConfirmPost)) out, None)))).

(** [if err := ...; err != nil { return out, err }]. *)
Definition and_then (r : result) (k : World -> Outcome -> result) : result :=
  let '(w, out, err) := r in
  match err with
  | Some e => (w, out, Some e)
  | None => k w out
  end.

(** [out.State = StateIrrecoverable; ...; emit(...); return out, err]. *)
Definition irrecoverable (policy : Policy) (cause message : string) (err : Error) (f : abstractFlags)
    (w : World) (out : Outcome) : result :=
  (emit policy "recovery.irrecoverable" cause message (default (zeros 16) (txid f)) w,
   settle StateIrrecoverable out, Some err).

(** The observed publication: never taken from the journal alone. *)
Definition linearized (obs : FSObservation) : bool :=
  PublicationLinearized obs && PublishedContentMatches obs.

Definition observe (obs : FSObservation) (f : abstractFlags) : abstractFlags :=
  if linearized obs then set_publication true true f
  else if PublicationStarted obs || publicationStarted f then set_publication true (published f) f
  else f.

(** From the point where the outcome enters RECOVERING. *)
Definition decide_recovery (obs : FSObservation) (policy : Policy) (f : abstractFlags)
    (w : World) (out : Outcome) : result :=
  let tx := default (zeros 16) (txid f) in
  if confirmationCount f =? 1 then
    if negb (published f) then
      irrecoverable policy "confirmation" "confirmation without publication" (fatal "confirmation") f w out
    else (w, settle StateConfirmed out, None)
  else if cancelled f && negb (publicationStarted f) && negb (published f) then
    and_then (maybeCleanup policy obs w out) (fun w out => (w, settle StateCancelled out, None))
  else if quarantined f && negb (published f) then
    and_then (maybeQuarantine policy obs w out) (fun w out => (w, settle StateQuarantined out, None))
  else if published f then
    let out := set_OState (Some StatePublished) out in
    if AllowConfirm policy && bool_decide (wio w <> None) then
      and_then (confirmOnce tx w out) (fun w out =>
        (emit policy "recovery.confirmed" "confirm" "confirmation appended" tx w,
         settle StateConfirmed (set_Confirmations 1 out), None))
    else (w, settle StatePublished out, None)
  else
    and_then (maybeQuarantine policy obs w out) (fun w out =>
      (w, set_Published false (settle StateQuarantined out), None)).

Definition Recover (prefix : Journal.Prefix) (obs : FSObservation) (policy : Policy) (w : World)
    : res Error result :=
  match scanPrefix prefix with
  | Panic => Panic
  | Err e => Ok (w, emptyOutcome, Some e)
  | Ok f =>
      Ok (
      let out := mkOutcome None [] false (Journal.Torn prefix) (default (zeros 16) (txid f))
                   (authorized f) false (confirmationCount f) 0 (binding f) in
      let mismatch := match binding f with
        | Some b => negb (bool_decide (BRootIdentity b = RootIdentity obs)) ||
                    negb (bool_decide (BVolumeIdentity b = VolumeIdentity obs))
        | None => false
        end in
      if mismatch then
        irrecoverable policy "identity" "root/volume identity mismatch" identityErr f w out
      else if negb (bool_decide (contradiction f = ""%string)) then
        irrecoverable policy "records" (contradiction f) (fatal "records") f w out
      else if 1 <? confirmationCount f then
        irrecoverable policy "confirmation" "more than one confirmation record" (fatal "confirmation") f w out
      else if linearized obs &&
              (negb (authorized f) || negb (prepared f) || negb (contentVerified f) ||
               negb (contentReceived f)) then
        irrecoverable policy "publication" "publication without authorization chain"
          (fatal "publication") f w out
      else
        let f := observe obs f in
        let out := set_Published (published f) out in
        if (len (Journal.Records prefix) =? 0) && negb (Journal.Torn prefix) &&
           negb (StagingPresent obs) && negb (PublicationStarted obs) &&
           negb (PublicationLinearized obs) then
          (w, set_IdempotentNoop true (set_OState (Some StateCreated)
                (add_Action (mkAction ActionNoop None) out)), None)
        else
          let needsRecovery := negb (terminalFromFlags f) || Journal.Torn prefix ||
            (StagingPresent obs && negb (published f)) ||
            (publicationStarted f && negb (published f)) in
          if negb needsRecovery && terminalFromFlags f then
            (w, settle (stateFromFlags f) (add_Action (mkAction ActionNoop None) out), None)
          else
            decide_recovery obs policy f w
              (set_OState (Some StateRecovering) (add_Action (mkAction ActionEnterRecovering None) out)))
  end.

Definition RecoverAgain (prefix : Journal.Prefix) (obs : FSObservation) (policy : Policy) (w : World)
    : res Error result := Recover prefix obs policy w.

End Recover.

Arguments World P : clear implicits.
Arguments result P : clear implicits.

(** ** Payloads *)

Definition wf_binding (b : AuthorizationBinding) : Prop :=
  len (PlanDigest b) = 32 /\ len (ConfigurationDigest b) = 32 /\
  len (CapabilityVectorDigest b) = 32 /\ len (BRootIdentity b) = 32 /\
  len (BVolumeIdentity b) = 32 /\ len (AuthDigest b) = 32.

Lemma copy_zeros32 (s : bytes) : len s = 32 -> copy (zeros 32) s = s.
Proof. intros Hs. apply copy_exact. unfold len in Hs. change (length (zeros 32)) with 32%nat. lia. Qed.

Lemma DecodeAuthorizationPayload_ok p :
  len p = AuthorizationPayloadSize ->
  exists b, DecodeAuthorizationPayload p = Ok b /\ wf_binding b /\
    p = PlanDigest b ++ ConfigurationDigest b ++ CapabilityVectorDigest b ++
        BRootIdentity b ++ BVolumeIdentity b ++ AuthDigest b.
Proof.
  unfold AuthorizationPayloadSize. intros Hp. unfold DecodeAuthorizationPayload.
  rewrite Hp. change (negb (192 =? AuthorizationPayloadSize)) with false. cbv iota.
  rewrite !slice_ok by lia. cbn [bind]. eexists. split; [done|].
  assert (Hl : forall lo, 0 <= lo <= 160 -> len (sub p lo (lo + 32)) = 32)
    by (intros lo Hlo; rewrite len_sub by lia; lia).
  pose proof (Hl 0 ltac:(lia)). pose proof (Hl 32 ltac:(lia)). pose proof (Hl 64 ltac:(lia)).
  pose proof (Hl 96 ltac:(lia)). pose proof (Hl 128 ltac:(lia)). pose proof (Hl 160 ltac:(lia)).
  unfold wf_binding. cbn [PlanDigest ConfigurationDigest CapabilityVectorDigest BRootIdentity
    BVolumeIdentity AuthDigest]. rewrite !copy_zeros32 by done. split; [done|].
  rewrite <- (sub_split p 128 160 192), <- (sub_split p 96 128 192), <- (sub_split p 64 96 192),
    <- (sub_split p 32 64 192), <- (sub_split p 0 32 192) by lia.
  symmetry. apply sub_full. lia.
Qed.

(** ** The scan *)

Definition code_of (r : Record_) : Z := le_val (sub (Payload r) 0 2).

(** The records a scan goes over: of a known type, and with a payload of its shape. *)
Definition record_ok (r : Record_) : bool :=
  (TypeObservation <=? Type_ r) && (Type_ r <=? TypeEvidenceReference) &&
  implb (Type_ r =? TypeAuthorization) (len (Payload r) =? AuthorizationPayloadSize) &&
  implb (Type_ r =? TypeProgress) ((2 <=? len (Payload r)) && (1 <=? code_of r) && (code_of r <=? 4)).

Definition is_type (t : Z) (r : Record_) : bool := Type_ r =? t.
Definition is_progress (c : Z) (r : Record_) : bool := (Type_ r =? TypeProgress) && (code_of r =? c).

Definition decoded (p : bytes) : option AuthorizationBinding :=
  match DecodeAuthorizationPayload p with Ok b => Some b | _ => None end.

(** What a record of known shape does to the flags. *)
Definition update (f : abstractFlags) (r : Record_) : abstractFlags :=
  mkFlags (Some (default (TransactionID r) (txid f)))
    (planDigestSeen f || is_type TypePlanDigest r)
    (authorized f || is_type TypeAuthorization r)
    (contentReceived f || is_progress ProgressContentReceived r)
    (prepared f || is_progress ProgressPrepared r)
    (contentVerified f || is_progress ProgressVerified r)
    (publicationStarted f || is_progress ProgressPublishing r)
    (published f)
    (confirmationCount f + if is_type TypeConfirmation r then 1 else 0)
    (cancelled f || is_type TypeCancellation r)
    (quarantined f || is_type TypeQuarantine r)
    (recoveryRecords f + if is_type TypeRecovery r then 1 else 0)
    (if is_type TypeAuthorization r then decoded (Payload r) else binding f)
    (contradiction f).

Lemma code_of_range r : 2 <= len (Payload r) -> 0 <= code_of r.
Proof. intros. apply le_val_range. Qed.

Ltac scan_types :=
  unfold TypeObservation, TypePlanDigest, TypeAuthorization, TypeProgress, TypeConfirmation,
    TypeCancellation, TypeQuarantine, TypeRecovery, TypeCheckpoint, TypeEvidenceReference,
    ProgressContentReceived, ProgressPrepared, ProgressVerified, ProgressPublishing in *.

(** The progress branch reads its code. *)
Lemma progress_code {A} (p : bytes) (k : Z -> res Error A) :
  2 <= len p ->
  (let! s := slice p 0 2 in let! code := U16LE s in k code) = k (le_val (sub p 0 2)).
Proof.
  intros Hp. rewrite slice_ok by lia. cbn [bind]. rewrite U16LE_ok by (rewrite len_sub by lia; lia).
  done.
Qed.

Lemma scan_record_Go r f f' :
  txid f = Some (TransactionID r) -> scan_record r f = Ok (Go f') ->
  record_ok r = true /\ f' = update f r.
Proof.
  intros Htx. unfold scan_record, record_ok, update, is_type, is_progress. rewrite Htx. cbn [default].
  destruct f as [ft fp fa fc fpr fv fs fpub fn fca fq fr fb fx]. cbn in Htx. subst ft. cbn.
  scan_types. destruct (Type_ r =? 2) eqn:E2; reflect_bools.
  { rewrite E2. intros [= <-]. cbn. rewrite !orb_false_r, !orb_true_r, !Z.add_0_r. done. }
  destruct (Type_ r =? 3) eqn:E3; reflect_bools.
  { rewrite E3. cbn. destruct fa; [done|]. unfold decoded.
    destruct (DecodeAuthorizationPayload (Payload r)) as [b| |] eqn:ED; [|done..]. cbn [bind].
    assert ((len (Payload r) =? AuthorizationPayloadSize) = true) as ->.
    { unfold DecodeAuthorizationPayload in ED. destruct (_ =? _); done. }
    intros [= <-]. cbn. rewrite !orb_false_r, !Z.add_0_r. done. }
  destruct (Type_ r =? 4) eqn:E4; reflect_bools.
  { rewrite E4. cbn -[le_val code_of]. destruct (len (Payload r) <? 2) eqn:El; reflect_bools; [done|].
    rewrite progress_code by lia. fold (code_of r). replace (2 <=? len (Payload r)) with true by lia.
    destruct (code_of r =? 1) eqn:C1; [|destruct (code_of r =? 2) eqn:C2;
      [|destruct (code_of r =? 3) eqn:C3; [|destruct (code_of r =? 4) eqn:C4; [|done]]]]; reflect_bools;
      match goal with H : code_of r = _ |- _ => rewrite H end; intros [= <-]; cbn;
      rewrite ?orb_false_r, ?orb_true_r, ?Z.add_0_r; done. }
  destruct (Type_ r =? 5) eqn:E5; reflect_bools.
  { rewrite E5. intros [= <-]. cbn. rewrite ?orb_false_r, ?orb_true_r, ?Z.add_0_r. done. }
  destruct (Type_ r =? 6) eqn:E6; reflect_bools.
  { rewrite E6. intros [= <-]. cbn. rewrite ?orb_false_r, ?orb_true_r, ?Z.add_0_r. done. }
  destruct (Type_ r =? 7) eqn:E7; reflect_bools.
  { rewrite E7. intros [= <-]. cbn. rewrite ?orb_false_r, ?orb_true_r, ?Z.add_0_r. done. }
  destruct (Type_ r =? 8) eqn:E8; reflect_bools.
  { rewrite E8. intros [= <-]. cbn. rewrite ?orb_false_r, ?orb_true_r, ?Z.add_0_r. done. }
  destruct (_ || _) eqn:E9; [|done]. intros [= <-]. cbn.
  rewrite ?orb_false_r, ?orb_true_r, ?Z.add_0_r. split; [|done].
  apply orb_true_iff in E9 as [E9|E9]; [apply orb_true_iff in E9 as [E9|E9]|]; reflect_bools;
    rewrite E9; done.
Qed.

Lemma scan_loop_Go recs f f' :
  scan_loop recs f = Ok (Go f') ->
  forallb record_ok recs = true /\ f' = fold_left update recs f /\
  (forall t, txid f = Some t -> txid f' = Some t).
Proof.
  revert f. induction recs as [|r recs IH]; intros f; cbn [scan_loop].
  { intros [= <-]. done. }
  destruct (match txid f with Some _ => _ | None => _ end) eqn:Ef; [done|].
  set (g := match txid f with Some _ => f | None => _ end).
  assert (Hg : txid g = Some (TransactionID r)).
  { subst g. destruct (txid f) as [t|] eqn:Et; [|done]. reflect_bools. by rewrite Et, Ef. }
  assert (Hu : update g r = update f r).
  { subst g. unfold update. destruct (txid f) eqn:Et; cbn; by rewrite ?Et. }
  destruct (scan_record r g) as [[f1|f1]| |] eqn:Es; cbn [bind]; [|done..].
  apply scan_record_Go in Es as [Hr ->]; [|done]. intros Hl. apply IH in Hl as (H1 & H2 & H3).
  cbn [forallb fold_left]. rewrite Hr, H1, H2, Hu. split_and!; [done..|].
  intros t Ht. rewrite <- Hu, <- H2. apply H3. rewrite Hu. unfold update. cbn [txid]. by rewrite Ht.
Qed.

Lemma scan_loop_app recs r f :
  scan_loop (recs ++ [r]) f =
  let! s := scan_loop recs f in match s with Return f => Ok (Return f) | Go f => scan_loop [r] f end.
Proof.
  revert f. induction recs as [|x recs IH]; intros f; [done|]. cbn [app scan_loop].
  destruct (match txid f with Some _ => _ | None => _ end); [done|].
  destruct (scan_record _ _) as [[f1|f1]| |]; cbn [bind]; [apply IH|done..].
Qed.

Lemma scan_Return recs f f' : scan_loop recs f = Ok (Return f') -> contradiction f' <> ""%string.
Proof.
  revert f. induction recs as [|r recs IH]; intros f; cbn [scan_loop]; [done|].
  destruct (match txid f with Some _ => _ | None => _ end); [by intros [= <-]|].
  set (g := match txid f with Some _ => f | None => _ end).
  destruct (scan_record r g) as [[f1|f1]| |] eqn:Es; cbn [bind]; [apply IH| |done..].
  intros [= <-]. revert Es. unfold scan_record. repeat case_if; try done; try (by intros [= <-]).
  - by destruct (DecodeAuthorizationPayload _).
  - rewrite progress_code by (reflect_bools; lia). repeat case_if; try done. by intros [= <-].
Qed.

Lemma scan_no_panic recs f : scan_loop recs f <> Panic.
Proof.
  revert f. induction recs as [|r recs IH]; intros f; cbn [scan_loop]; [done|].
  destruct (match txid f with Some _ => _ | None => _ end); [done|].
  set (g := match txid f with Some _ => f | None => _ end).
  assert (scan_record r g <> Panic).
  { unfold scan_record. repeat case_if; try done.
    - destruct (decide (len (Payload r) = AuthorizationPayloadSize)) as [E|E].
      + destruct (DecodeAuthorizationPayload_ok _ E) as (b & -> & _). done.
      + unfold DecodeAuthorizationPayload. by replace (len (Payload r) =? AuthorizationPayloadSize)
          with false by lia.
    - rewrite progress_code by (reflect_bools; lia). repeat case_if; done. }
  destruct (scan_record r g) as [[f1|f1]| |]; cbn [bind]; try done; apply IH.
Qed.

(** The flags of a scan that ended, in terms of the records. *)
Definition confirmations (recs : list Record_) : Z := len (List.filter (is_type TypeConfirmation) recs).

Lemma updates recs f :
  let f' := fold_left update recs f in
  authorized f' = authorized f || existsb (is_type TypeAuthorization) recs /\
  contentReceived f' = contentReceived f || existsb (is_progress ProgressContentReceived) recs /\
  prepared f' = prepared f || existsb (is_progress ProgressPrepared) recs /\
  contentVerified f' = contentVerified f || existsb (is_progress ProgressVerified) recs /\
  publicationStarted f' = publicationStarted f || existsb (is_progress ProgressPublishing) recs /\
  cancelled f' = cancelled f || existsb (is_type TypeCancellation) recs /\
  quarantined f' = quarantined f || existsb (is_type TypeQuarantine) recs /\
  confirmationCount f' = confirmationCount f + confirmations recs /\
  published f' = published f /\ contradiction f' = contradiction f.
Proof.
  revert f. induction recs as [|r recs IH]; intros f; cbn [fold_left existsb].
  { rewrite !orb_false_r. unfold confirmations. cbn. rewrite Z.add_0_r. done. }
  destruct (IH (update f r)) as (-> & -> & -> & -> & -> & -> & -> & -> & -> & ->).
  unfold update, confirmations. cbn. rewrite <- !orb_assoc.
  split_and!; try done. destruct (is_type TypeConfirmation r); rewrite ?len_cons; lia.
Qed.

(** What the checks after the loop establish. *)
Definition coherent (f : abstractFlags) : Prop :=
  (prepared f = true -> contentReceived f = true) /\
  (contentVerified f = true -> prepared f = true) /\
  (publicationStarted f = true -> authorized f = true /\ contentVerified f = true).

Lemma scan_checks_spec f :
  contradiction f = ""%string ->
  let f' := scan_checks f in
  f' = set_contradiction (contradiction f') f /\ (contradiction f' = ""%string -> coherent f).
Proof.
  intros Hc. unfold scan_checks, coherent.
  destruct f as [ft fp fa fc fpr fv fs fpub fn fca fq fr fb fx]. cbn in Hc. subst fx. cbn.
  destruct (match fb with Some _ => _ | None => _ end) as [?] eqn:E. revert E.
  destruct fb as [b|]; [destruct (fa && _ && _)|]; intros [= <- <- <- <- <- <- <- <- <- <- <- <- <- <-];
    destruct fpr, fc, fv, fs, fa; cbn; split; try done.
Qed.

(** The flags [Recover] works with when the scan finds nothing contradictory. *)
Definition flags_of (prefix : Journal.Prefix) : abstractFlags :=
  fold_left update (Journal.Records prefix) noFlags.

Lemma scanPrefix_spec prefix :
  match scanPrefix prefix with
  | Ok f => contradiction f = ""%string ->
      f = flags_of prefix /\ coherent f /\ forallb record_ok (Journal.Records prefix) = true
  | Err _ => True
  | Panic => False
  end.
Proof.
  unfold scanPrefix, flags_of. pose proof (scan_no_panic (Journal.Records prefix) noFlags) as Hp.
  destruct (scan_loop _ _) as [[f|f]| |] eqn:Es; cbn [bind]; try done.
  - apply scan_loop_Go in Es as (Hok & -> & _).
    destruct (updates (Journal.Records prefix) noFlags) as (_ & _ & _ & _ & _ & _ & _ & _ & _ & Hc).
    destruct (scan_checks_spec _ Hc) as [E Hco]. intros H0. specialize (Hco H0).
    assert (scan_checks (fold_left update (Journal.Records prefix) noFlags) =
            fold_left update (Journal.Records prefix) noFlags) as ->; [|done].
    rewrite E, H0. destruct (fold_left _ _ _). cbn in Hc. by subst.
  - intros H0. by apply scan_Return in Es.
Qed.

(** ** Effects change the list of actions only *)

Definition same_outcome (o o' : Outcome) : Prop :=
  o' = mkOutcome (OState o) (Actions o') (IdempotentNoop o) (TornTail o) (OTransactionID o)
         (Authorized o) (Published o) (Confirmations o) (RecoveryCount o) (Binding o).

Section Effects.
Context {P : Type} `{PersistIO P}.

Lemma on_io_inv (w : World P) out op wrap k r :
  on_io w out op wrap k = r ->
  (exists w' err, r = (w', out, err)) \/ (exists p, r = k (with_io w p)).
Proof.
  unfold on_io. destruct (wio w) as [p|]; [|intros <-; eauto].
  destruct (op p) as [p' [e|]]; intros <-; eauto.
Qed.

Lemma same_refl o : same_outcome o o.
Proof. by destruct o. Qed.

Lemma same_add a o o' : same_outcome (add_Action a o) o' -> same_outcome o o'.
Proof. unfold same_outcome. by destruct o. Qed.

Lemma same_add_here a o : same_outcome o (add_Action a o).
Proof. by destruct o. Qed.

Ltac io_steps :=
  repeat match goal with
  | H : on_io _ _ _ _ _ = _ |- _ =>
      apply on_io_inv in H as [(? & ? & H)|(? & H)];
      [injection H as -> -> ->; eauto using same_refl, same_add, same_add_here|symmetry in H]
  | H : (_, _, _) = (_, _, _) |- _ => injection H as <- <- <-
  end; eauto using same_refl, same_add, same_add_here.

Lemma maybeCleanup_same policy obs w out w' out' err :
  maybeCleanup policy obs w out = (w', out', err) -> same_outcome out out'.
Proof. unfold maybeCleanup. case_if; intros E; io_steps. Qed.

Lemma maybeQuarantine_same policy obs w out w' out' err :
  maybeQuarantine policy obs w out = (w', out', err) -> same_outcome out out'.
Proof. unfold maybeQuarantine. do 2 (case_if; [intros E; by io_steps|]). intros E. io_steps. Qed.

Lemma confirmOnce_same tx w out w' out' err :
  confirmOnce tx w out = (w', out', err) -> same_outcome out out'.
Proof. unfold confirmOnce. intros E. io_steps. Qed.

End Effects.

(** ** Soundness of the decision *)

(** The states a decision may end in. *)
Definition stable (s : State) : Prop :=
  s ∈ [StateCreated; StatePublished; StateConfirmed; StateCancelled; StateQuarantined].

Definition sound_outcome (pub : Prop) (n : Z) (out : Outcome) (err : option Error) : Prop :=
  (Published out = true -> pub) /\
  (OState out = Some StatePublished \/ OState out = Some StateConfirmed -> Published out = true) /\
  (OState out = Some StateConfirmed -> Confirmations out = 1 /\ err = None) /\
  (err = None -> Confirmations out <= 1 /\ IdempotentNoop out = true /\
     exists s, OState out = Some s /\ stable s /\ (s = StateCreated \/ RecoveryCount out = 1) /\
       (s = StatePublished -> Confirmations out = 0) /\ (s = StateQuarantined -> Published out = false) /\
       (s = StateConfirmed \/ Confirmations out = n)).

Section Sound.
Context {P : Type} `{PersistIO P}.

Lemma and_then_inv (r : result P) k x :
  and_then r k = x ->
  exists w out err, r = (w, out, err) /\
    ((exists e, err = Some e /\ x = (w, out, Some e)) \/ (err = None /\ x = k w out)).
Proof. unfold and_then. destruct r as [[w out] [e|]]; intros <-; naive_solver. Qed.

(** Close a branch: the outcome is known up to its list of actions. *)
Ltac sound_case out :=
  destruct out; cbn in *; subst; unfold sound_outcome; cbn; split_and!; try done;
  try (intros [?|?]; done);
  try (intros _; split_and!; [lia|done|eexists; split; [done|split; [unfold stable; set_solver|]];
    split_and!; try done; try lia; auto]).

(** The two ways out of an effect. *)
Ltac effect E same :=
  apply and_then_inv in E as (? & ? & ? & E & [(? & -> & [= -> -> ->])|[-> [= -> -> ->]]]);
  apply same in E; rewrite E.

Lemma decide_recovery_sound obs policy f (w : World P) out w' out' err :
  decide_recovery obs policy f w out = (w', out', err) ->
  0 <= confirmationCount f <= 1 -> Published out = published f ->
  Confirmations out = confirmationCount f ->
  OState out = Some StateRecovering -> sound_outcome (published f = true) (confirmationCount f) out' err.
Proof.
  intros E Hc Hp Hn Hs. unfold decide_recovery in E.
  destruct (confirmationCount f =? 1) eqn:E1; reflect_bools.
  { destruct (published f) eqn:Ep; cbn [negb] in E; injection E as <- <- <-; sound_case out. }
  destruct (cancelled f && _ && _) eqn:E2; reflect_bools.
  { effect E (@maybeCleanup_same P _); sound_case out. }
  destruct (quarantined f && _) eqn:E3; reflect_bools.
  { effect E (@maybeQuarantine_same P _); sound_case out. }
  destruct (published f) eqn:Ep.
  { destruct (AllowConfirm policy && _); [|injection E as <- <- <-; sound_case out].
    effect E (@confirmOnce_same P _); sound_case out. }
  effect E (@maybeQuarantine_same P _); sound_case out.
Qed.
(** The part of [Recover] after its refusals. *)
Definition settled (prefix : Journal.Prefix) (obs : FSObservation) (policy : Policy) (w : World P)
    : result P :=
  let f := observe obs (flags_of prefix) in
  let out := mkOutcome None [] false (Journal.Torn prefix) (default (zeros 16) (txid f))
               (authorized f) (published f) (confirmationCount f) 0 (binding f) in
  if (len (Journal.Records prefix) =? 0) && negb (Journal.Torn prefix) &&
     negb (StagingPresent obs) && negb (PublicationStarted obs) && negb (PublicationLinearized obs)
  then (w, set_IdempotentNoop true (set_OState (Some StateCreated)
             (add_Action (mkAction ActionNoop None) out)), None)
  else if negb (negb (terminalFromFlags f) || Journal.Torn prefix ||
                (StagingPresent obs && negb (published f)) ||
                (publicationStarted f && negb (published f))) && terminalFromFlags f
  then (w, settle (stateFromFlags f) (add_Action (mkAction ActionNoop None) out), None)
  else decide_recovery obs policy f w
         (set_OState (Some StateRecovering) (add_Action (mkAction ActionEnterRecovering None) out)).

(** The evidence of publication: observed, and backed by the records of a
    complete authorization and preparation chain. *)
Definition chained (f : abstractFlags) : bool :=
  authorized f && prepared f && contentVerified f && contentReceived f.

Definition identity_matches (obs : FSObservation) (f : abstractFlags) : Prop :=
  forall b, binding f = Some b ->
    BRootIdentity b = RootIdentity obs /\ BVolumeIdentity b = VolumeIdentity obs.

(** What [Recover] does not refuse. *)
Definition admissible (prefix : Journal.Prefix) (obs : FSObservation) : Prop :=
  (exists f, scanPrefix prefix = Ok f /\ contradiction f = ""%string) /\
  identity_matches obs (flags_of prefix) /\ confirmationCount (flags_of prefix) <= 1 /\
  (linearized obs = true -> chained (flags_of prefix) = true).

Lemma Recover_cases prefix obs policy w :
  (admissible prefix obs /\ Recover prefix obs policy w = Ok (settled prefix obs policy w)) \/
  (~ admissible prefix obs /\ exists w' out e, Recover prefix obs policy w = Ok (w', out, Some e) /\
     wio w' = wio w /\ Published out = false /\
     (OState out = None \/ OState out = Some StateIrrecoverable)).
Proof.
  unfold Recover, admissible. pose proof (scanPrefix_spec prefix) as Hs.
  destruct (scanPrefix prefix) as [f|e|]; [|right; split; [naive_solver|];
    eexists _, _, _; split; [done|]; auto|done].
  assert (Hemit : forall c m t, wio (emit policy "recovery.irrecoverable" c m t w) = wio w).
  { intros. unfold emit. by destruct (negb _). }
  set (mism := match binding f with Some _ => _ | None => false end).
  assert (Hm : mism = false <-> identity_matches obs f).
  { subst mism. unfold identity_matches. destruct (binding f) as [b|]; [|naive_solver].
    rewrite orb_false_iff, !negb_false_iff, !bool_decide_eq_true. naive_solver. }
  destruct (bool_decide (contradiction f = ""%string)) eqn:Ec; reflect_bools; cbn [negb].
  2:{ right. split; [intros ((g & [= <-] & ?) & _); done|]. destruct mism;
        (eexists _, _, _; split; [done|]; cbn; auto). }
  destruct (Hs Ec) as (Ef & _ & _). rewrite <- Ef.
  destruct mism.
  { right. split; [|eexists _, _, _; split; [done|]; cbn; auto].
    intros (_ & Hi & _). apply Hm in Hi. done. }
  destruct (1 <? confirmationCount f) eqn:En; reflect_bools.
  { right. split; [|eexists _, _, _; split; [done|]; cbn; auto]. lia. }
  destruct (linearized obs && _) eqn:El.
  { right. split; [|eexists _, _, _; split; [done|]; cbn; auto].
    intros (_ & _ & _ & Hch). reflect_bools. specialize (Hch ltac:(done)).
    unfold chained in Hch. reflect_bools. destruct (authorized f), (prepared f), (contentVerified f),
      (contentReceived f); done. }
  left. split.
  - split; [eauto|]. split; [by apply Hm|]. split; [done|]. intros Hl. rewrite Hl in El. unfold chained.
    destruct (authorized f), (prepared f), (contentVerified f), (contentReceived f); done.
  - unfold settled. rewrite <- Ef. unfold observe. destruct f as [ft fp fa fc fpr fv fs fpub fn fca fq fr fb fx].
    destruct (linearized obs), (PublicationStarted obs), fs; done.
Qed.

End Sound.

(** The records of a complete chain: an authorization and the three steps of
    preparation. *)
Definition publication_chain (recs : list Record_) : bool :=
  existsb (is_type TypeAuthorization) recs && existsb (is_progress ProgressPrepared) recs &&
  existsb (is_progress ProgressVerified) recs && existsb (is_progress ProgressContentReceived) recs.

Lemma chained_records prefix : chained (flags_of prefix) = publication_chain (Journal.Records prefix).
Proof.
  unfold chained, publication_chain, flags_of.
  destruct (updates (Journal.Records prefix) noFlags) as (-> & -> & -> & -> & _). done.
Qed.

Lemma observed obs f :
  published f = false ->
  published (observe obs f) = linearized obs /\ confirmationCount (observe obs f) = confirmationCount f /\
  cancelled (observe obs f) = cancelled f /\ quarantined (observe obs f) = quarantined f /\
  txid (observe obs f) = txid f /\ (linearized obs = true -> publicationStarted (observe obs f) = true).
Proof.
  intros Hp. unfold observe. destruct (linearized obs); [done|].
  destruct (PublicationStarted obs || publicationStarted f); cbn; rewrite Hp; done.
Qed.

Lemma flags_unpublished prefix : published (flags_of prefix) = false.
Proof. unfold flags_of. by destruct (updates (Journal.Records prefix) noFlags) as (_ & _ & _ & _ & _ & _ & _ & _ & -> & _). Qed.

Lemma flags_confirmations prefix :
  confirmationCount (flags_of prefix) = confirmations (Journal.Records prefix).
Proof.
  unfold flags_of. destruct (updates (Journal.Records prefix) noFlags) as (_ & _ & _ & _ & _ & _ & _ & E & _).
  rewrite E. cbn [noFlags confirmationCount]. lia.
Qed.

Section Theorems.
Context {P : Type} `{PersistIO P}.

Lemma settled_sound prefix obs policy (w : World P) w' out err :
  confirmationCount (flags_of prefix) <= 1 -> settled prefix obs policy w = (w', out, err) ->
  sound_outcome (linearized obs = true) (confirmationCount (flags_of prefix)) out err.
Proof.
  intros Hc. unfold settled.
  destruct (observed obs (flags_of prefix) (flags_unpublished prefix)) as (Ep & Ec & _).
  set (f := observe obs (flags_of prefix)) in *. rewrite Ep, Ec. destruct (_ && _) eqn:E0.
  - intros [= <- <- <-]. assert (confirmationCount (flags_of prefix) = 0).
    { rewrite flags_confirmations. reflect_bools.
      match goal with E : len _ = 0 |- _ => by rewrite (len_zero_nil _ E) end. }
    unfold sound_outcome. cbn. split_and!; try done; [by intros [?|?]|].
    intros _. split_and!; [lia|done|]. eexists. split; [done|]. split; [unfold stable; set_solver|].
    split_and!; [by left|done|done|by right].
  - destruct (_ && terminalFromFlags f) eqn:E1.
    + intros [= <- <- <-]. reflect_bools.
      assert (Hst : (stateFromFlags f = StateConfirmed /\ linearized obs = true /\
                     confirmationCount (flags_of prefix) = 1) \/ stateFromFlags f = StateCancelled \/
                    (stateFromFlags f = StateQuarantined /\ linearized obs = false)).
      { match goal with Ht : terminalFromFlags f = true |- _ => revert Ht end.
        unfold terminalFromFlags, stateFromFlags. rewrite Ep, Ec.
        destruct (_ =? 1) eqn:E2, (linearized obs), (cancelled f), (quarantined f), (publicationStarted f);
          cbn; intros Ht; reflect_bools; try discriminate Ht; auto. }
      unfold sound_outcome. cbn. unfold stable. destruct Hst as [(-> & ? & ?)|[->|[-> ?]]]; split_and!; try done;
        try (by intros [?|?]); intros _; (split_and!; [lia|done|]); eexists; (split; [done|]);
        (split; [set_solver|]); split_and!; try done; by right.
    + intros E. eapply decide_recovery_sound in E; try done; cbn; try done; [by rewrite Ep, Ec in E|].
      rewrite Ec, flags_confirmations in *. split; [apply len_nonneg|done].
Qed.

(** C1. Recovery never invents success.  Whatever the journal prefix, the
    observation, the policy and the persistence (failing or not): publication is
    reported only when it was observed to be linearized with matching content
    and the prefix holds the authorization and the whole preparation chain;
    PUBLISHED and CONFIRMED are reported only for a published transaction, and
    CONFIRMED only with its one confirmation and no error; and a decision
    without error is one of the stable states. *)
Theorem Recover_sound prefix obs policy (w w' : World P) out err :
  Recover prefix obs policy w = Ok (w', out, err) ->
  sound_outcome (PublicationLinearized obs = true /\ PublishedContentMatches obs = true /\
                 publication_chain (Journal.Records prefix) = true)
    (confirmations (Journal.Records prefix)) out err.
Proof.
  intros E. destruct (Recover_cases prefix obs policy w) as [[(_ & _ & Hc & Hch) E']|(_ & w1 & o1 & e & E' & _ & Hp & Hs)];
    rewrite E' in E.
  - assert (E2 : settled prefix obs policy w = (w', out, err)) by congruence.
    apply settled_sound in E2; [|done]. rewrite <- chained_records, <- flags_confirmations.
    destruct E2 as (H1 & H2 & H3 & H4). split_and!; try done. intros Hp.
    specialize (H1 Hp). rewrite (Hch H1). apply andb_true_iff in H1 as [? ?]. done.
  - injection E as <- <- <-. unfold sound_outcome. rewrite Hp. split_and!; try done.
    + intros [?|?]; destruct Hs; congruence.
    + intros ?; destruct Hs; congruence.
Qed.

(** Recovery is total. *)
Lemma Recover_returns prefix obs policy (w : World P) : exists r, Recover prefix obs policy w = Ok r.
Proof. destruct (Recover_cases prefix obs policy w) as [[_ ->]|(_ & ? & ? & ? & -> & _)]; eauto. Qed.

End Theorems.

(** ** Effects, on the in-memory persistence *)

(** [m'] is [m] after staging operations and checkpoints only. *)
Definition staging_only (m m' : MemPersist) : Prop :=
  FailAt m' = FailAt m /\ Confirms m' = Confirms m /\ ConfirmTX m' = ConfirmTX m.

(** [m'] is [m] after at most one confirmation, and checkpoints. *)
Definition confirm_only (tx : bytes) (m m' : MemPersist) : Prop :=
  FailAt m' = FailAt m /\ Cleanups m' = Cleanups m /\ Quarantines m' = Quarantines m /\
  ((Confirms m' = Confirms m /\ ConfirmTX m' = ConfirmTX m) \/
   (Confirms m' = Confirms m + 1 /\ ConfirmTX m' = tx)).

Ltac mem_ops :=
  cbn; unfold on_io; cbn;
  repeat (match goal with |- context [bool_decide (FailAt ?m = Some ?l)] =>
            destruct (bool_decide (FailAt m = Some l)) eqn:? end; cbn);
  intros [= <- <- <-]; eexists; (split; [done|]).

Lemma maybeCleanup_mem policy obs m ev out w' out' err :
  maybeCleanup policy obs (mkWorld (Some m) ev) out = (w', out', err) ->
  exists m', wio w' = Some m' /\ staging_only m m' /\ (AllowStagingCleanup policy = false -> m' = m).
Proof.
  unfold maybeCleanup, staging_only. destruct (AllowStagingCleanup policy), (StagingPresent obs); mem_ops; done.
Qed.

Lemma maybeQuarantine_mem policy obs m ev out w' out' err :
  maybeQuarantine policy obs (mkWorld (Some m) ev) out = (w', out', err) ->
  exists m', wio w' = Some m' /\ staging_only m m' /\ (AllowStagingCleanup policy = false -> m' = m).
Proof.
  unfold maybeQuarantine, staging_only.
  destruct (AllowStagingCleanup policy), (StagingPresent obs), (PublicationStarted obs); mem_ops; done.
Qed.

Lemma confirmOnce_mem tx m ev out w' out' err :
  confirmOnce tx (mkWorld (Some m) ev) out = (w', out', err) ->
  exists m', wio w' = Some m' /\ confirm_only tx m m' /\
    (FailAt m = None -> err = None /\ Confirms m' = Confirms m + 1).
Proof. unfold confirmOnce, confirm_only. mem_ops; cbn; split_and!; try done; auto; intros Hf; reflect_bools; congruence. Qed.

Lemma staging_refl m : staging_only m m.
Proof. done. Qed.

(** What one recovery may do to the store. *)
Definition effects_of (prefix : Journal.Prefix) (obs : FSObservation) (policy : Policy)
    (m m' : MemPersist) : Prop :=
  (AllowStagingCleanup policy = false -> Cleanups m' = Cleanups m /\ Quarantines m' = Quarantines m) /\
  (Confirms m' = Confirms m \/
   (Confirms m' = Confirms m + 1 /\ AllowConfirm policy = true /\ linearized obs = true /\
    publication_chain (Journal.Records prefix) = true /\
    confirmations (Journal.Records prefix) = 0 /\
    ConfirmTX m' = default (zeros 16) (txid (flags_of prefix)) /\
    Cleanups m' = Cleanups m /\ Quarantines m' = Quarantines m)).

Lemma effects_none prefix obs policy m : effects_of prefix obs policy m m.
Proof. split; [done|by left]. Qed.

Lemma effects_staging prefix obs policy m m' :
  staging_only m m' -> (AllowStagingCleanup policy = false -> m' = m) -> effects_of prefix obs policy m m'.
Proof. intros (_ & Hc & _) Hs. split; [|by left]. intros Ha. by rewrite Hs. Qed.

Lemma emit_wio {P} policy id c msg t (w : World P) : wio (emit policy id c msg t w) = wio w.
Proof. unfold emit. destruct (negb _); [done|]. by destruct (bool_decide _). Qed.

Lemma settled_effects prefix obs policy m ev w' out err :
  confirmationCount (flags_of prefix) <= 1 ->
  (linearized obs = true -> chained (flags_of prefix) = true) ->
  settled prefix obs policy (mkWorld (Some m) ev) = (w', out, err) ->
  exists m', wio w' = Some m' /\ effects_of prefix obs policy m m'.
Proof.
  intros Hle Hch. unfold settled.
  destruct (observed obs (flags_of prefix) (flags_unpublished prefix)) as (Ep & Ec & _ & _ & Et & _).
  set (f := observe obs (flags_of prefix)) in *. destruct (_ && negb (PublicationLinearized _)).
  { intros [= <- <- <-]. eexists. split; [done|]. apply effects_none. }
  destruct (_ && terminalFromFlags f). { intros [= <- <- <-]. eexists. split; [done|]. apply effects_none. }
  intros E. unfold decide_recovery in E. destruct (confirmationCount f =? 1) eqn:E1.
  { destruct (negb _); injection E as <- <- <-; (eexists; split; [rewrite ?emit_wio; done|]; apply effects_none). }
  destruct (cancelled f && _ && _).
  { apply and_then_inv in E as (w1 & o1 & e1 & E & [(? & -> & [= -> -> ->])|[-> [= -> -> ->]]]);
      apply maybeCleanup_mem in E as (m' & Hm & ? & ?); exists m'; eauto using effects_staging. }
  destruct (quarantined f && _).
  { apply and_then_inv in E as (w1 & o1 & e1 & E & [(? & -> & [= -> -> ->])|[-> [= -> -> ->]]]);
      apply maybeQuarantine_mem in E as (m' & Hm & ? & ?); exists m'; eauto using effects_staging. }
  destruct (published f) eqn:Epub.
  2:{ apply and_then_inv in E as (w1 & o1 & e1 & E & [(? & -> & [= -> -> ->])|[-> [= -> -> ->]]]);
        apply maybeQuarantine_mem in E as (m' & Hm & ? & ?); exists m'; eauto using effects_staging. }
  destruct (AllowConfirm policy && _) eqn:Ea.
  2:{ injection E as <- <- <-. eexists. split; [done|]. apply effects_none. }
  assert (Hconf : confirmations (Journal.Records prefix) = 0).
  { rewrite <- flags_confirmations. reflect_bools.
    assert (0 <= confirmationCount (flags_of prefix)) by (rewrite flags_confirmations; apply len_nonneg). lia. }
  reflect_bools. symmetry in Ep. rewrite Et in E.
  apply and_then_inv in E as (w1 & o1 & e1 & E & Hx).
  apply confirmOnce_mem in E as (m' & Hm & (_ & H2 & H3 & H4) & _). exists m'. split.
  { destruct Hx as [(? & -> & [= -> -> ->])|[-> [= -> -> ->]]]; rewrite ?emit_wio; done. }
  split; [done|]. destruct H4 as [[H4 _]|[H4 H5]]; [by left|]. right.
  rewrite <- chained_records. split_and!; auto.
Qed.

(** Recovery's effects are bounded.  On the in-memory persistence, failing
    at whatever label: a policy that does not allow staging cleanup leaves
    staging alone, and at most one confirmation is appended, only when the
    policy allows it, the publication was observed with a complete chain, the
    prefix holds no confirmation yet, and it is for that transaction. *)
Lemma Recover_effects prefix obs policy m ev w' out err :
  Recover prefix obs policy (mkWorld (Some m) ev) = Ok (w', out, err) ->
  exists m', wio w' = Some m' /\ effects_of prefix obs policy m m'.
Proof.
  intros E. destruct (Recover_cases prefix obs policy (mkWorld (Some m) ev))
    as [[(_ & _ & Hc & Hch) E']|(_ & w1 & o1 & e & E' & Hw & _)]; rewrite E' in E.
  - apply (settled_effects _ _ _ m ev w' out err); [done..|congruence].
  - injection E as <- <- <-. exists m. split; [done|]. apply effects_none.
Qed.

(** ** Re-running recovery *)

(** The prefix with one more record, as the journal reads back after it was
    appended. *)
Definition with_record (p : Journal.Prefix) (r : Record_) : Journal.Prefix :=
  Journal.mkPrefix (Journal.Records p ++ [r]) (Journal.Bytes p + RecordLength r)
    (RecordCommitment r) (Journal.NextSequence p + 1) (Journal.Torn p) (Journal.TornOffset p)
    (Journal.Quarantine p).

Lemma flags_with_record p r : flags_of (with_record p r) = update (flags_of p) r.
Proof. unfold flags_of. cbn. by rewrite fold_left_app. Qed.

Lemma scan_checks_confirmations n f :
  scan_checks (set_confirmationCount n f) = set_confirmationCount n (scan_checks f).
Proof.
  destruct f as [ft fp fa fc fpr fv fs fpub fn fca fq fr fb fx]. unfold scan_checks.
  destruct fb as [b|]; cbn; [destruct (fa && _ && _)|]; cbn; destruct fpr, fc, fv, fs, fa; done.
Qed.

Lemma scanPrefix_confirmation p r f :
  scanPrefix p = Ok f -> contradiction f = ""%string -> txid f = Some (TransactionID r) ->
  Type_ r = TypeConfirmation ->
  exists f', scanPrefix (with_record p r) = Ok f' /\ contradiction f' = ""%string.
Proof.
  intros Hs Hc Ht Hr. unfold scanPrefix in *. cbn [Journal.Records with_record]. rewrite scan_loop_app.
  destruct (scan_loop (Journal.Records p) noFlags) as [[g|g]| |] eqn:El; cbn [bind] in *; try done.
  - injection Hs as <-. assert (Hg : txid g = Some (TransactionID r)).
    { apply scan_loop_Go in El as (_ & Eg & _).
      destruct (updates (Journal.Records p) noFlags) as (_ & _ & _ & _ & _ & _ & _ & _ & _ & Hcg).
      destruct (scan_checks_spec g) as [E _]; [by rewrite Eg|]. rewrite E in Ht. by destruct g. }
    cbn [scan_loop]. rewrite Hg, bool_decide_eq_true_2 by done. cbn [negb]. unfold scan_record. rewrite Hr.
    cbn [bind]. exists (scan_checks (set_confirmationCount (confirmationCount g + 1) g)).
    split; [done|]. rewrite scan_checks_confirmations. by destruct (scan_checks g).
  - injection Hs as <-. by apply scan_Return in El.
Qed.

(** The first record of a nonempty prefix names the transaction. *)
Lemma flags_txid p r recs : Journal.Records p = r :: recs -> txid (flags_of p) = Some (TransactionID r).
Proof.
  intros E. unfold flags_of. rewrite E. cbn [fold_left].
  assert (H : forall l f t, txid f = Some t -> txid (fold_left update l f) = Some t); [|by apply H].
  clear. induction l as [|x l IH]; intros f t Ht; [done|]. cbn [fold_left]. apply IH.
  unfold update. cbn [txid]. by rewrite Ht.
Qed.

Lemma chain_nonempty p : chained (flags_of p) = true -> exists r recs, Journal.Records p = r :: recs.
Proof.
  rewrite chained_records. destruct (Journal.Records p) as [|r recs]; [done|]. eauto.
Qed.

Section Rerun.
Context {P : Type} `{PersistIO P}.

(** A published transaction without a confirmation reaches the confirming branch. *)
Lemma settled_published prefix obs policy (w : World P) :
  linearized obs = true -> chained (flags_of prefix) = true ->
  confirmationCount (flags_of prefix) = 0 ->
  exists f out, txid f = txid (flags_of prefix) /\ published f = true /\
    Confirmations out = 0 /\ Published out = true /\
    settled prefix obs policy w =
    if AllowConfirm policy && bool_decide (wio w <> None) then
      and_then (confirmOnce (default (zeros 16) (txid f)) w (set_OState (Some StatePublished) out))
        (fun w out =>
          (emit policy "recovery.confirmed" "confirm" "confirmation appended"
             (default (zeros 16) (txid f)) w, settle StateConfirmed (set_Confirmations 1 out), None))
    else (w, settle StatePublished (set_OState (Some StatePublished) out), None).
Proof.
  intros Hl Hch Hn. unfold settled.
  destruct (observed obs (flags_of prefix) (flags_unpublished prefix)) as (Ep & Ec & _ & _ & Et & Es).
  specialize (Es Hl). set (f := observe obs (flags_of prefix)) in *. rewrite Hl in Ep.
  destruct (chain_nonempty prefix Hch) as (r & recs & ->). rewrite len_cons.
  pose proof (len_nonneg recs). replace (1 + len recs =? 0) with false by lia. cbn [andb].
  assert (terminalFromFlags f = false) as ->.
  { unfold terminalFromFlags. rewrite Ec, Hn, Ep, Es. cbn. by rewrite !andb_false_r. }
  rewrite andb_false_r. eexists f, _. split; [done|]. split; [done|].
  unfold decide_recovery. rewrite Ec, Hn, Ep, Es. cbn [negb]. rewrite !andb_false_r.
  change (0 =? 1) with false. cbv iota. split; [|split]; [| |done]; cbn; congruence.
Qed.

(** A confirmed, published transaction is settled without effects. *)
Lemma settled_confirmed prefix obs policy (w : World P) :
  linearized obs = true -> chained (flags_of prefix) = true ->
  confirmationCount (flags_of prefix) = 1 ->
  exists out, settled prefix obs policy w = (w, out, None) /\ OState out = Some StateConfirmed /\
    Confirmations out = 1 /\ Published out = true.
Proof.
  intros Hl Hch Hn. unfold settled.
  destruct (observed obs (flags_of prefix) (flags_unpublished prefix)) as (Ep & Ec & _ & _ & Et & Es).
  specialize (Es Hl). set (f := observe obs (flags_of prefix)) in *. rewrite Hl in Ep.
  destruct (chain_nonempty prefix Hch) as (r & recs & ->). rewrite len_cons.
  pose proof (len_nonneg recs). replace (1 + len recs =? 0) with false by lia. cbn [andb].
  unfold terminalFromFlags, stateFromFlags, decide_recovery. rewrite Ec, Hn, Ep, Es. cbn [negb].
  change (1 =? 1) with true. cbn [andb]. rewrite !andb_false_r. cbn [negb orb].
  destruct (Journal.Torn prefix); cbn; eexists; (split; [done|]); done.
Qed.
End Rerun.

(** A confirmation is appended once, whatever happens next.  If a recovery
    appended the confirmation (even if it then failed at the next checkpoint),
    then recovery over the journal that now holds that record reports CONFIRMED
    without an error and touches nothing: no second confirmation, no staging
    operation, no event. *)
Lemma Recover_after_confirmation prefix obs policy m ev w1 out1 err1 m1 r :
  Recover prefix obs policy (mkWorld (Some m) ev) = Ok (w1, out1, err1) ->
  wio w1 = Some m1 -> Confirms m1 = Confirms m + 1 ->
  Type_ r = TypeConfirmation -> TransactionID r = ConfirmTX m1 ->
  exists out2, Recover (with_record prefix r) obs policy w1 = Ok (w1, out2, None) /\
    OState out2 = Some StateConfirmed /\ Confirmations out2 = 1 /\ Published out2 = true.
Proof.
  intros E Hw Hm Hr Htx.
  destruct (Recover_cases prefix obs policy (mkWorld (Some m) ev))
    as [[(Hsc & Hi & Hc & Hch) E']|(_ & w2 & o2 & e & E' & Hw2 & _)]; rewrite E' in E; cycle 1.
  { exfalso. assert (wio w2 = Some m1) by congruence. rewrite Hw2 in *. cbn in *. injection H as ->. lia. }
  destruct (settled_effects prefix obs policy m ev w1 out1 err1) as (m' & Hm' & _ & Heff); [done..|congruence|].
  assert (m' = m1) as -> by congruence. destruct Heff as [?|(_ & _ & Hl & _ & Hn & Htx' & _)]; [lia|].
  specialize (Hch Hl). destruct (chain_nonempty _ Hch) as (r0 & recs & Hrec).
  pose proof (flags_txid _ _ _ Hrec) as Ht0. rewrite Ht0 in Htx'. cbn in Htx'.
  destruct Hsc as (f & Hs & Hcf). pose proof (scanPrefix_spec prefix) as Hsp. rewrite Hs in Hsp.
  destruct (Hsp Hcf) as (Ef & _).
  destruct (scanPrefix_confirmation prefix r f) as (f' & Hs' & Hc'); [done..|by rewrite Ef, Ht0; congruence|done|].
  pose proof (flags_with_record prefix r) as Eu.
  assert (Hup : chained (update (flags_of prefix) r) = true /\
    binding (update (flags_of prefix) r) = binding (flags_of prefix) /\
    confirmationCount (update (flags_of prefix) r) = 1).
  { rewrite <- flags_confirmations in Hn. unfold chained in *.
    unfold update, is_type, is_progress. rewrite Hr. cbn. rewrite Hn, !orb_false_r. done. }
  destruct Hup as (Hu1 & Hu2 & Hu3).
  destruct (Recover_cases (with_record prefix r) obs policy w1) as [[_ ->]|[Hna _]]; cycle 1.
  { destruct Hna. unfold admissible, identity_matches. rewrite Eu, Hu2, Hu3.
    split_and!; [eauto|done|lia|done]. }
  destruct (settled_confirmed (with_record prefix r) obs policy w1) as (out2 & -> & H2); [done|by rewrite Eu..|].
  eauto.
Qed.

(** ** The abstract machine: formal/transaction/Transaction.tla *)

Module Spec.

Record tstate := mk {
  tstate_state : State;
  tauthorized : bool;
  tcontentReceived : bool;
  tprepared : bool;
  tcontentVerified : bool;
  tpublicationStarted : bool;
  tpublished : bool;
  tconfirmationCount : Z;
  trecoveryCount : Z }.

Definition TInit : tstate := mk StateCreated false false false false false false 0 0.

Definition steps : list (State * State) :=
  [(StateCreated, StateAuthenticated); (StateAuthenticated, StateManifestVerified);
   (StateManifestVerified, StatePlanned)].

Definition crashable : list State :=
  [StateAuthorized; StateContentReceived; StatePrepared; StateVerified; StatePublishing; StatePublished].

Definition cancellable : list State :=
  [StateCreated; StateAuthenticated; StateManifestVerified; StatePlanned; StateAuthorized;
   StateContentReceived; StatePrepared; StateVerified].

Inductive TNext : tstate -> tstate -> Prop :=
| TStep from to a c p v s pub n k : (from, to) ∈ steps ->
    TNext (mk from a c p v s pub n k) (mk to a c p v s pub n k)
| TAuthorize a c p v s pub n k :
    TNext (mk StatePlanned a c p v s pub n k) (mk StateAuthorized true c p v s pub n k)
| TReceive c p v s pub n k :
    TNext (mk StateAuthorized true c p v s pub n k) (mk StateContentReceived true true p v s pub n k)
| TPrepare p v s pub n k :
    TNext (mk StateContentReceived true true p v s pub n k) (mk StatePrepared true true true v s pub n k)
| TVerify v s pub n k :
    TNext (mk StatePrepared true true true v s pub n k) (mk StateVerified true true true true s pub n k)
| TBeginPublication s pub n k :
    TNext (mk StateVerified true true true true s pub n k) (mk StatePublishing true true true true true pub n k)
| TCompletePublication c pub n k :
    TNext (mk StatePublishing true c true true true pub n k) (mk StatePublished true c true true true true n k)
| TConfirm a c p v s k :
    TNext (mk StatePublished a c p v s true 0 k) (mk StateConfirmed a c p v s true 1 k)
| TCrash st a c p v s pub n : st ∈ crashable ->
    TNext (mk st a c p v s pub n 0) (mk StateRecovering a c p v s pub n 0)
| TRecover a c p v s pub n k :
    TNext (mk StateRecovering a c p v s pub n k)
      (mk (if pub then StatePublished else StateQuarantined) a c p v s pub n 1)
| TRecoverAgain st a c p v s pub n k : 0 < k -> st ∈ [StatePublished; StateQuarantined] ->
    TNext (mk st a c p v s pub n k) (mk st a c p v s pub n k)
| TCancel st a c p v pub n k : st ∈ cancellable ->
    TNext (mk st a c p v false pub n k) (mk StateCancelled a c p v false pub n k).

(** The invariants of the module: [PublicationAuthorized],
    [PublicationPrepared], [ConfirmationSound], [ConfirmationUnique] and
    [NoInventedPublication]. *)
Definition TInvariant (t : tstate) : Prop :=
  (tpublished t = true -> tauthorized t = true /\ tcontentReceived t = true /\ tprepared t = true /\
     tcontentVerified t = true /\ tpublicationStarted t = true) /\
  (tconfirmationCount t = 1 -> tpublished t = true) /\ 0 <= tconfirmationCount t <= 1.

(** The flags grow one after the other. *)
Definition TChain (t : tstate) : Prop :=
  (tcontentReceived t = true -> tauthorized t = true) /\
  (tprepared t = true -> tcontentReceived t = true) /\
  (tcontentVerified t = true -> tprepared t = true) /\
  (tpublicationStarted t = true -> tcontentVerified t = true) /\
  (tpublished t = true -> tpublicationStarted t = true).

Lemma TNext_invariant t t' : TNext t t' -> TChain t /\ TInvariant t -> TChain t' /\ TInvariant t'.
Proof.
  intros Hn [Hc Hi]. unfold TChain, TInvariant in *.
  destruct Hn; cbn in *; intuition (congruence || lia).
Qed.

Lemma reachable_invariant t : rtc TNext TInit t -> TInvariant t.
Proof.
  intros H. assert (Hx : TChain t /\ TInvariant t); [|tauto]. revert t H.
  apply rtc_ind_r; [|intros; by eapply TNext_invariant].
  unfold TChain, TInvariant. cbn. intuition (congruence || lia).
Qed.

End Spec.

(** ** Refinement *)

(** The abstract state of an outcome, with the flags the journal and the
    observation give. *)
Definition abstract (prefix : Journal.Prefix) (obs : FSObservation) (s : State) (out : Outcome)
    : Spec.tstate :=
  let f := observe obs (flags_of prefix) in
  Spec.mk s (authorized f) (contentReceived f) (prepared f) (contentVerified f)
    (publicationStarted f) (Published out) (Confirmations out) (RecoveryCount out).

(** Every chain of flags that starts with the authorization is reached by a run
    that crashes. *)
Lemma crash_reachable c p v s pub :
  Spec.TChain (Spec.mk StateRecovering true c p v s pub 0 0) ->
  rtc Spec.TNext Spec.TInit (Spec.mk StateRecovering true c p v s pub 0 0).
Proof.
  assert (H0 : rtc Spec.TNext Spec.TInit (Spec.mk StateAuthorized true false false false false false 0 0)).
  { eapply rtc_l; [apply (Spec.TStep StateCreated StateAuthenticated); unfold Spec.steps; set_solver|].
    eapply rtc_l; [apply (Spec.TStep _ StateManifestVerified); unfold Spec.steps; set_solver|].
    eapply rtc_l; [apply (Spec.TStep _ StatePlanned); unfold Spec.steps; set_solver|].
    apply rtc_once, Spec.TAuthorize. }
  pose proof (rtc_r _ _ _ H0 (Spec.TReceive _ _ _ _ _ _ _)) as H1.
  pose proof (rtc_r _ _ _ H1 (Spec.TPrepare _ _ _ _ _ _)) as H2.
  pose proof (rtc_r _ _ _ H2 (Spec.TVerify _ _ _ _ _)) as H3.
  pose proof (rtc_r _ _ _ H3 (Spec.TBeginPublication _ _ _ _)) as H4.
  pose proof (rtc_r _ _ _ H4 (Spec.TCompletePublication _ _ _ _)) as H5.
  intros (_ & Hp & Hv & Hs & Hpub). cbn in *.
  destruct c, p, v, s, pub; try (by exfalso; intuition congruence);
    match goal with H : rtc _ _ (Spec.mk _ true ?c ?p ?v ?s ?b 0 0)
      |- rtc _ _ (Spec.mk _ true ?c ?p ?v ?s ?b 0 0) =>
        eapply rtc_r; [exact H|]; apply Spec.TCrash; unfold Spec.crashable; set_solver end.
Qed.

Lemma recovered_reachable c p v s pub :
  Spec.TChain (Spec.mk StateRecovering true c p v s pub 0 0) ->
  rtc Spec.TNext Spec.TInit
    (Spec.mk (if pub then StatePublished else StateQuarantined) true c p v s pub 0 1).
Proof. intros H. eapply rtc_r; [by apply crash_reachable|]. apply Spec.TRecover. Qed.

Lemma observed_flags obs f :
  authorized (observe obs f) = authorized f /\ contentReceived (observe obs f) = contentReceived f /\
  prepared (observe obs f) = prepared f /\ contentVerified (observe obs f) = contentVerified f /\
  (publicationStarted (observe obs f) = true ->
   linearized obs = true \/ PublicationStarted obs = true \/ publicationStarted f = true).
Proof.
  unfold observe. destruct (linearized obs); cbn; [tauto|].
  destruct (PublicationStarted obs), (publicationStarted f) eqn:E; cbn; rewrite ?E; tauto.
Qed.

Section Refinement.
Context {P : Type} `{PersistIO P}.

(** C2. Recovery refines Transaction.tla: the abstract state of a successful
    recovery that reports PUBLISHED or CONFIRMED is reachable in the model, and
    so is that of one that reports QUARANTINED for an authorized transaction
    whose observed publication, if any was started, follows its verification
    and whose prefix holds no confirmation.  So the model's invariants hold of
    those outcomes. *)
Theorem Recover_refines prefix obs policy (w w' : World P) out s :
  Recover prefix obs policy w = Ok (w', out, None) -> OState out = Some s ->
  s = StatePublished \/ s = StateConfirmed \/
    (s = StateQuarantined /\ authorized (flags_of prefix) = true /\
     confirmations (Journal.Records prefix) = 0 /\
     (PublicationStarted obs = true -> contentVerified (flags_of prefix) = true)) ->
  rtc Spec.TNext Spec.TInit (abstract prefix obs s out) /\ Spec.TInvariant (abstract prefix obs s out).
Proof.
  intros E Hs Hcase.
  enough (Hr : rtc Spec.TNext Spec.TInit (abstract prefix obs s out))
    by (split; [done|by apply Spec.reachable_invariant]).
  destruct (Recover_cases prefix obs policy w) as [[((f & Hsc & Hcf) & _ & Hle & Hch) E']|(_ & w1 & o1 & e & E' & _)];
    rewrite E' in E; [|done].
  pose proof (scanPrefix_spec prefix) as Hsp. rewrite Hsc in Hsp. destruct (Hsp Hcf) as (-> & (Hc1 & Hc2 & Hc3) & _).
  assert (E2 : settled prefix obs policy w = (w', out, None)) by congruence.
  pose proof (settled_sound _ _ _ _ _ _ _ Hle E2) as (Hpub & Hst & Hconf & Hn).
  destruct (Hn eq_refl) as (_ & _ & s' & Es & _ & Hrc & Hp0 & Hq & Hcn). assert (s' = s) as -> by congruence.
  destruct (observed obs (flags_of prefix) (flags_unpublished prefix)) as (_ & _ & _ & _ & _ & Hstart).
  destruct (observed_flags obs (flags_of prefix)) as (Ea & Ecr & Epr & Ev & Hps).
  unfold abstract. rewrite Ea, Ecr, Epr, Ev. unfold chained in Hch.
  assert (Hrec1 : RecoveryCount out = 1).
  { destruct Hrc as [->|]; [|done]. destruct Hcase as [?|[?|[? _]]]; done. }
  rewrite Hrec1. destruct Hcase as [->|[->|(-> & Ha & Hz & Hpv)]].
  - rewrite (Hst (or_introl Hs)), (Hp0 eq_refl). specialize (Hpub (Hst (or_introl Hs))).
    specialize (Hch Hpub). reflect_bools. rewrite (Hstart Hpub).
    do 4 match goal with H : _ = true |- _ => rewrite H; clear H end.
    apply (recovered_reachable true true true true true). done.
  - rewrite (Hst (or_intror Hs)). destruct (Hconf Hs) as [-> _]. specialize (Hpub (Hst (or_intror Hs))).
    specialize (Hch Hpub). reflect_bools. rewrite (Hstart Hpub).
    do 4 match goal with H : _ = true |- _ => rewrite H; clear H end.
    eapply rtc_r; [apply (recovered_reachable true true true true true); done|]. apply Spec.TConfirm.
  - rewrite (Hq eq_refl), Ha. destruct Hcn as [?|Hcn]; [done|].
    rewrite flags_confirmations, Hz in Hcn. rewrite Hcn.
    apply (recovered_reachable _ _ _ _ false). unfold Spec.TChain. cbn. split_and!; try done.
    intros Hstd. destruct (Hps Hstd) as [Hl|[Hl|Hl]]; [|by apply Hpv|by apply Hc3].
    specialize (Hch Hl). reflect_bools. done.
Qed.

End Refinement.

(** ** Where the code falls short of its contract *)

Lemma published_confirms prefix obs policy m ev :
  admissible prefix obs -> linearized obs = true -> confirmations (Journal.Records prefix) = 0 ->
  AllowConfirm policy = true -> FailAt m = None ->
  exists w' out m', Recover prefix obs policy (mkWorld (Some m) ev) = Ok (w', out, None) /\
    OState out = Some StateConfirmed /\ IdempotentNoop out = true /\ wio w' = Some m' /\
    FailAt m' = None /\ Confirms m' = Confirms m + 1.
Proof.
  intros Had Hl Hn Ha Hf.
  destruct (Recover_cases prefix obs policy (mkWorld (Some m) ev)) as [[_ ->]|[? _]]; [|done].
  destruct Had as (_ & _ & _ & Hch). rewrite <- flags_confirmations in Hn.
  destruct (settled_published prefix obs policy (mkWorld (Some m) ev) Hl (Hch Hl) Hn)
    as (f & out & _ & _ & _ & _ & ->).
  rewrite Ha, bool_decide_eq_true_2 by done. cbn [andb].
  destruct (confirmOnce _ _ _) as [[w1 o1] e1] eqn:E. pose proof E as E'.
  apply confirmOnce_mem in E' as (m' & Hm & (Hff & _) & Hok). destruct (Hok Hf) as [-> Hc].
  cbn [and_then]. eexists _, _, m'. split; [done|]. rewrite emit_wio. split_and!; try done. congruence.
Qed.

(** Re-entry on the same inputs repeats the confirmation: for a published,
    unconfirmed transaction under a policy that confirms, [Recover] reports
    CONFIRMED with [IdempotentNoop] set, and [RecoverAgain] with the same prefix
    and observation appends a second confirmation. *)
Lemma RecoverAgain_confirms_twice prefix obs policy m ev :
  admissible prefix obs -> linearized obs = true -> confirmations (Journal.Records prefix) = 0 ->
  AllowConfirm policy = true -> FailAt m = None ->
  exists w1 out1 w2 out2 m2,
    Recover prefix obs policy (mkWorld (Some m) ev) = Ok (w1, out1, None) /\
    OState out1 = Some StateConfirmed /\ IdempotentNoop out1 = true /\
    RecoverAgain prefix obs policy w1 = Ok (w2, out2, None) /\
    wio w2 = Some m2 /\ Confirms m2 = Confirms m + 2.
Proof.
  intros Had Hl Hn Ha Hf.
  destruct (published_confirms prefix obs policy m ev) as ([i1 ev1] & o1 & m1 & E1 & Hs & Hi & Hw & Hf1 & Hc1);
    [done..|]. cbn in Hw. subst i1.
  destruct (published_confirms prefix obs policy m1 ev1) as (w2 & o2 & m2 & E2 & _ & _ & Hw2 & _ & Hc2);
    [done..|].
  exists (mkWorld (Some m1) ev1), o1, w2, o2, m2. split_and!; try done. lia.
Qed.

(** A confirmation without publication passes when the journal also holds a
    cancellation: with no staging, no torn tail and no publication in sight,
    [Recover] takes its terminal shortcut and reports CANCELLED without an
    error, although the outcome counts one confirmation of an unpublished
    transaction, which the recovering path calls contradictory. *)
Lemma unpublished_confirmation_accepted {P} `{PersistIO P} prefix obs policy (w : World P) :
  admissible prefix obs -> confirmations (Journal.Records prefix) = 1 ->
  existsb (is_type TypeCancellation) (Journal.Records prefix) = true ->
  linearized obs = false -> PublicationStarted obs = false -> StagingPresent obs = false ->
  Journal.Torn prefix = false -> publicationStarted (flags_of prefix) = false ->
  exists out, Recover prefix obs policy w = Ok (w, out, None) /\
    OState out = Some StateCancelled /\ Confirmations out = 1 /\ Published out = false.
Proof.
  intros Had Hn Hcan Hl Hps Hst Ht Hs. destruct (Recover_cases prefix obs policy w) as [[_ ->]|[? _]]; [|done].
  assert (Hf : observe obs (flags_of prefix) = flags_of prefix).
  { unfold observe. by rewrite Hl, Hps, Hs. }
  assert (Hcf : cancelled (flags_of prefix) = true).
  { unfold flags_of. by destruct (updates (Journal.Records prefix) noFlags) as (_ & _ & _ & _ & _ & -> & _). }
  unfold settled. rewrite Hf. unfold terminalFromFlags, stateFromFlags.
  rewrite flags_unpublished, flags_confirmations, Hn, Hcf, Hs, Hst, Ht.
  destruct (Journal.Records prefix) as [|r recs]; [done|]. rewrite len_cons.
  pose proof (len_nonneg recs). replace (1 + len recs =? 0) with false by lia. cbn. eauto.
Qed.

(** ** Witnesses *)

Definition rec_demo (t : Z) (payload : bytes) : Record_ :=
  mkRecord 1 (zeros 16) t (zeros 32) (zeros 32) payload (zeros 32) 0.

Definition prefix_demo (recs : list Record_) : Journal.Prefix :=
  Journal.mkPrefix recs 0 (zeros 32) 1 false 0 [].

Definition chain_records : list Record_ :=
  [rec_demo TypePlanDigest []; rec_demo TypeAuthorization (zeros 192);
   rec_demo TypeProgress (le_bytes 2 1); rec_demo TypeProgress (le_bytes 2 2);
   rec_demo TypeProgress (le_bytes 2 3)].

Definition obs_published : FSObservation := mkObservation (zeros 32) (zeros 32) false true true true.
Definition obs_none : FSObservation := mkObservation (zeros 32) (zeros 32) false false false false.
Definition policy_demo : Policy := mkPolicy true true true.
Definition mem_demo : MemPersist := mkMemPersist None [] 0 0 0 (zeros 16) false false.

Definition world_demo : World MemPersist := mkWorld (Some mem_demo) [].

Definition run_demo : World MemPersist * Outcome * option Error :=
  match Recover (prefix_demo chain_records) obs_published policy_demo world_demo with
  | Ok r => r
  | _ => (world_demo, emptyOutcome, None)
  end.

Lemma run_demo_eq :
  Recover (prefix_demo chain_records) obs_published policy_demo world_demo =
  Ok (run_demo.1.1, run_demo.1.2, None).
Proof. vm_compute. reflexivity. Qed.

Lemma admissible_demo : admissible (prefix_demo chain_records) obs_published.
Proof.
  split; [eexists; split; [vm_compute; reflexivity|reflexivity]|].
  split; [|split; [vm_compute; congruence|reflexivity]].
  intros b Hb. vm_compute in Hb. injection Hb as <-. split; reflexivity.
Qed.

Lemma Recover_sound_witness :
  Recover (prefix_demo chain_records) obs_published policy_demo world_demo =
    Ok (run_demo.1.1, run_demo.1.2, None) /\
  sound_outcome (PublicationLinearized obs_published = true /\ PublishedContentMatches obs_published = true /\
                 publication_chain chain_records = true) 0 run_demo.1.2 None.
Proof.
  split; [exact run_demo_eq|].
  exact (Recover_sound (prefix_demo chain_records) obs_published policy_demo world_demo _ _ _ run_demo_eq).
Defined.

Lemma Recover_effects_witness :
  exists m', wio run_demo.1.1 = Some m' /\
    effects_of (prefix_demo chain_records) obs_published policy_demo mem_demo m'.
Proof. exact (Recover_effects _ _ _ mem_demo [] _ _ _ run_demo_eq). Defined.

Lemma Recover_after_confirmation_witness :
  exists out2,
    Recover (with_record (prefix_demo chain_records) (rec_demo TypeConfirmation [])) obs_published
      policy_demo run_demo.1.1 = Ok (run_demo.1.1, out2, None) /\
    OState out2 = Some StateConfirmed /\ Confirmations out2 = 1 /\ Published out2 = true.
Proof.
  eapply (Recover_after_confirmation (prefix_demo chain_records) obs_published policy_demo mem_demo []);
    [exact run_demo_eq|reflexivity|reflexivity|reflexivity|reflexivity].
Defined.

Lemma Recover_refines_witness :
  rtc Spec.TNext Spec.TInit (abstract (prefix_demo chain_records) obs_published StateConfirmed run_demo.1.2) /\
  Spec.TInvariant (abstract (prefix_demo chain_records) obs_published StateConfirmed run_demo.1.2).
Proof. eapply Recover_refines; [exact run_demo_eq|reflexivity|right; left; reflexivity]. Defined.

Lemma RecoverAgain_confirms_twice_witness :
  exists w1 out1 w2 out2 m2,
    Recover (prefix_demo chain_records) obs_published policy_demo world_demo = Ok (w1, out1, None) /\
    OState out1 = Some StateConfirmed /\ IdempotentNoop out1 = true /\
    RecoverAgain (prefix_demo chain_records) obs_published policy_demo w1 = Ok (w2, out2, None) /\
    wio w2 = Some m2 /\ Confirms m2 = Confirms mem_demo + 2.
Proof. apply RecoverAgain_confirms_twice; [exact admissible_demo|reflexivity..]. Defined.

Lemma unpublished_confirmation_accepted_witness :
  exists out,
    Recover (prefix_demo [rec_demo TypeConfirmation []; rec_demo TypeCancellation []]) obs_none
      policy_demo world_demo = Ok (world_demo, out, None) /\
    OState out = Some StateCancelled /\ Confirmations out = 1 /\ Published out = false.
Proof.
  apply unpublished_confirmation_accepted; try reflexivity.
  split; [eexists; split; [vm_compute; reflexivity|reflexivity]|].
  split; [|split; [vm_compute; congruence|discriminate]].
  intros b Hb. vm_compute in Hb. discriminate Hb.
Defined.

End Recovery.
