(* ===== verification/FilePath.v ===== *)
(** * Lexical paths (path/filepath on Unix)

    The functions of Go's path/filepath that the synchronization code calls, as
    they behave on slash-separated names: [Clean], [Join], [Dir], [Base] and
    [Rel].  [native cs] is the absolute path with components [cs]; on such paths
    the functions are list operations on the components, which is what the
    clients use. *)

From S2P Require Import Prelude PathGrammar.
Import PathGrammar.

Module FilePath.

Definition slash : Byte.byte := byte_of 47.

(** [strings.Split(s, "/")]. *)
Definition Split (s : bytes) : list bytes := split_loop s [] [].

(** One component of [Clean]: [stack] is the output so far, last first. *)
Definition clean_step (rooted : bool) (stack : list bytes) (c : bytes) : list bytes :=
  if bool_decide (c = []) || bool_decide (c = str ".") then stack
  else if bool_decide (c = str "..") then
    match stack with
    | top :: rest => if bool_decide (top = str "..") then c :: stack else rest
    | [] => if rooted then [] else [c]
    end
  else c :: stack.

Definition rooted (s : bytes) : bool :=
  match s with b :: _ => bool_decide (b = slash) | [] => false end.

Definition clean_components (s : bytes) : list bytes :=
  rev (fold_left (clean_step (rooted s)) (Split s) []).

Definition Clean (s : bytes) : bytes :=
  let cs := clean_components s in
  if rooted s then slash :: join_slash cs
  else match cs with [] => str "." | _ => join_slash cs end.

(** [filepath.Join(a, b)]. *)
Definition Join (a b : bytes) : bytes :=
  match a, b with
  | [], [] => []
  | [], _ => Clean b
  | _, _ => Clean (a ++ slash :: b)
  end.

Definition not_slash (b : Byte.byte) : bool := negb (bool_decide (b = slash)).

Fixpoint drop_while {A} (f : A -> bool) (l : list A) : list A :=
  match l with
  | [] => []
  | x :: l' => if f x then drop_while f l' else l
  end.

Fixpoint take_while {A} (f : A -> bool) (l : list A) : list A :=
  match l with
  | [] => []
  | x :: l => if f x then x :: take_while f l else []
  end.

(** What precedes the last slash, with it, and what follows it. *)
Definition upto_slash (s : bytes) : bytes := rev (drop_while not_slash (rev s)).
Definition after_slash (s : bytes) : bytes := rev (take_while not_slash (rev s)).

Definition Dir (s : bytes) : bytes := Clean (upto_slash s).

Definition Base (s : bytes) : bytes :=
  if bool_decide (s = []) then str "." else
  let s := rev (drop_while (fun b => negb (not_slash b)) (rev s)) in
  let s := after_slash s in
  if bool_decide (s = []) then str "/" else s.

(** Remove the common leading components. *)
Fixpoint strip_common (a b : list bytes) : list bytes * list bytes :=
  match a, b with
  | x :: a', y :: b' => if bool_decide (x = y) then strip_common a' b' else (a, b)
  | _, _ => (a, b)
  end.

(** [filepath.Rel]; [None] is its error. *)
Definition Rel (base targ : bytes) : option bytes :=
  if bool_decide (Clean base = Clean targ) then Some (str ".")
  else if negb (Bool.eqb (rooted base) (rooted targ)) then None
  else
    let '(b, t) := strip_common (clean_components base) (clean_components targ) in
    if bool_decide (head b = Some (str "..")) then None
    else Some (join_slash (map (fun _ => str "..") b ++ t)).

(** ** Absolute paths by their components *)

(** A proper component: not empty, not a dot form, no slash. *)
Definition plain (c : bytes) : Prop := c <> [] /\ c <> str "." /\ c <> str ".." /\ no_slash c.

Definition native (cs : list bytes) : bytes := slash :: join_slash cs.

Example clean_examples :
  map Clean [str ""; str "/"; str "a//b/./c/.."; str "/../a"; str "../../x"; str "/a/../.."; str "a/.."] =
  [str "."; str "/"; str "a/b"; str "/a"; str "../../x"; str "/"; str "."].
Proof. vm_compute. reflexivity. Qed.

Example path_examples :
  (Join (str "/a") (str "b/../c"), Dir (str "/a/b"), Dir (str "/a"), Base (str "/a/b/"), Base (str "/")) =
  (str "/a/c", str "/a", str "/", str "b", str "/").
Proof. vm_compute. reflexivity. Qed.

Example rel_examples :
  (Rel (str "/a/b") (str "/a/b/c/d"), Rel (str "/a/b") (str "/a/c"), Rel (str "/a") (str "/a/"), Rel (str "/a") (str "b"),
   Rel (str "/") (str "/x")) =
  (Some (str "c/d"), Some (str "../c"), Some (str "."), None, Some (str "x")).
Proof. vm_compute. reflexivity. Qed.

Lemma split_loop_app s t cur out :
  split_loop (s ++ slash :: t) cur out = split_loop t [] (split_loop s cur out).
Proof.
  revert cur out. induction s as [|b s IH]; intros cur out; cbn [app split_loop].
  - change (byteZ slash =? 47) with true. done.
  - destruct (byteZ b =? 47); apply IH.
Qed.

Lemma split_loop_out s cur out : split_loop s cur out = out ++ split_loop s cur [].
Proof.
  revert cur out. induction s as [|b s IH]; intros cur out; cbn [split_loop]; [done|].
  destruct (byteZ b =? 47); [|apply IH]. cbn [app]. rewrite IH, (IH [] [rev cur]), app_assoc. done.
Qed.

Lemma Split_nonempty s : Split s <> [].
Proof.
  unfold Split. assert (H : forall cur out, split_loop s cur out <> []); [|apply H].
  induction s as [|b s IH]; intros cur out; cbn [split_loop]; [by destruct out|]. case_if; apply IH.
Qed.

Lemma Split_app s t : Split (s ++ slash :: t) = Split s ++ Split t.
Proof. unfold Split. rewrite split_loop_app. apply split_loop_out. Qed.

Lemma Split_part c : no_slash c -> Split c = [c].
Proof.
  intros Hc. unfold Split. rewrite <- (app_nil_r c) at 1. rewrite split_loop_part by done.
  cbn. by rewrite app_nil_r, rev_involutive.
Qed.

Lemma plain_no_slash c : plain c -> no_slash c.
Proof. by intros (_ & _ & _ & ?). Qed.

Lemma Split_join c cs : Forall plain (c :: cs) -> Split (join_slash (c :: cs)) = c :: cs.
Proof.
  intros H. apply (split_loop_join cs c []). eapply Forall_impl; [exact H|]. apply plain_no_slash.
Qed.

Lemma clean_step_plain r stack c : plain c -> clean_step r stack c = c :: stack.
Proof. intros (? & ? & ? & _). unfold clean_step. by rewrite !bool_decide_eq_false_2. Qed.

Lemma clean_fold_plain r cs stack :
  Forall plain cs -> fold_left (clean_step r) cs stack = rev cs ++ stack.
Proof.
  intros H. revert stack. induction H as [|c cs Hc _ IH]; intros stack; cbn [fold_left rev]; [done|].
  rewrite clean_step_plain by done. by rewrite IH, <- app_assoc.
Qed.

(** The empty parts of a path are skipped. *)
Lemma clean_fold_join r cs stack :
  Forall plain cs -> fold_left (clean_step r) (Split (join_slash cs)) stack = rev cs ++ stack.
Proof.
  intros H. destruct cs as [|c cs]; [done|]. rewrite Split_join by done. by apply clean_fold_plain.
Qed.

Lemma Split_native cs : Split (native cs) = [] :: Split (join_slash cs).
Proof. unfold native. change (slash :: join_slash cs) with ([] ++ slash :: join_slash cs). by rewrite Split_app. Qed.

Lemma rooted_native cs : rooted (native cs) = true.
Proof. reflexivity. Qed.

Lemma clean_components_native cs : Forall plain cs -> clean_components (native cs) = cs.
Proof.
  intros H. unfold clean_components. rewrite rooted_native, Split_native. cbn [fold_left].
  change (clean_step true [] []) with (@nil bytes).
  rewrite clean_fold_join by done. by rewrite app_nil_r, rev_involutive.
Qed.

Lemma Clean_native cs : Forall plain cs -> Clean (native cs) = native cs.
Proof. intros H. unfold Clean. by rewrite rooted_native, clean_components_native. Qed.

Lemma clean_components_slash cs c :
  Forall plain cs -> no_slash c ->
  clean_components (native cs ++ slash :: c) = rev (clean_step true (rev cs) c).
Proof.
  intros H Hc. unfold clean_components. change (rooted (native cs ++ _)) with true.
  rewrite Split_app, fold_left_app, Split_native, (Split_part c) by done. cbn [fold_left].
  change (clean_step true [] []) with (@nil bytes). by rewrite clean_fold_join, app_nil_r by done.
Qed.

Lemma Join_native cs c : Forall plain cs -> plain c -> Join (native cs) c = native (cs ++ [c]).
Proof.
  intros H Hc. change (Join (native cs) c) with (Clean (native cs ++ slash :: c)). unfold Clean.
  change (rooted (native cs ++ _)) with true.
  rewrite clean_components_slash by (done || by apply plain_no_slash).
  rewrite clean_step_plain by done. cbn [rev]. by rewrite rev_involutive.
Qed.

Lemma Join_native_all cs ds :
  Forall plain cs -> Forall plain ds -> fold_left Join ds (native cs) = native (cs ++ ds).
Proof.
  intros H Hd. revert cs H. induction Hd as [|d ds Hd _ IH]; intros cs H; cbn [fold_left].
  { by rewrite app_nil_r. }
  rewrite Join_native by done. rewrite IH by (apply Forall_app; auto). by rewrite <- app_assoc.
Qed.

(** ** The last component *)

Lemma drop_while_app {A} (f : A -> bool) l r :
  Forall (fun x => f x = true) l -> drop_while f (l ++ r) = drop_while f r.
Proof. induction 1 as [|x l Hx _ IH]; cbn; [done|]. by rewrite Hx. Qed.

Lemma take_while_app {A} (f : A -> bool) l r :
  Forall (fun x => f x = true) l -> take_while f (l ++ r) = l ++ take_while f r.
Proof. induction 1 as [|x l Hx _ IH]; cbn; [done|]. by rewrite Hx, IH. Qed.

Lemma no_slash_not c : no_slash c -> Forall (fun b => not_slash b = true) (rev c).
Proof.
  intros H. apply Forall_rev. eapply Forall_impl; [exact H|]. intros b Hb. unfold not_slash.
  rewrite bool_decide_eq_false_2; [done|]. intros ->. by apply Hb.
Qed.

Lemma native_snoc cs c :
  exists s, native (cs ++ [c]) = s ++ slash :: c /\ (s = [] /\ cs = [] \/ cs <> [] /\ s = native cs).
Proof.
  unfold native. destruct cs as [|d cs]; [exists []; auto|].
  exists (native (d :: cs)). split; [|by right]. unfold native. cbn [app]. f_equal.
  revert d. induction cs as [|e cs IH]; intros d; [done|].
  cbn [app]. rewrite !join_slash_cons, <- app_assoc. cbn [app]. by rewrite (IH e).
Qed.

Lemma upto_slash_app s c : no_slash c -> upto_slash (s ++ slash :: c) = s ++ [slash].
Proof.
  intros Hc. unfold upto_slash. rewrite rev_app_distr. cbn [rev]. rewrite <- app_assoc.
  rewrite drop_while_app by (by apply no_slash_not). cbn. change (not_slash slash) with false. cbn.
  by rewrite rev_involutive.
Qed.

Lemma after_slash_app s c : no_slash c -> after_slash (s ++ slash :: c) = c.
Proof.
  intros Hc. unfold after_slash. rewrite rev_app_distr. cbn [rev]. rewrite <- app_assoc.
  rewrite take_while_app by (by apply no_slash_not). cbn. change (not_slash slash) with false.
  by rewrite app_nil_r, rev_involutive.
Qed.

Lemma Dir_native cs c : Forall plain cs -> plain c -> Dir (native (cs ++ [c])) = native cs.
Proof.
  intros H Hc. unfold Dir. destruct (native_snoc cs c) as (s & -> & Hs).
  rewrite upto_slash_app by (by apply plain_no_slash).
  destruct Hs as [[-> ->]|[Hn ->]]; [done|].
  unfold Clean. change (rooted (native cs ++ _)) with true.
  rewrite clean_components_slash by (done || constructor).
  change (clean_step true (rev cs) []) with (rev cs). by rewrite rev_involutive.
Qed.

Lemma drop_while_head {A} (f : A -> bool) l x r : l = x :: r -> f x = false -> drop_while f l = l.
Proof. intros -> Hx. cbn. by rewrite Hx. Qed.

Lemma Base_native cs c : plain c -> Base (native (cs ++ [c])) = c.
Proof.
  intros Hc. pose proof (plain_no_slash _ Hc) as Hns. unfold Base.
  rewrite bool_decide_eq_false_2 by (unfold native; done).
  destruct (native_snoc cs c) as (s & -> & _).
  assert (Hr : rev (drop_while (fun b => negb (not_slash b)) (rev (s ++ slash :: c))) = s ++ slash :: c).
  { apply no_slash_not in Hns. destruct (rev c) as [|x r] eqn:E.
    { apply (f_equal (@rev _)) in E. rewrite rev_involutive in E. by destruct Hc. }
    apply Forall_cons in Hns as [Hx _].
    rewrite (drop_while_head _ _ x (r ++ [slash] ++ rev s)), rev_involutive; [done| |by rewrite Hx].
    rewrite rev_app_distr. cbn [rev]. by rewrite E, <- app_assoc. }
  rewrite Hr, after_slash_app by done. rewrite bool_decide_eq_false_2; [done|]. by destruct Hc.
Qed.

(** ** Injectivity and containment *)

Lemma native_inj cs ds : Forall plain cs -> Forall plain ds -> native cs = native ds -> cs = ds.
Proof. intros Hc Hd E%(f_equal clean_components). by rewrite !clean_components_native in E. Qed.

Lemma strip_common_app a b : strip_common a (a ++ b) = ([], b).
Proof.
  induction a as [|x a IH]; cbn; [by destruct b|]. by rewrite bool_decide_eq_true_2.
Qed.

Lemma strip_common_spec a b r t :
  strip_common a b = (r, t) -> exists p, a = p ++ r /\ b = p ++ t.
Proof.
  revert b. induction a as [|x a IH]; intros [|y b]; cbn; try (intros [= <- <-]; by exists []).
  destruct (bool_decide (x = y)) eqn:E; [|intros [= <- <-]; by exists []]. reflect_bools. subst.
  intros (p & -> & ->)%IH. by exists (y :: p).
Qed.

Lemma Rel_native_under cs ds :
  Forall plain cs -> Forall plain ds -> ds <> [] ->
  Rel (native cs) (native (cs ++ ds)) = Some (join_slash ds).
Proof.
  intros Hc Hd Hn. assert (Ha : Forall plain (cs ++ ds)) by (apply Forall_app; auto).
  unfold Rel. rewrite !Clean_native by done. rewrite bool_decide_eq_false_2.
  2:{ intros E%native_inj; [|done..]. destruct ds; [done|].
      apply (f_equal length) in E. rewrite length_app in E. cbn in E. lia. }
  rewrite !rooted_native. cbn [Bool.eqb negb]. rewrite !clean_components_native by done.
  by rewrite strip_common_app.
Qed.

(** Whether [Rel] leaves the base. *)
Definition escapes (r : bytes) : bool :=
  bool_decide (r = str "..") || bool_decide (take 3 r = str "../").

Lemma escapes_dotdot l : escapes (join_slash (str ".." :: l)) = true.
Proof. destruct l as [|c l]; [done|]. unfold escapes. rewrite join_slash_cons. apply orb_true_r. Qed.

Lemma not_escapes_plain c cs : plain c -> escapes (join_slash (c :: cs)) = false.
Proof.
  intros (Hc & Hd & Hdd & Hns). unfold escapes. apply orb_false_iff.
  assert (Hx : forall t, c ++ slash :: t <> str "..").
  { intros t E. assert (slash ∈ str "..") as Hin by (rewrite <- E; set_solver).
    vm_compute in Hin. set_solver. }
  split; apply bool_decide_eq_false_2.
  - destruct cs as [|d cs]; [done|]. rewrite join_slash_cons. apply Hx.
  - assert (Hs : slash ∉ c) by (intros Hin; unfold no_slash in Hns; rewrite Forall_forall in Hns; by apply (Hns _ Hin)).
    assert (Hshape : exists t, join_slash (c :: cs) = c ++ t /\ (t = [] \/ exists u, t = slash :: u)).
    { destruct cs as [|d cs]; [exists []; rewrite app_nil_r; auto|].
      rewrite join_slash_cons. eexists. split; [done|]. right. by eexists. }
    destruct Hshape as (t & -> & Ht). intros E.
    destruct c as [|x [|y [|z c]]]; [done|..].
    + cbn in E. destruct Ht as [->|[u ->]]; [done|]. cbn in E. by destruct u.
    + cbn in E. destruct Hdd. injection E as -> -> _. done.
    + cbn in E. injection E as _ _ ->. apply Hs. do 2 right. left.
Qed.

End FilePath.
