(* ===== verification/FileSystem.v ===== *)
(** * The filesystem as the synchronization code uses it

    The calls of Go's os package that internal/localsync makes are a class of
    operations on a world [W] ([FileSystem]), and [FileSystemLaws] is their
    documented effect on a view of the tree: a finite map from component lists
    to nodes.  Any call may fail with any error.  A failed call changes nothing,
    apart from a failed copy, which may leave any content in its target, and a
    failed [MkdirAll], which may have created some of the directories.  Paths are
    constrained only where no proper ancestor is a symbolic link, since the
    calls follow links in the middle of a path.

    [MemFS] is a tree in memory with a script of faults; it discharges the laws
    and runs the witnesses. *)

From stdpp Require Import gmap.
From S2P Require Import Prelude PathGrammar FilePath.
Import PathGrammar FilePath.

#[global] Instance byte_countable : Countable Byte.byte :=
  inj_countable Byte.to_N Byte.of_N Byte.of_to_N.

Module FileSystem.

(** The errors that the code tells apart. *)
Inductive errno := ENOENT | EEXIST | EPERM | ENOSPC | ELOOP | EMLINK | EOther.

#[global] Instance errno_eq_dec : EqDecision errno.
Proof. solve_decision. Defined.

Inductive FileType := TDir | TRegular | TSymlink | TPipe | TSocket | TDevice | TIrregular.

#[global] Instance FileType_eq_dec : EqDecision FileType.
Proof. solve_decision. Defined.

(** What is at a path: a directory or a regular file with its permission bits
    and content, or something else. *)
Inductive node :=
| NDir (perm : Z)
| NFile (perm : Z) (data : bytes)
| NOther (t : FileType).

Definition ftype (n : node) : FileType :=
  match n with
  | NDir _ => TDir
  | NFile _ _ => TRegular
  | NOther (TDir | TRegular) => TIrregular
  | NOther t => t
  end.
Definition fperm (n : node) : Z :=
  match n with NDir m => m | NFile m _ => m | NOther _ => 0x1FF end.

Record FileInfo := mkInfo { FType : FileType; FPerm : Z }.
Definition info_of (n : node) : FileInfo := mkInfo (ftype n) (fperm n).

Abbreviation tree := (gmap (list bytes) node).

(** ** State and results *)

(** A call on the world that ends in a result. *)
Definition io (W E A : Type) : Type := W -> W * res E A.

Definition ret {W E A} (a : A) : io W E A := fun w => (w, Ok a).
Definition throw {W E A} (e : E) : io W E A := fun w => (w, Err e).
Definition lift {W E A} (r : res E A) : io W E A := fun w => (w, r).

Definition io_bind {W E A B} (c : io W E A) (k : A -> io W E B) : io W E B :=
  fun w => let '(w, r) := c w in
    match r with
    | Ok a => k a w
    | Err e => (w, Err e)
    | Panic => (w, Panic)
    end.

(** [if err != nil { return f(err) }]. *)
Definition or_fail {W E F A} (c : io W E A) (f : E -> F) : io W F A :=
  fun w => let '(w, r) := c w in (w, map_err f r).

(** The error is inspected, not propagated. *)
Definition try {W E F A} (c : io W E A) : io W F (A + E) :=
  fun w => let '(w, r) := c w in
    (w, match r with Ok a => Ok (inl a) | Err e => Ok (inr e) | Panic => Panic end).

(** [_ = f()]. *)
Definition ignore {W E F A} (c : io W E A) : io W F unit :=
  fun w => let '(w, r) := c w in (w, match r with Panic => Panic | _ => Ok tt end).

Notation "'let*' x := c 'in' k" := (io_bind c (fun x => k))
  (at level 10, x pattern, c at level 200, k at level 200,
   format "'[v' 'let*'  x  :=  c  'in' '/' k ']'") : go_scope.

(** Weakest preconditions: what holds of the world and the result after a call. *)
Definition wp {W E A} (c : io W E A) (Q : W -> res E A -> Prop) (w : W) : Prop :=
  Q (c w).1 (c w).2.

Section WP.
Context {W : Type}.

Lemma wp_call {E A} (c : io W E A) Q w : (forall w' r, c w = (w', r) -> Q w' r) -> wp c Q w.
Proof. unfold wp. destruct (c w) as [w' r]. auto. Qed.

Lemma wp_run {E A} (c : io W E A) Q w w' r : wp c Q w -> c w = (w', r) -> Q w' r.
Proof. unfold wp. by intros H Hc; rewrite Hc in H. Qed.

Lemma wp_mono {E A} (c : io W E A) (P Q : W -> res E A -> Prop) w :
  wp c P w -> (forall w' r, P w' r -> Q w' r) -> wp c Q w.
Proof. unfold wp. auto. Qed.

Lemma wp_ret {E A} (a : A) (Q : W -> res E A -> Prop) w : Q w (Ok a) -> wp (ret a) Q w.
Proof. done. Qed.

Lemma wp_throw {E A} (e : E) (Q : W -> res E A -> Prop) w : Q w (Err e) -> wp (throw e) Q w.
Proof. done. Qed.

Lemma wp_lift {E A} (r : res E A) (Q : W -> res E A -> Prop) w : Q w r -> wp (lift r) Q w.
Proof. done. Qed.

Lemma wp_bind {E A B} (c : io W E A) (k : A -> io W E B) Q w :
  wp c (fun w r => match r with Ok a => wp (k a) Q w | Err e => Q w (Err e) | Panic => Q w Panic end) w ->
  wp (io_bind c k) Q w.
Proof. unfold wp, io_bind. by destruct (c w) as [w' [a|e|]]. Qed.

Lemma wp_or_fail {E F A} (c : io W E A) (f : E -> F) Q w :
  wp c (fun w r => Q w (map_err f r)) w -> wp (or_fail c f) Q w.
Proof. unfold wp, or_fail. by destruct (c w) as [w' r]. Qed.

Lemma wp_try {E F A} (c : io W E A) (Q : W -> res F (A + E) -> Prop) w :
  wp c (fun w r => Q w (match r with Ok a => Ok (inl a) | Err e => Ok (inr e) | Panic => Panic end)) w ->
  wp (try c) Q w.
Proof. unfold wp, try. by destruct (c w) as [w' r]. Qed.

Lemma wp_ignore {E F A} (c : io W E A) (Q : W -> res F unit -> Prop) w :
  wp c (fun w r => Q w (match r with Panic => Panic | _ => Ok tt end)) w -> wp (ignore c) Q w.
Proof. unfold wp, ignore. by destruct (c w) as [w' r]. Qed.

(** A call that does not panic, whatever it returns. *)
Lemma wp_try_any {E F A} (c : io W E A) (Q : W -> res F (A + E) -> Prop) w :
  (forall w' r, c w = (w', r) -> r <> Panic /\ forall x, Q w' (Ok x)) -> wp (try c) Q w.
Proof. intros H. apply wp_try, wp_call. intros w' r [Hr Hq]%H. by destruct r. Qed.

Lemma wp_ignore_any {E F A} (c : io W E A) (Q : W -> res F unit -> Prop) w :
  (forall w' r, c w = (w', r) -> r <> Panic /\ Q w' (Ok tt)) -> wp (ignore c) Q w.
Proof. intros H. apply wp_ignore, wp_call. intros w' r [Hr Hq]%H. by destruct r. Qed.

End WP.

(** The test a computation is about to make. *)
Ltac wp_if := cbv beta iota zeta; match goal with |- wp (if ?c then _ else _) _ _ => destruct c eqn:? end.

Class FileSystem (W : Type) := {
  (** [os.Lstat] *)
  Lstat : bytes -> io W errno FileInfo;
  (** [os.MkdirAll] *)
  MkdirAll : bytes -> Z -> io W errno unit;
  (** [os.ReadDir]: the names, sorted *)
  ReadDir : bytes -> io W errno (list bytes);
  (** open for reading without following a final link, and [Stat] of the open file *)
  OpenRead : bytes -> io W errno FileInfo;
  (** the content of a file opened for reading, to its end *)
  ReadAll : bytes -> io W errno bytes;
  (** [os.OpenFile] with [O_WRONLY|O_CREATE|O_EXCL], closed *)
  CreateExcl : bytes -> Z -> io W errno unit;
  (** [os.OpenFile] with [O_WRONLY|O_TRUNC] *)
  OpenTrunc : bytes -> io W errno unit;
  (** [io.Copy] from an open file to an open, empty file: the bytes written *)
  CopyTo : bytes -> bytes -> io W errno Z;
  (** [os.WriteFile] and [os.ReadFile] *)
  WriteFile : bytes -> bytes -> Z -> io W errno unit;
  ReadFile : bytes -> io W errno bytes;
  (** [os.OpenFile] with [O_RDWR] *)
  OpenRW : bytes -> io W errno unit;
  SyncFile : bytes -> io W errno unit;
  CloseFile : bytes -> io W errno unit;
  SyncDir : bytes -> io W errno unit;
  Chmod : bytes -> Z -> io W errno unit;
  Rename : bytes -> bytes -> io W errno unit;
  Remove : bytes -> io W errno unit;
  (** [crypto/rand.Read] of [n] bytes *)
  RandRead : Z -> io W errno bytes }.

(** No symbolic link at a path or above it. *)
Definition nolink (v : tree) (cs : list bytes) : Prop :=
  forall p, p `prefix_of` cs -> v !! p <> Some (NOther TSymlink).

(** A usable path: proper components, no link above the last one. *)
Definition entry_at (v : tree) (ds : list bytes) (c : bytes) : Prop :=
  Forall plain ds /\ plain c /\ nolink v ds.

(** Proper components, and no link at a proper ancestor. *)
Definition reachable (v : tree) (cs : list bytes) : Prop :=
  Forall plain cs /\ forall p, p `prefix_of` cs -> p <> cs -> v !! p <> Some (NOther TSymlink).

(** Directories created on the way to [cs]. *)
Definition created_dirs (v v' : tree) (cs : list bytes) : Prop :=
  forall q, v' !! q = v !! q \/
    (v !! q = None /\ q `prefix_of` cs /\ exists m, v' !! q = Some (NDir m)).

Class FileSystemLaws (W : Type) `{FileSystem W} := {
  view : W -> tree;
  lstat_law w w' r cs :
    reachable (view w) cs -> Lstat (native cs) w = (w', r) ->
    view w' = view w /\
    match r with
    | Ok i => exists n, view w !! cs = Some n /\ i = info_of n
    | Err e => e = ENOENT -> view w !! cs = None
    | Panic => False
    end;
  mkdirall_spec w w' r cs m :
    Forall plain cs -> nolink (view w) cs -> MkdirAll (native cs) m w = (w', r) ->
    created_dirs (view w) (view w') cs /\
    match r with
    | Ok _ => cs <> [] -> exists m', view w' !! cs = Some (NDir m')
    | Err _ => True
    | Panic => False
    end;
  readdir_spec w w' r cs :
    Forall plain cs -> nolink (view w) cs -> ReadDir (native cs) w = (w', r) ->
    view w' = view w /\
    match r with
    | Ok names => NoDup names /\ (forall c, c ∈ names <-> plain c /\ is_Some (view w !! (cs ++ [c])))
    | Err _ => True
    | Panic => False
    end;
  openread_spec w w' r ds c :
    entry_at (view w) ds c -> OpenRead (native (ds ++ [c])) w = (w', r) ->
    view w' = view w /\
    match r with
    | Ok i => exists n, view w !! (ds ++ [c]) = Some n /\ i = info_of n
    | Err _ => True
    | Panic => False
    end;
  readall_spec w w' r ds c :
    entry_at (view w) ds c -> ReadAll (native (ds ++ [c])) w = (w', r) ->
    view w' = view w /\
    match r with
    | Ok d => exists m, view w !! (ds ++ [c]) = Some (NFile m d)
    | Err _ => True
    | Panic => False
    end;
  createexcl_spec w w' r ds c m :
    entry_at (view w) ds c -> CreateExcl (native (ds ++ [c])) m w = (w', r) ->
    match r with
    | Ok _ => view w !! (ds ++ [c]) = None /\ view w' = <[ds ++ [c] := NFile m []]> (view w)
    | Err _ => view w' = view w
    | Panic => False
    end;
  opentrunc_spec w w' r ds c m d :
    entry_at (view w) ds c -> view w !! (ds ++ [c]) = Some (NFile m d) ->
    OpenTrunc (native (ds ++ [c])) w = (w', r) ->
    match r with
    | Ok _ => view w' = <[ds ++ [c] := NFile m []]> (view w)
    | Err _ => view w' = view w
    | Panic => False
    end;
  copyto_spec w w' r src ds c m :
    entry_at (view w) ds c -> view w !! (ds ++ [c]) = Some (NFile m []) ->
    CopyTo src (native (ds ++ [c])) w = (w', r) ->
    r <> Panic /\ exists d, view w' = <[ds ++ [c] := NFile m d]> (view w) /\
      forall n, r = Ok n -> n = len d;
  writefile_spec w w' r ds c d m :
    entry_at (view w) ds c -> view w !! (ds ++ [c]) <> Some (NOther TSymlink) ->
    WriteFile (native (ds ++ [c])) d m w = (w', r) ->
    match r with
    | Ok _ => exists m', view w' = <[ds ++ [c] := NFile m' d]> (view w)
    | Err _ => view w' = view w \/ exists m' d', view w' = <[ds ++ [c] := NFile m' d']> (view w)
    | Panic => False
    end;
  readfile_spec w w' r ds c :
    entry_at (view w) ds c -> view w !! (ds ++ [c]) <> Some (NOther TSymlink) ->
    ReadFile (native (ds ++ [c])) w = (w', r) ->
    view w' = view w /\
    match r with
    | Ok d => exists m, view w !! (ds ++ [c]) = Some (NFile m d)
    | Err _ => True
    | Panic => False
    end;
  openrw_spec w w' r p : OpenRW p w = (w', r) -> view w' = view w /\ r <> Panic;
  sync_spec w w' r p : SyncFile p w = (w', r) -> view w' = view w /\ r <> Panic;
  close_spec w w' r p : CloseFile p w = (w', r) -> view w' = view w /\ r <> Panic;
  syncdir_spec w w' r p : SyncDir p w = (w', r) -> view w' = view w /\ r <> Panic;
  chmod_spec w w' r ds c m d m' :
    entry_at (view w) ds c -> view w !! (ds ++ [c]) = Some (NFile m d) ->
    Chmod (native (ds ++ [c])) m' w = (w', r) ->
    match r with
    | Ok _ => view w' = <[ds ++ [c] := NFile m' d]> (view w)
    | Err _ => view w' = view w
    | Panic => False
    end;
  rename_spec w w' r ds c es b m d :
    entry_at (view w) ds c -> entry_at (view w) es b ->
    view w !! (ds ++ [c]) = Some (NFile m d) ->
    Rename (native (ds ++ [c])) (native (es ++ [b])) w = (w', r) ->
    match r with
    | Ok _ => view w' = <[es ++ [b] := NFile m d]> (delete (ds ++ [c]) (view w))
    | Err _ => view w' = view w
    | Panic => False
    end;
  remove_spec w w' r ds c :
    entry_at (view w) ds c -> Remove (native (ds ++ [c])) w = (w', r) ->
    match r with
    | Ok _ => view w' = delete (ds ++ [c]) (view w)
    | Err _ => view w' = view w
    | Panic => False
    end;
  rand_spec w w' r n :
    0 <= n -> RandRead n w = (w', r) ->
    view w' = view w /\ match r with Ok b => len b = n | Err _ => True | Panic => False end }.

Lemma prefix_of_snoc {A} (p ds : list A) c : p `prefix_of` ds ++ [c] -> p `prefix_of` ds \/ p = ds ++ [c].
Proof.
  intros [k Hk]. destruct k as [|x k _] using rev_ind; [right; by rewrite app_nil_r in Hk|].
  rewrite app_assoc in Hk. apply app_inj_2 in Hk as [-> _]; [|done]. left. by exists k.
Qed.

Lemma plain_snoc ds c : Forall plain ds -> plain c -> Forall plain (ds ++ [c]).
Proof. intros. apply Forall_app; auto. Qed.

Lemma entry_reachable v ds c : entry_at v ds c -> reachable v (ds ++ [c]).
Proof.
  intros (Hd & Hc & Hl). split; [by apply plain_snoc|]. intros p [Hp| ->]%prefix_of_snoc Hn; [by apply Hl|done].
Qed.

Lemma lstat_spec `{FileSystemLaws W} w w' r ds c :
  entry_at (view w) ds c -> Lstat (native (ds ++ [c])) w = (w', r) ->
  view w' = view w /\
  match r with
  | Ok i => exists n, view w !! (ds ++ [c]) = Some n /\ i = info_of n
  | Err e => e = ENOENT -> view w !! (ds ++ [c]) = None
  | Panic => False
  end.
Proof. intros He. by apply lstat_law, entry_reachable. Qed.

(** ** A tree in memory *)

(** Each call takes the next fault of [script], if any. *)
Record MemFS := mkMemFS { nodes : tree; script : list (option errno); entropy : Z }.

Definition with_nodes (w : MemFS) (v : tree) : MemFS := mkMemFS v (script w) (entropy w).

(** Run a call unless the script makes it fail; a fault is never "not found". *)
Definition scripted {A} (k : io MemFS errno A) : io MemFS errno A :=
  fun w => match script w with
  | Some e :: s => (mkMemFS (nodes w) s (entropy w), Err (if bool_decide (e = ENOENT) then EOther else e))
  | None :: s => k (mkMemFS (nodes w) s (entropy w))
  | [] => k w
  end.

Definition on_node {A} (p : bytes) (k : list bytes -> node -> io MemFS errno A) : io MemFS errno A :=
  scripted (fun w =>
    let cs := clean_components p in
    match nodes w !! cs with
    | Some n => k cs n w
    | None => (w, Err ENOENT)
    end).

(** Create the missing directories at [done ++ ds] for the prefixes of [todo]. *)
Fixpoint mk_dirs (v : tree) (done todo : list bytes) (m : Z) : tree * res errno unit :=
  match todo with
  | [] => (v, Ok tt)
  | c :: todo =>
      let p := done ++ [c] in
      match v !! p with
      | Some (NDir _) => mk_dirs v p todo m
      | None => mk_dirs (<[p := NDir m]> v) p todo m
      | Some _ => (v, Err EOther)
      end
  end.

(** The names of the entries of a directory. *)
Definition names_in (v : tree) (cs : list bytes) : list bytes :=
  elements (list_to_set (omap (fun '(p, _) =>
    match rev p with
    | c :: r => if bool_decide (rev r = cs) && bool_decide (c <> []) && negb (bool_decide (c = str "."))
                   && negb (bool_decide (c = str "..")) && forallb (fun b => negb (byteZ b =? 47)) c
                then Some c else None
    | [] => None
    end) (map_to_list v)) : gset bytes).

#[global] Instance MemFS_FileSystem : FileSystem MemFS := {
  Lstat p := on_node p (fun _ n => ret (info_of n));
  MkdirAll p m := scripted (fun w =>
    let '(v, r) := mk_dirs (nodes w) [] (clean_components p) m in (with_nodes w v, r));
  ReadDir p := scripted (fun w => (w, Ok (names_in (nodes w) (clean_components p))));
  OpenRead p := on_node p (fun _ n =>
    if bool_decide (ftype n = TSymlink) then throw EOther else ret (info_of n));
  ReadAll p := on_node p (fun _ n => match n with NFile _ d => ret d | _ => throw EOther end);
  CreateExcl p m := scripted (fun w =>
    let cs := clean_components p in
    match nodes w !! cs with
    | Some _ => (w, Err EEXIST)
    | None => (with_nodes w (<[cs := NFile m []]> (nodes w)), Ok tt)
    end);
  OpenTrunc p := on_node p (fun cs n =>
    match n with
    | NFile m _ => fun w => (with_nodes w (<[cs := NFile m []]> (nodes w)), Ok tt)
    | _ => throw EOther
    end);
  CopyTo src dst := on_node dst (fun cs n =>
    match n with
    | NFile m d0 => fun w =>
        match nodes w !! clean_components src with
        | Some (NFile _ d) => (with_nodes w (<[cs := NFile m (d0 ++ d)]> (nodes w)), Ok (len d))
        | _ => (w, Err EOther)
        end
    | _ => throw EOther
    end);
  WriteFile p d m := scripted (fun w =>
    let cs := clean_components p in
    match nodes w !! cs with
    | Some (NFile m' _) => (with_nodes w (<[cs := NFile m' d]> (nodes w)), Ok tt)
    | None => (with_nodes w (<[cs := NFile m d]> (nodes w)), Ok tt)
    | _ => (w, Err EOther)
    end);
  ReadFile p := on_node p (fun _ n => match n with NFile _ d => ret d | _ => throw EOther end);
  OpenRW p := on_node p (fun _ _ => ret tt);
  SyncFile _ := scripted (ret tt);
  CloseFile _ := scripted (ret tt);
  SyncDir _ := scripted (ret tt);
  Chmod p m := on_node p (fun cs n =>
    match n with
    | NFile _ d => fun w => (with_nodes w (<[cs := NFile m d]> (nodes w)), Ok tt)
    | NDir _ => fun w => (with_nodes w (<[cs := NDir m]> (nodes w)), Ok tt)
    | _ => throw EOther
    end);
  Rename a b := on_node a (fun cs n =>
    match n with
    | NFile m d => fun w =>
        (with_nodes w (<[clean_components b := NFile m d]> (delete cs (nodes w))), Ok tt)
    | _ => throw EOther
    end);
  Remove p := on_node p (fun cs n =>
    match n with
    | NDir _ => throw EOther
    | _ => fun w => (with_nodes w (delete cs (nodes w)), Ok tt)
    end);
  RandRead n := scripted (fun w =>
    (mkMemFS (nodes w) (script w) (entropy w + 1), Ok (le_bytes (Z.to_nat n) (entropy w)))) }.

(** ** The laws of the tree in memory *)

Lemma entry_components v ds c : entry_at v ds c -> clean_components (native (ds ++ [c])) = ds ++ [c].
Proof. intros (? & ? & _). by apply clean_components_native, plain_snoc. Qed.

(** Every call of [MemFS] is a fault or the call itself on the same tree. *)
Lemma scripted_inv {A} (k : io MemFS errno A) w w' r :
  scripted k w = (w', r) ->
  (nodes w' = nodes w /\ exists e, r = Err e /\ e <> ENOENT) \/
  (exists w1, nodes w1 = nodes w /\ k w1 = (w', r)).
Proof.
  unfold scripted. destruct (script w) as [|[e|] s]; intros E; [right; eauto| |right].
  - injection E as <- <-. left. split; [done|]. eexists. split; [done|].
    by destruct (bool_decide (e = ENOENT)) eqn:?; reflect_bools.
  - eexists. split; [|exact E]. done.
Qed.

Lemma on_node_inv {A} p (k : list bytes -> node -> io MemFS errno A) w w' r cs :
  clean_components p = cs -> on_node p k w = (w', r) ->
  (nodes w' = nodes w /\ exists e, r = Err e /\ (e = ENOENT -> nodes w !! cs = None)) \/
  (exists w1 n, nodes w1 = nodes w /\ nodes w !! cs = Some n /\ k cs n w1 = (w', r)).
Proof.
  intros Hp H. apply scripted_inv in H as [(H & e & -> & He)|(w1 & Hn & E)]; [left; split; [done|]; by exists e|].
  cbv zeta in E. rewrite Hp, Hn in E. destruct (nodes w !! cs) as [n|] eqn:En; [right; exists w1, n; auto|].
  injection E as <- <-. left. split; [done|]. by exists ENOENT.
Qed.

Lemma mk_dirs_spec v done todo m v' r :
  mk_dirs v done todo m = (v', r) ->
  created_dirs v v' (done ++ todo) /\
  match r with
  | Ok _ => todo <> [] -> exists m', v' !! (done ++ todo) = Some (NDir m')
  | Err _ => True
  | Panic => False
  end.
Proof.
  revert v done. induction todo as [|c todo IH]; intros v done; cbn [mk_dirs].
  { intros [= <- <-]. split; [|done]. intros q. by left. }
  destruct (v !! (done ++ [c])) as [[m0|m0 d|t]|] eqn:E;
    try (intros [= <- <-]; split; [|done]; intros q; by left).
  - intros H%IH. rewrite <- app_assoc in H. cbn [app] in H. destruct H as [H1 H2]. split; [done|].
    destruct r; try done. intros _. destruct todo as [|d todo]; [|by apply H2].
    destruct (H1 (done ++ [c])) as [->|(Hn & _)]; [eauto|congruence].
  - intros H%IH. rewrite <- app_assoc in H. cbn [app] in H. destruct H as [H1 H2]. split.
    + intros q. destruct (H1 q) as [Hq|(Hq & Hp & Hm)].
      * destruct (decide (q = done ++ [c])) as [->|Hne]; [|left; by rewrite Hq, lookup_insert_ne].
        right. rewrite lookup_insert_eq in Hq. split_and!; [done| |eauto].
        exists todo. by rewrite <- app_assoc.
      * right. split_and!; [|done..]. destruct (decide (q = done ++ [c])) as [->|Hne]; [done|].
        by rewrite lookup_insert_ne in Hq.
    + destruct r; try done. intros _. destruct todo as [|d todo]; [|by apply H2].
      destruct (H1 (done ++ [c])) as [->|(_ & _ & Hm)]; [|done]. rewrite lookup_insert_eq. eauto.
Qed.

Lemma names_in_spec v cs c :
  c ∈ names_in v cs <-> plain c /\ is_Some (v !! (cs ++ [c])).
Proof.
  unfold names_in. rewrite elem_of_elements, elem_of_list_to_set, list_elem_of_omap. split.
  - intros ([p n] & Hin%elem_of_map_to_list & H). destruct (rev p) as [|x r] eqn:E; [done|].
    apply (f_equal (@rev _)) in E. rewrite rev_involutive in E. cbn in E. subst p.
    destruct (_ && _) eqn:Eb; [|done]. injection H as ->. reflect_bools. subst cs. split; [|by rewrite Hin].
    split_and!; try done. unfold no_slash. apply Forall_forall. intros b Hb.
    rewrite list_elem_of_In in Hb.
    match goal with H : forallb _ _ = true |- _ => rewrite forallb_forall in H; apply H in Hb end. lia.
  - intros [(H1 & H2 & H3 & H4) [n Hn]]. exists (cs ++ [c], n). split; [by apply elem_of_map_to_list|].
    rewrite rev_app_distr. cbn. rewrite rev_involutive.
    rewrite !bool_decide_eq_true_2, !bool_decide_eq_false_2 by done. cbn.
    assert (forallb (fun b => negb (byteZ b =? 47)) c = true) as ->; [|done].
    apply forallb_forall. intros b Hb%list_elem_of_In. unfold no_slash in H4. rewrite Forall_forall in H4.
    specialize (H4 b Hb). lia.
Qed.

(** Run a call of [MemFS] on an entry. *)
#[local] Ltac mem_call H He :=
  first [apply (on_node_inv _ _ _ _ _ _ (entry_components _ _ _ He)) in H
           as [(Hv & e & -> & Hne)|(w1 & n & Hw & Hn & H)]
        |apply scripted_inv in H as [(Hv & e & -> & Hne)|(w1 & Hw & H)]].

#[local] Ltac mem_unfold H :=
  cbn [Lstat MkdirAll ReadDir OpenRead ReadAll CreateExcl OpenTrunc CopyTo WriteFile ReadFile Chmod Rename Remove
       RandRead MemFS_FileSystem] in H.

#[local] Ltac mem_done H := injection H as <- <-; cbn; repeat match goal with Hw : nodes _ = nodes _ |- _ => rewrite ?Hw end; eauto.

#[global] Program Instance MemFS_laws : FileSystemLaws MemFS := { view := nodes }.
Next Obligation.
  intros w w' r cs [Hp _] H. mem_unfold H.
  apply (on_node_inv _ _ _ _ _ _ (clean_components_native _ Hp)) in H as [(Hv & e & -> & Hne)|(w1 & n & Hw & Hn & H)]; [done|].
  mem_done H.
Qed.
Next Obligation.
  intros w w' r cs m Hp Hl H. mem_unfold H. apply scripted_inv in H as [(Hv & e & -> & _)|(w1 & Hw & H)].
  { split; [|done]. intros q. left. by rewrite Hv. }
  rewrite clean_components_native, Hw in H by done.
  destruct (mk_dirs (nodes w) [] cs m) as [v r'] eqn:E. injection H as <- <-.
  apply mk_dirs_spec in E as [H1 H2]. cbn [app] in *. by split.
Qed.
Next Obligation.
  intros w w' r cs Hp Hl H. mem_unfold H. apply scripted_inv in H as [(Hv & e & -> & _)|(w1 & Hw & H)]; [done|].
  rewrite clean_components_native, Hw in H by done. injection H as <- <-. split; [done|].
  split; [apply NoDup_elements|]. intros c. apply names_in_spec.
Qed.
Next Obligation.
  intros w w' r ds c He H. mem_unfold H. mem_call H He; [done|].
  destruct (bool_decide _); mem_done H.
Qed.
Next Obligation.
  intros w w' r ds c He H. mem_unfold H. mem_call H He; [done|]. destruct n; mem_done H.
Qed.
Next Obligation.
  intros w w' r ds c m He H. mem_unfold H. apply scripted_inv in H as [(Hv & e & -> & _)|(w1 & Hw & H)]; [done|].
  cbv zeta in H. rewrite (entry_components _ _ _ He), Hw in H.
  destruct (nodes w !! _) eqn:E; mem_done H.
Qed.
Next Obligation.
  intros w w' r ds c m d He Hn0 H. mem_unfold H. mem_call H He; [done|].
  rewrite Hn0 in Hn. injection Hn as <-. mem_done H.
Qed.
Next Obligation.
  intros w w' r src ds c m He Hn0 H. mem_unfold H. mem_call H He.
  { split; [done|]. exists []. rewrite Hv, insert_id by done. done. }
  rewrite Hn0 in Hn. injection Hn as <-. cbv beta iota in H. rewrite Hw in H.
  destruct (nodes w !! clean_components src) as [[|m' d|]|] eqn:E; injection H as <- <-; cbn; (split; [done|]).
  2: { exists d. split; [done|]. by intros n [= <-]. }
  all: exists []; rewrite Hw, insert_id by done; done.
Qed.
Next Obligation.
  intros w w' r ds c d m He Hnl H. mem_unfold H. apply scripted_inv in H as [(Hv & e & -> & _)|(w1 & Hw & H)]; [by left|].
  cbv zeta in H. rewrite (entry_components _ _ _ He), Hw in H.
  destruct (nodes w !! _) as [[]|] eqn:E; mem_done H.
Qed.
Next Obligation.
  intros w w' r ds c He Hnl H. mem_unfold H. mem_call H He; [done|]. destruct n; mem_done H.
Qed.
Next Obligation.
  intros w w' r p H. apply (on_node_inv _ _ _ _ _ _ eq_refl) in H as [(Hv & e & -> & _)|(w1 & n & Hw & _ & H)]; [done|].
  by injection H as <- <-.
Qed.
Next Obligation. intros w w' r p H. apply scripted_inv in H as [(Hv & e & -> & _)|(w1 & Hw & H)]; [done|]. by injection H as <- <-. Qed.
Next Obligation. intros w w' r p H. apply scripted_inv in H as [(Hv & e & -> & _)|(w1 & Hw & H)]; [done|]. by injection H as <- <-. Qed.
Next Obligation. intros w w' r p H. apply scripted_inv in H as [(Hv & e & -> & _)|(w1 & Hw & H)]; [done|]. by injection H as <- <-. Qed.
Next Obligation.
  intros w w' r ds c m d m' He Hn0 H. mem_unfold H. mem_call H He; [done|].
  rewrite Hn0 in Hn. injection Hn as <-. mem_done H.
Qed.
Next Obligation.
  intros w w' r ds c es b m d He Hb Hn0 H. mem_unfold H. mem_call H He; [done|].
  rewrite Hn0 in Hn. injection Hn as <-. rewrite (entry_components _ _ _ Hb) in H. mem_done H.
Qed.
Next Obligation.
  intros w w' r ds c He H. mem_unfold H. mem_call H He; [done|]. destruct n; mem_done H.
Qed.
Next Obligation.
  intros w w' r n Hz H. mem_unfold H. apply scripted_inv in H as [(Hv & e & -> & _)|(w1 & Hw & H)]; [done|].
  injection H as <- <-. cbn. split; [done|]. rewrite len_le_bytes. lia.
Qed.

End FileSystem.
