(* ===== verification/LocalPayload.v ===== *)
(** * Journal payloads of local synchronization (internal/localsync)

    [errors.go], the payload encoders and decoders of [jpayload.go], and the
    reconstruction of a transaction from a journal prefix ([txnstate.go]).  The
    decoders accept only what the encoders write; the round trip of a payload
    with two length-prefixed fields holds below 64 KiB, and
    [decodeObservation_long] shows what the 16-bit length test does above.
    [inspectPrefix] is characterized by the last observation of the prefix and
    by what follows it. *)

From S2P Require Import Prelude Sha256 Codec Journal PathGrammar FilePath FileSystem.
Import Codec FileSystem.

Module LocalPayload.

(** ** Errors (errors.go) *)

Inductive Kind :=
| KindInvalidArgument | KindPathUnsafe | KindUnsupported | KindPermission | KindRead
| KindWrite | KindNoSpace | KindVerify | KindConflict | KindInternal.

#[global] Instance Kind_eq_dec : EqDecision Kind.
Proof. solve_decision. Defined.

(** An error value: a classified failure of the package (kind, operation and
    logical path; the message is diagnostic), or an error of another package. *)
Inductive Error :=
| LError (k : Kind) (op : string) (rel : bytes)
| OSError (e : errno)
| JournalError (e : Journal.Error)
| TextError (msg : string).

#[global] Instance Error_eq_dec : EqDecision Error.
Proof. solve_decision. Defined.

Definition classify (k : Kind) (op : string) (rel : bytes) : Error := LError k op rel.
Definition invalidArg (op : string) : Error := classify KindInvalidArgument op [].
Definition pathUnsafe (op : string) : Error := classify KindPathUnsafe op [].
Definition unsupported (op : string) (rel : bytes) : Error := classify KindUnsupported op rel.

(** [wrap]: an error that is already classified is passed on. *)
Definition wrap (k : Kind) (op : string) (rel : bytes) (e : Error) : Error :=
  match e with LError _ _ _ => e | _ => classify k op rel end.

Definition IsKind (e : Error) (k : Kind) : bool :=
  match e with LError k' _ _ => bool_decide (k' = k) | _ => false end.

(** [kindOf] (sync.go). *)
Definition kindOf (e : Error) : Kind :=
  match e with LError k _ _ => k | _ => KindInternal end.

(** ** Fields (jpayload.go) *)

Definition payloadVersion : Byte.byte := byte_of 1.

Definition putU16 (b : bytes) (v : Z) : bytes := b ++ le_bytes 2 v.
Definition putU32 (b : bytes) (v : Z) : bytes := b ++ le_bytes 4 v.
Definition putU64 (b : bytes) (v : Z) : bytes := b ++ le_bytes 8 v.

Definition putBytes (b p : bytes) : res Error bytes :=
  if 65535 <? len p then Err (TextError "payload field too long") else
  let b := putU16 b (u16 (len p)) in
  Ok (b ++ p).

Definition take_le (n : Z) (b : bytes) : res Error (Z * bytes) :=
  if len b <? n then Err (TextError "short payload") else
  let! s := slice b 0 n in
  let! rest := slice b n (len b) in
  Ok (le_val s, rest).

Definition takeU16 (b : bytes) : res Error (Z * bytes) := take_le 2 b.
Definition takeU32 (b : bytes) : res Error (Z * bytes) := take_le 4 b.
Definition takeU64 (b : bytes) : res Error (Z * bytes) := take_le 8 b.

(** The length test compares [uint16(len(rest))]. *)
Definition takeBytes (b : bytes) : res Error (bytes * bytes) :=
  let! (n, rest) := takeU16 b in
  if u16 (len rest) <? n then Err (TextError "short payload bytes") else
  let! p := slice rest 0 n in
  let! rest' := slice rest n (len rest) in
  Ok (p, rest').

(** ** Payloads (jpayload.go) *)

(** [len(p) < 1 || p[0] != payloadVersion]. *)
Definition bad_version (p : bytes) : bool :=
  match p with [] => true | v :: _ => negb (bool_decide (v = payloadVersion)) end.

Definition encodeObservation (src dst : bytes) : res Error bytes :=
  let b := [payloadVersion] in
  let! b := putBytes b src in
  putBytes b dst.

Definition decodeObservation (p : bytes) : res Error (bytes * bytes) :=
  if bad_version p then Err (TextError "bad observation version") else
  let! rest := slice p 1 (len p) in
  let! (sb, rest) := takeBytes rest in
  let! (db, rest) := takeBytes rest in
  if negb (len rest =? 0) then Err (TextError "trailing observation bytes") else
  Ok (sb, db).

Definition encodePlanDigest (d : bytes) (opCount : Z) : bytes :=
  putU32 ([payloadVersion] ++ d) opCount.

Definition decodePlanDigest (p : bytes) : res Error (bytes * Z) :=
  if (len p <? 1 + 32 + 4) || bad_version p then Err (TextError "bad plan_digest payload") else
  let! s := slice p 1 33 in
  let d := copy (zeros 32) s in
  let! s := slice p 33 37 in
  let n := le_val s in
  if negb (len p =? 37) then Err (TextError "trailing plan_digest bytes") else
  Ok (d, n).

Definition encodeAuthz (planDig : bytes) : bytes :=
  let label := str "local-unidirectional-v1" in
  [payloadVersion] ++ [byte_of (len label)] ++ label ++ planDig.

Definition encodeProgress (opIndex : Z) (action rel : bytes) (bytesCum : Z) : res Error bytes :=
  let b := [payloadVersion] in
  let b := putU32 b opIndex in
  let! b := putBytes b action in
  let! b := putBytes b rel in
  Ok (putU64 b bytesCum).

Definition decodeProgress (p : bytes) : res Error (Z * bytes * bytes * Z) :=
  if bad_version p then Err (TextError "bad progress version") else
  let! rest := slice p 1 (len p) in
  let! (opIndex, rest) := takeU32 rest in
  let! (ab, rest) := takeBytes rest in
  let! (rb, rest) := takeBytes rest in
  let! (bytesCum, rest) := takeU64 rest in
  if negb (len rest =? 0) then Err (TextError "trailing progress bytes") else
  Ok (opIndex, ab, rb, bytesCum).

Definition encodeConfirmation (planDig : bytes) (completed skipped bytes_ : Z) : bytes :=
  putU64 (putU32 (putU32 ([payloadVersion] ++ planDig) completed) skipped) bytes_.

Definition encodeCancellation (reason : bytes) : res Error bytes :=
  putBytes [payloadVersion] reason.

Definition encodeRecovery (nextOp : Z) (reason : bytes) : res Error bytes :=
  putBytes (putU32 [payloadVersion] nextOp) reason.

(** ** The transaction of a prefix (txnstate.go) *)

Record txnState := mkTxn {
  ID : bytes;
  Source : bytes;
  Destination : bytes;
  PlanDigest : bytes;
  HasPlan : bool;
  OpCount : Z;
  NextOp : Z;
  BytesCum : Z;
  Confirmed : bool;
  Cancelled : bool;
  Authorized : bool }.

#[global] Instance txnState_eq_dec : EqDecision txnState.
Proof. solve_decision. Defined.

Definition zeroTxn : txnState := mkTxn (zeros 16) [] [] (zeros 32) false 0 0 0 false false false.

Definition with_plan (d : bytes) (n : Z) (c : txnState) : txnState :=
  mkTxn (ID c) (Source c) (Destination c) d true n 0 0 false false (Authorized c).
Definition with_progress (next cum : Z) (c : txnState) : txnState :=
  mkTxn (ID c) (Source c) (Destination c) (PlanDigest c) (HasPlan c) (OpCount c) next cum
    (Confirmed c) (Cancelled c) (Authorized c).
Definition with_flags (conf canc auth : bool) (c : txnState) : txnState :=
  mkTxn (ID c) (Source c) (Destination c) (PlanDigest c) (HasPlan c) (OpCount c) (NextOp c)
    (BytesCum c) conf canc auth.

(** One iteration of the loop: [cur] and [found]. *)
Definition inspect_record (rec : Record_) (s : txnState * bool) : txnState * bool :=
  let '(cur, found) := s in
  let mine := bool_decide (TransactionID rec = ID cur) in
  if Type_ rec =? TypeObservation then
    match decodeObservation (Payload rec) with
    | Ok (src, dst) => (mkTxn (TransactionID rec) src dst (zeros 32) false 0 0 0 false false false, true)
    | _ => s
    end
  else if Type_ rec =? TypePlanDigest then
    if negb mine then s else
    match decodePlanDigest (Payload rec) with
    | Ok (d, n) => (with_plan d n cur, found)
    | _ => s
    end
  else if Type_ rec =? TypeAuthorization then
    if mine then (with_flags (Confirmed cur) (Cancelled cur) true cur, found) else s
  else if Type_ rec =? TypeProgress then
    if negb mine then s else
    match decodeProgress (Payload rec) with
    | Ok (idx, _, _, cum) => (with_progress (idx + 1) cum cur, found)
    | _ => s
    end
  else if Type_ rec =? TypeConfirmation then
    if mine then (with_flags true (Cancelled cur) (Authorized cur) cur, found) else s
  else if Type_ rec =? TypeCancellation then
    if mine then (with_flags (Confirmed cur) true (Authorized cur) cur, found) else s
  else s.

Fixpoint inspect_loop (recs : list Record_) (s : txnState * bool) : txnState * bool :=
  match recs with
  | [] => s
  | rec :: recs => inspect_loop recs (inspect_record rec s)
  end.

(** [inspectPrefix] over [p.Records]; [None] is [(txnState{}, false)]. *)
Definition inspectPrefix (recs : list Record_) : option txnState :=
  let '(cur, found) := inspect_loop recs (zeroTxn, false) in
  if negb found || Cancelled cur then None else Some cur.

(** ** Fields: exact inverses *)

Lemma take_le_app n v rest :
  0 <= v < 256 ^ Z.of_nat n -> take_le (Z.of_nat n) (le_bytes n v ++ rest) = Ok (v, rest).
Proof.
  intros Hv. pose proof (len_nonneg rest). unfold take_le. dec_false (len (le_bytes n v ++ rest) <? Z.of_nat n).
  rewrite slice_app_here by len_lia. cbn [bind].
  rewrite slice_ok by len_lia. cbn [bind]. rewrite le_val_bytes by done.
  rewrite sub_app_r by len_lia. rewrite sub_whole by len_lia. done.
Qed.

Lemma take_le_inv n b v rest :
  take_le (Z.of_nat n) b = Ok (v, rest) -> b = le_bytes n v ++ rest /\ 0 <= v < 256 ^ Z.of_nat n.
Proof.
  unfold take_le. destruct (len b <? _) eqn:E; [done|]. reflect_bools.
  rewrite !slice_ok by lia. cbn [bind]. intros [= <- <-].
  assert (Hl : len (sub b 0 (Z.of_nat n)) = Z.of_nat n) by (rewrite len_sub; lia).
  rewrite le_bytes_val_n by (apply len_length; done). split.
  - rewrite <- (sub_split b 0 (Z.of_nat n) (len b)) by lia. by rewrite sub_full by lia.
  - pose proof (le_val_range (sub b 0 (Z.of_nat n))) as H. by rewrite Hl in H.
Qed.

Lemma take_le_safe n b : 0 <= n -> safe (take_le n b).
Proof.
  intros Hn. unfold safe, take_le. destruct (len b <? n) eqn:E; [done|]. reflect_bools.
  by rewrite !slice_ok by lia.
Qed.

(** A length-prefixed field. *)
Definition field (x : bytes) : bytes := le_bytes 2 (len x) ++ x.

Lemma len_field x : len (field x) = 2 + len x.
Proof. unfold field. len_lia. Qed.
#[local] Hint Rewrite len_field : len.

Lemma putBytes_ok b x : len x <= 65535 -> putBytes b x = Ok (b ++ field x).
Proof.
  intros H. pose proof (len_nonneg x). unfold putBytes, putU16, field. dec_false (65535 <? len x).
  rewrite u16_small by (unfold is_u16; lia). by rewrite app_assoc.
Qed.

Lemma putBytes_long b x : 65535 < len x -> putBytes b x = Err (TextError "payload field too long").
Proof. intros H. unfold putBytes. by dec_true (65535 <? len x). Qed.

Lemma takeBytes_field x rest :
  len x <= 65535 -> len x <= u16 (len x + len rest) -> takeBytes (field x ++ rest) = Ok (x, rest).
Proof.
  intros Hx Hu. pose proof (len_nonneg x). pose proof (len_nonneg rest).
  unfold takeBytes, takeU16, field. rewrite <- app_assoc, (take_le_app 2) by lia. cbn [bind].
  rewrite len_app. dec_false (u16 (len x + len rest) <? len x).
  rewrite slice_app_here by done. cbn [bind]. rewrite slice_ok by len_lia. cbn [bind].
  rewrite sub_app_r, sub_whole by len_lia. done.
Qed.

(** Above 64 KiB the truncated length refuses a field that is there. *)
Lemma takeBytes_wrapped x rest :
  len x <= 65535 -> u16 (len x + len rest) < len x ->
  takeBytes (field x ++ rest) = Err (TextError "short payload bytes").
Proof.
  intros Hx Hu. pose proof (len_nonneg x).
  unfold takeBytes, takeU16, field. rewrite <- app_assoc, (take_le_app 2) by lia. cbn [bind].
  rewrite len_app. by dec_true (u16 (len x + len rest) <? len x).
Qed.

Lemma takeBytes_inv b x rest :
  takeBytes b = Ok (x, rest) -> b = field x ++ rest /\ len x <= 65535.
Proof.
  unfold takeBytes, takeU16. destruct (take_le 2 b) as [[n r]|e|] eqn:E; cbn [bind]; try done.
  apply (take_le_inv 2) in E as [-> Hn]. destruct (u16 (len r) <? n) eqn:E; [done|]. reflect_bools.
  assert (u16 (len r) <= len r) by (apply Z.mod_le; [apply len_nonneg|lia]).
  rewrite !slice_ok by lia. cbn [bind]. intros [= <- <-].
  assert (Hl : len (sub r 0 n) = n) by (rewrite len_sub; lia).
  unfold field. rewrite Hl. split; [|lia]. rewrite <- app_assoc. f_equal.
  rewrite <- (sub_split r 0 n (len r)) by lia. by rewrite sub_full by lia.
Qed.

Lemma takeBytes_safe b : safe (takeBytes b).
Proof.
  unfold safe, takeBytes. pose proof (take_le_safe 2 b ltac:(lia)) as Hs. unfold takeU16.
  destruct (take_le 2 b) as [[n r]|e|] eqn:E; cbn [bind]; try done.
  apply (take_le_inv 2) in E as [_ Hn]. destruct (u16 (len r) <? n) eqn:E; [done|]. reflect_bools.
  assert (u16 (len r) <= len r) by (apply Z.mod_le; [apply len_nonneg|lia]).
  by rewrite !slice_ok by lia.
Qed.

Lemma bad_version_cons p : bad_version p = false -> exists rest, p = payloadVersion :: rest.
Proof. destruct p as [|v p]; [done|]. cbn. intros E. reflect_bools. subst. by eexists. Qed.

Lemma slice_tail {E A} (x : A) l : @slice E A (x :: l) 1 (len (x :: l)) = Ok l.
Proof. rewrite slice_ok by len_lia. by rewrite sub_suffix by lia. Qed.

(** ** Payloads: exact inverses *)

Lemma encodeObservation_ok src dst :
  len src <= 65535 -> len dst <= 65535 ->
  encodeObservation src dst = Ok (payloadVersion :: field src ++ field dst).
Proof.
  intros Hs Hd. unfold encodeObservation. rewrite putBytes_ok by done. cbn [bind].
  rewrite putBytes_ok by done. by rewrite <- app_assoc.
Qed.

Lemma decodeObservation_field src dst :
  len src <= 65535 -> len dst <= 65535 -> len src <= u16 (len src + (2 + len dst)) ->
  decodeObservation (payloadVersion :: field src ++ field dst) = Ok (src, dst).
Proof.
  intros Hs Hd Hu. pose proof (len_nonneg dst). unfold decodeObservation. cbn [bad_version].
  rewrite bool_decide_eq_true_2 by done. cbn [negb]. rewrite slice_tail. cbn [bind].
  rewrite takeBytes_field by (rewrite ?len_field; done). cbn [bind].
  rewrite <- (app_nil_r (field dst)), takeBytes_field; [done..|].
  rewrite len_nil, u16_small by (unfold is_u16; lia). lia.
Qed.

Lemma decodeObservation_inv p src dst :
  decodeObservation p = Ok (src, dst) -> encodeObservation src dst = Ok p.
Proof.
  unfold decodeObservation. destruct (bad_version p) eqn:E; [done|].
  apply bad_version_cons in E as [r ->]. rewrite slice_tail. cbn [bind].
  destruct (takeBytes r) as [[x r1]|?|] eqn:E1; cbn [bind]; try done.
  destruct (takeBytes r1) as [[y r2]|?|] eqn:E2; cbn [bind]; try done.
  destruct (len r2 =? 0) eqn:E3; cbn [negb]; [|done]. reflect_bools. intros [= <- <-].
  apply takeBytes_inv in E1 as [-> ?]. apply takeBytes_inv in E2 as [-> ?].
  apply len_zero_nil in E3 as ->. rewrite app_nil_r. by apply encodeObservation_ok.
Qed.

(** The observation payload: what decodes is exactly an encoding, and an
    encoding of two roots below 64 KiB together decodes to them. *)
Lemma Observation_roundtrip src dst p :
  len src + len dst <= 65533 ->
  encodeObservation src dst = Ok p <-> decodeObservation p = Ok (src, dst).
Proof.
  intros Hl. pose proof (len_nonneg src). pose proof (len_nonneg dst).
  split; [|apply decodeObservation_inv].
  rewrite encodeObservation_ok by lia. intros <-%Ok_inj. apply decodeObservation_field; [lia..|].
  rewrite u16_small by (unfold is_u16; lia). lia.
Qed.

(** An observation of more than 64 KiB is written and never read back: the
    decoder compares a 16-bit truncation of what is left with the length of the
    first root. *)
Lemma decodeObservation_long src dst :
  len src <= 65535 -> len dst <= 65535 -> 65534 <= len src + len dst -> len dst <= 65533 ->
  exists p, encodeObservation src dst = Ok p /\
    decodeObservation p = Err (TextError "short payload bytes").
Proof.
  intros Hs Hd Hl Hd'. pose proof (len_nonneg src). pose proof (len_nonneg dst).
  eexists. split; [by apply encodeObservation_ok|]. unfold decodeObservation. cbn [bad_version].
  rewrite bool_decide_eq_true_2 by done. cbn [negb]. rewrite slice_tail. cbn [bind].
  rewrite takeBytes_wrapped; [done|done|]. rewrite len_field. unfold u16.
  replace ((len src + (2 + len dst)) mod 65536) with (len src + len dst - 65534); [lia|].
  apply (Z.mod_unique _ _ 1); lia.
Qed.

Lemma decodePlanDigest_encode d n :
  len d = 32 -> is_u32 n -> decodePlanDigest (encodePlanDigest d n) = Ok (d, n).
Proof.
  intros Hd Hn. unfold decodePlanDigest, encodePlanDigest, putU32.
  assert (Hl : len (([payloadVersion] ++ d) ++ le_bytes 4 n) = 37) by len_lia.
  rewrite Hl. cbn [bad_version app]. rewrite bool_decide_eq_true_2 by done. cbn [negb orb Z.ltb Z.eqb].
  replace (37 <? 1 + 32 + 4) with false by done. cbn [orb].
  rewrite slice_ok by len_lia. cbn [bind]. rewrite slice_ok by len_lia. cbn [bind].
  change (payloadVersion :: d ++ le_bytes 4 n) with ([payloadVersion] ++ d ++ le_bytes 4 n).
  repeat sub_step. rewrite le_val_bytes by (unfold is_u32 in Hn; lia).
  rewrite copy_exact; [done|]. pose proof (len_zeros 32 ltac:(lia)). unfold len in *. lia.
Qed.

Lemma encodeProgress_ok i action rel cum :
  len action <= 65535 -> len rel <= 65535 ->
  encodeProgress i action rel cum =
    Ok (payloadVersion :: le_bytes 4 i ++ field action ++ field rel ++ le_bytes 8 cum).
Proof.
  intros Ha Hr. unfold encodeProgress, putU32, putU64. rewrite putBytes_ok by done. cbn [bind].
  rewrite putBytes_ok by done. cbn [bind]. by rewrite <- !app_assoc.
Qed.

Lemma decodeProgress_encode i action rel cum p :
  is_u32 i -> is_u64 cum -> len action + len rel <= 65523 ->
  encodeProgress i action rel cum = Ok p -> decodeProgress p = Ok (i, action, rel, cum).
Proof.
  intros Hi Hc Hl. pose proof (len_nonneg action). pose proof (len_nonneg rel).
  rewrite encodeProgress_ok by lia. intros <-%Ok_inj. unfold decodeProgress. cbn [bad_version].
  rewrite bool_decide_eq_true_2 by done. cbn [negb]. rewrite slice_tail. cbn [bind].
  unfold takeU32. rewrite (take_le_app 4) by exact Hi. cbn [bind].
  rewrite takeBytes_field by (rewrite ?len_app, ?len_field, ?len_le_bytes, ?u16_small;
    unfold is_u16; lia). cbn [bind].
  rewrite takeBytes_field by (rewrite ?len_le_bytes, ?u16_small; unfold is_u16; lia). cbn [bind].
  unfold takeU64. rewrite <- (app_nil_r (le_bytes 8 cum)), (take_le_app 8) by exact Hc. done.
Qed.

Lemma decodeProgress_inv p i action rel cum :
  decodeProgress p = Ok (i, action, rel, cum) ->
  encodeProgress i action rel cum = Ok p /\ is_u32 i /\ is_u64 cum.
Proof.
  unfold decodeProgress. destruct (bad_version p) eqn:E; [done|].
  apply bad_version_cons in E as [r ->]. rewrite slice_tail. cbn [bind].
  destruct (takeU32 r) as [[? r0]|?|] eqn:E0; cbn [bind]; try done.
  destruct (takeBytes r0) as [[x r1]|?|] eqn:E1; cbn [bind]; try done.
  destruct (takeBytes r1) as [[y r2]|?|] eqn:E2; cbn [bind]; try done.
  destruct (takeU64 r2) as [[? r3]|?|] eqn:E3; cbn [bind]; try done.
  destruct (len r3 =? 0) eqn:E4; cbn [negb]; [|done]. reflect_bools. intros [= <- <- <- <-].
  apply (take_le_inv 4) in E0 as [-> ?]. apply takeBytes_inv in E1 as [-> ?].
  apply takeBytes_inv in E2 as [-> ?]. apply (take_le_inv 8) in E3 as [-> ?].
  apply len_zero_nil in E4 as ->. rewrite app_nil_r, encodeProgress_ok by done. done.
Qed.

Lemma decoders_safe p :
  safe (decodeObservation p) /\ safe (decodePlanDigest p) /\ safe (decodeProgress p).
Proof.
  unfold safe, decodeObservation, decodePlanDigest, decodeProgress, takeU32, takeU64.
  destruct (bad_version p) eqn:E; [rewrite orb_true_r; done|]. rewrite orb_false_r.
  split_and!; cycle 1.
  { destruct (len p <? 1 + 32 + 4) eqn:El; [done|]. reflect_bools.
    rewrite !slice_ok by lia. cbn [bind]. by destruct (negb _). }
  all: apply bad_version_cons in E as [r ->]; rewrite slice_tail; cbn [bind];
    repeat match goal with
    | |- context [takeBytes ?b] =>
        pose proof (takeBytes_safe b); destruct (takeBytes b) as [[? ?]|?|]; cbn [bind]; try done
    | |- context [take_le ?n ?b] =>
        pose proof (take_le_safe n b ltac:(lia)); destruct (take_le n b) as [[? ?]|?|]; cbn [bind]; try done
    end; by destruct (negb _).
Qed.

(** ** The transaction of a prefix *)

(** A record of transaction [id] with a type and a payload. *)
Definition carries (id : bytes) (t : Z) (p : bytes) (r : Record_) : Prop :=
  TransactionID r = id /\ Type_ r = t /\ Payload r = p.

Lemma inspect_loop_app a b s : inspect_loop (a ++ b) s = inspect_loop b (inspect_loop a s).
Proof. revert s. induction a as [|r a IH]; intros s; cbn; [done|]. apply IH. Qed.

(** A record that starts another transaction. *)
Definition starts (r : Record_) : bool :=
  (Type_ r =? TypeObservation) && is_ok (decodeObservation (Payload r)).

(** Take the branch of [inspect_record] for a record of a known type. *)
Ltac inspect_case :=
  unfold inspect_record; cbn [ID];
  repeat match goal with H : Type_ _ = _ |- _ => rewrite H end;
  repeat match goal with |- context [?a =? ?b] => let c := eval vm_compute in (a =? b) in change (a =? b) with c end;
  cbv match.

Lemma inspect_obs id p src dst r s :
  carries id TypeObservation p r -> decodeObservation p = Ok (src, dst) ->
  inspect_record r s = (mkTxn id src dst (zeros 32) false 0 0 0 false false false, true).
Proof. intros (<- & Ht & <-) Hd. destruct s as [cur f]. inspect_case. by rewrite Hd. Qed.

Lemma inspect_plan p d n r cur f :
  carries (ID cur) TypePlanDigest p r -> decodePlanDigest p = Ok (d, n) ->
  inspect_record r (cur, f) = (with_plan d n cur, f).
Proof. intros (Hi & Ht & <-) Hd. inspect_case. rewrite (bool_decide_eq_true_2 _ Hi). cbn. by rewrite Hd. Qed.

Lemma inspect_auth p r cur f :
  carries (ID cur) TypeAuthorization p r ->
  inspect_record r (cur, f) = (with_flags (Confirmed cur) (Cancelled cur) true cur, f).
Proof. intros (Hi & Ht & <-). inspect_case. by rewrite (bool_decide_eq_true_2 _ Hi). Qed.

Lemma inspect_progress p i a rel cum r cur f :
  carries (ID cur) TypeProgress p r -> decodeProgress p = Ok (i, a, rel, cum) ->
  inspect_record r (cur, f) = (with_progress (i + 1) cum cur, f).
Proof. intros (Hi & Ht & <-) Hd. inspect_case. rewrite (bool_decide_eq_true_2 _ Hi). cbn. by rewrite Hd. Qed.

Lemma inspect_confirmation p r cur f :
  carries (ID cur) TypeConfirmation p r ->
  inspect_record r (cur, f) = (with_flags true (Cancelled cur) (Authorized cur) cur, f).
Proof. intros (Hi & Ht & <-). inspect_case. by rewrite (bool_decide_eq_true_2 _ Hi). Qed.

Lemma inspect_cancellation p r cur f :
  carries (ID cur) TypeCancellation p r ->
  inspect_record r (cur, f) = (with_flags (Confirmed cur) true (Authorized cur) cur, f).
Proof. intros (Hi & Ht & <-). inspect_case. by rewrite (bool_decide_eq_true_2 _ Hi). Qed.

Lemma inspect_recovery p r s id : carries id TypeRecovery p r -> inspect_record r s = s.
Proof. intros (Hi & Ht & <-). destruct s as [cur f]. by inspect_case. Qed.

(** Records of other transactions do not matter. *)
Lemma inspect_foreign r cur f :
  TransactionID r <> ID cur -> starts r = false -> inspect_record r (cur, f) = (cur, f).
Proof.
  intros Hi Hs. unfold inspect_record, starts in *. rewrite (bool_decide_eq_false_2 _ Hi). cbn [negb].
  destruct (Type_ r =? TypeObservation); [|by repeat case_if].
  by destruct (decodeObservation (Payload r)) as [[]| |].
Qed.

Lemma inspect_ID r cur f : starts r = false -> ID (inspect_record r (cur, f)).1 = ID cur.
Proof.
  intros Hs. destruct (decide (TransactionID r = ID cur)) as [E|]; [|by rewrite inspect_foreign].
  unfold inspect_record, starts in *. rewrite (bool_decide_eq_true_2 _ E). cbn [negb].
  destruct (Type_ r =? TypeObservation).
  { by destruct (decodeObservation (Payload r)) as [[]| |]. }
  repeat (case_if; [try done; try (by destruct (decodePlanDigest (Payload r)) as [[]| |]);
                    try (by destruct (decodeProgress (Payload r)) as [[[[]]]| |])|]). done.
Qed.

Definition own (id : bytes) (r : Record_) : bool := bool_decide (TransactionID r = id).

Lemma inspect_loop_own post cur f :
  forallb (fun r => negb (starts r)) post = true ->
  inspect_loop post (cur, f) = inspect_loop (List.filter (own (ID cur)) post) (cur, f).
Proof.
  revert cur f. induction post as [|r post IH]; intros cur f; cbn [forallb List.filter inspect_loop]; [done|].
  intros [Hs Hp]%andb_true_iff. apply negb_true_iff in Hs. unfold own at 1.
  destruct (bool_decide _) eqn:E; reflect_bools; cbn [inspect_loop].
  - pose proof (inspect_ID r cur f Hs) as Hid. destruct (inspect_record r (cur, f)) as [cur' f'].
    cbn in Hid. rewrite <- Hid. by apply IH.
  - rewrite inspect_foreign by done. by apply IH.
Qed.

(** The transaction recovered from a journal is the one of its last
    observation, and depends on that transaction's own later records alone:
    earlier history and interleaved records of other transactions never change
    what is resumed. *)
Lemma inspectPrefix_isolated pre obs post src dst pre' post' :
  Type_ obs = TypeObservation -> decodeObservation (Payload obs) = Ok (src, dst) ->
  forallb (fun r => negb (starts r)) post = true ->
  forallb (fun r => negb (starts r)) post' = true ->
  List.filter (own (TransactionID obs)) post = List.filter (own (TransactionID obs)) post' ->
  inspectPrefix (pre ++ obs :: post) = inspectPrefix (pre' ++ obs :: post').
Proof.
  intros Ht Hd Hp Hp' E. unfold inspectPrefix. rewrite !inspect_loop_app. cbn [inspect_loop].
  rewrite !(inspect_obs (TransactionID obs) (Payload obs) src dst) by done.
  rewrite (inspect_loop_own post), (inspect_loop_own post') by done. cbn [ID]. by rewrite E.
Qed.

(** ** Runs *)

Lemma Observation_roundtrip_witness :
  len (str "/src") + len (str "/dst") <= 65533 /\
  decodeObservation (payloadVersion :: field (str "/src") ++ field (str "/dst")) = Ok (str "/src", str "/dst").
Proof.
  assert (H : len (str "/src") + len (str "/dst") <= 65533) by (vm_compute; discriminate).
  split; [exact H|]. apply (proj1 (Observation_roundtrip (str "/src") (str "/dst") _ H)). vm_compute. reflexivity.
Defined.

Lemma decodeObservation_long_witness :
  exists p, encodeObservation (zeros 65000) (zeros 600) = Ok p /\
    decodeObservation p = Err (TextError "short payload bytes").
Proof. apply (decodeObservation_long (zeros 65000) (zeros 600)); rewrite !len_zeros by lia; lia. Defined.

(** Transaction 2 with a record of transaction 1 in between, and alone. *)
Definition demo_id (n : Z) : bytes := zeros 15 ++ [byte_of n].
Definition demo_record (n t : Z) (p : bytes) : Record_ :=
  record_of (mkFields 1 (demo_id n) t (zeros 32) p).
Definition demo_obs : Record_ :=
  demo_record 2 TypeObservation (payloadVersion :: field (str "/src") ++ field (str "/dst")).
Definition demo_plan : Record_ := demo_record 2 TypePlanDigest (encodePlanDigest (zeros 32) 3).
Definition demo_foreign : Record_ := demo_record 1 TypeConfirmation [].

Lemma inspectPrefix_isolated_witness :
  inspectPrefix ([demo_foreign] ++ demo_obs :: [demo_foreign; demo_plan]) = inspectPrefix ([] ++ demo_obs :: [demo_plan]) /\
  is_Some (inspectPrefix ([] ++ demo_obs :: [demo_plan])).
Proof.
  split; [|vm_compute; eexists; reflexivity].
  apply (inspectPrefix_isolated [demo_foreign] demo_obs [demo_foreign; demo_plan] (str "/src") (str "/dst") [] [demo_plan]);
    vm_compute; reflexivity.
Defined.

End LocalPayload.
