(* ===== verification/LocalPlan.v ===== *)
(** * The local synchronization plan (internal/localsync)

    [entry.go], the binary search of [scan.go], [plan.go] and the hexadecimal
    digests.  [BuildPlan] compares two manifests and yields one operation per
    source entry.  The theorems say which operation, that the plan is sorted and
    keeps every source entry exactly once, and when planning refuses. *)

From S2P Require Import Prelude Sha256 Sorting Codec Journal PathGrammar FilePath FileSystem LocalPayload.
Import Sorting Codec FileSystem LocalPayload.

Module LocalPlan.

(** ** Hexadecimal (encoding/hex) *)

Definition hex_digit (n : Z) : Byte.byte := byte_of (if n <? 10 then 48 + n else 87 + n).

Fixpoint hex_encode (b : bytes) : bytes :=
  match b with
  | [] => []
  | x :: b => hex_digit (byteZ x / 16) :: hex_digit (byteZ x mod 16) :: hex_encode b
  end.

Definition hex_value (b : Byte.byte) : option Z :=
  let v := byteZ b in
  if (48 <=? v) && (v <=? 57) then Some (v - 48)
  else if (97 <=? v) && (v <=? 102) then Some (v - 87)
  else if (65 <=? v) && (v <=? 70) then Some (v - 55)
  else None.

Fixpoint hex_decode (b : bytes) : option bytes :=
  match b with
  | [] => Some []
  | h :: l :: b =>
      match hex_value h, hex_value l, hex_decode b with
      | Some x, Some y, Some r => Some (byte_of (16 * x + y) :: r)
      | _, _, _ => None
      end
  | [_] => None
  end.

(** ** Entries and manifests (entry.go, scan.go) *)

Definition EntryDir : bytes := str "dir".
Definition EntryFile : bytes := str "file".

Record Entry := mkEntry {
  ERel : bytes;
  EType : bytes;
  ESize : Z;
  EMode : Z;
  EDigest : bytes;
  HasDigest : bool }.

Definition DigestHex (e : Entry) : bytes :=
  if negb (HasDigest e) then [] else hex_encode (EDigest e).

Record Manifest := mkManifest { Root : bytes; Entries : list Entry }.

Definition rel_at (m : Manifest) (i : Z) : bytes :=
  match Entries m !! Z.to_nat i with Some e => ERel e | None => [] end.

(** [sort.Search] for the first entry whose [Rel] is not below [rel]. *)
Definition lookup_entry (m : Manifest) (rel : bytes) : option Entry :=
  let i := PathGrammar.sort_Search (len (Entries m)) (fun i => 0 <=? bytes_Compare (rel_at m i) rel) in
  if (i <? len (Entries m)) && bool_decide (rel_at m i = rel)
  then Entries m !! Z.to_nat i else None.

(** ** The plan (plan.go) *)

Definition ActionMkdir : bytes := str "mkdir".
Definition ActionCopy : bytes := str "copy".
Definition ActionReplace : bytes := str "replace".
Definition ActionSkip : bytes := str "skip".

Definition ReasonMissing : bytes := str "missing".
Definition ReasonDigestDiffers : bytes := str "digest_differs".
Definition ReasonIdentical : bytes := str "identical".
Definition ReasonDirExists : bytes := str "dir_exists".

Record Op := mkOp {
  Action : bytes;
  Rel : bytes;
  Reason : bytes;
  ExpectedSize : Z;
  ExpectedMode : Z;
  ExpectedDigestHex : bytes;
  Initial : bytes;
  Final : bytes }.

#[global] Instance Op_eq_dec : EqDecision Op.
Proof. solve_decision. Defined.

Record Plan := mkPlan { SourceRoot : bytes; DestRoot : bytes; Ops : list Op }.

(** The operation for one source entry. *)
Definition plan_entry (dst : Manifest) (s : Entry) : res Error Op :=
  let d := lookup_entry dst (ERel s) in
  if bool_decide (EType s = EntryDir) then
    match d with
    | None => Ok (mkOp ActionMkdir (ERel s) ReasonMissing 0 (EMode s) [] (str "absent") (str "directory"))
    | Some d =>
        if negb (bool_decide (EType d = EntryDir)) then Err (classify KindConflict "plan" (ERel s))
        else Ok (mkOp ActionSkip (ERel s) ReasonDirExists 0 (EMode s) [] (str "directory") (str "directory"))
    end
  else if bool_decide (EType s = EntryFile) then
    match d with
    | None => Ok (mkOp ActionCopy (ERel s) ReasonMissing (ESize s) (EMode s) (DigestHex s)
                    (str "absent") (str "file"))
    | Some d =>
        if negb (bool_decide (EType d = EntryFile)) then Err (classify KindConflict "plan" (ERel s))
        else if HasDigest d && HasDigest s && bool_decide (EDigest d = EDigest s)
        then Ok (mkOp ActionSkip (ERel s) ReasonIdentical (ESize s) (EMode s) (DigestHex s)
                   (str "file_identical") (str "file"))
        else Ok (mkOp ActionReplace (ERel s) ReasonDigestDiffers (ESize s) (EMode s) (DigestHex s)
                   (str "file_different") (str "file"))
    end
  else Err (unsupported "plan" (ERel s)).

Fixpoint plan_loop (dst : Manifest) (src : list Entry) (ops : list Op) : res Error (list Op) :=
  match src with
  | [] => Ok ops
  | s :: src =>
      let! op := plan_entry dst s in
      plan_loop dst src (ops ++ [op])
  end.

(** [sort.SliceStable] by path, then action. *)
Definition op_key (o : Op) : bytes * bytes := (Rel o, Action o).
Definition op_cmp : bytes * bytes -> bytes * bytes -> Z := paircmp bytes_Compare bytes_Compare.
Definition sort_ops : list Op -> list Op := sort_key op_key op_cmp.

Definition BuildPlan (src dst : Manifest) : res Error Plan :=
  let! ops := plan_loop dst (Entries src) [] in
  Ok (mkPlan (Root src) (Root dst) (sort_ops ops)).

Definition digestFromHex (s : bytes) : res Error bytes :=
  match hex_decode s with
  | None => Err (TextError "hex")
  | Some b =>
      if negb (len b =? 32) then Err (invalidArg "digest") else
      Ok (copy (zeros 32) b)
  end.

(** ** Hexadecimal round trip *)

Lemma hex_value_digit n : 0 <= n < 16 -> hex_value (hex_digit n) = Some n.
Proof.
  intros H. unfold hex_value, hex_digit. rewrite byteZ_byte_of.
  destruct (n <? 10) eqn:E; reflect_bools; rewrite Z.mod_small by lia.
  - dec_true ((48 <=? 48 + n) && (48 + n <=? 57)). f_equal. lia.
  - dec_false ((48 <=? 87 + n) && (87 + n <=? 57)).
    dec_true ((97 <=? 87 + n) && (87 + n <=? 102)). f_equal. lia.
Qed.

Lemma hex_decode_encode b : hex_decode (hex_encode b) = Some b.
Proof.
  induction b as [|x b IH]; [done|]. cbn [hex_encode hex_decode]. pose proof (byteZ_range x).
  pose proof (Z.div_mod (byteZ x) 16 ltac:(lia)). pose proof (Z.mod_pos_bound (byteZ x) 16 ltac:(lia)).
  rewrite !hex_value_digit, IH by lia. do 2 f_equal.
  replace (16 * _ + _) with (byteZ x) by lia. apply byte_of_byteZ.
Qed.

Lemma digestFromHex_encode d : len d = 32 -> digestFromHex (hex_encode d) = Ok d.
Proof.
  intros H. unfold digestFromHex. rewrite hex_decode_encode, H. cbn [Z.eqb negb].
  change (negb (32 =? 32)) with false. cbv match. f_equal. apply copy_exact.
  pose proof (len_zeros 32 ltac:(lia)). unfold len in *. lia.
Qed.

Lemma digestFromHex_len s d : digestFromHex s = Ok d -> len d = 32.
Proof.
  unfold digestFromHex. destruct (hex_decode s) as [b|]; [|done].
  destruct (len b =? 32) eqn:E; cbn [negb]; [|done]. reflect_bools. intros [= <-].
  rewrite copy_exact; [done|]. pose proof (len_zeros 32 ltac:(lia)). unfold len in *. lia.
Qed.

(** ** Lookup *)

(** A manifest as [Scan] returns it: strictly ascending paths. *)
Definition sorted_manifest (m : Manifest) : Prop :=
  StronglySorted (fun a b => bytes_Compare (ERel a) (ERel b) < 0) (Entries m).

Lemma sorted_lookup m i j a b :
  sorted_manifest m -> (i < j)%nat -> Entries m !! i = Some a -> Entries m !! j = Some b ->
  bytes_Compare (ERel a) (ERel b) < 0.
Proof.
  intros Hs Hij Ha Hb. revert i j Hij Ha Hb. unfold sorted_manifest in Hs.
  induction Hs as [|x l Hl IH Hx]; intros i j Hij Ha Hb; [done|].
  destruct j as [|j]; [lia|]. destruct i as [|i]; cbn in Ha, Hb.
  - injection Ha as ->. rewrite Forall_forall in Hx. apply Hx. by eapply list_elem_of_lookup_2.
  - eapply IH; [|done..]. lia.
Qed.

Lemma rel_at_lookup m i e : Entries m !! i = Some e -> rel_at m (Z.of_nat i) = ERel e.
Proof. intros H. unfold rel_at. by rewrite Nat2Z.id, H. Qed.

(** The binary search finds the entry with a path, if there is one. *)
Lemma lookup_entry_spec m rel e :
  sorted_manifest m -> lookup_entry m rel = Some e <-> e ∈ Entries m /\ ERel e = rel.
Proof.
  intros Hs. unfold lookup_entry.
  set (f := fun i => 0 <=? bytes_Compare (rel_at m i) rel).
  assert (Hat : forall k, 0 <= k < len (Entries m) ->
            exists a, Entries m !! Z.to_nat k = Some a /\ rel_at m k = ERel a).
  { intros k Hk. destruct (lookup_lt_is_Some_2 (Entries m) (Z.to_nat k)) as [a Ha]; [unfold len in *; lia|].
    exists a. split; [done|]. unfold rel_at. by rewrite Ha. }
  assert (Hm : forall k l, 0 <= k -> k <= l -> l < len (Entries m) -> f k = true -> f l = true).
  { intros k l Hk Hkl Hl. destruct (decide (k = l)) as [->|Hne]; [done|].
    destruct (Hat k) as (a & Ha & Hra); [lia|]. destruct (Hat l) as (b & Hb & Hrb); [lia|].
    unfold f. rewrite Hra, Hrb. intros H%Z.leb_le. apply Z.leb_le.
    assert (Hab : bytes_Compare (ERel a) (ERel b) < 0) by (eapply (sorted_lookup m (Z.to_nat k) (Z.to_nat l)); try done; lia).
    destruct (Z.lt_ge_cases (bytes_Compare (ERel b) rel) 0) as [Hbr|]; [|lia].
    pose proof (cmp_trans _ _ _ Hab Hbr). lia. }
  destruct (PathGrammar.sort_Search_spec (len (Entries m)) f) as (Hr & Hlo & Hhi); [apply len_nonneg|done|].
  set (r := PathGrammar.sort_Search (len (Entries m)) f) in *. split.
  - destruct ((r <? _) && _) eqn:E; [|done]. reflect_bools. intros He.
    split; [by eapply list_elem_of_lookup_2|]. destruct (Hat r) as (a & Ha & Hra); [lia|].
    rewrite He in Ha. injection Ha as <-. congruence.
  - intros [Hin <-]. apply list_elem_of_lookup in Hin as [i Hi].
    assert (Hil : (i < length (Entries m))%nat) by (by eapply lookup_lt_Some).
    assert (Hfi : f (Z.of_nat i) = true).
    { unfold f. rewrite (rel_at_lookup _ _ _ Hi). apply Z.leb_le. by rewrite (proj2 (cmp_eq _ _)). }
    assert (Hri : r = Z.of_nat i).
    { destruct (Z.lt_trichotomy r (Z.of_nat i)) as [Hlt|[?|Hgt]]; [|done|].
      - destruct (Hat r) as (a & Ha & Hra); [unfold len; lia|].
        assert (Hfr : f r = true) by (apply Hhi; unfold len; lia).
        unfold f in Hfr. rewrite Hra in Hfr. apply Z.leb_le in Hfr.
        assert (bytes_Compare (ERel a) (ERel e) < 0) by (eapply (sorted_lookup m (Z.to_nat r) i); try done; lia).
        lia.
      - rewrite Hlo in Hfi by lia. done. }
    rewrite Hri, (rel_at_lookup _ _ _ Hi), Nat2Z.id, bool_decide_eq_true_2 by done.
    by replace (Z.of_nat i <? len (Entries m)) with true by (unfold len; lia).
Qed.

(** ** The plan *)

Lemma plan_loop_spec dst src ops r :
  plan_loop dst src ops = Ok r <-> exists new, r = ops ++ new /\ Forall2 (fun s o => plan_entry dst s = Ok o) src new.
Proof.
  revert ops. induction src as [|s src IH]; intros ops; cbn [plan_loop].
  { split.
    - intros <-%Ok_inj. exists []. by rewrite app_nil_r.
    - intros (new & -> & H%Forall2_nil_inv_l). subst. by rewrite app_nil_r. }
  destruct (plan_entry dst s) as [o|e|] eqn:E; cbn [bind].
  - rewrite IH. split.
    + intros (new & -> & H). exists (o :: new). split; [by rewrite <- app_assoc|]. by constructor.
    + intros (new & -> & H). apply Forall2_cons_inv_l in H as (o' & new' & Ho & H & ->).
      assert (o' = o) as -> by congruence. exists new'. split; [by rewrite <- app_assoc|done].
  - split; [done|]. intros (new & _ & H). apply Forall2_cons_inv_l in H as (o' & new' & Ho & _). congruence.
  - split; [done|]. intros (new & _ & H). apply Forall2_cons_inv_l in H as (o' & new' & Ho & _). congruence.
Qed.

#[export] Instance op_cmp_three_way : ThreeWay op_cmp.
Proof. apply paircmp_three_way; apply _. Qed.

(** What an operation says about its source entry [s] and the destination. *)
Inductive op_for (dst : Manifest) (s : Entry) : Op -> Prop :=
| for_mkdir :
    EType s = EntryDir -> (forall d, d ∈ Entries dst -> ERel d <> ERel s) ->
    op_for dst s (mkOp ActionMkdir (ERel s) ReasonMissing 0 (EMode s) [] (str "absent") (str "directory"))
| for_dir d :
    EType s = EntryDir -> d ∈ Entries dst -> ERel d = ERel s -> EType d = EntryDir ->
    op_for dst s (mkOp ActionSkip (ERel s) ReasonDirExists 0 (EMode s) [] (str "directory") (str "directory"))
| for_copy :
    EType s = EntryFile -> (forall d, d ∈ Entries dst -> ERel d <> ERel s) ->
    op_for dst s (mkOp ActionCopy (ERel s) ReasonMissing (ESize s) (EMode s) (DigestHex s)
                    (str "absent") (str "file"))
| for_same d :
    EType s = EntryFile -> d ∈ Entries dst -> ERel d = ERel s -> EType d = EntryFile ->
    HasDigest d = true -> HasDigest s = true -> EDigest d = EDigest s ->
    op_for dst s (mkOp ActionSkip (ERel s) ReasonIdentical (ESize s) (EMode s) (DigestHex s)
                    (str "file_identical") (str "file"))
| for_replace d :
    EType s = EntryFile -> d ∈ Entries dst -> ERel d = ERel s -> EType d = EntryFile ->
    ~ (HasDigest d = true /\ HasDigest s = true /\ EDigest d = EDigest s) ->
    op_for dst s (mkOp ActionReplace (ERel s) ReasonDigestDiffers (ESize s) (EMode s) (DigestHex s)
                    (str "file_different") (str "file")).

Lemma lookup_entry_None m rel :
  sorted_manifest m -> lookup_entry m rel = None -> forall d, d ∈ Entries m -> ERel d <> rel.
Proof.
  intros Hs Hn d Hd E. assert (lookup_entry m rel = Some d) by (by apply lookup_entry_spec). congruence.
Qed.

Lemma plan_entry_for dst s o : sorted_manifest dst -> plan_entry dst s = Ok o -> op_for dst s o.
Proof.
  intros Hs. unfold plan_entry. destruct (lookup_entry dst (ERel s)) as [d|] eqn:E.
  - apply lookup_entry_spec in E as [Hin Hr]; [|done].
    destruct (bool_decide (EType s = EntryDir)) eqn:E1; reflect_bools.
    { destruct (bool_decide (EType d = EntryDir)) eqn:E2; [|done]. reflect_bools. intros [= <-]. by eapply for_dir. }
    destruct (bool_decide (EType s = EntryFile)) eqn:E2; [|done]. reflect_bools.
    destruct (bool_decide (EType d = EntryFile)) eqn:E3; [|done]. cbn [negb]. reflect_bools.
    destruct (HasDigest d && _ && _) eqn:E4; intros [= <-].
    + reflect_bools. by eapply for_same.
    + eapply for_replace; try done. intros (H1 & H2 & H3).
      rewrite H1, H2, bool_decide_eq_true_2 in E4 by done. done.
  - pose proof (lookup_entry_None _ _ Hs E) as Hno.
    destruct (bool_decide (EType s = EntryDir)) eqn:E1; reflect_bools; [intros [= <-]; by eapply for_mkdir|].
    destruct (bool_decide (EType s = EntryFile)) eqn:E2; [|done]. reflect_bools. intros [= <-]. by eapply for_copy.
Qed.

(** Planning refuses exactly an entry of unknown type, or one whose path is of
    the other type at the destination. *)
Definition plannable (dst : Manifest) (s : Entry) : Prop :=
  (EType s = EntryDir \/ EType s = EntryFile) /\
  forall d, d ∈ Entries dst -> ERel d = ERel s -> EType d = EType s.

Lemma plan_entry_ok dst s : sorted_manifest dst -> (exists o, plan_entry dst s = Ok o) <-> plannable dst s.
Proof.
  intros Hs. unfold plan_entry, plannable. destruct (lookup_entry dst (ERel s)) as [d|] eqn:E.
  - apply lookup_entry_spec in E as [Hin Hr]; [|done].
    assert (Hu : forall d', d' ∈ Entries dst -> ERel d' = ERel s -> d' = d).
    { intros d' H1 H2. assert (lookup_entry dst (ERel s) = Some d') by (by apply lookup_entry_spec).
      assert (lookup_entry dst (ERel s) = Some d) by (by apply lookup_entry_spec). congruence. }
    split.
    + intros [o Ho]. split; [destruct (bool_decide (EType s = EntryDir)) eqn:E1; [left; by reflect_bools|];
        destruct (bool_decide (EType s = EntryFile)) eqn:E2; [right; by reflect_bools|done]|].
      intros d' H1 H2. rewrite (Hu _ H1 H2).
      destruct (bool_decide (EType s = EntryDir)) eqn:E1; reflect_bools.
      { destruct (bool_decide (EType d = EntryDir)) eqn:E2; [|done]. reflect_bools. congruence. }
      destruct (bool_decide (EType s = EntryFile)) eqn:E2; [|done].
      destruct (bool_decide (EType d = EntryFile)) eqn:E3; [|done]. reflect_bools. congruence.
    + intros [Ht Hd]. rewrite (Hd _ Hin Hr). destruct Ht as [->| ->].
      * rewrite bool_decide_eq_true_2 by done. cbn [negb]. eauto.
      * rewrite (bool_decide_eq_false_2 (EntryFile = EntryDir)) by done.
        rewrite bool_decide_eq_true_2 by done. cbn [negb]. case_if; eauto.
  - pose proof (lookup_entry_None _ _ Hs E) as Hno. split.
    + intros [o Ho]. split; [|intros d' H1 H2; by destruct (Hno d')].
      destruct (bool_decide (EType s = EntryDir)) eqn:E1; [left; by reflect_bools|].
      destruct (bool_decide (EType s = EntryFile)) eqn:E2; [right; by reflect_bools|done].
    + intros [[->| ->] _]; [rewrite bool_decide_eq_true_2 by done; eauto|].
      rewrite (bool_decide_eq_false_2 (EntryFile = EntryDir)) by done. rewrite bool_decide_eq_true_2 by done. eauto.
Qed.

Lemma sort_ops_perm l : sort_ops l ≡ₚ l.
Proof. apply insertion_sort_perm. Qed.

Lemma BuildPlan_inv src dst p :
  BuildPlan src dst = Ok p ->
  exists ops, Ops p = sort_ops ops /\ SourceRoot p = Root src /\ DestRoot p = Root dst /\
    Forall2 (fun s o => plan_entry dst s = Ok o) (Entries src) ops.
Proof.
  unfold BuildPlan. destruct (plan_loop dst (Entries src) []) as [ops|e|] eqn:E; cbn [bind]; try done.
  intros <-%Ok_inj. apply plan_loop_spec in E as (new & -> & H). by exists new.
Qed.

Lemma BuildPlan_safe src dst : BuildPlan src dst <> Panic.
Proof.
  unfold BuildPlan. assert (Hsafe : forall l ops, plan_loop dst l ops <> Panic).
  { induction l as [|s l IH]; intros ops; cbn [plan_loop]; [done|]. unfold plan_entry.
    repeat case_match; cbn [bind]; auto; done. }
  pose proof (Hsafe (Entries src) []). by destruct (plan_loop _ _ _).
Qed.

(** [BuildPlan] on scanned manifests: it succeeds exactly when every source
    entry is a directory or a file and meets the same type at the destination,
    and then the plan holds, in path order, exactly one operation per source
    entry, the one its comparison calls for. *)
Lemma BuildPlan_spec src dst :
  sorted_manifest dst ->
  ((exists p, BuildPlan src dst = Ok p) <-> Forall (plannable dst) (Entries src)) /\
  forall p, BuildPlan src dst = Ok p ->
    SourceRoot p = Root src /\ DestRoot p = Root dst /\
    StronglySorted (fun a b => op_cmp (op_key a) (op_key b) <= 0) (Ops p) /\
    exists ops, Ops p ≡ₚ ops /\ Forall2 (op_for dst) (Entries src) ops.
Proof.
  intros Hs. split.
  - split.
    + intros (p & (ops & _ & _ & _ & H)%BuildPlan_inv). apply Forall_forall. intros s Hin.
      apply list_elem_of_lookup in Hin as [i Hi]. destruct (Forall2_lookup_l _ _ _ _ _ H Hi) as (o & _ & Ho).
      apply plan_entry_ok; [done|]. by exists o.
    + intros H. assert (exists ops, Forall2 (fun s o => plan_entry dst s = Ok o) (Entries src) ops) as [ops Ho].
      { induction H as [|s l Hp _ IH]; [by exists []|]. destruct IH as [ops Ho].
        apply plan_entry_ok in Hp as [o Hp]; [|done]. exists (o :: ops). by constructor. }
      unfold BuildPlan. assert (plan_loop dst (Entries src) [] = Ok ops) as -> by (apply plan_loop_spec; by exists ops).
      eexists. done.
  - intros p (ops & Hops & H1 & H2 & H)%BuildPlan_inv. split_and!; [done..| |].
    + rewrite Hops. eapply StronglySorted_weaken; [|apply sort_key_sorted; apply _].
      intros a b. apply key_le.
    + exists ops. split; [rewrite Hops; apply sort_ops_perm|].
      eapply Forall2_impl; [exact H|]. intros s o. by apply plan_entry_for.
Qed.

(** ** Runs *)

Definition demo_entry (name : string) (content : string) : Entry :=
  mkEntry (str name) EntryFile (len (str content)) 0x1A4 (SHA256 (str content)) true.
Definition demo_source : Manifest :=
  mkManifest (str "/s") [demo_entry "a" "one"; demo_entry "b" "two"; mkEntry (str "c") EntryDir 0 0x1ED (zeros 32) false].
Definition demo_dest : Manifest := mkManifest (str "/d") [demo_entry "a" "one"; demo_entry "b" "old"].

Lemma demo_dest_sorted : sorted_manifest demo_dest.
Proof. repeat constructor; vm_compute; reflexivity. Qed.

Lemma BuildPlan_spec_witness :
  exists p, BuildPlan demo_source demo_dest = Ok p /\
    map Action (Ops p) = [ActionSkip; ActionReplace; ActionMkdir] /\
    exists ops, Ops p ≡ₚ ops /\ Forall2 (op_for demo_dest) (Entries demo_source) ops.
Proof.
  assert (Hr : match BuildPlan demo_source demo_dest with Ok p => map Action (Ops p) | _ => [] end =
    [ActionSkip; ActionReplace; ActionMkdir]) by (vm_compute; reflexivity).
  destruct (BuildPlan demo_source demo_dest) as [p|e|] eqn:E; [|discriminate Hr|discriminate Hr].
  exists p. split; [reflexivity|]. split; [exact Hr|].
  exact (proj2 (proj2 (proj2 (proj2 (BuildPlan_spec demo_source demo_dest demo_dest_sorted) p E)))).
Defined.

End LocalPlan.
