(* ===== verification/LocalApply.v ===== *)
(** * Applying a local plan (internal/localsync: hash.go, apply.go)

    The operations of a plan against a filesystem ([FileSystem]): directories,
    and files published through a temporary file in the target directory
    (write, sync, verify, chmod, rename, verify again), with the resume point and
    the completion callback that the journal uses.  The theorems hold for every
    filesystem that satisfies the laws, whatever calls fail: a file is published
    whole with the planned digest or its path keeps what it had, nothing else
    changes but new directories on the way and temporary names beside the
    target, and a completed run leaves the planned tree. *)

From stdpp Require Import gmap.
From S2P Require Import Prelude Sha256 Sorting Codec Journal PathGrammar FilePath FileSystem LocalPayload LocalPlan.
Import Sorting Codec FilePath FileSystem LocalPayload LocalPlan.

Module LocalApply.

(** [int64] arithmetic wraps. *)
Definition i64 (z : Z) : Z := (z + 2 ^ 63) mod 2 ^ 64 - 2 ^ 63.

Definition tmpPrefix : bytes := str ".integris.".
Definition tmpSuffix : bytes := str ".tmp".

Definition HasPrefix (s p : bytes) : bool := bool_decide (take (length p) s = p).
Definition HasSuffix (s p : bytes) : bool :=
  bool_decide (drop (length s - length p) s = p) && (len p <=? len s).

(** ** Paths *)

Definition validateRel (rel : bytes) : res Error unit :=
  if bool_decide (rel = []) || HasPrefix rel (str "/") || existsb (fun b => byteZ b =? 92) rel
  then Err (pathUnsafe "apply") else
  match PathGrammar.ValidateJoined rel PathGrammar.DefaultProfile with
  | Ok _ => Ok tt
  | Err _ => Err (classify KindPathUnsafe "apply" rel)
  | Panic => Panic
  end.

(** The empty path is the refusal. *)
Definition joinUnder (root rel : bytes) : bytes :=
  if negb (is_ok (validateRel rel)) then [] else
  let native := fold_left Join (Split rel) root in
  let cleanRoot := Clean root in
  let cleanNative := Clean native in
  match FilePath.Rel cleanRoot cleanNative with
  | None => []
  | Some relOut => if escapes relOut then [] else cleanNative
  end.

Record Roots := mkRoots { RSource : bytes; RDestination : bytes }.

Definition mapWriteErr (op : string) (rel : bytes) (e : errno) : Error :=
  match e with
  | EPERM => wrap KindPermission op rel (OSError e)
  | ENOSPC => wrap KindNoSpace op rel (OSError e)
  | _ => wrap KindWrite op rel (OSError e)
  end.

Section Apply.
Context {W : Type} `{FileSystem W}.
Abbreviation IO := (io W Error).

(** ** Hashing (hash.go) *)

Definition HashFile (native : bytes) : IO (bytes * Z) :=
  let* i := or_fail (OpenRead native) (fun e => wrap KindRead "hash" [] (OSError e)) in
  if negb (bool_decide (FileSystem.FType i = TRegular)) then throw (unsupported "hash" []) else
  let* d := or_fail (ReadAll native) (fun e => wrap KindRead "hash" [] (OSError e)) in
  ret (SHA256 d, len d).

(** ** Hooks and temporary files *)

Record ApplyHooks := mkHooks {
  AfterTempSync : option (bytes -> IO unit);
  BeforeRename : option (bytes -> bytes -> IO unit) }.

Definition createTemp (dir : bytes) : io W errno bytes :=
  let* b := RandRead 16 in
  let name := tmpPrefix ++ hex_encode b ++ tmpSuffix in
  let p := Join dir name in
  let* _ := CreateExcl p 0x180 in
  let* c := try (CloseFile p) in
  match c with
  | inl _ => ret p
  | inr e => let* _ := ignore (Remove p) in throw e
  end.

Definition is_temp (name : bytes) : bool := HasPrefix name tmpPrefix && HasSuffix name tmpSuffix.

Fixpoint cleanup_loop (dir : bytes) (names : list bytes) : io W errno unit :=
  match names with
  | [] => ret tt
  | name :: names =>
      if is_temp name then let* _ := ignore (Remove (Join dir name)) in cleanup_loop dir names
      else cleanup_loop dir names
  end.

Definition cleanupTemps (dir : bytes) : io W errno unit :=
  let* names := ReadDir dir in cleanup_loop dir names.

(** ** Operations *)

Definition applyMkdir (dstRoot : bytes) (op : Op) : IO unit :=
  let native := joinUnder dstRoot (Rel op) in
  if bool_decide (native = []) then throw (pathUnsafe "mkdir") else
  let mode := if ExpectedMode op =? 0 then 0x1ED else ExpectedMode op in
  let* s := try (Lstat native) in
  match s with
  | inl i =>
      if bool_decide (FileSystem.FType i = TSymlink) then throw (unsupported "mkdir" (Rel op))
      else if negb (bool_decide (FileSystem.FType i = TDir)) then throw (classify KindConflict "mkdir" (Rel op))
      else ret tt
  | inr e =>
      if negb (bool_decide (e = ENOENT)) then throw (wrap KindWrite "mkdir" (Rel op) (OSError e)) else
      let* _ := or_fail (MkdirAll native mode) (mapWriteErr "mkdir" (Rel op)) in
      ignore (SyncDir (Dir native))
  end.

Definition run_hook (h : option (IO unit)) : IO unit :=
  match h with Some c => c | None => ret tt end.

(** From the open of the source to the rename: the deferred removal of the
    temporary file is armed. *)
Definition stage (srcNative dstNative tmpPath want : bytes) (op : Op) (hooks : option ApplyHooks) : IO Z :=
  let rel := Rel op in
  let* _ := or_fail (OpenRead srcNative) (fun e => wrap KindRead "apply" rel (OSError e)) in
  let* _ := or_fail (OpenTrunc tmpPath) (mapWriteErr "apply" rel) in
  let* copied := try (CopyTo srcNative tmpPath) in
  let* synced := try (SyncFile tmpPath) in
  let* closed := try (CloseFile tmpPath) in
  let* written := lift match copied with
    | inl n => Ok n
    | inr e => Err (mapWriteErr "apply" rel e)
    end in
  let* _ := lift match synced, closed with
    | inr e, _ => Err (wrap KindWrite "apply" rel (OSError e))
    | _, inr e => Err (wrap KindWrite "apply" rel (OSError e))
    | _, _ => Ok tt
    end in
  let* _ := run_hook (hooks ≫= fun h => AfterTempSync h ≫= fun f => Some (f tmpPath)) in
  let* (tmpDig, _) := or_fail (HashFile tmpPath) (wrap KindVerify "apply" rel) in
  if negb (bool_decide (tmpDig = want)) then throw (classify KindVerify "apply" rel) else
  let mode := if ExpectedMode op =? 0 then 0x1A4 else ExpectedMode op in
  let* _ := or_fail (Chmod tmpPath mode) (fun e => wrap KindWrite "apply" rel (OSError e)) in
  let* _ := run_hook (hooks ≫= fun h => BeforeRename h ≫= fun f => Some (f tmpPath dstNative)) in
  let* _ := or_fail (Rename tmpPath dstNative) (mapWriteErr "apply" rel) in
  ret written.

(** [defer func() { if cleanup { os.Remove(tmpPath) } }()]. *)
Definition with_cleanup {A} (tmpPath : bytes) (c : IO A) : IO A :=
  fun w => let '(w, r) := c w in
    match r with
    | Ok a => (w, Ok a)
    | _ => let '(w, _) := Remove tmpPath w in (w, r)
    end.

(** From the removal of old temporary files to the final verification. *)
Definition publish (srcNative dstNative want : bytes) (op : Op) (hooks : option ApplyHooks) : IO Z :=
  let rel := Rel op in
  let* _ := ignore (cleanupTemps (Dir dstNative)) in
  let* tmpPath := or_fail (createTemp (Dir dstNative)) (mapWriteErr "apply" rel) in
  let* written := with_cleanup tmpPath (stage srcNative dstNative tmpPath want op hooks) in
  let* _ := ignore (SyncDir (Dir dstNative)) in
  let* (finalDig, _) := or_fail (HashFile dstNative) (wrap KindVerify "apply" rel) in
  if negb (bool_decide (finalDig = want)) then throw (classify KindVerify "apply" rel) else
  ret written.

Definition applyFile (roots : Roots) (op : Op) (hooks : option ApplyHooks) : IO Z :=
  let rel := Rel op in
  let* want := lift (map_err (wrap KindInvalidArgument "apply" rel) (digestFromHex (ExpectedDigestHex op))) in
  let srcNative := joinUnder (RSource roots) rel in
  let dstNative := joinUnder (RDestination roots) rel in
  if bool_decide (srcNative = []) || bool_decide (dstNative = []) then throw (pathUnsafe "apply") else
  let* (got, size) := or_fail (HashFile srcNative) (wrap KindRead "apply" rel) in
  if negb (bool_decide (got = want)) || (negb (ExpectedSize op =? 0) && negb (size =? ExpectedSize op))
  then throw (classify KindConflict "apply" rel) else
  let* _ := or_fail (MkdirAll (Dir dstNative) 0x1ED) (mapWriteErr "apply" rel) in
  let* s := try (Lstat dstNative) in
  let* _ := lift match s with
    | inl i =>
        if bool_decide (FileSystem.FType i = TSymlink) then Err (unsupported "apply" rel)
        else if bool_decide (FileSystem.FType i = TDir) then Err (classify KindConflict "apply" rel)
        else Ok tt
    | inr e => if negb (bool_decide (e = ENOENT)) then Err (wrap KindRead "apply" rel (OSError e)) else Ok tt
    end in
  publish srcNative dstNative want op hooks.

End Apply.

Arguments ApplyHooks W : clear implicits.

(** ** The plan *)

Record ApplyResult := mkApplied { Completed : Z; Skipped : Z; ABytes : Z; AErrors : list Error }.

Section Loop.
Context {W : Type}.
Abbreviation IO := (io W Error).

Record ApplyOptions := mkApplyOptions {
  Hooks : option (ApplyHooks W);
  StartAt : Z;
  CountPrior : bool;
  InitialBytes : Z;
  OnOpComplete : option (Z -> Op -> Z -> IO unit) }.

Definition is_skip (op : Op) : bool := bool_decide (Action op = ActionSkip).

(** The counters of the operations of an earlier run. *)
Fixpoint count_prior (ops : list Op) (out : ApplyResult) : ApplyResult :=
  match ops with
  | [] => out
  | op :: ops =>
      count_prior ops
        (if is_skip op
         then mkApplied (Completed out) (Skipped out + 1) (ABytes out) (AErrors out)
         else mkApplied (Completed out + 1) (Skipped out) (ABytes out) (AErrors out))
  end.

(** The loop from operation [i] on; [run] is the action of an operation, validated
    first.  An error is recorded and returned with the counters so far. *)
Fixpoint apply_loop (run : Op -> IO (Z * bool)) (opts : ApplyOptions) (i : Z) (ops : list Op) (out : ApplyResult)
    : IO (ApplyResult * option Error) :=
  match ops with
  | [] => ret (out, None)
  | op :: ops =>
      let failed out e :=
        ret (mkApplied (Completed out) (Skipped out) (ABytes out) (AErrors out ++ [e]), Some e) in
      let* r := try (run op) in
      match r with
      | inr e => failed out e
      | inl (n, skipped) =>
          let out := mkApplied (if skipped then Completed out else Completed out + 1)
                       (if skipped then Skipped out + 1 else Skipped out) (i64 (ABytes out + n)) (AErrors out) in
          let* c := try (match OnOpComplete opts with Some f => f i op (ABytes out) | None => ret tt end) in
          match c with
          | inr e => failed out e
          | inl _ => apply_loop run opts (i + 1) ops out
          end
      end
  end.

Definition emptyApplied : ApplyResult := mkApplied 0 0 0 [].

(** The counters at the start of the loop. *)
Definition start_result (plan : Plan) (opts : ApplyOptions) : ApplyResult :=
  let out := if CountPrior opts then count_prior (take (Z.to_nat (StartAt opts)) (Ops plan)) emptyApplied else emptyApplied in
  mkApplied (Completed out) (Skipped out) (InitialBytes opts) (AErrors out).

(** The loop from the start that the options name. *)
Definition apply_from (run : Op -> IO (Z * bool)) (plan : Plan) (opts : ApplyOptions) : IO (ApplyResult * option Error) :=
  apply_loop run opts (StartAt opts) (drop (Z.to_nat (StartAt opts)) (Ops plan)) (start_result plan opts).

End Loop.

Arguments ApplyOptions W : clear implicits.

Section ApplyPlan.
Context {W : Type} `{FileSystem W}.
Abbreviation IO := (io W Error).

(** The action of one operation: the bytes it transferred, and whether it
    counts as skipped. *)
Definition apply_op (roots : Roots) (op : Op) (hooks : option (ApplyHooks W)) : IO (Z * bool) :=
  let* _ := lift (validateRel (Rel op)) in
  if bool_decide (Action op = ActionSkip) then ret (0, true)
  else if bool_decide (Action op = ActionMkdir) then
    let* _ := applyMkdir (RDestination roots) op in ret (0, false)
  else if bool_decide (Action op = ActionCopy) || bool_decide (Action op = ActionReplace) then
    let* n := applyFile roots op hooks in ret (n, false)
  else throw (unsupported "apply" (Rel op)).

Definition ApplyWith (roots : Roots) (plan : Plan) (opts : ApplyOptions W) : IO (ApplyResult * option Error) :=
  let out := emptyApplied in
  if negb (bool_decide (SourceRoot plan = [])) && negb (bool_decide (SourceRoot plan = RSource roots))
  then ret (out, Some (invalidArg "apply")) else
  if negb (bool_decide (DestRoot plan = [])) && negb (bool_decide (DestRoot plan = RDestination roots))
  then ret (out, Some (invalidArg "apply")) else
  if (StartAt opts <? 0) || (len (Ops plan) <? StartAt opts) then ret (out, Some (invalidArg "apply")) else
  let* r := try (MkdirAll (RDestination roots) 0x1ED) in
  match r with
  | inr e => ret (out, Some (wrap KindWrite "apply" [] (OSError e)))
  | inl _ => apply_from (fun op => apply_op roots op (Hooks opts)) plan opts
  end.

Definition Apply (roots : Roots) (plan : Plan) (hooks : option (ApplyHooks W)) : IO (ApplyResult * option Error) :=
  ApplyWith roots plan (mkApplyOptions hooks 0 false 0 None).

End ApplyPlan.

(** ** Paths under a root *)

Lemma validateRel_inv rel :
  validateRel rel = Ok tt -> exists cs, cs <> [] /\ Forall plain cs /\ rel = PathGrammar.join_slash cs.
Proof.
  unfold validateRel. destruct (_ || _ || _); [done|].
  destruct (PathGrammar.ValidateJoined rel _) as [cs| |] eqn:E; try done. intros _.
  apply PathGrammar.ValidateJoined_iff in E as [E ->]. exists cs.
  apply PathGrammar.ValidateComponents_iff in E as (Hl & Hok & _). split; [intros ->; rewrite len_nil in Hl; lia|]. split; [|done].
  eapply Forall_impl; [exact Hok|]. intros c Hc. pose proof (PathGrammar.component_no_slash _ _ Hc).
  destruct Hc as (Hc & Hd & Hdd & _). split_and!; try done. intros ->. rewrite len_nil in Hc. lia.
Qed.

Lemma joinUnder_native r rel cs :
  Forall plain r -> cs <> [] -> Forall plain cs -> rel = PathGrammar.join_slash cs ->
  joinUnder (native r) rel = if is_ok (validateRel rel) then native (r ++ cs) else [].
Proof.
  intros Hr Hn Hc ->. unfold joinUnder. destruct (is_ok _); [|done]. cbn [negb].
  destruct cs as [|c cs]; [done|]. rewrite Split_join by done.
  rewrite Join_native_all by done.
  rewrite !Clean_native by (done || by apply Forall_app). rewrite Rel_native_under by done.
  rewrite not_escapes_plain by (by apply Forall_cons in Hc as [? _]). done.
Qed.

(** A path accepted for a plan operation never leaves its root: under an
    absolute root, it names exactly the root followed by the components of the
    relative path; every other relative path is refused. *)
Lemma joinUnder_contained r rel :
  Forall plain r ->
  (joinUnder (native r) rel = [] /\ is_ok (validateRel rel) = false) \/
  (exists cs, cs <> [] /\ Forall plain cs /\ rel = PathGrammar.join_slash cs /\
     joinUnder (native r) rel = native (r ++ cs) /\ validateRel rel = Ok tt).
Proof.
  intros Hr. destruct (validateRel rel) as [[]| |] eqn:E; [right|left..].
  - destruct (validateRel_inv _ E) as (cs & Hn & Hc & ->). exists cs.
    by rewrite (joinUnder_native r _ cs), E.
  - unfold joinUnder. by rewrite E.
  - unfold joinUnder. by rewrite E.
Qed.

(** ** How a run may change the tree *)

(** [v'] is [v] up to the paths in [X], and up to new directories at paths in [D];
    no symbolic link or other special node appears. *)
Definition evolves (X D : list bytes -> Prop) (v v' : tree) : Prop :=
  forall q, (v' !! q = v !! q \/ X q \/ (v !! q = None /\ D q /\ exists m, v' !! q = Some (NDir m))) /\
    (forall t, v' !! q = Some (NOther t) -> v !! q = Some (NOther t)).

Lemma evolves_refl X D v : evolves X D v v.
Proof. intros q. auto. Qed.

Lemma evolves_trans X D v1 v2 v3 : evolves X D v1 v2 -> evolves X D v2 v3 -> evolves X D v1 v3.
Proof.
  intros H1 H2 q. destruct (H1 q) as [Ha Hl1], (H2 q) as [Hb Hl2]. split; [|auto].
  destruct Hb as [Hb|[Hb|(Hb & HD & Hm)]]; [rewrite Hb; destruct Ha as [|[|]]; auto|auto|].
  destruct Ha as [Ha|[Ha|(Ha & HD' & m & Hm')]]; [|auto|congruence].
  right; right. rewrite <- Ha. auto.
Qed.

Lemma evolves_mono X D X' D' v v' :
  (forall q, X q -> X' q) -> (forall q, D q -> D' q) -> evolves X D v v' -> evolves X' D' v v'.
Proof. intros HX HD H q. destruct (H q) as [Ha Hl]. split; [|done]. intuition. Qed.

Lemma evolves_insert (X D : list bytes -> Prop) v q m d : X q -> evolves X D v (<[q := NFile m d]> v).
Proof.
  intros HX p. destruct (decide (p = q)) as [->|Hne].
  - rewrite lookup_insert_eq. split; [auto|done].
  - rewrite lookup_insert_ne by done. auto.
Qed.

Lemma evolves_delete (X D : list bytes -> Prop) v q : X q -> evolves X D v (delete q v).
Proof.
  intros HX p. destruct (decide (p = q)) as [->|Hne].
  - rewrite lookup_delete_eq. split; [auto|done].
  - rewrite lookup_delete_ne by done. auto.
Qed.

Lemma evolves_created (X D : list bytes -> Prop) v v' cs :
  created_dirs v v' cs -> (forall p, p `prefix_of` cs -> D p) -> evolves X D v v'.
Proof.
  intros H HD q. destruct (H q) as [->|(Hn & Hp & m & Hm)]; [auto|]. split; [|congruence].
  right; right. eauto.
Qed.

Lemma evolves_nolink X D v v' cs : evolves X D v v' -> nolink v cs -> nolink v' cs.
Proof. intros He Hn p Hp E. apply (Hn p Hp). by apply He. Qed.

Lemma evolves_entry X D v v' ds c : evolves X D v v' -> entry_at v ds c -> entry_at v' ds c.
Proof. intros He (? & ? & ?). split_and!; try done. by eapply evolves_nolink. Qed.

Lemma evolves_eq X D v v' : v' = v -> evolves X D v v'.
Proof. intros ->. apply evolves_refl. Qed.

Create HintDb evolves.
#[local] Hint Resolve evolves_refl evolves_insert evolves_delete evolves_eq : evolves.
#[local] Hint Extern 2 (evolves _ _ _ _) => eapply evolves_trans; [eassumption|] : evolves.

(** A temporary name in a directory. *)
Definition temp_in (ds q : list bytes) : Prop := exists t, q = ds ++ [t] /\ is_temp t = true.

Section Laws.
Context {W : Type} `{FileSystemLaws W}.

Lemma wp_HashFile ds c (Q : W -> res Error (bytes * Z) -> Prop) w :
  entry_at (view w) ds c ->
  (forall w' r, view w' = view w ->
     match r with
     | Ok (h, n) => exists m d, view w !! (ds ++ [c]) = Some (NFile m d) /\ h = SHA256 d /\ n = len d
     | Err _ => True
     | Panic => False
     end -> Q w' r) ->
  wp (HashFile (native (ds ++ [c]))) Q w.
Proof.
  intros He HQ. apply wp_bind, wp_or_fail, wp_call. intros w1 r1 E1.
  apply openread_spec in E1 as [Hv1 Hr1]; [|done].
  destruct r1 as [i|e|]; cbn [map_err]; [|by apply HQ|done].
  destruct (negb _); [by apply wp_throw, HQ|]. apply wp_bind, wp_or_fail, wp_call. intros w2 r2 E2.
  apply readall_spec in E2 as [Hv2 Hr2]; [|by rewrite Hv1].
  rewrite Hv1 in Hv2, Hr2. destruct r2 as [d|e|]; cbn [map_err]; [|by apply HQ|done].
  apply wp_ret, HQ; [done|]. destruct Hr2 as [m Hm]. eauto.
Qed.

Lemma is_temp_plain_name b : plain (tmpPrefix ++ b ++ tmpSuffix) -> is_temp (tmpPrefix ++ b ++ tmpSuffix) = true.
Proof.
  intros _. unfold is_temp, HasPrefix, HasSuffix. apply andb_true_iff. split.
  - apply bool_decide_eq_true_2. rewrite take_app_length'; done.
  - apply andb_true_iff. split; [|len_lia]. apply bool_decide_eq_true_2.
    rewrite !length_app, app_assoc. rewrite drop_app_length'; [done|]. rewrite length_app. lia.
Qed.

Lemma hex_digit_range n : 0 <= n < 16 -> byteZ (hex_digit n) <> 47.
Proof.
  intros Hn. unfold hex_digit. rewrite byteZ_byte_of.
  destruct (n <? 10) eqn:E; reflect_bools; rewrite Z.mod_small by lia; lia.
Qed.

Lemma hex_no_slash b : PathGrammar.no_slash (hex_encode b).
Proof.
  induction b as [|x b IH]; cbn [hex_encode]; [constructor|]. pose proof (byteZ_range x).
  pose proof (Z.mod_pos_bound (byteZ x) 16 ltac:(lia)).
  assert (0 <= byteZ x / 16 < 16) by (split; [apply Z.div_pos; lia|apply Z.div_lt_upper_bound; lia]).
  constructor; [by apply hex_digit_range|]. constructor; [by apply hex_digit_range|done].
Qed.

(** The name that [createTemp] makes. *)
Definition temp_name (b : bytes) : bytes := tmpPrefix ++ hex_encode b ++ tmpSuffix.

Lemma temp_name_plain b : plain (temp_name b) /\ is_temp (temp_name b) = true.
Proof.
  assert (Hp : plain (temp_name b)).
  { unfold temp_name. split_and!; try done. unfold PathGrammar.no_slash.
    repeat (apply Forall_app; split); [|apply hex_no_slash|]; repeat (constructor; [vm_compute; congruence|]); constructor. }
  split; [done|]. by apply is_temp_plain_name.
Qed.

Lemma wp_createTemp ds (Q : W -> res errno bytes -> Prop) w :
  Forall plain ds -> nolink (view w) ds ->
  (forall w' t, plain t -> is_temp t = true -> view w' = <[ds ++ [t] := NFile 0x180 []]> (view w) ->
     Q w' (Ok (native (ds ++ [t])))) ->
  (forall w' e, evolves (temp_in ds) (fun _ => False) (view w) (view w') -> Q w' (Err e)) ->
  wp (createTemp (native ds)) Q w.
Proof.
  intros Hp Hl HQ HE. apply wp_bind, wp_call. intros w1 r1 [Hv1 Hr1]%rand_spec; [|lia].
  destruct r1 as [b|e|]; [|by apply HE; eauto with evolves|done].
  cbv beta zeta. change (tmpPrefix ++ _) with (temp_name b). destruct (temp_name_plain b) as [Ht Hit]. rewrite Join_native by done.
  assert (He : entry_at (view w) ds (temp_name b)) by done.
  apply wp_bind, wp_call. intros w2 r2 E2. apply createexcl_spec in E2; [|by rewrite Hv1].
  rewrite Hv1 in E2. destruct r2 as [[]|e|]; [|by apply HE; eauto with evolves|done].
  destruct E2 as [Hn Hv2]. apply wp_bind, wp_try, wp_call. intros w3 r3 [Hv3 Hr3]%close_spec.
  destruct r3 as [[]|e|]; [|..|done].
  { apply wp_ret, HQ; [done..|]. by rewrite Hv3. }
  assert (Hx : temp_in ds (ds ++ [temp_name b])) by (eexists; eauto).
  assert (Hev : evolves (temp_in ds) (fun _ => False) (view w) (view w3)).
  { rewrite Hv3, Hv2. by apply evolves_insert. }
  apply wp_bind, wp_ignore, wp_call. intros w4 r4 E4.
  apply remove_spec in E4; [|by eapply evolves_entry].
  destruct r4 as [[]|e'|]; [..|done]; apply wp_throw, HE; (eapply evolves_trans; [exact Hev|]).
  - rewrite E4. by apply evolves_delete.
  - by apply evolves_eq.
Qed.

Lemma wp_cleanup_loop ds names (Q : W -> res errno unit -> Prop) w :
  Forall plain ds -> nolink (view w) ds -> (forall c, c ∈ names -> plain c) ->
  (forall w', evolves (temp_in ds) (fun _ => False) (view w) (view w') -> Q w' (Ok tt)) ->
  wp (cleanup_loop (native ds) names) Q w.
Proof.
  revert w. induction names as [|c names IH]; intros w Hp Hl Hn HQ; cbn [cleanup_loop].
  { apply wp_ret, HQ. eauto with evolves. }
  assert (Hc : plain c) by (apply Hn; left). destruct (is_temp c) eqn:Et; cycle 1.
  { apply IH; try done. intros; apply Hn; by right. }
  apply wp_bind, wp_ignore, wp_call. rewrite Join_native by done. intros w1 r1 E1.
  apply remove_spec in E1; [|done].
  assert (evolves (temp_in ds) (fun _ => False) (view w) (view w1) /\ r1 <> Panic) as [Hev Hr].
  { destruct r1; [|by eauto with evolves|done]. split; [|done]. rewrite E1. apply evolves_delete. eexists; eauto. }
  assert (Hk : wp (cleanup_loop (native ds) names) Q w1); [|by destruct r1].
  apply IH; [done|by eapply evolves_nolink|intros; apply Hn; by right|].
  intros w' H'. apply HQ. by eapply evolves_trans.
Qed.

Lemma wp_cleanupTemps ds (Q : W -> res errno unit -> Prop) w :
  Forall plain ds -> nolink (view w) ds ->
  (forall w' r, evolves (temp_in ds) (fun _ => False) (view w) (view w') -> r <> Panic -> Q w' r) ->
  wp (cleanupTemps (native ds)) Q w.
Proof.
  intros Hp Hl HQ. apply wp_bind, wp_call. intros w1 r1 E1. apply readdir_spec in E1 as [Hv1 Hr1]; [|done..].
  destruct r1 as [names|e|]; [|apply HQ; eauto with evolves; done|done].
  destruct Hr1 as [_ Hnames]. apply wp_cleanup_loop; [done|by rewrite Hv1|intros c Hc; by apply Hnames|].
  intros w' He. apply HQ; [|done]. by rewrite Hv1 in He.
Qed.

(** ** Publication of one file *)

Definition file_mode (op : Op) : Z := if ExpectedMode op =? 0 then 0x1A4 else ExpectedMode op.

(** Up to the rename, only the temporary file changes; the rename publishes the
    verified content. *)
Lemma wp_stage ss sc ds c t want op m0 (Q : W -> res Error Z -> Prop) w :
  entry_at (view w) ss sc -> entry_at (view w) ds c -> entry_at (view w) ds t ->
  view w !! (ds ++ [t]) = Some (NFile m0 []) ->
  (forall w' d, SHA256 d = want ->
     view w' = <[ds ++ [c] := NFile (file_mode op) d]> (delete (ds ++ [t]) (view w)) -> Q w' (Ok (len d))) ->
  (forall w' e m d, view w' = <[ds ++ [t] := NFile m d]> (view w) -> Q w' (Err e)) ->
  wp (stage (native (ss ++ [sc])) (native (ds ++ [c])) (native (ds ++ [t])) want op None) Q w.
Proof.
  intros Hs Hc Ht Hn HQ HE. unfold stage. cbv zeta.
  set (V := fun v => exists m d, v = <[ds ++ [t] := NFile m d]> (view w)).
  assert (HE' : forall w' e, V (view w') -> Q w' (Err e)) by (intros w' e (m & d & ?); by eapply HE).
  assert (HV : forall v, V v -> evolves (fun q => q = ds ++ [t]) (fun _ => False) (view w) v)
    by (intros v (m & d & ->); by apply evolves_insert).
  assert (V0 : V (view w)) by (exists m0, []; by rewrite insert_id).
  apply wp_bind, wp_or_fail, wp_call. intros w1 r1 [Hv1 Hr1]%openread_spec; [|done].
  destruct r1; cbn [map_err]; [|by apply HE'; rewrite Hv1|done].
  apply wp_bind, wp_or_fail, wp_call. intros w2 r2 E2.
  apply (opentrunc_spec _ _ _ _ _ m0 []) in E2; [|by rewrite Hv1..]. rewrite Hv1 in E2.
  destruct r2; cbn [map_err]; [|by apply HE'; rewrite E2|done].
  rewrite insert_id in E2 by done.
  apply wp_bind, wp_try, wp_call. intros w3 r3 E3.
  apply (copyto_spec _ _ _ _ _ _ m0) in E3 as (Hr3 & d & Hv3 & Hd); [|by rewrite E2..]. rewrite E2 in Hv3.
  assert (V3 : V (view w3)) by (exists m0, d; done).
  assert (Hcopy : exists c3, match r3 with Ok a => Ok (inl a) | Err e => Ok (inr e) | Panic => Panic end
                    = @Ok Error (Z + errno) c3 /\ forall n, c3 = inl n -> n = len d).
  { destruct r3; [..|done]; eexists; (split; [done|]); [|done]. intros n [= <-]. by apply Hd. }
  destruct Hcopy as (c3 & -> & Hd').
  apply wp_bind, wp_try_any. intros w4 r4 [Hv4 Hr4]%sync_spec. split; [done|]. intros x4.
  apply wp_bind, wp_try_any. intros w5 r5 [Hv5 Hr5]%close_spec. split; [done|]. intros x5.
  rewrite <- Hv4 in V3. rewrite <- Hv5 in V3.
  apply wp_bind, wp_lift. destruct c3 as [n|e]; [|by apply HE'].
  rewrite (Hd' n) by done. apply wp_bind, wp_lift.
  destruct x4; [|by apply HE']. destruct x5; [|by apply HE'].
  apply wp_bind, wp_ret. rewrite Hv4, Hv3 in Hv5.
  apply wp_bind, wp_or_fail, wp_HashFile; [eapply evolves_entry; [by apply HV|done]|].
  intros w6 r6 Hv6 Hr6. rewrite <- Hv6 in V3. destruct r6 as [[h k]|e|]; cbn [map_err]; [|by apply HE'|done].
  destruct Hr6 as (m & d' & Hf & -> & _). rewrite Hv5, lookup_insert_eq in Hf. injection Hf as <- <-.
  destruct (bool_decide _) eqn:Ew; [|by apply wp_throw, HE']. cbn [negb]. reflect_bools.
  apply wp_bind, wp_or_fail, wp_call. intros w7 r7 E7. rewrite Hv5 in Hv6.
  apply (chmod_spec _ _ _ _ _ m0 d) in E7; [|eapply evolves_entry; [by apply HV|done]|by rewrite Hv6, lookup_insert_eq].
  destruct r7; cbn [map_err]; [|by apply HE'; rewrite E7|done].
  rewrite Hv6, insert_insert_eq in E7. fold (file_mode op) in E7.
  assert (V7 : V (view w7)) by (eexists _, d; done).
  apply wp_bind, wp_ret, wp_bind, wp_or_fail, wp_call. intros w8 r8 E8.
  apply (rename_spec _ _ _ _ _ _ _ (file_mode op) d) in E8;
    [|eapply evolves_entry; [by apply HV|done]..|by rewrite E7, lookup_insert_eq].
  destruct r8; cbn [map_err]; [|by apply HE'; rewrite E8|done].
  apply wp_ret, HQ; [done|]. by rewrite E8, E7, delete_insert_eq.
Qed.

(** The planned file is at a path. *)
Definition published (op : Op) (q : list bytes) (v : tree) : Prop :=
  exists d, v !! q = Some (NFile (file_mode op) d) /\ digestFromHex (ExpectedDigestHex op) = Ok (SHA256 d).

(** The paths that publishing a file at [ds ++ [c]] may touch. *)
Definition file_paths (ds : list bytes) (c : bytes) (q : list bytes) : Prop := q = ds ++ [c] \/ temp_in ds q.

Abbreviation above ds := (fun q => q `prefix_of` ds).

Lemma evolves_target ds c v v' :
  evolves (temp_in ds) (above ds) v v' -> is_temp c = false -> v' !! (ds ++ [c]) = v !! (ds ++ [c]).
Proof.
  intros He Hc. destruct (He (ds ++ [c])) as [[E|[(t & E & Ht)|(_ & Hp & _)]] _]; [done|..].
  - apply app_inj_2 in E as [_ [= ->]]; [congruence|done].
  - apply prefix_length in Hp. rewrite length_app in Hp. cbn in Hp. lia.
Qed.

(** From a tree where the directory is usable: every failure before the rename
    leaves the target alone, and after it the planned content is there. *)
Lemma wp_publish ss ds c want op (Q : W -> res Error Z -> Prop) w :
  entry_at (view w) ss c -> entry_at (view w) ds c -> is_temp c = false ->
  digestFromHex (ExpectedDigestHex op) = Ok want ->
  (forall w' r, evolves (file_paths ds c) (above ds) (view w) (view w') ->
     match r with
     | Ok n => published op (ds ++ [c]) (view w') /\
         exists m d, view w' !! (ds ++ [c]) = Some (NFile m d) /\ n = len d
     | Err _ => view w' !! (ds ++ [c]) = view w !! (ds ++ [c]) \/ published op (ds ++ [c]) (view w')
     | Panic => False
     end -> Q w' r) ->
  wp (publish (native (ss ++ [c])) (native (ds ++ [c])) want op None) Q w.
Proof.
  intros Hes Hed Hc Ed HQ. set (P := fun v => evolves (temp_in ds) (above ds) (view w) v).
  assert (Hpd : Forall plain ds) by (by destruct Hed).
  assert (HE : forall w' e, P (view w') -> Q w' (Err e)).
  { intros w' e HP. apply HQ; [|left; by eapply evolves_target].
    eapply evolves_mono; [| |exact HP]; [|done]. intros q. by right. }
  assert (P2 : P (view w)) by apply evolves_refl.
  assert (Hent : forall v, P v -> entry_at v ds c /\ entry_at v ss c /\ nolink v ds).
  { intros v HP. pose proof (evolves_entry _ _ _ _ _ _ HP Hed) as Hx. split; [done|].
    split; [by eapply evolves_entry|]. by destruct Hx as (_ & _ & ?). }
  unfold publish. cbv zeta. rewrite Dir_native by (by destruct Hed as (? & ? & _)).
  apply wp_bind, wp_ignore, wp_cleanupTemps; [done|by apply Hent|]. intros w4 r4 He4 Hr4.
  assert (P4 : P (view w4)).
  { eapply evolves_trans; [exact P2|]. by eapply evolves_mono; [| |exact He4]. }
  assert (exists x, match r4 with Panic => Panic | _ => Ok tt end = @Ok Error unit x) as [x ->] by (destruct r4; eauto; done).
  apply wp_bind, wp_or_fail, wp_createTemp; [done|by apply Hent|..]; cycle 1.
  { intros w5 e He5. cbn [map_err]. apply HE. eapply evolves_trans; [exact P4|]. by eapply evolves_mono; [| |exact He5]. }
  intros w5 t Htp Htt Hv5. cbn [map_err].
  assert (Hx : temp_in ds (ds ++ [t])) by (eexists; eauto).
  assert (P5 : P (view w5)) by (rewrite Hv5; eapply evolves_trans; [exact P4|by apply evolves_insert]).
  assert (Het : entry_at (view w5) ds t) by (split; [done|split; [done|by apply Hent]]).
  assert (Htc : ds ++ [c] <> ds ++ [t]) by (intros [_ [= ->]]%app_inj_2; [congruence|done]).
  apply wp_bind. unfold wp, with_cleanup.
  destruct (stage _ _ _ _ _ _ w5) as [w6 r6] eqn:E6.
  eapply (wp_run _ (fun w6 r6 =>
    match r6 with
    | Ok n => exists d, SHA256 d = want /\ n = len d /\
        view w6 = <[ds ++ [c] := NFile (file_mode op) d]> (delete (ds ++ [t]) (view w5))
    | Err _ => exists m d, view w6 = <[ds ++ [t] := NFile m d]> (view w5)
    | Panic => False end)) in E6; cycle 1.
  { eapply wp_stage; [by apply Hent..|done|by rewrite Hv5, lookup_insert_eq|eauto|eauto]. }
  destruct r6 as [n|e|]; [|..|done]; cycle 1.
  { destruct E6 as (m & d & Hv6).
    assert (P6 : P (view w6)) by (rewrite Hv6; eapply evolves_trans; [exact P5|by apply evolves_insert]).
    destruct (Remove _ w6) as [w7 r7] eqn:E7. cbn.
    apply remove_spec in E7; [|eapply evolves_entry; [|exact Het]; rewrite Hv6; by apply (evolves_insert (temp_in ds) (above ds))].
    apply HE. destruct r7; [|by rewrite E7|done]. rewrite E7.
    eapply evolves_trans; [exact P6|by apply evolves_delete]. }
  destruct E6 as (d & Hd & -> & Hv6). cbn [fst snd]. subst want.
  assert (G : forall v, v = view w6 -> evolves (file_paths ds c) (above ds) (view w) v /\ published op (ds ++ [c]) v /\
                exists m d, v !! (ds ++ [c]) = Some (NFile m d) /\ len d = len d).
  { intros v ->. rewrite Hv6. split; [|split; [exists d; by rewrite lookup_insert_eq|exists (file_mode op), d; by rewrite lookup_insert_eq]].
    eapply evolves_trans; [eapply evolves_mono; [| |exact P5]; [|done]; intros q; by right|].
    eapply evolves_trans; [apply evolves_delete; right; exact Hx|]. apply evolves_insert. by left. }
  apply wp_bind, wp_ignore_any. intros w7 r7 [Hv7 Hr7]%syncdir_spec. split; [done|].
  apply wp_bind, wp_or_fail, wp_HashFile.
  { eapply evolves_entry; [|exact Hed]. by apply (G (view w7)). }
  intros w8 r8 Hv8 Hr8. rewrite Hv7 in Hv8. destruct (G _ Hv8) as (G1 & G2 & _).
  destruct r8 as [[h k]|e|]; cbn [map_err]; [|apply HQ; [done|by right]|done].
  case_if; [apply wp_throw, HQ; [done|by right]|]. apply wp_ret, HQ; [done|]. split; [done|].
  exists (file_mode op), d. by rewrite Hv8, Hv6, lookup_insert_eq.
Qed.

Lemma wp_applyFile sr dr cs c op (Q : W -> res Error Z -> Prop) w :
  Forall plain sr -> Forall plain dr -> Forall plain (cs ++ [c]) ->
  Rel op = PathGrammar.join_slash (cs ++ [c]) -> validateRel (Rel op) = Ok tt ->
  nolink (view w) (sr ++ cs) -> nolink (view w) (dr ++ cs) -> is_temp c = false ->
  (forall w' r, evolves (file_paths (dr ++ cs) c) (above (dr ++ cs)) (view w) (view w') ->
     match r with
     | Ok n => published op (dr ++ cs ++ [c]) (view w') /\
         exists m d, view w' !! (dr ++ cs ++ [c]) = Some (NFile m d) /\ n = len d
     | Err _ => view w' !! (dr ++ cs ++ [c]) = view w !! (dr ++ cs ++ [c]) \/
         published op (dr ++ cs ++ [c]) (view w')
     | Panic => False
     end -> Q w' r) ->
  wp (applyFile (mkRoots (native sr) (native dr)) op None) Q w.
Proof.
  intros Hsr Hdr Hcs Hrel Hval Hls Hld Hc HQ. apply Forall_app in Hcs as Hcs'. destruct Hcs' as [Hpc Hp1].
  apply Forall_cons in Hp1 as [Hp1 _].
  assert (Hes : entry_at (view w) (sr ++ cs) c) by (split; [by apply Forall_app|done]).
  assert (Hed : entry_at (view w) (dr ++ cs) c) by (split; [by apply Forall_app|done]).
  rewrite (app_assoc dr cs [c]) in HQ. set (ds := dr ++ cs) in *. set (ss := sr ++ cs) in *.
  assert (Hpd : Forall plain ds) by (by apply Forall_app).
  set (P := fun v => evolves (temp_in ds) (above ds) (view w) v).
  assert (HE : forall w' e, P (view w') -> Q w' (Err e)).
  { intros w' e HP. apply HQ; [|left; by eapply evolves_target].
    eapply evolves_mono; [| |exact HP]; [|done]. intros q. by right. }
  assert (P0 : P (view w)) by apply evolves_refl.
  unfold applyFile. cbv zeta. apply wp_bind, wp_lift.
  destruct (digestFromHex (ExpectedDigestHex op)) as [want|e|] eqn:Ed; cbn [map_err]; [|by apply HE|].
  2: { unfold digestFromHex in Ed. destruct (hex_decode _); [|done]. by destruct (negb _). }
  cbn [RSource RDestination].
  rewrite (joinUnder_native sr _ (cs ++ [c])), (joinUnder_native dr _ (cs ++ [c])), Hval
    by (done || by destruct cs). cbn [is_ok].
  rewrite !(app_assoc _ cs [c]). fold ds ss. rewrite !bool_decide_eq_false_2 by done. cbn [orb].
  apply wp_bind, wp_or_fail, wp_HashFile; [done|]. intros w1 r1 Hv1 Hr1.
  destruct r1 as [[got size]|e|]; cbn [map_err]; [|by apply HE; rewrite Hv1|done].
  case_if; [by apply wp_throw, HE; rewrite Hv1|].
  rewrite Dir_native by done. apply wp_bind, wp_or_fail, wp_call. intros w2 r2 E2.
  apply mkdirall_spec in E2 as [Hcr Hr2]; [|done|rewrite Hv1; by destruct Hed as (_ & _ & ?)].
  rewrite Hv1 in Hcr. assert (P2 : P (view w2)) by (by eapply evolves_created).
  destruct r2; cbn [map_err]; [|by apply HE|done]. clear Hr2.
  assert (Hent : forall v, P v -> entry_at v ds c /\ entry_at v ss c /\ nolink v ds).
  { intros v HP. pose proof (evolves_entry _ _ _ _ _ _ HP Hed) as Hx. split; [done|].
    split; [by eapply evolves_entry|]. by destruct Hx as (_ & _ & ?). }
  apply wp_bind, wp_try, wp_call. intros w3 r3 E3. apply lstat_spec in E3 as [Hv3 Hr3]; [|by apply Hent].
  rewrite <- Hv3 in P2. clear Hv3 Hcr.
  assert (exists s3, match r3 with Ok a => Ok (inl a) | Err e => Ok (inr e) | Panic => Panic end
            = @Ok Error (FileInfo + errno) s3) as [s3 ->] by (destruct r3; eauto; done). clear Hr3.
  apply wp_bind, wp_lift. destruct (match s3 with inl _ => _ | inr _ => _ end) as [[]|e|] eqn:E3; [|by apply HE|].
  2: { destruct s3; repeat case_match; done. }
  apply wp_publish; [by apply Hent..|done|done|]. intros w4 r4 He4 Hr4.
  assert (He : evolves (file_paths ds c) (above ds) (view w) (view w4)).
  { eapply evolves_trans; [eapply evolves_mono; [| |exact P2]; [|done]; intros q; by right|exact He4]. }
  apply HQ; [done|]. destruct r4; [done| |done]. destruct Hr4 as [->|]; [left; by eapply evolves_target|by right].
Qed.

(** A file operation is all or nothing.  Whatever system call fails, the
    target path ends with what it held before or with the complete planned
    content and mode; it has the planned content whenever the operation
    succeeds, and then the byte count is its length.  Nothing else in the tree
    changes, apart from new directories above the target and entries with a
    temporary name beside it. *)
Lemma applyFile_atomic sr dr cs c op w w' r :
  Forall plain sr -> Forall plain dr -> Forall plain (cs ++ [c]) ->
  Rel op = PathGrammar.join_slash (cs ++ [c]) -> validateRel (Rel op) = Ok tt ->
  nolink (view w) (sr ++ cs) -> nolink (view w) (dr ++ cs) -> is_temp c = false ->
  applyFile (mkRoots (native sr) (native dr)) op None w = (w', r) ->
  (forall q, q <> dr ++ cs ++ [c] ->
     view w' !! q = view w !! q \/
     (exists t, q = dr ++ cs ++ [t] /\ is_temp t = true) \/
     (view w !! q = None /\ q `prefix_of` dr ++ cs /\ exists m, view w' !! q = Some (NDir m))) /\
  match r with
  | Ok n => exists d, view w' !! (dr ++ cs ++ [c]) = Some (NFile (file_mode op) d) /\
      digestFromHex (ExpectedDigestHex op) = Ok (SHA256 d) /\ n = len d
  | Err _ => view w' !! (dr ++ cs ++ [c]) = view w !! (dr ++ cs ++ [c]) \/
      exists d, view w' !! (dr ++ cs ++ [c]) = Some (NFile (file_mode op) d) /\
        digestFromHex (ExpectedDigestHex op) = Ok (SHA256 d)
  | Panic => False
  end.
Proof.
  intros Hsr Hdr Hcs Hrel Hval Hls Hld Hc E. pattern w', r. eapply wp_run; [|exact E]. clear E r w'.
  eapply wp_applyFile; try done. intros w' r He Hr. split.
  - intros q Hq. destruct (He q) as [[?|[[Hx|(t & -> & Ht)]|?]] _]; [by left| |right; left|by right; right].
    + destruct Hq. by rewrite Hx, <- app_assoc.
    + exists t. by rewrite <- app_assoc.
  - destruct r as [n|e|]; [|done|done]. destruct Hr as [(d & Hd & Hdig) (m & d' & Hd' & ->)].
    rewrite Hd in Hd'. injection Hd' as <- <-. eauto.
Qed.

(** ** Directories *)

Lemma nolink_snoc v ds c : nolink v ds -> v !! (ds ++ [c]) <> Some (NOther TSymlink) -> nolink v (ds ++ [c]).
Proof. intros Hl Hn p Hp. apply prefix_of_snoc in Hp as [Hp| ->]; [by apply Hl|done]. Qed.

Lemma wp_applyMkdir dr cs c op (Q : W -> res Error unit -> Prop) w :
  Forall plain dr -> Forall plain (cs ++ [c]) ->
  Rel op = PathGrammar.join_slash (cs ++ [c]) -> validateRel (Rel op) = Ok tt -> nolink (view w) (dr ++ cs) ->
  (forall w' r, evolves (fun _ => False) (above (dr ++ cs ++ [c])) (view w) (view w') ->
     match r with
     | Ok _ => exists m, view w' !! (dr ++ cs ++ [c]) = Some (NDir m)
     | Err _ => True
     | Panic => False
     end -> Q w' r) ->
  wp (applyMkdir (native dr) op) Q w.
Proof.
  intros Hdr Hcs Hrel Hval Hl HQ. apply Forall_app in Hcs as Hcs'. destruct Hcs' as [Hpc Hp1].
  apply Forall_cons in Hp1 as [Hp1 _]. rewrite !(app_assoc dr cs [c]) in HQ.
  assert (Hed : entry_at (view w) (dr ++ cs) c) by (split; [by apply Forall_app|done]).
  assert (Hpd : Forall plain (dr ++ cs)) by (by destruct Hed).
  unfold applyMkdir. cbv zeta. rewrite (joinUnder_native dr _ (cs ++ [c])), Hval by (done || by destruct cs).
  cbn [is_ok]. rewrite (app_assoc dr cs [c]), bool_decide_eq_false_2 by done.
  apply wp_bind, wp_try, wp_call. intros w1 r1 E1. apply lstat_spec in E1 as [Hv1 Hr1]; [|done].
  assert (Hsame : forall e, Q w1 (Err e)) by (intros e; apply HQ; [by apply evolves_eq|done]).
  destruct r1 as [i|e|]; [..|done].
  - destruct Hr1 as (n & Hn & ->). case_if; [by apply wp_throw|].
    case_if; [by apply wp_throw|]. reflect_bools. apply wp_ret, HQ; [by apply evolves_eq|].
    destruct n as [m| |[]]; try done. rewrite Hv1. eauto.
  - destruct (bool_decide (e = ENOENT)) eqn:Ee; cbn [negb]; [|by apply wp_throw]. reflect_bools.
    specialize (Hr1 Ee). apply wp_bind, wp_or_fail, wp_call. intros w2 r2 E2.
    apply mkdirall_spec in E2 as [Hcr Hr2]; [|by apply plain_snoc|].
    2: { rewrite Hv1. apply nolink_snoc; [done|]. by rewrite Hr1. }
    rewrite Hv1 in Hcr.
    assert (Hev : evolves (fun _ => False) (above ((dr ++ cs) ++ [c])) (view w) (view w2)) by (by eapply evolves_created).
    destruct r2; cbn [map_err]; [|by apply HQ|done].
    apply wp_ignore_any. intros w3 r3 [Hv3 Hr3]%syncdir_spec. split; [done|]. apply HQ; rewrite Hv3; [done|].
    apply Hr2. by destruct (dr ++ cs).
Qed.

(** ** The plan *)

(** The path of an operation's target under the destination root. *)
Definition target (dr : list bytes) (op : Op) : list bytes := dr ++ Split (Rel op).

(** The operation's directories have no symbolic link, and its name is not a
    temporary one. *)
Definition usable (v : tree) (sr dr : list bytes) (op : Op) : Prop :=
  forall cs c, Split (Rel op) = cs ++ [c] -> nolink v (sr ++ cs) /\ nolink v (dr ++ cs) /\ is_temp c = false.

Definition is_file_op (op : Op) : bool :=
  bool_decide (Action op = ActionCopy) || bool_decide (Action op = ActionReplace).

Definition op_paths (dr : list bytes) (op : Op) (q : list bytes) : Prop :=
  is_file_op op = true /\ exists cs c, Split (Rel op) = cs ++ [c] /\ file_paths (dr ++ cs) c q.
Definition op_dirs (dr : list bytes) (op : Op) (q : list bytes) : Prop := q `prefix_of` target dr op.

(** What a completed operation has established. *)
Definition done_op (dr : list bytes) (v : tree) (op : Op) : Prop :=
  (Action op = ActionMkdir -> exists m, v !! target dr op = Some (NDir m)) /\
  (is_file_op op = true -> published op (target dr op) v).

Lemma wp_apply_op sr dr op (Q : W -> res Error (Z * bool) -> Prop) w :
  Forall plain sr -> Forall plain dr -> usable (view w) sr dr op ->
  (forall w' r, evolves (op_paths dr op) (op_dirs dr op) (view w) (view w') ->
     match r with
     | Ok (_, sk) => validateRel (Rel op) = Ok tt /\ sk = is_skip op /\ done_op dr (view w') op
     | Err _ => is_file_op op = true ->
         view w' !! target dr op = view w !! target dr op \/ published op (target dr op) (view w')
     | Panic => False
     end -> Q w' r) ->
  wp (apply_op (mkRoots (native sr) (native dr)) op None) Q w.
Proof.
  intros Hsr Hdr Hu HQ. unfold apply_op. apply wp_bind, wp_lift.
  assert (HE : forall e, Q w (Err e)) by (intros e; apply HQ; [apply evolves_refl|by left]).
  destruct (validateRel (Rel op)) as [[]|e|] eqn:Hval; [|by apply HE|].
  2: { unfold validateRel in Hval. destruct (_ || _ || _); [done|].
       pose proof (PathGrammar.ValidateJoined_safe (Rel op) PathGrammar.DefaultProfile) as Hsafe.
       by destruct (PathGrammar.ValidateJoined _ _). }
  destruct (validateRel_inv _ Hval) as (l & Hn & Hp & Hrel).
  destruct (exists_last Hn) as (cs & c & ->).
  assert (Hsp : Split (Rel op) = cs ++ [c]).
  { rewrite Hrel. destruct (cs ++ [c]) as [|x l] eqn:E; [by destruct cs|]. by apply Split_join. }
  destruct (Hu _ _ Hsp) as (Hls & Hld & Htemp).
  assert (Ht : target dr op = dr ++ cs ++ [c]) by (unfold target; by rewrite Hsp).
  unfold done_op, op_dirs in HQ. rewrite Ht in HQ. unfold is_file_op, is_skip in HQ.
  destruct (bool_decide (Action op = ActionSkip)) eqn:Es; reflect_bools.
  { apply wp_ret, HQ; [apply evolves_refl|]. by rewrite Es. }
  destruct (bool_decide (Action op = ActionMkdir)) eqn:Em; reflect_bools.
  { apply wp_bind. eapply wp_applyMkdir; try done. intros w' r He Hr.
    assert (He' : evolves (op_paths dr op) (above (dr ++ cs ++ [c])) (view w) (view w'))
      by (eapply evolves_mono; [| |exact He]; done).
    destruct r as [[]|e|]; [apply wp_ret, HQ; [done|]| |done].
    - by rewrite Em.
    - apply HQ; [done|]. by rewrite Em. }
  destruct (bool_decide (Action op = ActionCopy) || _) eqn:Ef; [|by apply wp_throw].
  apply wp_bind. eapply wp_applyFile; try done. intros w' r He Hr.
  assert (He' : evolves (op_paths dr op) (above (dr ++ cs ++ [c])) (view w) (view w')).
  { eapply evolves_mono; [| |exact He].
    - intros q Hq. split; [done|]. by exists cs, c.
    - intros q Hq. cbn. etrans; [exact Hq|]. rewrite app_assoc. by apply prefix_app_r. }
  destruct r as [n|e|]; [apply wp_ret| |done]; apply HQ; auto. destruct Hr as [Hr _]. by split_and!.
Qed.

(** The paths and directories of a list of operations. *)
Definition plan_paths (dr : list bytes) (ops : list Op) (q : list bytes) : Prop := Exists (fun op => op_paths dr op q) ops.
Definition plan_dirs (dr : list bytes) (ops : list Op) (q : list bytes) : Prop := Exists (fun op => op_dirs dr op q) ops.

(** The name of the operation's target is not a temporary one. *)
Definition untemp (op : Op) : Prop := forall cs c, Split (Rel op) = cs ++ [c] -> is_temp c = false.

Lemma usable_untemp v sr dr op : usable v sr dr op -> untemp op.
Proof. intros Hu cs c Hs. by destruct (Hu _ _ Hs) as (_ & _ & ?). Qed.

Lemma usable_evolves X D v v' sr dr op : evolves X D v v' -> usable v sr dr op -> usable v' sr dr op.
Proof.
  intros He Hu cs c Hs. destruct (Hu _ _ Hs) as (H1 & H2 & H3). split_and!; [..|done]; by eapply evolves_nolink.
Qed.

(** Operations at other paths leave an operation's target alone, except for a
    directory created where there was nothing. *)
Lemma target_stable v v' dr op ops :
  untemp op ->
  (forall o, o ∈ ops -> is_file_op o = true -> Split (Rel o) <> Split (Rel op)) ->
  evolves (plan_paths dr ops) (plan_dirs dr ops) v v' ->
  v' !! target dr op = v !! target dr op \/
  (v !! target dr op = None /\ exists m, v' !! target dr op = Some (NDir m)).
Proof.
  intros Hu Hne He. destruct (exists_last (Split_nonempty (Rel op))) as (cs & c & Hs). pose proof (Hu _ _ Hs) as Ht.
  destruct (He (target dr op)) as [[->|[Hx|(Hx & _ & Hm)]] _]; [by left|exfalso|by right].
  apply Exists_exists in Hx as (op' & Hin & Hf' & cs' & c' & Hs' & Hx). unfold target in Hx. rewrite Hs in Hx.
  destruct Hx as [Hx|(t & Hx & Ht')].
  - rewrite <- app_assoc in Hx. apply app_inv_head in Hx. apply (Hne op'); [done..|congruence].
  - rewrite app_assoc in Hx. apply app_inj_2 in Hx as [_ [= ->]]; [congruence|done].
Qed.

(** [done_op] where directories only matter for the operations in [C]. *)
Definition done_where (C : Op -> Prop) (dr : list bytes) (v : tree) (op : Op) : Prop :=
  (Action op = ActionMkdir -> C op -> exists m, v !! target dr op = Some (NDir m)) /\
  (is_file_op op = true -> published op (target dr op) v).

Lemma done_everywhere dr v op : done_op dr v op <-> done_where (fun _ => True) dr v op.
Proof. unfold done_op, done_where. naive_solver. Qed.

(** What an operation established lasts over operations at other paths. *)
Definition lasting (dr : list bytes) (good : tree -> Op -> Prop) : Prop :=
  (forall op ops v v', untemp op -> (forall o, o ∈ ops -> is_file_op o = true -> Split (Rel o) <> Split (Rel op)) ->
     evolves (plan_paths dr ops) (plan_dirs dr ops) v v' -> good v op -> good v' op) /\
  (forall v op, good v op -> is_file_op op = true -> published op (target dr op) v).

Lemma done_where_lasting C dr : lasting dr (done_where C dr).
Proof.
  split; [|by intros v op [_ ?]]. intros op ops v v' Hu Hne He [H1 H2].
  destruct (target_stable _ _ _ _ _ Hu Hne He) as [E|[E [m Hm]]]; split.
  - intros Ha Hc. rewrite E. by apply H1.
  - intros (d & Hd & Hg)%H2. exists d. by rewrite E.
  - eauto.
  - intros (d & Hd & _)%H2. congruence.
Qed.

Lemma done_op_lasting dr : lasting dr (done_op dr).
Proof.
  destruct (done_where_lasting (fun _ => True) dr) as [H1 H2]. split.
  - intros op ops v v' Hu Hne He. rewrite !done_everywhere. by apply (H1 op ops).
  - intros v op Hd%done_everywhere. by apply H2.
Qed.

Lemma done_op_stable dr op ops v v' :
  untemp op ->
  (forall o, o ∈ ops -> is_file_op o = true -> Split (Rel o) <> Split (Rel op)) ->
  evolves (plan_paths dr ops) (plan_dirs dr ops) v v' -> done_op dr v op -> done_op dr v' op.
Proof. apply done_op_lasting. Qed.

(** A callback that leaves the tree alone. *)
Definition quiet (opts : ApplyOptions W) : Prop :=
  forall f, OnOpComplete opts = Some f ->
  forall i op b w w' r, f i op b w = (w', r) -> view w' = view w /\ r <> Panic.

(** What a file operation's target may hold after a run that stopped anywhere. *)
Definition intact (dr : list bytes) (v v' : tree) (op : Op) : Prop :=
  is_file_op op = true ->
  v' !! target dr op = v !! target dr op \/ published op (target dr op) v' \/
  (v !! target dr op = None /\ exists m, v' !! target dr op = Some (NDir m)).

Definition counts (ops : list Op) (out out' : ApplyResult) : Prop :=
  Completed out' = Completed (count_prior ops out) /\ Skipped out' = Skipped (count_prior ops out).

Lemma count_prior_app a b out : count_prior (a ++ b) out = count_prior b (count_prior a out).
Proof. revert out. induction a as [|op a IH]; intros out; cbn [app count_prior]; [done|]. apply IH. Qed.

Lemma count_prior_counters ops out out' :
  Completed out = Completed out' -> Skipped out = Skipped out' -> counts ops out (count_prior ops out').
Proof.
  revert out out'. induction ops as [|op ops IH]; intros out out' H1 H2; unfold counts; cbn [count_prior]; [done|].
  apply IH; destruct (is_skip op); cbn; lia.
Qed.

Definition ran (good : tree -> Op -> Prop) (dr : list bytes) (ops : list Op) (v v' : tree) (out out' : ApplyResult) (err : option Error) : Prop :=
  evolves (plan_paths dr ops) (plan_dirs dr ops) v v' /\
  Forall (intact dr v v') ops /\
  (err = None -> Forall (fun op => validateRel (Rel op) = Ok tt /\ good v' op) ops /\ counts ops out out' /\
                 AErrors out' = AErrors out).

Lemma distinct_head op ops :
  NoDup (map (fun o => Split (Rel o)) (op :: ops)) -> forall o, o ∈ ops -> Split (Rel op) <> Split (Rel o).
Proof. intros [Hn _]%NoDup_cons o Ho E. apply Hn. rewrite E. apply list_elem_of_fmap. by exists o. Qed.

(** A run that stopped at its first operation. *)
Lemma ran_stop good dr op ops v v' out out' e :
  Forall untemp (op :: ops) -> NoDup (map (fun o => Split (Rel o)) (op :: ops)) ->
  evolves (op_paths dr op) (op_dirs dr op) v v' -> intact dr v v' op ->
  ran good dr (op :: ops) v v' out out' (Some e).
Proof.
  intros [_ Hu]%Forall_cons Hnd He Hi. pose proof (distinct_head _ _ Hnd) as Hd. clear Hnd. rename Hd into Hnd.
  assert (He1 : evolves (plan_paths dr [op]) (plan_dirs dr [op]) v v').
  { eapply evolves_mono; [| |exact He]; intros; by apply Exists_cons_hd. }
  split; [|split; [|done]].
  - eapply evolves_mono; [| |exact He]; intros; by apply Exists_cons_hd.
  - constructor; [done|]. apply Forall_forall. intros o Ho _. rewrite Forall_forall in Hu.
    destruct (target_stable v v' dr o [op]) as [?|?]; [by apply Hu| |done|by left|by right; right].
    intros o' ->%list_elem_of_singleton _ E. by apply (Hnd o).
Qed.

(** A run that completed its first operation and went on. *)
Lemma ran_step good dr op ops v v1 v' out out1 out' err :
  lasting dr good -> Forall untemp (op :: ops) -> NoDup (map (fun o => Split (Rel o)) (op :: ops)) ->
  evolves (op_paths dr op) (op_dirs dr op) v v1 -> validateRel (Rel op) = Ok tt -> good v1 op ->
  counts [op] out out1 -> AErrors out1 = AErrors out ->
  ran good dr ops v1 v' out1 out' err -> ran good dr (op :: ops) v v' out out' err.
Proof.
  intros [Hst Hpub] Hu Hnd He1 Hval Hdone Hc1 Hae (He & Hint & Hok). pose proof (distinct_head _ _ Hnd) as Hnd1.
  apply Forall_cons in Hu as [Hu1 Hu2]. rewrite Forall_forall in Hu2.
  assert (Hop : good v' op) by (apply (Hst op ops v1); try done; intros o Ho _ E; by apply (Hnd1 o)).
  split; [|split].
  - eapply evolves_trans; [eapply evolves_mono; [| |exact He1]|eapply evolves_mono; [| |exact He]]; intros; by constructor.
  - constructor; [intros Hf; right; left; by apply Hpub|].
    apply Forall_forall. intros o Ho Hf. rewrite Forall_forall in Hint.
    destruct (target_stable v v1 dr o [op]) as [E|[E1 [m E2']]]; [by apply Hu2| | |..].
    + intros o' ->%list_elem_of_singleton _ E. by apply (Hnd1 o).
    + eapply evolves_mono; [| |exact He1]; intros; by apply Exists_cons_hd.
    + rewrite <- E. by apply Hint.
    + destruct (Hint o Ho Hf) as [->|[?|[? _]]]; [by eauto|by auto|congruence].
  - intros ->. destruct (Hok eq_refl) as (Hd & Hc & Her). split; [by constructor|]. split; [|congruence].
    destruct Hc as [Hc2 Hc3], Hc1 as [Hc4 Hc5]. unfold counts in *. rewrite Hc2, Hc3. cbn [count_prior] in *.
    by apply count_prior_counters.
Qed.

Lemma Split_inj a b : Split a = Split b -> a = b.
Proof.
  unfold Split. intros E%(f_equal PathGrammar.join_slash). by rewrite !PathGrammar.split_loop_inv in E.
Qed.

Lemma distinct_Split ops : NoDup (map Rel ops) -> NoDup (map (fun o => Split (Rel o)) ops).
Proof.
  intros Hnd. rewrite <- (map_map Rel Split). apply NoDup_fmap_2; [|done]. intros a b. apply Split_inj.
Qed.

Lemma counts_one op out b n :
  counts [op] out (mkApplied (if is_skip op then Completed out else Completed out + 1)
                     (if is_skip op then Skipped out + 1 else Skipped out) b n).
Proof. unfold counts. cbn [count_prior]. by destruct (is_skip op). Qed.

(** The loop on any world with a tree, for any way to run an operation that keeps to its
    paths; [fit] is what operations need of the world, [good] what a completed one has
    established. *)
Section LoopLaws.
Context {V : Type} (look : V -> tree) (fit : V -> Prop) (good : tree -> Op -> Prop).

Definition silent (opts : ApplyOptions V) : Prop :=
  forall f, OnOpComplete opts = Some f ->
  forall i op b w w' r, f i op b w = (w', r) -> look w' = look w /\ (fit w -> fit w') /\ r <> Panic.

(** An operation that ran, to its end or not. *)
Definition ran_op (dr : list bytes) (op : Op) (w w' : V) (r : res Error (Z * bool)) : Prop :=
  fit w' /\ evolves (op_paths dr op) (op_dirs dr op) (look w) (look w') /\
  match r with
  | Ok (_, sk) => validateRel (Rel op) = Ok tt /\ sk = is_skip op /\ good (look w') op
  | Err _ => is_file_op op = true ->
      look w' !! target dr op = look w !! target dr op \/ published op (target dr op) (look w')
  | Panic => False
  end.

Lemma wp_apply_loop (run : Op -> io V Error (Z * bool)) dr opts i ops out (Q : V -> res Error (ApplyResult * option Error) -> Prop) w :
  lasting dr good -> silent opts -> (forall op w, op ∈ ops -> fit w -> wp (run op) (ran_op dr op w) w) -> fit w ->
  Forall untemp ops -> NoDup (map (fun o => Split (Rel o)) ops) ->
  (forall w' out' err, fit w' -> ran good dr ops (look w) (look w') out out' err -> Q w' (Ok (out', err))) ->
  wp (apply_loop run opts i ops out) Q w.
Proof.
  intros Hgood Hq Hrun. revert i out w. induction ops as [|op ops IH]; intros i out w Hf Hu Hnd HQ; cbn [apply_loop].
  { apply wp_ret, HQ; [done|]. split; [apply evolves_refl|]. by split. }
  apply wp_bind, wp_try. eapply wp_mono; [apply Hrun; [left|done]|]. intros w1 r1 (Hf1 & He1 & Hr1).
  destruct r1 as [[n sk]|e|]; [..|done]; cycle 1.
  { apply wp_ret, HQ; [done|]. eapply ran_stop; try done. intros Hfile. destruct (Hr1 Hfile); auto. }
  destruct Hr1 as (Hval1 & -> & Hdone1). apply wp_bind, wp_try_any.
  set (cb := match OnOpComplete opts with Some f => _ | None => _ end). intros w2 r2 E2.
  assert (look w2 = look w1 /\ (fit w1 -> fit w2) /\ r2 <> Panic) as (Hv2 & Hf2 & Hr2).
  { unfold cb in E2. destruct (OnOpComplete opts) as [f|] eqn:Ef; [by apply (Hq f Ef) in E2|]. by injection E2 as <- <-. }
  split; [done|]. intros [[]|e]; cycle 1.
  { apply wp_ret, HQ; [by apply Hf2|]. rewrite Hv2. eapply ran_stop; try done. intros Hfile. right; left. by apply Hgood. }
  apply IH; [intros; apply Hrun; [by right|done]|by apply Hf2|by apply Forall_cons in Hu as [_ ?]|by apply NoDup_cons in Hnd as [_ ?]|].
  intros w' out' err Hf' Hran. apply HQ; [done|]. rewrite Hv2 in Hran.
  eapply ran_step; [done|done|done|exact He1|done|done| | |exact Hran]; [apply counts_one|done].
Qed.

(** From the start that the options name. *)
Lemma wp_apply_from (run : Op -> io V Error (Z * bool)) dr plan opts (Q : V -> res Error (ApplyResult * option Error) -> Prop) w :
  let ops := drop (Z.to_nat (StartAt opts)) (Ops plan) in
  lasting dr good -> silent opts -> (forall op w, op ∈ ops -> fit w -> wp (run op) (ran_op dr op w) w) -> fit w ->
  Forall untemp (Ops plan) -> NoDup (map Rel (Ops plan)) ->
  (forall w' out err, fit w' -> evolves (plan_paths dr ops) (plan_dirs dr ops) (look w) (look w') ->
     Forall (intact dr (look w) (look w')) ops ->
     (err = None -> Forall (fun op => validateRel (Rel op) = Ok tt /\ good (look w') op) ops /\
        (CountPrior opts = true \/ StartAt opts = 0 -> counts (Ops plan) emptyApplied out)) ->
     Q w' (Ok (out, err))) ->
  wp (apply_from run plan opts) Q w.
Proof.
  intros ops Hgood Hq Hrun Hf Hu Hnd HQ. apply (wp_apply_loop _ dr); [done|done|done|done|by apply Forall_drop| |].
  { apply distinct_Split. rewrite fmap_drop. by apply (sublist_NoDup _ (map Rel (Ops plan))), sublist_drop. }
  intros w' out err Hf' (He & Hint & Hok). apply HQ; [done..|]. intros ->. destruct (Hok eq_refl) as (Hd & [Hc1 Hc2] & _).
  split; [done|]. intros Hcp.
  assert (Hx : (if CountPrior opts then count_prior (take (Z.to_nat (StartAt opts)) (Ops plan)) emptyApplied
                else emptyApplied) = count_prior (take (Z.to_nat (StartAt opts)) (Ops plan)) emptyApplied).
  { destruct (CountPrior opts); [done|]. destruct Hcp as [?|Hz]; [done|]. by rewrite Hz. }
  unfold start_result in Hc1, Hc2. rewrite Hx in Hc1, Hc2. unfold counts. rewrite Hc1, Hc2.
  pose proof (count_prior_app (take (Z.to_nat (StartAt opts)) (Ops plan)) ops emptyApplied) as Ha.
  unfold ops in Ha at 1. rewrite take_drop in Ha. rewrite Ha. by apply count_prior_counters.
Qed.

End LoopLaws.

(** The usual situation: absolute roots, no symbolic link on the way to the
    operations' parents, distinct paths, no temporary names in the plan, and no
    fault-injection hooks. *)
Definition applicable (w : W) (sr dr : list bytes) (ops : list Op) : Prop :=
  Forall plain sr /\ Forall plain dr /\ nolink (view w) dr /\
  Forall (usable (view w) sr dr) ops /\ NoDup (map Rel ops).

Lemma usable_keeps_fit sr dr ops op w w' r :
  Forall (usable (view w) sr dr) ops -> evolves (op_paths dr op) (op_dirs dr op) (view w) (view w') ->
  match r with
  | Ok (_, sk) => validateRel (Rel op) = Ok tt /\ sk = is_skip op /\ done_op dr (view w') op
  | Err _ => is_file_op op = true -> view w' !! target dr op = view w !! target dr op \/ published op (target dr op) (view w')
  | Panic => False
  end -> ran_op view (fun w => Forall (usable (view w) sr dr) ops) (done_op dr) dr op w w' r.
Proof. intros Hu He Hr. split; [|done]. eapply Forall_impl; [exact Hu|]. intros o. by eapply usable_evolves. Qed.

Lemma wp_ApplyWith sr dr plan opts (Q : W -> res Error (ApplyResult * option Error) -> Prop) w :
  Hooks opts = None -> quiet opts -> applicable w sr dr (Ops plan) ->
  let ops := drop (Z.to_nat (StartAt opts)) (Ops plan) in
  (forall w' out err, evolves (plan_paths dr ops) (fun q => q `prefix_of` dr \/ plan_dirs dr ops q) (view w) (view w') ->
     Forall (intact dr (view w) (view w')) ops ->
     (err = None -> 0 <= StartAt opts <= len (Ops plan) /\
        Forall (fun op => validateRel (Rel op) = Ok tt /\ done_op dr (view w') op) ops /\
        (CountPrior opts = true \/ StartAt opts = 0 -> counts (Ops plan) emptyApplied out)) ->
     Q w' (Ok (out, err))) ->
  wp (ApplyWith (mkRoots (native sr) (native dr)) plan opts) Q w.
Proof.
  intros Hh Hq (Hsr & Hdr & Hld & Hu & Hnd) ops HQ. unfold ApplyWith. cbv zeta.
  assert (Hstop : forall out e, Q w (Ok (out, Some e))).
  { intros out e. apply HQ; [apply evolves_refl| |done]. apply Forall_forall. intros o _ _. by left. }
  do 3 (case_if; [by apply wp_ret|]). apply wp_bind, wp_try, wp_call. cbn [RDestination]. intros w1 r1 E1.
  apply mkdirall_spec in E1 as [Hcr Hr1]; [|done..].
  assert (He1 : evolves (fun _ => False) (above dr) (view w) (view w1)) by (by eapply evolves_created).
  assert (Hint1 : Forall (fun o => view w1 !! target dr o = view w !! target dr o) ops).
  { apply Forall_forall. intros o Ho. destruct (Hcr (target dr o)) as [?|(_ & Hp & _)]; [done|].
    apply prefix_length in Hp. unfold target in Hp. rewrite length_app in Hp.
    pose proof (Split_nonempty (Rel o)). destruct (Split (Rel o)); [done|]. cbn in Hp. lia. }
  destruct r1 as [[]|e|]; [..|done]; cycle 1.
  { apply wp_ret, HQ; [| |done].
    - eapply evolves_mono; [| |exact He1]; [done|]. auto.
    - eapply Forall_impl; [exact Hint1|]. intros o Ho _. by left. }
  rewrite Hh. apply (wp_apply_from view (fun w => Forall (usable (view w) sr dr) (Ops plan)) (done_op dr) _ dr).
  { apply done_op_lasting. }
  { intros f Ef i op b w2 w3 r E. apply (Hq f Ef) in E as [-> ?]. done. }
  { intros op w2 Hop Hf. apply wp_apply_op; [done..| |].
    - rewrite Forall_forall in Hf. by eapply Hf, subseteq_drop.
    - intros w3 r. by apply usable_keeps_fit. }
  { eapply Forall_impl; [exact Hu|]. intros o. by eapply usable_evolves. }
  { eapply Forall_impl; [exact Hu|]. intros o. apply usable_untemp. }
  { done. }
  intros w' out err _ He Hint Hok. apply HQ.
  - eapply evolves_trans; [eapply evolves_mono; [| |exact He1]|eapply evolves_mono; [| |exact He]]; auto; done.
  - rewrite Forall_forall in Hint, Hint1 |- *. intros o Ho Hf. rewrite <- (Hint1 o Ho). by apply Hint.
  - intros ->. reflect_bools. split; [lia|]. by apply Hok.
Qed.

Lemma plan_paths_under dr ops q : plan_paths dr ops q -> dr `prefix_of` q.
Proof.
  intros (op & _ & _ & cs & c & _ & Hq)%Exists_exists. destruct Hq as [->|(t & -> & _)];
    rewrite <- app_assoc; by apply prefix_app_r.
Qed.

Lemma plan_dirs_near dr ops q : plan_dirs dr ops q -> q `prefix_of` dr \/ dr `prefix_of` q.
Proof.
  intros (op & _ & Hq)%Exists_exists. unfold op_dirs, target in Hq.
  by apply (prefix_weak_total q dr (dr ++ Split (Rel op))); [|apply prefix_app_r].
Qed.

(** C11. Applying a plan that is [applicable] (no link on the way to the root, a source or
    a target, no temporary names, distinct paths), without hooks, is confined and never
    leaves a partial file, whatever fails and wherever it stops.  Nothing outside the destination root changes,
    apart from missing directories above it: in particular the source is never
    written.  Every file target holds what it held before, or the complete
    planned content, or a directory where there was nothing. *)
Theorem ApplyWith_safe sr dr plan opts w w' r :
  Hooks opts = None -> quiet opts -> applicable w sr dr (Ops plan) ->
  ApplyWith (mkRoots (native sr) (native dr)) plan opts w = (w', r) ->
  (exists out err, r = Ok (out, err)) /\
  (forall q, ~ dr `prefix_of` q ->
     view w' !! q = view w !! q \/
     (view w !! q = None /\ q `prefix_of` dr /\ exists m, view w' !! q = Some (NDir m))) /\
  Forall (intact dr (view w) (view w')) (drop (Z.to_nat (StartAt opts)) (Ops plan)).
Proof.
  intros Hh Hq Ha E. pattern w', r. eapply wp_run; [|exact E]. clear E r w'.
  apply wp_ApplyWith; [done..|]. intros w' out err He Hi _. split; [by eauto|]. split; [|done].
  intros q Hn. destruct (He q) as [[?|[Hx%plan_paths_under|(Hx & Hd & Hm)]] _]; [by left|done|].
  right. destruct Hd as [?|[?|?]%plan_dirs_near]; [by auto..|done].
Qed.

(** A run that reports no error has done every operation of the plan from
    its starting point: each directory exists, each copied or replaced file holds
    content with the planned digest and mode, and the counters add up to the
    whole plan. *)
Lemma ApplyWith_complete sr dr plan opts w w' out :
  Hooks opts = None -> quiet opts -> applicable w sr dr (Ops plan) ->
  ApplyWith (mkRoots (native sr) (native dr)) plan opts w = (w', Ok (out, None)) ->
  0 <= StartAt opts <= len (Ops plan) /\
  Forall (fun op => validateRel (Rel op) = Ok tt /\
    (Action op = ActionMkdir -> exists m, view w' !! (dr ++ Split (Rel op)) = Some (NDir m)) /\
    (Action op = ActionCopy \/ Action op = ActionReplace ->
       exists d, view w' !! (dr ++ Split (Rel op)) = Some (NFile (file_mode op) d) /\
         digestFromHex (ExpectedDigestHex op) = Ok (SHA256 d)))
    (drop (Z.to_nat (StartAt opts)) (Ops plan)) /\
  (CountPrior opts = true \/ StartAt opts = 0 -> counts (Ops plan) emptyApplied out).
Proof.
  intros Hh Hq Ha E. remember (Ok (out, None)) as r eqn:Er. revert out Er. pattern w', r.
  eapply wp_run; [|exact E]. clear E r w'. apply wp_ApplyWith; [done..|]. intros w1 out1 err _ _ Hok out' [= <- ->].
  destruct (Hok eq_refl) as (H1 & H2 & H3). split; [done|]. split; [|done].
  eapply Forall_impl; [exact H2|]. intros op (Hv & Hm & Hf). split; [done|]. split; [done|].
  intros Hact. apply Hf. unfold is_file_op. destruct Hact as [->| ->]; [done|]. by rewrite orb_true_r.
Qed.

End Laws.

(** ** Runs *)

Definition demo_data : bytes := str "hello".
Definition demo_op (name : string) : Op :=
  mkOp ActionCopy (str name) ReasonMissing 5 0x1A4 (hex_encode (SHA256 demo_data)) (str "absent") (str "file").
Definition demo_tree (names : list string) : tree :=
  list_to_map ([([str "s"], NDir 0x1ED); ([str "d"], NDir 0x1ED)] ++
    map (fun n => ([str "s"; str n], NFile 0x1A4 demo_data)) names).
Definition demo_roots : Roots := mkRoots (native [str "s"]) (native [str "d"]).
Definition demo_plan (names : list string) : Plan := mkPlan [] [] (map demo_op names).
Definition demo_fs (names : list string) (faults : list (option errno)) : MemFS := mkMemFS (demo_tree names) faults 7.

Example apply_demo :
  let '(w, r) := Apply demo_roots (demo_plan ["a"; "b"]) None (demo_fs ["a"; "b"] []) in
  r = Ok (mkApplied 2 0 10 [], None) /\
  (nodes w !! [str "d"; str "a"] = Some (NFile 0x1A4 demo_data)).
Proof. vm_compute. split; reflexivity. Qed.

(** A synchronized file whose name looks like a temporary file of the
    publisher (".integris.*.tmp") is removed from the destination by the next
    copy into the same directory, and the run still reports it as completed. *)
Lemma temp_named_file_lost :
  let names := [".integris.notes.tmp"; "b"]%string in
  let '(w, r) := Apply demo_roots (demo_plan names) None (demo_fs names []) in
  r = Ok (mkApplied 2 0 10 [], None) /\
  nodes w !! [str "d"; str ".integris.notes.tmp"] = None /\
  nodes w !! [str "d"; str "b"] = Some (NFile 0x1A4 demo_data).
Proof. vm_compute. split; [|split]; reflexivity. Qed.

#[local] Instance node_eq_dec : EqDecision node.
Proof. solve_decision. Defined.

Lemma nolink_all v cs : map_Forall (fun _ n => n <> NOther TSymlink) v -> nolink v cs.
Proof. intros H p _ E. by apply (H p _ E). Qed.

Lemma demo_linkfree names cs : nolink (demo_tree names) cs.
Proof.
  apply nolink_all. intros q n Hq%elem_of_list_to_map_2. apply elem_of_app in Hq as [Hq|Hq].
  - repeat (apply elem_of_cons in Hq as [[= -> ->]|Hq]; [done|]). by apply not_elem_of_nil in Hq.
  - apply list_elem_of_fmap in Hq as (x & [= -> ->] & _). done.
Qed.

Lemma demo_plain name : is_ok (validateRel (str name)) = true -> Split (str name) = [str name] -> plain (str name).
Proof.
  intros H E. destruct (validateRel (str name)) as [[]| |] eqn:Ev; try done.
  apply validateRel_inv in Ev as (cs & Hn & Hp & Hs). destruct cs as [|c cs]; [done|].
  assert (E' : Split (str name) = c :: cs) by (rewrite Hs; by apply Split_join).
  rewrite E in E'. injection E' as -> <-. by apply Forall_cons in Hp as [? _].
Qed.

Lemma demo_root name :
  is_ok (validateRel (str name)) && bool_decide (Split (str name) = [str name]) = true -> Forall plain [str name].
Proof. intros [H1 H2%bool_decide_eq_true]%andb_true_iff. by apply Forall_singleton, demo_plain. Qed.

Lemma demo_applicable faults :
  applicable (demo_fs ["a"; "b"] faults) [str "s"] [str "d"] (Ops (demo_plan ["a"; "b"])).
Proof.
  split; [apply demo_root; vm_compute; reflexivity|]. split; [apply demo_root; vm_compute; reflexivity|].
  split; [apply demo_linkfree|]. split.
  - repeat apply Forall_cons_2; try apply Forall_nil_2; intros cs c E; (split; [apply demo_linkfree|]); (split; [apply demo_linkfree|]);
      vm_compute in E; destruct cs as [|x [|y cs]]; try discriminate E; injection E as <-; vm_compute; reflexivity.
  - by apply (bool_decide_eq_true_1 (NoDup _)); vm_compute.
Qed.

Definition demo_opts : ApplyOptions MemFS := mkApplyOptions None 0 false 0 None.

(** A run that is cut by a full disk while the second file is copied. *)
Definition demo_faults : list (option errno) := replicate 24 None ++ [Some ENOSPC].

Lemma joinUnder_contained_witness :
  Forall plain [str "d"] /\
  ((joinUnder (native [str "d"]) (str "x/y") = [] /\ is_ok (validateRel (str "x/y")) = false) \/
   (exists cs, cs <> [] /\ Forall plain cs /\ str "x/y" = PathGrammar.join_slash cs /\
      joinUnder (native [str "d"]) (str "x/y") = native ([str "d"] ++ cs) /\ validateRel (str "x/y") = Ok tt)).
Proof.
  assert (H : Forall plain [str "d"]) by (apply demo_root; vm_compute; reflexivity).
  split; [exact H|]. exact (joinUnder_contained [str "d"] (str "x/y") H).
Defined.

Lemma ApplyWith_safe_witness :
  exists w' r, ApplyWith demo_roots (demo_plan ["a"; "b"]) demo_opts (demo_fs ["a"; "b"] demo_faults) = (w', r) /\
    Forall (intact [str "d"] (demo_tree ["a"; "b"]) (nodes w')) (Ops (demo_plan ["a"; "b"])).
Proof.
  destruct (ApplyWith demo_roots (demo_plan ["a"; "b"]) demo_opts (demo_fs ["a"; "b"] demo_faults)) as [w' r] eqn:E.
  exists w', r. split; [reflexivity|].
  assert (Hq : quiet demo_opts) by discriminate.
  exact (proj2 (proj2 (ApplyWith_safe [str "s"] [str "d"] (demo_plan ["a"; "b"]) demo_opts _ w' r eq_refl Hq
    (demo_applicable demo_faults) E))).
Defined.

Lemma ApplyWith_complete_witness :
  exists w', ApplyWith demo_roots (demo_plan ["a"; "b"]) demo_opts (demo_fs ["a"; "b"] []) =
      (w', Ok (mkApplied 2 0 10 [], None)) /\
    counts (Ops (demo_plan ["a"; "b"])) emptyApplied (mkApplied 2 0 10 []).
Proof.
  assert (Hr : (ApplyWith demo_roots (demo_plan ["a"; "b"]) demo_opts (demo_fs ["a"; "b"] [])).2 =
    Ok (mkApplied 2 0 10 [], None)) by (vm_compute; reflexivity).
  destruct (ApplyWith demo_roots (demo_plan ["a"; "b"]) demo_opts (demo_fs ["a"; "b"] [])) as [w' r] eqn:E.
  cbn [snd] in Hr. subst r. exists w'. split; [reflexivity|].
  assert (Hq : quiet demo_opts) by discriminate.
  exact (proj2 (proj2 (ApplyWith_complete [str "s"] [str "d"] (demo_plan ["a"; "b"]) demo_opts _ w' _
    eq_refl Hq (demo_applicable []) E)) (or_intror eq_refl)).
Defined.

Lemma applyFile_atomic_witness :
  exists w', applyFile demo_roots (demo_op "a") None (demo_fs ["a"] []) = (w', Ok 5) /\
    exists d, nodes w' !! [str "d"; str "a"] = Some (NFile (file_mode (demo_op "a")) d) /\
      digestFromHex (ExpectedDigestHex (demo_op "a")) = Ok (SHA256 d) /\ 5 = len d.
Proof.
  assert (Hr : (applyFile demo_roots (demo_op "a") None (demo_fs ["a"] [])).2 = Ok 5) by (vm_compute; reflexivity).
  destruct (applyFile demo_roots (demo_op "a") None (demo_fs ["a"] [])) as [w' r] eqn:E. cbn [snd] in Hr. subst r.
  exists w'. split; [reflexivity|].
  refine (proj2 (applyFile_atomic [str "s"] [str "d"] [] (str "a") (demo_op "a") _ w' (Ok 5) _ _ _ _ _ _ _ _ E)).
  1-3: apply demo_root; vm_compute; reflexivity.
  1-2: vm_compute; reflexivity.
  1-2: apply demo_linkfree.
  vm_compute; reflexivity.
Defined.

End LocalApply.
