(* ===== verification/LocalScan.v ===== *)
(** * Scanning and roots (internal/localsync: scan.go, roots.go, meta.go)

    [Scan] walks a directory tree without following symbolic links and returns
    its sorted manifest; [ResolveRoots] checks the two roots of a
    synchronization.  A scan that succeeds lists exactly the directories and
    files below its root, without the metadata directory, and accepted roots
    are distinct directories of which neither lies inside the other, the
    staging area excepted.  The walk needs fuel for one level of depth: the path
    grammar refuses more than 1024 components, so [scan_fuel] levels are enough
    and the walk never runs out. *)

From stdpp Require Import gmap.
From S2P Require Import Prelude Sha256 Sorting Codec Journal PathGrammar FilePath FileSystem.
From S2P Require Import LocalPayload LocalPlan LocalApply.
Import Sorting Codec FilePath FileSystem LocalPayload LocalPlan LocalApply.

Module LocalScan.

(** ** Metadata (meta.go) *)

Definition MetaDirName : bytes := str ".integris".

Definition isMetaRel (rel : bytes) : bool :=
  bool_decide (rel = MetaDirName) || HasPrefix rel (MetaDirName ++ str "/").

(** ** The walk (scan.go) *)

Section Scan.
Context {W : Type} `{FileSystem W}.
Abbreviation IO := (io W Error).

(** The callback on one entry of a directory; [descend] walks a directory. *)
Definition visit (descend : bytes -> list Entry -> IO (list Entry)) (root path name : bytes)
    (acc : list Entry) : IO (list Entry) :=
  let child := Join path name in
  match FilePath.Rel root child with
  | None => throw (classify KindInternal "scan" [])
  | Some rel =>
      if bool_decide (rel = str ".") || bool_decide (rel = []) then ret acc
      else if escapes rel then throw (pathUnsafe "scan")
      else if isMetaRel rel then ret acc
      else
      let* _ := lift (map_err (fun _ => classify KindPathUnsafe "scan" rel)
                        (PathGrammar.ValidateJoined rel PathGrammar.DefaultProfile)) in
      let* i := or_fail (Lstat child) (fun e => wrap KindRead "scan" rel (OSError e)) in
      match FileSystem.FType i with
      | TSymlink | TPipe | TSocket | TDevice | TIrregular => throw (unsupported "scan" rel)
      | TDir => descend child (acc ++ [mkEntry rel EntryDir 0 (FPerm i) (zeros 32) false])
      | TRegular =>
          let* (dig, size) := or_fail (HashFile child) (wrap KindRead "scan" rel) in
          ret (acc ++ [mkEntry rel EntryFile size (FPerm i) dig true])
      end
  end.

Fixpoint visit_all (descend : bytes -> list Entry -> IO (list Entry)) (root path : bytes)
    (names : list bytes) (acc : list Entry) : IO (list Entry) :=
  match names with
  | [] => ret acc
  | name :: names =>
      let* acc := visit descend root path name acc in
      visit_all descend root path names acc
  end.

(** [filepath.WalkDir] below a directory. *)
Fixpoint walk (fuel : nat) (root path : bytes) (acc : list Entry) : IO (list Entry) :=
  match fuel with
  | O => lift Panic
  | S fuel =>
      let* names := or_fail (ReadDir path) (fun e => wrap KindRead "scan" [] (OSError e)) in
      visit_all (walk fuel root) root path names acc
  end.

Definition scan_fuel : nat := 1026.

Definition Scan (root : bytes) : IO Manifest :=
  let* info := or_fail (Lstat root) (fun e => wrap KindRead "scan" [] (OSError e)) in
  if bool_decide (FileSystem.FType info = TSymlink) then throw (pathUnsafe "scan")
  else if negb (bool_decide (FileSystem.FType info = TDir)) then throw (invalidArg "scan")
  else
  let* entries := walk scan_fuel root root [] in
  ret (mkManifest root (sort_key ERel bytes_Compare entries)).

End Scan.

(** ** Roots (roots.go) *)

(** [unicode.IsSpace]. *)
Definition is_space (r : Z) : bool :=
  ((9 <=? r) && (r <=? 13)) || (r =? 32) || (r =? 0x85) || (r =? 0xA0) || (r =? 0x1680) ||
  ((0x2000 <=? r) && (r <=? 0x200a)) || (r =? 0x2028) || (r =? 0x2029) || (r =? 0x202f) ||
  (r =? 0x205f) || (r =? 0x3000).

(** [strings.TrimSpace(s) == ""]. *)
Fixpoint blank_loop (fuel : nat) (s : bytes) : bool :=
  match fuel, s with
  | _, [] => true
  | O, _ => false
  | S fuel, _ =>
      let '(r, n) := PathGrammar.DecodeRune s in
      is_space r && blank_loop fuel (drop (Z.to_nat n) s)
  end.
Definition blank (s : bytes) : bool := blank_loop (length s) s.

(** [filepath.Abs] in the working directory [cwd], cleaned. *)
Definition absClean (cwd p : bytes) : bytes :=
  Clean (if rooted p then Clean p else Join cwd p).

Definition isNested (parent child : bytes) : bool :=
  match FilePath.Rel parent child with
  | None => false
  | Some rel => if bool_decide (rel = str ".") then false else negb (escapes rel)
  end.

Section Roots.
Context {W : Type} `{FileSystem W}.
Abbreviation IO := (io W Error).

Definition ResolveRoots (cwd source destination : bytes) (allowMissingDest : bool) : IO Roots :=
  if blank source then throw (invalidArg "roots") else
  if blank destination then throw (invalidArg "roots") else
  let srcAbs := absClean cwd source in
  let dstAbs := absClean cwd destination in
  if bool_decide (srcAbs = dstAbs) then throw (pathUnsafe "roots") else
  let* srcInfo := or_fail (Lstat srcAbs) (fun e => wrap KindRead "roots" [] (OSError e)) in
  if bool_decide (FileSystem.FType srcInfo = TSymlink) then throw (pathUnsafe "roots") else
  if negb (bool_decide (FileSystem.FType srcInfo = TDir)) then throw (invalidArg "roots") else
  let* dst := try (Lstat dstAbs) in
  let* _ := lift match dst with
    | inr e => if negb (bool_decide (e = ENOENT)) || negb allowMissingDest
               then Err (wrap KindRead "roots" [] (OSError e)) else Ok tt
    | inl i => if bool_decide (FileSystem.FType i = TSymlink) then Err (pathUnsafe "roots")
               else if negb (bool_decide (FileSystem.FType i = TDir)) then Err (invalidArg "roots") else Ok tt
    end in
  if isNested srcAbs dstAbs then throw (pathUnsafe "roots") else
  if isNested dstAbs srcAbs &&
     (let metaAbs := Join dstAbs MetaDirName in
      negb (bool_decide (srcAbs = metaAbs)) && negb (isNested metaAbs srcAbs))
  then throw (pathUnsafe "roots")
  else ret (mkRoots srcAbs dstAbs).

End Roots.

(** ** Cleaned absolute paths *)

Lemma no_slash_iff c : PathGrammar.no_slash c <-> slash ∉ c.
Proof.
  unfold PathGrammar.no_slash. rewrite Forall_forall. split.
  - intros H Hin. by apply (H _ Hin).
  - intros H b Hb E. apply H. assert (b = slash) as -> by (apply byteZ_inj; by rewrite E). done.
Qed.

Lemma Split_no_slash s : Forall PathGrammar.no_slash (Split s).
Proof.
  unfold Split. assert (H : forall cur out, PathGrammar.no_slash cur -> Forall PathGrammar.no_slash out ->
    Forall PathGrammar.no_slash (PathGrammar.split_loop s cur out)); [|apply H; constructor].
  induction s as [|b s IH]; intros cur out Hc Ho; cbn [PathGrammar.split_loop].
  - apply Forall_app. split; [done|]. repeat constructor. by apply Forall_rev.
  - destruct (byteZ b =? 47) eqn:E; reflect_bools; apply IH; try done; [constructor| |by constructor].
    apply Forall_app. split; [done|]. repeat constructor. by apply Forall_rev.
Qed.

Lemma clean_step_rooted stack c :
  PathGrammar.no_slash c -> Forall plain stack -> Forall plain (clean_step true stack c).
Proof.
  intros Hc Hs. unfold clean_step. destruct (_ || _) eqn:E1; [done|]. reflect_bools.
  destruct (bool_decide (c = str "..")) eqn:E2; reflect_bools.
  - destruct stack as [|t st]; [done|]. apply Forall_cons in Hs as [Ht Hs].
    rewrite bool_decide_eq_false_2; [done|]. by destruct Ht as (_ & _ & ? & _).
  - constructor; [|done]. by split_and!.
Qed.

Lemma Clean_rooted s : rooted s = true -> exists cs, Forall plain cs /\ Clean s = native cs.
Proof.
  intros Hr. exists (clean_components s). split; [|unfold Clean; by rewrite Hr].
  unfold clean_components. rewrite Hr. apply Forall_rev. pose proof (Split_no_slash s) as Hs.
  assert (Hn : Forall plain []) by constructor. revert Hn. generalize (@nil bytes).
  induction Hs as [|c l Hc _ IH]; intros st Hst; cbn [fold_left]; [done|]. apply IH. by apply clean_step_rooted.
Qed.

Lemma absClean_native cwd p : rooted cwd = true -> exists cs, Forall plain cs /\ absClean cwd p = native cs.
Proof.
  intros Hc. unfold absClean. destruct (rooted p) eqn:Hp.
  - destruct (Clean_rooted _ Hp) as (cs & Hcs & ->). exists cs. split; [done|]. by apply Clean_native.
  - assert (exists cs, Forall plain cs /\ Join cwd p = native cs) as (cs & Hcs & ->).
    { destruct cwd as [|b cwd]; [done|]. unfold Join.
      apply (Clean_rooted ((b :: cwd) ++ slash :: p)). exact Hc. }
    exists cs. split; [done|]. by apply Clean_native.
Qed.

Lemma strip_common_plain a b r t :
  Forall plain a -> Forall plain b -> strip_common a b = (r, t) -> Forall plain r /\ Forall plain t.
Proof.
  intros Ha Hb (p & -> & ->)%strip_common_spec. apply Forall_app in Ha as [_ ?]. by apply Forall_app in Hb as [_ ?].
Qed.

(** Nesting is a property of the components. *)
Lemma isNested_native p c :
  Forall plain p -> Forall plain c -> isNested (native p) (native c) = true <-> p `prefix_of` c /\ p <> c.
Proof.
  intros Hp Hc. unfold isNested, FilePath.Rel. rewrite !Clean_native by done.
  destruct (bool_decide (native p = native c)) eqn:E; reflect_bools.
  { apply native_inj in E as ->; [|done..]. split; [done|]. by intros [_ []]. }
  rewrite !rooted_native. cbn [Bool.eqb negb]. rewrite !clean_components_native by done.
  destruct (strip_common p c) as [r t] eqn:Es.
  destruct (strip_common_plain _ _ _ _ Hp Hc Es) as [Hr Ht].
  assert (Hhead : bool_decide (head r = Some (str "..")) = false).
  { apply bool_decide_eq_false_2. destruct r as [|x r]; [done|]. intros [= ->].
    apply Forall_cons in Hr as [(_ & _ & ? & _) _]. done. }
  rewrite Hhead. destruct r as [|x r].
  - pose proof (strip_common_spec _ _ _ _ Es) as (q & -> & ->). rewrite app_nil_r in *. cbn [map app].
    destruct t as [|y t]; [by rewrite app_nil_r in E|].
    rewrite not_escapes_plain by (by apply Forall_cons in Ht as [? _]).
    rewrite bool_decide_eq_false_2.
    + split; [|done]. intros _. split; [by apply prefix_app_r|]. intros Hq.
      apply (f_equal length) in Hq. rewrite length_app in Hq. cbn in Hq. lia.
    + intros Ey. apply Forall_cons in Ht as [Hy _]. destruct t as [|z t].
      * cbn in Ey. by destruct Hy as (_ & ? & _).
      * rewrite PathGrammar.join_slash_cons in Ey. destruct Hy as (Hy & _). destruct y as [|b [|b' y]]; done.
  - cbn [map app]. rewrite escapes_dotdot. cbn [negb].
    split; [by case_if|]. intros [[k ->] _]. by rewrite strip_common_app in Es.
Qed.

Lemma MetaDirName_plain : plain MetaDirName.
Proof. split_and!; try done. unfold PathGrammar.no_slash. by repeat (constructor; [vm_compute; congruence|]). Qed.

Lemma nesting_checks s d :
  Forall plain s -> Forall plain d -> native s <> native d ->
  isNested (native s) (native d) = false ->
  isNested (native d) (native s) &&
    (negb (bool_decide (native s = Join (native d) MetaDirName)) &&
     negb (isNested (Join (native d) MetaDirName) (native s))) = false ->
  ~ s `prefix_of` d /\ (d `prefix_of` s -> d ++ [MetaDirName] `prefix_of` s).
Proof.
  intros Hs Hd Hne H1 H2. assert (Hne' : s <> d) by congruence.
  pose proof MetaDirName_plain as Hm. split.
  - intros Hp. assert (isNested (native s) (native d) = true) by (by apply isNested_native). congruence.
  - intros Hp. assert (Hn : isNested (native d) (native s) = true) by (by apply isNested_native; [..|split]).
    rewrite Hn, Join_native in H2 by done. cbn [andb] in H2.
    apply andb_false_iff in H2 as [H2|H2]; reflect_bools.
    + apply native_inj in H2 as ->; [done..|by apply plain_snoc].
    + apply isNested_native in H2 as [? _]; [done|by apply plain_snoc|done].
Qed.

(** What [ResolveRoots] guarantees. *)
Section RootsLaws.
Context {W : Type} `{FileSystemLaws W}.

Lemma ResolveRoots_spec cwd source destination allow (w w' : W) roots :
  rooted cwd = true ->
  (forall cs, Forall plain cs -> native cs = absClean cwd source \/ native cs = absClean cwd destination ->
     reachable (view w) cs) ->
  ResolveRoots cwd source destination allow w = (w', Ok roots) ->
  exists s d, roots = mkRoots (native s) (native d) /\ native s = absClean cwd source /\
    native d = absClean cwd destination /\ Forall plain s /\ Forall plain d /\
    view w' = view w /\ ~ s `prefix_of` d /\
    (d `prefix_of` s -> d ++ [MetaDirName] `prefix_of` s) /\
    (exists m, view w !! s = Some (NDir m)) /\
    ((exists m, view w !! d = Some (NDir m)) \/ (allow = true /\ view w !! d = None)).
Proof.
  intros Hcwd Hreach E. destruct (absClean_native cwd source Hcwd) as (s & Hs & Es).
  destruct (absClean_native cwd destination Hcwd) as (d & Hd & Ed).
  rewrite Es, Ed in Hreach. pose proof (Hreach s Hs (or_introl eq_refl)) as Hrs. pose proof (Hreach d Hd (or_intror eq_refl)) as Hrd.
  remember (Ok roots) as r eqn:Er. revert roots Er. pattern w', r. eapply wp_run; [|exact E]. clear E r w'.
  unfold ResolveRoots. rewrite Es, Ed. do 3 (wp_if; [by apply wp_throw|]). reflect_bools.
  apply wp_bind, wp_or_fail, wp_call. intros w1 r1 E1. apply lstat_law in E1 as [Hv1 Hr1]; [|done].
  destruct r1 as [i|e|]; [|done|done]. destruct Hr1 as (n & Hn & ->). cbn [map_err].
  do 2 (wp_if; [by apply wp_throw|]). reflect_bools. apply wp_bind, wp_try, wp_call. intros w2 r2 E2.
  apply lstat_law in E2 as [Hv2 Hr2]; [|by rewrite Hv1]. rewrite Hv1 in Hv2, Hr2.
  destruct r2 as [i2|e|]; [..|done]; apply wp_bind, wp_lift; cycle 1.
  - destruct (bool_decide (e = ENOENT)) eqn:Ee; [|done]. destruct allow; [|done]. reflect_bools. specialize (Hr2 Ee). cbn [negb orb].
    do 2 (wp_if; [by apply wp_throw|]). apply wp_ret. intros roots [= <-]. exists s, d.
    destruct (nesting_checks s d) as [? ?]; [done..|]. split_and!; try done; [|by right].
    destruct n as [m| |[]]; try done. eauto.
  - destruct Hr2 as (n2 & Hn2 & ->). 
    destruct (bool_decide (FileSystem.FType (info_of n2) = TSymlink)) eqn:E3; [done|].
    destruct (bool_decide (FileSystem.FType (info_of n2) = TDir)) eqn:E4; [|done]. cbn [negb]. reflect_bools.
    do 2 (wp_if; [by apply wp_throw|]). apply wp_ret. intros roots [= <-]. exists s, d.
    destruct (nesting_checks s d) as [? ?]; [done..|]. split_and!; try done; [destruct n as [m| |[]]; try done; by eauto|].
    left. destruct n2 as [m| |[]]; try done. eauto.
Qed.

(** Accepted roots are safe to synchronize: both are clean absolute paths,
    the source is a directory and the destination a directory or absent, neither
    is a symbolic link, the destination is not inside the source, and the source
    is inside the destination only within the metadata directory. *)
Lemma ResolveRoots_safe cwd source destination allow (w w' : W) roots :
  rooted cwd = true ->
  (forall cs, Forall plain cs -> native cs = absClean cwd source \/ native cs = absClean cwd destination ->
     reachable (view w) cs) ->
  ResolveRoots cwd source destination allow w = (w', Ok roots) ->
  exists s d, roots = mkRoots (native s) (native d) /\ native s = absClean cwd source /\
    native d = absClean cwd destination /\ Forall plain s /\ Forall plain d /\
    view w' = view w /\ ~ s `prefix_of` d /\
    (d `prefix_of` s -> d ++ [MetaDirName] `prefix_of` s) /\
    (exists m, view w !! s = Some (NDir m)) /\
    ((exists m, view w !! d = Some (NDir m)) \/ (allow = true /\ view w !! d = None)).
Proof. apply ResolveRoots_spec. Qed.
End RootsLaws.

(** ** What a scan returns *)

(** A tree as a filesystem keeps it: proper names, directories above every node. *)
Definition tree_ok (v : tree) : Prop :=
  forall ds c n, v !! (ds ++ [c]) = Some n -> plain c /\ exists m, v !! ds = Some (NDir m).

Lemma tree_above v l k n : tree_ok v -> v !! (l ++ k) = Some n -> k <> [] -> Forall plain k /\ exists m, v !! l = Some (NDir m).
Proof.
  intros Ht. revert n. induction k as [|c k IH] using rev_ind; intros n Hn Hk; [done|].
  rewrite app_assoc in Hn. destruct (Ht _ _ _ Hn) as [Hc [m Hm]].
  destruct k as [|x k]; [rewrite app_nil_r in Hm; split; [by constructor|eauto]|].
  destruct (IH _ Hm) as [Hp ?]; [done|]. split; [|done]. apply Forall_app. split; [done|by constructor].
Qed.

Definition entry_for (cs : list bytes) (n : node) (e : Entry) : Prop :=
  match n with
  | NDir m => e = mkEntry (PathGrammar.join_slash cs) EntryDir 0 m (zeros 32) false
  | NFile m d => e = mkEntry (PathGrammar.join_slash cs) EntryFile (len d) m (SHA256 d) true
  | NOther _ => False
  end.

Lemma entry_for_rel cs n e : entry_for cs n e -> ERel e = PathGrammar.join_slash cs.
Proof. destruct n; cbn; [by intros ->..|done]. Qed.

Lemma join_slash_inj a b :
  Forall plain a -> Forall plain b -> PathGrammar.join_slash a = PathGrammar.join_slash b -> a = b.
Proof. intros Ha Hb E. apply native_inj; [done..|]. unfold native. by rewrite E. Qed.

(** [new] lists exactly the nodes below [r] at the relative paths in [D], each once. *)
Definition covers (v : tree) (r : list bytes) (D : list bytes -> Prop) (new : list Entry) : Prop :=
  NoDup (map ERel new) /\
  (forall e, e ∈ new <-> exists cs n, D cs /\ v !! (r ++ cs) = Some n /\ entry_for cs n e) /\
  (forall cs n, D cs -> v !! (r ++ cs) = Some n -> exists e, entry_for cs n e).

Lemma covers_nil v r (D : list bytes -> Prop) : (forall cs n, D cs -> v !! (r ++ cs) = Some n -> False) -> covers v r D [].
Proof.
  intros H. split; [constructor|]. split; [|intros cs n Hd Hn; by destruct (H cs n)]. intros e.
  split; [by intros []%not_elem_of_nil|]. intros (cs & n & Hd & Hn & _). by destruct (H cs n).
Qed.

Lemma covers_one v r (D : list bytes -> Prop) cs n e :
  D cs -> v !! (r ++ cs) = Some n -> entry_for cs n e ->
  (forall cs' n', D cs' -> v !! (r ++ cs') = Some n' -> cs' = cs) -> covers v r D [e].
Proof.
  intros Hd Hn He Hu. split; [apply NoDup_singleton|]. split; cycle 1.
  { intros cs' n' Hd' Hn'. assert (cs' = cs) as -> by eauto. rewrite Hn in Hn'. injection Hn' as <-. eauto. }
  intros e'. rewrite list_elem_of_singleton. split.
  - intros ->. by exists cs, n.
  - intros (cs' & n' & Hd' & Hn' & He'). assert (cs' = cs) as -> by eauto.
    assert (n' = n) as -> by congruence. destruct n; cbn in *; [congruence..|done].
Qed.

Lemma covers_app v r (D1 D2 D : list bytes -> Prop) a b :
  tree_ok v -> (forall cs, D1 cs \/ D2 cs -> cs <> []) -> (forall cs, D1 cs -> D2 cs -> False) ->
  (forall cs, D cs <-> D1 cs \/ D2 cs) -> covers v r D1 a -> covers v r D2 b -> covers v r D (a ++ b).
Proof.
  intros Ht Hne Hdis HD (Hna & Ha & Hka) (Hnb & Hb & Hkb). split; [|split; [|intros cs n [?|?]%HD; eauto]].
  - rewrite map_app. apply NoDup_app. split; [done|]. split; [|done].
    intros x Hxa Hxb. apply list_elem_of_fmap in Hxa as (e1 & -> & H1). apply list_elem_of_fmap in Hxb as (e2 & E & H2).
    apply Ha in H1 as (cs1 & n1 & HD1 & Hn1 & He1). apply Hb in H2 as (cs2 & n2 & HD2 & Hn2 & He2).
    apply entry_for_rel in He1, He2. rewrite He1, He2 in E.
    apply join_slash_inj in E as ->; [by apply (Hdis cs2)|..]; eapply tree_above; eauto.
  - intros e. rewrite elem_of_app, Ha, Hb. split.
    + intros [(cs & n & ? & ?)|(cs & n & ? & ?)]; exists cs, n; rewrite HD; auto.
    + intros (cs & n & [?|?]%HD & ?); [left|right]; eauto.
Qed.

Lemma covers_ext v r (D D' : list bytes -> Prop) new :
  (forall cs n, v !! (r ++ cs) = Some n -> D cs <-> D' cs) -> covers v r D new -> covers v r D' new.
Proof.
  intros HD (Hn & He & Hk). split; [done|]. split; [|intros cs n H1 H2; apply (Hk cs n); [by apply (HD cs n)|done]].
  intros e. rewrite He. split; intros (cs & n & H1 & H2 & H3); exists cs, n; (split; [by apply (HD cs n)|done]).
Qed.

(** Not inside the metadata directory. *)
Definition nonmeta (cs : list bytes) : Prop := head cs <> Some MetaDirName.

Lemma first_part (c m t x : bytes) :
  slash ∉ c -> slash ∉ m -> (t = [] \/ exists u, t = slash :: u) -> c ++ t = m ++ slash :: x -> c = m.
Proof.
  revert m. induction c as [|b c IH]; intros [|b' m] Hc Hm Ht E; cbn in E.
  - done.
  - destruct Ht as [->|[u ->]]; [done|]. injection E as <- _. set_solver.
  - injection E as -> _. set_solver.
  - injection E as -> E. f_equal. apply (IH m); set_solver.
Qed.

Lemma isMetaRel_join cs : Forall plain cs -> cs <> [] -> isMetaRel (PathGrammar.join_slash cs) = true <-> ~ nonmeta cs.
Proof.
  intros Hp Hn. destruct cs as [|c cs]; [done|]. unfold nonmeta, isMetaRel. cbn [head].
  apply Forall_cons in Hp as [Hc Hcs].
  assert (Hns : slash ∉ c) by (apply no_slash_iff; by apply plain_no_slash).
  assert (Hm : slash ∉ MetaDirName) by (apply no_slash_iff, plain_no_slash, MetaDirName_plain).
  split.
  - intros H E. apply E. f_equal. apply orb_true_iff in H as [H|H]; reflect_bools.
    + destruct cs as [|d cs]; [done|]. exfalso. apply Hm. rewrite <- H, PathGrammar.join_slash_cons. set_solver.
    + unfold HasPrefix in H. reflect_bools.
      assert (Hs : exists t, PathGrammar.join_slash (c :: cs) = c ++ t /\ (t = [] \/ exists u, t = slash :: u)).
      { destruct cs as [|d cs]; [exists []; rewrite app_nil_r; auto|].
        rewrite PathGrammar.join_slash_cons. eexists. split; [done|]. right. by eexists. }
      destruct Hs as (t & Ej & Ht). rewrite Ej in H.
      apply (first_part c MetaDirName t (drop 10 (c ++ t))); try done.
      rewrite <- (take_drop 10 (c ++ t)) at 1. change 10%nat with (length (MetaDirName ++ str "/")) at 1.
      rewrite H, <- app_assoc. done.
  - intros H. assert (c = MetaDirName) as ->.
    { destruct (decide (c = MetaDirName)); [done|]. destruct H. congruence. }
    destruct cs as [|d cs]; [done|]. rewrite PathGrammar.join_slash_cons. apply orb_true_iff. right.
    unfold HasPrefix. apply bool_decide_eq_true_2. done.
Qed.

Lemma nonmeta_app ps k : ps <> [] -> nonmeta (ps ++ k) <-> nonmeta ps.
Proof. intros Hn. unfold nonmeta. by destruct ps. Qed.

(** The paths below a directory, and those below one of its entries. *)
Definition below (ps cs : list bytes) : Prop := (exists k, k <> [] /\ cs = ps ++ k) /\ nonmeta cs.
Definition at_child (ps : list bytes) (c : bytes) (cs : list bytes) : Prop := (exists k, cs = ps ++ c :: k) /\ nonmeta cs.

(** An entry of the metadata directory, a directory with what is below it, a file, the
    entries of a directory one after the other, and all of them. *)
Lemma covers_meta v r ps c : ~ nonmeta (ps ++ [c]) -> covers v r (at_child ps c) [].
Proof.
  intros Em. apply covers_nil. intros cs n' [[k ->] Hnm] _. apply Em.
  change (ps ++ c :: k) with (ps ++ [c] ++ k) in Hnm. rewrite app_assoc in Hnm. apply nonmeta_app in Hnm; [done|by destruct ps].
Qed.

Lemma covers_dir v r ps c m e new : tree_ok v -> nonmeta (ps ++ [c]) -> v !! (r ++ ps ++ [c]) = Some (NDir m) ->
  entry_for (ps ++ [c]) (NDir m) e -> covers v r (below (ps ++ [c])) new -> covers v r (at_child ps c) ([e] ++ new).
Proof.
  intros Ht Hnm Hn He Hcov. apply (covers_app v r (fun cs => cs = ps ++ [c]) (below (ps ++ [c]))); try done.
  - intros cs [->|[(k & _ & ->) _]]; by destruct ps.
  - intros cs -> [(k & Hk & E) _]. rewrite <- (app_nil_r (ps ++ [c])) in E at 1. by apply app_inv_head in E.
  - intros cs. unfold at_child, below. split.
    + intros [[k ->] Hcs]. destruct k as [|x k]; [by left|]. right. split; [|done]. exists (x :: k). by rewrite <- app_assoc.
    + intros [->|[(k & Hk & ->) Hcs]]; (split; [|done]); [by exists []|]. exists k. by rewrite <- app_assoc.
  - eapply covers_one; [done|exact Hn|done|]. by intros.
Qed.

Lemma covers_file v r ps c m x e : tree_ok v -> nonmeta (ps ++ [c]) -> v !! (r ++ ps ++ [c]) = Some (NFile m x) ->
  entry_for (ps ++ [c]) (NFile m x) e -> covers v r (at_child ps c) [e].
Proof.
  intros Ht Hnm Hn He. eapply (covers_one _ _ _ (ps ++ [c])); [|exact Hn|done|].
  - split; [by exists []|done].
  - intros cs' n' [[k ->] _] Hn2. destruct k as [|y k]; [done|].
    change (ps ++ c :: y :: k) with (ps ++ [c] ++ (y :: k)) in Hn2. rewrite (app_assoc ps), app_assoc in Hn2.
    destruct (tree_above _ _ _ _ Ht Hn2) as [_ [m2 Hm2]]; [done|]. congruence.
Qed.

Lemma covers_next v r ps c (names : list bytes) new1 new2 : tree_ok v -> c ∉ names -> covers v r (at_child ps c) new1 ->
  covers v r (fun cs => exists c, c ∈ names /\ at_child ps c cs) new2 ->
  covers v r (fun cs => exists c', c' ∈ c :: names /\ at_child ps c' cs) (new1 ++ new2).
Proof.
  intros Ht Hnc Hcov1 Hcov2. eapply covers_app; [done| | | |exact Hcov1|exact Hcov2].
  - intros cs [[[k ->] _]|(c' & _ & [k ->] & _)]; by destruct ps.
  - intros cs [[k1 ->] _] (c' & Hin & [k2 E] & _). apply app_inv_head in E. injection E as -> _. done.
  - intros cs. split.
    + intros (c' & [->|Hin]%elem_of_cons & H'); [by left|right; eauto].
    + intros [H'|(c' & Hin & H')]; [exists c|exists c']; (split; [|done]); [by left|by right].
Qed.

Lemma covers_children v r ps (names : list bytes) new : tree_ok v ->
  (forall c, c ∈ names <-> plain c /\ is_Some (v !! (r ++ ps ++ [c]))) ->
  covers v r (fun cs => exists c, c ∈ names /\ at_child ps c cs) new -> covers v r (below ps) new.
Proof.
  intros Ht Hnames. apply covers_ext. intros cs n Hcs. unfold below, at_child. split.
  - intros (c & Hc & [k ->] & ?). split; [|done]. by exists (c :: k).
  - intros [(k & Hk & ->) ?]. destruct k as [|c k]; [done|]. exists c. split; [|split; [by exists k|done]].
    apply Hnames. destruct (tree_above v r (ps ++ c :: k) n) as [Hp _]; [done..|by destruct ps|].
    apply Forall_app in Hp as [_ Hp]. apply Forall_cons in Hp as [Hc _]. split; [done|].
    change (ps ++ c :: k) with (ps ++ [c] ++ k) in Hcs. rewrite (app_assoc ps), app_assoc in Hcs.
    destruct k as [|x k]; [rewrite app_nil_r in Hcs; by eexists|].
    destruct (tree_above _ _ _ _ Ht Hcs) as [_ [m ?]]; [done|]. by eexists.
Qed.

Section ScanLaws.
Context {W : Type} `{FileSystemLaws W}.
Variables (v : tree) (r : list bytes).
Hypothesis tree_v : tree_ok v.
Hypothesis plain_r : Forall plain r.

(** The outcome of a part of the walk: the tree is not changed, and the entries
    added cover [D]. *)
Definition scanned (D : list bytes -> Prop) (acc : list Entry) (w' : W) (res_ : res Error (list Entry)) : Prop :=
  view w' = v /\
  match res_ with
  | Ok acc' => exists new, acc' = acc ++ new /\ covers v r D new
  | Err _ => True
  | Panic => False
  end.

(** What the walk of a subdirectory is assumed to do, in the induction on fuel. *)
Definition descends (descend : bytes -> list Entry -> io W Error (list Entry)) (ps : list bytes) : Prop :=
  forall acc w, view w = v -> nolink v (r ++ ps) -> nonmeta ps -> Forall plain ps -> len ps <= 1024 ->
    wp (descend (native (r ++ ps)) acc) (scanned (below ps) acc) w.

Lemma validated_length cs :
  Forall plain cs -> cs <> [] ->
  is_ok (PathGrammar.ValidateJoined (PathGrammar.join_slash cs) PathGrammar.DefaultProfile) = true -> len cs <= 1024.
Proof.
  intros Hp Hn H1. destruct (PathGrammar.ValidateJoined _ _) as [cs'| |] eqn:E; try done.
  pose proof E as [E1 E2]%PathGrammar.ValidateJoined_iff. apply PathGrammar.ValidateComponents_iff in E1 as (Hl & Hok & _).
  assert (Forall plain cs').
  { eapply Forall_impl; [exact Hok|]. intros c Hc. pose proof (PathGrammar.component_no_slash _ _ Hc).
    destruct Hc as (Hc & Hd & Hdd & _). split_and!; try done. intros ->. rewrite len_nil in Hc. lia. }
  apply join_slash_inj in E2 as ->; [|done..]. unfold PathGrammar.MaxComponents in Hl. lia.
Qed.

Lemma rel_proper l :
  Forall plain l -> l <> [] ->
  bool_decide (PathGrammar.join_slash l = str ".") || bool_decide (PathGrammar.join_slash l = []) = false /\
  escapes (PathGrammar.join_slash l) = false.
Proof.
  intros Hp Hn. destruct l as [|x l]; [done|]. apply Forall_cons in Hp as [Hx _].
  split; [|by apply not_escapes_plain]. destruct Hx as (H1 & H2 & _).
  apply orb_false_iff. split; apply bool_decide_eq_false_2.
  - destruct l as [|y l]; [done|]. rewrite PathGrammar.join_slash_cons. by destruct x as [|b [|b' x]].
  - destruct l as [|y l]; [done|]. rewrite PathGrammar.join_slash_cons. by destruct x.
Qed.

Lemma wp_visit descend ps c acc w :
  descends descend (ps ++ [c]) ->
  view w = v -> nolink v (r ++ ps) -> nonmeta ps -> Forall plain ps -> plain c ->
  is_Some (v !! (r ++ ps ++ [c])) ->
  wp (visit descend (native r) (native (r ++ ps)) c acc) (scanned (at_child ps c) acc) w.
Proof.
  intros Hdesc Hv Hl Hm Hps Hc [n Hn]. assert (Hpr : Forall plain (r ++ ps)) by (by apply Forall_app).
  assert (Hpc : Forall plain (ps ++ [c])) by (by apply plain_snoc).
  assert (Hne : ps ++ [c] <> []) by (by destruct ps).
  assert (He : entry_at (view w) (r ++ ps) c) by (rewrite Hv; done).
  assert (Hstop : forall w' e, view w' = v -> scanned (at_child ps c) acc w' (Err e)) by done.
  unfold visit. cbv zeta. rewrite Join_native, <- app_assoc, Rel_native_under by done.
  destruct (rel_proper _ Hpc Hne) as [-> ->].
  destruct (isMetaRel _) eqn:Em.
  { apply isMetaRel_join in Em; [|done..]. apply wp_ret. split; [done|]. exists []. split; [by rewrite app_nil_r|].
    by apply covers_meta. }
  assert (Hnm : nonmeta (ps ++ [c])).
  { destruct (decide (head (ps ++ [c]) = Some MetaDirName)) as [E|E]; [|done].
    assert (isMetaRel (PathGrammar.join_slash (ps ++ [c])) = true) by (apply isMetaRel_join; try done; by intros ?). congruence. }
  apply wp_bind, wp_lift.
  destruct (PathGrammar.ValidateJoined _ _) as [?|e|] eqn:Ev; cbn [map_err]; [|by apply Hstop|].
  2: { by apply PathGrammar.ValidateJoined_safe in Ev. }
  assert (Hlen : len (ps ++ [c]) <= 1024) by (apply validated_length; [done..|by rewrite Ev]).
  apply wp_bind, wp_or_fail, wp_call. rewrite (app_assoc r ps [c]). intros w1 r1 E1.
  apply lstat_spec in E1 as [Hv1 Hr1]; [|done]. rewrite Hv in Hv1, Hr1.
  destruct r1 as [i|e|]; cbn [map_err]; [|by apply Hstop|done].
  destruct Hr1 as (n' & Hn' & ->). rewrite <- app_assoc in Hn'. assert (n' = n) as -> by congruence. clear Hn'.
  rewrite (app_assoc r ps [c]) in Hn.
  destruct n as [m|m d|t]; cbn [info_of FileSystem.FType ftype].
  - rewrite <- app_assoc. eapply wp_mono.
    { apply Hdesc; try done. rewrite app_assoc. apply nolink_snoc; [done|]. by rewrite Hn. }
    intros w' r' [Hv' Hr']. split; [done|]. destruct r' as [acc'| |]; try done.
    destruct Hr' as (new & -> & Hcov). eexists. rewrite <- app_assoc. split; [done|].
    eapply covers_dir; [done|done|by rewrite app_assoc|done|done].
  - apply wp_bind, wp_or_fail, wp_HashFile; [by rewrite Hv1, <- Hv|]. intros w2 r2 Hv2 Hr2. rewrite Hv1 in Hv2, Hr2.
    destruct r2 as [[dig size]|e|]; cbn [map_err]; [|by apply Hstop|done].
    destruct Hr2 as (m' & d' & Hn2 & -> & ->). rewrite Hn in Hn2. injection Hn2 as <- <-.
    apply wp_ret. split; [done|]. eexists. split; [done|].
    eapply covers_file; [done|done|by rewrite app_assoc|done].
  - destruct t; by apply wp_throw, Hstop.
Qed.

Lemma wp_visit_all descend ps names acc w :
  (forall c, c ∈ names -> descends descend (ps ++ [c]) /\ plain c /\ is_Some (v !! (r ++ ps ++ [c]))) -> NoDup names ->
  view w = v -> nolink v (r ++ ps) -> nonmeta ps -> Forall plain ps ->
  wp (visit_all descend (native r) (native (r ++ ps)) names acc)
     (scanned (fun cs => exists c, c ∈ names /\ at_child ps c cs) acc) w.
Proof.
  intros Hn Hnd Hv Hl Hm Hps. revert acc w Hv. induction names as [|c names IH]; intros acc w Hv; cbn [visit_all].
  { apply wp_ret. split; [done|]. exists []. split; [by rewrite app_nil_r|]. apply covers_nil.
    by intros cs n (c & []%not_elem_of_nil & _). }
  apply NoDup_cons in Hnd as [Hnc Hnd]. destruct (Hn c) as (Hd & Hc & Hs); [by left|].
  apply wp_bind. eapply wp_mono; [by apply wp_visit|]. intros w1 r1 [Hv1 Hr1].
  destruct r1 as [acc1| |]; [|done..]. destruct Hr1 as (new1 & -> & Hcov1).
  eapply wp_mono; [apply IH; [|done..]; intros; apply Hn; by right|].
  intros w2 r2 [Hv2 Hr2]. split; [done|]. destruct r2 as [acc2| |]; [|done..].
  destruct Hr2 as (new2 & -> & Hcov2). exists (new1 ++ new2). split; [by rewrite app_assoc|].
  by apply covers_next.
Qed.

Lemma walk_descends fuel ps : 1026 <= Z.of_nat fuel + len ps -> descends (walk fuel (native r)) ps.
Proof.
  revert ps. induction fuel as [|fuel IH]; intros ps Hf acc w Hv Hl Hm Hps Hlen; [lia|]. cbn [walk].
  assert (Hpr : Forall plain (r ++ ps)) by (by apply Forall_app).
  apply wp_bind, wp_or_fail, wp_call. intros w1 r1 E1. apply readdir_spec in E1 as [Hv1 Hr1]; [|done|by rewrite Hv].
  rewrite Hv in Hv1, Hr1. destruct r1 as [names|e|]; cbn [map_err]; [|done|done]. destruct Hr1 as [Hnd Hnames].
  assert (Hn : forall c, c ∈ names -> plain c /\ is_Some (v !! (r ++ ps ++ [c]))).
  { intros c Hc%Hnames. by rewrite <- app_assoc in Hc. }
  eapply wp_mono; [apply wp_visit_all; try done|].
  { intros c Hc. destruct (Hn c Hc). split; [|done]. apply IH. rewrite len_app, len_cons, len_nil. lia. }
  intros w2 r2 [Hv2 Hr2]. split; [done|]. destruct r2 as [acc2| |]; [|done..].
  destruct Hr2 as (new & -> & Hcov). exists new. split; [done|]. eapply covers_children; [done| |exact Hcov].
  intros c. rewrite Hnames. by rewrite <- app_assoc.
Qed.

End ScanLaws.

(** What a scan returns. *)
Definition lists (v : tree) (r : list bytes) (m : Manifest) : Prop :=
  Root m = native r /\ sorted_manifest m /\
  (forall e, e ∈ Entries m <->
     exists cs n, cs <> [] /\ nonmeta cs /\ v !! (r ++ cs) = Some n /\ entry_for cs n e) /\
  (forall cs n, cs <> [] -> nonmeta cs -> v !! (r ++ cs) = Some n -> exists e, entry_for cs n e).

Lemma wp_Scan {W} `{FileSystemLaws W} (r : list bytes) (w : W) :
  tree_ok (view w) -> Forall plain r -> nolink (view w) r ->
  wp (Scan (native r)) (fun w' res_ => view w' = view w /\
    match res_ with Ok m => lists (view w) r m /\ exists p, view w !! r = Some (NDir p) | Err _ => True | Panic => False end) w.
Proof.
  intros Ht Hp Hl.
  unfold Scan. apply wp_bind, wp_or_fail, wp_call. intros w1 r1 E1.
  apply lstat_law in E1 as [Hv1 Hr1]; [|split; [done|]; intros; by apply Hl].
  destruct r1 as [i|e|]; cbn [map_err]; [|done..]. do 2 (wp_if; [by apply wp_throw|]).
  assert (Hroot : exists p, view w !! r = Some (NDir p)).
  { destruct Hr1 as (n & Hn & ->). reflect_bools. destruct n as [p| |[]]; try done. by exists p. }
  apply wp_bind. rewrite <- (app_nil_r r) at 2. eapply wp_mono.
  { apply (walk_descends (view w) r Ht Hp scan_fuel []); try done. by rewrite app_nil_r. }
  intros w2 r2 [Hv2 Hr2]. destruct r2 as [acc| |]; [|done..]. destruct Hr2 as (new & -> & Hnd & Hcov & Hall).
  apply wp_ret. split; [done|]. split; [|done]. split; [done|]. cbn [Root Entries].
  assert (Hperm : sort_key ERel bytes_Compare new ≡ₚ new) by apply insertion_sort_perm.
  split; [|split].
  - by apply sort_key_strict; [apply _|].
  - intros e. cbn [app]. rewrite Hperm, Hcov. unfold below. split.
    + intros (cs & n & [(k & Hk & ->) Hm] & Hn & He). exists k, n. done.
    + intros (cs & n & Hne & Hm & Hn & He). exists cs, n. split; [|done]. split; [|done]. by exists cs.
  - intros cs n Hne Hm Hn. apply (Hall cs n); [|done]. split; [|done]. by exists cs.
Qed.

(** C38. A scan that succeeds lists exactly the tree below its root.  The
    filesystem is not changed and the walk always ends; the manifest is strictly
    sorted, and its entries are one for one the directories and regular files
    below the root that are not in the metadata directory, each with its mode,
    its size and the digest of its content.  Any other kind of node there, such as
    a symbolic link, makes the scan fail. *)
Theorem Scan_exact {W} `{FileSystemLaws W} (r : list bytes) (w w' : W) res_ :
  tree_ok (view w) -> Forall plain r -> nolink (view w) r ->
  Scan (native r) w = (w', res_) ->
  view w' = view w /\
  match res_ with
  | Ok m => Root m = native r /\ sorted_manifest m /\
      (forall e, e ∈ Entries m <->
         exists cs n, cs <> [] /\ nonmeta cs /\ view w !! (r ++ cs) = Some n /\ entry_for cs n e) /\
      (forall cs n, cs <> [] -> nonmeta cs -> view w !! (r ++ cs) = Some n -> exists e, entry_for cs n e)
  | Err _ => True
  | Panic => False
  end.
Proof.
  intros Ht Hp Hl E. destruct (wp_run _ _ _ _ _ (wp_Scan r w Ht Hp Hl) E) as [Hv Hr]. split; [done|].
  destruct res_; [|done..]. by destruct Hr as [Hr _].
Qed.

End LocalScan.
