(* ===== verification/LocalSession.v ===== *)
(** * Journal sessions (internal/localsync: journal_session.go, journaled.go)

    The [JournalSession] interface that a synchronization writes its progress
    through, with its laws, and the local implementation over a file segment and
    a journal writer: opening makes the directory, opens the file and recovers the
    records of the longest valid chain, truncating a torn tail so that appends can
    continue; each of these calls may fail.  That closing the file may fail is left
    out.  [fileSession_laws]
    discharges the interface from the verified journal. *)

From S2P Require Import Prelude Sha256 Codec Journal PathGrammar FilePath FileSystem LocalPayload.
Import Codec FileSystem LocalPayload.

Module LocalSession.

(** ** The interface *)

(** [Open] returns the records of the accepted prefix. *)
Class JournalSession (J : Type) := {
  SOpen : io J Error (list Record_);
  SAppend : bytes -> Z -> bytes -> io J Error unit;
  SClose : io J Error unit }.

(** What a session promises: [jrecords] are the records the next [Open] finds.
    An append that succeeds adds exactly its record; one that fails adds it or
    nothing, and leaves a session that can be closed and opened again. *)
Class JournalSessionLaws (J : Type) `{JournalSession J} := {
  jsound : J -> Prop;
  ready : J -> Prop;
  jrecords : J -> list Record_;
  ready_sound j : ready j -> jsound j;
  open_spec j j' r :
    jsound j -> SOpen j = (j', r) ->
    jsound j' /\ jrecords j' = jrecords j /\
    match r with Ok recs => ready j' /\ recs = jrecords j | Err _ => True | Panic => False end;
  append_spec j j' r id t p :
    ready j -> len id = 16 -> is_u16 t -> SAppend id t p j = (j', r) ->
    jsound j' /\
    match r with
    | Ok _ => ready j' /\ exists rec, carries id t p rec /\ jrecords j' = jrecords j ++ [rec]
    | Err _ => jrecords j' = jrecords j \/ exists rec, carries id t p rec /\ jrecords j' = jrecords j ++ [rec]
    | Panic => False
    end;
  sclose_spec j j' r : jsound j -> SClose j = (j', r) -> jsound j' /\ jrecords j' = jrecords j /\ r <> Panic }.

(** ** A session over a file segment *)

(** The calls that lead to the file: making its directory ([os.MkdirAll], or [mkdirat]
    and [openat] below a conferred descriptor), opening it and asking for its size;
    each may fail, and none changes what is in the file.  [WriteAt] at the end of a file
    adds the bytes that it wrote, a prefix of its argument, and nothing else. *)
Class OSFileStat (F : Type) := {
  FMkdirAll : F -> F * option Journal.ioerr;
  FOpen : F -> F * option Journal.ioerr;
  FSize : F -> Z }.
Class OSFileEnd (F : Type) `{Journal.OSFileLaws F} `{OSFileStat F} := {
  fmkdir_data f : Journal.fdata (FMkdirAll f).1 = Journal.fdata f;
  fopen_data f : Journal.fdata (FOpen f).1 = Journal.fdata f;
  fsize_data f : FSize f = len (Journal.fdata f);
  fwrite_end f p f' n e :
    Journal.FWriteAt f p (len (Journal.fdata f)) = (f', n, e) ->
    exists k, Journal.fdata f' = Journal.fdata f ++ take k p }.

Section FileSession.
Context {F : Type} `{Journal.OSFile F} `{OSFileStat F}.

(** [OpenFileSegment] on the file at the journal's path. *)
Definition OpenFileSegment (f : F) : Journal.FileSegment F := Journal.mkFile f (FSize f).

(** The file while no writer is open, the writer (which owns the segment) while
    one is. *)
Record fileJournalSession := mkSession {
  sfile : F;
  sw : option (Journal.Writer (Journal.FileSegment F)) }.

Definition current (s : fileJournalSession) : F :=
  match sw s with Some w => Journal.ff (Journal.seg w) | None => sfile s end.

(** [finishOpenJournal]. *)
Definition finishOpenJournal (seg : Journal.FileSegment F)
    : Journal.FileSegment F * res Error (Journal.Writer (Journal.FileSegment F) * Journal.Prefix) :=
  match Journal.OpenWriter seg with
  | Panic => (seg, Panic)
  | Err e => (seg, Err (wrap KindInternal "journal" [] (JournalError e)))
  | Ok (w, prefix) =>
      if Journal.Torn prefix then
        let '(seg, terr) := Journal.file_Truncate seg (Journal.Bytes prefix) in
        match terr with
        | Some e => (seg, Err (wrap KindWrite "journal" [] (JournalError (Journal.IOError e))))
        | None =>
            (seg, map_err (fun e => wrap KindInternal "journal" [] (JournalError e)) (Journal.OpenWriter seg))
        end
      else (seg, Ok (w, prefix))
  end.

(** A failing call is a failure to write. *)
Definition io_write (e : Journal.ioerr) : Error := wrap KindWrite "journal" [] (JournalError (Journal.IOError e)).

(** [openJournal], and [openJournalAt] below a conferred descriptor. *)
Definition openJournal (f : F) : Journal.FileSegment F * res Error (Journal.Writer (Journal.FileSegment F) * Journal.Prefix) :=
  let '(f, err) := FMkdirAll f in
  match err with
  | Some e => (OpenFileSegment f, Err (io_write e))
  | None =>
      let '(f, err) := FOpen f in
      match err with
      | Some e => (OpenFileSegment f, Err (io_write e))
      | None => finishOpenJournal (OpenFileSegment f)
      end
  end.

(** [fileJournalSession.Open], with the prefix that it accepts.  A session on a path makes
    the directory itself as well. *)
Definition session_prefix : io fileJournalSession Error Journal.Prefix := fun s =>
  match sw s with
  | Some _ => (s, Err (wrap KindInternal "journal" [] (TextError "journal already open")))
  | None =>
      let '(f, err) := FMkdirAll (sfile s) in
      match err with
      | Some e => (mkSession f None, Err (io_write e))
      | None =>
          let '(seg, r) := openJournal f in
          match r with
          | Ok (w, prefix) => (mkSession (Journal.ff seg) (Some w), Ok prefix)
          | Err e => (mkSession (Journal.ff seg) None, Err e)
          | Panic => (mkSession (Journal.ff seg) None, Panic)
          end
      end
  end.

(** A synchronization uses the records. *)
Definition session_Open : io fileJournalSession Error (list Record_) :=
  let* prefix := session_prefix in ret (Journal.Records prefix).

(** [appendRec] through the open writer. *)
Definition session_Append (id : bytes) (t : Z) (payload : bytes) : io fileJournalSession Error unit := fun s =>
  match sw s with
  | None => (s, Err (wrap KindInternal "journal" [] (TextError "journal not open")))
  | Some w =>
      let '(w, r) := Journal.Append w id t payload in
      (mkSession (sfile s) (Some w),
       match r with
       | Ok _ => Ok tt
       | Err e => Err (wrap KindWrite "journal" [] (JournalError e))
       | Panic => Panic
       end)
  end.

Definition session_Close : io fileJournalSession Error unit := fun s =>
  match sw s with
  | None => (s, Ok tt)
  | Some w => (mkSession (Journal.ff (Journal.seg (Journal.Close w))) None, Ok tt)
  end.

#[global] Instance fileJournalSession_Session : JournalSession fileJournalSession := {
  SOpen := session_Open; SAppend := session_Append; SClose := session_Close }.

End FileSession.

Arguments fileJournalSession F : clear implicits.

(** ** The laws *)

Section SessionLaws.
Context {F : Type} `{OSFileEnd F}.

(** The records that a reader finds in a segment. *)
Definition found (s : Journal.FileSegment F) : list Record_ :=
  match Journal.ReadPrefix s with Ok p => Journal.Records p | _ => [] end.

(** The segment is the whole file. *)
Definition tight (s : Journal.FileSegment F) : Prop := Journal.fsize s = len (Journal.fdata (Journal.ff s)).

Lemma tight_open s : tight s -> OpenFileSegment (Journal.ff s) = s.
Proof. unfold tight, OpenFileSegment. rewrite fsize_data. destruct s as [f z]. cbn. by intros ->. Qed.

Lemma open_tight f : tight (OpenFileSegment f).
Proof. unfold tight, OpenFileSegment. cbn. apply fsize_data. Qed.

Lemma tight_contents s : tight s -> Journal.contents s = Journal.fdata (Journal.ff s).
Proof. intros Ht. cbn. unfold Journal.file_contents. rewrite Ht. by apply sub_full. Qed.

Lemma sized_open f : len (Journal.fdata f) < 9223372036854775808 -> Journal.sized (OpenFileSegment f).
Proof.
  intros Hl. pose proof (open_tight f) as Ht. split; [|by rewrite tight_contents].
  pose proof (len_nonneg (Journal.fdata f)). cbn. unfold Journal.file_sound. rewrite Ht. cbn. lia.
Qed.

Lemma open_sized f : Journal.sized (OpenFileSegment f) -> len (Journal.fdata f) < 9223372036854775808.
Proof. intros [_ Hl]. by rewrite tight_contents in Hl by apply open_tight. Qed.

Definition session_ready (s : fileJournalSession F) : Prop :=
  exists w fs, sw s = Some w /\ Journal.synced w fs /\ Journal.closed w = false /\ tight (Journal.seg w).

Lemma found_synced (w : Journal.Writer (Journal.FileSegment F)) fs :
  Journal.synced w fs -> found (Journal.seg w) = map record_of fs.
Proof. intros (Hs & Hc & Hi & _). unfold found. by rewrite (Journal.ReadPrefix_image _ fs). Qed.

Lemma truncate_data (s s' : Journal.FileSegment F) n e :
  0 <= n <= len (Journal.fdata (Journal.ff s)) -> tight s -> Journal.file_Truncate s n = (s', e) ->
  match e with
  | None => tight s' /\ Journal.fdata (Journal.ff s') = sub (Journal.fdata (Journal.ff s)) 0 n
  | Some _ => s' = Journal.mkFile (Journal.ff s') (Journal.fsize s) /\
      Journal.fdata (Journal.ff s') = Journal.fdata (Journal.ff s)
  end.
Proof.
  intros Hn Ht. unfold Journal.file_Truncate. dec_false (n <? 0).
  destruct (Journal.FTruncate _ _) as [f' [x|]] eqn:E; intros [= <- <-]; cbn.
  - split; [done|]. by eapply Journal.ftruncate_failed.
  - apply Journal.ftruncate_ok in E; [|done]. split; [|done]. unfold tight. cbn. rewrite E, len_sub; lia.
Qed.

(** What a reader finds depends on what is in the file. *)
Lemma same_found f f' : Journal.fdata f' = Journal.fdata f -> Journal.sized (OpenFileSegment f) ->
  Journal.sized (OpenFileSegment f') /\ found (OpenFileSegment f') = found (OpenFileSegment f).
Proof.
  intros Hd Hs. assert (Hs' : Journal.sized (OpenFileSegment f')) by (apply sized_open; rewrite Hd; by apply open_sized).
  split; [done|]. unfold found. destruct (Journal.longest_exists _ Hs) as (fs & tail & Hl).
  assert (Hl' : Journal.longest 1 GenesisCommitment (Journal.contents (OpenFileSegment f')) fs tail).
  { rewrite tight_contents by apply open_tight. rewrite tight_contents in Hl by apply open_tight. cbn in *. by rewrite Hd. }
  by rewrite (Journal.ReadPrefix_cases _ fs tail Hs Hl), (Journal.ReadPrefix_cases _ fs tail Hs' Hl').
Qed.

Lemma finishOpenJournal_spec f seg' r :
  Journal.sized (OpenFileSegment f) -> finishOpenJournal (OpenFileSegment f) = (seg', r) ->
  Journal.sized (OpenFileSegment (Journal.ff seg')) /\
  found (OpenFileSegment (Journal.ff seg')) = found (OpenFileSegment f) /\
  match r with
  | Ok (w, p) => exists fs, Journal.synced w fs /\ Journal.closed w = false /\ Journal.seg w = seg' /\ tight seg' /\
      Journal.Records p = map record_of fs
  | Err _ => True
  | Panic => False
  end.
Proof.
  intros Hs. unfold finishOpenJournal. set (seg := OpenFileSegment f) in *.
  assert (Ht : tight seg) by apply open_tight. assert (Hff : OpenFileSegment (Journal.ff seg) = seg) by done.
  destruct (Journal.longest_exists seg Hs) as (fs & tail & Hl). pose proof Hl as (Hct & Hch & _).
  destruct (Journal.OpenWriter seg) as [[w p]|e|] eqn:Eo.
  2: { intros [= <- <-]. by rewrite Hff. }
  2: { exfalso. unfold Journal.OpenWriter in Eo. rewrite (Journal.ReadPrefix_cases seg fs tail) in Eo by done.
       by destruct (Journal.verdict_at _ _ _). }
  destruct (Journal.Torn p) eqn:Et; cycle 1.
  { intros [= <- <-]. destruct (Journal.OpenWriter_synced _ _ _ Hs Eo Et) as (fs' & H1' & H2' & H3' & H4').
    rewrite Hff. split; [done|]. split; [done|]. by exists fs'. }
  assert (p = Journal.prefix_of fs true (take (Z.to_nat MaxRecordBytes) tail) /\
               found seg = map record_of fs) as [-> Hfound].
  { unfold Journal.OpenWriter in Eo. unfold found. rewrite (Journal.ReadPrefix_cases seg fs tail) in Eo |- * by done.
    destruct (Journal.verdict_at _ _ _); cbn [bind] in Eo; try done; injection Eo as _ <-; done. }
  cbn [Journal.prefix_of Journal.Bytes]. rewrite tight_contents in Hct by done.
  assert (Hb : 0 <= len (Journal.image fs) <= len (Journal.fdata (Journal.ff seg))).
  { rewrite Hct, len_app. pose proof (len_nonneg (Journal.image fs)). pose proof (len_nonneg tail). lia. }
  destruct (Journal.file_Truncate seg (len (Journal.image fs))) as [seg1 terr] eqn:Etr.
  pose proof (truncate_data _ _ _ _ Hb Ht Etr) as Htr. destruct terr as [e|].
  { intros [= <- <-]. destruct Htr as [_ Hd]. destruct (same_found f (Journal.ff seg1) Hd Hs) as [Hs1 Hf1]. done. }
  destruct Htr as [Ht1 Hd1]. assert (Hff1 : OpenFileSegment (Journal.ff seg1) = seg1) by (by apply tight_open).
  assert (Hc1 : Journal.contents seg1 = Journal.image fs).
  { rewrite tight_contents, Hd1, Hct by done. by rewrite sub_app_l, sub_full by lia. }
  assert (Hs1 : Journal.sized seg1).
  { rewrite <- Hff1. apply sized_open. rewrite <- tight_contents, Hc1 by done. apply open_sized in Hs.
    change (Journal.ff seg) with f in Hct. rewrite Hct, len_app in Hs. pose proof (len_nonneg tail). lia. }
  assert (Hr1 : Journal.ReadPrefix seg1 = Ok (Journal.prefix_of fs false [])) by (by apply Journal.ReadPrefix_image).
  intros [= <- <-]. rewrite Hff1. split; [done|]. split; [rewrite Hfound; unfold found; by rewrite Hr1|].
  destruct (Journal.OpenWriter seg1) as [[w1 p1]|e|] eqn:Eo1; cbn [map_err]; [|done|].
  - assert (Hp1 : p1 = Journal.prefix_of fs false []).
    { unfold Journal.OpenWriter in Eo1. rewrite Hr1 in Eo1. cbn [bind] in Eo1. by injection Eo1 as _ <-. }
    destruct (Journal.OpenWriter_synced _ _ _ Hs1 Eo1) as (fs' & H1' & H2' & H3' & H4'); [by rewrite Hp1|].
    by exists fs'.
  - unfold Journal.OpenWriter in Eo1. by rewrite Hr1 in Eo1.
Qed.

(** The same of opening a session that is closed, with the prefix. *)
Lemma session_prefix_spec s s' r :
  sw s = None -> Journal.sized (OpenFileSegment (sfile s)) -> session_prefix s = (s', r) ->
  Journal.sized (OpenFileSegment (current s')) /\ found (OpenFileSegment (current s')) = found (OpenFileSegment (sfile s)) /\
  match r with
  | Ok p => exists w fs, sw s' = Some w /\ Journal.synced w fs /\ Journal.closed w = false /\ tight (Journal.seg w) /\
      Journal.Records p = map record_of fs /\ exists f, finishOpenJournal (OpenFileSegment f) = (Journal.seg w, Ok (w, p))
  | Err _ => True
  | Panic => False
  end.
Proof.
  intros Hw Hs. unfold session_prefix, openJournal. rewrite Hw.
  destruct (FMkdirAll (sfile s)) as [f1 e1] eqn:E1. pose proof (fmkdir_data (sfile s)) as Hd1. rewrite E1 in Hd1. cbn in Hd1.
  destruct (same_found _ _ Hd1 Hs) as [Hs1 Hf1]. rewrite <- Hf1. destruct e1 as [e|]; [by intros [= <- <-]|].
  destruct (FMkdirAll f1) as [f0 e0] eqn:E0. pose proof (fmkdir_data f1) as Hd0. rewrite E0 in Hd0. cbn in Hd0.
  destruct (same_found _ _ Hd0 Hs1) as [Hs0 Hf0]. rewrite <- Hf0. destruct e0 as [e|]; [by intros [= <- <-]|].
  destruct (FOpen f0) as [f2 e2] eqn:E2. pose proof (fopen_data f0) as Hd2. rewrite E2 in Hd2. cbn in Hd2.
  destruct (same_found _ _ Hd2 Hs0) as [Hs2 Hf2]. rewrite <- Hf2. destruct e2 as [e|]; [by intros [= <- <-]|].
  destruct (finishOpenJournal (OpenFileSegment f2)) as [seg r'] eqn:E. destruct (finishOpenJournal_spec _ _ _ Hs2 E) as (Hs' & Hf & Hr).
  destruct r' as [[w p]|e|]; intros [= <- <-]; [|done|done]. destruct Hr as (fs & Hsy & Hcl & <- & Ht & Hrec).
  split; [done|]. split; [done|]. exists w, fs. split_and!; try done. by exists f2.
Qed.

(** Appending to a segment that is the whole file. *)
Lemma append_data (s s' : Journal.FileSegment F) p e :
  tight s -> Journal.file_Append s p = (s', e) ->
  (exists k, Journal.fdata (Journal.ff s') = Journal.fdata (Journal.ff s) ++ take k p) /\
  (e = None -> tight s' /\ Journal.fdata (Journal.ff s') = Journal.fdata (Journal.ff s) ++ p).
Proof.
  intros Ht. unfold Journal.file_Append. rewrite Ht.
  destruct (Journal.FWriteAt _ _ _) as [[f' n] err] eqn:E. destruct (fwrite_end _ _ _ _ _ E) as [k Hk].
  destruct err as [x|]; [intros [= <- <-]; cbn; split; [by eauto|done]|].
  destruct (n =? len p) eqn:En; cbn [negb]; intros [= <- <-]; cbn; [|split; [by eauto|done]]. reflect_bools.
  pose proof (len_nonneg (Journal.fdata (Journal.ff s))).
  destruct (Journal.fwrite_all _ _ _ _ _ E En) as [Hw Hl]; [lia|]. split; [by eauto|]. intros _.
  assert (Hp : take k p = p).
  { rewrite Hk, len_app in Hl. apply take_ge. unfold len in *. rewrite length_take in Hl. lia. }
  rewrite Hp in Hk. split; [|done]. unfold tight. cbn. rewrite Hk, len_app. lia.
Qed.

Lemma sync_data (s s' : Journal.FileSegment F) e :
  Journal.file_Sync s = (s', e) ->
  Journal.fdata (Journal.ff s') = Journal.fdata (Journal.ff s) /\ (tight s -> tight s').
Proof.
  unfold Journal.file_Sync. destruct (Journal.FSync _) as [f' x] eqn:E. apply Journal.fsync_keeps in E.
  intros [= <- <-]. cbn. split; [done|]. unfold tight. cbn. by rewrite E.
Qed.

(** What an append leaves in the file. *)
Lemma Append_data w fs id t p w' r :
  Journal.synced w fs -> Journal.closed w = false -> len id = 16 -> is_u16 t -> tight (Journal.seg w) ->
  Journal.Append w id t p = (w', r) ->
  let f := Journal.next_fields fs id t p in
  (Journal.fdata (Journal.ff (Journal.seg w')) = Journal.fdata (Journal.ff (Journal.seg w)) \/
   wf_fields f /\ encodable f /\ len (Journal.fdata (Journal.ff (Journal.seg w')) ) < 9223372036854775808 /\
     exists k, Journal.fdata (Journal.ff (Journal.seg w')) = Journal.fdata (Journal.ff (Journal.seg w)) ++ take k (layout f)) /\
  (forall rec, r = Ok rec -> tight (Journal.seg w')).
Proof.
  intros Hsy Hcl Hid Ht Htight E f. rewrite (Journal.Append_synced w fs) in E by done. fold f in E.
  pose proof Hsy as (Hs & Hc & Hi & _ & _). pose proof Hs as [_ Hlt]. rewrite Hi in Hlt.
  assert (Hwf : wf_fields f) by (by apply Journal.next_fields_wf).
  destruct (EncodeRecord f) as [enc|e|] eqn:He.
  2-3: injection E as <- <-; split; [by left|by intros].
  pose proof (EncodeRecord_encodable f enc Hwf He) as Henc. rewrite EncodeRecord_layout in He by done. injection He as <-.
  destruct (MaxJournalSegmentBytes <? _) eqn:Hfit; [injection E as <- <-; split; [by left|by intros]|]. reflect_bools.
  rewrite tight_contents in Hi by done. rewrite <- Hi in Hfit. change MaxJournalSegmentBytes with 1073741824 in Hfit.
  assert (Hgrow : forall s k, Journal.fdata (Journal.ff s) = Journal.fdata (Journal.ff (Journal.seg w)) ++ take k (layout f) ->
    Journal.fdata (Journal.ff s) = Journal.fdata (Journal.ff (Journal.seg w)) \/
    wf_fields f /\ encodable f /\ len (Journal.fdata (Journal.ff s)) < 9223372036854775808 /\
      exists k, Journal.fdata (Journal.ff s) = Journal.fdata (Journal.ff (Journal.seg w)) ++ take k (layout f)).
  { intros s k Hk. right. split_and!; [done|done| |by eauto]. rewrite Hk, len_app. unfold len in *. rewrite length_take. lia. }
  cbn [Journal.SegAppend Journal.SegSync Journal.FileSegment_Segment] in E.
  destruct (Journal.file_Append (Journal.seg w) (layout f)) as [s1 aerr] eqn:Ea.
  destruct (append_data _ _ _ _ Htight Ea) as [[k Hk] Hfull]. destruct aerr as [e|].
  { injection E as <- <-. split; [by eapply Hgrow|done]. }
  destruct (Hfull eq_refl) as [Ht1 _]. destruct (Journal.file_Sync s1) as [s2 serr] eqn:Es.
  destruct (sync_data _ _ _ Es) as [Hd2 Ht2]. rewrite <- Hd2 in Hk.
  destruct serr as [e|]; [injection E as <- <-; split; [by eapply Hgrow|done]|].
  destruct (DecodeRecord (layout f)) as [[rec rest]|e|]; injection E as <- <-; (split; [by eapply Hgrow|]); auto; done.
Qed.

Lemma found_open_image f fs :
  Journal.chain fs -> len (Journal.fdata f) < 9223372036854775808 -> Journal.fdata f = Journal.image fs ->
  found (OpenFileSegment f) = map record_of fs.
Proof.
  intros Hc Hl Hd. unfold found. rewrite (Journal.ReadPrefix_image _ fs); [done|by apply sized_open|done|].
  by rewrite tight_contents by apply open_tight.
Qed.

#[global] Program Instance fileSession_laws : JournalSessionLaws (fileJournalSession F) := {
  jsound s := Journal.sized (OpenFileSegment (current s));
  ready := session_ready;
  jrecords s := found (OpenFileSegment (current s)) }.
Next Obligation.
  intros j (w & fs & Hw & (Hs & _) & _ & Ht). unfold current. by rewrite Hw, tight_open.
Qed.
Next Obligation.
  intros j j' r Hs. cbn in *. unfold session_Open, io_bind. destruct (sw j) as [w|] eqn:Ew.
  { unfold session_prefix. rewrite Ew. by intros [= <- <-]. }
  assert (Hc : current j = sfile j) by (unfold current; by rewrite Ew). rewrite Hc in *.
  destruct (session_prefix j) as [s' r'] eqn:E. destruct (session_prefix_spec _ _ _ Ew Hs E) as (Hs' & Hf & Hr).
  destruct r' as [p|e|]; intros [= <- <-]; [|done|done].
  destruct Hr as (w & fs & Hsw & Hsy & Hcl & Ht & Hrec & _). split; [done|]. split; [done|]. split; [by exists w, fs|].
  rewrite Hrec, <- Hf. unfold current. rewrite Hsw, tight_open by done. symmetry. by apply found_synced.
Qed.
Next Obligation.
  intros j j' r id t p (w & fs & Hw & Hsy & Hcl & Htight) Hid Ht. cbn. unfold session_Append. rewrite Hw.
  pose proof (Journal.Append_outcome w fs id t p Hsy Hcl Hid Ht) as Ho. cbn zeta in Ho.
  destruct (Journal.Append w id t p) as [w' r'] eqn:E. intros [= <- <-]. unfold current. rewrite Hw. cbn.
  destruct (Append_data w fs id t p w' r' Hsy Hcl Hid Ht Htight E) as [Hd Hok]. cbn zeta in Hd.
  set (f := Journal.next_fields fs id t p) in *. pose proof Hsy as (Hs & Hch & Hi & _).
  rewrite (tight_open (Journal.seg w)) by done. rewrite (found_synced w fs) by done.
  assert (Hcar : carries id t p (record_of f)) by done.
  rewrite tight_contents in Hi by done.
  assert (Hlw : len (Journal.fdata (Journal.ff (Journal.seg w))) < 9223372036854775808).
  { rewrite <- (tight_open (Journal.seg w)) in Hs by done. by apply open_sized in Hs. }
  destruct r' as [rec|e|]; [| |done].
  - destruct Ho as (_ & -> & Hsy' & Hcl'). specialize (Hok _ eq_refl). rewrite tight_open by done.
    split; [by destruct Hsy'|]. split; [by exists w', (fs ++ [f])|].
    exists (record_of f). split; [done|]. rewrite (found_synced w' (fs ++ [f])) by done. by rewrite map_app.
  - destruct Hd as [Hd|(Hwf & Henc & Hl & k & Hd)].
    + split; [apply sized_open; by rewrite Hd|]. left. apply found_open_image; [done|by rewrite Hd|by rewrite Hd].
    + split; [by apply sized_open|]. rewrite Hi in Hd.
      destruct (Journal.read_after_partial (OpenFileSegment (Journal.ff (Journal.seg w'))) fs f k) as (p' & Hrd & Hrec);
        [by apply sized_open|done|done|done|done|done|by rewrite tight_contents by apply open_tight|].
      unfold found. rewrite Hrd. destruct Hrec as [->| ->]; [by left|right]. exists (record_of f). by rewrite map_app.
Qed.
Next Obligation.
  intros j j' r Hs. cbn in *. unfold session_Close. destruct (sw j) as [w|] eqn:Ew; intros [= <- <-]; [|done].
  unfold current in *. rewrite Ew in *. by cbn.
Qed.

End SessionLaws.

End LocalSession.
