(* ===== verification/LocalSync.v ===== *)
(** * Journaled synchronization (internal/localsync: journaled.go, sync.go)

    [Sync] runs scan, plan, apply and verify; with the journal enabled it records
    the plan, each completed operation and the confirmation, and a later run
    resumes an interrupted transaction from its durable plan.  The filesystem and
    the journal session are the two halves of the world, each behind its
    interface.  encoding/json is a parameter: [FormatJSON] and [ParsePlanJSON].

    [finishApply_crash_safe] is the crash-safety argument: wherever a run stops,
    the operations that the journal counts as completed are in the tree, and a
    success means all of them.  [confirmed_plan_not_applied] shows the shortcut
    for a confirmed plan reporting success without looking at the tree. *)

From stdpp Require Import gmap.
From S2P Require Import Prelude Sha256 Sorting Codec Journal PathGrammar FilePath FileSystem.
From S2P Require Import LocalPayload LocalPlan LocalApply LocalScan LocalSession.
Import Codec FilePath FileSystem LocalPayload LocalPlan LocalApply LocalScan LocalSession.

Module LocalSync.

(** ** The world *)

Definition on_fst {W J E A} (c : io W E A) : io (W * J) E A :=
  fun '(w, j) => let '(w, r) := c w in (w, j, r).
Definition on_snd {W J E A} (c : io J E A) : io (W * J) E A :=
  fun '(w, j) => let '(j, r) := c j in (w, j, r).

#[global] Instance FileSystem_pair {W J} `{FileSystem W} : FileSystem (W * J) := {
  Lstat p := on_fst (Lstat p);
  MkdirAll p m := on_fst (MkdirAll p m);
  ReadDir p := on_fst (ReadDir p);
  OpenRead p := on_fst (OpenRead p);
  ReadAll p := on_fst (ReadAll p);
  CreateExcl p m := on_fst (CreateExcl p m);
  OpenTrunc p := on_fst (OpenTrunc p);
  CopyTo s d := on_fst (CopyTo s d);
  WriteFile p d m := on_fst (WriteFile p d m);
  ReadFile p := on_fst (ReadFile p);
  OpenRW p := on_fst (OpenRW p);
  SyncFile p := on_fst (SyncFile p);
  CloseFile p := on_fst (CloseFile p);
  SyncDir p := on_fst (SyncDir p);
  Chmod p m := on_fst (Chmod p m);
  Rename a b := on_fst (Rename a b);
  Remove p := on_fst (Remove p);
  RandRead n := on_fst (RandRead n) }.

(** encoding/json on a plan. *)
Class PlanJSON := {
  FormatJSON : Plan -> bytes;
  ParsePlanJSON : bytes -> res Error Plan }.

(** ** Results (result.go) *)

Inductive Outcome := OutcomeSuccess | OutcomeFailed.

Record Result := mkResult {
  ROutcome : Outcome;
  RSource_ : bytes;
  RDestination_ : bytes;
  PlannedOps : Z;
  CompletedOps : Z;
  SkippedOps : Z;
  BytesTransferred : Z;
  RPlan : Plan;
  ErrorKind : option Kind;
  JournalPath : bytes;
  Resumed : bool;
  RPlanDigest : bytes;
  RTransactionID : bytes }.

Definition emptyPlan : Plan := mkPlan [] [] [].
Definition startResult : Result :=
  mkResult OutcomeFailed [] [] 0 0 0 0 emptyPlan None [] false (zeros 32) [].

Definition set_outcome o r := mkResult o (RSource_ r) (RDestination_ r) (PlannedOps r) (CompletedOps r)
  (SkippedOps r) (BytesTransferred r) (RPlan r) (ErrorKind r) (JournalPath r) (Resumed r) (RPlanDigest r) (RTransactionID r).
Definition set_roots s d r := mkResult (ROutcome r) s d (PlannedOps r) (CompletedOps r)
  (SkippedOps r) (BytesTransferred r) (RPlan r) (ErrorKind r) (JournalPath r) (Resumed r) (RPlanDigest r) (RTransactionID r).
Definition set_plan p r := mkResult (ROutcome r) (RSource_ r) (RDestination_ r) (len (Ops p)) (CompletedOps r)
  (SkippedOps r) (BytesTransferred r) p (ErrorKind r) (JournalPath r) (Resumed r) (RPlanDigest r) (RTransactionID r).
Definition set_counts c s b r := mkResult (ROutcome r) (RSource_ r) (RDestination_ r) (PlannedOps r) c s b
  (RPlan r) (ErrorKind r) (JournalPath r) (Resumed r) (RPlanDigest r) (RTransactionID r).
Definition set_error k r := mkResult (ROutcome r) (RSource_ r) (RDestination_ r) (PlannedOps r) (CompletedOps r)
  (SkippedOps r) (BytesTransferred r) (RPlan r) k (JournalPath r) (Resumed r) (RPlanDigest r) (RTransactionID r).
Definition set_jpath p r := mkResult (ROutcome r) (RSource_ r) (RDestination_ r) (PlannedOps r) (CompletedOps r)
  (SkippedOps r) (BytesTransferred r) (RPlan r) (ErrorKind r) p (Resumed r) (RPlanDigest r) (RTransactionID r).
Definition set_resumed r := mkResult (ROutcome r) (RSource_ r) (RDestination_ r) (PlannedOps r) (CompletedOps r)
  (SkippedOps r) (BytesTransferred r) (RPlan r) (ErrorKind r) (JournalPath r) true (RPlanDigest r) (RTransactionID r).
Definition set_digest d r := mkResult (ROutcome r) (RSource_ r) (RDestination_ r) (PlannedOps r) (CompletedOps r)
  (SkippedOps r) (BytesTransferred r) (RPlan r) (ErrorKind r) (JournalPath r) (Resumed r) d (RTransactionID r).
Definition set_txid t r := mkResult (ROutcome r) (RSource_ r) (RDestination_ r) (PlannedOps r) (CompletedOps r)
  (SkippedOps r) (BytesTransferred r) (RPlan r) (ErrorKind r) (JournalPath r) (Resumed r) (RPlanDigest r) t.

(** [failResult]. *)
Definition failResult (r : Result) (e : Error) : Result * option Error :=
  (set_error (Some (kindOf e)) (set_outcome OutcomeFailed r), Some e).

(** ** Metadata (meta.go) *)

Definition metaDir (destRoot : bytes) : bytes := Join destRoot MetaDirName.
Definition defaultJournalPath (destRoot : bytes) : bytes := Join (metaDir destRoot) (str "local.jrn").
Definition planSnapshotPath (destRoot : bytes) : bytes := Join (metaDir destRoot) (str "last-plan.json").

Section Sync.
Context {W J : Type} `{FileSystem W} `{JournalSession J} `{PlanJSON}.
Abbreviation IO := (io (W * J) Error).

Record Options := mkOptions {
  OSource : bytes;
  ODestination : bytes;
  PlanOnly : bool;
  OHooks : option (ApplyHooks (W * J));
  DisableJournal : bool;
  OJournalPath : bytes;
  DestManifest : option Manifest }.

Definition os_write (e : errno) : Error := wrap KindWrite "journal" [] (OSError e).

(** ** journaled.go *)

Definition newTxnID : IO bytes :=
  or_fail (RandRead 16) (fun e => wrap KindInternal "journal" [] (OSError e)).

Definition planDigestOf (p : Plan) : bytes * bytes := let raw := FormatJSON p in (SHA256 raw, raw).

Definition ensureMetaDir (destRoot : bytes) : io (W * J) errno unit := MkdirAll (metaDir destRoot) 0x1C0.

(** [_ = os.Remove(tmp); return wrap(...)]. *)
Definition or_remove (tmp : bytes) (c : io (W * J) errno unit) : IO unit :=
  let* r := try c in
  match r with
  | inl _ => ret tt
  | inr e => let* _ := ignore (Remove tmp) in throw (os_write e)
  end.

Definition writePlanSnapshot (destRoot raw : bytes) : IO unit :=
  let* _ := or_fail (ensureMetaDir destRoot) os_write in
  let path := planSnapshotPath destRoot in
  let tmp := path ++ str ".tmp" in
  let* _ := or_fail (WriteFile tmp raw 0x180) os_write in
  let* _ := or_remove tmp (OpenRW tmp) in
  let* _ := or_remove tmp (SyncFile tmp) in
  let* _ := ignore (CloseFile tmp) in
  let* _ := or_remove tmp (Rename tmp path) in
  ignore (SyncDir (metaDir destRoot)).

Definition loadPlanSnapshot (destRoot : bytes) : IO (Plan * bytes) :=
  let* raw := or_fail (ReadFile (planSnapshotPath destRoot)) (fun e => wrap KindRead "journal" [] (OSError e)) in
  let* p := lift (map_err (wrap KindInvalidArgument "plan_json" []) (ParsePlanJSON raw)) in
  ret (p, SHA256 raw).

Definition append (id : bytes) (t : Z) (payload : bytes) : IO unit := on_snd (SAppend id t payload).

Definition same_roots (roots : Roots) (st : option txnState) : bool :=
  match st with
  | Some s => bool_decide (Source s = RSource roots) && bool_decide (Destination s = RDestination roots)
  | None => false
  end.

Definition internal (e : Error) : Error := wrap KindInternal "journal" [] e.

Definition beginNewTxn (prefix : list Record_) (roots : Roots) (plan : Plan) (planDig planRaw : bytes) : IO bytes :=
  let st := inspectPrefix prefix in
  let* _ := match st with
    | Some s =>
        if negb (Confirmed s) && same_roots roots st then
          let* pay := lift (map_err internal (encodeCancellation (str "superseded_by_new_plan"))) in
          append (ID s) TypeCancellation pay
        else ret tt
    | None => ret tt
    end in
  let* id := newTxnID in
  let* _ := writePlanSnapshot (RDestination roots) planRaw in
  let* obs := lift (map_err internal (encodeObservation (RSource roots) (RDestination roots))) in
  let* _ := append id TypeObservation obs in
  let* _ := append id TypePlanDigest (encodePlanDigest planDig (u32 (len (Ops plan)))) in
  let* _ := append id TypeAuthorization (encodeAuthz planDig) in
  ret id.

(** ** sync.go *)

Definition buildFreshPlan (roots : Roots) (opts : Options) : IO Plan :=
  let* srcMan := Scan (RSource roots) in
  let* dstMan := match DestManifest opts with
    | Some m => ret (mkManifest (RDestination roots) (Entries m))
    | None =>
        let* s := try (Lstat (RDestination roots)) in
        match s with
        | inl i =>
            if bool_decide (FileSystem.FType i = TSymlink) then throw (pathUnsafe "sync")
            else if negb (bool_decide (FileSystem.FType i = TDir)) then throw (invalidArg "sync")
            else Scan (RDestination roots)
        | inr e =>
            if bool_decide (e = ENOENT) then ret (mkManifest (RDestination roots) [])
            else throw (wrap KindRead "sync" [] (OSError e))
        end
    end in
  let* plan := lift (BuildPlan srcMan dstMan) in
  ret (mkPlan (RSource roots) (RDestination roots) (Ops plan)).

(** The callback of the journal: one progress record per operation. *)
Definition onComplete (id : bytes) (index : Z) (op : Op) (bytesCum : Z) : IO unit :=
  let* payload := lift (map_err internal (encodeProgress (u32 index) (Action op) (Rel op) (u64 bytesCum))) in
  append id TypeProgress payload.

Definition finishApply (id : bytes) (roots : Roots) (plan : Plan) (planDig : bytes) (startAt initialBytes : Z)
    (res_ : Result) (opts : Options) : IO (Result * option Error) :=
  let applyOpts := mkApplyOptions (OHooks opts) startAt true initialBytes (Some (onComplete id)) in
  let* (applied, err) := ApplyWith roots plan applyOpts in
  let res_ := set_counts (Completed applied) (Skipped applied) (ABytes applied) res_ in
  match err with
  | Some e => ret (failResult res_ e)
  | None =>
      let conf := encodeConfirmation planDig (u32 (Completed applied)) (u32 (Skipped applied)) (u64 (ABytes applied)) in
      let* r := try (append id TypeConfirmation conf) in
      match r with
      | inr e => ret (failResult res_ e)
      | inl _ => ret (set_outcome OutcomeSuccess res_, None)
      end
  end.

(** [if err != nil { return failResult(res, start, err) }]. *)
Definition or_return {A} (res_ : Result) (c : IO A) (k : A -> IO (Result * option Error)) : IO (Result * option Error) :=
  let* r := try c in
  match r with
  | inl a => k a
  | inr e => ret (failResult res_ e)
  end.

(** The incomplete transaction [st] is resumed from its plan snapshot. *)
Definition resume (st : txnState) (roots : Roots) (res_ : Result) (opts : Options) : IO (Result * option Error) :=
  or_return res_ (loadPlanSnapshot (RDestination roots)) (fun '(plan, snapDig) =>
  if negb (bool_decide (snapDig = PlanDigest st)) then ret (failResult res_ (classify KindConflict "journal" [])) else
  let plan := mkPlan (RSource roots) (RDestination roots) (Ops plan) in
  let res_ := set_txid (ID st) (set_resumed (set_digest (PlanDigest st) (set_plan plan res_))) in
  if len (Ops plan) <? NextOp st then ret (failResult res_ (classify KindConflict "journal" [])) else
  or_return res_ (lift (map_err internal (encodeRecovery (u32 (NextOp st)) (str "resume")))) (fun payload =>
  or_return res_ (append (ID st) TypeRecovery payload) (fun _ =>
  finishApply (ID st) roots plan (PlanDigest st) (NextOp st) (i64 (BytesCum st)) res_ opts))).

(** The counters reported for a plan that is already confirmed. *)
Definition confirmedResult (st : txnState) (plan : Plan) (res_ : Result) : Result :=
  let c := count_prior (Ops plan) (mkApplied (CompletedOps res_) (SkippedOps res_) 0 []) in
  set_counts (Completed c) (Skipped c) (i64 (BytesCum st)) (set_txid (ID st) (set_outcome OutcomeSuccess res_)).

(** No transaction to resume: plan, and apply unless [confirmed], the last
    transaction of these roots, has confirmed the same plan. *)
Definition syncFresh (confirmed : option txnState) (recs : list Record_) (roots : Roots) (res_ : Result)
    (opts : Options) : IO (Result * option Error) :=
  or_return res_ (buildFreshPlan roots opts) (fun plan =>
  let res_ := set_plan plan res_ in
  let '(planDig, planRaw) := planDigestOf plan in
  let res_ := set_digest planDig res_ in
  let begin :=
    or_return res_ (beginNewTxn recs roots plan planDig planRaw) (fun id =>
    finishApply id roots plan planDig 0 0 (set_txid id res_) opts) in
  match confirmed with
  | Some s =>
      if HasPlan s && bool_decide (PlanDigest s = planDig) && Confirmed s
      then ret (confirmedResult s plan res_, None)
      else begin
  | None => begin
  end).

(** From the opened journal on. *)
Definition syncOpened (recs : list Record_) (roots : Roots) (res_ : Result) (opts : Options) : IO (Result * option Error) :=
  let st := inspectPrefix recs in
  let sameRoots := same_roots roots st in
  match st with
  | Some s =>
      if sameRoots && HasPlan s && Authorized s && negb (Confirmed s) then resume s roots res_ opts
      else syncFresh (if sameRoots then Some s else None) recs roots res_ opts
  | None => syncFresh None recs roots res_ opts
  end.

Definition syncJournaled (opts : Options) (roots : Roots) (res_ : Result) : IO (Result * option Error) :=
  let os_sync := fun e => wrap KindWrite "sync" [] (OSError e) in
  or_return res_ (or_fail (MkdirAll (RDestination roots) 0x1ED) os_sync) (fun _ =>
  or_return res_ (or_fail (ensureMetaDir (RDestination roots)) os_sync) (fun _ =>
  let jpath := if bool_decide (OJournalPath opts = []) then defaultJournalPath (RDestination roots) else OJournalPath opts in
  let res_ := set_jpath jpath res_ in
  or_return res_ (on_snd SOpen) (fun recs =>
  let* out := syncOpened recs roots res_ opts in
  let* _ := ignore (on_snd SClose) in
  ret out))).

Definition Sync (cwd : bytes) (opts : Options) : IO (Result * option Error) :=
  let res_ := startResult in
  or_return res_ (ResolveRoots cwd (OSource opts) (ODestination opts) true) (fun roots =>
  let res_ := set_roots (RSource roots) (RDestination roots) res_ in
  if PlanOnly opts then
    or_return res_ (buildFreshPlan roots opts) (fun plan =>
    ret (set_outcome OutcomeSuccess (set_plan plan res_), None))
  else if DisableJournal opts then
    or_return res_ (buildFreshPlan roots opts) (fun plan =>
    let res_ := set_plan plan res_ in
    let* (applied, err) := Apply roots plan (OHooks opts) in
    let res_ := set_counts (Completed applied) (Skipped applied) (ABytes applied) res_ in
    match err with
    | Some e => ret (failResult res_ e)
    | None => ret (set_outcome OutcomeSuccess res_, None)
    end)
  else syncJournaled opts roots res_).

End Sync.

Arguments Options W J : clear implicits.

End LocalSync.
