(* ===== verification/LocalResume.v ===== *)
(** * Interrupted synchronizations (internal/localsync: sync.go, journaled.go)

    What a journaled run leaves behind wherever it stops.  [resumable] is the
    state between two runs: the journal names a plan whose snapshot is in the
    destination, and the operations that it counts as completed are in the tree.
    Every run of [syncJournaled] that starts from such a state ends in one, with
    the count no smaller, and a success means that every operation is done; so
    any number of crashes and restarts converges on the plan or reports an error.

    The journal half of the world is untouched by filesystem calls ([keeps]) and
    is moved by [SAppend] alone, through the laws of [JournalSession]. *)

From stdpp Require Import gmap.
From S2P Require Import Prelude Sha256 Sorting Codec Journal PathGrammar FilePath FileSystem.
From S2P Require Import LocalPayload LocalPlan LocalApply LocalScan LocalSession LocalSync.
Import Codec FilePath FileSystem LocalPayload LocalPlan LocalApply LocalScan LocalSession LocalSync.

Module LocalResume.

(** ** The two halves of the world *)

(** Each law of the pair is the law of its first half. *)
Ltac use_law L := solve [eapply L; eassumption].
Ltac by_law :=
  first [use_law lstat_law | use_law mkdirall_spec | use_law readdir_spec | use_law openread_spec
        |use_law readall_spec | use_law createexcl_spec | use_law opentrunc_spec | use_law copyto_spec
        |use_law writefile_spec | use_law readfile_spec | use_law openrw_spec | use_law sync_spec
        |use_law close_spec | use_law syncdir_spec | use_law chmod_spec | use_law rename_spec
        |use_law remove_spec | use_law rand_spec].

#[global] Program Instance FileSystem_pair_laws {W J} `{FileSystemLaws W} : FileSystemLaws (W * J) := {
  view := fun wj => view wj.1 }.
Solve Obligations with
  (intros; repeat match goal with w : (_ * _)%type |- _ => destruct w as [? ?] end;
   match goal with H : _ = (_, _, _) |- _ => cbn in H; unfold on_fst in H end;
   match goal with H : (let '(_, _) := ?c in _) = _ |- _ => destruct c as [? ?] eqn:?; injection H as <- <- <- end;
   cbn in *; by_law).

(** A computation that leaves the journal alone. *)
Definition keeps {W J E A} (c : io (W * J) E A) : Prop := forall w, (c w).1.2 = w.2.

Section Keeps.
Context {W J : Type} `{FileSystem W}.

Lemma keeps_ret {E A} (a : A) : keeps (W := W) (J := J) (E := E) (ret a).
Proof. done. Qed.
Lemma keeps_throw {E A} (e : E) : keeps (W := W) (J := J) (A := A) (throw e).
Proof. done. Qed.
Lemma keeps_lift {E A} (r : res E A) : keeps (W := W) (J := J) (lift r).
Proof. done. Qed.
Lemma keeps_fst {E A} (c : io W E A) : keeps (J := J) (on_fst c).
Proof. intros [w j]. unfold on_fst. by destruct (c w). Qed.
Lemma keeps_bind {E A B} (c : io (W * J) E A) (k : A -> io (W * J) E B) :
  keeps c -> (forall a, keeps (k a)) -> keeps (io_bind c k).
Proof.
  intros Hc Hk w. unfold io_bind. specialize (Hc w). destruct (c w) as [w1 [a|e|]]; cbn in *; [|done|done].
  by rewrite Hk.
Qed.
Lemma keeps_or_fail {E F A} (c : io (W * J) E A) (f : E -> F) : keeps c -> keeps (or_fail c f).
Proof. intros Hc w. unfold or_fail. specialize (Hc w). by destruct (c w). Qed.
Lemma keeps_try {E F A} (c : io (W * J) E A) : keeps c -> keeps (try (F := F) c).
Proof. intros Hc w. unfold try. specialize (Hc w). by destruct (c w). Qed.
Lemma keeps_ignore {E F A} (c : io (W * J) E A) : keeps c -> keeps (ignore (F := F) c).
Proof. intros Hc w. unfold ignore. specialize (Hc w). by destruct (c w). Qed.
Lemma keeps_cleanup {A} tmp (c : io (W * J) Error A) : keeps c -> keeps (with_cleanup tmp c).
Proof.
  intros Hc w. unfold with_cleanup. specialize (Hc w). destruct (c w) as [w1 [a|e|]]; [done| |];
    pose proof (keeps_fst (Remove tmp) w1) as Hr; cbn in *; unfold on_fst in *; destruct w1 as [w1 j1];
    destruct (Remove tmp w1); cbn in *; congruence.
Qed.

End Keeps.

Create HintDb keeps discriminated.
#[export] Hint Resolve keeps_ret keeps_throw keeps_lift keeps_fst keeps_or_fail keeps_try keeps_ignore keeps_cleanup : keeps.

(** Structural search through a computation. *)
Ltac keep :=
  repeat (cbv beta zeta;
    match goal with
    | |- keeps (io_bind _ _) => apply keeps_bind; [|intros ?]
    | |- keeps (or_fail _ _) => apply keeps_or_fail
    | |- keeps (try _) => apply keeps_try
    | |- keeps (ignore _) => apply keeps_ignore
    | |- keeps (with_cleanup _ _) => apply keeps_cleanup
    | |- keeps (match ?x with _ => _ end) => destruct x
    | |- keeps (run_hook None) => apply keeps_ret
    | |- _ => first [apply keeps_ret | apply keeps_throw | apply keeps_lift | solve [auto with keeps nocore] | apply keeps_fst]
    end).

Section KeepsOps.
Context {W J : Type} `{FileSystem W}.
Abbreviation keeps := (keeps (W := W) (J := J)).

Lemma keeps_HashFile p : keeps (HashFile p).
Proof. unfold HashFile. keep. Qed.

Lemma keeps_createTemp d : keeps (createTemp d).
Proof. unfold createTemp. keep. Qed.

Lemma keeps_cleanupTemps d : keeps (cleanupTemps d).
Proof.
  unfold cleanupTemps. apply keeps_bind; [keep|]. intros names.
  induction names as [|n names IH]; cbn [cleanup_loop]; keep.
Qed.

Lemma keeps_applyMkdir d op : keeps (applyMkdir d op).
Proof. unfold applyMkdir. keep. Qed.

#[local] Hint Resolve keeps_HashFile keeps_createTemp keeps_cleanupTemps keeps_applyMkdir : keeps.

Lemma keeps_stage s d t want op : keeps (stage s d t want op None).
Proof. unfold stage. cbn [mbind option_bind]. keep. Qed.

#[local] Hint Resolve keeps_stage : keeps.

Lemma keeps_applyFile roots op : keeps (applyFile roots op None).
Proof. unfold applyFile, publish. keep. Qed.

#[local] Hint Resolve keeps_applyFile : keeps.

Lemma keeps_apply_op roots op : keeps (apply_op roots op None).
Proof. unfold apply_op. keep. Qed.

Lemma keeps_visit descend root path name acc :
  (forall p a, keeps (descend p a)) -> keeps (visit descend root path name acc).
Proof. intros Hd. unfold visit. keep. Qed.

Lemma keeps_walk fuel root path acc : keeps (walk fuel root path acc).
Proof.
  revert path acc. induction fuel as [|fuel IH]; intros path acc; cbn [walk]; [apply keeps_lift|].
  apply keeps_bind; [keep|]. intros names. revert acc.
  induction names as [|n names IHn]; intros acc; cbn [visit_all]; [apply keeps_ret|].
  apply keeps_bind; [by apply keeps_visit|]. intros acc'. apply IHn.
Qed.

#[local] Hint Resolve keeps_walk : keeps.

Lemma keeps_Scan root : keeps (Scan root).
Proof. unfold Scan. keep. Qed.

#[local] Hint Resolve keeps_Scan : keeps.

Lemma keeps_buildFreshPlan roots (opts : Options W J) : keeps (buildFreshPlan roots opts).
Proof. unfold buildFreshPlan. keep. Qed.

End KeepsOps.

(** ** What a record adds *)

Lemma inspectPrefix_loop recs s :
  inspectPrefix recs = Some s <-> inspect_loop recs (zeroTxn, false) = (s, true) /\ Cancelled s = false.
Proof.
  unfold inspectPrefix. destruct (inspect_loop _ _) as [cur f]. split.
  - destruct f; [|done]. destruct (Cancelled cur) eqn:E; [done|]. by intros [= <-].
  - intros [[= -> ->] ->]. done.
Qed.

Lemma inspect_snoc recs s rec s' :
  inspectPrefix recs = Some s -> inspect_record rec (s, true) = (s', true) -> Cancelled s' = false ->
  inspectPrefix (recs ++ [rec]) = Some s'.
Proof.
  intros [Hl _]%inspectPrefix_loop Hr Hc. apply inspectPrefix_loop. split; [|done].
  by rewrite inspect_loop_app, Hl.
Qed.

Lemma with_progress_id s : with_progress (NextOp s) (BytesCum s) s = s.
Proof. by destruct s. Qed.

(** A relative path that is accepted fits a progress record. *)
Lemma join_slash_len cs : cs <> [] -> len (PathGrammar.join_slash cs) <= PathGrammar.path_bytes cs + len cs.
Proof.
  induction cs as [|c [|d cs] IH]; intros Hn; [done| |].
  - cbn [PathGrammar.join_slash PathGrammar.path_bytes fold_right]. len_lia.
  - rewrite PathGrammar.join_slash_cons. specialize (IH ltac:(done)).
    unfold PathGrammar.path_bytes in *. cbn [fold_right map] in *. autorewrite with len in *. lia.
Qed.

Lemma validateRel_len rel : validateRel rel = Ok tt -> len rel <= 5120.
Proof.
  unfold validateRel. destruct (_ || _ || _); [done|].
  destruct (PathGrammar.ValidateJoined rel _) as [cs| |] eqn:E; try done. intros _.
  apply PathGrammar.ValidateJoined_iff in E as [E ->]. apply PathGrammar.ValidateComponents_iff in E as (Hl & _ & Hb).
  assert (cs <> []) by (intros ->; rewrite len_nil in Hl; lia).
  pose proof (join_slash_len cs ltac:(done)). unfold PathGrammar.MaxPathBytes, PathGrammar.MaxComponents in *. lia.
Qed.

(** ** Runs *)

Section Runs.
Context {W J : Type} `{FileSystemLaws W} `{JournalSessionLaws J} `{PlanJSON}.
Abbreviation World := (W * J)%type.

(** The journal's account of the current transaction. *)
Definition recorded (j : J) (s : txnState) : Prop := inspectPrefix (jrecords j) = Some s.

(** An append that ends in the account [s'] or leaves the account [s]. *)
Lemma wp_append id t p s s' (Q : World -> res Error unit -> Prop) w j :
  ready j -> len id = 16 -> is_u16 t -> recorded j s -> Cancelled s' = false ->
  (forall rec, carries id t p rec -> inspect_record rec (s, true) = (s', true)) ->
  (forall j' r, jsound j' ->
     match r with
     | Ok _ => ready j' /\ recorded j' s'
     | Err _ => recorded j' s \/ recorded j' s'
     | Panic => False
     end -> Q (w, j') r) ->
  wp (append id t p) Q (w, j).
Proof.
  intros Hr Hid Ht Hs Hc Hrec HQ. apply wp_call. intros w' r E. unfold append, on_snd in E.
  destruct (SAppend id t p j) as [j' r'] eqn:Ea. injection E as <- <-.
  destruct (append_spec _ _ _ _ _ _ Hr Hid Ht Ea) as [Hj Ho].
  assert (Hsn : forall rec, carries id t p rec -> jrecords j' = jrecords j ++ [rec] -> recorded j' s').
  { intros rec Hca E. unfold recorded. rewrite E. by eapply inspect_snoc; [exact Hs|apply Hrec|]. }
  apply HQ; [done|]. destruct r' as [[]|e|]; [| |done].
  - destruct Ho as (Hr' & rec & Hca & E). split; [done|]. by eapply Hsn.
  - destruct Ho as [E|(rec & Hca & E)]; [left|right; by eapply Hsn]. unfold recorded. by rewrite E.
Qed.

Definition known_action (op : Op) : bool := is_skip op || bool_decide (Action op = ActionMkdir) || is_file_op op.

Lemma known_action_len op : known_action op = true -> len (Action op) <= 7.
Proof.
  unfold known_action, is_skip, is_file_op. rewrite !orb_true_iff, !bool_decide_eq_true.
  by intros [[->| ->]|[->| ->]]; vm_compute.
Qed.

Lemma wp_onComplete s op cum (Q : World -> res Error unit -> Prop) w j :
  ready j -> recorded j s -> len (ID s) = 16 -> Cancelled s = false -> 0 <= NextOp s < 2 ^ 32 ->
  validateRel (Rel op) = Ok tt -> known_action op = true ->
  (forall j' r, jsound j' ->
     match r with
     | Ok _ => ready j' /\ recorded j' (with_progress (NextOp s + 1) (u64 cum) s)
     | Err _ => recorded j' s \/ recorded j' (with_progress (NextOp s + 1) (u64 cum) s)
     | Panic => False
     end -> Q (w, j') r) ->
  wp (onComplete (ID s) (NextOp s) op cum) Q (w, j).
Proof.
  intros Hr Hs Hid Hc Hn Hv Hk HQ. apply validateRel_len in Hv. apply known_action_len in Hk.
  unfold onComplete. apply wp_bind, wp_lift.
  destruct (encodeProgress _ _ _ _) as [p|e|] eqn:E; cbn [map_err];
    [|by rewrite encodeProgress_ok in E by lia..].
  apply decodeProgress_encode in E as Hd; [|apply u32_range|apply u64_range|lia].
  rewrite u32_small in Hd by (unfold is_u32; lia).
  apply (wp_append _ _ _ s (with_progress (NextOp s + 1) (u64 cum) s)); [done|done|by vm_compute|done|done| |done].
  intros rec Hrec. by eapply inspect_progress.
Qed.

Lemma apply_op_known roots op (w w' : World) x :
  apply_op roots op None w = (w', Ok x) -> known_action op = true.
Proof.
  unfold apply_op, known_action, is_skip, is_file_op, io_bind, lift.
  destruct (validateRel _); [|done|done]. destruct (bool_decide (Action op = ActionSkip)); [done|].
  destruct (bool_decide (Action op = ActionMkdir)); [done|]. by destruct (_ || _).
Qed.

(** An operation moves the tree and not the journal. *)
Lemma wp_apply_op_journal sr dr op (Q : World -> res Error (Z * bool) -> Prop) w j :
  Forall plain sr -> Forall plain dr -> usable (view w) sr dr op ->
  (forall w' r, evolves (op_paths dr op) (op_dirs dr op) (view w) (view w') ->
     match r with
     | Ok _ => validateRel (Rel op) = Ok tt /\ known_action op = true /\ done_op dr (view w') op
     | Err _ => True
     | Panic => False
     end -> Q (w', j) r) ->
  wp (apply_op (mkRoots (native sr) (native dr)) op None) Q (w, j).
Proof.
  intros Hsr Hdr Hu HQ. apply wp_call. intros [w' j'] r E.
  pose proof (keeps_apply_op (mkRoots (native sr) (native dr)) op (w, j)) as Hk. rewrite E in Hk. cbn in Hk. subst j'.
  assert (Hkn : forall x, r = Ok x -> known_action op = true) by (intros x ->; by eapply apply_op_known).
  eapply (wp_run _ (fun wj r => evolves (op_paths dr op) (op_dirs dr op) (view w) (view wj) /\
     match r with
     | Ok _ => validateRel (Rel op) = Ok tt /\ done_op dr (view wj) op
     | Err _ => True
     | Panic => False
     end)) in E; [destruct E as [He Hr]|].
  - apply HQ; [done|]. destruct r; [|done|done]. destruct Hr. eauto.
  - apply wp_apply_op; [done..|]. intros w1 [[? ?]| |] He Hr; (split; [done|]); [|done|done]. by destruct Hr as (? & _ & ?).
Qed.

(** The operations that the journal counts are in the tree. *)
Definition honest (dr : list bytes) (ops : list Op) (v : tree) (n : Z) : Prop :=
  0 <= n <= len ops /\ Forall (done_op dr v) (take (Z.to_nat n) ops).

Definition distinct (ops : list Op) : Prop := NoDup (map (fun o => Split (Rel o)) ops).

Lemma distinct_mid pre op rest o :
  distinct (pre ++ op :: rest) -> o ∈ pre -> Split (Rel op) <> Split (Rel o).
Proof.
  unfold distinct. rewrite map_app, NoDup_app. intros (_ & Hd & _) Ho E.
  apply (Hd (Split (Rel o))); [apply list_elem_of_fmap; by exists o|]. rewrite <- E. cbn. apply list_elem_of_here.
Qed.

Lemma honest_evolves sr dr pre op rest v v' :
  Forall (usable v sr dr) (pre ++ op :: rest) -> distinct (pre ++ op :: rest) ->
  evolves (op_paths dr op) (op_dirs dr op) v v' ->
  Forall (done_op dr v) pre -> Forall (done_op dr v') pre.
Proof.
  intros Hu Hd He Hp. apply Forall_app in Hu as [Hu _]. rewrite Forall_forall in Hu, Hp |- *. intros o Ho.
  eapply (done_op_stable dr o [op] v); [by eapply usable_untemp, Hu| | |by apply Hp].
  - intros o' ->%list_elem_of_singleton _. by eapply distinct_mid.
  - eapply evolves_mono; [| |exact He]; intros; by apply Exists_cons_hd.
Qed.

(** Between operations: the journal has counted exactly the first ones. *)
Lemma wp_journal_loop sr dr ops pre rest opts s out (Q : World -> res Error (ApplyResult * option Error) -> Prop) w j :
  Forall plain sr -> Forall plain dr -> OnOpComplete opts = Some (onComplete (ID s)) ->
  ops = pre ++ rest -> len ops < 2 ^ 32 -> Forall (usable (view w) sr dr) ops -> distinct ops ->
  ready j -> recorded j s -> len (ID s) = 16 -> Cancelled s = false -> NextOp s = len pre ->
  Forall (done_op dr (view w)) pre ->
  (forall w' j' out' err n cum, jsound j' -> recorded j' (with_progress n cum s) -> len pre <= n ->
     honest dr ops (view w') n -> evolves (plan_paths dr rest) (plan_dirs dr rest) (view w) (view w') ->
     (err = None -> ready j' /\ n = len ops) ->
     Q (w', j') (Ok (out', err))) ->
  wp (apply_loop (fun op => apply_op (mkRoots (native sr) (native dr)) op None) opts (NextOp s) rest out) Q (w, j).
Proof.
  intros Hsr Hdr Hcb Hops Hlen Hu Hd. revert pre s out w j Hcb Hops Hu.
  induction rest as [|op rest IH]; intros pre s out w j Hcb Hops Hu Hr Hs Hid Hc Hn Hpre HQ; cbn [apply_loop].
  { apply wp_ret. rewrite app_nil_r in Hops. subst pre. eapply HQ; [by apply ready_sound|by rewrite with_progress_id|lia| | |done].
    - split; [pose proof (len_nonneg ops); lia|]. by apply Forall_take.
    - apply evolves_refl. }
  pose proof (len_nonneg rest). pose proof (len_nonneg pre).
  assert (Hl : len ops = len pre + 1 + len rest) by (subst ops; len_lia).
  assert (Hstay : forall v, Forall (done_op dr v) pre -> honest dr ops v (len pre)).
  { intros v Hv. split; [lia|]. subst ops. by rewrite take_app_length' by (unfold len; lia). }
  apply wp_bind, wp_try. assert (Hu1 : usable (view w) sr dr op).
  { subst ops. apply Forall_app in Hu as [_ [? _]%Forall_cons]. done. }
  apply wp_apply_op_journal; [done..|]. intros w1 r1 He Hr1.
  assert (Hpre1 : Forall (done_op dr (view w1)) pre) by (subst ops; by eapply honest_evolves).
  assert (He1 : evolves (plan_paths dr (op :: rest)) (plan_dirs dr (op :: rest)) (view w) (view w1)).
  { eapply evolves_mono; [| |exact He]; intros; by apply Exists_cons_hd. }
  destruct r1 as [[k sk]|e|]; [..|done]; cycle 1.
  { apply wp_ret. eapply HQ; [by apply ready_sound|by rewrite with_progress_id|lia|rewrite Hn; auto|done|done]. }
  destruct Hr1 as (Hval & Hkn & Hdone). set (out1 := mkApplied _ _ _ _).
  assert (Hnext : forall v, Forall (done_op dr v) (pre ++ [op]) -> honest dr ops v (len pre + 1)).
  { intros v Hv. split; [lia|]. subst ops. change (op :: rest) with ([op] ++ rest). rewrite app_assoc.
    rewrite take_app_length'; [done|]. rewrite length_app. unfold len. cbn. lia. }
  assert (Hpre2 : Forall (done_op dr (view w1)) (pre ++ [op])) by (apply Forall_app; auto).
  apply wp_bind, wp_try. rewrite Hcb. apply wp_onComplete; try done; [lia|]. intros j2 r2 Hj2 Hr2.
  destruct r2 as [[]|e|]; [..|done]; cycle 1.
  { apply wp_ret. destruct Hr2 as [Hr2|Hr2].
    - eapply HQ; [done|by rewrite with_progress_id|lia|rewrite Hn; auto|done|done].
    - eapply HQ; [done|exact Hr2|lia|rewrite Hn; auto|done|done]. }
  destruct Hr2 as [Hrd2 Hs2]. change (NextOp s + 1) with (NextOp (with_progress (NextOp s + 1) (u64 (ABytes out1)) s)).
  apply (IH (pre ++ [op]) (with_progress (NextOp s + 1) (u64 (ABytes out1)) s)); try done.
  - subst ops. by rewrite <- app_assoc.
  - eapply Forall_impl; [exact Hu|]. intros o. by eapply usable_evolves.
  - cbn. rewrite Hn. len_lia.
  - intros w' j' out' err n cum Hj' Hs' Hn' Hh' He' Hok. eapply HQ; [done|exact Hs'| |done| |done].
    + autorewrite with len in Hn'. lia.
    + eapply evolves_trans; [exact He1|]. eapply evolves_mono; [| |exact He']; intros; by apply Exists_cons_tl.
Qed.

Lemma wp_fst {E A} (c : io W E A) (Q : World -> res E A -> Prop) w j :
  wp c (fun w' r => Q (w', j) r) w -> wp (on_fst c) Q (w, j).
Proof. unfold wp, on_fst. by destruct (c w). Qed.

Lemma honest_same dr ops v v' n :
  (forall op, op ∈ ops -> v' !! target dr op = v !! target dr op) -> honest dr ops v n -> honest dr ops v' n.
Proof.
  intros Hv [Hn Hf]. split; [done|]. rewrite Forall_forall in Hf |- *. intros op Ho. specialize (Hf op Ho).
  unfold done_op, published in *. rewrite !Hv; [done|..]; apply elem_of_take in Ho as (i & Hi & _); by eapply list_elem_of_lookup_2.
Qed.

(** Directories made on the way to the root are not below it. *)
Lemma created_targets v v' dr op : created_dirs v v' dr -> v' !! target dr op = v !! target dr op.
Proof.
  intros Hc. destruct (Hc (target dr op)) as [?|(_ & Hp & _)]; [done|]. apply prefix_length in Hp. unfold target in Hp.
  rewrite length_app in Hp. pose proof (Split_nonempty (Rel op)). destruct (Split (Rel op)); [done|]. cbn in Hp. lia.
Qed.

(** The journal's account [s] after the first [n] operations. *)
Definition at_op (s : txnState) (n cum : Z) (confirmed : bool) : txnState :=
  with_flags confirmed (Cancelled s) (Authorized s) (with_progress n cum s).

Lemma at_op_progress s n cum : Confirmed s = false -> at_op s n cum false = with_progress n cum s.
Proof. by destruct s; cbn; intros ->. Qed.

Definition near (dr : list bytes) (ops : list Op) (q : list bytes) : Prop := q `prefix_of` dr \/ plan_dirs dr ops q.

Lemma Exists_drop {A} (P : A -> Prop) n l : Exists P (drop n l) -> Exists P l.
Proof. intros Hx. rewrite <- (take_drop n l). apply Exists_app. by right. Qed.

(** The plan from the journal's count on: wherever it stops, the journal counts
    only what is in the tree. *)
Lemma wp_ApplyWith_journal sr dr plan s bytes_ (Q : World -> res Error (ApplyResult * option Error) -> Prop) w j :
  applicable w sr dr (Ops plan) -> len (Ops plan) < 2 ^ 32 ->
  ready j -> recorded j s -> len (ID s) = 16 -> Cancelled s = false -> honest dr (Ops plan) (view w) (NextOp s) ->
  (forall w' j' out err n cum, jsound j' -> recorded j' (with_progress n cum s) -> NextOp s <= n ->
     honest dr (Ops plan) (view w') n -> evolves (plan_paths dr (Ops plan)) (near dr (Ops plan)) (view w) (view w') ->
     (err = None -> ready j' /\ n = len (Ops plan)) ->
     Q (w', j') (Ok (out, err))) ->
  wp (ApplyWith (mkRoots (native sr) (native dr)) plan
        (mkApplyOptions None (NextOp s) true bytes_ (Some (onComplete (ID s))))) Q (w, j).
Proof.
  intros (Hsr & Hdr & Hld & Hu & Hnd) Hlen Hr Hs Hid Hc [Hn Hdone] HQ.
  assert (Hlt : len (take (Z.to_nat (NextOp s)) (Ops plan)) = NextOp s) by (unfold len in *; rewrite length_take; lia).
  assert (Hstop : forall w1 out e, honest dr (Ops plan) (view w1) (NextOp s) ->
    evolves (plan_paths dr (Ops plan)) (near dr (Ops plan)) (view w) (view w1) -> Q (w1, j) (Ok (out, Some e))).
  { intros w1 out e Hh He. eapply HQ; [by apply ready_sound|by rewrite with_progress_id|lia|done|done|done]. }
  assert (Hstop0 : forall out e, Q (w, j) (Ok (out, Some e))) by (intros; by apply Hstop; [|apply evolves_refl]).
  unfold ApplyWith. cbv zeta. do 3 (case_if; [by apply wp_ret|]). apply wp_bind, wp_try.
  apply wp_fst, wp_call. cbn [RDestination]. intros w1 r1 E1. apply mkdirall_spec in E1 as [Hcr Hr1]; [|done..].
  assert (Hh1 : honest dr (Ops plan) (view w1) (NextOp s)).
  { eapply honest_same; [|by split]. intros op _. by apply created_targets. }
  assert (He1 : evolves (plan_paths dr (Ops plan)) (near dr (Ops plan)) (view w) (view w1)).
  { eapply evolves_created; [exact Hcr|]. intros p Hp. by left. }
  destruct r1 as [[]|e|]; [|by apply wp_ret, Hstop|done]. unfold apply_from. cbn [StartAt Hooks].
  apply (wp_journal_loop sr dr (Ops plan) (take (Z.to_nat (NextOp s)) (Ops plan))); try done.
  - by rewrite take_drop.
  - eapply Forall_impl; [exact Hu|]. intros o. by eapply usable_evolves.
  - by apply distinct_Split.
  - by apply Hh1.
  - intros w' j' out' err n cum Hj Hs' Hn' Hh' He' Hok. eapply HQ; [done|exact Hs'|lia|done| |done].
    eapply evolves_trans; [exact He1|]. eapply evolves_mono; [| |exact He'].
    + intros q. by apply Exists_drop.
    + intros q Hq. right. by eapply Exists_drop.
Qed.

Lemma wp_finishApply sr dr plan dig s bytes_ res_ (opts : Options W J) (Q : World -> res Error (Result * option Error) -> Prop) w j :
  OHooks opts = None -> applicable w sr dr (Ops plan) -> len (Ops plan) < 2 ^ 32 ->
  ready j -> recorded j s -> len (ID s) = 16 -> Cancelled s = false -> Confirmed s = false ->
  honest dr (Ops plan) (view w) (NextOp s) ->
  (forall w' j' out err n cum c, jsound j' -> recorded j' (at_op s n cum c) -> NextOp s <= n ->
     honest dr (Ops plan) (view w') n -> evolves (plan_paths dr (Ops plan)) (near dr (Ops plan)) (view w) (view w') ->
     (c = true -> n = len (Ops plan)) ->
     (err = None -> c = true /\ ROutcome out = OutcomeSuccess) ->
     Q (w', j') (Ok (out, err))) ->
  wp (finishApply (ID s) (mkRoots (native sr) (native dr)) plan dig (NextOp s) bytes_ res_ opts) Q (w, j).
Proof.
  intros Hh Ha Hlen Hr Hs Hid Hc Hcf Hn HQ. unfold finishApply. rewrite Hh. apply wp_bind.
  apply wp_ApplyWith_journal; [done..|]. intros w1 j1 out err n cum Hj Hs1 Hn1 Hh1 He Hok.
  destruct err as [e|]; [apply wp_ret; by eapply (HQ _ _ _ _ n cum false); [|rewrite at_op_progress|..]|].
  destruct (Hok eq_refl) as [Hrd ->]. apply wp_bind, wp_try. set (n := len (Ops plan)) in *.
  apply (wp_append _ _ _ (with_progress n cum s) (at_op s n cum true));
    [done|done|by vm_compute|done|done|intros rec Hrec; by eapply inspect_confirmation|].
  intros j2 r2 Hj2 Hr2. destruct r2 as [[]|e|]; [|apply wp_ret|done].
  - destruct Hr2. apply wp_ret. by eapply (HQ _ _ _ _ n cum true).
  - destruct Hr2; [eapply (HQ _ _ _ _ n cum false)|eapply (HQ _ _ _ _ n cum true)]; try done. by rewrite at_op_progress.
Qed.

(** ** Between runs *)

Definition snapshotName : bytes := str "last-plan.json".
Definition snapshot_dir (dr : list bytes) : list bytes := dr ++ [MetaDirName].

(** A tree ready for the plan [ops] whose snapshot has the digest [dig]. *)
Definition snapshotted (sr dr : list bytes) (ops : list Op) (dig : bytes) (w : W) : Prop :=
  applicable w sr dr ops /\ nolink (view w) (snapshot_dir dr) /\ len ops < 2 ^ 32 /\
  Forall (fun op => nonmeta (Split (Rel op))) ops /\
  exists m raw p, view w !! (snapshot_dir dr ++ [snapshotName]) = Some (NFile m raw) /\ SHA256 raw = dig /\
    ParsePlanJSON raw = Ok p /\ Ops p = ops.

(** The journal's account of a transaction with plan [ops] is true of the tree. *)
Definition accounted (sr dr : list bytes) (ops : list Op) (s : txnState) (w : W) (j : J) : Prop :=
  jsound j /\ recorded j s /\ Source s = native sr /\ Destination s = native dr /\ HasPlan s = true /\
  Authorized s = true /\ len (ID s) = 16 /\ honest dr ops (view w) (NextOp s) /\
  (Confirmed s = true -> NextOp s = len ops).

Definition resumable (sr dr : list bytes) (ops : list Op) (s : txnState) (w : W) (j : J) : Prop :=
  snapshotted sr dr ops (PlanDigest s) w /\ accounted sr dr ops s w j.

Lemma snapshot_not_planned dr ops :
  Forall (fun op => nonmeta (Split (Rel op))) ops -> ~ plan_paths dr ops (snapshot_dir dr ++ [snapshotName]).
Proof.
  intros Hm (op & Hin & _ & cs & c & Hs & Hq)%Exists_exists. rewrite Forall_forall in Hm. specialize (Hm op Hin).
  assert (exists x, dr ++ [MetaDirName; snapshotName] = (dr ++ cs) ++ [x]) as [x E].
  { unfold snapshot_dir in Hq. rewrite <- app_assoc in Hq. destruct Hq as [Hq|(t & Hq & _)]; eauto. }
  rewrite <- app_assoc in E. apply app_inv_head in E. destruct cs as [|a [|b cs]]; try done.
  - injection E as <- _. rewrite Hs in Hm. by apply Hm.
  - injection E as _ _ E. by destruct cs.
Qed.

Lemma snapshotted_evolves sr dr ops dig w w' X D :
  evolves X D (view w) (view w') -> ~ X (snapshot_dir dr ++ [snapshotName]) ->
  snapshotted sr dr ops dig w -> snapshotted sr dr ops dig w'.
Proof.
  intros He Hx ((Hsr & Hdr & Hld & Hu & Hnd) & Hlm & Hlen & Hm & m & raw & p & Hv & Hrest).
  split_and!; try done; try (by eapply evolves_nolink).
  - split_and!; try done; [by eapply evolves_nolink|]. eapply Forall_impl; [exact Hu|]. intros o. by eapply usable_evolves.
  - exists m, raw, p. split; [|done]. destruct (He (snapshot_dir dr ++ [snapshotName])) as [[->|[?|[Hn _]]] _]; [done|done|congruence].
Qed.

(** Directories made on the way to the metadata directory. *)
Lemma meta_targets v v' dr op :
  created_dirs v v' (snapshot_dir dr) -> nonmeta (Split (Rel op)) -> v' !! target dr op = v !! target dr op.
Proof.
  intros Hc Hm. destruct (Hc (target dr op)) as [?|(_ & Hp & _)]; [done|exfalso]. unfold target, snapshot_dir in Hp.
  apply prefix_app_inv in Hp. pose proof (Split_nonempty (Rel op)). destruct (Split (Rel op)) as [|x l]; [done|].
  destruct Hp as [k Hk]. injection Hk as <- _. by apply Hm.
Qed.

Lemma resumable_created sr dr ops s w w' j :
  created_dirs (view w) (view w') (snapshot_dir dr) -> resumable sr dr ops s w j -> resumable sr dr ops s w' j.
Proof.
  intros Hc [Hsn (? & ? & ? & ? & ? & ? & ? & Hh & ?)]. split.
  - eapply (snapshotted_evolves _ _ _ _ _ _ (fun _ => False) (fun q => q `prefix_of` snapshot_dir dr)); [|tauto|done].
    by eapply evolves_created.
  - split_and!; try done. eapply honest_same; [|exact Hh]. intros op Hop. apply meta_targets; [done|].
    destruct Hsn as (_ & _ & _ & Hm & _). rewrite Forall_forall in Hm. by apply Hm.
Qed.

Lemma metaDir_native dr : Forall plain dr -> metaDir (native dr) = native (snapshot_dir dr).
Proof. intros Hd. apply Join_native; [done|apply MetaDirName_plain]. Qed.

Lemma snapshotName_plain : plain snapshotName.
Proof. apply (demo_plain "last-plan.json"); by vm_compute. Qed.

Lemma snapshot_plain dr : Forall plain dr -> Forall plain (snapshot_dir dr).
Proof. intros Hd. apply plain_snoc; [done|apply MetaDirName_plain]. Qed.

Lemma planSnapshotPath_native dr :
  Forall plain dr -> planSnapshotPath (native dr) = native (snapshot_dir dr ++ [snapshotName]).
Proof.
  intros Hd. unfold planSnapshotPath. rewrite metaDir_native by done.
  apply Join_native; [by apply snapshot_plain|apply snapshotName_plain].
Qed.

Lemma wp_loadPlanSnapshot sr dr ops dig (Q : World -> res Error (Plan * bytes) -> Prop) w j :
  snapshotted sr dr ops dig w ->
  (forall w' r, view w' = view w ->
     match r with Ok (p, d) => Ops p = ops /\ d = dig | Err _ => True | Panic => False end -> Q (w', j) r) ->
  wp (loadPlanSnapshot (native dr)) Q (w, j).
Proof.
  intros ((Hsr & Hdr & _) & Hlm & _ & _ & m & raw & p & Hv & Hdig & Hp & Hops) HQ. unfold loadPlanSnapshot.
  apply wp_bind, wp_or_fail. rewrite planSnapshotPath_native by done. apply wp_fst, wp_call. intros w1 r1 E1.
  apply readfile_spec in E1 as [Hv1 Hr1]; [| |by rewrite Hv].
  2: { split; [by apply snapshot_plain|]. split; [apply snapshotName_plain|done]. }
  destruct r1 as [raw'|e|]; cbn [map_err]; [|by apply HQ|done].
  destruct Hr1 as [m' Hr1]. rewrite Hv in Hr1. injection Hr1 as <- <-.
  apply wp_bind, wp_lift. rewrite Hp. apply wp_ret. by apply HQ.
Qed.

(** [or_return]: a failure is reported with the result so far. *)
Lemma wp_or_return {A} res_ (c : io World Error A) k (Q : World -> res Error (Result * option Error) -> Prop) w :
  wp c (fun w' r => match r with
    | Ok a => wp (k a) Q w'
    | Err e => Q w' (Ok (failResult res_ e))
    | Panic => Q w' Panic
    end) w -> wp (or_return res_ c k) Q w.
Proof.
  intros Hw. unfold or_return. apply wp_bind, wp_try. eapply wp_mono; [exact Hw|]. by intros w' [a|e|].
Qed.

(** The outcome of a run on a resumable state. *)
Definition resumed (sr dr : list bytes) (ops : list Op) (s : txnState) (wj : World)
    (r : res Error (Result * option Error)) : Prop :=
  exists s' out err, r = Ok (out, err) /\ resumable sr dr ops s' wj.1 wj.2 /\ ID s' = ID s /\
    PlanDigest s' = PlanDigest s /\ NextOp s <= NextOp s' /\
    (err = None -> ROutcome out = OutcomeSuccess /\ Confirmed s' = true).

Lemma resumed_stop sr dr ops s w j res_ e :
  resumable sr dr ops s w j -> resumed sr dr ops s (w, j) (Ok (failResult res_ e)).
Proof. intros Hr. exists s. eexists _, (Some e). split_and!; try done. Qed.

Lemma wp_resume sr dr ops s res_ (opts : Options W J) w j :
  OHooks opts = None -> resumable sr dr ops s w j -> ready j -> Cancelled s = false -> Confirmed s = false ->
  wp (resume s (mkRoots (native sr) (native dr)) res_ opts) (resumed sr dr ops s) (w, j).
Proof.
  intros Hh Hres Hr Hc Hcf. pose proof Hres as [Hsn (Hj & Hs & Hsrc & Hdst & Hhp & Hau & Hid & Hhon & Hcn)].
  unfold resume. apply wp_or_return. cbn [RDestination RSource]. eapply wp_loadPlanSnapshot; [done|].
  intros w1 r1 Hv1 Hr1.
  assert (Hres1 : resumable sr dr ops s w1 j).
  { apply (resumable_created _ _ _ _ w); [|done]. intros q. left. by rewrite Hv1. }
  destruct r1 as [[p d]|e|]; [|by apply resumed_stop|done]. destruct Hr1 as [Hops ->].
  rewrite bool_decide_eq_true_2 by done. cbn [negb Ops]. rewrite Hops.
  wp_if; [reflect_bools; destruct Hhon; lia|]. apply wp_or_return, wp_lift.
  unfold encodeRecovery. rewrite putBytes_ok by (by vm_compute). cbn [map_err].
  apply wp_or_return. apply (wp_append _ _ _ s s); [done|done|by vm_compute|done|done|intros; by eapply inspect_recovery|].
  intros j2 r2 Hj2 Hr2.
  assert (Hs2 : recorded j2 s) by (destruct r2 as [[]|e|]; [by destruct Hr2|by destruct Hr2|done]).
  assert (Hres2 : resumable sr dr ops s w1 j2) by (destruct Hres1 as [? (? & ? & ?)]; by split_and!).
  destruct r2 as [[]|e|]; [|by apply resumed_stop|done].
  destruct Hres2 as [Hsn2 (_ & _ & _ & _ & _ & _ & _ & Hhon2 & _)]. pose proof Hsn2 as (Ha2 & _ & Hlen & Hm & _).
  apply wp_finishApply; cbn [Ops]; try done; [by destruct Hr2|].
  intros w' j' out err n cum c Hj' Hs' Hn Hhon' He Hcl Hok. exists (at_op s n cum c), out, err. split; [done|].
  split; [split|]; [|by split_and!|by split_and!; try done; intros E; destruct (Hok E)].
  eapply snapshotted_evolves; [exact He|by apply snapshot_not_planned|done].
Qed.

Lemma created_dirs_mono v v' a b : a `prefix_of` b -> created_dirs v v' a -> created_dirs v v' b.
Proof. intros Hp Hc q. destruct (Hc q) as [?|(? & ? & ?)]; [by left|right]. split_and!; [done|by etrans|done]. Qed.

Lemma created_dirs_eq v cs : created_dirs v v cs.
Proof. intros q. by left. Qed.

Lemma resumable_records sr dr ops s w j j' :
  resumable sr dr ops s w j -> jsound j' -> jrecords j' = jrecords j -> resumable sr dr ops s w j'.
Proof.
  intros [Hsn (_ & Hs & Hrest)] Hj' E. split; [done|]. split; [done|]. split; [|done]. unfold recorded. by rewrite E.
Qed.

(** C4. Crash safety of a journaled synchronization.  Start from a state that an
    interrupted run has left: the journal's last transaction has a plan whose
    snapshot is in the destination, and the operations it counts as completed are
    in the tree.  A run from there, whatever system call or journal append
    fails and wherever it stops, leaves such a state again for the same plan, and
    counts no fewer operations.  When it reports success the transaction is
    confirmed and every operation of the plan is in the tree.  Restarts
    therefore only ever move towards the planned tree. *)
Theorem resume_crash_safe sr dr ops s res_ (opts : Options W J) w j w' j' r :
  OHooks opts = None -> resumable sr dr ops s w j -> Confirmed s = false ->
  syncJournaled opts (mkRoots (native sr) (native dr)) res_ (w, j) = ((w', j'), r) ->
  exists s' out err, r = Ok (out, err) /\ resumable sr dr ops s' w' j' /\
    ID s' = ID s /\ NextOp s <= NextOp s' /\
    (err = None -> ROutcome out = OutcomeSuccess /\ Confirmed s' = true /\ Forall (done_op dr (view w')) ops).
Proof.
  intros Hh Hres Hcf E.
  assert (Hgo : resumed sr dr ops s (w', j') r); cycle 1.
  { destruct Hgo as (s' & out & err & -> & Hres' & Hid & _ & Hn & Hok). exists s', out, err. split_and!; try done.
    intros E'. destruct (Hok E') as [Ho Hc']. split; [done|]. split; [done|].
    destruct Hres' as [_ (_ & _ & _ & _ & _ & _ & _ & [_ Hd] & Hl)]. rewrite (Hl Hc') in Hd.
    unfold len in Hd. by rewrite Nat2Z.id, take_ge in Hd. }
  pattern (w', j'), r. eapply wp_run; [|exact E]. clear E w' j' r.
  pose proof Hres as [((_ & Hdr & Hld & _) & Hlm & _) _].
  unfold syncJournaled. cbn [RDestination]. apply wp_or_return, wp_or_fail, wp_fst, wp_call. intros w1 r1 E1.
  apply mkdirall_spec in E1 as [Hcr1 Hr1]; [|done..].
  assert (Hres1 : resumable sr dr ops s w1 j).
  { eapply resumable_created; [|exact Hres]. eapply created_dirs_mono; [|exact Hcr1]. by apply prefix_app_r. }
  destruct r1 as [[]|e|]; cbn [map_err]; [|by apply resumed_stop|done].
  pose proof Hres1 as [(_ & Hlm1 & _) _]. apply wp_or_return, wp_or_fail. unfold ensureMetaDir.
  rewrite metaDir_native by done. apply wp_fst, wp_call. intros w2 r2 E2.
  apply mkdirall_spec in E2 as [Hcr2 Hr2]; [|by apply snapshot_plain|done].
  assert (Hres2 : resumable sr dr ops s w2 j) by (by eapply resumable_created).
  destruct r2 as [[]|e|]; cbn [map_err]; [|by apply resumed_stop|done].
  cbv zeta. apply wp_or_return, wp_call. intros [w3 j3] r3 E3. unfold on_snd in E3.
  destruct (SOpen j) as [j0 r0] eqn:Eo. injection E3 as <- <- <-.
  pose proof Hres2 as [_ (Hj & Hs & Hrest)]. destruct (open_spec _ _ _ Hj Eo) as (Hj0 & Hrec & Hr0).
  assert (Hres0 : resumable sr dr ops s w2 j0) by (by eapply resumable_records).
  destruct r0 as [recs|e|]; [|by apply resumed_stop|done]. destruct Hr0 as [Hrd ->].
  destruct Hrest as (Hsrc & Hdst & Hhp & Hau & _). pose proof Hs as [_ Hca]%inspectPrefix_loop.
  unfold syncOpened, same_roots. cbv beta zeta. unfold recorded in Hs. rewrite !Hs. cbn [RSource RDestination].
  rewrite Hsrc, Hdst, !bool_decide_eq_true_2, Hhp, Hau, Hcf by done. cbn [andb negb].
  apply wp_bind. eapply wp_mono; [by apply wp_resume|].
  intros [w4 j4] r4 (s' & out & err & -> & Hres' & Hrest'). cbn [fst snd] in Hres'.
  apply wp_bind, wp_ignore, wp_call. intros [w5 j5] r5 E5. unfold on_snd in E5.
  destruct (SClose j4) as [j6 r6] eqn:Ec. injection E5 as <- <- <-.
  pose proof Hres' as [_ (Hj' & _)]. destruct (sclose_spec _ _ _ Hj' Ec) as (Hj6 & Hrec6 & Hp6).
  assert (Hres6 : resumable sr dr ops s' w4 j6) by (by eapply resumable_records).
  destruct r6; [|..|done]; apply wp_ret; by exists s', out, err.
Qed.

End Runs.

End LocalResume.
