(* ===== verification/LocalFresh.v ===== *)
(** * Fresh plans (internal/localsync: sync.go)

    What a run that plans anew does.  The plan that [buildFreshPlan] makes from
    two scans is applicable to the tree they describe, and a run of [Sync]
    without the journal that reports success has made the destination hold every
    directory and every file content of the source.  With the journal, a run that
    starts a new transaction leaves a state from which a later run can resume. *)

From stdpp Require Import gmap.
From S2P Require Import Prelude Sha256 Sorting Codec Journal PathGrammar FilePath FileSystem.
From S2P Require Import LocalPayload LocalPlan LocalApply LocalScan LocalSession LocalSync.
From S2P Require Import LocalResume.
Import Sorting Codec FilePath FileSystem LocalPayload LocalPlan LocalApply LocalScan LocalSession LocalSync LocalResume.

Module LocalFresh.

(** ** The plan of two scans *)

Definition planned (v : tree) (sr dr : list bytes) (plan : Plan) : Prop :=
  exists src dst p, lists v sr src /\ lists v dr dst /\ BuildPlan src dst = Ok p /\
    plan = mkPlan (native sr) (native dr) (Ops p).

(** No name of the source looks like a temporary file. *)
Definition no_temps (v : tree) (sr : list bytes) : Prop :=
  forall cs c n, v !! (sr ++ cs ++ [c]) = Some n -> is_temp c = false.

Section Planned.
Context (v : tree) (sr dr : list bytes).
Hypothesis tree_v : tree_ok v.

(** The operations are one for one the nodes of the source. *)
Lemma planned_ops plan :
  planned v sr dr plan ->
  exists dst, lists v dr dst /\
    (forall op, op ∈ Ops plan -> exists cs n s, cs <> [] /\ nonmeta cs /\ v !! (sr ++ cs) = Some n /\
       entry_for cs n s /\ op_for dst s op) /\
    (forall cs n, cs <> [] -> nonmeta cs -> v !! (sr ++ cs) = Some n ->
       exists s op, op ∈ Ops plan /\ entry_for cs n s /\ op_for dst s op).
Proof.
  intros (src & dst & p & (_ & _ & Hsrc & Hall) & Hdst & Hp & ->). exists dst. split; [done|]. cbn [Ops].
  destruct (BuildPlan_inv _ _ _ Hp) as (ops & -> & _ & _ & Hf). pose proof Hdst as (_ & Hsd & _). split.
  - intros op Hop. rewrite sort_ops_perm in Hop. apply list_elem_of_lookup in Hop as [i Hi].
    destruct (Forall2_lookup_r _ _ _ _ _ Hf Hi) as (s & Hs & Ho). apply list_elem_of_lookup_2 in Hs.
    apply Hsrc in Hs as (cs & n & ? & ? & ? & ?). exists cs, n, s. split_and!; try done. by apply plan_entry_for.
  - intros cs n Hne Hm Hn. destruct (Hall cs n Hne Hm Hn) as [s He]. exists s.
    assert (Hin : s ∈ Entries src) by (apply Hsrc; by exists cs, n).
    apply list_elem_of_lookup in Hin as [i Hi]. destruct (Forall2_lookup_l _ _ _ _ _ Hf Hi) as (op & Ho & Hpe).
    exists op. rewrite sort_ops_perm. split_and!; [by eapply list_elem_of_lookup_2|done|by apply plan_entry_for].
Qed.

Lemma op_for_rel dst s op : op_for dst s op -> Rel op = ERel s.
Proof. by intros []. Qed.

Lemma Split_rel cs n s dst op :
  Forall plain cs -> cs <> [] -> entry_for cs n s -> op_for dst s op -> Split (Rel op) = cs.
Proof.
  intros Hp Hn He Ho. rewrite (op_for_rel _ _ _ Ho), (entry_for_rel _ _ _ He).
  destruct cs as [|c cs]; [done|]. by apply Split_join.
Qed.

Lemma planned_distinct plan : planned v sr dr plan -> NoDup (map Rel (Ops plan)).
Proof.
  intros (src & dst & p & (_ & Hs & _) & (_ & Hsd & _) & Hp & ->). cbn [Ops].
  destruct (BuildPlan_inv _ _ _ Hp) as (ops & -> & _ & _ & Hf).
  rewrite (Permutation_map Rel (sort_ops_perm ops)).
  assert (map Rel ops = map ERel (Entries src)) as ->.
  { clear Hs Hp. induction Hf as [|s o l k Ho _ IH]; [done|]. cbn. rewrite IH. f_equal.
    by eapply op_for_rel, plan_entry_for. }
  clear Hp Hf. unfold sorted_manifest in Hs. induction Hs as [|e l _ IH He]; [constructor|]. cbn. constructor; [|done].
  intros Hin. apply list_elem_of_fmap in Hin as (e' & E & Hin). rewrite Forall_forall in He. specialize (He _ Hin).
  rewrite E in He. assert (bytes_Compare (ERel e') (ERel e') = 0) by (by apply cmp_eq). lia.
Qed.

Hypothesis link_s : nolink v sr.
Hypothesis link_d : nolink v dr.

Lemma nolink_under r cs :
  nolink v r -> (forall k n, k <> [] -> k `prefix_of` cs -> v !! (r ++ k) = Some n -> n <> NOther TSymlink) ->
  nolink v (r ++ cs).
Proof.
  intros Hl Hk p Hp E. destruct (prefix_weak_total p r (r ++ cs)) as [Hr|[k ->]]; [done|by apply prefix_app_r|by apply (Hl p)|].
  apply prefix_app_inv in Hp. destruct k as [|x k]; [rewrite app_nil_r in E; by apply (Hl r)|]. by apply (Hk (x :: k) _ ltac:(done) Hp E).
Qed.

Lemma nonmeta_prefix k cs : k <> [] -> k `prefix_of` cs -> nonmeta cs -> nonmeta k.
Proof. intros Hk [l ->]. by rewrite nonmeta_app. Qed.

Lemma planned_usable plan op : no_temps v sr -> planned v sr dr plan -> op ∈ Ops plan -> usable v sr dr op.
Proof.
  intros Ht Hp Hop. destruct (planned_ops _ Hp) as (dst & (_ & _ & _ & Hdst) & Hops & _).
  destruct (Hops op Hop) as (cs0 & n & s & Hne & Hm & Hn & He & Ho).
  destruct (tree_above _ _ _ _ tree_v Hn Hne) as [Hpl _]. intros cs c E.
  rewrite (Split_rel _ _ _ _ _ Hpl Hne He Ho) in E. subst cs0. split; [|split].
  - apply nolink_under; [done|]. intros k n' _ [l ->] Hk ->. rewrite <- app_assoc, app_assoc in Hn.
    destruct (tree_above _ _ _ _ tree_v Hn) as [_ [m E]]; [by destruct l|]. congruence.
  - apply nolink_under; [done|]. intros k n' Hk Hkc Hn' ->.
    assert (Hkm : nonmeta k) by (eapply nonmeta_prefix; [done| |exact Hm]; etrans; [exact Hkc|]; by apply prefix_app_r).
    by destruct (Hdst k _ Hk Hkm Hn') as [e []].
  - by eapply Ht.
Qed.

Lemma planned_nonmeta plan : planned v sr dr plan -> Forall (fun op => nonmeta (Split (Rel op))) (Ops plan).
Proof.
  intros Hp. destruct (planned_ops _ Hp) as (dst & _ & Hops & _). apply Forall_forall. intros op Hop.
  destruct (Hops op Hop) as (cs & n & s & Hne & Hm & Hn & He & Ho).
  destruct (tree_above _ _ _ _ tree_v Hn Hne) as [Hpl _]. by rewrite (Split_rel _ _ _ _ _ Hpl Hne He Ho).
Qed.

(** ** Convergence *)

(** The destination holds every directory and file content of the source. *)
Definition mirrors (v' : tree) : Prop :=
  forall cs n, cs <> [] -> nonmeta cs -> v !! (sr ++ cs) = Some n ->
  match n with
  | NDir _ => exists m, v' !! (dr ++ cs) = Some (NDir m)
  | NFile _ d => exists m d', v' !! (dr ++ cs) = Some (NFile m d') /\ SHA256 d' = SHA256 d
  | NOther _ => False
  end.

(** What is at the target of an operation that is not a file operation stays. *)
Lemma target_kept D ops op v' n :
  usable v sr dr op -> NoDup (map Rel ops) -> op ∈ ops -> is_file_op op = false ->
  evolves (plan_paths dr ops) D v v' -> v !! target dr op = Some n -> v' !! target dr op = Some n.
Proof.
  intros Hu Hnd Hin Hf He Hn. destruct (exists_last (Split_nonempty (Rel op))) as (cs & c & Hs).
  destruct (Hu _ _ Hs) as (_ & _ & Ht).
  destruct (He (target dr op)) as [[->|[Hx|(Hx & _)]] _]; [done|exfalso|congruence].
  apply Exists_exists in Hx as (o & Ho & Hfo & cs' & c' & Hs' & Hx). unfold target in Hx. rewrite Hs in Hx.
  destruct Hx as [Hx|(t & Hx & Ht')].
  - rewrite <- app_assoc in Hx. apply app_inv_head in Hx. rewrite <- Hs, <- Hs' in Hx. apply Split_inj in Hx.
    apply list_elem_of_lookup in Hin as [i Hi]. apply list_elem_of_lookup in Ho as [k Hk].
    assert (i = k) as ->; [|congruence]. eapply NoDup_lookup; [exact Hnd| |]; rewrite list_lookup_fmap;
      [rewrite Hi|rewrite Hk]; cbn; by rewrite ?Hx.
  - rewrite app_assoc in Hx. apply app_inj_2 in Hx as [_ [= ->]]; [congruence|done].
Qed.

(** Done operations, with the entries that are skipped still there. *)
Lemma converge plan v' :
  planned v sr dr plan ->
  (forall op n, op ∈ Ops plan -> is_file_op op = false -> v !! target dr op = Some n -> v' !! target dr op = Some n) ->
  Forall (done_op dr v') (Ops plan) -> mirrors v'.
Proof.
  intros Hp Hkept Hd cs n Hne Hm Hn. destruct (planned_ops _ Hp) as (dst & (_ & _ & Hdst & _) & Hops & Hall).
  destruct (Hall cs n Hne Hm Hn) as (s & op & Hop & Hs & Ho).
  destruct (tree_above _ _ _ _ tree_v Hn Hne) as [Hpl _].
  pose proof (Split_rel _ _ _ _ _ Hpl Hne Hs Ho) as Hsp. rewrite Forall_forall in Hd. destruct (Hd op Hop) as [Hmk Hfl].
  pose proof (fun n => Hkept op n Hop) as Hkeep.
  unfold published, target in *. rewrite Hsp in *.
  assert (Hat : forall d, d ∈ Entries dst -> ERel d = ERel s -> exists n', v !! (dr ++ cs) = Some n' /\ entry_for cs n' d).
  { intros d (cs' & n' & Hne' & Hm' & Hn' & He')%Hdst Er. rewrite (entry_for_rel _ _ _ He'), (entry_for_rel _ _ _ Hs) in Er.
    destruct (tree_above _ _ _ _ tree_v Hn' Hne') as [Hpl' _]. apply join_slash_inj in Er as ->; [|done..]. by exists n'. }
  destruct n as [m|m d|t]; cbn in Hs; [subst s|subst s|done].
  - destruct Ho as [_ _|e _ Hin Er Hdt|Hty _|e Hty _ _ _ _ _ _|e Hty _ _ _ _]; cbn in *; [by apply Hmk| |discriminate..].
    destruct (Hat e Hin Er) as ([m'| |] & Hn' & He'); cbn in He'; [|by subst e|done]. exists m'. by apply Hkeep.
  - assert (Hpub : is_file_op op = true -> ExpectedDigestHex op = hex_encode (SHA256 d) ->
      exists m' d', v' !! (dr ++ cs) = Some (NFile m' d') /\ SHA256 d' = SHA256 d).
    { intros Hf Hx. destruct (Hfl Hf) as (d' & Hd' & Hdig). rewrite Hx, digestFromHex_encode in Hdig by apply len_sha256.
      exists (file_mode op), d'. split; [exact Hd'|]. symmetry. exact (Ok_inj _ _ Hdig). }
    destruct Ho as [Hty _|e Hty _ _ _|_ _|e _ Hin Er Hdt _ _ Heq|e _ _ _ _ _]; cbn in *; [discriminate..|by apply Hpub| |by apply Hpub].
    destruct (Hat e Hin Er) as ([|m' d'|] & Hn' & He'); cbn in He'; [by subst e|subst e|done]. exists m', d'.
    split; [by apply Hkeep|done].
Qed.

End Planned.

(** ** Runs *)

Section Runs.
Context {W J : Type} `{FileSystemLaws W}.
Abbreviation World := (W * J)%type.

Lemma lists_absent v dr : tree_ok v -> v !! dr = None -> lists v dr (mkManifest (native dr) []).
Proof.
  intros Ht Hn. assert (Hno : forall cs n, cs <> [] -> v !! (dr ++ cs) = Some n -> False).
  { intros cs n Hc Hv. destruct (tree_above _ _ _ _ Ht Hv Hc) as [_ [m E]]. congruence. }
  split; [done|]. split; [constructor|]. cbn. split.
  - intros e. split; [by intros []%not_elem_of_nil|]. intros (cs & n & ? & _ & ? & _). by destruct (Hno cs n).
  - intros cs n ? _ ?. by destruct (Hno cs n).
Qed.

Lemma wp_buildFreshPlan sr dr (opts : Options W J) (Q : World -> res Error Plan -> Prop) w j :
  DestManifest opts = None -> tree_ok (view w) -> Forall plain sr -> Forall plain dr ->
  nolink (view w) sr -> nolink (view w) dr ->
  (forall w' r, view w' = view w ->
     match r with Ok plan => planned (view w) sr dr plan | Err _ => True | Panic => False end -> Q (w', j) r) ->
  wp (buildFreshPlan (mkRoots (native sr) (native dr)) opts) Q (w, j).
Proof.
  intros Hm Ht Hsr Hdr Hls Hld HQ. 
  assert (Hgo : wp (buildFreshPlan (mkRoots (native sr) (native dr)) opts)
    (fun w' r => view w' = view w /\
       match r with Ok plan => planned (view w) sr dr plan | Err _ => True | Panic => False end) (w, j)); cycle 1.
  { apply wp_call. intros [w' j'] r E. pose proof (keeps_buildFreshPlan (mkRoots (native sr) (native dr)) opts (w, j)) as Hk.
    rewrite E in Hk. cbn in Hk. subst j'. destruct (wp_run _ _ _ _ _ Hgo E). by apply HQ. }
  unfold buildFreshPlan. rewrite Hm. cbn [RSource RDestination]. apply wp_bind. eapply wp_mono; [by apply wp_Scan|].
  intros w1 r1 [Hv1 Hr1]. destruct r1 as [src|e|]; [|done|done]. destruct Hr1 as [Hsrc _].
  change (view (w, j)) with (view w) in *.
  assert (Hplan : forall (w2 : World) dst, view w2 = view w -> lists (view w) dr dst ->
    wp (io_bind (lift (BuildPlan src dst)) (fun plan => ret (mkPlan (native sr) (native dr) (Ops plan))))
      (fun w' r => view w' = view w /\
         match r with Ok plan => planned (view w) sr dr plan | Err _ => True | Panic => False end) w2).
  { intros w2 dst Hv2 Hdst. apply wp_bind, wp_lift. destruct (BuildPlan src dst) as [p|e|] eqn:E; [|done|].
    - apply wp_ret. split; [done|]. exists src, dst, p. done.
    - by destruct (BuildPlan_safe src dst). }
  apply wp_bind, wp_bind, wp_try, wp_call. intros w2 r2 E2. apply lstat_law in E2 as [Hv2 Hr2].
  2: { split; [done|]. intros p Hp _. rewrite Hv1. by apply Hld. }
  assert (Hv2' : view w2 = view w) by congruence. destruct r2 as [i|e|]; [| |done].
  - do 2 (wp_if; [by apply wp_throw|]). eapply wp_mono; [apply wp_Scan; by rewrite ?Hv2'|].
    intros w3 r3 [Hv3 Hr3]. destruct r3 as [dst|e|]; [|split; [congruence|done]|done].
    destruct Hr3 as [Hdst _]. rewrite Hv2' in Hdst. apply Hplan; [congruence|done].
  - wp_if; [|by apply wp_throw]. reflect_bools. apply wp_ret. apply Hplan; [done|]. apply lists_absent; [done|].
    rewrite <- Hv1. by apply Hr2.
Qed.

Lemma reachable_nolink v cs : reachable v cs -> v !! cs <> Some (NOther TSymlink) -> nolink v cs.
Proof. intros [_ Hr] Hn p Hp. destruct (decide (p = cs)) as [->|Hne]; [done|]. by apply Hr. Qed.

(** Roots that [ResolveRoots] accepts. *)
Definition separate (sr dr : list bytes) : Prop :=
  ~ sr `prefix_of` dr /\ (dr `prefix_of` sr -> dr ++ [MetaDirName] `prefix_of` sr).

(** A path of the source is not below the destination, unless it is metadata. *)
Lemma separate_meta sr dr q k :
  separate sr dr -> sr `prefix_of` q -> q `prefix_of` dr ++ k -> exists k', k = MetaDirName :: k'.
Proof.
  intros [Hn Hm] Hs Hq. destruct (prefix_weak_total sr dr (dr ++ k)) as [?|Hd]; [by etrans|by apply prefix_app_r|done|].
  apply Hm in Hd. assert (Hp : dr ++ [MetaDirName] `prefix_of` dr ++ k) by (etrans; [exact Hd|]; by etrans).
  apply prefix_app_inv in Hp as [k' ->]. by exists k'.
Qed.

Lemma source_kept sr dr ops v v' D :
  separate sr dr -> Forall (fun op => nonmeta (Split (Rel op))) ops ->
  evolves (plan_paths dr ops) D v v' -> (forall q, D q -> q `prefix_of` dr \/ plan_dirs dr ops q) ->
  forall cs, v' !! (sr ++ cs) = v !! (sr ++ cs).
Proof.
  intros Hsep Hm He HD cs. assert (Hs : sr `prefix_of` sr ++ cs) by (by apply prefix_app_r). rewrite Forall_forall in Hm.
  destruct (He (sr ++ cs)) as [[?|[Hx|(_ & Hd & _)]] _]; [done|exfalso..].
  - apply Exists_exists in Hx as (op & Hin & _ & ds & c & Hsp & Hx).
    assert (exists x, sr ++ cs = (dr ++ ds) ++ [x] /\ (x = c \/ is_temp x = true)) as (x & E & Hxc).
    { destruct Hx as [Hx|(t & Hx & Ht)]; eauto. }
    rewrite E in Hs. rewrite <- app_assoc in Hs.
    destruct (separate_meta _ _ _ _ Hsep Hs (reflexivity _)) as [k' Hk']. apply (Hm op Hin). rewrite Hsp.
    destruct ds as [|d ds]; [|by injection Hk' as -> _]. injection Hk' as -> _.
    destruct Hxc as [<-|Ht]; [done|]. by vm_compute in Ht.
  - destruct (HD _ Hd) as [Hp|(op & Hin & Hp)%Exists_exists].
    + destruct Hsep as [Hn _]. apply Hn. by etrans.
    + destruct (separate_meta _ _ _ _ Hsep Hs Hp) as [k' Hk']. apply (Hm op Hin). by rewrite Hk'.
Qed.

Lemma planned_applicable (w : W) sr dr plan :
  tree_ok (view w) -> Forall plain sr -> Forall plain dr -> nolink (view w) sr -> nolink (view w) dr ->
  no_temps (view w) sr -> planned (view w) sr dr plan -> applicable w sr dr (Ops plan).
Proof.
  intros Ht Hsr Hdr Hls Hld Hnt Hp. split_and!; try done; [|by eapply planned_distinct].
  apply Forall_forall. intros op Hop. by eapply planned_usable.
Qed.

(** C3. A synchronization without the journal, hooks or a supplied manifest, from a source
    in which no name looks like a temporary file of the publisher, between roots that no
    link leads to: when it reports success it has synchronized.  For every
    directory of the source there is a directory at the same path of the
    destination, and for every file of the source a regular file with content of
    the same SHA-256; the source tree is exactly as it was.  The metadata
    directory is not copied.  (With the journal a plan that it has confirmed is not
    applied again, [confirmed_plan_not_applied]; a file with the name of a temporary may
    be lost, [temp_named_file_lost].) *)
Theorem Sync_converges `{JournalSession J} `{PlanJSON} cwd (opts : Options W J) (w w' : W) j j' out :
  PlanOnly opts = false -> DisableJournal opts = true -> OHooks opts = None -> DestManifest opts = None ->
  rooted cwd = true -> tree_ok (view w) ->
  (forall cs, Forall plain cs -> native cs = absClean cwd (OSource opts) \/ native cs = absClean cwd (ODestination opts) ->
     reachable (view w) cs) ->
  (forall cs, Forall plain cs -> native cs = absClean cwd (OSource opts) -> no_temps (view w) cs) ->
  Sync cwd opts (w, j) = ((w', j'), Ok (out, None)) ->
  exists sr dr, RSource_ out = native sr /\ RDestination_ out = native dr /\
    ROutcome out = OutcomeSuccess /\ mirrors (view w) sr dr (view w') /\
    forall cs, view w' !! (sr ++ cs) = view w !! (sr ++ cs).
Proof.
  intros Hpo Hdj Hh Hdm Hcwd Ht Hreach Hnt E.
  enough (Hgo : wp (Sync cwd opts) (fun wj r => forall out, r = Ok (out, None) -> exists sr dr,
    RSource_ out = native sr /\ RDestination_ out = native dr /\ ROutcome out = OutcomeSuccess /\
    mirrors (view w) sr dr (view wj.1) /\ forall cs, view wj.1 !! (sr ++ cs) = view w !! (sr ++ cs)) (w, j))
    by (by apply (wp_run _ _ _ _ _ Hgo E)).
  clear E. unfold Sync. rewrite Hpo, Hdj, Hh.
  apply wp_or_return, wp_call. intros w1 r1 E1. destruct r1 as [roots|e|]; [|done|done].
  destruct (ResolveRoots_spec (H0 := FileSystem_pair_laws) cwd _ _ _ (w, j) _ _ Hcwd Hreach E1)
    as (sr & dr & -> & Hs & Hd & Hsr & Hdr & Hv1 & Hsep1 & Hsep2 & [m Hms] & Hmd). cbn [RSource RDestination].
  destruct w1 as [w1 j1]. change (view (w, j)) with (view w) in *. change (view (w1, j1)) with (view w1) in *.
  assert (Hls : nolink (view w) sr) by (apply reachable_nolink; [by apply Hreach; [|left]|by rewrite Hms]).
  assert (Hld : nolink (view w) dr).
  { apply reachable_nolink; [by apply Hreach; [|right]|]. by destruct Hmd as [[? ->]|[_ ->]]. }
  apply wp_or_return, wp_buildFreshPlan; rewrite ?Hv1; try done.
  intros w2 r2 Hv2 Hr2. destruct r2 as [plan|e|]; [|done|done]. apply wp_bind.
  assert (Hap : applicable (w2, j1) sr dr (Ops plan)).
  { apply (planned_applicable w2); rewrite ?Hv2; auto. }
  apply wp_ApplyWith; [done|done|done|]. cbn [StartAt]. rewrite Z2Nat.inj_0, drop_0.
  intros w3 applied err He _ Hok. change (view (w2, j1)) with (view w2) in He. rewrite Hv2 in He.
  destruct err as [e|]; apply wp_ret; [done|]. intros out' [= <-]. destruct (Hok eq_refl) as (_ & Hdone & _).
  exists sr, dr. cbn. split_and!; try done.
  - apply (converge _ sr dr Ht plan); [done| |eapply Forall_impl; [exact Hdone|]; by intros op [_ ?]].
    intros op n Hop Hf Hn. eapply target_kept; [|by eapply planned_distinct|exact Hop|exact Hf|exact He|exact Hn].
    eapply (planned_usable _ sr); eauto.
  - eapply source_kept; [by split|by eapply planned_nonmeta|exact He|done].
Qed.

End Runs.

(** ** The plan snapshot *)

Section Snapshot.
Context {W J : Type} `{FileSystemLaws W}.
Abbreviation World := (W * J)%type.

Definition snapshotTmp : bytes := snapshotName ++ str ".tmp".

Definition snapshot_paths (dr q : list bytes) : Prop :=
  q = snapshot_dir dr ++ [snapshotName] \/ q = snapshot_dir dr ++ [snapshotTmp].
Definition meta_dirs (dr q : list bytes) : Prop := q `prefix_of` snapshot_dir dr.

(** The tree after some of the steps of writing a snapshot. *)
Abbreviation writing dr := (evolves (snapshot_paths dr) (meta_dirs dr)).

Lemma snapshotTmp_plain : plain snapshotTmp.
Proof. apply (demo_plain "last-plan.json.tmp"); by vm_compute. Qed.

Lemma tmp_native dr :
  Forall plain dr -> planSnapshotPath (native dr) ++ str ".tmp" = native (snapshot_dir dr ++ [snapshotTmp]).
Proof.
  intros Hd. rewrite planSnapshotPath_native by done. unfold snapshotTmp.
  assert (Hn : snapshot_dir dr <> []) by (by destruct dr).
  destruct (native_snoc (snapshot_dir dr) snapshotName) as (x & -> & [[_ ?]|[_ ->]]); [done|].
  destruct (native_snoc (snapshot_dir dr) (snapshotName ++ str ".tmp")) as (x & -> & [[_ ?]|[_ ->]]); [done|].
  by rewrite <- app_assoc.
Qed.

Lemma wp_ignore_fst {E F A} (c : io W E A) (Q : World -> res F unit -> Prop) w j :
  (forall w' r, c w = (w', r) -> r <> Panic /\ Q (w', j) (Ok tt)) -> wp (ignore (on_fst c)) Q (w, j).
Proof. intros Hc. apply wp_ignore, wp_fst, wp_call. intros w' r [Hr HQ]%Hc. by destruct r. Qed.

Lemma wp_or_remove ds c (call : io W errno unit) (Q : World -> res Error unit -> Prop) w j :
  entry_at (view w) ds c ->
  wp call (fun w' r => match r with
    | Ok _ => Q (w', j) (Ok tt)
    | Err _ => view w' = view w
    | Panic => False
    end) w ->
  (forall w' e, view w' = view w \/ view w' = delete (ds ++ [c]) (view w) -> Q (w', j) (Err e)) ->
  wp (or_remove (native (ds ++ [c])) (on_fst call)) Q (w, j).
Proof.
  intros He Hc HQ. unfold or_remove. apply wp_bind, wp_try, wp_fst. eapply wp_mono; [exact Hc|]. intros w1 r1 Hv.
  destruct r1 as [[]|e|]; [by apply wp_ret| |done].
  apply wp_bind, wp_ignore, wp_fst, wp_call. intros w2 r2 E2. apply remove_spec in E2; [|by rewrite Hv].
  rewrite Hv in E2. destruct r2; [..|done]; apply wp_throw, HQ; [by right|by left].
Qed.

Lemma wp_writePlanSnapshot dr raw (Q : World -> res Error unit -> Prop) w j :
  Forall plain dr -> nolink (view w) (snapshot_dir dr) ->
  view w !! (snapshot_dir dr ++ [snapshotTmp]) <> Some (NOther TSymlink) ->
  (forall w' r, writing dr (view w) (view w') ->
     match r with
     | Ok _ => exists m, view w' !! (snapshot_dir dr ++ [snapshotName]) = Some (NFile m raw)
     | Err _ => True
     | Panic => False
     end -> Q (w', j) r) ->
  wp (writePlanSnapshot (native dr) raw) Q (w, j).
Proof.
  intros Hd Hl Hnl HQ. unfold writePlanSnapshot, ensureMetaDir. cbv zeta.
  rewrite metaDir_native, tmp_native, planSnapshotPath_native by done.
  set (ds := snapshot_dir dr) in *. set (P := fun v => writing dr (view w) v).
  assert (Hent : forall v c, P v -> plain c -> entry_at v ds c).
  { intros v c HP Hc. split; [by apply snapshot_plain|]. split; [done|]. by eapply evolves_nolink. }
  assert (HE : forall w' e, P (view w') -> Q (w', j) (Err e)) by (intros; by apply HQ).
  apply wp_bind, wp_or_fail, wp_fst, wp_call. intros w1 r1 E1.
  apply mkdirall_spec in E1 as [Hcr Hr1]; [|by apply snapshot_plain|done].
  assert (P1 : P (view w1)) by (by eapply evolves_created).
  destruct r1 as [[]|e|]; cbn [map_err]; [|by apply HE|done].
  apply wp_bind, wp_or_fail, wp_fst, wp_call. intros w2 r2 E2.
  apply writefile_spec in E2; [|by apply Hent; [|apply snapshotTmp_plain]|intros E; by apply Hnl, P1].
  set (tmp := ds ++ [snapshotTmp]) in *. set (snap := ds ++ [snapshotName]) in *.
  assert (Hput : forall v q n, P v -> q = tmp \/ q = snap -> (exists m d, n = NFile m d) -> P (<[q := n]> v)).
  { intros v q n HP Hq (m & d & ->). eapply evolves_trans; [exact HP|]. apply evolves_insert. destruct Hq; [by right|by left]. }
  assert (Hdel : forall v, P v -> P (delete tmp v)).
  { intros v HP. eapply evolves_trans; [exact HP|]. apply evolves_delete. by right. }
  destruct r2 as [[]|e|]; cbn [map_err]; [| |done].
  2: { apply HE. destruct E2 as [->|(m & d & ->)]; [done|]. apply Hput; eauto. }
  destruct E2 as [m E2]. assert (P2 : P (view w2)) by (rewrite E2; apply Hput; eauto).
  assert (Htmp : view w2 !! tmp = Some (NFile m raw)) by (rewrite E2; apply lookup_insert_eq).
  assert (Hkeep : forall w' k, view w' = view w2 ->
    (forall w'', view w'' = view w2 -> wp k Q (w'', j)) -> forall c : io W errno unit,
    (forall wa wb r, c wa = (wb, r) -> view wb = view wa /\ r <> Panic) ->
    wp (io_bind (or_remove (native tmp) (on_fst c)) (fun _ => k)) Q (w', j)).
  { intros w' k Hv' Hk c Hc. apply wp_bind, wp_or_remove; [by apply Hent; [rewrite Hv'|apply snapshotTmp_plain]| |].
    - apply wp_call. intros wa r [Hva Hr]%Hc. destruct r; [apply Hk| |done]; congruence.
    - intros wa e Hva. apply HE. rewrite Hv' in Hva. destruct Hva as [->| ->]; auto. }
  apply Hkeep; [done| |by intros; eapply openrw_spec]. intros w3 Hv3.
  apply Hkeep; [done| |by intros; eapply sync_spec]. intros w4 Hv4.
  apply wp_bind, wp_ignore_fst. intros w5 r5 [Hv5 Hr5]%close_spec. split; [done|].
  assert (Hv5' : view w5 = view w2) by congruence. clear Hv5 Hv4 Hv3 w3 w4.
  apply wp_bind, wp_or_remove; [by apply Hent; [rewrite Hv5'|apply snapshotTmp_plain]| |].
  2: { intros wa e Hva. apply HE. rewrite Hv5' in Hva. destruct Hva as [->| ->]; auto. }
  apply wp_call. intros w6 r6 E6. eapply rename_spec in E6;
    [|apply Hent; [by rewrite Hv5'|apply snapshotTmp_plain]|apply Hent; [by rewrite Hv5'|apply snapshotName_plain]
     |by rewrite Hv5'].
  rewrite Hv5' in E6. destruct r6 as [[]|e6|]; [|congruence|done].
  apply wp_ignore_fst. intros w7 r7 [Hv7 Hr7]%syncdir_spec. split; [done|].
  apply HQ; [rewrite Hv7, E6; apply Hput; eauto|]. exists m. rewrite Hv7, E6. apply lookup_insert_eq.
Qed.

End Snapshot.

(** ** A new transaction *)

Section Begin.
Context {W J : Type} `{FileSystemLaws W} `{JournalSessionLaws J} `{PlanJSON}.
Abbreviation World := (W * J)%type.

(** Where the reading of the journal stands. *)
Definition reading (j : J) : txnState * bool := inspect_loop (jrecords j) (zeroTxn, false).

Lemma recorded_reading j s : recorded j s <-> reading j = (s, true) /\ Cancelled s = false.
Proof. apply inspectPrefix_loop. Qed.

Lemma wp_append_reading id t p (Q : World -> res Error unit -> Prop) w j x :
  ready j -> len id = 16 -> is_u16 t ->
  (forall rec, carries id t p rec -> inspect_record rec (reading j) = x) ->
  (forall j' r, jsound j' ->
     match r with
     | Ok _ => ready j' /\ reading j' = x
     | Err _ => reading j' = reading j \/ reading j' = x
     | Panic => False
     end -> Q (w, j') r) ->
  wp (append id t p) Q (w, j).
Proof.
  intros Hr Hid Ht Hx HQ. apply wp_call. intros w' r E. unfold append, on_snd in E.
  destruct (SAppend id t p j) as [j' r'] eqn:Ea. injection E as <- <-.
  destruct (append_spec _ _ _ _ _ _ Hr Hid Ht Ea) as [Hj Ho].
  assert (Hsn : forall rec, carries id t p rec -> jrecords j' = jrecords j ++ [rec] -> reading j' = x).
  { intros rec Hca E. unfold reading. rewrite E, inspect_loop_app. by apply Hx. }
  apply HQ; [done|]. destruct r' as [[]|e|]; [| |done].
  - destruct Ho as (Hr' & rec & Hca & E). split; [done|]. by eapply Hsn.
  - destruct Ho as [E|(rec & Hca & E)]; [left|right; by eapply Hsn]. unfold reading. by rewrite E.
Qed.

(** The transaction after each of the three records that open it. *)
Definition observed (id : bytes) (sr dr : list bytes) : txnState :=
  mkTxn id (native sr) (native dr) (zeros 32) false 0 0 0 false false false.
Definition opened (id : bytes) (sr dr : list bytes) (dig : bytes) (n : Z) : txnState :=
  mkTxn id (native sr) (native dr) dig true n 0 0 false false true.

(** A transaction that a run would resume. *)
Definition open_txn (s : txnState) : bool := HasPlan s && Authorized s && negb (Confirmed s).

(** After a failed start, the journal shows what it showed, or nothing to
    resume, or the new transaction with its snapshot in place. *)
Definition started (sr dr : list bytes) (dig raw : bytes) (n : Z) (j : J) (v' : tree) (j' : J) : Prop :=
  forall s, recorded j' s -> open_txn s = true ->
    recorded j s \/
    exists id, s = opened id sr dr dig n /\ len id = 16 /\
      exists m, v' !! (snapshot_dir dr ++ [snapshotName]) = Some (NFile m raw).

Lemma started_reading sr dr dig raw n j v' j' x :
  reading j' = x -> (open_txn x.1 = false \/ Cancelled x.1 = true \/ x = reading j) -> started sr dr dig raw n j v' j'.
Proof.
  intros E Hx s [Es Hc]%recorded_reading Ho. subst x. rewrite Es in Hx. cbn [fst] in Hx.
  destruct Hx as [?|[?|Hx]]; [congruence..|]. left. by apply recorded_reading.
Qed.

Definition begins (sr dr : list bytes) (dig raw : bytes) (n : Z) (w : W) (j : J) (wj : World) (r : res Error bytes) : Prop :=
  jsound wj.2 /\ evolves (snapshot_paths dr) (meta_dirs dr) (view w) (view wj.1) /\
  match r with
  | Ok id => len id = 16 /\ ready wj.2 /\ recorded wj.2 (opened id sr dr dig n) /\
      exists m, view wj.1 !! (snapshot_dir dr ++ [snapshotName]) = Some (NFile m raw)
  | Err _ => started sr dr dig raw n j (view wj.1) wj.2
  | Panic => False
  end.

(** The three records of a new transaction. *)
Lemma wp_open_records sr dr plan dig raw id w0 w j0 j :
  len (native sr) + len (native dr) <= 65533 -> len dig = 32 -> len id = 16 -> ready j ->
  (reading j = reading j0 \/ Cancelled (reading j).1 = true) ->
  evolves (snapshot_paths dr) (meta_dirs dr) (view w0) (view w) ->
  (exists m, view w !! (snapshot_dir dr ++ [snapshotName]) = Some (NFile m raw)) ->
  wp (let* obs := lift (map_err internal (encodeObservation (native sr) (native dr))) in
      let* _ := append id TypeObservation obs in
      let* _ := append id TypePlanDigest (encodePlanDigest dig (u32 (len (Ops plan)))) in
      let* _ := append id TypeAuthorization (encodeAuthz dig) in
      ret id) (begins sr dr dig raw (u32 (len (Ops plan))) w0 j0) (w, j).
Proof.
  intros Hlen Hdig Hid Hr Hold Hev Hsnap. pose proof (len_nonneg (native sr)). pose proof (len_nonneg (native dr)).
  apply wp_bind, wp_lift. rewrite encodeObservation_ok by lia. cbn [map_err]. set (obs := payloadVersion :: _).
  assert (Hobs : decodeObservation obs = Ok (native sr, native dr)).
  { apply decodeObservation_field; [lia..|]. rewrite u16_small by (unfold is_u16; lia). lia. }
  apply wp_bind, (wp_append_reading _ _ _ _ _ _ (observed id sr dr, true)); [done|done|by vm_compute| |].
  { intros rec Hrec. destruct (reading j). by eapply inspect_obs. }
  intros j1 r1 Hj1 Hr1. destruct r1 as [[]|e|]; [| |done]; cycle 1.
  { split; [done|]. split; [done|]. destruct Hr1 as [E|E]; eapply started_reading; try exact E; [|by left].
    destruct Hold; [by right; right|by right; left]. }
  destruct Hr1 as [Hrd1 E1]. set (t2 := with_plan dig (u32 (len (Ops plan))) (observed id sr dr)).
  apply wp_bind, (wp_append_reading _ _ _ _ _ _ (t2, true)); [done|done|by vm_compute| |].
  { intros rec Hrec. rewrite E1. eapply inspect_plan; [exact Hrec|]. apply decodePlanDigest_encode; [done|apply u32_range]. }
  intros j2 r2 Hj2 Hr2. destruct r2 as [[]|e|]; [| |done]; cycle 1.
  { split; [done|]. split; [done|]. destruct Hr2 as [E|E]; rewrite ?E1 in E; eapply started_reading; try exact E; by left. }
  destruct Hr2 as [Hrd2 E2].
  apply wp_bind, (wp_append_reading _ _ _ _ _ _ (opened id sr dr dig (u32 (len (Ops plan))), true)); [done|done|by vm_compute| |].
  { intros rec Hrec. rewrite E2. by eapply inspect_auth. }
  intros j3 r3 Hj3 Hr3. destruct r3 as [[]|e|]; [| |done]; cycle 1.
  { split; [done|]. split; [done|]. destruct Hr3 as [E|E]; [rewrite E2 in E; eapply started_reading; [exact E|by left]|].
    intros s [Es _]%recorded_reading _. cbn [snd] in Es. rewrite E in Es. injection Es as <-. right. eauto. }
  destruct Hr3 as [Hrd3 E3]. apply wp_ret. split; [done|]. split; [done|]. split_and!; try done. by apply recorded_reading.
Qed.

Lemma wp_beginNewTxn sr dr plan dig raw w j :
  Forall plain dr -> nolink (view w) (snapshot_dir dr) ->
  view w !! (snapshot_dir dr ++ [snapshotTmp]) <> Some (NOther TSymlink) ->
  len (native sr) + len (native dr) <= 65533 -> len dig = 32 -> ready j ->
  (forall s, recorded j s -> len (ID s) = 16) ->
  wp (beginNewTxn (jrecords j) (mkRoots (native sr) (native dr)) plan dig raw)
    (begins sr dr dig raw (u32 (len (Ops plan))) w j) (w, j).
Proof.
  intros Hd Hl Hnl Hlen Hdig Hr Hids. unfold beginNewTxn. cbn [RSource RDestination].
  assert (Hrest : forall w1 j1, view w1 = view w -> ready j1 -> (reading j1 = reading j \/ Cancelled (reading j1).1 = true) ->
    wp (let* id := newTxnID in
        let* _ := writePlanSnapshot (native dr) raw in
        let* obs := lift (map_err internal (encodeObservation (native sr) (native dr))) in
        let* _ := append id TypeObservation obs in
        let* _ := append id TypePlanDigest (encodePlanDigest dig (u32 (len (Ops plan)))) in
        let* _ := append id TypeAuthorization (encodeAuthz dig) in
        ret id) (begins sr dr dig raw (u32 (len (Ops plan))) w j) (w1, j1)).
  { intros w1 j1 Hv1 Hr1 Hold.
    assert (HE : forall w' e, evolves (snapshot_paths dr) (meta_dirs dr) (view w) (view w') ->
      begins sr dr dig raw (u32 (len (Ops plan))) w j (w', j1) (Err e)).
    { intros w' e He. split; [by apply ready_sound|]. split; [done|]. eapply started_reading; [done|].
      destruct Hold; auto. }
    apply wp_bind. unfold newTxnID. apply wp_or_fail, wp_fst, wp_call. intros w2 r2 E2.
    apply rand_spec in E2 as [Hv2 Hr2]; [|lia]. rewrite Hv1 in Hv2.
    destruct r2 as [id|e|]; cbn [map_err]; [|apply HE; rewrite Hv2; apply evolves_refl|done].
    apply wp_bind, wp_writePlanSnapshot; [done|by rewrite Hv2..|]. intros w3 r3 He3 Hr3. rewrite Hv2 in He3.
    destruct r3 as [[]|e|]; [|by apply HE|done]. by apply wp_open_records. }
  destruct (inspectPrefix (jrecords j)) as [s|] eqn:Es; [|by apply Hrest; [| |left]].
  apply wp_bind. wp_if; [|by apply wp_ret, Hrest; [| |left]].
  apply wp_bind, wp_lift. unfold encodeCancellation. rewrite putBytes_ok by (by vm_compute). cbn [map_err].
  pose proof Es as [Es' Hc]%inspectPrefix_loop.
  apply (wp_append_reading _ _ _ _ _ _ (with_flags (Confirmed s) true (Authorized s) s, true)); [done|by apply Hids|by vm_compute| |].
  { intros rec Hrec. unfold reading. rewrite Es'. by eapply inspect_cancellation. }
  intros j1 r1 Hj1 Hr1. destruct r1 as [[]|e|]; [| |done].
  - destruct Hr1 as [Hrd E]. apply Hrest; [done|done|]. right. by rewrite E.
  - split; [done|]. split; [apply evolves_refl|]. destruct Hr1 as [E|E]; eapply started_reading; try exact E; [|by right; left].
    right; right. done.
Qed.

(** ** Journaled runs that plan anew *)

Lemma planned_len v sr dr plan :
  tree_ok v -> planned v sr dr plan -> len (Ops plan) <= Z.of_nat (size v).
Proof.
  intros Ht Hp. pose proof (planned_distinct _ _ _ _ Hp) as Hnd. destruct (planned_ops _ _ _ _ Hp) as (dst & _ & Hops & _).
  set (l := map (fun op => sr ++ Split (Rel op)) (Ops plan)).
  assert (Hl : NoDup l).
  { unfold l. rewrite <- (map_map Rel (fun r => sr ++ Split r)). apply NoDup_fmap_2; [|done].
    intros a b E%app_inv_head. by apply Split_inj. }
  assert (Hs : (list_to_set l : gset (list bytes)) ⊆ dom v).
  { intros q Hq%elem_of_list_to_set. unfold l in Hq. apply list_elem_of_fmap in Hq as (op & -> & Hop).
    destruct (Hops op Hop) as (cs & n & e & Hne & _ & Hn & He & Ho).
    destruct (tree_above _ _ _ _ Ht Hn Hne) as [Hpl _]. rewrite (Split_rel _ _ _ _ _ Hpl Hne He Ho).
    apply elem_of_dom. by exists n. }
  apply subseteq_size in Hs. rewrite size_list_to_set, size_dom in Hs by done.
  unfold l in Hs. rewrite length_fmap in Hs. unfold len. lia.
Qed.

(** Every transaction that a later run would resume can be resumed. *)
Definition consistent (sr dr : list bytes) (w : W) (j : J) : Prop :=
  jsound j /\
  forall s, recorded j s -> Source s = native sr -> Destination s = native dr -> open_txn s = true ->
    exists ops, resumable sr dr ops s w j.

Lemma consistent_one sr dr ops s w j : resumable sr dr ops s w j -> consistent sr dr w j.
Proof.
  intros Hr. pose proof Hr as [_ (Hj & Hs & _)]. split; [done|]. intros s' Hs' _ _ _. exists ops.
  unfold recorded in *. rewrite Hs in Hs'. by injection Hs' as <-.
Qed.

(** A tree and a journal on which a run plans anew. *)
Record plannable_world (sr dr : list bytes) (w : W) (j : J) : Prop := {
  pw_tree : tree_ok (view w);
  pw_plain : Forall plain sr /\ Forall plain dr;
  pw_links : nolink (view w) sr /\ nolink (view w) (snapshot_dir dr);
  pw_tmp : view w !! (snapshot_dir dr ++ [snapshotTmp]) <> Some (NOther TSymlink);
  pw_temps : no_temps (view w) sr;
  pw_size : Z.of_nat (size (view w)) < 2 ^ 32;
  pw_roots : len (native sr) + len (native dr) <= 65533;
  pw_json plan : planned (view w) sr dr plan -> exists p, ParsePlanJSON (FormatJSON plan) = Ok p /\ Ops p = Ops plan;
  pw_ready : ready j;
  pw_ids s : recorded j s -> len (ID s) = 16;
  pw_closed s : recorded j s -> Source s = native sr -> Destination s = native dr -> open_txn s = false }.

Lemma snapshot_dir_nolink v dr : nolink v (snapshot_dir dr) -> nolink v dr.
Proof. intros Hl p Hp. apply Hl. etrans; [exact Hp|]. by apply prefix_app_r. Qed.

(** Writing the snapshot leaves the entries that the plan is about. *)
Lemma snapshot_keeps dr v v' op n :
  evolves (snapshot_paths dr) (meta_dirs dr) v v' -> nonmeta (Split (Rel op)) ->
  v !! target dr op = Some n -> v' !! target dr op = Some n.
Proof.
  intros He Hm Hn. destruct (He (target dr op)) as [[->|[Hx|(Hx & _)]] _]; [done|exfalso|congruence].
  unfold target, snapshot_paths, snapshot_dir in Hx. rewrite <- !app_assoc in Hx.
  apply Hm. destruct Hx as [Hx|Hx]; apply app_inv_head in Hx; by rewrite Hx.
Qed.

Lemma begun_snapshotted sr dr plan w w' j :
  plannable_world sr dr w j -> planned (view w) sr dr plan ->
  evolves (snapshot_paths dr) (meta_dirs dr) (view w) (view w') ->
  (exists m, view w' !! (snapshot_dir dr ++ [snapshotName]) = Some (NFile m (FormatJSON plan))) ->
  snapshotted sr dr (Ops plan) (SHA256 (FormatJSON plan)) w'.
Proof.
  intros [] Hp He [m Hm]. destruct pw_plain0 as [Hsr Hdr], pw_links0 as [Hls Hlm].
  pose proof (snapshot_dir_nolink _ _ Hlm) as Hld.
  destruct (planned_applicable w sr dr plan) as (_ & _ & _ & Hu & Hnd); try done.
  pose proof (planned_len _ _ _ _ pw_tree0 Hp) as Hlen. destruct (pw_json0 _ Hp) as (p & Hpj & Hops).
  split; [|split; [|split; [lia|split]]].
  - split_and!; try done; [by eapply evolves_nolink|]. eapply Forall_impl; [exact Hu|]. intros op. by eapply usable_evolves.
  - by eapply evolves_nolink.
  - by eapply planned_nonmeta.
  - by exists m, (FormatJSON plan), p.
Qed.

Lemma begun_resumable sr dr plan id w w' j j' :
  plannable_world sr dr w j -> planned (view w) sr dr plan ->
  evolves (snapshot_paths dr) (meta_dirs dr) (view w) (view w') ->
  (exists m, view w' !! (snapshot_dir dr ++ [snapshotName]) = Some (NFile m (FormatJSON plan))) ->
  let s := opened id sr dr (SHA256 (FormatJSON plan)) (u32 (len (Ops plan))) in
  len id = 16 -> jsound j' -> recorded j' s -> resumable sr dr (Ops plan) s w' j'.
Proof.
  intros Hw Hp He Hm s Hid Hj Hs. split; [by eapply begun_snapshotted|]. split_and!; try done.
  change (NextOp s) with 0. split; [pose proof (len_nonneg (Ops plan)); lia|]. by rewrite Z2Nat.inj_0.
Qed.

(** The outcome of a run that plans anew. *)
Definition ran_fresh (sr dr : list bytes) (w : W) (j : J) (wj : World) (r : res Error (Result * option Error)) : Prop :=
  exists out err, r = Ok (out, err) /\ consistent sr dr wj.1 wj.2 /\
    (err = None -> ROutcome out = OutcomeSuccess /\ exists s, recorded wj.2 s /\ Confirmed s = true /\
       (mirrors (view w) sr dr (view wj.1) \/
        view wj.1 = view w /\ recorded j s /\ PlanDigest s = SHA256 (FormatJSON (RPlan out)))).

Lemma ran_fresh_closed sr dr w j w' j' res_ e :
  plannable_world sr dr w j -> jsound j' -> (forall s, recorded j' s -> open_txn s = true -> recorded j s) ->
  ran_fresh sr dr w j (w', j') (Ok (failResult res_ e)).
Proof.
  intros Hw Hj Hs. eexists _, (Some e). split; [done|]. split; [|done]. split; [done|].
  intros s H1' Hsrc Hdst Ho. exfalso. pose proof (pw_closed _ _ _ _ Hw s (Hs s H1' Ho) Hsrc Hdst). congruence.
Qed.

(** A new transaction, from the plan on. *)
Lemma wp_fresh_txn sr dr plan res_ (opts : Options W J) w j :
  OHooks opts = None -> plannable_world sr dr w j -> planned (view w) sr dr plan ->
  let raw := FormatJSON plan in
  wp (or_return res_ (beginNewTxn (jrecords j) (mkRoots (native sr) (native dr)) plan (SHA256 raw) raw) (fun id =>
      finishApply id (mkRoots (native sr) (native dr)) plan (SHA256 raw) 0 0 (set_txid id res_) opts))
    (ran_fresh sr dr w j) (w, j).
Proof.
  intros Hh Hw Hp raw. pose proof Hw as []. destruct pw_plain0 as [Hsr Hdr], pw_links0 as [Hls Hlm].
  apply wp_or_return. eapply wp_mono; [apply wp_beginNewTxn; try done; apply len_sha256|].
  intros [w1 j1] r1 (Hj1 & He1 & Hr1). cbn [fst snd] in *.
  set (s0 := fun id => opened id sr dr (SHA256 raw) (u32 (len (Ops plan)))).
  assert (Hopen : forall id, len id = 16 -> jsound j1 -> recorded j1 (s0 id) ->
    (exists m, view w1 !! (snapshot_dir dr ++ [snapshotName]) = Some (NFile m raw)) ->
    resumable sr dr (Ops plan) (s0 id) w1 j1).
  { intros id Hid Hj Hs Hm. by eapply begun_resumable. }
  destruct r1 as [id|e|]; [| |done]; cycle 1.
  { eexists _, (Some e). split; [done|]. split; [|done]. split; [done|]. intros s Hs Hsrc Hdst Ho.
    destruct (Hr1 s Hs Ho) as [Hold|(id & -> & Hid & Hm)]; [|exists (Ops plan); by apply Hopen].
    pose proof (pw_closed0 s Hold Hsrc Hdst). congruence. }
  destruct Hr1 as (Hid & Hrd & Hs & Hm).
  destruct (Hopen id Hid Hj1 Hs Hm) as [Hsn (_ & _ & _ & _ & _ & _ & _ & Hhon & _)].
  pose proof Hsn as (Hap & _ & Hlen & Hnm & _).
  change id with (ID (s0 id)) at 1. change 0 with (NextOp (s0 id)) at 1.
  apply wp_finishApply; try done.
  intros w' j' out err n cum c Hj' Hs' Hn Hhon' He' Hcl Hok.
  assert (Hres : resumable sr dr (Ops plan) (at_op (s0 id) n cum c) w' j').
  { split; [eapply snapshotted_evolves; [exact He'|by apply snapshot_not_planned|done]|]. by split_and!. }
  exists out, err. split; [done|]. split; [by eapply consistent_one|]. intros E. destruct (Hok E) as [-> Hout].
  split; [done|]. exists (at_op (s0 id) n cum true). split; [done|]. split; [done|]. left.
  apply (converge _ sr dr pw_tree0 plan); [done| |].
  - intros op k Hop Hf Hk. rewrite Forall_forall in Hnm. destruct Hap as (_ & _ & _ & Hu & Hnd). rewrite Forall_forall in Hu.
    eapply target_kept; [by apply Hu|done|done|done|exact He'|]. eapply snapshot_keeps; [exact He1|by apply Hnm|done].
  - destruct Hhon' as [_ Hd]. rewrite (Hcl eq_refl) in Hd. unfold len in Hd. by rewrite Nat2Z.id, take_ge in Hd.
Qed.

Lemma wp_syncFresh sr dr c res_ (opts : Options W J) w j :
  OHooks opts = None -> DestManifest opts = None -> plannable_world sr dr w j ->
  (forall s, c = Some s -> recorded j s) ->
  wp (syncFresh c (jrecords j) (mkRoots (native sr) (native dr)) res_ opts) (ran_fresh sr dr w j) (w, j).
Proof.
  intros Hh Hdm Hw Hc. pose proof Hw as []. destruct pw_plain0 as [Hsr Hdr], pw_links0 as [Hls Hlm].
  apply wp_or_return, wp_buildFreshPlan; try done; [by apply snapshot_dir_nolink|].
  intros w1 r1 Hv1 Hr1. destruct r1 as [plan|e|]; [| |done]; cycle 1.
  { apply ran_fresh_closed; [done|by apply ready_sound|done]. }
  assert (Hw1 : plannable_world sr dr w1 j) by (split; rewrite ?Hv1; done).
  cbn [planDigestOf]. set (begin := or_return _ _ _).
  assert (Hgo : wp begin (ran_fresh sr dr w j) (w1, j)).
  { eapply wp_mono; [apply wp_fresh_txn; try done; by rewrite Hv1|]. unfold ran_fresh. by rewrite Hv1. }
  destruct c as [s|]; [|done]. wp_if; [|done].
  apply wp_ret. reflect_bools. eexists _, None. split; [done|]. split.
  { split; [by apply ready_sound|]. intros s' Hs' Hsrc Hdst Ho. pose proof (pw_closed0 s' Hs' Hsrc Hdst). congruence. }
  intros _. split; [done|]. exists s. pose proof (Hc s eq_refl) as Hs. split; [done|]. split; [done|].
  right. done.
Qed.


End Begin.

End LocalFresh.
