(* ===== verification/LocalRuns.v ===== *)
(** * Concrete runs of the local synchronization

    A file in memory under the journal, a serialization of plans that stands in
    for encoding/json, and runs of [Sync] on trees in memory.  They exercise the
    theorems of [LocalResume] and [LocalFresh] on inputs where their hypotheses
    hold, and [confirmed_plan_not_applied] is a run that reports success and
    leaves the destination without the file. *)

From stdpp Require Import gmap.
From S2P Require Import Prelude Sha256 Sorting Codec Journal PathGrammar FilePath FileSystem.
From S2P Require Import LocalPayload LocalPlan LocalApply LocalScan LocalSession LocalSync.
From S2P Require Import LocalResume LocalFresh.
Import Codec FilePath FileSystem LocalPayload LocalPlan LocalApply LocalScan LocalSession LocalSync LocalResume LocalFresh.

Module LocalRuns.

(** ** A file in memory *)

(** Each write takes the next fault of the script, if any. *)
Record RamFile := mkRam { rdata : bytes; rfaults : list bool }.

#[global] Instance RamFile_OSFile : Journal.OSFile RamFile := {
  FReadAt f n off :=
    let got := take (Z.to_nat n) (drop (Z.to_nat off) (rdata f)) in
    if len got <? n then (got, Some Journal.EOF) else (got, None);
  FWriteAt f p off :=
    match rfaults f with
    | true :: fs => (mkRam (rdata f) fs, 0, Some Journal.IOFailure)
    | fs => (mkRam (take (Z.to_nat off) (rdata f) ++ p ++ drop (Z.to_nat off + length p) (rdata f)) (tail fs), len p, None)
    end;
  FSync f := (f, None);
  FTruncate f n := (mkRam (take (Z.to_nat n) (rdata f)) (rfaults f), None) }.

Lemma ram_write_data (d p : bytes) off :
  0 <= off <= len d ->
  let d' := take (Z.to_nat off) d ++ p ++ drop (Z.to_nat off + length p) d in
  sub d' 0 off = sub d 0 off /\ sub d' off (off + len p) = p /\ off + len p <= len d'.
Proof.
  intros Ho d'. assert (Hl : len (take (Z.to_nat off) d) = off) by (unfold len in *; rewrite length_take; lia).
  pose proof (len_nonneg p). unfold d'. split_and!.
  - rewrite sub_app_l by lia. rewrite sub_full by lia. unfold sub. by rewrite Z.sub_0_r, drop_0.
  - rewrite sub_app_r by lia. rewrite Hl, Z.sub_diag. replace (off + len p - off) with (len p) by lia.
    rewrite sub_app_l by lia. by rewrite sub_full by lia.
  - autorewrite with len. rewrite Hl. pose proof (len_nonneg (drop (Z.to_nat off + length p) d)). lia.
Qed.

#[global] Program Instance RamFile_laws : Journal.OSFileLaws RamFile := { fdata := rdata }.
Next Obligation.
  intros f n off Hn Ho Hl. cbn. unfold sub. replace (Z.to_nat (off + n - off)) with (Z.to_nat n) by lia.
  assert (len (take (Z.to_nat n) (drop (Z.to_nat off) (rdata f))) = n) as Hlen.
  { unfold len in *. rewrite length_take, length_drop. lia. }
  by dec_false (len (take (Z.to_nat n) (drop (Z.to_nat off) (rdata f))) <? n).
Qed.
Next Obligation.
  intros f p off f' n e Hw Ho. cbn in Hw. destruct (ram_write_data (rdata f) p off Ho) as (? & ? & ?).
  pose proof (len_nonneg p). destruct (rfaults f) as [|[|] fs]; injection Hw as <- <- <-; cbn [rdata]; split; try done; lia.
Qed.
Next Obligation.
  intros f p off f' n Hw -> Ho. cbn in Hw. destruct (ram_write_data (rdata f) p off Ho) as (? & ? & ?).
  destruct (rfaults f) as [|[|] fs]; [|done|]; injection Hw as <-; cbn [rdata]; by split.
Qed.
Next Obligation. intros f f' e. cbn. by intros [= <- <-]. Qed.
Next Obligation. intros f n f' Ht _. cbn in Ht. injection Ht as <-. cbn. unfold sub. by rewrite Z.sub_0_r, drop_0. Qed.
Next Obligation. done. Qed.

#[global] Instance RamFile_stat : OSFileStat RamFile := {
  FMkdirAll f := (f, None); FOpen f := (f, None); FSize f := len (rdata f) }.

#[global] Program Instance RamFile_end : OSFileEnd RamFile.
Next Obligation. done. Qed.
Next Obligation. done. Qed.
Next Obligation. done. Qed.
Next Obligation.
  intros f p f' n e Hw. cbn in Hw |- *. unfold len in Hw. rewrite Nat2Z.id, take_ge, drop_ge in Hw by lia.
  destruct (rfaults f) as [|[|] fs]; injection Hw as <- <- <-; cbn.
  1,3: exists (length p); by rewrite take_ge, !app_nil_r by lia.
  exists 0%nat. by rewrite take_0, app_nil_r.
Qed.

(** ** A serialization of plans *)

(** Fields of escaped bytes with an end mark. *)
Definition mark (z : Z) : Byte.byte := byte_of z.
Definition field8 (x : bytes) : bytes := flat_map (fun c => [mark 1; c]) x ++ [mark 0].

Fixpoint unfields (b cur : bytes) : list bytes :=
  match b with
  | [] => []
  | c :: b =>
      if byteZ c =? 0 then cur :: unfields b []
      else match b with [] => [] | c :: b => unfields b (cur ++ [c]) end
  end.

Lemma unfields_field x b cur : unfields (field8 x ++ b) cur = (cur ++ x) :: unfields b [].
Proof.
  unfold field8. rewrite <- app_assoc. revert cur. induction x as [|c x IH]; intros cur.
  - cbn. by rewrite app_nil_r.
  - cbn [flat_map app]. change (mark 1 :: c :: flat_map (fun c => [mark 1; c]) x ++ [mark 0] ++ b)
      with ([mark 1; c] ++ (flat_map (fun c => [mark 1; c]) x ++ [mark 0] ++ b)).
    cbn [app unfields]. change (byteZ (mark 1) =? 0) with false. cbv match. rewrite IH. by rewrite <- app_assoc.
Qed.

Lemma unfields_all l : unfields (flat_map field8 l) [] = l.
Proof. induction l as [|x l IH]; [done|]. cbn [flat_map]. by rewrite unfields_field, IH. Qed.

Fixpoint bits (p : positive) : bytes :=
  match p with
  | xH => []
  | xO p => byte_of 48 :: bits p
  | xI p => byte_of 49 :: bits p
  end.

Fixpoint unbits (b : bytes) : positive :=
  match b with
  | [] => xH
  | c :: b => if byteZ c =? 48 then xO (unbits b) else xI (unbits b)
  end.

Lemma unbits_bits p : unbits (bits p) = p.
Proof. induction p as [p IH|p IH|]; cbn [bits unbits]; [by rewrite IH..|done]. Qed.

Definition num (z : Z) : bytes := bits (encode z).
Definition unnum (b : bytes) : Z := default 0 (decode (unbits b)).

Lemma unnum_num z : unnum (num z) = z.
Proof. unfold unnum, num. by rewrite unbits_bits, decode_encode. Qed.

Definition op_fields (o : Op) : list bytes :=
  [Action o; Rel o; Reason o; num (ExpectedSize o); num (ExpectedMode o); ExpectedDigestHex o; Initial o; Final o].

Fixpoint parse_ops (l : list bytes) : list Op :=
  match l with
  | a :: r :: e :: s :: m :: d :: i :: f :: l => mkOp a r e (unnum s) (unnum m) d i f :: parse_ops l
  | _ => []
  end.

Lemma parse_ops_fields ops : parse_ops (flat_map op_fields ops) = ops.
Proof.
  induction ops as [|o ops IH]; [done|]. cbn [flat_map op_fields app parse_ops]. rewrite IH, !unnum_num. by destruct o.
Qed.

Definition formatPlan (p : Plan) : bytes :=
  flat_map field8 (SourceRoot p :: DestRoot p :: flat_map op_fields (Ops p)).
Definition parsePlan (b : bytes) : res Error Plan :=
  match unfields b [] with
  | s :: d :: l => Ok (mkPlan s d (parse_ops l))
  | _ => Err (TextError "bad plan")
  end.

#[local] Instance demoJSON : PlanJSON := { FormatJSON := formatPlan; ParsePlanJSON := parsePlan }.

Lemma demoJSON_roundtrip p : ParsePlanJSON (FormatJSON p) = Ok p.
Proof. change (parsePlan (formatPlan p) = Ok p). unfold parsePlan, formatPlan. rewrite unfields_all, parse_ops_fields. by destruct p. Qed.

(** ** Runs *)

Abbreviation Session := (fileJournalSession RamFile).

Definition emptySession (faults : list bool) : Session := mkSession (mkRam [] faults) None.
Definition runOpts : Options MemFS Session := mkOptions (str "/s") (str "/d") false None false [] None.

Definition runTree : tree :=
  <[[] := NDir 0x1ED]> (demo_tree ["a"]).
Definition runWorld : MemFS * Session := (mkMemFS runTree [] 7, emptySession []).
Definition outcome (r : res Error (Result * option Error)) : option (Outcome * Z * option Error) :=
  match r with Ok (o, e) => Some (ROutcome o, CompletedOps o, e) | _ => None end.

(** Someone deletes a file between two runs. *)
Definition lose (q : list bytes) (wj : MemFS * Session) : MemFS * Session :=
  (with_nodes wj.1 (delete q (nodes wj.1)), wj.2).

(** A plan that is already confirmed is not applied again, whatever has
    happened to the destination since: after a synchronization, delete the copied
    file and synchronize again.  The second run plans the same copy, finds its
    digest confirmed in the journal, and reports success with one completed
    operation; the file is not there. *)
Lemma confirmed_plan_not_applied :
  let target := [str "d"; str "a"] in
  let '(wj1, r1) := Sync (str "/") runOpts runWorld in
  let '(wj2, r2) := Sync (str "/") runOpts (lose target wj1) in
  outcome r1 = Some (OutcomeSuccess, 1, None) /\ nodes wj1.1 !! target = Some (NFile 0x1A4 demo_data) /\
  outcome r2 = Some (OutcomeSuccess, 1, None) /\ nodes wj2.1 !! target = None.
Proof. vm_compute. split_and!; reflexivity. Qed.

(** ** Trees by evaluation *)

Definition plainb (c : bytes) : bool :=
  negb (bool_decide (c = [])) && negb (bool_decide (c = str ".")) && negb (bool_decide (c = str "..")) &&
  forallb (fun b => negb (byteZ b =? 47)) c.

Lemma plainb_plain c : plainb c = true -> plain c.
Proof.
  unfold plainb. intros H. reflect_bools. split_and!; try done. unfold PathGrammar.no_slash. apply Forall_forall.
  intros b Hb. rewrite list_elem_of_In in Hb.
  match goal with H : forallb _ _ = true |- _ => rewrite forallb_forall in H; apply H in Hb end. lia.
Qed.

Definition last_parent (q : list bytes) : option (list bytes * bytes) :=
  match rev q with [] => None | c :: r => Some (rev r, c) end.

Lemma last_parent_snoc ds c : last_parent (ds ++ [c]) = Some (ds, c).
Proof. unfold last_parent. rewrite rev_app_distr. cbn. by rewrite rev_involutive. Qed.

(** Every node satisfies a check on its parent path, its name and itself. *)
Definition all_nodes (f : list bytes -> bytes -> node -> bool) (v : tree) : bool :=
  forallb (fun '(q, n) => match last_parent q with Some (ds, c) => f ds c n | None => true end) (map_to_list v).

Lemma all_nodes_at f v ds c n : all_nodes f v = true -> v !! (ds ++ [c]) = Some n -> f ds c n = true.
Proof.
  unfold all_nodes. rewrite forallb_forall. intros H Hn. apply elem_of_map_to_list, list_elem_of_In in Hn.
  specialize (H _ Hn). cbn in H. by rewrite last_parent_snoc in H.
Qed.

Definition check_tree (v : tree) : bool :=
  all_nodes (fun ds c _ => plainb c && match v !! ds with Some (NDir _) => true | _ => false end) v.

Lemma check_tree_ok v : check_tree v = true -> tree_ok v.
Proof.
  intros H ds c n Hn. pose proof (all_nodes_at _ _ _ _ _ H Hn) as Hf. cbn in Hf. apply andb_true_iff in Hf as [Hc Hd].
  split; [by apply plainb_plain|]. destruct (v !! ds) as [[m| |]|]; try done. by exists m.
Qed.

Definition is_link (n : node) : bool := match n with NOther TSymlink => true | _ => false end.

Definition linkfree (v : tree) : bool := forallb (fun '(_, n) => negb (is_link n)) (map_to_list v).

Lemma linkfree_nolink v cs : linkfree v = true -> nolink v cs.
Proof.
  intros H. apply nolink_all. intros q n Hn ->. unfold linkfree in H. rewrite forallb_forall in H.
  apply elem_of_map_to_list, list_elem_of_In, H in Hn. done.
Qed.

Lemma linkfree_reachable v cs : linkfree v = true -> Forall plain cs -> reachable v cs.
Proof. intros H Hp. split; [done|]. intros p _ _. by apply (linkfree_nolink v p H p). Qed.

Lemma check_temps v sr : all_nodes (fun _ c _ => negb (is_temp c)) v = true -> no_temps v sr.
Proof.
  intros H cs c n Hn. rewrite app_assoc in Hn. pose proof (all_nodes_at _ _ _ _ _ H Hn) as Hf. cbn in Hf.
  by apply negb_true_iff.
Qed.

Lemma plain_roots : Forall plain [str "s"] /\ Forall plain [str "d"].
Proof. split; apply demo_root; vm_compute; reflexivity. Qed.

(** ** The theorems on these runs *)

Definition plainOpts : Options MemFS Session := mkOptions (str "/s") (str "/d") false None true [] None.

Lemma Sync_converges_witness :
  exists wj out, Sync (str "/") plainOpts runWorld = (wj, Ok (out, None)) /\
    exists sr dr, RSource_ out = native sr /\ RDestination_ out = native dr /\
      ROutcome out = OutcomeSuccess /\ mirrors runTree sr dr (nodes wj.1) /\
      forall cs, nodes wj.1 !! (sr ++ cs) = runTree !! (sr ++ cs).
Proof.
  assert (Hr : match (Sync (str "/") plainOpts runWorld).2 with Ok (_, None) => true | _ => false end = true)
    by (vm_compute; reflexivity).
  destruct (Sync (str "/") plainOpts runWorld) as [[w' j'] r] eqn:E. cbn [snd] in Hr.
  destruct r as [[out [e|]]|e|]; [discriminate Hr| |discriminate Hr|discriminate Hr].
  exists (w', j'), out. split; [reflexivity|].
  refine (Sync_converges (str "/") plainOpts (mkMemFS runTree [] 7) w' (emptySession []) j' out
    eq_refl eq_refl eq_refl eq_refl eq_refl _ _ _ E).
  - apply check_tree_ok. vm_compute. reflexivity.
  - intros cs Hp _. apply linkfree_reachable; [vm_compute; reflexivity|exact Hp].
  - intros cs Hp _. apply check_temps. vm_compute. reflexivity.
Defined.

Lemma ResolveRoots_safe_witness :
  exists w', ResolveRoots (str "/") (str "s") (str "./d/") true (mkMemFS runTree [] 7) = (w', Ok demo_roots) /\
    exists s d, demo_roots = mkRoots (native s) (native d) /\ ~ s `prefix_of` d.
Proof.
  assert (Hr : (ResolveRoots (str "/") (str "s") (str "./d/") true (mkMemFS runTree [] 7)).2 = Ok demo_roots)
    by (vm_compute; reflexivity).
  destruct (ResolveRoots (str "/") (str "s") (str "./d/") true (mkMemFS runTree [] 7)) as [w' r] eqn:E.
  cbn [snd] in Hr. subst r. exists w'. split; [reflexivity|].
  destruct (ResolveRoots_safe (str "/") (str "s") (str "./d/") true (mkMemFS runTree [] 7) w' demo_roots eq_refl
    (fun cs Hp _ => linkfree_reachable runTree cs ltac:(vm_compute; reflexivity) Hp) E)
    as (s & d & Hsd & _ & _ & _ & _ & _ & Hn & _).
  exists s, d. split; [exact Hsd|exact Hn].
Defined.

Lemma Scan_exact_witness :
  exists w' m, Scan (native [str "s"]) (mkMemFS runTree [] 7) = (w', Ok m) /\ len (Entries m) = 1 /\
    sorted_manifest m /\
    forall e, e ∈ Entries m <-> exists cs n, cs <> [] /\ nonmeta cs /\ runTree !! ([str "s"] ++ cs) = Some n /\ entry_for cs n e.
Proof.
  assert (Hr : match (Scan (native [str "s"]) (mkMemFS runTree [] 7)).2 with Ok m => len (Entries m) | _ => 0 end = 1)
    by (vm_compute; reflexivity).
  destruct (Scan (native [str "s"]) (mkMemFS runTree [] 7)) as [w' r] eqn:E. cbn [snd] in Hr.
  destruct r as [m|e|]; [|discriminate Hr|discriminate Hr]. exists w', m. split; [reflexivity|]. split; [exact Hr|].
  assert (Ht : tree_ok runTree) by (apply check_tree_ok; vm_compute; reflexivity).
  assert (Hl : nolink runTree [str "s"]) by (apply linkfree_nolink; vm_compute; reflexivity).
  destruct (Scan_exact (H0 := MemFS_laws) [str "s"] (mkMemFS runTree [] 7) w' (Ok m) Ht (proj1 plain_roots) Hl E) as (_ & _ & Hs & He & _).
  split; [exact Hs|exact He].
Defined.

(** The world after the directories are made and the journal is opened. *)
Definition openTree : tree := <[[str "d"; MetaDirName] := NDir 0x1C0]> runTree.

Lemma emptySession_sound : jsound (emptySession []).
Proof. split; [|vm_compute; reflexivity]. vm_compute. split; intros E; discriminate E. Qed.

Lemma opened_session :
  exists j, (SOpen (emptySession [])).1 = j /\ ready j /\ jrecords j = [].
Proof.
  assert (Hr : is_ok (SOpen (emptySession [])).2 = true) by (vm_compute; reflexivity).
  assert (Hn : jrecords (emptySession []) = []) by (vm_compute; reflexivity).
  destruct (SOpen (emptySession [])) as [j r] eqn:E. exists j. split; [reflexivity|].
  destruct (open_spec _ _ _ emptySession_sound E) as (_ & Hrec & Ho). rewrite Hrec, Hn.
  destruct r as [recs|e|]; [|discriminate Hr|discriminate Hr]. by destruct Ho.
Qed.

Lemma fresh_world j :
  ready j -> jrecords j = [] -> plannable_world [str "s"] [str "d"] (mkMemFS openTree [] 7) j.
Proof.
  intros Hr Hj. assert (Hno : forall s, ~ recorded j s) by (intros s; unfold recorded; by rewrite Hj).
  split; try done.
  - apply check_tree_ok. vm_compute. reflexivity.
  - apply plain_roots.
  - split; apply linkfree_nolink; vm_compute; reflexivity.
  - apply check_temps. vm_compute. reflexivity.
  - intros plan _. exists plan. by rewrite demoJSON_roundtrip.
  - intros s Hs. by apply Hno in Hs.
  - intros s Hs. by apply Hno in Hs.
Qed.

Definition demoRoots : Roots := mkRoots (native [str "s"]) (native [str "d"]).


(** A run that is killed when its transaction has just been authorized. *)
Definition openFS : MemFS := mkMemFS openTree [] 7.
Definition openSession : Session := (SOpen (emptySession [])).1.
Definition demoPlan : Plan :=
  match (buildFreshPlan demoRoots runOpts (openFS, openSession)).2 with Ok p => p | _ => emptyPlan end.
Definition killed : (MemFS * Session) * res Error bytes :=
  beginNewTxn [] demoRoots demoPlan (SHA256 (FormatJSON demoPlan)) (FormatJSON demoPlan) (openFS, openSession).

Lemma demoPlan_planned : planned openTree [str "s"] [str "d"] demoPlan.
Proof.
  assert (Hr : is_ok (buildFreshPlan demoRoots runOpts (openFS, openSession)).2 = true) by (vm_compute; reflexivity).
  unfold demoPlan. destruct (buildFreshPlan demoRoots runOpts (openFS, openSession)) as [wj r] eqn:E.
  cbn [snd] in *. revert Hr. pattern wj, r. eapply wp_run; [|exact E].
  destruct plain_roots as [Hs Hd].
  apply wp_buildFreshPlan; [done|apply check_tree_ok; vm_compute; reflexivity|done|done
    |apply linkfree_nolink; vm_compute; reflexivity|apply linkfree_nolink; vm_compute; reflexivity|].
  intros w' [p|e|] _ Hp Hr; done.
Qed.

Lemma killed_resumable :
  exists s, resumable [str "s"] [str "d"] (Ops demoPlan) s killed.1.1 (SClose killed.1.2).1 /\ Confirmed s = false.
Proof.
  destruct opened_session as (j & Hj & Hrd & Hn). fold openSession in Hj. subst j.
  pose proof (fresh_world _ Hrd Hn) as Hw. destruct plain_roots as [Hs Hd].
  assert (Hok : is_ok killed.2 = true) by (vm_compute; reflexivity).
  destruct killed as [[w' j'] r] eqn:E. cbn [fst snd] in *. unfold killed in E. rewrite <- Hn in E.
  assert (Hb : begins [str "s"] [str "d"] (SHA256 (FormatJSON demoPlan)) (FormatJSON demoPlan)
    (u32 (len (Ops demoPlan))) openFS openSession (w', j') r).
  { pattern (w', j'), r. eapply wp_run; [|exact E]. pose proof Hw as [].
    apply wp_beginNewTxn; [exact Hd|exact (proj2 pw_links0)|exact pw_tmp0|exact pw_roots0|apply len_sha256|exact Hrd|exact pw_ids0]. }
  destruct r as [id|e|]; [|discriminate Hok|discriminate Hok]. destruct Hb as (Hj' & He & Hid & _ & Hrec & Hm).
  cbn [fst snd] in *. destruct (SClose j') as [j2 r2] eqn:Ec. destruct (sclose_spec _ _ _ Hj' Ec) as (Hj2 & Hr2 & _).
  exists (opened id [str "s"] [str "d"] (SHA256 (FormatJSON demoPlan)) (u32 (len (Ops demoPlan)))).
  split; [|reflexivity]. eapply resumable_records; [|exact Hj2|exact Hr2].
  eapply begun_resumable; [exact Hw|exact demoPlan_planned|exact He|exact Hm|exact Hid|exact Hj'|exact Hrec].
Qed.

Lemma resume_crash_safe_witness :
  exists s w' j' s' out err,
    resumable [str "s"] [str "d"] (Ops demoPlan) s killed.1.1 (SClose killed.1.2).1 /\
    syncJournaled runOpts demoRoots startResult (killed.1.1, (SClose killed.1.2).1) = ((w', j'), Ok (out, err)) /\
    resumable [str "s"] [str "d"] (Ops demoPlan) s' w' j' /\ ID s' = ID s /\ NextOp s <= NextOp s' /\
    (err = None -> ROutcome out = OutcomeSuccess /\ Confirmed s' = true /\ Forall (done_op [str "d"] (nodes w')) (Ops demoPlan)).
Proof.
  destruct killed_resumable as (s & Hs & Hc).
  destruct (syncJournaled runOpts demoRoots startResult (killed.1.1, (SClose killed.1.2).1)) as [[w' j'] r] eqn:E.
  destruct (resume_crash_safe [str "s"] [str "d"] (Ops demoPlan) s startResult runOpts _ _ w' j' r eq_refl Hs Hc E)
    as (s' & out & err & -> & H1 & H2 & H3 & H4).
  exists s, w', j', s', out, err. split; [exact Hs|]. split; [reflexivity|]. split; [exact H1|]. split; [exact H2|].
  split; [exact H3|exact H4].
Defined.

End LocalRuns.
