(* ===== verification/RemoteMessages.v ===== *)
(** * Application messages of the push protocol (internal/remotesync)

    [errors.go], [messages.go], the destination manifest of [index_ipc.go] and the
    parser's checks of [parser_ipc.go].  Every decoder is exact: it accepts a byte
    string if and only if it is the encoding of the value it returns, so a message
    has one reading and no decoder panics on hostile input. *)

From S2P Require Import Prelude Codec FilePath FileSystem LocalPayload LocalPlan LocalApply.
Import Codec LocalPlan.

Module RemoteMessages.

(** ** Errors (errors.go) *)

Inductive Kind :=
| KindInvalidArgument | KindHandshake | KindTransport | KindProtocol | KindAuth | KindApply | KindInternal.

#[global] Instance Kind_eq_dec : EqDecision Kind.
Proof. solve_decision. Defined.

Definition kind_text (k : Kind) : bytes :=
  match k with
  | KindInvalidArgument => str "invalid_argument"
  | KindHandshake => str "handshake"
  | KindTransport => str "transport"
  | KindProtocol => str "protocol"
  | KindAuth => str "auth"
  | KindApply => str "apply"
  | KindInternal => str "internal"
  end.

(** A classified failure, whose wrapped error is kept by its text, or an error of
    another package passed on as it is. *)
Inductive Error :=
| RError (k : Kind) (msg : bytes) (inner : option bytes)
| Foreign (text : bytes).

#[global] Instance Error_eq_dec : EqDecision Error.
Proof. solve_decision. Defined.

(** [func (e *Error) Error() string]. *)
Definition error_text (e : Error) : bytes :=
  match e with
  | RError k msg inner =>
      kind_text k ++ (if bool_decide (msg = []) then [] else str ": " ++ msg)
      ++ match inner with Some t => str ": " ++ t | None => [] end
  | Foreign t => t
  end.

Definition wrap (k : Kind) (msg inner : bytes) : Error := RError k msg (Some inner).
Definition fail (k : Kind) (msg : bytes) : Error := RError k msg None.

Definition IsKind (e : Error) (k : Kind) : bool :=
  match e with RError k' _ _ => bool_decide (k' = k) | Foreign _ => false end.

(** [%d] of a number that is not negative. *)
Fixpoint itoa_loop (fuel : nat) (n : Z) (acc : bytes) : bytes :=
  match fuel with
  | O => acc
  | S fuel =>
      let acc := byte_of (48 + n mod 10) :: acc in
      if n <? 10 then acc else itoa_loop fuel (n / 10) acc
  end.
Definition itoa (n : Z) : bytes := itoa_loop 20 n [].

(** ** Message types (messages.go) *)

Definition msgManifest : Byte.byte := byte_of 1.
Definition msgManifestOK : Byte.byte := byte_of 2.
Definition msgFile : Byte.byte := byte_of 3.
Definition msgCommit : Byte.byte := byte_of 4.
Definition msgResult : Byte.byte := byte_of 5.
Definition msgFileBegin : Byte.byte := byte_of 6.
Definition msgFileAck : Byte.byte := byte_of 7.
Definition msgFileChunk : Byte.byte := byte_of 8.
Definition msgFileEnd : Byte.byte := byte_of 9.
Definition msgParseBundle : Byte.byte := byte_of 0xb0.
Definition msgDestManifest : Byte.byte := byte_of 0xe0.
Definition msgIPCAbort : Byte.byte := byte_of 0xff.

Definition protocolMaxBodyUseful : Z := Z.shiftl 1 20 - 256.

(** ** Fields *)

Definition appendU32 (b : bytes) (v : Z) : bytes := b ++ le_bytes 4 v.
Definition appendU64 (b : bytes) (v : Z) : bytes := b ++ le_bytes 8 v.

Definition appendString (b s : bytes) : res Error bytes :=
  if 65535 <? len s then Err (fail KindProtocol (str "string too long")) else
  let b := b ++ le_bytes 2 (u16 (len s)) in
  Ok (b ++ s).

Definition takeU32 (b : bytes) : res Error (Z * bytes) :=
  if len b <? 4 then Err (fail KindProtocol (str "short u32")) else
  let! s := slice b 0 4 in
  let! v := U32LE s in
  let! rest := slice b 4 (len b) in
  Ok (v, rest).

Definition takeU64 (b : bytes) : res Error (Z * bytes) :=
  if len b <? 8 then Err (fail KindProtocol (str "short u64")) else
  let! s := slice b 0 8 in
  let! v := U64LE s in
  let! rest := slice b 8 (len b) in
  Ok (v, rest).

Definition takeString (b : bytes) : res Error (bytes * bytes) :=
  if len b <? 2 then Err (fail KindProtocol (str "short string")) else
  let! s := slice b 0 2 in
  let! n := U16LE s in
  let! b := slice b 2 (len b) in
  if len b <? n then Err (fail KindProtocol (str "short string body")) else
  let! s := slice b 0 n in
  let! rest := slice b n (len b) in
  Ok (s, rest).

(** [len(p) < min || p[0] != t]. *)
Definition not_msg (t : Byte.byte) (min : Z) (p : bytes) : bool :=
  (len p <? min) || match p with [] => true | b :: _ => negb (bool_decide (b = t)) end.

(** ** Manifests *)

Definition encode_entry (b : bytes) (e : Entry) : res Error bytes :=
  if negb (bool_decide (EType e = EntryFile)) && negb (bool_decide (EType e = EntryDir))
  then Err (fail KindProtocol (str "unsupported entry type " ++ EType e)) else
  let t := if bool_decide (EType e = EntryDir) then byte_of 1 else byte_of 2 in
  let b := b ++ [t] in
  let! b := appendString b (ERel e) in
  let b := appendU32 b (EMode e) in
  let b := appendU64 b (u64 (ESize e)) in
  if bool_decide (EType e = EntryFile) then
    if negb (HasDigest e) then Err (fail KindProtocol (str "file missing digest"))
    else Ok (b ++ EDigest e)
  else Ok b.

Fixpoint encode_entries (b : bytes) (es : list Entry) : res Error bytes :=
  match es with
  | [] => Ok b
  | e :: es => let! b := encode_entry b e in encode_entries b es
  end.

Definition encodeManifest (entries : list Entry) : res Error bytes :=
  let b := [msgManifest] in
  let b := appendU32 b (u32 (len entries)) in
  let! b := encode_entries b entries in
  if protocolMaxBodyUseful <? len b then Err (fail KindProtocol (str "manifest too large for one frame"))
  else Ok b.

Definition decode_entry (rest : bytes) : res Error (Entry * bytes) :=
  if len rest <? 1 then Err (fail KindProtocol (str "short manifest entry")) else
  let! t := index rest 0 in
  let! rest := slice rest 1 (len rest) in
  let! (rel, rest) := takeString rest in
  let! (mode, rest) := takeU32 rest in
  let! (size, rest) := takeU64 rest in
  let size := LocalApply.i64 size in
  if bool_decide (t = byte_of 1) then Ok (mkEntry rel EntryDir size mode (zeros 32) false, rest)
  else if bool_decide (t = byte_of 2) then
    if len rest <? 32 then Err (fail KindProtocol (str "short digest")) else
    let! s := slice rest 0 32 in
    let digest := copy (zeros 32) s in
    let! rest := slice rest 32 (len rest) in
    Ok (mkEntry rel EntryFile size mode digest true, rest)
  else Err (fail KindProtocol (str "bad entry type " ++ itoa (byteZ t))).

(** [for i := uint32(0); i < n; i++]. *)
Fixpoint decode_entries (n : nat) (rest : bytes) (out : list Entry) : res Error (list Entry * bytes) :=
  match n with
  | O => Ok (out, rest)
  | S n =>
      let! (e, rest) := decode_entry rest in
      decode_entries n rest (out ++ [e])
  end.

(** The loop ends at the first short entry: more than [len rest] turns are not
    taken (an entry takes at least one byte), and the count is capped there. *)
Definition turns (n : Z) (rest : bytes) : nat := Z.to_nat (Z.min n (len rest + 1)).

Definition decodeManifest (p : bytes) : res Error (list Entry) :=
  if not_msg msgManifest 5 p then Err (fail KindProtocol (str "bad manifest")) else
  let! s := slice p 1 (len p) in
  let! (n, rest) := takeU32 s in
  let! (out, rest) := decode_entries (turns n rest) rest [] in
  if negb (len rest =? 0) then Err (fail KindProtocol (str "trailing manifest bytes"))
  else Ok out.

Definition encodeManifestOK : bytes := [msgManifestOK].

(** index_ipc.go: the same encoding under another type byte. *)
Definition encodeDestManifest (entries : list Entry) : res Error bytes :=
  let! b := encodeManifest entries in
  set_index b 0 msgDestManifest.

Definition decodeDestManifest (p : bytes) : res Error (list Entry) :=
  if not_msg msgDestManifest 1 p then Err (fail KindProtocol (str "bad dest manifest")) else
  let! s := slice p 1 (len p) in
  decodeManifest ([msgManifest] ++ s).

(** ** Files *)

Record fileWire := mkFileWire { FRel : bytes; FMode : Z; FDigest : bytes; FData : bytes }.

Definition decodeFile (p : bytes) : res Error fileWire :=
  if not_msg msgFile 1 p then Err (fail KindProtocol (str "bad file msg")) else
  let! rest := slice p 1 (len p) in
  let! (rel, rest) := takeString rest in
  let! (mode, rest) := takeU32 rest in
  if len rest <? 32 then Err (fail KindProtocol (str "short file digest")) else
  let! s := slice rest 0 32 in
  let dig := copy (zeros 32) s in
  let! rest := slice rest 32 (len rest) in
  let! (n, rest) := takeU32 rest in
  if negb (u32 (len rest) =? n) then Err (fail KindProtocol (str "file data length mismatch"))
  else Ok (mkFileWire rel mode dig rest).

Record fileBegin := mkBegin { BRel : bytes; BMode : Z; BDigest : bytes; BSize : Z }.

#[global] Instance fileBegin_eq_dec : EqDecision fileBegin.
Proof. solve_decision. Defined.

Definition encodeFileBegin (rel : bytes) (mode : Z) (dig : bytes) (size : Z) : res Error bytes :=
  let b := [msgFileBegin] in
  let! b := appendString b rel in
  let b := appendU32 b mode in
  let b := b ++ dig in
  Ok (appendU64 b size).

Definition decodeFileBegin (p : bytes) : res Error fileBegin :=
  if not_msg msgFileBegin 1 p then Err (fail KindProtocol (str "bad file begin")) else
  let! rest := slice p 1 (len p) in
  let! (rel, rest) := takeString rest in
  let! (mode, rest) := takeU32 rest in
  if negb (len rest =? 32 + 8) then Err (fail KindProtocol (str "bad file begin length")) else
  let! s := slice rest 0 32 in
  let dig := copy (zeros 32) s in
  let! s := slice rest 32 40 in
  let! size := U64LE s in
  Ok (mkBegin rel mode dig size).

Definition encodeFileAck (offset : Z) : bytes := appendU64 [msgFileAck] offset.

Definition decodeFileAck (p : bytes) : res Error Z :=
  if negb (len p =? 1 + 8) || not_msg msgFileAck 0 p then Err (fail KindProtocol (str "bad file ack")) else
  let! s := slice p 1 9 in
  U64LE s.

Definition encodeFileChunk (offset : Z) (data : bytes) : res Error bytes :=
  let overhead := 1 + 8 + 4 in
  if protocolMaxBodyUseful <? overhead + len data then Err (fail KindProtocol (str "chunk too large")) else
  let b := [msgFileChunk] in
  let b := appendU64 b offset in
  let b := appendU32 b (u32 (len data)) in
  Ok (b ++ data).

Definition decodeFileChunk (p : bytes) : res Error (Z * bytes) :=
  if not_msg msgFileChunk (1 + 8 + 4) p then Err (fail KindProtocol (str "bad file chunk")) else
  let! s := slice p 1 9 in
  let! offset := U64LE s in
  let! s := slice p 9 13 in
  let! n := U32LE s in
  if negb (13 + n =? len p) then Err (fail KindProtocol (str "chunk length mismatch")) else
  let! data := slice p 13 (len p) in
  Ok (offset, data).

Definition encodeFileEnd (rel dig : bytes) : res Error bytes :=
  let b := [msgFileEnd] in
  let! b := appendString b rel in
  Ok (b ++ dig).

Definition decodeFileEnd (p : bytes) : res Error (bytes * bytes) :=
  if not_msg msgFileEnd 1 p then Err (fail KindProtocol (str "bad file end")) else
  let! s := slice p 1 (len p) in
  let! (rel, rest) := takeString s in
  if negb (len rest =? 32) then Err (fail KindProtocol (str "file end digest length")) else
  Ok (rel, copy (zeros 32) rest).

Definition encodeCommit : bytes := [msgCommit].

Definition encodeResult (ok : bool) (msg : bytes) : res Error bytes :=
  let b := [msgResult] in
  let b := b ++ [if ok then byte_of 1 else byte_of 0] in
  appendString b msg.

Definition decodeResult (p : bytes) : res Error (bool * bytes) :=
  if not_msg msgResult 2 p then Err (fail KindProtocol (str "bad result")) else
  let! b := index p 1 in
  let ok := bool_decide (b = byte_of 1) in
  let! s := slice p 2 (len p) in
  let! (msg, rest) := takeString s in
  if negb (len rest =? 0) then Err (fail KindProtocol (str "trailing result")) else
  Ok (ok, msg).

(** [mustResult] (ipc_apply.go). *)
Definition mustResult (ok : bool) (msg : bytes) : bytes :=
  match encodeResult ok msg with
  | Ok b => b
  | _ => [msgResult; byte_of 0; byte_of 0; byte_of 0]
  end.

(** ** The parser (parser_ipc.go) *)

Definition wrapParseBundle (files : Z) (applyResp : bytes) : bytes :=
  [msgParseBundle] ++ le_bytes 4 files ++ applyResp.

Definition unwrapParseBundle (p : bytes) : res Error (Z * bytes) :=
  if not_msg msgParseBundle (1 + 4) p then Err (fail KindProtocol (str "bad parse bundle")) else
  let! s := slice p 1 5 in
  let! files := U32LE s in
  let! rest := slice p 5 (len p) in
  Ok (files, rest).

Definition validateAppMessage (p : bytes) : res Error unit :=
  match p with
  | [] => Err (fail KindProtocol (str "empty app message"))
  | t :: _ =>
      if bool_decide (t = msgManifest) then let! _ := decodeManifest p in Ok tt
      else if bool_decide (t = msgFile) then let! _ := decodeFile p in Ok tt
      else if bool_decide (t = msgFileBegin) then let! _ := decodeFileBegin p in Ok tt
      else if bool_decide (t = msgFileChunk) then let! _ := decodeFileChunk p in Ok tt
      else if bool_decide (t = msgFileEnd) then let! _ := decodeFileEnd p in Ok tt
      else if bool_decide (t = msgCommit) then
        if negb (len p =? 1) then Err (fail KindProtocol (str "bad commit")) else Ok tt
      else if bool_decide (t = msgIPCAbort) then Ok tt
      else Err (fail KindProtocol (str "unknown app op " ++ itoa (byteZ t)))
  end.

Definition is_file (e : Entry) : bool := bool_decide (EType e = EntryFile).
Definition file_count (es : list Entry) : Z := len (filter is_file es).

Definition manifestFileCount (p : bytes) : res Error Z :=
  let! entries := decodeManifest p in
  Ok (file_count entries).

(** ** Layouts *)

Definition string_bytes (s : bytes) : bytes := le_bytes 2 (len s) ++ s.

Definition wf_string (s : bytes) : Prop := len s <= 65535.
Definition wf_digest (d : bytes) : Prop := len d = 32.
Definition is_i64 (z : Z) : Prop := - 2 ^ 63 <= z < 2 ^ 63.

(** What an entry can carry on the wire: a directory has no digest. *)
Definition wire_entry (e : Entry) : Prop :=
  wf_string (ERel e) /\ is_u32 (EMode e) /\ is_i64 (ESize e) /\
  ((EType e = EntryDir /\ HasDigest e = false /\ EDigest e = zeros 32) \/
   (EType e = EntryFile /\ HasDigest e = true /\ wf_digest (EDigest e))).

Definition entry_bytes (e : Entry) : bytes :=
  [if is_file e then byte_of 2 else byte_of 1] ++ string_bytes (ERel e) ++ le_bytes 4 (EMode e)
  ++ le_bytes 8 (u64 (ESize e)) ++ (if is_file e then EDigest e else []).

Definition entries_bytes (es : list Entry) : bytes := concat (map entry_bytes es).

Definition manifest_bytes (t : Byte.byte) (es : list Entry) : bytes :=
  [t] ++ le_bytes 4 (len es) ++ entries_bytes es.

Definition file_bytes (f : fileWire) : bytes :=
  [msgFile] ++ string_bytes (FRel f) ++ le_bytes 4 (FMode f) ++ FDigest f ++ le_bytes 4 (u32 (len (FData f))) ++ FData f.
Definition begin_bytes (b : fileBegin) : bytes :=
  [msgFileBegin] ++ string_bytes (BRel b) ++ le_bytes 4 (BMode b) ++ BDigest b ++ le_bytes 8 (BSize b).
Definition chunk_bytes (off : Z) (data : bytes) : bytes :=
  [msgFileChunk] ++ le_bytes 8 off ++ le_bytes 4 (len data) ++ data.
Definition end_bytes (rel dig : bytes) : bytes := [msgFileEnd] ++ string_bytes rel ++ dig.

(** ** Reading one field *)

Lemma take_front {E} (a b : bytes) n :
  n = len a -> @slice E _ (a ++ b) 0 n = Ok a /\ @slice E _ (a ++ b) n (len (a ++ b)) = Ok b.
Proof.
  intros ->. split; [by apply slice_app_here|]. pose proof (len_nonneg a). pose proof (len_nonneg b).
  rewrite slice_ok by len_lia. f_equal.
  rewrite sub_app_r by lia. apply sub_whole; len_lia.
Qed.

(** A slice that is long enough is its front and the rest. *)
Lemma split_at (b : bytes) n : 0 <= n <= len b -> exists a r, b = a ++ r /\ len a = n.
Proof.
  intros Hn. exists (sub b 0 n), (sub b n (len b)). split; [|rewrite len_sub; lia].
  rewrite <- sub_split by lia. symmetry. by apply sub_full.
Qed.

Lemma copy_digest d : wf_digest d -> copy (zeros 32) d = d.
Proof. intros Hd. apply copy_exact. apply (len_length d 32) in Hd. by rewrite Hd. Qed.

Lemma le_val_u n b : len b = Z.of_nat n -> 0 <= le_val b < 256 ^ Z.of_nat n /\ b = le_bytes n (le_val b).
Proof.
  intros Hb. pose proof (le_val_range b) as H. rewrite Hb in H. split; [done|].
  symmetry. apply le_bytes_val_n. unfold len in Hb. lia.
Qed.

Lemma takeU32_app v r : is_u32 v -> takeU32 (le_bytes 4 v ++ r) = Ok (v, r).
Proof.
  intros Hv. unfold takeU32. dec_false (len (le_bytes 4 v ++ r) <? 4).
  destruct (take_front (E := Error) (le_bytes 4 v) r 4) as [-> ->]; [by rewrite len_le_bytes|]. cbn [bind].
  rewrite U32LE_ok by (by rewrite len_le_bytes). cbn [bind]. by rewrite le_val_bytes.
Qed.

Lemma takeU64_app v r : is_u64 v -> takeU64 (le_bytes 8 v ++ r) = Ok (v, r).
Proof.
  intros Hv. unfold takeU64. dec_false (len (le_bytes 8 v ++ r) <? 8).
  destruct (take_front (E := Error) (le_bytes 8 v) r 8) as [-> ->]; [by rewrite len_le_bytes|]. cbn [bind].
  rewrite U64LE_ok by (by rewrite len_le_bytes). cbn [bind]. by rewrite le_val_bytes.
Qed.

Lemma takeString_app s r : wf_string s -> takeString (string_bytes s ++ r) = Ok (s, r).
Proof.
  unfold wf_string. intros Hs. unfold takeString, string_bytes. rewrite <- app_assoc.
  dec_false (len (le_bytes 2 (len s) ++ s ++ r) <? 2).
  destruct (take_front (E := Error) (le_bytes 2 (len s)) (s ++ r) 2) as [-> ->]; [by rewrite len_le_bytes|]. cbn [bind].
  rewrite U16LE_ok by (by rewrite len_le_bytes). cbn [bind].
  pose proof (len_nonneg s). rewrite le_val_bytes by (cbn; lia).
  dec_false (len (s ++ r) <? len s).
  by destruct (take_front (E := Error) s r (len s)) as [-> ->].
Qed.

(** What a field reader returns, in every case. *)
Lemma takeU32_inv b :
  match takeU32 b with
  | Ok (v, r) => is_u32 v /\ b = le_bytes 4 v ++ r
  | Err _ => True
  | Panic => False
  end.
Proof.
  unfold takeU32. destruct (len b <? 4) eqn:E; [done|]. reflect_bools.
  destruct (split_at b 4) as (a & r & -> & Ha); [lia|].
  destruct (take_front (E := Error) a r 4) as [-> ->]; [done|]. cbn [bind]. rewrite U32LE_ok by done. cbn [bind].
  destruct (le_val_u 4 a Ha) as [Hv Eq]. split; [done|]. by rewrite <- Eq.
Qed.

Lemma takeU64_inv b :
  match takeU64 b with
  | Ok (v, r) => is_u64 v /\ b = le_bytes 8 v ++ r
  | Err _ => True
  | Panic => False
  end.
Proof.
  unfold takeU64. destruct (len b <? 8) eqn:E; [done|]. reflect_bools.
  destruct (split_at b 8) as (a & r & -> & Ha); [lia|].
  destruct (take_front (E := Error) a r 8) as [-> ->]; [done|]. cbn [bind]. rewrite U64LE_ok by done. cbn [bind].
  destruct (le_val_u 8 a Ha) as [Hv Eq]. split; [done|]. by rewrite <- Eq.
Qed.

Lemma takeString_inv b :
  match takeString b with
  | Ok (s, r) => wf_string s /\ b = string_bytes s ++ r
  | Err _ => True
  | Panic => False
  end.
Proof.
  unfold takeString. destruct (len b <? 2) eqn:E; [done|]. reflect_bools.
  destruct (split_at b 2) as (a & r & -> & Ha); [lia|].
  destruct (take_front (E := Error) a r 2) as [-> ->]; [done|]. cbn [bind]. rewrite U16LE_ok by done. cbn [bind].
  destruct (le_val_u 2 a Ha) as [Hv Eq]. cbn in Hv. destruct (len r <? le_val a) eqn:El; [done|]. reflect_bools.
  destruct (split_at r (le_val a)) as (s & r' & -> & Hs); [lia|].
  destruct (take_front (E := Error) s r' (le_val a)) as [-> ->]; [done|]. cbn [bind].
  unfold wf_string, string_bytes. split; [lia|]. rewrite Hs, <- Eq. by rewrite <- app_assoc.
Qed.

(** The first byte. *)
Lemma not_msg_inv t min p : 1 <= min -> not_msg t min p = false <-> min <= len p /\ exists r, p = [t] ++ r.
Proof.
  intros Hm. unfold not_msg. rewrite orb_false_iff, Z.ltb_ge. split; intros [Hl H]; (split; [done|]).
  - destruct p as [|b r]; [done|]. reflect_bools. subst. by exists r.
  - destruct H as [r ->]. cbn. by rewrite bool_decide_true.
Qed.

Lemma not_msg_head t min r : min <= 1 + len r -> not_msg t min ([t] ++ r) = false.
Proof.
  intros Hm. unfold not_msg. rewrite len_app. change (len [t]) with 1. rewrite (proj2 (Z.ltb_ge _ _)) by done.
  cbn. by rewrite bool_decide_true.
Qed.

(** Signed and unsigned readings of a size. *)
Lemma u64_i64 z : is_u64 z -> u64 (LocalApply.i64 z) = z.
Proof. unfold is_u64, u64, LocalApply.i64. intros. Z.div_mod_to_equations. lia. Qed.
Lemma i64_u64 z : is_i64 z -> LocalApply.i64 (u64 z) = z.
Proof. unfold is_i64, u64, LocalApply.i64. intros. Z.div_mod_to_equations. lia. Qed.
Lemma is_i64_i64 z : is_i64 (LocalApply.i64 z).
Proof. unfold is_i64, LocalApply.i64. Z.div_mod_to_equations. lia. Qed.

(** Case analysis on the field that a decoder is about to read. *)
Ltac take_case :=
  let K := fresh in let H1 := fresh "Hf" in let H2 := fresh "Eq" in
  match goal with
  | |- context [bind (takeU32 ?b) _] => pose proof (takeU32_inv b) as K; destruct (takeU32 b) as [[? ?]|?|]
  | |- context [bind (takeU64 ?b) _] => pose proof (takeU64_inv b) as K; destruct (takeU64 b) as [[? ?]|?|]
  | |- context [bind (takeString ?b) _] => pose proof (takeString_inv b) as K; destruct (takeString b) as [[? ?]|?|]
  end; cbn [bind]; [|done|done]; destruct K as [H1 H2]; subst.

(** The front of a message of known length. *)
Ltac front_step a r n :=
  let H1 := fresh in let H2 := fresh in
  destruct (take_front (E := Error) a r n) as [H1 H2]; [try done; by rewrite ?len_le_bytes|]; rewrite ?H1, ?H2; clear H1 H2; cbn [bind].

Lemma decode_entry_app e r : wire_entry e -> decode_entry (entry_bytes e ++ r) = Ok (e, r).
Proof.
  intros (Hs & Hm & Hz & Ht). unfold decode_entry, entry_bytes. rewrite <- !app_assoc.
  set (tl := string_bytes (ERel e) ++ _). pose proof (len_nonneg tl).
  match goal with |- context [[?b] ++ tl] => dec_false (len ([b] ++ tl) <? 1);
    change (index ([b] ++ tl) 0) with (@Ok Error _ b); cbn [bind]; front_step [b] tl 1 end.
  unfold tl. rewrite takeString_app by done. cbn [bind]. rewrite takeU32_app by done. cbn [bind].
  rewrite takeU64_app by apply u64_range. cbn [bind]. rewrite i64_u64 by done.
  destruct e as [rel ty sz mo dg hd]. cbn [ERel EMode ESize EType EDigest HasDigest] in *. unfold is_file. cbn [EType].
  destruct Ht as [(-> & -> & ->)|(-> & -> & Hd)]; [done|].
  change (bool_decide (EntryFile = EntryFile)) with true. cbv iota.
  change (bool_decide (byte_of 2 = byte_of 1)) with false. change (bool_decide (byte_of 2 = byte_of 2)) with true. cbv iota.
  pose proof (len_nonneg r). unfold wf_digest in *. dec_false (len (dg ++ r) <? 32). front_step dg r 32.
  by rewrite copy_digest.
Qed.

Lemma decode_entry_inv b :
  match decode_entry b with
  | Ok (e, r) => wire_entry e /\ b = entry_bytes e ++ r
  | Err _ => True
  | Panic => False
  end.
Proof.
  unfold decode_entry. destruct (len b <? 1) eqn:E; [done|]. destruct b as [|t b]; [done|]. clear E.
  change (index (t :: b) 0) with (@Ok Error _ t). cbn [bind].
  change (t :: b) with ([t] ++ b). front_step [t] b 1. do 3 take_case. case_bool_decide as Et.
  { subst t. unfold entry_bytes. cbn -[string_bytes le_bytes zeros LocalApply.i64]. rewrite u64_i64 by done.
    split; [|by rewrite <- !app_assoc]. split_and!; try done; [apply is_i64_i64|by left]. }
  case_bool_decide as Et'; [|done].
  match goal with |- context [len ?r <? 32] => destruct (len r <? 32) eqn:E; [done|]; reflect_bools;
    destruct (split_at r 32) as (dg & r' & -> & Hd); [lia|] end.
  front_step dg r' 32. rewrite copy_digest by done. subst t. unfold entry_bytes.
  cbn -[string_bytes le_bytes LocalApply.i64]. rewrite u64_i64 by done.
  split; [|by rewrite <- !app_assoc]. split_and!; try done; [apply is_i64_i64|by right].
Qed.

(** ** Manifests *)

Lemma entry_bytes_pos e : 1 <= len (entry_bytes e).
Proof. unfold entry_bytes. len_lia. Qed.

Lemma entries_bytes_cons e es : entries_bytes (e :: es) = entry_bytes e ++ entries_bytes es.
Proof. done. Qed.

Lemma entries_bytes_len es : len es <= len (entries_bytes es).
Proof.
  induction es as [|e es IH]; [done|]. rewrite entries_bytes_cons, len_cons, len_app.
  pose proof (entry_bytes_pos e). lia.
Qed.

Lemma decode_entries_app es r out :
  Forall wire_entry es -> decode_entries (length es) (entries_bytes es ++ r) out = Ok (out ++ es, r).
Proof.
  intros H. revert out. induction H as [|e es He _ IH]; intros out; cbn [length decode_entries].
  { by rewrite app_nil_r. }
  rewrite entries_bytes_cons, <- app_assoc, decode_entry_app by done. cbn [bind]. by rewrite IH, <- app_assoc.
Qed.

Lemma decode_entries_inv n b out :
  match decode_entries n b out with
  | Ok (res, r) => exists es, res = out ++ es /\ length es = n /\ Forall wire_entry es /\ b = entries_bytes es ++ r
  | Err _ => True
  | Panic => False
  end.
Proof.
  revert b out. induction n as [|n IH]; intros b out; cbn [decode_entries].
  { exists []. by rewrite app_nil_r. }
  pose proof (decode_entry_inv b) as He. destruct (decode_entry b) as [[e r]|?|]; cbn [bind]; [|done|done].
  destruct He as [He ->]. specialize (IH r (out ++ [e])).
  destruct (decode_entries n r (out ++ [e])) as [[res r']|?|]; [|done|done].
  destruct IH as (es & -> & <- & Hes & ->). exists (e :: es). rewrite entries_bytes_cons, <- !app_assoc.
  split_and!; try done. by constructor.
Qed.

(** The cap on the turns is not observable: a longer run fails at the same entry. *)
Lemma decode_entries_short n b out :
  len b < Z.of_nat n -> exists e, forall k, (n <= k)%nat -> decode_entries k b out = Err e.
Proof.
  revert b out. induction n as [|n IH]; intros b out Hl; [pose proof (len_nonneg b); lia|].
  pose proof (decode_entry_inv b) as He. destruct (decode_entry b) as [[e r]|e|] eqn:E; [| |done].
  - destruct He as [He ->]. rewrite len_app in Hl. pose proof (entry_bytes_pos e).
    destruct (IH r (out ++ [e])) as [x Hx]; [lia|]. exists x. intros [|k] Hk; [lia|]. cbn [decode_entries].
    rewrite E. cbn [bind]. apply Hx. lia.
  - exists e. intros [|k] Hk; [lia|]. cbn [decode_entries]. by rewrite E.
Qed.

Lemma turns_enough n b out :
  0 <= n -> decode_entries (turns n b) b out = decode_entries (Z.to_nat n) b out.
Proof.
  intros Hn. unfold turns. destruct (decide (n <= len b + 1)); [by rewrite Z.min_l|].
  rewrite Z.min_r by lia. pose proof (len_nonneg b).
  destruct (decode_entries_short (Z.to_nat (len b + 1)) b out) as [e He]; [lia|].
  by rewrite !He by lia.
Qed.

Lemma decodeManifest_bytes es :
  Forall wire_entry es -> len es < 4294967296 -> decodeManifest (manifest_bytes msgManifest es) = Ok es.
Proof.
  intros Hes Hl. unfold decodeManifest, manifest_bytes. pose proof (len_nonneg es). pose proof (len_nonneg (entries_bytes es)).
  rewrite not_msg_head by len_lia.
  front_step [msgManifest] (le_bytes 4 (len es) ++ entries_bytes es) 1.
  rewrite takeU32_app by (unfold is_u32; lia). cbn [bind]. rewrite turns_enough by lia.
  rewrite <- (app_nil_r (entries_bytes es)). unfold len at 1. rewrite Nat2Z.id.
  by rewrite decode_entries_app.
Qed.

Lemma decodeManifest_inv p :
  match decodeManifest p with
  | Ok es => Forall wire_entry es /\ len es < 4294967296 /\ p = manifest_bytes msgManifest es
  | Err _ => True
  | Panic => False
  end.
Proof.
  unfold decodeManifest. destruct (not_msg _ _ _) eqn:E; [done|]. apply not_msg_inv in E as [_ [r ->]]; [|lia].
  front_step [msgManifest] r 1. take_case. rewrite turns_enough by (unfold is_u32 in *; lia).
  match goal with |- context [decode_entries ?n ?b ?o] =>
    pose proof (decode_entries_inv n b o) as He; destruct (decode_entries n b o) as [[res r']|?|]; cbn [bind]; [|done|done] end.
  destruct He as (es & -> & Hn & Hes & ->). destruct (_ =? _) eqn:Er; [|done]. reflect_bools.
  apply len_zero_nil in Er as ->. cbn [app negb]. unfold is_u32 in *. rewrite app_nil_r. unfold manifest_bytes.
  assert (len es = z) as -> by (unfold len; lia). split_and!; try done; lia.
Qed.

Lemma appendString_ok b s : wf_string s -> appendString b s = Ok (b ++ string_bytes s).
Proof.
  unfold wf_string, appendString, string_bytes. intros Hs. pose proof (len_nonneg s).
  dec_false (65535 <? len s). rewrite u16_small by (unfold is_u16; lia). by rewrite <- app_assoc.
Qed.

Lemma encode_entry_ok b e : wire_entry e -> encode_entry b e = Ok (b ++ entry_bytes e).
Proof.
  intros (Hs & Hm & Hz & Ht). unfold encode_entry, entry_bytes, is_file.
  destruct Ht as [(-> & -> & _)|(-> & -> & _)]; cbn [negb].
  - change (bool_decide (EntryDir = EntryFile)) with false. change (bool_decide (EntryDir = EntryDir)) with true.
    cbv match. cbn [negb andb]. rewrite appendString_ok by done. cbn [bind]. unfold appendU32, appendU64.
    by rewrite <- !app_assoc, app_nil_r.
  - change (bool_decide (EntryFile = EntryFile)) with true. change (bool_decide (EntryFile = EntryDir)) with false.
    cbv match. cbn [negb andb]. rewrite appendString_ok by done. cbn [bind]. unfold appendU32, appendU64.
    by rewrite <- !app_assoc.
Qed.

Lemma encode_entries_ok es b : Forall wire_entry es -> encode_entries b es = Ok (b ++ entries_bytes es).
Proof.
  intros H. revert b. induction H as [|e es He _ IH]; intros b; cbn [encode_entries]; [by rewrite app_nil_r|].
  rewrite encode_entry_ok by done. cbn [bind]. by rewrite IH, entries_bytes_cons, <- app_assoc.
Qed.

Lemma encodeManifest_bytes es :
  Forall wire_entry es -> len (manifest_bytes msgManifest es) <= protocolMaxBodyUseful ->
  encodeManifest es = Ok (manifest_bytes msgManifest es).
Proof.
  intros Hes Hl. unfold encodeManifest. rewrite encode_entries_ok by done. cbn [bind].
  assert (Hu : is_u32 (len es)).
  { unfold manifest_bytes in Hl. pose proof (entries_bytes_len es). pose proof (len_nonneg es).
    rewrite !len_app in Hl. change protocolMaxBodyUseful with 1048320 in Hl. rewrite len_le_bytes in Hl.
    change (len [msgManifest]) with 1 in Hl. unfold is_u32. lia. }
  rewrite (u32_small _ Hu). unfold appendU32. rewrite <- app_assoc. fold (manifest_bytes msgManifest es).
  by rewrite (proj2 (Z.ltb_ge _ _)).
Qed.

(** The manifest decoder is exact: a byte string is accepted if and only if it
    is the encoding of the returned entries, each a directory or a file with a
    digest, and of nothing else.  So no two readings exist, hostile input never
    panics the decoder, and re-encoding gives back the received bytes. *)
Lemma decodeManifest_exact p es :
  (decodeManifest p = Ok es <->
   Forall wire_entry es /\ len es < 4294967296 /\ p = manifest_bytes msgManifest es) /\
  decodeManifest p <> Panic /\
  (decodeManifest p = Ok es -> len p <= protocolMaxBodyUseful -> encodeManifest es = Ok p).
Proof.
  pose proof (decodeManifest_inv p) as H. split_and!.
  - split; [intros E; by rewrite E in H|]. intros (? & ? & ->). by apply decodeManifest_bytes.
  - intros E. by rewrite E in H.
  - intros E Hl. rewrite E in H. destruct H as (? & ? & ->). by apply encodeManifest_bytes.
Qed.

(** ** Files *)

Lemma decodeFile_inv p :
  match decodeFile p with
  | Ok f => wf_string (FRel f) /\ is_u32 (FMode f) /\ wf_digest (FDigest f) /\ p = file_bytes f
  | Err _ => True
  | Panic => False
  end.
Proof.
  unfold decodeFile. destruct (not_msg _ _ _) eqn:E; [done|]. apply not_msg_inv in E as [_ [r ->]]; [|lia].
  front_step [msgFile] r 1. do 2 take_case.
  match goal with |- context [len ?r <? 32] => destruct (len r <? 32) eqn:E; [done|]; reflect_bools;
    destruct (split_at r 32) as (dg & r' & -> & Hd); [lia|] end.
  front_step dg r' 32. take_case. destruct (_ =? _) eqn:En; [|done]. reflect_bools. cbn [negb].
  rewrite copy_digest by done. unfold file_bytes. cbn [FRel FMode FDigest FData]. rewrite En.
  split_and!; try done.
Qed.

Lemma decodeFile_bytes f :
  wf_string (FRel f) -> is_u32 (FMode f) -> wf_digest (FDigest f) -> decodeFile (file_bytes f) = Ok f.
Proof.
  intros Hs Hm Hd. unfold decodeFile, file_bytes. rewrite not_msg_head by len_lia.
  match goal with |- context [[msgFile] ++ ?r] => front_step [msgFile] r 1 end.
  rewrite takeString_app by done. cbn [bind]. rewrite takeU32_app by done. cbn [bind].
  match goal with |- context [FDigest f ++ ?r] => pose proof (len_nonneg r); unfold wf_digest in Hd;
    dec_false (len (FDigest f ++ r) <? 32); front_step (FDigest f) r 32 end.
  rewrite takeU32_app by apply u32_range. cbn [bind]. rewrite Z.eqb_refl. cbn [negb].
  rewrite copy_digest by done. by destruct f.
Qed.

Lemma decodeFileBegin_inv p :
  match decodeFileBegin p with
  | Ok b => wf_string (BRel b) /\ is_u32 (BMode b) /\ wf_digest (BDigest b) /\ is_u64 (BSize b) /\ p = begin_bytes b
  | Err _ => True
  | Panic => False
  end.
Proof.
  unfold decodeFileBegin. destruct (not_msg _ _ _) eqn:E; [done|]. apply not_msg_inv in E as [_ [r ->]]; [|lia].
  front_step [msgFileBegin] r 1. do 2 take_case.
  match goal with |- context [len ?r =? 32 + 8] => destruct (len r =? 32 + 8) eqn:E; [|done]; reflect_bools;
    destruct (split_at r 32) as (dg & sz & -> & Hd); [lia|] end.
  rewrite len_app in E. cbn [negb].
  front_step dg sz 32. rewrite slice_ok by len_lia. cbn [bind]. rewrite sub_app_r by lia. rewrite Hd, sub_whole by lia.
  rewrite U64LE_ok by lia. cbn [bind]. destruct (le_val_u 8 sz) as [Hv Eq]; [lia|]. rewrite copy_digest by done.
  unfold begin_bytes. cbn [BRel BMode BDigest BSize]. rewrite <- Eq. split_and!; try done.
Qed.

Lemma decodeFileBegin_bytes b :
  wf_string (BRel b) -> is_u32 (BMode b) -> wf_digest (BDigest b) -> is_u64 (BSize b) ->
  decodeFileBegin (begin_bytes b) = Ok b.
Proof.
  intros Hs Hm Hd Hz. unfold decodeFileBegin, begin_bytes. rewrite not_msg_head by len_lia.
  match goal with |- context [[msgFileBegin] ++ ?r] => front_step [msgFileBegin] r 1 end.
  rewrite takeString_app by done. cbn [bind]. rewrite takeU32_app by done. cbn [bind].
  unfold wf_digest in Hd. rewrite len_app, Hd, len_le_bytes. cbn [Z.eqb negb]. change (negb _) with false. cbv match.
  front_step (BDigest b) (le_bytes 8 (BSize b)) 32.
  rewrite slice_ok by len_lia. cbn [bind]. rewrite sub_app_r by lia. rewrite Hd, sub_whole by len_lia.
  rewrite U64LE_ok by (by rewrite len_le_bytes). cbn [bind]. rewrite le_val_bytes, copy_digest by done. by destruct b.
Qed.

Lemma decodeFileChunk_inv p :
  match decodeFileChunk p with
  | Ok (off, data) => is_u64 off /\ len data < 4294967296 /\ p = chunk_bytes off data
  | Err _ => True
  | Panic => False
  end.
Proof.
  unfold decodeFileChunk. destruct (not_msg _ _ _) eqn:E; [done|]. apply not_msg_inv in E as [Hl [r ->]]; [|lia].
  rewrite len_app in Hl. change (len [msgFileChunk]) with 1 in Hl.
  destruct (split_at r 8) as (a & r' & -> & Ha); [lia|]. rewrite len_app in Hl.
  destruct (split_at r' 4) as (b & data & -> & Hb); [lia|]. pose proof (len_nonneg data).
  rewrite !slice_ok by len_lia. cbn [bind].
  assert (Hs1 : sub ([msgFileChunk] ++ a ++ b ++ data) 1 9 = a) by (repeat sub_step; done).
  assert (Hs2 : sub ([msgFileChunk] ++ a ++ b ++ data) 9 13 = b) by (repeat sub_step; done).
  assert (Hs3 : sub ([msgFileChunk] ++ a ++ b ++ data) 13 (len ([msgFileChunk] ++ a ++ b ++ data)) = data).
  { rewrite !len_app. change (len [msgFileChunk]) with 1. repeat sub_step; done. }
  rewrite Hs1, Hs2, U64LE_ok, U32LE_ok by done. cbn [bind].
  destruct (_ =? _) eqn:En; [|done]. cbn [negb]. reflect_bools.
  rewrite Hs3. rewrite !len_app in En. change (len [msgFileChunk]) with 1 in En.
  destruct (le_val_u 8 a Ha) as [Hv1 Eq1]. destruct (le_val_u 4 b Hb) as [Hv2 Eq2].
  unfold chunk_bytes. assert (len data = le_val b) as Hd by lia. rewrite Hd, <- Eq1, <- Eq2. split_and!; try done. cbn in Hv2. lia.
Qed.

Lemma decodeFileChunk_bytes off data :
  is_u64 off -> len data < 4294967296 -> decodeFileChunk (chunk_bytes off data) = Ok (off, data).
Proof.
  intros Ho Hl. unfold decodeFileChunk, chunk_bytes. pose proof (len_nonneg data). rewrite not_msg_head by len_lia.
  rewrite !slice_ok by len_lia. cbn [bind].
  replace (sub _ 1 9) with (le_bytes 8 off) by (by repeat sub_step).
  rewrite U64LE_ok by (by rewrite len_le_bytes). cbn [bind].
  replace (sub _ 9 13) with (le_bytes 4 (len data)) by (by repeat sub_step).
  rewrite U32LE_ok by (by rewrite len_le_bytes). cbn [bind]. rewrite !le_val_bytes by (done || (cbn; lia)).
  rewrite !len_app, !len_le_bytes. change (len [msgFileChunk]) with 1.
  dec_true (13 + len data =? 1 + (Z.of_nat 8 + (Z.of_nat 4 + len data))). cbn [negb].
  do 2 f_equal. by repeat sub_step.
Qed.

Lemma decodeFileEnd_inv p :
  match decodeFileEnd p with
  | Ok (rel, dig) => wf_string rel /\ wf_digest dig /\ p = end_bytes rel dig
  | Err _ => True
  | Panic => False
  end.
Proof.
  unfold decodeFileEnd. destruct (not_msg _ _ _) eqn:E; [done|]. apply not_msg_inv in E as [_ [r ->]]; [|lia].
  front_step [msgFileEnd] r 1. take_case. destruct (_ =? 32) eqn:En; [|done]. reflect_bools. cbn [negb].
  by rewrite copy_digest.
Qed.

Lemma decodeFileEnd_bytes rel dig :
  wf_string rel -> wf_digest dig -> decodeFileEnd (end_bytes rel dig) = Ok (rel, dig).
Proof.
  intros Hs Hd. unfold decodeFileEnd, end_bytes. rewrite not_msg_head by len_lia.
  front_step [msgFileEnd] (string_bytes rel ++ dig) 1. rewrite takeString_app by done. cbn [bind].
  unfold wf_digest in Hd. rewrite Hd. cbn [Z.eqb negb]. change (negb _) with false. cbv match. by rewrite copy_digest.
Qed.

Lemma decodeFileAck_total p : decodeFileAck p <> Panic.
Proof.
  unfold decodeFileAck. destruct (negb _ || _) eqn:E; [done|]. reflect_bools.
  rewrite slice_ok by len_lia. cbn [bind]. rewrite U64LE_ok; [done|]. rewrite len_sub; lia.
Qed.

Lemma decodeFileAck_exact p off : decodeFileAck p = Ok off <-> is_u64 off /\ p = encodeFileAck off.
Proof.
  unfold decodeFileAck, encodeFileAck, appendU64. split.
  - destruct (negb _ || _) eqn:E; [done|]. reflect_bools.
    match goal with Hn : not_msg _ _ _ = false |- _ => unfold not_msg in Hn; apply orb_false_iff in Hn as [_ Hn] end.
    destruct p as [|t r]; [done|]. reflect_bools. subst t. change (msgFileAck :: r) with ([msgFileAck] ++ r) in *.
    rewrite len_app in *. change (len [msgFileAck]) with 1 in *. rewrite slice_ok by len_lia. cbn [bind].
    rewrite sub_app_r by done. change (len [msgFileAck]) with 1. rewrite sub_whole, U64LE_ok by lia.
    intros [= <-]. destruct (le_val_u 8 r) as [Hv Eq]; [lia|]. by rewrite <- Eq.
  - intros [Ho ->]. rewrite len_app, len_le_bytes. change (negb _) with false. cbn [orb].
    rewrite not_msg_head by len_lia. rewrite slice_ok by len_lia. cbn [bind].
    rewrite sub_app_r by done. change (len [msgFileAck]) with 1. rewrite sub_whole by len_lia.
    rewrite U64LE_ok by (by rewrite len_le_bytes). by rewrite le_val_bytes.
Qed.

(** What the encoders of the sender write. *)
Lemma encodeFileBegin_bytes b :
  wf_string (BRel b) -> encodeFileBegin (BRel b) (BMode b) (BDigest b) (BSize b) = Ok (begin_bytes b).
Proof.
  intros Hs. unfold encodeFileBegin, begin_bytes, appendU32, appendU64. rewrite appendString_ok by done. cbn [bind].
  by rewrite <- !app_assoc.
Qed.

Lemma encodeFileChunk_bytes off data :
  13 + len data <= protocolMaxBodyUseful -> encodeFileChunk off data = Ok (chunk_bytes off data).
Proof.
  intros Hl. unfold encodeFileChunk, chunk_bytes, appendU32, appendU64. cbv zeta.
  change (1 + 8 + 4) with 13. rewrite (proj2 (Z.ltb_ge _ _)) by done.
  change protocolMaxBodyUseful with 1048320 in Hl. pose proof (len_nonneg data).
  rewrite u32_small by (unfold is_u32; lia). by rewrite <- !app_assoc.
Qed.

Lemma encodeFileEnd_bytes rel dig : wf_string rel -> encodeFileEnd rel dig = Ok (end_bytes rel dig).
Proof.
  intros Hs. unfold encodeFileEnd, end_bytes. rewrite appendString_ok by done. cbn [bind]. by rewrite <- !app_assoc.
Qed.

Lemma decodeResult_encode ok msg p : encodeResult ok msg = Ok p -> decodeResult p = Ok (ok, msg).
Proof.
  unfold encodeResult. intros E. assert (Hm : wf_string msg).
  { unfold wf_string, appendString in *. destruct (65535 <? len msg) eqn:El; [done|]. by reflect_bools. }
  rewrite appendString_ok in E by done. apply Ok_inj in E as <-. set (t := if ok then byte_of 1 else byte_of 0).
  rewrite <- app_assoc. unfold decodeResult. cbv zeta. rewrite not_msg_head by len_lia.
  change (index ([msgResult] ++ [t] ++ string_bytes msg) 1) with (@Ok Error _ t). cbn [bind].
  rewrite app_assoc. destruct (take_front (E := Error) ([msgResult] ++ [t]) (string_bytes msg) 2) as [_ ->]; [done|].
  cbn [bind]. rewrite <- (app_nil_r (string_bytes msg)), takeString_app by done. cbn [bind].
  subst t. by destruct ok.
Qed.

(** ** What the parser lets through *)

Inductive app_message :=
| AManifest (es : list Entry)
| AFile (f : fileWire)
| ABegin (b : fileBegin)
| AChunk (off : Z) (data : bytes)
| AEnd (rel dig : bytes)
| ACommit
| AAbort (rest : bytes).

Definition app_bytes (m : app_message) : bytes :=
  match m with
  | AManifest es => manifest_bytes msgManifest es
  | AFile f => file_bytes f
  | ABegin b => begin_bytes b
  | AChunk off data => chunk_bytes off data
  | AEnd rel dig => end_bytes rel dig
  | ACommit => encodeCommit
  | AAbort rest => [msgIPCAbort] ++ rest
  end.

Definition wf_app (m : app_message) : Prop :=
  match m with
  | AManifest es => Forall wire_entry es /\ len es < 4294967296
  | AFile f => wf_string (FRel f) /\ is_u32 (FMode f) /\ wf_digest (FDigest f)
  | ABegin b => wf_string (BRel b) /\ is_u32 (BMode b) /\ wf_digest (BDigest b) /\ is_u64 (BSize b)
  | AChunk off data => is_u64 off /\ len data < 4294967296
  | AEnd rel dig => wf_string rel /\ wf_digest dig
  | ACommit | AAbort _ => True
  end.

(** The first byte decides the decoder. *)
Lemma validate_head m :
  wf_app m -> validateAppMessage (app_bytes m) = Ok tt.
Proof.
  intros Hw. destruct m; cbn [app_bytes wf_app] in *; unfold validateAppMessage.
  - destruct Hw. unfold manifest_bytes at 1. cbn [app]. change (bool_decide (msgManifest = msgManifest)) with true.
    cbv match. by rewrite decodeManifest_bytes.
  - destruct Hw as (? & ? & ?). unfold file_bytes at 1. cbn [app]. cbv [msgFile]. 
    change (bool_decide (byte_of 3 = msgManifest)) with false. change (bool_decide (byte_of 3 = byte_of 3)) with true.
    cbv match. by rewrite decodeFile_bytes.
  - destruct Hw as (? & ? & ? & ?). unfold begin_bytes at 1. cbn [app].
    change (bool_decide (msgFileBegin = msgManifest)) with false. change (bool_decide (msgFileBegin = msgFile)) with false.
    change (bool_decide (msgFileBegin = msgFileBegin)) with true. cbv match. by rewrite decodeFileBegin_bytes.
  - destruct Hw. unfold chunk_bytes at 1. cbn [app].
    change (bool_decide (msgFileChunk = msgManifest)) with false. change (bool_decide (msgFileChunk = msgFile)) with false.
    change (bool_decide (msgFileChunk = msgFileBegin)) with false. change (bool_decide (msgFileChunk = msgFileChunk)) with true.
    cbv match. by rewrite decodeFileChunk_bytes.
  - destruct Hw. unfold end_bytes at 1. cbn [app].
    change (bool_decide (msgFileEnd = msgManifest)) with false. change (bool_decide (msgFileEnd = msgFile)) with false.
    change (bool_decide (msgFileEnd = msgFileBegin)) with false. change (bool_decide (msgFileEnd = msgFileChunk)) with false.
    change (bool_decide (msgFileEnd = msgFileEnd)) with true. cbv match. by rewrite decodeFileEnd_bytes.
  - done.
  - done.
Qed.

(** The parser role forwards a message if and only if it is, byte for byte, the
    encoding of a well-formed application message: a manifest, a file, the begin,
    chunk or end of a transfer, a commit or an abort.  No input makes it panic. *)
Lemma validateAppMessage_exact p :
  (validateAppMessage p = Ok tt <-> exists m, wf_app m /\ p = app_bytes m) /\ validateAppMessage p <> Panic.
Proof.
  enough (Hv : match validateAppMessage p with
               | Ok _ => exists m, wf_app m /\ p = app_bytes m | Err _ => True | Panic => False end).
  { split; [|intros E; by rewrite E in Hv]. split; [intros E; by rewrite E in Hv|].
    intros (m & Hm & ->). by apply validate_head. }
  unfold validateAppMessage. destruct p as [|t r]; [done|]. set (p := t :: r).
  case_bool_decide.
  { pose proof (decodeManifest_inv p) as Hd. destruct (decodeManifest p) as [es|?|]; cbn [bind]; [|done|done].
    destruct Hd as (? & ? & ->). by exists (AManifest es). }
  case_bool_decide.
  { pose proof (decodeFile_inv p) as Hd. destruct (decodeFile p) as [f|?|]; cbn [bind]; [|done|done].
    destruct Hd as (? & ? & ? & ->). by exists (AFile f). }
  case_bool_decide.
  { pose proof (decodeFileBegin_inv p) as Hd. destruct (decodeFileBegin p) as [b|?|]; cbn [bind]; [|done|done].
    destruct Hd as (? & ? & ? & ? & ->). by exists (ABegin b). }
  case_bool_decide.
  { pose proof (decodeFileChunk_inv p) as Hd. destruct (decodeFileChunk p) as [[off data]|?|]; cbn [bind]; [|done|done].
    destruct Hd as (? & ? & ->). by exists (AChunk off data). }
  case_bool_decide.
  { pose proof (decodeFileEnd_inv p) as Hd. destruct (decodeFileEnd p) as [[rel dig]|?|]; cbn [bind]; [|done|done].
    destruct Hd as (? & ? & ->). by exists (AEnd rel dig). }
  case_bool_decide.
  { destruct (_ =? 1) eqn:E; [|done]. cbn [negb]. reflect_bools. exists ACommit. split; [done|]. subst t p.
    rewrite len_cons in E. by assert (r = []) as -> by (apply len_zero_nil; lia). }
  case_bool_decide; [|done]. exists (AAbort r). subst t p. done.
Qed.

End RemoteMessages.
