(* ===== verification/RemoteWire.v ===== *)
(** * IPC links between the roles (internal/remotesync: ipc_apply.go)

    [ipcWire] is one end of an authenticated link: a channel over a byte stream.
    A role sends requests, reads requests and responds through it.  [Bridge] is
    what a relay role (parser, plan, index) has: a link to the role it serves and
    a link to the next one; [BridgeLaws] keeps the messages that it has sent on, and
    [Relay] discharges it for two wires. *)

From S2P Require Import Prelude Sha256 Resource Authority Codec Ipc FileSystem LocalPayload RemoteMessages.
Import FileSystem RemoteMessages.

Module RemoteWire.

(** The texts of errors of other packages; they are diagnostic. *)
Class ErrorTexts := {
  ipc_text : Ipc.Error -> bytes;
  os_text : errno -> bytes;
  local_text : LocalPayload.Error -> bytes }.

(** ** One end of a link *)

(** The stream delivers [win]; what is written is in [wout].  [wlog] keeps the
    payloads of the requests that were written. *)
Record ipcWire := mkWire {
  wch : Ipc.ChannelState;
  wopen : bool;
  win : bytes;
  wout : bytes;
  wlog : list bytes }.

Section Wire.
Context `{ErrorTexts}.
Abbreviation IO := (io ipcWire Error).

Definition transport_error (msg : bytes) (e : Ipc.Error) : Error := wrap KindTransport msg (ipc_text e).

(** [w.ch.Encode]; the channel keeps the state of a failed call. *)
Definition wire_encode (typ : Z) (payload : bytes) : IO bytes := fun w =>
  let set ch := mkWire ch (wopen w) (win w) (wout w) (wlog w) in
  match Ipc.Encode (wch w) typ payload with
  | Ok (ch, raw) => (set ch, Ok raw)
  | Err (ch, e) => (set ch, Err (transport_error (str "ipc encode") e))
  | Panic => (w, Panic)
  end.

(** [ipc.WriteFrame(w.rw, raw)] with its own error. *)
Definition wire_write (raw : bytes) : io ipcWire Ipc.Error unit := fun w =>
  if negb (wopen w) then (w, Err (Ipc.fail "io" true)) else
  match Ipc.WriteFrame raw with
  | Ok out => (mkWire (wch w) (wopen w) (win w) (wout w ++ out) (wlog w), Ok tt)
  | Err e => (w, Err e)
  | Panic => (w, Panic)
  end.

Definition wire_read : IO bytes := fun w =>
  match Ipc.ReadFrame (win w) 0 with
  | Ok (raw, rest) => (mkWire (wch w) (wopen w) rest (wout w) (wlog w), Ok raw)
  | Err e => (w, Err (transport_error (str "ipc read") e))
  | Panic => (w, Panic)
  end.

Definition wire_decode (raw : bytes) : IO Ipc.Frame := fun w =>
  let set ch := mkWire ch (wopen w) (win w) (wout w) (wlog w) in
  match Ipc.Decode (wch w) raw with
  | Ok (ch, f) => (set ch, Ok f)
  | Err (ch, e) => (set ch, Err (transport_error (str "ipc decode") e))
  | Panic => (w, Panic)
  end.

Definition log_request (payload : bytes) : IO unit := fun w =>
  (mkWire (wch w) (wopen w) (win w) (wout w) (wlog w ++ [payload]), Ok tt).

(** The two halves of [request]. *)
Definition send_request (payload : bytes) : IO unit :=
  let* raw := wire_encode Ipc.TypeRequest payload in
  let* _ := or_fail (wire_write raw) (transport_error (str "ipc write")) in
  log_request payload.

Definition recv_response : IO bytes :=
  let* raw := wire_read in
  let* frame := wire_decode raw in
  if negb (Ipc.Type_ frame =? Ipc.TypeResponse) then throw (fail KindProtocol (str "ipc: expected response"))
  else ret (Ipc.Payload frame).

Definition wire_request (payload : bytes) : IO bytes :=
  let* _ := send_request payload in
  recv_response.

(** The error of the write is returned as it is. *)
Definition wire_respond (payload : bytes) : IO unit :=
  let* raw := wire_encode Ipc.TypeResponse payload in
  or_fail (wire_write raw) (fun e => Foreign (ipc_text e)).

Definition wire_readRequest : IO bytes :=
  let* raw := wire_read in
  let* frame := wire_decode raw in
  if negb (Ipc.Type_ frame =? Ipc.TypeRequest) then throw (fail KindProtocol (str "ipc: expected request"))
  else ret (Ipc.Payload frame).

End Wire.

(** ** A relay's two links *)

(** [endpoint] is [applySide] returning a link that is not nil. *)
Class Bridge (W : Type) := {
  readRequest : io W Error bytes;
  respond : bytes -> io W Error unit;
  endpoint : io W Error bool;
  request : bytes -> io W Error bytes }.

(** The messages sent on.  A request that fails may or may not have been sent. *)
Class BridgeLaws (W : Type) `{Bridge W} := {
  forwarded : W -> list bytes;
  readRequest_spec w : forwarded (readRequest w).1 = forwarded w;
  respond_spec w p : forwarded (respond p w).1 = forwarded w;
  endpoint_spec w : forwarded (endpoint w).1 = forwarded w;
  request_spec w p :
    forwarded (request p w).1 = forwarded w ++ [p] \/
    forwarded (request p w).1 = forwarded w /\ forall a, (request p w).2 <> Ok a }.

(** A relay over two wires; [up] says that the next role's link is there. *)
Record Relay := mkRelay { from : ipcWire; to : ipcWire; up : bool }.

Definition on_from {E A} (c : io ipcWire E A) : io Relay E A := fun s =>
  let '(w, r) := c (from s) in (mkRelay w (to s) (up s), r).
Definition on_to {E A} (c : io ipcWire E A) : io Relay E A := fun s =>
  let '(w, r) := c (to s) in (mkRelay (from s) w (up s), r).

#[global] Instance Relay_Bridge `{ErrorTexts} : Bridge Relay := {
  readRequest := on_from wire_readRequest;
  respond p := on_from (wire_respond p);
  endpoint s := (s, Ok (up s));
  request p := on_to (wire_request p) }.

(** ** The laws of a relay *)

Section Laws.
Context `{ErrorTexts}.

(** A step that neither sends a request nor panics, given a sound channel. *)
Definition silent {A} (c : io ipcWire Error A) : Prop := forall w, wlog (c w).1 = wlog w.

Lemma silent_bind {A B} (c : io ipcWire Error A) (k : A -> io ipcWire Error B) :
  silent c -> (forall a, silent (k a)) -> silent (io_bind c k).
Proof.
  intros Hc Hk w. unfold io_bind. specialize (Hc w). destruct (c w) as [w1 [a|e|]]; cbn in *; [|done|done].
  by rewrite (Hk a w1).
Qed.

Lemma silent_ret {A} (r : res Error A) : silent (lift r).
Proof. done. Qed.

Lemma silent_encode typ p : silent (wire_encode typ p).
Proof. intros w. unfold wire_encode. by destruct (Ipc.Encode _ _ _) as [[]|[]|]. Qed.

Lemma silent_write raw f : silent (or_fail (wire_write raw) f).
Proof.
  intros w. unfold or_fail, wire_write. destruct (negb _); [done|]. by destruct (Ipc.WriteFrame raw).
Qed.

Lemma silent_read : silent wire_read.
Proof. intros w. unfold wire_read. by destruct (Ipc.ReadFrame _ _) as [[]|e|]. Qed.

Lemma silent_decode raw : silent (wire_decode raw).
Proof. intros w. unfold wire_decode. by destruct (Ipc.Decode _ _) as [[]|[]|]. Qed.

Lemma silent_readRequest : silent wire_readRequest.
Proof.
  apply silent_bind; [apply silent_read|]. intros raw. apply silent_bind; [apply silent_decode|]. intros f. by case_if.
Qed.

Lemma silent_response : silent recv_response.
Proof.
  apply silent_bind; [apply silent_read|]. intros raw. apply silent_bind; [apply silent_decode|]. intros f. by case_if.
Qed.

Lemma silent_respond p : silent (wire_respond p).
Proof. apply silent_bind; [apply silent_encode|]. intros raw. apply silent_write. Qed.

Lemma request_log p w :
  wlog (wire_request p w).1 = wlog w ++ [p] \/
  wlog (wire_request p w).1 = wlog w /\ forall a, (wire_request p w).2 <> Ok a.
Proof.
  unfold wire_request, send_request, io_bind.
  pose proof (silent_encode Ipc.TypeRequest p w) as H1. destruct (wire_encode _ p w) as [w1 [raw|e|]]; cbn in H1; [|by right..].
  pose proof (silent_write raw (transport_error (str "ipc write")) w1) as H2.
  destruct (or_fail _ _ w1) as [w2 [[]|e|]]; cbn in H2; [|right; split; [by etrans|done]..].
  left. cbn. rewrite silent_response. cbn. by rewrite H2, H1.
Qed.

#[global] Program Instance Relay_laws : BridgeLaws Relay := { forwarded s := wlog (to s) }.
Next Obligation. intros s. cbn. unfold on_from. by destruct (wire_readRequest (from s)). Qed.
Next Obligation. intros s p. cbn. unfold on_from. by destruct (wire_respond p (from s)). Qed.
Next Obligation. done. Qed.
Next Obligation.
  intros s p. cbn. unfold on_to. pose proof (request_log p (to s)) as Hq. by destruct (wire_request p (to s)).
Qed.

End Laws.

End RemoteWire.
