(* ===== verification/RemoteGate.v ===== *)
(** * The plan role: authorizing a push (internal/remotesync: plan_ipc.go)

    [authorizeManifest], the checks of [planGate] and the loop of
    [ServePlanBridgeDyn] between the parser and apply.  [plan_authorizes] says what
    passes: whatever the parser sends, a commit reaches apply only after a manifest
    and a complete transfer of every file of it, and every file whose transfer is
    begun in between is a file of that manifest with its digest, mode and size. *)

From stdpp Require Import gmap.
From S2P Require Import Prelude Sha256 Authority Codec Ipc FileSystem LocalPayload LocalPlan LocalApply RemoteMessages RemoteWire.
Import Authority Codec FileSystem LocalPlan RemoteMessages RemoteWire.

Module RemoteGate.

(** ** The gate *)

Record planGate := mkGate {
  files : gmap bytes Entry;
  expected : Z;
  seen : gset bytes;
  gdigest : bytes;
  active : bytes }.

Definition with_seen (g : planGate) (rel act : bytes) : planGate :=
  mkGate (files g) (expected g) (seen g ∪ {[rel]}) (gdigest g) act.
Definition with_active (g : planGate) (rel : bytes) : planGate :=
  mkGate (files g) (expected g) (seen g) (gdigest g) rel.

Fixpoint authorize_loop (es : list Entry) (g : planGate) : res Error planGate :=
  match es with
  | [] => Ok g
  | e :: es =>
      if bool_decide (EType e = EntryDir) then authorize_loop es g
      else if bool_decide (EType e = EntryFile) then
        if bool_decide (ERel e = []) || negb (HasDigest e)
        then Err (fail KindProtocol (str "plan: incomplete file entry"))
        else match files g !! ERel e with
             | Some _ => Err (fail KindProtocol (str "plan: duplicate file " ++ ERel e))
             | None => authorize_loop es
                 (mkGate (<[ERel e := e]> (files g)) (expected g + 1) (seen g) (gdigest g) (active g))
             end
      else Err (fail KindProtocol (str "plan: unsupported entry " ++ EType e))
  end.

Definition authorizeManifest (raw : bytes) : res Error (bytes * planGate) :=
  let! entries := decodeManifest raw in
  let! canonical := encodeManifest entries in
  let! gate := authorize_loop entries (mkGate ∅ 0 ∅ (SHA256 canonical) []) in
  Ok (canonical, gate).

(** The checks take the gate behind a pointer that may be nil; a check that fails
    changes nothing. *)
Definition no_manifest : Error := fail KindProtocol (str "plan: no authorized manifest").

Definition checkFile (g : option planGate) (fw : fileWire) : res Error (option planGate) :=
  match g with
  | None => Err no_manifest
  | Some g =>
      match files g !! FRel fw with
      | None => Err (fail KindProtocol (str "plan: unexpected file " ++ FRel fw))
      | Some e =>
          if negb (bool_decide (EDigest e = FDigest fw)) || negb (EMode e =? FMode fw)
             || negb (u64 (len (FData fw)) =? u64 (ESize e))
          then Err (fail KindProtocol (str "plan: file " ++ FRel fw ++ str " does not match manifest"))
          else if bool_decide (FRel fw ∈ seen g)
          then Err (fail KindProtocol (str "plan: duplicate transfer " ++ FRel fw))
          else Ok (Some (with_seen g (FRel fw) (active g)))
      end
  end.

Definition checkBegin (g : option planGate) (b : fileBegin) : res Error (option planGate) :=
  match g with
  | None => Err no_manifest
  | Some g =>
      match files g !! BRel b with
      | None => Err (fail KindProtocol (str "plan: unexpected file " ++ BRel b))
      | Some e =>
          if negb (bool_decide (EDigest e = BDigest b)) || negb (EMode e =? BMode b)
             || negb (u64 (ESize e) =? BSize b)
          then Err (fail KindProtocol (str "plan: begin " ++ BRel b ++ str " does not match manifest"))
          else if bool_decide (BRel b ∈ seen g)
          then Err (fail KindProtocol (str "plan: duplicate transfer " ++ BRel b))
          else Ok (Some (with_active g (BRel b)))
      end
  end.

(** [e := g.files[rel]]: the zero entry when it is absent. *)
Definition zero_entry : Entry := mkEntry [] [] 0 0 (zeros 32) false.

Definition checkEnd (g : option planGate) (rel dig : bytes) : res Error (option planGate) :=
  match g with
  | None => Err (fail KindProtocol (str "plan: no active file"))
  | Some g =>
      if bool_decide (active g = []) then Err (fail KindProtocol (str "plan: no active file"))
      else if negb (bool_decide (rel = active g))
      then Err (fail KindProtocol (str "plan: end " ++ rel ++ str " != active " ++ active g))
      else
        let e := default zero_entry (files g !! rel) in
        if negb (bool_decide (EDigest e = dig))
        then Err (fail KindProtocol (str "plan: end digest mismatch " ++ rel))
        else Ok (Some (with_seen g rel []))
  end.

Definition checkCommit (g : option planGate) : res Error unit :=
  match g with
  | None => Err no_manifest
  | Some g =>
      if negb (bool_decide (active g = [])) then Err (fail KindProtocol (str "plan: commit with active file"))
      else if negb (Z.of_nat (size (seen g)) =? expected g)
      then Err (fail KindProtocol (str "plan: commit with " ++ itoa (Z.of_nat (size (seen g))) ++ str "/"
                                     ++ itoa (expected g) ++ str " files"))
      else Ok tt
  end.

(** ** The loop *)

(** A turn of the loop continues with a gate or returns nil. *)
Inductive turn := Continue (g : option planGate) | Return.

Section Loop.
Context {W : Type} `{Bridge W}.
Abbreviation IO := (io W Error).

(** [_ = fromParser.respond(mustResult(false, msg))]. *)
Definition answer (msg : bytes) : IO unit := ignore (respond (mustResult false msg)).

Definition refuse {A} (e : Error) : IO A :=
  let* _ := answer (error_text e) in throw e.

Definition deny (once : bool) (g : option planGate) (e : Error) : IO turn :=
  let* _ := answer (error_text e) in
  if once then throw e else ret (Continue g).

(** Forward a message and pass its response back. *)
Definition relay (msg : bytes) : IO unit :=
  let* r := try (request msg) in
  match r with
  | inl resp => respond resp
  | inr e => refuse e
  end.

(** A decoded message: what the decoder refuses ends the loop. *)
Definition decoded {A} (r : res Error A) (k : A -> IO turn) : IO turn :=
  match r with
  | Ok a => k a
  | Err e => refuse e
  | Panic => lift Panic
  end.

(** A check of the gate, then the forwarding of the message. *)
Definition checked (once : bool) (g : option planGate) (r : res Error (option planGate)) (msg : bytes) : IO turn :=
  match r with
  | Ok g' => let* _ := relay msg in ret (Continue g')
  | Err e => deny once g e
  | Panic => lift Panic
  end.

Definition plan_turn (once : bool) (g : option planGate) : IO turn :=
  let* req := readRequest in
  match req with
  | [] => let* _ := answer (str "empty plan request") in ret (Continue g)
  | op :: _ =>
      let* ok := endpoint in
      if negb ok then throw (fail KindInvalidArgument (str "nil apply endpoint")) else
      if bool_decide (op = msgManifest) then
        match authorizeManifest req with
        | Err e => deny once g e
        | Panic => lift Panic
        | Ok (canonical, g') => let* _ := relay canonical in ret (Continue (Some g'))
        end
      else if bool_decide (op = msgFile) then
        decoded (decodeFile req) (fun fw => checked once g (checkFile g fw) req)
      else if bool_decide (op = msgFileBegin) then
        decoded (decodeFileBegin req) (fun b => checked once g (checkBegin g b) req)
      else if bool_decide (op = msgFileChunk) then
        match g with
        | Some gate =>
            if bool_decide (active gate = []) then
              let* _ := answer (str "plan: chunk without begin") in ret (Continue g)
            else let* _ := relay req in ret (Continue g)
        | None => let* _ := answer (str "plan: chunk without begin") in ret (Continue g)
        end
      else if bool_decide (op = msgFileEnd) then
        decoded (decodeFileEnd req) (fun '(rel, dig) => checked once g (checkEnd g rel dig) req)
      else if bool_decide (op = msgCommit) then
        match checkCommit g with
        | Err e => deny once g e
        | Panic => lift Panic
        | Ok _ => let* _ := relay req in if once then ret Return else ret (Continue None)
        end
      else if bool_decide (op = msgIPCAbort) then
        let* r := try (request req) in
        match r with
        | inl resp =>
            let* _ := ignore (respond resp) in
            throw (fail KindTransport (str "peer aborted transfer"))
        | inr e => refuse e
        end
      else
        let* _ := answer (str "unknown plan op") in
        throw (fail KindProtocol (str "unknown plan op " ++ itoa (byteZ op)))
  end.

(** At most [n] turns; [Continue] when the loop is still running. *)
Fixpoint ServePlanBridgeDyn (n : nat) (once : bool) (g : option planGate) : IO turn :=
  match n with
  | O => ret (Continue g)
  | S n =>
      let* t := plan_turn once g in
      match t with
      | Continue g => ServePlanBridgeDyn n once g
      | Return => ret Return
      end
  end.

End Loop.

(** ** What an authorized push is *)

Definition op_of (p : bytes) : option Byte.byte := head p.

Definition file_matches (fw : fileWire) (e : Entry) : Prop :=
  FRel fw = ERel e /\ FDigest fw = EDigest e /\ FMode fw = EMode e /\ u64 (len (FData fw)) = u64 (ESize e).
Definition begin_matches (b : fileBegin) (e : Entry) : Prop :=
  BRel b = ERel e /\ BDigest b = EDigest e /\ BMode b = EMode e /\ BSize b = u64 (ESize e).

(** A complete transfer of a file among the messages: in one message, or from a
    begin to the matching end with no other begin between them. *)
Definition transferred (e : Entry) (mid : list bytes) : Prop :=
  (exists p fw, p ∈ mid /\ decodeFile p = Ok fw /\ file_matches fw e) \/
  (exists mid1 p mid2 q mid3 b, mid = mid1 ++ p :: mid2 ++ q :: mid3 /\
     decodeFileBegin p = Ok b /\ begin_matches b e /\ decodeFileEnd q = Ok (ERel e, EDigest e) /\
     Forall (fun x => op_of x <> Some msgFileBegin) mid2).

(** A message between a manifest and its commit: the files it carries or begins
    are of the manifest. *)
Definition of_push (es : list Entry) (p : bytes) : Prop :=
  op_of p <> Some msgManifest /\ op_of p <> Some msgCommit /\
  (forall fw, decodeFile p = Ok fw -> exists e, e ∈ es /\ is_file e /\ file_matches fw e) /\
  (forall b, decodeFileBegin p = Ok b -> exists e, e ∈ es /\ is_file e /\ begin_matches b e).

(** The messages end with a manifest and complete transfers of its files. *)
Definition complete_push (tr : list bytes) : Prop :=
  exists pre m es mid, tr = pre ++ m :: mid /\ decodeManifest m = Ok es /\ Forall (of_push es) mid /\
    forall e, e ∈ es -> is_file e -> transferred e mid.

Definition commits_ok (tr : list bytes) : Prop :=
  forall pre c post, tr = pre ++ c :: post -> op_of c = Some msgCommit -> complete_push pre.

(** ** The gate's invariant *)

(** The message of the transfer in progress. *)
Definition in_progress (mid : list bytes) (e : Entry) : Prop :=
  exists mid1 p mid2 b, mid = mid1 ++ p :: mid2 /\ decodeFileBegin p = Ok b /\ begin_matches b e /\
    Forall (fun x => op_of x <> Some msgFileBegin) mid2.

Record gate_for (es : list Entry) (mid : list bytes) (g : planGate) : Prop := {
  g_files : forall r e, files g !! r = Some e <-> e ∈ es /\ is_file e /\ ERel e = r;
  g_expected : expected g = Z.of_nat (size (files g));
  g_seen : seen g ⊆ dom (files g);
  g_transferred : forall r e, r ∈ seen g -> files g !! r = Some e -> transferred e mid;
  g_active : active g = [] \/ exists e, files g !! active g = Some e /\ in_progress mid e;
  g_push : Forall (of_push es) mid }.

Definition inv (tr : list bytes) (g : option planGate) : Prop :=
  commits_ok tr /\
  match g with
  | None => True
  | Some g => exists pre m es mid, tr = pre ++ m :: mid /\ decodeManifest m = Ok es /\ gate_for es mid g
  end.

Lemma commits_ok_snoc tr p :
  commits_ok tr -> (op_of p = Some msgCommit -> complete_push tr) -> commits_ok (tr ++ [p]).
Proof.
  intros Ht Hp pre c post E Hc. destruct post as [|x post _] using rev_ind.
  - apply app_inj_2 in E as [-> [= ->]]; [|done]. by apply Hp.
  - rewrite app_comm_cons, app_assoc in E. apply app_inj_2 in E as [-> _]; [|done]. by eapply Ht.
Qed.

Lemma transferred_snoc e mid p : transferred e mid -> transferred e (mid ++ [p]).
Proof.
  intros [(q & fw & Hq & ? & ?)|(m1 & q & m2 & q' & m3 & b & -> & ? & ? & ? & ?)]; [left|right].
  - exists q, fw. split_and!; try done. set_solver.
  - exists m1, q, m2, q', (m3 ++ [p]), b. split_and!; try done. by rewrite <- !app_assoc, <- !app_comm_cons, <- app_assoc.
Qed.

Lemma in_progress_snoc e mid p :
  op_of p <> Some msgFileBegin -> in_progress mid e -> in_progress (mid ++ [p]) e.
Proof.
  intros Hp (m1 & q & m2 & b & -> & ? & ? & Hf). exists m1, q, (m2 ++ [p]), b. split_and!; try done.
  - by rewrite <- app_assoc.
  - apply Forall_app. split; [done|]. by constructor.
Qed.

(** Which decoder a message is for. *)
Lemma decodeFile_op p fw : decodeFile p = Ok fw -> op_of p = Some msgFile.
Proof. intros E. pose proof (decodeFile_inv p) as H. rewrite E in H. by destruct H as (_ & _ & _ & ->). Qed.
Lemma decodeFileBegin_op p b : decodeFileBegin p = Ok b -> op_of p = Some msgFileBegin.
Proof. intros E. pose proof (decodeFileBegin_inv p) as H. rewrite E in H. by destruct H as (_ & _ & _ & _ & ->). Qed.

(** A message that transfers and begins nothing. *)
Lemma of_push_other es p op :
  op_of p = Some op -> op <> msgManifest -> op <> msgCommit -> op <> msgFile -> op <> msgFileBegin -> of_push es p.
Proof.
  intros Ho H1 H2 H3 H4. unfold of_push. rewrite Ho. split_and!; [congruence..| |].
  - intros fw E%decodeFile_op. congruence.
  - intros b E%decodeFileBegin_op. congruence.
Qed.

(** ** The checks keep the invariant *)

Section Checks.
Context (es : list Entry) (mid : list bytes) (g : planGate).
Hypothesis Hg : gate_for es mid g.

Lemma authorized_entry r e : files g !! r = Some e -> e ∈ es /\ is_file e /\ ERel e = r.
Proof. apply (g_files _ _ _ Hg). Qed.

Lemma checkFile_inv fw p g' :
  decodeFile p = Ok fw -> checkFile (Some g) fw = Ok g' ->
  exists g1, g' = Some g1 /\ gate_for es (mid ++ [p]) g1.
Proof.
  intros Hp E. cbn in E. destruct (files g !! FRel fw) as [e|] eqn:Ef; [|done].
  destruct (_ || _) eqn:Em; [done|]. destruct (bool_decide (FRel fw ∈ seen g)) eqn:Es; [done|]. reflect_bools.
  apply Ok_inj in E as <-. eexists. split; [done|]. destruct (authorized_entry _ _ Ef) as (Hin & Hf & Hr).
  assert (Hm : file_matches fw e) by (split_and!; congruence). pose proof (decodeFile_op _ _ Hp) as Ho.
  split; try apply Hg.
  - cbn. pose proof (g_seen _ _ _ Hg). apply union_subseteq. split; [done|]. apply singleton_subseteq_l, elem_of_dom. by eexists.
  - cbn. intros r e' [Hr'| ->%elem_of_singleton]%elem_of_union He'; [apply transferred_snoc; by eapply g_transferred|].
    assert (e' = e) as -> by congruence. left. exists p, fw. split_and!; try done. set_solver.
  - destruct (g_active _ _ _ Hg) as [?|(e' & ? & ?)]; [by left|right]. exists e'. split; [done|].
    apply in_progress_snoc; [|done]. by rewrite Ho.
  - apply Forall_app. split; [apply Hg|]. constructor; [|done]. split_and!; [by rewrite Ho..| |].
    + intros fw' E. assert (fw' = fw) as -> by congruence. eauto.
    + intros b E%decodeFileBegin_op. by rewrite Ho in E.
Qed.

Lemma checkBegin_inv b p g' :
  decodeFileBegin p = Ok b -> checkBegin (Some g) b = Ok g' ->
  exists g1, g' = Some g1 /\ gate_for es (mid ++ [p]) g1.
Proof.
  intros Hp E. cbn in E. destruct (files g !! BRel b) as [e|] eqn:Ef; [|done].
  destruct (_ || _) eqn:Em; [done|]. destruct (bool_decide (BRel b ∈ seen g)) eqn:Es; [done|]. reflect_bools.
  apply Ok_inj in E as <-. eexists. split; [done|]. destruct (authorized_entry _ _ Ef) as (Hin & Hf & Hr).
  assert (Hm : begin_matches b e) by (split_and!; congruence). pose proof (decodeFileBegin_op _ _ Hp) as Ho.
  split; try apply Hg.
  - cbn. intros r e' Hr' He'. apply transferred_snoc. by eapply g_transferred.
  - right. exists e. cbn. split; [done|]. exists mid, p, [], b. done.
  - apply Forall_app. split; [apply Hg|]. constructor; [|done]. split_and!; [by rewrite Ho..| |].
    + intros fw E%decodeFile_op. by rewrite Ho in E.
    + intros b' E. assert (b' = b) as -> by congruence. eauto.
Qed.

Lemma checkEnd_inv rel dig p g' :
  decodeFileEnd p = Ok (rel, dig) -> checkEnd (Some g) rel dig = Ok g' ->
  exists g1, g' = Some g1 /\ gate_for es (mid ++ [p]) g1.
Proof.
  intros Hp E. cbn in E. destruct (bool_decide (active g = [])) eqn:Ea; [done|].
  destruct (negb (bool_decide (rel = active g))) eqn:Er; [done|]. destruct (negb _) eqn:Ed in E; [done|]. reflect_bools.
  apply Ok_inj in E as <-. eexists. split; [done|]. subst rel.
  destruct (g_active _ _ _ Hg) as [?|(e & Hf & Hpr)]; [done|]. rewrite Hf in Ed. cbn in Ed.
  destruct (authorized_entry _ _ Hf) as (Hin & Hfile & Hr).
  assert (Ho : op_of p = Some msgFileEnd).
  { pose proof (decodeFileEnd_inv p) as Hi. rewrite Hp in Hi. by destruct Hi as (_ & _ & ->). }
  split; try apply Hg.
  - cbn. pose proof (g_seen _ _ _ Hg). apply union_subseteq. split; [done|]. apply singleton_subseteq_l, elem_of_dom. by eexists.
  - cbn. intros r e' [Hr'| ->%elem_of_singleton]%elem_of_union He'; [apply transferred_snoc; by eapply g_transferred|].
    assert (e' = e) as -> by congruence. right. destruct Hpr as (m1 & q & m2 & b & -> & ? & ? & ?).
    exists m1, q, m2, p, [], b. rewrite <- app_assoc, <- app_comm_cons. split_and!; try done. by rewrite Hp, Hr, Ed.
  - by left.
  - apply Forall_app. split; [apply Hg|]. constructor; [|done]. by eapply of_push_other.
Qed.

Lemma chunk_inv p : op_of p = Some msgFileChunk -> gate_for es (mid ++ [p]) g.
Proof.
  intros Ho. split; try apply Hg.
  - intros r e Hr He. apply transferred_snoc. by eapply g_transferred.
  - destruct (g_active _ _ _ Hg) as [?|(e' & ? & ?)]; [by left|right]. exists e'. split; [done|].
    apply in_progress_snoc; [|done]. by rewrite Ho.
  - apply Forall_app. split; [apply Hg|]. constructor; [|done]. by eapply of_push_other.
Qed.

Lemma checkCommit_complete pre m :
  decodeManifest m = Ok es -> checkCommit (Some g) = Ok tt -> complete_push (pre ++ m :: mid).
Proof.
  intros Hm E. cbn in E. destruct (negb _) eqn:Ea; [done|]. destruct (negb _) eqn:Es in E; [done|]. reflect_bools.
  exists pre, m, es, mid. split_and!; [done|done|apply Hg|]. intros e He Hf.
  assert (Hl : files g !! ERel e = Some e) by (by apply (g_files _ _ _ Hg)).
  eapply (g_transferred _ _ _ Hg (ERel e)); [|done].
  assert (seen g = dom (files g)) as ->; [|apply elem_of_dom; by eexists].
  apply set_subseteq_size_eq; [apply Hg|]. rewrite (g_expected _ _ _ Hg) in *. rewrite size_dom. lia.
Qed.

End Checks.

(** Authorization of a manifest: the gate holds exactly its files. *)
Lemma authorize_loop_inv es done g g' :
  (forall r e, files g !! r = Some e <-> e ∈ done /\ is_file e /\ ERel e = r) ->
  expected g = Z.of_nat (size (files g)) -> seen g = ∅ -> active g = [] ->
  authorize_loop es g = Ok g' -> gate_for (done ++ es) [] g'.
Proof.
  revert done g. induction es as [|e es IH]; intros done g Hf He Hs Ha E; cbn [authorize_loop] in E.
  { apply Ok_inj in E as <-. rewrite app_nil_r. split; [done|done|by rewrite Hs|by rewrite Hs|by left|done]. }
  rewrite cons_middle, app_assoc. case_bool_decide as Et.
  { eapply IH; [|done..|exact E]. intros r e'. rewrite Hf. split; intros (Hin & Hfile & Hr); (split_and!; [|done..]); [set_solver|].
    apply elem_of_app in Hin as [?| ->%list_elem_of_singleton]; [done|]. unfold is_file in Hfile. by rewrite Et in Hfile. }
  case_bool_decide as Et'; [|done]. destruct (_ || _); [done|]. destruct (files g !! ERel e) as [e0|] eqn:Ef; [done|].
  eapply IH; [..|exact E]; try done.
  - intros r e'. cbn. destruct (decide (r = ERel e)) as [->|Hne].
    + rewrite lookup_insert_eq. split; [intros [= <-]; split_and!; [set_solver| |done]; unfold is_file; by rewrite Et'|].
      intros (Hin & Hfile & Hr). apply elem_of_app in Hin as [Hin| ->%list_elem_of_singleton]; [|done].
      exfalso. assert (files g !! ERel e = Some e') by (by apply Hf). congruence.
    + rewrite lookup_insert_ne, Hf by done. split; intros (Hin & Hfile & Hr); (split_and!; [|done..]); [set_solver|].
      apply elem_of_app in Hin as [?| ->%list_elem_of_singleton]; done.
  - cbn. rewrite map_size_insert_None by done. lia.
Qed.

(** What is forwarded for a manifest is the manifest itself. *)
Lemma authorizeManifest_inv raw canonical g :
  authorizeManifest raw = Ok (canonical, g) ->
  canonical = raw /\ exists es, decodeManifest raw = Ok es /\ gate_for es [] g.
Proof.
  unfold authorizeManifest. intros E. pose proof (decodeManifest_inv raw) as Hd.
  destruct (decodeManifest raw) as [es|?|] eqn:Er; cbn [bind] in E; [|done..]. destruct Hd as (Hw & Hl & Hraw).
  destruct (encodeManifest es) as [can|?|] eqn:Ee; cbn [bind] in E; [|done..].
  destruct (authorize_loop es _) as [g1|?|] eqn:Ea; cbn [bind] in E; [|done..]. injection E as <- <-. split.
  - unfold encodeManifest in Ee. rewrite encode_entries_ok in Ee by done. cbn [bind] in Ee.
    destruct (_ <? _); [done|]. apply Ok_inj in Ee as <-. rewrite Hraw. unfold manifest_bytes, appendU32.
    pose proof (len_nonneg es). rewrite u32_small by (unfold is_u32; lia). by rewrite <- app_assoc.
  - exists es. split; [done|]. eapply (authorize_loop_inv es []); [| | | |exact Ea]; try done. intros r e. cbn. rewrite lookup_empty.
    split; [done|]. by intros (?%not_elem_of_nil & _).
Qed.

(** ** The loop *)

Section Safety.
Context {W : Type} `{BridgeLaws W}.

(** A computation that sends nothing on. *)
Definition quiet {A} (c : io W Error A) : Prop := forall w, forwarded (c w).1 = forwarded w.

Lemma quiet_answer msg : quiet (answer msg).
Proof. intros w. unfold answer, ignore. pose proof (respond_spec w (mustResult false msg)). by destruct (respond _ w). Qed.

Lemma quiet_bind {A B} (c : io W Error A) (k : A -> io W Error B) : quiet c -> (forall a, quiet (k a)) -> quiet (io_bind c k).
Proof.
  intros Hc Hk w. unfold io_bind. specialize (Hc w). destruct (c w) as [w1 [a|e|]]; cbn in *; [|done|done].
  by rewrite (Hk a w1).
Qed.

Lemma quiet_lift {A} (r : res Error A) : quiet (lift r).
Proof. done. Qed.

Lemma quiet_refuse {A} e : quiet (@refuse W _ A e).
Proof. apply quiet_bind; [apply quiet_answer|]. done. Qed.

(** [relay] sends its message, and only that. *)
Lemma wp_relay msg (Q : W -> res Error unit -> Prop) w :
  (forall w', forwarded w' = forwarded w ++ [msg] -> Q w' (Ok tt)) ->
  (forall w' r, forwarded w' = forwarded w ++ [msg] \/ forwarded w' = forwarded w -> (forall a, r <> Ok a) -> Q w' r) ->
  wp (relay msg) Q w.
Proof.
  intros HQ HE. apply wp_bind, wp_try, wp_call. intros w1 r1 E1. pose proof (request_spec w msg) as Hr. rewrite E1 in Hr. cbn in Hr.
  destruct r1 as [resp|e|].
  - destruct Hr as [Hr|[_ Hr]]; [|by destruct (Hr resp)]. apply wp_call. intros w2 r2 E2.
    pose proof (respond_spec w1 resp) as H2. rewrite E2 in H2. cbn in H2. rewrite Hr in H2.
    destruct r2 as [[]|e|]; [by apply HQ|apply HE; [by left|done]..].
  - apply wp_call. intros w2 r2 E2. pose proof (quiet_refuse (A := unit) e w1) as H2. rewrite E2 in H2. cbn in H2.
    assert (Hn : forall a, r2 <> Ok a).
    { intros a ->. unfold refuse, io_bind in E2. by destruct (answer _ w1) as [? []]. }
    apply HE; [|done]. rewrite H2. destruct Hr as [?|[? _]]; auto.
  - apply HE; [|done]. destruct Hr as [?|[? _]]; auto.
Qed.

(** What a turn leaves: the invariant of the gate it continues with. *)
Definition turn_ok (w : W) (r : res Error turn) : Prop :=
  commits_ok (forwarded w) /\ forall g, r = Ok (Continue g) -> inv (forwarded w) g.

(** A turn that sends nothing keeps the gate. *)
Lemma wp_quiet c g w :
  quiet c -> (forall w' g', c w = (w', Ok (Continue g')) -> g' = g) -> inv (forwarded w) g -> wp c turn_ok w.
Proof.
  intros Hc Hg Hi. apply wp_call. intros w' r E. pose proof (Hc w) as Hf. rewrite E in Hf. cbn in Hf. split.
  - rewrite Hf. apply Hi.
  - intros g' ->. apply Hg in E as ->. by rewrite Hf.
Qed.

Lemma wp_answer_continue msg g w : inv (forwarded w) g -> wp (let* _ := answer msg in ret (Continue g)) turn_ok w.
Proof.
  intros Hi. eapply wp_quiet; [|intros w' g' E|done].
  - apply quiet_bind; [apply quiet_answer|done].
  - unfold io_bind, ret in E. destruct (answer msg w) as [w1 [[]|e|]]; congruence.
Qed.

Lemma wp_deny once g e w : inv (forwarded w) g -> wp (deny once g e) turn_ok w.
Proof.
  intros Hi. eapply wp_quiet; [|intros w' g' E|done].
  - apply quiet_bind; [apply quiet_answer|]. by destruct once.
  - unfold deny, io_bind, ret in E. destruct (answer _ w) as [w1 [[]|e'|]]; [|done..]. destruct once; unfold throw in E; congruence.
Qed.

Lemma wp_refuse (g : option planGate) e w : inv (forwarded w) g -> wp (refuse e) turn_ok w.
Proof.
  intros Hi. eapply wp_quiet; [apply quiet_refuse|intros w' g' E|done].
  unfold refuse, io_bind in E. by destruct (answer _ w) as [? []].
Qed.

(** Forwarding a message that the gate has accepted. *)
Lemma wp_forward msg (t : turn) g w :
  commits_ok (forwarded w) ->
  (op_of msg = Some msgCommit -> complete_push (forwarded w)) ->
  (forall g', t = Continue g' -> inv (forwarded w ++ [msg]) g') ->
  inv (forwarded w) g ->
  wp (let* _ := relay msg in ret t) turn_ok w.
Proof.
  intros Hc Hm Ht Hi. pose proof (commits_ok_snoc _ _ Hc Hm) as Hcs. apply wp_bind, wp_relay.
  - intros w' Hf. apply wp_ret. split; [by rewrite Hf|]. intros g' [= ->]. rewrite Hf. by apply Ht.
  - intros w' r Hf Hr. assert (commits_ok (forwarded w')) by (by destruct Hf as [-> | ->]).
    destruct r as [a|e|]; [by destruct (Hr a)|by split..].
Qed.

(** A check of the gate and the forwarding of its message. *)
Lemma wp_checked once g r msg w :
  inv (forwarded w) g -> op_of msg <> Some msgCommit -> r <> Panic ->
  (forall g', r = Ok g' -> inv (forwarded w ++ [msg]) g') ->
  wp (checked once g r msg) turn_ok w.
Proof.
  intros Hi Ho Hp Hr. unfold checked. destruct r as [g'|e|]; [|by apply wp_deny|done].
  eapply wp_forward; [apply Hi|done| |done]. intros g1 [= <-]. by apply Hr.
Qed.

(** The part of the invariant that a check extends. *)
Lemma inv_extend tr g msg (P : planGate -> option planGate -> Prop) :
  inv tr g -> op_of msg <> Some msgCommit ->
  (forall es mid gt g', g = Some gt -> gate_for es mid gt -> P gt g' -> exists g1, g' = Some g1 /\ gate_for es (mid ++ [msg]) g1) ->
  forall g' gt, g = Some gt -> P gt g' -> inv (tr ++ [msg]) g'.
Proof.
  intros [Hc Hg] Ho Hx g' gt -> HP. destruct Hg as (pre & m & es & mid & -> & Hm & Hgt).
  destruct (Hx _ _ _ _ eq_refl Hgt HP) as (g1 & -> & Hg1). split; [by apply commits_ok_snoc|].
  exists pre, m, es, (mid ++ [msg]). by rewrite <- app_assoc.
Qed.

Lemma plan_turn_ok once g w : inv (forwarded w) g -> wp (plan_turn once g) turn_ok w.
Proof.
  intros Hi. apply wp_bind, wp_call. intros w0 r0 E0. pose proof (readRequest_spec w) as Hf. rewrite E0 in Hf. cbn in Hf.
  rewrite <- Hf in Hi. clear E0 Hf w. destruct r0 as [req|e|]; [|by split; [apply Hi|]..].
  destruct req as [|op tl]; [by apply wp_answer_continue|]. set (req := op :: tl).
  assert (Hop : op_of req = Some op) by done.
  apply wp_bind, wp_call. intros w r0 E0. pose proof (endpoint_spec w0) as Hf. rewrite E0 in Hf. cbn in Hf.
  rewrite <- Hf in Hi. clear E0 Hf w0. destruct r0 as [ok|e|]; [|by split; [apply Hi|]..].
  wp_if; [by split; [apply Hi|]|]. clearbody req.
  wp_if; [|wp_if; [|wp_if; [|wp_if; [|wp_if; [|wp_if; [|wp_if]]]]]].
  - destruct (authorizeManifest req) as [[can g']|e|] eqn:Ea; [|by apply wp_deny|by split; [apply Hi|]].
    reflect_bools. subst op. apply authorizeManifest_inv in Ea as (-> & es & Hd & Hg).
    assert (Hnc : op_of req <> Some msgCommit) by (by rewrite Hop).
    eapply wp_forward; [apply Hi|done| |done]. intros g1 [= <-]. split; [apply commits_ok_snoc; [apply Hi|done]|].
    by exists (forwarded w), req, es, [].
  - reflect_bools. subst op. assert (Hnc : op_of req <> Some msgCommit) by (by rewrite Hop).
    unfold decoded. pose proof (decodeFile_inv req) as Hv. destruct (decodeFile req) as [fw|e|] eqn:Ed; [|by eapply wp_refuse|done].
    apply wp_checked; [done..| |]; [unfold checkFile; repeat case_match; done|].
    intros g' E. destruct g as [gt|]; [|done].
    eapply (inv_extend _ _ _ (fun gt g' => checkFile (Some gt) fw = Ok g')); [done..| |done|exact E].
    intros es mid gt' g1 _ Hg Hk. by eapply checkFile_inv.
  - reflect_bools. subst op. assert (Hnc : op_of req <> Some msgCommit) by (by rewrite Hop).
    unfold decoded. pose proof (decodeFileBegin_inv req) as Hv. destruct (decodeFileBegin req) as [b|e|] eqn:Ed; [|by eapply wp_refuse|done].
    apply wp_checked; [done..| |]; [unfold checkBegin; repeat case_match; done|].
    intros g' E. destruct g as [gt|]; [|done].
    eapply (inv_extend _ _ _ (fun gt g' => checkBegin (Some gt) b = Ok g')); [done..| |done|exact E].
    intros es mid gt' g1 _ Hg Hk. by eapply checkBegin_inv.
  - reflect_bools. subst op. assert (Hnc : op_of req <> Some msgCommit) by (by rewrite Hop).
    destruct g as [gt|]; [|by apply wp_answer_continue]. wp_if; [by apply wp_answer_continue|].
    eapply wp_forward; [apply Hi|done| |done]. intros g1 [= <-].
    eapply (inv_extend _ _ _ (fun gt g' => g' = Some gt)); [exact Hi|done| |done|done].
    intros es mid gt' g1 _ Hg ->. eexists. split; [done|]. by eapply chunk_inv.
  - reflect_bools. subst op. assert (Hnc : op_of req <> Some msgCommit) by (by rewrite Hop).
    unfold decoded. pose proof (decodeFileEnd_inv req) as Hv. destruct (decodeFileEnd req) as [[rel dig]|e|] eqn:Ed; [|by eapply wp_refuse|done].
    apply wp_checked; [done..| |]; [unfold checkEnd; repeat case_match; done|].
    intros g' E. destruct g as [gt|]; [|done].
    eapply (inv_extend _ _ _ (fun gt g' => checkEnd (Some gt) rel dig = Ok g')); [done..| |done|exact E].
    intros es mid gt' g1 _ Hg Hk. by eapply checkEnd_inv.
  - reflect_bools. subst op.
    destruct (checkCommit g) as [[]|e|] eqn:Ec; [|by apply wp_deny|by split; [apply Hi|]].
    assert (Hcp : complete_push (forwarded w)).
    { destruct g as [gt|]; [|done]. destruct Hi as [_ (pre & m & es & mid & -> & Hm & Hg)]. by eapply checkCommit_complete. }
    assert (Hs : commits_ok (forwarded w ++ [req])) by (apply commits_ok_snoc; [apply Hi|done]).
    destruct once; (eapply wp_forward; [apply Hi|done| |done]); [done|]. intros g1 [= <-]. by split.
  - reflect_bools. subst op. assert (Hnc : op_of req <> Some msgCommit) by (by rewrite Hop).
    apply wp_bind, wp_try, wp_call. intros w1 r1 E1. pose proof (request_spec w req) as Hr. rewrite E1 in Hr. cbn in Hr.
    assert (Hc1 : commits_ok (forwarded w1)).
    { destruct Hr as [->|[-> _]]; [apply commits_ok_snoc; [apply Hi|done]|apply Hi]. }
    assert (Hi1 : inv (forwarded w1) None) by done.
    destruct r1 as [resp|e|]; [|by eapply wp_refuse|by split].
    eapply wp_quiet; [|intros w' g' E|exact Hi1].
    + apply quiet_bind; [|done]. intros w2. unfold ignore. pose proof (respond_spec w2 resp). by destruct (respond _ w2).
    + unfold io_bind, ignore, throw in E. destruct (respond resp w1) as [? []]; done.
  - eapply wp_quiet; [|intros w' g' E|exact Hi].
    + apply quiet_bind; [apply quiet_answer|done].
    + unfold io_bind, throw in E. by destruct (answer _ w) as [? []].
Qed.

Lemma plan_loop_ok n once g w : inv (forwarded w) g -> wp (ServePlanBridgeDyn n once g) turn_ok w.
Proof.
  revert g w. induction n as [|n IH]; intros g w Hi; cbn [ServePlanBridgeDyn].
  { split; [apply Hi|]. by intros g' [= <-]. }
  apply wp_bind. eapply wp_mono; [by apply plan_turn_ok|]. intros w' r [Hc Hg].
  destruct r as [[g'|]|e|]; [by apply IH, Hg|by split..].
Qed.

(** C14. What the plan role lets through to apply.  Whatever requests arrive from
    the parser, in whatever number and order, and whatever apply answers: if a
    commit is sent on, the messages sent before it end with a manifest followed by
    a complete transfer of each of its files, and every file carried or begun after
    that manifest is one of its files, with its digest, mode and size. *)
Theorem plan_authorizes n once w w' r :
  forwarded w = [] -> ServePlanBridgeDyn n once None w = (w', r) ->
  forall pre c post, forwarded w' = pre ++ c :: post -> op_of c = Some msgCommit -> complete_push pre.
Proof.
  intros Hw E. assert (Hi : inv (forwarded w) None).
  { rewrite Hw. split; [|done]. intros pre c post Hx. by destruct pre. }
  by destruct (wp_run _ _ _ _ _ (plan_loop_ok n once None w Hi) E).
Qed.

End Safety.

(** ** A push through the plan role *)

(** The frames that carry payloads from one end of a link, on its stream. *)
Fixpoint stream_of (ch : Ipc.ChannelState) (typ : Z) (ps : list bytes) : bytes :=
  match ps with
  | [] => []
  | p :: ps =>
      match Ipc.Encode ch typ p with
      | Ok (ch, raw) => match Ipc.WriteFrame raw with Ok out => out ++ stream_of ch typ ps | _ => [] end
      | _ => []
      end
  end.

Definition demo_texts : ErrorTexts := {| ipc_text _ := []; os_text _ := []; local_text _ := [] |}.

Definition demo_begin : fileBegin := mkBegin (str "a") 420 (zeros 32) 2.
Definition demo_manifest : list Entry := [mkEntry (str "a") EntryFile 2 420 (zeros 32) true].
Definition demo_push : list bytes :=
  [manifest_bytes msgManifest demo_manifest; begin_bytes demo_begin; chunk_bytes 0 (str "hi");
   end_bytes (str "a") (zeros 32); encodeCommit].
Definition demo_answers : list bytes :=
  [encodeManifestOK; encodeFileAck 0; encodeFileAck 2; mustResult true (str "ok"); mustResult true (str "ok")].

Definition demo_relay : Relay :=
  mkRelay
    (mkWire (Ipc.NewChannel RolePlan RoleParser (zeros 16)) true
       (stream_of (Ipc.NewChannel RoleParser RolePlan (zeros 16)) Ipc.TypeRequest demo_push) [] [])
    (mkWire (Ipc.NewChannel RolePlan RoleApply (zeros 16)) true
       (stream_of (Ipc.NewChannel RoleApply RolePlan (zeros 16)) Ipc.TypeResponse demo_answers) [] [])
    true.

#[local] Existing Instance demo_texts.

Lemma plan_authorizes_witness :
  exists w r, ServePlanBridgeDyn 5 true None demo_relay = (w, r) /\ r = Ok Return /\ forwarded w = demo_push /\
    complete_push (take 4 demo_push).
Proof.
  destruct (ServePlanBridgeDyn 5 true None demo_relay) as [w r] eqn:E.
  assert (Hlog : forwarded w = demo_push).
  { change w with (w, r).1. rewrite <- E. clear. vm_compute. reflexivity. }
  assert (Hr : r = Ok Return).
  { change r with (w, r).2. rewrite <- E. clear. vm_compute. reflexivity. }
  exists w, r. split; [done|]. split; [exact Hr|]. split; [exact Hlog|].
  refine (plan_authorizes 5 true demo_relay w r _ E (take 4 demo_push) encodeCommit [] _ _); [reflexivity|exact Hlog|reflexivity].
Defined.

End RemoteGate.
