(* ===== verification/RemoteStore.v ===== *)
(** * The receiving store (internal/remotesync: store.go, transfer.go)

    [localStore] stages a push under destination/.integris: each file is received
    into a partial file, with a resume point beside it, verified against the
    announced digest and moved to the staging tree; the commit synchronizes the
    staging tree to the destination.  This is the store that works on paths
    (destFD nil).  The filesystem calls it adds to localsync's are the class
    [Staging]; encoding/json on the resume point is a parameter.

    The lemmas [wp_beginFile], [wp_writeChunk] and [wp_endFile] are the contract of
    a transfer: after its end the staged file has the announced digest, and nothing
    outside the two staging directories changed.  They are stated for relative paths
    made of proper components: the store does not check that, and
    [stageLegacy_escapes] follows a peer's path out of the staging directory. *)

From stdpp Require Import gmap.
From S2P Require Import Prelude Sha256 Codec Journal PathGrammar FilePath FileSystem.
From S2P Require Import LocalPayload LocalPlan LocalApply LocalScan LocalSession LocalSync LocalResume.
From S2P Require Import RemoteMessages RemoteWire.
Import Codec PathGrammar FilePath FileSystem LocalPlan LocalApply LocalSync LocalResume RemoteMessages RemoteWire.

Module RemoteStore.

(** ** The filesystem calls of the store *)

Class Staging (W : Type) := {
  (** [os.Lstat] with the size, an [int64]; a larger file is an error (EOVERFLOW) *)
  LstatSize : bytes -> io W errno (FileInfo * Z);
  (** [os.OpenFile] with [O_RDWR|O_CREATE], and [O_TRUNC] when the flag is set *)
  OpenPart : bytes -> bool -> io W errno unit;
  (** [pf.Seek] from the start *)
  SeekPart : bytes -> Z -> io W errno unit;
  (** [pf.Write] at a position: the bytes written and the error *)
  WritePart : bytes -> Z -> bytes -> io W errno (Z * option errno);
  (** [os.RemoveAll] *)
  RemoveAll : bytes -> io W errno unit }.

(** The bytes of a file after a write at a position inside it. *)
Definition splice (d : bytes) (pos : Z) (x : bytes) : bytes :=
  take (Z.to_nat pos) d ++ x ++ drop (Z.to_nat (pos + len x)) d.

Class StagingLaws (W : Type) `{FileSystemLaws W} `{Staging W} := {
  lstatsize_spec w w' r ds c :
    entry_at (view w) ds c -> LstatSize (native (ds ++ [c])) w = (w', r) ->
    view w' = view w /\
    match r with
    | Ok (i, n) => exists nd, view w !! (ds ++ [c]) = Some nd /\ i = info_of nd /\
        forall m d, nd = NFile m d -> n = len d /\ n < 2 ^ 63
    | Err e => e = ENOENT -> view w !! (ds ++ [c]) = None
    | Panic => False
    end;
  openpart_spec w w' r ds c trunc :
    entry_at (view w) ds c -> (forall t, view w !! (ds ++ [c]) <> Some (NOther t)) ->
    OpenPart (native (ds ++ [c])) trunc w = (w', r) ->
    match r with
    | Ok _ => exists m d, view w' = <[ds ++ [c] := NFile m d]> (view w) /\
        (view w !! (ds ++ [c]) = None /\ d = [] \/
         exists m0 d0, view w !! (ds ++ [c]) = Some (NFile m0 d0) /\ d = if trunc : bool then [] else d0)
    | Err _ => view w' = view w
    | Panic => False
    end;
  seekpart_spec w w' r p n : SeekPart p n w = (w', r) -> view w' = view w /\ r <> Panic;
  writepart_spec w w' r ds c m d pos data :
    entry_at (view w) ds c -> view w !! (ds ++ [c]) = Some (NFile m d) -> 0 <= pos <= len d ->
    WritePart (native (ds ++ [c])) pos data w = (w', r) ->
    match r with
    | Ok (n, err) => 0 <= n <= len data /\ (err = None -> n = len data) /\
        view w' = <[ds ++ [c] := NFile m (splice d pos (take (Z.to_nat n) data))]> (view w)
    | Err _ | Panic => False
    end;
  removeall_spec w w' r cs :
    Forall plain cs -> nolink (view w) cs -> RemoveAll (native cs) w = (w', r) ->
    (forall q, view w' !! q = view w !! q \/ cs `prefix_of` q /\ view w' !! q = None) /\
    match r with
    | Ok _ => forall q, cs `prefix_of` q -> view w' !! q = None
    | Err _ => True
    | Panic => False
    end }.

#[global] Instance Staging_pair {W J} `{Staging W} : Staging (W * J) := {
  LstatSize p := on_fst (LstatSize p);
  OpenPart p t := on_fst (OpenPart p t);
  SeekPart p n := on_fst (SeekPart p n);
  WritePart p n d := on_fst (WritePart p n d);
  RemoveAll p := on_fst (RemoveAll p) }.

(** encoding/json on a resume point: numbers and digests are kept, strings that
    are not UTF-8 are not. *)
Record partialMeta := mkMeta { MRel : bytes; MMode : Z; MSize : Z; MDigest : bytes; MOffset : Z }.

#[global] Instance partialMeta_eq_dec : EqDecision partialMeta.
Proof. solve_decision. Defined.

Class MetaJSON := {
  MarshalMeta : partialMeta -> bytes;
  UnmarshalMeta : bytes -> option partialMeta;
  json_text : bytes }.

(** ** Paths (transfer.go) *)

Definition DefaultChunkSize : Z := Z.shiftl 256 10.

Definition recvStageDir (destRoot : bytes) : bytes := Join (Join destRoot LocalScan.MetaDirName) (str "recv-stage").
Definition recvPartialDir (destRoot : bytes) : bytes := Join (Join destRoot LocalScan.MetaDirName) (str "recv-partial").
Definition partialMetaPath (partialRoot rel : bytes) : bytes := Join partialRoot (rel ++ str ".meta.json").
Definition partialDataPath (partialRoot rel : bytes) : bytes := Join partialRoot (rel ++ str ".part").
Definition finalStagePath (stageRoot rel : bytes) : bytes := Join stageRoot rel.

(** ** The store (store.go) *)

(** The open partial file is its path and the position in it. *)
Record localStore := mkStore {
  dest : bytes;
  stage : bytes;
  partial : bytes;
  active : bool;
  begin : fileBegin;
  lastBegin : fileBegin;
  partPath : bytes;
  pf : option Z;
  off : Z;
  destMan : option Manifest }.

Definition set_last b s := mkStore (dest s) (stage s) (partial s) (active s) (begin s) b (partPath s) (pf s) (off s) (destMan s).
Definition set_open b path start s :=
  mkStore (dest s) (stage s) (partial s) true b (lastBegin s) path (Some start) start (destMan s).
Definition set_pf p s := mkStore (dest s) (stage s) (partial s) (active s) (begin s) (lastBegin s) (partPath s) p (off s) (destMan s).
Definition set_off p o s := mkStore (dest s) (stage s) (partial s) (active s) (begin s) (lastBegin s) (partPath s) (Some p) o (destMan s).
Definition set_done s := mkStore (dest s) (stage s) (partial s) false (begin s) (lastBegin s) [] (pf s) (off s) (destMan s).
Definition set_destMan m s := mkStore (dest s) (stage s) (partial s) (active s) (begin s) (lastBegin s) (partPath s) (pf s) (off s) m.
Definition set_closed s := mkStore (dest s) (stage s) (partial s) false (begin s) (lastBegin s) (partPath s) None (off s) (destMan s).

Section Store.
Context {W : Type} `{FileSystem W} `{Staging W} `{MetaJSON} `{ErrorTexts}.
Abbreviation IO := (io (W * localStore) Error).

Definition os_wrap (msg : string) (e : errno) : Error := wrap KindApply (str msg) (os_text e).
Definition os_error (e : errno) : Error := Foreign (os_text e).

Definition zero_begin : fileBegin := mkBegin [] 0 (zeros 32) 0.

(** [openLocalStoreAmbient] with [ensureRecvStage]. *)
Definition openLocalStore (destination : bytes) : io W Error localStore :=
  let* _ := or_fail (MkdirAll destination 0x1ED) (os_wrap "destination") in
  let stage := recvStageDir destination in
  let partial := recvPartialDir destination in
  let* _ := or_fail (MkdirAll stage 0x1C0) (os_wrap "recv-stage") in
  let* _ := or_fail (MkdirAll partial 0x1C0) (os_wrap "recv-partial") in
  ret (mkStore destination stage partial false zero_begin zero_begin [] None 0 None).

(** *** Resume points (transfer.go) *)

Definition writePartialMeta (partialRoot rel : bytes) (m : partialMeta) : io W Error unit :=
  let path := partialMetaPath partialRoot rel in
  let* _ := or_fail (MkdirAll (Dir path) 0x1C0) os_error in
  let raw := MarshalMeta m in
  let tmp := path ++ str ".tmp" in
  let* _ := or_fail (WriteFile tmp raw 0x180) os_error in
  or_fail (Rename tmp path) os_error.

Definition loadPartialMeta (partialRoot rel : bytes) : io W Error (option partialMeta) :=
  let* r := try (ReadFile (partialMetaPath partialRoot rel)) in
  match r with
  | inr e => if bool_decide (e = ENOENT) then ret None else throw (os_error e)
  | inl raw =>
      match UnmarshalMeta raw with
      | None => throw (Foreign json_text)
      | Some m => ret (Some m)
      end
  end.

Definition clearPartial (partialRoot rel : bytes) : io W Error unit :=
  let* _ := ignore (Remove (partialMetaPath partialRoot rel)) in
  ignore (Remove (partialDataPath partialRoot rel)).

(** *** The parts of the operations that work on the tree *)

Fixpoint prepare_loop (stageRoot : bytes) (entries : list Entry) : io W Error unit :=
  match entries with
  | [] => ret tt
  | e :: entries =>
      if negb (bool_decide (EType e = EntryDir)) then prepare_loop stageRoot entries else
      let native := Join stageRoot (ERel e) in
      let mode := if EMode e =? 0 then 0x1ED else EMode e in
      let* _ := or_fail (MkdirAll native mode) (os_wrap "mkdir") in
      prepare_loop stageRoot entries
  end.

(** The digest of a file is the announced one; a file that cannot be hashed is a
    mismatch. *)
Definition digest_is (native want : bytes) : io W Error bool :=
  let* h := try (HashFile native) in
  ret match h with inl (dig, _) => bool_decide (dig = want) | inr _ => false end.

Definition stage_file (stageRoot : bytes) (fw : fileWire) : io W Error unit :=
  let native := Join stageRoot (FRel fw) in
  let* _ := or_fail (MkdirAll (Dir native) 0x1ED) (os_wrap "mkdir parent") in
  let mode := if FMode fw =? 0 then 0x1A4 else FMode fw in
  let* _ := or_fail (WriteFile native (FData fw) mode) (os_wrap "write") in
  let* same := digest_is native (FDigest fw) in
  if negb same then throw (fail KindApply (str "staged digest mismatch for " ++ FRel fw)) else ret tt.

(** The staged file is already there, whole. *)
Definition already_staged (nativeFinal : bytes) (b : fileBegin) : io W Error bool :=
  let* st := try (LstatSize nativeFinal) in
  match st with
  | inl (fi, size) =>
      if bool_decide (FileSystem.FType fi = TRegular) && (size =? i64 (BSize b))
      then digest_is nativeFinal (BDigest b) else ret false
  | inr _ => ret false
  end.

(** Where the transfer resumes; a resume point that does not fit is cleared. *)
Definition resume_point (partialRoot : bytes) (b : fileBegin) : io W Error Z :=
  let* meta := loadPartialMeta partialRoot (BRel b) in
  let reset := let* _ := clearPartial partialRoot (BRel b) in ret 0 in
  match meta with
  | Some m =>
      if bool_decide (MDigest m = BDigest b) && (MSize m =? i64 (BSize b)) && bool_decide (MRel m = BRel b) then
        let* st := try (LstatSize (partialDataPath partialRoot (BRel b))) in
        match st with
        | inl (_, size) => if size =? MOffset m then ret (u64 (MOffset m)) else reset
        | inr _ => reset
        end
      else reset
  | None => reset
  end.

Definition open_partial (partPath : bytes) (start : Z) : io W Error unit :=
  let* _ := or_fail (MkdirAll (Dir partPath) 0x1C0) (os_wrap "partial dir") in
  let* _ := or_fail (OpenPart partPath (start =? 0)) (os_wrap "partial open") in
  if 0 <? start then or_fail (SeekPart partPath (i64 start)) (os_wrap "partial seek") else ret tt.

(** From the verified partial file to the staged file. *)
Definition finalize (stageRoot partialRoot partPath rel : bytes) (mode : Z) : io W Error unit :=
  let final := finalStagePath stageRoot rel in
  let* _ := or_fail (MkdirAll (Dir final) 0x1ED) (os_wrap "final mkdir") in
  let mode := if mode =? 0 then 0x1A4 else mode in
  let* r := try (Rename partPath final) in
  let* _ := match r with
    | inr _ =>
        let* data := or_fail (ReadFile partPath) (os_wrap "finalize read") in
        let* _ := or_fail (WriteFile final data mode) (os_wrap "finalize write") in
        ignore (Remove partPath)
    | inl _ => or_fail (Chmod final mode) (os_wrap "chmod")
    end in
  let* _ := clearPartial partialRoot rel in
  ignore (SyncDir (Dir final)).

(** *** The operations *)

Definition get : IO localStore := fun '(w, s) => (w, s, Ok s).
Definition put (s : localStore) : IO unit := fun '(w, _) => (w, s, Ok tt).
Definition fs {A} (c : io W Error A) : IO A := on_fst c.

Definition prepareDirs (entries : list Entry) : IO unit :=
  let* s := get in fs (prepare_loop (stage s) entries).

Definition stageLegacy (fw : fileWire) : IO unit :=
  let* s := get in fs (stage_file (stage s) fw).

Definition beginFile (b : fileBegin) : IO Z :=
  let* s := get in
  if active s then throw (fail KindProtocol (str "file already active")) else
  let nativeFinal := finalStagePath (stage s) (BRel b) in
  let s := set_last b s in
  let* _ := put s in
  let* complete := fs (already_staged nativeFinal b) in
  if complete : bool then
    let* _ := fs (clearPartial (partial s) (BRel b)) in
    ret (BSize b)
  else
  let* start := fs (resume_point (partial s) b) in
  let partPath := partialDataPath (partial s) (BRel b) in
  let* _ := fs (open_partial partPath start) in
  let* _ := put (set_open b partPath start s) in
  ret start.

Definition active_meta (s : localStore) : partialMeta :=
  mkMeta (BRel (begin s)) (BMode (begin s)) (i64 (BSize (begin s))) (BDigest (begin s)) (i64 (off s)).

Definition writeChunk (coff : Z) (data : bytes) : IO unit :=
  let* s := get in
  match active s, pf s with
  | true, Some pos =>
      if negb (coff =? off s)
      then throw (fail KindProtocol (str "chunk offset " ++ itoa coff ++ str " want " ++ itoa (off s))) else
      let* r := fs (or_fail (WritePart (partPath s) pos data) os_error) in
      match r with
      | (n, Some e) => let* _ := put (set_off (pos + n) (off s) s) in throw (os_wrap "partial write" e)
      | (n, None) =>
          let s := set_off (pos + n) (u64 (off s + len data)) s in
          let* _ := put s in
          if off s mod (DefaultChunkSize * 4) =? 0 then
            let* _ := fs (ignore (SyncFile (partPath s))) in
            fs (ignore (writePartialMeta (partial s) (BRel (begin s)) (active_meta s)))
          else ret tt
      end
  | _, _ => throw (fail KindProtocol (str "chunk without begin"))
  end.

Definition persistActive : IO unit :=
  let* s := get in
  match active s, pf s with
  | true, Some _ =>
      let* _ := fs (ignore (writePartialMeta (partial s) (BRel (begin s)) (active_meta s))) in
      fs (ignore (SyncFile (partPath s)))
  | _, _ => ret tt
  end.

Definition endFile (rel dig : bytes) : IO unit :=
  let* s := get in
  match active s, pf s with
  | true, Some _ =>
      if negb (bool_decide (rel = BRel (begin s))) || negb (bool_decide (dig = BDigest (begin s)))
      then throw (fail KindProtocol (str "file end mismatch")) else
      if negb (off s =? BSize (begin s))
      then throw (fail KindProtocol (str "unexpected file end before size complete")) else
      let* _ := fs (or_fail (SyncFile (partPath s)) (os_wrap "partial sync")) in
      let* _ := fs (or_fail (CloseFile (partPath s)) (os_wrap "partial close")) in
      let s := set_pf None s in
      let* _ := put s in
      let* same := fs (digest_is (partPath s) (BDigest (begin s))) in
      if negb same then throw (fail KindApply (str "chunked digest mismatch for " ++ BRel (begin s))) else
      let* _ := fs (finalize (stage s) (partial s) (partPath s) (BRel (begin s)) (BMode (begin s))) in
      put (set_done s)
  | _, _ => throw (fail KindProtocol (str "end without begin"))
  end.

Definition setDestManifest (entries : list Entry) : IO unit :=
  let* s := get in put (set_destMan (Some (mkManifest (dest s) entries)) s).

Definition close : IO unit := let* s := get in put (set_closed s).

End Store.

(** ** The laws of a pair *)

Lemma on_fst_run {W J E A : Type} (c : io W E A) (w : W) (j : J) w' j' r :
  on_fst c (w, j) = (w', j', r) -> c w = (w', r) /\ j' = j.
Proof. unfold on_fst. destruct (c w) as [w1 r1]. by intros [= <- <- <-]. Qed.

#[global] Program Instance Staging_pair_laws {W J : Type} `{StagingLaws W} : StagingLaws (W * J).
Next Obligation. intros W J ? ? ? ? [w j] [w' j'] r ds c He [E ->]%on_fst_run. exact (lstatsize_spec w w' r ds c He E). Qed.
Next Obligation. intros W J ? ? ? ? [w j] [w' j'] r ds c tr He Hn [E ->]%on_fst_run. exact (openpart_spec w w' r ds c tr He Hn E). Qed.
Next Obligation. intros W J ? ? ? ? [w j] [w' j'] r p n [E ->]%on_fst_run. exact (seekpart_spec w w' r p n E). Qed.
Next Obligation. intros W J ? ? ? ? [w j] [w' j'] r ds c m d pos data He Hn Hp [E ->]%on_fst_run. exact (writepart_spec w w' r ds c m d pos data He Hn Hp E). Qed.
Next Obligation. intros W J ? ? ? ? [w j] [w' j'] r cs Hp Hl [E ->]%on_fst_run. exact (removeall_spec w w' r cs Hp Hl E). Qed.

(** ** The calls on the tree in memory *)

#[global] Instance MemFS_Staging : Staging MemFS := {
  LstatSize p := on_node p (fun _ n =>
    match n with
    | NFile _ d => if len d <? 2 ^ 63 then ret (info_of n, len d) else throw EOther
    | _ => ret (info_of n, 0)
    end);
  OpenPart p t := scripted (fun w =>
    let cs := clean_components p in
    match nodes w !! cs with
    | Some (NFile m d) => (with_nodes w (<[cs := NFile m (if t : bool then [] else d)]> (nodes w)), Ok tt)
    | None => (with_nodes w (<[cs := NFile 0x180 []]> (nodes w)), Ok tt)
    | _ => (w, Err EOther)
    end);
  SeekPart _ _ := scripted (ret tt);
  WritePart p pos data := fun w =>
    let cs := clean_components p in
    match nodes w !! cs with
    | Some (NFile m d) =>
        match script w with
        | Some e :: s => (mkMemFS (nodes w) s (entropy w), Ok (0, Some e))
        | _ => (mkMemFS (<[cs := NFile m (splice d pos data)]> (nodes w)) (tail (script w)) (entropy w), Ok (len data, None))
        end
    | _ => (w, Ok (0, Some EOther))
    end;
  RemoveAll p := scripted (fun w =>
    let cs := clean_components p in
    (with_nodes w (filter (fun '(q, _) => ~ cs `prefix_of` q) (nodes w)), Ok tt)) }.

Lemma splice_nil d pos : 0 <= pos -> splice d pos [] = d.
Proof. intros Hp. unfold splice. cbn [app]. rewrite len_nil, Z.add_0_r. apply take_drop. Qed.

#[global] Program Instance MemFS_staging_laws : StagingLaws MemFS.
Next Obligation.
  intros w w' r ds c He E. cbn [LstatSize OpenPart SeekPart WritePart RemoveAll MemFS_Staging] in E.
  apply (on_node_inv _ _ _ _ _ _ (entry_components _ _ _ He)) in E as [(Hv & e & -> & Hne)|(w1 & n & Hw & Hn & E)]; [done|].
  destruct n as [m|m d|t]; [|destruct (len d <? 2 ^ 63) eqn:El|]; injection E as <- <-; (split; [done|]); try done.
  - by exists (NDir m).
  - exists (NFile m d). split_and!; [done..|]. intros ? ? [= <- <-]. by reflect_bools.
  - by exists (NOther t).
Qed.
Next Obligation.
  intros w w' r ds c t He Hl E. cbn [LstatSize OpenPart SeekPart WritePart RemoveAll MemFS_Staging] in E. apply scripted_inv in E as [(Hv & e & -> & _)|(w1 & Hw & E)]; [done|].
  cbv zeta in E. rewrite (entry_components _ _ _ He), Hw in E. cbn [view MemFS_laws] in *.
  destruct (nodes w !! _) as [[m|m d|ty]|] eqn:En; injection E as <- <-; cbn; rewrite ?Hw; try done.
  - exists m, (if t then [] else d). split; [done|]. right. by exists m, d.
  - exists 0x180, []. auto.
Qed.
Next Obligation.
  intros w w' r p n E. cbn [LstatSize OpenPart SeekPart WritePart RemoveAll MemFS_Staging] in E. apply scripted_inv in E as [(Hv & e & -> & _)|(w1 & Hw & E)]; [done|].
  by injection E as <- <-.
Qed.
Next Obligation.
  intros w w' r ds c m d pos data He Hn Hp E. cbn [LstatSize OpenPart SeekPart WritePart RemoveAll MemFS_Staging] in E. cbv zeta in E.
  rewrite (entry_components _ _ _ He) in E. cbn [view MemFS_laws] in *. rewrite Hn in E. pose proof (len_nonneg data).
  destruct (script w) as [|[e|] s]; injection E as <- <-; cbn.
  2: { split; [lia|]. split; [done|]. by rewrite splice_nil, insert_id by (done || lia). }
  all: split; [lia|]; split; [done|]; rewrite take_ge by (unfold len; lia); done.
Qed.
Next Obligation.
  intros w w' r cs Hp Hl E. cbn [LstatSize OpenPart SeekPart WritePart RemoveAll MemFS_Staging] in E. apply scripted_inv in E as [(Hv & e & -> & _)|(w1 & Hw & E)].
  { split; [|done]. intros q. left. cbn. by rewrite Hv. }
  cbv zeta in E. rewrite clean_components_native, Hw in E by done. injection E as <- <-. cbn [view MemFS_laws nodes with_nodes].
  assert (Hf : forall q, filter (λ '(q0, _), ¬ cs `prefix_of` q0) (nodes w) !! q =
    if decide (cs `prefix_of` q) then None else nodes w !! q).
  { intros q. case_decide as Hq.
    - apply map_lookup_filter_None. right. intros x _ Hx. by apply Hx.
    - destruct (nodes w !! q) as [n|] eqn:En; [by apply map_lookup_filter_Some|].
      apply map_lookup_filter_None. by left. }
  split.
  - intros q. rewrite Hf. case_decide; auto.
  - intros q Hq. rewrite Hf. by rewrite decide_True.
Qed.

(** ** Paths of a transfer *)

Lemma Join_rel r cs : Forall plain r -> Forall plain cs -> Join (native r) (join_slash cs) = native (r ++ cs).
Proof.
  intros Hr Hc. change (Join (native r) (join_slash cs)) with (Clean (native r ++ slash :: join_slash cs)). unfold Clean.
  change (rooted (native r ++ _)) with true. unfold native at 2. do 2 f_equal. unfold clean_components.
  change (rooted (native r ++ _)) with true. rewrite Split_app, fold_left_app, Split_native. cbn [fold_left].
  change (clean_step true [] []) with (@nil bytes). rewrite !clean_fold_join by done.
  by rewrite app_nil_r, rev_app_distr, !rev_involutive.
Qed.

Lemma plain_suffix c x : plain c -> Forall (fun b => byteZ b <> 47) x -> 2 <= len x -> plain (c ++ x).
Proof.
  intros (Hn & _ & _ & Hs) Hx Hl. pose proof (len_nonneg c). assert (len c <> 0) by (by intros ?%len_zero_nil).
  assert (Hne : forall s, len s <= 2 -> c ++ x <> s) by (intros s ? <-; rewrite len_app in *; lia).
  split_and!; [by apply Hne; vm_compute..|]. unfold no_slash in *. apply Forall_app. by split.
Qed.

Definition part_name (c : bytes) : bytes := c ++ str ".part".
Definition meta_name (c : bytes) : bytes := c ++ str ".meta.json".

Lemma part_plain c : plain c -> plain (part_name c).
Proof. intros Hc. apply plain_suffix; [done| |by vm_compute]. repeat constructor; by vm_compute. Qed.
Lemma meta_plain c : plain c -> plain (meta_name c).
Proof. intros Hc. apply plain_suffix; [done| |by vm_compute]. repeat constructor; by vm_compute. Qed.
Lemma tmp_plain c : plain c -> plain (meta_name c ++ str ".tmp").
Proof. intros Hc. apply plain_suffix; [by apply meta_plain| |by vm_compute]. repeat constructor; by vm_compute. Qed.

(** ** The tree during a transfer *)

(** No symbolic link above the staging directories, and nothing but files and
    directories in them. *)
Definition linkfree (sd pd : list bytes) (v : tree) : Prop :=
  nolink v sd /\ nolink v pd /\
  forall q t, sd `prefix_of` q \/ pd `prefix_of` q -> v !! q <> Some (NOther t).

Lemma linkfree_evolves sd pd X D v v' : evolves X D v v' -> linkfree sd pd v -> linkfree sd pd v'.
Proof.
  intros He (H1 & H2 & H3). split_and!; [by eapply evolves_nolink..|]. intros q t Hq E. by apply (H3 q t Hq), He.
Qed.

Lemma staging_nolink sd pd v cs : linkfree sd pd v -> nolink v (sd ++ cs) /\ nolink v (pd ++ cs).
Proof.
  intros (H1 & H2 & H3). split; intros p Hp.
  - destruct (prefix_weak_total p sd (sd ++ cs) Hp) as [Hr|Hr]; [by apply prefix_app_r|by apply H1|apply H3; by left].
  - destruct (prefix_weak_total p pd (pd ++ cs) Hp) as [Hr|Hr]; [by apply prefix_app_r|by apply H2|apply H3; by right].
Qed.

Section Transfer.
Context {W : Type} `{StagingLaws W} `{MetaJSON} `{ErrorTexts}.
Context (sd pd ds : list bytes) (c : bytes).
Hypothesis plain_sd : Forall plain sd.
Hypothesis plain_pd : Forall plain pd.
Hypothesis plain_ds : Forall plain ds.
Hypothesis plain_c : plain c.
Hypothesis apart : ~ sd `prefix_of` pd /\ ~ pd `prefix_of` sd.

Definition rel_of : bytes := join_slash (ds ++ [c]).
Definition finalP : list bytes := (sd ++ ds) ++ [c].
Definition partP : list bytes := (pd ++ ds) ++ [part_name c].
Definition metaP : list bytes := (pd ++ ds) ++ [meta_name c].
Definition tmpP : list bytes := (pd ++ ds) ++ [meta_name c ++ str ".tmp"].

(** The paths that a transfer may change, and the directories on the way to them. *)
Definition resume_paths (q : list bytes) : Prop := q = metaP \/ q = tmpP.
Definition partial_paths (q : list bytes) : Prop := resume_paths q \/ q = partP.
Definition transfer_paths (q : list bytes) : Prop := partial_paths q \/ q = finalP.
Definition way (q : list bytes) : Prop := q `prefix_of` pd ++ ds \/ q `prefix_of` sd ++ ds.

Lemma final_native : finalStagePath (native sd) rel_of = native finalP.
Proof. unfold finalStagePath, rel_of, finalP. rewrite Join_rel, app_assoc by (done || by apply plain_snoc). done. Qed.
Lemma part_native : partialDataPath (native pd) rel_of = native partP.
Proof.
  unfold partialDataPath, rel_of, partP. rewrite join_slash_snoc, Join_rel, app_assoc; [done|done|].
  by apply plain_snoc, part_plain.
Qed.
Lemma meta_native : partialMetaPath (native pd) rel_of = native metaP.
Proof.
  unfold partialMetaPath, rel_of, metaP. rewrite join_slash_snoc, Join_rel, app_assoc; [done|done|].
  by apply plain_snoc, meta_plain.
Qed.
Lemma metatmp_native : native metaP ++ str ".tmp" = native tmpP.
Proof.
  unfold metaP, tmpP, native. cbn [app]. f_equal. apply join_slash_snoc.
Qed.

Lemma plain_way : Forall plain (sd ++ ds) /\ Forall plain (pd ++ ds).
Proof. split; by apply Forall_app. Qed.

Lemma Dir_final : Dir (native finalP) = native (sd ++ ds).
Proof. apply Dir_native; [apply plain_way|done]. Qed.
Lemma Dir_part : Dir (native partP) = native (pd ++ ds).
Proof. apply Dir_native; [apply plain_way|by apply part_plain]. Qed.
Lemma Dir_meta : Dir (native metaP) = native (pd ++ ds).
Proof. apply Dir_native; [apply plain_way|by apply meta_plain]. Qed.

(** The four paths are entries, and distinct. *)
Lemma entries_ok v :
  linkfree sd pd v ->
  entry_at v (sd ++ ds) c /\ entry_at v (pd ++ ds) (part_name c) /\
  entry_at v (pd ++ ds) (meta_name c) /\ entry_at v (pd ++ ds) (meta_name c ++ str ".tmp").
Proof.
  intros [Hs Hp]%(staging_nolink _ _ _ ds). destruct plain_way.
  unfold entry_at. split_and!; try done; first [by apply part_plain|by apply meta_plain|by apply tmp_plain].
Qed.

Lemma no_symlink v t :
  linkfree sd pd v ->
  v !! finalP <> Some (NOther t) /\ v !! partP <> Some (NOther t) /\
  v !! metaP <> Some (NOther t) /\ v !! tmpP <> Some (NOther t).
Proof.
  intros (_ & _ & Hl). unfold finalP, partP, metaP, tmpP. rewrite <- !app_assoc.
  split_and!; apply Hl; [left|right..]; by apply prefix_app_r.
Qed.

Lemma final_apart q : pd `prefix_of` q -> q <> finalP.
Proof.
  intros Hq ->. unfold finalP in Hq. rewrite <- app_assoc in Hq.
  destruct (prefix_weak_total pd sd (sd ++ ds ++ [c])) as [?|?]; [done|by apply prefix_app_r|by destruct apart..].
Qed.

Lemma partial_not_final q : partial_paths q -> q <> finalP.
Proof.
  intros Hq. apply final_apart. unfold partial_paths, resume_paths, metaP, tmpP, partP in Hq. rewrite <- !app_assoc in Hq.
  destruct Hq as [[->| ->]| ->]; by apply prefix_app_r.
Qed.

Lemma resume_not_part q : resume_paths q -> q <> partP.
Proof.
  unfold resume_paths, metaP, tmpP, partP, meta_name, part_name.
  intros [->| ->] [_ [= E]]%app_inj_2; try done; rewrite <- ?app_assoc in E; by apply app_inv_head in E.
Qed.

(** What is not among the paths of a change, and already there, stays. *)
Lemma evolves_keep X D v v' q n : evolves X D v v' -> ~ X q -> v !! q = Some n -> v' !! q = Some n.
Proof. intros He HX Hq. destruct (He q) as [[->|[?|(? & _)]] _]; [done|done|congruence]. Qed.

Lemma mkdir_evolves X v v' cs : created_dirs v v' cs -> cs = pd ++ ds \/ cs = sd ++ ds -> evolves X way v v'.
Proof. intros Hc Hcs. eapply evolves_created; [exact Hc|]. unfold way. by destruct Hcs as [->| ->]; auto. Qed.

Lemma wp_clearPartial (Q : W -> res Error unit -> Prop) w :
  linkfree sd pd (view w) ->
  (forall w', evolves partial_paths way (view w) (view w') -> Q w' (Ok tt)) ->
  wp (clearPartial (native pd) rel_of) Q w.
Proof.
  intros Hl HQ. unfold clearPartial. rewrite meta_native, part_native.
  assert (Hrm : forall w1 w2 r x, evolves partial_paths way (view w) (view w1) -> plain x ->
    partial_paths ((pd ++ ds) ++ [x]) -> Remove (native ((pd ++ ds) ++ [x])) w1 = (w2, r) ->
    r <> Panic /\ evolves partial_paths way (view w) (view w2)).
  { intros w1 w2 r x He Hx Hp E. apply remove_spec in E.
    2: { split_and!; [apply plain_way|done|]. eapply staging_nolink, linkfree_evolves; [exact He|done]. }
    destruct r as [[]|e|]; [..|done]; (split; [done|]); (eapply evolves_trans; [exact He|]); rewrite E;
      [by apply evolves_delete|apply evolves_refl]. }
  apply wp_bind, wp_ignore_any. intros w1 r1 E1.
  apply Hrm in E1 as [Hr1 He1]; [|apply evolves_refl|by apply meta_plain|by left; left]. split; [done|].
  apply wp_ignore_any. intros w2 r2 E2. apply Hrm in E2 as [Hr2 He2]; [|done|by apply part_plain|by right].
  split; [done|]. by apply HQ.
Qed.

Lemma wp_digest_is es x want (Q : W -> res Error bool -> Prop) w :
  entry_at (view w) es x ->
  (forall w' b, view w' = view w ->
     (b = true -> exists m d, view w !! (es ++ [x]) = Some (NFile m d) /\ SHA256 d = want) -> Q w' (Ok b)) ->
  wp (digest_is (native (es ++ [x])) want) Q w.
Proof.
  intros He HQ. apply wp_bind, wp_try. apply wp_HashFile; [done|]. intros w' r Hv Hr.
  destruct r as [[h n]|e|]; [| |done]; apply wp_ret, HQ; try done.
  destruct Hr as (m & d & Hd & -> & _). intros Hb. reflect_bools. eauto.
Qed.

Lemma wp_writePartialMeta m (Q : W -> res Error unit -> Prop) w :
  linkfree sd pd (view w) ->
  (forall w' r, r <> Panic -> evolves resume_paths way (view w) (view w') -> Q w' r) ->
  wp (writePartialMeta (native pd) rel_of m) Q w.
Proof.
  intros Hl HQ. unfold writePartialMeta. rewrite meta_native, Dir_meta, metatmp_native.
  destruct plain_way as [_ Hpw]. apply wp_bind, wp_or_fail, wp_call. intros w1 r1 E1.
  apply mkdirall_spec in E1 as [Hc1 Hr1]; [|done|by apply (staging_nolink sd)].
  assert (He1 : evolves resume_paths way (view w) (view w1)) by (eapply mkdir_evolves; [exact Hc1|by left]).
  pose proof (linkfree_evolves _ _ _ _ _ _ He1 Hl) as Hl1.
  destruct r1 as [[]|e|]; cbn [map_err]; [|by apply HQ|done].
  destruct (entries_ok _ Hl1) as (_ & _ & Hm & Ht). destruct (no_symlink _ TSymlink Hl1) as (_ & _ & _ & Hst).
  apply wp_bind, wp_or_fail, wp_call. intros w2 r2 E2. apply writefile_spec in E2; [|done..].
  assert (He2 : evolves resume_paths way (view w) (view w2) /\ r2 <> Panic).
  { destruct r2 as [[]|e|]; [| |done]; (split; [|done]); (eapply evolves_trans; [exact He1|]).
    - destruct E2 as [m' ->]. apply evolves_insert. by right.
    - destruct E2 as [->|(m' & d' & ->)]; [apply evolves_refl|]. apply evolves_insert. by right. }
  destruct He2 as [He2 Hr2]. destruct r2 as [[]|e|]; cbn [map_err]; [|by apply HQ|done].
  destruct E2 as [m' Hv2]. pose proof (linkfree_evolves _ _ _ _ _ _ He2 Hl) as Hl2.
  destruct (entries_ok _ Hl2) as (_ & _ & Hm2 & Ht2).
  apply wp_or_fail, wp_call. intros w3 r3 E3. unfold metaP, tmpP in E3.
  eapply rename_spec in E3; [|exact Ht2|exact Hm2|fold tmpP; by rewrite Hv2, lookup_insert_eq].
  destruct r3 as [[]|e|]; [| |done]; (apply HQ; [done|]); (eapply evolves_trans; [exact He2|]); rewrite E3; [|apply evolves_refl].
  eapply evolves_trans; [apply evolves_delete; by right|apply evolves_insert; by left].
Qed.

Lemma wp_resume_point b (Q : W -> res Error Z -> Prop) w :
  BRel b = rel_of -> linkfree sd pd (view w) ->
  (forall w' r, r <> Panic -> evolves partial_paths way (view w) (view w') ->
     (forall z, r = Ok z -> is_u64 z /\ (z = 0 \/ (exists m d, view w' !! partP = Some (NFile m d) /\ z = len d) \/
        exists m, view w' !! partP = Some (NDir m))) ->
     Q w' r) ->
  wp (resume_point (native pd) b) Q w.
Proof.
  intros Hb Hl HQ. unfold resume_point, loadPartialMeta. rewrite Hb, meta_native, part_native.
  destruct (entries_ok _ Hl) as (_ & Hp & Hm & _). destruct (no_symlink _ TSymlink Hl) as (_ & _ & Hsm & _).
  assert (Hreset : forall w1, view w1 = view w ->
    wp (let* _ := clearPartial (native pd) rel_of in ret 0) Q w1).
  { intros w1 Hv. apply wp_bind, wp_clearPartial; [by rewrite Hv|]. intros w2 He. rewrite Hv in He.
    apply wp_ret, HQ; [done|done|]. intros z [= <-]. split; [done|]. by left. }
  apply wp_bind, wp_bind, wp_try, wp_call. intros w1 r1 E1. apply readfile_spec in E1 as [Hv1 Hr1]; [|done..].
  destruct r1 as [raw|e|]; [| |done].
  2: { wp_if; [by apply wp_ret, Hreset|]. apply wp_throw, HQ; [done|by apply evolves_eq|done]. }
  destruct (UnmarshalMeta raw) as [m|]; [|apply wp_throw, HQ; [done|by apply evolves_eq|done]].
  apply wp_ret. wp_if; [|by apply Hreset]. apply wp_bind, wp_try, wp_call. intros w2 r2 E2.
  unfold partP in E2. apply lstatsize_spec in E2 as [Hv2 Hr2]; [|by rewrite Hv1]. fold partP in Hr2. rewrite Hv1 in Hv2, Hr2.
  destruct r2 as [[i n]|e|]; [|by apply Hreset|done]. wp_if; [|by apply Hreset]. reflect_bools. subst n.
  apply wp_ret, HQ; [done|by apply evolves_eq|]. intros z [= <-]. split; [apply u64_range|]. right. rewrite Hv2.
  destruct Hr2 as (nd & Hnd & _ & Hn). destruct nd as [mm|mm d|t]; [right; eauto|left|by destruct (no_symlink _ t Hl) as (_ & ? & _)].
  exists mm, d. split; [done|]. destruct (Hn _ _ eq_refl) as [-> Hlt]. apply u64_small. unfold is_u64. pose proof (len_nonneg d). lia.
Qed.

Lemma created_part v v' cs x :
  created_dirs v v' (pd ++ ds) -> cs = (pd ++ ds) ++ [x] -> v' !! cs = v !! cs.
Proof.
  intros Hc ->. destruct (Hc ((pd ++ ds) ++ [x])) as [?|(_ & Hp & _)]; [done|].
  apply prefix_length in Hp. rewrite !length_app in Hp. cbn in Hp. lia.
Qed.

Lemma wp_open_partial start (Q : W -> res Error unit -> Prop) w :
  linkfree sd pd (view w) ->
  start = 0 \/ (exists m d, view w !! partP = Some (NFile m d) /\ start = len d) \/ (exists m, view w !! partP = Some (NDir m)) ->
  (forall w' r, r <> Panic -> evolves partial_paths way (view w) (view w') ->
     (r = Ok tt -> exists m d, view w' !! partP = Some (NFile m d) /\ len d = start) -> Q w' r) ->
  wp (open_partial (native partP) start) Q w.
Proof.
  intros Hl Hst HQ. unfold open_partial. rewrite Dir_part. destruct plain_way as [_ Hpw].
  apply wp_bind, wp_or_fail, wp_call. intros w1 r1 E1.
  apply mkdirall_spec in E1 as [Hc1 Hr1]; [|done|by apply (staging_nolink sd)].
  assert (He1 : evolves partial_paths way (view w) (view w1)) by (eapply mkdir_evolves; [exact Hc1|by left]).
  destruct r1 as [[]|e|]; cbn [map_err]; [|by apply HQ|done].
  assert (Hpk : view w1 !! partP = view w !! partP) by (by eapply created_part). rewrite <- Hpk in Hst.
  pose proof (linkfree_evolves _ _ _ _ _ _ He1 Hl) as Hl1. destruct (entries_ok _ Hl1) as (_ & Hp & _).
  assert (Hno : forall t, view w1 !! partP <> Some (NOther t)) by (intros t; by destruct (no_symlink _ t Hl1) as (_ & ? & _)).
  apply wp_bind, wp_or_fail, wp_call. intros w2 r2 E2. unfold partP in E2. apply openpart_spec in E2; [|done..]. fold partP in E2.
  destruct r2 as [[]|e|]; cbn [map_err]; [|apply HQ; [done|by rewrite E2|done]|done].
  destruct E2 as (m & d & Hv2 & Hd). assert (He2 : evolves partial_paths way (view w) (view w2)).
  { eapply evolves_trans; [exact He1|]. rewrite Hv2. apply evolves_insert. by right. }
  assert (Hlen : len d = start).
  { destruct Hst as [->|[(m' & d' & Hn & ->)|[m' Hn]]].
    - by destruct Hd as [[_ ->]|(m0 & d0 & _ & ->)].
    - rewrite Hn in Hd. destruct Hd as [[? _]|(m0 & d0 & [= <- <-] & ->)]; [done|].
      destruct (len d' =? 0) eqn:E0; [|done]. reflect_bools. by rewrite E0.
    - rewrite Hn in Hd. by destruct Hd as [[? _]|(m0 & d0 & ? & _)]. }
  assert (Hpart : exists m d, view w2 !! partP = Some (NFile m d) /\ len d = start)
    by (exists m, d; by rewrite Hv2, lookup_insert_eq).
  wp_if; [|by apply wp_ret, HQ]. apply wp_or_fail, wp_call. intros w3 r3 [Hv3 Hr3]%seekpart_spec.
  destruct r3 as [[]|e|]; cbn [map_err]; [| |done]; (apply HQ; [done| |]); rewrite ?Hv3; done.
Qed.

(** The verified partial file is moved, or copied, to its staged path. *)
Lemma wp_finalize mode (Q : W -> res Error unit -> Prop) w m d :
  linkfree sd pd (view w) -> view w !! partP = Some (NFile m d) ->
  (forall w' r, r <> Panic -> evolves transfer_paths way (view w) (view w') ->
     (r = Ok tt -> exists m', view w' !! finalP = Some (NFile m' d)) -> Q w' r) ->
  wp (finalize (native sd) (native pd) (native partP) rel_of mode) Q w.
Proof.
  intros Hl Hd HQ. unfold finalize. rewrite final_native, Dir_final. destruct plain_way as [Hsw _].
  apply wp_bind, wp_or_fail, wp_call. intros w1 r1 E1.
  apply mkdirall_spec in E1 as [Hc1 Hr1]; [|done|by apply (staging_nolink _ pd)].
  assert (He1 : evolves transfer_paths way (view w) (view w1)) by (eapply mkdir_evolves; [exact Hc1|by right]).
  destruct r1 as [[]|e|]; cbn [map_err]; [|by apply HQ|done].
  assert (Hd1 : view w1 !! partP = Some (NFile m d)).
  { destruct (Hc1 partP) as [->|(Hn & _)]; [done|congruence]. }
  pose proof (linkfree_evolves _ _ _ _ _ _ He1 Hl) as Hl1.
  destruct (entries_ok _ Hl1) as (Hf & Hp & _). destruct (no_symlink _ TSymlink Hl1) as (Hsf & Hsp & _).
  (* the tree once the staged file is there *)
  assert (Hend : forall w2, evolves transfer_paths way (view w) (view w2) -> (exists m', view w2 !! finalP = Some (NFile m' d)) ->
    wp (let* _ := clearPartial (native pd) rel_of in ignore (SyncDir (native (sd ++ ds)))) Q w2).
  { intros w2 He2 [m' Hfin]. apply wp_bind, wp_clearPartial; [by eapply linkfree_evolves|]. intros w3 He3.
    apply wp_ignore_any. intros w4 r4 [Hv4 Hr4]%syncdir_spec. split; [done|]. apply HQ; [done| |].
    - rewrite Hv4. eapply evolves_trans; [exact He2|]. eapply evolves_mono; [| |exact He3]; [|done]. by left.
    - intros _. exists m'. rewrite Hv4. eapply evolves_keep; [exact He3| |done]. intros Hx. by apply (partial_not_final _ Hx). }
  apply wp_bind, wp_try, wp_call. intros w2 r2 E2. unfold partP, finalP in E2.
  eapply rename_spec in E2; [|done|done|exact Hd1]. fold partP finalP in E2.
  destruct r2 as [[]|e|]; [| |done]; apply wp_bind.
  - assert (He2 : evolves transfer_paths way (view w) (view w2)).
    { eapply evolves_trans; [exact He1|]. rewrite E2. eapply evolves_trans; [apply evolves_delete; left; by right|apply evolves_insert; by right]. }
    assert (Hfin : view w2 !! finalP = Some (NFile m d)) by (by rewrite E2, lookup_insert_eq).
    apply wp_or_fail, wp_call. intros w3 r3 E3. unfold finalP in E3.
    eapply chmod_spec in E3; [|by eapply entries_ok, linkfree_evolves|exact Hfin]. fold finalP in E3.
    destruct r3 as [[]|e|]; cbn [map_err]; [|apply HQ; [done|by rewrite E3|done]|done].
    apply Hend; [|eexists; by rewrite E3, lookup_insert_eq].
    eapply evolves_trans; [exact He2|]. rewrite E3. apply evolves_insert. by right.
  - apply wp_bind, wp_or_fail, wp_call. intros w3 r3 E3. unfold partP in E3.
    apply readfile_spec in E3 as [Hv3 Hr3]; [|by rewrite E2..]. fold partP in Hr3. rewrite E2 in Hv3, Hr3.
    destruct r3 as [data|e'|]; cbn [map_err]; [|apply HQ; [done|by rewrite Hv3|done]|done].
    destruct Hr3 as [m3 Hr3]. assert (data = d) as -> by congruence.
    apply wp_bind, wp_or_fail, wp_call. intros w4 r4 E4. unfold finalP in E4.
    apply writefile_spec in E4; [|by rewrite Hv3..]. fold finalP in E4. rewrite Hv3 in E4.
    destruct r4 as [[]|e'|]; cbn [map_err]; [| |done].
    2: { apply HQ; [done| |done]. eapply evolves_trans; [exact He1|]. destruct E4 as [->|(m' & d' & ->)]; [apply evolves_refl|].
         apply evolves_insert. by right. }
    destruct E4 as [m4 E4]. assert (He4 : evolves transfer_paths way (view w) (view w4)).
    { eapply evolves_trans; [exact He1|]. rewrite E4. apply evolves_insert. by right. }
    apply wp_ignore_any. intros w5 r5 E5. unfold partP in E5.
    apply remove_spec in E5; [|by eapply entries_ok, linkfree_evolves]. fold partP in E5.
    assert (Hne : partP <> finalP) by (apply partial_not_final; by right).
    assert (Hw5 : r5 <> Panic /\ evolves transfer_paths way (view w) (view w5) /\ view w5 !! finalP = Some (NFile m4 d)).
    { destruct r5 as [[]|e'|]; [| |done]; rewrite E5, E4.
      - split_and!; [done| |by rewrite lookup_delete_ne, lookup_insert_eq by done].
        eapply evolves_trans; [exact He4|]. rewrite E4. apply evolves_delete. left. by right.
      - split_and!; [done| |by rewrite lookup_insert_eq]. by rewrite <- E4. }
    destruct Hw5 as (Hr5 & He5 & Hfin). split; [done|]. apply Hend; [done|by eexists].
Qed.

(** ** The operations of the store *)

Abbreviation World := (W * localStore)%type.

Lemma wp_fs {A} (k : io W Error A) (Q : World -> res Error A -> Prop) w s :
  wp k (fun w' r => Q (w', s) r) w -> wp (fs k) Q (w, s).
Proof. unfold wp, fs, on_fst. by destruct (k w). Qed.

Lemma wp_get (Q : World -> res Error localStore -> Prop) w s : Q (w, s) (Ok s) -> wp get Q (w, s).
Proof. done. Qed.
Lemma wp_put s' (Q : World -> res Error unit -> Prop) w s : Q (w, s') (Ok tt) -> wp (put s') Q (w, s).
Proof. done. Qed.

Definition staging_store (s : localStore) : Prop := stage s = native sd /\ partial s = native pd.

(** A transfer of this file is in progress: the partial file is open at its end,
    which is the offset that the next chunk must have. *)
Definition receiving (v : tree) (s : localStore) (d : bytes) : Prop :=
  staging_store s /\ active s = true /\ BRel (begin s) = rel_of /\ partPath s = native partP /\
  (exists m, v !! partP = Some (NFile m d)) /\ pf s = Some (len d) /\ off s = u64 (len d).

(** The staged file has the announced content. *)
Definition staged (v : tree) (b : fileBegin) : Prop :=
  exists m d, v !! finalP = Some (NFile m d) /\ SHA256 d = BDigest b.

Lemma wp_already_staged b (Q : W -> res Error bool -> Prop) w :
  linkfree sd pd (view w) ->
  (forall w' x, view w' = view w -> (x = true -> staged (view w) b) -> Q w' (Ok x)) ->
  wp (already_staged (native finalP) b) Q w.
Proof.
  intros Hl HQ. destruct (entries_ok _ Hl) as (Hf & _). apply wp_bind, wp_try, wp_call. intros w1 r1 E1. unfold finalP in E1.
  apply lstatsize_spec in E1 as [Hv1 Hr1]; [|done]. destruct r1 as [[i n]|e|]; [|by apply wp_ret, HQ|done].
  wp_if; [|by apply wp_ret, HQ]. apply wp_digest_is; [by rewrite Hv1|]. intros w2 x Hv2 Hx. apply HQ; [congruence|].
  rewrite Hv1 in Hx. exact Hx.
Qed.

(** The state before a transfer of this file. *)
Definition idle (v : tree) (s : localStore) : Prop :=
  staging_store s /\ active s = false /\ linkfree sd pd v.

Lemma wp_beginFile b (Q : World -> res Error Z -> Prop) w s :
  BRel b = rel_of -> idle (view w) s ->
  (forall w' s' r, r <> Panic -> evolves partial_paths way (view w) (view w') -> staging_store s' ->
     match r with
     | Ok z => active s' = false /\ z = BSize b /\ staged (view w') b \/
         exists d, receiving (view w') s' d /\ begin s' = b /\ z = len d
     | Err _ => active s' = false
     | Panic => False
     end -> Q (w', s') r) ->
  wp (beginFile b) Q (w, s).
Proof.
  intros Hb ([Hst Hpa] & Ha & Hl) HQ. apply wp_bind, wp_get. rewrite Ha. apply wp_bind, wp_put.
  rewrite Hst, Hb, final_native. assert (Hss : staging_store (set_last b s)) by (by split).
  apply wp_bind, wp_fs, wp_already_staged; [done|]. intros w1 x Hv1 Hx. destruct x.
  { apply wp_bind, wp_fs. change (partial (set_last b s)) with (partial s). rewrite Hpa.
    apply wp_clearPartial; [by rewrite Hv1|]. intros w2 He2. rewrite Hv1 in He2. apply wp_ret, HQ; [done|done|done|].
    left. split; [done|]. split; [done|]. destruct (Hx eq_refl) as (m & d & Hd & Hs). exists m, d. split; [|done].
    eapply evolves_keep; [exact He2| |done]. intros Hp. by apply (partial_not_final _ Hp). }
  apply wp_bind, wp_fs. change (partial (set_last b s)) with (partial s). rewrite Hpa.
  apply wp_resume_point; [done|by rewrite Hv1|]. intros w2 r2 Hr2 He2 Hz. rewrite Hv1 in He2.
  destruct r2 as [z|e|]; [|by apply HQ|done]. destruct (Hz z eq_refl) as [Hu Hz']. rewrite part_native.
  apply wp_bind, wp_fs, wp_open_partial; [by eapply linkfree_evolves|done|].
  intros w3 r3 Hr3 He3 Hp3. assert (He : evolves partial_paths way (view w) (view w3)) by (by eapply evolves_trans).
  destruct r3 as [[]|e|]; [|by apply HQ|done]. destruct (Hp3 eq_refl) as (m & d & Hd & Hlen).
  apply wp_bind, wp_put, wp_ret, HQ; [done..|]. right. exists d. split; [|done]. cbn.
  split_and!; try done; [by exists m|by rewrite Hlen|]. subst z. symmetry. by apply u64_small.
Qed.

Lemma splice_end d x : splice d (len d) x = d ++ x.
Proof.
  unfold splice. pose proof (len_nonneg x). rewrite take_ge by (unfold len; lia).
  rewrite drop_ge by (unfold len; lia). by rewrite app_nil_r.
Qed.

(** Changes beside the partial file keep the transfer. *)
Lemma receiving_evolves v v' s d : evolves resume_paths way v v' -> receiving v s d -> receiving v' s d.
Proof.
  intros He (? & ? & ? & ? & [m Hm] & ? & ?). split_and!; try done. exists m.
  eapply evolves_keep; [exact He| |done]. intros Hx. by apply (resume_not_part _ Hx).
Qed.

Lemma resume_partial v v' : evolves resume_paths way v v' -> evolves partial_paths way v v'.
Proof. apply evolves_mono; [by left|done]. Qed.

Lemma wp_persist s (Q : W -> res Error unit -> Prop) w :
  staging_store s -> BRel (begin s) = rel_of -> linkfree sd pd (view w) ->
  (forall w', evolves resume_paths way (view w) (view w') -> Q w' (Ok tt)) ->
  wp (ignore (writePartialMeta (partial s) (BRel (begin s)) (active_meta s))) Q w.
Proof.
  intros [_ Hp] Hb Hl HQ. rewrite Hp, Hb. apply wp_ignore, wp_writePartialMeta; [done|]. intros w' r Hr He.
  by destruct r; [apply HQ|apply HQ|].
Qed.

Lemma wp_writeChunk coff data (Q : World -> res Error unit -> Prop) w s d :
  receiving (view w) s d -> linkfree sd pd (view w) ->
  (forall w' s' r, r <> Panic -> evolves partial_paths way (view w) (view w') -> begin s' = begin s ->
     match r with
     | Ok _ => coff = off s /\ receiving (view w') s' (d ++ data)
     | Err _ => staging_store s'
     | Panic => False
     end -> Q (w', s') r) ->
  wp (writeChunk coff data) Q (w, s).
Proof.
  intros Hrec Hl HQ. pose proof Hrec as (Hst & Ha & Hb & Hpp & [m Hm] & Hpf & Hoff). unfold writeChunk.
  apply wp_bind, wp_get. rewrite Ha, Hpf. wp_if; [apply wp_throw, HQ; [done|apply evolves_refl|done|done]|]. reflect_bools. subst coff.
  destruct (entries_ok _ Hl) as (_ & Hp & _). apply wp_bind, wp_fs, wp_or_fail, wp_call. intros w1 r1 E1.
  rewrite Hpp in E1. unfold partP in E1. eapply writepart_spec in E1; [|done|exact Hm|pose proof (len_nonneg d); lia]. fold partP in E1.
  destruct r1 as [[n err]|e|]; cbn [map_err]; [|done..]. destruct E1 as (Hn & Herr & Hv1).
  assert (He1 : evolves partial_paths way (view w) (view w1)) by (rewrite Hv1; apply evolves_insert; by right).
  destruct err as [e|]; [by apply wp_bind, wp_put, wp_throw, HQ|]. rewrite (Herr eq_refl) in *.
  rewrite take_ge in Hv1 by (unfold len; lia). rewrite splice_end in Hv1. set (s1 := set_off _ _ s).
  assert (Hrec1 : receiving (view w1) s1 (d ++ data)).
  { split_and!; try done; cbn; [|by rewrite len_app|].
    - exists m. by rewrite Hv1, lookup_insert_eq.
    - rewrite Hoff, len_app. unfold u64. by rewrite Zplus_mod_idemp_l. }
  apply wp_bind, wp_put. wp_if; [|by apply wp_ret, HQ].
  apply wp_bind, wp_fs, wp_ignore_any. intros w2 r2 [Hv2 Hr2]%sync_spec. split; [done|].
  apply wp_fs, wp_persist; [done|done|rewrite Hv2; by eapply linkfree_evolves|]. intros w3 He3. rewrite Hv2 in He3.
  apply HQ; [done| |done|].
  - eapply evolves_trans; [exact He1|by apply resume_partial].
  - split; [done|]. by eapply receiving_evolves.
Qed.

Lemma wp_persistActive (Q : World -> res Error unit -> Prop) w s :
  staging_store s -> BRel (begin s) = rel_of -> linkfree sd pd (view w) ->
  (forall w', evolves resume_paths way (view w) (view w') -> Q (w', s) (Ok tt)) ->
  wp persistActive Q (w, s).
Proof.
  intros Hst Hb Hl HQ. unfold persistActive. apply wp_bind, wp_get.
  destruct (active s); [|apply wp_ret, HQ, evolves_refl]. destruct (pf s); [|apply wp_ret, HQ, evolves_refl].
  apply wp_bind, wp_fs, wp_persist; [done..|]. intros w1 He1. apply wp_fs, wp_ignore_any.
  intros w2 r2 [Hv2 Hr2]%sync_spec. split; [done|]. apply HQ. by rewrite Hv2.
Qed.

Lemma wp_endFile rel dig (Q : World -> res Error unit -> Prop) w s d :
  receiving (view w) s d -> linkfree sd pd (view w) ->
  (forall w' s' r, r <> Panic -> evolves transfer_paths way (view w) (view w') -> staging_store s' ->
     match r with
     | Ok _ => active s' = false /\ rel = rel_of /\ dig = SHA256 d /\ dig = BDigest (begin s) /\
         u64 (len d) = BSize (begin s) /\ exists m, view w' !! finalP = Some (NFile m d)
     | Err _ => True
     | Panic => False
     end -> Q (w', s') r) ->
  wp (endFile rel dig) Q (w, s).
Proof.
  intros (Hst & Ha & Hb & Hpp & [m Hm] & Hpf & Hoff) Hl HQ. unfold endFile.
  apply wp_bind, wp_get. rewrite Ha, Hpf. wp_if; [apply wp_throw, HQ; by try apply evolves_refl|]. reflect_bools.
  wp_if; [apply wp_throw, HQ; by try apply evolves_refl|]. reflect_bools.
  apply wp_bind, wp_fs, wp_or_fail, wp_call. intros w1 r1 [Hv1 Hr1]%sync_spec.
  destruct r1 as [[]|e|]; cbn [map_err]; [|apply HQ; [done|by apply evolves_eq|done..]|done].
  apply wp_bind, wp_fs, wp_or_fail, wp_call. intros w2 r2 [Hv2 Hr2]%close_spec. rewrite Hv1 in Hv2.
  destruct r2 as [[]|e|]; cbn [map_err]; [|apply HQ; [done|by apply evolves_eq|done..]|done].
  apply wp_bind, wp_put. cbn [set_pf partPath begin stage partial]. rewrite Hpp. destruct (entries_ok _ Hl) as (_ & Hp & _).
  apply wp_bind, wp_fs. unfold partP. apply wp_digest_is; [by rewrite Hv2|]. fold partP. intros w3 b Hv3 Hd3.
  rewrite Hv2 in Hv3, Hd3. destruct b; cbn [negb]; [|apply wp_throw, HQ; [done|by apply evolves_eq|done..]].
  destruct (Hd3 eq_refl) as (m' & d' & Hd' & Hsha). rewrite Hm in Hd'. injection Hd' as <- <-. destruct Hst as [Hs1 Hs2].
  apply wp_bind, wp_fs. rewrite Hs1, Hs2, Hb. eapply wp_finalize; [by rewrite Hv3|by rewrite Hv3|].
  intros w4 r4 Hr4 He4 Hf4. rewrite Hv3 in He4. destruct r4 as [[]|e|]; [|by apply HQ|done].
  apply wp_put, HQ; [done|done|by split|]. split_and!; try done; [congruence..|by apply Hf4].
Qed.

End Transfer.

(** ** Paths that leave the staging directory *)

(** A parent component removes the component before it. *)
Lemma clean_fold_up up : forall stack,
  Forall plain up -> fold_left (clean_step true) (replicate (length up) (str "..")) (rev up ++ stack) = stack.
Proof.
  induction up as [|c up IH] using rev_ind; intros stack Hp; [done|].
  apply Forall_app in Hp as [Hup Hc]. apply Forall_singleton in Hc as (_ & _ & Hc & _).
  rewrite length_app, Nat.add_comm, rev_app_distr. cbn [length Nat.add replicate rev app fold_left].
  assert (Hstep : clean_step true (c :: rev up ++ stack) (str "..") = rev up ++ stack).
  { unfold clean_step. change (bool_decide (str ".." = []) || bool_decide (str ".." = str ".")) with false.
    change (bool_decide (str ".." = str "..")) with true. cbv iota. by rewrite bool_decide_eq_false_2. }
  rewrite Hstep. apply IH, Hup.
Qed.

Lemma Join_up base up cs :
  Forall plain base -> Forall plain up -> Forall plain cs -> cs <> [] ->
  Join (native (base ++ up)) (join_slash (replicate (length up) (str "..") ++ cs)) = native (base ++ cs).
Proof.
  intros Hb Hu Hc Hne. set (parts := replicate (length up) (str "..") ++ cs).
  assert (Hns : Forall no_slash parts).
  { apply Forall_app; split; [apply Forall_replicate; repeat constructor; done|]. eapply Forall_impl; [exact Hc|apply plain_no_slash]. }
  destruct parts as [|p ps] eqn:Ep; [by apply app_eq_nil in Ep as [_ ?]|].
  change (Join (native (base ++ up)) (join_slash (p :: ps))) with (Clean (native (base ++ up) ++ slash :: join_slash (p :: ps))).
  unfold Clean. change (rooted (native (base ++ up) ++ _)) with true. unfold native at 2. do 2 f_equal. unfold clean_components.
  change (rooted (native (base ++ up) ++ _)) with true. rewrite Split_app, fold_left_app, Split_native. cbn [fold_left].
  change (clean_step true [] []) with (@nil bytes). rewrite (clean_fold_join true (base ++ up)) by (by apply Forall_app).
  unfold Split at 1. rewrite split_loop_join by done. cbn [app]. rewrite <- Ep. subst parts.
  rewrite fold_left_app, app_nil_r, rev_app_distr, clean_fold_up, clean_fold_plain by done.
  by rewrite rev_app_distr, !rev_involutive.
Qed.

(** A file message is written where its path says.  The store joins the
    staging directory and the relative path of a [fileWire] without checking the
    path: one that starts with as many parent components as there are directories
    in [up] names a file below [base], above the staging directory [base/up], and
    when the call succeeds that file has the content that the peer sent. *)
Lemma stageLegacy_escapes {W : Type} `{StagingLaws W} `{ErrorTexts} base up ds c fw (w w' : W) s s' :
  Forall plain base -> Forall plain up -> Forall plain ds -> plain c ->
  stage s = native (base ++ up) -> FRel fw = join_slash (replicate (length up) (str "..") ++ ds ++ [c]) ->
  nolink (view w) (base ++ ds) -> (forall t, view w !! (base ++ ds ++ [c]) <> Some (NOther t)) ->
  stageLegacy fw (w, s) = ((w', s'), Ok tt) ->
  s' = s /\ exists m, view w' !! (base ++ ds ++ [c]) = Some (NFile m (FData fw)).
Proof.
  intros Hb Hu Hd Hc Hs Hrel Hl Ho E.
  eapply (wp_run _ (fun ws r => r = Ok tt -> ws.2 = s /\ exists m, view ws.1 !! (base ++ ds ++ [c]) = Some (NFile m (FData fw)))
    _ (w', s')); [|exact E|done]. clear E.
  apply wp_bind, wp_get, wp_fs. unfold stage_file. rewrite Hs, Hrel, Join_up by (done || by apply plain_snoc || by destruct ds).
  rewrite app_assoc in *. assert (Hbd : Forall plain (base ++ ds)) by (by apply Forall_app). rewrite Dir_native by done.
  apply wp_bind, wp_or_fail, wp_call. intros w1 r1 E1. apply mkdirall_spec in E1 as [Hc1 Hr1]; [|done..].
  destruct r1 as [[]|e|]; cbn [map_err]; [|done..].
  assert (He1 : evolves (fun _ => False) (fun q => q `prefix_of` base ++ ds) (view w) (view w1)) by (by eapply evolves_created).
  assert (Hl1 : nolink (view w1) (base ++ ds)) by (by eapply evolves_nolink).
  apply wp_bind, wp_or_fail, wp_call. intros w2 r2 E2. apply writefile_spec in E2;
    [|done|intros Ho1; by apply (Ho TSymlink), He1].
  destruct r2 as [[]|e|]; cbn [map_err]; [|done..]. destruct E2 as [m E2].
  apply wp_bind. apply wp_digest_is.
  { split_and!; [done..|]. rewrite E2. intros p Hp. rewrite lookup_insert_ne; [by apply Hl1|]. intros <-. by apply prefix_snoc_not in Hp. }
  intros w3 b Hv3 _. wp_if; [by apply wp_throw|]. apply wp_ret. intros _. split; [done|]. exists m. cbn. by rewrite Hv3, E2, lookup_insert_eq.
Qed.

End RemoteStore.
