(* ===== verification/RemoteServe.v ===== *)
(** * A push session (internal/remotesync: transfer.go, serve.go, push.go)

    The two ends of the data plane over an established session ([Peer]): the
    sender cuts each file into chunks from the offset that the receiver
    acknowledges, the receiver feeds them to its store and commits at the end.
    [recvFileChunked_verified] says what a received file is,
    [sendFileChunked_covers] what a sent file is, and [serve_transfers_contained]
    that a session with proper paths changes nothing outside the staging directories
    before its commit. *)

From stdpp Require Import gmap.
From S2P Require Import Prelude Sha256 Codec Journal PathGrammar FilePath FileSystem.
From S2P Require Import LocalPayload LocalPlan LocalApply LocalScan LocalSession LocalSync LocalResume.
From S2P Require Import RemoteMessages RemoteWire RemoteStore.
Import Codec PathGrammar FilePath FileSystem LocalPlan LocalApply LocalSession LocalSync LocalResume.
Import RemoteMessages RemoteWire RemoteStore.

Module RemoteServe.

(** ** The session *)

(** [recvData] and [sendData] of an ACTIVE session. *)
Class Peer (W : Type) := {
  recvData : io W Error bytes;
  sendData : bytes -> io W Error unit }.

(** They work on the connection: the tree stays, and [delivered] and [sent] are the
    payloads that have crossed it.  A failed send may have been sent. *)
Class PeerLaws (W : Type) `{FileSystemLaws W} `{Peer W} := {
  delivered : W -> list bytes;
  sent : W -> list bytes;
  recv_spec w w' r :
    recvData w = (w', r) -> view w' = view w /\ sent w' = sent w /\ r <> Panic /\
    delivered w' = delivered w ++ match r with Ok p => [p] | _ => [] end;
  send_spec w w' r p :
    sendData p w = (w', r) -> view w' = view w /\ delivered w' = delivered w /\ r <> Panic /\
    (sent w' = sent w ++ [p] \/ sent w' = sent w /\ exists e, r = Err e) }.

(** ** Receiving (transfer.go, serve.go) *)

Section Receive.
Context {W : Type} `{FileSystem W} `{Staging W} `{Peer W} `{MetaJSON} `{ErrorTexts}.
Abbreviation IO := (io (W * localStore) Error).

(** A failed receive persists the resume point. *)
Definition recv_or_persist : IO bytes :=
  let* r := try (fs recvData) in
  match r with
  | inl raw => ret raw
  | inr e => let* _ := persistActive in throw e
  end.

(** The loop [for store.off < begin.Size]; [false] when [fuel] chunks were not
    enough.  A session admits a bounded number of messages, so a fuel exists. *)
Fixpoint recv_chunks (fuel : nat) (b : fileBegin) : IO bool :=
  match fuel with
  | O => ret false
  | S fuel =>
      let* s := get in
      if negb (off s <? BSize b) then ret true else
      let* raw := recv_or_persist in
      if bool_decide (head raw = Some msgFileEnd)
      then throw (fail KindProtocol (str "unexpected file end before size complete")) else
      let* (coff, data) := lift (decodeFileChunk raw) in
      let* _ := writeChunk coff data in
      recv_chunks fuel b
  end.

Definition recvFileChunked (fuel : nat) (b : fileBegin) : IO bool :=
  let* start := beginFile b in
  let* r := try (fs (sendData (encodeFileAck start))) in
  match r with
  | inr e => let* _ := persistActive in throw e
  | inl _ =>
      let* s := get in
      if negb (active s) then
        let* raw := fs recvData in
        let* (endRel, endDig) := lift (decodeFileEnd raw) in
        if negb (bool_decide (endRel = BRel b)) || negb (bool_decide (endDig = BDigest b))
        then throw (fail KindProtocol (str "file end mismatch")) else ret true
      else
      let* fin := recv_chunks fuel b in
      if negb fin then ret false else
      let* raw := recv_or_persist in
      let* (endRel, endDig) := lift (decodeFileEnd raw) in
      let* _ := endFile endRel endDig in
      ret true
  end.

Definition respondErr {A} (e : Error) : IO A :=
  let msg := take 1024 (error_text e) in
  let* _ := match encodeResult false msg with
    | Ok raw => ignore (fs (sendData raw))
    | _ => ret tt
    end in
  throw e.

(** [if err := c; err != nil { return respondErr(sess, err) }]. *)
Definition or_respond {A} (c : IO A) : IO A :=
  let* r := try c in
  match r with
  | inl a => ret a
  | inr e => respondErr e
  end.

(** One turn of the file loop of [serveSession]; [false] when the fuel ran out. *)
Definition serve_file (fuel : nat) : IO bool :=
  let* raw := recv_or_persist in
  if bool_decide (head raw = Some msgFile) then
    let* fw := or_respond (lift (decodeFile raw)) in
    let* _ := or_respond (stageLegacy fw) in
    ret true
  else
    let* b := or_respond (lift (decodeFileBegin raw)) in
    or_respond (recvFileChunked fuel b).

Fixpoint serve_files (n fuel : nat) : IO bool :=
  match n with
  | O => ret true
  | S n =>
      let* fin := serve_file fuel in
      if negb fin then ret false else serve_files n fuel
  end.

(** [serveSession] up to the commit message. *)
Definition serve_transfers (fuel : nat) : IO bool :=
  let* raw := fs recvData in
  let* entries := lift (decodeManifest raw) in
  let* _ := or_respond (prepareDirs entries) in
  let* _ := fs (sendData encodeManifestOK) in
  serve_files (Z.to_nat (file_count entries)) fuel.

(** [commit] is the store's commit. *)
Definition serveSession (commit : IO unit) (fuel : nat) : IO bool :=
  let* fin := serve_transfers fuel in
  if negb fin then ret false else
  let* raw := fs recvData in
  if negb (len raw =? 1) || negb (bool_decide (head raw = Some msgCommit))
  then throw (fail KindProtocol (str "expected commit")) else
  let* _ := or_respond commit in
  let* ok := lift (encodeResult true (str "ok")) in
  let* _ := fs (sendData ok) in
  ret true.

End Receive.

(** The commit synchronizes the staging tree to the destination with the journal
    enabled, then empties it.  The synchronization works on files and journal. *)
Section Commit.
Context {W J : Type} `{FileSystem W} `{Staging W} `{JournalSession J} `{PlanJSON} `{ErrorTexts}.

Definition commit_options (s : localStore) : Options W J :=
  mkOptions (stage s) (dest s) false None false [] (destMan s).

Definition commit (cwd : bytes) : io ((W * J) * localStore) Error unit :=
  let* s := get in
  if active s then throw (fail KindProtocol (str "commit with active file")) else
  let* r := fs (or_fail (Sync cwd (commit_options s)) (fun e => Foreign (local_text e))) in
  match r with
  | (_, Some e) => throw (wrap KindApply (str "localsync") (local_text e))
  | (_, None) =>
      let* _ := put (set_destMan None s) in
      let* _ := fs (ignore (RemoveAll (stage s))) in
      fs (ignore (MkdirAll (stage s) 0x1C0))
  end.

End Commit.

(** ** Sending (transfer.go) *)

Inductive readErr := EOF | ReadFailed (e : errno).

(** An open source file: its size, and [f.Read] at a position. *)
Class SourceFile (W : Type) := {
  OpenSource : bytes -> io W errno unit;
  StatSource : bytes -> io W errno Z;
  SeekSource : bytes -> Z -> io W errno unit;
  ReadAt : bytes -> Z -> Z -> io W errno (bytes * option readErr) }.

(** What [os] says of them.  A read of a regular file that is not at its end
    returns bytes, or an error; reading sends nothing. *)
Class SourceFileLaws (W : Type) `{FileSystemLaws W} `{Peer W} `{!PeerLaws W} `{SourceFile W} := {
  opensource_spec w w' r p : OpenSource p w = (w', r) -> view w' = view w /\ sent w' = sent w /\ r <> Panic;
  statsource_spec w w' r ds c :
    entry_at (view w) ds c -> StatSource (native (ds ++ [c])) w = (w', r) ->
    view w' = view w /\ sent w' = sent w /\
    match r with
    | Ok n => forall m d, view w !! (ds ++ [c]) = Some (NFile m d) -> n = len d /\ n < 2 ^ 63
    | Err _ => True
    | Panic => False
    end;
  seeksource_spec w w' r p n : SeekSource p n w = (w', r) -> view w' = view w /\ sent w' = sent w /\ r <> Panic;
  readat_spec w w' r ds c m d pos n :
    entry_at (view w) ds c -> view w !! (ds ++ [c]) = Some (NFile m d) ->
    0 <= pos -> 0 < n -> ReadAt (native (ds ++ [c])) pos n w = (w', r) ->
    view w' = view w /\ sent w' = sent w /\
    match r with
    | Ok (x, e) => len x <= n /\ x `prefix_of` drop (Z.to_nat pos) d /\ (e = None -> 0 < len x)
    | Err _ | Panic => False
    end;
  openread_silent w p : sent (OpenRead p w).1 = sent w;
  readall_silent w p : sent (ReadAll p w).1 = sent w }.

Section Send.
Context {W : Type} `{FileSystem W} `{Peer W} `{SourceFile W} `{ErrorTexts}.
Abbreviation IO := (io W Error).

(** [PushHooks.AfterChunk]. *)
Definition ChunkHook : Type := option (bytes -> Z -> option Error).

Definition about (msg : string) (rel : bytes) : bytes := str msg ++ rel.

(** The loop [for off < e.Size]: [pos] is the file position, [sent_] the count. *)
Fixpoint send_chunks (fuel : nat) (native_ rel : bytes) (size chunkSize off pos sent_ : Z) (hook : ChunkHook)
    : IO (option (Z * Z)) :=
  match fuel with
  | O => ret None
  | S fuel =>
      if negb (off <? size) then ret (Some (off, sent_)) else
      let* (buf, rerr) := or_fail (ReadAt native_ pos chunkSize) os_error in
      let* (off, sent_) :=
        if 0 <? len buf then
          let* chunk := lift (encodeFileChunk off buf) in
          let* _ := sendData chunk in
          let off := u64 (off + len buf) in
          let sent_ := i64 (sent_ + len buf) in
          let* _ := match hook with
            | Some f => match f rel off with Some e => throw e | None => ret tt end
            | None => ret tt
            end in
          ret (off, sent_)
        else ret (off, sent_) in
      match rerr with
      | Some EOF => ret (Some (off, sent_))
      | Some (ReadFailed e) => throw (wrap KindApply (about "read " rel) (os_text e))
      | None => send_chunks fuel native_ rel size chunkSize off (pos + len buf) sent_ hook
      end
  end.

Definition sendFileChunked (fuel : nat) (srcRoot : bytes) (e : Entry) (chunkSize : Z) (hook : ChunkHook)
    : IO (option Z) :=
  let chunkSize := if chunkSize <=? 0 then DefaultChunkSize else chunkSize in
  let native_ := Join srcRoot (ERel e) in
  let* _ := or_fail (OpenSource native_) (fun x => wrap KindApply (about "open " (ERel e)) (os_text x)) in
  let* size := or_fail (StatSource native_) (fun x => wrap KindApply (about "stat " (ERel e)) (os_text x)) in
  if negb (size =? ESize e) then throw (fail KindApply (about "size changed for " (ERel e))) else
  let* (dig, _) := or_fail (HashFile native_) (fun x => wrap KindApply (about "hash " (ERel e)) (local_text x)) in
  if negb (bool_decide (dig = EDigest e)) then throw (fail KindApply (about "content changed for " (ERel e))) else
  let usize := u64 (ESize e) in
  let* begin := lift (encodeFileBegin (ERel e) (EMode e) (EDigest e) usize) in
  let* _ := sendData begin in
  let* ackRaw := recvData in
  let* offset := lift (decodeFileAck ackRaw) in
  if usize <? offset then throw (fail KindProtocol (about "resume offset beyond size for " (ERel e))) else
  let* _ := or_fail (SeekSource native_ (i64 offset)) (fun x => wrap KindApply (about "seek " (ERel e)) (os_text x)) in
  let* r := send_chunks fuel native_ (ERel e) usize chunkSize offset offset 0 hook in
  match r with
  | None => ret None
  | Some (off, sent_) =>
      if negb (off =? usize) then throw (fail KindApply (about "short read for " (ERel e))) else
      let* end_ := lift (encodeFileEnd (ERel e) (EDigest e)) in
      let* _ := sendData end_ in
      ret (Some sent_)
  end.

(** ** Push (push.go), after the handshake; a failed push keeps its error only *)

Record PushResult := mkPush { Success : bool; FilesSent : Z; DirsSent : Z; BytesSent : Z; RemoteError : bytes }.

Fixpoint push_files (fuel : nat) (srcAbs : bytes) (es : list Entry) (chunkSize : Z) (hook : ChunkHook)
    (nfiles nbytes : Z) : IO (option (Z * Z)) :=
  match es with
  | [] => ret (Some (nfiles, nbytes))
  | e :: es =>
      if negb (is_file e) then push_files fuel srcAbs es chunkSize hook nfiles nbytes else
      let* n := sendFileChunked fuel srcAbs e chunkSize hook in
      match n with
      | None => ret None
      | Some n => push_files fuel srcAbs es chunkSize hook (nfiles + 1) (i64 (nbytes + n))
      end
  end.

Definition push_session (fuel : nat) (srcAbs : bytes) (man : Manifest) (chunkSize : Z) (hook : ChunkHook)
    : IO (option PushResult) :=
  let dirs := len (filter (fun e => bool_decide (EType e = EntryDir)) (Entries man)) in
  let* payload := lift (encodeManifest (Entries man)) in
  let* _ := sendData payload in
  let* ack := recvData in
  if negb (len ack =? 1) || negb (bool_decide (head ack = Some msgManifestOK))
  then throw (fail KindProtocol (str "manifest not acknowledged")) else
  let* r := push_files fuel srcAbs (Entries man) chunkSize hook 0 0 in
  match r with
  | None => ret None
  | Some (nfiles, nbytes) =>
      let* _ := sendData encodeCommit in
      let* raw := recvData in
      let* (ok, msg) := lift (decodeResult raw) in
      if negb ok then throw (fail KindApply (str "remote apply failed: " ++ msg))
      else ret (Some (mkPush true nfiles dirs nbytes []))
  end.

(** [Push] up to the connection: the source must be a real directory. *)
Definition push_scan (srcAbs : bytes) : IO Manifest :=
  let* fi := or_fail (Lstat srcAbs) (fun e => wrap KindInvalidArgument (str "source") (os_text e)) in
  if bool_decide (FileSystem.FType fi = TSymlink) || negb (bool_decide (FileSystem.FType fi = TDir))
  then throw (fail KindInvalidArgument (str "source must be a real directory")) else
  or_fail (LocalScan.Scan srcAbs) (fun e => wrap KindApply (str "scan") (local_text e)).

End Send.

(** ** Received files *)

Section Received.
Context {W : Type} `{StagingLaws W} `{Peer W} `{!PeerLaws W} `{MetaJSON} `{ErrorTexts}.
Context (sd pd : list bytes).
Hypothesis plain_sd : Forall plain sd.
Hypothesis plain_pd : Forall plain pd.
Hypothesis apart : ~ sd `prefix_of` pd /\ ~ pd `prefix_of` sd.

Section OneFile.
Context (ds : list bytes) (c : bytes).
Hypothesis plain_ds : Forall plain ds.
Hypothesis plain_c : plain c.

Abbreviation World := (W * localStore)%type.
Abbreviation recv_ok := (receiving sd pd ds c).
Abbreviation within := (evolves (partial_paths pd ds c) (way sd pd ds)).

Lemma wp_recv (Q : World -> res Error bytes -> Prop) w s :
  (forall w' r, view w' = view w -> r <> Panic -> Q (w', s) r) -> wp (fs recvData) Q (w, s).
Proof. intros HQ. apply wp_fs, wp_call. intros w' r (Hv & _ & Hr & _)%recv_spec. by apply HQ. Qed.

Lemma wp_send p (Q : World -> res Error unit -> Prop) w s :
  (forall w' r, view w' = view w -> r <> Panic -> Q (w', s) r) -> wp (fs (sendData p)) Q (w, s).
Proof. intros HQ. apply wp_fs, wp_call. intros w' r (Hv & _ & Hr & _)%send_spec. by apply HQ. Qed.

Lemma wp_recv_or_persist (Q : World -> res Error bytes -> Prop) w s :
  staging_store sd pd s -> BRel (begin s) = rel_of ds c -> linkfree sd pd (view w) ->
  (forall w' r, r <> Panic -> evolves (resume_paths pd ds c) (way sd pd ds) (view w) (view w') -> Q (w', s) r) ->
  wp recv_or_persist Q (w, s).
Proof.
  intros Hst Hb Hl HQ. apply wp_bind, wp_try, wp_recv. intros w1 r1 Hv1 Hr1.
  destruct r1 as [raw|e|]; [apply wp_ret, HQ; [done|by apply evolves_eq]| |done].
  apply wp_bind. apply (wp_persistActive sd pd ds c); [done..|by rewrite Hv1|]. intros w2 He. rewrite Hv1 in He. by apply wp_throw, HQ.
Qed.

Lemma receiving_store v s d : recv_ok v s d -> staging_store sd pd s /\ BRel (begin s) = rel_of ds c.
Proof. by intros (? & _ & ? & _). Qed.

Lemma wp_recv_chunks fuel b (Q : World -> res Error bool -> Prop) w s d :
  recv_ok (view w) s d -> begin s = b -> linkfree sd pd (view w) ->
  (forall w' s' r, r <> Panic -> within (view w) (view w') -> staging_store sd pd s' ->
     (r = Ok true -> exists d', recv_ok (view w') s' d' /\ begin s' = b /\ BSize b <= off s') -> Q (w', s') r) ->
  wp (recv_chunks fuel b) Q (w, s).
Proof.
  revert w s d. induction fuel as [|fuel IH]; intros w s d Hrec Hbg Hl HQ; cbn [recv_chunks];
    destruct (receiving_store _ _ _ Hrec) as [Hst Hb].
  { apply wp_ret, HQ; [done|apply evolves_refl|done|done]. }
  apply wp_bind, wp_get. wp_if.
  { apply wp_ret, HQ; [done|apply evolves_refl|done|]. intros _. exists d. reflect_bools. done. }
  apply wp_bind, wp_recv_or_persist; [done..|]. intros w1 r1 Hr1 He1. pose proof (resume_partial _ _ _ _ _ _ He1) as He1'.
  destruct r1 as [raw|e|]; [|by apply HQ|done]. wp_if; [by apply wp_throw, HQ|].
  apply wp_bind, wp_lift. pose proof (decodeFileChunk_inv raw) as Hd.
  destruct (decodeFileChunk raw) as [[coff data]|e|]; [|by apply HQ|done].
  pose proof (linkfree_evolves _ _ _ _ _ _ He1 Hl) as Hl1. apply wp_bind.
  eapply (wp_writeChunk sd pd ds c); [done..| |done|]; [by eapply receiving_evolves|].
  intros w2 s2 r2 Hr2 He2 Hb2 Hres. assert (He : within (view w) (view w2)) by (by eapply evolves_trans).
  destruct r2 as [[]|e|]; [|by apply HQ|done]. destruct Hres as [_ Hrec2].
  eapply IH; [exact Hrec2|congruence|by eapply linkfree_evolves|].
  intros w3 s3 r3 Hr3 He3 Hs3 Hok. apply HQ; [done|by eapply evolves_trans|done..].
Qed.

Lemma partial_transfer v v' : within v v' -> evolves (transfer_paths sd pd ds c) (way sd pd ds) v v'.
Proof. apply evolves_mono; [by left|done]. Qed.

Lemma wp_recvFileChunked fuel b (Q : World -> res Error bool -> Prop) w s :
  BRel b = rel_of ds c -> idle sd pd (view w) s ->
  (forall w' s' r, r <> Panic -> evolves (transfer_paths sd pd ds c) (way sd pd ds) (view w) (view w') ->
     staging_store sd pd s' -> (r = Ok true -> active s' = false /\ staged sd ds c (view w') b) -> Q (w', s') r) ->
  wp (recvFileChunked fuel b) Q (w, s).
Proof.
  intros Hb Hi HQ. pose proof Hi as (Hst & Ha & Hl). apply wp_bind. eapply (wp_beginFile sd pd ds c); [done..|].
  intros w1 s1 r1 Hr1 He1 Hst1 Hres. pose proof (linkfree_evolves _ _ _ _ _ _ He1 Hl) as Hl1.
  destruct r1 as [start|e|]; [|by apply HQ; [|apply partial_transfer| |]|done].
  apply wp_bind, wp_try, wp_send. intros w2 r2 Hv2 Hr2. destruct r2 as [[]|e|]; [| |done].
  2: { apply wp_bind. destruct Hres as [(Ha1 & _)|(d & Hrec & Hbg & _)].
       - unfold persistActive. apply wp_bind, wp_get. rewrite Ha1. apply wp_ret, wp_throw, HQ; [done| |done|done].
         rewrite Hv2. by apply partial_transfer.
       - destruct (receiving_store _ _ _ Hrec) as [_ Hb1].
         apply (wp_persistActive sd pd ds c); [done..|by rewrite Hv2|]. intros w3 He3. rewrite Hv2 in He3. apply wp_throw, HQ; [done| |done|done].
         apply partial_transfer. eapply evolves_trans; [exact He1|by apply resume_partial]. }
  apply wp_bind, wp_get. destruct Hres as [(Ha1 & -> & Hsd)|(d & Hrec & Hbg & ->)].
  - rewrite Ha1. cbn [negb]. apply wp_bind, wp_recv. intros w3 r3 Hv3 Hr3. rewrite Hv2 in Hv3.
    assert (He3 : evolves (transfer_paths sd pd ds c) (way sd pd ds) (view w) (view w3)) by (rewrite Hv3; by apply partial_transfer).
    destruct r3 as [raw|e|]; [|by apply HQ|done]. apply wp_bind, wp_lift. pose proof (decodeFileEnd_inv raw) as Hd.
    destruct (decodeFileEnd raw) as [[er ed]|e|]; [|by apply HQ|done]. wp_if; [by apply wp_throw, HQ|].
    apply wp_ret, HQ; [done..|]. rewrite Hv3. auto.
  - pose proof Hrec as (_ & Ha1 & _). rewrite Ha1. cbn [negb]. rewrite <- Hv2 in Hrec, He1, Hl1.
    apply wp_bind. eapply wp_recv_chunks; [exact Hrec|done|done|]. intros w3 s3 r3 Hr3 He3 Hst3 Hok.
    assert (He : within (view w) (view w3)) by (by eapply evolves_trans).
    destruct r3 as [fin|e|]; [|by apply HQ; [|apply partial_transfer| |]|done].
    destruct fin; cbn [negb]; [|by apply wp_ret, HQ; [|apply partial_transfer| |]].
    destruct (Hok eq_refl) as (d' & Hrec3 & Hbg3 & _). destruct (receiving_store _ _ _ Hrec3) as [_ Hb3].
    pose proof (linkfree_evolves _ _ _ _ _ _ He Hl) as Hl3.
    apply wp_bind, wp_recv_or_persist; [done..|]. intros w4 r4 Hr4 He4.
    assert (He' : within (view w) (view w4)) by (eapply evolves_trans; [exact He|by apply resume_partial]).
    destruct r4 as [raw|e|]; [|by apply HQ; [|apply partial_transfer| |]|done]. apply wp_bind, wp_lift.
    pose proof (decodeFileEnd_inv raw) as Hd. destruct (decodeFileEnd raw) as [[er ed]|e|]; [|by apply HQ; [|apply partial_transfer| |]|done].
    apply wp_bind. eapply (wp_endFile sd pd ds c); [done..| | |].
    { by eapply receiving_evolves. } { by eapply linkfree_evolves. }
    intros w5 s5 r5 Hr5 He5 Hst5 Hok5.
    assert (He6 : evolves (transfer_paths sd pd ds c) (way sd pd ds) (view w) (view w5)).
    { eapply evolves_trans; [by apply partial_transfer|done]. }
    destruct r5 as [[]|e|]; [|by apply HQ|done]. destruct Hok5 as (Ha5 & _ & Hsha & Hdig & _ & m & Hfin).
    apply wp_ret, HQ; [done..|]. intros _. split; [done|]. exists m, d'. split; [done|]. congruence.
Qed.

End OneFile.

(** C15. A received file is the announced file.  For a relative path of proper components
    and staging directories without links ([idle]), whatever else the peer sends and
    whatever calls fail: when the receipt of a file reports success, the staging
    directory holds at its relative path a regular file whose content has the
    announced SHA-256, received now or already there; and in every case nothing
    has changed but that path, the partial file and the resume point, and missing
    directories on the way to them. *)
Theorem recvFileChunked_verified ds c fuel b w s w' s' r :
  Forall plain ds -> plain c -> BRel b = rel_of ds c -> idle sd pd (view w) s ->
  recvFileChunked fuel b (w, s) = ((w', s'), r) ->
  evolves (transfer_paths sd pd ds c) (way sd pd ds) (view w) (view w') /\ r <> Panic /\
  (r = Ok true -> active s' = false /\ staged sd ds c (view w') b).
Proof.
  intros Hds Hc Hb Hi E. eapply (wp_run _ (fun ws r =>
    evolves (transfer_paths sd pd ds c) (way sd pd ds) (view w) (view ws.1) /\ r <> Panic /\
    (r = Ok true -> active ws.2 = false /\ staged sd ds c (view ws.1) b)) _ (w', s')); [|exact E].
  apply (wp_recvFileChunked ds c); [done..|]. intros w1 s1 r1 Hr He _ Hok. done.
Qed.

(** ** Whole sessions *)

(** A relative path made of proper components. *)
Definition proper (rel : bytes) : Prop := exists ds c, Forall plain ds /\ plain c /\ rel = rel_of ds c.

(** What an honest sender's messages name. *)
Definition proper_message (p : bytes) : Prop :=
  (forall b, decodeFileBegin p = Ok b -> proper (BRel b)) /\
  (forall fw, decodeFile p = Ok fw -> proper (FRel fw)) /\
  (forall es e, decodeManifest p = Ok es -> e ∈ es -> EType e = EntryDir -> proper (ERel e)).

Definition staging_area (q : list bytes) : Prop := sd `prefix_of` q \/ pd `prefix_of` q.
Definition above_staging (q : list bytes) : Prop := q `prefix_of` sd \/ q `prefix_of` pd.
Abbreviation contained := (evolves staging_area above_staging).

Lemma evolves_contained (X D : list bytes -> Prop) v v' :
  (forall q, X q -> staging_area q) -> (forall q, D q -> staging_area q \/ above_staging q) ->
  evolves X D v v' -> contained v v'.
Proof.
  intros HX HD He q. destruct (He q) as [Hq Ho]. split; [|done].
  destruct Hq as [?|[?|(Hn & Hd & Hm)]]; [by left|right; left; by apply HX|].
  destruct (HD _ Hd); [right; by left|right; right; done].
Qed.

Lemma way_area ds q : way sd pd ds q -> staging_area q \/ above_staging q.
Proof.
  intros [Hq|Hq].
  - destruct (prefix_weak_total q pd (pd ++ ds) Hq) as [?|?]; [by apply prefix_app_r|right; by right|left; by right].
  - destruct (prefix_weak_total q sd (sd ++ ds) Hq) as [?|?]; [by apply prefix_app_r|right; by left|left; by left].
Qed.

Lemma transfer_contained ds c v v' :
  evolves (transfer_paths sd pd ds c) (way sd pd ds) v v' -> contained v v'.
Proof.
  apply evolves_contained; [|apply way_area].
  unfold transfer_paths, partial_paths, resume_paths, staging_area, metaP, tmpP, partP, finalP.
  intros q [[[->| ->]| ->]| ->]; rewrite <- app_assoc; [right..|left]; by apply prefix_app_r.
Qed.

Lemma linkfree_contained v v' : contained v v' -> linkfree sd pd v -> linkfree sd pd v'.
Proof. apply linkfree_evolves. Qed.

(** Changes in the staging tree alone, with directories on the way. *)
Abbreviation stages := (evolves (fun q => sd `prefix_of` q) (fun q => staging_area q \/ above_staging q)).

Lemma stages_contained v v' : stages v v' -> contained v v'.
Proof. apply evolves_contained; [by left|done]. Qed.

Lemma linkfree_stages v v' : stages v v' -> linkfree sd pd v -> linkfree sd pd v'.
Proof. apply linkfree_evolves. Qed.

Lemma mkdir_stages ds v v' cs : created_dirs v v' cs -> cs = pd ++ ds \/ cs = sd ++ ds -> stages v v'.
Proof. intros Hc Hcs. eapply evolves_mono; [| |by eapply mkdir_evolves]; [done|apply way_area]. Qed.

Lemma wp_stage_file fw (Q : W -> res Error unit -> Prop) w :
  proper (FRel fw) -> linkfree sd pd (view w) ->
  (forall w' r, r <> Panic -> stages (view w) (view w') -> Q w' r) ->
  wp (stage_file (native sd) fw) Q w.
Proof.
  intros (ds & c & Hds & Hc & Hrel) Hl HQ. unfold stage_file. rewrite Hrel. change (Join (native sd) (rel_of ds c)) with (finalStagePath (native sd) (rel_of ds c)).
  rewrite (final_native sd), (Dir_final sd pd) by done. destruct (plain_way sd pd ds) as [Hsw _]; [done..|].
  apply wp_bind, wp_or_fail, wp_call. intros w1 r1 E1.
  apply mkdirall_spec in E1 as [Hc1 Hr1]; [|done|by apply (staging_nolink _ pd)].
  assert (He1 : stages (view w) (view w1)) by (eapply mkdir_stages; [exact Hc1|by right]).
  destruct r1 as [[]|e|]; cbn [map_err]; [|by apply HQ|done]. pose proof (linkfree_stages _ _ He1 Hl) as Hl1.
  destruct (entries_ok sd pd ds c plain_sd plain_pd Hds Hc _ Hl1) as (Hf & _).
  destruct (no_symlink sd pd ds c _ TSymlink Hl1) as (Hs & _).
  apply wp_bind, wp_or_fail, wp_call. intros w2 r2 E2. unfold finalP in E2. apply writefile_spec in E2; [|done..]. fold (finalP sd ds c) in E2.
  assert (Hin : forall m d, stages (view w) (<[finalP sd ds c := NFile m d]> (view w1))).
  { intros m d. eapply evolves_trans; [exact He1|]. apply evolves_insert. unfold finalP. rewrite <- app_assoc. by apply prefix_app_r. }
  destruct r2 as [[]|e|]; cbn [map_err]; [| |done].
  2: { apply HQ; [done|]. destruct E2 as [->|(m' & d' & ->)]; [done|apply Hin]. }
  destruct E2 as [m E2]. apply wp_bind. unfold finalP. apply wp_digest_is.
  { apply (entries_ok sd pd ds c); [done..|]. eapply linkfree_stages; [|exact Hl]. rewrite E2. apply Hin. }
  intros w3 b Hv3 _. wp_if; [apply wp_throw, HQ|apply wp_ret, HQ]; (done || (rewrite Hv3, E2; apply Hin)).
Qed.

Lemma wp_prepare_loop es (Q : W -> res Error unit -> Prop) w :
  (forall e, e ∈ es -> EType e = EntryDir -> proper (ERel e)) -> linkfree sd pd (view w) ->
  (forall w' r, r <> Panic -> stages (view w) (view w') -> Q w' r) ->
  wp (prepare_loop (native sd) es) Q w.
Proof.
  revert w. induction es as [|e es IH]; intros w Hp Hl HQ; cbn [prepare_loop].
  { apply wp_ret, HQ; [done|apply evolves_refl]. }
  wp_if; [apply IH; [|done..]; intros x Hx; apply Hp; by right|]. reflect_bools.
  destruct (Hp e) as (ds & c & Hds & Hc & Hrel); [by left|done|]. rewrite Hrel. unfold rel_of.
  assert (Hcs : Forall plain (ds ++ [c])) by (by apply plain_snoc). rewrite Join_rel by done.
  apply wp_bind, wp_or_fail, wp_call. intros w1 r1 E1.
  apply mkdirall_spec in E1 as [Hc1 Hr1]; [|by apply Forall_app|by apply (staging_nolink _ pd)].
  assert (He1 : stages (view w) (view w1)) by (eapply mkdir_stages; [exact Hc1|by right]).
  destruct r1 as [[]|e'|]; cbn [map_err]; [|by apply HQ|done].
  apply IH; [intros x Hx; apply Hp; by right|by eapply linkfree_stages|].
  intros w2 r2 Hr2 He2. apply HQ; [done|]. by eapply evolves_trans.
Qed.

Hypothesis proper_peer : forall w w' p, recvData w = (w', Ok p) -> proper_message p.

Abbreviation World := (W * localStore)%type.

(** A step of the session: contained, and between files the store is idle. *)
Definition kept (w0 : W) (ws : World) (r : res Error bool) : Prop :=
  contained (view w0) (view ws.1) /\ r <> Panic /\ (r = Ok true -> idle sd pd (view ws.1) ws.2).

Lemma wp_respondErr {A} e (Q : World -> res Error A -> Prop) w s :
  (forall w' r, view w' = view w -> (exists e, r = Err e) -> Q (w', s) r) -> wp (respondErr e) Q (w, s).
Proof.
  intros HQ. unfold respondErr. apply wp_bind. destruct (encodeResult _ _) as [raw|e'|].
  - apply wp_ignore, wp_send. intros w1 r1 Hv Hr. destruct r1; [..|done]; apply wp_throw, HQ; eauto.
  - apply wp_ret, wp_throw, HQ; eauto.
  - apply wp_ret, wp_throw, HQ; eauto.
Qed.

Lemma wp_or_respond {A} (k : io World Error A) (Q : World -> res Error A -> Prop) w s :
  wp k (fun ws r => forall w', view w' = view ws.1 -> (forall a, r = Ok a -> w' = ws.1) ->
    match r with Panic => Q ws Panic | Ok a => Q ws (Ok a) | Err _ => forall e, Q (w', ws.2) (Err e) end) (w, s) ->
  wp (or_respond k) Q (w, s).
Proof.
  intros Hk. apply wp_bind, wp_try. eapply wp_mono; [exact Hk|]. intros [w1 s1] r Hr. cbn in *. destruct r as [a|e|].
  - apply wp_ret. by apply (Hr w1).
  - apply wp_respondErr. intros w2 r2 Hv [e' ->]. by apply Hr.
  - by apply (Hr w1).
Qed.

(** The messages of the peer, with what they name. *)
Lemma wp_recv_proper (Q : World -> res Error bytes -> Prop) w s :
  (forall w' r, view w' = view w -> r <> Panic -> (forall p, r = Ok p -> proper_message p) -> Q (w', s) r) ->
  wp (fs recvData) Q (w, s).
Proof.
  intros HQ. apply wp_fs, wp_call. intros w' r E. pose proof E as (Hv & _ & Hr & _)%recv_spec.
  apply HQ; [done..|]. intros p ->. by eapply proper_peer.
Qed.

Lemma idle_persist (Q : World -> res Error unit -> Prop) w s :
  idle sd pd (view w) s -> Q (w, s) (Ok tt) -> wp persistActive Q (w, s).
Proof. intros (_ & Ha & _) HQ. unfold persistActive. apply wp_bind, wp_get. by rewrite Ha. Qed.

Lemma wp_serve_file fuel w s : idle sd pd (view w) s -> wp (serve_file fuel) (kept w) (w, s).
Proof.
  intros Hi. pose proof Hi as ([Hs Hpa] & Ha & Hl). unfold serve_file, recv_or_persist. apply wp_bind, wp_bind, wp_try, wp_recv_proper.
  intros w1 r1 Hv1 Hr1 Hp1. assert (Hi1 : idle sd pd (view w1) s) by (by rewrite Hv1).
  assert (Hc1 : contained (view w) (view w1)) by (by apply evolves_eq).
  destruct r1 as [raw|e|]; [| |done].
  2: { apply wp_bind, idle_persist; [done|]. apply wp_throw. split_and!; done. }
  apply wp_ret. destruct (Hp1 raw eq_refl) as (Hpb & Hpf & _).
  assert (Hbad : forall w' e, view w' = view w1 -> kept w (w', s) (Err e)).
  { intros w' e Hv. split_and!; [|done..]. cbn. rewrite Hv. done. }
  wp_if.
  - apply wp_bind, wp_or_respond, wp_lift. intros w' Hv' _. pose proof (decodeFile_inv raw) as Hd.
    destruct (decodeFile raw) as [fw|e|]; [| |done].
    2: { intros e'. by apply Hbad. }
    apply wp_bind, wp_or_respond, wp_bind, wp_get, wp_fs. rewrite Hs. apply wp_stage_file; [by apply Hpf|by rewrite Hv1|].
    intros w2 r2 Hr2 He2%stages_contained w3 Hv3 Hw3. rewrite Hv1 in He2. cbn in Hv3. destruct r2 as [[]|e|]; [| |done].
    + apply wp_ret. split_and!; [done|done|]. intros _. split_and!; [done..|]. by eapply linkfree_contained.
    + intros e'. split_and!; [|done..]. cbn. by rewrite Hv3.
  - apply wp_bind, wp_or_respond, wp_lift. intros w' Hv' _. pose proof (decodeFileBegin_inv raw) as Hd.
    destruct (decodeFileBegin raw) as [b|e|]; [| |done].
    2: { intros e'. by apply Hbad. }
    destruct (Hpb b eq_refl) as (ds & c & Hds & Hc & Hrel).
    apply wp_or_respond, (wp_recvFileChunked ds c); [done..|]. intros w2 s2 r2 Hr2 He2%transfer_contained Hs2 Hok w3 Hv3 _.
    rewrite Hv1 in He2. cbn in Hv3. destruct r2 as [fin|e|]; [| |done].
    + split_and!; [done|done|]. intros E. destruct (Hok E) as [Ha2 _]. split_and!; [done..|]. by eapply linkfree_contained.
    + intros e'. split_and!; [|done..]. cbn. by rewrite Hv3.
Qed.

Lemma wp_serve_files n fuel w s : idle sd pd (view w) s -> wp (serve_files n fuel) (kept w) (w, s).
Proof.
  revert w s. induction n as [|n IH]; intros w s Hi; cbn [serve_files].
  { apply wp_ret. split_and!; [apply evolves_refl|done|done]. }
  apply wp_bind. eapply wp_mono; [by apply wp_serve_file|]. intros [w1 s1] r1 (Hc1 & Hr1 & Hok1). cbn in *.
  destruct r1 as [fin|e|]; [|by split_and!|done]. destruct fin; cbn [negb]; [|apply wp_ret; by split_and!].
  eapply wp_mono; [by apply IH, Hok1|]. intros [w2 s2] r2 (Hc2 & Hr2 & Hok2). cbn in *.
  split_and!; [by eapply evolves_trans|done..].
Qed.

(** C20. A session keeps to its staging directories.  When the peer names only
    relative paths of proper components, everything the serving side does before
    the commit (directories, files in one message, chunked files, resume points),
    whatever fails and wherever it stops, changes nothing outside the two staging
    directories but missing directories above them; and no call panics. *)
Theorem serve_transfers_contained fuel w s w' s' r :
  idle sd pd (view w) s -> serve_transfers fuel (w, s) = ((w', s'), r) ->
  contained (view w) (view w') /\ r <> Panic.
Proof.
  intros Hi E. assert (Hk : wp (serve_transfers fuel) (kept w) (w, s)).
  2: { by destruct (wp_run _ _ _ _ _ Hk E) as (? & ? & _). }
  clear E. pose proof Hi as ([Hs Hpa] & Ha & Hl). unfold serve_transfers. apply wp_bind, wp_recv_proper.
  intros w1 r1 Hv1 Hr1 Hp1. assert (Hc1 : contained (view w) (view w1)) by (by apply evolves_eq).
  destruct r1 as [raw|e|]; [|by split_and!|done]. destruct (Hp1 raw eq_refl) as (_ & _ & Hpm).
  apply wp_bind, wp_lift. pose proof (decodeManifest_inv raw) as Hd. destruct (decodeManifest raw) as [es|e|]; [|by split_and!|done].
  apply wp_bind, wp_or_respond, wp_bind, wp_get, wp_fs. rewrite Hs. apply wp_prepare_loop; [by intros e; apply Hpm|by rewrite Hv1|].
  intros w2 r2 Hr2 He2%stages_contained w3 Hv3 Hw3. rewrite Hv1 in He2. cbn in Hv3. destruct r2 as [[]|e|]; [| |done].
  2: { intros e'. split_and!; [|done..]. cbn. by rewrite Hv3. }
  apply wp_bind, wp_send. intros w4 r4 Hv4 Hr4. assert (Hc4 : contained (view w) (view w4)) by (by rewrite Hv4).
  destruct r4 as [[]|e|]; [|by split_and!|done].
  eapply wp_mono; [apply wp_serve_files; split_and!; [done..|by eapply linkfree_contained]|].
  intros [w5 s5] r5 (Hc5 & Hr5 & Hok5). cbn in *. split_and!; [by eapply evolves_trans|done..].
Qed.

End Received.

(** ** Sent files *)

(** The messages of consecutive chunks. *)
Fixpoint chunk_messages (off : Z) (xs : list bytes) : list bytes :=
  match xs with
  | [] => []
  | x :: xs => chunk_bytes off x :: chunk_messages (off + len x) xs
  end.

Lemma encodeFileChunk_ok off data raw : encodeFileChunk off data = Ok raw -> raw = chunk_bytes off data.
Proof.
  intros E. destruct (decide (13 + len data <= protocolMaxBodyUseful)) as [Hl|Hl].
  - rewrite encodeFileChunk_bytes in E by done. by injection E.
  - unfold encodeFileChunk in E. cbv zeta in E. change (1 + 8 + 4) with 13 in E.
    by rewrite (proj2 (Z.ltb_lt _ _)) in E by lia.
Qed.

Lemma long_string b s : ~ wf_string s -> forall r, appendString b s <> Ok r.
Proof.
  intros Hs r. unfold appendString, wf_string in *. by rewrite (proj2 (Z.ltb_lt _ _)) by lia.
Qed.

Lemma encodeFileBegin_ok b raw :
  encodeFileBegin (BRel b) (BMode b) (BDigest b) (BSize b) = Ok raw -> raw = begin_bytes b.
Proof.
  intros E. destruct (decide (len (BRel b) <= 65535)) as [Hl|Hl].
  - rewrite encodeFileBegin_bytes in E by done. by injection E.
  - unfold encodeFileBegin in E. destruct (appendString _ _) eqn:Ea; [|done..]. by eapply long_string in Ea.
Qed.

Lemma encodeFileEnd_ok rel dig raw : encodeFileEnd rel dig = Ok raw -> raw = end_bytes rel dig.
Proof.
  intros E. destruct (decide (len rel <= 65535)) as [Hl|Hl].
  - rewrite encodeFileEnd_bytes in E by done. by injection E.
  - unfold encodeFileEnd in E. destruct (appendString _ _) eqn:Ea; [|done..]. by eapply long_string in Ea.
Qed.

Section Sent.
Context {W : Type} `{SourceFileLaws W} `{ErrorTexts}.
Context (ds : list bytes) (c : bytes).

Lemma hash_silent p w : sent (HashFile p w).1 = sent w.
Proof.
  unfold HashFile, io_bind, or_fail. pose proof (openread_silent w p). destruct (OpenRead p w) as [w1 [i|e|]]; cbn in *; [|done..].
  case_match; [done|]. pose proof (readall_silent w1 p). destruct (ReadAll p w1) as [w2 [d|e|]]; cbn in *; congruence.
Qed.

Lemma wp_hash_silent (Q : W -> res LocalPayload.Error (bytes * Z) -> Prop) w :
  entry_at (view w) ds c ->
  (forall w' r, view w' = view w -> sent w' = sent w ->
     match r with
     | Ok (h, n) => exists m d, view w !! (ds ++ [c]) = Some (NFile m d) /\ h = SHA256 d /\ n = len d
     | Err _ => True
     | Panic => False
     end -> Q w' r) ->
  wp (HashFile (native (ds ++ [c]))) Q w.
Proof.
  intros He HQ. pose proof (hash_silent (native (ds ++ [c])) w) as Hs. apply wp_call. intros w' r E. rewrite E in Hs.
  
  assert (Hw : wp (HashFile (native (ds ++ [c]))) (fun w' r => view w' = view w /\ match r with
     | Ok (h, n) => exists m d, view w !! (ds ++ [c]) = Some (NFile m d) /\ h = SHA256 d /\ n = len d
     | Err _ => True
     | Panic => False
     end) w) by (apply wp_HashFile; [done|]; by intros).
  destruct (wp_run _ _ _ _ _ Hw E). by apply HQ.
Qed.

(** What has been sent from an offset on: chunks that follow one another, in the
    order of the file. *)
Definition sent_from (d : bytes) (l l' : list bytes) (off off' : Z) : Prop :=
  exists xs, l' = l ++ chunk_messages off xs /\ off' = off + len (concat xs) /\ concat xs `prefix_of` drop (Z.to_nat off) d.

Lemma chunk_messages_app off xs ys :
  chunk_messages off (xs ++ ys) = chunk_messages off xs ++ chunk_messages (off + len (concat xs)) ys.
Proof.
  revert off. induction xs as [|x xs IH]; intros off; cbn [app chunk_messages concat]; [by rewrite len_nil, Z.add_0_r|].
  rewrite IH, len_app. do 2 f_equal. f_equal. lia.
Qed.

Lemma sent_from_refl d l off : sent_from d l l off off.
Proof. exists []. cbn. rewrite app_nil_r, len_nil. split_and!; [done|lia|apply prefix_nil]. Qed.

Lemma sent_from_trans d l1 l2 l3 o1 o2 o3 :
  0 <= o1 -> sent_from d l1 l2 o1 o2 -> sent_from d l2 l3 o2 o3 -> sent_from d l1 l3 o1 o3.
Proof.
  intros Ho (xs & -> & -> & Hx) (ys & -> & -> & Hy). exists (xs ++ ys).
  rewrite chunk_messages_app, concat_app, len_app. split_and!; [by rewrite app_assoc|lia|].
  destruct Hx as [t Ht]. rewrite Ht. apply prefix_app. pose proof (len_nonneg (concat xs)).
  rewrite Z2Nat.inj_add, <- drop_drop, Ht in Hy by lia. rewrite drop_app_length' in Hy; [done|]. unfold len. lia.
Qed.

Lemma sent_one d l off x : x `prefix_of` drop (Z.to_nat off) d -> sent_from d l (l ++ [chunk_bytes off x]) off (off + len x).
Proof. intros Hx. exists [x]. cbn. by rewrite app_nil_r. Qed.

Lemma wp_send_chunks fuel rel size chunkSize off sent_ hook m d (Q : W -> res Error (option (Z * Z)) -> Prop) w :
  entry_at (view w) ds c -> view w !! (ds ++ [c]) = Some (NFile m d) -> size = len d -> size < 2 ^ 63 ->
  0 < chunkSize -> 0 <= off <= size -> 0 <= sent_ <= off ->
  (forall w' r, r <> Panic -> view w' = view w ->
     (r = Ok None -> Z.of_nat fuel <= size - off) ->
     (forall off' n, r = Ok (Some (off', n)) -> n - sent_ = off' - off /\ sent_from d (sent w) (sent w') off off') -> Q w' r) ->
  wp (send_chunks fuel (native (ds ++ [c])) rel size chunkSize off off sent_ hook) Q w.
Proof.
  intros He Hd Hsz Hmax Hcs. revert off sent_ w He Hd Q.
  induction fuel as [|fuel IH]; intros off sent_ w He Hd Q Hoff Hs0 HQ; cbn [send_chunks].
  { apply wp_ret, HQ; [done..|lia|done]. }
  wp_if; reflect_bools.
  { apply wp_ret, HQ; [done..|]. intros off' n [= <- <-]. split; [lia|apply sent_from_refl]. }
  apply wp_bind, wp_or_fail, wp_call. intros w1 r1 E1. eapply readat_spec in E1; [|done|exact Hd|lia|done].
  destruct E1 as (Hv1 & Hs1 & Hr1). destruct r1 as [[x rerr]|e|]; cbn [map_err]; [|done..].
  destruct Hr1 as (Hx & Hpre & Hne). pose proof (len_nonneg x).
  assert (Hlen : len x <= size - off).
  { apply prefix_length in Hpre. rewrite length_drop in Hpre. unfold len in *. lia. }
  apply wp_bind.
  assert (Hnext : forall w2, view w2 = view w -> sent_from d (sent w) (sent w2) off (off + len x) ->
    wp (match rerr with
        | Some EOF => ret (Some (off + len x, sent_ + len x))
        | Some (ReadFailed e) => throw (wrap KindApply (about "read " rel) (os_text e))
        | None => send_chunks fuel (native (ds ++ [c])) rel size chunkSize (off + len x) (off + len x) (sent_ + len x) hook
        end) Q w2).
  { intros w2 Hv2 Hs2. destruct rerr as [[|e]|].
    - apply wp_ret, HQ; [done..|]. intros off' n [= <- <-]. split; [lia|done].
    - apply wp_throw, HQ; done.
    - specialize (Hne eq_refl). apply IH; [by rewrite Hv2..|lia|lia|]. intros w3 r3 Hr3 Hv3 Hfuel Hok.
      apply HQ; [done|congruence|intros ->; specialize (Hfuel eq_refl); lia|]. intros off' n ->.
      destruct (Hok off' n eq_refl) as [Hn Hf]. split; [lia|]. eapply sent_from_trans; [lia|exact Hs2|exact Hf]. }
  wp_if; reflect_bools.
  2: { assert (Hl0 : len x = 0) by lia. rewrite Hl0, !Z.add_0_r in Hnext. apply wp_ret. rewrite Hl0, Z.add_0_r. apply Hnext; [done|].
       rewrite Hs1. apply sent_from_refl. }
  apply wp_bind, wp_lift. destruct (encodeFileChunk off x) as [raw|e|] eqn:Ec; [|by apply HQ|].
  2: { unfold encodeFileChunk in Ec. by case_match. }
  apply encodeFileChunk_ok in Ec as ->. apply wp_bind, wp_call. intros w2 r2 (Hv2 & _ & Hr2 & Hs2)%send_spec.
  destruct r2 as [[]|e|]; [|apply HQ; [done|congruence|done..]|done].
  destruct Hs2 as [Hs2|[_ [? [=]]]]. rewrite Hs1 in Hs2.
  assert (Hu : u64 (off + len x) = off + len x) by (unfold u64; rewrite Z.mod_small; lia).
  assert (Hi : LocalApply.i64 (sent_ + len x) = sent_ + len x).
  { unfold LocalApply.i64. rewrite Z.mod_small; lia. }
  rewrite Hu, Hi. cbv zeta. apply wp_bind.
  destruct hook as [f|]; [destruct (f rel _); [apply wp_throw, HQ; [done|congruence|done..]|]|];
    apply wp_ret, wp_ret; (apply Hnext; [congruence|rewrite Hs2; by apply sent_one]).
Qed.

(** A sent file is the announced file, whole.  When the transmission of an entry
    reports success, the source held a regular file with the announced size and
    digest, and what was sent is its announcement, then, from the offset that the
    receiver acknowledged, chunks that follow one another and carry the rest of the
    file in order, then the end message; the count returned is the bytes sent.  No
    fuel beyond the size of the file is needed. *)
Lemma sendFileChunked_covers fuel srcRoot e chunkSize hook w w' r :
  entry_at (view w) ds c -> Join srcRoot (ERel e) = native (ds ++ [c]) -> 0 <= ESize e < Z.of_nat fuel ->
  sendFileChunked fuel srcRoot e chunkSize hook w = (w', r) ->
  view w' = view w /\ r <> Panic /\ r <> Ok None /\
  (forall n, r = Ok (Some n) -> exists m d off xs,
     view w !! (ds ++ [c]) = Some (NFile m d) /\ len d = ESize e /\ SHA256 d = EDigest e /\
     0 <= off <= len d /\ concat xs = drop (Z.to_nat off) d /\ n = len (concat xs) /\
     sent w' = sent w ++ begin_bytes (mkBegin (ERel e) (EMode e) (EDigest e) (ESize e)) ::
       chunk_messages off xs ++ [end_bytes (ERel e) (EDigest e)]).
Proof.
  intros He Hj Hf E.
  eapply (wp_run _ (fun w' r => view w' = view w /\ r <> Panic /\ r <> Ok None /\
    forall n, r = Ok (Some n) -> exists m d off xs,
     view w !! (ds ++ [c]) = Some (NFile m d) /\ len d = ESize e /\ SHA256 d = EDigest e /\
     0 <= off <= len d /\ concat xs = drop (Z.to_nat off) d /\ n = len (concat xs) /\
     sent w' = sent w ++ begin_bytes (mkBegin (ERel e) (EMode e) (EDigest e) (ESize e)) ::
       chunk_messages off xs ++ [end_bytes (ERel e) (EDigest e)])); [|exact E]. clear E.
  unfold sendFileChunked. rewrite Hj. cbv zeta. set (cs := if chunkSize <=? 0 then _ else _).
  assert (Hcs : 0 < cs) by (subst cs; case_match; reflect_bools; [done|lia]).
  apply wp_bind, wp_or_fail, wp_call. intros w1 r1 (Hv1 & Hs1 & Hr1)%opensource_spec.
  destruct r1 as [[]|x|]; cbn [map_err]; [|done..].
  apply wp_bind, wp_or_fail, wp_call. intros w2 r2 E2. eapply statsource_spec in E2 as (Hv2 & Hs2 & Hr2); [|by rewrite Hv1].
  rewrite Hv1 in Hv2, Hr2. rewrite Hs1 in Hs2.
  destruct r2 as [size|x|]; cbn [map_err]; [|done..]. wp_if; [by apply wp_throw|]. reflect_bools. subst size.
  apply wp_bind, wp_or_fail, wp_hash_silent; [by rewrite Hv2|]. intros w3 r3 Hv3 Hs3 Hr3. rewrite Hv2 in Hv3, Hr3. rewrite Hs2 in Hs3.
  destruct r3 as [[h n]|x|]; cbn [map_err]; [|done..]. destruct Hr3 as (m & d & Hd & -> & ->).
  destruct (Hr2 _ _ Hd) as [Hsz Hmax]. wp_if; [by apply wp_throw|]. reflect_bools.
  rewrite u64_small by (unfold is_u64; lia).
  apply wp_bind, wp_lift. destruct (encodeFileBegin _ _ _ _) as [raw|x|] eqn:Eb; [|done|].
  2: { unfold encodeFileBegin, appendString in Eb. cbv zeta in Eb. by case_match. }
  apply (encodeFileBegin_ok (mkBegin _ _ _ _)) in Eb as ->. set (bm := begin_bytes _).
  apply wp_bind, wp_call. intros w4 r4 (Hv4 & _ & Hr4 & Hs4)%send_spec. rewrite Hv3 in Hv4. rewrite Hs3 in Hs4.
  destruct r4 as [[]|x|]; [|done..]. destruct Hs4 as [Hs4|[_ [? [=]]]].
  apply wp_bind, wp_call. intros w5 r5 (Hv5 & Hs5 & Hr5 & _)%recv_spec. rewrite Hv4 in Hv5. rewrite Hs4 in Hs5.
  destruct r5 as [ack|x|]; [|done..].
  apply wp_bind, wp_lift. destruct (decodeFileAck ack) as [off|x|] eqn:Ea; [|done|by apply decodeFileAck_total in Ea].
  apply decodeFileAck_exact in Ea as [Hoff _]. wp_if; [by apply wp_throw|]. reflect_bools. unfold is_u64 in Hoff.
  apply wp_bind, wp_or_fail, wp_call. intros w6 r6 (Hv6 & Hs6 & Hr6)%seeksource_spec. rewrite Hv5 in Hv6. rewrite Hs5 in Hs6.
  destruct r6 as [[]|x|]; cbn [map_err]; [|done..].
  apply wp_bind. eapply (wp_send_chunks _ _ _ _ _ _ _ m d); [by rewrite Hv6|by rewrite Hv6|done|done|done|lia|lia|].
  intros w7 r7 Hr7 Hv7 Hfuel Hok. rewrite Hv6 in Hv7. rewrite Hs6 in Hok.
  destruct r7 as [[[off' n]|]|x|]; [|specialize (Hfuel eq_refl); lia|done..].
  destruct (Hok off' n eq_refl) as [Hn (xs & Hs7 & Hoff' & Hpre)]. wp_if; [by apply wp_throw|]. reflect_bools.
  apply wp_bind, wp_lift. destruct (encodeFileEnd _ _) as [raw|x|] eqn:Ee; [|done|].
  2: { unfold encodeFileEnd, appendString in Ee. cbv zeta in Ee. by case_match. }
  apply encodeFileEnd_ok in Ee as ->. apply wp_bind, wp_call. intros w8 r8 (Hv8 & _ & Hr8 & Hs8)%send_spec.
  rewrite Hv7 in Hv8. destruct r8 as [[]|x|]; [|done..]. destruct Hs8 as [Hs8|[_ [? [=]]]].
  apply wp_ret. split_and!; [done..|]. intros n' [= <-]. exists m, d, off, xs. split_and!; try done; try lia.
  - apply prefix_length_eq; [done|]. rewrite length_drop. unfold len in *. lia.
  - rewrite Hs8, Hs7, <- !app_assoc. done.
Qed.

End Sent.

End RemoteServe.
