(* ===== verification/RemoteRuns.v ===== *)
(** * Remote synchronization on concrete sessions

    A connection that delivers a list of messages, over the tree in memory: the
    instances of [Peer] and [SourceFile] with their laws, and the theorems of
    RemoteStore.v and RemoteServe.v on runs of it. *)

From stdpp Require Import gmap.
From S2P Require Import Prelude Sha256 Codec Journal PathGrammar FilePath FileSystem.
From S2P Require Import LocalPayload LocalPlan LocalApply LocalScan LocalSession LocalSync LocalResume LocalRuns.
From S2P Require Import RemoteMessages RemoteWire RemoteGate RemoteStore RemoteServe.
Import Codec PathGrammar FilePath FileSystem LocalPlan LocalApply LocalSync LocalResume LocalRuns.
Import RemoteMessages RemoteWire RemoteGate RemoteStore RemoteServe.

Module RemoteRuns.

(** ** A connection *)

(** The position in the messages of the peer, and what has been sent to it. *)
Record Conn := mkConn { at_ : nat; out : list bytes }.

Section Connection.
Context (msgs : list bytes).

#[local] Instance list_Peer : Peer (MemFS * Conn) := {
  recvData := fun '(w, c) =>
    match msgs !! at_ c with
    | Some p => ((w, mkConn (S (at_ c)) (out c)), Ok p)
    | None => ((w, c), Err (Foreign (str "EOF")))
    end;
  sendData := fun p '(w, c) => ((w, mkConn (at_ c) (out c ++ [p])), Ok tt) }.

#[local] Program Instance list_PeerLaws : PeerLaws (MemFS * Conn) := {
  delivered := fun wc => take (at_ wc.2) msgs;
  sent := fun wc => out wc.2 }.
Next Obligation.
  intros [w c] w' r E. cbn in E. destruct (msgs !! at_ c) as [p|] eqn:Ep; injection E as <- <-; cbn; split_and!; try done.
  - by apply take_S_r.
  - by rewrite app_nil_r.
Qed.
Next Obligation. intros [w c] w' r p [= <- <-]. cbn. split_and!; try done. by left. Qed.

End Connection.

(** The source file of a sender, read from the tree in memory. *)
Definition mem_read (pos n : Z) (d : bytes) : bytes * option readErr :=
  let x := take (Z.to_nat n) (drop (Z.to_nat pos) d) in
  (x, if len x =? 0 then Some EOF else None).

#[global] Instance MemFS_SourceFile {J} : SourceFile (MemFS * J) := {
  OpenSource p := on_fst (on_node p (fun _ _ => ret tt));
  StatSource p := on_fst (on_node p (fun _ n =>
    match n with
    | NFile _ d => if len d <? 2 ^ 63 then ret (len d) else throw EOther
    | _ => ret 0
    end));
  SeekSource _ _ := ret tt;
  ReadAt p pos n := on_fst (fun w =>
    match nodes w !! clean_components p with
    | Some (NFile _ d) => (w, Ok (mem_read pos n d))
    | _ => (w, Ok ([], Some (ReadFailed EOther)))
    end) }.

Lemma on_node_quiet {A} p (k : list bytes -> node -> io MemFS errno A) w w' r :
  (forall cs n w, (k cs n w).1 = w /\ (k cs n w).2 <> Panic) -> on_node p k w = (w', r) -> nodes w' = nodes w /\ r <> Panic.
Proof.
  intros Hk. unfold on_node. intros E. apply scripted_inv in E as [(Hv & e & -> & _)|(w1 & Hw & E)]; [done|].
  cbv zeta in E. destruct (nodes w1 !! _) as [n|]; [|by injection E as <- <-].
  destruct (Hk (clean_components p) n w1) as [H1 H2]. rewrite E in H1, H2. cbn in *. by subst w1.
Qed.

(** Calls on the tree leave the connection alone. *)
Lemma on_fst_out {E A} (k : io MemFS E A) (w : MemFS) (c : Conn) : out (on_fst k (w, c)).1.2 = out c.
Proof. unfold on_fst. by destruct (k w). Qed.

#[local] Program Instance list_SourceFileLaws msgs :
  @SourceFileLaws (MemFS * Conn) _ _ (list_Peer msgs) (list_PeerLaws msgs) _.
Next Obligation.
  intros msgs [w c] [w' c'] r p [E ->]%on_fst_run. cbn. by apply on_node_quiet in E as [-> ?].
Qed.
Next Obligation.
  intros msgs [w c] [w' c'] r ds x He [E ->]%on_fst_run. cbn in *.
  apply (on_node_inv _ _ _ _ _ _ (entry_components _ _ _ He)) in E as [(Hv & e & -> & _)|(w1 & n & Hw & Hn & E)]; [done|].
  destruct n as [m|m d|t]; [|destruct (len d <? 2 ^ 63) eqn:El|]; injection E as <- <-; rewrite Hw; split_and!; try done;
    intros m' d'; rewrite Hn; intros [= <- <-]. by reflect_bools.
Qed.
Next Obligation. by intros msgs [w c] [w' c'] r p n [= <- <- <-]. Qed.
Next Obligation.
  intros msgs [w c] [w' c'] r ds x m d pos n He Hd Hpos Hn E.
  cbn [ReadAt MemFS_SourceFile view FileSystem_pair_laws MemFS_laws fst] in *. unfold on_fst in E.
  rewrite (entry_components _ _ _ He), Hd in E. unfold mem_read in E.
  set (y := take (Z.to_nat n) (drop (Z.to_nat pos) d)) in *. injection E as <- <- <-. pose proof (len_nonneg y).
  split_and!; try done; subst y.
  - unfold len. rewrite length_take. lia.
  - apply prefix_take.
  - case_match; [done|]. reflect_bools. lia.
Qed.
Next Obligation. intros msgs [w c] p. apply on_fst_out. Qed.
Next Obligation. intros msgs [w c] p. apply on_fst_out. Qed.

(** ** A session *)

#[local] Instance demo_meta : MetaJSON := {| MarshalMeta _ := []; UnmarshalMeta _ := None; json_text := [] |}.
#[local] Existing Instance demo_texts.

Definition destRoot : bytes := str "/d".
Definition stageDir : list bytes := [str "d"; LocalScan.MetaDirName; str "recv-stage"].
Definition partialDir : list bytes := [str "d"; LocalScan.MetaDirName; str "recv-partial"].
Definition recvTree : tree := list_to_map [([], NDir 493); ([str "d"], NDir 493); ([str "s"], NDir 493); ([str "s"; str "f"], NFile 420 (str "hi"))].

Definition recvWorld : MemFS * Conn := (mkMemFS recvTree [] 7, mkConn 0 []).
Definition recvStore : localStore := mkStore destRoot (native stageDir) (native partialDir) false zero_begin zero_begin [] None 0 None.

(** The demonstration store is the one that opening the destination gives. *)
Lemma openLocalStore_run : (openLocalStore destRoot (mkMemFS recvTree [] 7)).2 = Ok recvStore.
Proof. vm_compute. reflexivity. Qed.

Lemma plain_dirs : Forall plain stageDir /\ Forall plain partialDir.
Proof.
  assert (H : forallb plainb (stageDir ++ partialDir) = true) by (vm_compute; reflexivity).
  apply Forall_app, Forall_forall. intros c Hc. rewrite forallb_forall in H.
  by apply plainb_plain, H, list_elem_of_In.
Qed.

Lemma dirs_apart : ~ stageDir `prefix_of` partialDir /\ ~ partialDir `prefix_of` stageDir.
Proof. split; by intros [l [=]]. Qed.

Lemma recvWorld_idle : idle stageDir partialDir (view recvWorld) recvStore.
Proof.
  assert (Hl : LocalRuns.linkfree recvTree = true) by (vm_compute; reflexivity).
  assert (Hn : forall q t, recvTree !! q <> Some (NOther t)).
  { intros q t Hq. assert (Ha : forallb (fun '(_, n) => match n with NOther _ => false | _ => true end) (map_to_list recvTree) = true)
      by (vm_compute; reflexivity). rewrite forallb_forall in Ha.
    apply elem_of_map_to_list, list_elem_of_In, Ha in Hq. done. }
  split; [by split|]. split; [reflexivity|]. split; [exact (linkfree_nolink _ _ Hl)|]. split; [exact (linkfree_nolink _ _ Hl)|].
  intros q t _. apply Hn.
Qed.

Definition hiDigest : bytes := SHA256 (str "hi").
Definition hiBegin : fileBegin := mkBegin (str "f") 420 hiDigest 2.
Definition hiFile : list bytes := [chunk_bytes 0 (str "hi"); end_bytes (str "f") hiDigest].

Lemma recvFileChunked_verified_witness :
  exists w s r, @recvFileChunked _ _ _ (list_Peer hiFile) _ _ 3 hiBegin (recvWorld, recvStore) = ((w, s), r) /\
    r = Ok true /\ staged stageDir [] (str "f") (view w) hiBegin /\
    evolves (transfer_paths stageDir partialDir [] (str "f")) (way stageDir partialDir []) recvTree (view w).
Proof.
  destruct (@recvFileChunked _ _ _ (list_Peer hiFile) _ _ 3 hiBegin (recvWorld, recvStore)) as [[w s] r] eqn:E.
  assert (Hr : r = Ok true).
  { change r with (w, s, r).2. rewrite <- E. clear. vm_compute. reflexivity. }
  exists w, s, r. split; [reflexivity|]. split; [exact Hr|]. destruct plain_dirs as [Hs Hp].
  destruct (@recvFileChunked_verified _ _ _ _ _ (list_Peer hiFile) (list_PeerLaws hiFile) _ _ stageDir partialDir Hs Hp dirs_apart [] (str "f") 3 hiBegin recvWorld recvStore w s r)
    as (He & _ & Hok); [constructor|by apply plainb_plain|reflexivity|exact recvWorld_idle|exact E|].
  split; [exact (proj2 (Hok Hr))|exact He].
Defined.

(** *** A whole session: a directory, a file in one message, a chunked file *)

Definition sessionEntries : list Entry :=
  [mkEntry (str "e") EntryDir 0 493 (zeros 32) false; mkEntry (str "e/g") EntryFile 2 420 hiDigest true;
   mkEntry (str "f") EntryFile 2 420 hiDigest true].
Definition sessionMessages : list bytes :=
  [manifest_bytes msgManifest sessionEntries; file_bytes (mkFileWire (str "e/g") 420 hiDigest (str "hi")); begin_bytes hiBegin] ++ hiFile.

(** The paths that a message names, all of them made of proper components. *)
Definition proper_relb (rel : bytes) : bool := forallb plainb (Split rel).
Definition proper_messageb (p : bytes) : bool :=
  match decodeFileBegin p with Ok b => proper_relb (BRel b) | _ => true end &&
  match decodeFile p with Ok f => proper_relb (FRel f) | _ => true end &&
  match decodeManifest p with
  | Ok es => forallb (fun e => negb (bool_decide (EType e = EntryDir)) || proper_relb (ERel e)) es
  | _ => true
  end.

Lemma proper_relb_proper rel : proper_relb rel = true -> proper rel.
Proof.
  unfold proper_relb. intros H. assert (Hj : join_slash (Split rel) = rel) by (unfold Split; by rewrite split_loop_inv).
  pose proof (Split_nonempty rel) as Hne. revert Hj H Hne. generalize (Split rel) as l.
  intros l. destruct l as [|c cs _] using rev_ind; [done|]. intros Hj H _.
  assert (Hp : Forall plain (cs ++ [c])).
  { apply Forall_forall. intros x Hx. rewrite forallb_forall in H. by apply plainb_plain, H, list_elem_of_In. }
  apply Forall_app in Hp as [Hcs Hc]. apply (Forall_singleton plain) in Hc. exists cs, c. split; [exact Hcs|]. split; [exact Hc|]. by symmetry.
Qed.

Lemma proper_messageb_proper p : proper_messageb p = true -> proper_message p.
Proof.
  unfold proper_messageb. intros [[Hb Hf]%andb_true_iff Hm]%andb_true_iff. split_and!.
  - intros b E. rewrite E in Hb. by apply proper_relb_proper.
  - intros f E. rewrite E in Hf. by apply proper_relb_proper.
  - intros es e E He Ht. rewrite E, forallb_forall in Hm. apply list_elem_of_In, Hm in He.
    rewrite bool_decide_eq_true_2 in He by done. by apply proper_relb_proper.
Qed.

Lemma sessionMessages_proper (w w' : MemFS * Conn) p :
  @recvData _ (list_Peer sessionMessages) w = (w', Ok p) -> proper_message p.
Proof.
  assert (H : forallb proper_messageb sessionMessages = true) by (vm_compute; reflexivity).
  destruct w as [w c]. cbn [recvData list_Peer]. intros E. destruct (sessionMessages !! at_ c) as [q|] eqn:Eq; [|discriminate E]. injection E as _ <-.
  rewrite forallb_forall in H. apply proper_messageb_proper, H, list_elem_of_In. by eapply list_elem_of_lookup_2.
Qed.

Lemma serve_transfers_contained_witness :
  exists w s r, @serve_transfers _ _ _ (list_Peer sessionMessages) _ _ 3 (recvWorld, recvStore) = ((w, s), r) /\
    r = Ok true /\ len (out w.2) = 2 /\
    evolves (staging_area stageDir partialDir) (above_staging stageDir partialDir) recvTree (view w).
Proof.
  destruct (@serve_transfers _ _ _ (list_Peer sessionMessages) _ _ 3 (recvWorld, recvStore)) as [[w s] r] eqn:E.
  assert (Hr : (r, len (out w.2)) = (Ok true, 2)).
  { change r with (w, s, r).2. change w with (w, s, r).1.1 at 2. rewrite <- E. clear. vm_compute. reflexivity. }
  injection Hr as Hr Ho. exists w, s, r. split; [reflexivity|]. split; [exact Hr|]. split; [exact Ho|].
  destruct plain_dirs as [Hs Hp].
  exact (proj1 (@serve_transfers_contained _ _ _ _ _ (list_Peer sessionMessages) (list_PeerLaws sessionMessages) _ _
    stageDir partialDir Hs Hp dirs_apart sessionMessages_proper 3 recvWorld recvStore w s r recvWorld_idle E)).
Defined.

(** *** The sender's side: the receiver asks for the whole file *)

Definition hiEntry : Entry := mkEntry (str "f") EntryFile 2 420 hiDigest true.

Lemma hi_source : entry_at recvTree [str "s"] (str "f").
Proof.
  split; [apply plain_roots|]. split; [by apply plainb_plain|]. apply linkfree_nolink. vm_compute. reflexivity.
Qed.

Lemma sendFileChunked_covers_witness :
  exists w xs, @sendFileChunked _ _ (list_Peer [encodeFileAck 0]) _ _ 3 (str "/s") hiEntry 1 None recvWorld = (w, Ok (Some 2)) /\
    concat xs = str "hi" /\
    out w.2 = begin_bytes (mkBegin (str "f") 420 hiDigest 2) :: chunk_messages 0 xs ++ [end_bytes (str "f") hiDigest].
Proof.
  destruct (@sendFileChunked _ _ (list_Peer [encodeFileAck 0]) _ _ 3 (str "/s") hiEntry 1 None recvWorld) as [w r] eqn:E.
  assert (Hr : (r, len (out w.2)) = (Ok (Some 2), 4)).
  { change r with (w, r).2. change w with (w, r).1 at 2. rewrite <- E. clear. vm_compute. reflexivity. }
  injection Hr as -> Ho. 
  destruct (@sendFileChunked_covers _ _ _ _ _ _ (list_SourceFileLaws [encodeFileAck 0]) _ [str "s"] (str "f") 3 (str "/s")
    hiEntry 1 None recvWorld w (Ok (Some 2)) hi_source eq_refl ltac:(cbn; lia) E) as (_ & _ & _ & Hx).
  destruct (Hx 2 eq_refl) as (m & d & off & xs & Hd & _ & _ & Hoff & Hxs & Hn & Hs).
  change (view recvWorld) with recvTree in Hd. vm_compute in Hd. injection Hd as <- <-.
  exists w, xs. split; [reflexivity|].
  assert (off = 0) as ->.
  { rewrite Hxs in Hn. unfold len in Hn. rewrite length_drop in Hn. cbn in Hn, Hoff. unfold len in Hoff. cbn in Hoff. lia. }
  split; [exact Hxs|exact Hs].
Defined.

(** *** A file message that leaves the staging directory and the destination *)

Definition escapeFile : fileWire := mkFileWire (str "../../../x") 420 hiDigest (str "hi").

Lemma stageLegacy_escapes_witness :
  exists w s, stageLegacy escapeFile (recvWorld, recvStore) = ((w, s), Ok tt) /\
    recvTree !! [str "x"] = None /\ exists m, view w !! [str "x"] = Some (NFile m (str "hi")).
Proof.
  destruct (stageLegacy escapeFile (recvWorld, recvStore)) as [[w s] r] eqn:E.
  assert (Hr : r = Ok tt).
  { change r with (w, s, r).2. rewrite <- E. clear. vm_compute. reflexivity. }
  subst r. exists w, s. split; [reflexivity|]. split; [vm_compute; reflexivity|].
  destruct plain_dirs as [Hs Hp].
  refine (proj2 (stageLegacy_escapes [] stageDir [] (str "x") escapeFile recvWorld w recvStore s _ Hs _ _ _ _ _ _ E)).
  - constructor.
  - constructor.
  - by apply plainb_plain.
  - reflexivity.
  - vm_compute. reflexivity.
  - apply linkfree_nolink. vm_compute. reflexivity.
  - intros t. vm_compute. discriminate.
Defined.

End RemoteRuns.
