(* ===== verification/RemoteKeys.v ===== *)
(** * Keys and peers (internal/remotesync: keys.go, peer_keyring.go, session_seal.go)

    Root keys, the keyring that maps peer identifiers to keys, and the sealed
    session that the authenticating role hands to the network role.
    [EncodeKeyring_decodes] and [decodeSeal_exact] are the round trips of the two
    formats; [DecodeRootMaterial_valid] says that accepted key material is a key of
    32 bytes or a valid keyring, for any bytes. *)

From stdpp Require Import gmap.
From S2P Require Import Prelude Sha256 Codec Sorting Crypto FilePath FileSystem LocalPlan RemoteMessages.
Import Codec Sorting FileSystem LocalPlan RemoteMessages.

Module RemoteKeys.

(** ** Root keys (keys.go) *)

Definition RootKeySize : Z := 32.

(** The encodings of the characters that [unicode.IsSpace] accepts. *)
Definition spaces : list bytes :=
  map (map byte_of)
    [[9]; [10]; [11]; [12]; [13]; [32]; [0xC2; 0x85]; [0xC2; 0xA0]; [0xE1; 0x9A; 0x80];
     [0xE2; 0x80; 0x80]; [0xE2; 0x80; 0x81]; [0xE2; 0x80; 0x82]; [0xE2; 0x80; 0x83]; [0xE2; 0x80; 0x84];
     [0xE2; 0x80; 0x85]; [0xE2; 0x80; 0x86]; [0xE2; 0x80; 0x87]; [0xE2; 0x80; 0x88]; [0xE2; 0x80; 0x89];
     [0xE2; 0x80; 0x8A]; [0xE2; 0x80; 0xA8]; [0xE2; 0x80; 0xA9]; [0xE2; 0x80; 0xAF]; [0xE2; 0x81; 0x9F];
     [0xE3; 0x80; 0x80]].

(** Strip members of [sp] from the front; every turn takes a byte at least. *)
Fixpoint trim_front (fuel : nat) (sp : list bytes) (s : bytes) : bytes :=
  match fuel with
  | O => s
  | S fuel =>
      match List.find (fun x => bool_decide (take (length x) s = x)) sp with
      | Some x => trim_front fuel sp (drop (length x) s)
      | None => s
      end
  end.

(** [strings.TrimSpace]. *)
Definition TrimSpace (s : bytes) : bytes :=
  let s := trim_front (length s) spaces s in
  rev (trim_front (length s) (map (@rev _) spaces) (rev s)).

(** The text of an error of encoding/hex. *)
Class HexText := { hex_text : bytes -> bytes }.

Definition ParseRootKey `{HexText} (s : bytes) : res Error bytes :=
  let s := TrimSpace s in
  if bool_decide (s = []) then Err (fail KindInvalidArgument (str "empty root key")) else
  if len s =? RootKeySize then Ok s else
  match hex_decode s with
  | None => Err (wrap KindInvalidArgument (str "key hex") (hex_text s))
  | Some b =>
      if negb (len b =? RootKeySize)
      then Err (fail KindInvalidArgument (str "root key must be " ++ itoa RootKeySize ++ str " bytes"))
      else Ok b
  end.

Definition LoadRootKeyFile {W} `{FileSystem W} `{HexText} (os_text : errno -> bytes) (path : bytes) : io W Error bytes :=
  let* data := or_fail (ReadFile path) (fun e => wrap KindInvalidArgument (str "key file") (os_text e)) in
  lift (ParseRootKey data).

Definition deriveMACKey (root peerID : bytes) : res Crypto.Error bytes :=
  let! base := Crypto.ChannelMACKey root "push" "serve" in
  if bool_decide (peerID = []) then Ok base else
  Crypto.HKDFSHA256 base None (str "integris-peer-id|" ++ peerID) 32.

(** ** Peers (peer_keyring.go) *)

Definition maxPeerIDLen : Z := 64.
Definition maxPeerKeyring : Z := 32.
Definition peerPrologueMagic : bytes := str "INTPID01".
Definition peerKeyringMagic : bytes := str "INTPEER1".

Abbreviation PeerKeyring := (gmap bytes bytes).

(** The loop over the characters.  A byte from 0x80 on starts a character of at
    least 0x80, or a decoding error, which reads as 0xFFFD: both are out of range,
    so that the bytes decide. *)
Definition bad_id_char (b : Byte.byte) : bool :=
  (byteZ b <? 0x21) || (0x7e <? byteZ b) || (byteZ b =? 61).

Definition ValidatePeerID (id : bytes) : res Error unit :=
  if bool_decide (id = []) then Err (fail KindInvalidArgument (str "empty peer id")) else
  if maxPeerIDLen <? len id then Err (fail KindInvalidArgument (str "peer id too long")) else
  if existsb bad_id_char id then Err (fail KindInvalidArgument (str "peer id must be printable ASCII without '='"))
  else Ok tt.

(** The loop over the map, in some order; the order decides only which error is
    returned. *)
Fixpoint validate_peers (l : list (bytes * bytes)) : res Error unit :=
  match l with
  | [] => Ok tt
  | (id, key) :: l =>
      let! _ := ValidatePeerID id in
      if negb (len key =? RootKeySize)
      then Err (fail KindInvalidArgument (str "peer " ++ id ++ str " key must be " ++ itoa RootKeySize ++ str " bytes"))
      else validate_peers l
  end.

Definition ValidateKeyring (kr : PeerKeyring) : res Error unit :=
  let n := Z.of_nat (size kr) in
  if n =? 0 then Err (fail KindInvalidArgument (str "empty peer keyring")) else
  if maxPeerKeyring <? n
  then Err (fail KindInvalidArgument (str "peer keyring exceeds " ++ itoa maxPeerKeyring ++ str " entries"))
  else validate_peers (map_to_list kr).

(** [sort.Strings]. *)
Definition sort_ids : list bytes -> list bytes := sort_key id bytes_Compare.

(** [kr[id]]; a missing key reads as nil. *)
Definition key_of (kr : PeerKeyring) (id : bytes) : bytes := default [] (kr !! id).

Definition encode_peer (kr : PeerKeyring) (id : bytes) : bytes := [byte_of (len id)] ++ id ++ key_of kr id.

Definition EncodeKeyring (kr : PeerKeyring) : res Error bytes :=
  let! _ := ValidateKeyring kr in
  let ids := sort_ids (map fst (map_to_list kr)) in
  let out := peerKeyringMagic ++ [byte_of (len ids)] in
  Ok (out ++ concat (map (encode_peer kr) ids)).

(** The loop over the announced entries: the cursor and the keyring so far. *)
Fixpoint decode_peers (n : nat) (blob : bytes) (off : Z) (kr : PeerKeyring) : res Error (PeerKeyring * Z) :=
  match n with
  | O => Ok (kr, off)
  | S n =>
      if len blob <=? off then Err (fail KindInvalidArgument (str "truncated keyring")) else
      let! b := index blob off in
      let idLen := byteZ b in
      let off := off + 1 in
      if (idLen =? 0) || (maxPeerIDLen <? idLen) || (len blob <? off + idLen + RootKeySize)
      then Err (fail KindInvalidArgument (str "bad keyring entry")) else
      let! id := slice blob off (off + idLen) in
      let off := off + idLen in
      let! key := slice blob off (off + RootKeySize) in
      let off := off + RootKeySize in
      let! _ := ValidatePeerID id in
      if bool_decide (is_Some (kr !! id))
      then Err (fail KindInvalidArgument (str "duplicate peer id " ++ id)) else
      decode_peers n blob off (<[id := key]> kr)
  end.

(** A single key, or a keyring. *)
Definition DecodeRootMaterial (blob : bytes) : res Error (bytes + PeerKeyring) :=
  if len blob =? RootKeySize then Ok (inl blob) else
  let bad := Err (fail KindInvalidArgument (str "bad root key material")) in
  if len blob <? len peerKeyringMagic + 1 then bad else
  let! magic := slice blob 0 (len peerKeyringMagic) in
  if negb (bool_decide (magic = peerKeyringMagic)) then bad else
  let! c := index blob (len peerKeyringMagic) in
  let n := byteZ c in
  if (n =? 0) || (maxPeerKeyring <? n) then Err (fail KindInvalidArgument (str "bad keyring count")) else
  let off := len peerKeyringMagic + 1 in
  let! (kr, off) := decode_peers (Z.to_nat n) blob off ∅ in
  if negb (off =? len blob) then Err (fail KindInvalidArgument (str "trailing keyring bytes"))
  else Ok (inr kr).

(** [strings.IndexByte]. *)
Fixpoint index_byte (s : bytes) (b : Byte.byte) : Z :=
  match s with
  | [] => -1
  | x :: s => if bool_decide (x = b) then 0 else let i := index_byte s b in if i <? 0 then i else i + 1
  end.

(** The errors of this function are plain; [Foreign] keeps their text. *)
Definition ParsePeerKeyFlag (v : bytes) : res Error (bytes * bytes) :=
  let v := TrimSpace v in
  let i := index_byte v (byte_of 61) in
  if (i <=? 0) || (i =? len v - 1) then Err (Foreign (str "peer-key must be ID=PATH")) else
  let! id := slice v 0 i in
  let! path := slice v (i + 1) (len v) in
  let! _ := ValidatePeerID id in
  if bool_decide (TrimSpace path = []) then Err (Foreign (str "peer-key path empty"))
  else Ok (id, path).

Definition PeerIDDigest (peerID : bytes) : bytes := hex_encode (take 8 (SHA256 peerID)).

(** ** Sealed sessions (session_seal.go) *)

Record sessionSeal := mkSeal {
  SealSessionID : bytes;
  SealMACKey : bytes;
  SealAEADKey : bytes;
  SealSendSeq : Z;
  SealRecvSeq : Z;
  SealSelected : Z;
  SealSuite : bytes }.

Definition encodeSeal (s : sessionSeal) : res Error bytes :=
  if (255 <? len (SealMACKey s)) || (255 <? len (SealAEADKey s)) || (255 <? len (SealSuite s))
  then Err (fail KindProtocol (str "seal field too long")) else
  let b := SealSessionID s in
  let b := b ++ [byte_of (len (SealMACKey s))] in
  let b := b ++ SealMACKey s in
  let b := b ++ [byte_of (len (SealAEADKey s))] in
  let b := b ++ SealAEADKey s in
  let b := b ++ le_bytes 8 (SealSendSeq s) in
  let b := b ++ le_bytes 8 (SealRecvSeq s) in
  let b := b ++ [byte_of (SealSelected s)] in
  let b := b ++ [byte_of (len (SealSuite s))] in
  Ok (b ++ SealSuite s).

(** [p = p[n:]]. *)
Definition skip (p : bytes) (n : Z) : res Error bytes := slice p n (len p).

Definition decodeSeal (p : bytes) : res Error sessionSeal :=
  if len p <? 16 + 1 + 1 + 8 + 8 + 1 + 1 then Err (fail KindProtocol (str "short seal")) else
  let! sid := slice p 0 16 in
  let! p := skip p 16 in
  let! n := index p 0 in
  let n := byteZ n in
  let! p := skip p 1 in
  if len p <? n then Err (fail KindProtocol (str "short seal mac")) else
  let! mac := slice p 0 n in
  let! p := skip p n in
  if len p <? 1 then Err (fail KindProtocol (str "short seal aead len")) else
  let! n := index p 0 in
  let n := byteZ n in
  let! p := skip p 1 in
  if len p <? n + 8 + 8 + 1 + 1 then Err (fail KindProtocol (str "short seal aead")) else
  let! aead := slice p 0 n in
  let! p := skip p n in
  let! s := slice p 0 8 in
  let! sendSeq := U64LE s in
  let! p := skip p 8 in
  let! r := slice p 0 8 in
  let! recvSeq := U64LE r in
  let! p := skip p 8 in
  let! v := index p 0 in
  let! p := skip p 1 in
  let! n := index p 0 in
  let n := byteZ n in
  let! p := skip p 1 in
  if negb (len p =? n) then Err (fail KindProtocol (str "seal suite length")) else
  Ok (mkSeal (copy (zeros 16) sid) mac aead sendSeq recvSeq (byteZ v) p).

(** ** The seal is exact *)

Definition wf_seal (s : sessionSeal) : Prop :=
  len (SealSessionID s) = 16 /\ len (SealMACKey s) <= 255 /\ len (SealAEADKey s) <= 255 /\ len (SealSuite s) <= 255 /\
  is_u64 (SealSendSeq s) /\ is_u64 (SealRecvSeq s) /\ 0 <= SealSelected s < 256.

Definition seal_bytes (s : sessionSeal) : bytes :=
  SealSessionID s ++ [byte_of (len (SealMACKey s))] ++ SealMACKey s ++ [byte_of (len (SealAEADKey s))] ++ SealAEADKey s ++
  le_bytes 8 (SealSendSeq s) ++ le_bytes 8 (SealRecvSeq s) ++ [byte_of (SealSelected s)] ++
  [byte_of (len (SealSuite s))] ++ SealSuite s.

Lemma encodeSeal_bytes s : wf_seal s -> encodeSeal s = Ok (seal_bytes s).
Proof.
  intros (_ & H1 & H2 & H3 & _). unfold encodeSeal, seal_bytes. rewrite !(proj2 (Z.ltb_ge _ _)) by done.
  cbn [orb]. by rewrite <- !app_assoc.
Qed.

Lemma skip_front (a b : bytes) n : n = len a -> skip (a ++ b) n = Ok b.
Proof. intros Hn. unfold skip. by destruct (take_front (E := Error) a b n Hn) as [_ ->]. Qed.

Lemma index_front (x : Byte.byte) (b : bytes) : index (E := Error) ([x] ++ b) 0 = Ok x.
Proof. done. Qed.

Lemma slice_front (a b : bytes) n : n = len a -> slice (E := Error) (a ++ b) 0 n = Ok a.
Proof. intros Hn. by destruct (take_front (E := Error) a b n Hn) as [-> _]. Qed.

Lemma byteZ_of_len {A} (x : list A) : len x <= 255 -> byteZ (byte_of (len x)) = len x.
Proof. intros. pose proof (len_nonneg x). rewrite byteZ_byte_of, Z.mod_small; lia. Qed.

(** Read the next field, given that it is at the front. *)
Ltac seal_step :=
  first [rewrite slice_front by (by rewrite ?len_le_bytes)|rewrite skip_front by (by rewrite ?len_le_bytes)|rewrite index_front]; cbn [bind].

Lemma decodeSeal_bytes s : wf_seal s -> decodeSeal (seal_bytes s) = Ok s.
Proof.
  intros (Hid & H1 & H2 & H3 & Hs & Hr & Hv). unfold decodeSeal.
  pose proof (len_nonneg (SealMACKey s)). pose proof (len_nonneg (SealAEADKey s)). pose proof (len_nonneg (SealSuite s)).
  unfold seal_bytes. rewrite (proj2 (Z.ltb_ge _ _)) by len_lia.
  do 4 seal_step. rewrite byteZ_of_len by done. rewrite (proj2 (Z.ltb_ge _ _)) by len_lia.
  do 2 seal_step. rewrite (proj2 (Z.ltb_ge _ _)) by len_lia.
  do 2 seal_step. rewrite byteZ_of_len by done. rewrite (proj2 (Z.ltb_ge _ _)) by len_lia.
  do 3 seal_step. rewrite U64LE_ok, le_val_bytes by (done || by rewrite len_le_bytes). cbn [bind].
  do 2 seal_step. rewrite U64LE_ok, le_val_bytes by (done || by rewrite len_le_bytes). cbn [bind].
  do 5 seal_step. rewrite byteZ_of_len, Z.eqb_refl by done. cbn [negb].
  rewrite copy_exact, byteZ_byte_of, Z.mod_small by (done || unfold len in Hid; change (length (zeros 16)) with 16%nat; lia).
  by destruct s.
Qed.

Lemma byte_of_byteZ_len (b : Byte.byte) (x : bytes) : len x = byteZ b -> [byte_of (len x)] = [b].
Proof. intros ->. f_equal. apply byteZ_inj. rewrite byteZ_byte_of. apply Z.mod_small, byteZ_range. Qed.

Lemma decodeSeal_inv p :
  match decodeSeal p with
  | Ok s => wf_seal s /\ p = seal_bytes s
  | Err _ => True
  | Panic => False
  end.
Proof.
  unfold decodeSeal. destruct (len p <? _) eqn:E; [done|]. reflect_bools.
  destruct (split_at p 16) as (sid & r & -> & Hid); [lia|]. rewrite len_app in E.
  do 2 seal_step. destruct r as [|b r]; [rewrite len_nil in E; lia|]. change (b :: r) with ([b] ++ r) in *.
  do 2 seal_step. pose proof (byteZ_range b). destruct (len r <? byteZ b) eqn:E1; [done|]. reflect_bools.
  destruct (split_at r (byteZ b)) as (mac & r1 & -> & Hm); [lia|].
  do 2 seal_step. destruct (len r1 <? 1) eqn:E2; [done|]. reflect_bools.
  destruct r1 as [|b1 r1]; [rewrite len_nil in E2; lia|]. change (b1 :: r1) with ([b1] ++ r1) in *.
  do 2 seal_step. pose proof (byteZ_range b1). destruct (len r1 <? _) eqn:E3; [done|]. reflect_bools.
  destruct (split_at r1 (byteZ b1)) as (aead & r2 & -> & Ha); [lia|]. rewrite len_app in E3.
  destruct (split_at r2 8) as (ss & r3 & -> & Hs); [lia|]. rewrite len_app in E3.
  destruct (split_at r3 8) as (rs & r4 & -> & Hr); [lia|]. rewrite len_app in E3.
  do 3 seal_step. rewrite U64LE_ok by done. cbn [bind]. do 2 seal_step. rewrite U64LE_ok by done. cbn [bind].
  destruct r4 as [|v [|c r4]]; [rewrite ?len_nil, ?len_cons in E3; rewrite ?len_nil in E3; lia..|].
  change (v :: c :: r4) with ([v] ++ [c] ++ r4) in *. do 5 seal_step.
  destruct (len r4 =? byteZ c) eqn:E4; [|done]. reflect_bools. cbn [negb]. pose proof (byteZ_range c). pose proof (byteZ_range v).
  destruct (le_val_u 8 ss) as [Hs1 Hs2]; [done|]. destruct (le_val_u 8 rs) as [Hr1 Hr2]; [done|].
  rewrite copy_exact by (unfold len in Hid; change (length (zeros 16)) with 16%nat; lia).
  split; [unfold wf_seal; cbn; unfold is_u64 in *; cbn in Hs1, Hr1; split_and!; lia|].
  unfold seal_bytes. cbn [SealSessionID SealMACKey SealAEADKey SealSendSeq SealRecvSeq SealSelected SealSuite].
  rewrite !(byte_of_byteZ_len b), !(byte_of_byteZ_len b1), !(byte_of_byteZ_len c), <- Hs2, <- Hr2, byte_of_byteZ by done. done.
Qed.

(** A sealed session is exact.  The decoder of a seal accepts exactly the bytes
    that the encoder makes of a seal whose fields fit, and returns that seal; no
    input makes it panic. *)
Lemma decodeSeal_exact p s :
  (decodeSeal p = Ok s <-> wf_seal s /\ encodeSeal s = Ok p) /\ decodeSeal p <> Panic.
Proof.
  pose proof (decodeSeal_inv p) as H. split.
  - split; [intros E; rewrite E in H; destruct H as [Hw ->]; split; [done|by apply encodeSeal_bytes]|].
    intros [Hw E]. rewrite encodeSeal_bytes in E by done. injection E as <-. by apply decodeSeal_bytes.
  - intros E. by rewrite E in H.
Qed.

(** ** Keyrings *)

Definition good_peer (p : bytes * bytes) : Prop := ValidatePeerID p.1 = Ok tt /\ len p.2 = RootKeySize.

Lemma ValidatePeerID_len id : ValidatePeerID id = Ok tt -> 1 <= len id <= 64.
Proof.
  unfold ValidatePeerID. case_bool_decide as Hn; [done|]. destruct (maxPeerIDLen <? len id) eqn:E; [done|]. reflect_bools.
  intros _. pose proof (len_nonneg id). assert (len id <> 0) by (by intros ?%len_zero_nil). unfold maxPeerIDLen in *. lia.
Qed.

Lemma ValidatePeerID_total id : ValidatePeerID id <> Panic.
Proof. unfold ValidatePeerID. by repeat case_match. Qed.

Lemma validate_peers_ok l : validate_peers l = Ok tt <-> Forall good_peer l.
Proof.
  induction l as [|[id key] l IH]; [done|]. cbn [validate_peers]. rewrite Forall_cons, <- IH. unfold good_peer. cbn [fst snd].
  destruct (ValidatePeerID id) as [[]|e|]; cbn [bind]; [|naive_solver..].
  destruct (len key =? RootKeySize) eqn:E; cbn [negb]; reflect_bools; naive_solver.
Qed.

Lemma ValidateKeyring_ok kr :
  ValidateKeyring kr = Ok tt <-> 1 <= Z.of_nat (size kr) <= 32 /\ map_Forall (fun id key => good_peer (id, key)) kr.
Proof.
  unfold ValidateKeyring, maxPeerKeyring.
  assert (Heq : validate_peers (map_to_list kr) = Ok tt <-> map_Forall (fun id key => good_peer (id, key)) kr).
  { rewrite validate_peers_ok, map_Forall_to_list. apply Forall_iff. by intros []. }
  rewrite <- Heq. destruct (Z.of_nat (size kr) =? 0) eqn:E1; reflect_bools; [split; [done|]; lia|].
  destruct (32 <? Z.of_nat (size kr)) eqn:E2; reflect_bools; [split; [done|]; lia|].
  split; [intros; split; [lia|done]|tauto].
Qed.

(** The keyring as the decoder builds it. *)
Definition add_peers (kr0 : PeerKeyring) (ids : list bytes) (kr : PeerKeyring) : PeerKeyring :=
  fold_left (fun m id => <[id := key_of kr0 id]> m) ids kr.

Lemma add_peers_lookup kr0 ids kr id :
  add_peers kr0 ids kr !! id = if decide (id ∈ ids) then Some (key_of kr0 id) else kr !! id.
Proof.
  revert kr. induction ids as [|x ids IH]; intros kr; cbn [add_peers fold_left]; [by rewrite decide_False by apply not_elem_of_nil|].
  change (add_peers kr0 ids (<[x := key_of kr0 x]> kr) !! id = if decide (id ∈ x :: ids) then Some (key_of kr0 id) else kr !! id).
  rewrite IH. destruct (decide (id ∈ ids)) as [Hi|Hi]; [by rewrite decide_True by (by right)|].
  destruct (decide (id = x)) as [->|Hne]; [by rewrite lookup_insert_eq, decide_True by (by left)|].
  rewrite lookup_insert_ne, decide_False; [done| |done]. by intros [?|?]%elem_of_cons.
Qed.

Lemma decode_peers_encode kr0 ids pre post kr :
  Forall (fun id => good_peer (id, key_of kr0 id)) ids -> NoDup ids -> (forall id, id ∈ ids -> kr !! id = None) ->
  let body := concat (map (encode_peer kr0) ids) in
  decode_peers (length ids) (pre ++ body ++ post) (len pre) kr = Ok (add_peers kr0 ids kr, len (pre ++ body)).
Proof.
  intros Hg. revert pre kr. induction Hg as [|id ids [Hv Hk] Hg IH]; intros pre kr Hnd Hn; cbn [fst snd] in *.
  { cbn. by rewrite app_nil_r. }
  apply NoDup_cons in Hnd as [Hni Hnd]. cbn [map concat length decode_peers]. cbv zeta. set (body := concat _) in *.
  pose proof (ValidatePeerID_len id Hv) as Hl. unfold RootKeySize in *. pose proof (len_nonneg pre). pose proof (len_nonneg body).
  pose proof (len_nonneg post). unfold encode_peer. set (key := key_of kr0 id) in *.
  set (blob := pre ++ _). assert (Hb : blob = pre ++ [byte_of (len id)] ++ id ++ key ++ body ++ post).
  { unfold blob. rewrite <- !app_assoc. done. }
  assert (Hlb : len blob = len pre + 1 + len id + 32 + len body + len post) by (rewrite Hb; len_lia).
  rewrite (proj2 (Z.leb_gt _ _)) by lia.
  assert (Hi : index (E := Error) blob (len pre) = Ok (byte_of (len id))).
  { rewrite Hb. apply index_ok; [lia|]. unfold len. rewrite Nat2Z.id, lookup_app_r, Nat.sub_diag by lia. done. }
  rewrite Hi. cbn [bind]. rewrite byteZ_of_len by lia.
  replace ((len id =? 0) || (maxPeerIDLen <? len id) || (len blob <? len pre + 1 + len id + 32)) with false
    by (unfold maxPeerIDLen; lia). cbv match.
  rewrite slice_ok by lia. cbn [bind]. rewrite slice_ok by lia. cbn [bind].
  replace (sub blob (len pre + 1) (len pre + 1 + len id)) with id by (rewrite Hb; by repeat sub_step).
  replace (sub blob (len pre + 1 + len id) (len pre + 1 + len id + 32)) with key by (rewrite Hb; by repeat sub_step).
  rewrite Hv. cbn [bind]. rewrite bool_decide_false by (rewrite Hn by (by left); by intros []).
  specialize (IH (pre ++ encode_peer kr0 id) (<[id := key]> kr) Hnd). cbv zeta in IH. fold body in IH.
  unfold encode_peer in IH. fold key in IH.
  replace ((pre ++ [byte_of (len id)] ++ id ++ key) ++ body ++ post) with blob in IH by (rewrite Hb, <- !app_assoc; done).
  replace (len pre + 1 + len id + 32) with (len (pre ++ [byte_of (len id)] ++ id ++ key)) by len_lia.
  rewrite IH; [|intros x Hx; rewrite lookup_insert_ne; [apply Hn; by right|by intros ->]].
  f_equal. f_equal. len_lia.
Qed.

Lemma peers_perm (kr : PeerKeyring) : sort_ids (map fst (map_to_list kr)) ≡ₚ map fst (map_to_list kr).
Proof. apply insertion_sort_perm. Qed.

(** A keyring survives its encoding.  The blob that the supervisor makes of a
    valid keyring is decoded by the authenticating role to the same identifiers and
    keys, and is never taken for a single key. *)
Lemma EncodeKeyring_decodes kr blob :
  EncodeKeyring kr = Ok blob -> DecodeRootMaterial blob = Ok (inr kr).
Proof.
  unfold EncodeKeyring. destruct (ValidateKeyring kr) as [[]|e|] eqn:Ev; cbn [bind]; [|done..].
  apply ValidateKeyring_ok in Ev as [Hn Hg]. set (ids := sort_ids _). intros Heq.
  pose proof (peers_perm kr) as Hp. fold ids in Hp.
  assert (Hids : forall id, id ∈ ids <-> is_Some (kr !! id)).
  { intros id. rewrite Hp, list_elem_of_fmap. split.
    - intros ([i k] & -> & Hin). apply elem_of_map_to_list in Hin. eauto.
    - intros [k Hk]. exists (id, k). split; [done|]. by apply elem_of_map_to_list. }
  assert (Hlen : len ids = Z.of_nat (size kr)).
  { unfold len. rewrite Hp, length_map, length_map_to_list. done. }
  assert (Hgood : Forall (fun id => good_peer (id, key_of kr id)) ids).
  { apply Forall_forall. intros id [k Hk]%Hids. unfold key_of. rewrite Hk. by apply Hg. }
  assert (Hnd : NoDup ids) by (rewrite Hp; apply NoDup_fst_map_to_list).
  set (body := concat (map (encode_peer kr) ids)) in *. set (pre := peerKeyringMagic ++ [byte_of (len ids)]) in *.
  assert (Hbl : blob = pre ++ body) by congruence. rewrite Hbl. clear Heq Hbl.
  assert (Hbody : 34 <= len body).
  { destruct ids as [|id l]; [rewrite len_nil in Hlen; lia|]. unfold body. cbn [map concat]. apply Forall_cons in Hgood as [[Hv Hk] _].
    apply ValidatePeerID_len in Hv. cbn [fst snd] in *. unfold encode_peer, RootKeySize in *. pose proof (len_nonneg (concat (map (encode_peer kr) l))). len_lia. }
  assert (Hpre : len pre = 9) by reflexivity. pose proof (len_nonneg body).
  unfold DecodeRootMaterial, RootKeySize. change (len peerKeyringMagic) with 8.
  rewrite (proj2 (Z.eqb_neq _ _)) by len_lia. rewrite (proj2 (Z.ltb_ge _ _)) by len_lia.
  assert (Hblob : pre ++ body = peerKeyringMagic ++ [byte_of (len ids)] ++ body) by (unfold pre; by rewrite <- app_assoc).
  rewrite Hblob, slice_front by done. cbn [bind]. rewrite bool_decide_true by done. cbn [negb].
  assert (Hi : index (E := Error) (peerKeyringMagic ++ [byte_of (len ids)] ++ body) 8 = Ok (byte_of (len ids))) by done.
  rewrite Hi. cbn [bind].
  rewrite byteZ_of_len by lia. unfold maxPeerKeyring.
  replace ((len ids =? 0) || (32 <? len ids)) with false by lia.
  rewrite <- Hblob. change (8 + 1) with 9. rewrite <- Hpre. unfold len at 1. rewrite Nat2Z.id.
  rewrite <- (app_nil_r body). unfold body at 1. rewrite decode_peers_encode by (done || intros; apply lookup_empty).
  cbn [bind]. rewrite app_nil_r. fold body. rewrite Z.eqb_refl. cbn [negb]. do 2 f_equal. apply map_eq. intros id.
  rewrite add_peers_lookup, lookup_empty. destruct (decide (id ∈ ids)) as [Hin|Hin].
  - apply Hids in Hin as [k Hk]. unfold key_of. by rewrite Hk.
  - destruct (kr !! id) eqn:E; [|done]. destruct Hin. by apply Hids.
Qed.

Lemma decode_peers_inv n blob off kr :
  0 <= off -> map_Forall (fun id key => good_peer (id, key)) kr ->
  match decode_peers n blob off kr with
  | Ok (kr', off') => map_Forall (fun id key => good_peer (id, key)) kr' /\ size kr' = (size kr + n)%nat
  | Err _ => True
  | Panic => False
  end.
Proof.
  revert off kr. induction n as [|n IH]; intros off kr Ho Hg; cbn [decode_peers]; [split; [done|lia]|].
  destruct (len blob <=? off) eqn:E; [done|]. reflect_bools.
  destruct (index_sub (E := Error) blob off) as (b & -> & _); [lia..|]. cbn [bind]. pose proof (byteZ_range b).
  destruct (_ || _) eqn:Eb; [done|]. apply orb_false_iff in Eb as [Eb1 Eb2]. reflect_bools. unfold RootKeySize in *.
  rewrite !slice_ok by lia. cbn [bind]. set (id := sub _ _ _). set (key := sub _ (_ + byteZ b) _).
  destruct (ValidatePeerID id) as [[]|e|] eqn:Ev; cbn [bind]; [|done|by apply ValidatePeerID_total in Ev].
  case_bool_decide as Hd; [done|]. specialize (IH (off + 1 + byteZ b + 32) (<[id := key]> kr)).
  assert (Hk : kr !! id = None) by (destruct (kr !! id); [by destruct Hd|done]).
  destruct (decode_peers n _ _ _) as [[kr' off']|e|]; [|done|apply IH; [lia|]].
  - destruct IH as [HG HS]; [lia| |].
    + apply map_Forall_insert_2; [|done]. split; [done|]. cbn [snd]. unfold key, RootKeySize. rewrite len_sub by lia. lia.
    + split; [done|]. rewrite HS, map_size_insert_None by done. lia.
  - apply map_Forall_insert_2; [|done]. split; [done|]. cbn [snd]. unfold key, RootKeySize. rewrite len_sub by lia. lia.
Qed.

(** Accepted key material is valid.  Whatever bytes the authenticating role is
    given, what it accepts is a single key of 32 bytes or a keyring that passes
    [ValidateKeyring]; nothing else is accepted and nothing panics. *)
Lemma DecodeRootMaterial_valid blob :
  match DecodeRootMaterial blob with
  | Ok (inl key) => key = blob /\ len key = RootKeySize
  | Ok (inr kr) => ValidateKeyring kr = Ok tt
  | Err _ => True
  | Panic => False
  end.
Proof.
  unfold DecodeRootMaterial. destruct (len blob =? RootKeySize) eqn:E; [by reflect_bools|].
  change (len peerKeyringMagic) with 8. destruct (len blob <? 8 + 1) eqn:El; [done|]. reflect_bools.
  rewrite slice_ok by lia. cbn [bind]. case_bool_decide; cbn [negb]; [|done].
  destruct (index_sub (E := Error) blob 8) as (c & -> & _); [lia..|]. cbn [bind]. pose proof (byteZ_range c).
  destruct (_ || _) eqn:Ec; [done|]. apply orb_false_iff in Ec as [E1 E2]. unfold maxPeerKeyring in *. reflect_bools.
  pose proof (decode_peers_inv (Z.to_nat (byteZ c)) blob (8 + 1) ∅ ltac:(lia) (map_Forall_empty _)) as Hi.
  destruct (decode_peers _ _ _ _) as [[kr off]|e|]; cbn [bind]; [|done..]. destruct Hi as [Hg Hs]. rewrite map_size_empty in Hs.
  destruct (off =? len blob); cbn [negb]; [|done]. apply ValidateKeyring_ok. split; [lia|done].
Qed.

(** ** Witnesses *)

Definition demo_keyring : PeerKeyring := {[str "alice" := zeros 32; str "bob" := zeros 32]}.

Lemma EncodeKeyring_decodes_witness :
  exists blob, EncodeKeyring demo_keyring = Ok blob /\ DecodeRootMaterial blob = Ok (inr demo_keyring).
Proof.
  assert (Hr : is_ok (EncodeKeyring demo_keyring) = true) by (vm_compute; reflexivity).
  destruct (EncodeKeyring demo_keyring) as [blob|e|] eqn:E; [|discriminate Hr|discriminate Hr].
  exists blob. split; [reflexivity|]. exact (EncodeKeyring_decodes demo_keyring blob E).
Defined.

End RemoteKeys.
