(* ===== verification/RemoteSession.v ===== *)
(** * Sessions over a connection (internal/remotesync: frameio.go, handshake.go)

    The two ends of the handshake over a byte stream, and the data messages of the
    session they establish.  [handshake_completes] runs the two ends against each
    other; [accepted_peer_authentic] says what a session that the serving side
    accepts from arbitrary bytes rests on; [session_delivers] that the messages of an
    established session arrive in order and unchanged; [seal_continues] that the
    network role goes on where the authenticating role stopped. *)

From stdpp Require Import gmap.
From S2P Require Import Prelude Sha256 Codec Crypto Observability Session Protocol Driver FileSystem.
From S2P Require Import RemoteMessages RemoteKeys.
Import Codec FileSystem RemoteMessages RemoteKeys.

Module RemoteSession.

(** ** The connection *)

(** What the peer has sent and is not read yet, what was written, and the outcome
    of the next writes: [None] writes everything, [Some (n, e)] the first [n] bytes
    and returns [n] and [e]. *)
Record Conn := mkConn { cin : bytes; cout : bytes; cfaults : list (option (Z * option bytes)) }.

(** The texts of errors of other packages, and of a stream that ends. *)
Class SessionTexts := {
  proto_text : Protocol.Error -> bytes;
  sess_text : Session.Error -> bytes;
  crypto_text : Crypto.Error -> bytes;
  eof_text : bytes;
  rand_text : bytes }.

(** [conn.Write]: the bytes written and the error. *)
Definition conn_write (raw : bytes) : io Conn Error (Z * option bytes) := fun c =>
  match cfaults c with
  | Some (n, e) :: fl => (mkConn (cin c) (cout c ++ take (Z.to_nat n) raw) fl, Ok (n, e))
  | _ => (mkConn (cin c) (cout c ++ raw) (tail (cfaults c)), Ok (len raw, None))
  end.

Section Frames.
Context `{SessionTexts} `{Crypto.AEADCipher}.
Abbreviation IO := (io Conn Error).

(** [io.ReadFull] into [n] bytes; a short stream is consumed. *)
Definition ReadFull (n : Z) (msg : string) : IO bytes := fun c =>
  if len (cin c) <? n then (mkConn [] (cout c) (cfaults c), Err (wrap KindTransport (str msg) eof_text))
  else (mkConn (drop (Z.to_nat n) (cin c)) (cout c) (cfaults c), Ok (take (Z.to_nat n) (cin c))).

(** ** Frames (frameio.go) *)

Definition ReadFrame : IO bytes :=
  let* hdr := ReadFull Protocol.HeaderBytes "read header" in
  let* magic := lift (slice hdr 0 8) in
  if negb (bool_decide (magic = Protocol.FrameMagic)) then throw (fail KindProtocol (str "bad frame magic")) else
  let* l := lift (slice hdr 14 18) in
  let* bodyLen := lift (U32LE l) in
  if Protocol.MaxBodyBytes <? bodyLen then throw (fail KindProtocol (str "body_length exceeds MaxBodyBytes")) else
  let* f := lift (slice hdr 12 14) in
  let* flags := lift (U16LE f) in
  let needMAC := negb (Z.land flags Protocol.FlagRequiresMAC =? 0) in
  let total := Protocol.HeaderBytes + bodyLen in
  let total := if needMAC then total + Protocol.AuthBytes else total in
  let* body := ReadFull (total - Protocol.HeaderBytes) "read body" in
  ret (hdr ++ body).

Definition WriteFrame (raw : bytes) : IO unit :=
  if len raw <? Protocol.HeaderBytes then throw (fail KindProtocol (str "short frame write")) else
  let* (n, err) := conn_write raw in
  match err with
  | Some e => throw (wrap KindTransport (str "write frame") e)
  | None => if negb (n =? len raw) then throw (fail KindTransport (str "short frame write")) else ret tt
  end.

(** A driver method inside the handshake, with the error it becomes. *)
Definition call {A} (r : Driver.result A) (k : Kind) (msg : string) : IO (Driver.Driver * A) := fun c =>
  match r with
  | (d, Ok a) => (c, Ok (d, a))
  | (_, Err e) => (c, Err (wrap k (str msg) (proto_text e)))
  | (_, Panic) => (c, Panic)
  end.

(** A session method on the driver's session. *)
Definition session_call (d : Driver.Driver) (r : Session.result) (msg : string) : IO Driver.Driver := fun c =>
  match r with
  | (s, Ok _) => (c, Ok (Driver.set_Session s d))
  | (_, Err e) => (c, Err (wrap KindHandshake (str msg) (sess_text e)))
  | (_, Panic) => (c, Panic)
  end.

Definition crypto_call {A} (r : res Crypto.Error A) (msg : string) : IO A :=
  lift (map_err (fun e => wrap KindAuth (str msg) (crypto_text e)) r).

(** [send] and [recv] of a connection and a driver. *)
Definition send (typ : Z) (body : bytes) : io (Conn * Driver.Driver) Error unit := fun '(c, d) =>
  let '(d, r) := Driver.EncodeFrame typ body d in
  match r with
  | Ok raw => let '(c, r) := WriteFrame raw c in ((c, d), r)
  | Err e => ((c, d), Err (wrap KindProtocol (str "encode") (proto_text e)))
  | Panic => ((c, d), Panic)
  end.

Definition recv : io (Conn * Driver.Driver) Error Protocol.Frame := fun '(c, d) =>
  match ReadFrame c with
  | (c, Ok raw) =>
      let '(d, r) := Driver.DecodeAndHandle raw d in
      ((c, d), map_err (fun e => wrap KindProtocol (str "handle") (proto_text e)) r)
  | (c, Err e) => ((c, d), Err e)
  | (c, Panic) => ((c, d), Panic)
  end.

(** ** The peer prologue (peer_keyring.go) *)

Definition WritePeerPrologue (peerID : bytes) : IO unit :=
  let* _ := lift (ValidatePeerID peerID) in
  let buf := peerPrologueMagic ++ [byte_of (len peerID)] ++ peerID in
  let* (_, err) := conn_write buf in
  match err with
  | Some e => throw (wrap KindTransport (str "peer prologue") e)
  | None => ret tt
  end.

Definition ReadPeerPrologue : IO bytes :=
  let* hdr := ReadFull (len peerPrologueMagic + 1) "peer prologue" in
  let* magic := lift (slice hdr 0 (len peerPrologueMagic)) in
  if negb (bool_decide (magic = peerPrologueMagic)) then throw (fail KindAuth (str "missing peer prologue")) else
  let* b := lift (index hdr (len peerPrologueMagic)) in
  let n := byteZ b in
  if (n =? 0) || (maxPeerIDLen <? n) then throw (fail KindAuth (str "bad peer id length")) else
  let* s := ReadFull n "peer id" in
  let* _ := lift (ValidatePeerID s) in
  ret s.

(** ** The handshake (handshake.go) *)

Definition offeredVersions : list Z := [3; 2].

Record Session := mkSession { SDriver : Driver.Driver; SRoot : option bytes; SRole : string }.

Definition set_handshake_keys (authKey archKey : bytes) (dir : string) (d : Driver.Driver) : Driver.Driver :=
  Driver.mkDriver (Driver.Session_ d) (Driver.DSessionID d) (Driver.SendSeq d) (Driver.RecvSeq d) (Driver.MACKey d)
    (Driver.AEADKey d) authKey dir archKey (Driver.RequireMAC d) (Driver.LastPlaintext d) (Driver.TrackDataChunks d)
    (Driver.NextDataOffset d) (Driver.NextSendOffset d).

Definition bad_root : Error := fail KindInvalidArgument (str "root key must be " ++ itoa RootKeySize ++ str " bytes").

Definition suites : list string := [Crypto.SuiteIDAEAD].

(** [newSessionID]: the 16 random bytes, or the failure of the source. *)
Definition newSessionID (rnd : option bytes) : IO bytes :=
  match rnd with
  | Some sid => ret sid
  | None => throw (wrap KindInternal (str "session id") rand_text)
  end.

Definition DialHandshake (root peerID : bytes) (rnd : option bytes) : IO Session :=
  if negb (len root =? RootKeySize) then throw bad_root else
  let* _ := if negb (bool_decide (peerID = [])) then WritePeerPrologue peerID else ret tt in
  let* macKey := crypto_call (deriveMACKey root peerID) "mac key" in
  let* sid := newSessionID rnd in
  let alice := Driver.NewDriverWithSuites offeredVersions suites sid macKey true in
  let* alice := session_call alice (Session.Negotiate (Driver.Session_ alice)) "negotiate local" in
  let* (alice, raw) := call (Driver.EncodeNegotiateOffer offeredVersions alice) KindHandshake "offer" in
  let* _ := WriteFrame raw in
  let* raw := ReadFrame in
  let* (alice, _) := call (Driver.DecodeAndHandle raw alice) KindHandshake "accept" in
  let* authKey := crypto_call (Crypto.PeerAuthKey root sid) "peer key" in
  let* archKey := crypto_call (Crypto.ArchiveAuthKey root sid) "archive key" in
  let alice := set_handshake_keys authKey archKey "i2r" alice in
  let* (alice, raw) := call (Driver.EncodePeerAuth alice) KindAuth "peer auth i2r" in
  let* _ := WriteFrame raw in
  let* raw := ReadFrame in
  let* (alice, _) := call (Driver.DecodeAndHandle raw alice) KindAuth "peer auth r2i" in
  let* (alice, raw) := call (Driver.EncodeArchiveAuth alice) KindAuth "archive auth" in
  let* _ := WriteFrame raw in
  let* alice := session_call alice (Session.Activate (Driver.Session_ alice)) "activate local" in
  let* (alice, raw) := call (Driver.EncodeFrame Protocol.TypeActivate [] alice) KindProtocol "encode" in
  let* _ := WriteFrame raw in
  let* (alice, _) := call (Driver.InstallTrafficKey root alice) KindAuth "traffic key" in
  ret (mkSession alice (Some root) "push").

Definition acceptHandshake (root peerID : bytes) : IO Session :=
  if negb (len root =? RootKeySize) then throw bad_root else
  let* macKey := crypto_call (deriveMACKey root peerID) "mac key" in
  let* raw := ReadFrame in
  let* f := lift (map_err (fun e => wrap KindHandshake (str "decode offer") (proto_text e)) (Protocol.Decode raw macKey true)) in
  let bob := Driver.NewDriverWithSuites offeredVersions suites (Protocol.SessionID f) macKey true in
  let* (bob, _) := call (Driver.Handle f bob) KindHandshake "offer" in
  let* (bob, raw) := call (Driver.EncodeNegotiateAccept bob) KindHandshake "accept" in
  let* _ := WriteFrame raw in
  let* authKey := crypto_call (Crypto.PeerAuthKey root (Protocol.SessionID f)) "peer key" in
  let* archKey := crypto_call (Crypto.ArchiveAuthKey root (Protocol.SessionID f)) "archive key" in
  let bob := set_handshake_keys authKey archKey "r2i" bob in
  let* raw := ReadFrame in
  let* (bob, _) := call (Driver.DecodeAndHandle raw bob) KindAuth "peer auth i2r" in
  let* (bob, raw) := call (Driver.EncodePeerAuth bob) KindAuth "peer auth r2i" in
  let* _ := WriteFrame raw in
  let* raw := ReadFrame in
  let* (bob, _) := call (Driver.DecodeAndHandle raw bob) KindAuth "archive auth" in
  let* raw := ReadFrame in
  let* (bob, _) := call (Driver.DecodeAndHandle raw bob) KindHandshake "activate" in
  let* (bob, _) := call (Driver.InstallTrafficKey root bob) KindAuth "traffic key" in
  ret (mkSession bob (Some root) "serve").

Definition AcceptHandshake (root : bytes) : IO Session := acceptHandshake root [].

(** The peer identifier is returned with the failure too, once it was read. *)
Definition AcceptHandshakeKeyring (kr : PeerKeyring) : io Conn (Error * bytes) (Session * bytes) :=
  let* _ := or_fail (lift (ValidateKeyring kr)) (fun e => (e, [])) in
  let* peerID := or_fail ReadPeerPrologue (fun e => (e, [])) in
  match kr !! peerID with
  | None => throw (fail KindAuth (str "unknown peer id " ++ PeerIDDigest peerID), peerID)
  | Some root =>
      let* sess := or_fail (acceptHandshake root peerID) (fun e => (e, peerID)) in
      ret (sess, peerID)
  end.

(** ** Data *)

Definition sendData (payload : bytes) : io (Conn * Driver.Driver) Error unit := send Protocol.TypeData payload.

Definition recvData : io (Conn * Driver.Driver) Error bytes :=
  let* f := recv in
  if Protocol.Type_ f =? Protocol.TypeData then (fun '(c, d) => ((c, d), Ok (Driver.LastPlaintext d)))
  else if Protocol.Type_ f =? Protocol.TypeClose then throw (fail KindTransport (str "peer closed"))
  else if Protocol.Type_ f =? Protocol.TypeFailure then throw (fail KindProtocol (str "peer failure"))
  else throw (fail KindProtocol (str "unexpected type " ++ itoa (Protocol.Type_ f) ++ str " after ACTIVE")).

(** [Close] writes a close frame when it can; closing the connection is not
    modelled. *)
Definition Close : io (Conn * Driver.Driver) Error unit := fun '(c, d) =>
  if bool_decide (Session.State_ (Driver.Session_ d) = Session.StateActive)
  then ignore (send Protocol.TypeClose []) (c, d) else ((c, d), Ok tt).

(** ** Sealing a session (session_seal.go) *)

Definition sealFromDriver (d : Driver.Driver) : res Error sessionSeal :=
  if negb (bool_decide (Session.State_ (Driver.Session_ d) = Session.StateActive))
  then Err (fail KindHandshake (str "seal requires ACTIVE")) else
  if negb (len (Driver.AEADKey d) =? Crypto.AEADKeySize) || (len (Driver.MACKey d) <? 16)
  then Err (fail KindAuth (str "incomplete sealed keys")) else
  Ok (mkSeal (Driver.DSessionID d) (Driver.MACKey d) (Driver.AEADKey d) (Driver.SendSeq d) (Driver.RecvSeq d)
        (Session.Selected (Driver.Session_ d)) (sbytes (Session.SelectedSuite (Driver.Session_ d)))).

(** The session that the seal describes, already authenticated. *)
Definition sealed_session (suite : string) (selected : Z) (s : Session.Session) : Session.Session :=
  let s := Session.set_State Session.StateActive s in
  let s := Session.set_Selected selected s in
  let s := Session.set_SelectedSuite suite s in
  let s := Session.set_PeerAuthenticated true s in
  let s := Session.set_AuthI2R true s in
  let s := Session.set_AuthR2I true s in
  Session.set_ArchiveAuthorized true s.

Definition SessionFromSeal (sealRaw : bytes) : res Error Session :=
  let! seal := decodeSeal sealRaw in
  let suite := String.string_of_list_byte (SealSuite seal) in
  let sts := if bool_decide (SealSuite seal = []) then [Crypto.SuiteIDAEAD] else [suite] in
  let d := Driver.NewDriverWithSuites offeredVersions sts (SealSessionID seal) (SealMACKey seal) true in
  let d := Driver.set_Session (sealed_session suite (SealSelected seal) (Driver.Session_ d)) d in
  let d := Driver.set_SendSeq (SealSendSeq seal) d in
  let d := Driver.set_RecvSeq (SealRecvSeq seal) d in
  match Driver.SetAEADKey (SealAEADKey seal) d with
  | (d, Ok _) => Ok (mkSession d None "serve")
  | (_, Err e) => Err (wrap KindAuth (str "aead") (proto_text e))
  | (_, Panic) => Panic
  end.

End Frames.

(** ** Frames cross a connection *)

Section Crossing.
Context `{SessionTexts} `{Crypto.AEADLaws}.

Lemma ReadFull_front n msg a b out fl :
  n = len a -> ReadFull n msg (mkConn (a ++ b) out fl) = (mkConn b out fl, Ok a).
Proof.
  intros ->. unfold ReadFull. cbn [cin cout cfaults]. pose proof (len_nonneg b).
  rewrite (proj2 (Z.ltb_ge _ _)) by len_lia. unfold len. rewrite Nat2Z.id, take_app_length, drop_app_length. done.
Qed.

Lemma ReadFrame_wire f key rest out fl :
  Protocol.valid_frame f -> Protocol.Flags f = 1 ->
  ReadFrame (mkConn (Protocol.wire f key true ++ rest) out fl) = (mkConn rest out fl, Ok (Protocol.wire f key true)).
Proof.
  intros (_ & _ & _ & Hs & _ & Hb) Hf. rewrite Protocol.MaxBodyBytes_val in Hb. pose proof (len_nonneg (Protocol.Body f)).
  set (raw := Protocol.wire f key true).
  assert (Hlen : len raw = 42 + len (Protocol.Body f) + 32).
  { unfold raw, Protocol.wire. cbn [Protocol.needs orb]. rewrite len_app, Protocol.len_frame_body by done.
    unfold Protocol.macSHA256. rewrite len_hmac_sha256. lia. }
  pose proof (Protocol.body_fields f (if Protocol.needs f key true then Protocol.macSHA256 key (Protocol.frame_body f) else []) Hs ltac:(lia))
    as (R0 & _ & _ & R3 & R4 & _). fold (Protocol.wire f key true) in R0, R3, R4. fold raw in R0, R3, R4.
  assert (Hraw : raw = sub raw 0 42 ++ sub raw 42 (len raw)).
  { rewrite <- sub_split by lia. by rewrite sub_full. }
  unfold ReadFrame. rewrite Hraw at 1. rewrite <- app_assoc. unfold io_bind at 1.
  rewrite ReadFull_front by (rewrite len_sub; unfold Protocol.HeaderBytes; lia).
  unfold lift, io_bind. rewrite slice_ok, sub_sub by (rewrite ?len_sub; lia). rewrite !Z.add_0_l, R0.
  rewrite bool_decide_true by done. cbn [negb]. rewrite slice_ok, sub_sub by (rewrite ?len_sub; lia). rewrite !Z.add_0_l, R4.
  rewrite U32LE_ok, le_val_bytes by (rewrite ?len_le_bytes; cbn; lia). rewrite Protocol.MaxBodyBytes_val, (proj2 (Z.ltb_ge _ _)) by lia.
  rewrite slice_ok, sub_sub by (rewrite ?len_sub; lia). rewrite !Z.add_0_l, R3.
  rewrite U16LE_ok, le_val_bytes by (rewrite ?len_le_bytes, ?Hf; cbn; lia). rewrite Hf.
  change (negb (Z.land 1 Protocol.FlagRequiresMAC =? 0)) with true. cbv match. unfold Protocol.HeaderBytes, Protocol.AuthBytes.
  rewrite ReadFull_front by (rewrite len_sub; lia). by rewrite <- Hraw.
Qed.

(** ** An honest handshake *)

(** The sessions of the handshake: only these fields change on the way. *)
Definition hs_session (st : Session.State) (sel : Z) (suite : string) (pa i2r r2i ar : bool) (t : Crypto.Transcript)
    (ab : bytes) (abs : bool) (rb : bytes) (rbs : bool) : Session.Session :=
  Session.mkSession st offeredVersions sel suites suite true pa i2r r2i ar 0 0 false false None (Some t) ab abs rb rbs.

Lemma bind_hs l x st sel suite pa i2r r2i ar t ab abs rb rbs :
  exists t', Session.bind_label l x (hs_session st sel suite pa i2r r2i ar t ab abs rb rbs) =
    hs_session st sel suite pa i2r r2i ar t' ab abs rb rbs.
Proof.
  unfold Session.bind_label, hs_session. cbn [Session.Transcript]. destruct (Crypto.Append t l x) as [t'|e|]; eauto.
Qed.

(** Replace the next recorded label by the session with the extended transcript. *)
Ltac bind_step :=
  match goal with |- context [Session.bind_label ?l ?x (hs_session ?st ?sel ?su ?pa ?i ?r ?ar ?t ?ab ?abs ?rb ?rbs)] =>
    let t' := fresh "t" in let E := fresh "E" in
    destruct (bind_hs l x st sel su pa i r ar t ab abs rb rbs) as [t' E]; rewrite E; clear E end.

Definition fresh_session (t : Crypto.Transcript) (z : bytes) : Session.Session :=
  hs_session Session.StateNew 0 "" false false false false t z false z false.

Lemma hs_negotiate t z :
  exists t', Session.Negotiate (fresh_session t z) =
    (hs_session Session.StateNegotiated 3 Crypto.SuiteIDAEAD false false false false t' (Crypto.Digest t') true z false, Ok tt).
Proof.
  unfold Session.Negotiate, fresh_session. change (bool_decide (Session.State_ _ = Session.StateNew)) with true. cbn [negb].
  change (Session.highest _) with (3, true). cbn [negb]. unfold Session.bindVersions.
  change (Session.set_State Session.StateNegotiated _) with
    (hs_session Session.StateNegotiated 3 "" false false false false t z false z false).
  do 3 bind_step. change (Session.RequireSuite _ || _) with true. cbv match.
  change (Session.SelectSuite Session.LocalSuites _) with (Crypto.SuiteIDAEAD, true). cbn [negb].
  change (Session.set_SelectedSuite Crypto.SuiteIDAEAD (hs_session ?st ?sel ?su ?pa ?i ?r ?ar ?t ?ab ?abs ?rb ?rbs))
    with (hs_session st sel Crypto.SuiteIDAEAD pa i r ar t ab abs rb rbs).
  bind_step. eexists. reflexivity.
Qed.

Lemma make_proof k sid dir ab i2r r2i t z :
  16 <= len k -> dir = "i2r"%string \/ dir = "r2i"%string ->
  exists p, Session.MakeAuthProof k sid dir
      (hs_session Session.StateNegotiated 3 Crypto.SuiteIDAEAD false i2r r2i false t ab true z false) = Ok p /\
    Crypto.VerifyPeerAuthProof k ab sid dir p = Ok tt /\ len p = 32.
Proof.
  intros Hk Hd. destruct (Session.PeerAuthProof_made k ab sid dir Hk Hd) as (p & Hm & Hv). exists p.
  unfold Session.MakeAuthProof. change (bool_decide _) with true. cbn [negb]. change (Session.AuthBaseSet _) with true. cbn [negb].
  change (Session.downgraded _) with false. cbv match. change (Session.AuthBaseDigest _) with ab. rewrite Hm. split_and!; [done|done|].
  unfold Crypto.PeerAuthProof in Hm. repeat case_match; try done. injection Hm as <-. apply len_hmac_sha256.
Qed.

Lemma hs_authenticate k sid dir p ab i2r r2i t z :
  Crypto.VerifyPeerAuthProof k ab sid dir p = Ok tt ->
  dir = "i2r"%string /\ i2r = false \/ dir = "r2i"%string /\ r2i = false ->
  exists t', Session.AuthenticateProof k sid dir p
      (hs_session Session.StateNegotiated 3 Crypto.SuiteIDAEAD false i2r r2i false t ab true z false) =
    (if i2r || r2i
     then hs_session Session.StatePeerAuthenticated 3 Crypto.SuiteIDAEAD true true true false t' ab true (Crypto.Digest t') true
     else hs_session Session.StateNegotiated 3 Crypto.SuiteIDAEAD false (bool_decide (dir = "i2r"%string)) (bool_decide (dir = "r2i"%string))
            false t' ab true z false, Ok tt).
Proof.
  intros Hv Hd. unfold Session.AuthenticateProof. change (bool_decide (Session.State_ _ = _)) with true. cbn [negb].
  change (Session.AuthBaseSet _) with true. cbn [negb]. change (Session.downgraded _) with false. cbv match.
  change (Session.AuthI2R _) with i2r. change (Session.AuthR2I _) with r2i. unfold Session.accept_proof.
  change (Session.AuthBaseDigest _) with ab. rewrite Hv. cbn [is_ok negb]. do 2 bind_step.
  destruct Hd as [[-> ->]|[-> ->]].
  - change (bool_decide ("i2r"%string = "i2r"%string)) with true. cbv match. cbn [orb]. destruct r2i; eexists; reflexivity.
  - change (bool_decide ("r2i"%string = "i2r"%string)) with false. change (bool_decide ("r2i"%string = "r2i"%string)) with true.
    cbv match. rewrite orb_false_r. destruct i2r; eexists; reflexivity.
Qed.

Lemma hs_archive ka sid ab rb t :
  16 <= len ka ->
  let s := hs_session Session.StatePeerAuthenticated 3 Crypto.SuiteIDAEAD true true true false t ab true rb true in
  exists pa t', Session.MakeArchiveProof ka sid s = Ok pa /\ len pa = 32 /\
    Session.AuthorizeArchiveProof ka sid pa s =
      (hs_session Session.StateArchiveAuthorized 3 Crypto.SuiteIDAEAD true true true true t' ab true rb true, Ok tt).
Proof.
  intros Hk s. destruct (Session.ArchiveAuthProof_made ka rb sid Hk) as (pa & Hm & Hv). exists pa.
  unfold Session.MakeArchiveProof, Session.AuthorizeArchiveProof. change (negb _ || negb _) with false. cbv match.
  change (Session.ArchiveBaseSet s) with true. cbn [negb]. change (Session.ArchiveBaseDigest s) with rb. rewrite Hm, Hv. cbn [is_ok negb map_err].
  unfold s. bind_step. eexists. split; [done|]. split; [|reflexivity].
  unfold Crypto.ArchiveAuthProof in Hm. case_match; [done|]. injection Hm as <-. apply len_hmac_sha256.
Qed.

Lemma hs_activate ab rb t :
  exists t', Session.Activate (hs_session Session.StateArchiveAuthorized 3 Crypto.SuiteIDAEAD true true true true t ab true rb true) =
    (hs_session Session.StateActive 3 Crypto.SuiteIDAEAD true true true true t' ab true rb true, Ok tt).
Proof.
  unfold Session.Activate. change (bool_decide (Session.State_ _ = _)) with true. cbn [negb].
  change (negb _ || negb _) with false. cbv match. change (Session.downgraded _) with false. cbv match.
  change (Session.set_State Session.StateActive _) with
    (hs_session Session.StateActive 3 Crypto.SuiteIDAEAD true true true true t ab true rb true).
  bind_step. change (bool_decide (Session.SelectedSuite _ = ""%string)) with false. cbn [negb].
  change (Session.SelectedSuite _) with Crypto.SuiteIDAEAD. bind_step. eexists. reflexivity.
Qed.

(** Bytes that one end writes and the other reads as one frame. *)
Definition crosses (raw : bytes) : Prop :=
  (forall rest out fl, ReadFrame (mkConn (raw ++ rest) out fl) = (mkConn rest out fl, Ok raw)) /\
  (forall inp out, WriteFrame raw (mkConn inp out []) = (mkConn inp (out ++ raw) [], Ok tt)).

Lemma wire_crosses f key : Protocol.valid_frame f -> Protocol.Flags f = 1 -> crosses (Protocol.wire f key true).
Proof.
  intros Hv Hf. split; [intros; by apply ReadFrame_wire|]. intros inp out. unfold WriteFrame.
  destruct Hv as (_ & _ & _ & Hs & _). pose proof (len_nonneg (Protocol.Body f)).
  assert (Hl : 42 <= len (Protocol.wire f key true)).
  { unfold Protocol.wire. pose proof (len_nonneg (if Protocol.needs f key true then Protocol.macSHA256 key (Protocol.frame_body f) else [])).
    rewrite len_app, Protocol.len_frame_body by done. lia. }
  unfold Protocol.HeaderBytes. rewrite (proj2 (Z.ltb_ge _ _)) by done.
  unfold io_bind, conn_write. cbn [cfaults cin cout tail]. by rewrite Z.eqb_refl.
Qed.

Section Ends.
Context (sid mac : bytes).
Hypothesis len_sid : len sid = 16.
Hypothesis len_mac : 16 <= len mac.

(** The drivers of the handshake. *)
Definition hs_driver (s : Session.Session) (snd rcv : Z) (ak : bytes) (dir : string) (ar aead : bytes) : Driver.Driver :=
  Driver.mkDriver s sid snd rcv mac aead ak dir ar true [] false 0 0.

Definition control (typ seq : Z) (body : bytes) : Protocol.Frame := Protocol.mkFrame 1 typ 1 sid seq body.

Lemma control_frame s snd rcv ak dir ar typ body :
  Protocol.known typ = true -> typ <> Protocol.TypeData -> 0 <= snd < 100 -> len body <= 4096 ->
  exists raw, Driver.EncodeFrame typ body (hs_driver s snd rcv ak dir ar []) =
      (hs_driver s (snd + 1) rcv ak dir ar [], Ok raw) /\
    crosses raw /\ Protocol.Decode raw mac true = Ok (control typ snd body).
Proof.
  intros Hk Ht Hs Hb. set (d := hs_driver s snd rcv ak dir ar []).
  destruct (Driver.EncodeFrame_delivers d typ body) as (raw & He & Hd).
  { split; [done|]. split; [done|]. by left. }
  { unfold is_u64. cbn. lia. } { done. } { rewrite Protocol.MaxBodyBytes_val. lia. }
  exists raw. split; [rewrite He; unfold d, hs_driver, Driver.set_SendSeq; cbn; rewrite u64_small by (unfold is_u64; lia); done|].
  change (Driver.MACKey d) with mac in Hd. change (Driver.RequireMAC d) with true in Hd.
  assert (Hf : Driver.sent_frame d typ body = control typ snd body).
  { unfold Driver.sent_frame, Protocol.normalize. rewrite Driver.auth_needs. unfold Driver.sealed.
    rewrite (proj2 (Z.eqb_neq _ _)) by done. done. }
  rewrite Hf in Hd. split; [|done]. apply Protocol.Decode_exact in Hd as (Hv & _ & ->). by apply wire_crosses.
Qed.

(** What a control frame does at the other end: decode it and pass the checks of
    [Handle] up to its type. *)
Ltac open_handle :=
  unfold Driver.Handle; cbn [Protocol.SessionID Protocol.Sequence Protocol.Type_ Protocol.Body control Driver.DSessionID
    Driver.RecvSeq Driver.Session_ Driver.AuthKey Driver.ArchiveKey hs_driver];
  rewrite (bool_decide_true (sid = sid)), Z.eqb_refl by done; cbn [negb];
  match goal with |- context [Protocol.CriticalUnknown ?t] => change (Protocol.CriticalUnknown t) with false end;
  repeat match goal with |- context [if ?a =? ?b then _ else _] =>
    first [change (a =? b) with false|change (a =? b) with true]; cbv match end.
Ltac open_control Hd :=
  unfold Driver.DecodeAndHandle; cbn [Driver.MACKey Driver.RequireMAC hs_driver]; rewrite Hd; cbn [Driver.on_value]; open_handle.
Ltac close_control :=
  unfold Driver.on_session, Driver.accepted; cbn; rewrite u64_small by (unfold is_u64; lia); reflexivity.

Lemma handle_peer_auth raw s s' snd rcv ak dir ar d p :
  Protocol.Decode raw mac true = Ok (control Protocol.TypePeerAuth rcv (Protocol.EncodePeerAuthBody d p)) ->
  d = "i2r"%string \/ d = "r2i"%string -> 16 <= len p -> 0 < len ak -> 0 <= rcv < 100 ->
  Session.AuthenticateProof ak sid d p s = (s', Ok tt) ->
  exists f, Driver.DecodeAndHandle raw (hs_driver s snd rcv ak dir ar []) = (hs_driver s' snd (rcv + 1) ak dir ar [], Ok f).
Proof.
  intros Hd Hdir Hp Hak Hr Hs. eexists. open_control Hd.
  rewrite (proj2 (Z.ltb_lt _ _)) by done. rewrite Protocol.ParsePeerAuth_encode by done. cbn [Driver.on_value]. rewrite Hs. close_control.
Qed.

Lemma handle_archive_auth raw s s' snd rcv ak dir ar p :
  Protocol.Decode raw mac true = Ok (control Protocol.TypeArchiveAuth rcv p) -> 0 < len ar -> 0 <= rcv < 100 ->
  Session.AuthorizeArchiveProof ar sid p s = (s', Ok tt) ->
  exists f, Driver.DecodeAndHandle raw (hs_driver s snd rcv ak dir ar []) = (hs_driver s' snd (rcv + 1) ak dir ar [], Ok f).
Proof. intros Hd Har Hr Hs. eexists. open_control Hd. rewrite (proj2 (Z.ltb_lt _ _)) by done. rewrite Hs. close_control. Qed.

Lemma handle_activate raw s s' snd rcv ak dir ar :
  Protocol.Decode raw mac true = Ok (control Protocol.TypeActivate rcv []) -> 0 <= rcv < 100 ->
  Session.Activate s = (s', Ok tt) ->
  exists f, Driver.DecodeAndHandle raw (hs_driver s snd rcv ak dir ar []) = (hs_driver s' snd (rcv + 1) ak dir ar [], Ok f).
Proof. intros Hd Hr Hs. eexists. open_control Hd. rewrite Hs. close_control. Qed.

Lemma handle_accept raw s snd rcv ak dir ar v su body :
  Protocol.EncodeNegotiateAcceptBody v su = Ok body -> 0 <= v < 256 ->
  Protocol.Decode raw mac true = Ok (control Protocol.TypeNegotiateAccept rcv body) -> 0 <= rcv < 100 -> 0 < len body ->
  Session.State_ s = Session.StateNegotiated -> Session.ConfirmAccept v su s = (s, Ok tt) ->
  exists f, Driver.DecodeAndHandle raw (hs_driver s snd rcv ak dir ar []) = (hs_driver s snd (rcv + 1) ak dir ar [], Ok f).
Proof.
  intros Hb Hv Hd Hr Hl Hst Hs. eexists. apply Protocol.NegotiateAccept_bijective in Hb; [|done]. open_control Hd.
  rewrite (proj2 (Z.ltb_lt _ _)) by done. rewrite Hb. cbn [Driver.on_value]. rewrite Hst. cbn [Driver.Session_ hs_driver].
  change (bool_decide (Session.StateNegotiated = Session.StateNew)) with false. cbv match. rewrite Hs. close_control.
Qed.

Lemma handle_offer s s' snd rcv ak dir ar vers sts body :
  Protocol.ParseNegotiateOfferBody body = Ok (vers, sts) -> 0 < len body -> 0 <= rcv < 100 ->
  Session.State_ s = Session.StateNew -> Session.Negotiate (Driver.with_offer vers sts s) = (s', Ok tt) ->
  Driver.Handle (control Protocol.TypeNegotiateOffer rcv body) (hs_driver s snd rcv ak dir ar []) =
    (hs_driver s' snd (rcv + 1) ak dir ar [], Ok tt).
Proof.
  intros Hb Hl Hr Hst Hs. open_handle. rewrite Hst. change (bool_decide (Session.StateNew = Session.StateNew)) with true. cbv match.
  rewrite (proj2 (Z.ltb_lt _ _)) by done. rewrite Hb. cbn [Driver.on_value]. rewrite Hs. close_control.
Qed.

(** *** The two ends, step by step *)

Definition offer_body : bytes :=
  match Protocol.EncodeNegotiateOfferBody offeredVersions suites with Ok b => b | _ => [] end.
Definition accept_body : bytes :=
  match Protocol.EncodeNegotiateAcceptBody 3 Crypto.SuiteIDAEAD with Ok b => b | _ => [] end.

Lemma offer_body_ok : Protocol.EncodeNegotiateOfferBody offeredVersions suites = Ok offer_body /\
  Protocol.ParseNegotiateOfferBody offer_body = Ok (offeredVersions, suites) /\ 0 < len offer_body <= 4096.
Proof. vm_compute. split_and!; congruence. Qed.
Lemma accept_body_ok : Protocol.EncodeNegotiateAcceptBody 3 Crypto.SuiteIDAEAD = Ok accept_body /\ 0 < len accept_body <= 4096.
Proof. vm_compute. split_and!; congruence. Qed.

Lemma encode_offer s snd rcv ak dir ar :
  Session.OfferedSuites s = suites -> 0 <= snd < 100 ->
  exists raw, Driver.EncodeNegotiateOffer offeredVersions (hs_driver s snd rcv ak dir ar []) = (hs_driver s (snd + 1) rcv ak dir ar [], Ok raw) /\
    crosses raw /\ Protocol.Decode raw mac true = Ok (control Protocol.TypeNegotiateOffer snd offer_body).
Proof.
  intros Hs Hn. destruct offer_body_ok as (He & _ & Hl). unfold Driver.EncodeNegotiateOffer. cbn [Driver.Session_ hs_driver]. rewrite Hs.
  change (len suites =? 0) with false. cbv match. rewrite He. cbn [Driver.on_value]. apply control_frame; (done || lia).
Qed.

Lemma encode_accept s snd rcv ak dir ar :
  Session.State_ s = Session.StateNegotiated -> Session.Selected s = 3 -> Session.SelectedSuite s = Crypto.SuiteIDAEAD -> 0 <= snd < 100 ->
  exists raw, Driver.EncodeNegotiateAccept (hs_driver s snd rcv ak dir ar []) = (hs_driver s (snd + 1) rcv ak dir ar [], Ok raw) /\
    crosses raw /\ Protocol.Decode raw mac true = Ok (control Protocol.TypeNegotiateAccept snd accept_body).
Proof.
  intros Hs H3 Hsu Hn. destruct accept_body_ok as (He & Hl). unfold Driver.EncodeNegotiateAccept. cbn [Driver.Session_ hs_driver].
  rewrite Hs, H3, Hsu. change (bool_decide (Session.StateNegotiated = Session.StateNew)) with false.
  change (bool_decide (Session.StateNegotiated = Session.StateNegotiated)) with true. cbn [negb].
  rewrite He. cbn [Driver.on_value]. apply control_frame; (done || lia).
Qed.

Lemma encode_peer_auth s s' snd rcv ak dir ar p :
  dir = "i2r"%string \/ dir = "r2i"%string -> 0 < len ak -> len p = 32 -> 0 <= snd < 100 ->
  Session.MakeAuthProof ak sid dir s = Ok p -> Session.AuthenticateProof ak sid dir p s = (s', Ok tt) ->
  exists raw, Driver.EncodePeerAuth (hs_driver s snd rcv ak dir ar []) = (hs_driver s' (snd + 1) rcv ak dir ar [], Ok raw) /\
    crosses raw /\ Protocol.Decode raw mac true = Ok (control Protocol.TypePeerAuth snd (Protocol.EncodePeerAuthBody dir p)).
Proof.
  intros Hd Hak Hp Hn Hm Hs. unfold Driver.EncodePeerAuth. cbn [Driver.AuthKey Driver.AuthDir Driver.DSessionID Driver.Session_ hs_driver].
  rewrite (proj2 (Z.eqb_neq _ _)) by lia.
  replace (if bool_decide (dir = ""%string) then "i2r"%string else dir) with dir by (by destruct Hd as [-> | ->]).
  rewrite Hm. cbn [map_err Driver.on_value].
  destruct (control_frame s snd rcv ak dir ar Protocol.TypePeerAuth (Protocol.EncodePeerAuthBody dir p)) as (raw & He & Hc & Hdec); try done.
  { unfold Protocol.EncodePeerAuthBody. destruct Hd as [-> | ->]; rewrite !len_app, Hp; vm_compute; congruence. }
  exists raw. rewrite He. unfold Driver.send_then. cbn [Driver.on_value Driver.Session_ hs_driver]. rewrite Hs. done.
Qed.

Lemma encode_archive_auth s s' snd rcv ak dir ar p :
  0 < len ar -> len p = 32 -> 0 <= snd < 100 ->
  Session.MakeArchiveProof ar sid s = Ok p -> Session.AuthorizeArchiveProof ar sid p s = (s', Ok tt) ->
  exists raw, Driver.EncodeArchiveAuth (hs_driver s snd rcv ak dir ar []) = (hs_driver s' (snd + 1) rcv ak dir ar [], Ok raw) /\
    crosses raw /\ Protocol.Decode raw mac true = Ok (control Protocol.TypeArchiveAuth snd p).
Proof.
  intros Har Hp Hn Hm Hs. unfold Driver.EncodeArchiveAuth. cbn [Driver.ArchiveKey Driver.DSessionID Driver.Session_ hs_driver].
  rewrite (proj2 (Z.eqb_neq _ _)) by lia. rewrite Hm. cbn [map_err Driver.on_value].
  destruct (control_frame s snd rcv ak dir ar Protocol.TypeArchiveAuth p) as (raw & He & Hc & Hdec); [done|done|done|lia|].
  exists raw. rewrite He. unfold Driver.send_then. cbn [Driver.on_value Driver.Session_ hs_driver]. rewrite Hs. done.
Qed.

End Ends.

(** An active session with the default bound on the messages it accepts. *)
Definition receiving (d : Driver.Driver) : Prop :=
  Session.State_ (Driver.Session_ d) = Session.StateActive /\ Session.MaxAccept (Driver.Session_ d) = 0 /\
  0 <= Session.ReceiveSequence (Driver.Session_ d).

(** How many messages the session has accepted. *)
Definition received (d : Driver.Driver) : Z := Session.ReceiveSequence (Driver.Session_ d).

(** Two drivers that share the keys and are in step, in both directions. *)
Definition linked (a b : Driver.Driver) : Prop :=
  Driver.DSessionID b = Driver.DSessionID a /\ Driver.MACKey b = Driver.MACKey a /\ Driver.AEADKey b = Driver.AEADKey a /\
  Driver.RequireMAC a = true /\ Driver.RequireMAC b = true /\
  Driver.TrackDataChunks a = false /\ Driver.TrackDataChunks b = false /\
  len (Driver.DSessionID a) = 16 /\ 16 <= len (Driver.MACKey a) /\ len (Driver.AEADKey a) = Crypto.AEADKeySize /\
  Driver.RecvSeq b = Driver.SendSeq a /\ Driver.RecvSeq a = Driver.SendSeq b /\
  0 <= Driver.SendSeq a /\ 0 <= Driver.SendSeq b /\ receiving a /\ receiving b.

Lemma handshake_keys root peerID sid :
  len root = 32 ->
  exists mac ak ar, deriveMACKey root peerID = Ok mac /\ len mac = 32 /\
    Crypto.PeerAuthKey root sid = Ok ak /\ len ak = 32 /\ Crypto.ArchiveAuthKey root sid = Ok ar /\ len ar = 32.
Proof.
  intros Hr. unfold deriveMACKey, Crypto.ChannelMACKey, Crypto.PeerAuthKey, Crypto.ArchiveAuthKey.
  rewrite !(proj2 (Z.ltb_ge (len root) 16)) by lia. change (bool_decide ("push"%string = ""%string) || _) with false. cbv match.
  change (bool_decide ("push"%string = "serve"%string)) with false. cbv match.
  destruct (if String.ltb _ _ then _ else _) as [lo hi].
  destruct (Crypto.HKDFSHA256_ok root None (str "integris-ipc-mac-v1" ++ Crypto.nul ++ sbytes lo ++ Crypto.nul ++ sbytes hi) 32) as (base & -> & Hb); [lia|].
  cbn [bind]. destruct (Crypto.HKDFSHA256_ok base None (str "integris-peer-id|" ++ peerID) 32) as (mac & Hm & Hlm); [lia|].
  destruct (Crypto.HKDFSHA256_ok root None (sbytes Crypto.SuiteIDPeerAuth ++ Crypto.nul ++ sid) 32) as (ak & -> & Hak); [lia|].
  destruct (Crypto.HKDFSHA256_ok root None (sbytes Crypto.SuiteIDArchiveAuth ++ Crypto.nul ++ sid) 32) as (ar & -> & Har); [lia|].
  case_bool_decide; [by exists base, ak, ar|]. rewrite Hm. by exists mac, ak, ar.
Qed.

Lemma traffic_key root sid t ab rb :
  len root = 32 ->
  exists key, len key = 32 /\ forall mac snd rcv ak dir ar,
    Driver.InstallTrafficKey root (hs_driver sid mac
      (hs_session Session.StateActive 3 Crypto.SuiteIDAEAD true true true true t ab true rb true) snd rcv ak dir ar []) =
    (hs_driver sid mac (hs_session Session.StateActive 3 Crypto.SuiteIDAEAD true true true true t ab true rb true) snd rcv ak dir ar key, Ok tt).
Proof.
  intros Hr. destruct (Crypto.HKDFSHA256_ok root None (sbytes Crypto.SuiteIDAEAD ++ Crypto.nul ++ sid ++ Crypto.Digest t) 32) as (key & Hk & Hl); [lia|].
  exists key. split; [done|]. intros. unfold Driver.InstallTrafficKey. change (bool_decide (Session.State_ _ = _)) with true. cbn [negb].
  change (Session.Transcript _) with (Some t). cbv match. change (bool_decide (Session.SelectedSuite _ = ""%string)) with false. cbv match.
  unfold Crypto.TrafficKey. change (bool_decide (Session.SelectedSuite _ = Crypto.SuiteIDAEAD)) with true. cbn [negb].
  rewrite (proj2 (Z.ltb_ge (len root) 16)) by lia. change (Session.SelectedSuite _) with Crypto.SuiteIDAEAD. change (Driver.DSessionID _) with sid.
  change Crypto.AEADKeySize with 32. rewrite Hk. unfold Driver.SetAEADKey. change Crypto.AEADKeySize with 32. rewrite Hl. done.
Qed.

Lemma bind_run {W E A B} (c : io W E A) (k : A -> io W E B) w w' a : c w = (w', Ok a) -> io_bind c k w = k a w'.
Proof. unfold io_bind. by intros ->. Qed.

(** Run the next call of a handshake, from the facts about it. *)
Ltac hs_step :=
  etrans;
  [eapply bind_run;
   match goal with
   | H : crosses ?r |- ReadFrame (mkConn (?r' ++ _) _ _) = _ => constr_eq r r'; apply (proj1 H)
   | H : crosses ?r |- WriteFrame ?r' _ = _ => constr_eq r r'; apply (proj2 H)
   | H : ?r = (_, Ok _) |- call ?r' _ _ _ = _ => constr_eq r r'; unfold call; rewrite H; reflexivity
   | H : ?r = (_, Ok _) |- session_call _ ?r' _ _ = _ => constr_eq r r'; unfold session_call; rewrite H; reflexivity
   | H : ?r = Ok _ |- crypto_call ?r' _ _ = _ => constr_eq r r'; unfold crypto_call; rewrite H; reflexivity
   | H : ?r = Ok _ |- lift (map_err _ ?r') _ = _ => constr_eq r r'; rewrite H; reflexivity
   | |- newSessionID _ _ = _ => reflexivity
   end
  |cbv beta iota].

Definition prologue (peerID : bytes) : bytes :=
  if bool_decide (peerID = []) then [] else peerPrologueMagic ++ [byte_of (len peerID)] ++ peerID.

(** The session of both ends on the way, and the proofs they exchange. *)
Record session_chain (k ka sid root : bytes) (s1 s2 s3 s4 s5 : Session.Session) (p1 p2 pa key : bytes) : Prop := {
  ch_negotiate : Session.Negotiate (fresh_session Crypto.NewTranscript (zeros 32)) = (s1, Ok tt);
  ch_offered : Session.OfferedSuites s1 = suites;
  ch_negotiated : Session.State_ s1 = Session.StateNegotiated;
  ch_selected : Session.Selected s1 = 3;
  ch_suite : Session.SelectedSuite s1 = Crypto.SuiteIDAEAD;
  ch_confirm : Session.ConfirmAccept 3 Crypto.SuiteIDAEAD s1 = (s1, Ok tt);
  ch_make1 : Session.MakeAuthProof k sid "i2r" s1 = Ok p1;
  ch_len1 : len p1 = 32;
  ch_auth1 : Session.AuthenticateProof k sid "i2r" p1 s1 = (s2, Ok tt);
  ch_make2 : Session.MakeAuthProof k sid "r2i" s2 = Ok p2;
  ch_len2 : len p2 = 32;
  ch_auth2 : Session.AuthenticateProof k sid "r2i" p2 s2 = (s3, Ok tt);
  ch_make3 : Session.MakeArchiveProof ka sid s3 = Ok pa;
  ch_len3 : len pa = 32;
  ch_archive : Session.AuthorizeArchiveProof ka sid pa s3 = (s4, Ok tt);
  ch_activate : Session.Activate s4 = (s5, Ok tt);
  ch_active : Session.State_ s5 = Session.StateActive;
  ch_unbounded : Session.MaxAccept s5 = 0;
  ch_unused : Session.ReceiveSequence s5 = 0;
  ch_version : Session.Selected s5 = 3;
  ch_suite5 : Session.SelectedSuite s5 = Crypto.SuiteIDAEAD;
  ch_keylen : len key = 32;
  ch_key mac snd rcv ak dir ar : Driver.InstallTrafficKey root (hs_driver sid mac s5 snd rcv ak dir ar []) =
    (hs_driver sid mac s5 snd rcv ak dir ar key, Ok tt) }.

Lemma session_chain_exists k ka sid root :
  16 <= len k -> 16 <= len ka -> len root = 32 ->
  exists s1 s2 s3 s4 s5 p1 p2 pa key, session_chain k ka sid root s1 s2 s3 s4 s5 p1 p2 pa key.
Proof.
  intros Hk Hka Hr. destruct (hs_negotiate Crypto.NewTranscript (zeros 32)) as [t1 N1].
  destruct (make_proof k sid "i2r" (Crypto.Digest t1) false false t1 (zeros 32) Hk (or_introl eq_refl)) as (p1 & M1 & V1 & L1).
  destruct (hs_authenticate k sid "i2r" p1 _ false false t1 (zeros 32) V1 (or_introl (conj eq_refl eq_refl))) as [t2 A2].
  destruct (make_proof k sid "r2i" (Crypto.Digest t1) true false t2 (zeros 32) Hk (or_intror eq_refl)) as (p2 & M2 & V2 & L2).
  destruct (hs_authenticate k sid "r2i" p2 _ true false t2 (zeros 32) V2 (or_intror (conj eq_refl eq_refl))) as [t3 A3].
  destruct (hs_archive ka sid (Crypto.Digest t1) (Crypto.Digest t3) t3 Hka) as (pa & t4 & M4 & L4 & A4).
  destruct (hs_activate (Crypto.Digest t1) (Crypto.Digest t3) t4) as [t5 A5].
  destruct (traffic_key root sid t5 (Crypto.Digest t1) (Crypto.Digest t3) Hr) as (key & Hlk & Hkey).
  do 5 eexists. exists p1, p2, pa, key. split; [exact N1|reflexivity..|exact M1|exact L1|exact A2|exact M2|exact L2|exact A3|exact M4|exact L4|exact A4|exact A5|reflexivity|reflexivity|reflexivity|reflexivity|reflexivity|exact Hlk|exact Hkey].
Qed.

Lemma dial_prologue peerID inp :
  (peerID <> [] -> ValidatePeerID peerID = Ok tt) ->
  (if negb (bool_decide (peerID = [])) then WritePeerPrologue peerID else ret tt) (mkConn inp [] []) =
    (mkConn inp (prologue peerID) [], Ok tt).
Proof.
  intros Hp. unfold prologue. case_bool_decide; [done|]. cbn [negb]. unfold WritePeerPrologue. rewrite Hp by done. done.
Qed.

(** The frames of the handshake: what writes each and what reading it does. *)
Record exchange (sid mac ak ar root : bytes) (s0 s1 s2 s3 s4 s5 : Session.Session) (r1 r2 r3 r4 r5 r6 key : bytes) : Prop := {
  ex_crosses : Forall crosses [r1; r2; r3; r4; r5; r6];
  ex_negotiate : Session.Negotiate s0 = (s1, Ok tt);
  ex_activate : Session.Activate s4 = (s5, Ok tt);
  ex_offer : Driver.EncodeNegotiateOffer offeredVersions (hs_driver sid mac s1 1 1 [] "" [] []) = (hs_driver sid mac s1 2 1 [] "" [] [], Ok r1);
  ex_offered : Protocol.Decode r1 mac true = Ok (control sid Protocol.TypeNegotiateOffer 1 offer_body);
  ex_on_offer : Driver.Handle (control sid Protocol.TypeNegotiateOffer 1 offer_body) (hs_driver sid mac s0 1 1 [] "" [] []) =
    (hs_driver sid mac s1 1 2 [] "" [] [], Ok tt);
  ex_accept : Driver.EncodeNegotiateAccept (hs_driver sid mac s1 1 2 [] "" [] []) = (hs_driver sid mac s1 2 2 [] "" [] [], Ok r2);
  ex_on_accept : exists f, Driver.DecodeAndHandle r2 (hs_driver sid mac s1 2 1 [] "" [] []) = (hs_driver sid mac s1 2 2 [] "" [] [], Ok f);
  ex_auth : Driver.EncodePeerAuth (hs_driver sid mac s1 2 2 ak "i2r" ar []) = (hs_driver sid mac s2 3 2 ak "i2r" ar [], Ok r3);
  ex_on_auth : exists f, Driver.DecodeAndHandle r3 (hs_driver sid mac s1 2 2 ak "r2i" ar []) = (hs_driver sid mac s2 2 3 ak "r2i" ar [], Ok f);
  ex_reply : Driver.EncodePeerAuth (hs_driver sid mac s2 2 3 ak "r2i" ar []) = (hs_driver sid mac s3 3 3 ak "r2i" ar [], Ok r4);
  ex_on_reply : exists f, Driver.DecodeAndHandle r4 (hs_driver sid mac s2 3 2 ak "i2r" ar []) = (hs_driver sid mac s3 3 3 ak "i2r" ar [], Ok f);
  ex_archive : Driver.EncodeArchiveAuth (hs_driver sid mac s3 3 3 ak "i2r" ar []) = (hs_driver sid mac s4 4 3 ak "i2r" ar [], Ok r5);
  ex_on_archive : exists f, Driver.DecodeAndHandle r5 (hs_driver sid mac s3 3 3 ak "r2i" ar []) = (hs_driver sid mac s4 3 4 ak "r2i" ar [], Ok f);
  ex_active : Driver.EncodeFrame Protocol.TypeActivate [] (hs_driver sid mac s5 4 3 ak "i2r" ar []) = (hs_driver sid mac s5 5 3 ak "i2r" ar [], Ok r6);
  ex_on_active : exists f, Driver.DecodeAndHandle r6 (hs_driver sid mac s4 3 4 ak "r2i" ar []) = (hs_driver sid mac s5 3 5 ak "r2i" ar [], Ok f);
  ex_dial_key : Driver.InstallTrafficKey root (hs_driver sid mac s5 5 3 ak "i2r" ar []) = (hs_driver sid mac s5 5 3 ak "i2r" ar key, Ok tt);
  ex_serve_key : Driver.InstallTrafficKey root (hs_driver sid mac s5 3 5 ak "r2i" ar []) = (hs_driver sid mac s5 3 5 ak "r2i" ar key, Ok tt) }.

Lemma exchange_exists (sid mac ak ar root : bytes) :
  len sid = 16 -> len mac = 32 -> len ak = 32 -> len ar = 32 -> len root = 32 ->
  exists s1 s2 s3 s4 s5 r1 r2 r3 r4 r5 r6 (key : bytes), len key = 32 /\
    (Session.State_ s5 = Session.StateActive /\ Session.MaxAccept s5 = 0 /\ Session.ReceiveSequence s5 = 0) /\
    (Session.Selected s5 = 3 /\ Session.SelectedSuite s5 = Crypto.SuiteIDAEAD) /\
    exchange sid mac ak ar root (fresh_session Crypto.NewTranscript (zeros 32)) s1 s2 s3 s4 s5 r1 r2 r3 r4 r5 r6 key.
Proof.
  intros Hsid Hlm Hla Hlr Hroot.
  destruct (session_chain_exists ak ar sid root) as (s1 & s2 & s3 & s4 & s5 & p1 & p2 & pa & key & []); [lia|lia|done|].
  assert (Hm16 : 16 <= len mac) by lia. assert (Pak : 0 < len ak) by lia. assert (Par : 0 < len ar) by lia.
  assert (R0 : len (@nil Byte.byte) <= 4096) by (rewrite len_nil; lia).
  assert (R1 : 0 <= 1 < 100) by lia. assert (R2 : 0 <= 2 < 100) by lia. assert (R3 : 0 <= 3 < 100) by lia. assert (R4 : 0 <= 4 < 100) by lia.
  destruct (encode_offer sid mac Hsid Hm16 s1 1 1 [] "" []) as (r1 & O1 & C1 & D1); [done|done|].
  destruct (encode_accept sid mac Hsid Hm16 s1 1 2 [] "" []) as (r2 & O2 & C2 & D2); [done..|].
  destruct (encode_peer_auth sid mac Hsid Hm16 s1 s2 2 2 ak "i2r" ar p1) as (r3 & O3 & C3 & D3); [by left|done..|].
  destruct (encode_peer_auth sid mac Hsid Hm16 s2 s3 2 3 ak "r2i" ar p2) as (r4 & O4 & C4 & D4); [by right|done..|].
  destruct (encode_archive_auth sid mac Hsid Hm16 s3 s4 3 3 ak "i2r" ar pa) as (r5 & O5 & C5 & D5); [done..|].
  destruct (control_frame sid mac Hsid Hm16 s5 4 3 ak "i2r" ar Protocol.TypeActivate []) as (r6 & O6 & C6 & D6); [done|discriminate|done|done|].
  destruct offer_body_ok as (_ & Hpo & Hlo). destruct accept_body_ok as (Hea & Hla').
  exists s1, s2, s3, s4, s5, r1, r2, r3, r4, r5, r6, key. split; [done|]. split; [done|]. split; [done|].
  split; [by rewrite !Forall_cons|exact ch_negotiate0|exact ch_activate0|exact O1|exact D1| |exact O2| |exact O3| |exact O4| |exact O5| |exact O6| |apply ch_key0..].
  - eapply (handle_offer sid mac _ _ 1 1); [exact Hpo|lia|done|done|exact ch_negotiate0].
  - apply (handle_accept sid mac r2 s1 2 1 [] "" [] 3 Crypto.SuiteIDAEAD accept_body); [done|lia|done|done|lia|done|done].
  - apply (handle_peer_auth sid mac r3 s1 s2 2 2 ak "r2i" ar "i2r" p1); [done|by left|lia|done|done|done].
  - apply (handle_peer_auth sid mac r4 s2 s3 3 2 ak "i2r" ar "r2i" p2); [done|by right|lia|done|done|done].
  - apply (handle_archive_auth sid mac r5 s3 s4 3 3 ak "r2i" ar pa); done.
  - apply (handle_activate sid mac r6 s4 s5 3 4 ak "r2i" ar); done.
Qed.

Ltac open_exchange :=
  match goal with H : exchange _ _ _ _ _ _ _ _ _ _ _ _ _ _ _ _ _ _ |- _ => destruct H end;
  repeat match goal with
  | H : exists f, _ |- _ => destruct H as [? H]
  | H : Forall crosses _ |- _ => rewrite !Forall_cons in H; destruct H as (? & ? & ? & ? & ? & ? & _)
  end.

Lemma dial_run root peerID sid mac ak ar s1 s2 s3 s4 s5 r1 r2 r3 r4 r5 r6 key :
  len root = 32 -> (peerID <> [] -> ValidatePeerID peerID = Ok tt) -> deriveMACKey root peerID = Ok mac ->
  Crypto.PeerAuthKey root sid = Ok ak -> Crypto.ArchiveAuthKey root sid = Ok ar ->
  exchange sid mac ak ar root (fresh_session Crypto.NewTranscript (zeros 32)) s1 s2 s3 s4 s5 r1 r2 r3 r4 r5 r6 key ->
  DialHandshake root peerID (Some sid) (mkConn (r2 ++ r4) [] []) =
    (mkConn [] (prologue peerID ++ r1 ++ r3 ++ r5 ++ r6) [], Ok (mkSession (hs_driver sid mac s5 5 3 ak "i2r" ar key) (Some root) "push")).
Proof.
  intros Hroot Hpeer Hmac Hak Har ?. open_exchange.
  unfold DialHandshake. rewrite Hroot. change (negb (32 =? RootKeySize)) with false. cbv match.
  etrans; [apply (bind_run _ _ _ (mkConn (r2 ++ r4) (prologue peerID) []) tt); by apply dial_prologue|].
  hs_step. hs_step. cbv zeta.
  change (Driver.NewDriverWithSuites offeredVersions suites sid mac true) with
    (hs_driver sid mac (fresh_session Crypto.NewTranscript (zeros 32)) 1 1 [] "" [] []).
  change (Driver.Session_ (hs_driver _ _ ?s _ _ _ _ _ _)) with s.
  hs_step. change (Driver.set_Session s1 _) with (hs_driver sid mac s1 1 1 [] "" [] []).
  do 6 hs_step. change (set_handshake_keys ak ar "i2r" _) with (hs_driver sid mac s1 2 2 ak "i2r" ar []).
  rewrite <- (app_nil_r r4). do 6 hs_step. change (Driver.Session_ (hs_driver _ _ ?s _ _ _ _ _ _)) with s.
  hs_step. change (Driver.set_Session s5 _) with (hs_driver sid mac s5 4 3 ak "i2r" ar []).
  do 3 hs_step. unfold ret. by rewrite <- !app_assoc.
Qed.

Lemma serve_run root peerID sid mac ak ar s1 s2 s3 s4 s5 r1 r2 r3 r4 r5 r6 key out :
  len root = 32 -> deriveMACKey root peerID = Ok mac ->
  Crypto.PeerAuthKey root sid = Ok ak -> Crypto.ArchiveAuthKey root sid = Ok ar ->
  exchange sid mac ak ar root (fresh_session Crypto.NewTranscript (zeros 32)) s1 s2 s3 s4 s5 r1 r2 r3 r4 r5 r6 key ->
  acceptHandshake root peerID (mkConn (r1 ++ r3 ++ r5 ++ r6) out []) =
    (mkConn [] (out ++ r2 ++ r4) [], Ok (mkSession (hs_driver sid mac s5 3 5 ak "r2i" ar key) (Some root) "serve")).
Proof.
  intros Hroot Hmac Hak Har ?. open_exchange.
  unfold acceptHandshake. rewrite Hroot. change (negb (32 =? RootKeySize)) with false. cbv match.
  do 3 hs_step. change (Protocol.SessionID (control ?s _ _ _)) with s.
  change (Driver.NewDriverWithSuites offeredVersions suites _ mac true) with
    (hs_driver sid mac (fresh_session Crypto.NewTranscript (zeros 32)) 1 1 [] "" [] []).
  cbv zeta. do 5 hs_step. change (set_handshake_keys ak ar "r2i" _) with (hs_driver sid mac s1 2 2 ak "r2i" ar []).
  rewrite <- (app_nil_r r6). do 9 hs_step. unfold ret. by rewrite <- !app_assoc.
Qed.

(** What the seal of a session has room for. *)
Definition sealable (d : Driver.Driver) : Prop :=
  len (Driver.MACKey d) <= 255 /\ Driver.SendSeq d <= MaxUint64 /\ Driver.RecvSeq d <= MaxUint64 /\
  is_u8 (Session.Selected (Driver.Session_ d)) /\ len (sbytes (Session.SelectedSuite (Driver.Session_ d))) <= 255.

Lemma ends_meet root peerID sid :
  len root = 32 -> len sid = 16 -> (peerID <> [] -> ValidatePeerID peerID = Ok tt) ->
  exists a2b b2a da db, linked da db /\ (Driver.DSessionID da = sid /\ received da = 0 /\ received db = 0) /\ sealable db /\
    DialHandshake root peerID (Some sid) (mkConn b2a [] []) = (mkConn [] (prologue peerID ++ a2b) [], Ok (mkSession da (Some root) "push")) /\
    forall out, acceptHandshake root peerID (mkConn a2b out []) = (mkConn [] (out ++ b2a) [], Ok (mkSession db (Some root) "serve")).
Proof.
  intros Hroot Hsid Hpeer.
  destruct (handshake_keys root peerID sid Hroot) as (mac & ak & ar & Hmac & Hlm & Hak & Hla & Har & Hlr).
  destruct (exchange_exists sid mac ak ar root) as (s1 & s2 & s3 & s4 & s5 & r1 & r2 & r3 & r4 & r5 & r6 & key & Hk & (Hs & Hs0 & Hs1) & (Hv & Hsu) & He); [done..|].
  exists (r1 ++ r3 ++ r5 ++ r6), (r2 ++ r4), (hs_driver sid mac s5 5 3 ak "i2r" ar key), (hs_driver sid mac s5 3 5 ak "r2i" ar key).
  split; [|split; [done|split; [|split; [by eapply dial_run|intros; by eapply serve_run]]]].
  - unfold linked, receiving. split_and!; (done || (cbn; lia)).
  - unfold sealable, is_u8, MaxUint64. cbn. rewrite Hlm, Hv, Hsu. split_and!; vm_compute; congruence.
Qed.

(** *** The handshake of a known peer *)

Lemma ReadPeerPrologue_prologue peerID rest out :
  ValidatePeerID peerID = Ok tt ->
  ReadPeerPrologue (mkConn (prologue peerID ++ rest) out []) = (mkConn rest out [], Ok peerID).
Proof.
  intros Hv. pose proof (ValidatePeerID_len _ Hv) as Hl. unfold prologue. case_bool_decide as Hn; [by subst|].
  unfold ReadPeerPrologue. set (hdr := peerPrologueMagic ++ [byte_of (len peerID)]).
  replace ((_ ++ rest)%list) with (hdr ++ peerID ++ rest) by (unfold hdr; by rewrite <- !app_assoc).
  etrans; [apply bind_run, (ReadFull_front _ _ hdr); reflexivity|].
  change (slice hdr 0 (len peerPrologueMagic)) with (@Ok Error bytes peerPrologueMagic).
  change (index hdr (len peerPrologueMagic)) with (@Ok Error _ (byte_of (len peerID))).
  etrans; [by eapply bind_run|]. rewrite bool_decide_true by done. cbn [negb].
  etrans; [by eapply bind_run|]. cbv zeta. rewrite byteZ_byte_of, Z.mod_small, (proj2 (Z.eqb_neq _ _)), (proj2 (Z.ltb_ge _ _)) by (unfold maxPeerIDLen; lia). cbn [orb].
  etrans; [apply bind_run, (ReadFull_front _ _ peerID); reflexivity|].
  etrans; [eapply bind_run; unfold lift; by rewrite Hv|]. done.
Qed.

Lemma known_peer_meets kr peerID root sid :
  ValidateKeyring kr = Ok tt -> kr !! peerID = Some root -> len sid = 16 ->
  exists a2b b2a da db, linked da db /\ (Driver.DSessionID da = sid /\ received da = 0 /\ received db = 0) /\ sealable db /\
    DialHandshake root peerID (Some sid) (mkConn b2a [] []) = (mkConn [] a2b [], Ok (mkSession da (Some root) "push")) /\
    AcceptHandshakeKeyring kr (mkConn a2b [] []) = (mkConn [] b2a [], Ok (mkSession db (Some root) "serve", peerID)).
Proof.
  intros Hv Hr Hsid. pose proof Hv as Hg. apply ValidateKeyring_ok in Hg as [_ Hg]. destruct (Hg _ _ Hr) as [Hp Hl]. cbn [fst snd] in *.
  destruct (ends_meet root peerID sid Hl Hsid (fun _ => Hp)) as (a2b & b2a & da & db & Hlk & (Hs & Ra & Rb) & Hse & Hd & Ha).
  exists (prologue peerID ++ a2b), b2a, da, db. split_and!; [done..|].
  unfold AcceptHandshakeKeyring. etrans; [eapply bind_run; unfold or_fail, lift; by rewrite Hv|].
  etrans; [eapply bind_run; unfold or_fail; by rewrite ReadPeerPrologue_prologue|]. rewrite Hr.
  etrans; [eapply bind_run; unfold or_fail; by rewrite Ha|]. done.
Qed.

(** C40. The handshake completes.  For a peer of a valid keyring and any session
    identifier, there are two byte streams such that the dialling end, reading the
    one, writes the other, and the serving end, reading the other, finds the peer
    in its keyring and writes the one; both end with an active session, under the
    same identifier and keys, in step in both directions. *)
Theorem handshake_completes kr peerID root sid :
  ValidateKeyring kr = Ok tt -> kr !! peerID = Some root -> len sid = 16 ->
  exists a2b b2a da db, linked da db /\ Driver.DSessionID da = sid /\ received da = 0 /\ received db = 0 /\
    DialHandshake root peerID (Some sid) (mkConn b2a [] []) = (mkConn [] a2b [], Ok (mkSession da (Some root) "push")) /\
    AcceptHandshakeKeyring kr (mkConn a2b [] []) = (mkConn [] b2a [], Ok (mkSession db (Some root) "serve", peerID)).
Proof.
  intros Hv Hr Hl. destruct (known_peer_meets kr peerID root sid Hv Hr Hl) as (a2b & b2a & da & db & Hk & (Hs & Ra & Rb) & _ & Hd & Ha).
  by exists a2b, b2a, da, db.
Qed.

(** *** Data in an established session *)

Fixpoint send_all (msgs : list bytes) : io (Conn * Driver.Driver) Error unit :=
  match msgs with
  | [] => ret tt
  | m :: msgs => let* _ := sendData m in send_all msgs
  end.

Fixpoint recv_all (n : nat) : io (Conn * Driver.Driver) Error (list bytes) :=
  match n with
  | O => ret []
  | S n => let* m := recvData in let* ms := recv_all n in ret (m :: ms)
  end.

Lemma linked_sym a b : linked a b -> linked b a.
Proof. unfold linked. intros (E1 & E2 & E3 & ?). rewrite E1, E2, E3. naive_solver. Qed.

Lemma linked_sendable a b : linked a b -> Driver.sendable a.
Proof. unfold linked, Driver.sendable. naive_solver. Qed.

(** The receiver after a message. *)
Definition after_data (m : bytes) (b : Driver.Driver) : Driver.Driver :=
  Driver.set_RecvSeq (Driver.RecvSeq b + 1) (Driver.set_Session
    (Session.set_ProductMutation true (Session.set_ReceiveSequence (received b + 1) (Driver.Session_ b)))
    (Driver.set_received m (Driver.NextDataOffset b) b)).

Lemma linked_after a b m : linked a b -> linked (Driver.set_SendSeq (Driver.SendSeq a + 1) a) (after_data m b).
Proof.
  unfold linked, receiving, after_data, received. cbn -[Z.add]. intros (E1 & E2 & E3 & ? & ? & ? & ? & ? & ? & ? & ? & ? & ? & ? & [? [? ?]] & [? [? ?]]). split_and!; first [done|lia|congruence].
Qed.

(** One message crosses. *)
Lemma data_crosses a b m :
  linked a b -> len m <= Protocol.MaxBodyBytes - 16 -> received b < Session.DefaultMaxAccept -> Driver.SendSeq a < MaxUint64 ->
  exists raw,
    (forall c, cfaults c = [] -> sendData m (c, a) = ((mkConn (cin c) (cout c ++ raw) [], Driver.set_SendSeq (Driver.SendSeq a + 1) a), Ok tt)) /\
    (forall rest out, recvData (mkConn (raw ++ rest) out [], b) = ((mkConn rest out [], after_data m b), Ok m)).
Proof.
  intros Hl Hm Hb Hs. pose proof (linked_sendable _ _ Hl) as Hsa.
  destruct Hl as (E1 & E2 & E3 & Ra & Rb & Ta & Tb & L1 & L2 & L3 & S1 & S2 & P1 & P2 & Ga & (G1 & G2 & G3)).
  assert (Hu : is_u64 (Driver.SendSeq a)) by (unfold is_u64, MaxUint64 in *; lia).
  destruct (Driver.EncodeFrame_delivers a Protocol.TypeData m) as (raw & He & Hd); [done|done|done|done|].
  rewrite u64_small in He by (unfold is_u64, MaxUint64 in *; lia).
  assert (Hf : Protocol.Flags (Driver.sent_frame a Protocol.TypeData m) = 1 /\ Protocol.Type_ (Driver.sent_frame a Protocol.TypeData m) = Protocol.TypeData).
  { unfold Driver.sent_frame, Protocol.normalize, Driver.auth_flags. rewrite Ra. cbn. by split. }
  exists raw. pose proof Hd as Hw. apply Protocol.Decode_exact in Hw as (Hv & _ & Hw).
  assert (Hc : crosses raw) by (rewrite Hw, Ra; apply wire_crosses; [done|apply Hf]). destruct Hc as [Hc1 Hc2]. split.
  - intros [ci co cf] [= ->]. unfold sendData, send. rewrite He. cbn [cin cout]. by rewrite Hc2.
  - intros rest out. rewrite Ra in Hd.
    assert (Hh : Driver.Handle (Driver.sent_frame a Protocol.TypeData m) b = (after_data m b, Ok tt)).
    { rewrite Driver.Handle_sent, Tb by done. unfold Session.AcceptNext. cbn [Driver.Session_ Driver.set_received].
      rewrite G1. change (bool_decide (_ = _)) with true. cbn [negb]. unfold Session.accept_limit. rewrite G2. change (0 =? 0) with true. cbv match.
      unfold received in *. rewrite (proj2 (Z.leb_gt _ _)) by done.
      unfold Driver.on_session, Driver.accepted. cbn [fst snd Driver.RecvSeq Driver.set_Session Driver.set_received].
      assert (Session.DefaultMaxAccept = 1048576) by done.
      rewrite !u64_small by (unfold is_u64, MaxUint64 in *; lia). done. }
    unfold recvData, io_bind, recv. rewrite Hc1. unfold Driver.DecodeAndHandle. rewrite E2, Rb, Hd. cbn [Driver.on_value].
    rewrite Hh. cbn [map_err]. rewrite (proj2 Hf). done.
Qed.

(** C19. A session delivers: of two ends in step, what one sends, the other
    receives, every message complete, unaltered and in order, as long as the
    bound on accepted messages, the sequence numbers and the frame size allow;
    the ends are in step again, so that the same holds of the next messages,
    in either direction. *)
Theorem session_delivers a b msgs :
  linked a b -> Forall (fun m => len m <= Protocol.MaxBodyBytes - 16) msgs ->
  received b + len msgs <= Session.DefaultMaxAccept -> Driver.SendSeq a + len msgs <= MaxUint64 ->
  exists wire a' b', linked a' b' /\ received b' = received b + len msgs /\ received a' = received a /\
    (forall inp out, send_all msgs (mkConn inp out [], a) = ((mkConn inp (out ++ wire) [], a'), Ok tt)) /\
    (forall rest out, recv_all (length msgs) (mkConn (wire ++ rest) out [], b) = ((mkConn rest out [], b'), Ok msgs)).
Proof.
  intros Hl Hf. revert a b Hl. induction Hf as [|m msgs Hm Hf IH]; intros a b Hl Hr Hs.
  { exists [], a, b. rewrite len_nil. split_and!; [done|lia|done|intros; cbn; by rewrite app_nil_r|done]. }
  rewrite len_cons in *. pose proof (len_nonneg msgs).
  destruct (data_crosses a b m) as (raw & X1 & X2); [done|done|lia|lia|].
  destruct (IH _ _ (linked_after a b m Hl)) as (wire & a' & b' & Hl' & Hr' & Hra & X3 & X4).
  { unfold after_data, received in *. cbn -[Z.add]. lia. } { cbn -[Z.add]. lia. }
  exists (raw ++ wire), a', b'. split; [done|]. split; [rewrite Hr'; unfold after_data, received; cbn -[Z.add]; lia|]. split; [done|]. split; intros.
  - cbn [send_all]. etrans; [by apply bind_run, X1|]. cbn [cin cout]. by rewrite X3, app_assoc.
  - cbn [recv_all length]. rewrite <- app_assoc. etrans; [by apply bind_run, X2|]. etrans; [by apply bind_run, X4|]. done.
Qed.

(** *** A sealed session *)

(** The network role goes on where the authenticating role stopped: of a
    driver in step with a peer, the seal can be made, encoded and opened again,
    and the driver of the opened session is in step with the same peer, under the
    same keys and suite, with the count of accepted messages at zero. *)
Lemma seal_continues a d :
  linked a d -> sealable d ->
  exists seal raw sess, sealFromDriver d = Ok seal /\ encodeSeal seal = Ok raw /\ 1 <= len raw <= 1000 /\ SessionFromSeal raw = Ok sess /\
    linked a (SDriver sess) /\ Session.SelectedSuite (Driver.Session_ (SDriver sess)) = Session.SelectedSuite (Driver.Session_ d) /\
    received (SDriver sess) = 0 /\ SRoot sess = None.
Proof.
  intros Hl (Hm & Hs & Hr & Hv & Hsu). pose proof Hl as (E1 & E2 & E3 & Ra & Rb & Ta & Tb & L1 & L2 & L3 & S1 & S2 & P1 & P2 & Ga & (G1 & G2 & G3)).
  set (seal := mkSeal (Driver.DSessionID d) (Driver.MACKey d) (Driver.AEADKey d) (Driver.SendSeq d) (Driver.RecvSeq d)
    (Session.Selected (Driver.Session_ d)) (sbytes (Session.SelectedSuite (Driver.Session_ d)))).
  assert (Hw : wf_seal seal).
  { unfold wf_seal, seal. cbn. unfold is_u8, is_u64, Crypto.AEADKeySize, MaxUint64 in *. rewrite E1, E3. split_and!; lia. }
  exists seal, (seal_bytes seal). eexists. split; [|split; [by apply encodeSeal_bytes|split; [|split]]].
  - unfold sealFromDriver. rewrite G1. change (bool_decide (_ = _)) with true. cbn [negb].
    replace (len (Driver.AEADKey d)) with Crypto.AEADKeySize by (by rewrite E3). rewrite (proj2 (Z.ltb_ge _ _)) by (rewrite E2; lia). done.
  - unfold seal_bytes, seal, Crypto.AEADKeySize in *. cbn [SealSessionID SealMACKey SealAEADKey SealSendSeq SealRecvSeq SealSelected SealSuite] in *.
    rewrite E1, E3 in *. len_lia.
  - unfold SessionFromSeal. rewrite decodeSeal_bytes by done. cbn [bind]. unfold Driver.SetAEADKey.
    replace (len (SealAEADKey seal)) with Crypto.AEADKeySize by (cbn; by rewrite E3). change (negb _) with false. cbv match. reflexivity.
  - split; [|split; [|done]].
    + unfold linked, receiving. cbn. rewrite E1, E2, E3. unfold receiving in Ga. split_and!; (done || lia || apply Ga).
    + cbn. apply String.string_of_list_byte_of_string.
Qed.

(** *** What an accepted session rests on *)

Lemma bind_inv {W E A B} (c : io W E A) (k : A -> io W E B) w w' b :
  io_bind c k w = (w', Ok b) -> exists w1 a, c w = (w1, Ok a) /\ k a w1 = (w', Ok b).
Proof. unfold io_bind. destruct (c w) as [w1 [a|e|]]; [eauto|done..]. Qed.

Lemma ReadFull_inv n msg c c' b : ReadFull n msg c = (c', Ok b) -> cin c = b ++ cin c'.
Proof. unfold ReadFull. case_if; [done|]. intros [= <- <-]. cbn. by rewrite take_drop. Qed.

Lemma ReadFull_len n msg c c' b : 0 <= n -> ReadFull n msg c = (c', Ok b) -> len b = n.
Proof. unfold ReadFull. intros Hn. case_if; [done|]. intros [= <- <-]. reflect_bools. unfold len in *. rewrite length_take. lia. Qed.

Lemma ReadFrame_inv c c' raw : ReadFrame c = (c', Ok raw) -> cin c = raw ++ cin c'.
Proof.
  unfold ReadFrame. intros (c1 & hdr & E1 & E)%bind_inv.
  apply bind_inv in E as (c2 & m & [= <- Em] & E). case_match; [done|].
  apply bind_inv in E as (c3 & l & [= <- El] & E). apply bind_inv in E as (c4 & n & [= <- En] & E).
  case_match; [done|]. apply bind_inv in E as (c5 & f & [= <- Ef] & E). apply bind_inv in E as (c6 & fl & [= <- Efl] & E).
  cbv zeta in E. apply bind_inv in E as (c7 & body & Eb & [= <- <-]).
  apply ReadFull_inv in E1 as ->, Eb as ->. by rewrite app_assoc.
Qed.

Lemma WriteFrame_inv raw c c' u : WriteFrame raw c = (c', Ok u) -> cin c' = cin c.
Proof.
  unfold WriteFrame. case_if; [done|]. intros (c1 & [n e] & E1 & E)%bind_inv. unfold conn_write in E1.
  assert (cin c1 = cin c) by (repeat case_match; by simplify_eq). destruct e; [done|]. case_match; [done|]. by injection E as <- _.
Qed.

Lemma call_inv {A} (r : Driver.result A) k msg c c' x : call r k msg c = (c', Ok x) -> c' = c /\ r = (x.1, Ok x.2).
Proof. unfold call. destruct r as [d []]; intros; by simplify_eq. Qed.

Lemma crypto_inv {A} (r : res Crypto.Error A) msg c c' x : crypto_call r msg c = (c', Ok x) -> c' = c /\ r = Ok x.
Proof. unfold crypto_call, lift, map_err. destruct r; intros; by simplify_eq. Qed.

(** The calls of an accepted handshake, on the four frames it read. *)
Record accepted_run (root peerID inp rest : bytes) (sess : Session) (mac ak ar r0 r1 r2 r3 w2 w4 : bytes)
    (f0 f1 f2 f3 : Protocol.Frame) (d1 d2 d3 d4 d5 d6 d7 : Driver.Driver) : Prop := {
  ru_input : inp = r0 ++ r1 ++ r2 ++ r3 ++ rest;
  ru_mac : deriveMACKey root peerID = Ok mac;
  ru_decode : Protocol.Decode r0 mac true = Ok f0;
  ru_handle : Driver.Handle f0 (Driver.NewDriverWithSuites offeredVersions suites (Protocol.SessionID f0) mac true) = (d1, Ok tt);
  ru_accept : Driver.EncodeNegotiateAccept d1 = (d2, Ok w2);
  ru_auth : Crypto.PeerAuthKey root (Protocol.SessionID f0) = Ok ak;
  ru_arch : Crypto.ArchiveAuthKey root (Protocol.SessionID f0) = Ok ar;
  ru_first : Driver.DecodeAndHandle r1 (set_handshake_keys ak ar "r2i" d2) = (d3, Ok f1);
  ru_reply : Driver.EncodePeerAuth d3 = (d4, Ok w4);
  ru_second : Driver.DecodeAndHandle r2 d4 = (d5, Ok f2);
  ru_third : Driver.DecodeAndHandle r3 d5 = (d6, Ok f3);
  ru_key : Driver.InstallTrafficKey root d6 = (d7, Ok tt);
  ru_session : sess = mkSession d7 (Some root) "serve" }.

Lemma accept_inv root peerID c c' sess :
  acceptHandshake root peerID c = (c', Ok sess) ->
  exists mac ak ar r0 r1 r2 r3 w2 w4 f0 f1 f2 f3 d1 d2 d3 d4 d5 d6 d7,
    accepted_run root peerID (cin c) (cin c') sess mac ak ar r0 r1 r2 r3 w2 w4 f0 f1 f2 f3 d1 d2 d3 d4 d5 d6 d7.
Proof.
  unfold acceptHandshake. case_match; [done|].
  intros (? & mac & [-> Hmac]%crypto_inv & E)%bind_inv.
  apply bind_inv in E as (c1 & r0 & I0%ReadFrame_inv & E). apply bind_inv in E as (? & f0 & [= <- Hf0] & E).
  cbv zeta in E. apply bind_inv in E as (? & [d1 []] & [-> Hd1]%call_inv & E).
  apply bind_inv in E as (? & [d2 w2] & [-> Hd2]%call_inv & E). apply bind_inv in E as (c2 & ? & I2%WriteFrame_inv & E).
  apply bind_inv in E as (? & ak & [-> Hak]%crypto_inv & E). apply bind_inv in E as (? & ar & [-> Har]%crypto_inv & E).
  apply bind_inv in E as (c3 & r1 & I3%ReadFrame_inv & E). apply bind_inv in E as (? & [d3 f1] & [-> Hd3]%call_inv & E).
  apply bind_inv in E as (? & [d4 w4] & [-> Hd4]%call_inv & E). apply bind_inv in E as (c4 & ? & I4%WriteFrame_inv & E).
  apply bind_inv in E as (c5 & r2 & I5%ReadFrame_inv & E). apply bind_inv in E as (? & [d5 f2] & [-> Hd5]%call_inv & E).
  apply bind_inv in E as (c6 & r3 & I6%ReadFrame_inv & E). apply bind_inv in E as (? & [d6 f3] & [-> Hd6]%call_inv & E).
  apply bind_inv in E as (? & [d7 []] & [-> Hd7]%call_inv & E). injection E as <- <-.
  exists mac, ak, ar, r0, r1, r2, r3, w2, w4, f0, f1, f2, f3, d1, d2, d3, d4, d5, d6, d7. split; try done.
  - rewrite I0, <- I2, I3, <- I4, I5, I6. done.
  - destruct (Protocol.Decode r0 mac true); simplify_eq/=; done.
Qed.

(** The driver's session is the result of calls that satisfy [P]. *)
Definition story (P : Session.op -> Prop) (d : Driver.Driver) : Prop :=
  Driver.dok d /\ exists h, Session.proved h (Driver.Session_ d) /\ Forall P h.

(** What a frame can make a driver call. *)
Definition raised (f : Protocol.Frame) (d : Driver.Driver) (o : Session.op) : Prop :=
  match o with
  | Session.OpAuthenticateProof k i dir p =>
      k = Driver.AuthKey d /\ i = Driver.DSessionID d /\ 0 < len k /\ Protocol.ParsePeerAuthBody (Protocol.Body f) = Ok (dir, p)
  | Session.OpAuthorizeArchiveProof k i p =>
      k = Driver.ArchiveKey d /\ i = Driver.DSessionID d /\ 0 < len k /\ Protocol.Body f = p
  | _ => True
  end.

Definition keys (d : Driver.Driver) :=
  (Driver.DSessionID d, Driver.MACKey d, Driver.RequireMAC d, Driver.AuthKey d, Driver.ArchiveKey d, Driver.AuthDir d).

(** The session of [d'] comes from a call on [s], and the keys of [d'] from [d]. *)
Lemma story_exec (P : Session.op -> Prop) o s d d' :
  Session.ok s -> (exists h, Session.proved h s /\ Forall P h) -> Session.proof_mode o -> P o ->
  Driver.Session_ d' = (Session.exec o s).1 -> keys d' = keys d -> story P d' /\ keys d' = keys d.
Proof.
  intros Hok (h & Hp & Hf) Hm Ho Es Ek. split; [|done]. split; [unfold Driver.dok; rewrite Es; by apply Session.exec_ok|].
  exists (h ++ [o]). rewrite Es. split; [by apply Session.exec_proved|]. apply Forall_app. split; [done|by apply Forall_singleton].
Qed.

Lemma on_session_Ok {A} d r (k : Driver.Driver -> Driver.result A) d' a :
  Driver.on_session d r k = (d', Ok a) -> r.2 = Ok tt /\ k (Driver.set_Session r.1 d) = (d', Ok a).
Proof. unfold Driver.on_session. destruct r as [s [[]|e|]]; cbn; intros; simplify_eq; done. Qed.

Lemma on_value_Ok {A B} d (c : res Protocol.Error A) (k : A -> Driver.result B) d' b :
  Driver.on_value d c k = (d', Ok b) -> exists a, c = Ok a /\ k a = (d', Ok b).
Proof. unfold Driver.on_value. destruct c; intros; simplify_eq; eauto. Qed.

Lemma Handle_story P f d d' :
  story P d -> (forall o, raised f d o -> P o) ->
  (0 < len (Driver.AuthKey d) /\ 0 < len (Driver.ArchiveKey d)) \/ Session.State_ (Driver.Session_ d) = Session.StateNew ->
  Driver.Handle f d = (d', Ok tt) -> story P d' /\ keys d' = keys d.
Proof.
  intros [Hok Hh] HP Hk. unfold Driver.Handle. cbv zeta.
  assert (Hx : forall o d0 d1, Session.proof_mode o -> raised f d o -> keys d0 = keys d -> Driver.Session_ d0 = Driver.Session_ d ->
    Driver.on_session d0 (Session.exec o (Driver.Session_ d)) Driver.accepted = (d1, Ok tt) -> story P d1 /\ keys d1 = keys d).
  { intros o d0 d1 Hm Hr Hk0 Hs0 [_ E]%on_session_Ok. injection E as <-.
    apply (story_exec P o (Driver.Session_ d)); [done|done|done|by apply HP|done|done]. }
  assert (Hid : forall d1, Driver.accepted d = (d1, Ok tt) -> story P d1 /\ keys d1 = keys d).
  { intros d1 [= <-]. done. }
  destruct (negb (bool_decide _)); [done|]. destruct (negb _); [done|]. destruct (Protocol.CriticalUnknown _); [done|].
  case_if.
  { case_bool_decide as Hst; [|apply Hid]. case_if; [|by apply (Hx Session.OpNegotiate)].
    intros ([vers sts] & _ & E)%on_value_Ok. apply on_session_Ok in E as [_ [= <-]].
    apply (story_exec P Session.OpNegotiate (Driver.with_offer vers sts (Driver.Session_ d))); [by apply Driver.with_offer_ok| |done|by apply HP|done|done].
    destruct Hh as (h & Hp & Hf). exists h. split; [|done]. by apply (Session.proved_view h (Driver.Session_ d)). }
  case_if.
  { intros ([v su] & _ & E)%on_value_Ok.
    assert (Hc : forall d0, story P d0 /\ keys d0 = keys d -> (if 0 <? len (Protocol.Body f)
      then Driver.on_session d0 (Session.ConfirmAccept v su (Driver.Session_ d0)) Driver.accepted else Driver.accepted d0) = (d', Ok tt) ->
      story P d' /\ keys d' = keys d).
    { intros d0 [[Hok0 Hh0] Hk0]. case_if; [|intros [= <-]; done]. intros [_ [= <-]]%on_session_Ok.
      apply (story_exec P (Session.OpConfirmAccept v su) (Driver.Session_ d0)); [done|done|done|by apply HP|done|done]. }
    case_bool_decide; [|by apply (Hc d)]. apply on_session_Ok in E as [_ E]. apply Hc in E; [done|].
    apply (story_exec P Session.OpNegotiate (Driver.Session_ d)); [done|done|done|by apply HP|done|done]. }
  case_if.
  { case_if; [|intros [Er _]%on_session_Ok; destruct Hk as [[? _]|Hst]; [reflect_bools; lia|]; unfold Session.Authenticate in Er; by rewrite Hst in Er].
    intros ([dir p] & Hpar & E)%on_value_Ok. reflect_bools. by apply (Hx (Session.OpAuthenticateProof _ _ dir p)) in E. }
  case_if.
  { case_if; [|intros [Er _]%on_session_Ok; destruct Hk as [[_ ?]|Hst]; [reflect_bools; lia|]; unfold Session.AuthorizeArchive in Er; by rewrite Hst in Er].
    reflect_bools. by apply (Hx (Session.OpAuthorizeArchiveProof _ _ (Protocol.Body f))). }
  case_if; [by apply (Hx Session.OpActivate)|].
  case_if.
  { unfold Driver.handle_data. intros (body & _ & E)%on_value_Ok. case_match; [|by apply (Hx Session.OpAcceptNext) in E].
    apply on_value_Ok in E as ([off data] & _ & E). case_match; [done|]. by apply (Hx Session.OpAcceptNext) in E. }
  case_if; [by apply (Hx Session.OpClose)|]. by case_if.
Qed.

Lemma EncodeFrame_keys typ body d d' r : Driver.EncodeFrame typ body d = (d', r) -> Driver.Session_ d' = Driver.Session_ d /\ keys d' = keys d.
Proof. unfold Driver.EncodeFrame, Driver.on_value. repeat case_match; intros; by simplify_eq. Qed.

Lemma story_same P d d' : Driver.Session_ d' = Driver.Session_ d -> story P d -> story P d'.
Proof. unfold story, Driver.dok. by intros ->. Qed.

Lemma accept_story (P : Session.op -> Prop) d d' raw :
  story P d -> P Session.OpNegotiate -> Driver.EncodeNegotiateAccept d = (d', Ok raw) -> story P d' /\ keys d' = keys d.
Proof.
  intros Hs HP. unfold Driver.EncodeNegotiateAccept. cbv zeta.
  assert (Hx : forall d0, story P d0 /\ keys d0 = keys d ->
    (if negb (bool_decide (Session.State_ (Driver.Session_ d0) = Session.StateNegotiated)) then (d0, Err (Protocol.fail "state"))
     else Driver.on_value d0 (Protocol.EncodeNegotiateAcceptBody (Session.Selected (Driver.Session_ d0)) (Session.SelectedSuite (Driver.Session_ d0)))
       (fun body => Driver.EncodeFrame Protocol.TypeNegotiateAccept body d0)) = (d', Ok raw) -> story P d' /\ keys d' = keys d).
  { intros d0 [Hs0 Hk0]. case_if; [done|]. intros (body & _ & [Es Ek]%EncodeFrame_keys)%on_value_Ok.
    split; [by apply (story_same P d0)|congruence]. }
  case_bool_decide; [|by apply Hx]. intros [_ E]%on_session_Ok. apply Hx in E; [done|]. destruct Hs as [Hok Hh].
  apply (story_exec P Session.OpNegotiate (Driver.Session_ d)); done.
Qed.

Lemma reply_story (P : Session.op -> Prop) d d' raw :
  story P d -> (forall p, P (Session.OpAuthenticateProof (Driver.AuthKey d) (Driver.DSessionID d) "r2i" p)) -> Driver.AuthDir d = "r2i"%string ->
  Driver.EncodePeerAuth d = (d', Ok raw) -> story P d' /\ keys d' = keys d.
Proof.
  intros [Hok Hh] HP Hdir. unfold Driver.EncodePeerAuth. case_if; [done|]. rewrite Hdir. change (if bool_decide _ then _ else _) with "r2i"%string. cbv zeta.
  intros (p & _ & E)%on_value_Ok. unfold Driver.send_then in E. destruct (Driver.EncodeFrame _ _ d) as [d0 r] eqn:Ee.
  apply EncodeFrame_keys in Ee as [Es Ek]. apply on_value_Ok in E as (w & _ & E). apply on_session_Ok in E as [_ [= <- _]]. rewrite Es, <- Ek.
  apply (story_exec P (Session.OpAuthenticateProof (Driver.AuthKey d) (Driver.DSessionID d) "r2i" p) (Driver.Session_ d)); [done|done|done|apply HP|done|done].
Qed.

Lemma handle_story P raw d d' f :
  story P d -> (forall f', Protocol.Decode raw (Driver.MACKey d) (Driver.RequireMAC d) = Ok f' -> forall o, raised f' d o -> P o) ->
  0 < len (Driver.AuthKey d) -> 0 < len (Driver.ArchiveKey d) ->
  Driver.DecodeAndHandle raw d = (d', Ok f) -> story P d' /\ keys d' = keys d.
Proof.
  intros Hs HP Hk Ha. unfold Driver.DecodeAndHandle. intros (f' & Hd & E)%on_value_Ok. destruct (Driver.Handle f' d) as [d1 [[]|e|]] eqn:Eh; try done.
  injection E as -> ->. apply (Handle_story P f d); [done|by apply HP|by left|done].
Qed.

Lemma install_active root d d' :
  Driver.InstallTrafficKey root d = (d', Ok tt) -> Session.State_ (Driver.Session_ d) = Session.StateActive /\ Driver.Session_ d' = Driver.Session_ d /\
    keys d' = keys d /\ exists t, Session.Transcript (Driver.Session_ d) = Some t /\
    Crypto.TrafficKey root (Crypto.Digest t) (Driver.DSessionID d) (Session.SelectedSuite (Driver.Session_ d)) = Ok (Driver.AEADKey d').
Proof.
  unfold Driver.InstallTrafficKey. case_bool_decide; [|done]. cbn [negb]. destruct (Session.Transcript _) as [t|] eqn:Et; [|done].
  case_bool_decide; [done|]. destruct (Crypto.TrafficKey _ _ _ _) as [key|e|] eqn:Ek; [|done..]. unfold Driver.SetAEADKey. case_if; [done|].
  intros [= <-]. split_and!; [done..|]. exists t. split; [done|]. by rewrite Ek.
Qed.

(** The calls that a handshake over the frames [raws] can make on the session of
    the serving end: every proof is under the keys of the peer, and a proof of the
    initiator or of the archive comes from an authenticated frame. *)
Definition heard (mac ak ar sid : bytes) (raws : list bytes) (o : Session.op) : Prop :=
  match o with
  | Session.OpAuthenticateProof k i dir p => k = ak /\ i = sid /\ (dir = "i2r"%string -> exists raw f, raw ∈ raws /\
      Protocol.Decode raw mac true = Ok f /\ Protocol.ParsePeerAuthBody (Protocol.Body f) = Ok (dir, p))
  | Session.OpAuthorizeArchiveProof k i p => k = ar /\ i = sid /\ exists raw f, raw ∈ raws /\
      Protocol.Decode raw mac true = Ok f /\ Protocol.Body f = p
  | _ => True
  end.

Lemma new_driver_story P sid mac : story P (Driver.NewDriverWithSuites offeredVersions suites sid mac true).
Proof.
  split; [|exists []; done]. split; [|done]. apply Session.Spec.Init_Safe; [by apply Session.accept_limit_pos|]. by split_and!.
Qed.

Lemma heard_frame mac ak ar sid raws raw f d :
  raw ∈ raws -> Protocol.Decode raw (Driver.MACKey d) (Driver.RequireMAC d) = Ok f ->
  keys d = (sid, mac, true, ak, ar, "r2i"%string) -> forall o, raised f d o -> heard mac ak ar sid raws o.
Proof.
  unfold keys. intros Hr Hd [= E1 E2 E3 E4 E5 _]. rewrite E2, E3 in Hd. intros []; cbn; try done; rewrite ?E1, ?E4, ?E5; naive_solver.
Qed.

(** The session at the end of an accepted handshake. *)
Lemma accepted_story root peerID inp rest sess mac ak ar r0 r1 r2 r3 w2 w4 f0 f1 f2 f3 d1 d2 d3 d4 d5 d6 d7 :
  len root = 32 -> accepted_run root peerID inp rest sess mac ak ar r0 r1 r2 r3 w2 w4 f0 f1 f2 f3 d1 d2 d3 d4 d5 d6 d7 ->
  story (heard mac ak ar (Protocol.SessionID f0) [r1; r2; r3]) d6 /\
  keys d6 = (Protocol.SessionID f0, mac, true, ak, ar, "r2i"%string).
Proof.
  intros Hroot []. set (sid := Protocol.SessionID f0) in *. set (P := heard mac ak ar sid [r1; r2; r3]).
  destruct (handshake_keys root peerID sid Hroot) as (? & ? & ? & _ & _ & Ea & La & Er & Lr).
  rewrite ru_auth0 in Ea. injection Ea as <-. rewrite ru_arch0 in Er. injection Er as <-.
  apply (Handle_story P) in ru_handle0 as [S1 K1]; [|by apply new_driver_story| |by right].
  2:{ intros []; try done; intros (-> & _ & Hlt & _); done. }
  apply (accept_story P) in ru_accept0 as [S2 K2]; [|done|done].
  assert (Kd : keys (set_handshake_keys ak ar "r2i" d2) = (sid, mac, true, ak, ar, "r2i"%string)).
  { rewrite K1 in K2. unfold keys in K2. injection K2 as E1 E2 E3 _ _ _. unfold keys. cbn. by rewrite E1, E2, E3. }
  assert (M1 : r1 ∈ [r1; r2; r3]) by (rewrite elem_of_cons; by left). assert (M2 : r2 ∈ [r1; r2; r3]) by (rewrite !elem_of_cons; right; by left).
  assert (M3 : r3 ∈ [r1; r2; r3]) by (rewrite !elem_of_cons; right; right; by left).
  assert (Hin : forall raw d d' f, raw ∈ [r1; r2; r3] -> story P d -> keys d = (sid, mac, true, ak, ar, "r2i"%string) ->
    Driver.DecodeAndHandle raw d = (d', Ok f) -> story P d' /\ keys d' = (sid, mac, true, ak, ar, "r2i"%string)).
  { intros raw d d' f Hraw Hs Hk E. apply (handle_story P) in E as [? ?]; [split; [done|congruence]|done| | |].
    - intros f' Hd. exact (heard_frame mac ak ar sid _ raw f' d Hraw Hd Hk).
    - unfold keys in Hk. injection Hk as _ _ _ -> _ _. lia.
    - unfold keys in Hk. injection Hk as _ _ _ _ -> _. lia. }
  destruct (Hin _ _ _ _ M1 (story_same P d2 (set_handshake_keys ak ar "r2i" d2) eq_refl S2) Kd ru_first0) as [S3 K3].
  apply (reply_story P) in ru_reply0 as [S4 K4]; [|done| |unfold keys in K3; congruence].
  2:{ intros p. unfold keys in K3. injection K3 as -> _ _ -> _ _. by split_and!. }
  rewrite K3 in K4. destruct (Hin _ _ _ _ M2 S4 K4 ru_second0) as [S5 K5]. exact (Hin _ _ _ _ M3 S5 K5 ru_third0).
Qed.

Lemma ReadPeerPrologue_inv c c' peerID :
  ReadPeerPrologue c = (c', Ok peerID) -> cin c = prologue peerID ++ cin c' /\ ValidatePeerID peerID = Ok tt.
Proof.
  unfold ReadPeerPrologue. intros (c1 & hdr & E1 & E)%bind_inv.
  apply bind_inv in E as (? & m & [= <- Em] & E). case_bool_decide as Hm; cbn [negb] in E; [|done]. subst m.
  apply bind_inv in E as (? & b & [= <- Eb] & E). cbv zeta in E. case_match; [done|].
  apply bind_inv in E as (c2 & s & E2 & E). apply bind_inv in E as (? & [] & [= <- Ev] & [= <- <-]).
  split; [|done]. assert (L1 : len hdr = len peerPrologueMagic + 1) by (by eapply ReadFull_len).
  assert (L2 : len s = byteZ b) by (eapply ReadFull_len; [apply byteZ_range|done]).
  pose proof (ReadFull_inv _ _ _ _ _ E1) as ->. pose proof (ReadFull_inv _ _ _ _ _ E2) as ->.
  rewrite slice_ok in Em by (rewrite ?L1; done). injection Em as Em.
  destruct (@index_sub Error _ hdr (len peerPrologueMagic)) as (x & Ex & Esub); [done|rewrite L1; done|]. rewrite Eb in Ex. injection Ex as <-.
  assert (Hh : hdr = peerPrologueMagic ++ [b]).
  { rewrite <- (sub_full hdr (len peerPrologueMagic + 1)), (sub_split hdr 0 (len peerPrologueMagic) (len peerPrologueMagic + 1)), Em by (rewrite ?L1; done). by rewrite Esub. }
  unfold prologue. apply ValidatePeerID_len in Ev. rewrite bool_decide_false by (intros ->; rewrite len_nil in Ev; lia).
  rewrite Hh, L2, byte_of_byteZ, <- !app_assoc. done.
Qed.

(** What the calls of an active session contain. *)
Lemma story_active mac ak ar sid raws d :
  story (heard mac ak ar sid raws) d -> Session.State_ (Driver.Session_ d) = Session.StateActive ->
  (exists raw f p, raw ∈ raws /\ Protocol.Decode raw mac true = Ok f /\
    Protocol.ParsePeerAuthBody (Protocol.Body f) = Ok ("i2r"%string, p) /\
    Crypto.PeerAuthProof ak (Session.AuthBaseDigest (Driver.Session_ d)) sid "i2r" = Ok p) /\
  (exists raw f, raw ∈ raws /\ Protocol.Decode raw mac true = Ok f /\
    Crypto.ArchiveAuthProof ar (Session.ArchiveBaseDigest (Driver.Session_ d)) sid = Ok (Protocol.Body f)).
Proof.
  intros [[(S1 & S2 & S3 & _) _] (h & (P1 & _ & P3) & Hf)] Hst. cbn in S1, S2, S3. rewrite Hst in S2, S3. rewrite Forall_forall in Hf.
  destruct (P1 (proj1 (S1 (S2 eq_refl)))) as (k & i & p & Ho & Hp). destruct (P3 (S3 eq_refl)) as (k' & i' & p' & Ho' & Hp').
  destruct (Hf _ Ho) as (-> & -> & (raw & f & ? & ? & ?)); [done|]. destruct (Hf _ Ho') as (-> & -> & (raw' & f' & ? & ? & <-)).
  split; [by exists raw, f, p|by exists raw', f'].
Qed.

(** C18. Whom a served session is with.  Whatever bytes arrive, when the serving end
    accepts a session for a peer, the bytes it read are the prologue that names the
    peer and four frames, and among the last three are, each authenticated under
    the channel key derived from the key of that peer in the keyring, a frame with
    the initiator's proof over the frozen transcript and one with the archive proof,
    both under keys derived from that key and the session identifier; the session
    is active and its traffic key is derived from the same key. *)
Theorem accepted_peer_authentic kr c c' sess peerID :
  AcceptHandshakeKeyring kr c = (c', Ok (sess, peerID)) ->
  exists root mac ak ar r0 r1 r2 r3 t, let d := SDriver sess in let s := Driver.Session_ d in
    cin c = prologue peerID ++ r0 ++ r1 ++ r2 ++ r3 ++ cin c' /\
    kr !! peerID = Some root /\ deriveMACKey root peerID = Ok mac /\
    Crypto.PeerAuthKey root (Driver.DSessionID d) = Ok ak /\ Crypto.ArchiveAuthKey root (Driver.DSessionID d) = Ok ar /\
    (exists raw f p, raw ∈ [r1; r2; r3] /\ Protocol.Decode raw mac true = Ok f /\
      Protocol.ParsePeerAuthBody (Protocol.Body f) = Ok ("i2r"%string, p) /\
      Crypto.PeerAuthProof ak (Session.AuthBaseDigest s) (Driver.DSessionID d) "i2r" = Ok p) /\
    (exists raw f, raw ∈ [r1; r2; r3] /\ Protocol.Decode raw mac true = Ok f /\
      Crypto.ArchiveAuthProof ar (Session.ArchiveBaseDigest s) (Driver.DSessionID d) = Ok (Protocol.Body f)) /\
    Session.State_ s = Session.StateActive /\ Driver.MACKey d = mac /\ Session.Transcript s = Some t /\
    Crypto.TrafficKey root (Crypto.Digest t) (Driver.DSessionID d) (Session.SelectedSuite s) = Ok (Driver.AEADKey d).
Proof.
  unfold AcceptHandshakeKeyring. intros (c1 & [] & E1 & E)%bind_inv.
  unfold or_fail, lift in E1. injection E1 as <- Ev.
  destruct (ValidateKeyring kr) as [[]|e|] eqn:Hv; [clear Ev|done..].
  apply bind_inv in E as (c2 & pid & E2 & E). unfold or_fail in E2. destruct (ReadPeerPrologue c) as [c0 [pid'|e|]] eqn:Ep; [|done..].
  injection E2 as -> ->. apply ReadPeerPrologue_inv in Ep as [Hin _].
  destruct (kr !! pid) as [root|] eqn:Hr; [|done]. apply bind_inv in E as (c3 & ss & E3 & [= <- <- <-]). unfold or_fail in E3.
  destruct (acceptHandshake root pid c2) as [c4 [x|e|]] eqn:Ea; [|done..]. injection E3 as -> ->.
  apply ValidateKeyring_ok in Hv as [_ Hg]. destruct (Hg _ _ Hr) as [_ Hl]. cbn in Hl.
  apply accept_inv in Ea as (mac & ak & ar & r0 & r1 & r2 & r3 & w2 & w4 & f0 & f1 & f2 & f3 & d1 & d2 & d3 & d4 & d5 & d6 & d7 & Hrun).
  destruct (accepted_story _ _ _ _ _ _ _ _ _ _ _ _ _ _ _ _ _ _ _ _ _ _ _ _ _ Hl Hrun) as [Hs Hk]. destruct Hrun.
  apply install_active in ru_key0 as (Hst & Es & Ek & t & Ht & Hkey). rewrite Hk in Ek. unfold keys in Hk, Ek.
  injection Ek as E1 E2 _ _ _ _. injection Hk as E3 _ _ _ _ _. destruct (story_active _ _ _ _ _ _ Hs Hst) as [Hpeer Harch].
  subst ss. cbn [SDriver]. exists root, mac, ak, ar, r0, r1, r2, r3, t. cbv zeta. rewrite E1, Es.
  rewrite E3 in Hkey. split; [by rewrite Hin, ru_input0|].
  exact (conj Hr (conj ru_mac0 (conj ru_auth0 (conj ru_arch0 (conj Hpeer (conj Harch (conj Hst (conj E2 (conj Ht Hkey))))))))).
Qed.

End Crossing.

(** ** Instances *)

#[local] Existing Instances Crypto.demo_cipher Crypto.demo_cipher_laws.

#[local] Instance demo_texts : SessionTexts := {|
  proto_text _ := str "protocol"; sess_text _ := str "session"; crypto_text _ := str "crypto";
  eof_text := str "EOF"; rand_text := str "rand" |}.

Definition keyring_demo : PeerKeyring := {[ str "alice" := zeros 32; str "bob" := byte_of 7 :: zeros 31 ]}.

(** An end of an established session. *)
Definition end_demo : Driver.Driver :=
  hs_driver (zeros 16) (zeros 32) (hs_session Session.StateActive 3 Crypto.SuiteIDAEAD true true true true Crypto.NewTranscript [] true [] true)
    3 3 [] "" [] (zeros 32).

Lemma linked_demo : linked end_demo end_demo.
Proof. unfold linked, receiving. split_and!; vm_compute; congruence. Qed.

Lemma handshake_completes_witness :
  exists a2b b2a da db, linked da db /\ Driver.DSessionID da = zeros 16 /\ received da = 0 /\ received db = 0 /\
    DialHandshake (zeros 32) (str "alice") (Some (zeros 16)) (mkConn b2a [] []) = (mkConn [] a2b [], Ok (mkSession da (Some (zeros 32)) "push")) /\
    AcceptHandshakeKeyring keyring_demo (mkConn a2b [] []) = (mkConn [] b2a [], Ok (mkSession db (Some (zeros 32)) "serve", str "alice")).
Proof. apply (handshake_completes keyring_demo (str "alice") (zeros 32) (zeros 16)); vm_compute; reflexivity. Defined.

Lemma session_delivers_witness :
  exists wire a' b', linked a' b' /\ received b' = 3 /\ received a' = 0 /\
    (forall inp out, send_all [str "one"; []; str "three"] (mkConn inp out [], end_demo) = ((mkConn inp (out ++ wire) [], a'), Ok tt)) /\
    (forall rest out, recv_all 3 (mkConn (wire ++ rest) out [], end_demo) = ((mkConn rest out [], b'), Ok [str "one"; []; str "three"])).
Proof.
  apply (session_delivers end_demo end_demo [str "one"; []; str "three"]).
  - apply linked_demo.
  - repeat constructor; vm_compute; congruence.
  - vm_compute. congruence.
  - vm_compute. congruence.
Defined.

Lemma seal_continues_witness :
  exists seal raw sess, sealFromDriver end_demo = Ok seal /\ encodeSeal seal = Ok raw /\ 1 <= len raw <= 1000 /\ SessionFromSeal raw = Ok sess /\
    linked end_demo (SDriver sess) /\ Session.SelectedSuite (Driver.Session_ (SDriver sess)) = Crypto.SuiteIDAEAD /\
    received (SDriver sess) = 0 /\ SRoot sess = None.
Proof.
  apply (seal_continues end_demo end_demo); [apply linked_demo|unfold sealable, is_u8; vm_compute; split_and!; congruence].
Defined.

Lemma accepted_peer_authentic_witness :
  exists c c' sess, AcceptHandshakeKeyring keyring_demo c = (c', Ok (sess, str "bob")) /\
    exists root mac ak ar r0 r1 r2 r3 t, let d := SDriver sess in let s := Driver.Session_ d in
    cin c = prologue (str "bob") ++ r0 ++ r1 ++ r2 ++ r3 ++ cin c' /\
    keyring_demo !! str "bob" = Some root /\ deriveMACKey root (str "bob") = Ok mac /\
    Crypto.PeerAuthKey root (Driver.DSessionID d) = Ok ak /\ Crypto.ArchiveAuthKey root (Driver.DSessionID d) = Ok ar /\
    (exists raw f p, raw ∈ [r1; r2; r3] /\ Protocol.Decode raw mac true = Ok f /\
      Protocol.ParsePeerAuthBody (Protocol.Body f) = Ok ("i2r"%string, p) /\
      Crypto.PeerAuthProof ak (Session.AuthBaseDigest s) (Driver.DSessionID d) "i2r" = Ok p) /\
    (exists raw f, raw ∈ [r1; r2; r3] /\ Protocol.Decode raw mac true = Ok f /\
      Crypto.ArchiveAuthProof ar (Session.ArchiveBaseDigest s) (Driver.DSessionID d) = Ok (Protocol.Body f)) /\
    Session.State_ s = Session.StateActive /\ Driver.MACKey d = mac /\ Session.Transcript s = Some t /\
    Crypto.TrafficKey root (Crypto.Digest t) (Driver.DSessionID d) (Session.SelectedSuite s) = Ok (Driver.AEADKey d).
Proof.
  destruct (known_peer_meets keyring_demo (str "bob") (byte_of 7 :: zeros 31) (zeros 16)) as (a2b & b2a & da & db & _ & _ & _ & _ & Ha);
    [vm_compute; reflexivity..|].
  eexists _, _, _. split; [exact Ha|]. exact (accepted_peer_authentic keyring_demo _ _ _ (str "bob") Ha).
Defined.

End RemoteSession.
