(* ===== verification/Rights.v ===== *)
(** * Descriptor passing between roles (internal/ipc/rights_unix.go)

    A descriptor travels on a Unix stream socket as ancillary data of a message of
    four bytes that say what it is for.  [RightsSocket] is what the code uses of the
    socket; [Sock] is a socket with its queues, the number of descriptors that the
    process holds, and scripted failures.  A plain read crosses the boundaries of
    messages and drops the descriptors it passes; the control data is what
    golang.org/x/sys/unix makes of it: a list of messages, each a list of
    descriptors, or a failure to parse.  The name of the opened file and the
    close-on-exec flag are not modelled; the sockets are not nil. *)

From S2P Require Import Prelude Codec Ipc FileSystem.
Import FileSystem.

Module Rights.

Definition KeyFDMagic : bytes := str "IKFD".
Definition PeerFDMagic : bytes := str "IPER".
Definition PrimaryPeerFDMagic : bytes := str "IPRI".
Definition StubReadyMagic : bytes := str "RDY1".
Definition RebindAckMagic : bytes := str "RBAK".

Inductive RebindKind := RebindExtra | RebindPrimary.

(** Control data: [None] when it does not parse, a message [None] when it is not
    one of descriptors. *)
Abbreviation control FD := (option (list (option (list FD)))).

(** [sendmsg] returns the bytes written and whether all control data was;
    [write] the bytes written. *)
Class RightsSocket (W FD : Type) := {
  sendmsg : bytes -> list FD -> io W errno (Z * bool);
  recvmsg : Z -> io W errno (bytes * control FD);
  write : bytes -> io W errno Z;
  read_full : Z -> io W errno bytes;
  close_fd : FD -> io W errno unit }.

Section Passing.
Context {W FD : Type} `{RightsSocket W FD}.
Abbreviation IO := (io W Ipc.Error).

Definition rights : Ipc.Error := Ipc.fail "rights" true.

Definition sendFDConn (file : FD) (magic : bytes) : IO unit :=
  let* (n, whole) := or_fail (sendmsg magic [file]) (fun _ => rights) in
  if negb (n =? len magic) || negb whole then throw rights else ret tt.

(** The counts are not looked at. *)
Definition sendFDFileMagic (file : FD) (magic : bytes) : IO unit :=
  let* _ := or_fail (sendmsg magic [file]) (fun _ => rights) in
  ret tt.

Fixpoint close_all (fds : list FD) : IO unit :=
  match fds with
  | [] => ret tt
  | fd :: fds => let* _ := ignore (close_fd fd) in close_all fds
  end.

Definition parseRightsMessage (data : bytes) (oob : control FD) (magic : bytes) : IO FD :=
  if negb (bool_decide (data = magic)) then throw rights else
  match oob with
  | None => throw rights
  | Some msgs =>
      match msgs with
      | [m] =>
          match m with
          | None => throw rights
          | Some fds =>
              match fds with
              | [fd] => ret fd
              | _ => let* _ := close_all fds in throw rights
              end
          end
      | _ => throw rights
      end
  end.

Definition recvFDMagic (magic : bytes) : IO FD :=
  let* (data, oob) := or_fail (recvmsg (len magic)) (fun _ => rights) in
  parseRightsMessage data oob magic.

Definition SendFD (file : FD) : IO unit := sendFDConn file KeyFDMagic.
Definition RecvFD : IO FD := recvFDMagic KeyFDMagic.
Definition RecvFDFile : IO FD := recvFDMagic KeyFDMagic.
Definition SendFDFile (file : FD) : IO unit := sendFDFileMagic file KeyFDMagic.
Definition SendPeerFDFile (file : FD) : IO unit := sendFDFileMagic file PeerFDMagic.
Definition RecvPeerFDFile : IO FD := recvFDMagic PeerFDMagic.
Definition SendPrimaryPeerFDFile (file : FD) : IO unit := sendFDFileMagic file PrimaryPeerFDMagic.

Definition RecvRebindFDFile : IO (FD * RebindKind) :=
  let* (data, oob) := or_fail (recvmsg (len PeerFDMagic)) (fun _ => rights) in
  if bool_decide (data = PeerFDMagic) then
    let* f := parseRightsMessage data oob PeerFDMagic in ret (f, RebindExtra)
  else if bool_decide (data = PrimaryPeerFDMagic) then
    let* f := parseRightsMessage data oob PrimaryPeerFDMagic in ret (f, RebindPrimary)
  else throw rights.

Definition WriteRebindAck : IO unit :=
  let* n := or_fail (write RebindAckMagic) (fun _ => rights) in
  if negb (n =? len RebindAckMagic) then throw rights else ret tt.

(** A deadline that passes is a failure of the read. *)
Definition WaitRebindAck : IO unit :=
  let* buf := or_fail (read_full (len RebindAckMagic)) (fun _ => rights) in
  if negb (bool_decide (buf = RebindAckMagic)) then throw rights else ret tt.

End Passing.

(** ** A socket *)

(** What was written in one call, with the descriptors sent along. *)
Abbreviation segment FD := (bytes * list FD)%type.

Definition flat {FD} (q : list (segment FD)) : bytes := concat (map fst q).

(** Reading [n] bytes past the boundaries; the descriptors passed are dropped. *)
Fixpoint skip_bytes {FD} (n : nat) (q : list (segment FD)) : list (segment FD) :=
  match q with
  | [] => []
  | (b, fds) :: q =>
      if bool_decide (n = O) then (b, fds) :: q else
      if bool_decide (length b <= n)%nat then skip_bytes (n - length b) q else (drop n b, []) :: q
  end.

Record Sock (FD : Type) := mkSock {
  sin : list (segment FD);
  sout : list (segment FD);
  held : Z;
  sfaults : list (option errno) }.
Arguments mkSock {FD} _ _ _ _.
Arguments sin {FD} _.
Arguments sout {FD} _.
Arguments held {FD} _.
Arguments sfaults {FD} _.

Section Socket.
Context {FD : Type}.
Abbreviation S := (Sock FD).

(** The next system call fails as the script says. *)
Definition syscall : io S errno unit := fun s =>
  match sfaults s with
  | Some e :: fl => (mkSock (sin s) (sout s) (held s) fl, Err e)
  | _ => (mkSock (sin s) (sout s) (held s) (tail (sfaults s)), Ok tt)
  end.

Definition put (seg : segment FD) : io S errno unit := fun s =>
  (mkSock (sin s) (sout s ++ [seg]) (held s) (sfaults s), Ok tt).

Definition hold (n : Z) : io S errno unit := fun s =>
  (mkSock (sin s) (sout s) (held s + n) (sfaults s), Ok tt).

(** The first message, at most [n] bytes of it, with its descriptors. *)
Definition take_message (n : Z) : io S errno (bytes * list FD) := fun s =>
  match sin s with
  | [] => (s, Err EOther)
  | (b, fds) :: q =>
      let rest := drop (Z.to_nat n) b in
      (mkSock (if bool_decide (rest = []) then q else (rest, []) :: q) (sout s) (held s) (sfaults s), Ok (take (Z.to_nat n) b, fds))
  end.

Definition take_bytes (n : Z) : io S errno bytes := fun s =>
  if len (flat (sin s)) <? n then (mkSock [] (sout s) (held s) (sfaults s), Err EOther)
  else (mkSock (skip_bytes (Z.to_nat n) (sin s)) (sout s) (held s) (sfaults s), Ok (take (Z.to_nat n) (flat (sin s)))).

#[global] Instance Sock_Rights : RightsSocket S FD := {
  sendmsg b fds := let* _ := syscall in let* _ := put (b, fds) in ret (len b, true);
  recvmsg n :=
    let* _ := syscall in
    let* (b, fds) := take_message n in
    let* _ := hold (len fds) in
    ret (b, Some (if bool_decide (fds = []) then [] else [Some fds]));
  write b := let* _ := syscall in let* _ := put (b, []) in ret (len b);
  read_full n := let* _ := syscall in take_bytes n;
  close_fd _ := hold (-1) }.

(** ** Custody of descriptors *)

Lemma close_all_held fds (s : S) :
  exists s', close_all fds s = (s', Ok tt) /\ held s' = held s - len fds /\ sin s' = sin s /\ sout s' = sout s /\ sfaults s' = sfaults s.
Proof.
  revert s. induction fds as [|fd fds IH]; intros s; cbn [close_all].
  { exists s. rewrite len_nil. split_and!; (done || lia). }
  destruct (IH (mkSock (sin s) (sout s) (held s + -1) (sfaults s))) as (s' & E & H1 & H2).
  exists s'. rewrite len_cons. cbn in H1. split; [exact E|]. split; [lia|done].
Qed.

(** A message that does not say what was expected leaves its descriptors open. *)
Lemma parse_held data fds magic (s s' : S) r :
  parseRightsMessage data (Some (if bool_decide (fds = []) then [] else [Some fds])) magic s = (s', r) ->
  sin s' = sin s /\ sout s' = sout s /\
  match r with
  | Ok f => data = magic /\ fds = [f] /\ held s' = held s
  | Err _ => held s' = held s - len fds \/ data <> magic /\ fds <> [] /\ held s' = held s
  | Panic => False
  end.
Proof.
  unfold parseRightsMessage. destruct (decide (data = magic)) as [Hm|Hm].
  - rewrite bool_decide_true by done. cbn [negb]. destruct fds as [|f fds].
    { intros [= <- <-]. split_and!; try done. left. rewrite len_nil. lia. }
    rewrite bool_decide_false by done. destruct (close_all_held (f :: fds) s) as (s1 & E & H1 & H2 & H3 & _). unfold io_bind.
    destruct fds as [|g fds]; [by intros [= <- <-]|]. rewrite E. intros [= <- <-]. split_and!; try done. by left.
  - rewrite bool_decide_false by done. intros [= <- <-]. split_and!; try done. destruct fds as [|f fds]; [|by right].
    left. rewrite len_nil. lia.
Qed.

Lemma recvmsg_exact n (s s' : S) r :
  recvmsg n s = (s', r) ->
  match r with
  | Ok (data, oob) => exists b fds q, sin s = (b, fds) :: q /\ data = take (Z.to_nat n) b /\
      oob = Some (if bool_decide (fds = []) then [] else [Some fds]) /\ held s' = held s + len fds /\ sout s' = sout s
  | Err _ => held s' = held s /\ sout s' = sout s
  | Panic => False
  end.
Proof.
  cbn. unfold io_bind, syscall, take_message, hold, ret. destruct s as [q out h fl]. cbn [sin sout held sfaults].
  destruct fl as [|[e|] fl]; cbn; [|by intros [= <- <-]|]; (destruct q as [|[b fds] q]; cbn; intros [= <- <-]; [done|by eexists b, fds, q]).
Qed.

(** What a receive does with descriptors: it returns the only one of a message that
    says what was expected, or holds none, unless the message says something else:
    then they stay open and nobody knows them. *)
Lemma recvFDMagic_custody magic (s s' : S) r :
  recvFDMagic magic s = (s', r) ->
  sout s' = sout s /\
  match r with
  | Ok f => exists b q, sin s = (b, [f]) :: q /\ take (length magic) b = magic /\ held s' = held s + 1
  | Err _ => held s' = held s \/
      exists b fds q, sin s = (b, fds) :: q /\ fds <> [] /\ take (length magic) b <> magic /\ held s' = held s + len fds
  | Panic => False
  end.
Proof.
  unfold recvFDMagic, or_fail, io_bind. destruct (recvmsg (len magic) s) as [s1 r1] eqn:E1. pose proof (recvmsg_exact _ _ _ _ E1) as H1.
  destruct r1 as [[data oob]|e|]; [|intros [= <- <-]; destruct H1; split; [done|by left]|done].
  destruct H1 as (b & fds & q & Hq & -> & -> & Hh & Ho). cbn [map_err]. intros E. apply parse_held in E as (_ & Ho' & H2).
  unfold len in H2. rewrite Nat2Z.id in H2. split; [by rewrite Ho'|]. destruct r as [f|e|]; [| |done].
  - destruct H2 as (Hd & -> & H2). exists b, q. split_and!; [done..|]. rewrite H2, Hh. done.
  - destruct H2 as [H2|(Hd & Hf & H2)]; [left; unfold len in *; lia|right]. exists b, fds, q. split_and!; try done. by rewrite H2.
Qed.

(** The three kinds of descriptor are told apart: what is sent as one is received as
    that one, and a receiver of another kind refuses it and keeps it open. *)
Lemma rights_told_apart (f : FD) (q out : list (segment FD)) h :
  let msg send := sout (send f (mkSock [] [] 0 [])).1 in
  let got := mkSock q out (h + 1) [] in
  (recvFDMagic KeyFDMagic (mkSock (msg SendFDFile ++ q) out h []) = (got, Ok f) /\
   RecvPeerFDFile (mkSock (msg SendPeerFDFile ++ q) out h []) = (got, Ok f) /\
   RecvRebindFDFile (mkSock (msg SendPeerFDFile ++ q) out h []) = (got, Ok (f, RebindExtra)) /\
   RecvRebindFDFile (mkSock (msg SendPrimaryPeerFDFile ++ q) out h []) = (got, Ok (f, RebindPrimary))) /\
  (RecvRebindFDFile (FD := FD) (mkSock (msg SendFDFile ++ q) out h []) = (got, Err rights) /\
   RecvFDFile (FD := FD) (mkSock (msg SendPeerFDFile ++ q) out h []) = (got, Err rights) /\
   RecvFDFile (FD := FD) (mkSock (msg SendPrimaryPeerFDFile ++ q) out h []) = (got, Err rights)).
Proof. done. Qed.

(** A read of the acknowledgement is of the bytes that were written as one. *)
Lemma rebind_ack (q out : list (segment FD)) h :
  WaitRebindAck (mkSock (sout (WriteRebindAck (FD := FD) (mkSock [] [] 0 [])).1 ++ q) out h []) = (mkSock q out h [], Ok tt).
Proof.
  change (sout _) with [(RebindAckMagic, @nil FD)]. cbn [app].
  set (s := mkSock ((RebindAckMagic, []) :: q) out h []).
  assert (E : take_bytes (len RebindAckMagic) s = (mkSock q out h [], Ok RebindAckMagic)).
  { unfold take_bytes, s. cbn [sin]. rewrite (proj2 (Z.ltb_ge _ _)) by (unfold flat, len; cbn; lia). by destruct q as [|[] q]. }
  unfold WaitRebindAck, or_fail, io_bind. change (read_full (len RebindAckMagic) s) with (take_bytes (len RebindAckMagic) s). by rewrite E.
Qed.

End Socket.

End Rights.
