(* ===== verification/RemoteRoles.v ===== *)
(** * The relaying roles (internal/remotesync: parser_ipc.go, index_ipc.go, ipc_apply.go)

    A push passes from the network role through the parser, the plan and the index
    roles to apply, each a process that answers one request at a time over an
    authenticated link.  The loops of the parser and the index role are turns on a
    [Bridge], as the plan role's is in RemoteGate.v; [Served] puts a role behind
    the request of the role above it, so that the three can be run as the chain
    that the daemon starts.  [pipeline_authorizes] says what the chain lets through
    to apply, whatever the network role asks.  The network role's own loop is
    [HandleActiveConnViaParserIPC], or [HandleActiveConnViaApplyIPC] without a parser;
    [net_transparent] says that it forwards what it receives. *)

From stdpp Require Import gmap.
From S2P Require Import Prelude Sha256 Authority Codec Observability Ipc PathGrammar FilePath FileSystem.
From S2P Require Import LocalPayload LocalPlan LocalApply LocalScan.
From S2P Require Import RemoteMessages RemoteWire RemoteGate RemoteStore RemoteServe.
Import Codec FileSystem LocalPlan RemoteMessages RemoteWire RemoteGate.

Module RemoteRoles.

(** ** The parser role *)

Section Parser.
Context {W : Type} `{Bridge W}.
Abbreviation IO := (io W Error).

(** A turn of the loop: [true] to go on, [false] to return nil. *)
Definition parser_turn (once : bool) : IO bool :=
  let* req := readRequest in
  match validateAppMessage req with
  | Panic => lift Panic
  | Err e =>
      let* _ := answer (error_text e) in
      if once then throw e else ret true
  | Ok _ =>
      let* ok := endpoint in
      if negb ok then throw (fail KindInvalidArgument (str "nil apply endpoint")) else
      let* r := try (request req) in
      match r with
      | inr e => refuse e
      | inl resp =>
          let* out :=
            if bool_decide (head req = Some msgManifest) then
              match manifestFileCount req with
              | Ok n => ret (wrapParseBundle (u32 n) resp)
              | Err e => refuse e
              | Panic => lift Panic
              end
            else ret resp in
          let* _ := respond out in
          ret (negb (bool_decide (head req = Some msgCommit) && once))
      end
  end.

(** At most [n] turns; [true] when the loop is still running. *)
Fixpoint ServeParserBridgeDyn (n : nat) (once : bool) : IO bool :=
  match n with
  | O => ret true
  | S n =>
      let* more := parser_turn once in
      if more : bool then ServeParserBridgeDyn n once else ret false
  end.

End Parser.

(** ** The index role *)

(** [scanDestination] without a conferred directory descriptor. *)
Definition scanDestination {F} `{FileSystem F} `{ErrorTexts} (destination : bytes) : io F Error Manifest :=
  let* r := try (Lstat destination) in
  match r with
  | inr e =>
      if bool_decide (e = ENOENT) then ret (mkManifest destination [])
      else throw (wrap KindApply (str "index lstat") (os_text e))
  | inl fi =>
      if bool_decide (FileSystem.FType fi = TSymlink)
      then throw (fail KindApply (str "index: destination must not be a symbolic link")) else
      if negb (bool_decide (FileSystem.FType fi = TDir))
      then throw (fail KindApply (str "index: destination must be a directory")) else
      or_fail (LocalScan.Scan destination) (fun e => wrap KindApply (str "index scan") (local_text e))
  end.

Section Index.
Context {W : Type} `{Bridge W}.
Context (scan : io W Error Manifest).
Abbreviation IO := (io W Error).

(** Forward a request and pass its response back. *)
Definition index_relay (once : bool) (req : bytes) : IO bool :=
  let* r := try (request req) in
  match r with
  | inr e => refuse e
  | inl resp =>
      let* _ := respond resp in
      ret (negb (bool_decide (head req = Some msgCommit) && once))
  end.

Definition index_turn (once : bool) : IO bool :=
  let* req := readRequest in
  match req with
  | [] => let* _ := answer (str "empty index request") in ret true
  | op :: _ =>
      let* ok := endpoint in
      if negb ok then throw (fail KindInvalidArgument (str "nil apply endpoint")) else
      if bool_decide (op = msgCommit) then
        let* m := try scan in
        match m with
        | inr e => let* _ := answer (error_text e) in if once then throw e else ret true
        | inl man =>
            match encodeDestManifest (Entries man) with
            | Panic => lift Panic
            | Err e => refuse e
            | Ok destMsg =>
                let* r := try (request destMsg) in
                match r with
                | inr e => refuse e
                | inl _ => index_relay once req
                end
            end
        end
      else index_relay once req
  end.

(** [destination] is the label of the root; the scan is of it. *)
Fixpoint index_loop (n : nat) (once : bool) : IO bool :=
  match n with
  | O => ret true
  | S n =>
      let* more := index_turn once in
      if more : bool then index_loop n once else ret false
  end.

Definition ServeIndexBridgeDyn (n : nat) (destination : bytes) (once : bool) : IO bool :=
  if bool_decide (destination = []) then throw (fail KindInvalidArgument (str "index destination required"))
  else index_loop n once.

End Index.

(** ** The network role *)

Section Net.
Context {W : Type} `{RemoteServe.Peer W}.
Context (request : bytes -> io W Error bytes).
Abbreviation IO := (io W Error).
Abbreviation recvData := RemoteServe.recvData.
Abbreviation sendData := RemoteServe.sendData.

(** [respondErr]: tell the peer, if it can be told, and fail. *)
Definition respond_error {A} (e : Error) : IO A :=
  let* _ := match encodeResult false (take 1024 (error_text e)) with
    | Ok raw => ignore (sendData raw)
    | _ => ret tt
    end in
  throw e.

(** A failed receive makes the roles behind drop the transfer. *)
Definition recv_or_abort : IO bytes :=
  let* r := try recvData in
  match r with
  | inl raw => ret raw
  | inr e => let* _ := ignore (request [msgIPCAbort]) in throw e
  end.

(** A refusal is passed to the peer. *)
Definition check_result (resp : bytes) : IO unit :=
  if bool_decide (head resp = Some msgResult) then
    let* (ok, msg) := lift (decodeResult resp) in
    if negb ok then respond_error (fail KindApply msg) else ret tt
  else ret tt.

(** The loop [for offset < begin.Size]; [false] when [fuel] chunks were not enough. *)
Fixpoint net_chunks (fuel : nat) (size offset : Z) : IO bool :=
  match fuel with
  | O => ret false
  | S fuel =>
      if negb (offset <? size) then ret true else
      let* chunk := recv_or_abort in
      if bool_decide (head chunk = Some msgFileEnd)
      then respond_error (fail KindProtocol (str "unexpected file end before size complete")) else
      let* resp := request chunk in
      if (len resp =? 1 + 8) && bool_decide (head resp = Some msgFileAck) then
        let* offset := lift (decodeFileAck resp) in
        net_chunks fuel size offset
      else
        let* _ := check_result resp in
        let* (coff, data) := lift (decodeFileChunk chunk) in
        net_chunks fuel size (u64 (coff + len data))
  end.

Definition net_file (fuel : nat) : IO bool :=
  let* raw := recv_or_abort in
  if bool_decide (head raw = Some msgFile) then
    let* resp := request raw in
    let* _ := check_result resp in
    ret true
  else if negb (bool_decide (head raw = Some msgFileBegin))
  then respond_error (fail KindProtocol (str "expected file begin")) else
  let* ack := request raw in
  let* _ := sendData ack in
  let* begin := lift (decodeFileBegin raw) in
  let* offset := lift (decodeFileAck ack) in
  let* fin := net_chunks fuel (BSize begin) offset in
  if negb fin then ret false else
  let* endRaw := recv_or_abort in
  let* resp := request endRaw in
  let* _ := check_result resp in
  ret true.

Fixpoint net_files (n fuel : nat) : IO bool :=
  match n with
  | O => ret true
  | S n =>
      let* fin := net_file fuel in
      if negb fin then ret false else net_files n fuel
  end.

Definition net_commit : IO bool :=
  let* raw := recvData in
  if negb (len raw =? 1) || negb (bool_decide (head raw = Some msgCommit))
  then throw (fail KindProtocol (str "expected commit")) else
  let* resp := request raw in
  let* _ := sendData resp in
  ret true.

(** The manifest of the peer, and the response of the roles behind to it. *)
Definition net_manifest : IO (bytes * bytes) :=
  let* raw := recvData in
  if negb (bool_decide (head raw = Some msgManifest)) then throw (fail KindProtocol (str "expected manifest")) else
  let* resp := request raw in
  ret (raw, resp).

Definition HandleActiveConnViaApplyIPC (fuel : nat) : IO bool :=
  let* (raw, resp) := net_manifest in
  let* _ := sendData resp in
  let* entries := lift (decodeManifest raw) in
  let* fin := net_files (Z.to_nat (file_count entries)) fuel in
  if negb fin then ret false else net_commit.

Definition HandleActiveConnViaParserIPC (fuel : nat) : IO bool :=
  let* (_, resp) := net_manifest in
  let* (filesExpected, tcpResp) := lift (unwrapParseBundle resp) in
  let* _ := sendData tcpResp in
  let* fin := net_files (Z.to_nat filesExpected) fuel in
  if negb fin then ret false else net_commit.

End Net.

(** What a network role has received from its peer and sent on. *)
Class NetLaws (W : Type) `{RemoteServe.Peer W} (request : bytes -> io W Error bytes) := {
  received : W -> list bytes;
  sent_on : W -> list bytes;
  net_recv w : sent_on (RemoteServe.recvData w).1 = sent_on w /\
    received (RemoteServe.recvData w).1 = received w ++ match (RemoteServe.recvData w).2 with Ok p => [p] | _ => [] end;
  net_send w p : sent_on (RemoteServe.sendData p w).1 = sent_on w /\ received (RemoteServe.sendData p w).1 = received w;
  net_request w p : received (request p w).1 = received w /\
    (sent_on (request p w).1 = sent_on w ++ [p] \/ sent_on (request p w).1 = sent_on w /\ forall a, (request p w).2 <> Ok a) }.

Section Transparent.
Context {W : Type} (request : bytes -> io W Error bytes) `{NetLaws W request} (w0 : W).

(** Since [w0]: everything was sent on; all but the last message; all, and then the
    request to drop the transfer. *)
Definition even (w : W) : Prop := exists ms, received w = received w0 ++ ms /\ sent_on w = sent_on w0 ++ ms.
Definition ahead (w : W) (m : bytes) : Prop := exists ms, received w = received w0 ++ ms ++ [m] /\ sent_on w = sent_on w0 ++ ms.
Definition aborted (w : W) : Prop := exists ms, received w = received w0 ++ ms /\ sent_on w = sent_on w0 ++ ms ++ [[msgIPCAbort]].
Definition ended (w : W) : Prop := even w \/ (exists m, ahead w m) \/ aborted w.

Definition outcome {A} (w : W) (r : res Error A) : Prop := match r with Ok _ => even w | _ => ended w end.

Lemma wp_send_on {A} (m : bytes) (k : bytes -> io W Error A) w :
  ahead w m -> (forall w' resp, even w' -> wp (k resp) outcome w') -> wp (let* resp := request m in k resp) outcome w.
Proof.
  intros (ms & Hr & Hs) Hk. apply wp_bind, wp_call. intros w1 r1 E. pose proof (net_request w m) as [H1 H2]. rewrite E in H1, H2. cbn [fst snd] in *.
  assert (Hev : sent_on w1 = sent_on w ++ [m] -> even w1).
  { intros Hx. exists (ms ++ [m]). rewrite H1, Hx, Hs, Hr. by rewrite <- !app_assoc. }
  assert (He : ended w1).
  { destruct H2 as [H2|[H2 _]]; [left; by apply Hev|right; left]. exists m, ms. by rewrite H1, H2. }
  destruct r1 as [resp|e|]; [|done..]. apply Hk. destruct H2 as [H2|[_ H2]]; [by apply Hev|by destruct (H2 resp)].
Qed.

(** Steps that neither receive nor send on. *)
Lemma wp_sendData {A} p (k : unit -> io W Error A) w :
  even w -> (forall w' u, even w' -> wp (k u) outcome w') -> wp (let* u := RemoteServe.sendData p in k u) outcome w.
Proof.
  intros (ms & Hr & Hs) Hk. apply wp_bind, wp_call. intros w1 r1 E. pose proof (net_send w p) as [H1 H2]. rewrite E in H1, H2. cbn [fst snd] in *.
  assert (even w1) by (exists ms; by rewrite H1, H2). destruct r1; [by apply Hk|by left..].
Qed.

Lemma wp_respond_error {A} e w : ended w -> wp (respond_error (A := A) e) (fun w r => ended w /\ forall a, r <> Ok a) w.
Proof.
  intros He. apply wp_bind. destruct (encodeResult _ _) as [raw|e'|]; [|done..]. apply wp_ignore, wp_call. intros w1 r1 E.
  pose proof (net_send w raw) as [H1 H2]. rewrite E in H1, H2. cbn [fst snd] in *.
  assert (ended w1) by (unfold ended, even, ahead, aborted in *; by rewrite H1, H2). by destruct r1.
Qed.

Lemma wp_tell {A} e w : ended w -> wp (respond_error (A := A) e) outcome w.
Proof. intros He. eapply wp_mono; [by apply wp_respond_error|]. intros w' r [Hw Hr]. destruct r as [a|e'|]; [by destruct (Hr a)|done..]. Qed.

Lemma wp_pure {A B} (r : res Error A) (k : A -> io W Error B) w :
  even w -> (forall a, wp (k a) outcome w) -> wp (let* a := lift r in k a) outcome w.
Proof. intros He Hk. apply wp_bind, wp_lift. destruct r; [apply Hk|by left..]. Qed.

Lemma wp_recv_or_abort {A} (k : bytes -> io W Error A) w :
  even w -> (forall w' m, ahead w' m -> wp (k m) outcome w') -> wp (let* m := recv_or_abort request in k m) outcome w.
Proof.
  intros (ms & Hr & Hs) Hk. apply wp_bind, wp_bind, wp_try, wp_call. intros w1 r1 E. pose proof (net_recv w) as [H1 H2]. rewrite E in H1, H2. cbn [fst snd] in *.
  rewrite Hs in H1. rewrite Hr in H2. destruct r1 as [m|e|]; rewrite ?app_nil_r in H2.
  - apply wp_ret, Hk. exists ms. by rewrite H2, <- app_assoc.
  - apply wp_bind, wp_ignore, wp_call. intros w2 r2 E2. pose proof (net_request w1 [msgIPCAbort]) as [H3 H4]. rewrite E2 in H3, H4. cbn [fst snd] in *.
    assert (ended w2).
    { destruct H4 as [H4|[H4 _]]; [right; right|left]; exists ms; by rewrite H3, H4, ?H1, <- ?app_assoc. }
    by destruct r2.
  - left. by exists ms.
Qed.

Lemma wp_check_result {A} resp (k : unit -> io W Error A) w :
  even w -> (forall u, wp (k u) outcome w) -> wp (let* u := check_result resp in k u) outcome w.
Proof.
  intros He Hk. apply wp_bind. unfold check_result. case_bool_decide; [|apply wp_ret, Hk]. apply wp_bind, wp_lift.
  destruct (decodeResult resp) as [[ok msg]|e|]; [|by left..]. destruct ok; cbn [negb]; [apply wp_ret, Hk|].
  eapply wp_mono; [apply wp_respond_error; by left|]. intros w' r [Hw Hr]. destruct r as [a|e'|]; [by destruct (Hr a)|done..].
Qed.

Lemma wp_net_chunks fuel size offset w : even w -> wp (net_chunks request fuel size offset) outcome w.
Proof.
  revert offset w. induction fuel as [|fuel IH]; intros offset w He; cbn [net_chunks]; [done|]. case_match; [done|].
  apply wp_recv_or_abort; [done|]. intros w1 m Ha. case_bool_decide; [apply wp_tell; right; left; by exists m|].
  apply wp_send_on; [done|]. intros w2 resp He2. case_match; [apply wp_pure; [done|intros; by apply IH]|].
  apply wp_check_result; [done|]. intros _. apply wp_pure; [done|]. intros [coff data]. by apply IH.
Qed.

Lemma wp_net_chunks_then {A} fuel size offset (k : bool -> io W Error A) w :
  even w -> (forall w' b, even w' -> wp (k b) outcome w') -> wp (let* b := net_chunks request fuel size offset in k b) outcome w.
Proof. intros He Hk. apply wp_bind. eapply wp_mono; [by apply wp_net_chunks|]. intros w' r Hr. destruct r; [by apply Hk|done..]. Qed.

Lemma wp_net_file fuel w : even w -> wp (net_file request fuel) outcome w.
Proof.
  intros He. apply wp_recv_or_abort; [done|]. intros w1 m Ha. case_bool_decide.
  { apply wp_send_on; [done|]. intros w2 resp He2. apply wp_check_result; [done|]. done. }
  case_match; [apply wp_tell; right; left; by exists m|].
  apply wp_send_on; [done|]. intros w2 ack He2. apply wp_sendData; [done|]. intros w3 _ He3. apply wp_pure; [done|]. intros b.
  apply wp_pure; [done|]. intros offset. apply wp_net_chunks_then; [done|]. intros w4 fin He4. case_match; [done|].
  apply wp_recv_or_abort; [done|]. intros w5 endRaw Ha5. apply wp_send_on; [done|]. intros w6 resp He6. apply wp_check_result; done.
Qed.

Lemma wp_net_files n fuel w : even w -> wp (net_files request n fuel) outcome w.
Proof.
  revert w. induction n as [|n IH]; intros w He; cbn [net_files]; [done|]. apply wp_bind. eapply wp_mono; [by apply wp_net_file|].
  intros w' r Hr. destruct r as [fin|e|]; [|done..]. destruct fin; cbn [negb]; [by apply IH|done].
Qed.

(** A message of the peer that is sent on if it is what the loop expects. *)
Lemma wp_recv_expect {A} (k : bytes -> io W Error A) w :
  even w -> (forall w' m, ahead w' m -> wp (k m) outcome w') -> wp (let* m := RemoteServe.recvData in k m) outcome w.
Proof.
  intros (ms & Hr & Hs) Hk. apply wp_bind, wp_call. intros w1 r1 E. pose proof (net_recv w) as [H1 H2]. rewrite E in H1, H2. cbn [fst snd] in *.
  rewrite Hs in H1. rewrite Hr in H2. destruct r1 as [m|e|]; rewrite ?app_nil_r in H2; [|left; by exists ms..].
  apply Hk. exists ms. by rewrite H2, <- app_assoc.
Qed.

Lemma wp_net_commit w : even w -> wp (net_commit request) outcome w.
Proof.
  intros He. apply wp_recv_expect; [done|]. intros w1 m Ha. case_match; [right; left; by exists m|].
  apply wp_send_on; [done|]. intros w2 resp He2. apply wp_sendData; done.
Qed.

Lemma wp_assoc {A B C} (c : io W Error A) (d : A -> io W Error B) (k : B -> io W Error C) Q w :
  wp (let* a := c in let* b := d a in k b) Q w -> wp (let* b := let* a := c in d a in k b) Q w.
Proof. unfold wp, io_bind. by destruct (c w) as [w1 []]. Qed.

Lemma wp_net_manifest {A} (k : bytes * bytes -> io W Error A) w :
  even w -> (forall w' x, even w' -> wp (k x) outcome w') -> wp (let* x := net_manifest request in k x) outcome w.
Proof.
  intros He Hk. apply wp_assoc, wp_recv_expect; [done|]. intros w1 m Ha. case_match; [right; left; by exists m|].
  apply wp_assoc, wp_send_on; [done|]. intros w2 resp He2. by apply Hk.
Qed.

Lemma wp_files_commit n fuel w : even w ->
  wp (let* fin := net_files request n fuel in if negb fin then ret false else net_commit request) outcome w.
Proof.
  intros He. apply wp_bind. eapply wp_mono; [by apply wp_net_files|]. intros w' r Hr. destruct r as [fin|e|]; [|done..].
  destruct fin; cbn [negb]; [by apply wp_net_commit|done].
Qed.

End Transparent.

(** *** A push that completes *)

Lemma io_bind_ok {W E A B} (c : io W E A) (k : A -> io W E B) w w' b : io_bind c k w = (w', Ok b) ->
  exists w1 a, c w = (w1, Ok a) /\ k a w1 = (w', Ok b).
Proof. unfold io_bind. destruct (c w) as [w1 [a|e|]]; [by exists w1, a|done..]. Qed.

Section Completed.
Context {W : Type} (request : bytes -> io W Error bytes) `{NetLaws W request}.

Lemma net_manifest_received w w' raw resp : net_manifest request w = (w', Ok (raw, resp)) ->
  head raw = Some msgManifest /\ received w' = received w ++ [raw].
Proof.
  intros (w1 & m & E1 & E)%io_bind_ok. pose proof (net_recv w) as [_ H1]. rewrite E1 in H1. cbn in H1. case_bool_decide as Hm; [|done].
  apply io_bind_ok in E as (w2 & x & E2 & [= <- <- <-]). pose proof (net_request w1 m) as [H2 _]. rewrite E2 in H2. cbn in H2. split; [done|]. by rewrite H2.
Qed.

Lemma net_commit_received w w' b : net_commit request w = (w', Ok b) -> received w' = received w ++ [[msgCommit]].
Proof.
  intros (w1 & m & E1 & E)%io_bind_ok. pose proof (net_recv w) as [_ H1]. rewrite E1 in H1. cbn in H1.
  destruct (negb (len m =? 1)) eqn:El; [done|]. case_bool_decide as Hm; [|done]. cbn in E.
  assert (m = [msgCommit]) as ->.
  { destruct m as [|x [|y m]]; [done|by injection Hm as ->|]. unfold len in El. cbn in El. lia. }
  apply io_bind_ok in E as (w2 & x & E2 & E). apply io_bind_ok in E as (w3 & [] & E3 & [= <- _]).
  pose proof (net_request w1 [msgCommit]) as [H2 _]. rewrite E2 in H2. pose proof (net_send w2 x) as [_ H3]. rewrite E3 in H3. cbn in H2, H3.
  by rewrite H3, H2.
Qed.

Lemma net_files_commit n fuel w w' :
  (let* fin := net_files request n fuel in if negb fin then ret false else net_commit request) w = (w', Ok true) ->
  exists files, received w' = received w ++ files ++ [[msgCommit]].
Proof.
  intros (w1 & fin & E1 & E)%io_bind_ok. assert (He : even request w w) by (exists []; by rewrite !app_nil_r).
  pose proof (wp_net_files request w n fuel w He) as Hf. unfold wp in Hf. rewrite E1 in Hf. cbn [fst snd outcome] in Hf. destruct Hf as (files & Hr & _).
  destruct fin; [|done]. apply net_commit_received in E. exists files. by rewrite E, Hr, <- app_assoc.
Qed.

Lemma ended_messages w w' : ended request w w' -> exists ms fw, received w' = received w ++ ms /\ sent_on w' = sent_on w ++ fw /\
  (fw = ms \/ (exists m, ms = fw ++ [m]) \/ fw = ms ++ [[msgIPCAbort]]).
Proof.
  intros [(ms & Hr & Hs)|[(m & ms & Hr & Hs)|(ms & Hr & Hs)]]; [exists ms, ms|exists (ms ++ [m]), ms|exists ms, (ms ++ [[msgIPCAbort]])];
    (split_and!; [done..|]); [by left|right; left; by exists m|by right; right].
Qed.

(** The two loops: behind a parser, and directly before the apply role. *)
Definition net_loop (handler : io W Error bool) (fuel : nat) : Prop :=
  handler = HandleActiveConnViaParserIPC request fuel \/ handler = HandleActiveConnViaApplyIPC request fuel.

Lemma net_loop_outcome handler fuel w : net_loop handler fuel -> wp handler (outcome request w) w.
Proof.
  assert (He : even request w w) by (exists []; by rewrite !app_nil_r). intros [->| ->]; apply wp_net_manifest; try done; intros w1 [raw resp] He1.
  - apply wp_pure; [done|]. intros [n tcp]. apply wp_sendData; [done|]. intros w2 _ He2. by apply wp_files_commit.
  - apply wp_sendData; [done|]. intros w2 _ He2. apply wp_pure; [done|]. intros entries. by apply wp_files_commit.
Qed.

Lemma net_loop_completed handler fuel w w' : net_loop handler fuel -> handler w = (w', Ok true) ->
  exists m files, received w' = received w ++ (m :: files ++ [[msgCommit]]) /\ head m = Some msgManifest.
Proof.
  intros [->| ->] (w1 & [raw resp] & E1 & E)%io_bind_ok; apply net_manifest_received in E1 as [Hm Hr]; exists raw; cbv beta iota in E.
  - apply io_bind_ok in E as (w2 & [n tcp] & E2 & E). injection E2 as -> _. apply io_bind_ok in E as (w3 & [] & E3 & E).
    pose proof (net_send w2 tcp) as [_ Hs]. rewrite E3 in Hs. cbn in Hs. apply net_files_commit in E as (files & ->). exists files. by rewrite Hs, Hr, <- app_assoc.
  - apply io_bind_ok in E as (w2 & [] & E2 & E). pose proof (net_send w1 resp) as [_ Hs]. rewrite E2 in Hs. cbn in Hs.
    apply io_bind_ok in E as (w3 & entries & E3 & E). injection E3 as -> _. apply net_files_commit in E as (files & ->). exists files. by rewrite Hs, Hr, <- app_assoc.
Qed.

End Completed.

(** C23. The network role is transparent, behind a parser and directly before the apply
    role.  Whatever the peer sends and the roles behind it answer, the messages sent on
    are the messages received, in order and unaltered: all of them when the push
    completes, from the manifest to the commit; else all, all but the last one, or all
    and then the request to drop the transfer. *)
Theorem net_transparent {W : Type} (request : bytes -> io W Error bytes) `{NetLaws W request} handler fuel w w' r :
  net_loop request handler fuel -> handler w = (w', r) ->
  exists ms fw, received w' = received w ++ ms /\ sent_on w' = sent_on w ++ fw /\
    (fw = ms \/ (exists m, ms = fw ++ [m]) \/ fw = ms ++ [[msgIPCAbort]]) /\ (forall b, r = Ok b -> fw = ms) /\
    (r = Ok true -> exists m files, ms = m :: files ++ [[msgCommit]] /\ head m = Some msgManifest).
Proof.
  intros Hl E. pose proof (net_loop_outcome request handler fuel w Hl) as Hw. unfold wp in Hw. rewrite E in Hw. cbn [fst snd] in Hw.
  destruct r as [b|e|].
  - destruct Hw as (ms & Hr & Hs). exists ms, ms. split_and!; try done; [by left|]. intros [= ->].
    destruct (net_loop_completed request handler fuel w w' Hl E) as (m & files & Hr' & Hm). exists m, files. split; [|done].
    rewrite Hr in Hr'. by apply app_inv_head in Hr'.
  - destruct (ended_messages request w w' Hw) as (ms & fw & H1 & H2 & H3). by exists ms, fw.
  - destruct (ended_messages request w w' Hw) as (ms & fw & H1 & H2 & H3). by exists ms, fw.
Qed.

(** ** The audit role (audit_ipc.go) *)

Definition msgAuditEvent : Byte.byte := byte_of 0xc0.
Definition msgAuditDone : Byte.byte := byte_of 0xc1.

Section Audit.
Context {W : Type} `{Bridge W} (obs_text : Observability.Error -> bytes).
Abbreviation IO := (io W Error).

(** A request whose response is a result. *)
Definition request_ok (p : bytes) : IO unit :=
  let* resp := request p in
  let* (ok, msg) := lift (decodeResult resp) in
  if negb ok then throw (fail KindProtocol msg) else ret tt.

Definition EmitAuditEvent (e : Observability.Event) : IO unit :=
  let* body := lift (map_err (fun x => wrap KindInvalidArgument (str "audit encode") (obs_text x)) (Observability.EncodeCanonical e)) in
  request_ok ([msgAuditEvent] ++ body).

Definition EmitAuditDone : IO unit := request_ok [msgAuditDone].

Definition auditCommitEvent (ok : bool) : Observability.Event :=
  Observability.mkEvent (str "push.commit") Observability.ChannelAudit
    (if ok then Observability.SeverityInfo else Observability.SeverityError) (str "integrisd-apply") (zeros 32) (zeros 16) 0
    (if ok then str "commit_ok" else str "commit_fail") Observability.RedactionPublic
    (if ok then str "push commit ok" else str "push commit failed").

(** One turn of [serveAuditLoop]; [write] appends to the sink. *)
Definition audit_turn (write : bytes -> IO unit) (once : bool) : IO bool :=
  let* req := readRequest in
  match req with
  | [] => let* _ := answer (str "empty audit request") in ret true
  | op :: body =>
      if bool_decide (op = msgAuditEvent) then
        if len req <? 2 then let* _ := answer (str "empty audit event") in ret true else
        if 4096 <? len body then let* _ := answer (str "audit event too large") in ret true else
        let* r := try (write (body ++ [byte_of 10])) in
        match r with
        | inr e => let* _ := answer (error_text e) in throw (wrap KindInternal (str "audit sink") (error_text e))
        | inl _ => let* _ := respond (mustResult true (str "ok")) in ret true
        end
      else if bool_decide (op = msgAuditDone) then
        let* _ := respond (mustResult true (str "ok")) in
        ret (negb once)
      else
        let* _ := answer (str "unknown audit op") in
        throw (fail KindProtocol (str "unknown audit op " ++ itoa (byteZ op)))
  end.

Fixpoint serveAuditLoop (n : nat) (write : bytes -> IO unit) (once : bool) : IO bool :=
  match n with
  | O => ret true
  | S n =>
      let* more := audit_turn write once in
      if more : bool then serveAuditLoop n write once else ret false
  end.

End Audit.

(** ** A role behind a request *)

(** What answers requests: a call and the requests that it has received. *)
Class Endpoint (L : Type) := {
  rpc : bytes -> io L Error bytes;
  log : L -> list bytes }.

(** A request that fails may or may not have been received. *)
Class EndpointLaws (L : Type) `{Endpoint L} :=
  rpc_spec w p : log (rpc p w).1 = log w ++ [p] \/ log (rpc p w).1 = log w /\ forall a, (rpc p w).2 <> Ok a.

(** A role in front of [lower]: its state ([None] when its process has ended), the
    request it is working on, its response, and the requests it has received. *)
Record Served (L S : Type) := mkServed {
  lower : L;
  role : option S;
  inbox : option bytes;
  outbox : option bytes;
  asked : list bytes }.
Arguments mkServed {L S}.
Arguments lower {L S}.
Arguments role {L S}.
Arguments inbox {L S}.
Arguments outbox {L S}.
Arguments asked {L S}.

Definition closed_link : Error := fail KindTransport (str "ipc read").

#[global] Instance Served_Bridge {L S} `{Endpoint L} : Bridge (Served L S) := {
  readRequest w :=
    match inbox w with
    | Some p => (mkServed (lower w) (role w) None (outbox w) (asked w), Ok p)
    | None => (w, Err closed_link)
    end;
  respond p w := (mkServed (lower w) (role w) (inbox w) (Some p) (asked w), Ok tt);
  endpoint w := (w, Ok true);
  request p w :=
    let '(l, r) := rpc p (lower w) in (mkServed l (role w) (inbox w) (outbox w) (asked w), r) }.

(** One request to a role: it runs one turn; its process ends with its loop. *)
Definition call {L S} `{Endpoint L} (turn : S -> io (Served L S) Error (option S)) (p : bytes) : io (Served L S) Error bytes := fun w =>
  match role w with
  | None => (w, Err closed_link)
  | Some s =>
      let '(w, r) := turn s (mkServed (lower w) (Some s) (Some p) None (asked w ++ [p])) in
      let next := match r with Ok s => s | _ => None end in
      (mkServed (lower w) next None None (asked w), match outbox w with Some resp => Ok resp | None => Err closed_link end)
  end.

Section Serving.
Context {L S : Type} `{EndpointLaws L}.

(** What a role behind which [L] answers has sent on. *)
#[global] Program Instance Served_Laws : BridgeLaws (Served L S) := {
  forwarded w := log (lower w) }.
Next Obligation. intros. cbn. by destruct (inbox w). Qed.
Next Obligation. done. Qed.
Next Obligation. done. Qed.
Next Obligation.
  intros w p. cbn. pose proof (rpc_spec (lower w) p) as Hr. destruct (rpc p (lower w)) as [l r]. exact Hr.
Qed.

End Serving.

(** ** What every turn respects *)

(** A preorder that the four calls of a bridge respect, every turn respects. *)
Section Respects.
Context {W : Type} `{Bridge W} (R : W -> W -> Prop) `{!PreOrder R}.
Hypothesis R_read : forall w, R w (readRequest w).1.
Hypothesis R_respond : forall w p, R w (respond p w).1.
Hypothesis R_endpoint : forall w, R w (endpoint w).1.
Hypothesis R_request : forall w p, R w (request p w).1.

Definition respects {A} (c : io W Error A) : Prop := forall w, R w (c w).1.

Lemma respects_bind {A B} (c : io W Error A) (k : A -> io W Error B) :
  respects c -> (forall a, respects (k a)) -> respects (io_bind c k).
Proof.
  intros Hc Hk w. unfold io_bind. specialize (Hc w). destruct (c w) as [w1 [a|e|]]; cbn in *; [|done|done]. etrans; [exact Hc|apply Hk].
Qed.
Lemma respects_pure {A} (r : res Error A) : respects (lift r).
Proof. intros w. cbn. reflexivity. Qed.
Lemma respects_try {A} (c : io W Error A) : respects c -> respects (try (F := Error) c).
Proof. intros Hc w. unfold try. specialize (Hc w). by destruct (c w). Qed.
Lemma respects_ignore {A} (c : io W Error A) : respects c -> respects (ignore (F := Error) c).
Proof. intros Hc w. unfold ignore. specialize (Hc w). by destruct (c w). Qed.

Ltac respects := repeat first
  [ exact R_read | exact (fun w => R_respond w _) | exact R_endpoint | exact (fun w => R_request w _)
  | apply respects_bind; [|intros] | apply respects_try | apply respects_ignore | apply respects_pure | case_match; try discriminate ].

Lemma respects_refuse {A} e : respects (refuse (A := A) e).
Proof. unfold refuse, answer. respects. Qed.

Lemma parser_turn_respects once : respects (parser_turn once).
Proof. unfold parser_turn, answer. respects; apply respects_refuse. Qed.

Lemma index_turn_respects scan once : respects scan -> respects (index_turn scan once).
Proof. intros Hs. unfold index_turn, index_relay, answer. respects; first [done|apply respects_refuse]. Qed.

Lemma plan_turn_respects once g : respects (plan_turn once g).
Proof. unfold plan_turn, checked, decoded, deny, relay, answer. respects; apply respects_refuse. Qed.

End Respects.

(** The record of requests, and what holds behind the role. *)
Definition same_asked {L S} (w w' : Served L S) : Prop := asked w' = asked w.
Definition keeping {L S} (I : L -> Prop) (w w' : Served L S) : Prop := I (lower w) -> I (lower w').

#[global] Instance same_asked_preorder {L S} : PreOrder (@same_asked L S).
Proof. unfold same_asked. split; [intros w; reflexivity|intros x y z Hxy Hyz; congruence]. Qed.
#[global] Instance keeping_preorder {L S} (I : L -> Prop) : PreOrder (@keeping L S I).
Proof. unfold keeping. split; [intros w; auto|intros x y z; auto]. Qed.

Section ServedCalls.
Context {L S : Type} `{Endpoint L}.

Lemma read_asked (w : Served L S) : same_asked w (readRequest w).1.
Proof. unfold same_asked. cbn. by destruct (inbox w). Qed.
Lemma request_asked (w : Served L S) p : same_asked w (request p w).1.
Proof. unfold same_asked. cbn. by destruct (rpc p (lower w)). Qed.
Lemma read_keeping I (w : Served L S) : keeping I w (readRequest w).1.
Proof. unfold keeping. cbn. by destruct (inbox w). Qed.
Lemma request_keeping (I : L -> Prop) (w : Served L S) p : (I (lower w) -> I (rpc p (lower w)).1) -> keeping I w (request p w).1.
Proof. unfold keeping. cbn. by destruct (rpc p (lower w)). Qed.

End ServedCalls.

Ltac served_calls := first [done|exact (fun _ _ x => x)|exact (fun _ x => x)|exact read_asked|exact request_asked|apply read_keeping|idtac].

(** A role whose turns keep the record answers requests. *)
Definition served {L S} `{Endpoint L} (turn : S -> io (Served L S) Error (option S)) : Endpoint (Served L S) := {|
  rpc := call turn; log := asked |}.

Lemma served_laws {L S} `{EndpointLaws L} (turn : S -> io (Served L S) Error (option S)) :
  (forall s w, asked (turn s w).1 = asked w) -> @EndpointLaws _ (served turn).
Proof.
  intros Ht w p. cbn. unfold call. destruct (role w) as [s|]; [|by right]. left.
  pose proof (Ht s (mkServed (lower w) (Some s) (Some p) None (asked w ++ [p]))) as Ha. by destruct (turn s _).
Qed.

(** ** The chain of roles *)

Section Chain.
Context {F A : Type} `{FileSystem F} `{ErrorTexts} `{EndpointLaws A} (destination : bytes) (once : bool).

(** The index role has the destination tree and apply behind it. *)
#[local] Instance beside : Endpoint (F * A) := {|
  rpc p := fun '(f, a) => let '(a, r) := rpc p a in ((f, a), r); log := fun fa => log fa.2 |}.

#[local] Instance beside_laws : EndpointLaws (F * A).
Proof. intros [f a] p. cbn. pose proof (rpc_spec a p) as Hr. by destruct (rpc p a) as [a1 r]. Qed.

Abbreviation IndexW := (Served (F * A) unit).

Definition index_scan : io IndexW Error Manifest := fun w =>
  let '(f, r) := scanDestination destination (lower w).1 in
  (mkServed (f, (lower w).2) (role w) (inbox w) (outbox w) (asked w), r).

Definition index_role (_ : unit) : io IndexW Error (option unit) :=
  let* more := index_turn index_scan once in
  ret (if more : bool then Some tt else None).

#[local] Instance IndexE : Endpoint IndexW := served index_role.

Abbreviation PlanW := (Served IndexW (option planGate)).

Definition plan_role (g : option planGate) : io PlanW Error (option (option planGate)) :=
  let* t := plan_turn once g in
  ret match t with Continue g => Some g | Return => None end.

#[local] Instance PlanE : Endpoint PlanW := served plan_role.

Abbreviation ParserW := (Served PlanW unit).

Definition parser_role (_ : unit) : io ParserW Error (option unit) :=
  let* more := parser_turn once in
  ret (if more : bool then Some tt else None).

#[local] Instance ParserE : Endpoint ParserW := served parser_role.

(** The requests of the network role, one after the other, whatever it gets back. *)
Fixpoint ask (reqs : list bytes) (w : ParserW) : ParserW :=
  match reqs with
  | [] => w
  | p :: reqs => ask reqs (rpc p w).1
  end.

(** All roles started, nothing asked yet. *)
Definition started (f : F) (a : A) : ParserW :=
  mkServed (mkServed (mkServed (f, a) (Some tt) None None []) (Some None) None None []) (Some tt) None None [].

(** What apply has received. *)
Definition applied (w : ParserW) : list bytes := log (lower (lower (lower w))).2.

(** *** What the index role does to a request *)

Definition is_commit (p : bytes) : Prop := op_of p = Some msgCommit.

(** A message with a scan of the destination. *)
Definition scanned (d : bytes) : Prop :=
  exists man f f', scanDestination destination f = (f', Ok man) /\ encodeDestManifest (Entries man) = Ok d.

Lemma scanned_op d : scanned d -> op_of d = Some msgDestManifest.
Proof.
  intros (man & f & f' & _ & E). unfold encodeDestManifest in E. destruct (encodeManifest _) as [b|?|]; cbn [bind] in E; [|done..].
  unfold set_index in E. destruct b as [|x b]; [done|]. by injection E as <-.
Qed.

(** What apply receives for a request [p], while the role lives and when it ends. *)
Definition live_step (p : bytes) (tl : list bytes) : Prop :=
  p = [] /\ tl = [] \/ (p <> [] /\ ~ is_commit p) /\ tl = [p] \/
  is_commit p /\ (tl = [] \/ exists d, scanned d /\ tl = [d; p]).
Definition last_step (p : bytes) (tl : list bytes) : Prop :=
  tl = [] \/ ~ is_commit p /\ tl = [p] \/
  is_commit p /\ exists d, scanned d /\ (tl = [d] \/ tl = [d; p]).

Lemma wp_index_relay req (w : IndexW) :
  wp (index_relay once req) (fun w' r => forwarded w' = forwarded w ++ [req] \/ forwarded w' = forwarded w /\ forall b, r <> Ok b) w.
Proof.
  apply wp_bind, wp_try, wp_call. intros w1 r1 E1. pose proof (request_spec w req) as Hr. rewrite E1 in Hr. cbn [fst snd] in Hr.
  assert (Hf : forall e, wp (refuse (A := bool) e) (fun w' r => forwarded w' = forwarded w ++ [req] \/ forwarded w' = forwarded w /\ forall b, r <> Ok b) w1).
  { intros e. apply wp_call. intros w2 r2 E2. pose proof (quiet_refuse (A := bool) e w1) as Hq. rewrite E2 in Hq. cbn [fst] in Hq. rewrite Hq.
    destruct Hr as [Hr|[Hr _]]; [by left|right]. split; [done|]. unfold refuse, io_bind in E2. intros b ->. by destruct (answer _ w1) as [? []]. }
  destruct r1 as [resp|e|]; [|apply Hf|destruct Hr as [?|[? _]]; [by left|by right]].
  destruct Hr as [Hr|[_ Hr]]; [|by destruct (Hr resp)]. apply wp_bind, wp_call. intros w2 r2 E2.
  pose proof (respond_spec w1 resp) as Hq. rewrite E2 in Hq. cbn [fst] in Hq. rewrite Hr in Hq. destruct r2 as [[]|e|]; by left.
Qed.

Lemma quiet_scan : quiet index_scan.
Proof. intros w. unfold index_scan. by destruct (scanDestination destination (lower w).1). Qed.

(** A computation that sends nothing on keeps what was sent. *)
Lemma wp_kept {B} (c : io IndexW Error B) (Q : IndexW -> res Error B -> Prop) w :
  quiet c -> (forall w' r, c w = (w', r) -> forwarded w' = forwarded w -> Q w' r) -> wp c Q w.
Proof. intros Hq HQ. apply wp_call. intros w' r E. apply HQ; [done|]. specialize (Hq w). by rewrite E in Hq. Qed.

Definition turned (p : bytes) (w : IndexW) (w' : IndexW) (r : res Error bool) : Prop :=
  exists tl, forwarded w' = forwarded w ++ tl /\ last_step p tl /\ (r = Ok true -> live_step p tl).

Lemma turned_quiet p w w' r : forwarded w' = forwarded w -> (r = Ok true -> p = [] \/ is_commit p) -> turned p w w' r.
Proof.
  intros Hf Hl. exists []. rewrite app_nil_r. split; [done|]. split; [by left|]. intros [->|Hc]%Hl; [by left|right; right]. split; [done|by left].
Qed.

Lemma index_turn_step p w : inbox w = Some p -> wp (index_turn index_scan once) (turned p w) w.
Proof.
  intros Hp. apply wp_bind, wp_call. intros w0 r0 E0. cbn in E0. rewrite Hp in E0. injection E0 as <- <-.
  set (w0 := mkServed _ _ _ _ _). assert (Hw0 : forwarded w0 = forwarded w) by done. clearbody w0.
  destruct p as [|op tl].
  { apply wp_bind, wp_kept; [apply quiet_answer|]. intros w1 r1 _ Hf1. destruct r1; apply turned_quiet; first [cbn [ret throw lift fst]; congruence|intros _; by left]. }
  set (req := op :: tl). change (head req) with (Some op) in *. assert (Hop : op_of req = Some op) by done.
  apply wp_bind, wp_ret. cbn [negb]. case_bool_decide as Hc.
  - subst op. assert (Hco : is_commit req) by done. apply wp_bind, wp_try, wp_kept; [apply quiet_scan|].
    intros w1 r1 E1 Hf1. destruct r1 as [man|e|]; [| |by apply turned_quiet; [cbn [ret throw lift fst]; congruence|]].
    2: { apply wp_bind, wp_kept; [apply quiet_answer|]. intros w2 r2 _ Hf2.
         destruct r2 as [[]|e'|]; [|by apply turned_quiet; [cbn [ret throw lift fst]; congruence|]..]. destruct once; apply turned_quiet; first [cbn [ret throw lift fst]; congruence|intros _; by right]. }
    destruct (encodeDestManifest (Entries man)) as [d|e|] eqn:Ed; [| |by apply turned_quiet; [cbn [ret throw lift fst]; congruence|]].
    2: { apply wp_kept; [apply quiet_refuse|]. intros w2 r2 _ Hf2. apply turned_quiet; [cbn [ret throw lift fst]; congruence|intros _; by right]. }
    assert (Hs : scanned d).
    { unfold index_scan in E1. destruct (scanDestination destination (lower w0).1) as [f r] eqn:Es. injection E1 as _ ->. by exists man, (lower w0).1, f. }
    apply wp_bind, wp_try, wp_call. intros w2 r2 E2. pose proof (request_spec w1 d) as Hr. rewrite E2 in Hr. cbn [fst snd] in Hr.
    rewrite Hf1, Hw0 in Hr. destruct r2 as [resp|e|].
    + destruct Hr as [Hr|[_ Hr]]; [|by destruct (Hr resp)]. eapply wp_mono; [apply wp_index_relay|]. intros w3 r3 [H3|[H3 Hn]].
      * exists [d; req]. rewrite H3, Hr, <- app_assoc. split; [done|]. split; [right; right; eauto|]. right; right. eauto.
      * exists [d]. rewrite H3, Hr. split; [done|]. split; [right; right; eauto|]. intros ->. by destruct (Hn true).
    + apply wp_kept; [apply quiet_refuse|]. intros w3 r3 E3 Hf3. destruct Hr as [Hr|[Hr _]].
      * exists [d]. rewrite Hf3, Hr. split; [done|]. split; [right; right; eauto|]. intros ->. unfold refuse, io_bind in E3. by destruct (answer _ w2) as [? []].
      * apply turned_quiet; [cbn [ret throw lift fst]; congruence|intros _; by right].
    + destruct Hr as [Hr|[Hr _]]; [|by apply turned_quiet]. exists [d]. split; [done|]. split; [right; right; eauto|done].
  - assert (Hco : ~ is_commit req) by (unfold is_commit; rewrite Hop; congruence).
    eapply wp_mono; [apply wp_index_relay|]. intros w3 r3 [H3|[H3 Hn]]; rewrite Hw0 in H3.
    + exists [req]. split; [done|]. split; [right; left; done|]. intros _. right; left. by split.
    + exists []. rewrite H3, app_nil_r. split; [done|]. split; [by left|]. intros ->. by destruct (Hn true).
Qed.

(** *** The traces of the chain *)

(** The index role: every request had its step, the last one perhaps a last step. *)
Definition traced (w : IndexW) : Prop :=
  exists st, Forall (fun x => live_step x.1 x.2) st /\
    (asked w = map fst st /\ log (lower w) = concat (map snd st) \/
     role w = None /\ exists p tl, last_step p tl /\ asked w = map fst st ++ [p] /\ log (lower w) = concat (map snd st) ++ tl).

Lemma index_role_asked s w : asked (index_role s w).1 = asked w.
Proof.
  assert (Hr : respects same_asked (index_role s)); [|apply Hr]. apply respects_bind; [tc_solve| |intros; apply respects_pure; tc_solve].
  apply index_turn_respects; [tc_solve|served_calls..|]. intros w1. unfold index_scan, same_asked. by destruct (scanDestination destination (lower w1).1).
Qed.

Lemma plan_role_asked g w : asked (plan_role g w).1 = asked w.
Proof.
  assert (Hr : respects same_asked (plan_role g)); [|apply Hr]. apply respects_bind; [tc_solve| |intros; apply respects_pure; tc_solve].
  apply plan_turn_respects; [tc_solve|served_calls..].
Qed.

#[local] Instance IndexL : EndpointLaws IndexW := served_laws index_role index_role_asked.
#[local] Instance PlanL : EndpointLaws PlanW := served_laws plan_role plan_role_asked.

Lemma index_call_traced p w : traced w -> traced (call index_role p w).1.
Proof.
  intros (st & Hst & Hw). unfold call. destruct (role w) as [[]|] eqn:Er; [|exists st; split; [done|]; cbn [fst]; rewrite Er; exact Hw].
  destruct Hw as [[Ha Hl]|[? _]]; [|congruence]. set (w0 := mkServed _ _ _ _ _).
  pose proof (index_role_asked tt w0) as Ha'. destruct (index_role tt w0) as [w1 r1] eqn:E1. cbn [fst] in *.
  assert (Ht : exists tl, log (lower w1) = log (lower w) ++ tl /\ last_step p tl /\ (r1 = Ok (Some tt) -> live_step p tl)).
  { unfold index_role, io_bind in E1. pose proof (index_turn_step p w0 eq_refl) as Hs. unfold wp in Hs.
    destruct (index_turn index_scan once w0) as [w2 r2]. cbn [fst snd] in Hs. destruct Hs as (tl & Hf & Hlast & Hlive).
    assert (w2 = w1) as -> by (by destruct r2; injection E1). exists tl. split; [exact Hf|]. split; [done|]. intros ->. apply Hlive.
    destruct r2 as [[]|e|]; by simplify_eq/=. }
  destruct Ht as (tl & Hf & Hlast & Hlive). cbn [asked w0] in Ha'. rewrite Ha in Ha'. rewrite Hl in Hf.
  destruct r1 as [[[]|]|e|] eqn:Er1.
  - exists (st ++ [(p, tl)]). split; [apply Forall_app; split; [done|]; apply Forall_singleton; by apply Hlive|].
    left. rewrite !map_app, concat_app. cbn. by rewrite app_nil_r.
  - exists st. split; [done|]. right. split; [done|]. by exists p, tl.
  - exists st. split; [done|]. right. split; [done|]. by exists p, tl.
  - exists st. split; [done|]. right. split; [done|]. by exists p, tl.
Qed.

(** The plan role: its gate and what it has sent to the index role. *)
Definition gated (w : PlanW) : Prop :=
  traced (lower w) /\ commits_ok (asked (lower w)) /\ forall g, role w = Some g -> inv (asked (lower w)) g.

Lemma plan_call_gated p w : gated w -> gated (call plan_role p w).1.
Proof.
  intros (Ht & Hc & Hg). unfold call. destruct (role w) as [g|] eqn:Er; [|split; [done|]; split; [done|]; cbn [fst]; by rewrite Er]. set (w0 := mkServed _ _ _ _ _).
  assert (Hk : respects (keeping traced) (plan_role g)).
  { apply respects_bind; [tc_solve| |intros; apply respects_pure; tc_solve].
    apply plan_turn_respects; [tc_solve|served_calls..]. intros w1 q. apply request_keeping, index_call_traced. }
  specialize (Hk w0). specialize (Hk Ht). pose proof (plan_turn_ok once g w0 (Hg g eq_refl)) as Hp. unfold wp in Hp.
  unfold plan_role, io_bind in *. destruct (plan_turn once g w0) as [w1 r1]. cbn [fst snd] in *. destruct Hp as [Hc1 Hg1].
  assert (Hw : forall r : res Error (option (option planGate)), (forall g', r = Ok (Some g') -> r1 = Ok (Continue g')) ->
    traced (lower w1) -> gated (mkServed (lower w1) (match r with Ok s => s | _ => None end) None None (asked w1))).
  { intros r Hr Htr. split; [done|]. split; [done|]. cbn. intros g' E. destruct r as [[x|]|e|]; [|done..]. injection E as ->. by apply Hg1, Hr. }
  destruct r1 as [[g'|]|e|]; [apply (Hw (Ok (Some g')))|apply (Hw (Ok None))|apply (Hw (Err e))|apply (Hw Panic)];
    try exact Hk; intros x E; by simplify_eq/=.
Qed.

Lemma parser_call_gated p w : gated (lower w) -> gated (lower (call parser_role p w).1).
Proof.
  intros Hg. unfold call. destruct (role w) as [[]|] eqn:Er; [|done]. set (w0 := mkServed _ _ _ _ _).
  assert (Hk : respects (keeping gated) (parser_role tt)).
  { apply respects_bind; [tc_solve| |intros; apply respects_pure; tc_solve].
    apply parser_turn_respects; [tc_solve|served_calls..]. intros w1 q. apply request_keeping, plan_call_gated. }
  specialize (Hk w0 Hg). by destruct (parser_role tt w0).
Qed.

Lemma ask_gated reqs w : gated (lower w) -> gated (lower (ask reqs w)).
Proof. revert w. induction reqs as [|p reqs IH]; intros w Hw; [done|]. by apply IH, parser_call_gated. Qed.

(** *** What apply receives *)

(** Messages that are not commits pass the index role, but for empty ones. *)
Lemma passed st : Forall (fun x => live_step x.1 x.2) st -> Forall (fun p => ~ is_commit p) (map fst st) ->
  concat (map snd st) = filter (.≠ []) (map fst st).
Proof.
  induction 1 as [|[p tl] st Hs Hst IH]; [done|]. cbn [map fst snd concat] in *. rewrite Forall_cons. intros [Hp Hf].
  rewrite IH by done. destruct Hs as [[-> ->]|[[[Hn _] ->]|[? _]]]; [| |done].
  - by rewrite filter_cons_False by (intros Hx; by apply Hx).
  - by rewrite filter_cons_True.
Qed.

Lemma transferred_filter e mid : transferred e mid -> transferred e (filter (.≠ []) mid).
Proof.
  intros [(p & fw & Hp & Hd & Hm)|(m1 & p & m2 & q & m3 & b & -> & Hd & Hm & He & Hf)]; [left|right].
  - exists p, fw. split_and!; try done. apply list_elem_of_filter. split; [|done]. intros ->. by apply decodeFile_op in Hd.
  - exists (filter (.≠ []) m1), p, (filter (.≠ []) m2), q, (filter (.≠ []) m3), b. split_and!; try done.
    + rewrite filter_app, filter_cons_True, filter_app, filter_cons_True; [done| |]; intros ->; [|by apply decodeFileBegin_op in Hd].
      pose proof (decodeFileEnd_inv []) as Hi. rewrite He in Hi. by destruct Hi as (_ & _ & ?).
    + apply Forall_forall. intros x [_ Hx]%list_elem_of_filter. rewrite Forall_forall in Hf. by apply Hf.
Qed.

Lemma push_passed st : Forall (fun x => live_step x.1 x.2) st -> complete_push (map fst st) -> complete_push (concat (map snd st)).
Proof.
  intros Hst (pre & m & es & mid & Heq & Hm & Hof & Htr). apply map_eq_app in Heq as (st1 & st2 & -> & Hpre & Heq).
  apply map_eq_cons in Heq as ([m' tm] & st3 & -> & Hm' & Hmid). cbn in Hm'. subst m'.
  rewrite Forall_app, Forall_cons in Hst. destruct Hst as (_ & Hs & Hst3). cbn [fst snd] in Hs.
  assert (Ho : op_of m = Some msgManifest).
  { pose proof (decodeManifest_inv m) as Hi. rewrite Hm in Hi. by destruct Hi as (_ & _ & ->). }
  assert (tm = [m]) as ->.
  { destruct Hs as [[-> _]|[[_ ->]|[Hc _]]]; [done|done|]. unfold is_commit in Hc. rewrite Ho in Hc. discriminate Hc. }
  rewrite map_app, concat_app. cbn [map snd concat]. rewrite (passed st3), Hmid by
    (done || (rewrite Hmid; eapply Forall_impl; [exact Hof|]; intros p (_ & Hp & _); exact Hp)).
  exists (concat (map snd st1)), m, es, (filter (.≠ []) mid). split_and!; [done|done| |].
  - apply Forall_forall. intros x [_ Hx]%list_elem_of_filter. rewrite Forall_forall in Hof. by apply Hof.
  - intros e He Hf. by apply transferred_filter, Htr.
Qed.

(** A commit among the steps came with its scan. *)
Definition ending (lp tl : list bytes) : Prop := lp = [] /\ tl = [] \/ exists p, lp = [p] /\ last_step p tl.

Lemma scan_not_commit d : scanned d -> ~ is_commit d.
Proof. intros Hd Hc. apply scanned_op in Hd. unfold is_commit in Hc. rewrite Hd in Hc. discriminate Hc. Qed.

Lemma commit_step st lp tl pre c post :
  Forall (fun x => live_step x.1 x.2) st -> ending lp tl -> concat (map snd st) ++ tl = pre ++ c :: post -> is_commit c ->
  exists st1 d rest, scanned d /\ pre = concat (map snd st1) ++ [d] /\ Forall (fun x => live_step x.1 x.2) st1 /\
    map fst st ++ lp = map fst st1 ++ c :: rest.
Proof.
  intros Hst Hend Heq Hc. revert pre Heq. induction Hst as [|[q tq] st Hs Hst IH]; intros pre Heq; cbn [map concat fst snd app] in *.
  - destruct Hend as [[_ ->]|(p & -> & [->|[[Hp ->]|[Hp (d & Hd & [->| ->])]]])]; [by destruct pre..| | |].
    + destruct pre as [|? [|? ?]]; by simplify_eq/=.
    + pose proof (scan_not_commit d Hd). destruct pre as [|? [|? ?]]; by simplify_eq/=.
    + pose proof (scan_not_commit d Hd). destruct pre as [|x [|y [|z pre]]]; simplify_eq/=; [done|]. by exists [], x, [].
  - assert (Hnext : forall pre', concat (map snd st) ++ tl = pre' ++ c :: post -> pre = tq ++ pre' ->
      exists st1 d rest, scanned d /\ pre = concat (map snd st1) ++ [d] /\ Forall (fun x => live_step x.1 x.2) st1 /\
      map fst ((q, tq) :: st) ++ lp = map fst st1 ++ c :: rest).
    { intros pre' E ->. destruct (IH pre' E) as (st1 & d & rest & Hd & -> & Hl & Hm). exists ((q, tq) :: st1), d, rest.
      split; [done|]. cbn. rewrite <- app_assoc, Hm. split; [done|]. split; [by constructor|done]. }
    rewrite <- app_assoc in Heq. destruct Hs as [[-> ->]|[[[_ Hq] ->]|[Hq [->|(d & Hd & ->)]]]].
    + by apply (Hnext pre).
    + destruct pre as [|x pre]; simplify_eq/=; [done|]. by apply (Hnext pre).
    + by apply (Hnext pre).
    + pose proof (scan_not_commit d Hd). destruct pre as [|x [|y pre]]; simplify_eq/=; [done| |by apply (Hnext pre)].
      by exists [], x, (map fst st ++ lp).
Qed.

Lemma started_gated f a : log a = [] -> gated (lower (started f a)).
Proof.
  intros Ha. split; [exists []; split; [done|]; left; split; [done|exact Ha]|]. split; [intros pre c post Hx; by destruct pre|].
  intros g [= <-]. split; [intros pre c post Hx; by destruct pre|done].
Qed.

(** C12. What the chain of roles lets through to apply.  Whatever the network role
    asks, whatever apply answers and wherever a role ends: when apply receives a
    commit, it has received right before it the scan of the destination, and before
    that a manifest followed by a complete transfer of each of its files, and of no
    other file. *)
Theorem pipeline_authorizes reqs f a pre c post :
  log a = [] -> applied (ask reqs (started f a)) = pre ++ c :: post -> is_commit c ->
  exists pre' d, pre = pre' ++ [d] /\ scanned d /\ complete_push pre'.
Proof.
  intros Ha Heq Hc. destruct (ask_gated reqs _ (started_gated f a Ha)) as ((st & Hst & Hw) & Hco & _).
  unfold applied in Heq. set (w := lower (lower (ask reqs (started f a)))) in *.
  assert (Hx : exists lp tl, ending lp tl /\ asked w = map fst st ++ lp /\ log (lower w) = concat (map snd st) ++ tl).
  { destruct Hw as [[Hx Hy]|(_ & p & tl & Hl & Hx & Hy)]; [exists [], []|exists [p], tl]; [rewrite !app_nil_r|]; (split; [|done]); [by left|right; eauto]. }
  destruct Hx as (lp & tl & He & Hask & Hlog). change (log (lower w)) with (log (lower w).2) in Hlog. rewrite Hlog in Heq.
  destruct (commit_step _ _ _ _ _ _ Hst He Heq Hc) as (st1 & d & rest & Hd & -> & Hst1 & Hp).
  exists (concat (map snd st1)), d. split; [done|]. split; [done|]. apply push_passed; [done|].
  eapply Hco; [|exact Hc]. fold w. rewrite Hask. exact Hp.
Qed.

End Chain.

End RemoteRoles.
