(* ===== verification/AuthRole.v ===== *)
(** * The authenticating role (internal/remotesync/auth_ipc.go)

    The network role accepts a connection and passes it to the authenticating role,
    which alone holds the keys of the peers.  That role runs the handshake on the
    connection, seals the session that results and passes seal and connection back.
    [AuthW] is the world of either role: its end of the socket between them, the
    channel over it, and the link to the audit role.  A connection is passed by
    value: each end closes what it has passed on, so that one of them uses it.
    [auth_hands_over] says that only connections of authenticated peers leave the
    authenticating role, [auth_handoff] that an honest peer meets the network role
    behind it. *)

From stdpp Require Import gmap.
From S2P Require Import Prelude Sha256 Resource Authority Codec Crypto Ipc Observability Session Protocol Driver FileSystem.
From S2P Require Import RemoteMessages RemoteWire RemoteGate RemoteKeys RemoteSession Rights RemoteRoles.
Import FileSystem RemoteMessages RemoteWire RemoteGate RemoteKeys RemoteSession Rights.

Module AuthRole.

Definition msgHSConn : Byte.byte := byte_of 0xa0.
Definition msgHSSeal : Byte.byte := byte_of 0xa1.

(** [aup] says that the link to the audit role is there. *)
Record AuthW := mkAuthW {
  asock : Sock Conn;
  ach : Ipc.ChannelState;
  aopen : bool;
  aaudit : ipcWire;
  aup : bool }.

Definition set_sock (s : Sock Conn) (w : AuthW) : AuthW := mkAuthW s (ach w) (aopen w) (aaudit w) (aup w).

Definition on_sock {E A} (c : io (Sock Conn) E A) : io AuthW E A := fun w =>
  let '(s, r) := c (asock w) in (set_sock s w, r).

(** The channel over the socket: reads cross its messages, a write is one. *)
Definition on_wire {E A} (c : io ipcWire E A) : io AuthW E A := fun w =>
  let s := asock w in
  let '(x, r) := c (mkWire (ach w) (aopen w) (flat (sin s)) [] []) in
  let read := (length (flat (sin s)) - length (win x))%nat in
  (mkAuthW (mkSock (skip_bytes read (sin s)) (if bool_decide (wout x = []) then sout s else sout s ++ [(wout x, [])]) (held s) (sfaults s))
     (wch x) (wopen x) (aaudit w) (aup w), r).

Definition on_audit {E A} (c : io ipcWire E A) : io AuthW E A := fun w =>
  let '(x, r) := c (aaudit w) in (mkAuthW (asock w) (ach w) (aopen w) x (aup w), r).

#[global] Instance Auth_Bridge `{ErrorTexts} : Bridge AuthW := {
  readRequest := on_wire wire_readRequest;
  respond p := on_wire (wire_respond p);
  endpoint w := (w, Ok (aup w));
  request p := on_audit (wire_request p) }.

Section Auth.
Context `{ErrorTexts} `{SessionTexts} `{Crypto.AEADCipher} (obs_text : Observability.Error -> bytes).
Abbreviation IO := (io AuthW Error).

(** [tcp.File] and [net.FileConn] duplicate the descriptor. *)
Definition duplicate (msg : string) : IO unit :=
  or_fail (on_sock (let* _ := syscall in hold 1)) (fun e => wrap KindTransport (str msg) (os_text e)).

Definition close_conn : IO unit := ignore (on_sock (hold (-1))).

Definition send_conn (c : Conn) : IO unit :=
  or_fail (on_sock (SendFDFile c)) (fun e => wrap KindTransport (str "send tcp fd") (ipc_text e)).

Definition recv_conn : IO Conn :=
  or_fail (on_sock RecvFDFile) (fun e => wrap KindTransport (str "recv tcp fd") (ipc_text e)).

(** [c], and then what is closed when it fails. *)
Definition closing {A} (c : IO A) : IO A :=
  let* r := try c in
  match r with
  | inl a => ret a
  | inr e => let* _ := close_conn in throw e
  end.

(** ** The network role *)

(** The connection that is taken over, and the session on it. *)
Definition AcceptHandshakeViaAuthIPC (conn : Conn) : IO (Conn * RemoteSession.Session) :=
  let* _ := duplicate "tcp file" in
  let* _ := close_conn in
  let* _ := closing (on_wire (send_request [msgHSConn])) in
  let* _ := closing (send_conn conn) in
  let* _ := close_conn in
  let* respRaw := on_wire wire_read in
  let* frame := on_wire (wire_decode respRaw) in
  if negb (Ipc.Type_ frame =? Ipc.TypeResponse) || (len (Ipc.Payload frame) <? 2) ||
     negb (bool_decide (head (Ipc.Payload frame) = Some msgHSSeal))
  then throw (fail KindProtocol (str "expected handshake seal")) else
  let* seal := lift (skip (Ipc.Payload frame) 1) in
  let* back := recv_conn in
  let* _ := closing (duplicate "fileconn") in
  let* _ := close_conn in
  let* sess := lift (SessionFromSeal seal) in
  ret (back, sess).

(** ** The authenticating role *)

Definition peerAdmitEvent (admitted : bool) (peerID : bytes) : Observability.Event :=
  let digest := PeerIDDigest peerID in
  if admitted then
    Observability.mkEvent (str "auth.peer.admit") Observability.ChannelSecurity Observability.SeverityInfo (str "integrisd-auth")
      (zeros 32) (zeros 16) 0 (str "peer_admit") Observability.RedactionPublic digest
  else
    Observability.mkEvent (str "auth.peer.deny") Observability.ChannelSecurity Observability.SeverityWarning (str "integrisd-auth")
      (zeros 32) (zeros 16) 0 (str "peer_deny") Observability.RedactionPublic digest.

Definition bestEffortPeerAudit (admitted : bool) (peerID : bytes) : IO unit :=
  if bool_decide (peerID = []) then ret tt else
  let* ok := endpoint in
  if negb ok then ret tt else RemoteRoles.EmitAuditEvent obs_text (peerAdmitEvent admitted peerID).

(** The handshake on the connection: its state after, and the session. *)
Definition admit_peer (material : bytes + PeerKeyring) (fc : Conn) : IO (Conn * (RemoteSession.Session + Error)) :=
  match material with
  | inr kr =>
      match AcceptHandshakeKeyring kr fc with
      | (fc, Ok (sess, peerID)) => let* _ := ignore (bestEffortPeerAudit true peerID) in ret (fc, inl sess)
      | (fc, Err (e, peerID)) => let* _ := ignore (bestEffortPeerAudit false peerID) in ret (fc, inr e)
      | (_, Panic) => lift Panic
      end
  | inl single =>
      match AcceptHandshake single fc with
      | (fc, Ok sess) => ret (fc, inl sess)
      | (fc, Err e) => ret (fc, inr e)
      | (_, Panic) => lift Panic
      end
  end.

(** Seal and connection go to the network role. *)
Definition hand_over (fc : Conn) (sess : RemoteSession.Session) : IO unit :=
  match sealFromDriver (SDriver sess) with
  | Panic => lift Panic
  | Err e => let* _ := close_conn in refuse e
  | Ok seal =>
      let* raw := closing (lift (encodeSeal seal)) in
      let* _ := closing (duplicate "tcp file") in
      let* _ := close_conn in
      let* _ := closing (respond ([msgHSSeal] ++ raw)) in
      let* _ := closing (send_conn fc) in
      close_conn
  end.

(** One turn of the loop; [true] to go on. *)
Definition auth_turn (material : bytes + PeerKeyring) (once : bool) : IO bool :=
  let* req := readRequest in
  if negb (len req =? 1) || negb (bool_decide (head req = Some msgHSConn)) then
    let* _ := answer (str "expected hs conn") in throw (fail KindProtocol (str "expected hs conn")) else
  let* f := recv_conn in
  let* _ := closing (duplicate "fileconn") in
  let* _ := close_conn in
  let* (fc, r) := admit_peer material f in
  match r with
  | inr e =>
      let* _ := close_conn in
      let* _ := answer (error_text e) in
      if once then throw e else ret true
  | inl sess =>
      let* _ := hand_over fc sess in
      ret (negb once)
  end.

(** The loop that keeps the link open until the network role is done with it; a
    read that fails ends it. *)
Fixpoint drain (n : nat) : IO unit :=
  match n with
  | O => ret tt
  | S n =>
      let* r := try (on_wire wire_read) in
      match r with
      | inl _ => drain n
      | inr _ => ret tt
      end
  end.

(** Every frame read has at least one byte. *)
Definition drain_all : IO unit := fun w => drain (S (length (flat (sin (asock w))))) w.

Fixpoint auth_loop (n : nat) (material : bytes + PeerKeyring) (once : bool) : IO bool :=
  match n with
  | O => ret true
  | S n =>
      let* more := auth_turn material once in
      if more : bool then auth_loop n material once else let* _ := drain_all in ret false
  end.

Definition ServeAuthHandshakeIPC (n : nat) (rootMaterial : bytes) (once : bool) : IO bool :=
  let* material := lift (DecodeRootMaterial rootMaterial) in
  auth_loop n material once.

(** ** What leaves the authenticating role *)

(** The handshake accepted the connection [c] with the session [sess]; [c'] is the
    connection after it. *)
Definition accepted (material : bytes + PeerKeyring) (c c' : Conn) (sess : RemoteSession.Session) : Prop :=
  match material with
  | inr kr => exists peerID, AcceptHandshakeKeyring kr c = (c', Ok (sess, peerID))
  | inl single => AcceptHandshake single c = (c', Ok sess)
  end.

(** The bytes on the socket of a response that is the seal of [sess]. *)
Definition sealed (sess : RemoteSession.Session) (stream : bytes) : Prop :=
  exists seal raw ch ch' frame, sealFromDriver (SDriver sess) = Ok seal /\ encodeSeal seal = Ok raw /\
    Ipc.Encode ch Ipc.TypeResponse ([msgHSSeal] ++ raw) = Ok (ch', frame) /\ Ipc.WriteFrame frame = Ok stream.

(** Messages without descriptors, and accepted connections, each next to the seal
    of its own session. *)
Inductive output (material : bytes + PeerKeyring) : list (segment Conn) -> Prop :=
| out_nil : output material []
| out_plain b l : output material l -> output material ((b, []) :: l)
| out_session c c' sess stream l :
    accepted material c c' sess -> sealed sess stream ->
    output material l -> output material ((stream, []) :: (KeyFDMagic, [c']) :: l).

Lemma output_app m l1 l2 : output m l1 -> output m l2 -> output m (l1 ++ l2).
Proof. induction 1; intros; cbn; [done|apply out_plain; auto|eapply out_session; eauto]. Qed.

(** Descriptors come with the message that the role expects. *)
Definition tagged (q : list (segment Conn)) : Prop :=
  Forall (fun seg => seg.2 = [] \/ take 4 seg.1 = KeyFDMagic) q.

Lemma tagged_skip n q : tagged q -> tagged (skip_bytes n q).
Proof.
  intros Hq. revert n. induction Hq as [|[b fds] q Hs Hq IH]; intros n; cbn [skip_bytes]; [constructor|].
  case_bool_decide; [by constructor|]. case_bool_decide; [apply IH|]. constructor; [by left|done].
Qed.

Lemma recvmsg_tagged n (s s' : Sock Conn) r : recvmsg n s = (s', r) -> tagged (sin s) -> tagged (sin s').
Proof.
  cbn. unfold io_bind, syscall, take_message, hold, ret. destruct s as [q o h fl]. cbn [sin sout held sfaults].
  assert (Ht : tagged q -> forall rest, tagged (if bool_decide (rest = []) then tail q else (rest, []) :: tail q)).
  { intros Hq rest. apply (Forall_tail _ _) in Hq. case_bool_decide; [done|]. constructor; [by left|done]. }
  destruct fl as [|[e|] fl]; cbn; [|by intros [= <- <-]|]; (destruct q as [|[b fds] q]; cbn; intros [= <- <-]; [done|cbn; auto]).
Qed.

Lemma wire_responded p w w' :
  on_wire (wire_respond p) w = (w', Ok tt) ->
  exists ch' frame stream, Ipc.Encode (ach w) Ipc.TypeResponse p = Ok (ch', frame) /\ Ipc.WriteFrame frame = Ok stream /\
    sout (asock w') = sout (asock w) ++ [(stream, [])].
Proof.
  unfold on_wire, wire_respond, wire_encode, io_bind, or_fail, wire_write. cbn [wch wopen win wout wlog].
  destruct (Ipc.Encode _ _ p) as [[ch' frame]|[ch' e]|]; [|done..]. cbn [wopen wch win wout wlog]. destruct (aopen w); cbn [negb map_err]; [|done].
  destruct (Ipc.WriteFrame frame) as [stream|e|] eqn:Ew; [|done..]. intros [= <-]. exists ch', frame, stream. split_and!; [done..|].
  cbn. rewrite bool_decide_false; [done|]. unfold Ipc.WriteFrame in Ew. destruct (_ || _); [done|]. by injection Ew as <-.
Qed.

Section Outputs.
Context (material : bytes + PeerKeyring) (w0 : AuthW).

(** What the role has sent since [w0]. *)
Definition sent (w : AuthW) : Prop := exists out, sout (asock w) = sout (asock w0) ++ out /\ output material out.

(** If the descriptors that came in came with the expected message, the role holds [k]
    more than at [w0]. *)
Definition balanced (k : Z) (w : AuthW) : Prop :=
  tagged (sin (asock w0)) -> held (asock w) = held (asock w0) + k /\ tagged (sin (asock w)).

Definition good (k : Z) (w : AuthW) : Prop := sent w /\ balanced k w.

(** The same, and then a response with the seal of [sess]. *)
Definition offered (sess : RemoteSession.Session) (k : Z) (w : AuthW) : Prop :=
  (exists out stream, sout (asock w) = sout (asock w0) ++ out ++ [(stream, [])] /\ output material out /\ sealed sess stream) /\ balanced k w.

Definition post {A} (P : A -> AuthW -> Prop) (F : AuthW -> Prop) (w : AuthW) (r : res Error A) : Prop :=
  match r with Ok a => P a w | Err _ => F w | Panic => sent w end.

Lemma post_bind {A B} (c : IO A) (k : A -> IO B) P F (P' : B -> AuthW -> Prop) (F' : AuthW -> Prop) w :
  wp c (post P F) w -> (forall w', F w' -> F' w') -> (forall a w', P a w' -> wp (k a) (post P' F') w') ->
  wp (io_bind c k) (post P' F') w.
Proof.
  intros Hc HF HP. apply wp_bind. eapply wp_mono; [exact Hc|]. intros w' [a|e|] Hx; cbn in *; [by apply HP|by apply HF|done].
Qed.

Lemma good_wire {E A} (c : io ipcWire E A) k w : good k w -> good k (on_wire c w).1.
Proof.
  intros [(out & Ho & Hm) Hb]. unfold on_wire. destruct (c _) as [x r]. split; [|intros [Hh Ht]%Hb; split; [done|by apply tagged_skip]]. cbn.
  case_bool_decide; [by exists out|]. exists (out ++ [(wout x, [])]). cbn. split; [by rewrite Ho, <- app_assoc|].
  apply output_app; [done|]. by repeat constructor.
Qed.

Lemma good_audit {E A} (c : io ipcWire E A) k w : good k w -> good k (on_audit c w).1.
Proof. unfold on_audit. by destruct (c (aaudit w)). Qed.

Lemma wp_on_wire {A} (c : io ipcWire Error A) k w : good k w -> wp (on_wire c) (post (fun _ => good k) (good k)) w.
Proof. intros Hg%(good_wire c). unfold wp, post. destruct (on_wire c w) as [w' [a|e|]]; [done..|apply Hg]. Qed.

Lemma wp_auth_answer msg k w : good k w -> wp (answer msg) (post (fun _ => good k) (good k)) w.
Proof.
  intros Hg. apply wp_ignore, wp_call. intros w' r E. apply (good_wire (wire_respond (mustResult false msg))) in Hg.
  cbn in E. rewrite E in Hg. destruct r; [done..|apply Hg].
Qed.

Lemma wp_duplicate msg k w : good k w -> wp (duplicate msg) (post (fun _ => good (k + 1)) (good k)) w.
Proof.
  unfold good, sent, balanced, wp, duplicate, or_fail, on_sock, syscall, hold, io_bind. intros [(out & Ho & Hm) Hb].
  destruct (asock w) as [q o h fl]. cbn in Ho, Hb.
  destruct fl as [|[e|] fl]; cbn; (split; [by exists out|]; intros [Hh Ht]%Hb; cbn; split; [lia|done]).
Qed.

Lemma wp_close_conn k w : good k w -> wp close_conn (post (fun _ => good (k - 1)) (fun _ => False)) w.
Proof. intros [(out & Ho & Hm) Hb]. split; [by exists out|]. intros [Hh Ht]%Hb. cbn. split; [lia|done]. Qed.

Lemma wp_closing {A} (c : IO A) P k w : wp c (post P (good k)) w -> wp (closing c) (post P (good (k - 1))) w.
Proof.
  intros Hc. apply wp_bind, wp_try. eapply wp_mono; [exact Hc|]. intros w' [a|e|] Hx; [done| |done].
  eapply post_bind; [by apply wp_close_conn|done|done].
Qed.

Lemma wp_recv_conn k w : good k w -> wp recv_conn (post (fun _ => good (k + 1)) (good k)) w.
Proof.
  intros [(out & Ho & Hm) Hb]. apply wp_or_fail, wp_call. intros w' r. unfold on_sock.
  destruct (RecvFDFile (asock w)) as [s x] eqn:E. intros [= <- <-]. pose proof E as Ec. apply recvFDMagic_custody in Ec as [Hs Hc].
  assert (Hsent : sent (set_sock s w)) by (exists out; cbn; by rewrite Hs).
  assert (Hq : tagged (sin (asock w)) -> tagged (sin s)).
  { intros Ht. unfold RecvFDFile, recvFDMagic, or_fail, io_bind in E. destruct (recvmsg (len KeyFDMagic) (asock w)) as [s1 x1] eqn:E1.
    pose proof (recvmsg_tagged _ _ _ _ E1 Ht) as Hq1.
    pose proof (recvmsg_exact _ _ _ _ E1) as Hr. destruct x1 as [[data oob]|e|]; cbn in E; [|by injection E as <- <-..].
    destruct Hr as (b & fds & q & _ & _ & -> & _). apply parse_held in E as [-> _]. done. }
  destruct x as [f|e|]; cbn; [| |done].
  - destruct Hc as (b & q & Hd0 & Hk & Hd). split; [done|]. intros [Hh Ht]%Hb. cbn. split; [lia|by apply Hq].
  - split; [done|]. intros [Hh Ht]%Hb. cbn. split; [|by apply Hq]. destruct Hc as [Hd|(b & fds & q & Hd0 & Hn & Hk & Hd)]; [lia|].
    exfalso. rewrite Hd0 in Ht. apply Forall_cons in Ht as [[Hx|Hx] _]; cbn in Hx; [done|]. by apply Hk.
Qed.

Lemma wp_peer_audit b peerID k w : good k w -> wp (ignore (bestEffortPeerAudit b peerID)) (post (fun _ => good k) (fun _ => False)) w.
Proof.
  intros Hg. pose proof (proj1 Hg) as Hsent. apply wp_ignore. eapply wp_mono with (P := post (fun _ => good k) (good k)); [|by intros w' [|e|]].
  unfold bestEffortPeerAudit. case_bool_decide; [done|]. apply wp_bind, wp_call. intros w1 r1 [= <- <-]. destruct (aup w); cbn [negb]; [|done].
  unfold RemoteRoles.EmitAuditEvent. apply wp_bind, wp_lift. destruct (map_err _ _) as [body|e|]; [|done..].
  unfold RemoteRoles.request_ok. apply wp_bind, wp_call. intros w1 r1 E. apply (good_audit (wire_request ([RemoteRoles.msgAuditEvent] ++ body))) in Hg.
  cbn in E. cbn in Hg. rewrite E in Hg. cbn in Hg. destruct r1 as [resp|e|]; [|done|apply Hg]. apply wp_bind, wp_lift.
  destruct (decodeResult resp) as [[ok msg]|e|]; [|done|apply Hg]. by destruct ok.
Qed.

Lemma wp_admit fc k w :
  good k w -> wp (admit_peer material fc) (post (fun x w => good k w /\ forall sess, x.2 = inl sess -> accepted material fc x.1 sess) (fun _ => False)) w.
Proof.
  intros Hg. pose proof (proj1 Hg) as Hsent. unfold admit_peer, accepted. destruct material as [single|kr] eqn:Hm.
  - destruct (AcceptHandshake single fc) as [fc' [sess|e|]] eqn:E; cbn; [|done..]. split; [done|]. by intros ? [= ->].
  - destruct (AcceptHandshakeKeyring kr fc) as [fc' [[sess peerID]|[e peerID]|]] eqn:E; [..|done];
      (eapply post_bind; [apply wp_peer_audit, Hg|done|]; intros [] w' Hg'; cbn; split; [done|]); [|done].
    intros ? [= <-]. by exists peerID.
Qed.
Lemma wp_offer sess seal raw k w :
  sealFromDriver (SDriver sess) = Ok seal -> encodeSeal seal = Ok raw -> good k w ->
  wp (respond ([msgHSSeal] ++ raw)) (post (fun _ => offered sess k) (good k)) w.
Proof.
  intros Hs He Hg. pose proof (good_wire (wire_respond ([msgHSSeal] ++ raw)) k w Hg) as Hw. apply wp_call. cbn [respond Auth_Bridge]. intros w' r E.
  rewrite E in Hw. destruct r as [[]|e|]; [|done|apply Hw]. destruct Hw as [_ Hb]. destruct Hg as [(out & Ho & Hm) _].
  apply wire_responded in E as (ch' & frame & stream & He' & Hf & Hso). split; [|done]. exists out, stream. split_and!; [by rewrite Hso, Ho, <- app_assoc|done|].
  by exists seal, raw, (ach w), ch', frame.
Qed.

Lemma offered_good sess k w : offered sess k w -> good k w.
Proof.
  intros [(out & stream & Ho & Hm & _) Hb]. split; [|done]. exists (out ++ [(stream, [])]). split; [done|].
  apply output_app; [done|]. apply out_plain, out_nil.
Qed.

Lemma wp_send_conn c fc sess k w :
  accepted material c fc sess -> offered sess k w -> wp (send_conn fc) (post (fun _ => good k) (good k)) w.
Proof.
  intros Ha Hf. pose proof (offered_good _ _ _ Hf) as Hg. destruct Hf as [(out & stream & Ho & Hm & Hs) Hb].
  unfold good, sent, balanced in *. unfold wp, send_conn, or_fail, on_sock, SendFDFile, sendFDFileMagic, or_fail, io_bind. cbn. unfold io_bind, syscall, put, ret.
  destruct (asock w) as [q o h fl] eqn:Es. cbn in Ho, Hb, Hg.
  assert (Hx : forall fl', good k (set_sock (mkSock q (o ++ [(KeyFDMagic, [fc])]) h fl') w)).
  { intros fl'. split; [|exact Hb]. exists (out ++ [(stream, []); (KeyFDMagic, [fc])]). cbn. split; [by rewrite Ho, <- !app_assoc|].
    apply output_app; [done|]. eapply out_session; [done..|apply out_nil]. }
  destruct fl as [|[e|] fl]; [exact (Hx [])|exact Hg|exact (Hx fl)].
Qed.

Lemma wp_hand_over c fc sess w :
  accepted material c fc sess -> good 1 w -> wp (hand_over fc sess) (post (fun _ => good 0) (good 0)) w.
Proof.
  intros Ha Hg. unfold hand_over. destruct (sealFromDriver (SDriver sess)) as [seal|e|] eqn:Es; [| |apply Hg].
  - eapply (post_bind _ _ (fun raw w => good 1 w /\ encodeSeal seal = Ok raw) (good 0)); [|done|].
    { apply (wp_closing _ _ 1), wp_lift. destruct (encodeSeal seal); [done..|apply Hg]. }
    intros raw w1 [Hg1 He]. eapply post_bind; [apply (wp_closing _ _ 1), wp_duplicate, Hg1|done|]. intros [] w2 Hg2.
    eapply post_bind; [apply wp_close_conn, Hg2|done|]. intros [] w3 Hg3.
    eapply post_bind; [apply (wp_closing _ _ 1); by eapply wp_offer|done|]. intros [] w4 Hg4.
    eapply post_bind; [apply (wp_closing _ _ 1); by eapply wp_send_conn|done|]. intros [] w5 Hg5. by apply (wp_close_conn 1).
  - eapply post_bind; [apply (wp_close_conn 1), Hg|done|]. intros [] w1 Hg1. eapply post_bind; [apply wp_auth_answer, Hg1|done|done].
Qed.

Lemma wp_auth_turn once w : good 0 w -> wp (auth_turn material once) (post (fun _ => good 0) (good 0)) w.
Proof.
  intros Hg. eapply post_bind; [apply wp_on_wire, Hg|done|]. intros req w1 Hg1.
  destruct (_ || _); [eapply post_bind; [apply wp_auth_answer, Hg1|done|done]|].
  eapply post_bind; [apply wp_recv_conn, Hg1|done|]. intros f w2 Hg2.
  eapply post_bind; [apply (wp_closing _ _ 1), wp_duplicate, Hg2|done|]. intros [] w3 Hg3.
  eapply post_bind; [apply wp_close_conn, Hg3|done|]. intros [] w4 Hg4.
  eapply post_bind; [by apply wp_admit|done|]. intros [fc r] w5 [Hg5 Ha]. cbn [fst snd] in Ha. destruct r as [sess|e].
  - eapply post_bind; [by eapply wp_hand_over; [apply Ha|]|done|]. done.
  - eapply post_bind; [apply (wp_close_conn 1), Hg5|done|]. intros [] w6 Hg6. eapply post_bind; [apply wp_auth_answer, Hg6|done|].
    intros [] w7 Hg7. by destruct once.
Qed.

Lemma wp_drain n w : good 0 w -> wp (drain n) (post (fun _ => good 0) (fun _ => False)) w.
Proof.
  revert w. induction n as [|n IH]; intros w Hg; [done|]. cbn [drain]. apply wp_bind, wp_try. eapply wp_mono; [by eapply wp_on_wire|].
  intros w' [a|e|] Hx; [by apply IH|done|done].
Qed.

Lemma wp_auth_loop n once w : good 0 w -> wp (auth_loop n material once) (post (fun _ => good 0) (good 0)) w.
Proof.
  revert w. induction n as [|n IH]; intros w Hg; [done|]. cbn [auth_loop]. eapply post_bind; [by apply wp_auth_turn|done|].
  intros [] w1 Hg1; [by apply IH|]. eapply post_bind; [apply (wp_drain _ _ Hg1)|done|done].
Qed.

End Outputs.

(** C17. Only connections of authenticated peers leave the authenticating role.
    Whatever is on its socket and whatever fails, for any number of turns: the
    messages that the role has sent carry no descriptor, except a connection that
    the handshake accepted, right after the seal of the session of that same
    handshake.  If moreover every descriptor that came in came with the expected
    message, and the role has not panicked, it holds as many descriptors as before. *)
Theorem auth_hands_over n material once w w' r :
  auth_loop n material once w = (w', r) ->
  (exists out, sout (asock w') = sout (asock w) ++ out /\ output material out) /\
  (tagged (sin (asock w)) -> r <> Panic -> held (asock w') = held (asock w)).
Proof.
  intros E. assert (Hg : good material w 0 w).
  { split; [|intros Ht; split; [lia|done]]. exists []. rewrite app_nil_r. split; [done|constructor]. }
  pose proof (wp_run _ _ _ _ _ (wp_auth_loop material w n once w Hg) E) as Hp.
  destruct r as [b|e|]; [| |done]; (destruct Hp as [Hs Hb]; split; [exact Hs|]; intros [Hh _]%Hb _; lia).
Qed.

(** ** Reading and writing on the socket *)

Lemma flat_skip n (q : list (segment Conn)) : flat (skip_bytes n q) = drop n (flat q).
Proof.
  revert n. induction q as [|[b fds] q IH]; intros n; cbn [skip_bytes]; [by destruct n|].
  unfold flat. cbn [map concat fst]. case_bool_decide as Hn; [by subst|]. case_bool_decide as Hl.
  - unfold flat in IH. rewrite IH, drop_app_ge by lia. done.
  - cbn [map concat fst]. by rewrite drop_app_le by lia.
Qed.

Lemma ReadFrame_shorter b m raw rest : Ipc.ReadFrame b m = Ok (raw, rest) -> (length rest < length b)%nat.
Proof.
  unfold Ipc.ReadFrame. set (mx := if m <=? 0 then _ else m). cbv zeta. clearbody mx. destruct (len b <? 4) eqn:E4; [done|].
  set (n := le_val (sub b 0 4)). clearbody n. destruct ((n <=? 0) || (mx <? n)) eqn:En; [done|]. destruct (len b - 4 <? n) eqn:El; [done|].
  intros [= _ <-]. apply orb_false_iff in En as [En _]. pose proof (len_sub b (4 + n) (len b)) as Hs. unfold len in *. lia.
Qed.

Lemma read_shorter w w' raw :
  on_wire wire_read w = (w', Ok raw) -> (length (flat (sin (asock w'))) < length (flat (sin (asock w))))%nat.
Proof.
  unfold on_wire, wire_read. cbn [win]. destruct (Ipc.ReadFrame _ 0) as [[x rest]|e|] eqn:E; [|done..]. apply ReadFrame_shorter in E.
  intros [= <- _]. cbn [asock sin win]. rewrite flat_skip, length_drop. lia.
Qed.

(** The fuel of [drain_all] is enough: more does not change what it does. *)
Lemma drain_enough n m w :
  (length (flat (sin (asock w))) < n)%nat -> (length (flat (sin (asock w))) < m)%nat -> drain n w = drain m w.
Proof.
  revert m w. induction n as [|n IH]; intros [|m] w Hn Hm; try lia. cbn [drain]. unfold io_bind, try.
  destruct (on_wire wire_read w) as [w' [raw|e|]] eqn:E; [|done..]. apply read_shorter in E. apply IH; lia.
Qed.

End Auth.

(** ** A handshake through both roles *)

Section Handoff.
Context `{ErrorTexts} `{SessionTexts} `{Crypto.AEADLaws} (obs_text : Observability.Error -> bytes).

Definition stream (raw : bytes) : bytes := le_bytes 4 (u32 (len raw)) ++ raw.

Lemma skip_none (q : list (segment Conn)) : skip_bytes 0 q = q.
Proof. by destruct q as [|[]]. Qed.

Lemma skip_first (b : bytes) (q : list (segment Conn)) :
  b <> [] -> skip_bytes (length (flat ((b, []) :: q)) - length (flat q)) ((b, []) :: q) = q.
Proof.
  intros Hb. unfold flat. cbn [map concat fst]. rewrite length_app. replace (_ + _ - _)%nat with (length b) by lia. cbn [skip_bytes].
  assert (length b <> 0%nat) by by destruct b.
  case_bool_decide; [done|]. case_bool_decide; [|lia]. rewrite Nat.sub_diag. apply skip_none.
Qed.

(** A message of at most 1024 bytes from one end of a channel to the other. *)
Section Message.
Context (a b : Ipc.ChannelState) (typ : Z) (p : bytes).
Hypothesis Hp : Ipc.paired a b.
Hypothesis Ht : 1 <= typ <= 2.
Hypothesis Hq : Ipc.QueueDepth b < 1024.
Hypothesis Hl : len p <= 1024.
Hypothesis Hm : 1024 <= Ipc.MaxFrame a.

Definition arrived : Ipc.ChannelState := Ipc.received b (u64 (Ipc.LastRecvSeq b + 1)) typ.

Lemma message_stream : Ipc.WriteFrame (Ipc.wire a typ p) = Ok (stream (Ipc.wire a typ p)) /\ stream (Ipc.wire a typ p) <> [].
Proof.
  split; [|done]. unfold stream, Ipc.WriteFrame, Ipc.max_stream. destruct Hp as ((Hn & _) & _). rewrite Ipc.len_wire by done.
  pose proof (len_nonneg p). assert (0 <= Ipc.macLen a <= 32) by (unfold Ipc.macLen, Ipc.MACBytes; case_if; lia).
  change (Ipc.MaxFrameBytes + Ipc.HeaderBytes + Ipc.MACBytes) with 1048652. by replace (_ || _) with false by lia.
Qed.

Lemma write_message inp :
  wire_encode typ p (mkWire a true inp [] []) = (mkWire (Ipc.sent a typ) true inp [] [], Ok (Ipc.wire a typ p)) /\
  wire_write (Ipc.wire a typ p) (mkWire (Ipc.sent a typ) true inp [] []) = (mkWire (Ipc.sent a typ) true inp (stream (Ipc.wire a typ p)) [], Ok tt).
Proof.
  destruct message_stream as [Hw _]. unfold wire_encode, wire_write. cbn [wch wopen win wout wlog].
  destruct Hp as (Hwf & _ & Hc & _). rewrite Ipc.ipc_Encode_ok by (done || lia). by rewrite Hw.
Qed.

Lemma read_message inp :
  wire_read (mkWire b true (stream (Ipc.wire a typ p) ++ inp) [] []) = (mkWire b true inp [] [], Ok (Ipc.wire a typ p)) /\
  wire_decode (Ipc.wire a typ p) (mkWire b true inp [] []) = (mkWire arrived true inp [] [], Ok (Ipc.frame_of (Ipc.peer b) typ p)).
Proof.
  unfold wire_read, wire_decode. cbn [wch wopen win wout wlog]. destruct message_stream as [Hw _]. rewrite (Ipc.ReadFrame_WriteFrame _ _ inp Hw).
  destruct (Ipc.paired_step a b typ p Hp Hq ltac:(lia) ltac:(lia)) as (_ & Hd & _). by rewrite Hd.
Qed.

(** On the socket. *)
Lemma respond_message q out h audit up :
  typ = Ipc.TypeResponse ->
  on_wire (wire_respond p) (mkAuthW (mkSock q out h []) a true audit up) =
    (mkAuthW (mkSock q (out ++ [(stream (Ipc.wire a typ p), [])]) h []) (Ipc.sent a typ) true audit up, Ok tt).
Proof.
  intros E. unfold on_wire, wire_respond, io_bind, or_fail. rewrite <- E. cbn [asock ach aopen sin sout held sfaults].
  destruct (write_message (flat q)) as [-> ->]. cbn [win wout wch wopen]. destruct message_stream as [_ Hn].
  rewrite bool_decide_false, Nat.sub_diag, skip_none by done. done.
Qed.

Lemma request_message q out h audit up :
  typ = Ipc.TypeRequest ->
  on_wire (send_request p) (mkAuthW (mkSock q out h []) a true audit up) =
    (mkAuthW (mkSock q (out ++ [(stream (Ipc.wire a typ p), [])]) h []) (Ipc.sent a typ) true audit up, Ok tt).
Proof.
  intros E. unfold on_wire, send_request, log_request, io_bind, or_fail. rewrite <- E. cbn [asock ach aopen sin sout held sfaults].
  destruct (write_message (flat q)) as [-> ->]. cbn [win wout wch wopen wlog map_err]. destruct message_stream as [_ Hn].
  rewrite bool_decide_false, Nat.sub_diag, skip_none by done. done.
Qed.

Lemma receive_message q out h audit up :
  on_wire wire_read (mkAuthW (mkSock ((stream (Ipc.wire a typ p), []) :: q) out h []) b true audit up) =
    (mkAuthW (mkSock q out h []) b true audit up, Ok (Ipc.wire a typ p)) /\
  on_wire (wire_decode (Ipc.wire a typ p)) (mkAuthW (mkSock q out h []) b true audit up) =
    (mkAuthW (mkSock q out h []) arrived true audit up, Ok (Ipc.frame_of (Ipc.peer b) typ p)).
Proof.
  unfold on_wire. cbn [asock ach aopen sin sout held sfaults]. destruct message_stream as [_ Hn].
  change (flat ((stream (Ipc.wire a typ p), []) :: q)) with (stream (Ipc.wire a typ p) ++ flat q) at 1.
  rewrite (proj1 (read_message (flat q))), (proj2 (read_message (flat q))). cbn [win wout wch wopen].
  rewrite skip_first, Nat.sub_diag, skip_none by done. done.
Qed.

Lemma serve_message q out h audit up :
  typ = Ipc.TypeRequest ->
  on_wire wire_readRequest (mkAuthW (mkSock ((stream (Ipc.wire a typ p), []) :: q) out h []) b true audit up) =
    (mkAuthW (mkSock q out h []) arrived true audit up, Ok p).
Proof.
  intros E. unfold on_wire, wire_readRequest, io_bind. cbn [asock ach aopen sin sout held sfaults]. destruct message_stream as [_ Hn].
  change (flat ((stream (Ipc.wire a typ p), []) :: q)) with (stream (Ipc.wire a typ p) ++ flat q) at 1.
  rewrite (proj1 (read_message (flat q))), (proj2 (read_message (flat q))).
  change (Ipc.Type_ (Ipc.frame_of _ _ _)) with typ. rewrite E, Z.eqb_refl. rewrite <- E. cbn [negb ret win wout wch wopen].
  rewrite skip_first by done. done.
Qed.

(** The other direction stays in step. *)
Lemma channel_back : Ipc.paired b a -> Ipc.paired arrived (Ipc.sent a typ).
Proof.
  intros (Hwb & Hwa & Hcb & Hca & Hka & Hkb & H1' & H2' & H3' & H4' & H5' & H6').
  destruct (Ipc.paired_step a b typ p Hp Hq ltac:(lia) ltac:(lia)) as (_ & _ & Hs).
  destruct Hs as (Hws & Hwr & Hcs & Hcr & _); [unfold Ipc.TypeClose; lia|].
  unfold Ipc.paired. split_and!; try done.
Qed.

End Message.

(** *** The audit link *)

(** The link to the audit role is an established channel. *)
Definition link_ok (w : ipcWire) : Prop :=
  Ipc.wf_channel (wch w) /\ Ipc.known_role (Ipc.LocalRole (wch w)) /\ Ipc.known_role (Ipc.RemoteRole (wch w)).

Lemma decodeResult_total p : decodeResult p <> Panic.
Proof.
  unfold decodeResult. destruct (not_msg msgResult 2 p) eqn:E; [done|]. unfold not_msg in E. apply orb_false_iff in E as [E%Z.ltb_ge _].
  destruct (nth_lookup_or_length p 1 Byte.x00) as [Hb|Hb]; [|unfold len in E; lia].
  rewrite (index_ok _ 1 _) by done. cbn [bind]. rewrite slice_ok by len_lia. cbn [bind]. pose proof (takeString_inv (sub p 2 (len p))) as Ht.
  destruct (takeString _) as [[msg rest]|e|]; cbn [bind]; [|done..]. by case_if.
Qed.

Lemma wire_request_total p w : link_ok w -> (wire_request p w).2 <> Panic.
Proof.
  intros (Hwf & Hl & Hr). unfold wire_request, send_request, recv_response, io_bind, wire_encode, Ipc.Encode.
  destruct (Ipc.Closed _); [done|]. destruct (_ || _); [done|]. destruct (_ <? _); [done|].
  unfold Resource.AdmitBytes. destruct (_ =? _); [done|]. destruct (_ <? _); [done|]. cbv zeta.
  unfold or_fail, wire_write. cbn [wopen wch win wout wlog]. destruct (wopen w); [|done]. cbn [negb].
  unfold Ipc.WriteFrame. destruct (_ || _); [done|]. cbn [map_err log_request wopen wch win wout wlog]. unfold wire_read. cbn [win].
  destruct (Ipc.ReadFrame (win w) 0) as [[raw rest]|e|] eqn:E; [|done|].
  2:{ unfold Ipc.ReadFrame in E. cbv zeta in E. by repeat case_match. }
  unfold wire_decode. cbn [wch]. pose proof (Ipc.ipc_Decode_outcome (Ipc.sent (wch w) Ipc.TypeRequest) raw) as Hd.
  destruct (Ipc.Decode _ raw) as [[ch f]|[ch e]|]; [by case_if|done|].
  exfalso. apply Hd; [|done..]. destruct Hwf as (W1 & W2 & W3 & W4 & W5). exact (conj W1 (conj (u64_range _) (conj W3 (conj W4 W5)))).
Qed.

Lemma audit_best_effort b peerID w :
  (aup w = true -> link_ok (aaudit w)) ->
  exists audit, ignore (F := Error) (bestEffortPeerAudit obs_text b peerID) w = (mkAuthW (asock w) (ach w) (aopen w) audit (aup w), Ok tt).
Proof.
  intros Hu. unfold ignore, bestEffortPeerAudit. assert (Hx : w = mkAuthW (asock w) (ach w) (aopen w) (aaudit w) (aup w)) by by destruct w.
  case_bool_decide; [exists (aaudit w); by rewrite Hx at 1|]. unfold io_bind. cbn [endpoint Auth_Bridge].
  destruct (aup w) eqn:Eu; cbn [negb]; [|exists (aaudit w); by rewrite Hx at 1].
  unfold RemoteRoles.EmitAuditEvent, io_bind, lift. destruct (Observability.EncodeCanonical _) as [body|e|] eqn:Ee; cbn [map_err].
  - unfold RemoteRoles.request_ok, io_bind, lift. cbn [request Auth_Bridge]. unfold on_audit.
    pose proof (wire_request_total ([RemoteRoles.msgAuditEvent] ++ body) (aaudit w) (Hu eq_refl)) as Hp.
    destruct (wire_request _ (aaudit w)) as [x [resp|e|]]; cbn in Hp; [|exists x; by rewrite Eu|done].
    exists x. rewrite Eu. pose proof (decodeResult_total resp). by destruct (decodeResult resp) as [[[] msg]|e|].
  - exists (aaudit w). by rewrite Hx at 1.
  - exfalso. unfold Observability.EncodeCanonical, Observability.Validate in Ee. cbv zeta in Ee.
    repeat (match type of Ee with context [if ?c then _ else _] => destruct c end; cbn [bind] in Ee; try done).
Qed.

(** *** The two roles *)

Lemma closing_run {A} (c : io AuthW Error A) w w' a : c w = (w', Ok a) -> closing c w = (w', Ok a).
Proof. unfold closing, io_bind, try. by intros ->. Qed.

Lemma duplicate_run msg q out h ch audit up :
  duplicate msg (mkAuthW (mkSock q out h []) ch true audit up) = (mkAuthW (mkSock q out (h + 1) []) ch true audit up, Ok tt).
Proof. done. Qed.

Lemma close_run q out h ch audit up :
  close_conn (mkAuthW (mkSock q out h []) ch true audit up) = (mkAuthW (mkSock q out (h - 1) []) ch true audit up, Ok tt).
Proof. done. Qed.

Lemma send_run c q out h ch audit up :
  send_conn c (mkAuthW (mkSock q out h []) ch true audit up) = (mkAuthW (mkSock q (out ++ [(KeyFDMagic, [c])]) h []) ch true audit up, Ok tt).
Proof. done. Qed.

Lemma recv_run c q out h ch audit up :
  recv_conn (mkAuthW (mkSock ((KeyFDMagic, [c]) :: q) out h []) ch true audit up) = (mkAuthW (mkSock q out (h + 1) []) ch true audit up, Ok c).
Proof. done. Qed.

Ltac run L := etrans; [apply bind_run, L; try done; try lia|cbv beta iota].

(** The socket between the two roles, nothing on it, and both channels in step. *)
Section Session_.
Context (cn ca : Ipc.ChannelState).
Hypothesis Hna : Ipc.paired cn ca.
Hypothesis Han : Ipc.paired ca cn.
Hypothesis Hqa : Ipc.QueueDepth ca < 1024.
Hypothesis Hqn : Ipc.QueueDepth cn < 1024.
Hypothesis Hmn : 1024 <= Ipc.MaxFrame cn.
Hypothesis Hma : 1024 <= Ipc.MaxFrame ca.

Definition asked (conn : Conn) : list (segment Conn) := [(stream (Ipc.wire cn Ipc.TypeRequest [msgHSConn]), []); (KeyFDMagic, [conn])].
Definition served : Ipc.ChannelState := arrived ca Ipc.TypeRequest.
Definition answered (raw : bytes) (conn : Conn) : list (segment Conn) :=
  [(stream (Ipc.wire served Ipc.TypeResponse ([msgHSSeal] ++ raw)), []); (KeyFDMagic, [conn])].

Lemma served_back : Ipc.paired served (Ipc.sent cn Ipc.TypeRequest).
Proof. eapply (channel_back cn ca Ipc.TypeRequest [msgHSConn]); (done || unfold Ipc.TypeRequest; len_lia). Qed.

Lemma net_run conn conn' raw sess h audit up :
  len raw <= 1000 -> 1 <= len raw -> SessionFromSeal raw = Ok sess ->
  exists w, AcceptHandshakeViaAuthIPC conn (mkAuthW (mkSock (answered raw conn') [] h []) cn true audit up) = (w, Ok (conn', sess)) /\
    sout (asock w) = asked conn /\ sin (asock w) = [] /\ held (asock w) = h.
Proof.
  intros Hr Hr1 Hs. set (c1 := Ipc.sent cn Ipc.TypeRequest). set (c2 := arrived c1 Ipc.TypeResponse).
  exists (mkAuthW (mkSock [] (asked conn) h []) c2 true audit up). split; [|done]. unfold AcceptHandshakeViaAuthIPC, answered.
  run duplicate_run. run close_run. etrans; [apply bind_run, closing_run, (request_message cn ca Ipc.TypeRequest [msgHSConn]); (done || unfold Ipc.TypeRequest; len_lia)|cbv beta iota].
  etrans; [apply bind_run, closing_run, send_run|cbv beta iota]. run close_run.
  destruct (receive_message served c1 Ipc.TypeResponse ([msgHSSeal] ++ raw) served_back ltac:(unfold Ipc.TypeResponse; lia) Hqn ltac:(len_lia) Hma
    [(KeyFDMagic, [conn'])] (asked conn) (h + 1 - 1 - 1) audit up) as [R1 R2].
  etrans; [apply bind_run, R1|cbv beta iota]. etrans; [apply bind_run, R2|cbv beta iota].
  change (Ipc.Payload (Ipc.frame_of _ _ ?p)) with p. change (Ipc.Type_ (Ipc.frame_of _ ?t _)) with t.
  replace (_ || _) with false.
  2:{ rewrite (proj2 (Z.ltb_ge _ _)) by len_lia. cbn [head app orb]. by rewrite bool_decide_true by done. }
  etrans; [eapply bind_run; unfold lift; by rewrite skip_front|cbv beta iota]. run recv_run.
  etrans; [apply bind_run, closing_run, duplicate_run|cbv beta iota]. run close_run.
  etrans; [eapply bind_run; unfold lift; by rewrite Hs|cbv beta iota]. unfold ret. do 2 f_equal. f_equal. lia.
Qed.

Lemma auth_run kr conn conn' sess peerID seal raw h audit up :
  AcceptHandshakeKeyring kr conn = (conn', Ok (sess, peerID)) -> sealFromDriver (SDriver sess) = Ok seal -> encodeSeal seal = Ok raw ->
  len raw <= 1000 -> (up = true -> link_ok audit) ->
  exists w, auth_turn obs_text (inr kr) false (mkAuthW (mkSock (asked conn) [] h []) ca true audit up) = (w, Ok true) /\
    sout (asock w) = answered raw conn' /\ sin (asock w) = [] /\ held (asock w) = h.
Proof.
  intros Ha Hs He Hr Hu. set (w1 := mkAuthW (mkSock [] [] (h + 1) []) served true audit up).
  destruct (audit_best_effort true peerID w1 Hu) as [audit' Hb].
  exists (mkAuthW (mkSock [] (answered raw conn') h []) (Ipc.sent served Ipc.TypeResponse) true audit' up). split; [|done]. unfold auth_turn, asked.
  etrans; [apply bind_run, (serve_message cn ca Ipc.TypeRequest [msgHSConn]); (done || unfold Ipc.TypeRequest; len_lia)|cbv beta iota].
  change (_ || _) with false. cbv match. run recv_run. etrans; [apply bind_run, closing_run, duplicate_run|cbv beta iota]. run close_run.
  replace (h + 1 + 1 - 1) with (h + 1) by lia. fold served. fold w1.
  etrans; [eapply bind_run; unfold admit_peer; rewrite Ha; etrans; [apply bind_run, Hb|done]|cbv beta iota].
  etrans; [eapply bind_run; unfold hand_over; rewrite Hs|done].
  etrans; [eapply bind_run, closing_run; unfold lift; by rewrite He|cbv beta iota]. cbn [asock ach aopen aaudit aup w1].
  etrans; [apply bind_run, closing_run, duplicate_run|cbv beta iota]. run close_run.
  etrans; [apply bind_run, closing_run, (respond_message served (Ipc.sent cn Ipc.TypeRequest) Ipc.TypeResponse); [apply served_back|..]; (done || unfold Ipc.TypeResponse; len_lia)|cbv beta iota].
  etrans; [apply bind_run, closing_run, send_run|cbv beta iota]. etrans; [apply close_run|]. do 2 f_equal. f_equal. lia.
Qed.

End Session_.

(** C16. A known peer meets the network role through the authenticating role.  For
    a peer of a valid keyring that dials, and two roles whose channels are in step:
    what the network role asks makes the authenticating role answer, and that
    answer gives the network role a session on the same connection that is in step
    with the peer, without the root key; both roles have read everything and hold
    as many descriptors as before. *)
Theorem auth_handoff kr peerID root sid cn ca hn ha an un aa ua :
  ValidateKeyring kr = Ok tt -> kr !! peerID = Some root -> len sid = 16 ->
  Ipc.paired cn ca -> Ipc.paired ca cn -> Ipc.QueueDepth ca < 1024 -> Ipc.QueueDepth cn < 1024 ->
  1024 <= Ipc.MaxFrame cn -> 1024 <= Ipc.MaxFrame ca -> (ua = true -> link_ok aa) ->
  exists a2b b2a da q r sess wn wa,
    DialHandshake root peerID (Some sid) (mkConn b2a [] []) = (mkConn [] a2b [], Ok (mkSession da (Some root) "push")) /\
    AcceptHandshakeViaAuthIPC (mkConn a2b [] []) (mkAuthW (mkSock r [] hn []) cn true an un) = (wn, Ok (mkConn [] b2a [], sess)) /\
    auth_turn obs_text (inr kr) false (mkAuthW (mkSock q [] ha []) ca true aa ua) = (wa, Ok true) /\
    (sout (asock wn) = q /\ sin (asock wn) = [] /\ held (asock wn) = hn) /\
    (sout (asock wa) = r /\ sin (asock wa) = [] /\ held (asock wa) = ha) /\
    linked da (SDriver sess) /\ SRoot sess = None.
Proof.
  intros Hv Hr Hsid Hna Han Hqa Hqn Hmn Hma Hu.
  destruct (known_peer_meets kr peerID root sid Hv Hr Hsid) as (a2b & b2a & da & db & Hl & _ & Hse & Hd & Ha).
  destruct (seal_continues da db Hl Hse) as (seal & raw & sess & Es & Ee & Hlen & Ess & Hl' & _ & _ & Hroot).
  destruct (net_run cn ca Hna Han Hqa Hqn Hmn Hma (mkConn a2b [] []) (mkConn [] b2a []) raw sess hn an un) as (wn & En & Hn); [lia|lia|done|].
  destruct (auth_run cn ca Hna Han Hqa Hmn Hma kr (mkConn a2b [] []) (mkConn [] b2a []) (mkSession db (Some root) "serve") peerID seal raw ha aa ua)
    as (wa & Ea & Hwa); [done..|lia|done|].
  by exists a2b, b2a, da, (asked cn (mkConn a2b [] [])), (answered ca raw (mkConn [] b2a [])), sess, wn, wa.
Qed.

End Handoff.

(** ** Instances *)

#[local] Existing Instances Crypto.demo_cipher Crypto.demo_cipher_laws RemoteSession.demo_texts RemoteGate.demo_texts.

Definition net_demo : Ipc.ChannelState := Ipc.keyed Authority.RoleNet Authority.RoleAuth.
Definition auth_demo : Ipc.ChannelState := Ipc.keyed Authority.RoleAuth Authority.RoleNet.
Definition audit_demo : ipcWire := mkWire (Ipc.keyed Authority.RoleAuth Authority.RoleAudit) true [] [] [].

Lemma paired_demo_back : Ipc.paired auth_demo net_demo.
Proof.
  split; [apply Ipc.keyed_wf|]. split; [apply Ipc.keyed_wf|]. split; [reflexivity|]. split; [reflexivity|].
  split; [exact Ipc.known_net|]. split; [exact Ipc.known_auth|]. repeat (split; [reflexivity|]). vm_compute. discriminate.
Defined.

(** A turn that hands a connection over. *)
Lemma auth_hands_over_witness :
  exists q w' out c, auth_loop (fun _ => []) 1 (inr keyring_demo) false (mkAuthW (mkSock q [] 0 []) auth_demo true audit_demo false) = (w', Ok true) /\
    sout (asock w') = out /\ out !! 1%nat = Some (KeyFDMagic, [c]) /\ output (inr keyring_demo) out /\ held (asock w') = 0.
Proof.
  destruct (known_peer_meets keyring_demo (str "bob") (byte_of 7 :: zeros 31) (zeros 16)) as (a2b & b2a & da & db & Hl & _ & Hse & _ & Ha); [vm_compute; reflexivity..|].
  destruct (seal_continues da db Hl Hse) as (seal & raw & sess & Es & Ee & Hlen & _).
  destruct (auth_run (fun _ => []) net_demo auth_demo Ipc.paired_demo paired_demo_back eq_refl ltac:(vm_compute; discriminate) ltac:(vm_compute; discriminate)
    keyring_demo (mkConn a2b [] []) (mkConn [] b2a []) _ (str "bob") seal raw 0 audit_demo false Ha Es Ee ltac:(lia) ltac:(done)) as (w' & Et & Ho & _ & _).
  set (q := asked net_demo (mkConn a2b [] [])) in *.
  assert (El : auth_loop (fun _ => []) 1 (inr keyring_demo) false (mkAuthW (mkSock q [] 0 []) auth_demo true audit_demo false) = (w', Ok true)).
  { cbn [auth_loop]. unfold io_bind. by rewrite Et. }
  destruct (auth_hands_over (fun _ => []) 1 (inr keyring_demo) false (mkAuthW (mkSock q [] 0 []) auth_demo true audit_demo false) w' (Ok true) El) as [(out & Hout & Hm) Hh].
  exists q, w', out, (mkConn [] b2a []). cbn [asock sout app] in Hout. split; [exact El|]. split; [exact Hout|]. split; [rewrite <- Hout, Ho; exact eq_refl|].
  split; [exact Hm|]. apply Hh; [|discriminate]. constructor; [by left|]. constructor; [by right|constructor].
Defined.

Lemma auth_handoff_witness :
  exists a2b b2a da q r sess wn wa,
    DialHandshake (zeros 32) (str "alice") (Some (zeros 16)) (mkConn b2a [] []) = (mkConn [] a2b [], Ok (mkSession da (Some (zeros 32)) "push")) /\
    AcceptHandshakeViaAuthIPC (mkConn a2b [] []) (mkAuthW (mkSock r [] 1 []) net_demo true audit_demo false) = (wn, Ok (mkConn [] b2a [], sess)) /\
    auth_turn (fun _ => []) (inr keyring_demo) false (mkAuthW (mkSock q [] 0 []) auth_demo true audit_demo true) = (wa, Ok true) /\
    (sout (asock wn) = q /\ sin (asock wn) = [] /\ held (asock wn) = 1) /\
    (sout (asock wa) = r /\ sin (asock wa) = [] /\ held (asock wa) = 0) /\
    linked da (SDriver sess) /\ SRoot sess = None.
Proof.
  apply (auth_handoff (fun _ => []) keyring_demo (str "alice") (zeros 32) (zeros 16) net_demo auth_demo 1 0 audit_demo false audit_demo true).
  - vm_compute. reflexivity.
  - vm_compute. reflexivity.
  - reflexivity.
  - apply Ipc.paired_demo.
  - apply paired_demo_back.
  - reflexivity.
  - reflexivity.
  - vm_compute. discriminate.
  - vm_compute. discriminate.
  - intros _. split; [apply Ipc.keyed_wf|]. split; apply (bool_decide_unpack _); vm_compute; exact I.
Defined.



End AuthRole.
