(* ===== verification/RemoteApply.v ===== *)
(** * The apply role (internal/remotesync: ipc_apply.go)

    The loop that serves the requests of a push on the receiving store: it stages
    directories and files, verifies them and commits.  [apply_contained] says that
    whatever requests arrive, in whatever order, nothing outside the staging
    directories changes before a commit is asked for. *)

From stdpp Require Import gmap.
From S2P Require Import Prelude Sha256 Codec Observability Journal PathGrammar FilePath FileSystem.
From S2P Require Import LocalPayload LocalPlan LocalApply LocalScan LocalSession LocalSync LocalResume.
From S2P Require Import RemoteMessages RemoteWire RemoteGate RemoteStore RemoteServe RemoteRoles.
Import Codec PathGrammar FilePath FileSystem LocalPlan LocalApply LocalSession LocalSync LocalResume RemoteMessages RemoteWire RemoteStore.

Module RemoteApply.

Section Apply.
Context {W : Type} `{FileSystem W} `{Staging W} `{Bridge W} `{MetaJSON} `{ErrorTexts}.
Abbreviation IO := (io (W * localStore) Error).

(** [if err := c; err != nil { _ = wire.respond(mustResult(false, err.Error())); return err }]. *)
Definition or_refuse {A} (c : IO A) : IO A :=
  let* r := try c in
  match r with
  | inl a => ret a
  | inr e => fs (RemoteGate.refuse e)
  end.

Definition say_ok : IO unit := fs (respond (mustResult true (str "ok"))).

Definition on_file_end (req : bytes) : IO unit :=
  let* (rel, dig) := or_refuse (lift (decodeFileEnd req)) in
  let* s := get in
  if negb (active s) then
    if negb (bool_decide (rel = BRel (lastBegin s))) || negb (bool_decide (dig = BDigest (lastBegin s)))
    then fs (RemoteGate.refuse (fail KindProtocol (str "file end mismatch")))
    else say_ok
  else
    let* _ := or_refuse (endFile rel dig) in
    say_ok.

(** A request that is not a commit. *)
Definition on_request (op : Byte.byte) (req : bytes) : IO unit :=
  if bool_decide (op = msgManifest) then
    let* entries := or_refuse (lift (decodeManifest req)) in
    let* _ := or_refuse (prepareDirs entries) in
    fs (respond encodeManifestOK)
  else if bool_decide (op = msgFile) then
    let* fw := or_refuse (lift (decodeFile req)) in
    let* _ := or_refuse (stageLegacy fw) in
    say_ok
  else if bool_decide (op = msgFileBegin) then
    let* begin := or_refuse (lift (decodeFileBegin req)) in
    let* off := or_refuse (beginFile begin) in
    fs (respond (encodeFileAck off))
  else if bool_decide (op = msgFileChunk) then
    let* (coff, data) := or_refuse (lift (decodeFileChunk req)) in
    let* _ := or_refuse (writeChunk coff data) in
    let* s := get in
    fs (respond (encodeFileAck (off s)))
  else if bool_decide (op = msgFileEnd) then on_file_end req
  else if bool_decide (op = msgDestManifest) then
    let* entries := or_refuse (lift (decodeDestManifest req)) in
    let* _ := setDestManifest entries in
    say_ok
  else if bool_decide (op = msgIPCAbort) then
    let* _ := persistActive in
    let* _ := fs (RemoteGate.answer (str "aborted")) in
    throw (fail KindTransport (str "peer aborted transfer"))
  else
    let msg := str "unknown ipc op " ++ itoa (byteZ op) in
    let* _ := fs (RemoteGate.answer msg) in
    throw (fail KindProtocol msg).

(** One turn: [true] when a commit is asked for. *)
Definition apply_turn : IO bool :=
  let* r := try (fs readRequest) in
  match r with
  | inr e => let* _ := persistActive in throw e
  | inl [] => let* _ := fs (RemoteGate.answer (str "empty ipc request")) in ret false
  | inl (op :: tl) =>
      if bool_decide (op = msgCommit) then ret true else
      let* _ := on_request op (op :: tl) in ret false
  end.

(** The loop up to the commit: [true] when one is asked for, [false] after [n] turns. *)
Fixpoint apply_transfers (n : nat) : IO bool :=
  match n with
  | O => ret false
  | S n =>
      let* fin := apply_turn in
      if fin : bool then ret true else apply_transfers n
  end.

(** The events that the audit role is sent, best effort. *)
Definition bestEffortAudit (obs_text : Observability.Error -> bytes) (audit : bool) (e : Observability.Event) : IO unit :=
  if audit then fs (RemoteRoles.EmitAuditEvent obs_text e) else ret tt.

(** [commit] is the store's commit with the journal of the role. *)
Definition on_commit (obs_text : Observability.Error -> bytes) (audit done_ : bool) (commit : IO unit) : IO unit :=
  let* r := try commit in
  match r with
  | inr cerr =>
      let* _ := ignore (bestEffortAudit obs_text audit (RemoteRoles.auditCommitEvent false)) in
      fs (RemoteGate.refuse cerr)
  | inl _ =>
      let* ok := lift (encodeResult true (str "ok")) in
      let* _ := fs (respond ok) in
      let* _ := ignore (bestEffortAudit obs_text audit (RemoteRoles.auditCommitEvent true)) in
      if done_ && audit then ignore (fs RemoteRoles.EmitAuditDone) else ret tt
  end.

(** [ServeApplyIPCExtras] on an open store, closed on every path; [false] when the
    loop is still running after [n] turns. *)
Definition ServeApplyIPCExtras (obs_text : Observability.Error -> bytes) (audit done_ : bool) (commit : IO unit) (n : nat) : IO bool := fun ws =>
  let '(ws, r) := (let* fin := apply_transfers n in
    if negb fin then ret false else let* _ := on_commit obs_text audit done_ commit in ret true) ws in
  match r with Ok false => (ws, r) | _ => let '(ws, _) := close ws in (ws, r) end.

End Apply.

(** ** Containment *)

(** The link to the other roles does not touch the tree. *)
Class LinkLaws (W : Type) `{FileSystemLaws W} `{Bridge W} := {
  read_view w w' r : readRequest w = (w', r) -> view w' = view w /\ r <> Panic;
  respond_view w w' r p : respond p w = (w', r) -> view w' = view w /\ r <> Panic }.

Section Containment.
Context {W : Type} `{StagingLaws W} `{Bridge W} `{!LinkLaws W} `{MetaJSON} `{ErrorTexts}.
Context (sd pd : list bytes).
Hypothesis plain_sd : Forall plain sd.
Hypothesis plain_pd : Forall plain pd.
Hypothesis apart : ~ sd `prefix_of` pd /\ ~ pd `prefix_of` sd.
Hypothesis proper_requests : forall w w' p, readRequest w = (w', Ok p) -> RemoteServe.proper_message p.

Abbreviation World := (W * localStore)%type.
Abbreviation contained := (evolves (RemoteServe.staging_area sd pd) (RemoteServe.above_staging sd pd)).

(** Between requests: no file is active, or one is being received. *)
Definition busy (v : tree) (s : localStore) : Prop :=
  idle sd pd v s \/
  exists ds c d, Forall plain ds /\ plain c /\ receiving sd pd ds c v s d /\ linkfree sd pd v.

Lemma busy_store v s : busy v s -> staging_store sd pd s /\ linkfree sd pd v.
Proof. intros [(? & _ & ?)|(ds & c & d & _ & _ & (? & _) & ?)]; done. Qed.

(** What a request leaves. *)
Definition left_by (w0 : W) (ws : World) (r : res Error unit) : Prop :=
  contained (view w0) (view ws.1) /\ r <> Panic /\ (r = Ok tt -> busy (view ws.1) ws.2).

Lemma wp_link {A} (c : io W Error A) (Q : World -> res Error A -> Prop) w s :
  (forall w' r, c w = (w', r) -> view w' = view w /\ r <> Panic) ->
  (forall w' r, view w' = view w -> r <> Panic -> Q (w', s) r) -> wp (fs c) Q (w, s).
Proof. intros Hc HQ. apply wp_fs, wp_call. intros w' r [Hv Hr]%Hc. by apply HQ. Qed.

Lemma answer_view msg w w' r : RemoteGate.answer msg w = (w', r) -> view w' = view w /\ r <> Panic.
Proof.
  unfold RemoteGate.answer, ignore. destruct (respond _ w) as [w1 r1] eqn:E. apply respond_view in E as [Hv Hr]. intros [= <- <-]. by destruct r1.
Qed.

Lemma refuse_view {A} e w w' (r : res Error A) : RemoteGate.refuse e w = (w', r) -> view w' = view w /\ exists e', r = Err e'.
Proof.
  unfold RemoteGate.refuse, io_bind. destruct (RemoteGate.answer _ w) as [w1 r1] eqn:E. apply answer_view in E as [Hv Hr].
  destruct r1; [|intros [= <- <-]; eauto|done]. intros [= <- <-]. eauto.
Qed.

Lemma wp_or_refuse {A} (c : io World Error A) (Q : World -> res Error A -> Prop) w s :
  wp c (fun ws r => match r with Panic => Q ws Panic | Ok a => Q ws (Ok a)
    | Err _ => forall w' e, view w' = view ws.1 -> Q (w', ws.2) (Err e) end) (w, s) -> wp (or_refuse c) Q (w, s).
Proof.
  intros Hc. apply wp_bind, wp_try. eapply wp_mono; [exact Hc|]. intros [w1 s1] r Hr. destruct r as [a|e|]; [done| |done].
  apply wp_fs, wp_call. intros w2 r2 [Hv [e' ->]]%refuse_view. by apply Hr.
Qed.

Lemma wp_say (p : bytes) w0 w s :
  contained (view w0) (view w) -> busy (view w) s -> wp (fs (respond p)) (left_by w0) (w, s).
Proof.
  intros Hc Hb. apply wp_link; [intros; by eapply respond_view|]. intros w1 r1 Hv Hr. unfold left_by. cbn. rewrite Hv. by split_and!.
Qed.

Lemma left_err w0 w s e : contained (view w0) (view w) -> left_by w0 (w, s) (Err e).
Proof. intros Hc. by split_and!. Qed.

(** A decoded request; what the decoder refuses changes nothing. *)
Lemma wp_decode {A} (r : res Error A) (k : A -> io World Error unit) w0 w s :
  r <> Panic -> contained (view w0) (view w) -> (forall a, r = Ok a -> wp (k a) (left_by w0) (w, s)) ->
  wp (let* a := or_refuse (lift r) in k a) (left_by w0) (w, s).
Proof.
  intros Hr Hc Hk. apply wp_bind, wp_or_refuse, wp_lift. destruct r as [a|e|]; [by apply Hk| |done].
  intros w' e' Hv. apply left_err. cbn in Hv. by rewrite Hv.
Qed.

(** Changes in the staging tree keep a transfer. *)
Lemma part_not_staged ds c : ~ sd `prefix_of` partP pd ds c.
Proof.
  unfold partP. rewrite <- app_assoc. intros Hp. destruct (prefix_weak_total sd pd _ Hp) as [?|?]; [by apply prefix_app_r|tauto..].
Qed.

Lemma busy_stages v v' s : evolves (fun q => sd `prefix_of` q) (fun q => RemoteServe.staging_area sd pd q \/ RemoteServe.above_staging sd pd q) v v' ->
  busy v s -> busy v' s.
Proof.
  intros He [(Hs & Ha & Hl)|(ds & c & d & Hds & Hc & (Hs & Ha & Hb & Hp & [m Hm] & Hpf & Ho) & Hl)]; [left|right].
  - split_and!; [done..|]. by eapply linkfree_evolves.
  - exists ds, c, d. split; [done|]. split; [done|]. split; [|by eapply linkfree_evolves]. split_and!; try done. exists m.
    eapply evolves_keep; [exact He| |done]. apply part_not_staged.
Qed.

Lemma wp_on_manifest req w s :
  RemoteServe.proper_message req -> busy (view w) s ->
  wp (let* entries := or_refuse (lift (decodeManifest req)) in let* _ := or_refuse (prepareDirs entries) in fs (respond encodeManifestOK)) (left_by w) (w, s).
Proof.
  intros (_ & _ & Hp) Hb. destruct (busy_store _ _ Hb) as [[Hs _] Hl]. pose proof (decodeManifest_inv req) as Hd.
  apply wp_decode; [by intros E; rewrite E in Hd|apply evolves_refl|]. intros es Ees.
  apply wp_bind, wp_or_refuse, wp_bind, wp_get, wp_fs. rewrite Hs. apply (RemoteServe.wp_prepare_loop sd pd plain_sd); [by intros e; apply Hp|done|].
  intros w1 r1 Hr1 He1. pose proof (RemoteServe.stages_contained _ _ _ _ He1) as Hc1. destruct r1 as [[]|e|]; [| |done].
  - apply wp_say; [done|]. by eapply busy_stages.
  - intros w2 e' Hv2. apply left_err. cbn in Hv2. by rewrite Hv2.
Qed.

Lemma wp_on_file req w s :
  RemoteServe.proper_message req -> busy (view w) s ->
  wp (let* fw := or_refuse (lift (decodeFile req)) in let* _ := or_refuse (stageLegacy fw) in say_ok) (left_by w) (w, s).
Proof.
  intros (_ & Hp & _) Hb. destruct (busy_store _ _ Hb) as [[Hs _] Hl]. pose proof (decodeFile_inv req) as Hd.
  apply wp_decode; [by intros E; rewrite E in Hd|apply evolves_refl|]. intros fw Efw.
  apply wp_bind, wp_or_refuse, wp_bind, wp_get, wp_fs. rewrite Hs. apply (RemoteServe.wp_stage_file sd pd plain_sd plain_pd); [by apply Hp|done|].
  intros w1 r1 Hr1 He1. pose proof (RemoteServe.stages_contained _ _ _ _ He1) as Hc1. destruct r1 as [[]|e|]; [| |done].
  - apply wp_say; [done|]. by eapply busy_stages.
  - intros w2 e' Hv2. apply left_err. cbn in Hv2. by rewrite Hv2.
Qed.

Lemma wp_on_begin req w s :
  RemoteServe.proper_message req -> busy (view w) s ->
  wp (let* b := or_refuse (lift (decodeFileBegin req)) in let* off := or_refuse (beginFile b) in fs (respond (encodeFileAck off))) (left_by w) (w, s).
Proof.
  intros (Hp & _) Hb. pose proof (decodeFileBegin_inv req) as Hd.
  apply wp_decode; [by intros E; rewrite E in Hd|apply evolves_refl|]. intros b Eb. destruct (Hp b Eb) as (ds & c & Hds & Hc & Hrel).
  apply wp_bind, wp_or_refuse. destruct Hb as [Hi|(ds' & c' & d & _ & _ & (_ & Ha & _) & _)].
  - apply (wp_beginFile sd pd ds c); [done..|]. intros w1 s1 r1 Hr1 He1 Hst1 Hres. destruct Hi as (_ & _ & Hl).
    pose proof (linkfree_evolves _ _ _ _ _ _ He1 Hl) as Hl1. assert (Hc1 : contained (view w) (view w1)).
    { eapply (RemoteServe.transfer_contained sd pd ds c), RemoteServe.partial_transfer, He1. }
    destruct r1 as [off|e|]; [| |done].
    + apply wp_say; [done|]. destruct Hres as [(Ha & _)|(d & Hrec & _)]; [by left|right]. by exists ds, c, d.
    + intros w2 e' Hv2. apply left_err. cbn in Hv2. by rewrite Hv2.
  - unfold beginFile. apply wp_bind, wp_get. rewrite Ha. apply wp_throw. intros w2 e' Hv2. apply left_err. cbn in Hv2. rewrite Hv2. apply evolves_refl.
Qed.

Lemma wp_on_chunk req w s : busy (view w) s ->
  wp (let* (coff, data) := or_refuse (lift (decodeFileChunk req)) in let* _ := or_refuse (writeChunk coff data) in
      let* s := get in fs (respond (encodeFileAck (off s)))) (left_by w) (w, s).
Proof.
  intros Hb. pose proof (decodeFileChunk_inv req) as Hd. apply wp_decode; [by intros E; rewrite E in Hd|apply evolves_refl|]. intros [coff data] _.
  apply wp_bind, wp_or_refuse. destruct Hb as [(_ & Ha & _)|(ds & c & d & Hds & Hc & Hrec & Hl)].
  - unfold writeChunk. apply wp_bind, wp_get. rewrite Ha. apply wp_throw. intros w2 e' Hv2. apply left_err. cbn in Hv2. rewrite Hv2. apply evolves_refl.
  - eapply (wp_writeChunk sd pd ds c); [done..|exact Hrec|done|]. intros w1 s1 r1 Hr1 He1 _ Hres.
    assert (Hc1 : contained (view w) (view w1)).
    { eapply (RemoteServe.transfer_contained sd pd ds c), RemoteServe.partial_transfer, He1. }
    destruct r1 as [[]|e|]; [| |done].
    + destruct Hres as [_ Hrec1]. apply wp_bind, wp_get, wp_say; [done|]. right. exists ds, c, (d ++ data). split_and!; try done. by eapply linkfree_evolves.
    + intros w2 e' Hv2. apply left_err. cbn in Hv2. by rewrite Hv2.
Qed.

(** The end of a file: what is being received is staged with its digest. *)
Lemma wp_on_file_end req w s : busy (view w) s -> wp (on_file_end req) (left_by w) (w, s).
Proof.
  intros Hb. pose proof (decodeFileEnd_inv req) as Hd. apply wp_decode; [by intros E; rewrite E in Hd|apply evolves_refl|]. intros [rel dig] _.
  apply wp_bind, wp_get. destruct Hb as [Hi|(ds & c & d & Hds & Hc & Hrec & Hl)].
  - pose proof Hi as (_ & Ha & _). rewrite Ha. cbn [negb]. wp_if.
    + apply wp_fs, wp_call. intros w2 r2 [Hv [e' ->]]%refuse_view. apply left_err. rewrite Hv. apply evolves_refl.
    + apply wp_say; [apply evolves_refl|by left].
  - pose proof Hrec as (_ & Ha & _). rewrite Ha. cbn [negb]. apply wp_bind, wp_or_refuse.
    eapply (wp_endFile sd pd ds c); [done..|exact Hrec|done|]. intros w1 s1 r1 Hr1 He1 Hst1 Hres.
    pose proof (RemoteServe.transfer_contained sd pd ds c _ _ He1) as Hc1. destruct r1 as [[]|e|]; [| |done].
    + apply wp_say; [done|]. left. destruct Hres as (Ha1 & _). split_and!; [done..|]. by eapply linkfree_evolves.
    + intros w2 e' Hv2. apply left_err. cbn in Hv2. by rewrite Hv2.
Qed.

Lemma decodeDestManifest_total p : decodeDestManifest p <> Panic.
Proof.
  unfold decodeDestManifest. destruct (not_msg _ _ _) eqn:E; [done|]. apply not_msg_inv in E as [_ [r ->]]; [|lia].
  front_step [msgDestManifest] r 1. pose proof (decodeManifest_inv ([msgManifest] ++ r)) as Hd. intros E. by rewrite E in Hd.
Qed.

(** What a failed read or an abort leaves. *)
Lemma busy_persist (Q : World -> res Error unit -> Prop) w s :
  busy (view w) s -> (forall w', contained (view w) (view w') -> Q (w', s) (Ok tt)) -> wp persistActive Q (w, s).
Proof.
  intros [Hi|(ds & c & d & Hds & Hc & Hrec & Hl)] HQ.
  - eapply RemoteServe.idle_persist; [done|]. apply HQ, evolves_refl.
  - pose proof Hrec as (Hst & _ & Hb & _). apply (wp_persistActive sd pd ds c); [done..|]. intros w' He. apply HQ.
    by eapply RemoteServe.transfer_contained, RemoteServe.partial_transfer, resume_partial.
Qed.

Lemma wp_answer msg (Q : World -> res Error unit -> Prop) w s :
  (forall w' r, view w' = view w -> r <> Panic -> Q (w', s) r) -> wp (fs (RemoteGate.answer msg)) Q (w, s).
Proof. apply wp_link. intros *. apply answer_view. Qed.

Lemma wp_on_request op req w s :
  RemoteServe.proper_message req -> busy (view w) s -> wp (on_request op req) (left_by w) (w, s).
Proof.
  intros Hp Hb. unfold on_request. wp_if; [by apply wp_on_manifest|]. wp_if; [by apply wp_on_file|]. wp_if; [by apply wp_on_begin|].
  wp_if; [by apply wp_on_chunk|]. wp_if; [by apply wp_on_file_end|]. wp_if.
  { apply wp_decode; [apply decodeDestManifest_total|apply evolves_refl|]. intros es _.
    unfold setDestManifest. apply wp_bind, wp_bind, wp_get, wp_put, wp_say; [apply evolves_refl|]. exact Hb. }
  wp_if.
  { apply wp_bind, busy_persist; [done|]. intros w1 Hc1. apply wp_bind, wp_answer. intros w2 r2 Hv2 Hr2. rewrite <- Hv2 in Hc1.
    destruct r2 as [[]|e|]; [|by apply left_err|done]. apply wp_throw. by apply left_err. }
  cbv zeta. apply wp_bind, wp_answer. intros w2 r2 Hv2 Hr2. assert (Hc2 : contained (view w) (view w2)) by (by apply evolves_eq).
  destruct r2 as [[]|e|]; [|by apply left_err|done]. apply wp_throw. by apply left_err.
Qed.

(** What the loop leaves. *)
Definition turned (w0 : W) (ws : World) (r : res Error bool) : Prop :=
  contained (view w0) (view ws.1) /\ r <> Panic /\ (forall b, r = Ok b -> busy (view ws.1) ws.2).

Lemma wp_apply_turn w s : busy (view w) s -> wp apply_turn (turned w) (w, s).
Proof.
  intros Hb. apply wp_bind, wp_try, wp_fs, wp_call. intros w1 r1 E1. pose proof E1 as [Hv1 Hr1]%read_view.
  rewrite <- Hv1 in Hb. assert (Hc1 : contained (view w) (view w1)) by (by apply evolves_eq). destruct r1 as [req|e|]; [| |done].
  2: { apply wp_bind, busy_persist; [done|]. intros w2 Hc2. apply wp_throw. split_and!; [by eapply evolves_trans|done..]. }
  apply proper_requests in E1. destruct req as [|op tl].
  { apply wp_bind, wp_answer. intros w2 r2 Hv2 Hr2. rewrite <- Hv2 in Hc1, Hb. destruct r2 as [[]|e|]; [apply wp_ret| |done]; by split_and!. }
  wp_if; [apply wp_ret; by split_and!|]. apply wp_bind. eapply wp_mono; [by apply wp_on_request|].
  intros [w2 s2] r2 (Hc2 & Hr2 & Hok2). cbn in *. assert (Hc : contained (view w) (view w2)) by (by eapply evolves_trans).
  destruct r2 as [[]|e|]; [apply wp_ret| |done]; split_and!; try done. intros b _. by apply Hok2.
Qed.

(** C21. The apply role keeps to its staging directories.  Whatever requests the other
    roles relay, in whatever order (chunks of no file, a second begin before the end of
    the first, an end of another file, an unknown or an empty request, an abort), as long
    as they name relative paths of proper components: until a commit is asked for, nothing
    outside the two staging directories changes but missing directories above them, no
    call panics, and between two requests the store either is idle or is receiving one
    file, of which its offset says how much is in the partial file. *)
Theorem apply_contained n w s w' s' r :
  busy (view w) s -> apply_transfers n (w, s) = ((w', s'), r) ->
  contained (view w) (view w') /\ r <> Panic /\ (forall fin, r = Ok fin -> busy (view w') s').
Proof.
  intros Hb E. assert (Hk : wp (apply_transfers n) (turned w) (w, s)); [|exact (wp_run _ _ _ _ _ Hk E)]. clear E. revert w s Hb.
  induction n as [|n IH]; intros w s Hb; cbn [apply_transfers]; [apply wp_ret; split_and!; [apply evolves_refl|done..]|].
  apply wp_bind. eapply wp_mono; [by apply wp_apply_turn|]. intros [w1 s1] r1 (Hc1 & Hr1 & Hok1). cbn in *.
  destruct r1 as [fin|e|]; [|by split_and!|done]. specialize (Hok1 _ eq_refl). destruct fin; [apply wp_ret; by split_and!|].
  eapply wp_mono; [by apply IH|]. intros [w2 s2] r2 (Hc2 & Hr2 & Hok2). cbn in *. split_and!; [by eapply evolves_trans|done..].
Qed.

End Containment.

End RemoteApply.
