(* ===== verification/JournalRole.v ===== *)
(** * The journal role (internal/remotesync/journal_ipc.go)

    The apply role of a push has no journal of its own: it asks the journal role,
    which owns the file, over an authenticated link.  [IPCJournalSession] is the
    asking side and [journal_turn] the loop of the role that answers.  The link may
    lose a request, lose the response to a request that was carried out, and the role
    may end; [IPCJournal_refines] says what the asking side gets over a link that
    delivers, and [IPCJournal_laws] that over any link the pair is a
    [JournalSession], so that what LocalSync.v and LocalResume.v prove of a
    synchronization holds of one whose journal is behind a link. *)

From stdpp Require Import gmap.
From S2P Require Import Prelude Sha256 Codec Observability Ipc Journal FileSystem LocalPayload LocalSession.
From S2P Require Import RemoteMessages RemoteWire RemoteGate RemoteRoles.
Import Codec FileSystem LocalSession RemoteMessages RemoteWire RemoteGate RemoteRoles.

Module JournalRole.

Definition msgJrnOpen : Byte.byte := byte_of 0xd0.
Definition msgJrnAppend : Byte.byte := byte_of 0xd1.
Definition msgJrnClose : Byte.byte := byte_of 0xd2.

Definition maxJrnPrefixBytes : Z := Z.shiftl 8 20.

(** What becomes of a request: it is carried out and answered; it does not arrive; it
    is carried out and the answer does not arrive; the role ends before it. *)
Inductive fate := Delivered | LostRequest | LostResponse | RoleEnded.

(** ** The role *)

Section Role.
Context {F A : Type} `{Journal.OSFile F} `{OSFileStat F} `{Endpoint A} `{ErrorTexts}.

(** The role: its session, its variable [opened], the audit role behind it ([has_audit]
    when there is a link to it), whether its process runs, the request that it works on
    and its response; and what the link will do to the next requests. *)
Record JournalLink := mkLink {
  sess : fileJournalSession F;
  opened : bool;
  has_audit : bool;
  auditor : A;
  alive : bool;
  jinbox : option bytes;
  joutbox : option bytes;
  fates : list fate }.

Definition set_sess (s : fileJournalSession F) (w : JournalLink) : JournalLink :=
  mkLink s (opened w) (has_audit w) (auditor w) (alive w) (jinbox w) (joutbox w) (fates w).
Definition set_opened (b : bool) (w : JournalLink) : JournalLink :=
  mkLink (sess w) b (has_audit w) (auditor w) (alive w) (jinbox w) (joutbox w) (fates w).
Definition set_auditor (a : A) (w : JournalLink) : JournalLink :=
  mkLink (sess w) (opened w) (has_audit w) a (alive w) (jinbox w) (joutbox w) (fates w).
Definition set_alive (b : bool) (w : JournalLink) : JournalLink :=
  mkLink (sess w) (opened w) (has_audit w) (auditor w) b (jinbox w) (joutbox w) (fates w).
Definition set_boxes (i o : option bytes) (w : JournalLink) : JournalLink :=
  mkLink (sess w) (opened w) (has_audit w) (auditor w) (alive w) i o (fates w).
Definition set_fates (fs : list fate) (w : JournalLink) : JournalLink :=
  mkLink (sess w) (opened w) (has_audit w) (auditor w) (alive w) (jinbox w) (joutbox w) fs.

Abbreviation IO := (io JournalLink Error).

Definition too_large : Error := Foreign (str "ipc encode").

(** A frame carries at most [MaxFrameBytes] bytes. *)
#[global] Instance JournalLink_Bridge : Bridge JournalLink := {
  readRequest w :=
    match jinbox w with
    | Some p => (set_boxes None (joutbox w) w, Ok p)
    | None => (w, Err closed_link)
    end;
  respond p w := if Ipc.MaxFrameBytes <? len p then (w, Err too_large) else (set_boxes (jinbox w) (Some p) w, Ok tt);
  endpoint w := (w, Ok (has_audit w));
  request p w := let '(a, r) := rpc p (auditor w) in (set_auditor a w, r) }.

Definition on_sess {B} (c : io (fileJournalSession F) LocalPayload.Error B) : io JournalLink LocalPayload.Error B := fun w =>
  let '(s, r) := c (sess w) in (set_sess s w, r).

(** [AcceptedPrefixBytes] (internal/localsync/journal_session.go): a full read of the first
    [n] bytes of the segment. *)
Definition AcceptedPrefixBytes (n : Z) : io (fileJournalSession F) LocalPayload.Error bytes := fun s =>
  if n <=? 0 then (s, Ok []) else
  match sw s with
  | None => (s, Err (LocalPayload.wrap LocalPayload.KindInternal "journal" [] (LocalPayload.TextError "journal closed")))
  | Some w =>
      let '(buf, err) := Journal.ReadAt (Journal.seg w) n 0 in
      if len buf <? n
      then (s, Err (LocalPayload.wrap LocalPayload.KindInternal "journal" [] (LocalPayload.TextError "read")))
      else (s, Ok buf)
  end.

(** [if err != nil { _ = wire.respond(mustResult(false, err.Error())); return err }]. *)
Definition or_refuse_local {B} (c : io JournalLink LocalPayload.Error B) : IO B :=
  let* r := try c in
  match r with
  | inl b => ret b
  | inr e => refuse (Foreign (local_text e))
  end.

Definition close_opened : IO unit := fun w =>
  if opened w then
    let '(w, r) := ignore (F := Error) (on_sess SClose) w in
    (set_opened false w, r)
  else (w, Ok tt).

Definition journal_open : IO bool :=
  let* _ := close_opened in
  let* prefix := or_refuse_local (on_sess session_prefix) in
  let* _ := fun w => (set_opened true w, Ok tt) in
  if maxJrnPrefixBytes <? Journal.Bytes prefix then refuse (fail KindProtocol (str "journal prefix too large")) else
  let* raw := or_refuse_local (on_sess (AcceptedPrefixBytes (Journal.Bytes prefix))) in
  let* _ := respond ([msgJrnOpen] ++ le_bytes 4 (u32 (len raw)) ++ raw) in
  ret true.

Definition journal_append (req : bytes) : IO bool := fun w =>
  (if negb (opened w) then let* _ := answer (str "journal not open") in ret true else
   if len req <? 1 + 16 + 2 then let* _ := answer (str "short journal append") in ret true else
   let id := sub req 1 17 in
   let t := le_val (sub req 17 19) in
   let payload := sub req 19 (len req) in
   let* _ := or_refuse_local (on_sess (SAppend id t payload)) in
   let* _ := respond (mustResult true (str "ok")) in
   ret true) w.

Definition journal_close : IO bool :=
  let* _ := close_opened in
  let* _ := respond (mustResult true (str "ok")) in
  ret true.

Definition journal_audit (once : bool) (req : bytes) : IO bool :=
  let stop := once && bool_decide (head req = Some msgAuditDone) in
  let* ok := endpoint in
  if negb ok then let* _ := ignore (respond (mustResult true (str "audit disabled"))) in ret (negb stop) else
  let* r := try (request req) in
  match r with
  | inr _ => let* _ := ignore (respond (mustResult true (str "audit relay failed"))) in ret (negb stop)
  | inl resp => let* _ := respond resp in ret (negb stop)
  end.

(** One turn of [ServeJournalIPC]; [false] when it returns nil. *)
Definition journal_turn (once : bool) : IO bool :=
  let* req := readRequest in
  match req with
  | [] => let* _ := answer (str "empty journal request") in ret true
  | op :: _ =>
      if bool_decide (op = msgJrnOpen) then journal_open
      else if bool_decide (op = msgJrnAppend) then journal_append req
      else if bool_decide (op = msgJrnClose) then journal_close
      else if bool_decide (op = msgAuditEvent) || bool_decide (op = msgAuditDone) then journal_audit once req
      else
        let* _ := answer (str "unknown journal op") in
        throw (fail KindProtocol (str "unknown journal op " ++ itoa (byteZ op)))
  end.

(** The end of the role: its session is closed. *)
Definition end_role (w : JournalLink) : JournalLink := set_alive false (set_sess (SClose (sess w)).1 w).

(** A request of the apply role, with what the link does to it. *)
Definition link_request (once : bool) (p : bytes) : IO bytes := fun w =>
  if Ipc.MaxFrameBytes <? len p then (w, Err too_large) else
  let fate := match fates w with [] => Delivered | f :: _ => f end in
  let w := set_fates (tail (fates w)) w in
  if negb (alive w) then (w, Err closed_link) else
  match fate with
  | LostRequest => (w, Err closed_link)
  | RoleEnded => (end_role w, Err closed_link)
  | _ =>
      let '(w, r) := journal_turn once (set_boxes (Some p) None w) in
      let out := joutbox w in
      let w := set_boxes None None w in
      let w := match r with Ok true => w | _ => end_role w end in
      match fate, out with
      | Delivered, Some resp => (w, Ok resp)
      | _, _ => (w, Err closed_link)
      end
  end.

(** ** The asking side *)

Context (once : bool).

(** What [Open] makes of the response. *)
Definition open_result (resp : bytes) : res Error Journal.Prefix :=
  if (len resp <? 1 + 4) || negb (bool_decide (head resp = Some msgJrnOpen)) then
    match decodeResult resp with
    | Ok (false, msg) => Err (fail KindProtocol msg)
    | Panic => Panic
    | _ => Err (fail KindProtocol (str "bad journal open response"))
    end
  else
    let n := le_val (sub resp 1 5) in
    if (maxJrnPrefixBytes <? n) || (len resp <? 5 + n) then Err (fail KindProtocol (str "bad journal open length")) else
    map_err (fun e => Foreign (local_text (LocalPayload.JournalError e))) (Journal.ReadPrefixBytes (sub resp 5 (5 + n))).

Definition IPC_Open : IO Journal.Prefix :=
  let* resp := link_request once [msgJrnOpen] in
  lift (open_result resp).

(** A request whose response is a result; [k] is the kind of a refusal. *)
Definition result_of (k : Kind) (p : bytes) : IO unit :=
  let* resp := link_request once p in
  let* (ok, msg) := lift (decodeResult resp) in
  if negb ok then throw (fail k msg) else ret tt.

Definition IPC_Append (id : bytes) (t : Z) (payload : bytes) : IO unit :=
  if negb (ValidRecordType t) then throw (fail KindInvalidArgument (str "invalid journal record type")) else
  if MaxPayloadBytes <? len payload then throw (fail KindInvalidArgument (str "journal payload too large")) else
  result_of KindApply ([msgJrnAppend] ++ id ++ le_bytes 2 (u16 t) ++ payload).

Definition IPC_Close : IO unit := result_of KindProtocol [msgJrnClose].

End Role.

Arguments JournalLink F A : clear implicits.

(** The error that the synchronization sees. *)
Definition as_local (e : Error) : LocalPayload.Error := LocalPayload.TextError (String.string_of_list_byte (error_text e)).

Definition IPCJournalSession {F A} `{Journal.OSFile F} `{OSFileStat F} `{Endpoint A} `{ErrorTexts} (once : bool) : JournalSession (JournalLink F A) := {|
  SOpen := or_fail (let* p := IPC_Open once in ret (Journal.Records p)) as_local;
  SAppend id t payload := or_fail (IPC_Append once id t payload) as_local;
  SClose := or_fail (IPC_Close once) as_local |}.

(** ** Results *)

Lemma mustResult_false msg : exists m, decodeResult (mustResult false msg) = Ok (false, m).
Proof.
  unfold mustResult. destruct (encodeResult false msg) as [b|e|] eqn:E; [apply decodeResult_encode in E; eauto|..]; exists []; by vm_compute.
Qed.

Lemma mustResult_false_head msg : head (mustResult false msg) = Some msgResult.
Proof.
  unfold mustResult. destruct (encodeResult false msg) as [b|e|] eqn:E; [|done..]. unfold encodeResult, appendString in E.
  cbv zeta in E. case_match; [done|]. by injection E as <-.
Qed.

Lemma mustResult_fits ok msg : len (mustResult ok msg) <= 65539.
Proof.
  unfold mustResult, encodeResult, appendString. cbv zeta. destruct (65535 <? len msg) eqn:El; [by vm_compute|]. reflect_bools.
  rewrite !len_app, len_le_bytes. unfold len at 1 2. cbn. lia.
Qed.

Lemma mustResult_ok : decodeResult (mustResult true (str "ok")) = Ok (true, str "ok").
Proof. by vm_compute. Qed.

(** ** What the role does with each request *)

Section Turns.
Context {F A : Type} `{OSFileEnd F} `{Endpoint A} `{ErrorTexts}.
Abbreviation Link := (JournalLink F A).

Lemma respond_fits p (w : Link) : len p <= Ipc.MaxFrameBytes -> respond p w = (set_boxes (jinbox w) (Some p) w, Ok tt).
Proof. intros Hl. cbn [respond JournalLink_Bridge]. by rewrite (proj2 (Z.ltb_ge _ _)). Qed.

Lemma respond_result ok msg (w : Link) :
  respond (mustResult ok msg) w = (set_boxes (jinbox w) (Some (mustResult ok msg)) w, Ok tt).
Proof. apply respond_fits. pose proof (mustResult_fits ok msg). change Ipc.MaxFrameBytes with 1048576. lia. Qed.

Lemma answer_run msg (w : Link) : answer msg w = (set_boxes (jinbox w) (Some (mustResult false msg)) w, Ok tt).
Proof. unfold answer, ignore. by rewrite respond_result. Qed.

Lemma refuse_run {B} e (w : Link) : refuse (A := B) e w = (set_boxes (jinbox w) (Some (mustResult false (error_text e))) w, Err e).
Proof. unfold refuse, io_bind. by rewrite answer_run. Qed.

Lemma session_Open_prefix (s : fileJournalSession F) :
  session_Open s = let '(s', r) := session_prefix s in
    (s', match r with Ok p => Ok (Journal.Records p) | Err e => Err e | Panic => Panic end).
Proof.
  unfold session_Open, io_bind, ret. by destruct (session_prefix s) as [s' [p|e|]].
Qed.

Lemma OpenWriter_read (s : Journal.FileSegment F) w p : Journal.OpenWriter s = Ok (w, p) -> Journal.seg w = s /\ Journal.ReadPrefix s = Ok p.
Proof. unfold Journal.OpenWriter. destruct (Journal.ReadPrefix s) as [q|e|]; cbn [bind]; [|done..]. by intros [= <- <-]. Qed.

Lemma finishOpenJournal_read f seg w p :
  finishOpenJournal (OpenFileSegment f) = (seg, Ok (w, p)) -> Journal.seg w = seg /\ Journal.ReadPrefix seg = Ok p.
Proof.
  unfold finishOpenJournal. destruct (Journal.OpenWriter (OpenFileSegment f)) as [[w0 p0]|e|] eqn:E; [|done..].
  destruct (Journal.Torn p0); [|intros [= <- <- <-]; by apply OpenWriter_read].
  destruct (Journal.file_Truncate _ _) as [seg1 [e|]]; [done|]. destruct (Journal.OpenWriter seg1) as [[w1 p1]|e|] eqn:E1; [|done..].
  intros [= <- <- <-]. by apply OpenWriter_read.
Qed.

(** An accepted prefix is the whole of a chain, which can be read again. *)
Lemma session_prefix_ok s s' p :
  jsound s -> session_prefix s = (s', Ok p) ->
  exists fs, Journal.chain fs /\ p = Journal.prefix_of fs false [] /\ len (Journal.image fs) < 9223372036854775808 /\
    AcceptedPrefixBytes (len (Journal.image fs)) s' = (s', Ok (Journal.image fs)).
Proof.
  intros Hs E. destruct (sw s) as [w0|] eqn:Ew; [unfold session_prefix in E; by rewrite Ew in E|].
  cbn in Hs. unfold current in Hs. rewrite Ew in Hs.
  destruct (session_prefix_spec _ _ _ Ew Hs E) as (_ & _ & w & fs & Hsw & (Hsz & Hch & Hi & _) & _ & _ & _ & f & Hfin).
  apply finishOpenJournal_read in Hfin as [_ Hrd]. rewrite (Journal.ReadPrefix_image _ fs) in Hrd by done.
  injection Hrd as <-. exists fs. split; [done|]. split; [done|]. pose proof Hsz as [Hv Hl]. rewrite Hi in Hl. split; [done|].
  unfold AcceptedPrefixBytes. pose proof (len_nonneg (Journal.image fs)).
  destruct (len (Journal.image fs) <=? 0) eqn:E0; reflect_bools; [by rewrite (len_zero_nil (Journal.image fs)) by lia|].
  rewrite Hsw, Journal.read_contents by (rewrite ?Hi; done || lia). rewrite Hi, Z.add_0_l, sub_full by lia.
  by rewrite Z.ltb_irrefl.
Qed.

(** The response that refuses a request, if there is one. *)
Definition refused (o : option bytes) : Prop := o = None \/ exists m, o = Some (mustResult false m).

Definition open_message (raw : bytes) : bytes := [msgJrnOpen] ++ le_bytes 4 (u32 (len raw)) ++ raw.

(** The session that an open request finds. *)
Definition reopened (w : Link) : fileJournalSession F := if opened w then (SClose (sess w)).1 else sess w.

Lemma session_closed (s : fileJournalSession F) : jsound s ->
  jsound (SClose s).1 /\ jrecords (SClose s).1 = jrecords s /\ sw (SClose s).1 = None /\ (SClose s).2 = Ok tt.
Proof.
  intros Hs. destruct (SClose s) as [s' r] eqn:E. destruct (sclose_spec _ _ _ Hs E) as (H1' & H2' & _). split; [done|]. split; [done|].
  cbn in E. unfold session_Close in E. destruct (sw s) eqn:Ew; injection E as <- <-; [by cbn|done].
Qed.

Lemma reopened_sound w : jsound (sess w) -> jsound (reopened w) /\ jrecords (reopened w) = jrecords (sess w).
Proof. intros Hs. unfold reopened. destruct (opened w); [|done]. by destruct (session_closed (sess w) Hs) as (? & ? & _). Qed.

Lemma close_opened_run (w : Link) : jsound (sess w) ->
  close_opened w = (set_opened false (set_sess (reopened w) w), Ok tt).
Proof.
  intros Hs. unfold close_opened, reopened. destruct (opened w) eqn:Eo.
  - unfold ignore, on_sess. destruct (session_closed (sess w) Hs) as (_ & _ & _ & Hr). destruct (SClose (sess w)) as [s r]. cbn in Hr. by subst r.
  - destruct w; cbn in *; by subst.
Qed.

Lemma open_turn once (w : Link) s1 r1 :
  jsound (sess w) -> session_prefix (reopened w) = (s1, r1) ->
  exists w' r, journal_turn once (set_boxes (Some [msgJrnOpen]) None w) = (w', r) /\
    sess w' = s1 /\ alive w' = alive w /\ fates w' = fates w /\
    ((exists p fs, r1 = Ok p /\ Journal.chain fs /\ p = Journal.prefix_of fs false [] /\ 5 + len (Journal.image fs) <= Ipc.MaxFrameBytes /\
        r = Ok true /\ opened w' = true /\ joutbox w' = Some (open_message (Journal.image fs))) \/
     ((forall p, r1 = Ok p -> Ipc.MaxFrameBytes < 5 + Journal.Bytes p) /\ r1 <> Panic /\ (exists e, r = Err e) /\ refused (joutbox w'))).
Proof.
  intros Hs E. destruct (reopened_sound w Hs) as [Hs0 _]. unfold journal_turn, io_bind.
  cbn [readRequest JournalLink_Bridge set_boxes jinbox joutbox]. change (bool_decide (msgJrnOpen = msgJrnOpen)) with true. cbv iota.
  unfold journal_open, io_bind. rewrite close_opened_run by done. unfold or_refuse_local, io_bind, try, on_sess at 1.
  set (w0 := set_boxes None None _). change (reopened w0) with (reopened w). cbn [sess set_sess set_opened]. rewrite E. destruct r1 as [p|e|].
  2: { rewrite refuse_run. eexists _, _. split; [done|]. do 3 (split; [done|]). right. split; [done|]. split; [done|]. split; [eauto|]. right. eauto. }
  2: { exfalso. pose proof (session_Open_prefix (reopened w)) as Hp. rewrite E in Hp.
       destruct (open_spec _ _ _ Hs0 Hp) as (_ & _ & []). }
  destruct (session_prefix_ok _ _ _ Hs0 E) as (fs & Hch & -> & Hlen & Hacc). cbn [ret Journal.prefix_of Journal.Bytes].
  pose proof (len_nonneg (Journal.image fs)).
  destruct (maxJrnPrefixBytes <? len (Journal.image fs)) eqn:El.
  { reflect_bools. rewrite refuse_run. eexists _, _. split; [done|]. do 3 (split; [done|]). right. split; [|split; [done|split; [eauto|right; eauto]]].
    intros p [= <-]. cbn. change maxJrnPrefixBytes with 8388608 in El. change Ipc.MaxFrameBytes with 1048576. lia. }
  unfold on_sess. cbn [sess set_sess set_opened]. rewrite Hacc. cbn [ret]. change ([msgJrnOpen] ++ _ ++ _) with (open_message (Journal.image fs)).
  assert (Hml : len (open_message (Journal.image fs)) = 5 + len (Journal.image fs)).
  { unfold open_message. rewrite !len_app, len_le_bytes. unfold len at 1. cbn. lia. }
  destruct (decide (5 + len (Journal.image fs) <= Ipc.MaxFrameBytes)) as [Hf|Hf].
  - rewrite respond_fits by lia. eexists _, _. split; [done|]. do 3 (split; [done|]). left. eexists _, fs. by split_and!.
  - cbn [respond JournalLink_Bridge]. rewrite (proj2 (Z.ltb_lt _ _)) by lia. eexists _, _. split; [done|]. do 3 (split; [done|]). right.
    split; [|split; [done|split; [eauto|by left]]]. intros p [= <-]. cbn. lia.
Qed.

Lemma append_turn once (w : Link) id t p s1 r1 :
  len id = 16 -> is_u16 t -> opened w = true -> SAppend id t p (sess w) = (s1, r1) ->
  exists w' r, journal_turn once (set_boxes (Some ([msgJrnAppend] ++ id ++ le_bytes 2 (u16 t) ++ p)) None w) = (w', r) /\
    sess w' = s1 /\ alive w' = alive w /\ fates w' = fates w /\ opened w' = true /\
    match r1 with
    | Ok _ => r = Ok true /\ joutbox w' = Some (mustResult true (str "ok"))
    | Err _ => (exists e, r = Err e) /\ refused (joutbox w')
    | Panic => r = Panic
    end.
Proof.
  intros Hid Ht Ho E. unfold journal_turn, io_bind. cbn [readRequest JournalLink_Bridge set_boxes jinbox joutbox app].
  change (bool_decide (msgJrnAppend = msgJrnOpen)) with false. change (bool_decide (msgJrnAppend = msgJrnAppend)) with true. cbv iota.
  set (req := msgJrnAppend :: _). unfold journal_append. cbn [opened set_boxes]. rewrite Ho. cbn [negb].
  assert (Hreq : req = [msgJrnAppend] ++ id ++ le_bytes 2 (u16 t) ++ p) by done.
  assert (Hlen : len req = 19 + len p).
  { rewrite Hreq, !len_app, len_le_bytes, Hid. unfold len at 1. cbn. lia. }
  pose proof (len_nonneg p). rewrite (proj2 (Z.ltb_ge _ _)) by lia.
  assert (Hs1 : sub req 1 17 = id).
  { rewrite Hreq. rewrite (sub_app_r [msgJrnAppend]) by (unfold len; cbn; lia). unfold len; cbn [length]. rewrite sub_app_l by lia. apply sub_full. lia. }
  assert (Hs2 : sub req 17 19 = le_bytes 2 (u16 t)).
  { rewrite Hreq, app_assoc, sub_app_r by (rewrite len_app, Hid; unfold len; cbn; lia). rewrite len_app, Hid. unfold len at 1 2; cbn [length].
    rewrite sub_app_l by (rewrite ?len_le_bytes; lia). apply sub_full. rewrite len_le_bytes. lia. }
  assert (Hs3 : sub req 19 (len req) = p).
  { rewrite Hlen, Hreq, !app_assoc, sub_app_r by (rewrite !len_app, ?len_le_bytes, ?Hid; unfold len; cbn; lia).
    rewrite !len_app, len_le_bytes, Hid. unfold len at 1 3; cbn [length]. apply sub_full. lia. }
  assert (Hv : le_val (le_bytes 2 (u16 t)) = t).
  { unfold is_u16 in Ht. unfold u16. rewrite Z.mod_small by lia. apply le_val_bytes. lia. }
  cbv zeta. rewrite Hs1, Hs2, Hs3, Hv. unfold or_refuse_local, io_bind, try, on_sess. cbn [sess set_boxes]. rewrite E.
  destruct r1 as [u|e|]; cbn [ret].
  - rewrite respond_result. eexists _, _. by split_and!.
  - rewrite refuse_run. eexists _, _. split; [done|]. do 4 (split; [done|]). split; [eauto|right; eauto].
  - eexists _, _. by split_and!.
Qed.

Lemma close_turn once (w : Link) : jsound (sess w) ->
  exists w', journal_turn once (set_boxes (Some [msgJrnClose]) None w) = (w', Ok true) /\
    sess w' = reopened w /\ alive w' = alive w /\ fates w' = fates w /\ opened w' = false /\
    joutbox w' = Some (mustResult true (str "ok")).
Proof.
  intros Hs. unfold journal_turn, io_bind. cbn [readRequest JournalLink_Bridge set_boxes jinbox joutbox].
  change (bool_decide (msgJrnClose = msgJrnOpen)) with false. change (bool_decide (msgJrnClose = msgJrnAppend)) with false.
  change (bool_decide (msgJrnClose = msgJrnClose)) with true. cbv iota.
  unfold journal_close, io_bind. rewrite close_opened_run by done. rewrite respond_result. eexists. by split_and!.
Qed.

(** ** What the asking side gets *)

Lemma open_result_message fs : Journal.chain fs -> 5 + len (Journal.image fs) <= Ipc.MaxFrameBytes ->
  open_result (open_message (Journal.image fs)) = Ok (Journal.prefix_of fs false []).
Proof.
  intros Hch Hl. set (raw := Journal.image fs) in *. change Ipc.MaxFrameBytes with 1048576 in Hl. pose proof (len_nonneg raw).
  assert (Hml : len (open_message raw) = 5 + len raw).
  { unfold open_message. rewrite !len_app, len_le_bytes. unfold len at 1. cbn. lia. }
  unfold open_result. rewrite Hml, (proj2 (Z.ltb_ge (5 + len raw) (1 + 4))) by lia. change (head (open_message raw)) with (Some msgJrnOpen).
  rewrite bool_decide_eq_true_2 by done. cbn [negb orb].
  assert (Hs1 : sub (open_message raw) 1 5 = le_bytes 4 (u32 (len raw))).
  { unfold open_message. rewrite (sub_app_r [msgJrnOpen]) by (unfold len; cbn; lia). change (len [msgJrnOpen]) with 1.
    rewrite sub_app_l by (rewrite ?len_le_bytes; lia). apply sub_full. rewrite len_le_bytes. lia. }
  rewrite Hs1. unfold u32. rewrite Z.mod_small, le_val_bytes by lia. cbv zeta.
  change maxJrnPrefixBytes with 8388608. rewrite (proj2 (Z.ltb_ge 8388608 _)), Z.ltb_irrefl by lia. cbn [orb].
  assert (Hs2 : sub (open_message raw) 5 (5 + len raw) = raw).
  { unfold open_message. rewrite app_assoc, sub_app_r by (rewrite len_app, len_le_bytes; unfold len; cbn; lia).
    rewrite len_app, len_le_bytes. change (len [msgJrnOpen]) with 1. apply sub_full. lia. }
  rewrite Hs2. unfold Journal.ReadPrefixBytes. rewrite (Journal.ReadPrefix_image _ fs); [done| |done|done].
  split; [done|]. cbn. fold raw. lia.
Qed.

Lemma open_result_refused msg : exists e, open_result (mustResult false msg) = Err e.
Proof.
  unfold open_result. rewrite mustResult_false_head. destruct (mustResult_false msg) as [m ->].
  rewrite bool_decide_eq_false_2 by done. rewrite orb_true_r. eauto.
Qed.

(** What a request comes to: no turn, or a turn and what it leaves. *)
Definition after (w : Link) (r : res Error bool) : Link :=
  let w := set_boxes None None w in match r with Ok true => w | _ => end_role w end.

Lemma link_request_cases once p (w w' : Link) r :
  link_request once p w = (w', r) ->
  (exists e, r = Err e) /\ (w' = w \/ w' = set_fates (tail (fates w)) w \/ w' = end_role (set_fates (tail (fates w)) w)) \/
  exists w1 r1, alive w = true /\ journal_turn once (set_boxes (Some p) None (set_fates (tail (fates w)) w)) = (w1, r1) /\ w' = after w1 r1 /\
    ((exists e, r = Err e) \/ exists resp, joutbox w1 = Some resp /\ r = Ok resp).
Proof.
  unfold link_request. destruct (Ipc.MaxFrameBytes <? len p); [intros [= <- <-]; left; split; [eauto|by left]|]. cbv zeta.
  change (alive (set_fates _ w)) with (alive w). destruct (alive w) eqn:Ea; cbn [negb]; [|intros [= <- <-]; left; split; [eauto|by right; left]].
  assert (Hrun : forall fate, (let '(w1, r1) := journal_turn once (set_boxes (Some p) None (set_fates (tail (fates w)) w)) in
      match fate, joutbox w1 with
      | Delivered, Some resp => (match r1 with Ok true => set_boxes None None w1 | _ => end_role (set_boxes None None w1) end, Ok resp)
      | _, _ => (match r1 with Ok true => set_boxes None None w1 | _ => end_role (set_boxes None None w1) end, Err closed_link)
      end) = (w', r) ->
    exists w1 r1, true = true /\ journal_turn once (set_boxes (Some p) None (set_fates (tail (fates w)) w)) = (w1, r1) /\ w' = after w1 r1 /\
      ((exists e, r = Err e) \/ exists resp, joutbox w1 = Some resp /\ r = Ok resp)).
  { intros fate. destruct (journal_turn _ _) as [w1 r1]. intros E. exists w1, r1. split; [done|]. split; [done|].
    destruct fate, (joutbox w1); injection E as <- <-; (split; [done|]); eauto. }
  destruct (fates w) as [|[] fs]; intros E; [right; by apply (Hrun Delivered)|right; by apply (Hrun Delivered)| | |].
  - injection E as <- <-. left. split; [eauto|by right; left].
  - right. by apply (Hrun LostResponse).
  - injection E as <- <-. left. split; [eauto|by right; right].
Qed.

Lemma delivered_request once p (w : Link) :
  len p <= Ipc.MaxFrameBytes -> alive w = true -> fates w = [] ->
  link_request once p w = let '(w1, r1) := journal_turn once (set_boxes (Some p) None w) in
    (after w1 r1, match joutbox w1 with Some resp => Ok resp | None => Err closed_link end).
Proof.
  intros Hl Ha Hf. unfold link_request. rewrite (proj2 (Z.ltb_ge _ _)) by done. cbv zeta. change (alive (set_fates _ w)) with (alive w). rewrite Ha, Hf. cbn [negb tail].
  replace (set_fates [] w) with w by (destruct w; cbn in *; by subst). destruct (journal_turn _ _) as [w1 r1]. unfold after. by destruct (joutbox w1).
Qed.

Lemma append_turn_closed once (w : Link) tl :
  opened w = false -> journal_turn once (set_boxes (Some (msgJrnAppend :: tl)) None w) =
    (set_boxes None (Some (mustResult false (str "journal not open"))) w, Ok true).
Proof.
  intros Ho. unfold journal_turn, io_bind. cbn [readRequest JournalLink_Bridge set_boxes jinbox joutbox].
  change (bool_decide (msgJrnAppend = msgJrnOpen)) with false. change (bool_decide (msgJrnAppend = msgJrnAppend)) with true. cbv iota.
  unfold journal_append. cbn [opened set_boxes]. rewrite Ho. cbn [negb]. unfold io_bind. by rewrite answer_run.
Qed.

End Turns.

(** ** The journal behind the link *)

Section Account.
Context {F A : Type} `{OSFileEnd F} `{Endpoint A} `{ErrorTexts} (once : bool).
Abbreviation Link := (JournalLink F A).

(** The file is sound, and what the role calls open is ready for appends. *)
Definition steady (w : Link) : Prop := jsound (sess w) /\ (alive w = true -> opened w = true -> ready (sess w)).
Definition in_use (w : Link) : Prop := alive w = true /\ opened w = true /\ ready (sess w).

Lemma in_use_steady w : in_use w -> steady w.
Proof. intros (_ & _ & Hr). split; [by apply ready_sound|done]. Qed.

Lemma steady_end w : steady w -> steady (end_role w) /\ jrecords (sess (end_role w)) = jrecords (sess w).
Proof. intros [Hs _]. destruct (session_closed _ Hs) as (H1' & H2' & _). by split. Qed.

Lemma idle_request w w' : steady w -> (w' = w \/ w' = set_fates (tail (fates w)) w \/ w' = end_role (set_fates (tail (fates w)) w)) ->
  steady w' /\ jrecords (sess w') = jrecords (sess w).
Proof. intros Hs [->|[->| ->]]; [done|done|]. by apply (steady_end (set_fates _ w)). Qed.

(** A turn that failed ends the role. *)
Lemma ended_role w1 r1 : jsound (sess w1) -> r1 <> Ok true -> steady (after w1 r1) /\ jrecords (sess (after w1 r1)) = jrecords (sess w1).
Proof.
  intros Hs Hr. destruct (session_closed _ Hs) as (H1' & H2' & _). unfold after. destruct r1 as [[]|e|]; [done|..]; by split.
Qed.

Lemma IPC_Open_step w w' r :
  steady w -> IPC_Open once w = (w', r) ->
  steady w' /\ jrecords (sess w') = jrecords (sess w) /\
  match r with Ok p => in_use w' /\ Journal.Records p = jrecords (sess w) | Err _ => True | Panic => False end.
Proof.
  intros Hst E. unfold IPC_Open, io_bind in E. destruct (link_request once [msgJrnOpen] w) as [w0 r0] eqn:El.
  apply link_request_cases in El as [[[e ->] Hw]|(w1 & r1 & Ha & Ht & -> & Hr)].
  { injection E as <- <-. by destruct (idle_request _ _ Hst Hw). }
  destruct Hst as [Hs _]. set (w2 := set_fates (tail (fates w)) w) in Ht. assert (Hs2 : jsound (sess w2)) by done.
  destruct (session_prefix (reopened w2)) as [s1 p1] eqn:Ep. destruct (reopened_sound w2 Hs2) as [Hs0 Hr0].
  pose proof (session_Open_prefix (reopened w2)) as Ho. rewrite Ep in Ho. destruct (open_spec _ _ _ Hs0 Ho) as (Hs1 & Hr1 & Hok).
  rewrite Hr0 in Hr1, Hok. change (sess w2) with (sess w) in *.
  destruct (open_turn once w2 s1 p1 Hs2 Ep) as (w3 & r3 & Ht' & Hse & Hal & _ & Hc). rewrite Ht in Ht'. injection Ht' as <- <-.
  destruct Hc as [(p & fs & -> & Hch & -> & Hfit & -> & Hop & Hout)|(_ & _ & [e ->] & Href)].
  - destruct Hok as [Hrdy Hrec]. assert (Hin : in_use (after w1 (Ok true))).
    { unfold after, in_use. cbn. rewrite Hal, Hop, Hse. by split_and!. }
    assert (Hj : jrecords (sess (after w1 (Ok true))) = jrecords (sess w)) by (cbn [after sess set_boxes]; by rewrite Hse).
    destruct Hr as [[e ->]|(resp & Hresp & ->)]; injection E as <- <-; (split; [by apply in_use_steady|]); [done|]. split; [done|].
    rewrite Hout in Hresp. injection Hresp as <-. by rewrite open_result_message.
  - rewrite <- Hse in Hs1, Hr1. destruct (ended_role w1 (Err e) Hs1) as [Hst' Hj]; [done|]. rewrite Hr1 in Hj.
    destruct Hr as [[e' ->]|(resp & Hresp & ->)]; injection E as <- <-; (split; [done|]); [done|]. split; [done|].
    destruct Href as [Hn|[m Hm]]; [congruence|]. rewrite Hm in Hresp. injection Hresp as <-. by destruct (open_result_refused m) as [e' ->].
Qed.

(** The response to a request that is answered with a result. *)
Lemma result_step k p w w' r :
  result_of once k p w = (w', r) ->
  exists r0, link_request once p w = (w', r0) /\
    match r0 with
    | Ok resp => r = match decodeResult resp with Ok (true, _) => Ok tt | Ok (false, m) => Err (fail k m) | Err e => Err e | Panic => Panic end
    | Err e => r = Err e
    | Panic => r = Panic
    end.
Proof.
  unfold result_of, io_bind. destruct (link_request once p w) as [w0 [resp|e|]]; [|intros [= <- <-]; by eexists..].
  unfold lift. intros E. exists (Ok resp). destruct (decodeResult resp) as [[[] m]|e|]; by injection E as <- <-.
Qed.

Lemma IPC_Append_step w w' r id t p :
  steady w -> len id = 16 -> is_u16 t -> IPC_Append once id t p w = (w', r) ->
  steady w' /\
  match r with
  | Ok _ => in_use w' /\ exists rec, LocalPayload.carries id t p rec /\ jrecords (sess w') = jrecords (sess w) ++ [rec]
  | Err _ => jrecords (sess w') = jrecords (sess w) \/ exists rec, LocalPayload.carries id t p rec /\ jrecords (sess w') = jrecords (sess w) ++ [rec]
  | Panic => False
  end.
Proof.
  intros Hst Hid Ht. unfold IPC_Append. destruct (negb _); [intros [= <- <-]; auto|]. destruct (_ <? _); [intros [= <- <-]; auto|].
  intros (r0 & El & Hres)%result_step.
  apply link_request_cases in El as [[[e ->] Hw]|(w1 & r1 & Ha & Htn & -> & Hr)].
  { subst r. destruct (idle_request _ _ Hst Hw). auto. }
  set (w2 := set_fates (tail (fates w)) w) in Htn. destruct (opened w) eqn:Eo.
  2: { change ([msgJrnAppend] ++ id ++ le_bytes 2 (u16 t) ++ p) with (msgJrnAppend :: (id ++ le_bytes 2 (u16 t) ++ p)) in Htn.
       rewrite append_turn_closed in Htn by done. injection Htn as <- <-. split; [exact Hst|].
       destruct Hr as [[e ->]|(resp & [= <-] & ->)]; subst r; [by left|]. destruct (mustResult_false (str "journal not open")) as [m ->]. by left. }
  pose proof Hst as [Hs Hrd]. specialize (Hrd Ha Eo). destruct (SAppend id t p (sess w2)) as [s1 p1] eqn:Ep.
  destruct (append_spec _ _ _ _ _ _ Hrd Hid Ht Ep) as (Hs1 & Hok).
  destruct (append_turn once w2 id t p s1 p1 Hid Ht Eo Ep) as (w3 & r3 & Ht' & Hse & Hal & _ & Hop & Hc). rewrite Htn in Ht'. injection Ht' as <- <-.
  rewrite <- Hse in Hs1, Hok. destruct p1 as [u|e|]; [| |done].
  - destruct Hc as [-> Hout]. destruct Hok as (Hrdy & Hrec). assert (Hin : in_use (after w1 (Ok true))).
    { unfold after, in_use. cbn. rewrite Hal, Hop. by split_and!. }
    split; [by apply in_use_steady|]. destruct Hr as [[e ->]|(resp & Hresp & ->)]; subst r; [by right|].
    rewrite Hout in Hresp. injection Hresp as <-. rewrite mustResult_ok. by split.
  - destruct Hc as [[e' ->] Href]. destruct (ended_role w1 (Err e') Hs1) as [Hst' Hj]; [done|]. split; [done|]. rewrite <- Hj in Hok.
    destruct Hr as [[e'' ->]|(resp & Hresp & ->)]; subst r; [done|].
    destruct Href as [Hn|[m Hm]]; [congruence|]. rewrite Hm in Hresp. injection Hresp as <-. by destruct (mustResult_false m) as [m' ->].
Qed.

Lemma IPC_Close_step w w' r :
  steady w -> IPC_Close once w = (w', r) -> steady w' /\ jrecords (sess w') = jrecords (sess w) /\ r <> Panic.
Proof.
  intros Hst (r0 & El & Hres)%result_step.
  apply link_request_cases in El as [[[e ->] Hw]|(w1 & r1 & Ha & Htn & -> & Hr)].
  { subst r. by destruct (idle_request _ _ Hst Hw). }
  destruct Hst as [Hs _]. set (w2 := set_fates (tail (fates w)) w) in Htn. assert (Hs2 : jsound (sess w2)) by done.
  destruct (close_turn once w2 Hs2) as (w3 & Ht' & Hse & Hal & _ & Hop & Hout). rewrite Htn in Ht'. injection Ht' as <- ->.
  destruct (reopened_sound w2 Hs2) as [Hs0 Hr0]. rewrite <- Hse in Hs0, Hr0. split; [split; [done|]; cbn; congruence|]. split; [done|].
  destruct Hr as [[e ->]|(resp & Hresp & ->)]; subst r; [done|]. rewrite Hout in Hresp. injection Hresp as <-. by rewrite mustResult_ok.
Qed.

(** The pair of apply and journal role is a session, whatever the link does. *)
Lemma or_fail_run {W E G B} (c : io W E B) (f : E -> G) w w' r :
  or_fail c f w = (w', r) -> exists r0, c w = (w', r0) /\ r = map_err f r0.
Proof. unfold or_fail. destruct (c w) as [w0 r0]. intros [= <- <-]. eauto. Qed.

#[global] Program Instance IPCJournal_laws : @JournalSessionLaws Link (IPCJournalSession once) := {
  jsound := steady;
  ready := in_use;
  jrecords w := jrecords (sess w) }.
Next Obligation. apply in_use_steady. Qed.
Next Obligation.
  intros w w' r Hs (r0 & E & ->)%or_fail_run. unfold io_bind in E. destruct (IPC_Open once w) as [w1 r1] eqn:E1.
  destruct (IPC_Open_step _ _ _ Hs E1) as (H1' & H2' & H3'). destruct r1 as [p|e|]; injection E as <- <-; [|done..]. by destruct H3'.
Qed.
Next Obligation.
  intros w w' r id t p Hr Hid Ht (r0 & E & ->)%or_fail_run.
  destruct (IPC_Append_step _ _ _ _ _ _ (in_use_steady _ Hr) Hid Ht E) as (H1' & H2'). by destruct r0.
Qed.
Next Obligation.
  intros w w' r Hs (r0 & E & ->)%or_fail_run. destruct (IPC_Close_step _ _ _ Hs E) as (H1' & H2' & H3'). by destruct r0.
Qed.

(** *** Any use of the session *)

Inductive jop := JOpen | JAppend (id : bytes) (t : Z) (payload : bytes) | JClose.

Definition well_formed (op : jop) : Prop :=
  match op with JAppend id t _ => len id = 16 /\ is_u16 t | _ => True end.

(** A call and what it returned: the records of an accepted prefix for an open. *)
Definition perform (op : jop) (w : Link) : Link * res Error (list Record_) :=
  match op with
  | JOpen => let '(w, r) := IPC_Open once w in (w, match r with Ok p => Ok (Journal.Records p) | Err e => Err e | Panic => Panic end)
  | JAppend id t p => let '(w, r) := IPC_Append once id t p w in (w, match r with Ok _ => Ok [] | Err e => Err e | Panic => Panic end)
  | JClose => let '(w, r) := IPC_Close once w in (w, match r with Ok _ => Ok [] | Err e => Err e | Panic => Panic end)
  end.

Fixpoint session (ops : list jop) (w : Link) : Link * list (jop * res Error (list Record_)) :=
  match ops with
  | [] => (w, [])
  | op :: ops =>
      let '(w, r) := perform op w in
      let '(w, rs) := session ops w in (w, (op, r) :: rs)
  end.

(** The journal, from [recs], accounts for the calls: an open returns the records there
    are; an append that succeeded is there, once; one that failed may be. *)
Inductive accounts : list Record_ -> list (jop * res Error (list Record_)) -> list Record_ -> Prop :=
| accounts_nil recs : accounts recs [] recs
| accounts_open recs r rest recs' :
    r <> Panic -> (forall l, r = Ok l -> l = recs) -> accounts recs rest recs' -> accounts recs ((JOpen, r) :: rest) recs'
| accounts_close recs r rest recs' :
    r <> Panic -> accounts recs rest recs' -> accounts recs ((JClose, r) :: rest) recs'
| accounts_appended recs id t p r rec rest recs' :
    r <> Panic -> LocalPayload.carries id t p rec -> accounts (recs ++ [rec]) rest recs' -> accounts recs ((JAppend id t p, r) :: rest) recs'
| accounts_failed recs id t p e rest recs' :
    accounts recs rest recs' -> accounts recs ((JAppend id t p, Err e) :: rest) recs'.

(** C13. The journal behind a link loses nothing that it confirmed.  Whatever the apply
    role asks, in whatever order, and whatever the link does to each request (not
    delivered; carried out without an answer; the role ended): the records in the
    journal file afterwards are those before, then one record for every append that
    reported success, in order, and for a failed append its record or none; an open
    that succeeds returns exactly the records that are there. *)
Theorem journal_role_accounts ops w w' rs :
  steady w -> Forall well_formed ops -> session ops w = (w', rs) ->
  steady w' /\ accounts (jrecords (sess w)) rs (jrecords (sess w')).
Proof.
  intros Hs Hops. revert w rs Hs. induction Hops as [|op ops Hop Hops IH]; intros w rs Hs E; cbn [session] in E.
  { injection E as <- <-. split; [done|constructor]. }
  destruct (perform op w) as [w1 r1] eqn:E1. destruct (session ops w1) as [w2 rs2] eqn:E2. injection E as <- <-.
  destruct op as [|id t p|]; unfold perform in E1.
  - destruct (IPC_Open once w) as [w3 r3] eqn:E3. destruct (IPC_Open_step _ _ _ Hs E3) as (Hs3 & Hr3 & Hok). injection E1 as -> <-.
    destruct (IH _ _ Hs3 E2) as [Hs2 Ha]. rewrite Hr3 in Ha. split; [done|]. destruct r3; [|constructor; done|done]. constructor; [done| |done].
    intros l [= <-]. apply Hok.
  - destruct Hop as [Hid Ht]. destruct (IPC_Append once id t p w) as [w3 r3] eqn:E3. destruct (IPC_Append_step _ _ _ _ _ _ Hs Hid Ht E3) as (Hs3 & Hok).
    injection E1 as -> <-. destruct (IH _ _ Hs3 E2) as [Hs2 Ha]. split; [done|]. destruct r3 as [u|e|]; [| |done].
    + destruct Hok as (_ & rec & Hc & Hr). rewrite Hr in Ha. by eapply accounts_appended.
    + destruct Hok as [Hr|(rec & Hc & Hr)]; rewrite Hr in Ha; [by apply accounts_failed|by eapply accounts_appended].
  - destruct (IPC_Close once w) as [w3 r3] eqn:E3. destruct (IPC_Close_step _ _ _ Hs E3) as (Hs3 & Hr3 & Hp). injection E1 as -> <-.
    destruct (IH _ _ Hs3 E2) as [Hs2 Ha]. rewrite Hr3 in Ha. split; [done|]. constructor; [by destruct r3|done].
Qed.

(** *** A link that delivers *)

Lemma valid_type_u16 t : ValidRecordType t = true -> is_u16 t.
Proof. unfold ValidRecordType, TypeObservation, TypeEvidenceReference, is_u16. intros Hv. reflect_bools. lia. Qed.

Lemma open_delivered w w' r s p :
  steady w -> alive w = true -> fates w = [] -> IPC_Open once w = (w', r) -> session_prefix (reopened w) = (s, p) ->
  match p with
  | Ok p => if 5 + Journal.Bytes p <=? Ipc.MaxFrameBytes
            then r = Ok p /\ sess w' = s /\ in_use w'
            else (exists e, r = Err e) /\ sess w' = (SClose s).1 /\ alive w' = false
  | _ => (exists e, r = Err e) /\ sess w' = (SClose s).1 /\ alive w' = false
  end.
Proof.
  intros Hst Ha Hf E Ep. pose proof Hst as [Hs _]. pose proof E as E'. unfold IPC_Open, io_bind in E. rewrite delivered_request in E by done.
  destruct (open_turn once w s p Hs Ep) as (w3 & r3 & Ht & Hse & Hal & _ & Hc). rewrite Ht in E.
  destruct Hc as [(q & fs & -> & Hch & -> & Hfit & -> & Hop & Hout)|(Hbig & Hpan & [e ->] & Href)].
  - cbn [Journal.prefix_of Journal.Bytes]. rewrite (proj2 (Z.leb_le _ _)) by done. rewrite Hout, open_result_message in E by done.
    injection E as <- <-. split; [done|]. split; [done|]. destruct (IPC_Open_step _ _ _ Hst E') as (_ & _ & Hin & _). exact Hin.
  - assert (Hend : (exists e, r = Err e) /\ sess w' = (SClose s).1 /\ alive w' = false).
    { assert (w' = after w3 (Err e)) as ->. { destruct (joutbox w3); injection E as <- <-; done. }
      split; [|cbn [after end_role sess set_alive set_sess set_boxes]; by rewrite Hse].
      destruct Href as [Hn|[m Hm]]; [rewrite Hn in E|rewrite Hm in E]; injection E as <-; [eauto|].
      destruct (open_result_refused m) as [e' He]. rewrite He. eauto. }
    destruct p as [p|e'|]; [|done..]. rewrite (proj2 (Z.leb_gt _ _)) by (by apply Hbig). done.
Qed.

Lemma append_delivered w id t p w' r s rs :
  steady w -> alive w = true -> fates w = [] ->
  opened w = true -> len id = 16 -> ValidRecordType t = true -> 19 + len p <= Ipc.MaxFrameBytes ->
  IPC_Append once id t p w = (w', r) -> SAppend id t p (sess w) = (s, rs) ->
  (r = Ok tt <-> rs = Ok tt) /\ sess w' = match rs with Ok _ => s | _ => (SClose s).1 end.
Proof.
  intros [Hs Hrd] Ha Hf Ho Hid Hv Hl E Ep. unfold IPC_Append in E. rewrite Hv in E. cbn [negb] in E. change Ipc.MaxFrameBytes with 1048576 in Hl.
  change MaxPayloadBytes with 1048576 in E. rewrite (proj2 (Z.ltb_ge _ _)) in E by lia. apply result_step in E as (r0 & El & Hr).
  assert (Ht : is_u16 t) by (by apply valid_type_u16).
  rewrite delivered_request in El; [| |done..].
  2: { rewrite !len_app, len_le_bytes, Hid. unfold len at 1. cbn [length]. change Ipc.MaxFrameBytes with 1048576. lia. }
  destruct (append_turn once w id t p s rs Hid Ht Ho Ep) as (w3 & r3 & Htn & Hse & Hal & _ & Hop & Hc). rewrite Htn in El.
  destruct (append_spec _ _ _ _ _ _ (Hrd Ha Ho) Hid Ht Ep) as [_ Hnp]. destruct rs as [[]|e|]; [| |done].
  - destruct Hc as [-> Hout]. rewrite Hout in El. injection El as <- <-. rewrite mustResult_ok in Hr. by subst r.
  - destruct Hc as [[e' ->] Href]. assert (Hsess : sess w' = (SClose s).1) by (destruct (joutbox w3); injection El as <- <-; cbn; by rewrite Hse).
    split; [|done]. split; [|done]. intros ->.
    destruct Href as [Hn|[m Hm]]; [rewrite Hn in El|rewrite Hm in El]; injection El as _ <-; [done|].
    destruct (mustResult_false m) as [m' Hm']. by rewrite Hm' in Hr.
Qed.

Lemma close_delivered w w' r :
  steady w -> alive w = true -> fates w = [] -> IPC_Close once w = (w', r) ->
  r = Ok tt /\ sess w' = reopened w /\ alive w' = true /\ opened w' = false.
Proof.
  intros [Hs _] Ha Hf (r0 & El & Hr)%result_step. rewrite delivered_request in El by done.
  destruct (close_turn once w Hs) as (w3 & Htn & Hse & Hal & _ & Hop & Hout). rewrite Htn, Hout in El. injection El as <- <-.
  rewrite mustResult_ok in Hr. subst r. cbn [after sess alive opened set_boxes]. rewrite Hal. by split_and!.
Qed.

(** C22. Over a link that delivers, the session is the session on the file.  An open
    finds what opening the closed file session finds, and returns it when the accepted
    bytes fit in one frame (when they do not, or opening fails, the role ends); an
    append that fits in one frame succeeds exactly when the append to the file does,
    with the same file after it; a close closes the file session. *)
Theorem IPCJournal_refines w :
  steady w -> alive w = true -> fates w = [] ->
  (forall w' r s p, IPC_Open once w = (w', r) -> session_prefix (reopened w) = (s, p) ->
     match p with
     | Ok p => if 5 + Journal.Bytes p <=? Ipc.MaxFrameBytes
               then r = Ok p /\ sess w' = s /\ in_use w'
               else (exists e, r = Err e) /\ sess w' = (SClose s).1 /\ alive w' = false
     | _ => (exists e, r = Err e) /\ sess w' = (SClose s).1 /\ alive w' = false
     end) /\
  (forall id t p w' r s rs, opened w = true -> len id = 16 -> ValidRecordType t = true -> 19 + len p <= Ipc.MaxFrameBytes ->
     IPC_Append once id t p w = (w', r) -> SAppend id t p (sess w) = (s, rs) ->
     (r = Ok tt <-> rs = Ok tt) /\ sess w' = match rs with Ok _ => s | _ => (SClose s).1 end) /\
  (forall w' r, IPC_Close once w = (w', r) -> r = Ok tt /\ sess w' = reopened w /\ alive w' = true /\ opened w' = false).
Proof.
  intros Hst Ha Hf. split_and!; intros.
  - by eapply open_delivered.
  - by eapply append_delivered.
  - by eapply close_delivered.
Qed.

End Account.

End JournalRole.
