(* ===== verification/RoleRuns.v ===== *)
(** * The roles of a push on concrete requests

    A link that delivers a list of requests, an apply role that keeps what it
    receives, a journal role behind a link, and a peer that pushes one file: the
    theorems of RemoteRoles.v, RemoteApply.v and JournalRole.v on runs of them. *)

From stdpp Require Import gmap.
From S2P Require Import Prelude Sha256 Codec Journal PathGrammar FilePath FileSystem.
From S2P Require Import LocalPayload LocalPlan LocalApply LocalScan LocalSession LocalSync LocalResume LocalRuns.
From S2P Require Import RemoteMessages RemoteWire RemoteGate RemoteStore RemoteServe RemoteRuns RemoteRoles RemoteApply JournalRole.
Import Codec PathGrammar FilePath FileSystem LocalPlan LocalApply LocalSession LocalSync LocalResume LocalRuns.
Import RemoteMessages RemoteWire RemoteGate RemoteStore RemoteServe RemoteRuns RemoteRoles.

Module RoleRuns.

#[local] Existing Instance demo_texts.
#[local] Existing Instance demo_meta.

(** ** The chain of roles *)

(** An apply role that answers every request with success. *)
Definition success (p : bytes) : bytes :=
  match decodeFileBegin p, decodeFileChunk p with
  | Ok _, _ => encodeFileAck 0
  | _, Ok (off, d) => encodeFileAck (off + len d)
  | _, _ => mustResult true (str "ok")
  end.

#[local] Instance list_Endpoint : Endpoint (list bytes) := {
  rpc p l := (l ++ [p], Ok (success p));
  log l := l }.
#[local] Instance list_EndpointLaws : EndpointLaws (list bytes).
Proof. intros l p. by left. Qed.

Definition chainTree : MemFS := mkMemFS recvTree [] 7.

Lemma pipeline_authorizes_witness :
  exists pre d, applied (ask (str "/s") true demo_push (started chainTree [])) = pre ++ [d; encodeCommit] /\
    scanned (F := MemFS) (str "/s") d /\ complete_push pre.
Proof.
  set (l := applied (ask (str "/s") true demo_push (started chainTree []))).
  assert (Hl : length l = 6%nat /\ drop 5 l = [encodeCommit]) by (subst l; split; vm_compute; reflexivity).
  destruct Hl as [Hn Hd].
  destruct (pipeline_authorizes (str "/s") true demo_push chainTree [] (take 5 l) encodeCommit []) as (pre & d & Hp & Hs & Hc).
  - reflexivity.
  - fold l. rewrite <- Hd. symmetry. apply take_drop.
  - reflexivity.
  - exists pre, d. split; [|split; [exact Hs|exact Hc]].
    rewrite <- (take_drop 5 l), Hp, Hd, <- app_assoc. reflexivity.
Defined.

(** ** The network role in front of the chain *)

(** A peer that sends a list of messages, and the chain that answers the requests. *)
Record NetW := mkNetW { peer_left : list bytes; peer_sent : list bytes; peer_got : list bytes; behind : Served (Served (Served (MemFS * list bytes) unit) (option planGate)) unit }.

#[local] Instance NetW_Peer : Peer NetW := {
  recvData w :=
    match peer_left w with
    | [] => (w, Err (Foreign (str "EOF")))
    | p :: ps => (mkNetW ps (peer_sent w ++ [p]) (peer_got w) (behind w), Ok p)
    end;
  sendData p w := (mkNetW (peer_left w) (peer_sent w) (peer_got w ++ [p]) (behind w), Ok tt) }.

Definition net_rpc (p : bytes) : io NetW Error bytes := fun w =>
  let '(b, r) := call (H := PlanE (str "/s") true) (parser_role (str "/s") true) p (behind w) in
  (mkNetW (peer_left w) (peer_sent w) (peer_got w) b, r).

Lemma parser_role_asked s (w : Served (Served (Served (MemFS * list bytes) unit) (option planGate)) unit) :
  asked (parser_role (str "/s") true s w).1 = asked w.
Proof.
  assert (Hr : respects same_asked (parser_role (F := MemFS) (A := list bytes) (str "/s") true s)); [|apply Hr].
  apply respects_bind; [tc_solve| |intros; apply respects_pure; tc_solve].
  apply parser_turn_respects; [tc_solve|served_calls..].
Qed.

#[local] Program Instance NetW_Laws : NetLaws NetW net_rpc := {
  received := peer_sent;
  sent_on w := asked (behind w) }.
Next Obligation. intros w. cbn. destruct (peer_left w); cbn; by rewrite ?app_nil_r. Qed.
Next Obligation. done. Qed.
Next Obligation.
  intros w p. unfold net_rpc.
  pose proof (served_laws (H0 := PlanL (str "/s") true) (parser_role (str "/s") true) parser_role_asked (behind w) p) as Hl.
  cbn in Hl. destruct (call _ p (behind w)) as [b r]. cbn in *. by split.
Qed.

Lemma net_transparent_witness :
  exists w, HandleActiveConnViaParserIPC net_rpc 3 (mkNetW demo_push [] [] (started chainTree [])) = (w, Ok true) /\
    peer_sent w = demo_push /\ asked (behind w) = demo_push /\ len (applied (behind w)) = 6.
Proof.
  destruct (HandleActiveConnViaParserIPC net_rpc 3 (mkNetW demo_push [] [] (started chainTree []))) as [w r] eqn:E.
  assert (Hr : (r, peer_sent w, len (applied (behind w))) = (Ok true, demo_push, 6)).
  { change r with (w, r).2. change w with (w, r).1 at 2 3. rewrite <- E. clear. vm_compute. reflexivity. }
  injection Hr as Hr Hs Hl. exists w. rewrite Hr. split; [reflexivity|]. split; [exact Hs|]. split; [|exact Hl].
  destruct (net_transparent net_rpc _ 3 _ w r (or_introl eq_refl) E) as (ms & fw & Hm & Hf & _ & Hok & _).
  rewrite (Hok true Hr) in Hf. cbn in Hm, Hf. rewrite Hf, <- Hm. exact Hs.
Defined.

(** ** The apply role *)

(** The requests of the plan role over the tree in memory. *)
Definition list_link (msgs : list bytes) : Bridge (MemFS * Conn) := {|
  readRequest := @recvData _ (list_Peer msgs);
  respond := @sendData _ (list_Peer msgs);
  endpoint w := (w, Ok true);
  request p w := (w, Err closed_link) |}.

Lemma list_LinkLaws msgs : @RemoteApply.LinkLaws (MemFS * Conn) _ _ (list_link msgs).
Proof.
  split.
  - intros [w c] w' r E. cbn in E. by destruct (msgs !! at_ c); injection E as <- <-.
  - intros [w c] w' r p E. by injection E as <- <-.
Qed.

(** The session of RemoteRuns.v as requests, an empty request, and a commit. *)
Definition applyRequests : list bytes := sessionMessages ++ [[]; encodeCommit].

Lemma applyRequests_proper (w w' : MemFS * Conn) p :
  @readRequest _ (list_link applyRequests) w = (w', Ok p) -> proper_message p.
Proof.
  assert (H : forallb proper_messageb applyRequests = true) by (vm_compute; reflexivity).
  destruct w as [w c]. cbn [readRequest list_link recvData list_Peer]. intros E. destruct (applyRequests !! at_ c) as [q|] eqn:Eq; [|discriminate E]. injection E as _ <-.
  rewrite forallb_forall in H. apply proper_messageb_proper, H, list_elem_of_In. by eapply list_elem_of_lookup_2.
Qed.

Lemma apply_contained_witness :
  exists w s r, @RemoteApply.apply_transfers _ _ _ (list_link applyRequests) _ _ 8 (recvWorld, recvStore) = ((w, s), r) /\
    r = Ok true /\ len (out w.2) = 6 /\ RemoteApply.busy stageDir partialDir (view w) s /\
    evolves (staging_area stageDir partialDir) (above_staging stageDir partialDir) recvTree (view w).
Proof.
  destruct (@RemoteApply.apply_transfers _ _ _ (list_link applyRequests) _ _ 8 (recvWorld, recvStore)) as [[w s] r] eqn:E.
  assert (Hr : (r, len (out w.2)) = (Ok true, 6)).
  { change r with (w, s, r).2. change w with (w, s, r).1.1 at 2. rewrite <- E. clear. vm_compute. reflexivity. }
  injection Hr as Hr Ho. exists w, s, r. split; [reflexivity|]. split; [exact Hr|]. split; [exact Ho|].
  destruct plain_dirs as [Hs Hp].
  destruct (@RemoteApply.apply_contained _ _ _ _ _ (list_link applyRequests) (list_LinkLaws applyRequests) _ _
    stageDir partialDir Hs Hp dirs_apart applyRequests_proper 8 recvWorld recvStore w s r (or_introl recvWorld_idle) E) as (Hc & _ & Hb).
  split; [exact (Hb true Hr)|exact Hc].
Defined.

(** ** The journal role *)

(** An empty journal, and a link that loses the answer to the third request. *)
Definition emptySession : fileJournalSession RamFile := LocalSession.mkSession (mkRam [] []) None.
Definition journalLink (fs : list JournalRole.fate) : JournalRole.JournalLink RamFile (list bytes) :=
  JournalRole.mkLink emptySession false true [] true None None fs.

Definition journalOps : list JournalRole.jop :=
  [JournalRole.JAppend (zeros 16) TypeProgress (str "a"); JournalRole.JOpen; JournalRole.JAppend (zeros 16) TypeProgress (str "b");
   JournalRole.JAppend (zeros 16) TypeProgress (str "c"); JournalRole.JClose; JournalRole.JOpen].

Lemma journalLink_steady fs : JournalRole.steady (journalLink fs).
Proof. split; [|by intros]. change (Journal.sized (OpenFileSegment (mkRam [] []))). apply sized_open. vm_compute. reflexivity. Qed.

(** The append without an open is refused; of the two others one was answered; the
    journal has both. *)
Lemma journal_role_accounts_witness :
  exists w rs, JournalRole.session true journalOps (journalLink [JournalRole.Delivered; JournalRole.Delivered; JournalRole.Delivered; JournalRole.LostResponse]) = (w, rs) /\
    map (fun x => match x.2 with Ok _ => true | _ => false end) rs = [false; true; true; false; true; true] /\
    len (jrecords (JournalRole.sess w)) = 2 /\ JournalRole.accounts [] rs (jrecords (JournalRole.sess w)).
Proof.
  destruct (JournalRole.session true journalOps (journalLink [JournalRole.Delivered; JournalRole.Delivered; JournalRole.Delivered; JournalRole.LostResponse])) as [w rs] eqn:E.
  assert (Hr : (map (fun x => match x.2 with Ok _ => true | _ => false end) rs, len (jrecords (JournalRole.sess w))) = ([false; true; true; false; true; true], 2)).
  { change rs with (w, rs).2. change w with (w, rs).1 at 2. rewrite <- E. clear. vm_compute. reflexivity. }
  injection Hr as Hr Hl. exists w, rs. split; [reflexivity|]. split; [exact Hr|]. split; [exact Hl|].
  refine (proj2 (JournalRole.journal_role_accounts true journalOps _ w rs (journalLink_steady _) _ E)).
  repeat constructor; vm_compute; done.
Defined.

Lemma IPCJournal_refines_witness :
  exists w p, JournalRole.IPC_Open true (journalLink []) = (w, Ok p) /\ Journal.Records p = [] /\ JournalRole.in_use w.
Proof.
  destruct (JournalRole.IPC_Open true (journalLink [])) as [w r] eqn:E.
  destruct (LocalSession.session_prefix (JournalRole.reopened (journalLink []))) as [s p] eqn:Ep.
  pose proof (proj1 (JournalRole.IPCJournal_refines true (journalLink []) (journalLink_steady []) eq_refl eq_refl) w r s p E Ep) as Ho.
  assert (Hp : p = Ok (Journal.prefix_of [] false [])).
  { change p with (s, p).2. rewrite <- Ep. clear. vm_compute. reflexivity. }
  rewrite Hp in Ho. change (5 + _ <=? _) with true in Ho. destruct Ho as (Hr & _ & Hu). rewrite Hr.
  exists w, (Journal.prefix_of [] false []). split; [reflexivity|]. split; [reflexivity|exact Hu].
Defined.

End RoleRuns.
