(* ===== verification/Supervisor.v ===== *)
(** * The supervisor's plans (internal/supervisor: supervisor.go, slots.go, fabric.go, launch.go)

    Before it starts a process the supervisor decides what each role is given: its
    capabilities, the roles it may talk to, the channels and keys for that, and the
    descriptor slots; the result is sealed per child.  [BuildPlan] checks grants
    against the authority inventory, [OpenFabric] opens the two ends of every mutual
    edge, [MaterializeLaunch] makes the sealed launch tokens.  [BuildPlan_exact] and
    [launch_confined] are about privilege, [fabric_delivers] about the channels,
    [launch_seal_binds] about the seals. *)

From stdpp Require Import gmap.
From S2P Require Import Prelude Sha256 Authority Codec Crypto Ipc.
Import Authority.

Module Supervisor.

Inductive Error :=
| SError (code : string)
| AError (e : Authority.Error)
| IError (e : Ipc.Error).

Definition fail (code : string) : Error := SError code.

(** [sort.Slice] with a comparison under which elements that are not ordered are equal. *)
Definition by_less {A} (less : A -> A -> bool) (a b : A) : Prop := less b a = false.

#[global] Instance by_less_dec {A} (less : A -> A -> bool) : RelDecision (by_less less).
Proof. intros a b. unfold by_less. apply _. Defined.

Definition sort_slice {A} (less : A -> A -> bool) (l : list A) : list A := merge_sort (by_less less) l.

(** ** Plans (supervisor.go) *)

Record ChildSpec := mkChild { CRole : string; Confer : list string; IPCPeers : list string }.

Record Plan_ := mkPlan { Children : list ChildSpec }.

(** The second check of the conferred capabilities. *)
Fixpoint check_confer (role : string) (caps : list string) : res Error unit :=
  match caps with
  | [] => Ok tt
  | c :: caps =>
      let! ok := map_err AError (Allows role c) in
      if negb ok then Err (fail "denied") else check_confer role caps
  end.

Fixpoint check_peers (role : string) (peers : list string) : res Error unit :=
  match peers with
  | [] => Ok tt
  | p :: peers =>
      if bool_decide (p = role) then Err (fail "ipc")
      else if bool_decide (p = ""%string) then Err (fail "ipc")
      else check_peers role peers
  end.

Definition normalized (c : ChildSpec) : ChildSpec :=
  mkChild (CRole c) (sort_slice String.ltb (Confer c)) (sort_slice String.ltb (IPCPeers c)).

(** The loop over the children; [seen] is the set of roles so far. *)
Fixpoint build_children (cs : list ChildSpec) (seen : list string) : res Error (list ChildSpec) :=
  match cs with
  | [] => Ok []
  | c :: cs =>
      if bool_decide (CRole c = ""%string) then Err (fail "role") else
      if bool_decide (CRole c ∈ seen) then Err (fail "duplicate") else
      if len (Confer c) =? 0 then Err (fail "confer") else
      match DeniedProbe (CRole c) (Confer c) with
      | Err _ => Err (fail "denied")
      | Panic => Panic
      | Ok _ =>
          let! _ := check_confer (CRole c) (Confer c) in
          let! _ := check_peers (CRole c) (IPCPeers c) in
          let! out := build_children cs (CRole c :: seen) in
          Ok (normalized c :: out)
      end
  end.

Definition role_less (a b : ChildSpec) : bool := String.ltb (CRole a) (CRole b).

Definition BuildPlan (children : list ChildSpec) : res Error Plan_ :=
  if len children =? 0 then Err (fail "empty") else
  let! out := build_children children [] in
  Ok (mkPlan (sort_slice role_less out)).

Definition defaultPeers (role : string) : list string :=
  if bool_decide (role = RoleSupervisor) then [RoleNet; RoleAuth; RoleJournal; RoleAudit]
  else if bool_decide (role = RoleNet) then [RoleSupervisor; RoleParser; RoleAuth]
  else if bool_decide (role = RoleAuth) then [RoleSupervisor; RoleNet; RolePlan; RoleApply]
  else if bool_decide (role = RoleParser) then [RoleNet; RolePlan]
  else if bool_decide (role = RoleIndex) then [RolePlan; RoleApply]
  else if bool_decide (role = RolePlan) then [RoleAuth; RoleApply; RoleParser; RoleIndex]
  else if bool_decide (role = RoleApply) then [RoleAuth; RolePlan; RoleJournal; RoleIndex]
  else if bool_decide (role = RoleJournal) then [RoleApply; RoleAudit; RoleSupervisor]
  else if bool_decide (role = RoleAudit) then [RoleJournal; RoleSupervisor]
  else [].

Definition MinimalRuntimePlan : res Error Plan_ :=
  BuildPlan (map (fun e => mkChild (Role e) (MayHold e) (defaultPeers (Role e))) Inventory).

(** ** The fabric of channels (fabric.go) *)

Record pairKey := mkPair { Lo : string; Hi : string }.

#[global] Instance pairKey_eq_dec : EqDecision pairKey.
Proof. solve_decision. Defined.
#[global] Program Instance pairKey_countable : Countable pairKey := inj_countable' (fun p => (Lo p, Hi p)) (fun '(a, b) => mkPair a b) _.
Next Obligation. by intros []. Qed.

Definition makePair (a b : string) : res Error pairKey :=
  if bool_decide (a = ""%string) || bool_decide (b = ""%string) || bool_decide (a = b) then Err (fail "pair")
  else if String.ltb a b then Ok (mkPair a b) else Ok (mkPair b a).

(** The children by role; of two with the same role the last one. *)
Definition byRole (p : Plan_) : gmap string ChildSpec :=
  fold_left (fun m c => <[CRole c := c]> m) (Children p) ∅.

Fixpoint check_edges (m : gmap string ChildSpec) (role : string) (peers : list string) : res Error unit :=
  match peers with
  | [] => Ok tt
  | p :: peers =>
      match m !! p with
      | None => Err (fail "ipc")
      | Some other => if bool_decide (role ∈ IPCPeers other) then check_edges m role peers else Err (fail "ipc")
      end
  end.

Fixpoint check_graph (m : gmap string ChildSpec) (cs : list ChildSpec) : res Error unit :=
  match cs with
  | [] => Ok tt
  | c :: cs => let! _ := check_edges m (CRole c) (IPCPeers c) in check_graph m cs
  end.

Definition ValidateIPCGraph (p : Plan_) : res Error unit := check_graph (byRole p) (Children p).

(** The pairs of one child, then of all. *)
Fixpoint child_pairs (role : string) (peers : list string) (pairs : gset pairKey) : res Error (gset pairKey) :=
  match peers with
  | [] => Ok pairs
  | p :: peers => let! pk := makePair role p in child_pairs role peers ({[pk]} ∪ pairs)
  end.

Fixpoint plan_pairs (cs : list ChildSpec) (pairs : gset pairKey) : res Error (gset pairKey) :=
  match cs with
  | [] => Ok pairs
  | c :: cs => let! pairs := child_pairs (CRole c) (IPCPeers c) pairs in plan_pairs cs pairs
  end.

Definition pair_less (a b : pairKey) : bool :=
  if negb (bool_decide (Lo a = Lo b)) then String.ltb (Lo a) (Lo b) else String.ltb (Hi a) (Hi b).

(** Channels by their local and remote role. *)
Abbreviation Channels := (gmap (string * string) Ipc.ChannelState).

Record Fabric := mkFabric { FPlan : Plan_; Nonce : bytes; channels : Channels }.

Fixpoint open_pairs (rootKey nonce : bytes) (ps : list pairKey) (m : Channels) : res Error Channels :=
  match ps with
  | [] => Ok m
  | pk :: ps =>
      match Crypto.ChannelMACKey rootKey (Lo pk) (Hi pk) with
      | Panic => Panic
      | Err _ => Err (fail "key")
      | Ok macKey =>
          match Ipc.NewAuthenticatedChannel (Lo pk) (Hi pk) nonce macKey, Ipc.NewAuthenticatedChannel (Hi pk) (Lo pk) nonce macKey with
          | Ok l, Ok r => open_pairs rootKey nonce ps (<[(Hi pk, Lo pk) := r]> (<[(Lo pk, Hi pk) := l]> m))
          | Panic, _ | _, Panic => Panic
          | _, _ => Err (fail "ipc")
          end
      end
  end.

Definition OpenFabric (p : Plan_) (rootKey nonce : bytes) : res Error Fabric :=
  let! _ := ValidateIPCGraph p in
  if len rootKey <? 16 then Err (fail "key") else
  let! pairs := plan_pairs (Children p) ∅ in
  let ordered := sort_slice pair_less (elements pairs) in
  let! m := open_pairs rootKey nonce ordered ∅ in
  Ok (mkFabric p nonce m).

Definition Channel (f : Fabric) (local remote : string) : res Error Ipc.ChannelState :=
  match channels f !! (local, remote) with
  | Some ch => Ok ch
  | None => Err (fail "missing")
  end.

Definition PairCount (f : Fabric) : Z := Z.quot (Z.of_nat (size (channels f))) 2.

Definition endpoint_less (a b : string * string) : bool :=
  if negb (bool_decide (a.1 = b.1)) then String.ltb a.1 b.1 else String.ltb a.2 b.2.

Definition Endpoints (f : Fabric) : list (string * string) :=
  sort_slice endpoint_less (map fst (map_to_list (channels f))).

Definition set_channel (local remote : string) (ch : Ipc.ChannelState) (f : Fabric) : Fabric :=
  mkFabric (FPlan f) (Nonce f) (<[(local, remote) := ch]> (channels f)).

(** The channels are shared: what a call changes stays changed, also when it fails. *)
Definition Deliver (sender receiver : string) (typ : Z) (payload : bytes) (f : Fabric) : Fabric * res Error Ipc.Frame :=
  match Channel f sender receiver with
  | Panic => (f, Panic)
  | Err e => (f, Err e)
  | Ok src =>
      match Channel f receiver sender with
      | Panic => (f, Panic)
      | Err e => (f, Err e)
      | Ok _ =>
          match Ipc.Encode src typ payload with
          | Panic => (f, Panic)
          | Err (src, e) => (set_channel sender receiver src f, Err (IError e))
          | Ok (src, raw) =>
              let f := set_channel sender receiver src f in
              match Channel f receiver sender with
              | Ok dst =>
                  match Ipc.Decode dst raw with
                  | Panic => (f, Panic)
                  | Err (dst, e) => (set_channel receiver sender dst f, Err (IError e))
                  | Ok (dst, fr) => (set_channel receiver sender dst f, Ok fr)
                  end
              | _ => (f, Panic)
              end
          end
      end
  end.

(** ** Descriptor slots (slots.go) *)

Definition DescIPCEndpoint : string := "ipc_endpoint".
Definition DescArchiveRoot : string := "archive_root".
Definition DescStagingRoot : string := "staging_root".
Definition DescQuarantineRoot : string := "quarantine_root".
Definition DescJournalSegment : string := "journal_segment".
Definition DescReadonlyJournal : string := "readonly_journal".
Definition DescEventSink : string := "event_sink".
Definition DescPolicyIdentity : string := "policy_identity".

Record DescriptorSlot := mkSlot { SKind : string; SPeer : string; SLabel : string }.

(** An unknown role, for which [Allows] fails, has no authority. *)
Definition archiveAuthorityOK (role : string) : bool :=
  existsb (fun cap => match Allows role cap with Ok b => b | _ => false end)
    [CapArchiveDescriptors; CapArchiveRoots; CapReadonlyArchiveRoot; CapArchives].

Definition slotAllowed (role kind : string) : res Error unit :=
  if bool_decide (kind ∈ [DescIPCEndpoint; DescPolicyIdentity; DescJournalSegment; DescReadonlyJournal; DescEventSink]) then Ok tt
  else if bool_decide (kind ∈ [DescArchiveRoot; DescStagingRoot; DescQuarantineRoot]) then
    if archiveAuthorityOK role then Ok tt else Err (fail "slot")
  else Err (fail "slot").

Fixpoint slots_allowed (role : string) (slots : list DescriptorSlot) : res Error unit :=
  match slots with
  | [] => Ok tt
  | s :: slots => let! _ := slotAllowed role (SKind s) in slots_allowed role slots
  end.

Definition ValidateSlots (role : string) (confer : list string) (slots : list DescriptorSlot) : res Error unit :=
  match DeniedProbe role confer with
  | Err _ => Err (fail "authority")
  | Panic => Panic
  | Ok _ => slots_allowed role slots
  end.

Definition SlotKinds (slots : list DescriptorSlot) : list string := map SKind slots.

(** ** Launch tokens (launch.go) *)

Record PeerKeyRef := mkKeyRef { KPeer : string; KeyID : bytes }.

Record ChildLaunch := mkLaunch {
  LRole : string;
  LConfer : list string;
  LSlots : list DescriptorSlot;
  LPeers : list PeerKeyRef;
  LNonce : bytes;
  Seal : bytes }.

Record LaunchSet := mkLaunchSet { LChildren : list ChildLaunch; SessionNonce : bytes; PlanDigest : bytes }.

Definition appendU16String (buf : bytes) (s : string) : bytes :=
  let b := sbytes s in
  let b := if 65535 <? len b then take (Z.to_nat 65535) b else b in
  buf ++ le_bytes 2 (u16 (len b)) ++ b.

Definition append_count {A} (buf : bytes) (l : list A) : bytes := buf ++ le_bytes 4 (u32 (len l)).

(** The preimage of the seal; the seal is not part of it. *)
Definition encodeChildCanonical (planDig : bytes) (c : ChildLaunch) : bytes :=
  let buf := appendU16String [] (LRole c) in
  let buf := buf ++ planDig ++ LNonce c in
  let buf := append_count buf (LConfer c) in
  let buf := fold_left appendU16String (LConfer c) buf in
  let buf := append_count buf (LSlots c) in
  let buf := fold_left (fun b s => appendU16String (appendU16String (appendU16String b (SKind s)) (SPeer s)) (SLabel s)) (LSlots c) buf in
  let buf := append_count buf (LPeers c) in
  fold_left (fun b p => appendU16String b (KPeer p) ++ KeyID p) (LPeers c) buf.

Definition sealChild (rootKey planDig : bytes) (c : ChildLaunch) : bytes :=
  Crypto.HMACSHA256 rootKey (encodeChildCanonical planDig c).

(** [_ = tr.Append(label, data)]. *)
Definition append_field (t : Crypto.Transcript) (label : string) (data : bytes) : Crypto.Transcript :=
  match Crypto.Append t label data with Ok t => t | _ => t end.

Definition planDigest (p : Plan_) : bytes :=
  let tr := append_field Crypto.NewTranscript "launch-plan-v1" [] in
  Crypto.Digest (fold_left (fun tr c =>
    let tr := append_field tr "role" (sbytes (CRole c)) in
    let tr := fold_left (fun tr cap => append_field tr "cap" (sbytes cap)) (Confer c) tr in
    fold_left (fun tr peer => append_field tr "peer" (sbytes peer)) (IPCPeers c) tr) (Children p) tr).

Definition slot_less (a b : DescriptorSlot) : bool :=
  if negb (bool_decide (SKind a = SKind b)) then String.ltb (SKind a) (SKind b)
  else if negb (bool_decide (SPeer a = SPeer b)) then String.ltb (SPeer a) (SPeer b)
  else String.ltb (SLabel a) (SLabel b).

Definition defaultSlots (role : string) (peers : list string) : list DescriptorSlot :=
  let slots := map (fun peer => mkSlot DescIPCEndpoint peer ("ipc:" ++ role ++ ":" ++ peer)%string) peers in
  let slots := slots ++
    (if bool_decide (role = RoleSupervisor) then [mkSlot DescPolicyIdentity "" "policy"]
     else if bool_decide (role = RoleApply) then
       [mkSlot DescArchiveRoot "" "archive"; mkSlot DescStagingRoot "" "staging"; mkSlot DescQuarantineRoot "" "quarantine"]
     else if bool_decide (role = RoleJournal) then [mkSlot DescJournalSegment "" "journal"]
     else if bool_decide (role = RoleAudit) then [mkSlot DescReadonlyJournal "" "journal-ro"; mkSlot DescEventSink "" "events"]
     else if bool_decide (role = RoleIndex) then [mkSlot DescArchiveRoot "" "archive-ro"]
     else []) in
  sort_slice slot_less slots.

Fixpoint peer_keys (rootKey : bytes) (role : string) (peers : list string) : res Error (list PeerKeyRef) :=
  match peers with
  | [] => Ok []
  | peer :: peers =>
      match Crypto.ChannelMACKey rootKey role peer with
      | Panic => Panic
      | Err _ => Err (fail "key")
      | Ok macKey => let! rest := peer_keys rootKey role peers in Ok (mkKeyRef peer (Codec.SHA256 macKey) :: rest)
      end
  end.

Definition keyref_less (a b : PeerKeyRef) : bool := String.ltb (KPeer a) (KPeer b).

Definition sealed (rootKey planDig : bytes) (c : ChildLaunch) : ChildLaunch :=
  mkLaunch (LRole c) (LConfer c) (LSlots c) (LPeers c) (LNonce c) (sealChild rootKey planDig c).

Fixpoint launch_children (rootKey nonce planDig : bytes) (cs : list ChildSpec) : res Error (list ChildLaunch) :=
  match cs with
  | [] => Ok []
  | c :: cs =>
      let slots := defaultSlots (CRole c) (IPCPeers c) in
      let! _ := ValidateSlots (CRole c) (Confer c) slots in
      let! peers := peer_keys rootKey (CRole c) (IPCPeers c) in
      let cl := mkLaunch (CRole c) (Confer c) slots (sort_slice keyref_less peers) nonce (zeros 32) in
      let! out := launch_children rootKey nonce planDig cs in
      Ok (sealed rootKey planDig cl :: out)
  end.

Definition launch_less (a b : ChildLaunch) : bool := String.ltb (LRole a) (LRole b).

Definition MaterializeLaunch (p : Plan_) (rootKey nonce : bytes) : res Error LaunchSet :=
  let! _ := ValidateIPCGraph p in
  if len rootKey <? 16 then Err (fail "key") else
  let planDig := planDigest p in
  let! out := launch_children rootKey nonce planDig (Children p) in
  Ok (mkLaunchSet (sort_slice launch_less out) nonce planDig).

Definition Verify (c : ChildLaunch) (rootKey planDig : bytes) : res Error unit :=
  if bool_decide (sealChild rootKey planDig c = Seal c) then Ok tt else Err (fail "seal").

Fixpoint verify_all (rootKey planDig : bytes) (cs : list ChildLaunch) : res Error unit :=
  match cs with
  | [] => Ok tt
  | c :: cs => let! _ := Verify c rootKey planDig in verify_all rootKey planDig cs
  end.

Definition VerifyAll (s : LaunchSet) (rootKey : bytes) : res Error unit := verify_all rootKey (PlanDigest s) (LChildren s).

(** ** Sorting *)

Lemma sort_slice_perm {A} (less : A -> A -> bool) l : sort_slice less l ≡ₚ l.
Proof. apply merge_sort_Permutation. Qed.

Lemma sort_slice_elem {A} (less : A -> A -> bool) l x : x ∈ sort_slice less l <-> x ∈ l.
Proof. by rewrite sort_slice_perm. Qed.

Lemma ltb_irrefl a : String.ltb a a = false.
Proof.
  unfold String.ltb. pose proof (String.compare_antisym a a) as Hc. by destruct (String.compare a a).
Qed.

Lemma ltb_total a b : String.ltb a b = false -> String.ltb b a = false -> a = b.
Proof.
  intros H1 H2. destruct (decide (a = b)) as [|Hne]; [done|]. rewrite (Crypto.ltb_flip a b) in H2 by done. by rewrite H1 in H2.
Qed.

#[local] Instance by_key_total {A} (key : A -> string) : Total (by_less (fun a b => String.ltb (key a) (key b))).
Proof.
  intros a b. unfold by_less.
  destruct (String.ltb (key b) (key a)) eqn:E; [right|by left].
  destruct (decide (key a = key b)) as [Hk|Hk]; [by rewrite Hk, ltb_irrefl in E|]. by rewrite (Crypto.ltb_flip (key b) (key a)), E by done.
Qed.

Lemma sorted_by_key {A} (key : A -> string) l :
  Sorted (by_less (fun a b => String.ltb (key a) (key b))) (sort_slice (fun a b => String.ltb (key a) (key b)) l).
Proof. apply (Sorted_merge_sort _). Qed.

(** ** What a plan grants *)

Definition granted (role cap : string) : Prop :=
  exists e, e ∈ Inventory /\ Role e = role /\ cap ∈ MayHold e /\ cap ∉ MustNot e.

Definition acceptable (c : ChildSpec) : Prop :=
  CRole c <> ""%string /\ Confer c <> [] /\ (forall cap, cap ∈ Confer c -> granted (CRole c) cap) /\
  (forall p, p ∈ IPCPeers c -> p <> CRole c /\ p <> ""%string).

Lemma check_confer_probe role caps : DeniedProbe role caps = Ok tt -> check_confer role caps = Ok tt.
Proof.
  induction caps as [|c caps IH]; [done|]. cbn [DeniedProbe check_confer]. destruct (Allows role c) as [[]|e|]; cbn; done || auto.
Qed.

Lemma check_peers_exact role peers : check_peers role peers = Ok tt <-> forall p, p ∈ peers -> p <> role /\ p <> ""%string.
Proof.
  induction peers as [|p peers IH]; cbn [check_peers]; [split; [set_solver|done]|].
  repeat case_bool_decide; [split; [done|]; intros Hp; by destruct (Hp p ltac:(set_solver))..|]. rewrite IH. set_solver.
Qed.

Lemma build_children_exact cs seen out :
  build_children cs seen = Ok out <->
  NoDup (map CRole cs) /\ (forall c, c ∈ cs -> CRole c ∉ seen) /\ Forall acceptable cs /\ out = map normalized cs.
Proof.
  revert seen out. induction cs as [|c cs IH]; intros seen out; cbn [build_children map].
  { split; [intros [= <-]; split_and!; [constructor|set_solver|constructor|done]|by intros (_ & _ & _ & ->)]. }
  rewrite Forall_cons, NoDup_cons. unfold acceptable at 1.
  case_bool_decide; [naive_solver|]. case_bool_decide; [split; [done|]; intros (_ & Hs & _); set_solver|].
  destruct (len (Confer c) =? 0) eqn:El; reflect_bools.
  { apply len_zero_nil in El. rewrite El. naive_solver. }
  assert (Hne : Confer c <> []) by (intros E; by rewrite E in El).
  destruct (DeniedProbe (CRole c) (Confer c)) as [[]|e|] eqn:Ed.
  2,3: split; [done|]; intros (_ & _ & ((_ & _ & Hg & _) & _) & _); apply DeniedProbe_exact in Hg; congruence.
  rewrite check_confer_probe by done. cbn [bind]. pose proof (proj1 (DeniedProbe_exact _ _) Ed) as Hg.
  destruct (check_peers (CRole c) (IPCPeers c)) as [[]|e|] eqn:Ep; cbn [bind].
  2,3: split; [done|]; intros (_ & _ & ((_ & _ & _ & Hp) & _) & _); apply check_peers_exact in Hp; congruence.
  pose proof (proj1 (check_peers_exact _ _) Ep) as Hp. specialize (IH (CRole c :: seen)).
  destruct (build_children cs (CRole c :: seen)) as [out'|e|]; cbn [bind].
  - destruct (proj1 (IH out') eq_refl) as (Hnd & Hs & Hf & ->). split; [intros [= <-]|].
    + split_and!; try done; [|intros x [->|Hx]%elem_of_cons; [done|]; specialize (Hs x Hx); set_solver].
      intros (x & Hx & Hin)%list_elem_of_fmap. specialize (Hs x Hin). set_solver.
    + by intros (_ & _ & _ & ->).
  - split; [done|]. intros ((Hni & Hnd) & Hs & (_ & Hf) & ->). exfalso. assert (Hx : @Err Error (list ChildSpec) e = Ok (map normalized cs)); [|done].
    apply IH. split_and!; try done. intros x Hx [Hr|Hr]%elem_of_cons; [|apply (Hs x); [set_solver|done]].
    apply Hni. rewrite <- Hr. apply list_elem_of_fmap. eauto.
  - split; [done|]. intros ((Hni & Hnd) & Hs & (_ & Hf) & ->). exfalso. assert (Hx : @Panic Error (list ChildSpec) = Ok (map normalized cs)); [|done].
    apply IH. split_and!; try done. intros x Hx [Hr|Hr]%elem_of_cons; [|apply (Hs x); [set_solver|done]].
    apply Hni. rewrite <- Hr. apply list_elem_of_fmap. eauto.
Qed.

Lemma normalized_same c : CRole (normalized c) = CRole c /\ Confer (normalized c) ≡ₚ Confer c /\ IPCPeers (normalized c) ≡ₚ IPCPeers c.
Proof. split_and!; [done|apply sort_slice_perm..]. Qed.

Lemma normalized_roles cs : map CRole (map normalized cs) = map CRole cs.
Proof. rewrite map_map. by apply map_ext. Qed.

Definition plannable (cs : list ChildSpec) : Prop := cs <> [] /\ NoDup (map CRole cs) /\ Forall acceptable cs.

Lemma BuildPlan_Ok cs p :
  BuildPlan cs = Ok p <-> plannable cs /\ p = mkPlan (sort_slice role_less (map normalized cs)).
Proof.
  unfold BuildPlan, plannable. destruct (len cs =? 0) eqn:El; reflect_bools.
  { apply len_zero_nil in El as ->. naive_solver. }
  assert (Hne : cs <> []) by (intros E; by rewrite E in El). pose proof (build_children_exact cs []) as Hb.
  destruct (build_children cs []) as [out|e|]; cbn [bind].
  - destruct (proj1 (Hb out) eq_refl) as (Hnd & _ & Hf & ->). split; [intros [= <-]; by split_and!|by intros (_ & ->)].
  - split; [done|]. intros ((_ & Hnd & Hf) & _). exfalso. assert (Hx : @Err Error (list ChildSpec) e = Ok (map normalized cs)); [|done]. apply Hb. set_solver.
  - split; [done|]. intros ((_ & Hnd & Hf) & _). exfalso. assert (Hx : @Panic Error (list ChildSpec) = Ok (map normalized cs)); [|done]. apply Hb. set_solver.
Qed.

Lemma probe_total role caps : DeniedProbe role caps <> Panic.
Proof.
  induction caps as [|c caps IH]; cbn [DeniedProbe]; [done|]. assert (Ha : Allows role c <> Panic); [|destruct (Allows role c) as [[]|e|]; cbn [bind negb]; done].
  unfold Allows. induction Inventory as [|e es IHe]; cbn; [done|]. by repeat case_match.
Qed.

Lemma check_peers_total role peers : check_peers role peers <> Panic.
Proof. induction peers; cbn; by repeat case_match. Qed.

Lemma build_children_total cs seen : build_children cs seen <> Panic.
Proof.
  revert seen. induction cs as [|c cs IH]; intros seen; cbn [build_children]; [done|]. do 3 (case_match; [done|]).
  destruct (DeniedProbe (CRole c) (Confer c)) as [[]|e|] eqn:Ed; [|done|by apply probe_total in Ed].
  rewrite check_confer_probe by done. cbn [bind]. destruct (check_peers (CRole c) (IPCPeers c)) eqn:Ep; cbn [bind]; [|done|by apply check_peers_total in Ep].
  specialize (IH (CRole c :: seen)). by destruct (build_children cs _).
Qed.

(** A plan grants what the inventory allows and nothing else.  Planning succeeds
    exactly for a list of children with distinct roles, each with at least one
    capability, all of them granted to its role by the inventory and none denied, and
    with peers other than itself; the plan then has those children and no others, each
    with its own capabilities and peers, in the order of their roles. *)
Lemma BuildPlan_exact cs :
  match BuildPlan cs with
  | Ok p => plannable cs /\ Children p ≡ₚ map normalized cs /\ NoDup (map CRole (Children p)) /\ Sorted (by_less role_less) (Children p)
  | Err _ => ~ plannable cs
  | Panic => False
  end.
Proof.
  destruct (BuildPlan cs) as [p|e|] eqn:E.
  - apply BuildPlan_Ok in E as [Hp ->]. split; [done|]. cbn [Children]. split; [apply sort_slice_perm|].
    split; [|apply (sorted_by_key CRole)]. rewrite sort_slice_perm, normalized_roles. apply Hp.
  - intros Hp. assert (Hx : BuildPlan cs = Ok (mkPlan (sort_slice role_less (map normalized cs)))); [by apply BuildPlan_Ok|congruence].
  - unfold BuildPlan in E. case_match; [done|]. pose proof (build_children_total cs []). by destruct (build_children cs []).
Qed.

(** ** The edges of a plan and the channels of its fabric *)

Definition edge (p : Plan_) (a b : string) : Prop := exists c, c ∈ Children p /\ CRole c = a /\ b ∈ IPCPeers c.

(** The key of two roles. *)
Definition pair_of (a b : string) : pairKey := if String.ltb a b then mkPair a b else mkPair b a.

Definition ordered_pair (pk : pairKey) : Prop := Lo pk <> ""%string /\ Hi pk <> ""%string /\ String.ltb (Lo pk) (Hi pk) = true.

Lemma makePair_ok a b : a <> ""%string -> b <> ""%string -> a <> b -> makePair a b = Ok (pair_of a b) /\ ordered_pair (pair_of a b).
Proof.
  intros Ha Hb Hne. unfold makePair, pair_of, ordered_pair. rewrite !bool_decide_eq_false_2 by done. cbn [orb].
  destruct (String.ltb a b) eqn:E; [done|]. split; [done|]. cbn. by rewrite (Crypto.ltb_flip a b), E.
Qed.

Lemma pair_of_ends pk a b : ordered_pair pk -> a <> b -> pair_of a b = pk <-> (a, b) = (Lo pk, Hi pk) \/ (a, b) = (Hi pk, Lo pk).
Proof.
  intros (_ & _ & Ho) Hne. unfold pair_of. destruct pk as [l h]. cbn in *. split.
  - destruct (String.ltb a b); intros [= <- <-]; auto.
  - intros [[= -> ->]|[= -> ->]]; [by rewrite Ho|]. by rewrite (Crypto.ltb_flip l h), Ho.
Qed.

Definition good_peers (c : ChildSpec) : Prop := CRole c <> ""%string /\ forall p, p ∈ IPCPeers c -> p <> CRole c /\ p <> ""%string.

Lemma child_pairs_ok role peers pairs :
  role <> ""%string -> (forall p, p ∈ peers -> p <> role /\ p <> ""%string) ->
  exists s, child_pairs role peers pairs = Ok s /\ forall pk, pk ∈ s <-> pk ∈ pairs \/ exists p, p ∈ peers /\ pk = pair_of role p.
Proof.
  intros Hr. revert pairs. induction peers as [|p peers IH]; intros pairs Hp; cbn [child_pairs].
  { exists pairs. split; [done|]. set_solver. }
  destruct (Hp p) as [Hpr Hpn]; [set_solver|]. destruct (makePair_ok role p) as [-> _]; [done..|]. cbn [bind].
  destruct (IH ({[pair_of role p]} ∪ pairs)) as (s & Hs & Hin); [set_solver|]. exists s. split; [done|]. set_solver.
Qed.

Lemma plan_pairs_ok cs pairs :
  Forall good_peers cs ->
  exists s, plan_pairs cs pairs = Ok s /\
    forall pk, pk ∈ s <-> pk ∈ pairs \/ exists c p, c ∈ cs /\ p ∈ IPCPeers c /\ pk = pair_of (CRole c) p.
Proof.
  intros Hf. revert pairs. induction Hf as [|c cs [Hr Hp] Hf IH]; intros pairs; cbn [plan_pairs].
  { exists pairs. split; [done|]. set_solver. }
  destruct (child_pairs_ok (CRole c) (IPCPeers c) pairs Hr Hp) as (s1 & -> & H1). cbn [bind].
  destruct (IH s1) as (s & Hs & H2). exists s. split; [done|]. intros pk. rewrite H2, H1. split; [|set_solver].
  intros [[?|(p & ? & ?)]|(c' & p & ? & ? & ?)]; [by left|right; exists c, p; set_solver|right; exists c', p; set_solver].
Qed.

Section FabricProofs.
Context (rootKey nonce : bytes).
Hypothesis long_key : 16 <= len rootKey.
Hypothesis nonce_len : len nonce = 16.

(** The end of [a] of the channel between [a] and [b]. *)
Definition channel_key (a b : string) : bytes := match Crypto.ChannelMACKey rootKey a b with Ok k => k | _ => [] end.
Definition end_of (a b : string) : Ipc.ChannelState :=
  match Ipc.NewAuthenticatedChannel a b nonce (channel_key a b) with Ok ch => ch | _ => Ipc.NewChannel a b nonce end.

Lemma channel_key_ok a b : a <> ""%string -> b <> ""%string -> a <> b ->
  Crypto.ChannelMACKey rootKey a b = Ok (channel_key a b) /\ len (channel_key a b) = 32.
Proof.
  intros Ha Hb Hne. unfold channel_key. destruct (proj2 (Crypto.ChannelMACKey_agrees rootKey a b) long_key Ha Hb Hne) as (k & -> & Hk). done.
Qed.

Lemma channel_key_sym a b : channel_key a b = channel_key b a.
Proof. unfold channel_key. by rewrite (proj1 (Crypto.ChannelMACKey_agrees rootKey a b)). Qed.

Lemma end_of_ok a b : a <> ""%string -> b <> ""%string -> a <> b ->
  Ipc.NewAuthenticatedChannel a b nonce (channel_key a b) = Ok (end_of a b).
Proof.
  intros Ha Hb Hne. unfold end_of, Ipc.NewAuthenticatedChannel. destruct (channel_key_ok a b Ha Hb Hne) as [_ ->]. done.
Qed.

Lemma ends_paired a b : a <> ""%string -> b <> ""%string -> a <> b -> Ipc.known_role a -> Ipc.known_role b ->
  Ipc.paired (end_of a b) (end_of b a) /\ Ipc.QueueDepth (end_of b a) = 0 /\ Ipc.MaxFrame (end_of a b) = Ipc.MaxFrameBytes /\
  Ipc.LocalRole (end_of b a) = b /\ Ipc.RemoteRole (end_of b a) = a.
Proof.
  intros Ha Hb Hne Hka Hkb. pose proof (end_of_ok a b Ha Hb Hne) as E1. pose proof (end_of_ok b a Hb Ha (not_eq_sym Hne)) as E2.
  unfold Ipc.NewAuthenticatedChannel in E1, E2. destruct (channel_key_ok a b Ha Hb Hne) as [_ Hl]. rewrite <- channel_key_sym in E2. rewrite Hl in E1, E2.
  injection E1 as <-. injection E2 as <-. split; [|done]. unfold Ipc.paired, Ipc.wf_channel. cbn.
  split_and!; try done; unfold is_u64, is_u32; lia.
Qed.

Lemma open_pairs_ok ps m :
  Forall ordered_pair ps -> NoDup ps ->
  exists m', open_pairs rootKey nonce ps m = Ok m' /\
    (forall a b, a <> b -> m' !! (a, b) = if bool_decide (pair_of a b ∈ ps) then Some (end_of a b) else m !! (a, b)) /\
    (forall a, m' !! (a, a) = m !! (a, a)).
Proof.
  intros Hf. revert m. induction Hf as [|pk ps Hpk Hf IH]; intros m Hnd; cbn [open_pairs].
  { exists m. split; [done|]. split; [|done]. intros. by rewrite bool_decide_eq_false_2 by set_solver. }
  apply NoDup_cons in Hnd as [Hni Hnd]. pose proof Hpk as (Hl & Hh & Ho).
  assert (Hne : Lo pk <> Hi pk) by (intros E; by rewrite E, ltb_irrefl in Ho).
  destruct (channel_key_ok _ _ Hl Hh Hne) as [-> _]. rewrite end_of_ok by done. rewrite channel_key_sym, end_of_ok by done.
  destruct (IH (<[(Hi pk, Lo pk) := end_of (Hi pk) (Lo pk)]> (<[(Lo pk, Hi pk) := end_of (Lo pk) (Hi pk)]> m)) Hnd) as (m' & Hm & Hlk & Hd).
  exists m'. split; [done|]. split; [|intros a; rewrite Hd, !lookup_insert_ne; congruence]. intros a b Hab. rewrite (Hlk a b Hab). destruct (decide (pair_of a b = pk)) as [Hp|Hp].
  - rewrite (bool_decide_eq_true_2 (pair_of a b ∈ pk :: ps)) by set_solver. rewrite bool_decide_eq_false_2 by (by rewrite Hp).
    apply pair_of_ends in Hp as [[= -> ->]|[= -> ->]]; [| |done..].
    + by rewrite lookup_insert_ne, lookup_insert_eq by congruence.
    + by rewrite lookup_insert_eq.
  - rewrite (bool_decide_ext (pair_of a b ∈ pk :: ps) (pair_of a b ∈ ps)) by set_solver. case_bool_decide; [done|].
    rewrite !lookup_insert_ne; [done|..]; intros E; apply Hp, pair_of_ends; try done; [left|right]; congruence.
Qed.

(** Two ends that are connected, with what the second has received from the first. *)
Definition connected (a b : string) (n : Z) (m : Channels) : Prop :=
  exists x y, m !! (a, b) = Some x /\ m !! (b, a) = Some y /\ Ipc.paired x y /\
    Ipc.LocalRole y = b /\ Ipc.RemoteRole y = a /\ Ipc.MaxFrame x = Ipc.MaxFrameBytes /\ Ipc.QueueDepth y = n.

Lemma paired_back x y seq typ : Ipc.paired y x -> is_u64 seq -> Ipc.QueueDepth y < 1024 -> typ <> Ipc.TypeClose ->
  Ipc.paired (Ipc.received y seq typ) (Ipc.sent x typ).
Proof.
  intros ((A1 & A2 & A3 & A4 & A5) & (B1 & B2 & B3 & B4 & B5) & Cy & Cx & K1 & K2 & L & R & N & K & S & M) Hs Hq Ht.
  unfold Ipc.paired, Ipc.wf_channel, Ipc.received, Ipc.sent. cbn -[Z.add]. rewrite (proj2 (Z.eqb_neq typ Ipc.TypeClose)) by done.
  rewrite (u64_small (Ipc.QueueDepth y + 1)) by (unfold is_u64; lia). split_and!; try done; try lia; try apply A2; try apply A4; try apply B3; try apply B4; apply u64_range || apply Hs.
Qed.

Lemma connected_other a b a' b' n m x y : (a', b') <> (a, b) -> (a', b') <> (b, a) ->
  connected a' b' n m -> connected a' b' n (<[(b, a) := y]> (<[(a, b) := x]> m)).
Proof.
  intros H1 H2 (x' & y' & Hx & Hy & Hp). exists x', y'. rewrite !lookup_insert_ne by congruence. done.
Qed.

(** A frame from [a] to [b] is received there, and both directions stay connected. *)
Lemma Deliver_connected a b typ payload n n' f :
  a <> b -> connected a b n (channels f) -> connected b a n' (channels f) ->
  n < 1024 -> typ = Ipc.TypeRequest \/ typ = Ipc.TypeResponse -> len payload <= Ipc.MaxFrameBytes ->
  exists f' fr, Deliver a b typ payload f = (f', Ok fr) /\ Ipc.Sender fr = a /\ Ipc.Receiver fr = b /\ Ipc.Type_ fr = typ /\ Ipc.Payload fr = payload /\
    FPlan f' = FPlan f /\ connected a b (n + 1) (channels f') /\ connected b a n' (channels f') /\
    (forall a' b' k, (a', b') <> (a, b) -> (a', b') <> (b, a) -> connected a' b' k (channels f) -> connected a' b' k (channels f')).
Proof.
  intros Hab (x & y & Hx & Hy & Hp & Hl & Hr & Hm & Hq) (y2 & x2 & Hy2 & Hx2 & Hp2 & Hl2 & Hr2 & Hm2 & Hq2) Hn Ht Hlen.
  rewrite Hy in Hy2. injection Hy2 as <-. rewrite Hx in Hx2. injection Hx2 as <-.
  assert (Hty : 1 <= typ <= 3 /\ typ <> Ipc.TypeClose) by (destruct Ht as [-> | ->]; done). destruct Hty as [Hty Hnc].
  destruct (Ipc.paired_step x y typ payload Hp) as (He & Hd & Hs); [lia|done|by rewrite Hm|].
  unfold Deliver, Channel, set_channel. cbn [channels]. rewrite Hx, Hy, He. rewrite lookup_insert_ne, Hy by congruence. rewrite Hd.
  eexists _, _. split; [done|]. cbn [Ipc.frame_of Ipc.peer Ipc.Sender Ipc.Receiver Ipc.Type_ Ipc.Payload Ipc.LocalRole Ipc.RemoteRole channels FPlan].
  do 5 (split; [done|]). split; [|split].
  - eexists _, _. split; [by rewrite lookup_insert_ne, lookup_insert_eq by congruence|]. split; [by rewrite lookup_insert_eq|].
    split; [by apply Hs|]. split_and!; try done. cbn. pose proof Hp as (_ & (_ & _ & _ & _ & ?) & _). rewrite u64_small; unfold is_u64; lia.
  - eexists _, _. split; [by rewrite lookup_insert_eq|]. split; [by rewrite lookup_insert_ne, lookup_insert_eq by congruence|].
    split; [apply paired_back; [done|apply u64_range|lia|done]|]. done.
  - intros a' b' k. apply connected_other.
Qed.

(** Messages through the fabric, one after the other. *)
Record message := mkMessage { MFrom : string; MTo : string; MType : Z; MPayload : bytes }.

Fixpoint deliver_all (ms : list message) (f : Fabric) : Fabric * list (res Error Ipc.Frame) :=
  match ms with
  | [] => (f, [])
  | m :: ms =>
      let '(f, r) := Deliver (MFrom m) (MTo m) (MType m) (MPayload m) f in
      let '(f, rs) := deliver_all ms f in (f, r :: rs)
  end.

(** What was received of a message. *)
Definition arrived (m : message) (r : res Error Ipc.Frame) : Prop :=
  exists fr, r = Ok fr /\ Ipc.Sender fr = MFrom m /\ Ipc.Receiver fr = MTo m /\ Ipc.Type_ fr = MType m /\ Ipc.Payload fr = MPayload m.

Definition between (a b : string) (m : message) : Prop := MFrom m = a /\ MTo m = b.
#[global] Instance between_dec a b m : Decision (between a b m).
Proof. unfold between. apply _. Defined.

Definition proper_message (p : Plan_) (m : message) : Prop :=
  edge p (MFrom m) (MTo m) /\ (MType m = Ipc.TypeRequest \/ MType m = Ipc.TypeResponse) /\ len (MPayload m) <= Ipc.MaxFrameBytes.

Lemma deliver_all_arrives p ms : forall (n : string -> string -> Z) f,
  (forall a b, edge p a b -> a <> b /\ edge p b a) -> (forall a b, edge p a b -> connected a b (n a b) (channels f)) ->
  Forall (proper_message p) ms -> (forall a b, n a b + len (filter (between a b) ms) <= 1024) ->
  Forall2 arrived ms (deliver_all ms f).2.
Proof.
  induction ms as [|m ms IH]; intros n f Hsym Hc Hf Hn; [constructor|]. apply Forall_cons in Hf as [(He & Ht & Hl) Hf]. cbn [deliver_all].
  destruct (Hsym _ _ He) as [Hne He']. pose proof (Hn (MFrom m) (MTo m)) as Hnm. rewrite filter_cons_True in Hnm by done. rewrite len_cons in Hnm.
  pose proof (len_nonneg (filter (between (MFrom m) (MTo m)) ms)).
  destruct (Deliver_connected _ _ (MType m) (MPayload m) _ _ f Hne (Hc _ _ He) (Hc _ _ He')) as (f' & fr & -> & Hs & Hr & Hty & Hp & Hpl & Hc1 & Hc2 & Hco); [lia|done..|].
  set (n' := fun a b => if bool_decide (between a b m) then n a b + 1 else n a b).
  specialize (IH n' f'). destruct (deliver_all ms f') as [f2 rs]. constructor; [exists fr; by split_and!|]. apply IH; [done| |done|].
  - intros a b Hab. unfold n'. case_bool_decide as Hb; [destruct Hb as [<- <-]; done|].
    destruct (decide ((a, b) = (MTo m, MFrom m))) as [[= -> ->]|Hd]; [done|]. apply Hco; [|done|by apply Hc].
    intros [= -> ->]. by apply Hb.
  - intros a b. specialize (Hn a b). unfold n'. rewrite filter_cons in Hn. case_decide; [rewrite bool_decide_eq_true_2 by done|rewrite bool_decide_eq_false_2 by done; lia].
    rewrite len_cons in Hn. lia.
Qed.

End FabricProofs.

(** ** The graph *)

Lemma byRole_in p r c : byRole p !! r = Some c -> c ∈ Children p /\ CRole c = r.
Proof.
  unfold byRole. assert (Hg : forall m : gmap string ChildSpec, (fold_left (fun m c => <[CRole c := c]> m) (Children p) m) !! r = Some c ->
    c ∈ Children p /\ CRole c = r \/ m !! r = Some c).
  { induction (Children p) as [|x cs IH]; intros m Hm; cbn [fold_left] in Hm; [by right|].
    destruct (IH _ Hm) as [[? ?]|Hi]; [left; set_solver|]. destruct (decide (CRole x = r)) as [<-|Hne].
    - rewrite lookup_insert_eq in Hi. injection Hi as ->. left. set_solver.
    - rewrite lookup_insert_ne in Hi by done. by right. }
  intros Hl. by destruct (Hg ∅ Hl).
Qed.

Lemma graph_mutual p a b : ValidateIPCGraph p = Ok tt -> edge p a b -> edge p b a.
Proof.
  unfold ValidateIPCGraph. intros Hv (c & Hc & <- & Hb).
  assert (Hce : check_edges (byRole p) (CRole c) (IPCPeers c) = Ok tt).
  { revert Hv. generalize (byRole p). induction (Children p) as [|x cs IH]; intros m Hv; [set_solver|]. cbn [check_graph] in Hv.
    destruct (check_edges m (CRole x) (IPCPeers x)) as [[]|e|] eqn:Ee; cbn [bind] in Hv; [|done..].
    apply elem_of_cons in Hc as [->|Hc]; [done|by apply IH]. }
  clear Hv. induction (IPCPeers c) as [|q qs IH]; [set_solver|]. cbn [check_edges] in Hce.
  destruct (byRole p !! q) as [o|] eqn:Eq; [|done]. case_bool_decide as Hin; [|done].
  apply elem_of_cons in Hb as [->|Hb]; [|by apply IH]. apply byRole_in in Eq as [Ho Hr]. by exists o.
Qed.

(** The children of a plan are acceptable. *)
Lemma plan_children cs p c : BuildPlan cs = Ok p -> c ∈ Children p -> acceptable c.
Proof.
  intros [(_ & _ & Hf) ->]%BuildPlan_Ok Hc. cbn in Hc. rewrite sort_slice_elem in Hc. apply list_elem_of_fmap in Hc as (x & -> & Hx).
  rewrite Forall_forall in Hf. destruct (Hf _ Hx) as (H1 & H2 & H3 & H4). destruct (normalized_same x) as (Hr & Hco & Hp).
  split; [by rewrite Hr|]. split; [|split].
  - intros E. rewrite E in Hco. by apply Permutation_nil_l in Hco.
  - intros cap Hcap. rewrite Hr. apply H3. by rewrite <- Hco.
  - intros q Hq. rewrite Hr. apply H4. by rewrite <- Hp.
Qed.

Lemma plan_role_unique cs p c c' : BuildPlan cs = Ok p -> c ∈ Children p -> c' ∈ Children p -> CRole c = CRole c' -> c = c'.
Proof.
  intros [(_ & Hnd & _) ->]%BuildPlan_Ok. cbn [Children]. set (l := sort_slice _ _). intros Hc Hc' Hr.
  assert (Hl : NoDup (map CRole l)) by (unfold l; by rewrite sort_slice_perm, normalized_roles).
  apply list_elem_of_lookup in Hc as [i Hi]. apply list_elem_of_lookup in Hc' as [j Hj].
  assert (i = j); [|congruence]. eapply (NoDup_lookup (map CRole l)); [done|..]; rewrite list_lookup_fmap; [by rewrite Hi|by rewrite Hj, Hr].
Qed.

Lemma acceptable_known c : acceptable c -> Ipc.known_role (CRole c).
Proof.
  intros (_ & Hne & Hg & _). destruct (Confer c) as [|cap caps]; [done|]. destruct (Hg cap) as (e & He & <- & _); [set_solver|].
  unfold Ipc.known_role. assert (Hall : Forall (fun e => Role e ∈ required) Inventory) by (apply (bool_decide_unpack _); vm_compute; exact I).
  rewrite Forall_forall in Hall. by apply Hall.
Qed.

Lemma edge_ends cs p a b : BuildPlan cs = Ok p -> ValidateIPCGraph p = Ok tt -> edge p a b ->
  a <> b /\ a <> ""%string /\ b <> ""%string /\ Ipc.known_role a /\ Ipc.known_role b.
Proof.
  intros Hb Hv He. pose proof (graph_mutual _ _ _ Hv He) as (d & Hd & Hdr & _). destruct He as (c & Hc & Hcr & Hin).
  pose proof (plan_children _ _ _ Hb Hc) as Ha. pose proof (plan_children _ _ _ Hb Hd) as Ha'.
  pose proof (acceptable_known _ Ha). pose proof (acceptable_known _ Ha'). destruct Ha as (Hn & _ & _ & Hp). destruct (Hp _ Hin). subst. done.
Qed.

(** C30. The fabric connects exactly the roles that the plan connects.  For a plan whose
    edges are mutual, opening succeeds, there is a channel from one role to another
    exactly when the plan has that edge, and messages sent over any edges in any order,
    each within the limits of a frame and at most 1024 in each direction of an edge, arrive at their receiver,
    each with its sender, type and content. *)
Theorem fabric_delivers cs p rootKey nonce :
  BuildPlan cs = Ok p -> ValidateIPCGraph p = Ok tt -> 16 <= len rootKey -> len nonce = 16 ->
  exists f, OpenFabric p rootKey nonce = Ok f /\
    (forall a b, is_Some (channels f !! (a, b)) <-> edge p a b) /\
    (forall ms, Forall (proper_message p) ms -> (forall a b, len (filter (between a b) ms) <= 1024) ->
       Forall2 arrived ms (deliver_all ms f).2).
Proof.
  intros Hb Hv Hk Hn. pose proof (edge_ends cs p) as Hends.
  destruct (plan_pairs_ok (Children p) ∅) as (ps & Hps & Hin).
  { apply Forall_forall. intros c Hc. destruct (plan_children _ _ _ Hb Hc) as (? & _ & _ & ?). by split. }
  assert (Hpe : forall pk, pk ∈ ps <-> exists a b, edge p a b /\ pk = pair_of a b).
  { intros pk. rewrite Hin. unfold edge. split; [intros [?|(c & q & ? & ? & ->)]; [set_solver|]; exists (CRole c), q; eauto|].
    intros (a & b & (c & Hc & <- & Hq) & ->). right. eauto. }
  destruct (open_pairs_ok rootKey nonce Hk Hn (sort_slice pair_less (elements ps)) ∅) as (m & Hm & Hlk & Hd).
  { apply Forall_forall. intros pk. rewrite sort_slice_elem, elem_of_elements, Hpe. intros (a & b & He & ->).
    destruct (Hends a b Hb Hv He) as (? & ? & ? & _). by apply makePair_ok. }
  { rewrite sort_slice_perm. apply NoDup_elements. }
  assert (Hch : forall a b, a <> b -> m !! (a, b) = if bool_decide (pair_of a b ∈ ps) then Some (end_of rootKey nonce a b) else None).
  { intros a b Hab. rewrite Hlk by done. erewrite bool_decide_ext; [done|]. by rewrite sort_slice_elem, elem_of_elements. }
  assert (Hedge : forall a b, a <> b -> pair_of a b ∈ ps <-> edge p a b).
  { intros a b Hab. rewrite Hpe. split; [|eauto]. intros (a' & b' & He & Hp). destruct (Hends a' b' Hb Hv He) as (Hne & Ha & Hb' & _).
    destruct (makePair_ok a' b') as [_ Ho]; [done..|]. apply (pair_of_ends _ a b Ho Hab) in Hp.
    pose proof (proj1 (pair_of_ends _ a' b' Ho Hne) eq_refl) as Hp'. pose proof (graph_mutual _ _ _ Hv He).
    destruct Hp as [Hp|Hp], Hp' as [Hp'|Hp']; congruence. }
  exists (mkFabric p nonce m). split; [|split].
  - unfold OpenFabric. rewrite Hv. cbn [bind]. rewrite (proj2 (Z.ltb_ge _ _)) by done. rewrite Hps. cbn [bind]. by rewrite Hm.
  - intros a b. cbn [channels]. destruct (decide (a = b)) as [<-|Hab].
    + rewrite Hd, lookup_empty. split; [by intros []|]. intros He. by destruct (Hends a a Hb Hv He).
    + rewrite (Hch a b Hab). case_bool_decide as Hp; rewrite Hedge in Hp by done; [by split|]. split; [by intros []|done].
  - intros ms Hf Hc. apply (deliver_all_arrives p ms (fun _ _ => 0)); [| |done|intros a b; specialize (Hc a b); lia].
    + intros a b He. split; [apply (Hends a b Hb Hv He)|by eapply graph_mutual].
    + intros a b He. destruct (Hends a b Hb Hv He) as (Hne & Ha & Hb' & Hka & Hkb).
      destruct (ends_paired rootKey nonce Hk Hn a b) as (Hp & Hq & Hmf & Hlr & Hrr); [done..|]. exists (end_of rootKey nonce a b), (end_of rootKey nonce b a). cbn [channels].
      split; [rewrite Hch, bool_decide_eq_true_2; [done|by apply Hedge|done]|].
      split; [rewrite Hch, bool_decide_eq_true_2; [done|apply Hedge; [done|by eapply graph_mutual]|done]|]. done.
Qed.

(** ** What a seal binds *)

#[local] Transparent hmac_sha256.
Lemma hmac_unfold k m :
  hmac_sha256 k m = sha256 (map (byte_xor 0x5c) (hmac_key k) ++ sha256 (map (byte_xor 0x36) (hmac_key k) ++ m)).
Proof. reflexivity. Qed.
#[local] Opaque hmac_sha256.

Lemma hmac_collision k m1 m2 : Crypto.HMACSHA256 k m1 = Crypto.HMACSHA256 k m2 ->
  m1 = m2 \/ exists x y, x <> y /\ sha256 x = sha256 y.
Proof.
  unfold Crypto.HMACSHA256. rewrite !hmac_unfold. intros E. destruct (decide (m1 = m2)) as [|Hne]; [by left|right].
  set (i1 := sha256 (map (byte_xor 0x36) (hmac_key k) ++ m1)) in *. set (i2 := sha256 (map (byte_xor 0x36) (hmac_key k) ++ m2)) in *.
  destruct (decide (i1 = i2)) as [Hi|Hi].
  - eexists _, _. split; [|exact Hi]. intros Hx. by apply app_inv_head in Hx.
  - eexists _, _. split; [|exact E]. intros Hx. by apply app_inv_head in Hx.
Qed.

(** Encoders whose output can be told from what follows it. *)
Definition prefix_free {A} (ok : A -> Prop) (enc : A -> bytes) : Prop :=
  forall x y r1 r2, ok x -> ok y -> enc x ++ r1 = enc y ++ r2 -> x = y /\ r1 = r2.

Definition short (s : string) : Prop := len (sbytes s) <= 65535.
Definition string_bytes (s : string) : bytes := le_bytes 2 (len (sbytes s)) ++ sbytes s.

Lemma appendU16String_within buf s : short s -> appendU16String buf s = buf ++ string_bytes s.
Proof.
  unfold appendU16String, short, string_bytes. intros Hs. pose proof (len_nonneg (sbytes s)). rewrite (proj2 (Z.ltb_ge _ _)) by lia.
  unfold u16. by rewrite Z.mod_small by lia.
Qed.

Lemma string_bytes_free : prefix_free short string_bytes.
Proof.
  intros x y r1 r2 Hx Hy E. unfold string_bytes, short in *. rewrite <- !app_assoc in E. pose proof (len_nonneg (sbytes x)). pose proof (len_nonneg (sbytes y)).
  apply app_inj_1 in E as [El E]; [|by rewrite !length_le_bytes]. apply le_bytes_inj in El; [|cbn; lia..].
  apply app_inj_1 in E as [Es E]; [|unfold len in El; lia]. by apply sbytes_inj in Es as ->.
Qed.

Lemma fixed_free n : prefix_free (fun b : bytes => len b = n) (fun b => b).
Proof. intros x y r1 r2 Hx Hy E. apply app_inj_1 in E; [done|]. unfold len in *. lia. Qed.

Lemma pair_free {A B} (P : A -> Prop) (Q : B -> Prop) f g :
  prefix_free P f -> prefix_free Q g -> prefix_free (fun x => P x.1 /\ Q x.2) (fun x => f x.1 ++ g x.2).
Proof.
  intros Hf Hg [a b] [a' b'] r1 r2 [Pa Qb] [Pa' Qb'] E. cbn in *. rewrite <- !app_assoc in E.
  apply Hf in E as [-> E]; [|done..]. by apply Hg in E as [-> ->].
Qed.

(** A list after its length. *)
Definition counted {A} (enc : A -> bytes) (l : list A) : bytes := le_bytes 4 (u32 (len l)) ++ concat (map enc l).

Lemma counted_free {A} (P : A -> Prop) (enc : A -> bytes) :
  prefix_free P enc -> prefix_free (fun l => len l < 4294967296 /\ Forall P l) (counted enc).
Proof.
  intros He l1 l2 r1 r2 [Hl1 Hf1] [Hl2 Hf2] E. unfold counted in E. rewrite <- !app_assoc in E. pose proof (len_nonneg l1) as Hz1. pose proof (len_nonneg l2) as Hz2.
  apply app_inj_1 in E as [El E]; [|by rewrite !length_le_bytes]. unfold u32 in El. rewrite !Z.mod_small in El by lia.
  apply le_bytes_inj in El; [|cbn; lia..]. clear Hl1 Hl2 Hz1 Hz2. assert (Hlen : length l1 = length l2) by (unfold len in El; lia). clear El.
  revert l2 Hf2 Hlen E. induction Hf1 as [|x l1 Hx Hf1 IH]; intros [|y l2] Hf2 Hlen E; try done. apply Forall_cons in Hf2 as [Hy Hf2].
  cbn [map concat] in E. rewrite <- !app_assoc in E. apply He in E as [-> E]; [|done..]. apply IH in E as [-> ->]; [done|done|by injection Hlen].
Qed.

Definition slot_bytes (s : DescriptorSlot) : bytes := string_bytes (SKind s) ++ string_bytes (SPeer s) ++ string_bytes (SLabel s).
Definition keyref_bytes (p : PeerKeyRef) : bytes := string_bytes (KPeer p) ++ KeyID p.

Definition short_slot (s : DescriptorSlot) : Prop := short (SKind s) /\ short (SPeer s) /\ short (SLabel s).
Definition short_keyref (p : PeerKeyRef) : Prop := short (KPeer p) /\ len (KeyID p) = 32.

Lemma slot_bytes_free : prefix_free short_slot slot_bytes.
Proof.
  intros [k p l] [k' p' l'] r1 r2 (H1 & H2 & H3) (H1' & H2' & H3') E. unfold slot_bytes in E. cbn [SKind SPeer SLabel] in *. rewrite <- !app_assoc in E.
  apply string_bytes_free in E as [-> E]; [|done..]. apply string_bytes_free in E as [-> E]; [|done..]. by apply string_bytes_free in E as [-> ->].
Qed.

Lemma keyref_bytes_free : prefix_free short_keyref keyref_bytes.
Proof.
  intros [p k] [p' k'] r1 r2 (H1 & H2) (H1' & H2') E. unfold keyref_bytes in E. cbn [KPeer KeyID] in *. rewrite <- !app_assoc in E.
  apply string_bytes_free in E as [-> E]; [|done..]. by apply (fixed_free 32) in E as [-> ->].
Qed.

(** Tokens within the limits of their encoding. *)
Definition wf_launch (c : ChildLaunch) : Prop :=
  short (LRole c) /\ len (LNonce c) = 16 /\ (len (LConfer c) < 4294967296 /\ Forall short (LConfer c)) /\
  (len (LSlots c) < 4294967296 /\ Forall short_slot (LSlots c)) /\ (len (LPeers c) < 4294967296 /\ Forall short_keyref (LPeers c)).

Lemma fold_append {A} (enc : A -> bytes) (step : bytes -> A -> bytes) (P : A -> Prop) l buf :
  (forall b x, P x -> step b x = b ++ enc x) -> Forall P l -> fold_left step l buf = buf ++ concat (map enc l).
Proof.
  intros Hs Hf. revert buf. induction Hf as [|x l Hx Hf IH]; intros buf; cbn; [by rewrite app_nil_r|]. by rewrite Hs, IH, <- app_assoc by done.
Qed.

Lemma encodeChildCanonical_layout d c : wf_launch c ->
  encodeChildCanonical d c = string_bytes (LRole c) ++ d ++ LNonce c ++ counted string_bytes (LConfer c) ++ counted slot_bytes (LSlots c) ++
    counted keyref_bytes (LPeers c) ++ [].
Proof.
  intros (Hr & Hn & [_ Hc] & [_ Hs] & [_ Hp]). unfold encodeChildCanonical, append_count, counted.
  rewrite (fold_append string_bytes appendU16String short) by (done || (intros; by apply appendU16String_within)).
  rewrite (fold_append slot_bytes _ short_slot) by (done || (intros b [k p l] (? & ? & ?); unfold slot_bytes; cbn [SKind SPeer SLabel] in *; by rewrite !appendU16String_within, <- !app_assoc by done)).
  rewrite (fold_append keyref_bytes _ short_keyref) by (done || (intros b [p k] (? & ?); unfold keyref_bytes; cbn [KPeer KeyID] in *; by rewrite appendU16String_within, <- !app_assoc by done)).
  rewrite appendU16String_within by done. by rewrite <- !app_assoc, !app_nil_r.
Qed.

(** The fields under the seal. *)
Definition contents (c : ChildLaunch) := (LRole c, LConfer c, LSlots c, LPeers c, LNonce c).

(** A seal binds the whole token.  Two tokens sealed with the same value under the
    same key are for the same plan, role, session, capabilities, slots and peer keys,
    in the same order, unless there is a SHA-256 collision: no field can be moved,
    regrouped or exchanged under a seal. *)
Lemma launch_seal_binds rootKey d1 d2 c1 c2 :
  wf_launch c1 -> wf_launch c2 -> len d1 = 32 -> len d2 = 32 ->
  sealChild rootKey d1 c1 = sealChild rootKey d2 c2 ->
  d1 = d2 /\ contents c1 = contents c2 \/ exists x y, x <> y /\ sha256 x = sha256 y.
Proof.
  intros W1 W2 L1 L2 E. apply hmac_collision in E as [E|?]; [left|by right].
  rewrite !encodeChildCanonical_layout in E by done. destruct W1 as (R1 & N1 & C1 & S1 & P1), W2 as (R2 & N2 & C2 & S2 & P2). unfold contents.
  apply string_bytes_free in E as [-> E]; [|done..]. apply (fixed_free 32) in E as [-> E]; [|done..]. apply (fixed_free 16) in E as [-> E]; [|done..].
  apply (counted_free _ _ string_bytes_free) in E as [-> E]; [|done..]. apply (counted_free _ _ slot_bytes_free) in E as [-> E]; [|done..].
  apply (counted_free _ _ keyref_bytes_free) in E as [-> _]; done.
Qed.

(** ** What a launch set confers *)

Definition archive_kinds : list string := [DescArchiveRoot; DescStagingRoot; DescQuarantineRoot].

(** The slots of a role: archive kinds for apply, the archive root for index. *)
Lemma defaultSlots_kinds role peers sl : sl ∈ defaultSlots role peers ->
  (SKind sl ∉ archive_kinds) /\ slotAllowed role (SKind sl) = Ok tt \/
  SKind sl ∈ archive_kinds /\ (role = RoleApply \/ role = RoleIndex /\ SKind sl = DescArchiveRoot) /\ slotAllowed role (SKind sl) = Ok tt.
Proof.
  unfold defaultSlots. rewrite sort_slice_elem. cbv zeta. intros [(q & -> & _)%list_elem_of_fmap|Hs]%elem_of_app.
  { left. cbn [SKind]. split; [by apply (bool_decide_unpack _); vm_compute|done]. }
  repeat case_bool_decide; subst; repeat (apply elem_of_cons in Hs as [->|Hs]); try (by apply not_elem_of_nil in Hs); cbn [SKind];
    first [left; split; [by apply (bool_decide_unpack _); vm_compute|by vm_compute]
          |right; split; [by apply (bool_decide_unpack _); vm_compute|split; [auto|by vm_compute]]].
Qed.

Lemma default_slots_allowed role peers : slots_allowed role (defaultSlots role peers) = Ok tt.
Proof.
  pose proof (defaultSlots_kinds role peers) as Hk. induction (defaultSlots role peers) as [|sl sls IH]; [done|]. cbn [slots_allowed].
  assert (slotAllowed role (SKind sl) = Ok tt) as -> by (destruct (Hk sl ltac:(set_solver)) as [[_ ?]|(_ & _ & ?)]; done). apply IH. intros x Hx. apply Hk. set_solver.
Qed.

Lemma peer_keys_ok rootKey role peers :
  16 <= len rootKey -> role <> ""%string -> (forall p, p ∈ peers -> p <> role /\ p <> ""%string) ->
  peer_keys rootKey role peers = Ok (map (fun p => mkKeyRef p (Codec.SHA256 (channel_key rootKey role p))) peers).
Proof.
  intros Hk Hr. induction peers as [|p peers IH]; intros Hp; [done|]. cbn [peer_keys map]. destruct (Hp p) as [Hpr Hpn]; [set_solver|].
  destruct (channel_key_ok rootKey Hk role p) as [-> _]; [done..|]. rewrite IH; [done|]. intros x Hx. apply Hp. set_solver.
Qed.

(** The token of a child. *)
Definition token (rootKey nonce planDig : bytes) (c : ChildSpec) : ChildLaunch :=
  sealed rootKey planDig (mkLaunch (CRole c) (Confer c) (defaultSlots (CRole c) (IPCPeers c))
    (sort_slice keyref_less (map (fun p => mkKeyRef p (Codec.SHA256 (channel_key rootKey (CRole c) p))) (IPCPeers c))) nonce (zeros 32)).

Lemma launch_children_ok rootKey nonce planDig cs :
  16 <= len rootKey -> Forall acceptable cs -> launch_children rootKey nonce planDig cs = Ok (map (token rootKey nonce planDig) cs).
Proof.
  intros Hk Hf. induction Hf as [|c cs (Hr & Hne & Hg & Hp) Hf IH]; [done|]. cbn [launch_children map]. cbv zeta.
  unfold ValidateSlots. rewrite (proj2 (DeniedProbe_exact _ _) Hg), default_slots_allowed. cbn [bind]. rewrite peer_keys_ok by done. cbn [bind]. by rewrite IH.
Qed.

Lemma Verify_token rootKey nonce planDig c : Verify (token rootKey nonce planDig c) rootKey planDig = Ok tt.
Proof. unfold Verify. by rewrite bool_decide_eq_true_2. Qed.

Lemma verify_all_ok rootKey planDig ls : (forall l, l ∈ ls -> Verify l rootKey planDig = Ok tt) -> verify_all rootKey planDig ls = Ok tt.
Proof. induction ls as [|l ls IH]; intros Hl; [done|]. cbn. rewrite Hl by set_solver. apply IH. intros x Hx. apply Hl. set_solver. Qed.

(** C31. A launch set confers what the plan grants.  For a plan whose edges are mutual,
    the launch set can be made and its seals verify; it has one token per role of the
    plan, whose capabilities the inventory grants to the role; archive, staging and
    quarantine slots are held by apply alone, but for the archive root of index; and a
    token names a peer exactly for each edge, with the digest of the key that the other
    end of that edge has. *)
Theorem launch_confined cs p rootKey nonce :
  BuildPlan cs = Ok p -> ValidateIPCGraph p = Ok tt -> 16 <= len rootKey ->
  exists s, MaterializeLaunch p rootKey nonce = Ok s /\ VerifyAll s rootKey = Ok tt /\
    map LRole (LChildren s) ≡ₚ map CRole (Children p) /\
    forall l, l ∈ LChildren s ->
      (forall cap, cap ∈ LConfer l -> granted (LRole l) cap) /\
      (forall sl, sl ∈ LSlots l -> SKind sl ∈ archive_kinds -> LRole l = RoleApply \/ LRole l = RoleIndex /\ SKind sl = DescArchiveRoot) /\
      (forall b, edge p (LRole l) b <-> exists k, mkKeyRef b k ∈ LPeers l) /\
      (forall b k, mkKeyRef b k ∈ LPeers l -> k = Codec.SHA256 (channel_key rootKey (LRole l) b) /\ k = Codec.SHA256 (channel_key rootKey b (LRole l))).
Proof.
  intros Hb Hv Hk. assert (Hacc : Forall acceptable (Children p)) by (apply Forall_forall; intros c; by eapply plan_children).
  eexists. split; [unfold MaterializeLaunch; rewrite Hv; cbn [bind]; rewrite (proj2 (Z.ltb_ge _ _)) by done; cbv zeta; by rewrite launch_children_ok|].
  cbn [LChildren PlanDigest]. split; [|split].
  - apply verify_all_ok. intros l. cbn [LChildren PlanDigest]. rewrite sort_slice_elem. intros (c & -> & _)%list_elem_of_fmap. apply Verify_token.
  - rewrite sort_slice_perm, map_map. done.
  - intros l. rewrite sort_slice_elem. intros (c & -> & Hc)%list_elem_of_fmap. pose proof (plan_children _ _ _ Hb Hc) as (Hr & _ & Hg & Hp).
    unfold token, sealed. cbn [LRole LConfer LSlots LPeers]. split; [done|]. split; [|split].
    + intros sl Hs Ha. by destruct (defaultSlots_kinds _ _ _ Hs) as [[? _]|(_ & ? & _)].
    + intros b. setoid_rewrite sort_slice_elem. setoid_rewrite list_elem_of_fmap. split.
      * intros (c' & Hc' & Hrr & Hin). assert (c' = c) as -> by (by eapply plan_role_unique). eauto.
      * intros (k & q & [= -> ->] & Hin). by exists c.
    + intros b k. rewrite sort_slice_elem. intros (q & [= -> ->] & Hin)%list_elem_of_fmap. by rewrite (channel_key_sym _ q).
Qed.

(** ** Witnesses *)

Definition plan_demo : Plan_ := match MinimalRuntimePlan with Ok p => p | _ => mkPlan [] end.

Lemma plan_demo_ok : MinimalRuntimePlan = Ok plan_demo /\ ValidateIPCGraph plan_demo = Ok tt /\ len (Children plan_demo) = 9.
Proof. vm_compute. done. Qed.

Definition edgeb (p : Plan_) (a b : string) : bool :=
  existsb (fun c => bool_decide (CRole c = a) && bool_decide (b ∈ IPCPeers c)) (Children p).

Lemma edgeb_edge p a b : edgeb p a b = true -> edge p a b.
Proof.
  intros (c & Hc & [Hr Hb]%andb_true_iff)%existsb_exists. apply bool_decide_eq_true in Hr, Hb. exists c. split; [by apply list_elem_of_In|done].
Qed.

Definition messages_demo : list message :=
  [mkMessage RoleNet RoleParser 1 (str "x"); mkMessage RoleParser RolePlan 1 (str "y"); mkMessage RoleParser RoleNet 2 (str "z")].

Lemma fabric_delivers_witness :
  exists f, OpenFabric plan_demo (zeros 32) (zeros 16) = Ok f /\ Forall2 arrived messages_demo (deliver_all messages_demo f).2.
Proof.
  destruct plan_demo_ok as (Hp & Hv & _).
  destruct (fabric_delivers _ plan_demo (zeros 32) (zeros 16) Hp Hv) as (f & Ho & He & Hd); [vm_compute; congruence|reflexivity|].
  exists f. split; [exact Ho|]. apply Hd.
  - repeat constructor; try (vm_compute; congruence); try (by left); try (by right); apply edgeb_edge; vm_compute; reflexivity.
  - intros a b. assert (Hl : (length (filter (between a b) messages_demo) <= length messages_demo)%nat) by apply length_filter.
    unfold len. cbn in Hl |- *. lia.
Defined.

Lemma launch_confined_witness :
  exists s, MaterializeLaunch plan_demo (zeros 32) (zeros 16) = Ok s /\ VerifyAll s (zeros 32) = Ok tt /\ len (LChildren s) = 9.
Proof.
  destruct plan_demo_ok as (Hp & Hv & Hn).
  destruct (launch_confined _ plan_demo (zeros 32) (zeros 16) Hp Hv) as (s & Hm & Hvf & Hr & _); [vm_compute; congruence|].
  exists s. split; [exact Hm|]. split; [exact Hvf|]. apply Permutation_length in Hr. rewrite !length_map in Hr. unfold len in *. rewrite Hr. exact Hn.
Defined.

Definition token_demo : ChildLaunch := mkLaunch RoleNet [CapNetworkSockets] [] [] (zeros 16) [].

Lemma launch_seal_binds_witness :
  zeros 32 = zeros 32 /\ contents token_demo = contents token_demo \/ exists x y, x <> y /\ sha256 x = sha256 y.
Proof.
  apply (launch_seal_binds (zeros 32) (zeros 32) (zeros 32) token_demo token_demo); try reflexivity;
    (split; [vm_compute; congruence|]; split; [reflexivity|]; split; [split; [reflexivity|repeat constructor; vm_compute; congruence]|]; repeat split; constructor).
Defined.

End Supervisor.
