(* ===== verification/Confine.v ===== *)
(** * Confinement policy (internal/confine: role_policy.go, confine.go, apply.go,
      negative_role.go, require_*.go; internal/daemon: child_unix.go)

    What a role may hold decides the network and archive access of its process; a child
    checks what it was given ([NegativeRoleSemantic]) and, in release mode, refuses to run
    unless every probe of its confinement found what it should ([Confine]).
    [role_probes_agree]: the checks of the child accept everything the supervisor's
    validation accepts, and find what a role must not hold.  [Confine_release_exact] says
    when a child runs.  The probes themselves are system calls: their findings are the
    parameters of [Confine]. *)

From S2P Require Import Prelude Authority Supervisor.
Import Authority Supervisor.

Module Confine.

(** ** Findings (confine.go) *)

Definition StatusAvailable : string := "available".
Definition StatusUnavailable : string := "unavailable".
Definition StatusUnknown : string := "unknown".
Definition StatusDeniedExpected : string := "denied_as_expected".
Definition StatusUnexpectedAllow : string := "unexpected_allow".
Definition StatusSkipped : string := "skipped".

(** The platform and the detail text are left out. *)
Record Finding := mkFinding { ID : string; Control : string; Status : string }.

(** [Report.Findings]. *)
Abbreviation Report := (list Finding).

(** The error's code; its message is left out. *)
Record CError := cfail { CCode : string }.

Definition is_apply (f : Finding) : bool := String.prefix "APPLY-" (ID f).

(** The loop; [saw] says whether an APPLY finding was seen. *)
Fixpoint apply_available (fs : list Finding) (saw : bool) : res CError unit :=
  match fs with
  | [] => if saw then Ok tt else Err (cfail "confine")
  | f :: fs =>
      if negb (is_apply f) then apply_available fs saw else
      if bool_decide (Status f = StatusUnavailable) || bool_decide (Status f = StatusSkipped) then Err (cfail "confine")
      else apply_available fs true
  end.

Definition RequireApplyAvailable (r : Report) : res CError unit := apply_available r false.

(** A finding with its ID and one of two statuses. *)
Definition require_finding (id ok : string) (f : Finding) : res CError unit :=
  if negb (bool_decide (ID f = id)) then Err (cfail "confine") else
  if bool_decide (Status f = ok) || bool_decide (Status f = StatusSkipped) then Ok tt else Err (cfail "confine").

Definition RequireCapModeFinding := require_finding "NEG-CAP-MODE" StatusAvailable.
Definition RequireAllowRootLimitFinding := require_finding "APPLY-CAP-ALLOW-ROOTS" StatusAvailable.
Definition RequireConferredLimitFinding := require_finding "APPLY-CAP-RIGHTS" StatusAvailable.
Definition RequireAmbientFSReadFinding := require_finding "NEG-FS-READ" StatusDeniedExpected.
Definition RequireAmbientFSOpenFinding := require_finding "NEG-FS-OPEN" StatusDeniedExpected.
Definition RequireAmbientRoleNetFinding := require_finding "NEG-ROLE-NET" StatusDeniedExpected.
Definition RequireAmbientExecFinding := require_finding "NEG-EXEC" StatusDeniedExpected.
Definition RequireCapAmbientFinding := require_finding "NEG-CAP-AMBIENT" StatusAvailable.
Definition RequireNoNewPrivsFinding := require_finding "NEG-NO-NEW-PRIVS" StatusAvailable.
Definition RequireSeccompFilterFinding := require_finding "NEG-SECCOMP" StatusAvailable.
Definition RequireDumpableFinding := require_finding "NEG-DUMPABLE" StatusAvailable.
Definition RequireRlimitCoreFinding := require_finding "NEG-RLIMIT-CORE" StatusAvailable.
Definition RequireTraceCtlFinding := require_finding "NEG-TRACE-CTL" StatusAvailable.
Definition RequireArchiveFSPathFinding := require_finding "NEG-FS-PATH" StatusAvailable.
Definition RequireArchiveFSWriteFinding := require_finding "NEG-FS-WRITE" StatusDeniedExpected.
Definition RequireArchiveFSWriteAvailableFinding := require_finding "NEG-FS-WRITE" StatusAvailable.

Definition HasUnexpectedAllow (r : Report) : bool := existsb (fun f => bool_decide (Status f = StatusUnexpectedAllow)) r.

(** ** Roles (role_policy.go) *)

Inductive ArchiveFSMode := ArchiveFSNone | ArchiveFSReadonly | ArchiveFSReadWrite.

#[global] Instance ArchiveFSMode_eq_dec : EqDecision ArchiveFSMode.
Proof. solve_decision. Defined.

(** [err == nil && ok] *)
Definition allowed (role cap : string) : bool := match Allows role cap with Ok b => b | _ => false end.

Definition RoleMayHoldNetwork (role : string) : bool := allowed role CapNetworkSockets.

Definition RoleArchiveFSMode (role : string) : ArchiveFSMode :=
  if allowed role CapArchiveRoots then ArchiveFSReadWrite
  else if allowed role CapJournalDescriptor then ArchiveFSReadWrite
  else if allowed role CapReadonlyArchiveRoot then ArchiveFSReadonly
  else if allowed role CapReadonlyJournal then ArchiveFSReadonly
  else ArchiveFSNone.

(** The loop over the roots; [eval] is [filepath.EvalSymlinks]. *)
Fixpoint normalize_roots (eval : string -> option string) (roots seen : list string) : res CError (list string) :=
  match roots with
  | [] => Ok []
  | r :: roots =>
      if bool_decide (r = ""%string) then normalize_roots eval roots seen else
      if negb (String.prefix "/" r) then Err (cfail "roots") else
      match eval r with
      | None => Err (cfail "roots")
      | Some resolved =>
          if bool_decide (resolved ∈ seen) then normalize_roots eval roots seen else
          let! out := normalize_roots eval roots (resolved :: seen) in Ok (resolved :: out)
      end
  end.

Definition NormalizeAllowRoots (eval : string -> option string) (roots : list string) : res CError (list string) :=
  normalize_roots eval roots [].

(** ** What a role was given (negative_role.go) *)

Record RoleProbeInput := mkProbe { PRole : string; PConfer : list string; PSlotKinds : list string }.

Definition hasCap (cs : list string) (want : string) : bool := existsb (fun c => bool_decide (c = want)) cs.

Definition hasArchiveSlot (kinds : list string) : bool := existsb (fun k => bool_decide (k ∈ ["archive_root"; "staging_root"; "quarantine_root"]%string)) kinds.

(** The shape of the probes: a role, what it must not be given (with or without a look at
    the slots), and the capability that the inventory must deny. *)
Definition semantic (id control role : string) (forbidden : list string) (slots : bool) (denied : string) (inp : RoleProbeInput) : Finding :=
  if negb (bool_decide (PRole inp = role)) then mkFinding id control StatusSkipped else
  if existsb (hasCap (PConfer inp)) forbidden || (slots && hasArchiveSlot (PSlotKinds inp)) then mkFinding id control StatusUnexpectedAllow else
  match Allows role denied with
  | Ok false => mkFinding id control StatusDeniedExpected
  | _ => mkFinding id control StatusUnexpectedAllow
  end.

Definition negNetArchive (inp : RoleProbeInput) : Finding :=
  semantic "NEG-NET-ARCHIVE" "archive_descriptors" RoleNet [CapArchiveDescriptors; CapArchiveRoots; CapReadonlyArchiveRoot; CapArchives] true CapArchiveDescriptors inp.
Definition negNetKeys (inp : RoleProbeInput) : Finding :=
  semantic "NEG-NET-KEYS" "permanent_keys" RoleNet [CapPermanentKeys; CapKeys; CapLongTermKeys; CapIdentityKeys; CapIdentityHandle] false CapPermanentKeys inp.
Definition negNetJournal (inp : RoleProbeInput) : Finding :=
  semantic "NEG-NET-JOURNAL" "journal_writes" RoleNet [CapJournalWrites; CapJournalDescriptor; CapAuthenticatedRecords] false CapJournalWrites inp.
Definition negParserNet (inp : RoleProbeInput) : Finding :=
  semantic "NEG-PARSER-NET" "network_sockets" RoleParser [CapNetworkSockets; CapNetwork; CapNetworkAcceptLoop] false CapNetworkSockets inp.
Definition negParserKeys (inp : RoleProbeInput) : Finding :=
  semantic "NEG-PARSER-KEYS" "permanent_keys" RoleParser [CapPermanentKeys; CapKeys; CapLongTermKeys; CapIdentityKeys; CapIdentityHandle] false CapPermanentKeys inp.
Definition negParserArchives (inp : RoleProbeInput) : Finding :=
  semantic "NEG-PARSER-ARCHIVES" "archives" RoleParser [CapArchives; CapArchiveDescriptors; CapArchiveRoots; CapReadonlyArchiveRoot; CapArchiveContents] true CapArchives inp.
Definition negAuthAccept (inp : RoleProbeInput) : Finding :=
  semantic "NEG-AUTH-ACCEPT" "network_accept_loop" RoleAuth [CapNetworkAcceptLoop; CapNetworkSockets; CapNetwork] false CapNetworkAcceptLoop inp.
Definition negAuthContents (inp : RoleProbeInput) : Finding :=
  semantic "NEG-AUTH-CONTENTS" "archive_contents" RoleAuth [CapArchiveContents; CapArchiveDescriptors; CapArchiveRoots; CapReadonlyArchiveRoot; CapArchives] true CapArchiveContents inp.
Definition negAuthPub (inp : RoleProbeInput) : Finding :=
  semantic "NEG-AUTH-PUB" "publication_rights" RoleAuth [CapPublicationRights; CapPublication] false CapPublicationRights inp.
Definition negIndexPub (inp : RoleProbeInput) : Finding :=
  semantic "NEG-INDEX-PUB" "publication" RoleIndex [CapPublication; CapPublicationRights] false CapPublication inp.
Definition negIndexDelete (inp : RoleProbeInput) : Finding :=
  semantic "NEG-INDEX-DELETE" "deletion" RoleIndex [CapDeletion] false CapDeletion inp.
Definition negApplyKeys (inp : RoleProbeInput) : Finding :=
  semantic "NEG-APPLY-KEYS" "identity_keys" RoleApply [CapIdentityKeys; CapKeys; CapPermanentKeys; CapLongTermKeys; CapIdentityHandle] false CapIdentityKeys inp.
Definition negApplyPath (inp : RoleProbeInput) : Finding :=
  semantic "NEG-APPLY-PATH" "arbitrary_path_lookup" RoleApply [CapArbitraryPathLookup] false CapArbitraryPathLookup inp.
Definition negPlanWrite (inp : RoleProbeInput) : Finding :=
  semantic "NEG-PLAN-WRITE" "filesystem_writes" RolePlan [CapFilesystemWrites; CapArchiveRoots; CapArchiveDescriptors; CapArchives] true CapFilesystemWrites inp.
Definition negPlanKeys (inp : RoleProbeInput) : Finding :=
  semantic "NEG-PLAN-KEYS" "keys" RolePlan [CapKeys; CapPermanentKeys; CapLongTermKeys; CapIdentityKeys; CapIdentityHandle] false CapKeys inp.
Definition negPlanNet (inp : RoleProbeInput) : Finding :=
  semantic "NEG-PLAN-NET" "network" RolePlan [CapNetwork; CapNetworkSockets; CapNetworkAcceptLoop] false CapNetwork inp.
Definition negAuditDecide (inp : RoleProbeInput) : Finding :=
  semantic "NEG-AUDIT-DECIDE" "operation_decisions" RoleAudit [CapOperationDecisions; CapPolicyDecisions; CapAuthorizationPolicy] false CapOperationDecisions inp.
Definition negAuditArchives (inp : RoleProbeInput) : Finding :=
  semantic "NEG-AUDIT-ARCHIVES" "archives" RoleAudit [CapArchives; CapArchiveDescriptors; CapArchiveRoots; CapReadonlyArchiveRoot; CapArchiveContents; CapArchiveMutation] true CapArchives inp.
Definition negAuditSecrets (inp : RoleProbeInput) : Finding :=
  semantic "NEG-AUDIT-SECRETS" "secrets" RoleAudit [CapSecrets; CapKeys; CapPermanentKeys; CapLongTermKeys; CapIdentityKeys; CapIdentityHandle] false CapSecrets inp.
Definition negJournalNet (inp : RoleProbeInput) : Finding :=
  semantic "NEG-JOURNAL-NET" "network" RoleJournal [CapNetwork; CapNetworkSockets; CapNetworkAcceptLoop] false CapNetwork inp.
Definition negJournalPolicy (inp : RoleProbeInput) : Finding :=
  semantic "NEG-JOURNAL-POLICY" "policy_decisions" RoleJournal [CapPolicyDecisions; CapOperationDecisions; CapAuthorizationPolicy] false CapPolicyDecisions inp.
Definition negJournalMutate (inp : RoleProbeInput) : Finding :=
  semantic "NEG-JOURNAL-MUTATE" "archive_mutation" RoleJournal [CapArchiveMutation; CapArchives; CapArchiveRoots; CapArchiveDescriptors; CapArchiveContents; CapDeletion] true CapArchiveMutation inp.
Definition negSupParser (inp : RoleProbeInput) : Finding :=
  semantic "NEG-SUP-PARSER" "remote_content_parser" RoleSupervisor [CapRemoteContentParser; CapBoundedMessageIPC] false CapRemoteContentParser inp.
Definition negSupTraverse (inp : RoleProbeInput) : Finding :=
  semantic "NEG-SUP-TRAVERSE" "archive_traversal" RoleSupervisor [CapArchiveTraversal; CapArchives; CapArchiveDescriptors; CapArchiveRoots; CapReadonlyArchiveRoot; CapArchiveContents; CapArbitraryPathLookup] true CapArchiveTraversal inp.
Definition negSupKeys (inp : RoleProbeInput) : Finding :=
  semantic "NEG-SUP-KEYS" "long_term_keys" RoleSupervisor [CapLongTermKeys; CapPermanentKeys; CapKeys; CapIdentityKeys; CapIdentityHandle] false CapLongTermKeys inp.

Definition NegativeRoleSemantic (inp : RoleProbeInput) : list Finding := [
  negNetArchive inp;
  negNetKeys inp;
  negNetJournal inp;
  negParserNet inp;
  negParserKeys inp;
  negParserArchives inp;
  negAuthAccept inp;
  negAuthContents inp;
  negAuthPub inp;
  negIndexPub inp;
  negIndexDelete inp;
  negApplyKeys inp;
  negApplyPath inp;
  negPlanWrite inp;
  negPlanKeys inp;
  negPlanNet inp;
  negAuditDecide inp;
  negAuditArchives inp;
  negAuditSecrets inp;
  negJournalNet inp;
  negJournalPolicy inp;
  negJournalMutate inp;
  negSupParser inp;
  negSupTraverse inp;
  negSupKeys inp].

(** ** The child in release mode (apply.go, require_*.go, child_unix.go) *)

Record ApplyOptions := mkOptions { AllowRoots : list string; AllowRootFDs : list Z }.

(** What the system calls find: each is made at most once by [Confine]. *)
Record Probes := mkProbes {
  GOOS : string;
  EvalSymlinks : string -> option string;
  applyEngineering : string -> list string -> list Finding;
  AmbientFSReadProbeExisted : bool;
  LimitAllowRootFDs : ArchiveFSMode -> list Z -> Finding;
  NegativeCapMode : Finding;
  NegativeCapAmbient : Finding;
  NegativeNoNewPrivs : Finding;
  NegativeSeccompFilter : Finding;
  NegativeDumpable : Finding;
  NegativeRlimitCore : Finding;
  NegativeTraceCtl : Finding;
  NegativeFSRead : bool -> Finding;
  NegativeFSOpen : Finding;
  NegativeRoleNet : string -> Finding;
  NegativeExec : Finding;
  NegativeFSPath : string -> ApplyOptions -> Finding;
  NegativeFSPathWrite : string -> ApplyOptions -> Finding }.

Definition id_le (a b : Finding) : Prop := String.leb (ID a) (ID b) = true.

#[global] Instance id_le_dec : RelDecision id_le.
Proof. intros a b. unfold id_le. apply _. Defined.

Section Child.
Context (P : Probes).

Definition ApplyEngineeringOpts (role : string) (opts : ApplyOptions) : Report :=
  let mode := RoleArchiveFSMode role in
  let roots := AllowRoots opts in
  if bool_decide (mode = ArchiveFSNone) then merge_sort id_le (applyEngineering P role []) else
  if 0 <? len roots then
    match NormalizeAllowRoots (EvalSymlinks P) roots with
    | Ok norm => merge_sort id_le (applyEngineering P role norm)
    | _ => [mkFinding "APPLY-ALLOW-ROOTS" "path_allow_list" StatusUnavailable]
    end
  else merge_sort id_le (applyEngineering P role roots).

Definition RequireCapModeAvailable : res CError unit := RequireCapModeFinding (NegativeCapMode P).
Definition RequireCapAmbientEmpty : res CError unit := RequireCapAmbientFinding (NegativeCapAmbient P).
Definition RequireNoNewPrivsSet : res CError unit := RequireNoNewPrivsFinding (NegativeNoNewPrivs P).
Definition RequireSeccompFilter : res CError unit := RequireSeccompFilterFinding (NegativeSeccompFilter P).
Definition RequireDumpableClear : res CError unit := RequireDumpableFinding (NegativeDumpable P).
Definition RequireRlimitCoreZero : res CError unit := RequireRlimitCoreFinding (NegativeRlimitCore P).
Definition RequireTraceCtlDisabled : res CError unit := RequireTraceCtlFinding (NegativeTraceCtl P).
Definition RequireAmbientFSReadDenied (probeExisted : bool) : res CError unit := RequireAmbientFSReadFinding (NegativeFSRead P probeExisted).
Definition RequireAmbientFSOpenDenied : res CError unit := RequireAmbientFSOpenFinding (NegativeFSOpen P).
Definition RequireAmbientExecDenied : res CError unit := RequireAmbientExecFinding (NegativeExec P).

Definition RequireAmbientRoleNetDenied (role : string) : res CError unit :=
  if bool_decide (GOOS P = "freebsd"%string) then Ok tt else RequireAmbientRoleNetFinding (NegativeRoleNet P role).

Definition RequireArchiveFSPathAvailable (role : string) (opts : ApplyOptions) : res CError unit :=
  if bool_decide (RoleArchiveFSMode role = ArchiveFSNone) then Ok tt else RequireArchiveFSPathFinding (NegativeFSPath P role opts).

Definition RequireArchiveFSWriteDenied (role : string) (opts : ApplyOptions) : res CError unit :=
  if negb (bool_decide (RoleArchiveFSMode role = ArchiveFSReadonly)) then Ok tt else RequireArchiveFSWriteFinding (NegativeFSPathWrite P role opts).

Definition RequireArchiveFSWriteAvailable (role : string) (opts : ApplyOptions) : res CError unit :=
  if negb (bool_decide (RoleArchiveFSMode role = ArchiveFSReadWrite)) then Ok tt else RequireArchiveFSWriteAvailableFinding (NegativeFSPathWrite P role opts).

(** What [Confine] uses of the environment of a child. *)
Record ChildEnv := mkEnv { ERole : string; EAllowRoots : list string; EAllowRootFDs : list Z; ConferredRights : Finding }.

Definition Confine (release : bool) (e : ChildEnv) : res CError unit :=
  let fsReadProbeExisted := AmbientFSReadProbeExisted P in
  let allowRoots := LimitAllowRootFDs P (RoleArchiveFSMode (ERole e)) (EAllowRootFDs e) in
  let applyOpts := mkOptions (EAllowRoots e) (EAllowRootFDs e) in
  let r := ApplyEngineeringOpts (ERole e) applyOpts in
  if release then
    let! _ := RequireConferredLimitFinding (ConferredRights e) in
    let! _ := RequireAllowRootLimitFinding allowRoots in
    let! _ := RequireApplyAvailable r in
    let! _ := RequireCapModeAvailable in
    let! _ := RequireCapAmbientEmpty in
    let! _ := RequireNoNewPrivsSet in
    let! _ := RequireSeccompFilter in
    let! _ := RequireDumpableClear in
    let! _ := RequireRlimitCoreZero in
    let! _ := RequireTraceCtlDisabled in
    let! _ := RequireAmbientFSReadDenied fsReadProbeExisted in
    let! _ := RequireAmbientFSOpenDenied in
    let! _ := RequireAmbientRoleNetDenied (ERole e) in
    let! _ := RequireAmbientExecDenied in
    let! _ := RequireArchiveFSPathAvailable (ERole e) applyOpts in
    let! _ := RequireArchiveFSWriteDenied (ERole e) applyOpts in
    RequireArchiveFSWriteAvailable (ERole e) applyOpts
  else Ok tt.

End Child.

(** The roots of a child come as one string. *)
Fixpoint split_roots (raw : list Byte.byte) (cur : list Byte.byte) : list (list Byte.byte) :=
  let emit rest := if bool_decide (cur = []) then rest else cur :: rest in
  match raw with
  | [] => emit []
  | b :: raw => if byteZ b =? 58 then emit (split_roots raw []) else split_roots raw (cur ++ [b])
  end.

Definition splitAllowRoots (raw : bytes) : list bytes := split_roots raw [].

(** ** The probes of a role *)

Record row := mkRow { rid : string; rcontrol : string; rrole : string; rforbidden : list string; rslots : bool; rdenied : string }.

Definition run_row (inp : RoleProbeInput) (r : row) : Finding := semantic (rid r) (rcontrol r) (rrole r) (rforbidden r) (rslots r) (rdenied r) inp.

Definition rows : list row := [
  mkRow "NEG-NET-ARCHIVE" "archive_descriptors" RoleNet [CapArchiveDescriptors; CapArchiveRoots; CapReadonlyArchiveRoot; CapArchives] true CapArchiveDescriptors;
  mkRow "NEG-NET-KEYS" "permanent_keys" RoleNet [CapPermanentKeys; CapKeys; CapLongTermKeys; CapIdentityKeys; CapIdentityHandle] false CapPermanentKeys;
  mkRow "NEG-NET-JOURNAL" "journal_writes" RoleNet [CapJournalWrites; CapJournalDescriptor; CapAuthenticatedRecords] false CapJournalWrites;
  mkRow "NEG-PARSER-NET" "network_sockets" RoleParser [CapNetworkSockets; CapNetwork; CapNetworkAcceptLoop] false CapNetworkSockets;
  mkRow "NEG-PARSER-KEYS" "permanent_keys" RoleParser [CapPermanentKeys; CapKeys; CapLongTermKeys; CapIdentityKeys; CapIdentityHandle] false CapPermanentKeys;
  mkRow "NEG-PARSER-ARCHIVES" "archives" RoleParser [CapArchives; CapArchiveDescriptors; CapArchiveRoots; CapReadonlyArchiveRoot; CapArchiveContents] true CapArchives;
  mkRow "NEG-AUTH-ACCEPT" "network_accept_loop" RoleAuth [CapNetworkAcceptLoop; CapNetworkSockets; CapNetwork] false CapNetworkAcceptLoop;
  mkRow "NEG-AUTH-CONTENTS" "archive_contents" RoleAuth [CapArchiveContents; CapArchiveDescriptors; CapArchiveRoots; CapReadonlyArchiveRoot; CapArchives] true CapArchiveContents;
  mkRow "NEG-AUTH-PUB" "publication_rights" RoleAuth [CapPublicationRights; CapPublication] false CapPublicationRights;
  mkRow "NEG-INDEX-PUB" "publication" RoleIndex [CapPublication; CapPublicationRights] false CapPublication;
  mkRow "NEG-INDEX-DELETE" "deletion" RoleIndex [CapDeletion] false CapDeletion;
  mkRow "NEG-APPLY-KEYS" "identity_keys" RoleApply [CapIdentityKeys; CapKeys; CapPermanentKeys; CapLongTermKeys; CapIdentityHandle] false CapIdentityKeys;
  mkRow "NEG-APPLY-PATH" "arbitrary_path_lookup" RoleApply [CapArbitraryPathLookup] false CapArbitraryPathLookup;
  mkRow "NEG-PLAN-WRITE" "filesystem_writes" RolePlan [CapFilesystemWrites; CapArchiveRoots; CapArchiveDescriptors; CapArchives] true CapFilesystemWrites;
  mkRow "NEG-PLAN-KEYS" "keys" RolePlan [CapKeys; CapPermanentKeys; CapLongTermKeys; CapIdentityKeys; CapIdentityHandle] false CapKeys;
  mkRow "NEG-PLAN-NET" "network" RolePlan [CapNetwork; CapNetworkSockets; CapNetworkAcceptLoop] false CapNetwork;
  mkRow "NEG-AUDIT-DECIDE" "operation_decisions" RoleAudit [CapOperationDecisions; CapPolicyDecisions; CapAuthorizationPolicy] false CapOperationDecisions;
  mkRow "NEG-AUDIT-ARCHIVES" "archives" RoleAudit [CapArchives; CapArchiveDescriptors; CapArchiveRoots; CapReadonlyArchiveRoot; CapArchiveContents; CapArchiveMutation] true CapArchives;
  mkRow "NEG-AUDIT-SECRETS" "secrets" RoleAudit [CapSecrets; CapKeys; CapPermanentKeys; CapLongTermKeys; CapIdentityKeys; CapIdentityHandle] false CapSecrets;
  mkRow "NEG-JOURNAL-NET" "network" RoleJournal [CapNetwork; CapNetworkSockets; CapNetworkAcceptLoop] false CapNetwork;
  mkRow "NEG-JOURNAL-POLICY" "policy_decisions" RoleJournal [CapPolicyDecisions; CapOperationDecisions; CapAuthorizationPolicy] false CapPolicyDecisions;
  mkRow "NEG-JOURNAL-MUTATE" "archive_mutation" RoleJournal [CapArchiveMutation; CapArchives; CapArchiveRoots; CapArchiveDescriptors; CapArchiveContents; CapDeletion] true CapArchiveMutation;
  mkRow "NEG-SUP-PARSER" "remote_content_parser" RoleSupervisor [CapRemoteContentParser; CapBoundedMessageIPC] false CapRemoteContentParser;
  mkRow "NEG-SUP-TRAVERSE" "archive_traversal" RoleSupervisor [CapArchiveTraversal; CapArchives; CapArchiveDescriptors; CapArchiveRoots; CapReadonlyArchiveRoot; CapArchiveContents; CapArbitraryPathLookup] true CapArchiveTraversal;
  mkRow "NEG-SUP-KEYS" "long_term_keys" RoleSupervisor [CapLongTermKeys; CapPermanentKeys; CapKeys; CapIdentityKeys; CapIdentityHandle] false CapLongTermKeys].

Lemma semantic_rows inp : NegativeRoleSemantic inp = map (run_row inp) rows.
Proof. reflexivity. Qed.

(** The inventory denies what each probe asks it to deny. *)
Lemma rows_denied r : r ∈ rows -> Allows (rrole r) (rdenied r) = Ok false.
Proof.
  intros Hr. assert (Hall : forallb (fun r => match Allows (rrole r) (rdenied r) with Ok false => true | _ => false end) rows = true) by (vm_compute; reflexivity).
  rewrite forallb_forall in Hall. specialize (Hall r (proj1 (list_elem_of_In _ _) Hr)). by destruct (Allows _ _) as [[]|?|].
Qed.

Lemma hasCap_elem cs c : hasCap cs c = true <-> c ∈ cs.
Proof.
  unfold hasCap. rewrite existsb_exists. split; [intros (x & Hx & E); reflect_bools; subst; by apply list_elem_of_In|].
  intros Hc. exists c. split; [by apply list_elem_of_In|]. by rewrite bool_decide_eq_true_2.
Qed.

Definition has_archive (kinds : list string) : Prop := exists k, k ∈ kinds /\ k ∈ archive_kinds.

Lemma hasArchiveSlot_elem kinds : hasArchiveSlot kinds = true <-> has_archive kinds.
Proof.
  unfold hasArchiveSlot, has_archive. rewrite existsb_exists. split.
  - intros (k & Hk & E). reflect_bools. exists k. split; [by apply list_elem_of_In|done].
  - intros (k & Hk & E). exists k. split; [by apply list_elem_of_In|]. by rewrite bool_decide_eq_true_2.
Qed.

(** A probe reports what it looks for. *)
Definition violates (inp : RoleProbeInput) (r : row) : Prop :=
  PRole inp = rrole r /\ ((exists c, c ∈ rforbidden r /\ c ∈ PConfer inp) \/ (rslots r = true /\ has_archive (PSlotKinds inp))).

Lemma run_row_exact inp r : r ∈ rows -> Status (run_row inp r) = StatusUnexpectedAllow <-> violates inp r.
Proof.
  intros Hr. unfold run_row, semantic, violates. rewrite (rows_denied r Hr). case_bool_decide as E; cbn [negb]; [|split; [done|by intros [? _]]].
  assert (Hx : existsb (hasCap (PConfer inp)) (rforbidden r) = true <-> exists c, c ∈ rforbidden r /\ c ∈ PConfer inp).
  { rewrite existsb_exists. split; intros (c & Hc & Hh); exists c; (split; [by apply list_elem_of_In|by apply hasCap_elem]). }
  destruct (existsb _ _) eqn:Ex; cbn [orb].
  - split; [|done]. intros _. split; [done|]. left. by apply Hx.
  - destruct (rslots r) eqn:Es; cbn [andb].
    + destruct (hasArchiveSlot _) eqn:Eh; [split; [|done]; intros _; split; [done|]; right; split; [done|by apply hasArchiveSlot_elem]|].
      split; [done|]. intros [_ [Hc|[_ Ha]]]; [by apply Hx in Hc|]. apply hasArchiveSlot_elem in Ha. congruence.
    + split; [done|]. intros [_ [Hc|[? _]]]; [by apply Hx in Hc|done].
Qed.

Definition unexpected (inp : RoleProbeInput) : bool := HasUnexpectedAllow (NegativeRoleSemantic inp).

Lemma unexpected_exact inp : unexpected inp = true <-> exists r, r ∈ rows /\ violates inp r.
Proof.
  unfold unexpected, HasUnexpectedAllow. rewrite semantic_rows, existsb_exists. split.
  - intros (f & (r & <- & Hr)%in_map_iff & Hs). reflect_bools. apply list_elem_of_In in Hr. exists r. split; [done|]. by apply run_row_exact.
  - intros (r & Hr & Hv). exists (run_row inp r). split; [apply in_map_iff; exists r; split; [done|by apply list_elem_of_In]|].
    apply bool_decide_eq_true_2. by apply run_row_exact.
Qed.

Lemma slots_allowed_archive role slots : slots_allowed role slots = Ok tt -> has_archive (SlotKinds slots) -> archiveAuthorityOK role = true.
Proof.
  intros Hs (k & (s & -> & Hin)%list_elem_of_fmap & Hk). induction slots as [|s' slots IH]; [by apply elem_of_nil in Hin|].
  cbn [slots_allowed] in Hs. destruct (slotAllowed role (SKind s')) as [[]|e|] eqn:E; cbn [bind] in Hs; [|done..].
  apply elem_of_cons in Hin as [<-|Hin]; [|by apply IH]. unfold slotAllowed in E. rewrite bool_decide_eq_false_2 in E.
  - rewrite bool_decide_eq_true_2 in E by exact Hk. by destruct (archiveAuthorityOK role).
  - intros Hb. assert (Hd : forallb (fun a => negb (bool_decide (a ∈ archive_kinds))) [DescIPCEndpoint; DescPolicyIdentity; DescJournalSegment; DescReadonlyJournal; DescEventSink] = true) by (vm_compute; reflexivity).
    rewrite forallb_forall in Hd. specialize (Hd _ (proj1 (list_elem_of_In _ _) Hb)). reflect_bools. done.
Qed.

(** What the inventory grants a role is not looked for by its probes. *)
Lemma rows_granted r e : r ∈ rows -> e ∈ Inventory -> Role e = rrole r ->
  (forall c, c ∈ rforbidden r -> c ∉ MayHold e) /\ (rslots r = true -> archiveAuthorityOK (rrole r) = false).
Proof.
  intros Hr He E. assert (Hall : forallb (fun r => forallb (fun e => negb (bool_decide (Role e = rrole r)) ||
    (forallb (fun c => negb (bool_decide (c ∈ MayHold e))) (rforbidden r) && (negb (rslots r) || negb (archiveAuthorityOK (rrole r))))) Inventory) rows = true) by (vm_compute; reflexivity).
  rewrite forallb_forall in Hall. specialize (Hall r (proj1 (list_elem_of_In _ _) Hr)). rewrite forallb_forall in Hall.
  specialize (Hall e (proj1 (list_elem_of_In _ _) He)). rewrite bool_decide_eq_true_2 in Hall by done. cbn [negb orb] in Hall.
  apply andb_true_iff in Hall as [Hc Hs]. split.
  - intros c Hin. rewrite forallb_forall in Hc. specialize (Hc c (proj1 (list_elem_of_In _ _) Hin)). by reflect_bools.
  - intros Hb. rewrite Hb in Hs. by destruct (archiveAuthorityOK _).
Qed.

(** The probes cover what a role must not hold, but for the network of two roles. *)
Lemma rows_cover e c : e ∈ Inventory -> c ∈ MustNot e ->
  (exists r, r ∈ rows /\ rrole r = Role e /\ c ∈ rforbidden r) \/ (c = CapNetwork /\ (Role e = RoleIndex \/ Role e = RoleApply)).
Proof.
  intros He Hc. assert (Hall : forallb (fun e => forallb (fun c => existsb (fun r => bool_decide (rrole r = Role e) && bool_decide (c ∈ rforbidden r)) rows ||
    (bool_decide (c = CapNetwork) && (bool_decide (Role e = RoleIndex) || bool_decide (Role e = RoleApply)))) (MustNot e)) Inventory = true) by (vm_compute; reflexivity).
  rewrite forallb_forall in Hall. specialize (Hall e (proj1 (list_elem_of_In _ _) He)). rewrite forallb_forall in Hall.
  specialize (Hall c (proj1 (list_elem_of_In _ _) Hc)). apply orb_true_iff in Hall as [Hx|Hx].
  - left. apply existsb_exists in Hx as (r & Hr & E). exists r. apply list_elem_of_In in Hr. reflect_bools. done.
  - right. apply andb_true_iff in Hx as [E1 E2]. split; [by apply bool_decide_eq_true in E1|]. apply orb_true_iff in E2 as [E2|E2]; apply bool_decide_eq_true in E2; auto.
Qed.

(** Every role of the inventory without archive authority has a probe of its slots. *)
Lemma rows_slots e : e ∈ Inventory -> archiveAuthorityOK (Role e) = false -> exists r, r ∈ rows /\ rrole r = Role e /\ rslots r = true.
Proof.
  intros He Ha. assert (Hall : forallb (fun e => archiveAuthorityOK (Role e) || existsb (fun r => bool_decide (rrole r = Role e) && rslots r) rows) Inventory = true) by (vm_compute; reflexivity).
  rewrite forallb_forall in Hall. specialize (Hall e (proj1 (list_elem_of_In _ _) He)). rewrite Ha in Hall. cbn [orb] in Hall.
  apply existsb_exists in Hall as (r & Hr & E). exists r. apply list_elem_of_In in Hr. reflect_bools. done.
Qed.

(** C32. The two halves of the privilege separation agree.  Whatever the supervisor's
    validation of a launch accepts, the probes of the launched role accept.  Conversely
    the probes of a role of the inventory report every capability that it must not hold,
    except the network for the index and apply roles, and every archive slot of a role
    without archive authority. *)
Theorem role_probes_agree :
  (forall role confer slots, ValidateSlots role confer slots = Ok tt -> unexpected (mkProbe role confer (SlotKinds slots)) = false) /\
  (forall e c confer kinds, e ∈ Inventory -> c ∈ MustNot e -> c ∈ confer ->
     unexpected (mkProbe (Role e) confer kinds) = true \/ (c = CapNetwork /\ (Role e = RoleIndex \/ Role e = RoleApply))) /\
  (forall e confer kinds, e ∈ Inventory -> archiveAuthorityOK (Role e) = false -> has_archive kinds -> unexpected (mkProbe (Role e) confer kinds) = true).
Proof.
  split_and!.
  - intros role confer slots Hv. apply not_true_iff_false. intros (r & Hr & Hrole & Hviol)%unexpected_exact. cbn in *. subst role. unfold ValidateSlots in Hv.
    destruct (DeniedProbe (rrole r) confer) as [[]|?|] eqn:Hd; [|done..]. pose proof (proj1 (DeniedProbe_exact _ _) Hd) as Hgrant.
    destruct Hviol as [(c & Hf & Hc)|[Hs Ha]].
    + destruct (Hgrant c Hc) as (e & He & Er & Hm & _). by apply (proj1 (rows_granted r e Hr He Er) c Hf).
    + assert (Hin : exists e, e ∈ Inventory /\ Role e = rrole r).
      { assert (Hall : forallb (fun r => existsb (fun e => bool_decide (Role e = rrole r)) Inventory) rows = true) by (vm_compute; reflexivity).
        rewrite forallb_forall in Hall. specialize (Hall r (proj1 (list_elem_of_In _ _) Hr)). apply existsb_exists in Hall as (e & He & E). reflect_bools. exists e. split; [by apply list_elem_of_In|done]. }
      destruct Hin as (e & He & Er). pose proof (proj2 (rows_granted r e Hr He Er) Hs). apply slots_allowed_archive in Hv; [congruence|done].
  - intros e c confer kinds He Hc Hin. destruct (rows_cover e c He Hc) as [(r & Hr & E & Hf)|Hx]; [left|by right].
    apply unexpected_exact. exists r. split; [done|]. split; [done|]. left. by exists c.
  - intros e confer kinds He Ha Hk. destruct (rows_slots e He Ha) as (r & Hr & E & Hs). apply unexpected_exact. exists r. split; [done|]. split; [done|]. by right.
Qed.

(** The index role is given the network and no probe reports it. *)
Lemma index_network_unprobed : CapNetwork ∈ MustNot (mkEntry RoleIndex [CapReadonlyArchiveRoot; CapBoundedIndexOutput] [CapNetwork; CapPublication; CapDeletion]) /\
  unexpected (mkProbe RoleIndex [CapNetwork] []) = false.
Proof. split; [set_solver|vm_compute; reflexivity]. Qed.

(** ** Roles *)

Definition holders (cap : string) : list string := map Role (filter (fun e => cap ∈ MayHold e /\ cap ∉ MustNot e) Inventory).

Lemma allowed_holders role cap : allowed role cap = true <-> role ∈ holders cap.
Proof.
  assert (Ha : allowed role cap = true <-> Allows role cap = Ok true) by (unfold allowed; destruct (Allows role cap) as [[]|e|]; done).
  rewrite Ha, Allows_true. unfold holders. rewrite list_elem_of_fmap. setoid_rewrite list_elem_of_filter. naive_solver.
Qed.

(** Only the network role has sockets, only apply and journal write, only index and audit
    read. *)
Lemma role_policy_exact role :
  (RoleMayHoldNetwork role = true <-> role = RoleNet) /\
  (RoleArchiveFSMode role = ArchiveFSReadWrite <-> role = RoleApply \/ role = RoleJournal) /\
  (RoleArchiveFSMode role = ArchiveFSReadonly <-> role = RoleIndex \/ role = RoleAudit).
Proof.
  assert (Hh : forall cap r, holders cap = [r] -> allowed role cap = bool_decide (role = r)).
  { intros cap r E. apply eq_true_iff_eq. rewrite allowed_holders, E, bool_decide_eq_true. set_solver. }
  unfold RoleMayHoldNetwork, RoleArchiveFSMode. rewrite (Hh CapNetworkSockets RoleNet), (Hh CapArchiveRoots RoleApply), (Hh CapJournalDescriptor RoleJournal),
    (Hh CapReadonlyArchiveRoot RoleIndex), (Hh CapReadonlyJournal RoleAudit) by (vm_compute; reflexivity).
  split; [apply bool_decide_eq_true|]. repeat case_bool_decide; subst; split; split; intros Hx; try (destruct Hx as [Hx|Hx]); try discriminate; auto; congruence.
Qed.

(** ** The gate of a release *)

Definition found (id ok : string) (f : Finding) : Prop := ID f = id /\ (Status f = ok \/ Status f = StatusSkipped).

Lemma require_finding_exact id ok f : require_finding id ok f = Ok tt <-> found id ok f.
Proof. unfold require_finding, found. repeat case_bool_decide; cbn; naive_solver. Qed.

(** There is a finding for a control, and none reports a control as unavailable or
    skipped; a finding of another status does not count as a refusal. *)
Definition none_refused (fs : list Finding) : Prop :=
  (exists f, f ∈ fs /\ is_apply f = true) /\ forall f, f ∈ fs -> is_apply f = true -> Status f <> StatusUnavailable /\ Status f <> StatusSkipped.

Lemma apply_available_exact fs saw : apply_available fs saw = Ok tt <->
  (saw = true \/ exists f, f ∈ fs /\ is_apply f = true) /\ forall f, f ∈ fs -> is_apply f = true -> Status f <> StatusUnavailable /\ Status f <> StatusSkipped.
Proof.
  revert saw. induction fs as [|f fs IH]; intros saw; cbn [apply_available].
  { destruct saw; [split; [|done]; intros _; split; [by left|set_solver]|]. split; [done|]. intros [[?|(f & ? & _)] _]; [done|set_solver]. }
  destruct (is_apply f) eqn:Ea; cbn [negb].
  - case_bool_decide as E1; cbn [orb]; [split; [done|]; intros [_ Hf]; by destruct (Hf f ltac:(set_solver) Ea)|].
    case_bool_decide as E2; [split; [done|]; intros [_ Hf]; by destruct (Hf f ltac:(set_solver) Ea)|].
    rewrite IH. split; [|set_solver]. intros [_ Hf]. split; [right; exists f; set_solver|]. intros g [->|Hg]%elem_of_cons; auto.
  - rewrite IH. split.
    + intros [Hs Hf]. split; [destruct Hs as [?|(g & ? & ?)]; [by left|right; exists g; set_solver]|]. intros g [->|Hg]%elem_of_cons; [congruence|auto].
    + intros [Hs Hf]. split; [|intros g Hg; apply Hf; set_solver]. destruct Hs as [?|(g & [->|Hg]%elem_of_cons & Hga)]; [by left|congruence|right; by exists g].
Qed.

Lemma RequireApplyAvailable_exact fs : RequireApplyAvailable fs = Ok tt <-> none_refused fs.
Proof. unfold RequireApplyAvailable. rewrite apply_available_exact. unfold none_refused. naive_solver. Qed.

Lemma bind_unit_ok {E} (c : res E unit) (k : res E unit) : (let! _ := c in k) = Ok tt <-> c = Ok tt /\ k = Ok tt.
Proof. destruct c as [[]|e|]; cbn [bind]; naive_solver. Qed.

(** C33. When a child of a release runs: exactly when the findings on the rights of its
    descriptors are "available" or "skipped", some APPLY finding is reported and none is
    "unavailable" or "skipped", and each probe reports the status that it should
    ("available" for a control in force, "denied as expected" for an access) or
    "skipped".  A role with read access must be unable to write, one with write access
    able to, and every role but on FreeBSD without the network it may not hold.  In
    engineering mode nothing is required.  (A control of unknown status and a skipped
    probe pass: [unknown_control_accepted].) *)
Theorem Confine_release_exact P e :
  let role := ERole e in
  let opts := mkOptions (EAllowRoots e) (EAllowRootFDs e) in
  Confine P false e = Ok tt /\
  (Confine P true e = Ok tt <->
     found "APPLY-CAP-RIGHTS" StatusAvailable (ConferredRights e) /\
     found "APPLY-CAP-ALLOW-ROOTS" StatusAvailable (LimitAllowRootFDs P (RoleArchiveFSMode role) (EAllowRootFDs e)) /\
     none_refused (ApplyEngineeringOpts P role opts) /\
     found "NEG-CAP-MODE" StatusAvailable (NegativeCapMode P) /\ found "NEG-CAP-AMBIENT" StatusAvailable (NegativeCapAmbient P) /\
     found "NEG-NO-NEW-PRIVS" StatusAvailable (NegativeNoNewPrivs P) /\ found "NEG-SECCOMP" StatusAvailable (NegativeSeccompFilter P) /\
     found "NEG-DUMPABLE" StatusAvailable (NegativeDumpable P) /\ found "NEG-RLIMIT-CORE" StatusAvailable (NegativeRlimitCore P) /\
     found "NEG-TRACE-CTL" StatusAvailable (NegativeTraceCtl P) /\
     found "NEG-FS-READ" StatusDeniedExpected (NegativeFSRead P (AmbientFSReadProbeExisted P)) /\
     found "NEG-FS-OPEN" StatusDeniedExpected (NegativeFSOpen P) /\
     (GOOS P <> "freebsd"%string -> found "NEG-ROLE-NET" StatusDeniedExpected (NegativeRoleNet P role)) /\
     found "NEG-EXEC" StatusDeniedExpected (NegativeExec P) /\
     (role ∈ [RoleApply; RoleJournal; RoleIndex; RoleAudit] -> found "NEG-FS-PATH" StatusAvailable (NegativeFSPath P role opts)) /\
     (role ∈ [RoleIndex; RoleAudit] -> found "NEG-FS-WRITE" StatusDeniedExpected (NegativeFSPathWrite P role opts)) /\
     (role ∈ [RoleApply; RoleJournal] -> found "NEG-FS-WRITE" StatusAvailable (NegativeFSPathWrite P role opts))).
Proof.
  intros role opts. split; [done|]. destruct (role_policy_exact role) as (_ & Hrw & Hro).
  assert (Hrw' : RoleArchiveFSMode role = ArchiveFSReadWrite <-> role ∈ [RoleApply; RoleJournal]) by (rewrite Hrw; set_solver).
  assert (Hro' : RoleArchiveFSMode role = ArchiveFSReadonly <-> role ∈ [RoleIndex; RoleAudit]) by (rewrite Hro; set_solver).
  assert (Hany : RoleArchiveFSMode role <> ArchiveFSNone <-> role ∈ [RoleApply; RoleJournal; RoleIndex; RoleAudit]).
  { change [RoleApply; RoleJournal; RoleIndex; RoleAudit] with ([RoleApply; RoleJournal] ++ [RoleIndex; RoleAudit]). rewrite elem_of_app, <- Hrw', <- Hro'.
    destruct (RoleArchiveFSMode role); naive_solver. }
  unfold Confine. fold role. fold opts. cbv zeta. rewrite !bind_unit_ok, RequireApplyAvailable_exact.
  unfold RequireConferredLimitFinding, RequireAllowRootLimitFinding, RequireCapModeAvailable, RequireCapModeFinding, RequireCapAmbientEmpty, RequireCapAmbientFinding,
    RequireNoNewPrivsSet, RequireNoNewPrivsFinding, RequireSeccompFilter, RequireSeccompFilterFinding, RequireDumpableClear, RequireDumpableFinding,
    RequireRlimitCoreZero, RequireRlimitCoreFinding, RequireTraceCtlDisabled, RequireTraceCtlFinding, RequireAmbientFSReadDenied, RequireAmbientFSReadFinding,
    RequireAmbientFSOpenDenied, RequireAmbientFSOpenFinding, RequireAmbientExecDenied, RequireAmbientExecFinding. rewrite !require_finding_exact.
  assert (Hif : forall (c : bool) (Q : Prop) id ok f, (c = true <-> Q) -> (if c then require_finding id ok f else Ok tt) = Ok tt <-> (Q -> found id ok f)).
  { intros c Q id ok f Hc. destruct c; [rewrite require_finding_exact; naive_solver|]. split; [|done]. intros _ HQ. apply Hc in HQ. done. }
  assert (Hnet : RequireAmbientRoleNetDenied P role = Ok tt <-> (GOOS P <> "freebsd"%string -> found "NEG-ROLE-NET" StatusDeniedExpected (NegativeRoleNet P role))).
  { unfold RequireAmbientRoleNetDenied, RequireAmbientRoleNetFinding. rewrite <- (Hif (negb (bool_decide (GOOS P = "freebsd"%string)))); [by case_bool_decide|].
    rewrite negb_true_iff, bool_decide_eq_false. done. }
  assert (Hpath : RequireArchiveFSPathAvailable P role opts = Ok tt <-> (role ∈ [RoleApply; RoleJournal; RoleIndex; RoleAudit] -> found "NEG-FS-PATH" StatusAvailable (NegativeFSPath P role opts))).
  { unfold RequireArchiveFSPathAvailable, RequireArchiveFSPathFinding. rewrite <- (Hif (negb (bool_decide (RoleArchiveFSMode role = ArchiveFSNone)))); [by case_bool_decide|].
    rewrite negb_true_iff, bool_decide_eq_false. done. }
  assert (Hro2 : RequireArchiveFSWriteDenied P role opts = Ok tt <-> (role ∈ [RoleIndex; RoleAudit] -> found "NEG-FS-WRITE" StatusDeniedExpected (NegativeFSPathWrite P role opts))).
  { unfold RequireArchiveFSWriteDenied, RequireArchiveFSWriteFinding. rewrite <- (Hif (bool_decide (RoleArchiveFSMode role = ArchiveFSReadonly))); [by case_bool_decide|].
    by rewrite bool_decide_eq_true. }
  assert (Hrw2 : RequireArchiveFSWriteAvailable P role opts = Ok tt <-> (role ∈ [RoleApply; RoleJournal] -> found "NEG-FS-WRITE" StatusAvailable (NegativeFSPathWrite P role opts))).
  { unfold RequireArchiveFSWriteAvailable, RequireArchiveFSWriteAvailableFinding. rewrite <- (Hif (bool_decide (RoleArchiveFSMode role = ArchiveFSReadWrite))); [by case_bool_decide|].
    by rewrite bool_decide_eq_true. }
  rewrite Hnet, Hpath, Hro2, Hrw2. tauto.
Qed.

(** A control whose status is unknown passes for one that was applied. *)
Lemma unknown_control_accepted : RequireApplyAvailable [mkFinding "APPLY-SECCOMP" "seccomp" StatusUnknown] = Ok tt.
Proof. reflexivity. Qed.

(** ** The roots of a child *)

(** [strings.Join(roots, ":")]. *)
Fixpoint join_colon (roots : list bytes) : bytes :=
  match roots with
  | [] => []
  | [r] => r
  | r :: roots => r ++ str ":" ++ join_colon roots
  end.

Definition no_colon (r : bytes) : Prop := Forall (fun b => byteZ b <> 58) r.

Lemma split_roots_word r rest cur : no_colon r -> split_roots (r ++ rest) cur = split_roots rest (cur ++ r).
Proof.
  intros Hr. revert cur. induction Hr as [|b r Hb Hr IH]; intros cur; [by rewrite app_nil_r|]. cbn [app split_roots].
  replace (byteZ b =? 58) with false by lia. rewrite IH, <- app_assoc. done.
Qed.

(** The child reads the roots that the launcher wrote. *)
Lemma splitAllowRoots_join roots : Forall (fun r => r <> [] /\ no_colon r) roots -> splitAllowRoots (join_colon roots) = roots.
Proof.
  unfold splitAllowRoots. induction 1 as [|r roots [Hn Hc] Hr IH]; [done|]. cbn [join_colon]. destruct roots as [|r' roots].
  - rewrite <- (app_nil_r r) at 1. rewrite split_roots_word by done. cbn. by rewrite bool_decide_eq_false_2.
  - rewrite split_roots_word by done. cbn [app]. change (str ":") with [Byte.x3a]. cbn [app split_roots]. change (byteZ Byte.x3a =? 58) with true. cbv iota zeta.
    rewrite bool_decide_eq_false_2 by done. by rewrite IH.
Qed.

End Confine.
