(* ===== verification/DaemonPlans.v ===== *)
(** * The daemon's plans (internal/daemon/plan.go)

    The grant plans that the daemon starts its roles with, from two roles to the full
    receive chain.  [daemon_plans_mediate] says that each of them can be built, that its
    edges are mutual, and which roles stand between the network and the archive;
    [capability_exclusive] that in any plan no two roles share a capability. *)

From stdpp Require Import gmap.
From S2P Require Import Prelude Authority Supervisor.
Import Authority Supervisor.

Module DaemonPlans.

(** The grants of each role; the plans differ in the peers. *)
Definition net_child (peers : list string) : ChildSpec := mkChild RoleNet [CapNetworkSockets; CapEncryptedFrames] peers.
Definition auth_child (peers : list string) : ChildSpec :=
  mkChild RoleAuth [CapIdentityHandle; CapSessionKeyDerive; CapAuthorizationPolicy] peers.
Definition parser_child (peers : list string) : ChildSpec := mkChild RoleParser [CapBoundedMessageIPC] peers.
Definition plan_child (peers : list string) : ChildSpec := mkChild RolePlan [CapCanonicalManifests; CapPlanOutput] peers.
Definition index_child (peers : list string) : ChildSpec := mkChild RoleIndex [CapReadonlyArchiveRoot; CapBoundedIndexOutput] peers.
Definition apply_child (peers : list string) : ChildSpec := mkChild RoleApply [CapArchiveRoots] peers.
Definition journal_child (peers : list string) : ChildSpec := mkChild RoleJournal [CapJournalDescriptor; CapAuthenticatedRecords] peers.
Definition audit_child (peers : list string) : ChildSpec := mkChild RoleAudit [CapReadonlyJournal; CapRedactedEventSink] peers.

Definition NetApplyPlan : res Error Plan_ := BuildPlan [net_child [RoleApply]; apply_child [RoleNet]].

Definition AuthNetApplyPlan : res Error Plan_ :=
  BuildPlan [net_child [RoleAuth; RoleApply]; auth_child [RoleNet]; apply_child [RoleNet]].

Definition AuthParserNetApplyPlan : res Error Plan_ :=
  BuildPlan [net_child [RoleAuth; RoleParser]; auth_child [RoleNet]; parser_child [RoleNet; RoleApply]; apply_child [RoleParser]].

Definition AuthParserNetApplyAuditPlan : res Error Plan_ :=
  BuildPlan [net_child [RoleAuth; RoleParser]; auth_child [RoleNet]; parser_child [RoleNet; RoleApply];
    apply_child [RoleParser; RoleAudit]; audit_child [RoleApply]].

Definition AuthParserNetApplyJournalPlan : res Error Plan_ :=
  BuildPlan [net_child [RoleAuth; RoleParser]; auth_child [RoleNet]; parser_child [RoleNet; RoleApply];
    apply_child [RoleParser; RoleJournal]; journal_child [RoleApply]].

Definition AuthParserNetApplyJournalAuditPlan : res Error Plan_ :=
  BuildPlan [net_child [RoleAuth; RoleParser]; auth_child [RoleNet]; parser_child [RoleNet; RoleApply];
    apply_child [RoleParser; RoleJournal]; journal_child [RoleApply; RoleAudit]; audit_child [RoleJournal]].

Definition m2hReceivePlan (authAudit : bool) : res Error Plan_ :=
  let authPeers := [RoleNet] in
  let auditPeers := [RoleJournal] in
  let authPeers := if authAudit then authPeers ++ [RoleAudit] else authPeers in
  let auditPeers := if authAudit then auditPeers ++ [RoleAuth] else auditPeers in
  BuildPlan [net_child [RoleAuth; RoleParser]; auth_child authPeers; parser_child [RoleNet; RolePlan]; plan_child [RoleParser; RoleIndex];
    index_child [RolePlan; RoleApply]; apply_child [RoleIndex; RoleJournal]; journal_child [RoleApply; RoleAudit]; audit_child auditPeers].

Definition AuthParserNetPlanIndexApplyJournalAuditPlan : res Error Plan_ := m2hReceivePlan false.
Definition AuthParserNetPlanIndexApplyJournalAuditPeerPlan : res Error Plan_ := m2hReceivePlan true.

Definition AuthParserNetPlanApplyJournalAuditPlan : res Error Plan_ :=
  BuildPlan [net_child [RoleAuth; RoleParser]; auth_child [RoleNet]; parser_child [RoleNet; RolePlan]; plan_child [RoleParser; RoleApply];
    apply_child [RolePlan; RoleJournal]; journal_child [RoleApply; RoleAudit]; audit_child [RoleJournal]].

(** ** Who can reach whom *)

(** A chain of edges that does not enter the roles of [S]. *)
Inductive path (p : Plan_) (S : list string) : string -> string -> Prop :=
| path_here a : path p S a a
| path_step a b c : edge p a b -> b ∉ S -> path p S b c -> path p S a c.

(** Every way from [a] to [b] enters one of the roles of [S]. *)
Definition mediates (p : Plan_) (S : list string) (a b : string) : Prop := ~ path p S a b.

(** The roles that an edge leads to, and those reached in [n] steps. *)
Definition next (p : Plan_) (S X : list string) : list string :=
  filter (.∉ S) (concat (map (fun c => if bool_decide (CRole c ∈ X) then IPCPeers c else []) (Children p))).
Fixpoint reach (n : nat) (p : Plan_) (S X : list string) : list string :=
  match n with
  | O => X
  | Datatypes.S n => reach n p S (list_union X (next p S X))
  end.

(** [b] is not in the roles reached, and no edge leads out of these. *)
Definition mediatesb (p : Plan_) (S : list string) (a b : string) : bool :=
  let X := reach (length (Children p)) p S [a] in
  bool_decide (b ∉ X) && forallb (fun x => bool_decide (x ∈ X)) (next p S X).

Lemma next_edge p S X a b : edge p a b -> a ∈ X -> b ∉ S -> b ∈ next p S X.
Proof.
  intros (c & Hc & <- & Hb) Ha Hs. apply list_elem_of_filter. split; [done|]. apply list_elem_of_In, in_concat.
  exists (IPCPeers c). split; [|by apply list_elem_of_In]. apply in_map_iff. exists c. rewrite bool_decide_eq_true_2 by done. split; [done|by apply list_elem_of_In].
Qed.

Lemma reach_start n p S X a : a ∈ X -> a ∈ reach n p S X.
Proof. revert X. induction n as [|n IH]; intros X Ha; [done|]. cbn. apply IH, list_elem_of_union. by left. Qed.

Lemma mediatesb_mediates p S a b : mediatesb p S a b = true -> mediates p S a b.
Proof.
  unfold mediatesb. cbv zeta. set (X := reach _ _ _ _). intros [Hb Hc]%andb_true_iff Hp. apply bool_decide_eq_true in Hb.
  rewrite forallb_forall in Hc. apply Hb. assert (Ha : a ∈ X) by (apply reach_start; set_solver).
  clearbody X. clear Hb. induction Hp as [|a x b He Hs Hp IH]; [done|]. apply IH.
  apply (bool_decide_eq_true_1 (x ∈ X)), Hc, list_elem_of_In. by eapply next_edge.
Qed.

(** The plans with the sets of roles between the network and apply. *)
Definition daemon_plans : list (res Error Plan_ * list (list string)) := [
  (NetApplyPlan, []);
  (AuthNetApplyPlan, []);
  (AuthParserNetApplyPlan, [[RoleParser]]);
  (AuthParserNetApplyAuditPlan, [[RoleParser]]);
  (AuthParserNetApplyJournalPlan, [[RoleParser]]);
  (AuthParserNetApplyJournalAuditPlan, [[RoleParser]]);
  (AuthParserNetPlanApplyJournalAuditPlan, [[RoleParser]; [RolePlan]]);
  (AuthParserNetPlanIndexApplyJournalAuditPlan, [[RoleParser]; [RolePlan]; [RoleIndex]]);
  (AuthParserNetPlanIndexApplyJournalAuditPeerPlan, [[RoleParser; RoleAudit]; [RolePlan; RoleAudit]; [RoleIndex; RoleAudit]]) ].

Definition plan_holds (x : res Error Plan_ * list (list string)) : Prop :=
  exists p, x.1 = Ok p /\ ValidateIPCGraph p = Ok tt /\ Forall (fun S => mediates p S RoleNet RoleApply) x.2.

Definition plan_holdsb (x : res Error Plan_ * list (list string)) : bool :=
  match x.1 with
  | Ok p => match ValidateIPCGraph p with Ok _ => forallb (fun S => mediatesb p S RoleNet RoleApply) x.2 | _ => false end
  | _ => false
  end.

Lemma plan_holdsb_holds x : plan_holdsb x = true -> plan_holds x.
Proof.
  unfold plan_holdsb, plan_holds. destruct x.1 as [p|e|]; [|done..]. destruct (ValidateIPCGraph p) as [[]|e|] eqn:Ev; [|done..]. intros Hf.
  exists p. split; [done|]. split; [done|]. apply Forall_forall. intros S HS. rewrite forallb_forall in Hf. by apply mediatesb_mediates, Hf, list_elem_of_In.
Qed.

(** The daemon's plans put the roles in between.  Each of the plans can be built and
    has mutual edges; in every plan with a parser every chain of channels from the
    network role to apply enters the parser, in every plan with a plan role also that
    role, and in the full receive plan also the index role; when the authenticating
    role reports to audit, the one other chain leads through audit. *)
Lemma daemon_plans_mediate : Forall plan_holds daemon_plans.
Proof.
  assert (Hb : forallb plan_holdsb daemon_plans = true) by (vm_compute; reflexivity). rewrite forallb_forall in Hb.
  apply Forall_forall. intros x Hx. by apply plan_holdsb_holds, Hb, list_elem_of_In.
Qed.

(** The other chain exists: the network role is connected to apply through auth, audit
    and journal, with neither parser nor plan nor index. *)
Lemma peer_plan_path p : AuthParserNetPlanIndexApplyJournalAuditPeerPlan = Ok p ->
  path p [RoleParser; RolePlan; RoleIndex] RoleNet RoleApply.
Proof.
  intros Hp. assert (He : forall a b, edgeb p a b = true -> edge p a b) by apply edgeb_edge.
  vm_compute in Hp. injection Hp as <-.
  eapply path_step; [apply (He _ RoleAuth); vm_compute; reflexivity|by apply (bool_decide_unpack _); vm_compute|].
  eapply path_step; [apply (He _ RoleAudit); vm_compute; reflexivity|by apply (bool_decide_unpack _); vm_compute|].
  eapply path_step; [apply (He _ RoleJournal); vm_compute; reflexivity|by apply (bool_decide_unpack _); vm_compute|].
  eapply path_step; [apply (He _ RoleApply); vm_compute; reflexivity|by apply (bool_decide_unpack _); vm_compute|].
  apply path_here.
Qed.

(** ** Capabilities are not shared *)

Definition exclusiveb : bool :=
  forallb (fun e => forallb (fun e' => bool_decide (Role e = Role e') || forallb (fun c => bool_decide (c ∉ MayHold e')) (MayHold e)) Inventory) Inventory.

Lemma granted_exclusive r r' cap : granted r cap -> granted r' cap -> r = r'.
Proof.
  assert (Hx : exclusiveb = true) by (vm_compute; reflexivity). unfold exclusiveb in Hx. rewrite forallb_forall in Hx.
  intros (e & He & <- & Hc & _) (e' & He' & <- & Hc' & _). apply list_elem_of_In, Hx in He. rewrite forallb_forall in He.
  apply list_elem_of_In, He in He'. apply orb_true_iff in He' as [Hr|Hn]; [by apply bool_decide_eq_true in Hr|].
  rewrite forallb_forall in Hn. apply list_elem_of_In, Hn in Hc. by apply bool_decide_eq_true in Hc.
Qed.

(** No two roles share a capability.  In any plan that the supervisor builds, a
    capability is held by at most one child: what holds the network sockets does not
    hold the archive roots, the keys or the journal. *)
Lemma capability_exclusive cs p c c' cap :
  BuildPlan cs = Ok p -> c ∈ Children p -> c' ∈ Children p -> cap ∈ Confer c -> cap ∈ Confer c' -> c = c'.
Proof.
  intros Hb Hc Hc' Hcap Hcap'. pose proof (plan_children _ _ _ Hb Hc) as (_ & _ & Hg & _). pose proof (plan_children _ _ _ Hb Hc') as (_ & _ & Hg' & _).
  pose proof (granted_exclusive _ _ _ (Hg _ Hcap) (Hg' _ Hcap')) as Hr. by eapply plan_role_unique.
Qed.

Lemma capability_exclusive_witness :
  exists p, NetApplyPlan = Ok p /\
    forall c c', c ∈ Children p -> c' ∈ Children p -> CapArchiveRoots ∈ Confer c -> CapArchiveRoots ∈ Confer c' -> c = c'.
Proof.
  destruct NetApplyPlan as [p|e|] eqn:E; [|vm_compute in E; discriminate E..]. exists p. split; [reflexivity|].
  intros c c' Hc Hc' Hcap Hcap'. exact (capability_exclusive _ p c c' CapArchiveRoots E Hc Hc' Hcap Hcap').
Defined.

End DaemonPlans.
