(* ===== verification/Restart.v ===== *)
(** * Restarting roles (internal/daemon/serve_unix.go, internal/supervisor: runtime_unix.go, socket_unix.go)

    The supervisor starts the roles of a fleet, each with its end of a socket to its
    peers, and restarts them when they exit: a part of the fleet when a strategy
    covers what has died, otherwise all of it.  Roles that survive get the new end of
    a replaced socket over their key channel ([conferPeerFD]) and put it into the slot
    of that peer.

    [Runtime] is the state: the ends that the supervisor still has, the tracked
    children with the sockets their processes hold, and the exits that are reported
    and not yet read.  A socket is the number of its pair; the channel over it is
    made anew at both ends, so that two ends of one pair are in step
    ([Supervisor.ends_paired]).  Scripts say which calls fail and which processes
    die while the supervisor waits; a deadline that passes is a wait for children
    that nobody reaps.  A child is given the keys of its channels, and the role that
    authenticates the root key, over its key channel or as inherited files
    ([KeyViaExtraFiles]); a key is known by whose it is, not by its bytes.  What is
    handed on unchanged to the launcher (roots, slots, stub mode, listen address) and
    the texts of errors are left out; finding the roots is a call that may fail.

    [restart_rewires] says that a restart after exits leaves every role running with its
    keys and every edge of the topology connected, from every wired state, for every
    accepted set of options but the one of [stray_pair] ([odd]), when the exits are
    [covered] and no call fails.  No step looks at the numbers of pairs and processes but to compare them, so
    that a run from a wired state is a run of a fleet just started with its numbers
    renamed ([related_restart], [wired_renamed]); those runs are evaluated.  Three
    lemmas show an exit that is lost, restarts that end the supervisor for children
    without a watcher, and a pair that no role asked for: what [covered], the absence of
    failing calls and [odd] exclude. *)

From stdpp Require Import gmap.
From S2P Require Import Prelude Authority Ipc FileSystem Supervisor DaemonPlans.
Import Authority FileSystem Supervisor DaemonPlans.

Module Restart.

(** ** State *)

(** What is passed to a child as a sealed descriptor: the key of its channel with a peer,
    and the root key material. *)
Inductive Key := MACKey (peer : string) | RootMaterial.

#[export] Instance Key_eq_dec : EqDecision Key.
Proof. solve_decision. Defined.

(** A tracked child: the keys that it was given, whether the key channel to it is open,
    its process with the sockets it holds for its peer and its extra peer, whether it is
    alive, and whether a watcher waits for it. *)
Record Handle := mkHandle {
  hPid : Z;
  hKeys : list Key;
  hKey : bool;
  hPeer : string;
  hSock : Z;
  hExtra : option (string * Z);
  hAlive : bool;
  hWatched : bool }.

(** [rEnds] holds the number of the pair while the supervisor has the end, [None] after
    it was given away; [rViaFiles] is [KeyViaExtraFiles], and [rRootRole] the role that
    the root key material goes to, if there is any. *)
Record Runtime := mkRuntime {
  rEnds : gmap (string * string) (option Z);
  rChildren : gmap string Handle;
  rExtra : gmap string string;
  rViaFiles : bool;
  rRootRole : option string;
  rPairs : Z;
  rPids : Z;
  rPending : list string;
  rFaults : list bool;
  rDeaths : list (list string) }.

Abbreviation IO := (io Runtime Error).

Definition set_ends (m : gmap (string * string) (option Z)) (r : Runtime) : Runtime :=
  mkRuntime m (rChildren r) (rExtra r) (rViaFiles r) (rRootRole r) (rPairs r) (rPids r) (rPending r) (rFaults r) (rDeaths r).
Definition set_children (m : gmap string Handle) (r : Runtime) : Runtime :=
  mkRuntime (rEnds r) m (rExtra r) (rViaFiles r) (rRootRole r) (rPairs r) (rPids r) (rPending r) (rFaults r) (rDeaths r).
Definition set_pending (l : list string) (r : Runtime) : Runtime :=
  mkRuntime (rEnds r) (rChildren r) (rExtra r) (rViaFiles r) (rRootRole r) (rPairs r) (rPids r) l (rFaults r) (rDeaths r).

Definition modify (f : Runtime -> Runtime) : IO unit := fun r => (f r, Ok tt).
Definition get {A} (f : Runtime -> A) : IO A := fun r => (r, Ok (f r)).

(** A call that the script may let fail. *)
Definition fallible (code : string) : IO unit := fun r =>
  let rest := mkRuntime (rEnds r) (rChildren r) (rExtra r) (rViaFiles r) (rRootRole r) (rPairs r) (rPids r) (rPending r) (tail (rFaults r)) (rDeaths r) in
  match rFaults r with true :: _ => (rest, Err (fail code)) | _ => (rest, Ok tt) end.

(** ** The sockets (socket_unix.go) *)

Definition installPair (lo hi : string) : IO unit :=
  let* _ := fallible "socket" in
  fun r => (mkRuntime (<[(hi, lo) := Some (rPairs r)]> (<[(lo, hi) := Some (rPairs r)]> (rEnds r))) (rChildren r) (rExtra r) (rViaFiles r) (rRootRole r)
    (rPairs r + 1) (rPids r) (rPending r) (rFaults r) (rDeaths r), Ok tt).

Definition ReplacePair (a b : string) : IO unit :=
  let* pk := lift (makePair a b) in
  let* _ := modify (fun r => set_ends (delete (Hi pk, Lo pk) (delete (Lo pk, Hi pk) (rEnds r))) r) in
  installPair (Lo pk) (Hi pk).

Definition Endpoint (local remote : string) : IO (option Z) := fun r =>
  match rEnds r !! (local, remote) with
  | Some conn => (r, Ok conn)
  | None => (r, Err (fail "missing"))
  end.

(** [ep.Conn.File()], which fails for an end that is gone. *)
Definition end_file (local remote : string) : IO Z :=
  let* conn := Endpoint local remote in
  match conn with
  | None => throw (fail "socket")
  | Some s => let* _ := fallible "socket" in ret s
  end.

(** [ep.Conn.Close(); ep.Conn = nil]. *)
Definition end_gone (local remote : string) : IO unit :=
  modify (fun r => set_ends (<[(local, remote) := None]> (rEnds r)) r).

(** ** The children (runtime_unix.go) *)

Definition Child (role : string) : IO (option Handle) := get (fun r => rChildren r !! role).

Definition SetChild (role : string) (h : Handle) : IO unit :=
  modify (fun r => set_children (<[role := h]> (rChildren r)) r).

Definition DeleteChild (role : string) : IO unit :=
  modify (fun r => set_children (delete role (rChildren r)) r).

Definition ChildrenLen : IO Z := get (fun r => Z.of_nat (size (rChildren r))).

Definition ChildRoles : IO (list string) :=
  get (fun r => sort_slice String.ltb (map fst (map_to_list (rChildren r)))).

(** The process of a started child is tracked; it is not watched yet. *)
Definition start_process (role peer : string) (sock : Z) (extra : option (string * Z)) (keys : list Key) (channel : bool) : IO unit := fun r =>
  (mkRuntime (rEnds r) (<[role := mkHandle (rPids r) keys channel peer sock extra true false]> (rChildren r)) (rExtra r) (rViaFiles r) (rRootRole r)
    (rPairs r) (rPids r + 1) (rPending r) (rFaults r) (rDeaths r), Ok tt).

(** The keys go over the key channel one by one; a failure kills the process. *)
Fixpoint send_keys (keys : list Key) : IO unit :=
  match keys with
  | [] => ret tt
  | _ :: keys => let* _ := fallible "rights" in send_keys keys
  end.

(** The end for the extra peer, if the role has one. *)
Definition extra_end (role peer : string) : IO (option (string * Z)) :=
  let* extra := get (fun r => rExtra r !! role) in
  match extra with
  | None => ret None
  | Some x =>
      if bool_decide (x = ""%string) || bool_decide (x = peer) then ret None else
      let* s := end_file role x in
      let* _ := fallible "key" in
      let* _ := end_gone role x in
      ret (Some (x, s))
  end.

(** In the order of the key channel: MAC, optional root, optional extra MAC. *)
Definition conferred_keys (peer : string) (root : bool) (extra : option string) : list Key :=
  MACKey peer :: (if root then [RootMaterial] else []) ++ match extra with Some x => [MACKey x] | None => [] end.

Definition StartChild (role peer : string) : IO unit :=
  let* h := Child role in
  match h with
  | Some _ => throw (fail "runtime")
  | None =>
      let* sock := end_file role peer in
      let* _ := fallible "key" in
      let* _ := fallible "roots" in
      let* _ := end_gone role peer in
      let* root := get (fun r => bool_decide (rRootRole r = Some role)) in
      let* extra := extra_end role peer in
      let keys := conferred_keys peer root (fst <$> extra) in
      let* _ := fallible "launch" in
      let* via := get rViaFiles in
      if via : bool then start_process role peer sock extra keys false
      else
        let* _ := fallible "key" in
        let* _ := send_keys keys in
        start_process role peer sock extra keys true
  end.

(** ** A new end for a survivor *)

Inductive Rebind := RebindExtra | RebindPrimary.

(** What the process of a role does with a descriptor on its key channel: the loops
    of roles_unix.go.  The network role tells the two kinds apart; the others have
    a loop for one peer, or none. *)
Definition rebind (role : string) (kind : Rebind) (s : Z) (h : Handle) : Handle :=
  let primary := mkHandle (hPid h) (hKeys h) (hKey h) (hPeer h) s (hExtra h) (hAlive h) (hWatched h) in
  match hExtra h, kind with
  | Some (x, _), RebindExtra =>
      let extra := mkHandle (hPid h) (hKeys h) (hKey h) (hPeer h) (hSock h) (Some (x, s)) (hAlive h) (hWatched h) in
      if bool_decide (role = RoleNet) && bool_decide (hPeer h = RoleAuth) && (bool_decide (x = RoleParser) || bool_decide (x = RoleApply)) ||
         (bool_decide (role = RoleParser) || bool_decide (role = RolePlan) || bool_decide (role = RoleIndex)) && bool_decide (x = RoleApply) ||
         bool_decide (role = RoleAuth) && bool_decide (x = RoleAudit) ||
         bool_decide (role = RoleAudit) && bool_decide (x = RoleAuth)
      then extra else h
  | Some (x, _), RebindPrimary =>
      if bool_decide (role = RoleNet) && bool_decide (hPeer h = RoleAuth) && (bool_decide (x = RoleParser) || bool_decide (x = RoleApply))
      then primary else h
  | None, RebindExtra => if bool_decide (role = RoleNet) && negb (bool_decide (hPeer h = RoleAuth)) then primary else h
  | None, RebindPrimary => h
  end.

Definition conferPeerFD (role : string) (s : Z) (kind : Rebind) : IO unit :=
  let* h := Child role in
  match h with
  | Some h =>
      if negb (hKey h) then throw (fail "nil key channel or peer socket") else
      let* _ := fallible "rights" in
      if hAlive h then SetChild role (rebind role kind s h) else ret tt
  | None => throw (fail "nil key channel or peer socket")
  end.

(** The end of [local] for [remote] goes to the running process of [local]. *)
Definition confer_end (local remote : string) (kind : Rebind) : IO unit :=
  let* s := end_file local remote in
  let* _ := end_gone local remote in
  conferPeerFD local s kind.

(** ** Kills, exits and waits *)

Definition with_alive (b : bool) (h : Handle) : Handle := mkHandle (hPid h) (hKeys h) (hKey h) (hPeer h) (hSock h) (hExtra h) b (hWatched h).
Definition with_watcher (h : Handle) : Handle := mkHandle (hPid h) (hKeys h) (hKey h) (hPeer h) (hSock h) (hExtra h) (hAlive h) true.

Definition killRole (role : string) : IO unit :=
  modify (fun r => set_children (alter (with_alive false) role (rChildren r)) r).

Fixpoint kill_all (roles : list string) : IO unit :=
  match roles with
  | [] => ret tt
  | role :: roles => let* _ := killRole role in kill_all roles
  end.

Definition killTracked : IO unit := let* roles := ChildRoles in kill_all roles.

Definition armWatcher (role : string) : IO unit :=
  modify (fun r => set_children (alter with_watcher role (rChildren r)) r).

Fixpoint arm_all (roles : list string) : IO unit :=
  match roles with
  | [] => ret tt
  | role :: roles => let* _ := armWatcher role in arm_all roles
  end.

Definition armWatchers : IO unit := let* roles := ChildRoles in arm_all roles.

(** The process is gone and its watcher takes it off the list and reports it. *)
Definition reaped (h : Handle) : bool := negb (hAlive h) && hWatched h.

Definition reap (r : Runtime) : Runtime :=
  let gone := filter (fun x => reaped x.2 = true) (map_to_list (rChildren r)) in
  set_pending (rPending r ++ map fst gone) (set_children (filter (fun x => reaped x.2 = false) (rChildren r)) r).

(** Time passes: the processes of the script die, and the watchers run. *)
Definition settle : IO unit := fun r =>
  let dead := default [] (head (rDeaths r)) in
  let r := mkRuntime (rEnds r) (foldr (fun role m => alter (with_alive false) role m) (rChildren r) dead) (rExtra r) (rViaFiles r) (rRootRole r) (rPairs r) (rPids r)
    (rPending r) (rFaults r) (tail (rDeaths r)) in
  (reap r, Ok tt).

Definition flushExitPending : IO unit := modify (set_pending []).

(** Until none of the roles is tracked; [false] when the deadline passes. *)
Definition wait_gone (roles : list string) : IO bool :=
  let* _ := settle in
  let* tracked := get (fun r => existsb (fun role => bool_decide (is_Some (rChildren r !! role))) roles) in
  if tracked : bool then ret false else let* _ := flushExitPending in ret true.

Definition drainExits : IO unit :=
  let* _ := settle in
  let* n := ChildrenLen in
  let* _ := flushExitPending in
  if n =? 0 then ret tt else throw (fail "children still tracked").

(** The process answers signal 0. *)
Definition alive_in (r : Runtime) (role : string) : bool := match rChildren r !! role with Some h => hAlive h | None => false end.

Definition childAlive (role : string) : IO bool := get (fun r => alive_in r role).

(** ** The options of the daemon *)

(** [Peers] says that there is a keyring. *)
Record ServeOptions := mkOptions {
  DisableAuth : bool;
  DisableParser : bool;
  DisableAudit : bool;
  DisableJournal : bool;
  DisablePlan : bool;
  DisableIndex : bool;
  Peers : bool }.

(** The checks of [Start]; without the plan role there is no index role. *)
Definition check_options (o : ServeOptions) : res Error ServeOptions :=
  if DisableAuth o && Peers o then Err (fail "peer keyring requires auth role") else
  if DisableAuth o && negb (DisableParser o) then Err (fail "parser requires auth") else
  if DisableAuth o && negb (DisableAudit o) then Err (fail "audit requires auth") else
  if DisableParser o && negb (DisableAudit o) then Err (fail "audit requires parser") else
  if DisableAuth o && negb (DisableJournal o) then Err (fail "journal requires auth") else
  if DisableParser o && negb (DisableJournal o) then Err (fail "journal requires parser") else
  if DisableAuth o && negb (DisablePlan o) then Err (fail "plan requires auth") else
  if DisableParser o && negb (DisablePlan o) then Err (fail "plan requires parser") else
  if negb (DisablePlan o) && (DisableJournal o || DisableAudit o) then Err (fail "plan role requires journal and audit") else
  let o := if DisablePlan o then mkOptions (DisableAuth o) (DisableParser o) (DisableAudit o) (DisableJournal o) true true (Peers o) else o in
  if negb (DisableIndex o) && DisablePlan o then Err (fail "index requires plan") else
  if negb (DisableIndex o) && (DisableJournal o || DisableAudit o) then Err (fail "index role requires journal and audit") else
  Ok o.

Definition serve_plan (o : ServeOptions) : res Error Plan_ :=
  if DisableAuth o then NetApplyPlan
  else if DisableParser o then AuthNetApplyPlan
  else if negb (DisableIndex o) then
    if Peers o && negb (DisableAudit o) then AuthParserNetPlanIndexApplyJournalAuditPeerPlan
    else AuthParserNetPlanIndexApplyJournalAuditPlan
  else if negb (DisablePlan o) then AuthParserNetPlanApplyJournalAuditPlan
  else if DisableJournal o && DisableAudit o then AuthParserNetApplyPlan
  else if DisableJournal o then AuthParserNetApplyAuditPlan
  else if DisableAudit o then AuthParserNetApplyJournalPlan
  else AuthParserNetApplyJournalAuditPlan.

(** [rt.ExtraPeerFor]. *)
Definition extra_peers (o : ServeOptions) : list (string * string) :=
  if DisableAuth o then [] else
  (if DisableParser o then [(RoleNet, RoleApply)]
   else if negb (DisableIndex o) then
     [(RoleNet, RoleParser); (RoleParser, RolePlan); (RolePlan, RoleIndex); (RoleIndex, RoleApply); (RoleApply, RoleJournal); (RoleJournal, RoleAudit)]
   else if negb (DisablePlan o) then
     [(RoleNet, RoleParser); (RoleParser, RolePlan); (RolePlan, RoleApply); (RoleApply, RoleJournal); (RoleJournal, RoleAudit)]
   else
     [(RoleNet, RoleParser); (RoleParser, RoleApply)] ++
     (if negb (DisableJournal o) then (RoleApply, RoleJournal) :: (if negb (DisableAudit o) then [(RoleJournal, RoleAudit)] else [])
      else if negb (DisableAudit o) then [(RoleApply, RoleAudit)] else [])) ++
  (if Peers o && negb (DisableAudit o) && negb (DisableIndex o) then [(RoleAuth, RoleAudit); (RoleAudit, RoleAuth)] else []).

Definition roleList (o : ServeOptions) : list string :=
  if DisableAuth o then [RoleNet; RoleApply]
  else if DisableParser o then [RoleAuth; RoleApply; RoleNet]
  else if negb (DisableIndex o) then [RoleAuth; RoleAudit; RoleJournal; RoleApply; RoleIndex; RolePlan; RoleParser; RoleNet]
  else if negb (DisablePlan o) then [RoleAuth; RoleAudit; RoleJournal; RoleApply; RolePlan; RoleParser; RoleNet]
  else if DisableJournal o && DisableAudit o then [RoleAuth; RoleParser; RoleApply; RoleNet]
  else if DisableJournal o then [RoleAuth; RoleAudit; RoleApply; RoleParser; RoleNet]
  else if DisableAudit o then [RoleAuth; RoleJournal; RoleApply; RoleParser; RoleNet]
  else [RoleAuth; RoleAudit; RoleJournal; RoleApply; RoleParser; RoleNet].

(** ** The whole fleet *)

Fixpoint replace_all (pairs : list (string * string)) : IO unit :=
  match pairs with
  | [] => ret tt
  | (a, b) :: pairs => let* _ := ReplacePair a b in replace_all pairs
  end.

Fixpoint start_all (starts : list (string * string)) : IO unit :=
  match starts with
  | [] => ret tt
  | (role, peer) :: starts => let* _ := StartChild role peer in start_all starts
  end.

Definition role_pairs (o : ServeOptions) : list (string * string) :=
  if DisableAuth o then [(RoleNet, RoleApply)]
  else if DisableParser o then [(RoleNet, RoleAuth); (RoleNet, RoleApply)]
  else if negb (DisableIndex o) then
    [(RoleNet, RoleAuth); (RoleNet, RoleParser); (RoleParser, RolePlan); (RolePlan, RoleIndex); (RoleIndex, RoleApply); (RoleApply, RoleJournal);
     (RoleJournal, RoleAudit)] ++ (if Peers o && negb (DisableAudit o) && negb (DisableIndex o) then [(RoleAuth, RoleAudit)] else [])
  else if negb (DisablePlan o) then
    [(RoleNet, RoleAuth); (RoleNet, RoleParser); (RoleParser, RolePlan); (RolePlan, RoleApply); (RoleApply, RoleJournal); (RoleJournal, RoleAudit)]
  else if DisableJournal o && DisableAudit o then [(RoleNet, RoleAuth); (RoleNet, RoleParser); (RoleParser, RoleApply)]
  else if DisableJournal o then [(RoleNet, RoleAuth); (RoleNet, RoleParser); (RoleParser, RoleApply); (RoleApply, RoleAudit)]
  else if DisableAudit o then [(RoleNet, RoleAuth); (RoleNet, RoleParser); (RoleParser, RoleApply); (RoleApply, RoleJournal)]
  else [(RoleNet, RoleAuth); (RoleNet, RoleParser); (RoleParser, RoleApply); (RoleApply, RoleJournal); (RoleJournal, RoleAudit)].

Definition replaceRolePairs (o : ServeOptions) : IO unit := replace_all (role_pairs o).

Definition role_starts (o : ServeOptions) : list (string * string) :=
  if DisableAuth o then [(RoleApply, RoleNet); (RoleNet, RoleApply)]
  else if DisableParser o then [(RoleAuth, RoleNet); (RoleApply, RoleNet); (RoleNet, RoleAuth)]
  else if negb (DisableIndex o) then
    [(RoleAudit, RoleJournal); (RoleAuth, RoleNet); (RoleJournal, RoleApply); (RoleApply, RoleIndex); (RoleIndex, RolePlan); (RolePlan, RoleParser);
     (RoleParser, RoleNet); (RoleNet, RoleAuth)]
  else if negb (DisablePlan o) then
    [(RoleAudit, RoleJournal); (RoleAuth, RoleNet); (RoleJournal, RoleApply); (RoleApply, RolePlan); (RolePlan, RoleParser); (RoleParser, RoleNet); (RoleNet, RoleAuth)]
  else if DisableJournal o && DisableAudit o then [(RoleAuth, RoleNet); (RoleApply, RoleParser); (RoleParser, RoleNet); (RoleNet, RoleAuth)]
  else if DisableJournal o then [(RoleAuth, RoleNet); (RoleAudit, RoleApply); (RoleApply, RoleParser); (RoleParser, RoleNet); (RoleNet, RoleAuth)]
  else if DisableAudit o then [(RoleAuth, RoleNet); (RoleJournal, RoleApply); (RoleApply, RoleParser); (RoleParser, RoleNet); (RoleNet, RoleAuth)]
  else [(RoleAudit, RoleJournal); (RoleAuth, RoleNet); (RoleJournal, RoleApply); (RoleApply, RoleParser); (RoleParser, RoleNet); (RoleNet, RoleAuth)].

Definition startRoleChildren (o : ServeOptions) : IO unit := start_all (role_starts o).

Definition respawnAll (o : ServeOptions) : IO unit :=
  let* n := ChildrenLen in
  if negb (n =? 0) then throw (fail "cannot respawn while children tracked") else
  let* _ := replaceRolePairs o in
  startRoleChildren o.

(** ** A part of the fleet *)

(** A step that gives up, and one that returns [false]. *)
Definition succeeds (c : IO unit) : IO bool :=
  let* r := try c in
  match r with inl _ => ret true | inr _ => ret false end.

Definition guard (b : bool) : IO unit := if b then ret tt else throw (fail "false").

(** A tracked child with an open key channel. *)
Definition reachable (role : string) : IO bool :=
  let* h := Child role in
  ret match h with Some h => hKey h | None => false end.

Definition RestartOne (dead live initiator : string) : IO unit :=
  if bool_decide (dead = live) then throw (fail "runtime") else
  if negb (bool_decide (initiator = dead)) && negb (bool_decide (initiator = live)) then throw (fail "runtime") else
  let* via := get rViaFiles in
  if via : bool then throw (fail "runtime") else
  let* ok := reachable live in
  if negb ok then throw (fail "runtime") else
  let* _ := DeleteChild dead in
  let* _ := ReplacePair dead live in
  let* _ := StartChild dead live in
  confer_end live dead RebindExtra.

(** Kill the roles and wait until they are gone. *)
Definition bring_down (down : list string) : IO unit :=
  let* _ := kill_all down in
  let* ok := wait_gone down in
  guard ok.

Definition require (role : string) : IO unit := let* ok := reachable role in guard ok.

Definition replaceAuthAuditPair (o : ServeOptions) : IO unit :=
  if Peers o then ReplacePair RoleAuth RoleAudit else ret tt.

Definition sendAuthAuditPeerFD (o : ServeOptions) : IO unit :=
  if Peers o then let* _ := require RoleAuth in confer_end RoleAuth RoleAudit RebindExtra else ret tt.

Definition restartAuthPrimary (o : ServeOptions) : IO bool :=
  succeeds (
    let* _ := require RoleNet in
    let* _ := if Peers o then require RoleAudit else ret tt in
    let* _ := bring_down [RoleAuth] in
    let* _ := ReplacePair RoleNet RoleAuth in
    let* _ := if Peers o then ReplacePair RoleAuth RoleAudit else ret tt in
    let* _ := StartChild RoleAuth RoleNet in
    let* _ := confer_end RoleNet RoleAuth RebindPrimary in
    if Peers o then confer_end RoleAudit RoleAuth RebindExtra else ret tt).

Definition restartParserDownM2d : IO bool :=
  succeeds (
    let* _ := require RoleNet in
    let* _ := bring_down [RoleParser; RoleApply] in
    let* _ := replace_all [(RoleNet, RoleParser); (RoleParser, RoleApply)] in
    let* _ := start_all [(RoleApply, RoleParser); (RoleParser, RoleNet)] in
    confer_end RoleNet RoleParser RebindExtra).

Definition restartParserDownM2g : IO bool :=
  succeeds (
    let* _ := require RoleNet in
    let* _ := bring_down [RoleParser; RolePlan; RoleApply; RoleJournal; RoleAudit] in
    let* _ := replace_all [(RoleNet, RoleParser); (RoleParser, RolePlan); (RolePlan, RoleApply); (RoleApply, RoleJournal); (RoleJournal, RoleAudit)] in
    let* _ := start_all [(RoleAudit, RoleJournal); (RoleJournal, RoleApply); (RoleApply, RolePlan); (RolePlan, RoleParser); (RoleParser, RoleNet)] in
    confer_end RoleNet RoleParser RebindExtra).

Definition restartParserDownM2h (o : ServeOptions) : IO bool :=
  succeeds (
    let* _ := require RoleNet in
    let* _ := bring_down [RoleParser; RolePlan; RoleIndex; RoleApply; RoleJournal; RoleAudit] in
    let* _ := replace_all [(RoleNet, RoleParser); (RoleParser, RolePlan); (RolePlan, RoleIndex); (RoleIndex, RoleApply); (RoleApply, RoleJournal); (RoleJournal, RoleAudit)] in
    let* _ := replaceAuthAuditPair o in
    let* _ := StartChild RoleAudit RoleJournal in
    let* _ := sendAuthAuditPeerFD o in
    let* _ := start_all [(RoleJournal, RoleApply); (RoleApply, RoleIndex); (RoleIndex, RolePlan); (RolePlan, RoleParser); (RoleParser, RoleNet)] in
    confer_end RoleNet RoleParser RebindExtra).

Definition restartApplySubtree (o : ServeOptions) (bridge : string) : IO bool :=
  succeeds (
    let* _ := require bridge in
    let* authPID := if Peers o then get (fun r => hPid <$> rChildren r !! RoleAuth) else ret None in
    let* _ := bring_down [RoleApply; RoleJournal; RoleAudit] in
    let* _ := replace_all [(bridge, RoleApply); (RoleApply, RoleJournal); (RoleJournal, RoleAudit)] in
    let* _ := replaceAuthAuditPair o in
    let* _ := StartChild RoleAudit RoleJournal in
    let* _ := sendAuthAuditPeerFD o in
    let* _ := start_all [(RoleJournal, RoleApply); (RoleApply, bridge)] in
    let* _ := confer_end bridge RoleApply RebindExtra in
    match authPID with
    | None => ret tt
    | Some pid => let* same := get (fun r => bool_decide (hPid <$> rChildren r !! RoleAuth = Some pid)) in guard same
    end).

(** The topologies that a strategy is for. *)
Definition m2a (o : ServeOptions) : bool := DisableAuth o.
Definition m2c (o : ServeOptions) : bool := negb (DisableAuth o) && DisableParser o.
Definition m2d (o : ServeOptions) : bool :=
  negb (DisableAuth o) && negb (DisableParser o) && DisablePlan o && DisableJournal o && DisableAudit o.
Definition m2g (o : ServeOptions) : bool :=
  negb (DisableAuth o) && negb (DisableParser o) && negb (DisablePlan o) && DisableIndex o && negb (DisableJournal o) && negb (DisableAudit o).
Definition m2h (o : ServeOptions) : bool :=
  negb (DisableAuth o) && negb (DisableParser o) && negb (DisablePlan o) && negb (DisableIndex o) && negb (DisableJournal o) && negb (DisableAudit o).

Definition among (dead : string) (roles : list string) : bool := bool_decide (dead ∈ roles).

Definition some_down (roles : list string) : IO bool :=
  get (fun r => existsb (fun role => negb (alive_in r role)) roles).

Definition armed (ok : bool) (roles : list string) : IO (option (list string)) := ret (if ok then Some roles else None).

Definition below : list string := [RoleApply; RoleJournal; RoleAudit].

(** The roles to watch anew, or [None] when no strategy applies or it failed. *)
Definition tryRestartOne (o : ServeOptions) (dead : string) : IO (option (list string)) :=
  if bool_decide (dead = RoleAuth) && (m2c o || m2d o || m2g o || m2h o) then
    if Peers o && negb (m2h o) then ret None else
    let* ok := restartAuthPrimary o in armed ok [RoleAuth]
  else
  let* down_g := some_down [RoleParser; RolePlan] in
  if m2g o && (among dead [RoleParser; RolePlan] || among dead below && down_g) then
    let* ok := restartParserDownM2g in armed ok [RoleAudit; RoleJournal; RoleApply; RolePlan; RoleParser]
  else
  let* down_h := some_down [RoleParser; RolePlan; RoleIndex] in
  if m2h o && (among dead [RoleParser; RolePlan; RoleIndex] || among dead below && down_h) then
    let* ok := restartParserDownM2h o in armed ok [RoleAudit; RoleJournal; RoleApply; RoleIndex; RolePlan; RoleParser]
  else if (m2g o || m2h o) && among dead below then
    let* ok := restartApplySubtree o (if m2h o then RoleIndex else RolePlan) in armed ok [RoleAudit; RoleJournal; RoleApply]
  else
  let* down_d := some_down [RoleParser] in
  if m2d o && (bool_decide (dead = RoleParser) || bool_decide (dead = RoleApply) && down_d) then
    let* ok := restartParserDownM2d in armed ok [RoleApply; RoleParser]
  else if negb (bool_decide (dead = RoleApply)) then ret None
  else if negb (m2a o) && negb (m2c o) && negb (m2d o) then ret None
  else
  let live := if m2d o then RoleParser else RoleNet in
  let* h := Child live in
  match h with
  | None => ret None
  | Some _ => let* ok := succeeds (RestartOne dead live live) in armed ok [dead]
  end.

(** ** The loop *)

Definition escalate_order : list string := [RoleParser; RolePlan; RoleIndex; RoleApply; RoleJournal; RoleAudit; RoleAuth].

(** The exits of the next 50 ms are read; the most upstream role that is down is chosen. *)
Definition escalateRestartTrigger (o : ServeOptions) (first : string) : IO string :=
  let* _ := settle in
  let* exits := get rPending in
  let* _ := flushExitPending in
  let* down := get (fun r => filter (fun role => role <> RoleNet /\ alive_in r role = false) (roleList o)) in
  let seen := first :: exits ++ down in
  ret (default first (head (filter (fun role => role ∈ seen) escalate_order))).

(** After a kill of everything: new sockets, new processes, new watchers. *)
Definition restart_fleet (o : ServeOptions) : IO unit :=
  let* _ := killTracked in
  let* _ := drainExits in
  let* _ := respawnAll o in
  let* _ := fallible "ready" in
  armWatchers.

(** A restart for the role that was chosen: whether it counts. *)
Definition restart (o : ServeOptions) (role : string) : IO bool :=
  let* r := tryRestartOne o role in
  match r with
  | Some roles =>
      let* _ := flushExitPending in
      let* net := childAlive RoleNet in
      if net then let* _ := arm_all roles in ret true
      else let* _ := restart_fleet o in ret false
  | None => let* _ := restart_fleet o in ret true
  end.

(** What the loop does with an exit: the restarts counted after it, or the error that
    ends the supervisor. *)
Definition on_exit (o : ServeOptions) (maxRestarts restarts : Z) (role : string) : IO Z :=
  if maxRestarts <=? restarts then let* _ := killTracked in throw (fail "restart budget exhausted") else
  let* role := escalateRestartTrigger o role in
  let* counted := restart o role in
  ret (if counted then restarts + 1 else restarts).

(** ** A wired fleet *)

(** The socket that the process of [a] holds for [b]. *)
Definition held_by (h : Handle) (b : string) : option Z :=
  if bool_decide (hPeer h = b) then Some (hSock h)
  else match hExtra h with Some (x, s) => if bool_decide (x = b) then Some s else None | None => None end.

Definition socket (r : Runtime) (a b : string) : option Z := rChildren r !! a ≫= fun h => held_by h b.

Definition peer_in (l : list (string * string)) (role : string) : option string := snd <$> head (filter (fun x => x.1 = role) l).

(** What [StartChild] gives a role. *)
Definition peers_of (o : ServeOptions) (role : string) : option (string * option string) :=
  (fun peer => (peer, peer_in (extra_peers o) role)) <$> peer_in (role_starts o) role.

(** [rt.PushRootRole]. *)
Definition root_role (o : ServeOptions) : string := if DisableAuth o then RoleNet else RoleAuth.

(** A child of the fleet as it should be: alive, watched, reachable, with its peers and
    the keys for them; the root key material only in the role that needs it. *)
Definition proper (o : ServeOptions) (role : string) (h : Handle) : Prop :=
  hAlive h = true /\ hWatched h = true /\ hKey h = true /\ peers_of o role = Some (hPeer h, fst <$> hExtra h) /\
  hKeys h = conferred_keys (hPeer h) (bool_decide (role = root_role o)) (fst <$> hExtra h).

(** Exactly the roles of the fleet are tracked, each as it should be and a process of
    its own, and the two processes of every edge hold the two ends of one pair, which
    no other edge uses; the supervisor has none of them. *)
Definition wired (o : ServeOptions) (r : Runtime) : Prop :=
  rExtra r = list_to_map (extra_peers o) /\ rViaFiles r = false /\ rRootRole r = Some (root_role o) /\
  rEnds r = list_to_map ((fun e => (e, None)) <$> role_pairs o ++ (prod_swap <$> role_pairs o)) /\
  dom (rChildren r) = list_to_set (roleList o) /\
  map_Forall (fun role h => proper o role h /\ hPid h < rPids r) (rChildren r) /\
  NoDup ((fun role => hPid <$> rChildren r !! role) <$> roleList o) /\
  Forall (fun e => exists s, socket r e.1 e.2 = Some s /\ socket r e.2 e.1 = Some s /\ s < rPairs r) (role_pairs o) /\
  NoDup ((fun e => socket r e.1 e.2) <$> role_pairs o).

Definition proper_b (o : ServeOptions) (role : string) (h : Handle) : bool :=
  hAlive h && hWatched h && hKey h &&
  match peers_of o role with
  | Some (peer, extra) =>
      String.eqb peer (hPeer h) && match extra, hExtra h with Some a, Some (b, _) => String.eqb a b | None, None => true | _, _ => false end
  | None => false
  end &&
  bool_decide (hKeys h = conferred_keys (hPeer h) (bool_decide (role = root_role o)) (fst <$> hExtra h)).

Lemma proper_b_spec o role h : proper_b o role h = true <-> proper o role h.
Proof.
  unfold proper_b, proper. rewrite !andb_true_iff, bool_decide_eq_true. generalize (hKeys h = conferred_keys (hPeer h) (bool_decide (role = root_role o)) (fst <$> hExtra h)).
  intros K. destruct (peers_of o role) as [[p x]|]; [|naive_solver].
  rewrite andb_true_iff, String.eqb_eq. destruct x as [a|], (hExtra h) as [[b s]|]; cbn; rewrite ?String.eqb_eq; naive_solver.
Qed.

Definition one_socket (r : Runtime) (e : string * string) : bool :=
  match socket r e.1 e.2, socket r e.2 e.1 with
  | Some s, Some t => (s =? t) && (s <? rPairs r)
  | _, _ => false
  end.

Definition wired_b (o : ServeOptions) (r : Runtime) : bool :=
  bool_decide (rExtra r = list_to_map (extra_peers o)) && negb (rViaFiles r) && bool_decide (rRootRole r = Some (root_role o)) &&
  bool_decide (rEnds r = list_to_map ((fun e => (e, None)) <$> role_pairs o ++ (prod_swap <$> role_pairs o))) &&
  bool_decide (dom (rChildren r) = list_to_set (roleList o)) &&
  forallb (fun x => proper_b o x.1 x.2 && (hPid x.2 <? rPids r)) (map_to_list (rChildren r)) &&
  bool_decide (NoDup ((fun role => hPid <$> rChildren r !! role) <$> roleList o)) &&
  forallb (one_socket r) (role_pairs o) &&
  bool_decide (NoDup ((fun e => socket r e.1 e.2) <$> role_pairs o)).

Lemma all_checked {A} (p : A -> bool) l x : forallb p l = true -> x ∈ l -> p x = true.
Proof. rewrite forallb_forall, list_elem_of_In. auto. Qed.

Lemma wired_b_sound o r : wired_b o r = true -> wired o r.
Proof.
  unfold wired_b. rewrite !andb_true_iff, !bool_decide_eq_true. intros ((((((((H1 & Hvia) & Hroot) & H2) & H3) & H4) & H5) & H6) & H7). split_and!; try done.
  - by destruct (rViaFiles r).
  - intros role h Hh%elem_of_map_to_list. apply (all_checked _ _ _ H4) in Hh. cbn in Hh. apply andb_true_iff in Hh as [Hp Hl].
    rewrite proper_b_spec in Hp. split; [done|lia].
  - apply Forall_forall. intros e He%(all_checked _ _ _ H6). unfold one_socket in He.
    destruct (socket r e.1 e.2) as [s|], (socket r e.2 e.1) as [t|]; try done. apply andb_true_iff in He as [Ht%Z.eqb_eq Hl]. subst t. exists s. split_and!; [done..|lia].
Qed.

(** ** Runs up to renaming

    No step looks at the number of a pair or of a process but to compare it, so that
    what the supervisor does on a state it does on every state that differs from it
    only in these numbers.  The steps are related one by one; the question whether a
    restart rewires the fleet is then one of a single run per topology. *)

Definition rename_handle (f g : Z -> Z) (h : Handle) : Handle :=
  mkHandle (g (hPid h)) (hKeys h) (hKey h) (hPeer h) (f (hSock h)) (prod_map id f <$> hExtra h) (hAlive h) (hWatched h).

Definition same_roles (l l' : list string) : Prop := forall x, x ∈ l <-> x ∈ l'.

Definition pair_known (q : Runtime) (s : Z) : Prop := 0 <= s < rPairs q.
Definition pid_known (q : Runtime) (p : Z) : Prop := 0 <= p < rPids q.

(** The numbers that a handle has, below the next ones. *)
Definition known (q : Runtime) (h : Handle) : Prop :=
  pid_known q (hPid h) /\ pair_known q (hSock h) /\ forall x s, hExtra h = Some (x, s) -> pair_known q s.

(** [r] is [q] with pairs renamed by [f] and processes by [g]. *)
Record sim (f g : Z -> Z) (q r : Runtime) : Prop := mkSim {
  sim_children x : rChildren r !! x = rename_handle f g <$> rChildren q !! x;
  sim_ends k : rEnds r !! k = fmap f <$> rEnds q !! k;
  sim_extra : rExtra r = rExtra q;
  sim_faults : rFaults r = rFaults q;
  sim_deaths : Forall2 same_roles (rDeaths q) (rDeaths r);
  sim_pending : same_roles (rPending q) (rPending r);
  sim_handle x h : rChildren q !! x = Some h -> known q h;
  sim_end k s : rEnds q !! k = Some (Some s) -> pair_known q s;
  sim_counts : 0 <= rPairs q /\ 0 <= rPids q;
  sim_pairs s : pair_known q s -> f s < rPairs r;
  sim_pids s : pid_known q s -> g s < rPids r;
  sim_pair_inj s t : pair_known q s -> pair_known q t -> f s = f t -> s = t;
  sim_pid_inj s t : pid_known q s -> pid_known q t -> g s = g t -> s = t;
  sim_via : rViaFiles r = rViaFiles q;
  sim_root : rRootRole r = rRootRole q }.

(** The renaming after a step extends the one before it. *)
Record extends (q q' : Runtime) (f f' g g' : Z -> Z) : Prop := mkExtends {
  ext_pairs : rPairs q <= rPairs q';
  ext_pids : rPids q <= rPids q';
  ext_pair s : pair_known q s -> f' s = f s;
  ext_pid s : pid_known q s -> g' s = g s }.

(** How the results of two runs correspond, in the state after the run. *)
Abbreviation Corr A := ((Z -> Z) -> (Z -> Z) -> Runtime -> A -> A -> Prop).

Definition same {A} : Corr A := fun _ _ _ a b => a = b.
Definition as_pair : Corr Z := fun f _ q s t => pair_known q s /\ t = f s.
Definition as_roles : Corr (list string) := fun _ _ _ l l' => same_roles l l'.
Definition as_end : Corr (option Z) := fun f _ q s t => (forall x, s = Some x -> pair_known q x) /\ t = f <$> s.
Definition as_child : Corr (option Handle) := fun f g q h h' => (forall x, h = Some x -> known q x) /\ h' = rename_handle f g <$> h.
Definition as_pid : Corr (option Z) := fun _ g q s t => (forall x, s = Some x -> pid_known q x) /\ t = g <$> s.

Definition follows {A} (R : Corr A) (f g : Z -> Z) (q : Runtime) (x y : Runtime * res Error A) : Prop :=
  exists f' g', sim f' g' x.1 y.1 /\ extends q x.1 f f' g g' /\
    match x.2, y.2 with
    | Ok a, Ok b => R f' g' x.1 a b
    | Err e, Err e' => e = e'
    | Panic, Panic => True
    | _, _ => False
    end.

(** Two runs from corresponding states. *)
Definition steps {A} (R : Corr A) (f g : Z -> Z) (q r : Runtime) (c c' : IO A) : Prop := sim f g q r -> follows R f g q (c q) (c' r).

Definition related {A} (c : IO A) : Prop := forall f g q r, steps same f g q r c c.

Lemma extends_refl q f g : extends q q f f g g.
Proof. by split. Qed.

Lemma pair_known_mono q q' f f' g g' s : extends q q' f f' g g' -> pair_known q s -> pair_known q' s.
Proof. intros [H _ _ _]. unfold pair_known. lia. Qed.

Lemma pid_known_mono q q' f f' g g' s : extends q q' f f' g g' -> pid_known q s -> pid_known q' s.
Proof. intros [_ H _ _]. unfold pid_known. lia. Qed.

Lemma extends_trans q q1 q2 f f1 f2 g g1 g2 : extends q q1 f f1 g g1 -> extends q1 q2 f1 f2 g1 g2 -> extends q q2 f f2 g g2.
Proof.
  intros H1 H2. split; [destruct H1, H2; lia..| |]; intros s Hs.
  - rewrite (ext_pair _ _ _ _ _ _ H2) by (by eapply pair_known_mono). by apply (ext_pair _ _ _ _ _ _ H1).
  - rewrite (ext_pid _ _ _ _ _ _ H2) by (by eapply pid_known_mono). by apply (ext_pid _ _ _ _ _ _ H1).
Qed.

Lemma as_pair_mono q q' f f' g g' s t : extends q q' f f' g g' -> as_pair f g q s t -> as_pair f' g' q' s t.
Proof. intros He [H ->]. split; [by eapply pair_known_mono|]. symmetry. by apply (ext_pair _ _ _ _ _ _ He). Qed.

Lemma as_pid_mono q q' f f' g g' s t : extends q q' f f' g g' -> as_pid f g q s t -> as_pid f' g' q' s t.
Proof.
  intros He [H ->]. split; [intros x Hx; eapply pid_known_mono; eauto|]. destruct s as [s|]; [|done].
  cbn. f_equal. symmetry. by apply (ext_pid _ _ _ _ _ _ He), H.
Qed.

Lemma steps_bind {A B} (R : Corr A) (S : Corr B) f g q r (c c' : IO A) (k k' : A -> IO B) :
  steps R f g q r c c' ->
  (forall f' g' q' r' a b, extends q q' f f' g g' -> R f' g' q' a b -> steps S f' g' q' r' (k a) (k' b)) ->
  steps S f g q r (io_bind c k) (io_bind c' k').
Proof.
  intros Hc Hk Hs. destruct (Hc Hs) as (f1 & g1 & Hs1 & He1 & Hr). unfold io_bind.
  destruct (c q) as [q1 x], (c' r) as [r1 y]. cbn in *.
  destruct x as [a|e|], y as [b|e'|]; try done; [|by exists f1, g1..].
  destruct (Hk f1 g1 q1 r1 a b He1 Hr Hs1) as (f2 & g2 & Hs2 & He2 & Hr2). exists f2, g2. split_and!; [done|by eapply extends_trans|done].
Qed.

Lemma related_bind {A B} (c : IO A) (k : A -> IO B) : related c -> (forall a, related (k a)) -> related (io_bind c k).
Proof. intros Hc Hk f g q r. eapply steps_bind; [apply Hc|]. intros f' g' q' r' a b _ <-. apply Hk. Qed.

Lemma steps_ret {A} (R : Corr A) f g q r a b : R f g q a b -> steps R f g q r (ret a) (ret b).
Proof. intros H Hs. exists f, g. split_and!; [done|apply extends_refl|done]. Qed.

Lemma related_ret {A} (a : A) : related (ret a).
Proof. intros f g q r. by apply steps_ret. Qed.

Lemma steps_throw {A} (R : Corr A) f g q r e : steps R f g q r (throw e) (throw e).
Proof. intros Hs. exists f, g. split_and!; [done|apply extends_refl|done]. Qed.

Lemma related_throw {A} e : related (throw (A := A) e).
Proof. intros f g q r. apply steps_throw. Qed.

Lemma related_succeeds c : related c -> related (succeeds c).
Proof.
  intros Hc f g q r Hs. destruct (Hc f g q r Hs) as (f1 & g1 & Hs1 & He1 & Hr). exists f1, g1. unfold succeeds, io_bind, try.
  destruct (c q) as [q1 x], (c r) as [r1 y]. cbn in *. by destruct x as [[]|e|], y as [[]|e'|].
Qed.

Lemma steps_get {A} (R : Corr A) f g q r (p p' : Runtime -> A) : (sim f g q r -> R f g q (p q) (p' r)) -> steps R f g q r (get p) (get p').
Proof. intros Hp Hs. exists f, g. split_and!; [done|apply extends_refl|]. by apply Hp. Qed.

Lemma related_get {A} (p : Runtime -> A) : (forall f g q r, sim f g q r -> p q = p r) -> related (get p).
Proof. intros Hp f g q r. apply steps_get, Hp. Qed.

(** A change of the state that makes no new numbers. *)
Lemma steps_modify f g q r (p p' : Runtime -> Runtime) :
  rPairs (p q) = rPairs q -> rPids (p q) = rPids q -> (sim f g q r -> sim f g (p q) (p' r)) -> steps same f g q r (modify p) (modify p').
Proof. intros H1 H2 Hp Hs. exists f, g. split_and!; [by apply Hp|split; cbn; (done || lia)|done]. Qed.

(** *** The steps *)

(** A change of a handle that leaves its numbers. *)
Record inert (t : Handle -> Handle) : Prop := mkInert {
  inert_numbers h : hPid (t h) = hPid h /\ hSock (t h) = hSock h /\ hExtra (t h) = hExtra h;
  inert_rename f g h : t (rename_handle f g h) = rename_handle f g (t h);
  inert_twice h : t (t h) = t h }.

Lemma inert_alive b : inert (with_alive b).
Proof. by split. Qed.

Lemma inert_watcher : inert with_watcher.
Proof. by split. Qed.

#[local] Hint Resolve inert_alive inert_watcher : core.

Definition mark (t : Handle -> Handle) (l : list string) (m : gmap string Handle) : gmap string Handle :=
  foldr (fun role m => alter t role m) m l.

Lemma lookup_mark t l m x : inert t -> mark t l m !! x = if decide (x ∈ l) then t <$> m !! x else m !! x.
Proof.
  intros Ht. induction l as [|y l IH]; [done|]. change (mark t (y :: l) m) with (alter t y (mark t l m)). destruct (decide (x = y)) as [->|Hne].
  - rewrite lookup_alter_eq, IH, (decide_True (P := y ∈ y :: l)) by set_solver. case_decide; [|done].
    rewrite <- option_fmap_compose. apply option_fmap_ext. intros h. apply (inert_twice _ Ht).
  - rewrite lookup_alter_ne, IH by done. by apply decide_ext; set_solver.
Qed.

Lemma sim_mark f g q r t l l' : inert t -> same_roles l l' -> sim f g q r ->
  sim f g (set_children (mark t l (rChildren q)) q) (set_children (mark t l' (rChildren r)) r).
Proof.
  intros Ht Hl [H1 H2 H3 H4 H5 H6 H7 H8 H9 H10 H11 H12 H13 H14 H15]. split; try done; cbn.
  - intros x. rewrite !lookup_mark, H1 by done. rewrite (decide_ext (x ∈ l') (x ∈ l)) by (symmetry; apply Hl). case_decide; [|done].
    destruct (rChildren q !! x) as [h|]; [|done]. cbn. f_equal. apply (inert_rename _ Ht).
  - intros x h. rewrite lookup_mark by done. case_decide; [|by apply H7]. intros (h' & Hh & ->)%fmap_Some.
    destruct (inert_numbers _ Ht h') as (E1 & E2 & E3). specialize (H7 _ _ Hh). unfold known. by rewrite E1, E2, E3.
Qed.

Lemma mark_alter t x l m : inert t -> mark t l (alter t x m) = mark t (x :: l) m.
Proof.
  intros Ht. apply map_eq. intros y. rewrite !lookup_mark by done. destruct (decide (y = x)) as [->|Hne].
  - rewrite lookup_alter_eq, (decide_True (P := x ∈ x :: l)) by set_solver. case_decide; [|done].
    rewrite <- option_fmap_compose. apply option_fmap_ext. intros h. apply (inert_twice _ Ht).
  - rewrite lookup_alter_ne by done. by apply decide_ext; set_solver.
Qed.

Lemma kill_all_mark l r : kill_all l r = modify (fun r => set_children (mark (with_alive false) l (rChildren r)) r) r.
Proof.
  revert r. induction l as [|x l IH]; intros r; [by destruct r|].
  cbn [kill_all]. unfold io_bind, killRole, modify. rewrite IH. unfold modify. f_equal. cbn -[mark]. by rewrite mark_alter.
Qed.

Lemma arm_all_mark l r : arm_all l r = modify (fun r => set_children (mark with_watcher l (rChildren r)) r) r.
Proof.
  revert r. induction l as [|x l IH]; intros r; [by destruct r|].
  cbn [arm_all]. unfold io_bind, armWatcher, modify. rewrite IH. unfold modify. f_equal. cbn -[mark]. by rewrite mark_alter.
Qed.

Lemma steps_kill_all f g q r l l' : same_roles l l' -> steps same f g q r (kill_all l) (kill_all l').
Proof. intros Hl. unfold steps. rewrite !kill_all_mark. apply steps_modify; [done..|]. by apply sim_mark. Qed.

Lemma steps_arm_all f g q r l l' : same_roles l l' -> steps same f g q r (arm_all l) (arm_all l').
Proof. intros Hl. unfold steps. rewrite !arm_all_mark. apply steps_modify; [done..|]. by apply sim_mark. Qed.

Lemma sim_map f g q r : sim f g q r -> rChildren r = rename_handle f g <$> rChildren q.
Proof. intros Hs. apply map_eq. intros x. rewrite lookup_fmap. apply Hs. Qed.

Lemma elem_of_roles (m : gmap string Handle) x : x ∈ map fst (map_to_list m) <-> is_Some (m !! x).
Proof.
  rewrite list_elem_of_fmap. split; [intros ([y h] & -> & Hy); apply elem_of_map_to_list in Hy; by exists h|].
  intros [h Hh]. exists (x, h). by rewrite elem_of_map_to_list.
Qed.

Lemma steps_ChildRoles f g q r : steps as_roles f g q r ChildRoles ChildRoles.
Proof.
  apply steps_get. intros Hs x. rewrite !sort_slice_elem, !elem_of_roles, (sim_map _ _ _ _ Hs), lookup_fmap. by rewrite fmap_is_Some.
Qed.

Lemma related_killTracked : related killTracked.
Proof. intros f g q r. eapply steps_bind; [apply steps_ChildRoles|]. intros f' g' q' r' l l' _ Hl. by apply steps_kill_all. Qed.

Lemma related_armWatchers : related armWatchers.
Proof. intros f g q r. eapply steps_bind; [apply steps_ChildRoles|]. intros f' g' q' r' l l' _ Hl. by apply steps_arm_all. Qed.

Lemma related_ChildrenLen : related ChildrenLen.
Proof. apply related_get. intros f g q r Hs. by rewrite (sim_map _ _ _ _ Hs), map_size_fmap. Qed.

Lemma sim_pending_set f g q r l l' : same_roles l l' -> sim f g q r -> sim f g (set_pending l q) (set_pending l' r).
Proof. intros Hl [H1 H2 H3 H4 H5 H6 H7 H8 H9 H10 H11 H12 H13 H14 H15]. by split. Qed.

Lemma related_flush : related flushExitPending.
Proof. intros f g q r. apply steps_modify; [done..|]. by apply sim_pending_set. Qed.

Lemma reaped_rename f g h : reaped (rename_handle f g h) = reaped h.
Proof. done. Qed.

Lemma sim_reap f g q r : sim f g q r -> sim f g (reap q) (reap r).
Proof.
  intros Hs. pose proof (sim_map _ _ _ _ Hs) as Hm. unfold reap. apply sim_pending_set.
  - intros x. rewrite !elem_of_app, !list_elem_of_fmap. setoid_rewrite list_elem_of_filter. rewrite Hm.
    rewrite (sim_pending _ _ _ _ Hs x). apply or_iff_compat_l. split.
    + intros ([y h] & -> & Hy & H%elem_of_map_to_list). exists (y, rename_handle f g h). split; [done|]. split; [done|].
      apply elem_of_map_to_list. by rewrite lookup_fmap, H.
    + intros ([y h] & -> & Hy & H%elem_of_map_to_list). rewrite lookup_fmap in H. apply fmap_Some in H as (h' & H & ->).
      exists (y, h'). split; [done|]. split; [done|]. by apply elem_of_map_to_list.
  - destruct Hs as [H1 H2 H3 H4 H5 H6 H7 H8 H9 H10 H11 H12 H13 H14 H15]. split; try done; cbn.
    + intros x. rewrite Hm, map_filter_fmap, lookup_fmap. done.
    + intros x h [H _]%map_lookup_filter_Some. by apply H7 in H.
Qed.

Lemma related_settle : related settle.
Proof.
  intros f g q r Hs. exists f, g. split; [|split; [by split|done]]. unfold settle. cbn [fst]. apply sim_reap.
  pose proof (sim_deaths _ _ _ _ Hs) as Hd.
  assert (Hl : same_roles (default [] (head (rDeaths q))) (default [] (head (rDeaths r)))) by (by inversion Hd).
  assert (Ht : Forall2 same_roles (tail (rDeaths q)) (tail (rDeaths r))) by (by inversion Hd; cbn).
  destruct (sim_mark _ _ _ _ _ _ _ (inert_alive false) Hl Hs) as [H1 H2 H3 H4 H5 H6 H7 H8 H9 H10 H11 H12 H13 H14 H15]. by split.
Qed.

Lemma related_fallible code : related (fallible code).
Proof.
  intros f g q r [H1 H2 H3 H4 H5 H6 H7 H8 H9 H10 H11 H12 H13 H14 H15]. exists f, g. unfold fallible. rewrite H4.
  destruct (rFaults q) as [|[] fl]; cbn; (split; [by split|split; [by split|done]]).
Qed.

Lemma steps_Child f g q r role : steps as_child f g q r (Child role) (Child role).
Proof. apply steps_get. intros Hs. split; [apply Hs|]. apply Hs. Qed.

Lemma related_get_alive {A} (k : (string -> bool) -> A) : (forall p p', (forall x, p x = p' x) -> k p = k p') -> related (get (fun r => k (alive_in r))).
Proof.
  intros Hk. apply related_get. intros f g q r Hs. apply Hk. intros x. unfold alive_in. rewrite (sim_children _ _ _ _ Hs).
  by destruct (rChildren q !! x).
Qed.

Lemma related_childAlive role : related (childAlive role).
Proof. apply (related_get_alive (fun p => p role)). auto. Qed.

Lemma related_some_down roles : related (some_down roles).
Proof.
  apply (related_get_alive (fun p => existsb (fun role => negb (p role)) roles)). intros p p' H. induction roles as [|x l IH]; [done|].
  cbn. by rewrite H, IH.
Qed.

Lemma related_reachable role : related (reachable role).
Proof.
  intros f g q r. eapply steps_bind; [apply steps_Child|]. intros f' g' q' r' h h' _ [_ ->]. apply steps_ret. by destruct h.
Qed.

Lemma related_guard b : related (guard b).
Proof. destruct b; [apply related_ret|apply related_throw]. Qed.

Lemma related_require role : related (require role).
Proof. apply related_bind; [apply related_reachable|apply related_guard]. Qed.

Lemma sim_tracked f g q r x : sim f g q r -> is_Some (rChildren q !! x) <-> is_Some (rChildren r !! x).
Proof. intros Hs. by rewrite (sim_children _ _ _ _ Hs), fmap_is_Some. Qed.

Lemma related_wait_gone roles : related (wait_gone roles).
Proof.
  apply related_bind; [apply related_settle|]. intros _. apply related_bind.
  - apply related_get. intros f g q r Hs. induction roles as [|x l IH]; [done|]. cbn. f_equal; [|done].
    by apply bool_decide_ext, (sim_tracked _ _ _ _ _ Hs).
  - intros []; [apply related_ret|]. apply related_bind; [apply related_flush|]. intros _. apply related_ret.
Qed.

Lemma related_bring_down roles : related (bring_down roles).
Proof.
  apply related_bind; [intros f g q r; by apply steps_kill_all|]. intros _. apply related_bind; [apply related_wait_gone|apply related_guard].
Qed.

Lemma related_drainExits : related drainExits.
Proof.
  apply related_bind; [apply related_settle|]. intros _. apply related_bind; [apply related_ChildrenLen|]. intros n.
  apply related_bind; [apply related_flush|]. intros _. destruct (n =? 0); [apply related_ret|apply related_throw].
Qed.

Lemma related_DeleteChild role : related (DeleteChild role).
Proof.
  intros f g q r. apply steps_modify; [done..|]. intros [H1 H2 H3 H4 H5 H6 H7 H8 H9 H10 H11 H12 H13 H14 H15]. split; try done; cbn.
  - intros x. rewrite !lookup_delete. by case_decide.
  - intros x h [_ H]%lookup_delete_Some. by apply H7 in H.
Qed.

(** *** Ends *)

Lemma steps_end_file f g q r a b : steps as_pair f g q r (end_file a b) (end_file a b).
Proof.
  eapply (steps_bind as_end).
  - intros Hs. exists f, g. unfold Endpoint. rewrite (sim_ends _ _ _ _ Hs).
    destruct (rEnds q !! (a, b)) as [v|] eqn:E; cbn; (split_and!; [done|apply extends_refl|]); [|done].
    split; [|done]. intros x ->. by eapply (sim_end _ _ _ _ Hs).
  - intros f' g' q' r' s t _ [Hs ->]. destruct s as [s|]; cbn; [|apply steps_throw].
    eapply steps_bind; [apply related_fallible|]. intros f2 g2 q2 r2 _ _ He _. apply steps_ret. eapply as_pair_mono; [done|]. split; [|done]. by apply Hs.
Qed.

Lemma sim_delete_end f g q r k : sim f g q r -> sim f g (set_ends (delete k (rEnds q)) q) (set_ends (delete k (rEnds r)) r).
Proof.
  intros [H1 H2 H3 H4 H5 H6 H7 H8 H9 H10 H11 H12 H13 H14 H15]. split; try done; cbn.
  - intros x. rewrite !lookup_delete. by case_decide.
  - intros x s [_ H]%lookup_delete_Some. by apply H8 in H.
Qed.

Lemma sim_insert_end f g q r k v : (forall s, v = Some s -> pair_known q s) -> sim f g q r ->
  sim f g (set_ends (<[k := v]> (rEnds q)) q) (set_ends (<[k := f <$> v]> (rEnds r)) r).
Proof.
  intros Hv [H1 H2 H3 H4 H5 H6 H7 H8 H9 H10 H11 H12 H13 H14 H15]. split; try done; cbn.
  - intros x. rewrite !lookup_insert. by case_decide.
  - intros x s [[_ ->]|[_ H]]%lookup_insert_Some; [by apply Hv|by apply H8 in H].
Qed.

Lemma related_end_gone a b : related (end_gone a b).
Proof. intros f g q r. apply steps_modify; [done..|]. intros Hs. by apply (sim_insert_end f g q r (a, b) None). Qed.

(** *** New numbers *)

Definition renumber (pairs pids : Z) (r : Runtime) : Runtime :=
  mkRuntime (rEnds r) (rChildren r) (rExtra r) (rViaFiles r) (rRootRole r) pairs pids (rPending r) (rFaults r) (rDeaths r).

Lemma rename_handle_ext f f' g g' q h : known q h -> (forall s, pair_known q s -> f' s = f s) -> (forall s, pid_known q s -> g' s = g s) ->
  rename_handle f' g' h = rename_handle f g h.
Proof.
  intros (H1 & H2 & H3) Hf Hg. unfold rename_handle. f_equal; [by apply Hg|by apply Hf|]. destruct (hExtra h) as [[x s]|]; [|done].
  cbn. by rewrite (Hf s) by (by eapply H3).
Qed.

Lemma sim_renumber f g f' g' q r a b c d : sim f g q r -> extends q (renumber a b q) f f' g g' ->
  (forall s, 0 <= s < a -> f' s < c) -> (forall s, 0 <= s < b -> g' s < d) ->
  (forall s t, 0 <= s < a -> 0 <= t < a -> f' s = f' t -> s = t) -> (forall s t, 0 <= s < b -> 0 <= t < b -> g' s = g' t -> s = t) ->
  sim f' g' (renumber a b q) (renumber c d r).
Proof.
  intros [H1 H2 H3 H4 H5 H6 H7 H8 H9 H10 H11 H12 H13 H14 H15] He Hc Hd Hi Hj. destruct He as [E1 E2 E3 E4]. cbn in E1, E2. split; try done; cbn.
  - intros x. rewrite H1. destruct (rChildren q !! x) as [h|] eqn:E; [|done]. cbn. f_equal. symmetry. eapply rename_handle_ext; eauto.
  - intros k. rewrite H2. destruct (rEnds q !! k) as [[s|]|] eqn:E; [|done..]. cbn. rewrite (E3 s); [done|]. by eapply H8.
  - intros x h Hh. destruct (H7 _ _ Hh) as (K1 & K2 & K3). unfold known, pid_known, pair_known in *. cbn. split_and!; [lia..|].
    intros y s Hy. specialize (K3 _ _ Hy). lia.
  - intros k s Hk. specialize (H8 _ _ Hk). unfold pair_known in *. cbn. lia.
  - lia.
Qed.

Definition extend_with (n v : Z) (f : Z -> Z) (s : Z) : Z := if s =? n then v else f s.

Lemma extend_with_old n v f s : s < n -> extend_with n v f s = f s.
Proof. intros H. unfold extend_with. by rewrite (proj2 (Z.eqb_neq s n)) by lia. Qed.

Lemma extend_with_new n v f : extend_with n v f n = v.
Proof. unfold extend_with. by rewrite Z.eqb_refl. Qed.

Lemma extend_with_fresh n v f : (forall s, 0 <= s < n -> f s < v) -> (forall s t, 0 <= s < n -> 0 <= t < n -> f s = f t -> s = t) ->
  (forall s, 0 <= s < n + 1 -> extend_with n v f s < v + 1) /\
  (forall s t, 0 <= s < n + 1 -> 0 <= t < n + 1 -> extend_with n v f s = extend_with n v f t -> s = t).
Proof.
  intros Hb Hi. unfold extend_with. split.
  - intros s Hs. destruct (Z.eqb_spec s n); [lia|]. specialize (Hb s ltac:(lia)). lia.
  - intros s t Hs Ht. destruct (Z.eqb_spec s n), (Z.eqb_spec t n); [lia|specialize (Hb t ltac:(lia)); lia|specialize (Hb s ltac:(lia)); lia|].
    apply Hi; lia.
Qed.

Lemma sim_new_pair f g q r : sim f g q r ->
  let f' := extend_with (rPairs q) (rPairs r) f in
  extends q (renumber (rPairs q + 1) (rPids q) q) f f' g g /\
  sim f' g (renumber (rPairs q + 1) (rPids q) q) (renumber (rPairs r + 1) (rPids r) r).
Proof.
  intros Hs f'. assert (He : extends q (renumber (rPairs q + 1) (rPids q) q) f f' g g).
  { split; cbn; [lia..| |done]. intros s Hs'. apply extend_with_old. unfold pair_known in Hs'. lia. }
  split; [done|]. destruct (extend_with_fresh (rPairs q) (rPairs r) f) as [Hb Hi]; [apply Hs..|].
  apply (sim_renumber f g); (done || apply Hs).
Qed.

Lemma sim_new_pid f g q r : sim f g q r ->
  let g' := extend_with (rPids q) (rPids r) g in
  extends q (renumber (rPairs q) (rPids q + 1) q) f f g g' /\
  sim f g' (renumber (rPairs q) (rPids q + 1) q) (renumber (rPairs r) (rPids r + 1) r).
Proof.
  intros Hs g'. assert (He : extends q (renumber (rPairs q) (rPids q + 1) q) f f g g').
  { split; cbn; [lia..|done|]. intros s Hs'. apply extend_with_old. unfold pid_known in Hs'. lia. }
  split; [done|]. destruct (extend_with_fresh (rPids q) (rPids r) g) as [Hb Hi]; [apply Hs..|].
  apply (sim_renumber f g); (done || apply Hs).
Qed.

Lemma related_installPair a b : related (installPair a b).
Proof.
  apply related_bind; [apply related_fallible|]. intros _ f g q r Hs. destruct (sim_new_pair _ _ _ _ Hs) as [He Hs'].
  eexists _, _. cbn [fst snd]. split; [|split; [|done]].
  - apply (sim_insert_end _ _ _ _ (a, b) (Some (rPairs q))) in Hs'.
    + apply (sim_insert_end _ _ _ _ (b, a) (Some (rPairs q))) in Hs'; [cbn in Hs'; rewrite extend_with_new in Hs'; exact Hs'|].
      intros s [= <-]. unfold pair_known. cbn. pose proof (sim_counts _ _ _ _ Hs). lia.
    + intros s [= <-]. unfold pair_known. cbn. pose proof (sim_counts _ _ _ _ Hs). lia.
  - destruct He as [E1 E2 E3 E4]. by split.
Qed.

Lemma related_ReplacePair a b : related (ReplacePair a b).
Proof.
  apply related_bind; [destruct (makePair a b); intros f g q r Hs; exists f, g; (split_and!; [done|apply extends_refl|done])|].
  intros pk. apply related_bind; [|intros _; apply related_installPair].
  intros f g q r. apply steps_modify; [done..|]. intros Hs. by apply (sim_delete_end f g (set_ends _ q) (set_ends _ r)), sim_delete_end.
Qed.

Lemma related_replace_all l : related (replace_all l).
Proof. induction l as [|[a b] l IH]; [apply related_ret|]. apply related_bind; [apply related_ReplacePair|]. by intros _. Qed.

Lemma sim_insert_child f g q r role h : known q h -> sim f g q r ->
  sim f g (set_children (<[role := h]> (rChildren q)) q) (set_children (<[role := rename_handle f g h]> (rChildren r)) r).
Proof.
  intros Hh [H1 H2 H3 H4 H5 H6 H7 H8 H9 H10 H11 H12 H13 H14 H15]. split; try done; cbn.
  - intros x. rewrite !lookup_insert. by case_decide.
  - intros x s [[_ <-]|[_ H]]%lookup_insert_Some; [done|by apply H7 in H].
Qed.

(** The two processes get corresponding sockets. *)
Definition as_extra (f g : Z -> Z) (q : Runtime) (x y : option (string * Z)) : Prop :=
  (forall a s, x = Some (a, s) -> pair_known q s) /\ y = prod_map id f <$> x.

Lemma as_extra_mono q q' f f' g g' x y : extends q q' f f' g g' -> as_extra f g q x y -> as_extra f' g' q' x y.
Proof.
  intros He [H ->]. split; [intros a s Hx; eapply pair_known_mono; eauto|]. destruct x as [[a s]|]; [|done].
  cbn. f_equal. f_equal. symmetry. apply (ext_pair _ _ _ _ _ _ He). by eapply H.
Qed.

Lemma steps_start_process f g q r role peer s t x y keys channel : as_pair f g q s t -> as_extra f g q x y ->
  steps same f g q r (start_process role peer s x keys channel) (start_process role peer t y keys channel).
Proof.
  intros Ha Hx Hs. destruct (sim_new_pid _ _ _ _ Hs) as [He Hs3].
  destruct (as_pair_mono _ _ _ _ _ _ _ _ He Ha) as [Hp Ht]. destruct (as_extra_mono _ _ _ _ _ _ _ _ He Hx) as [Hxk Hy].
  eexists _, _. cbn [fst snd]. split; [|split; [|done]].
  - eapply (sim_insert_child _ _ _ _ role (mkHandle (rPids q) keys channel peer s x true false)) in Hs3.
    + cbn in Hs3. unfold rename_handle in Hs3. cbn in Hs3. rewrite extend_with_new, <- Ht, <- Hy in Hs3. exact Hs3.
    + split_and!; [|done|done]. unfold pid_known. cbn. pose proof (sim_counts _ _ _ _ Hs). lia.
  - destruct He as [E1 E2 E3 E4]. by split.
Qed.

Lemma related_send_keys keys : related (send_keys keys).
Proof. induction keys as [|k keys IH]; [apply related_ret|]. apply related_bind; [apply related_fallible|]. by intros _. Qed.

Lemma steps_extra_end f g q r role peer : steps as_extra f g q r (extra_end role peer) (extra_end role peer).
Proof.
  eapply (steps_bind same); [apply steps_get; intros Hs; unfold same; by rewrite (sim_extra _ _ _ _ Hs)|]. intros f1 g1 q1 r1 x _ _ <-.
  destruct x as [x|]; [|by apply steps_ret]. case_match; [by apply steps_ret|].
  eapply steps_bind; [apply steps_end_file|]. intros f2 g2 q2 r2 s t _ Hp.
  eapply steps_bind; [apply related_fallible|]. intros f3 g3 q3 r3 _ _ He3 _.
  eapply steps_bind; [apply related_end_gone|]. intros f4 g4 q4 r4 _ _ He4 _.
  destruct (as_pair_mono _ _ _ _ _ _ _ _ He4 (as_pair_mono _ _ _ _ _ _ _ _ He3 Hp)) as [Hs Ht].
  apply steps_ret. split; [by intros a u [= _ <-]|]. by rewrite Ht.
Qed.

Lemma as_extra_names f g q x y : as_extra f g q x y -> fst <$> y = fst <$> x.
Proof. intros [_ ->]. by destruct x as [[a s]|]. Qed.

Lemma related_StartChild role peer : related (StartChild role peer).
Proof.
  intros f g q r. eapply steps_bind; [apply steps_Child|]. intros f1 g1 q1 r1 h h' _ [_ ->]. destruct h as [h|]; cbn [fmap option_fmap option_map]; [apply steps_throw|].
  eapply steps_bind; [apply steps_end_file|]. intros f2 g2 q2 r2 s t _ Hp.
  eapply steps_bind; [apply related_fallible|]. intros f3 g3 q3 r3 _ _ He3 _.
  eapply steps_bind; [apply related_fallible|]. intros f4 g4 q4 r4 _ _ He4 _.
  eapply steps_bind; [apply related_end_gone|]. intros f5 g5 q5 r5 _ _ He5 _.
  eapply (steps_bind same); [apply steps_get; intros Hs; unfold same; by rewrite (sim_root _ _ _ _ Hs)|]. intros f6 g6 q6 r6 root _ He6 <-.
  eapply steps_bind; [apply steps_extra_end|]. intros f7 g7 q7 r7 x y He7 Hx.
  eapply steps_bind; [apply related_fallible|]. intros f8 g8 q8 r8 _ _ He8 _.
  eapply (steps_bind same); [apply steps_get; intros Hs; symmetry; apply (sim_via _ _ _ _ Hs)|]. intros f9 g9 q9 r9 via _ He9 <-.
  cbv zeta. rewrite (as_extra_names _ _ _ _ _ Hx).
  assert (Hp9 : as_pair f9 g9 q9 s t) by (do 7 (eapply as_pair_mono; [eassumption|]); exact Hp).
  assert (Hx9 : as_extra f9 g9 q9 x y) by (do 2 (eapply as_extra_mono; [eassumption|]); exact Hx).
  destruct via; [by apply steps_start_process|].
  eapply steps_bind; [apply related_fallible|]. intros f10 g10 q10 r10 _ _ He10 _.
  eapply steps_bind; [apply related_send_keys|]. intros f11 g11 q11 r11 _ _ He11 _.
  apply steps_start_process; [do 2 (eapply as_pair_mono; [eassumption|]); exact Hp9|do 2 (eapply as_extra_mono; [eassumption|]); exact Hx9].
Qed.

Lemma related_start_all l : related (start_all l).
Proof. induction l as [|[a b] l IH]; [apply related_ret|]. apply related_bind; [apply related_StartChild|]. by intros _. Qed.

(** *** Survivors *)

Lemma rebind_rename f g role kind s h : rebind role kind (f s) (rename_handle f g h) = rename_handle f g (rebind role kind s h).
Proof. unfold rebind. cbn. destruct (hExtra h) as [[x u]|] eqn:E, kind; cbn; repeat case_match; unfold rename_handle; cbn; rewrite ?E; done. Qed.

Lemma rebind_known q role kind s h : pair_known q s -> known q h -> known q (rebind role kind s h).
Proof.
  intros Hp (H1 & H2 & H3). unfold rebind. destruct (hExtra h) as [[x u]|] eqn:E, kind; repeat case_match;
    (split_and!; cbn; [done..|]; intros y w; rewrite ?E; naive_solver).
Qed.

Lemma steps_conferPeerFD f g q r role kind s t : as_pair f g q s t -> steps same f g q r (conferPeerFD role s kind) (conferPeerFD role t kind).
Proof.
  intros Hp. eapply steps_bind; [apply steps_Child|]. intros f1 g1 q1 r1 h h' He1 Hh.
  destruct h as [h|], Hh as [Hh ->]; cbn; [|apply steps_throw]. destruct (hKey h); cbn; [|apply steps_throw].
  intros Hs1. pose proof Hs1 as Hs0. revert Hs1. eapply steps_bind; [apply related_fallible|]. intros f2 g2 q2 r2 _ _ He2 _.
  destruct (hAlive h); [|by apply steps_ret]. apply steps_modify; [done..|]. intros Hs.
  apply (as_pair_mono _ _ _ _ _ _ _ _ He1), (as_pair_mono _ _ _ _ _ _ _ _ He2) in Hp as [Hp ->].
  assert (Hk : known q2 h).
  { destruct (Hh h eq_refl) as (K1 & K2 & K3). split_and!; [by eapply pid_known_mono|by eapply pair_known_mono|].
    intros x u Hx. eapply pair_known_mono; eauto. }
  replace (rename_handle f1 g1 h) with (rename_handle f2 g2 h).
  - rewrite rebind_rename. apply sim_insert_child; [|done]. by apply rebind_known.
  - eapply (rename_handle_ext _ _ _ _ q1); [by apply Hh| |]; apply He2.
Qed.

Lemma related_confer_end a b kind : related (confer_end a b kind).
Proof.
  intros f g q r. eapply steps_bind; [apply steps_end_file|]. intros f1 g1 q1 r1 s t _ Hp.
  eapply steps_bind; [apply related_end_gone|]. intros f2 g2 q2 r2 _ _ He2 _. by apply steps_conferPeerFD, (as_pair_mono _ _ _ _ _ _ _ _ He2).
Qed.

(** *** The strategies *)

Lemma related_present {A} role (c c' : IO A) : related c -> related c' ->
  related (let* h := Child role in match h with None => c | Some _ => c' end).
Proof.
  intros Hc Hc' f g q r. eapply steps_bind; [apply steps_Child|]. intros f1 g1 q1 r1 h h' _ [_ ->]. destruct h; [apply Hc'|apply Hc].
Qed.

Create HintDb related.
#[local] Hint Resolve related_ret related_throw related_succeeds related_killTracked related_armWatchers related_ChildrenLen related_flush
  related_settle related_fallible related_childAlive related_some_down related_reachable related_guard related_require related_bring_down
  related_drainExits related_DeleteChild related_ReplacePair related_replace_all related_StartChild related_start_all related_confer_end : related.

Ltac relate := repeat first [progress eauto 2 with related | apply related_present | apply related_bind; [|intros ?] | case_match].

Lemma related_arm_all l : related (arm_all l).
Proof. intros f g q r. by apply steps_arm_all. Qed.

Lemma related_via : related (get rViaFiles).
Proof. apply related_get. intros f g q r Hs. symmetry. apply Hs. Qed.

#[local] Hint Resolve related_via : related.

Lemma related_RestartOne dead live initiator : related (RestartOne dead live initiator).
Proof. unfold RestartOne. relate. Qed.

Lemma related_restartAuthPrimary o : related (restartAuthPrimary o).
Proof. apply related_succeeds. relate. Qed.

Lemma related_restartParserDownM2d : related restartParserDownM2d.
Proof. apply related_succeeds. relate. Qed.

Lemma related_restartParserDownM2g : related restartParserDownM2g.
Proof. apply related_succeeds. relate. Qed.

Lemma related_replaceAuthAuditPair o : related (replaceAuthAuditPair o).
Proof. unfold replaceAuthAuditPair. relate. Qed.

Lemma related_sendAuthAuditPeerFD o : related (sendAuthAuditPeerFD o).
Proof. unfold sendAuthAuditPeerFD. relate. Qed.

#[local] Hint Resolve related_replaceAuthAuditPair related_sendAuthAuditPeerFD : related.

Lemma related_restartParserDownM2h o : related (restartParserDownM2h o).
Proof. apply related_succeeds. relate. Qed.

Lemma steps_same_pid f g q r role s t : as_pid f g q s t ->
  steps same f g q r (match s with None => ret tt | Some pid => let* b := get (fun r => bool_decide (hPid <$> rChildren r !! role = Some pid)) in guard b end)
    (match t with None => ret tt | Some pid => let* b := get (fun r => bool_decide (hPid <$> rChildren r !! role = Some pid)) in guard b end).
Proof.
  intros [Hp ->]. destruct s as [p|]; cbn; [|apply related_ret]. eapply (steps_bind same); [apply steps_get|intros f' g' q' r' b _ _ <-; apply related_guard].
  intros Hs. apply bool_decide_ext. rewrite (sim_children _ _ _ _ Hs). destruct (rChildren q !! role) as [h|] eqn:E; [|done]. cbn.
  split; [by intros [= ->]|]. intros [= Hg]. f_equal. eapply (sim_pid_inj _ _ _ _ Hs); [by apply (sim_handle _ _ _ _ Hs _ _ E)|by apply Hp|done].
Qed.

Lemma related_restartApplySubtree o bridge : related (restartApplySubtree o bridge).
Proof.
  apply related_succeeds. apply related_bind; [apply related_require|]. intros _ f g q r. eapply (steps_bind as_pid).
  - destruct (Peers o); [|by apply steps_ret]. apply steps_get. intros Hs. rewrite (sim_children _ _ _ _ Hs).
    destruct (rChildren q !! RoleAuth) as [h|] eqn:E; [|done]. split; [|done]. intros x [= <-]. by apply (sim_handle _ _ _ _ Hs _ _ E).
  - intros f1 g1 q1 r1 s t _ Hp. eapply steps_bind; [apply related_bring_down|]. intros f2 g2 q2 r2 _ _ He2 _.
    eapply steps_bind; [apply related_replace_all|]. intros f3 g3 q3 r3 _ _ He3 _.
    eapply steps_bind; [apply related_replaceAuthAuditPair|]. intros f4 g4 q4 r4 _ _ He4 _.
    eapply steps_bind; [apply related_StartChild|]. intros f5 g5 q5 r5 _ _ He5 _.
    eapply steps_bind; [apply related_sendAuthAuditPeerFD|]. intros f6 g6 q6 r6 _ _ He6 _.
    eapply steps_bind; [apply related_start_all|]. intros f7 g7 q7 r7 _ _ He7 _.
    eapply steps_bind; [apply related_confer_end|]. intros f8 g8 q8 r8 _ _ He8 _. apply steps_same_pid.
    do 7 (eapply as_pid_mono; [eassumption|]). done.
Qed.

#[local] Hint Resolve related_arm_all related_RestartOne related_restartAuthPrimary related_restartParserDownM2d related_restartParserDownM2g
  related_restartParserDownM2h related_restartApplySubtree : related.

Lemma related_tryRestartOne o dead : related (tryRestartOne o dead).
Proof. unfold tryRestartOne, armed. relate. Qed.

Lemma related_restart_fleet o : related (restart_fleet o).
Proof. unfold restart_fleet, respawnAll, replaceRolePairs, startRoleChildren. relate. Qed.

#[local] Hint Resolve related_tryRestartOne related_restart_fleet : related.

Lemma related_restart o role : related (restart o role).
Proof. unfold restart. relate. Qed.

(** *** The wiring *)

Lemma held_by_rename f g h b : held_by (rename_handle f g h) b = f <$> held_by h b.
Proof. unfold held_by. cbn. case_bool_decide; [done|]. destruct (hExtra h) as [[x s]|]; cbn; [|done]. by case_bool_decide. Qed.

Lemma sim_socket f g q r a b : sim f g q r -> socket r a b = f <$> socket q a b.
Proof.
  intros Hs. unfold socket. rewrite (sim_children _ _ _ _ Hs). destruct (rChildren q !! a) as [h|]; [|done]. apply held_by_rename.
Qed.

Lemma socket_known f g q r a b s : sim f g q r -> socket q a b = Some s -> pair_known q s.
Proof.
  intros Hs. unfold socket, held_by. destruct (rChildren q !! a) as [h|] eqn:E; [|done]. cbn. destruct (sim_handle _ _ _ _ Hs _ _ E) as (_ & H2 & H3).
  case_bool_decide; [by intros [= <-]|]. destruct (hExtra h) as [[x u]|]; [|done]. case_bool_decide; [|done]. intros [= <-]. by eapply H3.
Qed.

Lemma NoDup_fmap_through {A B C} (F : A -> B) (G : A -> C) (l : list A) :
  (forall x y, x ∈ l -> y ∈ l -> G x = G y -> F x = F y) -> NoDup (F <$> l) -> NoDup (G <$> l).
Proof.
  intros H. induction l as [|x l IH]; intros Hd; [constructor|]. cbn in *. apply NoDup_cons in Hd as [Hx Hd]. apply NoDup_cons.
  split; [|apply IH; [|done]; intros y z Hy Hz; apply H; set_solver].
  intros (y & Hy & Hl)%list_elem_of_fmap. apply Hx, list_elem_of_fmap. exists y. split; [apply H; set_solver|done].
Qed.

Definition edge_ends (o : ServeOptions) : gmap (string * string) (option Z) :=
  list_to_map ((fun e => (e, None)) <$> role_pairs o ++ (prod_swap <$> role_pairs o)).

Lemma edge_ends_none o k v : edge_ends o !! k = Some v -> v = None.
Proof. intros H%elem_of_list_to_map_2. apply list_elem_of_fmap in H as (e & [= _ ->] & _). done. Qed.

Lemma proper_rename f g o role h : proper o role (rename_handle f g h) <-> proper o role h.
Proof. unfold proper. cbn. by destruct (hExtra h) as [[x s]|]. Qed.

Lemma wired_transfer f g q r o : sim f g q r -> wired o q -> wired o r.
Proof.
  intros Hs (W1 & Wv & Wr & W2 & W3 & W4 & W5 & W6 & W7). pose proof (sim_map _ _ _ _ Hs) as Hm. split_and!.
  - by rewrite (sim_extra _ _ _ _ Hs).
  - by rewrite (sim_via _ _ _ _ Hs).
  - by rewrite (sim_root _ _ _ _ Hs).
  - apply map_eq. intros k. rewrite (sim_ends _ _ _ _ Hs), W2. fold (edge_ends o). destruct (edge_ends o !! k) as [v|] eqn:E; [|done].
    by rewrite (edge_ends_none _ _ _ E).
  - by rewrite Hm, dom_fmap_L.
  - rewrite Hm. intros x h'. rewrite lookup_fmap. intros (h & Hh & ->)%fmap_Some. destruct (W4 _ _ Hh) as [Hp _].
    split; [by apply proper_rename|]. apply (sim_pids _ _ _ _ Hs). by apply (sim_handle _ _ _ _ Hs _ _ Hh).
  - eapply NoDup_fmap_through, W5. intros x y _ _. cbn. rewrite !(sim_children _ _ _ _ Hs).
    destruct (rChildren q !! x) as [h|] eqn:Ex, (rChildren q !! y) as [h'|] eqn:Ey; cbn; try done. intros [= H]. f_equal.
    eapply (sim_pid_inj _ _ _ _ Hs); [by apply (sim_handle _ _ _ _ Hs _ _ Ex)|by apply (sim_handle _ _ _ _ Hs _ _ Ey)|done].
  - eapply Forall_impl; [exact W6|]. cbn. intros [a b] (s & H1 & H2 & H3). exists (f s). rewrite !(sim_socket _ _ _ _ _ _ Hs). cbn in *.
    rewrite H1, H2. split_and!; [done..|]. by eapply (sim_pairs _ _ _ _ Hs), socket_known.
  - eapply NoDup_fmap_through, W7. intros x y _ _. cbn. rewrite !(sim_socket _ _ _ _ _ _ Hs).
    destruct (socket q x.1 x.2) as [s|] eqn:Ex, (socket q y.1 y.2) as [t|] eqn:Ey; cbn; try done. intros [= H]. f_equal.
    eapply (sim_pair_inj _ _ _ _ Hs); [by eapply socket_known..|done].
Qed.

(** ** A fleet that has just been started *)

Definition fresh (o : ServeOptions) : Runtime := mkRuntime ∅ ∅ (list_to_map (extra_peers o)) false (Some (root_role o)) 0 0 [] [] [].
Definition started (o : ServeOptions) : Runtime := ((let* _ := respawnAll o in armWatchers) (fresh o)).1.

(** Pair [s] is the one of the edge between the two roles. *)
Definition edge_at (o : ServeOptions) (a b : string) (s : Z) : Prop :=
  0 <= s /\ (role_pairs o !! Z.to_nat s = Some (a, b) \/ role_pairs o !! Z.to_nat s = Some (b, a)).

Definition numbered (o : ServeOptions) (role : string) (h : Handle) : Prop :=
  0 <= hPid h /\ fst <$> role_starts o !! Z.to_nat (hPid h) = Some role /\ edge_at o role (hPeer h) (hSock h) /\
  match hExtra h with Some (x, s) => x <> hPeer h /\ edge_at o role x s | None => True end.

(** Its pairs and its processes are numbered in the order of their creation. *)
Definition in_order (o : ServeOptions) (r : Runtime) : Prop :=
  rPairs r = Z.of_nat (length (role_pairs o)) /\ rPids r = Z.of_nat (length (role_starts o)) /\
  rDeaths r = [] /\ rFaults r = [] /\ rPending r = [] /\ map_Forall (numbered o) (rChildren r) /\
  NoDup (role_starts o).*1 /\ Forall (fun e => e.1 ∈ roleList o) (role_starts o).

#[export] Instance numbered_dec o role h : Decision (numbered o role h).
Proof. unfold numbered, edge_at. destruct (hExtra h) as [[x s]|]; apply _. Defined.

#[export] Instance in_order_dec o r : Decision (in_order o r).
Proof. unfold in_order. apply _. Defined.

#[export] Instance options_eq_dec : EqDecision ServeOptions.
Proof. solve_decision. Defined.

Definition bools : list bool := [true; false].

Definition valid (o : ServeOptions) : bool := match check_options o with Ok o' => bool_decide (o' = o) | _ => false end.

(** The options that [Start] goes on with. *)
Definition valid_options : list ServeOptions :=
  filter (fun o => valid o = true)
    (a ← bools; b ← bools; c ← bools; d ← bools; e ← bools; f ← bools; g ← bools; [mkOptions a b c d e f g]).

Lemma valid_options_all o : check_options o = Ok o -> o ∈ valid_options.
Proof.
  intros H. apply list_elem_of_filter. split; [unfold valid; rewrite H; by apply bool_decide_eq_true_2|].
  repeat setoid_rewrite list_elem_of_bind. assert (Hb : forall b, b ∈ bools) by (intros []; vm_compute; repeat constructor).
  destruct o as [a b c d e f g]. exists a. split; [|done]. exists b. split; [|done]. exists c. split; [|done]. exists d. split; [|done].
  exists e. split; [|done]. exists f. split; [|done]. exists g. split; [|done]. by apply list_elem_of_singleton.
Qed.

Lemma started_in_order o : check_options o = Ok o -> wired o (started o) /\ in_order o (started o).
Proof.
  intros H%valid_options_all.
  assert (E : wired_b o (started o) && bool_decide (in_order o (started o)) = true).
  { exact (all_checked (fun o => wired_b o (started o) && bool_decide (in_order o (started o))) valid_options o ltac:(by vm_compute) H). }
  apply andb_true_iff in E as [E1%wired_b_sound E2%bool_decide_eq_true]. done.
Qed.

(** The plan of a fleet has its roles and its edges: what [Start] opens is what a restart
    replaces. *)
Definition plan_edges (p : Plan_) : list (string * string) := c ← Children p; x ← IPCPeers c; [(CRole c, x)].

Definition plan_matches (o : ServeOptions) : bool :=
  match serve_plan o with
  | Ok p =>
      bool_decide (list_to_set (map CRole (Children p)) = (list_to_set (roleList o) : gset string)) &&
      bool_decide (list_to_set (plan_edges p) = (list_to_set (role_pairs o ++ (prod_swap <$> role_pairs o)) : gset (string * string)))
  | _ => false
  end.

Lemma topology_of_plan o : check_options o = Ok o -> exists p, serve_plan o = Ok p /\
  (forall role, role ∈ map CRole (Children p) <-> role ∈ roleList o) /\
  (forall a b, edge p a b <-> (a, b) ∈ role_pairs o \/ (b, a) ∈ role_pairs o).
Proof.
  intros H%valid_options_all. pose proof (all_checked plan_matches valid_options o ltac:(by vm_compute) H) as E. unfold plan_matches in E.
  destruct (serve_plan o) as [p|e|]; try done. exists p. apply andb_true_iff in E as [E1%bool_decide_eq_true E2%bool_decide_eq_true].
  split_and!; [done| |].
  - intros role. rewrite <- (elem_of_list_to_set (C := gset string)), E1. apply elem_of_list_to_set.
  - intros a b. transitivity ((a, b) ∈ plan_edges p).
    + unfold edge, plan_edges. rewrite list_elem_of_bind. setoid_rewrite list_elem_of_bind. setoid_rewrite list_elem_of_singleton. naive_solver.
    + rewrite <- (elem_of_list_to_set (C := gset (string * string))), E2, elem_of_list_to_set, elem_of_app, list_elem_of_fmap.
      split; [intros [?|([x y] & [= -> ->] & ?)]; auto|]. intros [?|?]; [by left|]. right. by exists (b, a).
Qed.

(** *** Every wired fleet is a started one up to renaming *)

Definition pair_of_edge (o : ServeOptions) (r : Runtime) (s : Z) : Z :=
  default 0 (role_pairs o !! Z.to_nat s ≫= fun e => socket r e.1 e.2).

Definition pid_of_start (o : ServeOptions) (r : Runtime) (p : Z) : Z :=
  default 0 (role_starts o !! Z.to_nat p ≫= fun e => hPid <$> rChildren r !! e.1).

Section Renaming.
Context (o : ServeOptions) (r : Runtime).
Hypothesis Hw : wired o r.

Lemma wired_edge i e : role_pairs o !! i = Some e -> exists s, socket r e.1 e.2 = Some s /\ socket r e.2 e.1 = Some s /\ s < rPairs r.
Proof. intros He%list_elem_of_lookup_2. destruct Hw as (_ & _ & _ & _ & _ & _ & _ & W & _). rewrite Forall_forall in W. by apply W. Qed.

Lemma wired_child role : role ∈ roleList o -> exists h, rChildren r !! role = Some h /\ proper o role h /\ hPid h < rPids r.
Proof.
  intros Hr. destruct Hw as (_ & _ & _ & _ & W & W' & _). assert (is_Some (rChildren r !! role)) as [h Hh].
  { apply elem_of_dom. rewrite W. by apply elem_of_list_to_set. }
  exists h. split; [done|]. by apply W'.
Qed.

Lemma pair_of_edge_at a b s t : edge_at o a b s -> socket r a b = Some t -> pair_of_edge o r s = t.
Proof.
  intros [_ [H|H]] Ht; unfold pair_of_edge; rewrite H; cbn; destruct (wired_edge _ _ H) as (u & H1 & H2 & _); cbn in *;
    rewrite ?H1; cbn; congruence.
Qed.

Lemma edge_index s : 0 <= s < Z.of_nat (length (role_pairs o)) ->
  exists e, role_pairs o !! Z.to_nat s = Some e /\ socket r e.1 e.2 = Some (pair_of_edge o r s) /\ pair_of_edge o r s < rPairs r.
Proof.
  intros Hs. destruct (lookup_lt_is_Some_2 (role_pairs o) (Z.to_nat s)) as [e He]; [lia|]. exists e. split; [done|].
  destruct (wired_edge _ _ He) as (t & H1 & _ & H2). unfold pair_of_edge. rewrite He. cbn. by rewrite H1.
Qed.

Lemma pair_of_edge_inj s t : 0 <= s < Z.of_nat (length (role_pairs o)) -> 0 <= t < Z.of_nat (length (role_pairs o)) ->
  pair_of_edge o r s = pair_of_edge o r t -> s = t.
Proof.
  intros Hs Ht E. destruct (edge_index s Hs) as (e & He & H1 & _), (edge_index t Ht) as (e' & He' & H2 & _).
  destruct Hw as (_ & _ & _ & _ & _ & _ & _ & _ & W). enough (Z.to_nat s = Z.to_nat t) by lia.
  eapply NoDup_lookup; [exact W|rewrite list_lookup_fmap, He|rewrite list_lookup_fmap, He']; cbn; [by f_equal|]. rewrite H1, H2, E. done.
Qed.
Hypothesis Hstarts : NoDup (role_starts o).*1.
Hypothesis Hroles : Forall (fun e => e.1 ∈ roleList o) (role_starts o).

Lemma start_index p : 0 <= p < Z.of_nat (length (role_starts o)) ->
  exists e h, role_starts o !! Z.to_nat p = Some e /\ e.1 ∈ roleList o /\ rChildren r !! e.1 = Some h /\ hPid h = pid_of_start o r p /\ hPid h < rPids r.
Proof.
  intros Hp. destruct (lookup_lt_is_Some_2 (role_starts o) (Z.to_nat p)) as [e He]; [lia|].
  assert (Hin : e.1 ∈ roleList o) by (rewrite Forall_forall in Hroles; by eapply Hroles, list_elem_of_lookup_2).
  destruct (wired_child _ Hin) as (h & Hh & _ & Hl). exists e, h. unfold pid_of_start. rewrite He. cbn. by rewrite Hh.
Qed.

Lemma wired_pids a b h h' : a ∈ roleList o -> b ∈ roleList o -> rChildren r !! a = Some h -> rChildren r !! b = Some h' -> hPid h = hPid h' -> a = b.
Proof.
  intros [i Hi]%list_elem_of_lookup [j Hj]%list_elem_of_lookup Ha Hb E. destruct Hw as (_ & _ & _ & _ & _ & _ & W & _).
  assert (i = j) as ->; [|congruence].
  eapply NoDup_lookup; [exact W|rewrite list_lookup_fmap, Hi|rewrite list_lookup_fmap, Hj]; cbn; [done|rewrite Ha, Hb; cbn; congruence].
Qed.

Lemma pid_of_start_inj p p' : 0 <= p < Z.of_nat (length (role_starts o)) -> 0 <= p' < Z.of_nat (length (role_starts o)) ->
  pid_of_start o r p = pid_of_start o r p' -> p = p'.
Proof.
  intros Hp Hp' E. destruct (start_index p Hp) as (e & h & He & Hin & Hh & H1 & _), (start_index p' Hp') as (e' & h' & He' & Hin' & Hh' & H2 & _).
  assert (e.1 = e'.1) as Hee by (eapply wired_pids; eauto; congruence). enough (Z.to_nat p = Z.to_nat p') by lia.
  eapply NoDup_lookup; [exact Hstarts|rewrite list_lookup_fmap, He|rewrite list_lookup_fmap, He']; cbn; by f_equal.
Qed.

Lemma numbered_rename role h h' : rChildren r !! role = Some h' -> proper o role h' -> proper o role h -> numbered o role h ->
  h' = rename_handle (pair_of_edge o r) (pid_of_start o r) h.
Proof.
  intros Hh' (A1 & A2 & A3 & A4 & A5) (B1 & B2 & B3 & B4 & B5) (N1 & N2 & N3 & N4). rewrite A4 in B4. injection B4 as Hpeer Hextra.
  assert (Hpid : pid_of_start o r (hPid h) = hPid h').
  { unfold pid_of_start. apply fmap_Some in N2 as (e & He & ->). rewrite He. cbn. by rewrite Hh'. }
  assert (Hsock : pair_of_edge o r (hSock h) = hSock h').
  { eapply pair_of_edge_at; [exact N3|]. unfold socket. rewrite Hh'. cbn. unfold held_by. by rewrite bool_decide_eq_true_2. }
  assert (Hx : hExtra h' = prod_map id (pair_of_edge o r) <$> hExtra h).
  { destruct (hExtra h) as [[x s]|] eqn:E, (hExtra h') as [[x' s']|] eqn:E'; cbn in *; try done. injection Hextra as ->.
    destruct N4 as [Hne He]. do 2 f_equal. symmetry. eapply pair_of_edge_at; [exact He|]. unfold socket. rewrite Hh'. cbn. unfold held_by.
    rewrite bool_decide_eq_false_2, E', bool_decide_eq_true_2 by congruence. done. }
  unfold rename_handle. rewrite Hpid, Hsock, <- Hx, <- Hpeer, B1, B2, B3. destruct h'. cbn in *. congruence.
Qed.
End Renaming.

Lemma numbered_known o q role h : in_order o q -> rChildren q !! role = Some h -> known q h.
Proof.
  intros (Hn & Hp & _ & _ & _ & Hm & _) Hh. destruct (Hm _ _ Hh) as (N1 & N2 & [N3 N4] & N5).
  assert (Hl : forall a b s, edge_at o a b s -> pair_known q s).
  { intros a b s [H0 [H%lookup_lt_Some|H%lookup_lt_Some]]; unfold pair_known; lia. }
  apply fmap_Some in N2 as (e & He%lookup_lt_Some & _). split_and!; [unfold pid_known; lia|by eapply Hl|].
  intros x s Hx. rewrite Hx in N5. eapply Hl, N5.
Qed.

Lemma wired_renamed o q r : wired o q -> in_order o q -> wired o r -> rFaults r = [] -> rPending r = [] -> rDeaths r = [] ->
  sim (pair_of_edge o r) (pid_of_start o r) q r.
Proof.
  intros (Q1 & Qv & Qr & Q2 & Q3 & Q4 & _) Hq Hw Hf Hp Hd. pose proof Hq as (Hn & Hm & Hqd & Hqf & Hqp & Hmap & Hst & Hro).
  pose proof Hw as (W1 & Wv & Wr & W2 & W3 & W4 & _). split; cbn; rewrite ?Hqd, ?Hqf, ?Hqp, ?Hf, ?Hp, ?Hd; try done.
  - intros x. destruct (rChildren q !! x) as [h|] eqn:Eh; cbn.
    + destruct (wired_child _ _ Hw x) as (h' & Hh' & Hp' & _).
      { apply (elem_of_list_to_set (C := gset string)). rewrite <- Q3. by eapply elem_of_dom_2. }
      rewrite Hh'. f_equal. eapply numbered_rename; eauto. by apply Q4.
    + apply not_elem_of_dom. rewrite W3, <- Q3. by apply not_elem_of_dom.
  - intros k. rewrite W2, Q2. fold (edge_ends o). destruct (edge_ends o !! k) as [v|] eqn:Ek; [|done]. by rewrite (edge_ends_none _ _ _ Ek).
  - congruence.
  - intros x h. by apply (numbered_known o).
  - intros k s. rewrite Q2. intros Hk%(edge_ends_none o). done.
  - rewrite Hn, Hm. lia.
  - unfold pair_known. cbn. rewrite Hn. intros s Hs. by destruct (edge_index _ _ Hw s Hs) as (e & _ & _ & H).
  - unfold pid_known. cbn. rewrite Hm. intros s Hs. destruct (start_index _ _ Hw Hro s Hs) as (e & h & _ & _ & _ & <- & H). done.
  - unfold pair_known. cbn. rewrite Hn. by apply pair_of_edge_inj.
  - unfold pid_known. cbn. rewrite Hm. by apply pid_of_start_inj.
  - congruence.
  - congruence.
Qed.

(** ** Exits *)

(** The process of a role is gone, its watcher has taken it off the list, and the loop
    has read the report. *)
Definition exited (role : string) (r : Runtime) : Runtime := set_children (delete role (rChildren r)) r.

(** The processes of the roles are gone, and all that was to be read of it is read. *)
Definition without (E : list string) (r : Runtime) : Runtime :=
  mkRuntime (rEnds r) (filter (fun x => x.1 ∉ E) (rChildren r)) (rExtra r) (rViaFiles r) (rRootRole r) (rPairs r) (rPids r) [] (rFaults r) [].

(** The most upstream role of those that are gone. *)
Definition chosen (E : list string) : string := default RoleNet (head (filter (fun role => role ∈ E) escalate_order)).

Lemma roleList_order o x : x ∈ roleList o -> x = RoleNet \/ x ∈ escalate_order.
Proof.
  intros H. apply (bool_decide_eq_true (x = RoleNet \/ x ∈ escalate_order)). revert x H. apply Forall_forall.
  unfold roleList. repeat case_match; repeat constructor.
Qed.

Lemma filter_within {A} (P Q : A -> Prop) `{!forall x, Decision (P x)} `{!forall x, Decision (Q x)} (l : list A) :
  (forall x, x ∈ l -> P x <-> Q x) -> filter P l = filter Q l.
Proof.
  induction l as [|x l IH]; intros Hl; [done|]. rewrite !filter_cons, IH by (intros y Hy; apply Hl; by right).
  assert (Hx : P x <-> Q x) by (apply Hl; by left). by apply decide_ext.
Qed.

Section Escalation.
Context (o : ServeOptions) (r : Runtime) (first : string) (D : list string).
Hypotheses (Hw : wired o r) (Hp : rPending r = []) (Hd : rDeaths r = [D]) (Hf : first ∈ roleList o) (HD : D ⊆ roleList o).

Definition window : gmap string Handle := mark (with_alive false) D (delete first (rChildren r)).

Lemma lookup_window x h : window !! x = Some h -> x <> first /\ x ∈ roleList o /\ reaped h = bool_decide (x ∈ D) /\ (x ∉ D -> rChildren r !! x = Some h).
Proof.
  unfold window. rewrite lookup_mark by done. intros H. assert (Hx : x <> first /\ exists h', rChildren r !! x = Some h' /\ h = if decide (x ∈ D) then with_alive false h' else h').
  { case_decide; [apply fmap_Some in H as (h' & H & ->)|]; apply lookup_delete_Some in H as [H1 H2]; (split; [done|]; eauto). }
  destruct Hx as (Hne & h' & Hh' & ->). destruct Hw as (_ & _ & _ & _ & W3 & W4 & _). destruct (W4 _ _ Hh') as ((A1 & A2 & _) & _).
  split_and!; [done| | |].
  - apply (elem_of_list_to_set (C := gset string)). rewrite <- W3. by eapply elem_of_dom_2.
  - unfold reaped. case_decide; cbn; rewrite ?A1, A2; [by rewrite bool_decide_eq_true_2|by rewrite bool_decide_eq_false_2].
  - intros Hn. by rewrite decide_False.
Qed.
Lemma window_kept : filter (fun x => reaped x.2 = false) window = filter (fun x => x.1 ∉ first :: D) (rChildren r).
Proof.
  apply map_eq. intros x. apply option_eq. intros h. rewrite !map_lookup_filter_Some. cbn. rewrite not_elem_of_cons. split.
  - intros [H Hr]. destruct (lookup_window _ _ H) as (H1 & _ & H2 & H3). rewrite Hr in H2. symmetry in H2. apply bool_decide_eq_false in H2. auto.
  - intros (H & Hne & Hn). assert (Hx : window !! x = Some h).
    { unfold window. rewrite lookup_mark, decide_False by done. by rewrite lookup_delete_ne by done. }
    split; [done|]. destruct (lookup_window _ _ Hx) as (_ & _ & -> & _). by apply bool_decide_eq_false_2.
Qed.

Lemma settle_exited : settle (exited first r) =
  (mkRuntime (rEnds r) (filter (fun x => x.1 ∉ first :: D) (rChildren r)) (rExtra r) (rViaFiles r) (rRootRole r) (rPairs r) (rPids r)
     (map fst (filter (fun x => reaped x.2 = true) (map_to_list window))) (rFaults r) [], Ok tt).
Proof. unfold settle, reap. cbn. rewrite Hd, Hp. cbn. fold (mark (with_alive false) D (delete first (rChildren r))). fold window. by rewrite window_kept. Qed.

Lemma in_without x : x ∈ roleList o -> alive_in (without (first :: D) r) x = bool_decide (x ∉ first :: D).
Proof.
  intros Hx. destruct (wired_child o r Hw x Hx) as (h & Hh & (A1 & _) & _). unfold alive_in, without. cbn.
  destruct (decide (x ∈ first :: D)) as [Hin|Hn].
  - rewrite bool_decide_eq_false_2 by (intros H; by apply H). rewrite map_lookup_filter_None_2; [done|]. right. intros y Hy Hn. by apply Hn.
  - rewrite bool_decide_eq_true_2 by done. by rewrite (map_lookup_filter_Some_2 _ _ _ h).
Qed.

Lemma seen_all x : x ∈ escalate_order ->
  x ∈ first :: map fst (filter (fun x => reaped x.2 = true) (map_to_list window)) ++
      filter (fun role => role <> RoleNet /\ alive_in (without (first :: D) r) role = false) (roleList o) <-> x ∈ first :: D.
Proof.
  intros Ho. rewrite !elem_of_cons, elem_of_app, list_elem_of_fmap, list_elem_of_filter. split.
  - intros [->|[([y h] & -> & [Hr Hy]%list_elem_of_filter)|[[_ Ha] Hx]]]; [by left| |].
    + apply elem_of_map_to_list in Hy. destruct (lookup_window _ _ Hy) as (_ & _ & E & _). cbn in Hr. rewrite Hr in E. symmetry in E.
      apply bool_decide_eq_true in E. by right.
    + rewrite in_without in Ha by done. apply bool_decide_eq_false in Ha. apply elem_of_cons. by destruct (decide (x ∈ first :: D)).
  - intros H. destruct H as [->|H]; [by left|]. right. right. split; [|by apply HD]. split.
    + intros ->. by apply (bool_decide_eq_true (RoleNet ∈ escalate_order)) in Ho.
    + rewrite in_without by (by apply HD). apply bool_decide_eq_false_2. intros Hn. apply Hn. by right.
Qed.

(** What the window of the escalation leaves, and the role that it chooses. *)
Lemma escalate_exited : escalateRestartTrigger o first (exited first r) = (without (first :: D) r, Ok (chosen (first :: D))).
Proof.
  unfold escalateRestartTrigger, io_bind. rewrite settle_exited. cbn -[filter escalate_order roleList]. fold (without (first :: D) r). f_equal. f_equal.
  unfold chosen.
  rewrite (filter_within (fun role => role ∈ first :: map fst (filter (fun x => reaped x.2 = true) (map_to_list window)) ++
      filter (fun role => role <> RoleNet /\ alive_in (without (first :: D) r) role = false) (roleList o)) (fun role => role ∈ first :: D));
    [|apply seen_all].
  destruct (head (filter (fun role => role ∈ first :: D) escalate_order)) as [x|] eqn:E; [done|]. cbn.
  destruct (roleList_order o first Hf) as [->|Hin]; [done|]. exfalso.
  assert (H : first ∈ filter (fun role => role ∈ first :: D) escalate_order) by (apply list_elem_of_filter; split; [by left|done]).
  destruct (filter (fun role => role ∈ first :: D) escalate_order); [by apply not_elem_of_nil in H|done].
Qed.
End Escalation.

Lemma sim_without f g q r E E' : (forall x, is_Some (rChildren q !! x) -> x ∈ E <-> x ∈ E') -> sim f g q r -> sim f g (without E q) (without E' r).
Proof.
  intros HE [H1 H2 H3 H4 H5 H6 H7 H8 H9 H10 H11 H12 H13 H14 H15]. split; try done; cbn.
  - intros x. rewrite !map_lookup_filter, H1. destruct (rChildren q !! x) as [h|] eqn:E0; [|done]. cbn.
    assert (Hx : x ∈ E <-> x ∈ E') by (apply HE; eauto). repeat case_guard; (done || (exfalso; tauto)).
  - intros x h [H _]%map_lookup_filter_Some. by apply H7 in H.
Qed.

(** The fleets and roles with a strategy of their own; the others are restarted with
    all of the fleet. *)
Definition selective (o : ServeOptions) (first : string) : bool :=
  (m2a o || m2c o || m2d o || m2g o || m2h o) && negb (bool_decide (first = RoleNet)) &&
  negb (bool_decide (first = RoleAuth) && Peers o && negb (m2h o)).

Fixpoint subsets (l : list string) : list (list string) :=
  match l with
  | [] => [[]]
  | x :: l => let s := subsets l in s ++ map (cons x) s
  end.

Lemma filter_subsets (P : string -> Prop) `{!forall x, Decision (P x)} l : filter P l ∈ subsets l.
Proof.
  induction l as [|x l IH]; [by apply list_elem_of_singleton|]. cbn [subsets]. apply elem_of_app. rewrite filter_cons. case_decide; [right|by left].
  apply list_elem_of_fmap. by exists (filter P l).
Qed.

Definition ordinary (x : string) : Prop := x <> RoleAuth /\ x <> RoleNet.

(** The roles that are gone: one of them, or any but the authenticating role and the
    network role. *)
Definition failures (o : ServeOptions) : list (list string) := 
  map (fun x => [x]) (roleList o) ++ subsets (filter ordinary (roleList o)).

Definition net_pid (r : Runtime) : option Z := hPid <$> rChildren r !! RoleNet.

(** The restart in a fleet that has just been started. *)
Definition recovers (o : ServeOptions) (E : list string) : bool :=
  match restart o (chosen E) (without E (started o)) with
  | (r, Ok true) => wired_b o r && (negb (existsb (selective o) E) || bool_decide (net_pid r = net_pid (started o)))
  | _ => false
  end.

(** The fleet with the plan role, without the index role and with a keyring: the restart
    of the apply subtree makes a pair for auth and audit, which this topology does not
    have ([stray_pair]). *)
Definition odd (o : ServeOptions) : bool := m2g o && Peers o.

Lemma all_recover : forallb (fun o => odd o || forallb (recovers o) (failures o)) valid_options = true.
Proof. vm_cast_no_check (eq_refl true). Qed.

(** The authenticating role and the network role exit alone. *)
Definition covered (o : ServeOptions) (first : string) (D : list string) : Prop :=
  first ∈ roleList o /\ (D ⊆ roleList o) /\ (RoleAuth ∉ D) /\ (RoleNet ∉ D) /\ (first = RoleAuth \/ first = RoleNet -> D = []).

Lemma covered_failure o first D : covered o first D ->
  exists E, E ∈ failures o /\ first ∈ E /\ (forall x, x ∈ roleList o -> x ∈ E <-> x ∈ first :: D).
Proof.
  intros (Hf & HD & Ha & Hn & Hone). destruct (decide (first = RoleAuth \/ first = RoleNet)) as [Hs|Hs].
  - rewrite (Hone Hs). exists [first]. split_and!; [|by left|done]. apply elem_of_app. left. apply list_elem_of_fmap. by exists first.
  - assert (Ho : forall x, x ∈ first :: D -> ordinary x) by (intros x [->|Hx]%elem_of_cons; split; naive_solver).
    exists (filter (fun x => x ∈ first :: D) (filter ordinary (roleList o))). split_and!.
    + apply elem_of_app. right. apply filter_subsets.
    + apply list_elem_of_filter. split; [by left|]. apply list_elem_of_filter. split; [apply Ho; by left|done].
    + intros x Hx. rewrite !list_elem_of_filter. split; [tauto|]. auto.
Qed.

Lemma chosen_same o E E' : (forall x, x ∈ roleList o -> x ∈ E <-> x ∈ E') -> E ⊆ roleList o -> E' ⊆ roleList o -> chosen E = chosen E'.
Proof. intros H H1 H2. unfold chosen. do 2 f_equal. apply filter_within. intros x _. split; intros Hx; apply H; auto. Qed.

Lemma failure_roles o E : E ∈ failures o -> E ⊆ roleList o.
Proof.
  unfold failures. rewrite elem_of_app. intros [(x & -> & Hx)%list_elem_of_fmap|H]; [set_solver|].
  assert (Hs : forall l, E ∈ subsets l -> E ⊆ l).
  { clear H. revert E. intros E l. revert E. induction l as [|x l IH]; intros E; cbn; [by intros ->%list_elem_of_singleton|].
    rewrite elem_of_app. intros [H%IH|(E' & -> & H%IH)%list_elem_of_fmap]; set_solver. }
  intros x Hx. by apply (Hs _ H), list_elem_of_filter in Hx as [_ Hx].
Qed.

Lemma net_same f g f' g' q q' q0 r r' : sim f g q r -> sim f' g' q' r' -> rPids q = rPids q0 -> extends q0 q' f f' g g' ->
  net_pid q' = net_pid q -> net_pid r' = net_pid r.
Proof.
  intros Hs Hs' Hq He Hnet. unfold net_pid in *. rewrite (sim_children _ _ _ _ Hs'), (sim_children _ _ _ _ Hs).
  destruct (rChildren q' !! RoleNet) as [h'|], (rChildren q !! RoleNet) as [h|] eqn:E; cbn in *; try done. injection Hnet as ->.
  f_equal. apply (ext_pid _ _ _ _ _ _ He). unfold pid_known. rewrite <- Hq. apply (sim_handle _ _ _ _ Hs _ _ E).
Qed.

Lemma restart_wired o first D r : check_options o = Ok o -> odd o = false -> covered o first D ->
  wired o r -> rFaults r = [] -> rPending r = [] -> rDeaths r = [D] ->
  exists r', restart o (chosen (first :: D)) (without (first :: D) r) = (r', Ok true) /\ wired o r' /\ (selective o first = true -> net_pid r' = net_pid r).
Proof.
  intros Ho Hodd HD Hw Hr Hp Hd. destruct (started_in_order o Ho) as [Hq0 Hq]. destruct (covered_failure o first D HD) as (E & HE & HfE & HED).
  pose proof (all_checked _ _ o all_recover (valid_options_all o Ho)) as Hrun. cbn beta in Hrun. rewrite Hodd in Hrun. cbn [orb] in Hrun.
  apply (all_checked _ _ E) in Hrun; [|done]. unfold recovers in Hrun.
  rewrite (chosen_same o E (first :: D)) in Hrun; [|done|by apply failure_roles|destruct HD; set_solver].
  set (r0 := mkRuntime (rEnds r) (rChildren r) (rExtra r) (rViaFiles r) (rRootRole r) (rPairs r) (rPids r) (rPending r) (rFaults r) []).
  assert (Hs0 : sim (pair_of_edge o r0) (pid_of_start o r0) (started o) r0) by (by apply wired_renamed).
  apply (sim_without _ _ _ _ E (first :: D)) in Hs0 as Hs.
  2:{ intros x Hx%elem_of_dom. apply HED. destruct Hq0 as (_ & _ & _ & _ & Hdom & _). rewrite Hdom in Hx. by apply elem_of_list_to_set in Hx. }
  change (without (first :: D) r0) with (without (first :: D) r) in Hs.
  destruct (related_restart o (chosen (first :: D)) _ _ _ _ Hs) as (f & g & Hs' & He & Hres).
  destruct (restart o (chosen (first :: D)) (without E (started o))) as [q' [[]|e|]]; try done. cbn [fst snd] in Hs', He, Hres.
  destruct (restart o (chosen (first :: D)) (without (first :: D) r)) as [r' [b|e|]]; try done. cbn [fst snd] in Hs', He, Hres. unfold same in Hres. subst b.
  apply andb_true_iff in Hrun as [Hw'%wired_b_sound Hnet]. exists r'. split_and!; [done|by eapply wired_transfer|]. intros Hsel.
  assert (Hex : existsb (selective o) E = true) by (apply existsb_exists; exists first; by rewrite <- list_elem_of_In).
  rewrite Hex in Hnet. apply bool_decide_eq_true in Hnet. by apply (net_same _ _ _ _ (started o) q' (without E (started o)) r0 r' Hs0 Hs' eq_refl He).
Qed.

(** C24. A restart after exits that no failing call and no later death disturbs, where the
    authenticating role and the network role exit only alone ([covered]) and the fleet is
    not the one with the plan role, without the index role and with a keyring ([odd]):
    the supervisor goes on and counts it, every role of the fleet runs with the keys of
    its channels, is watched and can be reached, and the two processes of each edge hold
    the two ends of one socket, which no other edge uses.  In a fleet with a strategy for
    the role the listening process is kept. *)
Theorem restart_rewires o r first D maxRestarts restarts : check_options o = Ok o -> odd o = false ->
  wired o r -> rFaults r = [] -> rPending r = [] -> rDeaths r = [D] -> covered o first D -> restarts < maxRestarts ->
  exists r', on_exit o maxRestarts restarts first (exited first r) = (r', Ok (restarts + 1)) /\ wired o r' /\
    (selective o first = true -> net_pid r' = net_pid r).
Proof.
  intros Ho Hodd Hw Hr Hp Hd HD Hb. destruct (restart_wired o first D r) as (r' & E & Hw' & Hn); try done. exists r'.
  split; [|done]. destruct HD as (Hf & HDr & _). unfold on_exit. rewrite (proj2 (Z.leb_gt _ _)) by done. unfold io_bind.
  rewrite (escalate_exited o r first D) by done. by rewrite E.
Qed.

(** ** Runs *)

Definition full : ServeOptions := mkOptions false false false false false false false.
Definition full_peers : ServeOptions := mkOptions false false false false false false true.
Definition seven_peers : ServeOptions := mkOptions false false false false false true true.

(** The state in which [D] die while the supervisor waits for the first time. *)
Definition dying (D : list string) (faults : list bool) (r : Runtime) : Runtime :=
  mkRuntime (rEnds r) (rChildren r) (rExtra r) (rViaFiles r) (rRootRole r) (rPairs r) (rPids r) (rPending r) faults [D].

Lemma restart_rewires_witness :
  let r := dying [RoleJournal] [] (started full_peers) in
  exists r', on_exit full_peers 3 0 RoleApply (exited RoleApply r) = (r', Ok (0 + 1)) /\ wired full_peers r' /\
    (selective full_peers RoleApply = true -> net_pid r' = net_pid r).
Proof.
  intros r. apply (restart_rewires full_peers r RoleApply [RoleJournal] 3 0).
  - reflexivity.
  - reflexivity.
  - apply wired_b_sound. vm_compute. reflexivity.
  - reflexivity.
  - vm_compute. reflexivity.
  - reflexivity.
  - split_and!; [apply (bool_decide_eq_true _); vm_compute; reflexivity..|]. intros [H|H]; discriminate H.
  - reflexivity.
Defined.

Definition run_of (o : ServeOptions) (first : string) (D : list string) (faults : list bool) : Runtime * res Error Z :=
  on_exit o 3 0 first (exited first (dying D faults (started o))).

(** The apply role exits and the authenticating role with it: the subtree of the apply
    role is restarted, the other exit is read and dropped, and nothing starts the
    authenticating role again. *)
Lemma exit_lost : let x := run_of full RoleApply [RoleAuth] [] in
  x.2 = Ok 1 /\ rChildren x.1 !! RoleAuth = None /\ rPending x.1 = [] /\ socket x.1 RoleNet RoleAuth = Some 0.
Proof. vm_compute. tauto. Qed.

(** The network role exits with the apply role, or the last step of the restart of the
    subtree fails: the children that the restart has started are not watched, so that
    the restart of the fleet waits for them in vain, and the supervisor ends. *)
Lemma unwatched_children_end :
  (run_of full RoleApply [RoleNet] []).2 = Err (fail "children still tracked") /\
  (run_of full RoleApply [] (repeat false 28 ++ [true])).2 = Err (fail "children still tracked") /\
  (run_of full RoleNet [] []).2 = Ok 1.
Proof. by vm_compute. Qed.

(** With a keyring and without the index role a restart of the subtree makes a pair for
    auth and audit, which this topology does not have; one end stays open. *)
Lemma stray_pair : let x := run_of seven_peers RoleApply [] [] in
  x.2 = Ok 1 /\ rEnds (started seven_peers) !! (RoleAudit, RoleAuth) = None /\ rEnds x.1 !! (RoleAudit, RoleAuth) = Some (Some 9).
Proof. vm_compute. tauto. Qed.

End Restart.
