(* ===== verification/Deletion.v ===== *)
(** * Deletion safety gates (internal/deletion: deletion.go, quarantine_fs.go)

    A destructive plan is measured and checked before an object is moved to the
    quarantine; nothing is deleted.  [Evaluate_exact] says which measurements pass the
    gate, with the arithmetic on 64-bit integers; [quarantine_preserves] that whatever
    a move does and wherever it fails, the object is still there, at its place or in the
    quarantine, and nothing else is replaced. *)

From stdpp Require Import gmap.
From S2P Require Import Prelude Codec PathGrammar FilePath FileSystem LocalApply.
Import PathGrammar FilePath FileSystem LocalApply.

Module Deletion.

Record Thresholds := mkThresholds {
  MaxObjectCount : Z;
  MaxPercentBPS : Z;
  MaxLogicalBytes : Z;
  MaxPhysicalBytes : Z;
  MaxPathClassCount : Z;
  RequireCompleteSrc : bool }.

Record Observation := mkObservation {
  ObjectCount : Z;
  ArchiveObjectCount : Z;
  LogicalBytes : Z;
  PhysicalBytes : Z;
  PathClassCount : Z;
  UnknownObjectCount : bool;
  UnknownLogical : bool;
  UnknownPhysical : bool;
  UnknownPathClass : bool;
  SourceComplete : bool;
  SameVolume : bool;
  QuarantineCapacity : Z;
  RootSentinelOK : bool;
  VolumeAuthorized : bool }.

Record Authorization := mkAuthorization {
  PlanDigest : bytes;
  ConfigDigest : bytes;
  CapabilityDigest : bytes;
  DestructiveAuth : bytes;
  AllowPermanentPurge : bool }.

Record Decision := mkDecision { Allowed : bool; PermanentDisabled : bool; Reason : string; PercentBPS : Z }.

(** The error's code; its message is left out. *)
Record Error := stop { Code : string }.

#[global] Instance Error_eq_dec : EqDecision Error.
Proof. solve_decision. Defined.

Definition zeroDigest : bytes := zeros 32.

Definition checkMax (name : string) (have max : Z) : res Error unit :=
  if max =? 0 then Err (stop name)
  else if max <? have then Err (stop name)
  else Ok tt.

Definition percentBPS (count total : Z) : res Error Z :=
  if count =? 0 then Ok 0
  else if total =? 0 then Err (stop "percent")
  else if total <? count then Err (stop "percent")
  else if MaxUint64 / 10000 <? count then Err (stop "percent")
  else Ok (u64 (count * 10000) / total).

(** A refusal comes with the decision as far as it was made. *)
Definition Evaluate (th : Thresholds) (obs : Observation) (auth : Authorization) : Decision * option Error :=
  let d := mkDecision false true "" 0 in
  if bool_decide (DestructiveAuth auth = zeroDigest) then (d, Some (stop "auth")) else
  if bool_decide (PlanDigest auth = zeroDigest) || bool_decide (ConfigDigest auth = zeroDigest) || bool_decide (CapabilityDigest auth = zeroDigest)
  then (d, Some (stop "auth")) else
  if negb (RootSentinelOK obs) then (d, Some (stop "sentinel")) else
  if negb (VolumeAuthorized obs) then (d, Some (stop "volume")) else
  if negb (SameVolume obs) then (d, Some (stop "volume")) else
  if RequireCompleteSrc th && negb (SourceComplete obs) then (d, Some (stop "source")) else
  if UnknownObjectCount obs || UnknownLogical obs || UnknownPhysical obs || UnknownPathClass obs then (d, Some (stop "unknown")) else
  match checkMax "object_count" (ObjectCount obs) (MaxObjectCount th) with
  | Err e => (d, Some e)
  | _ =>
  match checkMax "logical_bytes" (LogicalBytes obs) (MaxLogicalBytes th) with
  | Err e => (d, Some e)
  | _ =>
  match checkMax "physical_bytes" (PhysicalBytes obs) (MaxPhysicalBytes th) with
  | Err e => (d, Some e)
  | _ =>
  match checkMax "path_class" (PathClassCount obs) (MaxPathClassCount th) with
  | Err e => (d, Some e)
  | _ =>
  match percentBPS (ObjectCount obs) (ArchiveObjectCount obs) with
  | Err e => (d, Some e)
  | Panic => (d, Some (stop "percent"))
  | Ok pct =>
      let d := mkDecision false true "" pct in
      if (MaxPercentBPS th =? 0) && (0 <? ObjectCount obs) then (d, Some (stop "percent")) else
      if MaxPercentBPS th <? pct then (d, Some (stop "percent")) else
      let need := PhysicalBytes obs in
      let need := if need =? 0 then LogicalBytes obs else need in
      if QuarantineCapacity obs <? need then (d, Some (stop "capacity")) else
      let d := if AllowPermanentPurge auth
               then mkDecision (Allowed d) (PermanentDisabled d) "quarantine-only; permanent purge requires separate transaction" (PercentBPS d)
               else d in
      (mkDecision true (PermanentDisabled d) "quarantine permitted" (PercentBPS d), None)
  end end end end end.

Record QuarantinePlan := mkQuarantine { SourceName : bytes; QuarantineName : bytes; ObjectID : bytes; QPlanDigest : bytes; AuthDigest : bytes }.

Definition BuildQuarantinePlan (sourceName quarantineName objectID plan auth : bytes) : res Error QuarantinePlan :=
  if (len sourceName =? 0) || (len quarantineName =? 0) then Err (stop "name") else
  if bool_decide (objectID = zeroDigest) || bool_decide (plan = zeroDigest) || bool_decide (auth = zeroDigest) then Err (stop "bind") else
  Ok (mkQuarantine sourceName quarantineName objectID plan auth).

(** ** The move (quarantine_fs.go) *)

Definition bad_byte (b : Byte.byte) : bool := (byteZ b =? 0) || (byteZ b =? 47) || (byteZ b =? 92).

Definition validateComponent (name : bytes) : res Error unit :=
  if len name =? 0 then Err (stop "name")
  else if existsb bad_byte name then Err (stop "name")
  else if bool_decide (name = str ".") || bool_decide (name = str "..") then Err (stop "name")
  else Ok tt.

Section Move.
Context {W : Type} `{FileSystem W}.

Definition ExecuteQuarantineMove (root : bytes) (decision : Decision) (qp : QuarantinePlan) : io W Error unit :=
  if negb (Allowed decision) then throw (stop "decision") else
  if negb (PermanentDisabled decision) then throw (stop "policy") else
  let* _ := lift (validateComponent (SourceName qp)) in
  let* _ := lift (validateComponent (QuarantineName qp)) in
  let src := Join root (SourceName qp) in
  let dstDir := Join root (str "quarantine") in
  let* _ := or_fail (MkdirAll dstDir 0x1ED) (fun _ => stop "io") in
  let dst := Join dstDir (QuarantineName qp) in
  let* r := try (Lstat dst) in
  match r with
  | inl _ => throw (stop "collision")
  | inr e =>
      if negb (bool_decide (e = ENOENT)) then throw (stop "io") else
      let* _ := or_fail (Lstat src) (fun _ => stop "io") in
      let* _ := or_fail (Rename src dst) (fun _ => stop "io") in
      let* _ := or_fail (SyncDir dstDir) (fun _ => stop "io") in
      or_fail (SyncDir root) (fun _ => stop "io")
  end.

End Move.

(** ** The gate *)

(** The measurements and bounds as they are in the program. *)
Definition wf_observation (o : Observation) : Prop :=
  is_u64 (ObjectCount o) /\ is_u64 (ArchiveObjectCount o) /\ is_u64 (LogicalBytes o) /\ is_u64 (PhysicalBytes o).

Lemma checkMax_exact name have max : checkMax name have max = Ok tt <-> max <> 0 /\ have <= max.
Proof. unfold checkMax. destruct (max =? 0) eqn:E1; [reflect_bools; naive_solver|]. destruct (max <? have) eqn:E2; reflect_bools; split; done || lia. Qed.

(** The share in basis points, rounded down; the product does not wrap around. *)
Lemma percentBPS_exact count total pct : is_u64 count -> is_u64 total ->
  percentBPS count total = Ok pct <->
  (count = 0 /\ pct = 0 \/ 0 < count <= total /\ count <= MaxUint64 / 10000 /\ pct = count * 10000 / total).
Proof.
  unfold is_u64, percentBPS, MaxUint64. intros Hc Ht. change (18446744073709551615 / 10000) with 1844674407370955.
  destruct (count =? 0) eqn:E0; [reflect_bools; naive_solver lia|]. destruct (total =? 0) eqn:E1; [reflect_bools; split; [done|lia]|].
  destruct (total <? count) eqn:E2; [reflect_bools; split; [done|lia]|]. destruct (1844674407370955 <? count) eqn:E3; [reflect_bools; split; [done|lia]|].
  reflect_bools. rewrite u64_small by (unfold is_u64; lia). split; [intros [= <-]; right; split_and!; lia|intros [|(_ & _ & ->)]; [lia|done]].
Qed.

(** The share of the archive, where anything is removed. *)
Definition share_ok (th : Thresholds) (obs : Observation) : Prop :=
  ObjectCount obs = 0 \/
  0 < ObjectCount obs <= ArchiveObjectCount obs /\ ObjectCount obs <= MaxUint64 / 10000 /\ MaxPercentBPS th <> 0 /\
  ObjectCount obs * 10000 / ArchiveObjectCount obs <= MaxPercentBPS th.

(** Everything that the gate asks for. *)
Definition permitted (th : Thresholds) (obs : Observation) (auth : Authorization) : Prop :=
  DestructiveAuth auth <> zeroDigest /\ PlanDigest auth <> zeroDigest /\ ConfigDigest auth <> zeroDigest /\ CapabilityDigest auth <> zeroDigest /\
  RootSentinelOK obs = true /\ VolumeAuthorized obs = true /\ SameVolume obs = true /\
  (RequireCompleteSrc th = true -> SourceComplete obs = true) /\
  (UnknownObjectCount obs = false /\ UnknownLogical obs = false /\ UnknownPhysical obs = false /\ UnknownPathClass obs = false) /\
  (MaxObjectCount th <> 0 /\ ObjectCount obs <= MaxObjectCount th) /\ (MaxLogicalBytes th <> 0 /\ LogicalBytes obs <= MaxLogicalBytes th) /\
  (MaxPhysicalBytes th <> 0 /\ PhysicalBytes obs <= MaxPhysicalBytes th) /\ (MaxPathClassCount th <> 0 /\ PathClassCount obs <= MaxPathClassCount th) /\
  share_ok th obs /\
  (if PhysicalBytes obs =? 0 then LogicalBytes obs else PhysicalBytes obs) <= QuarantineCapacity obs.

(** A step of the gate: when its test refuses, the plan is not permitted. *)
Definition verdict (P : Prop) (x : Decision * option Error) : Prop :=
  PermanentDisabled x.1 = true /\ (Allowed x.1 = true <-> x.2 = None) /\ (x.2 = None <-> P).

Lemma verdict_refuse (P : Prop) pct e : ~ P -> verdict P (mkDecision false true "" pct, Some e).
Proof. intros Hn. split; [done|]. split; [done|]. by split. Qed.

Lemma verdict_if (P : Prop) (b : bool) pct e y : (b = true -> ~ P) -> (b = false -> verdict P y) ->
  verdict P (if b then (mkDecision false true "" pct, Some e) else y).
Proof. intros Hb Hy. destruct b; [by apply verdict_refuse, Hb|by apply Hy]. Qed.

Lemma verdict_max (P : Prop) name have max pct y :
  (P -> max <> 0 /\ have <= max) -> (max <> 0 /\ have <= max -> verdict P y) ->
  verdict P (match checkMax name have max with Err e => (mkDecision false true "" pct, Some e) | _ => y end).
Proof.
  intros HP Hy. pose proof (checkMax_exact name have max) as Hx. destruct (checkMax name have max) as [[]|e|] eqn:E.
  - by apply Hy, Hx.
  - apply verdict_refuse. intros Hp. apply HP, Hx in Hp. done.
  - unfold checkMax in E. by repeat case_match.
Qed.

Lemma share_exact th obs pct : is_u64 (ObjectCount obs) -> is_u64 (ArchiveObjectCount obs) -> 0 <= MaxPercentBPS th ->
  percentBPS (ObjectCount obs) (ArchiveObjectCount obs) = Ok pct ->
  (MaxPercentBPS th =? 0) && (0 <? ObjectCount obs) = false /\ pct <= MaxPercentBPS th <-> share_ok th obs.
Proof.
  intros Hc Ha Hm Hp. apply percentBPS_exact in Hp; [|done..]. unfold share_ok. destruct Hp as [[H0 ->]|(Hr & Ho & ->)].
  - rewrite H0, andb_false_r. split; [by left|done].
  - rewrite (proj2 (Z.ltb_lt 0 _)), andb_true_r by lia. rewrite Z.eqb_neq. split; [intros; right; tauto|intros [|]; [lia|tauto]].
Qed.

Lemma share_none th obs e : is_u64 (ObjectCount obs) -> is_u64 (ArchiveObjectCount obs) ->
  percentBPS (ObjectCount obs) (ArchiveObjectCount obs) = Err e -> ~ share_ok th obs.
Proof.
  intros Hc Ha Hp Hs. pose proof (percentBPS_exact (ObjectCount obs) (ArchiveObjectCount obs)) as Hx. rewrite Hp in Hx.
  destruct Hs as [H0|(Hr & Ho & _)]; [assert (@Err Error Z e = Ok 0); [apply Hx; auto|done]|].
  assert (@Err Error Z e = Ok (ObjectCount obs * 10000 / ArchiveObjectCount obs)); [apply Hx; auto|done].
Qed.

(** The gate.  A destructive plan is let through exactly when it is permitted: all four
    digests are there, the root, its volume and the quarantine's volume are right, the
    source is complete where that is required, every quantity is known and within its
    configured maximum, so is the share of the archive in basis points (computed without
    wrap-around), and the quarantine has room.  No decision enables permanent deletion. *)
Lemma Evaluate_exact th obs auth : wf_observation obs -> 0 <= MaxPercentBPS th ->
  verdict (permitted th obs auth) (Evaluate th obs auth).
Proof.
  intros (Hc & Ha & Hl & Hp) Hm. unfold Evaluate. cbv zeta.
  apply verdict_if; intros E1. { unfold permitted. reflect_bools. tauto. }
  apply verdict_if; intros E2. { unfold permitted. rewrite !orb_true_iff, !bool_decide_true_iff in E2. tauto. }
  apply verdict_if; intros E3. { unfold permitted. reflect_bools. intuition congruence. }
  apply verdict_if; intros E4. { unfold permitted. reflect_bools. intuition congruence. }
  apply verdict_if; intros E5. { unfold permitted. reflect_bools. intuition congruence. }
  apply verdict_if; intros E6. { unfold permitted. reflect_bools. intuition congruence. }
  apply verdict_if; intros E7. { unfold permitted. rewrite !orb_true_iff in E7. intuition congruence. }
  apply verdict_max; [unfold permitted; tauto|intros M1]. apply verdict_max; [unfold permitted; tauto|intros M2].
  apply verdict_max; [unfold permitted; tauto|intros M3]. apply verdict_max; [unfold permitted; tauto|intros M4].
  destruct (percentBPS (ObjectCount obs) (ArchiveObjectCount obs)) as [pct|e|] eqn:Ep.
  2: { apply verdict_refuse. unfold permitted. pose proof (share_none th obs e Hc Ha Ep). tauto. }
  2: { unfold percentBPS in Ep. by repeat case_match. }
  pose proof (share_exact th obs pct Hc Ha Hm Ep) as Hs.
  apply verdict_if; intros E8. { unfold permitted. rewrite E8 in Hs. intuition congruence. }
  apply verdict_if; intros E9. { reflect_bools. unfold permitted. rewrite <- Hs. intros Hx. lia. }
  apply verdict_if; intros E10. { reflect_bools. unfold permitted. lia. }
  reflect_bools. split; [by destruct (AllowPermanentPurge auth)|]. split; [done|]. split; [intros _|done].
  assert (Hsh : share_ok th obs) by (by apply Hs). unfold permitted. split_and!; try done; try tauto.
  intros Hr. rewrite Hr in *. by destruct (SourceComplete obs).
Qed.

(** ** The move keeps the object *)

Lemma validateComponent_plain name : validateComponent name = Ok tt -> plain name.
Proof.
  unfold validateComponent. destruct (len name =? 0) eqn:E0; [done|]. destruct (existsb bad_byte name) eqn:E1; [done|].
  destruct (_ || _) eqn:E2; [done|]. intros _. reflect_bools. split_and!; [intros ->; by cbn in E0|done|done|].
  apply Forall_forall. intros b Hb Hs. assert (Hx : existsb bad_byte name = true); [|congruence].
  apply existsb_exists. exists b. split; [by apply list_elem_of_In|]. unfold bad_byte. rewrite Hs. done.
Qed.

Section Preserves.
Context {W : Type} `{FileSystemLaws W}.

Definition quarantineDir : bytes := str "quarantine".

(** Where the object is after a move that may have failed. *)
Definition kept (rd : list bytes) (sn qn : bytes) (o : node) (v v' : tree) : Prop :=
  v' !! (rd ++ [sn]) = Some o /\ v' !! ((rd ++ [quarantineDir]) ++ [qn]) = v !! ((rd ++ [quarantineDir]) ++ [qn]) \/
  v' !! (rd ++ [sn]) = None /\ v !! ((rd ++ [quarantineDir]) ++ [qn]) = None /\ v' !! ((rd ++ [quarantineDir]) ++ [qn]) = Some o.

Definition moved_paths (rd : list bytes) (sn qn : bytes) (q : list bytes) : Prop := q = rd ++ [sn] \/ q = (rd ++ [quarantineDir]) ++ [qn].

(** C34. Quarantine never loses an object.  A move that succeeds was allowed and puts the
    file, with its content and mode, where nothing was in the quarantine; one that fails,
    at whatever call, leaves the file where it was, or has put it in the quarantine.
    Nothing else changes but the directories that lead to the quarantine. *)
Theorem quarantine_preserves rd dec qp m d w w' r :
  Forall plain rd -> nolink (view w) (rd ++ [quarantineDir]) -> view w !! (rd ++ [SourceName qp]) = Some (NFile m d) ->
  ExecuteQuarantineMove (native rd) dec qp w = (w', r) ->
  r <> Panic /\ kept rd (SourceName qp) (QuarantineName qp) (NFile m d) (view w) (view w') /\
  evolves (moved_paths rd (SourceName qp) (QuarantineName qp)) (fun q => q `prefix_of` rd ++ [quarantineDir]) (view w) (view w') /\
  (r = Ok tt -> Allowed dec = true /\ view w' !! ((rd ++ [quarantineDir]) ++ [QuarantineName qp]) = Some (NFile m d)).
Proof.
  intros Hrd Hl Hsrc E. set (sn := SourceName qp) in *. set (qn := QuarantineName qp) in *. set (qd := rd ++ [quarantineDir]) in *.
  set (Q := fun w' (r : res Error unit) => r <> Panic /\ kept rd sn qn (NFile m d) (view w) (view w') /\
    evolves (moved_paths rd sn qn) (fun q => q `prefix_of` qd) (view w) (view w') /\
    (r = Ok tt -> Allowed dec = true /\ view w' !! (qd ++ [qn]) = Some (NFile m d))).
  enough (Hw : wp (ExecuteQuarantineMove (native rd) dec qp) Q w) by exact (wp_run _ _ _ _ _ Hw E). clear E.
  assert (Hbad : forall w1 e, view w1 = view w -> Q w1 (Err e)).
  { intros w1 e Hv. split; [done|]. split; [left; rewrite Hv; done|]. split; [by apply evolves_eq|done]. }
  unfold ExecuteQuarantineMove. wp_if; [by apply wp_throw, Hbad|]. wp_if; [by apply wp_throw, Hbad|]. reflect_bools.
  apply wp_bind, wp_lift. fold sn qn. destruct (validateComponent sn) as [[]|e|] eqn:Vs; [|by apply Hbad|unfold validateComponent in Vs; by repeat case_match].
  apply wp_bind, wp_lift. destruct (validateComponent qn) as [[]|e|] eqn:Vq; [|by apply Hbad|unfold validateComponent in Vq; by repeat case_match].
  apply validateComponent_plain in Vs, Vq. assert (Pq : plain quarantineDir) by (by split_and!; [..|repeat constructor]).
  change (str "quarantine") with quarantineDir. rewrite !Join_native by (done || by apply plain_snoc). fold qd.
  assert (Hqd : Forall plain qd) by (by apply plain_snoc).
  apply wp_bind, wp_or_fail, wp_call. intros w1 r1 E1. apply mkdirall_spec in E1 as [Hc1 Hr1]; [|done..].
  assert (He1 : evolves (moved_paths rd sn qn) (fun q => q `prefix_of` qd) (view w) (view w1)) by (by eapply evolves_created).
  assert (Hk1 : view w1 !! (rd ++ [sn]) = Some (NFile m d)) by (destruct (Hc1 (rd ++ [sn])) as [->|(Hn & _)]; congruence).
  assert (Hd1 : view w1 !! (qd ++ [qn]) = view w !! (qd ++ [qn])).
  { destruct (Hc1 (qd ++ [qn])) as [->|(_ & Hp & _)]; [done|]. by apply prefix_snoc_not in Hp. }
  assert (Hstay : forall w2 e, view w2 = view w1 -> Q w2 (Err e)).
  { intros w2 e Hv. split; [done|]. split; [left; by rewrite Hv|]. split; [by rewrite Hv|done]. }
  destruct r1 as [[]|e|]; cbn [map_err]; [|by apply Hstay|done].
  assert (Hent : entry_at (view w1) qd qn) by (split_and!; [done..|by eapply evolves_nolink]).
  assert (Hens : entry_at (view w1) rd sn).
  { split_and!; [done..|]. intros p Hp. eapply (evolves_nolink _ _ _ _ qd); [exact He1|done|]. etrans; [exact Hp|by exists [quarantineDir]]. }
  apply wp_bind, wp_try, wp_call. intros w2 r2 E2. apply lstat_spec in E2 as [Hv2 Hr2]; [|done].
  destruct r2 as [i|e|]; [by apply wp_throw, Hstay| |done]. wp_if; [by apply wp_throw, Hstay|]. reflect_bools. subst e. specialize (Hr2 eq_refl).
  apply wp_bind, wp_or_fail, wp_call. intros w3 r3 E3. apply lstat_spec in E3 as [Hv3 Hr3]; [|by rewrite Hv2]. rewrite Hv2 in Hv3.
  destruct r3 as [i|e|]; cbn [map_err]; [|by apply Hstay|done].
  apply wp_bind, wp_or_fail, wp_call. intros w4 r4 E4. eapply rename_spec in E4; [|by rewrite Hv3..].
  destruct r4 as [[]|e|]; cbn [map_err]; [|apply Hstay; by rewrite E4|done]. rewrite Hv3 in E4.
  assert (Hne : rd ++ [sn] <> qd ++ [qn]) by (intros E; rewrite E in Hk1; congruence).
  assert (Hdone : forall w5 r5, view w5 = view w4 -> r5 <> Panic -> Q w5 r5).
  { intros w5 r5 Hv Hp. split; [done|]. assert (Hat : view w5 !! (qd ++ [qn]) = Some (NFile m d)) by (by rewrite Hv, E4, lookup_insert_eq).
    split; [right; fold qd; rewrite <- Hd1; split; [by rewrite Hv, E4, lookup_insert_ne, lookup_delete_eq by done|by split]|].
    split; [|done]. rewrite Hv, E4. eapply evolves_trans; [exact He1|]. eapply evolves_trans; [apply evolves_delete; by left|apply evolves_insert; by right]. }
  apply wp_bind, wp_or_fail, wp_call. intros w5 r5 [Hv5 Hr5]%syncdir_spec. destruct r5 as [[]|e|]; cbn [map_err]; [|by apply Hdone|done].
  apply wp_or_fail, wp_call. intros w6 r6 [Hv6 Hr6]%syncdir_spec. rewrite Hv5 in Hv6. destruct r6 as [[]|e|]; cbn [map_err]; by apply Hdone.
Qed.

End Preserves.

(** ** Witnesses *)

Definition digest_demo : bytes := Codec.SHA256 (str "x").
Definition auth_demo : Authorization := mkAuthorization digest_demo digest_demo digest_demo digest_demo true.
Definition thresholds_demo : Thresholds := mkThresholds 10 5000 1000 1000 3 true.
Definition observation_demo : Observation := mkObservation 2 5 100 200 1 false false false false true true 200 true true.

Lemma Evaluate_exact_witness : permitted thresholds_demo observation_demo auth_demo /\
  Reason (Evaluate thresholds_demo observation_demo auth_demo).1 = "quarantine permitted"%string.
Proof.
  destruct (Evaluate_exact thresholds_demo observation_demo auth_demo) as (_ & _ & Hv).
  - unfold wf_observation, is_u64. cbn. lia.
  - cbn. lia.
  - split; [apply Hv; vm_compute; reflexivity|vm_compute; reflexivity].
Defined.

Definition quarantineTree : tree := list_to_map [([], NDir 493); ([str "a"], NDir 493); ([str "a"; str "f"], NFile 420 (str "hi"))].
Definition move_demo : QuarantinePlan := mkQuarantine (str "f") (str "q1") digest_demo digest_demo digest_demo.

(** The directory of the quarantine cannot be synced: the move is reported as failed,
    and the file is in the quarantine. *)
Lemma quarantine_preserves_witness :
  exists w r, ExecuteQuarantineMove (str "/a") (Evaluate thresholds_demo observation_demo auth_demo).1 move_demo (mkMemFS quarantineTree [None; None; None; None; Some EOther] 7) = (w, r) /\
    r = Err (stop "io") /\ kept [str "a"] (str "f") (str "q1") (NFile 420 (str "hi")) quarantineTree (view w).
Proof.
  destruct (ExecuteQuarantineMove (str "/a") (Evaluate thresholds_demo observation_demo auth_demo).1 move_demo (mkMemFS quarantineTree [None; None; None; None; Some EOther] 7)) as [w r] eqn:E.
  assert (Hr : r = Err (stop "io")).
  { change r with (w, r).2. rewrite <- E. clear. vm_compute. reflexivity. }
  exists w, r. split; [reflexivity|]. split; [exact Hr|].
  refine (proj1 (proj2 (quarantine_preserves [str "a"] _ move_demo 420 (str "hi") (mkMemFS quarantineTree [None; None; None; None; Some EOther] 7) w r _ _ _ E))).
  - repeat constructor; try discriminate.
  - intros p Hp. destruct p as [|x [|y [|z p]]]; [..|apply prefix_length in Hp; cbn in Hp; lia].
    + vm_compute. discriminate.
    + destruct Hp as [k [= <- _]]. vm_compute. discriminate.
    + destruct Hp as [k [= <- <- _]]. vm_compute. discriminate.
  - vm_compute. reflexivity.
Defined.

End Deletion.
