(* ===== verification/RecoveryFiles.v ===== *)
(** * Publication and recovery on a filesystem (internal/recovery: filepublish.go,
      filepersist.go, kill_unix.go)

    [FilePublisher] stages an object, syncs it and renames it into place, with a
    checkpoint before each step at which a fault is injected or the process is killed;
    [FilePersist] is the persistence that recovery uses on the same directory.
    [publish_recover] puts them together with Recovery.v: whatever becomes of the
    publication and whatever then fails in recovery, the published object is either not
    there or whole, recovery does not touch it, and reports it only when it is there.

    Methods on a nil receiver only return an error and are left out. *)

From stdpp Require Import gmap.
From S2P Require Import Prelude Codec Journal Recovery FilePath FileSystem LocalApply LocalSync LocalResume.
Import Codec FilePath FileSystem LocalApply Recovery.
#[local] Abbreviation on_fst := LocalSync.on_fst.

Module RecoveryFiles.

(** ** The calls *)

Class PublishCalls (W : Type) := {
  (** [os.Stat], which follows links *)
  Stat : bytes -> io W errno FileInfo;
  (** [os.OpenFile] with [O_WRONLY|O_CREATE|O_EXCL] *)
  OpenNew : bytes -> Z -> io W errno unit;
  (** [os.OpenFile] with [O_CREATE|O_WRONLY|O_APPEND] *)
  OpenAppend : bytes -> Z -> io W errno unit;
  (** [Write] at the end of a file opened by one of these *)
  WriteEnd : bytes -> bytes -> io W errno unit;
  RemoveAll : bytes -> io W errno unit;
  (** [platform.CloneFile]: the mechanism that was used *)
  CloneFile : bytes -> bytes -> io W errno string }.

Class PublishLaws (W : Type) `{FileSystemLaws W} `{PublishCalls W} := {
  readdir_missing w w' cs :
    Forall plain cs -> nolink (view w) cs -> ReadDir (native cs) w = (w', Err ENOENT) -> view w !! cs = None;
  stat_any w w' r p : Stat p w = (w', r) -> view w' = view w /\ r <> Panic;
  stat_spec w w' r ds c :
    entry_at (view w) ds c -> view w !! (ds ++ [c]) <> Some (NOther TSymlink) -> Stat (native (ds ++ [c])) w = (w', r) ->
    match r with
    | Ok i => exists n, view w !! (ds ++ [c]) = Some n /\ i = info_of n
    | Err e => e = ENOENT -> view w !! (ds ++ [c]) = None
    | Panic => False
    end;
  opennew_spec w w' r ds c m :
    entry_at (view w) ds c -> OpenNew (native (ds ++ [c])) m w = (w', r) ->
    match r with
    | Ok _ => view w !! (ds ++ [c]) = None /\ view w' = <[ds ++ [c] := NFile m []]> (view w)
    | Err _ => view w' = view w
    | Panic => False
    end;
  openappend_spec w w' r ds c m :
    entry_at (view w) ds c -> (forall t, view w !! (ds ++ [c]) <> Some (NOther t)) -> OpenAppend (native (ds ++ [c])) m w = (w', r) ->
    match r with
    | Ok _ => (view w !! (ds ++ [c]) = None /\ view w' = <[ds ++ [c] := NFile m []]> (view w)) \/
              (view w' = view w /\ exists m0 d0, view w !! (ds ++ [c]) = Some (NFile m0 d0))
    | Err _ => view w' = view w
    | Panic => False
    end;
  writeend_spec w w' r ds c m d data :
    entry_at (view w) ds c -> view w !! (ds ++ [c]) = Some (NFile m d) -> WriteEnd (native (ds ++ [c])) data w = (w', r) ->
    r <> Panic /\ exists x, x `prefix_of` data /\ view w' = <[ds ++ [c] := NFile m (d ++ x)]> (view w) /\ (r = Ok tt -> x = data);
  removeall_spec w w' r ds c :
    entry_at (view w) ds c -> RemoveAll (native (ds ++ [c])) w = (w', r) ->
    r <> Panic /\ (forall q, view w' !! q = view w !! q \/ ds ++ [c] `prefix_of` q /\ view w' !! q = None);
  clonefile_spec w w' r ds c src :
    entry_at (view w) ds c -> CloneFile (native (ds ++ [c])) src w = (w', r) ->
    match r with
    | Ok _ => view w !! (ds ++ [c]) = None /\ exists m d, view w' = <[ds ++ [c] := NFile m d]> (view w) /\
        (forall es b, src = native (es ++ [b]) -> entry_at (view w) es b -> view w !! (es ++ [b]) <> Some (NOther TSymlink) ->
           exists m', view w !! (es ++ [b]) = Some (NFile m' d))
    | Err _ => view w' = view w \/ (view w !! (ds ++ [c]) = None /\ exists m d, view w' = <[ds ++ [c] := NFile m d]> (view w))
    | Panic => False
    end }.

Definition staging : bytes := str "staging".
Definition published_ : bytes := str "published".
Definition quarantine_ : bytes := str "quarantine".
Definition confirm_log : bytes := str "confirm.log".

(** ** The publisher (filepublish.go) *)

Record FilePublisher := mkPublisher {
  PRoot : bytes;
  PFailAt : option CrashLabel;
  KillAt : option CrashLabel;
  ExpectedContent : option bytes;
  StageMechanism : string;
  PCheckpoints : list CrashLabel }.

Definition set_mechanism x p := mkPublisher (PRoot p) (PFailAt p) (KillAt p) (ExpectedContent p) x (PCheckpoints p).
Definition add_label l p := mkPublisher (PRoot p) (PFailAt p) (KillAt p) (ExpectedContent p) (StageMechanism p) (PCheckpoints p ++ [l]).

Section Calls.
Context {W : Type} `{FileSystem W} `{PublishCalls W}.

Definition external {S A} (c : io S errno A) : io S Error A := or_fail c (fun _ => External).

Fixpoint make_dirs (root : bytes) (subs : list bytes) : io W Error unit :=
  match subs with
  | [] => ret tt
  | sub :: subs => let* _ := external (MkdirAll (Join root sub) 0x1ED) in make_dirs root subs
  end.

Definition NewFilePublisher (root : bytes) : io W Error FilePublisher :=
  let* _ := make_dirs root [staging; published_] in
  ret (mkPublisher root None None None "" []).

(** [SIGKILL] to the own process: nothing after it runs. *)
Definition killSelfAt {S A} (label : CrashLabel) : io S Error A := lift Panic.

Abbreviation IO := (io (W * FilePublisher) Error).

Definition get_publisher : IO FilePublisher := fun '(w, p) => (w, p, Ok p).
Definition put_publisher (p : FilePublisher) : IO unit := fun '(w, _) => (w, p, Ok tt).

Definition checkpoint (label : CrashLabel) : IO unit :=
  let* p := get_publisher in
  let* _ := put_publisher (add_label label p) in
  if bool_decide (KillAt p = Some label) then killSelfAt label else
  if bool_decide (PFailAt p = Some label) then throw (ioErr label) else ret tt.

Definition has_sep (b : Byte.byte) : bool := (byteZ b =? 47) || (byteZ b =? 92).

Definition validatePublishName (name : bytes) : res Error unit :=
  if bool_decide (name = []) || bool_decide (name = str ".") || bool_decide (name = str "..") then Err stateErr
  else if existsb has_sep name then Err stateErr
  else Ok tt.

(** A call whose failure is a failure at the label. *)
Definition at_label {A} (label : CrashLabel) (c : io W errno A) : IO A := on_fst (or_fail c (fun _ => ioErr label)).

(** A call that is undone by removing the file. *)
Definition or_discard (stagePath : bytes) (close : bool) (c : io W errno unit) : IO unit :=
  let* r := try (on_fst c) in
  match r with
  | inl _ => ret tt
  | inr _ =>
      let* _ := if close then ignore (on_fst (CloseFile stagePath)) else ret tt in
      let* _ := ignore (on_fst (Remove stagePath)) in
      throw (ioErr LabelPStageCreate)
  end.

Definition sync_staged (stagePath : bytes) : io W errno unit :=
  let* _ := OpenRW stagePath in
  let* r := try (SyncFile stagePath) in
  let* _ := ignore (CloseFile stagePath) in
  match r with inl _ => ret tt | inr e => throw e end.

Definition publishStaged (stagePath pubPath : bytes) : IO unit :=
  let* p := get_publisher in
  let* _ := checkpoint LabelPStageSync in
  let* _ := at_label LabelPStageSync (sync_staged stagePath) in
  let* _ := at_label LabelPStageSync (SyncDir (Join (PRoot p) staging)) in
  let* _ := checkpoint LabelPPublishRename in
  let* st := try (on_fst (Stat pubPath)) in
  match st with
  | inl _ => throw stateErr
  | inr e =>
      if negb (bool_decide (e = ENOENT)) then throw (ioErr LabelPPublishRename) else
      let* _ := at_label LabelPPublishRename (Rename stagePath pubPath) in
      let* _ := checkpoint LabelPPublishDirSync in
      let* _ := at_label LabelPPublishDirSync (SyncDir (Join (PRoot p) published_)) in
      at_label LabelPPublishDirSync (SyncDir (PRoot p))
  end.

Definition set_stage_mechanism (x : string) : IO unit := let* p := get_publisher in put_publisher (set_mechanism x p).

Definition Publish (name data : bytes) : IO unit :=
  let* p := get_publisher in
  let* _ := lift (validatePublishName name) in
  let stagePath := Join (Join (PRoot p) staging) name in
  let pubPath := Join (Join (PRoot p) published_) name in
  let* _ := checkpoint LabelPStageCreate in
  let* _ := at_label LabelPStageCreate (OpenNew stagePath 0x180) in
  let* _ := or_discard stagePath true (WriteEnd stagePath data) in
  let* _ := or_discard stagePath false (CloseFile stagePath) in
  let* _ := set_stage_mechanism "write" in
  publishStaged stagePath pubPath.

Definition PublishFrom (name srcPath : bytes) : IO unit :=
  let* p := get_publisher in
  let* _ := lift (validatePublishName name) in
  if bool_decide (srcPath = []) then throw stateErr else
  let stagePath := Join (Join (PRoot p) staging) name in
  let pubPath := Join (Join (PRoot p) published_) name in
  let* _ := checkpoint LabelPStageCreate in
  let* mech := at_label LabelPStageCreate (CloneFile stagePath srcPath) in
  let* _ := set_stage_mechanism mech in
  publishStaged stagePath pubPath.

Definition dirHasEntries (dir : bytes) : io W Error bool :=
  let* r := try (ReadDir dir) in
  match r with
  | inl entries => ret (0 <? len entries)
  | inr e => if bool_decide (e = ENOENT) then ret false else throw External
  end.

Definition pathExists (path : bytes) : io W Error bool :=
  let* r := try (Stat path) in
  match r with
  | inl _ => ret true
  | inr e => if bool_decide (e = ENOENT) then ret false else throw External
  end.

Definition StagingHas (p : FilePublisher) (name : bytes) : io W Error bool := pathExists (Join (Join (PRoot p) staging) name).
Definition PublishedHas (p : FilePublisher) (name : bytes) : io W Error bool := pathExists (Join (Join (PRoot p) published_) name).

Definition publishedMatches (dir want : bytes) : io W Error bool :=
  let* entries := external (ReadDir dir) in
  match entries with
  | [] => ret false
  | e :: _ => let* got := external (ReadFile (Join dir e)) in ret (bool_decide (got = want))
  end.

(** The observation is meaningless beside an error. *)
Definition Observation (rootID volID : bytes) (p : FilePublisher) : io W Error FSObservation :=
  let* staged := dirHasEntries (Join (PRoot p) staging) in
  let* pub := dirHasEntries (Join (PRoot p) published_) in
  if pub : bool then
    let* same := match ExpectedContent p with
      | Some want => publishedMatches (Join (PRoot p) published_) want
      | None => ret true
      end in
    ret (mkObservation rootID volID staged true true same)
  else ret (mkObservation rootID volID staged false false false).

End Calls.

(** ** The persistence of recovery (filepersist.go) *)

Record FilePersist := mkPersist {
  FRoot : bytes;
  FFailAt : option CrashLabel;
  FCheckpoints : list CrashLabel;
  FConfirms : Z }.

Definition add_checkpoint l f := mkPersist (FRoot f) (FFailAt f) (FCheckpoints f ++ [l]) (FConfirms f).
Definition add_confirm f := mkPersist (FRoot f) (FFailAt f) (FCheckpoints f) (FConfirms f + 1).

Section Persist.
Context {W : Type} `{FileSystem W} `{PublishCalls W}.
Abbreviation IO := (io (W * FilePersist) Error).

Definition NewFilePersist (root : bytes) : io W Error FilePersist :=
  let* _ := make_dirs root [staging; quarantine_] in
  ret (mkPersist root None [] 0).

Definition get_persist : IO FilePersist := fun '(w, f) => (w, f, Ok f).
Definition put_persist (f : FilePersist) : IO unit := fun '(w, _) => (w, f, Ok tt).

(** The labels at which the directory is synced. *)
Definition syncs (label : CrashLabel) : bool :=
  match label with LabelPStageSync | LabelPPublishDirSync | LabelPConfirmPost | LabelJMetaPost => true | _ => false end.

Definition file_Checkpoint (label : CrashLabel) : IO unit :=
  let* f := get_persist in
  let* _ := put_persist (add_checkpoint label f) in
  if bool_decide (FFailAt f = Some label) then throw (ioErr label) else
  if syncs label then on_fst (or_fail (SyncDir (FRoot f)) (fun _ => ioErr label)) else ret tt.

(** The entries of a directory; none if it does not exist. *)
Definition entries_of {A} (dir : bytes) (k : list bytes -> io W Error A) (none : A) : io W Error A :=
  let* r := try (ReadDir dir) in
  match r with
  | inl entries => k entries
  | inr e => if bool_decide (e = ENOENT) then ret none else throw External
  end.

Fixpoint remove_entries (dir : bytes) (entries : list bytes) : io W Error unit :=
  match entries with
  | [] => external (SyncDir dir)
  | e :: entries => let* _ := ignore (RemoveAll (Join dir e)) in remove_entries dir entries
  end.

Definition file_CleanupStaging : IO unit :=
  let* f := get_persist in
  let dir := Join (FRoot f) staging in
  on_fst (entries_of dir (remove_entries dir) tt).

Fixpoint move_entries (src dst : bytes) (entries : list bytes) : io W Error unit :=
  match entries with
  | [] => let* _ := ignore (SyncDir src) in external (SyncDir dst)
  | e :: entries =>
      let* r := try (Rename (Join src e) (Join dst e)) in
      match r with
      | inl _ => move_entries src dst entries
      | inr err => if negb (bool_decide (err = ENOENT)) then throw External else move_entries src dst entries
      end
  end.

Definition file_QuarantineStaging : IO unit :=
  let* f := get_persist in
  let src := Join (FRoot f) staging in
  let dst := Join (FRoot f) quarantine_ in
  on_fst (entries_of src (move_entries src dst) tt).

(** [AppendConfirmation] up to the close; a failure closes the file and is returned. *)
Definition or_close (path : bytes) (c : io W errno unit) : io W Error unit :=
  let* r := try c in
  match r with
  | inl _ => ret tt
  | inr _ => let* _ := ignore (CloseFile path) in throw External
  end.

Definition append_record (path tx : bytes) : io W Error unit :=
  let* _ := external (OpenAppend path 0x1A4) in
  let* _ := or_close path (WriteEnd path (le_bytes 4 16)) in
  let* _ := or_close path (WriteEnd path tx) in
  let* _ := or_close path (SyncFile path) in
  external (CloseFile path).

Definition file_AppendConfirmation (tx payload : bytes) : IO unit :=
  let* f := get_persist in
  let* _ := on_fst (append_record (Join (FRoot f) confirm_log) tx) in
  put_persist (add_confirm f).

Definition SeedStaging (f : FilePersist) (name data : bytes) : io W Error unit :=
  let* _ := external (WriteFile (Join (Join (FRoot f) staging) name) data 0x1A4) in
  external (SyncDir (Join (FRoot f) staging)).

Definition StagingEmpty (f : FilePersist) : io W Error bool :=
  entries_of (Join (FRoot f) staging) (fun entries => ret (len entries =? 0)) true.

Definition QuarantineHas (f : FilePersist) (name : bytes) : io W Error bool :=
  pathExists (Join (Join (FRoot f) quarantine_) name).

(** The error of a method; the calls do not panic. *)
Definition error_of (r : res Error unit) : option Error := match r with Ok _ => None | Err e => Some e | Panic => Some External end.
Definition method (c : IO unit) (x : W * FilePersist) : (W * FilePersist) * option Error := let '(x, r) := c x in (x, error_of r).

#[global] Instance FilePersist_PersistIO : PersistIO (W * FilePersist) := {
  Checkpoint x label := method (file_Checkpoint label) x;
  CleanupStaging x := method file_CleanupStaging x;
  QuarantineStaging x := method file_QuarantineStaging x;
  AppendConfirmation x tx payload := method (file_AppendConfirmation tx payload) x }.

End Persist.

(** ** What recovery asks of its persistence *)

Section Requests.
Context {P : Type} `{PersistIO P}.

Inductive request := Mark (label : CrashLabel) | Clean | Isolate | Confirm (tx : bytes).

Definition run_request (q : request) (p : P) : P * option Error :=
  match q with
  | Mark l => Checkpoint p l
  | Clean => CleanupStaging p
  | Isolate => QuarantineStaging p
  | Confirm tx => AppendConfirmation p tx []
  end.

(** Requests up to the first that fails. *)
Fixpoint run_requests (qs : list request) (p : P) : P * option Error :=
  match qs with
  | [] => (p, None)
  | q :: qs => let '(p, e) := run_request q p in match e with None => run_requests qs p | Some e => (p, Some e) end
  end.

Definition clean_requests : list request := [Mark LabelPStageCreate; Clean; Mark LabelPStageSync].
Definition isolate_requests : list request := [Mark LabelPPublishRename; Isolate; Mark LabelPPublishDirSync].
Definition confirm_requests (tx : bytes) : list request := [Mark LabelPConfirmPre; Confirm tx; Mark LabelPConfirmPost].

(** The persistence after the requests, and whether they succeeded. *)
Definition asked (qs : list request) (p : P) (w' : World P) (err : option Error) : Prop :=
  wio w' = Some (run_requests qs p).1 /\ (err = None -> (run_requests qs p).2 = None).

Ltac ask Hw :=
  unfold on_io, asked; cbn [run_requests run_request clean_requests isolate_requests confirm_requests]; rewrite Hw;
  repeat (match goal with
          | |- context [let '(_, _) := ?c in _] => destruct c as [? [?|]]
          end; cbn [wio with_io fst snd]);
  intros [= <- <- <-]; done.

Lemma maybeCleanup_asks policy obs w out w' out' err p : wio w = Some p ->
  maybeCleanup policy obs w out = (w', out', err) -> asked [] p w' err \/ AllowStagingCleanup policy = true /\ asked clean_requests p w' err.
Proof.
  intros Hw. unfold maybeCleanup. destruct (negb _ || _ || _) eqn:E; [intros [= <- <- <-]; left; done|].
  destruct (AllowStagingCleanup policy); [|done]. intros E'. right. split; [done|]. revert E'. ask Hw.
Qed.

Lemma maybeQuarantine_asks policy obs w out w' out' err p : wio w = Some p ->
  maybeQuarantine policy obs w out = (w', out', err) -> asked [] p w' err \/ AllowStagingCleanup policy = true /\ asked isolate_requests p w' err.
Proof.
  intros Hw. unfold maybeQuarantine. destruct (negb _ || _) eqn:E; [intros [= <- <- <-]; left; done|].
  destruct (negb _ && _); [intros [= <- <- <-]; left; done|].
  destruct (AllowStagingCleanup policy); [|done]. intros E'. right. split; [done|]. revert E'. ask Hw.
Qed.

Lemma confirmOnce_asks tx w out w' out' err p : wio w = Some p ->
  confirmOnce tx w out = (w', out', err) -> asked (confirm_requests tx) p w' err.
Proof. intros Hw. unfold confirmOnce. ask Hw. Qed.

(** What a recovery may ask for. *)
Definition permitted_requests (obs : FSObservation) (policy : Policy) (qs : list request) : Prop :=
  qs = [] \/ (AllowStagingCleanup policy = true /\ (qs = clean_requests \/ qs = isolate_requests)) \/
  (AllowConfirm policy = true /\ linearized obs = true /\ exists tx, qs = confirm_requests tx).

Lemma decide_recovery_asks obs policy f w out w' out' err p : wio w = Some p -> (published f = true -> linearized obs = true) ->
  decide_recovery obs policy f w out = (w', out', err) -> exists qs, asked qs p w' err /\ permitted_requests obs policy qs.
Proof.
  intros Hw Hp. unfold decide_recovery.
  assert (Hnone : asked [] p w err /\ permitted_requests obs policy []) by (split; [done|by left]).
  destruct (confirmationCount f =? 1).
  { destruct (negb _); intros [= <- <- <-]; exists []; (split; [|by left]); split; rewrite ?emit_wio; done. }
  destruct (cancelled f && _ && _).
  { intros E. apply and_then_inv in E as (w1 & o1 & e1 & E & [(? & -> & [= -> -> ->])|[-> [= -> -> ->]]]);
      (eapply maybeCleanup_asks in E as [E|[Ha E]]; [|eauto..|done]); eexists; (split; [exact E|]); unfold permitted_requests; auto. }
  destruct (quarantined f && _).
  { intros E. apply and_then_inv in E as (w1 & o1 & e1 & E & [(? & -> & [= -> -> ->])|[-> [= -> -> ->]]]);
      (eapply maybeQuarantine_asks in E as [E|[Ha E]]; [|eauto..|done]); eexists; (split; [exact E|]); unfold permitted_requests; auto. }
  destruct (published f) eqn:Epub.
  2:{ intros E. apply and_then_inv in E as (w1 & o1 & e1 & E & [(? & -> & [= -> -> ->])|[-> [= -> -> ->]]]);
      (eapply maybeQuarantine_asks in E as [E|[Ha E]]; [|eauto..|done]); eexists; (split; [exact E|]); unfold permitted_requests; auto. }
  destruct (AllowConfirm policy && _) eqn:Ea; [|intros [= <- <- <-]; by exists []]. intros E.
  apply and_then_inv in E as (w1 & o1 & e1 & E & Hx). eapply confirmOnce_asks in E as [E1 E2]; [|done].
  exists (confirm_requests (default (zeros 16) (txid f))). split.
  - destruct Hx as [(? & -> & [= -> -> ->])|[-> [= -> -> ->]]]; split; rewrite ?emit_wio; auto.
  - right. right. apply andb_true_iff in Ea as [-> _]. eauto.
Qed.

Lemma Recover_asks prefix obs policy w w' out err p : wio w = Some p -> Recover prefix obs policy w = Ok (w', out, err) ->
  exists qs, asked qs p w' err /\ permitted_requests obs policy qs.
Proof.
  intros Hw E. destruct (Recover_cases prefix obs policy w) as [[_ E']|(_ & w1 & o1 & e & E' & Hw1 & _)]; rewrite E' in E.
  2:{ injection E as <- <- <-. exists []. split; [|by left]. split; [by rewrite Hw1|done]. }
  injection E as E. revert E. unfold settled.
  destruct (observed obs (flags_of prefix) (flags_unpublished prefix)) as (Ep & _).
  destruct (_ && negb (PublicationLinearized _)); [intros [= <- <- <-]; exists []; split; [done|by left]|].
  destruct (_ && terminalFromFlags _); [intros [= <- <- <-]; exists []; split; [done|by left]|].
  intros E. eapply decide_recovery_asks in E; [done..|]. by rewrite Ep.
Qed.

(** A publication is reported only when it was observed. *)
Lemma Recover_outcome prefix obs policy w w' out err : Recover prefix obs policy w = Ok (w', out, err) ->
  Published out = true \/ OState out = Some StatePublished \/ OState out = Some StateConfirmed -> linearized obs = true.
Proof.
  intros E. destruct (Recover_cases prefix obs policy w) as [[(_ & _ & Hc & _) E']|(_ & w1 & o1 & e & E' & _ & Hp & Hs)]; rewrite E' in E.
  - assert (E2 : settled prefix obs policy w = (w', out, err)) by congruence. apply settled_sound in E2 as (Ha & Hb & _); [|done].
    intros [?|Ho]; [by apply Ha|by apply Ha, Hb].
  - injection E as <- <- <-. rewrite Hp. intros [?|[?|?]]; [done|destruct Hs; congruence..].
Qed.

End Requests.

(** ** Publication *)

(** The directories of a root, none of them behind a link. *)
Definition layout (rd : list bytes) (v : tree) : Prop :=
  Forall plain rd /\ nolink v rd /\
  forall d, d ∈ [staging; published_; quarantine_] -> exists m, v !! (rd ++ [d]) = Some (NDir m).

Lemma plain_names d : d ∈ [staging; published_; quarantine_; confirm_log] -> plain d.
Proof. intros Hd. repeat (apply elem_of_cons in Hd as [->|Hd]; [by split_and!; [..|repeat constructor]|]). by apply elem_of_nil in Hd. Qed.

Lemma layout_entry rd v d c : layout rd v -> d ∈ [staging; published_; quarantine_] -> plain c -> entry_at v (rd ++ [d]) c.
Proof.
  intros (Hrd & Hl & Hd) Hin Hc. split_and!; [apply plain_snoc; [done|apply plain_names; set_solver]|done|].
  intros p [Hp| ->]%prefix_of_snoc; [by apply Hl|]. destruct (Hd d Hin) as [m ->]. done.
Qed.

Lemma layout_dir rd v d : layout rd v -> d ∈ [staging; published_; quarantine_] -> Forall plain (rd ++ [d]) /\ nolink v (rd ++ [d]).
Proof. intros Hl Hd. destruct (layout_entry rd v d staging Hl Hd) as (? & _ & ?); [apply plain_names; set_solver|done]. Qed.

Lemma layout_log rd v : layout rd v -> entry_at v rd confirm_log.
Proof. intros (Hrd & Hl & _). split_and!; [done| |done]. apply plain_names. set_solver. Qed.

Lemma snoc_ne {A} (l : list A) x : l <> l ++ [x].
Proof. intros E%(f_equal length). rewrite length_app in E. cbn in E. lia. Qed.

(** Files that come and go in the directories leave the layout. *)
Lemma layout_insert rd v d c m x : layout rd v -> d ∈ [staging; published_; quarantine_] -> layout rd (<[(rd ++ [d]) ++ [c] := NFile m x]> v).
Proof.
  intros (Hrd & Hl & Hd) Hin. split_and!; [done|eapply evolves_nolink; [by apply (evolves_insert (fun _ => True) (fun _ => False))|done]|].
  intros d' Hd'. rewrite lookup_insert_ne; [by apply Hd|]. intros E%(f_equal length). rewrite !length_app in E. cbn in E. lia.
Qed.

Lemma layout_delete rd v d c : layout rd v -> layout rd (delete ((rd ++ [d]) ++ [c]) v).
Proof.
  intros (Hrd & Hl & Hd). split_and!; [done|eapply evolves_nolink; [by apply (evolves_delete (fun _ => True) (fun _ => False))|done]|].
  intros d' Hd'. rewrite lookup_delete_ne; [by apply Hd|]. intros E%(f_equal length). rewrite !length_app in E. cbn in E. lia.
Qed.

Lemma validatePublishName_plain name : validatePublishName name = Ok tt -> plain name.
Proof.
  unfold validatePublishName. destruct (_ || _ || _) eqn:E1; [done|]. destruct (existsb _ _) eqn:E2; [done|]. intros _. reflect_bools.
  split_and!; [done..|]. apply Forall_forall. intros b Hb E. assert (Hs : existsb has_sep name = true); [|congruence].
  apply existsb_exists. exists b. split; [by apply list_elem_of_In|]. unfold has_sep. rewrite E. done.
Qed.

Section Publication.
Context {W : Type} `{PublishLaws W}.
Variables (rd : list bytes) (name : bytes).
Abbreviation stage := ((rd ++ [staging]) ++ [name]).
Abbreviation pub := ((rd ++ [published_]) ++ [name]).

Lemma wp_first {J E A} (c : io W E A) (Q : W * J -> res E A -> Prop) w j : wp c (fun w' r => Q (w', j) r) w -> wp (on_fst c) Q (w, j).
Proof. unfold wp, LocalSync.on_fst. by destruct (c w). Qed.

Lemma wp_get_publisher (Q : W * FilePublisher -> res Error FilePublisher -> Prop) w p : Q (w, p) (Ok p) -> wp get_publisher Q (w, p).
Proof. done. Qed.

(** A publisher for the same root, killed at the same label. *)
Definition same_publisher (p p' : FilePublisher) : Prop := PRoot p' = PRoot p /\ KillAt p' = KillAt p.

Lemma wp_checkpoint label (Q : W * FilePublisher -> res Error unit -> Prop) w p :
  (forall r p', same_publisher p p' -> (r = Panic -> KillAt p <> None) -> Q (w, p') r) -> wp (checkpoint label) Q (w, p).
Proof.
  intros HQ. unfold checkpoint. apply wp_bind, wp_get_publisher, wp_bind. unfold wp. cbn [put_publisher fst snd].
  assert (Hs : same_publisher p (add_label label p)) by done.
  destruct (bool_decide (KillAt p = _)) eqn:E; [apply HQ; [done|]; intros _ En; reflect_bools; congruence|].
  destruct (bool_decide (PFailAt p = _)); apply HQ; done.
Qed.

Lemma wp_at_label {A} label (c : io W errno A) (Q : W * FilePublisher -> res Error A -> Prop) w p :
  wp c (fun w' r => Q (w', p) (map_err (fun _ => ioErr label) r)) w -> wp (at_label label c) Q (w, p).
Proof. intros Hc. by apply wp_first, wp_or_fail. Qed.

Lemma wp_sync_staged path (Q : W -> res errno unit -> Prop) w :
  (forall w' r, view w' = view w -> r <> Panic -> Q w' r) -> wp (sync_staged path) Q w.
Proof.
  intros HQ. unfold sync_staged. apply wp_bind, wp_call. intros w1 r1 [Hv1 Hn1]%openrw_spec. destruct r1 as [[]|e1|]; [|by apply HQ|done].
  apply wp_bind, wp_try, wp_call. intros w2 r2 [Hv2 Hn2]%sync_spec. rewrite Hv1 in Hv2. destruct r2 as [[]|e2|]; [| |done].
  all: apply wp_bind, wp_ignore_any; intros w3 r3 [Hv3 Hn3]%close_spec; split; [done|]; rewrite Hv2 in Hv3.
  - by apply wp_ret, HQ.
  - by apply wp_throw, HQ.
Qed.

(** What a publication leaves: nothing, a staged file, or the published one. *)
Definition progressed (v0 : tree) (m : Z) (data : bytes) (v : tree) : Prop :=
  v = v0 \/ (v0 !! stage = None /\ exists x, x `prefix_of` data /\ v = <[stage := NFile m x]> v0) \/
  (v0 !! pub = None /\ v = <[pub := NFile m data]> v0).

Lemma stage_pub : stage <> pub.
Proof. intros E. apply app_inj_2 in E as [E _]; [|done]. by apply app_inj_2 in E as [_ E]. Qed.

Lemma wp_publishStaged v0 m d (Q : W * FilePublisher -> res Error unit -> Prop) w p :
  plain name -> PRoot p = native rd -> layout rd v0 -> v0 !! stage = None -> v0 !! pub <> Some (NOther TSymlink) -> view w = <[stage := NFile m d]> v0 ->
  (forall w' p' r, (r = Panic -> KillAt p <> None) ->
     (r <> Ok tt /\ view w' = view w \/ v0 !! pub = None /\ view w' = <[pub := NFile m d]> v0) -> Q (w', p') r) ->
  wp (publishStaged (native stage) (native pub)) Q (w, p).
Proof.
  intros plain_name Hr Hlay Hs Hp Hv HQ. assert (Hlay1 : layout rd (view w)) by (rewrite Hv; apply layout_insert; [done|set_solver]).
  assert (Hns : view w !! pub = v0 !! pub) by (rewrite Hv; apply lookup_insert_ne, stage_pub).
  unfold publishStaged. apply wp_bind, wp_get_publisher, wp_bind, wp_checkpoint. intros r1 p1 [Hr1 Hk1] Hpan.
  destruct r1 as [[]|e|]; [|apply HQ; auto..].
  assert (Hstay : forall w' p' e, view w' = view w -> Q (w', p') (Err e)) by (intros; apply HQ; auto).
  apply wp_bind, wp_at_label, wp_sync_staged. intros w4 r4 Hv4 Hn4. destruct r4 as [[]|e4|]; cbn [map_err]; [|by apply Hstay|done].
  apply wp_bind, wp_at_label, wp_call. intros w5 r5 [Hv5 Hn5]%syncdir_spec. rewrite Hv4 in Hv5. destruct r5 as [[]|e5|]; cbn [map_err]; [|by apply Hstay|done].
  apply wp_bind, wp_checkpoint. intros r6 p6 [Hr6 Hk6] Hpan6. rewrite Hk1 in Hk6, Hpan6. destruct r6 as [[]|e6|]; [|by apply Hstay|by apply HQ; auto].
  assert (He : entry_at (view w5) (rd ++ [published_]) name) by (rewrite Hv5; apply layout_entry; [done|set_solver|done]).
  assert (Hse : entry_at (view w5) (rd ++ [staging]) name) by (rewrite Hv5; apply layout_entry; [done|set_solver|done]).
  apply wp_bind, wp_try, wp_first, wp_call. intros w7 r7 E7. pose proof (stat_any _ _ _ _ E7) as [Hv7 Hn7].
  apply stat_spec in E7; [|done|by rewrite Hv5, Hns].
  destruct r7 as [i|e7|]; [apply wp_throw, Hstay; congruence| |done]. wp_if; [apply wp_throw, Hstay; congruence|]. reflect_bools. subst e7.
  specialize (E7 eq_refl). rewrite Hv5, Hns in E7. rewrite Hv5 in Hv7.
  apply wp_bind, wp_at_label, wp_call. intros w8 r8 E8.
  eapply (rename_spec _ _ _ _ _ _ _ m d) in E8; [|by rewrite Hv7, <- Hv5..|by rewrite Hv7, Hv, lookup_insert_eq].
  rewrite Hv7 in E8. destruct r8 as [[]|e8|]; cbn [map_err]; [|by apply Hstay|done].
  rewrite Hv, delete_insert_id in E8 by done.
  assert (Hdone : forall w' p' r, (r = Panic -> KillAt p <> None) -> view w' = view w8 -> Q (w', p') r) by (intros w' p' r Hk Hw; apply HQ; [done|right; split; [done|congruence]]).
  apply wp_bind, wp_checkpoint. intros r9 p9 [Hr9 Hk9] Hpan9. rewrite Hk6 in Hpan9. destruct r9 as [[]|e9|]; [|by apply Hdone; auto..].
  apply wp_bind, wp_at_label, wp_call. intros w10 r10 [Hv10 Hn10]%syncdir_spec. destruct r10 as [[]|e10|]; cbn [map_err]; [|by apply Hdone|done].
  apply wp_at_label, wp_call. intros w11 r11 [Hv11 Hn11]%syncdir_spec. apply Hdone; [by destruct r11|congruence].
Qed.

Lemma wp_or_discard close (c : io W errno unit) v0 m x (Q : W * FilePublisher -> res Error unit -> Prop) w p :
  plain name -> layout rd v0 -> v0 !! stage = None -> view w = <[stage := NFile m x]> v0 ->
  (forall w' r, c w = (w', r) -> r <> Panic /\ exists x', view w' = <[stage := NFile m x']> v0 /\
     (r = Ok tt -> Q (w', p) (Ok tt)) /\ forall w1 e, view w1 = v0 \/ view w1 = <[stage := NFile m x']> v0 -> Q (w1, p) (Err e)) ->
  wp (or_discard (native stage) close c) Q (w, p).
Proof.
  intros Hn Hlay Hs Hv HQ. unfold or_discard. apply wp_bind, wp_try, wp_first, wp_call. intros w1 r1 E1.
  destruct (HQ w1 r1 E1) as (Hp & x' & Hv1 & Hok & Herr). destruct r1 as [[]|e1|]; [by apply wp_ret, Hok| |done].
  assert (Hrm : forall w2, view w2 = view w1 ->
    wp (io_bind (ignore (on_fst (Remove (native stage)))) (fun _ => throw (ioErr LabelPStageCreate))) Q (w2, p)).
  { intros w2 Hv2. apply wp_bind, wp_ignore, wp_first, wp_call. intros w3 r3 E3.
    apply remove_spec in E3; [|rewrite Hv2, Hv1; apply layout_entry; [apply layout_insert; [done|set_solver]|set_solver|done]].
    rewrite Hv2, Hv1 in E3. destruct r3 as [[]|e3|]; [| |done]; apply wp_throw, Herr; [left|by right]. by rewrite E3, delete_insert_id. }
  apply wp_bind. destruct close; [|by apply wp_ret, Hrm]. apply wp_ignore, wp_first, wp_call. intros w2 r2 [Hv2 Hn2]%close_spec.
  destruct r2 as [[]|e2|]; [by apply Hrm..|done].
Qed.

Lemma wp_Publish data (Q : W * FilePublisher -> res Error unit -> Prop) w p :
  PRoot p = native rd -> layout rd (view w) -> view w !! pub <> Some (NOther TSymlink) ->
  (forall w' p' r, (r = Panic -> KillAt p <> None) -> progressed (view w) 0x180 data (view w') ->
     (r = Ok tt -> view w' !! pub = Some (NFile 0x180 data)) -> Q (w', p') r) ->
  wp (Publish name data) Q (w, p).
Proof.
  intros Hr Hlay Hp HQ. unfold Publish. apply wp_bind, wp_get_publisher, wp_bind, wp_lift.
  assert (Hno : forall w' p' e, view w' = view w -> Q (w', p') (Err e)) by (intros w' p' e Hv; apply HQ; [done|by left|done]).
  destruct (validatePublishName name) as [[]|e|] eqn:En; [|by apply Hno|unfold validatePublishName in En; by repeat case_match].
  apply validatePublishName_plain in En.
  assert (Hrd : Forall plain rd) by apply Hlay. rewrite Hr, !Join_native by first [done|apply plain_names; set_solver|apply plain_snoc; [done|apply plain_names; set_solver]].
  apply wp_bind, wp_checkpoint. intros r1 p1 [Hr1 Hk1] Hpan. destruct r1 as [[]|e|]; [|by apply Hno|apply HQ; [done|by left|done]].
  apply wp_bind, wp_at_label, wp_call. intros w2 r2 E2. apply opennew_spec in E2; [|apply layout_entry; [done|set_solver|done]].
  destruct r2 as [[]|e2|]; cbn [map_err]; [|by apply Hno|done]. destruct E2 as [Hs Hv2].
  assert (Hstaged : forall w' p' r x, (r = Panic -> KillAt p <> None) -> x `prefix_of` data -> r <> Ok tt -> view w' = <[stage := NFile 0x180 x]> (view w) -> Q (w', p') r).
  { intros w' p' r x Hk Hx Hr' Hv. apply HQ; [done| |done]. right. left. eauto. }
  apply wp_bind. eapply wp_or_discard; [done..|]. intros w3 r3 E3.
  eapply writeend_spec in E3; [|rewrite Hv2; apply layout_entry; [apply layout_insert; [done|set_solver]|set_solver|done]|by rewrite Hv2, lookup_insert_eq].
  destruct E3 as (Hn3 & x & Hx & Hv3 & Hok3). rewrite Hv2, insert_insert_eq in Hv3. cbn [app] in Hv3. split; [done|].
  exists x. split; [done|]. split; [|intros w4 e [Hv4|Hv4]; [by apply Hno|by eapply Hstaged]].
  intros ->. specialize (Hok3 eq_refl). subst x. apply wp_bind. eapply wp_or_discard; [done..|]. intros w4 r4 [Hv4 Hn4]%close_spec.
  split; [done|]. exists data. split; [congruence|]. split; [|intros w5 e [Hv5|Hv5]; [by apply Hno|by eapply Hstaged]].
  intros ->. apply wp_bind. unfold set_stage_mechanism. apply wp_bind, wp_get_publisher. unfold wp. cbn [put_publisher fst snd].
  eapply wp_publishStaged; [done|by rewrite <- Hr, <- Hr1|done..|rewrite Hv4; exact Hv3|]. intros w' p' r Hk Hst. cbn in Hk. rewrite Hk1 in Hk.
  destruct Hst as [[Hne Hv']|[Hnp Hv']]; [eapply Hstaged; [done|reflexivity|done|congruence]|].
  apply HQ; [done| |].
  - right. right. done.
  - intros _. by rewrite Hv', lookup_insert_eq.
Qed.

(** From a source file: the content of the source at the time of the copy. *)
Lemma wp_PublishFrom src (Q : W * FilePublisher -> res Error unit -> Prop) w p :
  PRoot p = native rd -> layout rd (view w) -> view w !! pub <> Some (NOther TSymlink) ->
  (forall w' p' r, (r = Panic -> KillAt p <> None) -> (exists m data, progressed (view w) m data (view w')) ->
     (r = Ok tt -> exists m data, view w' !! pub = Some (NFile m data) /\
        forall es b, src = native (es ++ [b]) -> entry_at (view w) es b -> view w !! (es ++ [b]) <> Some (NOther TSymlink) ->
          exists m', view w !! (es ++ [b]) = Some (NFile m' data)) -> Q (w', p') r) ->
  wp (PublishFrom name src) Q (w, p).
Proof.
  intros Hr Hlay Hp HQ. unfold PublishFrom. apply wp_bind, wp_get_publisher, wp_bind, wp_lift.
  assert (Hno : forall w' p' e, view w' = view w -> Q (w', p') (Err e)) by (intros w' p' e Hv; apply HQ; [done|exists 0, []; by left|done]).
  destruct (validatePublishName name) as [[]|e|] eqn:En; [|by apply Hno|unfold validatePublishName in En; by repeat case_match].
  apply validatePublishName_plain in En. wp_if; [by apply wp_throw, Hno|].
  assert (Hrd : Forall plain rd) by apply Hlay. rewrite Hr, !Join_native by first [done|apply plain_names; set_solver|apply plain_snoc; [done|apply plain_names; set_solver]].
  apply wp_bind, wp_checkpoint. intros r1 p1 [Hr1 Hk1] Hpan. destruct r1 as [[]|e|]; [|by apply Hno|apply HQ; [done|exists 0, []; by left|done]].
  apply wp_bind, wp_at_label, wp_call. intros w2 r2 E2. apply clonefile_spec in E2; [|apply layout_entry; [done|set_solver|done]].
  destruct r2 as [mech|e2|]; cbn [map_err]; [| |done].
  2:{ destruct E2 as [E2|(Hs & m & d & E2)]; [by apply Hno|]. apply HQ; [done| |done]. exists m, d. right. left. eauto. }
  destruct E2 as (Hs & m & d & Hv2 & Hsrc). apply wp_bind. unfold set_stage_mechanism. apply wp_bind, wp_get_publisher. unfold wp. cbn [put_publisher fst snd].
  eapply wp_publishStaged; [done|by rewrite <- Hr, <- Hr1|done..|]. intros w' p' r Hk Hst. cbn in Hk. rewrite Hk1 in Hk.
  destruct Hst as [[Hne Hv']|[Hnp Hv']]; apply HQ; try done; [|exists m, d; right; by right|].
  - exists m, d. right. left. split; [done|]. exists d. split; [reflexivity|congruence].
  - intros _. exists m, d. by rewrite Hv', lookup_insert_eq.
Qed.

End Publication.

(** ** Observation *)

Section Observed.
Context {W : Type} `{PublishLaws W}.
Variable (rd : list bytes).

Definition occupied (v : tree) (d : bytes) : Prop := exists c, plain c /\ is_Some (v !! ((rd ++ [d]) ++ [c])).

Lemma wp_dirHasEntries d (Q : W -> res Error bool -> Prop) w :
  layout rd (view w) -> d ∈ [staging; published_; quarantine_] ->
  (forall w' r, view w' = view w -> r <> Panic -> (forall b, r = Ok b -> b = true <-> occupied (view w) d) -> Q w' r) ->
  wp (dirHasEntries (native (rd ++ [d]))) Q w.
Proof.
  intros Hlay Hd HQ. destruct (layout_dir rd (view w) d Hlay Hd) as [Hpl Hnl].
  unfold dirHasEntries. apply wp_bind, wp_try, wp_call. intros w1 r1 E1. pose proof E1 as Em. apply readdir_spec in E1 as [Hv1 Hr1]; [|done..].
  destruct r1 as [names|e|]; [| |done].
  - destruct Hr1 as [_ Hn]. apply wp_ret, HQ; [done..|]. intros b [= <-]. unfold occupied. split.
    + intros Hl. destruct names as [|c names]; [done|]. exists c. apply Hn. set_solver.
    + intros (c & Hc). apply Hn in Hc. destruct names; [by apply elem_of_nil in Hc|]. len_lia.
  - wp_if; [|by apply wp_throw, HQ]. reflect_bools. subst e. apply wp_ret, HQ; [done..|].
    apply readdir_missing in Em; [|done..]. destruct Hlay as (_ & _ & Hdir). destruct (Hdir d Hd) as [m Hm]. congruence.
Qed.

(** With nothing published but [name], the observation is what there is. *)
Lemma wp_Observation name m data rootID volID (Q : W -> res Error FSObservation -> Prop) w p :
  layout rd (view w) -> PRoot p = native rd -> ExpectedContent p = Some data -> plain name ->
  (forall c, view w !! ((rd ++ [published_]) ++ [c]) = None \/ c = name /\ view w !! ((rd ++ [published_]) ++ [c]) = Some (NFile m data)) ->
  (forall w' r, view w' = view w -> r <> Panic ->
     (forall obs, r = Ok obs -> (linearized obs = true <-> view w !! ((rd ++ [published_]) ++ [name]) = Some (NFile m data)) /\
        (StagingPresent obs = true <-> occupied (view w) staging)) -> Q w' r) ->
  wp (Observation rootID volID p) Q w.
Proof.
  intros Hlay Hr Hx Hn Honly HQ. assert (Hrd : Forall plain rd) by apply Hlay. unfold Observation.
  rewrite Hr, !Join_native by (done || apply plain_names; set_solver).
  apply wp_bind, wp_dirHasEntries; [done|set_solver|]. intros w1 r1 Hv1 Hn1 Hb1. destruct r1 as [st|e|]; [|by apply HQ|done]. specialize (Hb1 st eq_refl).
  apply wp_bind, wp_dirHasEntries; [by rewrite Hv1|set_solver|]. intros w2 r2 Hv2 Hn2 Hb2. rewrite Hv1 in Hv2, Hb2.
  destruct r2 as [pb|e|]; [|by apply HQ|done]. specialize (Hb2 pb eq_refl). destruct pb.
  2:{ apply wp_ret, HQ; [done..|]. intros obs [= <-]. split; [|done]. split; [done|]. intros Hs. exfalso. enough (false = true) by done. apply Hb2. by exists name. }
  destruct Hb2 as [(c & Hc & [n Hs]) _]; [done|]. destruct (Honly c) as [?|[-> Hs']]; [congruence|]. clear Hs n.
  rewrite Hx. apply wp_bind. unfold publishedMatches, external. apply wp_bind, wp_or_fail, wp_call. intros w3 r3 E3.
  destruct (layout_dir rd (view w2) published_) as [Hpl Hnl]; [by rewrite Hv2|set_solver|].
  apply readdir_spec in E3 as [Hv3 Hr3]; [|done..]. rewrite Hv2 in Hv3, Hr3. destruct r3 as [names|e|]; cbn [map_err]; [|by apply HQ|done].
  destruct Hr3 as [_ Hin]. destruct names as [|c0 names]; [exfalso; assert (E : name ∈ []) by (apply Hin; eauto); by apply elem_of_nil in E|].
  assert (Hc0 : plain c0 /\ is_Some (view w !! ((rd ++ [published_]) ++ [c0]))) by (apply Hin; set_solver).
  destruct Hc0 as [Hpc0 [n0 Hn0]]. destruct (Honly c0) as [?|[-> _]]; [congruence|]. rewrite Join_native by done.
  apply wp_bind, wp_or_fail, wp_call. intros w4 r4 E4. apply readfile_spec in E4 as [Hv4 Hr4]; [|by rewrite Hv3; apply layout_entry; [|set_solver|]|by rewrite Hv3, Hs'].
  rewrite Hv3 in Hv4, Hr4. destruct r4 as [got|e|]; cbn [map_err]; [|by apply HQ|done]. destruct Hr4 as [m4 Hr4]. rewrite Hs' in Hr4. injection Hr4 as <- <-.
  rewrite bool_decide_eq_true_2 by done. apply wp_ret, wp_ret, HQ; [done..|]. intros obs [= <-]. done.
Qed.

End Observed.

(** ** What the persistence does to the tree *)

Section Persisted.
Context {W : Type} `{PublishLaws W}.
Variable (rd : list bytes).
Abbreviation sg := (rd ++ [staging]).
Abbreviation qr := (rd ++ [quarantine_]).
Abbreviation lg := (rd ++ [confirm_log]).

(** Staging holds files, and the log is a file or absent. *)
Definition recoverable (v : tree) : Prop :=
  layout rd v /\ (forall c n, v !! (sg ++ [c]) = Some n -> exists m d, n = NFile m d) /\ (forall t, v !! lg <> Some (NOther t)).

Definition cleaned (v v' : tree) : Prop := forall q, v' !! q = v !! q \/ ((exists c, sg ++ [c] `prefix_of` q) /\ v' !! q = None).

Definition isolated (v v' : tree) : Prop := forall q, v' !! q = v !! q \/
  exists c n, (q = sg ++ [c] \/ q = qr ++ [c]) /\ v !! (sg ++ [c]) = Some n /\ v' !! (sg ++ [c]) = None /\ v' !! (qr ++ [c]) = Some n.

(** A part of one record is at the end of the log. *)
Definition logged (tx : bytes) (v v' : tree) : Prop := v' = v \/
  exists m d x, v' = <[lg := NFile m (d ++ x)]> v /\ x `prefix_of` (le_bytes 4 16 ++ tx) /\ (v !! lg = None /\ d = [] \/ v !! lg = Some (NFile m d)).

Definition effect (q : request) (v v' : tree) : Prop :=
  match q with Mark _ => v' = v | Clean => cleaned v v' | Isolate => isolated v v' | Confirm tx => logged tx v v' end.

Lemma isolated_step v v' e n : v !! (sg ++ [e]) = Some n ->
  isolated (<[qr ++ [e] := n]> (delete (sg ++ [e]) v)) v' -> isolated v v'.
Proof.
  intros Hn Hi. assert (Hd : forall a b, sg ++ [a] <> qr ++ [b]).
  { intros a b E. apply app_inj_2 in E as [E _]; [|done]. by apply app_inj_2 in E as [_ E]. }
  set (v1 := <[_ := _]> _) in *. assert (Hv1 : v1 !! (sg ++ [e]) = None) by (by unfold v1; rewrite lookup_insert_ne, lookup_delete_eq by done).
  assert (Hs : v' !! (sg ++ [e]) = None).
  { destruct (Hi (sg ++ [e])) as [->|(c & x & [E|E] & Hc & _)]; [done| |by apply Hd in E]. apply app_inj_2 in E as [_ [= <-]]; [|done]. congruence. }
  assert (Hq : v' !! (qr ++ [e]) = Some n).
  { destruct (Hi (qr ++ [e])) as [->|(c & x & [E|E] & Hc & _)]; [by unfold v1; rewrite lookup_insert_eq|symmetry in E; by apply Hd in E|].
    apply app_inj_2 in E as [_ [= <-]]; [|done]. congruence. }
  intros q. destruct (decide (q = sg ++ [e])) as [->|Hqs]; [right; exists e, n; auto|]. destruct (decide (q = qr ++ [e])) as [->|Hqq]; [right; exists e, n; auto|].
  destruct (Hi q) as [->|(c & x & Hc & Hx & Hs' & Hq')]; [left; by unfold v1; rewrite lookup_insert_ne, lookup_delete_ne by done|].
  right. exists c, x. split; [done|]. split; [|done]. unfold v1 in Hx. rewrite lookup_insert_ne in Hx by (intros E; symmetry in E; by apply Hd in E).
  by apply lookup_delete_Some in Hx as [_ Hx].
Qed.

(** The tree after a method, and the root it works on. *)
Definition leads (q : request) (w : W) (f : FilePersist) (x : W * FilePersist) (r : res Error unit) : Prop :=
  r <> Panic /\ effect q (view w) (view x.1) /\ FRoot x.2 = FRoot f.

Lemma wp_get_persist (Q : W * FilePersist -> res Error FilePersist -> Prop) w f : Q (w, f) (Ok f) -> wp get_persist Q (w, f).
Proof. done. Qed.

Lemma wp_Mark label w f : wp (file_Checkpoint label) (leads (Mark label) w f) (w, f).
Proof.
  unfold file_Checkpoint. apply wp_bind, wp_get_persist, wp_bind. unfold wp at 1. cbn [put_persist fst snd].
  wp_if; [done|]. wp_if; [|done]. apply wp_first, wp_or_fail, wp_call. intros w1 r1 [Hv1 Hn1]%syncdir_spec. by destruct r1.
Qed.

(** The listing of the staging directory. *)
Lemma wp_staged (k : list bytes -> io W Error unit) (Q : W -> res Error unit -> Prop) w :
  layout rd (view w) -> (forall w' r, view w' = view w -> r <> Panic -> Q w' r) ->
  (forall w' names, view w' = view w -> NoDup names -> Forall (fun c => plain c /\ is_Some (view w !! (sg ++ [c]))) names -> wp (k names) Q w') ->
  wp (entries_of (native sg) k tt) Q w.
Proof.
  intros Hlay Hstay Hk. destruct (layout_dir rd (view w) staging Hlay) as [Hpl Hnl]; [set_solver|]. unfold entries_of.
  apply wp_bind, wp_try, wp_call. intros w1 r1 [Hv1 Hr1]%readdir_spec; [|done..]. destruct r1 as [names|e|]; [| |done].
  - destruct Hr1 as [Hd Hn]. apply Hk; [done..|]. apply Forall_forall. intros c. apply Hn.
  - wp_if; [by apply wp_ret, Hstay|by apply wp_throw, Hstay].
Qed.

Lemma cleaned_refl v : cleaned v v.
Proof. by left. Qed.

Lemma cleaned_trans v1 v2 v3 : cleaned v1 v2 -> cleaned v2 v3 -> cleaned v1 v3.
Proof. intros Ha Hb q. destruct (Hb q) as [->|?]; [apply Ha|by right]. Qed.

Lemma layout_cleaned v v' : layout rd v -> cleaned v v' -> layout rd v'.
Proof.
  intros (Hrd & Hl & Hd) Hc.
  assert (Hkeep : forall q, (length q <= length rd + 1)%nat -> v' !! q = v !! q).
  { intros q Hlen. destruct (Hc q) as [?|[[c Hp%prefix_length] _]]; [done|]. rewrite !length_app in Hp. cbn in Hp. lia. }
  split_and!; [done| |].
  - intros p Hp. rewrite Hkeep; [by apply Hl|]. apply prefix_length in Hp. lia.
  - intros d Hin. rewrite Hkeep; [by apply Hd|]. rewrite length_app. cbn. lia.
Qed.

Lemma wp_remove_entries names (Q : W -> res Error unit -> Prop) w :
  layout rd (view w) -> Forall plain names -> (forall w' r, cleaned (view w) (view w') -> r <> Panic -> Q w' r) -> wp (remove_entries (native sg) names) Q w.
Proof.
  intros Hlay Hp HQ. revert w Hlay HQ. induction Hp as [|c names Hc Hp IH]; intros w Hlay HQ; cbn [remove_entries].
  - apply wp_or_fail, wp_call. intros w1 r1 [Hv1 Hn1]%syncdir_spec. apply HQ; [rewrite Hv1; apply cleaned_refl|by destruct r1].
  - destruct (layout_dir rd (view w) staging Hlay) as [Hpl Hnl]; [set_solver|]. rewrite Join_native by done.
    apply wp_bind, wp_ignore_any. intros w1 r1 E1. apply removeall_spec in E1 as [Hn1 Hf1]; [|done]. split; [done|].
    assert (Hc1 : cleaned (view w) (view w1)) by (intros q; destruct (Hf1 q) as [?|[? ?]]; eauto).
    apply IH; [by eapply layout_cleaned|]. intros w' r Hc' Hr. apply HQ; [by eapply cleaned_trans|done].
Qed.

Lemma wp_Clean w f : FRoot f = native rd -> layout rd (view w) -> wp file_CleanupStaging (leads Clean w f) (w, f).
Proof.
  intros Hr Hlay. unfold file_CleanupStaging. apply wp_bind, wp_get_persist, wp_first. rewrite Hr, Join_native by (apply Hlay || apply plain_names; set_solver).
  apply wp_staged; [done|intros w' r Hv Hn; split_and!; cbn; [done|rewrite Hv; apply cleaned_refl|done]|].
  intros w1 names Hv1 _ Hp. apply wp_remove_entries; [by rewrite Hv1|eapply Forall_impl; [exact Hp|by intros c [? _]]|].
  intros w' r Hc Hn. rewrite Hv1 in Hc. done.
Qed.

Lemma isolated_refl v : isolated v v.
Proof. by left. Qed.

Lemma wp_move_entries names (Q : W -> res Error unit -> Prop) w :
  layout rd (view w) -> NoDup names -> Forall (fun c => plain c /\ exists m d, view w !! (sg ++ [c]) = Some (NFile m d)) names ->
  (forall w' r, isolated (view w) (view w') -> r <> Panic -> Q w' r) -> wp (move_entries (native sg) (native qr) names) Q w.
Proof.
  intros Hlay Hd Hp HQ. revert w Hlay Hp HQ. induction Hd as [|c names Hc Hd IH]; intros w Hlay Hp HQ; cbn [move_entries].
  - apply wp_bind, wp_ignore_any. intros w1 r1 [Hv1 Hn1]%syncdir_spec. split; [done|]. apply wp_or_fail, wp_call. intros w2 r2 [Hv2 Hn2]%syncdir_spec.
    apply HQ; [rewrite Hv2, Hv1; apply isolated_refl|by destruct r2].
  - apply Forall_cons in Hp as [[Hpc (m & d & Hm)] Hp].
    destruct (layout_dir rd (view w) staging Hlay) as [Hpl Hnl]; [set_solver|]. destruct (layout_dir rd (view w) quarantine_ Hlay) as [Hpq Hnq]; [set_solver|].
    rewrite !Join_native by done. apply wp_bind, wp_try, wp_call. intros w1 r1 E1. eapply rename_spec in E1; [|done..].
    destruct r1 as [[]|e|]; [| |done].
    + assert (Hlay1 : layout rd (view w1)) by (rewrite E1; apply layout_insert; [by apply layout_delete|set_solver]).
      apply IH; [done| |intros w' r Hi Hr; apply HQ; [|done]; eapply isolated_step; [exact Hm|by rewrite <- E1]].
      apply Forall_forall. intros c' Hc'. rewrite Forall_forall in Hp. destruct (Hp c' Hc') as [? ?]. split; [done|].
      rewrite E1, lookup_insert_ne, lookup_delete_ne; [done|..].
      * intros E. apply app_inj_2 in E as [_ [= ->]]; done.
      * intros E. apply app_inj_2 in E as [E _]; [|done]. by apply app_inj_2 in E as [_ E].
    + wp_if; [apply wp_throw, HQ; [rewrite E1; apply isolated_refl|done]|]. apply IH; rewrite E1; done.
Qed.

Lemma wp_Isolate w f : FRoot f = native rd -> recoverable (view w) -> wp file_QuarantineStaging (leads Isolate w f) (w, f).
Proof.
  intros Hr (Hlay & Hst & _). unfold file_QuarantineStaging. apply wp_bind, wp_get_persist, wp_first.
  rewrite Hr, !Join_native by (apply Hlay || apply plain_names; set_solver).
  apply wp_staged; [done|intros w' r Hv Hn; split_and!; cbn; [done|rewrite Hv; apply isolated_refl|done]|].
  intros w1 names Hv1 Hd Hp. apply wp_move_entries; [by rewrite Hv1|done| |intros w' r Hi Hn; rewrite Hv1 in Hi; done].
  rewrite Hv1. eapply Forall_impl; [exact Hp|]. intros c [Hc [n Hn]]. split; [done|]. destruct (Hst c n Hn) as (m & d & ->). eauto.
Qed.

Lemma wp_or_close path (c : io W errno unit) (Q : W -> res Error unit -> Prop) w :
  (forall w' r, c w = (w', r) -> r <> Panic /\ (r = Ok tt -> Q w' (Ok tt)) /\ forall w1 e, view w1 = view w' -> Q w1 (Err e)) -> wp (or_close path c) Q w.
Proof.
  intros HQ. unfold or_close. apply wp_bind, wp_try, wp_call. intros w1 r1 E1. destruct (HQ w1 r1 E1) as (Hn & Hok & Herr).
  destruct r1 as [[]|e|]; [by apply wp_ret, Hok| |done]. apply wp_bind, wp_ignore_any. intros w2 r2 [Hv2 Hn2]%close_spec. split; [done|]. by apply wp_throw, Herr.
Qed.

Lemma wp_Confirm tx payload w f : FRoot f = native rd -> recoverable (view w) -> wp (file_AppendConfirmation tx payload) (leads (Confirm tx) w f) (w, f).
Proof.
  intros Hr (Hlay & _ & Hlog). pose proof (layout_log rd _ Hlay) as Hel. unfold file_AppendConfirmation. apply wp_bind, wp_get_persist, wp_bind, wp_first.
  rewrite Hr, Join_native by (apply Hlay || apply plain_names; set_solver).
  set (Q := fun w' (r : res Error unit) => r <> Panic /\ logged tx (view w) (view w')).
  enough (Hq : wp (append_record (native lg) tx) Q w).
  { eapply wp_mono; [exact Hq|]. intros w' r [Hn Hl]. destruct r as [[]|e|]; [|done..]. by split_and!. }
  unfold append_record. apply wp_bind, wp_or_fail, wp_call. intros w1 r1 E1. apply openappend_spec in E1; [|done..].
  destruct r1 as [[]|e|]; cbn [map_err]; [|by split; [|left]|done].
  assert (Hopen : exists m d, view w1 !! lg = Some (NFile m d) /\ (view w !! lg = None /\ d = [] \/ view w !! lg = Some (NFile m d)) /\
    forall y, <[lg := NFile m y]> (view w1) = <[lg := NFile m y]> (view w)).
  { destruct E1 as [[Hn ->]|(-> & m & d & Hm)].
    - exists 0x1A4, []. rewrite lookup_insert_eq. split_and!; [done|by left|]. intros y. by rewrite insert_insert_eq.
    - exists m, d. auto. }
  destruct Hopen as (m & d & Hm1 & Hold & Hins).
  assert (Hlogged : forall w' r x, r <> Panic -> x `prefix_of` le_bytes 4 16 ++ tx -> view w' = <[lg := NFile m (d ++ x)]> (view w1) -> Q w' r).
  { intros w' r x Hn Hx Hv. split; [done|]. right. exists m, d, x. by rewrite Hv, Hins. }
  assert (Hel1 : entry_at (view w1) rd confirm_log).
  { destruct Hel as (? & ? & Hnl). split_and!; [done..|]. intros p Hp. destruct E1 as [[_ ->]|[-> _]]; [|by apply Hnl].
    rewrite lookup_insert_ne; [by apply Hnl|]. intros <-. by apply prefix_snoc_not in Hp. }
  apply wp_bind, wp_or_close. intros w2 r2 E2. eapply writeend_spec in E2 as (Hn2 & x & Hx & Hv2 & Hok2); [|done..]. split; [done|].
  split; [|intros w3 e Hv3; eapply Hlogged; [done| |by rewrite Hv3]; by apply prefix_app_r].
  intros ->. specialize (Hok2 eq_refl). subst x. assert (Hel2 : entry_at (view w2) rd confirm_log).
  { destruct Hel1 as (? & ? & Hnl). split_and!; [done..|]. rewrite Hv2. eapply evolves_nolink; [by apply (evolves_insert (fun _ => True) (fun _ => False))|done]. }
  apply wp_bind, wp_or_close. intros w3 r3 E3. eapply writeend_spec in E3 as (Hn3 & x & Hx3 & Hv3 & Hok3); [|done|by rewrite Hv2, lookup_insert_eq]. split; [done|].
  rewrite Hv2, insert_insert_eq, <- app_assoc in Hv3.
  split; [|intros w4 e Hv4; eapply Hlogged; [done| |by rewrite Hv4]; by apply prefix_app].
  intros ->. specialize (Hok3 eq_refl). subst x.
  assert (Hend : forall w' r, r <> Panic -> view w' = view w3 -> Q w' r) by (intros w' r Hn Hv; eapply Hlogged; [done|reflexivity|congruence]).
  apply wp_bind, wp_or_close. intros w4 r4 [Hv4 Hn4]%sync_spec. split; [done|]. split; [|intros w5 e Hv5; apply Hend; [done|congruence]].
  intros _. apply wp_or_fail, wp_call. intros w5 r5 [Hv5 Hn5]%close_spec. apply Hend; [by destruct r5|congruence].
Qed.

Lemma effect_refl q v : effect q v v.
Proof. destruct q; [done|apply cleaned_refl|apply isolated_refl|by left]. Qed.

Lemma wp_request q w f : FRoot f = native rd -> recoverable (view w) ->
  exists r, run_request q (w, f) = (let '(x, _) := run_request q (w, f) in x, error_of r) /\ leads q w f (run_request q (w, f)).1 r.
Proof.
  intros Hr Hv. destruct q as [l| | |tx]; cbn [run_request Checkpoint CleanupStaging QuarantineStaging AppendConfirmation FilePersist_PersistIO]; unfold method.
  - destruct (file_Checkpoint l (w, f)) as [x r] eqn:E. exists r. split; [done|]. exact (wp_run _ _ _ _ _ (wp_Mark l w f) E).
  - destruct (file_CleanupStaging (w, f)) as [x r] eqn:E. exists r. split; [done|]. exact (wp_run _ _ _ _ _ (wp_Clean w f Hr (proj1 Hv)) E).
  - destruct (file_QuarantineStaging (w, f)) as [x r] eqn:E. exists r. split; [done|]. exact (wp_run _ _ _ _ _ (wp_Isolate w f Hr Hv) E).
  - destruct (file_AppendConfirmation tx [] (w, f)) as [x r] eqn:E. exists r. split; [done|]. exact (wp_run _ _ _ _ _ (wp_Confirm tx [] w f Hr Hv) E).
Qed.

(** A request between two checkpoints. *)
Lemma run_between a q b w f : FRoot f = native rd -> recoverable (view w) -> effect q (view w) (view (run_requests [Mark a; q; Mark b] (w, f)).1.1).
Proof.
  intros Hr Hv. destruct (wp_request (Mark a) w f Hr Hv) as (r1 & E1 & _ & He1 & Hf1). cbn [run_requests]. rewrite E1.
  destruct (run_request (Mark a) (w, f)) as [[w1 f1] e1]. cbn [fst snd] in *. cbn in He1. rewrite <- He1 in Hv |- *.
  destruct (error_of r1); [apply effect_refl|]. rewrite <- Hf1 in Hr. destruct (wp_request q w1 f1 Hr Hv) as (r2 & E2 & _ & He2 & Hf2). rewrite E2.
  destruct (run_request q (w1, f1)) as [[w2 f2] e2]. cbn [fst snd] in *. destruct (error_of r2); [done|].
  pose proof (wp_Mark b w2 f2) as (_ & He3 & _). cbn [effect run_request Checkpoint FilePersist_PersistIO] in *. unfold method.
  unfold leads in He3. destruct (file_Checkpoint b (w2, f2)) as [[w3 f3] r3]. cbn [fst snd] in *. destruct (error_of r3); cbn [fst]; by rewrite He3.
Qed.

(** What a recovery does to the tree. *)
Definition recovery_effect (obs : FSObservation) (policy : Policy) (v v' : tree) : Prop :=
  v' = v \/ (AllowStagingCleanup policy = true /\ (cleaned v v' \/ isolated v v')) \/
  (AllowConfirm policy = true /\ linearized obs = true /\ exists tx, logged tx v v').

Lemma Recover_on_files prefix obs policy ev w f wr out err : FRoot f = native rd -> recoverable (view w) ->
  Recover prefix obs policy (mkWorld (Some (w, f)) ev) = Ok (wr, out, err) ->
  exists w' f', wio wr = Some (w', f') /\ recovery_effect obs policy (view w) (view w').
Proof.
  intros Hr Hv E. apply Recover_asks with (p := (w, f)) in E as (qs & [Hw _] & Hq); [|done]. rewrite Hw.
  destruct (run_requests qs (w, f)) as [[w' f'] e] eqn:Er. exists w', f'. split; [done|].
  assert (Hw' : w' = (run_requests qs (w, f)).1.1) by (by rewrite Er). rewrite Hw'. unfold recovery_effect.
  destruct Hq as [->|[[Ha [->| ->]]|(Ha & Hl & tx & ->)]]; [by left|right; left..|right; right].
  - split; [done|]. left. apply (run_between _ Clean); done.
  - split; [done|]. right. apply (run_between _ Isolate); done.
  - split_and!; [done..|]. exists tx. apply (run_between _ (Confirm tx)); done.
Qed.

End Persisted.

(** ** Publication, observation, recovery *)

Lemma same_dir {A} (l : list A) x y q : l ++ [x] `prefix_of` q -> l ++ [y] `prefix_of` q -> x = y.
Proof. intros [a ->] [b E]. rewrite <- !app_assoc in E. apply app_inv_head in E. by injection E. Qed.

Section Frames.
Variable (rd : list bytes).

Lemma effect_frame obs policy v v' q : recovery_effect rd obs policy v v' ->
  ~ rd ++ [staging] `prefix_of` q -> ~ rd ++ [quarantine_] `prefix_of` q -> q <> rd ++ [confirm_log] -> v' !! q = v !! q.
Proof.
  intros He Hs Hq Hl. destruct He as [->|[[_ [Hc|Hi]]|(_ & _ & tx & [->|(m & d & x & -> & _)])]]; [done| | |done|by rewrite lookup_insert_ne by done].
  - destruct (Hc q) as [?|[[c Hp] _]]; [done|]. exfalso. apply Hs. etrans; [|exact Hp]. by exists [c].
  - destruct (Hi q) as [?|(c & n & [->| ->] & _)]; [done|exfalso; apply Hs; by exists [c]|exfalso; apply Hq; by exists [c]].
Qed.

Lemma effect_published obs policy v v' q : recovery_effect rd obs policy v v' -> rd ++ [published_] `prefix_of` q -> v' !! q = v !! q.
Proof.
  intros He Hp. eapply effect_frame; [exact He|..].
  - intros Hs. by pose proof (same_dir _ _ _ _ Hp Hs).
  - intros Hs. by pose proof (same_dir _ _ _ _ Hp Hs).
  - intros ->. by pose proof (same_dir _ _ _ _ Hp (reflexivity _)).
Qed.

Lemma effect_log obs policy v v' : recovery_effect rd obs policy v v' -> v' !! (rd ++ [confirm_log]) <> v !! (rd ++ [confirm_log]) ->
  AllowConfirm policy = true /\ linearized obs = true.
Proof.
  intros He Hn. destruct He as [->|[[_ [Hc|Hi]]|(? & ? & _)]]; [done| | |done].
  - destruct (Hc (rd ++ [confirm_log])) as [?|[[c Hp%prefix_length] _]]; [done|]. rewrite !length_app in Hp. cbn in Hp. lia.
  - destruct (Hi (rd ++ [confirm_log])) as [?|(c & n & [E|E] & _)]; [done|..]; apply (f_equal length) in E; rewrite !length_app in E; cbn in E; lia.
Qed.

Lemma effect_staged obs policy v v' c n : recovery_effect rd obs policy v v' -> v !! ((rd ++ [staging]) ++ [c]) = Some n ->
  v' !! ((rd ++ [staging]) ++ [c]) = Some n \/ AllowStagingCleanup policy = true /\ v' !! ((rd ++ [staging]) ++ [c]) = None.
Proof.
  intros He Hn. destruct He as [->|[[Ha [Hc|Hi]]|(_ & _ & tx & [->|(m & d & x & -> & _)])]]; [by left| | |by left|].
  - destruct (Hc ((rd ++ [staging]) ++ [c])) as [->|[_ ?]]; auto.
  - destruct (Hi ((rd ++ [staging]) ++ [c])) as [->|(c' & n' & [E|E] & _ & Hs & _)]; [auto| |].
    + apply app_inj_2 in E as [_ [= <-]]; [|done]. auto.
    + apply app_inj_2 in E as [E _]; [|done]. by apply app_inj_2 in E as [_ E].
  - left. rewrite lookup_insert_ne; [done|]. intros E%(f_equal length). rewrite !length_app in E. cbn in E. lia.
Qed.

(** An empty layout: nothing staged and nothing published. *)
Definition fresh (v : tree) : Prop :=
  recoverable rd v /\ forall d c, d ∈ [staging; published_] -> v !! ((rd ++ [d]) ++ [c]) = None.

Lemma progressed_recoverable name m data v0 v : fresh v0 -> progressed rd name v0 m data v -> recoverable rd v /\
  (forall c, v !! ((rd ++ [published_]) ++ [c]) = None \/ c = name /\ v !! ((rd ++ [published_]) ++ [c]) = Some (NFile m data)) /\
  forall q, q <> (rd ++ [staging]) ++ [name] -> q <> (rd ++ [published_]) ++ [name] -> v !! q = v0 !! q.
Proof.
  intros [(Hlay & Hst & Hlog) Hf] Hp. assert (Hlen : forall d c d', (rd ++ [d]) ++ [c] <> rd ++ [d']).
  { intros d c d' E%(f_equal length). rewrite !length_app in E. cbn in E. lia. }
  assert (Hne : forall a b, (rd ++ [staging]) ++ [a] <> (rd ++ [published_]) ++ [b]).
  { intros a b E. apply app_inj_2 in E as [E _]; [|done]. by apply app_inj_2 in E as [_ E]. }
  destruct Hp as [->|[(Hn & x & Hx & ->)|[Hn ->]]].
  - split; [done|]. split; [|done]. intros c. left. apply Hf. set_solver.
  - split; [split_and!; [apply layout_insert; [done|set_solver]| |by intros t; rewrite lookup_insert_ne by done]|split].
    + intros c n. destruct (decide (c = name)) as [->|Hc]; [rewrite lookup_insert_eq; intros [= <-]; eauto|].
      rewrite lookup_insert_ne; [apply Hst|]. intros E. by apply app_inj_2 in E as [_ [= E]].
    + intros c. left. rewrite lookup_insert_ne by done. apply Hf. set_solver.
    + intros q Hq _. by rewrite lookup_insert_ne.
  - split; [split_and!; [apply layout_insert; [done|set_solver]| |by intros t; rewrite lookup_insert_ne by done]|split].
    + intros c n. rewrite lookup_insert_ne by (intros E; symmetry in E; by apply Hne in E). apply Hst.
    + intros c. destruct (decide (c = name)) as [->|Hc]; [right; by rewrite lookup_insert_eq|]. left.
      rewrite lookup_insert_ne; [apply Hf; set_solver|]. intros E. by apply app_inj_2 in E as [_ [= E]].
    + intros q _ Hq. by rewrite lookup_insert_ne.
Qed.

End Frames.

(** C6. Publication survives a crash at any point.  An object is published in an empty
    layout; the publisher may fail at any call or be killed at any of its labels.  Then the
    tree is observed and recovery runs on it, with any journal prefix and policy, and any
    call may fail again.  The published object is not there or whole, and it is there when
    the publisher returned without error; the observation calls the publication linearized
    exactly when it is there; recovery leaves everything below published/ as it is, reports
    PUBLISHED or CONFIRMED only when the object is there, and writes to the log of
    confirmations only then; what was staged is kept unless the policy allows to clear
    staging; and nothing outside these directories changes. *)
Theorem publish_recover {W} `{PublishLaws W} rd name data p p' f (w0 w1 w2 : W) p1 r1 rootID volID obs prefix policy ev wr out err :
  fresh rd (view w0) -> plain name -> PRoot p = native rd -> PRoot p' = native rd -> ExpectedContent p' = Some data -> FRoot f = native rd ->
  Publish name data (w0, p) = (w1, p1, r1) -> Observation rootID volID p' w1 = (w2, Ok obs) ->
  Recover prefix obs policy (mkWorld (Some (w2, f)) ev) = Ok (wr, out, err) ->
  let pub := (rd ++ [published_]) ++ [name] in
  let stage := (rd ++ [staging]) ++ [name] in
  let whole := Some (NFile 0x180 data) in
  (r1 = Panic -> KillAt p <> None) /\ (view w1 !! pub = None \/ view w1 !! pub = whole) /\ (r1 = Ok tt -> view w1 !! pub = whole) /\
  (linearized obs = true <-> view w1 !! pub = whole) /\
  exists w3 f3, wio wr = Some (w3, f3) /\
    (forall q, rd ++ [published_] `prefix_of` q -> view w3 !! q = view w1 !! q) /\
    (Published out = true \/ OState out = Some StatePublished \/ OState out = Some StateConfirmed -> view w3 !! pub = whole) /\
    (view w3 !! (rd ++ [confirm_log]) <> view w0 !! (rd ++ [confirm_log]) -> AllowConfirm policy = true /\ view w3 !! pub = whole) /\
    (forall n, view w1 !! stage = Some n -> view w3 !! stage = Some n \/ AllowStagingCleanup policy = true /\ view w3 !! stage = None) /\
    (forall q, ~ rd ++ [staging] `prefix_of` q -> ~ rd ++ [quarantine_] `prefix_of` q -> q <> pub -> q <> rd ++ [confirm_log] -> view w3 !! q = view w0 !! q).
Proof.
  intros Hfr Hn Hr Hr' Hx Hf E1 E2 E3 pub stage whole. destruct (Hfr) as [(Hlay & _) Hempty].
  assert (HA : (r1 = Panic -> KillAt p <> None) /\ progressed rd name (view w0) 0x180 data (view w1) /\ (r1 = Ok tt -> view w1 !! pub = whole)).
  { refine (wp_run _ (fun x r => (r = Panic -> KillAt p <> None) /\ progressed rd name (view w0) 0x180 data (view x.1) /\ (r = Ok tt -> view x.1 !! pub = whole)) _ _ _ _ E1).
    apply (wp_Publish rd); [done..| |auto]. rewrite Hempty; [done|set_solver]. }
  destruct HA as (Hk & Hprog & Hok). destruct (progressed_recoverable _ _ _ _ _ _ Hfr Hprog) as (Hrec & Honly & Hkeep). split; [done|].
  assert (Hpub : view w1 !! pub = None \/ view w1 !! pub = whole) by (destruct (Honly name) as [?|[_ ?]]; auto). split; [done|]. split; [done|].
  assert (HB : view w2 = view w1 /\ (linearized obs = true <-> view w1 !! pub = whole)).
  { enough (Hw : wp (Observation rootID volID p') (fun x r => view x = view w1 /\ forall o, r = Ok o -> linearized o = true <-> view w1 !! pub = whole) w1).
    { destruct (wp_run _ _ _ _ _ Hw E2) as [? Ho]. split; [done|by apply Ho]. }
    eapply (wp_Observation rd name); [apply Hrec|done..|]. intros w' r Hv _ Hobs. split; [done|]. intros o Hr0. by apply (Hobs o Hr0). }
  destruct HB as [Hv2 Hlin]. split; [done|]. pose proof (Recover_outcome prefix obs policy _ _ _ _ E3) as Hsound.
  rewrite <- Hv2 in Hrec. apply (Recover_on_files rd) in E3 as (w3 & f3 & Hw3 & He); [|done..]. rewrite Hv2 in He.
  exists w3, f3. split; [done|]. assert (Hkeep3 : forall q, rd ++ [published_] `prefix_of` q -> view w3 !! q = view w1 !! q) by (intros q; by eapply effect_published).
  assert (Hpub3 : view w3 !! pub = view w1 !! pub) by (apply Hkeep3; by exists [name]). split; [done|]. rewrite Hpub3. split_and!.
  - intros Ho. by apply Hlin, Hsound.
  - intros Hl. rewrite <- Hlin. eapply effect_log; [exact He|]. rewrite (Hkeep (rd ++ [confirm_log])); [done|..]; intros E%(f_equal length); rewrite !length_app in E; cbn in E; lia.
  - intros n Hs. by eapply effect_staged.
  - intros q Hs Hq Hp Hl. rewrite (effect_frame _ _ _ _ _ _ He) by done. apply Hkeep; [|done]. intros ->. apply Hs. by exists [name].
Qed.

(** ** The tree in memory *)

#[global] Instance MemFS_PublishCalls : PublishCalls MemFS := {
  Stat p := on_node p (fun _ n => if bool_decide (ftype n = TSymlink) then throw EOther else ret (info_of n));
  OpenNew p m := CreateExcl p m;
  OpenAppend p m := scripted (fun w =>
    let cs := clean_components p in
    match nodes w !! cs with
    | None => (with_nodes w (<[cs := NFile m []]> (nodes w)), Ok tt)
    | Some (NFile _ _) => (w, Ok tt)
    | _ => (w, Err EOther)
    end);
  WriteEnd p data := on_node p (fun cs n =>
    match n with
    | NFile m d => fun w => (with_nodes w (<[cs := NFile m (d ++ data)]> (nodes w)), Ok tt)
    | _ => throw EOther
    end);
  RemoveAll p := scripted (fun w => (with_nodes w (filter (fun x => ~ clean_components p `prefix_of` x.1) (nodes w)), Ok tt));
  CloneFile dst src := scripted (fun w =>
    match nodes w !! clean_components dst, nodes w !! clean_components src with
    | None, Some (NFile m d) => (with_nodes w (<[clean_components dst := NFile m d]> (nodes w)), Ok "copy"%string)
    | _, _ => (w, Err EOther)
    end) }.

Lemma node_cases {A} (k : list bytes -> node -> io MemFS errno A) ds c w w' r : entry_at (nodes w) ds c -> on_node (native (ds ++ [c])) k w = (w', r) ->
  (nodes w' = nodes w /\ exists e, r = Err e /\ (e = ENOENT -> nodes w !! (ds ++ [c]) = None)) \/
  (exists w1 n, nodes w1 = nodes w /\ nodes w !! (ds ++ [c]) = Some n /\ k (ds ++ [c]) n w1 = (w', r)).
Proof. intros He. apply on_node_inv. by apply (entry_components (nodes w)). Qed.

#[global] Program Instance MemFS_PublishLaws : PublishLaws MemFS.
Next Obligation.
  intros w w' cs Hp Hl E. cbn [OpenAppend RemoveAll CloneFile ReadDir MemFS_FileSystem MemFS_PublishCalls] in E. apply scripted_inv in E as [(_ & e & [= <-] & Hn)|(w1 & _ & E)]; done.
Qed.
Next Obligation.
  intros w w' r p E. apply (on_node_inv _ _ _ _ _ _ eq_refl) in E as [(Hv & e & -> & _)|(w1 & n & Hw & _ & E)]; [done|].
  destruct (bool_decide _); injection E as <- <-; done.
Qed.
Next Obligation.
  intros w w' r ds c He Hl E. apply node_cases in E as [(Hv & e & -> & Hn)|(w1 & n & Hw & Hn & E)]; [done| |done].
  rewrite bool_decide_eq_false_2 in E; [injection E as <- <-; eauto|]. intros Ht. apply Hl. 
  clear E. destruct n as [m|m d|t]; cbn in Ht; [done..|]. by destruct t.
Qed.
Next Obligation. intros w w' r ds c m He E. by apply createexcl_spec in E. Qed.
Next Obligation.
  intros w w' r ds c m He Ht E. cbn [OpenAppend RemoveAll CloneFile ReadDir MemFS_FileSystem MemFS_PublishCalls] in E. apply scripted_inv in E as [(Hv & e & -> & _)|(w1 & Hw & E)]; [done|]. cbv zeta in E.
  rewrite (entry_components _ _ _ He), Hw in E. cbn [view MemFS_laws] in *. destruct (nodes w !! (ds ++ [c])) as [[]|] eqn:En; injection E as <- <-; cbn; rewrite ?Hw; eauto 6.
Qed.
Next Obligation.
  intros w w' r ds c m d data He Hn E. apply node_cases in E as [(Hv & e & -> & _)|(w1 & n & Hw & Hn1 & E)]; [| |done].
  - split; [done|]. exists []. split; [apply prefix_nil|]. split; [|done]. cbn in *. by rewrite app_nil_r, insert_id.
  - cbn in *. rewrite Hn in Hn1. injection Hn1 as <-. injection E as <- <-. split; [done|]. exists data. cbn. by rewrite Hw.
Qed.
Next Obligation.
  intros w w' r ds c He E. cbn [OpenAppend RemoveAll CloneFile ReadDir MemFS_FileSystem MemFS_PublishCalls] in E. apply scripted_inv in E as [(Hv & e & -> & _)|(w1 & Hw & E)]; [split; [done|]; intros q; left; by cbn; rewrite Hv|].
  rewrite (entry_components _ _ _ He) in E. injection E as <- <-. split; [done|]. intros q. cbn. rewrite Hw.
  destruct (decide (ds ++ [c] `prefix_of` q)) as [Hp|Hp]; [right|left].
  - split; [done|]. apply map_lookup_filter_None. right. intros x _ Hx. by apply Hx.
  - destruct (nodes w !! q) as [x|] eqn:Eq; [by apply map_lookup_filter_Some|]. apply map_lookup_filter_None. by left.
Qed.
Next Obligation.
  intros w w' r ds c src He E. cbn [OpenAppend RemoveAll CloneFile ReadDir MemFS_FileSystem MemFS_PublishCalls] in E. apply scripted_inv in E as [(Hv & e & -> & _)|(w1 & Hw & E)]; [by left|].
  rewrite (entry_components _ _ _ He), Hw in E. cbn [view MemFS_laws] in *. destruct (nodes w !! (ds ++ [c])) eqn:Ed; [injection E as <- <-; by left|].
  destruct (nodes w !! clean_components src) as [[|m d|]|] eqn:Es; injection E as <- <-; try (by left).
  split; [done|]. exists m, d. cbn. split; [by rewrite ?Hw|]. intros es b -> Hes _. rewrite (entry_components _ _ _ Hes) in Es. eauto.
Qed.

(** ** Runs *)

Definition publish_tree : tree := list_to_map
  [([], NDir 493); ([str "r"], NDir 493); ([str "r"; staging], NDir 493); ([str "r"; published_], NDir 493); ([str "r"; quarantine_], NDir 493)].

(** Killed between the rename and the sync of the directory. *)
Definition killed_publisher : FilePublisher := mkPublisher (str "/r") None (Some LabelPPublishDirSync) None "" [].
Definition new_publisher : FilePublisher := mkPublisher (str "/r") None None (Some (str "hi")) "" [].
Definition persist_demo : FilePersist := mkPersist (str "/r") None [] 0.

Definition publish_demo : MemFS * FilePublisher * res Error unit := Publish (str "o") (str "hi") (mkMemFS publish_tree [] 7, killed_publisher).
Definition observe_demo : MemFS * res Error FSObservation := Observation (zeros 32) (zeros 32) new_publisher publish_demo.1.1.
Definition recover_demo : World (MemFS * FilePersist) * Outcome * option Error :=
  match Recover (prefix_demo chain_records) obs_published policy_demo (mkWorld (Some (observe_demo.1, persist_demo)) []) with
  | Ok r => r
  | _ => (mkWorld None [], emptyOutcome, None)
  end.

Lemma fresh_demo : fresh [str "r"] publish_tree.
Proof.
  assert (Hr : Forall plain [str "r"]) by (repeat constructor; done). split; [split; [split; [exact Hr|split]|split]|].
  - intros p Hp. destruct p as [|x [|y p]]; [by vm_compute| |apply prefix_length in Hp; cbn in Hp; lia]. destruct Hp as [k [= <- _]]. by vm_compute.
  - intros d Hd. exists 493. repeat (apply elem_of_cons in Hd as [->|Hd]; [vm_compute; reflexivity|]). by apply elem_of_nil in Hd.
  - intros c n Hn. apply elem_of_list_to_map_2 in Hn. repeat (apply elem_of_cons in Hn as [[=]|Hn]). by apply elem_of_nil in Hn.
  - intros t Hn. apply elem_of_list_to_map_2 in Hn. repeat (apply elem_of_cons in Hn as [[=]|Hn]). by apply elem_of_nil in Hn.
  - intros d c Hd. apply not_elem_of_list_to_map. cbn [list_to_map fmap list_fmap fst].
    repeat (apply elem_of_cons in Hd as [->|Hd]; [intros Hin; repeat (apply elem_of_cons in Hin as [[=]|Hin]); by apply elem_of_nil in Hin|]). by apply elem_of_nil in Hd.
Qed.

Lemma observe_demo_eq : Observation (zeros 32) (zeros 32) new_publisher publish_demo.1.1 = (observe_demo.1, Ok obs_published).
Proof.
  assert (E : observe_demo.2 = Ok obs_published) by (vm_compute; reflexivity). rewrite <- E. apply surjective_pairing.
Qed.

Lemma recover_demo_eq :
  Recover (prefix_demo chain_records) obs_published policy_demo (mkWorld (Some (observe_demo.1, persist_demo)) []) =
  Ok (recover_demo.1.1, recover_demo.1.2, recover_demo.2).
Proof.
  destruct (Recover_returns (prefix_demo chain_records) obs_published policy_demo (mkWorld (Some (observe_demo.1, persist_demo)) [])) as [[[a b] c] E].
  unfold recover_demo. rewrite E. reflexivity.
Qed.

(** The process dies before the directory is synced; recovery finds the object and
    confirms it. *)
Lemma publish_recover_witness :
  publish_demo.2 = Panic /\ OState recover_demo.1.2 = Some StateConfirmed /\
  exists w3 f3, wio recover_demo.1.1 = Some (w3, f3) /\ view w3 !! [str "r"; published_; str "o"] = Some (NFile 0x180 (str "hi")).
Proof.
  split; [vm_compute; reflexivity|]. split; [vm_compute; reflexivity|].
  destruct (publish_recover [str "r"] (str "o") (str "hi") killed_publisher new_publisher persist_demo (mkMemFS publish_tree [] 7)
    publish_demo.1.1 observe_demo.1 publish_demo.1.2 publish_demo.2 (zeros 32) (zeros 32) obs_published (prefix_demo chain_records) policy_demo [] recover_demo.1.1 recover_demo.1.2 recover_demo.2)
    as (_ & _ & _ & _ & w3 & f3 & Hw & _ & Ho & _).
  - exact fresh_demo.
  - repeat constructor; done.
  - vm_compute; reflexivity.
  - vm_compute; reflexivity.
  - vm_compute; reflexivity.
  - vm_compute; reflexivity.
  - unfold publish_demo. destruct (Publish _ _ _) as [[? ?] ?]. reflexivity.
  - exact observe_demo_eq.
  - exact recover_demo_eq.
  - exists w3, f3. split; [exact Hw|]. apply Ho. right. right. vm_compute. reflexivity.
Defined.

End RecoveryFiles.
