(* ===== verification/PathResolve.v ===== *)
(** * Resolution of a path under a root descriptor (internal/path: resolve.go, osfs_unix.go)

    [Resolve] opens the components of a validated path one after the other, each
    relative to the descriptor of the one before and without following links, and
    checks every object after it is open.  It works on the interfaces [File] and [Dir]
    of resolve.go ([Descriptors]); [DescriptorLaws] says what they promise while other
    processes rename, replace and remove what they like between two calls: the ghost
    state [history] has every tree there was.  [OSFile] implements them on the calls
    openat, fstat and close ([Kernel], [KernelLaws]) and discharges the laws.

    [Resolve_contained]: what is returned was reached from the root through
    directories, never through a link, within the volumes, and a failure leaves no
    descriptor open.  [Resolve_complete]: when nothing fails or changes, a path that
    is there and is permitted resolves. *)

From stdpp Require Import gmap.
From S2P Require Import Prelude PathGrammar FilePath FileSystem.
Import PathGrammar FilePath FileSystem.

Module PathResolve.

(** ** Types (resolve.go) *)

Inductive ObjectType := TypeUnknown | TypeDir | TypeFile | TypeSymlink | TypeOther.

#[global] Instance ObjectType_eq_dec : EqDecision ObjectType.
Proof. solve_decision. Defined.

Record FileInfo := mkInfo {
  Type_ : ObjectType;
  ID : Z;
  Volume : Z;
  LinkCount : Z;
  Mode : Z }.

Record RootIdentity := mkRoot { RVolume : Z; AllowedVolumes : list Z }.

Record ResolveOpts := mkOpts {
  Root : RootIdentity;
  AllowHardLinks : bool;
  RequireDir : bool;
  ExpectFinal : ObjectType }.

(** The interfaces [File] and [Dir]; [OpenNoFollow] of a file is that of [f.(Dir)], and
    [is_Dir] whether the type assertion succeeds.  [ctx_Err] is [ctx.Err()]. *)
Class Descriptors (W F X : Type) := {
  Info : F -> io W X FileInfo;
  Close : F -> io W X unit;
  OpenNoFollow : F -> bytes -> io W X F;
  is_Dir : F -> bool;
  ctx_Err : io W X unit }.

(** A closed entry is nil. *)
Record Chain (F : Type) := mkChain { Files : list (option F) }.
Arguments mkChain {F} _.
Arguments Files {F} _.

(** ** Checks *)

Definition volumeAllowed (v : Z) (root : RootIdentity) : bool :=
  if (RVolume root =? 0) && (len (AllowedVolumes root) =? 0) then true
  else if v =? RVolume root then true
  else existsb (fun a => v =? a) (AllowedVolumes root).

Definition lastComponent (i n : Z) : bool := i =? n - 1.

Definition checkOpened (info : FileInfo) (i : Z) (last : bool) (opts : ResolveOpts) : res Error unit :=
  if bool_decide (Type_ info = TypeSymlink) then Err (reject RuleLink i) else
  if bool_decide (Type_ info = TypeOther) || bool_decide (Type_ info = TypeUnknown) then Err (reject RuleType i) else
  let needDir := negb last || RequireDir opts in
  if needDir && negb (bool_decide (Type_ info = TypeDir)) then Err (reject RuleType i) else
  if last && negb (bool_decide (ExpectFinal opts = TypeUnknown)) && negb (bool_decide (Type_ info = ExpectFinal opts))
  then Err (reject RuleType i) else
  if negb (AllowHardLinks opts) && negb (bool_decide (Type_ info = TypeDir)) && (1 <? LinkCount info)
  then Err (reject RulePolicy i) else
  if negb (volumeAllowed (Volume info) (Root opts)) then Err (reject RuleVolume i) else
  Ok tt.

Definition sameIdentity (a b : FileInfo) : bool :=
  bool_decide (Type_ a = Type_ b) && (ID a =? ID b) && (Volume a =? Volume b) && (LinkCount a =? LinkCount b).

(** ** Resolution *)

Section Resolve.
Context {W F X : Type} `{Descriptors W F X}.

(** Closing from the last to the first; errors are dropped. *)
Fixpoint close_all {E} (fs : list F) : io W E unit :=
  match fs with
  | [] => ret tt
  | f :: fs => let* _ := ignore (Close f) in close_all fs
  end.

(** The closure [fail] of [Resolve]. *)
Definition fail {A} (out : list F) (e : Error) : io W Error A :=
  let* _ := close_all (rev out) in throw e.

(** The checks of one opened object; it is closed when one fails. *)
Definition examine (opts : ResolveOpts) (n i : Z) (f : F) (out : list F) : io W Error FileInfo :=
  let drop e := let* _ := ignore (Close f) in fail out e in
  let* r := try (Info f) in
  match r with
  | inr _ => drop (reject RuleOpen i)
  | inl info =>
      match checkOpened info i (lastComponent i n) opts with
      | Panic => lift Panic
      | Err e => drop e
      | Ok _ =>
          let* r := try (Info f) in
          match r with
          | inr _ => drop (reject RuleOpen i)
          | inl info2 => if negb (sameIdentity info info2) then drop (reject RuleIdent i) else ret info
          end
      end
  end.

(** The loop; [n] components in all, [i] of them done, [out] their descriptors. *)
Fixpoint resolve_loop (opts : ResolveOpts) (n i : Z) (parent : F) (cs : list bytes) (out : list F) : io W Error (list F) :=
  match cs with
  | [] => ret out
  | name :: cs =>
      let* c := try ctx_Err in
      match c with
      | inr _ => fail out (reject RuleOpen i)
      | inl _ =>
          let* r := try (OpenNoFollow parent name) in
          match r with
          | inr _ => fail out (reject RuleOpen i)
          | inl f =>
              let* info := examine opts n i f out in
              let out := out ++ [f] in
              if bool_decide (Type_ info = TypeDir) then
                if negb (is_Dir f) then fail out (reject RuleType i)
                else resolve_loop opts n (i + 1) f cs out
              else if negb (lastComponent i n) then fail out (reject RuleType i)
              else resolve_loop opts n (i + 1) parent cs out
          end
      end
  end.

Definition Resolve (root : option F) (components : list bytes) (opts : ResolveOpts) (profile : Profile) : io W Error (Chain F) :=
  match root with
  | None => throw (reject RuleOpen (-1))
  | Some root =>
      let* _ := lift (ValidateComponents components profile) in
      let* rootInfo := or_fail (Info root) (fun _ => reject RuleOpen (-1)) in
      if negb (bool_decide (Type_ rootInfo = TypeDir)) then throw (reject RuleType (-1)) else
      if negb (RVolume (Root opts) =? 0) && negb (Volume rootInfo =? RVolume (Root opts)) then throw (reject RuleVolume (-1)) else
      let* out := resolve_loop opts (len components) 0 root components [] in
      ret (mkChain (map Some out))
  end.

(** [Chain.Close]: from the last to the first; the first error is kept. *)
Fixpoint close_files (fs : list (option F)) (first : option X) : io W Error (option X) :=
  match fs with
  | [] => ret first
  | None :: fs => close_files fs first
  | Some f :: fs =>
      let* r := try (Close f) in
      close_files fs (match r, first with inr e, None => Some e | _, _ => first end)
  end.

Definition Chain_Close (c : Chain F) : io W Error (Chain F * option X) :=
  let* first := close_files (rev (Files c)) None in
  ret (mkChain (map (fun _ => None) (Files c)), first).

End Resolve.

(** ** What the interfaces promise *)

(** An object: its mode with the type bits, its number on its volume, the volume, link
    count and, for a directory, its entries.  A tree is the objects under keys of its
    own: objects on two volumes may have the same number. *)
Record inode := mkInode { mode : Z; ino : Z; dev : Z; nlink : Z; entries : gmap bytes Z }.

Abbreviation objects := (gmap Z inode).

Definition S_IFMT : Z := 0xF000.
Definition S_IFDIR : Z := 0x4000.
Definition S_IFREG : Z := 0x8000.
Definition S_IFLNK : Z := 0xA000.

Definition type_of (m : Z) : ObjectType :=
  let t := Z.land m S_IFMT in
  if t =? S_IFDIR then TypeDir else if t =? S_IFREG then TypeFile else if t =? S_IFLNK then TypeSymlink else TypeOther.

(** The facts of an object at a moment. *)
Definition facts (o : inode) : FileInfo := mkInfo (type_of (mode o)) (ino o) (dev o) (u32 (nlink o)) (u32 (mode o)).

Definition seen (t : objects) (n : Z) (i : FileInfo) : Prop := exists o, t !! n = Some o /\ i = facts o.

(** At this moment [n] is a directory with an entry for [m], which is not a link. *)
Definition link (t : objects) (n : Z) (name : bytes) (m : Z) : Prop :=
  exists d o, t !! n = Some d /\ type_of (mode d) = TypeDir /\ entries d !! name = Some m /\
    t !! m = Some o /\ type_of (mode o) <> TypeSymlink.

Class DescriptorLaws (W F X : Type) `{Descriptors W F X} `{Countable F} := {
  (** a property of the world that every call keeps *)
  sound : W -> Prop;
  (** the object that an open descriptor refers to *)
  live : W -> gmap F Z;
  (** the trees there were, in the order of time *)
  history : W -> list objects;
  info_law w w' r f n :
    sound w -> live w !! f = Some n -> Info f w = (w', r) ->
    sound w' /\ live w' = live w /\ r <> Panic /\
    exists ts, history w' = history w ++ ts /\ forall i, r = Ok i -> exists t, t ∈ ts /\ seen t n i;
  close_law w w' r f n :
    sound w -> live w !! f = Some n -> Close f w = (w', r) ->
    sound w' /\ live w' = delete f (live w) /\ r <> Panic /\ exists ts, history w' = history w ++ ts;
  open_law w w' r f n name :
    sound w -> live w !! f = Some n -> plain name -> OpenNoFollow f name w = (w', r) ->
    sound w' /\ r <> Panic /\ exists ts, history w' = history w ++ ts /\
    match r with
    | Ok g => live w !! g = None /\ exists m, live w' = <[g := m]> (live w) /\ exists t, t ∈ ts /\ link t n name m
    | _ => live w' = live w
    end;
  ctx_law w w' r :
    sound w -> ctx_Err w = (w', r) ->
    sound w' /\ live w' = live w /\ r <> Panic /\ exists ts, history w' = history w ++ ts }.

(** ** What resolution returns *)

(** The policy on an object, as it was seen. *)
Definition accepted (opts : ResolveOpts) (last : bool) (i : FileInfo) : Prop :=
  (Type_ i = TypeDir \/ Type_ i = TypeFile) /\
  (last = false \/ RequireDir opts = true -> Type_ i = TypeDir) /\
  (last = true -> ExpectFinal opts <> TypeUnknown -> Type_ i = ExpectFinal opts) /\
  (AllowHardLinks opts = true \/ Type_ i = TypeDir \/ LinkCount i <= 1) /\
  (RVolume (Root opts) = 0 /\ AllowedVolumes (Root opts) = [] \/ Volume i = RVolume (Root opts) \/ Volume i ∈ AllowedVolumes (Root opts)).

Definition same_object (a b : FileInfo) : Prop := Type_ a = Type_ b /\ ID a = ID b /\ Volume a = Volume b /\ LinkCount a = LinkCount b.

(** [reached n name m ts]: during [ts], in this order, [m] was the entry [name] of the
    directory [n], was seen and found acceptable, and was seen again unchanged. *)
Definition reached (opts : ResolveOpts) (last : bool) (n : Z) (name : bytes) (m : Z) (ts : list objects) : Prop :=
  exists ts1 ts2 ts3 t1 t2 t3 i j, ts = ts1 ++ ts2 ++ ts3 /\ t1 ∈ ts1 /\ t2 ∈ ts2 /\ t3 ∈ ts3 /\
    link t1 n name m /\ seen t2 m i /\ accepted opts last i /\ seen t3 m j /\ same_object i j.

(** Every object of a chain was reached from the one before. *)
Inductive walked {F} (opts : ResolveOpts) : Z -> list bytes -> list (F * Z) -> list objects -> Prop :=
| walked_nil n ts : walked opts n [] [] ts
| walked_cons n name m cs f fs ts1 ts2 :
    reached opts (bool_decide (cs = [])) n name m ts1 -> walked opts m cs fs ts2 ->
    walked opts n (name :: cs) ((f, m) :: fs) (ts1 ++ ts2).

Lemma volumeAllowed_exact v root :
  volumeAllowed v root = true <-> RVolume root = 0 /\ AllowedVolumes root = [] \/ v = RVolume root \/ v ∈ AllowedVolumes root.
Proof.
  unfold volumeAllowed. destruct (len (AllowedVolumes root) =? 0) eqn:El.
  - assert (Hn : AllowedVolumes root = []) by (destruct (AllowedVolumes root); [done|unfold len in El; cbn [length] in El; lia]). rewrite Hn, andb_true_r. cbn.
    destruct (RVolume root =? 0) eqn:E1; [split; [intros _; left; split; [lia|done]|done]|]. destruct (v =? RVolume root) eqn:E2; [split; [lia|done]|].
    split; [done|]. intros [[? _]|[?|Hv]]; [lia..|]. by apply elem_of_nil in Hv.
  - rewrite andb_false_r. destruct (v =? RVolume root) eqn:E2; [split; [lia|done]|]. rewrite existsb_exists. split.
    + intros (a & Ha%list_elem_of_In & Hv). right. right. by replace v with a by lia.
    + intros [[_ Hn]|[?|Hv]]; [by rewrite Hn in El|lia|]. exists v. rewrite <- list_elem_of_In. split; [done|lia].
Qed.

Lemma checkOpened_exact info i last opts : checkOpened info i last opts = Ok tt <-> accepted opts last info.
Proof.
  unfold checkOpened, accepted. rewrite <- volumeAllowed_exact.
  destruct (Type_ info) eqn:Et; cbn; try (split; [done|by intros ([?|?] & _)]).
  - destruct last, (RequireDir opts), (AllowHardLinks opts), (ExpectFinal opts), (volumeAllowed _ _); cbn; naive_solver.
  - destruct last, (RequireDir opts), (AllowHardLinks opts), (Z.ltb_spec 1 (LinkCount info)), (ExpectFinal opts), (volumeAllowed _ _); cbn; naive_solver lia.
Qed.

(** ** Resolution, step by step *)

Section Resolved.
Context {W F X : Type} `{DescriptorLaws W F X}.

(** The descriptors [fs] in addition to those of [base]. *)
Definition adds (fs : list (F * Z)) (base : gmap F Z) : gmap F Z := foldl (fun m p => <[p.1 := p.2]> m) base fs.

Definition owned (fs : list (F * Z)) (base : gmap F Z) : Prop := NoDup (map fst fs) /\ forall f, f ∈ map fst fs -> base !! f = None.

Lemma adds_snoc fs f n base : adds (fs ++ [(f, n)]) base = <[f := n]> (adds fs base).
Proof. unfold adds. by rewrite foldl_app. Qed.

Lemma adds_other fs f base : f ∉ map fst fs -> adds fs base !! f = base !! f.
Proof.
  induction fs as [|[g n] fs IH] using rev_ind; [done|]. rewrite map_app, not_elem_of_app. intros [Hf Hg].
  rewrite adds_snoc, lookup_insert_ne; [by apply IH|]. cbn in Hg. set_solver.
Qed.

Lemma adds_fresh fs f base : owned fs base -> adds fs base !! f = None -> f ∉ map fst fs.
Proof.
  induction fs as [|[g n] fs IH] using rev_ind; [set_solver|]. rewrite adds_snoc. intros [Hn Ho] Hf.
  rewrite map_app in *. apply NoDup_app in Hn as (Hn & Hg & _). apply lookup_insert_None in Hf as [Hf Hne].
  rewrite not_elem_of_app. split; [apply IH; [split; [done|set_solver]|done]|]. cbn. set_solver.
Qed.

Lemma owned_snoc fs f n base : owned fs base -> adds fs base !! f = None -> owned (fs ++ [(f, n)]) base.
Proof.
  intros Ho Hf. pose proof (adds_fresh _ _ _ Ho Hf) as Hnew. rewrite adds_other in Hf by done. destruct Ho as [Hn Ho].
  split; rewrite map_app; cbn.
  - apply NoDup_app. split_and!; [done|set_solver|apply NoDup_singleton].
  - set_solver.
Qed.

(** The descriptors are those of [base] again. *)
Definition released (w : W) (base : gmap F Z) (w' : W) : Prop :=
  sound w' /\ live w' = base /\ exists ts, history w' = history w ++ ts.

Lemma owned_last fs f n base : owned (fs ++ [(f, n)]) base -> owned fs base /\ adds fs base !! f = None.
Proof.
  intros [Hn Ho]. rewrite map_app in *. apply NoDup_app in Hn as (Hn & Hd & _). split; [split; [done|set_solver]|].
  rewrite adds_other; [apply Ho; set_solver|]. cbn in Hd. set_solver.
Qed.

Lemma wp_close f n fs base w {E} (Q : W -> res E unit -> Prop) :
  sound w -> owned (fs ++ [(f, n)]) base -> live w = adds (fs ++ [(f, n)]) base ->
  (forall w', sound w' -> live w' = adds fs base -> (exists ts, history w' = history w ++ ts) -> Q w' (Ok tt)) ->
  wp (ignore (Close f)) Q w.
Proof.
  intros Hs [_ Hf]%owned_last Hl HQ. apply wp_ignore_any. intros w' r E1.
  eapply close_law in E1 as (Hs' & Hl' & Hp & Hh); [|done|by rewrite Hl, adds_snoc, lookup_insert_eq].
  split; [done|]. apply HQ; [done| |done]. by rewrite Hl', Hl, adds_snoc, delete_insert_id.
Qed.

Lemma wp_close_all {E} fs base w :
  sound w -> owned fs base -> live w = adds fs base ->
  wp (close_all (E := E) (rev (map fst fs))) (fun w' r => r = Ok tt /\ released w base w') w.
Proof.
  revert w. induction fs as [|[f n] fs IH] using rev_ind; intros w Hs Ho Hl.
  { apply wp_ret. split; [done|]. unfold released. split_and!; [done..|]. exists []. by rewrite app_nil_r. }
  rewrite map_app, rev_app_distr. cbn [map rev app close_all fst]. apply wp_bind. eapply wp_close; [done..|]. intros w1 Hs1 Hl1 [ts Hh].
  apply owned_last in Ho as [Ho _]. eapply wp_mono; [by apply IH|]. intros w2 r (-> & ? & ? & ts' & Hh'). unfold released. split_and!; [done..|].
  exists (ts ++ ts'). by rewrite Hh', Hh, app_assoc.
Qed.

Lemma released_trans w w1 base ts w2 : history w1 = history w ++ ts -> released w1 base w2 -> released w base w2.
Proof. intros Hh (? & ? & ts' & Hh'). unfold released. split_and!; [done..|]. exists (ts ++ ts'). by rewrite Hh', Hh, app_assoc. Qed.

Lemma wp_fail {A} fs base e w (Q : W -> res Error A -> Prop) :
  sound w -> owned fs base -> live w = adds fs base ->
  (forall w', released w base w' -> Q w' (Err e)) -> wp (fail (map fst fs) e) Q w.
Proof.
  intros Hs Ho Hl HQ. unfold fail. apply wp_bind. eapply wp_mono; [by apply wp_close_all|].
  intros w1 r [-> Hr]. by apply wp_throw, HQ.
Qed.

(** An object that is open in addition to [fs] is dropped with them. *)
Lemma wp_drop {A} fs f n base e w (Q : W -> res Error A -> Prop) :
  sound w -> owned (fs ++ [(f, n)]) base -> live w = adds (fs ++ [(f, n)]) base ->
  (forall w', released w base w' -> Q w' (Err e)) -> wp (let* _ := ignore (Close f) in fail (map fst fs) e) Q w.
Proof.
  intros Hs Ho Hl HQ. apply wp_bind. eapply wp_close; [done..|]. intros w1 Hs1 Hl1 [ts Hh]. apply owned_last in Ho as [Ho _].
  apply (wp_fail fs base); [done..|]. intros w2 Hr. apply HQ. by eapply released_trans.
Qed.

(** The checks of an object that was just opened. *)
Lemma wp_examine opts k i fs f m base w :
  sound w -> owned (fs ++ [(f, m)]) base -> live w = adds (fs ++ [(f, m)]) base ->
  wp (examine opts k i f (map fst fs)) (fun w' r =>
    match r with
    | Ok info => sound w' /\ live w' = live w /\ exists ts2 ts3 t2 t3 j, history w' = history w ++ ts2 ++ ts3 /\ t2 ∈ ts2 /\ t3 ∈ ts3 /\
        seen t2 m info /\ accepted opts (lastComponent i k) info /\ seen t3 m j /\ same_object info j
    | Err _ => released w base w'
    | Panic => False
    end) w.
Proof.
  intros Hs Ho Hl. assert (Hf : live w !! f = Some m) by (by rewrite Hl, adds_snoc, lookup_insert_eq). unfold examine.
  apply wp_bind, wp_try, wp_call. intros w1 r1 E1. eapply info_law in E1 as (Hs1 & Hl1 & Hp1 & ts1 & Hh1 & Hr1); [|done..].
  destruct r1 as [info|e|]; [|eapply (wp_drop fs f m base); [done|done|by rewrite Hl1|]; intros w2; by apply released_trans with ts1|done].
  destruct (Hr1 info eq_refl) as (t2 & Ht2 & Hi).
  destruct (checkOpened info i (lastComponent i k) opts) as [[]|e|] eqn:Ec.
  2: { eapply (wp_drop fs f m base); [done|done|by rewrite Hl1|]; intros w2; by apply released_trans with ts1. }
  2: { unfold checkOpened in Ec. by repeat case_match. }
  apply checkOpened_exact in Ec. apply wp_bind, wp_try, wp_call. intros w2 r2 E2.
  eapply info_law in E2 as (Hs2 & Hl2 & Hp2 & ts2 & Hh2 & Hr2); [|done|by rewrite Hl1]. rewrite Hh1 in Hh2. rewrite <- app_assoc in Hh2.
  destruct r2 as [info2|e|]; [|eapply (wp_drop fs f m base); [done|done|by rewrite Hl2, Hl1|]; intros w3; by apply released_trans with (ts1 ++ ts2)|done].
  wp_if; [eapply (wp_drop fs f m base); [done|done|by rewrite Hl2, Hl1|]; intros w3; by apply released_trans with (ts1 ++ ts2)|].
  apply wp_ret. split; [done|]. split; [by rewrite Hl2|]. destruct (Hr2 info2 eq_refl) as (t3 & Ht3 & Hj).
  exists ts1, ts2, t2, t3, info2. split_and!; [done..|]. unfold sameIdentity in *. reflect_bools. by split_and!.
Qed.

Lemma last_exact {A} i n (cs : list A) : i + (1 + len cs) = n -> lastComponent i n = bool_decide (cs = []).
Proof.
  intros Hi. unfold lastComponent. destruct cs; unfold len in *; cbn [length] in *; case_bool_decide; try done; lia.
Qed.

(** What a resolution may leave: all descriptors of the path, or none of them. *)
Definition outcome (opts : ResolveOpts) (np : Z) (cs : list bytes) (fs : list (F * Z)) (base : gmap F Z) (w w' : W) (r : res Error (list F)) : Prop :=
  match r with
  | Ok out => sound w' /\ exists fs' ts, out = map fst (fs ++ fs') /\ owned (fs ++ fs') base /\ live w' = adds (fs ++ fs') base /\
      history w' = history w ++ ts /\ walked opts np cs fs' ts
  | Err _ => released w base w'
  | Panic => False
  end.

(** A failure after more has happened is a failure. *)
Lemma wp_failed opts np cs fs base w w1 ts fs1 e :
  sound w1 -> owned fs1 base -> live w1 = adds fs1 base -> history w1 = history w ++ ts ->
  wp (fail (map fst fs1) e) (outcome opts np cs fs base w) w1.
Proof. intros Hs Ho Hl Hh. apply (wp_fail fs1 base); [done..|]. intros w2. by apply released_trans with ts. Qed.

Lemma wp_resolve_loop opts k cs : forall i parent np fs base w,
  sound w -> owned fs base -> live w = adds fs base -> live w !! parent = Some np -> Forall plain cs -> i + len cs = k ->
  wp (resolve_loop opts k i parent cs (map fst fs)) (outcome opts np cs fs base w) w.
Proof.
  induction cs as [|name cs IH]; intros i parent np fs base w Hs Ho Hl Hp Hcs Hi; cbn [resolve_loop].
  { apply wp_ret. split; [done|]. exists [], []. rewrite !app_nil_r. split_and!; [done..|constructor]. }
  inversion_clear Hcs. replace (len (name :: cs)) with (1 + len cs) in Hi by (unfold len; cbn [length]; lia).
  apply wp_bind, wp_try, wp_call. intros w1 r1 E1. eapply ctx_law in E1 as (Hs1 & Hl1 & Hp1 & ts1 & Hh1); [|done].
  destruct r1 as [[]|e|]; [|eapply wp_failed; [done|done|by rewrite Hl1|done]|done].
  apply wp_bind, wp_try, wp_call. intros w2 r2 E2. eapply open_law in E2 as (Hs2 & Hp2 & ts2 & Hh2 & Hr2); [|done|by rewrite Hl1|done].
  rewrite Hh1, <- app_assoc in Hh2. rewrite Hl1 in Hr2. destruct r2 as [f|e|]; [|eapply wp_failed; [done|done|by rewrite Hr2|done]|done].
  destruct Hr2 as (Hf & m & Hl2 & t & Ht & Hlink). rewrite Hl, <- adds_snoc in Hl2. rewrite Hl in Hf. pose proof (owned_snoc _ _ m _ Ho Hf) as Ho2.
  apply wp_bind. eapply wp_mono; [by apply (wp_examine opts k i fs f m base)|]. intros w3 r3 Hr3.
  destruct r3 as [info|e|]; [|exact (released_trans _ _ _ _ _ Hh2 Hr3)|done].
  destruct Hr3 as (Hs3 & Hl3 & ts3 & ts4 & t3 & t4 & j & Hh3 & Ht3 & Ht4 & Hi3 & Hacc & Hj & Hsame). rewrite Hh2, <- app_assoc in Hh3.
  rewrite Hl2 in Hl3. rewrite (last_exact i k cs Hi) in *.
  assert (Hstep : reached opts (bool_decide (cs = [])) np name m ((ts1 ++ ts2) ++ ts3 ++ ts4)).
  { exists (ts1 ++ ts2), ts3, ts4, t, t3, t4, info, j. split_and!; try done. apply elem_of_app. by right. }
  assert (Hout : forall w4 r4, outcome opts m cs (fs ++ [(f, m)]) base w3 w4 r4 -> outcome opts np (name :: cs) fs base w w4 r4).
  { intros w4 [out|e|]; [|exact (released_trans _ _ _ _ _ Hh3)|done].
    intros (Hs4 & fs' & ts & -> & Ho4 & Hl4 & Hh4 & Hw). rewrite <- app_assoc in Ho4, Hl4 |- *. split; [done|]. exists ((f, m) :: fs'), (((ts1 ++ ts2) ++ ts3 ++ ts4) ++ ts).
    split_and!; [done..|by rewrite Hh4, Hh3, <- !app_assoc|by constructor]. }
  replace (map fst fs ++ [f]) with (map fst (fs ++ [(f, m)])) by (by rewrite map_app).
  destruct Hacc as (_ & Hdir & _). wp_if.
  - wp_if; [by eapply wp_failed|]. eapply wp_mono; [apply (IH (i + 1) f m); try done|apply Hout]; [by rewrite Hl3, adds_snoc, lookup_insert_eq|lia].
  - reflect_bools. case_bool_decide as Hcs; [|by rewrite Hdir in * by (by left)]. wp_if; [done|]. subst cs.
    apply wp_ret, Hout. split; [done|]. exists [], []. rewrite !app_nil_r. split_and!; [done..|constructor].
Qed.

Lemma wp_close_files fs base w first :
  sound w -> owned fs base -> live w = adds fs base ->
  wp (close_files (rev (map Some (map fst fs))) first) (fun w' r => is_ok r = true /\ released w base w') w.
Proof.
  revert w first. induction fs as [|[f n] fs IH] using rev_ind; intros w first Hs Ho Hl.
  { apply wp_ret. split; [done|]. unfold released. split_and!; [done..|]. exists []. by rewrite app_nil_r. }
  rewrite !map_app, rev_app_distr. cbn [map rev app close_files fst]. apply owned_last in Ho as [Ho Hf].
  apply wp_bind, wp_try, wp_call. intros w1 r1 E1.
  eapply close_law in E1 as (Hs1 & Hl1 & Hp1 & ts & Hh); [|done|by rewrite Hl, adds_snoc, lookup_insert_eq].
  rewrite Hl, adds_snoc, delete_insert_id in Hl1 by done.
  destruct r1 as [[]|e|]; [..|done]; (eapply wp_mono; [by apply IH|]); intros w2 r [? Hr]; (split; [done|by eapply released_trans]).
Qed.

Lemma validate_no_panic comps profile : ValidateComponents comps profile <> Panic.
Proof. unfold ValidateComponents. case_if; [done|]. case_if; [done|]. apply validate_loop_safe. Qed.

Lemma component_plain profile c : component_ok profile c -> plain c.
Proof.
  intros Hc. split_and!; [|by apply Hc..|by eapply component_no_slash]. intros ->. destruct Hc as [[Hc _] _]. by cbn in Hc.
Qed.

(** C28. Resolution stays below the root and holds what it checked.  Whatever other
    processes rename, replace or remove in the meantime and whichever call fails: when a
    chain is returned, every object in it was, in turn, the entry of that name in the
    directory before it, the first one in the root, and not a link; it was found to be of
    the required type, with permitted links and on a permitted volume, and then found
    unchanged.  Closing the chain closes all it opened, and a failed resolution has
    closed them. *)
Theorem Resolve_contained root n comps opts profile w w' r :
  sound w -> live w !! root = Some n -> Resolve (Some root) comps opts profile w = (w', r) ->
  sound w' /\
  match r with
  | Ok c => path_ok profile comps /\ exists fs ts0 ts t i,
      Files c = map (fun p => Some p.1) fs /\ owned fs (live w) /\ live w' = adds fs (live w) /\
      history w' = history w ++ ts0 ++ ts /\
      t ∈ ts0 /\ seen t n i /\ Type_ i = TypeDir /\ (RVolume (Root opts) <> 0 -> Volume i = RVolume (Root opts)) /\
      walked opts n comps fs ts /\
      forall w2 r2, Chain_Close c w' = (w2, r2) -> is_ok r2 = true /\ live w2 = live w
  | Err _ => live w' = live w
  | Panic => False
  end.
Proof.
  intros Hs Hn E. pattern w', r. refine (wp_run _ _ _ _ _ _ E). clear E w' r.
  unfold Resolve. apply wp_bind, wp_lift. destruct (ValidateComponents comps profile) as [[]|e|] eqn:Ev; [|done|by apply validate_no_panic in Ev].
  apply ValidateComponents_iff in Ev.
  apply wp_bind, wp_or_fail, wp_call. intros w1 r1 E1. eapply info_law in E1 as (Hs1 & Hl1 & Hp1 & ts0 & Hh1 & Hr1); [|done..].
  destruct r1 as [info|e|]; [|done..]. destruct (Hr1 info eq_refl) as (t & Ht & Hi). cbn [map_err].
  wp_if; [by apply wp_throw|]. wp_if; [by apply wp_throw|]. reflect_bools.
  apply wp_bind. eapply wp_mono.
  { apply (wp_resolve_loop opts (len comps) comps 0 root n [] (live w)); [done|split; [constructor|set_solver]|done|by rewrite Hl1| |done].
    destruct Ev as (_ & Hc & _). eapply Forall_impl; [exact Hc|]. apply component_plain. }
  intros w2 [out|e|]; cbn [outcome]; [|by intros (? & ? & _)|done]. intros (Hs2 & fs & ts & -> & Ho & Hl2 & Hh2 & Hw).
  apply wp_ret. split; [done|]. split; [done|]. exists fs, ts0, ts, t, info. cbn [app Files] in *.
  split_and!; try done; [by rewrite map_map|by rewrite Hh2, Hh1, app_assoc|intros Hv; lia|].
  intros w3 r3 E3. pattern w3, r3. refine (wp_run _ _ _ _ _ _ E3). apply wp_bind. eapply wp_mono; [by apply (wp_close_files fs (live w))|].
  intros w4 [x|e|] [? (_ & ? & _)]; [by apply wp_ret|done..].
Qed.

End Resolved.

(** ** Descriptors of the operating system (osfs_unix.go) *)

Inductive kerrno := KELOOP | KENOENT | KOther.

#[global] Instance kerrno_eq_dec : EqDecision kerrno.
Proof. solve_decision. Defined.

Record Stat := mkStat { st_Mode : Z; st_Ino : Z; st_Dev : Z; st_Nlink : Z }.

(** The system calls: open of a directory, openat without following a link, fstat and
    close; and whether the context was cancelled. *)
Class Kernel (K : Type) := {
  OpenDir : bytes -> io K kerrno Z;
  Openat : Z -> bytes -> io K kerrno Z;
  Fstat : Z -> io K kerrno Stat;
  CloseFd : Z -> io K kerrno unit;
  Done : io K unit unit }.

Inductive OSError :=
| Rejected (e : Error)
| Canceled
| Errno (e : kerrno)
| OpenRoot (e : kerrno).

Record OSFile := mkFile { fd : Z; dir : bool; info : FileInfo }.

(** The objects of type [OSFile] that there are; a pointer is an index. *)
Record OSWorld (K : Type) := mkOS { kern : K; heap : list OSFile }.
Arguments mkOS {K} _ _.
Arguments kern {K} _.
Arguments heap {K} _.

Section OS.
Context {K : Type} `{Kernel K}.

Definition syscall {E A} (c : io K E A) : io (OSWorld K) E A := fun w =>
  let '(k, r) := c (kern w) in (mkOS k (heap w), r).

Definition deref {E} (p : nat) : io (OSWorld K) E (option OSFile) := fun w => (w, Ok (heap w !! p)).
Definition alloc {E} (o : OSFile) : io (OSWorld K) E nat := fun w => (mkOS (kern w) (heap w ++ [o]), Ok (length (heap w))).
Definition assign {E} (p : nat) (o : OSFile) : io (OSWorld K) E unit := fun w => (mkOS (kern w) (<[p := o]> (heap w)), Ok tt).

Definition zeroInfo : FileInfo := mkInfo TypeUnknown 0 0 0 0.

Definition stat (fd : Z) : io (OSWorld K) OSError FileInfo :=
  let* st := or_fail (syscall (Fstat fd)) (fun _ => Rejected (reject RuleOpen (-1))) in
  ret (mkInfo (type_of (st_Mode st)) (st_Ino st) (st_Dev st) (u32 (st_Nlink st)) (u32 (st_Mode st))).

Definition OSFile_Info (p : nat) : io (OSWorld K) OSError FileInfo :=
  let* f := deref p in
  match f with
  | None => throw (Rejected (reject RuleOpen (-1)))
  | Some f => if fd f <? 0 then throw (Rejected (reject RuleOpen (-1))) else stat (fd f)
  end.

Definition OSFile_Close (p : nat) : io (OSWorld K) OSError unit :=
  let* f := deref p in
  match f with
  | None => ret tt
  | Some f =>
      if fd f <? 0 then ret tt else
      let* r := try (syscall (CloseFd (fd f))) in
      let* _ := assign p (mkFile (-1) (dir f) (info f)) in
      match r with inl _ => ret tt | inr e => throw (Errno e) end
  end.

Definition mapOpenErr (e : kerrno) : OSError :=
  match e with
  | KELOOP => Rejected (reject RuleLink (-1))
  | KENOENT => Rejected (reject RuleOpen (-1))
  | KOther => Rejected (reject RuleOpen (-1))
  end.

Definition bad_name_byte (c : Byte.byte) : bool := (byteZ c =? 47) || (byteZ c =? 92) || (byteZ c =? 0).

Definition OSFile_OpenNoFollow (p : nat) (name : bytes) : io (OSWorld K) OSError nat :=
  let* _ := or_fail (syscall Done) (fun _ => Canceled) in
  let* f := deref p in
  match f with
  | None => throw (Rejected (reject RuleOpen (-1)))
  | Some f =>
      if (fd f <? 0) || negb (dir f) then throw (Rejected (reject RuleOpen (-1))) else
      if (len name =? 0) || (MaxComponentBytes <? len name) then throw (Rejected (reject RuleLen (-1))) else
      if existsb bad_name_byte name then throw (Rejected (reject RuleSep (-1))) else
      let* fd := or_fail (syscall (Openat (fd f) name)) mapOpenErr in
      let* child := alloc (mkFile fd false zeroInfo) in
      let* r := try (stat fd) in
      match r with
      | inr e => let* _ := ignore (OSFile_Close child) in throw e
      | inl info =>
          let* _ := assign child (mkFile fd (bool_decide (Type_ info = TypeDir)) info) in
          ret child
      end
  end.

Definition OpenOSRoot (path : bytes) : io (OSWorld K) OSError (nat * RootIdentity) :=
  let* fd := or_fail (syscall (OpenDir path)) OpenRoot in
  let* f := alloc (mkFile fd true zeroInfo) in
  let* r := try (stat fd) in
  match r with
  | inr e => let* _ := ignore (OSFile_Close f) in throw e
  | inl info =>
      if negb (bool_decide (Type_ info = TypeDir)) then
        let* _ := ignore (OSFile_Close f) in throw (Rejected (reject RuleType (-1)))
      else
        let* _ := assign f (mkFile fd true info) in
        ret (f, mkRoot (Volume info) [])
  end.

#[global] Instance OSFile_Descriptors : Descriptors (OSWorld K) nat OSError := {|
  Info := OSFile_Info;
  Close := OSFile_Close;
  OpenNoFollow := OSFile_OpenNoFollow;
  is_Dir _ := true;
  ctx_Err := or_fail (syscall Done) (fun _ => Canceled) |}.

End OS.

(** What the calls do: a descriptor is a number for an object, [openat] returns one for
    an entry of the directory that is not a link, [fstat] the facts of the object, and
    [close] frees the number also when it reports an error. *)
Definition stat_of (o : inode) : Stat := mkStat (mode o) (ino o) (dev o) (nlink o).

Class KernelLaws (K : Type) `{Kernel K} := {
  fds : K -> gmap Z Z;
  moments : K -> list objects;
  openat_law k k' r d n name :
    fds k !! d = Some n -> plain name -> Openat d name k = (k', r) ->
    r <> Panic /\ exists ts, moments k' = moments k ++ ts /\
    match r with
    | Ok f => 0 <= f /\ fds k !! f = None /\ exists m, fds k' = <[f := m]> (fds k) /\ exists t, t ∈ ts /\ link t n name m
    | _ => fds k' = fds k
    end;
  fstat_law k k' r d n :
    fds k !! d = Some n -> Fstat d k = (k', r) ->
    fds k' = fds k /\ r <> Panic /\ exists ts, moments k' = moments k ++ ts /\
    forall st, r = Ok st -> exists t o, t ∈ ts /\ t !! n = Some o /\ st = stat_of o;
  closefd_law k k' r d n :
    fds k !! d = Some n -> CloseFd d k = (k', r) ->
    fds k' = delete d (fds k) /\ r <> Panic /\ exists ts, moments k' = moments k ++ ts;
  done_law k k' r :
    Done k = (k', r) -> fds k' = fds k /\ r <> Panic /\ exists ts, moments k' = moments k ++ ts }.

(** ** The descriptors keep their promise *)

Section OSLaws.
Context {K : Type} `{KernelLaws K}.

(** Open files have numbers of their own, and the kernel knows them. *)
Definition os_sound (w : OSWorld K) : Prop :=
  (forall p o, heap w !! p = Some o -> 0 <= fd o -> is_Some (fds (kern w) !! fd o)) /\
  (forall p q o o', heap w !! p = Some o -> heap w !! q = Some o' -> 0 <= fd o -> fd o = fd o' -> p = q).

Definition refers (k : K) (o : OSFile) : option Z := if fd o <? 0 then None else fds k !! fd o.

Definition os_live (w : OSWorld K) : gmap nat Z := omap (refers (kern w)) (map_seq 0 (heap w)).

Lemma os_live_lookup w p : os_live w !! p = heap w !! p ≫= refers (kern w).
Proof. unfold os_live. by rewrite lookup_omap, lookup_map_seq_0. Qed.

Lemma os_live_Some w p n :
  os_live w !! p = Some n <-> exists o, heap w !! p = Some o /\ 0 <= fd o /\ fds (kern w) !! fd o = Some n.
Proof.
  rewrite os_live_lookup. unfold refers. destruct (heap w !! p) as [o|]; cbn; [|naive_solver].
  destruct (Z.ltb_spec (fd o) 0); naive_solver lia.
Qed.

Lemma os_same w k' : os_sound w -> fds k' = fds (kern w) -> os_sound (mkOS k' (heap w)) /\ os_live (mkOS k' (heap w)) = os_live w.
Proof. intros [H1 H2] Hf. unfold os_sound, os_live, refers. cbn. rewrite Hf. done. Qed.

Lemma wp_syscall {E A} (c : io K E A) (Q : OSWorld K -> res E A -> Prop) w :
  (forall k r, c (kern w) = (k, r) -> Q (mkOS k (heap w)) r) -> wp (syscall c) Q w.
Proof. intros HQ. unfold wp, syscall. destruct (c (kern w)) as [k r] eqn:Ec. by apply HQ. Qed.

(** An [OSFile] with other facts for the same number. *)
Lemma os_assign w p o o' : heap w !! p = Some o -> fd o' = fd o -> os_sound w ->
  os_sound (mkOS (kern w) (<[p := o']> (heap w))) /\ os_live (mkOS (kern w) (<[p := o']> (heap w))) = os_live w.
Proof.
  intros Hp Hf [Hs1 Hs2]. assert (Hlook : forall q x, <[p := o']> (heap w) !! q = Some x -> exists y, heap w !! q = Some y /\ fd y = fd x).
  { intros q x Hq. apply list_lookup_insert_Some in Hq as [(<- & <- & _)|[_ Hq]]; eauto. }
  split.
  - split; cbn.
    + intros q x (y & Hy & <-)%Hlook. by eapply Hs1.
    + intros q q' x x' (y & Hy & <-)%Hlook (y' & Hy' & <-)%Hlook. by eapply Hs2.
  - apply map_eq. intros q. rewrite !os_live_lookup. cbn. destruct (decide (p = q)) as [<-|Hne].
    + rewrite list_lookup_insert_eq by (by eapply lookup_lt_Some). rewrite Hp. cbn. unfold refers. by rewrite Hf.
    + by rewrite list_lookup_insert_ne.
Qed.

Lemma os_closed w p o n k' : os_sound w -> heap w !! p = Some o -> 0 <= fd o -> fds (kern w) !! fd o = Some n ->
  fds k' = delete (fd o) (fds (kern w)) ->
  let w' := mkOS k' (<[p := mkFile (-1) (dir o) (info o)]> (heap w)) in os_sound w' /\ os_live w' = delete p (os_live w).
Proof.
  intros [Hs1 Hs2] Hp Hf Hn Hk w'. assert (Hlook : forall q x, heap w' !! q = Some x -> 0 <= fd x -> q <> p /\ heap w !! q = Some x /\ fd x <> fd o).
  { intros q x Hq Hx. apply list_lookup_insert_Some in Hq as [(<- & <- & _)|[Hne Hq]]; [cbn in Hx; lia|]. split_and!; [done..|].
    intros E. apply Hne. symmetry. by eapply Hs2. }
  split.
  - split.
    + intros q x Hq Hx. destruct (Hlook q x Hq Hx) as (_ & Hq' & Hne). cbn. rewrite Hk, lookup_delete_ne by done. by eapply Hs1.
    + intros q q' x x' Hq Hq' Hx Hxx. destruct (Hlook q x Hq Hx) as (_ & Hy & _), (Hlook q' x' Hq' ltac:(lia)) as (_ & Hy' & _). by eapply Hs2.
  - apply map_eq. intros q. apply option_eq. intros m. rewrite os_live_Some, lookup_delete_Some, os_live_Some. split.
    + intros (x & Hq & Hx & Hm). destruct (Hlook q x Hq Hx) as (Hne & Hq' & Hnx). change (fds k' !! fd x = Some m) in Hm. rewrite Hk, lookup_delete_ne in Hm by done. split; [done|]. by exists x.
    + intros (Hne & x & Hq & Hx & Hm). exists x. subst w'. cbn [heap kern]. rewrite list_lookup_insert_ne by done. split_and!; [done..|].
      rewrite Hk, lookup_delete_ne; [done|]. intros E. apply Hne. by eapply Hs2.
Qed.

Lemma os_opened w f m d i k' : os_sound w -> 0 <= f -> fds (kern w) !! f = None -> fds k' = <[f := m]> (fds (kern w)) ->
  let w' := mkOS k' (heap w ++ [mkFile f d i]) in
  os_sound w' /\ os_live w !! length (heap w) = None /\ os_live w' = <[length (heap w) := m]> (os_live w).
Proof.
  intros [Hs1 Hs2] Hf Hn Hk w'.
  assert (Hlook : forall q x, heap w' !! q = Some x -> heap w !! q = Some x \/ q = length (heap w) /\ x = mkFile f d i).
  { intros q x Hq. apply lookup_app_Some in Hq as [Hq|[Hl Hq]]; [by left|]. right. apply list_lookup_singleton_Some in Hq as [E <-]. split; [lia|done]. }
  assert (Hne : forall q x, heap w !! q = Some x -> 0 <= fd x -> fd x <> f) by (intros q x Hq Hx E; destruct (Hs1 q x Hq Hx); congruence).
  split_and!.
  - split; change (kern w') with k'; rewrite ?Hk.
    + intros q x Hq Hx. destruct (decide (fd x = f)) as [->|Hnx]; [by rewrite lookup_insert_eq|]. rewrite lookup_insert_ne by done.
      destruct (Hlook q x Hq) as [Hq'|[_ ->]]; [by eapply Hs1|done].
    + intros q q' x x' [Hq|[-> ->]]%Hlook [Hq'|[-> ->]]%Hlook Hx Hxx; [by eapply Hs2|..|done].
      * by apply Hne in Hq.
      * apply Hne in Hq'; cbn in *; congruence.
  - rewrite os_live_lookup. by rewrite lookup_ge_None_2 by lia.
  - apply map_eq. intros q. rewrite os_live_lookup. cbn. destruct (decide (q = length (heap w))) as [->|Hq].
    + rewrite lookup_insert_eq, list_lookup_middle by done. cbn. unfold refers. cbn. destruct (Z.ltb_spec f 0); [lia|]. by rewrite Hk, lookup_insert_eq.
    + rewrite lookup_insert_ne, os_live_lookup by done. destruct (decide (q < length (heap w))%nat) as [Hlt|Hge].
      * rewrite lookup_app_l by done. destruct (heap w !! q) as [x|] eqn:Ex; [|done]. cbn. unfold refers. destruct (Z.ltb_spec (fd x) 0); [done|].
        rewrite Hk, lookup_insert_ne; [done|]. intros E. by eapply Hne; [exact Ex|lia|].
      * rewrite !lookup_ge_None_2; [done|lia|rewrite length_app; cbn; lia].
Qed.

(** What a call on open files leaves unchanged. *)
Definition os_keeps (w w' : OSWorld K) : Prop :=
  os_sound w' /\ os_live w' = os_live w /\ exists ts, moments (kern w') = moments (kern w) ++ ts.

Lemma wp_stat w p o n :
  os_sound w -> heap w !! p = Some o -> fds (kern w) !! fd o = Some n ->
  wp (stat (fd o)) (fun w' r => r <> Panic /\ heap w' = heap w /\ fds (kern w') = fds (kern w) /\
    exists ts, moments (kern w') = moments (kern w) ++ ts /\ forall i, r = Ok i -> exists t, t ∈ ts /\ seen t n i) w.
Proof.
  intros Hs Hp Hn. apply wp_bind, wp_or_fail, wp_syscall. intros k r E. eapply fstat_law in E as (Hf & Hr & ts & Hm & Hi); [|done].
  destruct r as [st|e|]; cbn [map_err]; [apply wp_ret|..|done]; (split; [done|]); (split; [done|]); (split; [done|]); exists ts; (split; [done|]); [|done].
  intros i [= <-]. destruct (Hi st eq_refl) as (t & x & Ht & Hx & ->). exists t. split; [done|]. by exists x.
Qed.

Lemma wp_os_close p w n : os_sound w -> os_live w !! p = Some n ->
  wp (OSFile_Close p) (fun w' r => os_sound w' /\ os_live w' = delete p (os_live w) /\ r <> Panic /\ exists ts, moments (kern w') = moments (kern w) ++ ts) w.
Proof.
  intros Hs (o & Hp & Hf & Hn)%os_live_Some. unfold OSFile_Close. apply wp_bind. unfold wp at 1, deref. cbn [fst snd]. rewrite Hp.
  destruct (Z.ltb_spec (fd o) 0); [lia|]. apply wp_bind, wp_try, wp_syscall. intros k r E. eapply closefd_law in E as (Hk & Hr & ts & Hm); [|done].
  pose proof (os_closed w p o n k Hs Hp Hf Hn Hk) as [Hs' Hl'].
  destruct r as [[]|e|]; [..|done]; apply wp_bind; (split_and!; [done..|by exists ts]).
Qed.

(** What [OpenNoFollow] promises. *)
Definition os_open_post (w : OSWorld K) (n : Z) (name : bytes) (w' : OSWorld K) (r : res OSError nat) : Prop :=
  os_sound w' /\ r <> Panic /\ exists ts, moments (kern w') = moments (kern w) ++ ts /\
  match r with
  | Ok g => os_live w !! g = None /\ exists m, os_live w' = <[g := m]> (os_live w) /\ exists t, t ∈ ts /\ link t n name m
  | _ => os_live w' = os_live w
  end.

Lemma wp_os_open p w n name : os_sound w -> os_live w !! p = Some n -> plain name ->
  wp (OSFile_OpenNoFollow p name) (os_open_post w n name) w.
Proof.
  intros Hs Hl Hname. unfold OSFile_OpenNoFollow. apply wp_bind, wp_or_fail, wp_syscall. intros k1 r1 E1.
  apply done_law in E1 as (Hk1 & Hr1 & ts1 & Hm1). destruct (os_same w k1 Hs Hk1) as [Hs1 Hl1].
  destruct r1 as [[]|e|]; cbn [map_err]; [|unfold os_open_post; by eauto|done]. rewrite <- Hl1 in Hl. set (w1 := mkOS k1 (heap w)) in *.
  apply os_live_Some in Hl as (o & Hp & Hf & Hn). apply wp_bind. unfold wp at 1, deref. cbn [fst snd]. rewrite Hp.
  assert (Hstay : forall e, wp (throw e) (os_open_post w n name) w1) by (intros e; apply wp_throw; split_and!; [done..|by exists ts1]).
  wp_if; [done|]. wp_if; [done|]. wp_if; [done|].
  apply wp_bind, wp_or_fail, wp_syscall. intros k2 r2 E2. eapply openat_law in E2 as (Hr2 & ts2 & Hm2 & H2); [|done..].
  change (kern w1) with k1 in *. change (heap w1) with (heap w) in *. rewrite Hm1, <- app_assoc in Hm2. rewrite Hk1 in H2.
  destruct r2 as [f|e|]; cbn [map_err]; [|destruct (os_same w k2 Hs H2) as [? ?]; split_and!; [done..|by eexists]|done].
  destruct H2 as (Hf0 & Hfresh & m & Hk2 & t & Ht & Hlink). apply wp_bind. unfold wp at 1, alloc. cbn [fst snd kern heap].
  destruct (os_opened w f m false zeroInfo k2 Hs Hf0 Hfresh Hk2) as (Hs2 & Hnew & Hl2). set (w2 := mkOS k2 (heap w ++ [mkFile f false zeroInfo])) in *.
  assert (Ho : heap w2 !! length (heap w) = Some (mkFile f false zeroInfo)) by (by apply list_lookup_middle).
  apply wp_bind, wp_try. eapply wp_mono.
  { apply (wp_stat w2 _ _ m Hs2 Ho). cbn. by rewrite Hk2, lookup_insert_eq. }
  intros [k3 h3] r3 (Hr3 & Hh3 & Hk3 & ts3 & Hm3 & _). cbn in Hh3, Hk3. subst h3. destruct (os_same w2 k3 Hs2 Hk3) as [Hs3 Hl3].
  change (moments k3 = moments k2 ++ ts3) in Hm3. rewrite Hm2 in Hm3. set (w3 := mkOS k3 (heap w2)) in *. rewrite Hl2 in Hl3.
  destruct r3 as [i|e|]; [| |done].
  - apply wp_bind. destruct (os_assign w3 _ _ (mkFile f (bool_decide (Type_ i = TypeDir)) i) Ho eq_refl Hs3) as [Hs4 Hl4].
    split_and!; [done..|]. exists ((ts1 ++ ts2) ++ ts3). split; [by rewrite <- app_assoc in Hm3|]. split; [done|]. exists m. split; [by etrans; [exact Hl4|]|].
    exists t. split; [|done]. rewrite !elem_of_app. by auto.
  - apply wp_bind, wp_ignore. eapply wp_mono; [apply (wp_os_close _ w3 m Hs3); by rewrite Hl3, lookup_insert_eq|].
    intros w4 r4 (Hs4 & Hl4 & Hr4 & ts4 & Hm4). rewrite Hl3, delete_insert_id in Hl4 by done. change (kern w3) with k3 in Hm4.
    destruct r4 as [[]|e'|]; [..|done]; apply wp_throw; (split_and!; [done..|]); exists (((ts1 ++ ts2) ++ ts3) ++ ts4); by rewrite Hm4, Hm3, <- !app_assoc.
Qed.

#[global] Instance OSFile_laws : DescriptorLaws (OSWorld K) nat OSError.
Proof.
  refine {| sound := os_sound; live := os_live; history w := moments (kern w) |}.
  - intros w w' r p n Hs Hl E. pattern w', r. refine (wp_run _ _ _ _ _ _ E). clear E.
    apply os_live_Some in Hl as (o & Hp & Hf & Hn). unfold Info, OSFile_Descriptors, OSFile_Info.
    apply wp_bind. unfold wp at 1, deref. cbn [fst snd]. rewrite Hp. destruct (Z.ltb_spec (fd o) 0); [lia|].
    eapply wp_mono; [by apply (wp_stat w p o n)|]. intros [k h] r' (Hr & Hh & Hk & Hi). cbn in Hh, Hk. subst h.
    destruct (os_same w k Hs Hk) as [Hs' Hl']. by split_and!.
  - intros w w' r p n Hs Hl E. pattern w', r. exact (wp_run _ _ _ _ _ (wp_os_close p w n Hs Hl) E).
  - intros w w' r p n name Hs Hl Hname E. pattern w', r. refine (wp_run _ _ _ _ _ _ E). clear E. apply wp_os_open; done.
  - intros w w' r Hs E. pattern w', r. refine (wp_run _ _ _ _ _ _ E). clear E.
    apply wp_or_fail, wp_syscall. intros k r' E. apply done_law in E as (Hk & Hr & Hm).
    destruct (os_same w k Hs Hk) as [Hs' Hl']. split_and!; [done..|by destruct r'|done].
Defined.

End OSLaws.

(** ** A kernel in memory *)

(** Before a call another process may have replaced the tree, and the call may fail. *)
Record event := mkEvent { replaced : option objects; fault : option kerrno }.

Record MemKernel := mkKernel { tree_now : objects; table : gmap Z Z; past : list objects; script : list event }.

Definition next_fd (m : gmap Z Z) : Z := foldr (fun d n => Z.max (d + 1) n) 0 (map fst (map_to_list m)).

(** The tree at the time of a call; that of [close] is not observed. *)
Definition tick (k : MemKernel) : MemKernel * option kerrno :=
  match script k with
  | [] => (mkKernel (tree_now k) (table k) (past k ++ [tree_now k]) [], None)
  | e :: es => let t := default (tree_now k) (replaced e) in (mkKernel t (table k) (past k ++ [t]) es, fault e)
  end.

Definition set_table (m : gmap Z Z) (k : MemKernel) : MemKernel := mkKernel (tree_now k) m (past k) (script k).

Definition find_entry (t : objects) (n : Z) (name : bytes) : res kerrno Z :=
  match t !! n with
  | Some d =>
      if negb (bool_decide (type_of (mode d) = TypeDir)) then Err KOther else
      match entries d !! name with
      | None => Err KENOENT
      | Some m =>
          match t !! m with
          | None => Err KENOENT
          | Some o => if bool_decide (type_of (mode o) = TypeSymlink) then Err KELOOP else Ok m
          end
      end
  | None => Err KOther
  end.

Definition new_fd (n : Z) (k : MemKernel) : MemKernel * res kerrno Z :=
  let fd := next_fd (table k) in (set_table (<[fd := n]> (table k)) k, Ok fd).

Definition mem_openat (d : Z) (name : bytes) : io MemKernel kerrno Z := fun k =>
  let '(k, f) := tick k in
  match f, table k !! d with
  | Some e, _ => (k, Err e)
  | None, None => (k, Err KOther)
  | None, Some n => match find_entry (tree_now k) n name with Ok m => new_fd m k | Err e => (k, Err e) | Panic => (k, Panic) end
  end.

(** Only the root has a name. *)
Definition mem_opendir (path : bytes) : io MemKernel kerrno Z := fun k =>
  let '(k, f) := tick k in
  match f with
  | Some e => (k, Err e)
  | None => if bool_decide (path = str "/") then new_fd 1 k else (k, Err KENOENT)
  end.

Definition mem_fstat (d : Z) : io MemKernel kerrno Stat := fun k =>
  let '(k, f) := tick k in
  match f, table k !! d ≫= fun n => tree_now k !! n with
  | Some e, _ => (k, Err e)
  | None, None => (k, Err KOther)
  | None, Some o => (k, Ok (stat_of o))
  end.

Definition mem_close (d : Z) : io MemKernel kerrno unit := fun k =>
  let '(k, f) := tick k in
  (set_table (delete d (table k)) k, match f with Some e => Err e | None => Ok tt end).

#[global] Instance MemKernel_Kernel : Kernel MemKernel := {|
  OpenDir := mem_opendir;
  Openat := mem_openat;
  Fstat := mem_fstat;
  CloseFd := mem_close;
  Done k := (k, Ok tt) |}.

Lemma next_fd_fresh m : 0 <= next_fd m /\ m !! next_fd m = None.
Proof.
  unfold next_fd. set (l := map fst (map_to_list m)).
  assert (Hl : forall l d, 0 <= foldr (fun d n => Z.max (d + 1) n) 0 l /\ (d ∈ l -> d < foldr (fun d n => Z.max (d + 1) n) 0 l)).
  { clear. intros l d. induction l as [|x l [IH1 IH2]]; cbn; [set_solver|]. split; [lia|]. intros [->|Hd]%elem_of_cons; [lia|]. apply IH2 in Hd. lia. }
  split; [exact (proj1 (Hl l 0))|]. destruct (m !! _) as [n|] eqn:E; [|done]. exfalso.
  assert (Hin : foldr (fun d n => Z.max (d + 1) n) 0 l ∈ l).
  { apply list_elem_of_In, in_map_iff. eexists (_, n). split; [reflexivity|]. by apply list_elem_of_In, elem_of_map_to_list. }
  apply (proj2 (Hl l _)) in Hin. lia.
Qed.

Lemma tick_spec k : exists k' f, tick k = (k', f) /\ table k' = table k /\ past k' = past k ++ [tree_now k'] /\
  (script k = [] -> f = None /\ tree_now k' = tree_now k /\ script k' = []).
Proof. unfold tick. destruct (script k) as [|e es] eqn:E; eexists _, _; split_and!; done. Qed.

Lemma find_entry_link t n name m : find_entry t n name = Ok m <-> link t n name m.
Proof.
  unfold find_entry, link. destruct (t !! n) as [d|]; [|naive_solver]. destruct (entries d !! name) as [x|] eqn:Ex.
  2: { case_bool_decide; naive_solver. }
  destruct (t !! x) as [o|] eqn:Eo; repeat (case_bool_decide; cbn); naive_solver.
Qed.

Lemma find_entry_total t n name : find_entry t n name <> Panic.
Proof. unfold find_entry. by repeat case_match. Qed.

#[global] Instance MemKernel_laws : KernelLaws MemKernel.
Proof.
  refine {| fds := table; moments := past |}.
  - intros k k' r d n name Hd Hname. cbn. unfold mem_openat. destruct (tick_spec k) as (k1 & f & -> & Ht & Hp & _). rewrite Ht, Hd.
    destruct f as [e|]; [intros [= <- <-]; split; [done|]; exists [tree_now k1]; done|].
    destruct (find_entry (tree_now k1) n name) as [m|e|] eqn:Ef; [|intros [= <- <-]; split; [done|]; exists [tree_now k1]; done|by apply find_entry_total in Ef].
    unfold new_fd. intros [= <- <-]. split; [done|]. exists [tree_now k1]. split; [done|]. rewrite Ht. pose proof (next_fd_fresh (table k)) as [? ?].
    split_and!; [done..|]. exists m. split; [done|]. exists (tree_now k1). split; [by apply list_elem_of_singleton|by apply find_entry_link].
  - intros k k' r d n Hd. cbn. unfold mem_fstat. destruct (tick_spec k) as (k1 & f & -> & Ht & Hp & _). rewrite Ht, Hd. cbn.
    destruct f as [e|], (tree_now k1 !! n) as [o|] eqn:Eo; cbn; intros [= <- <-]; (split; [done|]); (split; [done|]); exists [tree_now k1]; (split; [done|]);
      intros st [= <-]. exists (tree_now k1), o. split; [by apply list_elem_of_singleton|done].
  - intros k k' r d n Hd. cbn. unfold mem_close. destruct (tick_spec k) as (k1 & f & -> & Ht & Hp & _). intros [= <- <-]. cbn. rewrite Ht.
    split_and!; [done|by destruct f|by exists [tree_now k1]].
  - intros k k' r [= <- <-]. split_and!; [done..|]. exists []. by rewrite app_nil_r.
Defined.

(** ** When nothing fails and nothing changes *)

Definition quiet (t : objects) (w : OSWorld MemKernel) : Prop := script (kern w) = [] /\ tree_now (kern w) = t.

(** The pointer is an open file for the object. *)
Definition opened_at (w : OSWorld MemKernel) (p : nat) (n : Z) (d : bool) : Prop :=
  exists o, heap w !! p = Some o /\ 0 <= fd o /\ dir o = d /\ table (kern w) !! fd o = Some n.

(** The path is in the tree, and each object on it is acceptable. *)
Inductive permitted (opts : ResolveOpts) (t : objects) : Z -> list bytes -> Prop :=
| permitted_nil n : permitted opts t n []
| permitted_cons n name m o cs :
    link t n name m -> t !! m = Some o -> accepted opts (bool_decide (cs = [])) (facts o) ->
    permitted opts t m cs -> permitted opts t n (name :: cs).

Lemma quiet_stat t w p n d x : quiet t w -> opened_at w p n d -> t !! n = Some x ->
  wp (OSFile_Info p) (fun w' r => r = Ok (facts x) /\ quiet t w' /\ opened_at w' p n d) w.
Proof.
  intros [Hq Ht] (o & Hp & Hf & Hd & Hn) Hx. unfold OSFile_Info. apply wp_bind. unfold wp at 1, deref. cbn [fst snd]. rewrite Hp.
  destruct (Z.ltb_spec (fd o) 0); [lia|]. apply wp_bind, wp_or_fail, wp_syscall. intros k r. cbn. unfold mem_fstat.
  destruct (tick_spec (kern w)) as (k1 & f & -> & Hk & _ & Hs). destruct (Hs Hq) as (-> & Hk1 & Hs1). rewrite Hk, Hn, Hk1, Ht. cbn. rewrite Hx. cbn.
  intros [= <- <-]. apply wp_ret. split; [done|]. split; [split; cbn; congruence|]. exists o. cbn. by rewrite Hk.
Qed.

Lemma component_name profile c : component_ok profile c -> (len c =? 0) || (MaxComponentBytes <? len c) = false /\ existsb bad_name_byte c = false.
Proof.
  intros (Hl & _ & _ & Hb & _). split; [lia|]. destruct (existsb bad_name_byte c) eqn:E; [|done].
  apply existsb_exists in E as (b & Hin%list_elem_of_In & Hbad). rewrite Forall_forall in Hb. apply Hb in Hin. unfold plain_byte, bad_name_byte in *. lia.
Qed.

Lemma quiet_open t w p n profile name m x : quiet t w -> opened_at w p n true -> component_ok profile name -> link t n name m -> t !! m = Some x ->
  wp (OSFile_OpenNoFollow p name) (fun w' r => exists g, r = Ok g /\ quiet t w' /\ opened_at w' g m (bool_decide (type_of (mode x) = TypeDir))) w.
Proof.
  intros [Hq Ht] (o & Hp & Hf & Hd & Hn) [Hlen Hbytes]%component_name Hlink Hx. unfold OSFile_OpenNoFollow.
  apply wp_bind, wp_or_fail, wp_syscall. intros k r [= <- <-]. cbn [map_err]. apply wp_bind. unfold wp at 1, deref. cbn [fst snd heap]. rewrite Hp, Hd.
  destruct (Z.ltb_spec (fd o) 0); [lia|]. cbn [orb negb]. rewrite Hlen, Hbytes.
  apply wp_bind, wp_or_fail, wp_syscall. intros k r. cbn [kern Openat MemKernel_Kernel]. unfold mem_openat.
  destruct (tick_spec (kern w)) as (k1 & f & -> & Hk & _ & Hs). destruct (Hs Hq) as (-> & Hk1 & Hs1). rewrite Hk, Hn, Hk1, Ht.
  rewrite (proj2 (find_entry_link t n name m) Hlink). unfold new_fd. intros [= <- <-]. cbn [map_err]. apply wp_bind. unfold wp at 1, alloc. cbn [fst snd kern heap].
  set (f := next_fd (table k1)). pose proof (next_fd_fresh (table k1)) as [Hf0 _]. fold f in Hf0.
  set (w1 := mkOS (set_table _ k1) _). assert (Ho : heap w1 !! length (heap w) = Some (mkFile f false zeroInfo)) by (by apply list_lookup_middle).
  apply wp_bind, wp_try. eapply wp_mono with (P := fun w' r => r = Ok (facts x) /\ quiet t w' /\ heap w' = heap w1 /\ table (kern w') !! f = Some m).
  { apply wp_bind, wp_or_fail, wp_syscall. intros k r. cbn [kern Fstat MemKernel_Kernel w1]. unfold mem_fstat.
    destruct (tick_spec (set_table (<[f := m]> (table k1)) k1)) as (k2 & g & -> & Hk2 & _ & Hs2). cbn in Hs2. destruct (Hs2 Hs1) as (-> & Ht2 & Hs3).
    rewrite Hk2, Ht2, Hk1, Ht. cbn [table set_table]. rewrite lookup_insert_eq. cbn. rewrite Hx. cbn. intros [= <- <-]. apply wp_ret.
    split; [done|]. split; [split; cbn; congruence|]. split; [done|]. cbn [kern]. rewrite Hk2. apply lookup_insert_eq. }
  intros w2 r (-> & Hq2 & Hh2 & Hm2). apply wp_bind. unfold wp, assign, ret. cbn [fst snd]. exists (length (heap w)). split; [done|]. split; [done|].
  eexists. cbn [heap kern]. rewrite list_lookup_insert_eq by (rewrite Hh2; by eapply lookup_lt_Some). by split_and!.
Qed.

Lemma quiet_loop opts t profile cs : forall i k p n out w, quiet t w -> opened_at w p n true -> Forall (component_ok profile) cs ->
  permitted opts t n cs -> i + len cs = k -> wp (resolve_loop opts k i p cs out) (fun _ r => is_ok r = true) w.
Proof.
  induction cs as [|name cs IH]; intros i k p n out w Hq Hp Hc Hperm Hi; [by apply wp_ret|]. cbn [resolve_loop].
  inversion Hc as [|? ? Hc1 Hc2]; subst. inversion Hperm as [|? ? m o ? Hlink Ho Hacc Hrest]; subst.
  replace (len (name :: cs)) with (1 + len cs) in * by (unfold len; cbn [length]; lia).
  apply wp_bind, wp_try, wp_or_fail, wp_syscall. intros k1 r1 [= <- <-]. cbn [map_err]. replace (mkOS (kern w) (heap w)) with w by (by destruct w).
  apply wp_bind, wp_try. eapply wp_mono; [by eapply quiet_open|]. intros w1 r (g & -> & Hq1 & Hg).
  unfold examine. apply wp_bind, wp_bind, wp_try. eapply wp_mono; [by apply (quiet_stat t w1 g m (bool_decide (type_of (mode o) = TypeDir)) o)|]. intros w2 r (-> & Hq2 & Hg2).
  rewrite (last_exact i (i + (1 + len cs)) cs eq_refl). rewrite (proj2 (checkOpened_exact (facts o) i _ opts) Hacc).
  apply wp_bind, wp_try. eapply wp_mono; [by apply (quiet_stat t w2 g m (bool_decide (type_of (mode o) = TypeDir)) o)|]. intros w3 r (-> & Hq3 & Hg3).
  assert (Hsame : sameIdentity (facts o) (facts o) = true) by (unfold sameIdentity; rewrite !Z.eqb_refl; by rewrite bool_decide_eq_true_2).
  rewrite Hsame. apply wp_ret. cbn [Type_ facts is_Dir OSFile_Descriptors negb]. destruct Hacc as (_ & Hdir & _). cbn in Hdir.
  case_bool_decide as Ht.
  - apply (IH _ _ g m); [done..|lia].
  - case_bool_decide; [subst cs; by apply wp_ret|]. destruct Ht. apply Hdir. by left.
Qed.

(** C29. What is there and permitted resolves.  While nothing fails and no other process
    changes the tree, a path of the grammar whose objects are all there, acceptable and
    not links is resolved. *)
Theorem Resolve_complete opts t profile comps root n d w :
  quiet t w -> opened_at w root n true -> t !! n = Some d -> type_of (mode d) = TypeDir ->
  (RVolume (Root opts) <> 0 -> dev d = RVolume (Root opts)) ->
  path_ok profile comps -> permitted opts t n comps ->
  is_ok (Resolve (Some root) comps opts profile w).2 = true.
Proof.
  intros Hq Hr Hn Hd Hv Hok Hp. change (wp (Resolve (Some root) comps opts profile) (fun _ r => is_ok r = true) w).
  unfold Resolve. apply wp_bind, wp_lift. rewrite (proj2 (ValidateComponents_iff profile comps) Hok).
  apply wp_bind, wp_or_fail. eapply wp_mono; [by apply (quiet_stat t w root n true d)|]. intros w1 r (-> & Hq1 & Hr1). cbn [map_err].
  cbn [Type_ Volume facts]. rewrite Hd, bool_decide_eq_true_2 by done. cbn [negb]. wp_if; [exfalso; reflect_bools; lia|].
  apply wp_bind. destruct Hok as (_ & Hc & _). eapply wp_mono; [by apply (quiet_loop opts t profile comps 0 (len comps) root n [] w1)|].
  intros w2 [out|e|] Ho; [by apply wp_ret|done..].
Qed.

(** ** Witnesses *)

(** /a/f, a regular file in a directory, on another volume and with the number of the
    directory; b is a link. *)
Definition demo_tree : objects := list_to_map [
  (1, mkInode 0x41ED 1 7 3 (list_to_map [(str "a", 2); (str "b", 4)]));
  (2, mkInode 0x41ED 2 7 2 (list_to_map [(str "f", 3)]));
  (3, mkInode 0x81A4 2 9 1 ∅);
  (4, mkInode 0xA1FF 4 7 1 ∅)].

(** The directory a replaced by a link. *)
Definition demo_swapped : objects := <[1 := mkInode 0x41ED 1 7 3 (list_to_map [(str "a", 4)])]> demo_tree.

Definition demo_opts : ResolveOpts := mkOpts (mkRoot 7 [9]) false false TypeFile.
Definition demo_world (es : list event) : OSWorld MemKernel := mkOS (mkKernel demo_tree {[ 0 := 1 ]} [] es) [mkFile 0 true zeroInfo].
Definition demo_path : list bytes := [str "a"; str "f"].

Example resolve_demo :
  (Resolve (Some 0%nat) demo_path demo_opts DefaultProfile (demo_world [])).2 = Ok (mkChain [Some 1%nat; Some 2%nat]) /\
  (Resolve (Some 0%nat) demo_path demo_opts DefaultProfile (demo_world [mkEvent None None; mkEvent (Some demo_swapped) None])).2 = Err (reject RuleOpen 0) /\
  (Resolve (Some 0%nat) [str "b"] demo_opts DefaultProfile (demo_world [])).2 = Err (reject RuleOpen 0).
Proof. vm_compute. done. Qed.

Definition demo_race : OSWorld MemKernel := demo_world [mkEvent None None; mkEvent None None; mkEvent (Some demo_swapped) None].

(** The directory is replaced after it was opened: the file that is returned is the one
    in the directory that was checked. *)
Lemma Resolve_contained_witness :
  exists w c, Resolve (Some 0%nat) demo_path demo_opts DefaultProfile demo_race = (w, Ok c) /\
    live w !! 2%nat = Some 3 /\ path_ok DefaultProfile demo_path.
Proof.
  destruct (Resolve (Some 0%nat) demo_path demo_opts DefaultProfile demo_race) as [w r] eqn:E.
  pose proof (Resolve_contained 0%nat 1 demo_path demo_opts DefaultProfile demo_race w r) as Hc.
  destruct Hc as [_ Hc]; [|vm_compute; reflexivity|exact E|].
  - split.
    + intros p o Hp _. destruct p as [|p]; [|by destruct p]. injection Hp as <-. vm_compute. by eexists.
    + intros p q o o' Hp Hq _ _. destruct p as [|[]], q as [|[]]; done.
  - assert (Hw : w = (w, r).1) by reflexivity. assert (Hr : r = (w, r).2) by reflexivity. rewrite <- E in Hw, Hr. vm_compute in Hr. subst r.
    exists w, (mkChain [Some 1%nat; Some 2%nat]). split; [reflexivity|]. split; [rewrite Hw; vm_compute; reflexivity|exact (proj1 Hc)].
Defined.

Lemma Resolve_complete_witness : is_ok (Resolve (Some 0%nat) demo_path demo_opts DefaultProfile (demo_world [])).2 = true.
Proof.
  apply (Resolve_complete demo_opts demo_tree DefaultProfile demo_path 0%nat 1 (mkInode 0x41ED 1 7 3 (list_to_map [(str "a", 2); (str "b", 4)]))).
  - split; reflexivity.
  - exists (mkFile 0 true zeroInfo). split; [reflexivity|]. split; [cbn; lia|]. split; reflexivity.
  - vm_compute. reflexivity.
  - vm_compute. reflexivity.
  - intros _. reflexivity.
  - apply ValidateComponents_iff. vm_compute. reflexivity.
  - apply (permitted_cons _ _ _ _ 2 (mkInode 0x41ED 2 7 2 (list_to_map [(str "f", 3)]))); [by apply find_entry_link|by vm_compute|by apply (checkOpened_exact _ 0)|].
    apply (permitted_cons _ _ _ _ 3 (mkInode 0x81A4 2 9 1 ∅)); [by apply find_entry_link|by vm_compute|by apply (checkOpened_exact _ 0)|constructor].
Defined.

End PathResolve.
