(* ===== verification/AtFS.v ===== *)
(** * Directory descriptors (openat, mkdirat, renameat, unlinkat, ...)

    The calls that internal/localsync and internal/remotesync make relative to an open
    directory, as operations on a world [W] ([AtCalls]), and their documented effect
    ([AtLaws]) on the tree of [FileSystem] and on a table of descriptors.  A descriptor
    is for the object at a path of the tree, wherever links lead: no call relative to
    it with a single name passes through a link.  The table forgets the descriptors of
    what is unlinked or replaced.  Calls that take a path of several components (fstatat
    and renameat) follow links in the middle, and are only described where there is none.
    Any call may fail.

    The laws are about calls that return.  An open of a named pipe waits for a process
    at the other end, and a process that waits for ever has no result: a run of the
    operations below is one in which every call has returned, with a descriptor, or with
    an error such as that of a signal.  So the theorems over these laws say what holds
    when an operation returns; that it does return they say only of its loops.

    [MemAt] is a tree in memory with a script of faults; it discharges the laws. *)

From stdpp Require Import gmap.
From S2P Require Import Prelude PathGrammar FilePath FileSystem.
Import PathGrammar FilePath FileSystem.

Module AtFS.

(** What [unix.Stat_t] is used for. *)
Record Stat := mkStat { SType : FileType; SPerm : Z; SSize : Z }.

Definition stat_of (n : node) : Stat :=
  mkStat (ftype n) (fperm n) (match n with NFile _ d => len d | _ => 0 end).

(** The flags of an open; all opens also have [O_CLOEXEC] and [O_NOFOLLOW]. *)
Record flags := mkFlags { o_write : bool; o_creat : bool; o_excl : bool; o_trunc : bool; o_directory : bool }.

Definition O_READ : flags := mkFlags false false false false false.
Definition O_DIR : flags := mkFlags false false false false true.
Definition O_NEW : flags := mkFlags true true true false false.
Definition O_EMPTY : flags := mkFlags true false false true false.
Definition O_REPLACE : flags := mkFlags true true false true false.

Class AtCalls (W : Type) := {
  Dup : Z -> io W errno Z;
  CloseFd : Z -> io W errno unit;
  Openat : Z -> bytes -> flags -> Z -> io W errno Z;
  Fstat : Z -> io W errno Stat;
  (** with [AT_SYMLINK_NOFOLLOW] *)
  Fstatat : Z -> bytes -> io W errno Stat;
  Mkdirat : Z -> bytes -> Z -> io W errno unit;
  (** [true] for [AT_REMOVEDIR] *)
  Unlinkat : Z -> bytes -> bool -> io W errno unit;
  Renameat : Z -> bytes -> Z -> bytes -> io W errno unit;
  Fchmodat : Z -> bytes -> Z -> io W errno unit;
  (** [unix.Fsync] and [platform.SyncFile] *)
  Fsync : Z -> io W errno unit;
  (** [os.NewFile(fd).Readdirnames(-1)] *)
  Readdirnames : Z -> io W errno (list bytes);
  (** [io.ReadAll], or the reads of a hash, to the end of the file *)
  ReadFd : Z -> io W errno bytes;
  WriteFd : Z -> bytes -> io W errno unit;
  (** [io.Copy(dst, src)] *)
  CopyFd : Z -> Z -> io W errno Z;
  SeekFd : Z -> Z -> io W errno unit;
  (** [crypto/rand.Read] *)
  Rand : Z -> io W errno bytes }.

(** A descriptor: where its object is, and the offset. *)
Record desc := mkDesc { dpath : list bytes; doff : Z }.

#[global] Instance desc_eq_dec : EqDecision desc.
Proof. solve_decision. Defined.

Abbreviation table := (gmap Z desc).

(** Without the descriptors of what is at a path or below it. *)
Definition forget (p : list bytes) (m : table) : table := filter (fun x => ~ p `prefix_of` dpath x.2) m.

(** The content after a write at an offset. *)
Definition patch (x : bytes) (o : Z) (data : bytes) : bytes :=
  let x := x ++ replicate (Z.to_nat (o - len x)) (byte_of 0) in
  take (Z.to_nat o) x ++ data ++ drop (Z.to_nat (o + len data)) x.

(** What a successful open finds at the path, and makes of it. *)
Definition opened (fl : flags) (p : list bytes) (v v' : tree) : Prop :=
  match v !! p with
  | Some n =>
      ftype n <> TSymlink /\ o_creat fl && o_excl fl = false /\ (o_directory fl = true -> ftype n = TDir) /\
      (o_write fl = true -> ftype n <> TDir) /\
      v' = match n with NFile m _ => if o_trunc fl then <[p := NFile m []]> v else v | _ => v end
  | None => o_creat fl = true /\ exists m, v' = <[p := NFile m []]> v
  end.

(** No link below [ds] on the way to [ds ++ cs]. *)
Definition clear_way (v : tree) (ds cs : list bytes) : Prop :=
  forall p, p `prefix_of` cs -> p <> [] -> v !! (ds ++ p) <> Some (NOther TSymlink).

(** The names that are no entry of a directory: it itself, its parent and the root. *)
Definition special (c : bytes) : bool := bool_decide (c = str ".") || bool_decide (c = str "..") || bool_decide (c = str "/").

Lemma special_plain c : plain c -> special c = false.
Proof. intros (_ & H1 & H2 & H3). unfold special. rewrite !bool_decide_eq_false_2; [done|..]; [|done|done]. intros ->. apply Forall_cons in H3 as [H3 _]. by vm_compute in H3. Qed.

Class AtLaws (W : Type) `{AtCalls W} := {
  aview : W -> tree;
  fds : W -> table;
  dup_law w w' r d x :
    fds w !! d = Some x -> Dup d w = (w', r) ->
    aview w' = aview w /\
    match r with
    | Ok f => fds w !! f = None /\ fds w' = <[f := x]> (fds w)
    | Err _ => fds w' = fds w
    | Panic => False
    end;
  closefd_law w w' r f : CloseFd f w = (w', r) -> aview w' = aview w /\ fds w' = delete f (fds w) /\ r <> Panic;
  (** what an open that returns has done; that of a named pipe, without [O_DIRECTORY] and
      [O_EXCL], may wait before it does *)
  openat_law w w' r d ds o c fl m :
    fds w !! d = Some (mkDesc ds o) -> plain c -> Openat d c fl m w = (w', r) ->
    match r with
    | Ok f => fds w !! f = None /\ fds w' = <[f := mkDesc (ds ++ [c]) 0]> (fds w) /\ opened fl (ds ++ [c]) (aview w) (aview w')
    | Err e => aview w' = aview w /\ fds w' = fds w /\ (e = ENOENT -> aview w !! (ds ++ [c]) = None) /\
        (e = ELOOP \/ e = EMLINK -> aview w !! (ds ++ [c]) = Some (NOther TSymlink))
    | Panic => False
    end;
  (** a directory is not opened for writing *)
  openat_special w w' r d x c fl m :
    fds w !! d = Some x -> special c = true -> Openat d c fl m w = (w', r) ->
    aview w' = aview w /\
    match r with
    | Ok f => o_write fl = false /\ fds w !! f = None /\ exists p, fds w' = <[f := mkDesc p 0]> (fds w)
    | Err _ => fds w' = fds w
    | Panic => False
    end;
  fstat_law w w' r f x :
    fds w !! f = Some x -> Fstat f w = (w', r) ->
    aview w' = aview w /\ fds w' = fds w /\
    match r with
    | Ok st => dpath x <> [] -> exists n, aview w !! dpath x = Some n /\ st = stat_of n
    | Err _ => True
    | Panic => False
    end;
  fstatat_law w w' r d p : Fstatat d p w = (w', r) -> aview w' = aview w /\ fds w' = fds w /\ r <> Panic;
  fstatat_entry w w' r d ds o cs c :
    fds w !! d = Some (mkDesc ds o) -> Forall plain cs -> plain c -> clear_way (aview w) ds cs ->
    Fstatat d (join_slash (cs ++ [c])) w = (w', r) ->
    match r with
    | Ok st => exists n, aview w !! (ds ++ cs ++ [c]) = Some n /\ st = stat_of n
    | Err e => e = ENOENT -> aview w !! (ds ++ cs ++ [c]) = None
    | Panic => False
    end;
  mkdirat_law w w' r d ds o c m :
    fds w !! d = Some (mkDesc ds o) -> plain c -> Mkdirat d c m w = (w', r) ->
    fds w' = fds w /\
    match r with
    | Ok _ => aview w !! (ds ++ [c]) = None /\ exists m', aview w' = <[ds ++ [c] := NDir m']> (aview w)
    | Err e => aview w' = aview w /\ (e = EEXIST -> is_Some (aview w !! (ds ++ [c])))
    | Panic => False
    end;
  unlinkat_law w w' r d ds o c b :
    fds w !! d = Some (mkDesc ds o) -> plain c -> Unlinkat d c b w = (w', r) ->
    match r with
    | Ok _ => aview w' = delete (ds ++ [c]) (aview w) /\ fds w' = forget (ds ++ [c]) (fds w) /\
        (b = false -> forall m, aview w !! (ds ++ [c]) <> Some (NDir m)) /\
        (b = true -> forall c', aview w !! ((ds ++ [c]) ++ [c']) = None)
    | Err _ => aview w' = aview w /\ fds w' = fds w
    | Panic => False
    end;
  renameat_law w w' r d ds o cs c d' es o' cs' c' m x :
    fds w !! d = Some (mkDesc ds o) -> fds w !! d' = Some (mkDesc es o') ->
    Forall plain cs -> plain c -> Forall plain cs' -> plain c' ->
    clear_way (aview w) ds cs -> clear_way (aview w) es cs' ->
    aview w !! (ds ++ cs ++ [c]) = Some (NFile m x) ->
    Renameat d (join_slash (cs ++ [c])) d' (join_slash (cs' ++ [c'])) w = (w', r) ->
    match r with
    | Ok _ => aview w' = <[es ++ cs' ++ [c'] := NFile m x]> (delete (ds ++ cs ++ [c]) (aview w)) /\
        fds w' = forget (ds ++ cs ++ [c]) (forget (es ++ cs' ++ [c']) (fds w))
    | Err _ => aview w' = aview w /\ fds w' = fds w
    | Panic => False
    end;
  fchmodat_law w w' r d ds o c m m' x :
    fds w !! d = Some (mkDesc ds o) -> plain c -> aview w !! (ds ++ [c]) = Some (NFile m x) ->
    Fchmodat d c m' w = (w', r) ->
    fds w' = fds w /\
    match r with
    | Ok _ => aview w' = <[ds ++ [c] := NFile m' x]> (aview w)
    | Err _ => aview w' = aview w
    | Panic => False
    end;
  fsync_law w w' r f : Fsync f w = (w', r) -> aview w' = aview w /\ fds w' = fds w /\ r <> Panic;
  readdirnames_law w w' r d x :
    fds w !! d = Some x -> Readdirnames d w = (w', r) ->
    aview w' = aview w /\ fds w' = fds w /\
    match r with
    | Ok names => NoDup names /\ (forall c, c ∈ names <-> plain c /\ is_Some (aview w !! (dpath x ++ [c])))
    | Err _ => True
    | Panic => False
    end;
  readfd_law w w' r f p o :
    fds w !! f = Some (mkDesc p o) -> ReadFd f w = (w', r) ->
    aview w' = aview w /\ (exists o', fds w' = <[f := mkDesc p o']> (fds w)) /\
    match r with
    | Ok d => exists m x, aview w !! p = Some (NFile m x) /\ d = drop (Z.to_nat o) x
    | Err _ => True
    | Panic => False
    end;
  writefd_law w w' r f p o m x data :
    fds w !! f = Some (mkDesc p o) -> aview w !! p = Some (NFile m x) -> 0 <= o -> WriteFd f data w = (w', r) ->
    match r with
    | Ok _ => aview w' = <[p := NFile m (patch x o data)]> (aview w) /\ fds w' = <[f := mkDesc p (o + len data)]> (fds w)
    | Err _ => exists x' o', 0 <= o' /\ aview w' = <[p := NFile m x']> (aview w) /\ fds w' = <[f := mkDesc p o']> (fds w)
    | Panic => False
    end;
  copyfd_law w w' r f g p o y m x :
    fds w !! f = Some (mkDesc p o) -> fds w !! g = Some y -> f <> g -> aview w !! p = Some (NFile m x) -> CopyFd f g w = (w', r) ->
    r <> Panic /\ exists x' o1 o2, aview w' = <[p := NFile m x']> (aview w) /\
      fds w' = <[g := mkDesc (dpath y) o2]> (<[f := mkDesc p o1]> (fds w)) /\
      forall n, r = Ok n -> x = [] -> o = 0 -> n = len x';
  seekfd_law w w' r f p o pos :
    fds w !! f = Some (mkDesc p o) -> SeekFd f pos w = (w', r) ->
    aview w' = aview w /\
    match r with
    | Ok _ => 0 <= pos /\ fds w' = <[f := mkDesc p pos]> (fds w)
    | Err _ => fds w' = fds w
    | Panic => False
    end;
  rand_law w w' r n :
    0 <= n -> Rand n w = (w', r) ->
    aview w' = aview w /\ fds w' = fds w /\ match r with Ok b => len b = n | Err _ => True | Panic => False end }.

Lemma lookup_forget p m f : forget p m !! f = m !! f ≫= fun x => if bool_decide (p `prefix_of` dpath x) then None else Some x.
Proof.
  unfold forget. destruct (m !! f) as [x|] eqn:E; cbn.
  - case_bool_decide.
    + apply map_lookup_filter_None. right. intros y. rewrite E. intros [= <-]. cbn. tauto.
    + by apply map_lookup_filter_Some.
  - apply map_lookup_filter_None. by left.
Qed.

Lemma forget_keeps p m f x : m !! f = Some x -> ~ p `prefix_of` dpath x -> forget p m !! f = Some x.
Proof. intros E Hn. rewrite lookup_forget, E. cbn. by rewrite bool_decide_eq_false_2. Qed.

(** ** Descriptors in memory *)

(** Each call takes the next fault of the script, if any. *)
Record MemAt := mkMemAt { anodes : tree; atable : table; ascript : list (option errno); aentropy : Z }.

(** A fault says nothing about the tree. *)
Definition some_fault (e : errno) : errno := match e with EPERM => EPERM | ENOSPC => ENOSPC | _ => EOther end.

Definition scripted_at {A} (k : io MemAt errno A) : io MemAt errno A := fun w =>
  match ascript w with
  | Some e :: s => (mkMemAt (anodes w) (atable w) s (aentropy w), Err (some_fault e))
  | None :: s => k (mkMemAt (anodes w) (atable w) s (aentropy w))
  | [] => k w
  end.

Definition set_nodes (v : tree) (w : MemAt) : MemAt := mkMemAt v (atable w) (ascript w) (aentropy w).
Definition set_atable (m : table) (w : MemAt) : MemAt := mkMemAt (anodes w) m (ascript w) (aentropy w).

Definition on_fd {A} (f : Z) (k : desc -> io MemAt errno A) : io MemAt errno A :=
  scripted_at (fun w => match atable w !! f with Some x => k x w | None => (w, Err EOther) end).

Definition next_free (m : table) : Z := foldr (fun d n => Z.max (d + 1) n) 0 (map fst (map_to_list m)).

Definition new_fd (x : desc) : io MemAt errno Z := fun w =>
  let f := next_free (atable w) in (set_atable (<[f := x]> (atable w)) w, Ok f).

(** The open of a node that is there. *)
Definition open_node (fl : flags) (p : list bytes) (n : node) : io MemAt errno Z :=
  if bool_decide (ftype n = TSymlink) then throw ELOOP else
  if o_creat fl && o_excl fl then throw EEXIST else
  if o_directory fl && negb (bool_decide (ftype n = TDir)) then throw EOther else
  if o_write fl && bool_decide (ftype n = TDir) then throw EOther else
  match n with
  | NFile m _ => if o_trunc fl then fun w => new_fd (mkDesc p 0) (set_nodes (<[p := NFile m []]> (anodes w)) w) else new_fd (mkDesc p 0)
  | _ => new_fd (mkDesc p 0)
  end.

Definition mem_openat (d : Z) (c : bytes) (fl : flags) (mode : Z) : io MemAt errno Z :=
  on_fd d (fun x w =>
    let p := dpath x ++ [c] in
    if special c then
      if o_write fl || o_creat fl then (w, Err EOther)
      else new_fd (mkDesc (if bool_decide (c = str ".") then dpath x else if bool_decide (c = str "..") then removelast (dpath x) else []) 0) w
    else
    match anodes w !! p with
    | Some n => open_node fl p n w
    | None => if o_creat fl then new_fd (mkDesc p 0) (set_nodes (<[p := NFile mode []]> (anodes w)) w) else (w, Err ENOENT)
    end).

(** A path of several components: absolute or from a directory, without links. *)
Definition is_link (v : tree) (p : list bytes) : bool := match v !! p with Some (NOther TSymlink) => true | _ => false end.

Fixpoint steps (v : tree) (at_ : list bytes) (cs : list bytes) : option (list bytes) :=
  match cs with
  | [] => Some at_
  | c :: cs =>
      if bool_decide (c = []) || bool_decide (c = str ".") then steps v at_ cs
      else if bool_decide (c = str "..") then steps v (removelast at_) cs
      else if negb (bool_decide (cs = [])) && is_link v (at_ ++ [c]) then None
      else steps v (at_ ++ [c]) cs
  end.

Definition resolve_at (v : tree) (ds : list bytes) (p : bytes) : option (list bytes) :=
  if bool_decide (head p = Some slash) then steps v [] (Split p) else steps v ds (Split p).

Definition on_path {A} (d : Z) (p : bytes) (k : list bytes -> node -> io MemAt errno A) : io MemAt errno A :=
  on_fd d (fun x w =>
    match resolve_at (anodes w) (dpath x) p with
    | None => (w, Err ELOOP)
    | Some q => match anodes w !! q with Some n => k q n w | None => (w, Err ENOENT) end
    end).

Definition has_children (v : tree) (p : list bytes) : bool :=
  existsb (fun '(q, _) => bool_decide (p `prefix_of` q) && negb (bool_decide (q = p))) (map_to_list v).

Definition mem_unlinkat (d : Z) (c : bytes) (b : bool) : io MemAt errno unit :=
  on_fd d (fun x w =>
    let p := dpath x ++ [c] in
    match anodes w !! p with
    | None => (w, Err ENOENT)
    | Some n =>
        if negb (Bool.eqb (bool_decide (ftype n = TDir)) b) || (b && has_children (anodes w) p) then (w, Err EOther)
        else (set_atable (forget p (atable w)) (set_nodes (delete p (anodes w)) w), Ok tt)
    end).

Definition mem_renameat (d : Z) (p : bytes) (d' : Z) (p' : bytes) : io MemAt errno unit :=
  on_path d p (fun q n w =>
    match n, atable w !! d' with
    | NFile m x, Some y =>
        match resolve_at (anodes w) (dpath y) p' with
        | None => (w, Err ELOOP)
        | Some q' =>
            match anodes w !! q' with
            | Some (NDir _) => (w, Err EOther)
            | _ => (set_atable (forget q (forget q' (atable w))) (set_nodes (<[q' := NFile m x]> (delete q (anodes w))) w), Ok tt)
            end
        end
    | _, _ => (w, Err EOther)
    end).

Definition on_file {A} (f : Z) (k : desc -> Z -> bytes -> io MemAt errno A) : io MemAt errno A :=
  on_fd f (fun x w => match anodes w !! dpath x with Some (NFile m d) => k x m d w | _ => (w, Err EOther) end).

Definition mem_copy (f g : Z) : io MemAt errno Z :=
  on_file f (fun x m d w =>
    match atable w !! g with
    | Some y =>
        match anodes w !! dpath y with
        | Some (NFile _ e) =>
            let data := drop (Z.to_nat (doff y)) e in
            (set_atable (<[g := mkDesc (dpath y) (len e)]> (<[f := mkDesc (dpath x) (doff x + len data)]> (atable w)))
               (set_nodes (<[dpath x := NFile m (patch d (doff x) data)]> (anodes w)) w), Ok (len data))
        | _ => (w, Err EOther)
        end
    | None => (w, Err EOther)
    end).

#[global] Instance MemAt_AtCalls : AtCalls MemAt := {|
  Dup d := on_fd d (fun x => new_fd x);
  CloseFd f := fun w =>
    let '(w', r) := scripted_at (ret tt) w in (set_atable (delete f (atable w')) w', r);
  Openat := mem_openat;
  Fstat f := on_fd f (fun x w => match anodes w !! dpath x with Some n => (w, Ok (stat_of n)) | None => (w, if bool_decide (dpath x = []) then Ok (stat_of (NDir 0x1ED)) else Err EOther) end);
  Fstatat d p := on_path d p (fun _ n => ret (stat_of n));
  Mkdirat d c m := on_fd d (fun x w =>
    match anodes w !! (dpath x ++ [c]) with
    | Some _ => (w, Err EEXIST)
    | None => (set_nodes (<[dpath x ++ [c] := NDir m]> (anodes w)) w, Ok tt)
    end);
  Unlinkat := mem_unlinkat;
  Renameat := mem_renameat;
  Fchmodat d c m := on_fd d (fun x w =>
    match anodes w !! (dpath x ++ [c]) with
    | Some (NFile _ y) => (set_nodes (<[dpath x ++ [c] := NFile m y]> (anodes w)) w, Ok tt)
    | Some (NDir _) => (set_nodes (<[dpath x ++ [c] := NDir m]> (anodes w)) w, Ok tt)
    | _ => (w, Err EOther)
    end);
  Fsync _ := scripted_at (ret tt);
  Readdirnames d := on_fd d (fun x w => (w, Ok (names_in (anodes w) (dpath x))));
  ReadFd f := on_file f (fun x _ d w =>
    (set_atable (<[f := mkDesc (dpath x) (len d)]> (atable w)) w, Ok (drop (Z.to_nat (doff x)) d)));
  WriteFd f data := on_file f (fun x m d w =>
    (set_atable (<[f := mkDesc (dpath x) (doff x + len data)]> (atable w))
       (set_nodes (<[dpath x := NFile m (patch d (doff x) data)]> (anodes w)) w), Ok tt));
  CopyFd := mem_copy;
  SeekFd f pos := on_fd f (fun x w =>
    if pos <? 0 then (w, Err EOther) else (set_atable (<[f := mkDesc (dpath x) pos]> (atable w)) w, Ok tt));
  Rand n := scripted_at (fun w =>
    (mkMemAt (anodes w) (atable w) (ascript w) (aentropy w + 1), Ok (le_bytes (Z.to_nat n) (aentropy w)))) |}.

(** ** The laws in memory *)

(** The world up to the script. *)
Definition alike (w w' : MemAt) : Prop := anodes w' = anodes w /\ atable w' = atable w.

Lemma scripted_at_inv {A} (k : io MemAt errno A) w w' r :
  scripted_at k w = (w', r) ->
  (alike w w' /\ exists e, r = Err e /\ e <> ENOENT /\ e <> ELOOP /\ e <> EMLINK /\ e <> EEXIST) \/ (exists w1, alike w w1 /\ k w1 = (w', r)).
Proof.
  unfold scripted_at. destruct (ascript w) as [|[e|] s]; intros E; [right; by exists w| |right].
  - injection E as <- <-. left. split; [done|]. exists (some_fault e). by destruct e.
  - eexists. split; [|exact E]. done.
Qed.

Lemma on_fd_inv {A} f (k : desc -> io MemAt errno A) w w' r x :
  atable w !! f = Some x -> on_fd f k w = (w', r) ->
  (alike w w' /\ exists e, r = Err e /\ e <> ENOENT /\ e <> ELOOP /\ e <> EMLINK /\ e <> EEXIST) \/ (exists w1, alike w w1 /\ k x w1 = (w', r)).
Proof.
  intros Hx [H|(w1 & [H1 H2] & E)]%scripted_at_inv; [by left|]. right. exists w1. split; [done|]. by rewrite H2, Hx in E.
Qed.

Lemma next_free_fresh m : m !! next_free m = None.
Proof.
  unfold next_free. set (l := map fst (map_to_list m)).
  assert (Hl : forall l d, d ∈ l -> d < foldr (fun d n => Z.max (d + 1) n) 0 l).
  { clear. intros l d. induction l as [|x l IH]; cbn; [set_solver|]. intros [->|Hd]%elem_of_cons; [lia|]. apply IH in Hd. lia. }
  destruct (m !! _) as [n|] eqn:E; [|done]. exfalso.
  assert (Hin : foldr (fun d n => Z.max (d + 1) n) 0 l ∈ l).
  { apply list_elem_of_In, in_map_iff. eexists (_, n). split; [reflexivity|]. by apply list_elem_of_In, elem_of_map_to_list. }
  apply Hl in Hin. lia.
Qed.

Lemma steps_plain v ds cs : Forall plain cs -> (forall p, p `prefix_of` cs -> p <> [] -> p <> cs -> v !! (ds ++ p) <> Some (NOther TSymlink)) ->
  steps v ds cs = Some (ds ++ cs).
Proof.
  revert ds. induction cs as [|c cs IH]; intros ds Hp Hl; cbn [steps]; [by rewrite app_nil_r|]. apply Forall_cons in Hp as [(H1 & H2 & H3 & _) Hp].
  rewrite !bool_decide_eq_false_2 by done. cbn [orb].
  assert (Hn : negb (bool_decide (cs = [])) && is_link v (ds ++ [c]) = false).
  { case_bool_decide as Hc; [done|]. cbn. assert (Hx : v !! (ds ++ [c]) <> Some (NOther TSymlink)) by (apply Hl; [by apply prefix_cons, prefix_nil|done|congruence]).
    unfold is_link. by destruct (v !! (ds ++ [c])) as [[| |[]]|]. }
  rewrite Hn, IH; [by rewrite <- app_assoc|done|]. intros p Hpre Hne Hcs. rewrite <- app_assoc. apply (Hl (c :: p)); [by apply prefix_cons|done|congruence].
Qed.

Lemma clear_parent v ds cs c : clear_way v ds cs ->
  forall p, p `prefix_of` cs ++ [c] -> p <> [] -> p <> cs ++ [c] -> v !! (ds ++ p) <> Some (NOther TSymlink).
Proof. intros Hc p [Hp| ->]%prefix_of_snoc Hn Hne; [by apply Hc|done]. Qed.

Lemma resolve_plain v ds cs c : Forall plain cs -> plain c -> clear_way v ds cs -> resolve_at v ds (join_slash (cs ++ [c])) = Some (ds ++ cs ++ [c]).
Proof.
  intros Hcs Hc Hw. assert (Hp : Forall plain (cs ++ [c])) by (by apply plain_snoc).
  assert (Hsp : Split (join_slash (cs ++ [c])) = cs ++ [c]) by (destruct (cs ++ [c]) eqn:E; [by destruct cs|by apply Split_join]).
  unfold resolve_at. rewrite Hsp, bool_decide_eq_false_2; [apply steps_plain; [done|by apply clear_parent]|].
  destruct cs as [|x cs]; cbn [app] in *.
  - destruct Hc as (H1 & _ & _ & H4). intros E. destruct c as [|b c]; [done|]. injection E as ->. apply Forall_cons in H4 as [H4 _]. by vm_compute in H4.
  - apply Forall_cons in Hcs as [(H1 & _ & _ & H4) _]. destruct x as [|b x]; [done|]. intros E.
    destruct (cs ++ [c]); cbn in E; injection E as ->; apply Forall_cons in H4 as [H4 _]; by vm_compute in H4.
Qed.

Lemma patch_whole data : patch [] 0 data = data.
Proof.
  unfold patch. change ([] ++ replicate _ _) with (@nil Byte.byte). rewrite take_nil, drop_nil, app_nil_r. done.
Qed.

(** Run a call of [MemAt] on a descriptor. *)
#[local] Ltac mem_fd H Hx :=
  apply (on_fd_inv _ _ _ _ _ _ Hx) in H as [([Hv Ht] & e & -> & ? & ? & ? & ?)|(w1 & [Hv Ht] & H)].

#[local] Ltac mem_end H Hv Ht := injection H as <- <-; cbn [anodes atable set_nodes set_atable]; rewrite ?Hv, ?Ht.

Lemma open_node_spec fl p n w w' r :
  anodes w !! p = Some n -> open_node fl p n w = (w', r) ->
  match r with
  | Ok f => atable w !! f = None /\ atable w' = <[f := mkDesc p 0]> (atable w) /\ opened fl p (anodes w) (anodes w')
  | Err e => anodes w' = anodes w /\ atable w' = atable w /\ e <> ENOENT /\ (e = ELOOP \/ e = EMLINK -> anodes w !! p = Some (NOther TSymlink))
  | Panic => False
  end.
Proof.
  intros Hn. unfold open_node, new_fd, opened. rewrite Hn.
  destruct (bool_decide (ftype n = TSymlink)) eqn:E1; reflect_bools.
  { intros [= <- <-]. split_and!; [done..|]. intros _. destruct n as [| |[]]; done. }
  destruct (o_creat fl && o_excl fl) eqn:E2; [intros [= <- <-]; naive_solver|].
  destruct (o_directory fl && _) eqn:E3; [intros [= <- <-]; naive_solver|].
  destruct (o_write fl && _) eqn:E4; [intros [= <- <-]; naive_solver|].
  assert (Hd : (o_directory fl = true -> ftype n = TDir) /\ (o_write fl = true -> ftype n <> TDir)).
  { split; intros Hf; rewrite Hf in *; cbn in *; by reflect_bools. }
  destruct n as [pm|pm d|t]; [|destruct (o_trunc fl)|]; intros [= <- <-]; cbn; (split; [apply next_free_fresh|]); (split; [done|]); split_and!; try done; tauto.
Qed.

#[global] Program Instance MemAt_laws : AtLaws MemAt := {| aview := anodes; fds := atable |}.
Next Obligation.
  intros w w' r d x Hx H. cbn [Dup MemAt_AtCalls] in H. mem_fd H Hx; [done|]. unfold new_fd in H. mem_end H Hv Ht. split; [done|]. split; [apply next_free_fresh|done].
Qed.
Next Obligation.
  intros w w' r f H. cbn [CloseFd MemAt_AtCalls] in H. destruct (scripted_at (ret tt) w) as [w1 r1] eqn:E. injection H as <- <-.
  apply scripted_at_inv in E as [([Hv Ht] & e & -> & _)|(w2 & [Hv Ht] & [= <- <-])]; cbn; by rewrite Hv, Ht.
Qed.
Next Obligation.
  intros w w' r d ds o c fl m Hx Hc H. cbn [Openat MemAt_AtCalls] in H. unfold mem_openat in H. mem_fd H Hx; [naive_solver|]. cbn [dpath] in H. rewrite special_plain in H by done.
  destruct (anodes w1 !! (ds ++ [c])) as [n|] eqn:En.
  - pose proof (open_node_spec fl (ds ++ [c]) n w1 w' r En H) as Ho. rewrite Hv, Ht in Ho. destruct r; [done| |done]. naive_solver.
  - destruct (o_creat fl) eqn:Ec.
    + unfold new_fd in H. mem_end H Hv Ht. split; [apply next_free_fresh|]. split; [done|]. unfold opened. rewrite <- Hv, En. eauto.
    + mem_end H Hv Ht. rewrite Hv in En. naive_solver.
Qed.
Next Obligation.
  intros w w' r d x c fl m Hx Hc H. cbn [Openat MemAt_AtCalls] in H. unfold mem_openat in H. mem_fd H Hx; [done|]. rewrite Hc in H.
  destruct (o_write fl || o_creat fl) eqn:Ew; [by mem_end H Hv Ht|]. apply orb_false_iff in Ew as [Ew _]. unfold new_fd in H.
  mem_end H Hv Ht. split; [done|]. split; [done|]. split; [apply next_free_fresh|by eexists].
Qed.
Next Obligation.
  intros w w' r f x Hx H. cbn [Fstat MemAt_AtCalls] in H. mem_fd H Hx; [done|].
  destruct (anodes w1 !! dpath x) as [n|] eqn:En; [|case_bool_decide]; mem_end H Hv Ht; (split; [done|]); (split; [done|]); [|done|done].
  rewrite Hv in En. eauto.
Qed.
Next Obligation.
  intros w w' r d p H. cbn [Fstatat MemAt_AtCalls] in H. unfold on_path in H.
  apply scripted_at_inv in H as [([Hv Ht] & e & -> & _)|(w1 & [Hv Ht] & H)]; [done|].
  repeat case_match; mem_end H Hv Ht; done.
Qed.
Next Obligation.
  intros w w' r d ds o cs c Hx Hcs Hc Hw H. cbn [Fstatat MemAt_AtCalls] in H. unfold on_path in H. mem_fd H Hx; [done|]. cbn [dpath] in H.
  rewrite Hv, resolve_plain in H by done. destruct (anodes w !! _) as [n|] eqn:En; mem_end H Hv Ht; [eauto|done].
Qed.
Next Obligation.
  intros w w' r d ds o c m Hx Hc H. cbn [Mkdirat MemAt_AtCalls] in H. mem_fd H Hx; [done|]. cbn [dpath] in H.
  rewrite Hv in H. destruct (anodes w !! (ds ++ [c])) as [n|] eqn:En; mem_end H Hv Ht; eauto.
Qed.
Next Obligation.
  intros w w' r d ds o c b Hx Hc H. cbn [Unlinkat MemAt_AtCalls] in H. unfold mem_unlinkat in H. mem_fd H Hx; [done|]. cbn [dpath] in H.
  rewrite Hv in H. destruct (anodes w !! (ds ++ [c])) as [n|] eqn:En; [|by mem_end H Hv Ht].
  destruct (_ || _) eqn:Eb; [by mem_end H Hv Ht|]. apply orb_false_iff in Eb as [E1 E2]. mem_end H Hv Ht. split; [done|]. split; [done|].
  apply negb_false_iff, eqb_prop in E1. split.
  - intros -> m [= ->]. cbn in E1. by rewrite bool_decide_eq_true_2 in E1.
  - intros -> c'. destruct (anodes w !! ((ds ++ [c]) ++ [c'])) as [y|] eqn:Ey; [|done]. exfalso. cbn in E2. unfold has_children in E2.
    rewrite <- not_true_iff_false, existsb_exists in E2. apply E2. exists ((ds ++ [c]) ++ [c'], y). rewrite <- list_elem_of_In, elem_of_map_to_list. split; [done|].
    rewrite bool_decide_eq_true_2 by (by apply prefix_app_r). rewrite bool_decide_eq_false_2; [done|]. intros Hf%(f_equal length). rewrite length_app in Hf. cbn in Hf. lia.
Qed.
Next Obligation.
  intros w w' r d ds o cs c d' es o' cs' c' m x Hx Hy Hcs Hc Hcs' Hc' Hw Hw' Hf H. cbn [Renameat MemAt_AtCalls] in H. unfold mem_renameat, on_path in H.
  mem_fd H Hx; [done|]. cbn [dpath] in H. rewrite Hv, resolve_plain, Hf, Ht, Hy in H by done. cbn [dpath] in H. rewrite resolve_plain in H by done.
  destruct (anodes w !! (es ++ cs' ++ [c'])) as [[]|] eqn:En; mem_end H Hv Ht; done.
Qed.
Next Obligation.
  intros w w' r d ds o c m m' x Hx Hc Hf H. cbn [Fchmodat MemAt_AtCalls] in H. mem_fd H Hx; [done|]. cbn [dpath] in H. rewrite Hv, Hf in H. by mem_end H Hv Ht.
Qed.
Next Obligation.
  intros w w' r f H. apply scripted_at_inv in H as [([Hv Ht] & e & -> & _)|(w2 & [Hv Ht] & [= <- <-])]; done.
Qed.
Next Obligation.
  intros w w' r d x Hx H. cbn [Readdirnames MemAt_AtCalls] in H. mem_fd H Hx; [done|]. mem_end H Hv Ht. split; [done|]. split; [done|].
  split; [apply NoDup_elements|]. intros c. apply names_in_spec.
Qed.
Next Obligation.
  intros w w' r f p o Hx H. cbn [ReadFd MemAt_AtCalls] in H. unfold on_file in H. mem_fd H Hx.
  { split; [done|]. split; [|done]. exists o. by rewrite insert_id. }
  cbn [dpath] in H. rewrite Hv in H. destruct (anodes w !! p) as [[|m x|]|] eqn:En.
  2: { mem_end H Hv Ht. split; [done|]. split; [by eexists|]. by exists m, x. }
  all: mem_end H Hv Ht; split; [done|]; split; [|done]; exists o; by rewrite insert_id.
Qed.
Next Obligation.
  intros w w' r f p o m x data Hx Hf Ho H. cbn [WriteFd MemAt_AtCalls] in H. unfold on_file in H. mem_fd H Hx.
  { exists x, o. by rewrite Hv, Ht, !insert_id. }
  cbn [dpath doff] in H. rewrite Hv, Hf in H. by mem_end H Hv Ht.
Qed.
Next Obligation.
  intros w w' r f g p o y m x Hx Hy Hne Hf H. cbn [CopyFd MemAt_AtCalls] in H. unfold mem_copy, on_file in H.
  assert (Hsame : forall w2 e, alike w w2 -> r = Err e -> r <> Panic /\ exists x' o1 o2, anodes w2 = <[p := NFile m x']> (anodes w) /\
      atable w2 = <[g := mkDesc (dpath y) o2]> (<[f := mkDesc p o1]> (atable w)) /\ forall n, r = Ok n -> x = [] -> o = 0 -> n = len x').
  { intros w2 e [Hv2 Ht2] ->. split; [done|]. exists x, o, (doff y). rewrite Hv2, Ht2.
    rewrite (insert_id (anodes w) p), (insert_id (atable w) f), (insert_id (atable w) g) by (done || by destruct y). done. }
  mem_fd H Hx; [by eapply Hsame|].
  cbn [dpath doff] in H. rewrite Hv, Hf, Ht, Hy in H. destruct (anodes w !! dpath y) as [[|m' e|]|] eqn:En; try (mem_end H Hv Ht; by eapply Hsame).
  mem_end H Hv Ht. split; [done|]. eexists _, _, _. split; [done|]. split; [done|]. intros n [= <-] -> ->. by rewrite patch_whole.
Qed.
Next Obligation.
  intros w w' r f p o pos Hx H. cbn [SeekFd MemAt_AtCalls] in H. mem_fd H Hx; [done|]. destruct (pos <? 0) eqn:Ep; reflect_bools; by mem_end H Hv Ht.
Qed.
Next Obligation.
  intros w w' r n Hn H. cbn [Rand MemAt_AtCalls] in H. apply scripted_at_inv in H as [([Hv Ht] & e & -> & _)|(w2 & [Hv Ht] & [= <- <-])]; [done|].
  cbn. split_and!; [done..|]. rewrite len_le_bytes. lia.
Qed.

End AtFS.
