(* ===== verification/LocalApplyAt.v ===== *)
(** * Applying a plan under directory descriptors (internal/localsync: apply_at_unix.go)

    [ApplyWithAt] is [ApplyWith] for a source and a destination that are conferred as
    open directories: the same loop ([apply_from] of LocalApply.v), with the operations
    done by openat and its relatives.  [ApplyWithAt_confined] holds whatever links there
    are: nothing changes outside the directory of the destination descriptor, a file is
    published whole or not at all, and every descriptor that is opened on the way is
    closed on every path.  ([ApplyWith_safe] needs that no link is on the way.) *)

From stdpp Require Import gmap.
From S2P Require Import Prelude Sha256 Sorting Codec Journal PathGrammar FilePath FileSystem LocalPayload LocalPlan LocalApply AtFS.
Import Sorting Codec PathGrammar FilePath FileSystem LocalPayload LocalPlan LocalApply AtFS.

Module LocalApplyAt.

Section ApplyAt.
Context {W : Type} `{AtCalls W}.
Abbreviation IO := (io W Error).

(** [defer unix.Close(fd)]. *)
Definition with_close {E A} (f : Z) (c : io W E A) : io W E A := fun w =>
  let '(w, r) := c w in let '(w, _) := CloseFd f w in (w, r).

Definition mapWriteError (op : string) (rel : bytes) (e : Error) : Error :=
  match e with OSError x => mapWriteErr op rel x | _ => wrap KindWrite op rel e end.

(** ** Directories *)

(** journaled_at_unix.go *)
Definition mkdiratOne (dirfd : Z) (name : bytes) (perm : Z) : io W errno unit :=
  let* r := try (Mkdirat dirfd name perm) in
  match r with
  | inl _ => ret tt
  | inr e => if bool_decide (e = EEXIST) then ret tt else throw e
  end.

(** The step to the next directory: the one before is closed. *)
Definition step_down (cur : Z) (comp : bytes) : io W errno Z :=
  let* next := try (Openat cur comp O_DIR 0) in
  let* _ := ignore (CloseFd cur) in
  match next with inl next => ret next | inr e => throw e end.

Fixpoint mkdirat_loop (cur : Z) (comps : list bytes) (perm : Z) : IO Z :=
  match comps with
  | [] => ret cur
  | comp :: comps =>
      if bool_decide (comp = []) || bool_decide (comp = str ".") then mkdirat_loop cur comps perm else
      if bool_decide (comp = str "..") then let* _ := ignore (CloseFd cur) in throw (pathUnsafe "mkdirat") else
      let* r := try (mkdiratOne cur comp perm) in
      match r with
      | inr e => let* _ := ignore (CloseFd cur) in throw (OSError e)
      | inl _ => let* next := or_fail (step_down cur comp) OSError in mkdirat_loop next comps perm
      end
  end.

Definition mkdiratAll (dirfd : Z) (rel : bytes) (perm : Z) : IO Z :=
  if bool_decide (rel = []) || bool_decide (rel = str ".") then or_fail (Dup dirfd) OSError else
  let* cur := or_fail (Dup dirfd) OSError in mkdirat_loop cur (Split rel) perm.

Fixpoint opendir_loop (cur : Z) (comps : list bytes) : io W errno Z :=
  match comps with
  | [] => ret cur
  | comp :: comps =>
      if bool_decide (comp = []) || bool_decide (comp = str ".") then opendir_loop cur comps else
      if bool_decide (comp = str "..") then let* _ := ignore (CloseFd cur) in throw EPERM else
      let* next := step_down cur comp in opendir_loop next comps
  end.

Definition openDirAt (dirfd : Z) (rel : bytes) : io W errno Z :=
  if bool_decide (rel = []) || bool_decide (rel = str ".") then Dup dirfd else
  let* cur := Dup dirfd in opendir_loop cur (Split rel).

(** The parent of a relative path is the directory itself. *)
Definition at_top (parent : bytes) : bool := bool_decide (parent = str ".") || bool_decide (parent = []).

(** ** Reading *)

Definition openatRead (dirfd : Z) (rel : bytes) : io W errno Z :=
  let parent := Dir rel in
  let base := Base rel in
  if at_top parent then Openat dirfd base O_READ 0 else
  let* pfd := openDirAt dirfd parent in
  let* r := try (Openat pfd base O_READ 0) in
  let* _ := ignore (CloseFd pfd) in
  match r with inl f => ret f | inr e => throw e end.

(** hash.go *)
Definition HashOpenedFile (f : Z) : IO (bytes * Z) :=
  let hash e := wrap KindRead "hash" [] (OSError e) in
  let* st := or_fail (Fstat f) hash in
  if negb (bool_decide (SType st = TRegular)) then throw (unsupported "hash" []) else
  let* _ := or_fail (SeekFd f 0) hash in
  let* d := or_fail (ReadFd f) hash in
  ret (SHA256 d, len d).

Definition hashAt (dirfd : Z) (rel : bytes) : IO (bytes * Z) :=
  let* f := or_fail (openatRead dirfd rel) OSError in with_close f (HashOpenedFile f).

Definition hashAtName (dirfd : Z) (name : bytes) : IO (bytes * Z) :=
  let* f := or_fail (Openat dirfd name O_READ 0) OSError in with_close f (HashOpenedFile f).

(** scan_at_unix.go *)
Definition readDirNamesAt (dirfd : Z) : io W errno (list bytes) :=
  let* dup := Dup dirfd in
  with_close dup (let* _ := ignore (SeekFd dup 0) in Readdirnames dup).

(** ** Temporary files *)

Definition createTempAt (dirfd : Z) : io W errno bytes :=
  let* b := Rand 16 in
  let name := tmpPrefix ++ hex_encode b ++ tmpSuffix in
  let* f := Openat dirfd name O_NEW 0x180 in
  let* _ := ignore (CloseFd f) in
  ret name.

Fixpoint cleanup_at_loop (dirfd : Z) (names : list bytes) : io W errno unit :=
  match names with
  | [] => ret tt
  | name :: names =>
      if is_temp name then let* _ := ignore (Unlinkat dirfd name false) in cleanup_at_loop dirfd names
      else cleanup_at_loop dirfd names
  end.

Definition cleanupTempsAt (dirfd : Z) : io W errno unit :=
  let* names := readDirNamesAt dirfd in cleanup_at_loop dirfd names.

(** ** Operations *)

(** Best effort: the directory of the new one is synced. *)
Definition sync_parent (dstDir : Z) (parent : bytes) : IO unit :=
  if at_top parent then ignore (Fsync dstDir) else
  let* r := try (openDirAt dstDir parent) in
  match r with
  | inl pfd => let* _ := ignore (Fsync pfd) in ignore (CloseFd pfd)
  | inr _ => ret tt
  end.

Definition applyMkdirAt (dstDir : Z) (op : Op) : IO unit :=
  let mode := if ExpectedMode op =? 0 then 0x1ED else ExpectedMode op in
  let* s := try (Fstatat dstDir (Rel op)) in
  match s with
  | inl st =>
      if bool_decide (SType st = TSymlink) then throw (unsupported "mkdir" (Rel op))
      else if negb (bool_decide (SType st = TDir)) then throw (classify KindConflict "mkdir" (Rel op))
      else ret tt
  | inr e =>
      if negb (bool_decide (e = ENOENT)) then throw (wrap KindWrite "mkdir" (Rel op) (OSError e)) else
      let* f := or_fail (mkdiratAll dstDir (Rel op) mode) (mapWriteError "mkdir" (Rel op)) in
      let* _ := ignore (CloseFd f) in
      sync_parent dstDir (Dir (Rel op))
  end.

(** From the open of the temporary file to the rename. *)
Definition stageAt (src parentFD : Z) (tmpName base want : bytes) (op : Op) (hooks : option (ApplyHooks W)) : IO Z :=
  let rel := Rel op in
  let* tmp := or_fail (Openat parentFD tmpName O_EMPTY 0) (mapWriteErr "apply" rel) in
  let* copied := try (CopyFd tmp src) in
  let* synced := try (Fsync tmp) in
  let* closed := try (CloseFd tmp) in
  let* written := lift match copied with
    | inl n => Ok n
    | inr e => Err (mapWriteErr "apply" rel e)
    end in
  let* _ := lift match synced, closed with
    | inr e, _ => Err (wrap KindWrite "apply" rel (OSError e))
    | _, inr e => Err (wrap KindWrite "apply" rel (OSError e))
    | _, _ => Ok tt
    end in
  let* _ := run_hook (hooks ≫= fun h => AfterTempSync h ≫= fun f => Some (f (Join (str ".") tmpName))) in
  let* (tmpDig, _) := or_fail (hashAtName parentFD tmpName) (wrap KindVerify "apply" rel) in
  if negb (bool_decide (tmpDig = want)) then throw (classify KindVerify "apply" rel) else
  let mode := if ExpectedMode op =? 0 then 0x1A4 else ExpectedMode op in
  let* _ := or_fail (Fchmodat parentFD tmpName mode) (fun e => wrap KindWrite "apply" rel (OSError e)) in
  let* _ := run_hook (hooks ≫= fun h => BeforeRename h ≫= fun f => Some (f tmpName base)) in
  let* _ := or_fail (Renameat parentFD tmpName parentFD base) (mapWriteErr "apply" rel) in
  ret written.

(** The deferred calls: on a failure before the rename the source is closed and the
    temporary file removed; after it the source is closed. *)
Definition with_source (src parentFD : Z) (tmpName : bytes) (stage : IO Z) (verify : Z -> IO Z) : IO Z := fun w =>
  let '(w, r) := stage w in
  match r with
  | Ok n => with_close src (verify n) w
  | _ => let '(w, _) := CloseFd src w in let '(w, _) := Unlinkat parentFD tmpName false w in (w, r)
  end.

(** From the removal of old temporary files to the final verification. *)
Definition publishAt (srcDir parentFD : Z) (base want : bytes) (op : Op) (hooks : option (ApplyHooks W)) : IO Z :=
  let rel := Rel op in
  let* _ := ignore (cleanupTempsAt parentFD) in
  let* tmpName := or_fail (createTempAt parentFD) (mapWriteErr "apply" rel) in
  let* s := try (openatRead srcDir rel) in
  match s with
  | inr e => let* _ := ignore (Unlinkat parentFD tmpName false) in throw (wrap KindRead "apply" rel (OSError e))
  | inl src =>
      with_source src parentFD tmpName (stageAt src parentFD tmpName base want op hooks) (fun written =>
        let* _ := ignore (Fsync parentFD) in
        let* (finalDig, _) := or_fail (hashAtName parentFD base) (wrap KindVerify "apply" rel) in
        if negb (bool_decide (finalDig = want)) then throw (classify KindVerify "apply" rel) else
        ret written)
  end.

(** The directories above the target. *)
Definition make_parent (dstDir : Z) (parent rel : bytes) : IO unit :=
  if at_top parent then ret tt else
  let* pfd := or_fail (mkdiratAll dstDir parent 0x1ED) (mapWriteError "apply" rel) in
  ignore (CloseFd pfd).

Definition applyFileAt (srcDir dstDir : Z) (op : Op) (hooks : option (ApplyHooks W)) : IO Z :=
  let rel := Rel op in
  let* want := lift (map_err (wrap KindInvalidArgument "apply" rel) (digestFromHex (ExpectedDigestHex op))) in
  let* (got, size) := or_fail (hashAt srcDir rel) (wrap KindRead "apply" rel) in
  if negb (bool_decide (got = want)) || (negb (ExpectedSize op =? 0) && negb (size =? ExpectedSize op))
  then throw (classify KindConflict "apply" rel) else
  let parent := Dir rel in
  let base := Base rel in
  let* _ := make_parent dstDir parent rel in
  let* s := try (Fstatat dstDir rel) in
  let* _ := lift match s with
    | inl st =>
        if bool_decide (SType st = TSymlink) then Err (unsupported "apply" rel)
        else if bool_decide (SType st = TDir) then Err (classify KindConflict "apply" rel)
        else Ok tt
    | inr e => if negb (bool_decide (e = ENOENT)) then Err (wrap KindRead "apply" rel (OSError e)) else Ok tt
    end in
  if at_top parent then publishAt srcDir dstDir base want op hooks else
  let* parentFD := or_fail (openDirAt dstDir parent) (mapWriteErr "apply" rel) in
  with_close parentFD (publishAt srcDir parentFD base want op hooks).

(** ** The plan *)

Definition apply_op_at (srcDir dstDir : Z) (op : Op) (hooks : option (ApplyHooks W)) : IO (Z * bool) :=
  let* _ := lift (validateRel (Rel op)) in
  if bool_decide (Action op = ActionSkip) then ret (0, true)
  else if bool_decide (Action op = ActionMkdir) then
    let* _ := applyMkdirAt dstDir op in ret (0, false)
  else if bool_decide (Action op = ActionCopy) || bool_decide (Action op = ActionReplace) then
    let* n := applyFileAt srcDir dstDir op hooks in ret (n, false)
  else throw (unsupported "applyat" (Rel op)).

(** A descriptor may be nil. *)
Definition ApplyWithAt (srcFD dstFD : option Z) (roots : Roots) (plan : Plan) (opts : ApplyOptions W) : IO (ApplyResult * option Error) :=
  let out := emptyApplied in
  match srcFD, dstFD with
  | Some srcDir, Some dstDir =>
      if negb (bool_decide (SourceRoot plan = [])) && negb (bool_decide (SourceRoot plan = RSource roots))
      then ret (out, Some (invalidArg "applyat")) else
      if negb (bool_decide (DestRoot plan = [])) && negb (bool_decide (DestRoot plan = RDestination roots))
      then ret (out, Some (invalidArg "applyat")) else
      if (StartAt opts <? 0) || (len (Ops plan) <? StartAt opts) then ret (out, Some (invalidArg "applyat")) else
      apply_from (fun op => apply_op_at srcDir dstDir op (Hooks opts)) plan opts
  | _, _ => ret (out, Some (invalidArg "applyat"))
  end.

Definition ApplyAt (srcFD dstFD : option Z) (roots : Roots) (plan : Plan) (hooks : option (ApplyHooks W)) : IO (ApplyResult * option Error) :=
  ApplyWithAt srcFD dstFD roots plan (mkApplyOptions hooks 0 false 0 None).

End ApplyAt.

(** ** Relative paths by their components *)

Lemma rel_rooted c cs : plain c -> rooted (join_slash (c :: cs)) = false.
Proof.
  intros (Hn & _ & _ & Hs). destruct c as [|b c]; [done|]. apply Forall_cons in Hs as [Hb _].
  destruct cs; cbn; apply bool_decide_eq_false_2; intros ->; by vm_compute in Hb.
Qed.

Lemma rel_Clean cs : Forall plain cs -> cs <> [] -> Clean (join_slash cs ++ [slash]) = join_slash cs.
Proof.
  intros Hp Hn. destruct cs as [|c cs]; [done|]. assert (Hr : rooted (join_slash (c :: cs) ++ [slash]) = false).
  { apply Forall_cons in Hp as [Hp _]. pose proof (rel_rooted c cs Hp) as Hx. destruct Hp as [Hne _].
    destruct (join_slash (c :: cs)) as [|b l] eqn:E; [|exact Hx]. exfalso. destruct c; [done|]. destruct cs; discriminate E. }
  unfold Clean, clean_components. rewrite Hr, Split_app, fold_left_app, Split_join by done.
  change (Split []) with [@nil Byte.byte]. rewrite (clean_fold_plain false (c :: cs)) by done. cbn [fold_left].
  change (clean_step false _ []) with (rev (c :: cs) ++ []). rewrite app_nil_r, rev_involutive. by destruct cs.
Qed.

Lemma rel_snoc cs c : cs <> [] -> join_slash (cs ++ [c]) = join_slash cs ++ slash :: c.
Proof.
  induction cs as [|x cs IH]; [done|]. intros _. destruct cs as [|y cs]; [done|]. cbn [app join_slash] in *. rewrite IH by done.
  cbn [app]. by rewrite <- app_assoc.
Qed.

Lemma rel_Dir cs c : Forall plain cs -> plain c -> Dir (join_slash (cs ++ [c])) = match cs with [] => str "." | _ => join_slash cs end.
Proof.
  intros Hcs Hc. unfold Dir. destruct cs as [|x cs].
  - cbn [app join_slash]. assert (upto_slash c = []) as ->; [|done]. unfold upto_slash.
    pose proof (drop_while_app not_slash (rev c) []) as Hd. rewrite app_nil_r in Hd. rewrite Hd; [done|]. by apply no_slash_not, plain_no_slash.
  - rewrite rel_snoc, upto_slash_app by (done || by apply plain_no_slash). by apply rel_Clean.
Qed.

Lemma rel_Base cs c : plain c -> Base (join_slash (cs ++ [c])) = c.
Proof.
  intros Hc. pose proof (plain_no_slash _ Hc) as Hns. pose proof (Base_native cs c Hc) as Hb. unfold Base in *.
  assert (Hlast : exists s x, join_slash (cs ++ [c]) = s ++ [x] /\ not_slash x = true).
  { destruct (exists_last (proj1 Hc)) as (c' & x & ->). assert (Hx : not_slash x = true).
    { apply no_slash_not in Hns. rewrite rev_app_distr in Hns. by apply Forall_cons in Hns as [? _]. }
    destruct cs as [|y cs]; [by exists c', x|]. exists (join_slash (y :: cs) ++ slash :: c'), x. split; [|done].
    by rewrite rel_snoc, <- app_assoc. }
  assert (Hstrip : rev (drop_while (fun b => negb (not_slash b)) (rev (join_slash (cs ++ [c])))) = join_slash (cs ++ [c])).
  { destruct Hlast as (s & x & -> & Hx). rewrite rev_app_distr. cbn [rev app drop_while]. rewrite Hx. cbn [negb]. by rewrite <- rev_unit, rev_involutive. }
  rewrite Hstrip, bool_decide_eq_false_2 by (destruct Hlast as (s & x & -> & _); by destruct s). clear Hlast Hstrip Hb.
  assert (Ha : after_slash (join_slash (cs ++ [c])) = c).
  { destruct cs as [|y cs]; [|rewrite rel_snoc by done; by apply after_slash_app].
    cbn [app join_slash]. unfold after_slash. pose proof (take_while_app not_slash (rev c) [] (no_slash_not _ Hns)) as Ht.
    rewrite app_nil_r in Ht. rewrite Ht. cbn. by rewrite app_nil_r, rev_involutive. }
  rewrite Ha, bool_decide_eq_false_2; [done|]. by destruct Hc.
Qed.

(** ** The calls, on an exact table of descriptors *)

Section AtRules.
Context {W : Type} `{AtLaws W}.

(** The same tree and table. *)
Definition same (w w' : W) : Prop := aview w' = aview w /\ fds w' = fds w.

Lemma same_trans w w1 w2 : same w w1 -> same w1 w2 -> same w w2.
Proof. intros [? ?] [? ?]. split; congruence. Qed.

Lemma wp_with_close {E A} f (c : io W E A) (Q : W -> res E A -> Prop) w :
  wp c (fun w1 r => forall w', aview w' = aview w1 -> fds w' = delete f (fds w1) -> Q w' r) w -> wp (with_close f c) Q w.
Proof.
  unfold wp, with_close. destruct (c w) as [w1 r]. cbn. intros HQ. destruct (CloseFd f w1) as [w2 r2] eqn:E2. cbn.
  apply closefd_law in E2 as (Hv & Hf & _). by apply HQ.
Qed.

Lemma wp_close_fd {E} f (Q : W -> res E unit -> Prop) w :
  (forall w', aview w' = aview w -> fds w' = delete f (fds w) -> Q w' (Ok tt)) -> wp (ignore (CloseFd f)) Q w.
Proof. intros HQ. apply wp_ignore_any. intros w' r (Hv & Hf & Hr)%closefd_law. split; [done|]. by apply HQ. Qed.

Lemma wp_sync {E} f (Q : W -> res E unit -> Prop) w :
  (forall w', same w w' -> Q w' (Ok tt)) -> wp (ignore (Fsync f)) Q w.
Proof. intros HQ. apply wp_ignore_any. intros w' r (Hv & Hf & Hr)%fsync_law. split; [done|]. by apply HQ. Qed.

Lemma wp_dup B d x (Q : W -> res errno Z -> Prop) w :
  fds w = B -> B !! d = Some x ->
  (forall w' f, B !! f = None -> fds w' = <[f := x]> B -> aview w' = aview w -> Q w' (Ok f)) ->
  (forall w' e, same w w' -> Q w' (Err e)) -> wp (Dup d) Q w.
Proof.
  intros <- Hd HQ HE. apply wp_call. intros w' r E. eapply dup_law in E as [Hv Hr]; [|done].
  destruct r as [f|e|]; [destruct Hr; by apply HQ|by apply HE|done].
Qed.

Lemma wp_openat B d ds o c fl m (Q : W -> res errno Z -> Prop) w :
  fds w = B -> B !! d = Some (mkDesc ds o) -> plain c ->
  (forall w' f, B !! f = None -> fds w' = <[f := mkDesc (ds ++ [c]) 0]> B -> opened fl (ds ++ [c]) (aview w) (aview w') -> Q w' (Ok f)) ->
  (forall w' e, same w w' -> Q w' (Err e)) -> wp (Openat d c fl m) Q w.
Proof.
  intros <- Hd Hc HQ HE. apply wp_call. intros w' r E. eapply openat_law in E; [|done..].
  destruct r as [f|e|]; [destruct E as (? & ? & ?); by apply HQ|destruct E as (? & ? & _); by apply HE|done].
Qed.

Lemma opened_read fl p v v' : o_creat fl = false -> o_trunc fl = false -> opened fl p v v' -> v' = v /\ is_Some (v !! p).
Proof.
  intros Hc Ht. unfold opened. rewrite Hc, Ht. destruct (v !! p) as [n|]; [|naive_solver].
  intros (_ & _ & _ & _ & ->). split; [by destruct n|done].
Qed.

Lemma opened_dir p v v' : opened O_DIR p v v' -> v' = v /\ exists m, v !! p = Some (NDir m).
Proof.
  intros Ho. pose proof (opened_read O_DIR p v v' eq_refl eq_refl Ho) as [-> _]. split; [done|]. unfold opened in Ho.
  destruct (v !! p) as [n|]; [|naive_solver]. destruct Ho as (_ & _ & Hd & _). specialize (Hd eq_refl). destruct n as [m| |[]]; try done. by exists m.
Qed.

(** ** Directories *)

Lemma wp_step_down B cur p o c (Q : W -> res errno Z -> Prop) w :
  B !! cur = None -> fds w = <[cur := mkDesc p o]> B -> plain c ->
  (forall w' next m, B !! next = None -> fds w' = <[next := mkDesc (p ++ [c]) 0]> B -> aview w' = aview w ->
     aview w !! (p ++ [c]) = Some (NDir m) -> Q w' (Ok next)) ->
  (forall w' e, fds w' = B -> aview w' = aview w -> Q w' (Err e)) -> wp (step_down cur c) Q w.
Proof.
  intros Hcur Hf Hc HQ HE. unfold step_down. apply wp_bind, wp_try. eapply wp_openat; [exact Hf|by rewrite lookup_insert_eq|done|..].
  - intros w1 next Hn Hf1 Ho. apply opened_dir in Ho as [Hv1 [m Hm]]. apply lookup_insert_None in Hn as [Hn Hne].
    apply wp_bind, wp_close_fd. intros w2 Hv2 Hf2. apply wp_ret. eapply HQ; [done| |congruence|exact Hm].
    rewrite Hf2, Hf1, delete_insert_ne, delete_insert_id by done. done.
  - intros w1 e [Hv1 Hf1]. apply wp_bind, wp_close_fd. intros w2 Hv2 Hf2. apply wp_throw, HE; [|congruence].
    by rewrite Hf2, Hf1, Hf, delete_insert_id.
Qed.

Lemma wp_opendir_loop B cs : forall cur p o (Q : W -> res errno Z -> Prop) w,
  B !! cur = None -> fds w = <[cur := mkDesc p o]> B -> Forall plain cs ->
  (forall w' f o', B !! f = None -> fds w' = <[f := mkDesc (p ++ cs) o']> B -> aview w' = aview w -> Q w' (Ok f)) ->
  (forall w' e, fds w' = B -> aview w' = aview w -> Q w' (Err e)) -> wp (opendir_loop cur cs) Q w.
Proof.
  induction cs as [|c cs IH]; intros cur p o Q w Hcur Hf Hp HQ HE; cbn [opendir_loop].
  { apply wp_ret. eapply HQ; [done| |done]. by rewrite app_nil_r. }
  apply Forall_cons in Hp as [(Hc1 & Hc2 & Hc3 & Hc4) Hp]. rewrite !bool_decide_eq_false_2 by done. cbn [orb].
  apply wp_bind. eapply wp_step_down; [done..|by split_and!| |done].
  intros w1 next m Hn Hf1 Hv1 _. eapply IH; [done|done|done|..].
  - intros w2 f o' Hfr Hf2 Hv2. eapply HQ; [done| |congruence]. by rewrite <- app_assoc in Hf2.
  - intros w2 e Hf2 Hv2. apply HE; [done|congruence].
Qed.

Lemma rel_not_dot cs : Forall plain cs -> cs <> [] -> bool_decide (join_slash cs = []) || bool_decide (join_slash cs = str ".") = false.
Proof.
  intros Hp Hn. assert (Hs : Split (join_slash cs) = cs) by (destruct cs; [done|by apply Split_join]).
  rewrite !bool_decide_eq_false_2; [done|..]; intros E; rewrite E in Hs; vm_compute in Hs; subst cs; apply Forall_cons in Hp as [(H1 & H2 & _) _]; by vm_compute in H1, H2.
Qed.

Lemma rel_Split cs : Forall plain cs -> cs <> [] -> Split (join_slash cs) = cs.
Proof. intros Hp Hn. destruct cs; [done|by apply Split_join]. Qed.

Lemma wp_openDirAt B d ds o cs (Q : W -> res errno Z -> Prop) w :
  fds w = B -> B !! d = Some (mkDesc ds o) -> Forall plain cs -> cs <> [] ->
  (forall w' f o', B !! f = None -> fds w' = <[f := mkDesc (ds ++ cs) o']> B -> aview w' = aview w -> Q w' (Ok f)) ->
  (forall w' e, same w w' -> Q w' (Err e)) -> wp (openDirAt d (join_slash cs)) Q w.
Proof.
  intros Hf Hd Hp Hn HQ HE. unfold openDirAt. rewrite rel_not_dot, rel_Split by done. apply wp_bind. eapply wp_dup; [done..| |done].
  intros w1 cur Hc Hf1 Hv1. eapply wp_opendir_loop; [done..| |].
  - intros w2 f o' Hfr Hf2 Hv2. eapply HQ; [done|done|congruence].
  - intros w2 e Hf2 Hv2. apply HE. split; congruence.
Qed.

(** Directories made below [ds] on the way to [ds ++ cs]. *)
Definition below (ds cs q : list bytes) : Prop := exists p, p <> [] /\ p `prefix_of` cs /\ q = ds ++ p.

Lemma below_app ds c cs q : below (ds ++ [c]) cs q -> below ds (c :: cs) q.
Proof. intros (p & Hn & Hp & ->). exists (c :: p). split; [done|]. split; [by apply prefix_cons|]. by rewrite <- app_assoc. Qed.

Lemma evolves_mkdir (X D : list bytes -> Prop) v q m : D q -> v !! q = None -> evolves X D v (<[q := NDir m]> v).
Proof.
  intros HD Hn p. destruct (decide (p = q)) as [->|Hne].
  - rewrite lookup_insert_eq. split; [|done]. right. right. eauto.
  - rewrite lookup_insert_ne by done. auto.
Qed.

Lemma wp_mkdiratOne B d ds o c m (X D : list bytes -> Prop) (Q : W -> res errno unit -> Prop) w :
  fds w = B -> B !! d = Some (mkDesc ds o) -> plain c -> D (ds ++ [c]) ->
  (forall w' r, fds w' = B -> evolves X D (aview w) (aview w') -> r <> Panic -> Q w' r) -> wp (mkdiratOne d c m) Q w.
Proof.
  intros Hf Hd Hc HD HQ. unfold mkdiratOne. apply wp_bind, wp_try, wp_call. intros w1 r1 E1. rewrite <- Hf in Hd.
  eapply mkdirat_law in E1 as [Hf1 Hr1]; [|done..]. rewrite Hf in Hf1. destruct r1 as [[]|e|]; [..|done].
  - destruct Hr1 as (Hn & m' & Hv). apply wp_ret, HQ; [done| |done]. rewrite Hv. by apply evolves_mkdir.
  - destruct Hr1 as [Hv _]. case_bool_decide; [apply wp_ret|apply wp_throw]; (apply HQ; [done|by apply evolves_eq|done]).
Qed.

Lemma wp_mkdirat_loop B perm cs : forall cur p o (Q : W -> res Error Z -> Prop) w,
  B !! cur = None -> fds w = <[cur := mkDesc p o]> B -> Forall plain cs ->
  (forall w' f o', B !! f = None -> fds w' = <[f := mkDesc (p ++ cs) o']> B ->
     evolves (fun _ => False) (below p cs) (aview w) (aview w') ->
     (cs <> [] -> exists m, aview w' !! (p ++ cs) = Some (NDir m)) -> Q w' (Ok f)) ->
  (forall w' e, fds w' = B -> evolves (fun _ => False) (below p cs) (aview w) (aview w') -> Q w' (Err e)) ->
  wp (mkdirat_loop cur cs perm) Q w.
Proof.
  induction cs as [|c cs IH]; intros cur p o Q w Hcur Hf Hp HQ HE; cbn [mkdirat_loop].
  { apply wp_ret. eapply HQ; [done| |apply evolves_refl|done]. by rewrite app_nil_r. }
  apply Forall_cons in Hp as [Hc Hp]. pose proof Hc as (Hc1 & Hc2 & Hc3 & Hc4). rewrite !bool_decide_eq_false_2 by done. cbn [orb].
  apply wp_bind, wp_try. eapply (wp_mkdiratOne _ cur p o c perm (fun _ => False) (below p (c :: cs))); [exact Hf|by rewrite lookup_insert_eq|done| |].
  { exists [c]. split; [done|]. split; [apply prefix_cons, prefix_nil|done]. }
  intros w1 r1 Hf1 He1 Hr1. destruct r1 as [[]|e|]; [..|done]; cycle 1.
  { apply wp_bind, wp_close_fd. intros w2 Hv2 Hf2. apply wp_throw, HE; [by rewrite Hf2, Hf1, delete_insert_id|by rewrite Hv2]. }
  apply wp_bind, wp_or_fail. eapply wp_step_down; [done|exact Hf1|done|..].
  - intros w2 next m Hn Hf2 Hv2 Hm. cbn [map_err]. eapply IH; [done..| |].
    + intros w3 f o' Hfr Hf3 He3 Hm3. rewrite Hv2 in He3. eapply HQ; [done|by rewrite <- app_assoc in Hf3| |].
      * eapply evolves_trans; [exact He1|]. eapply evolves_mono; [| |exact He3]; [done|]. intros q. apply below_app.
      * intros _. destruct cs as [|c' cs].
        -- destruct (He3 (p ++ [c])) as [[->|[[]|(Hx & _)]] _]; [by exists m|congruence].
        -- destruct Hm3 as [m3 Hm3]; [done|]. exists m3. by rewrite <- app_assoc in Hm3.
    + intros w3 e Hf3 He3. rewrite Hv2 in He3. apply HE; [done|]. eapply evolves_trans; [exact He1|].
      eapply evolves_mono; [| |exact He3]; [done|]. intros q. apply below_app.
  - intros w2 e Hf2 Hv2. cbn [map_err]. apply HE; [done|by rewrite Hv2].
Qed.

Lemma wp_mkdiratAll B d ds o cs perm (Q : W -> res Error Z -> Prop) w :
  fds w = B -> B !! d = Some (mkDesc ds o) -> Forall plain cs -> cs <> [] ->
  (forall w' f o' m, B !! f = None -> fds w' = <[f := mkDesc (ds ++ cs) o']> B ->
     evolves (fun _ => False) (below ds cs) (aview w) (aview w') -> aview w' !! (ds ++ cs) = Some (NDir m) -> Q w' (Ok f)) ->
  (forall w' e, fds w' = B -> evolves (fun _ => False) (below ds cs) (aview w) (aview w') -> Q w' (Err e)) ->
  wp (mkdiratAll d (join_slash cs) perm) Q w.
Proof.
  intros Hf Hd Hp Hn HQ HE. unfold mkdiratAll. rewrite rel_not_dot, rel_Split by done. apply wp_bind, wp_or_fail. eapply wp_dup; [done..| |].
  - intros w1 cur Hc Hf1 Hv1. cbn [map_err]. eapply wp_mkdirat_loop; [done..| |].
    + intros w2 f o' Hfr Hf2 He2 Hm2. rewrite Hv1 in He2. destruct (Hm2 Hn) as [m Hm]. by eapply HQ.
    + intros w2 e Hf2 He2. rewrite Hv1 in He2. by apply HE.
  - intros w1 e [Hv1 Hf1]. cbn [map_err]. apply HE; [congruence|by apply evolves_eq].
Qed.

(** ** Reading *)

Lemma wp_HashOpenedFile B f p (Q : W -> res Error (bytes * Z) -> Prop) w :
  fds w = <[f := mkDesc p 0]> B ->
  (forall w' r o, aview w' = aview w -> fds w' = <[f := mkDesc p o]> B ->
     match r with
     | Ok (h, n) => exists m d, aview w !! p = Some (NFile m d) /\ h = SHA256 d /\ n = len d
     | Err _ => True
     | Panic => False
     end -> Q w' r) -> wp (HashOpenedFile f) Q w.
Proof.
  intros Hf HQ. unfold HashOpenedFile. apply wp_bind, wp_or_fail, wp_call. intros w1 r1 E1.
  apply (fstat_law _ _ _ _ (mkDesc p 0)) in E1 as (Hv1 & Hf1 & Hr1); [|by rewrite Hf, lookup_insert_eq]. rewrite Hf in Hf1.
  destruct r1 as [st|e|]; cbn [map_err]; [|by eapply HQ|done]. case_if; [by eapply wp_throw, HQ|].
  apply wp_bind, wp_or_fail, wp_call. intros w2 r2 E2.
  apply (seekfd_law _ _ _ _ p 0) in E2 as [Hv2 Hr2]; [|by rewrite Hf1, lookup_insert_eq]. rewrite Hv1 in Hv2. rewrite Hf1 in Hr2.
  destruct r2 as [[]|e|]; cbn [map_err]; [|by eapply HQ|done]. destruct Hr2 as [_ Hr2]. rewrite insert_insert_eq in Hr2.
  apply wp_bind, wp_or_fail, wp_call. intros w3 r3 E3.
  apply (readfd_law _ _ _ _ p 0) in E3 as (Hv3 & [o Hf3] & Hr3); [|by rewrite Hr2, lookup_insert_eq].
  rewrite Hr2, insert_insert_eq in Hf3. rewrite Hv2 in Hv3, Hr3. destruct r3 as [d|e|]; cbn [map_err]; [|by eapply HQ|done].
  apply wp_ret. eapply HQ; [done..|]. destruct Hr3 as (m & x & Hx & ->). by exists m, x.
Qed.

(** What a hash relative to a descriptor returns: the tree and the table stay. *)
Definition hashed (p : list bytes) (w w' : W) (r : res Error (bytes * Z)) : Prop :=
  same w w' /\
  match r with
  | Ok (h, n) => exists m d, aview w !! p = Some (NFile m d) /\ h = SHA256 d /\ n = len d
  | Err _ => True
  | Panic => False
  end.

Lemma wp_hash_close B f p (Q : W -> res Error (bytes * Z) -> Prop) w0 w :
  B !! f = None -> fds w = <[f := mkDesc p 0]> B -> aview w = aview w0 -> fds w0 = B ->
  (forall w' r, hashed p w0 w' r -> Q w' r) -> wp (with_close f (HashOpenedFile f)) Q w.
Proof.
  intros Hn Hf Hv Hf0 HQ. apply wp_with_close. eapply wp_HashOpenedFile; [exact Hf|]. intros w1 r o Hv1 Hf1 Hr w' Hv' Hf'. apply HQ.
  split; [|destruct r as [[]| |]; [by rewrite Hv in Hr|done..]]. split; [congruence|]. by rewrite Hf', Hf1, delete_insert_id.
Qed.

Lemma wp_hashAtName B d ds o c (Q : W -> res Error (bytes * Z) -> Prop) w :
  fds w = B -> B !! d = Some (mkDesc ds o) -> plain c ->
  (forall w' r, hashed (ds ++ [c]) w w' r -> Q w' r) -> wp (hashAtName d c) Q w.
Proof.
  intros Hf Hd Hc HQ. apply wp_bind, wp_or_fail. eapply wp_openat; [done..| |].
  - intros w1 f Hn Hf1 Ho. cbn [map_err]. apply opened_read in Ho as [Hv _]; [|done..]. by eapply wp_hash_close.
  - intros w1 e Hs. cbn [map_err]. by apply HQ.
Qed.

Lemma at_top_Dir cs c : Forall plain cs -> plain c -> at_top (Dir (join_slash (cs ++ [c]))) = bool_decide (cs = []).
Proof.
  intros Hcs Hc. rewrite rel_Dir by done. destruct cs as [|x cs]; [done|]. unfold at_top.
  rewrite orb_comm, rel_not_dot by done. done.
Qed.

Lemma Dir_deep cs c : Forall plain cs -> plain c -> cs <> [] -> Dir (join_slash (cs ++ [c])) = join_slash cs.
Proof. intros Hcs Hc Hn. rewrite rel_Dir by done. by destruct cs. Qed.

Lemma wp_openatRead B d ds o cs c (Q : W -> res errno Z -> Prop) w :
  fds w = B -> B !! d = Some (mkDesc ds o) -> Forall plain cs -> plain c ->
  (forall w' f, B !! f = None -> fds w' = <[f := mkDesc (ds ++ cs ++ [c]) 0]> B -> aview w' = aview w -> Q w' (Ok f)) ->
  (forall w' e, same w w' -> Q w' (Err e)) -> wp (openatRead d (join_slash (cs ++ [c]))) Q w.
Proof.
  intros Hf Hd Hcs Hc HQ HE. unfold openatRead. rewrite at_top_Dir, rel_Base by done. case_bool_decide as Hn.
  { subst cs. eapply wp_openat; [done..| |done]. intros w1 f Hfr Hf1 Ho. apply opened_read in Ho as [Hv _]; [|done..]. by apply HQ. }
  rewrite Dir_deep by done. apply wp_bind. eapply wp_openDirAt; [done..| |done].
  intros w1 pfd o1 Hp Hf1 Hv1. apply wp_bind, wp_try. eapply wp_openat; [exact Hf1|by rewrite lookup_insert_eq|done|..].
  - intros w2 f Hfr Hf2 Ho. apply opened_read in Ho as [Hv2 _]; [|done..]. apply lookup_insert_None in Hfr as [Hfr Hne].
    apply wp_bind, wp_close_fd. intros w3 Hv3 Hf3. apply wp_ret, HQ; [done| |congruence].
    rewrite Hf3, Hf2, delete_insert_ne, delete_insert_id by done. by rewrite <- app_assoc.
  - intros w2 e [Hv2 Hf2]. apply wp_bind, wp_close_fd. intros w3 Hv3 Hf3. apply wp_throw, HE. split; [congruence|].
    by rewrite Hf3, Hf2, Hf1, delete_insert_id.
Qed.

Lemma wp_hashAt B d ds o cs c (Q : W -> res Error (bytes * Z) -> Prop) w :
  fds w = B -> B !! d = Some (mkDesc ds o) -> Forall plain cs -> plain c ->
  (forall w' r, hashed (ds ++ cs ++ [c]) w w' r -> Q w' r) -> wp (hashAt d (join_slash (cs ++ [c]))) Q w.
Proof.
  intros Hf Hd Hcs Hc HQ. apply wp_bind, wp_or_fail. eapply wp_openatRead; [done..| |].
  - intros w1 f Hn Hf1 Hv. cbn [map_err]. by eapply wp_hash_close.
  - intros w1 e Hs. cbn [map_err]. by apply HQ.
Qed.

(** ** Temporary files *)

Lemma wp_readDirNamesAt B d ds o (Q : W -> res errno (list bytes) -> Prop) w :
  fds w = B -> B !! d = Some (mkDesc ds o) ->
  (forall w' r, same w w' ->
     match r with
     | Ok names => NoDup names /\ forall c, c ∈ names <-> plain c /\ is_Some (aview w !! (ds ++ [c]))
     | Err _ => True
     | Panic => False
     end -> Q w' r) -> wp (readDirNamesAt d) Q w.
Proof.
  intros Hf Hd HQ. apply wp_bind. eapply wp_dup; [done..| |by intros; apply HQ].
  intros w1 f Hn Hf1 Hv1. apply wp_with_close, wp_bind, wp_ignore_any. intros w2 r2 E2.
  apply (seekfd_law _ _ _ _ ds o) in E2 as [Hv2 Hr2]; [|by rewrite Hf1, lookup_insert_eq].
  assert (exists o2, fds w2 = <[f := mkDesc ds o2]> B) as [o2 Hf2].
  { rewrite Hf1 in Hr2. destruct r2; [|by eauto|done]. destruct Hr2 as [_ Hr2]. rewrite insert_insert_eq in Hr2. eauto. }
  split; [by destruct r2|]. apply wp_call. intros w3 r3 E3.
  apply (readdirnames_law _ _ _ _ (mkDesc ds o2)) in E3 as (Hv3 & Hf3 & Hr3); [|by rewrite Hf2, lookup_insert_eq].
  intros w' Hv' Hf'. apply HQ; [|by rewrite Hv2, Hv1 in Hr3]. split; [congruence|]. by rewrite Hf', Hf3, Hf2, delete_insert_id.
Qed.

(** No descriptor of the table is at a path or below it. *)
Definition apart (B : table) (q : list bytes) : Prop := forall f x, B !! f = Some x -> ~ q `prefix_of` dpath x.

Lemma forget_apart B q : apart B q -> forget q B = B.
Proof.
  intros Ha. apply map_eq. intros f. rewrite lookup_forget. destruct (B !! f) as [x|] eqn:E; [|done]. cbn.
  rewrite bool_decide_eq_false_2; [done|]. by eapply Ha.
Qed.

Lemma delete_forget q f B : delete f (forget q B) = forget q (delete f B).
Proof. symmetry. apply map_filter_delete. Qed.

Lemma apart_insert B q f x : apart B q -> ~ q `prefix_of` dpath x -> apart (<[f := x]> B) q.
Proof. intros Ha Hq g y Hy. apply lookup_insert_Some in Hy as [[<- <-]|[_ Hy]]; [done|]. by eapply Ha. Qed.

Lemma not_prefix_snoc {A} (ds : list A) c : ~ ds ++ [c] `prefix_of` ds.
Proof. intros Hp%prefix_length. rewrite length_app in Hp. cbn in Hp. lia. Qed.

Lemma wp_unlink {E} B d ds o c (Q : W -> res E unit -> Prop) w :
  fds w = B -> B !! d = Some (mkDesc ds o) -> plain c -> apart B (ds ++ [c]) ->
  (forall w', fds w' = B -> aview w' = aview w \/ aview w' = delete (ds ++ [c]) (aview w) -> Q w' (Ok tt)) ->
  wp (ignore (Unlinkat d c false)) Q w.
Proof.
  intros Hf Hd Hc Ha HQ. apply wp_ignore_any. intros w1 r1 E1. rewrite <- Hf in Hd. eapply unlinkat_law in E1; [|done..].
  destruct r1 as [[]|e|]; [..|done]; (split; [done|]).
  - destruct E1 as (Hv & Hf1 & _). rewrite Hf, forget_apart in Hf1 by done. apply HQ; auto.
  - destruct E1 as [Hv Hf1]. rewrite Hf in Hf1. apply HQ; auto.
Qed.

Lemma wp_cleanup_at_loop B d ds o names (Q : W -> res errno unit -> Prop) w :
  fds w = B -> B !! d = Some (mkDesc ds o) -> (forall q, temp_in ds q -> apart B q) -> (forall c, c ∈ names -> plain c) ->
  (forall w', fds w' = B -> evolves (temp_in ds) (fun _ => False) (aview w) (aview w') -> Q w' (Ok tt)) ->
  wp (cleanup_at_loop d names) Q w.
Proof.
  revert w. induction names as [|c names IH]; intros w Hf Hd Ha Hn HQ; cbn [cleanup_at_loop].
  { apply wp_ret, HQ; [done|apply evolves_refl]. }
  assert (Hns : forall c', c' ∈ names -> plain c') by (intros; apply Hn; by right).
  destruct (is_temp c) eqn:Et; [|by apply IH].
  assert (Hx : temp_in ds (ds ++ [c])) by (eexists; eauto).
  apply wp_bind. eapply wp_unlink; [done..|apply Hn; left|by apply Ha|]. intros w1 Hf1 Hv1. apply IH; [done..|].
  intros w' Hf' He. apply HQ; [done|]. eapply evolves_trans; [|exact He]. destruct Hv1 as [->| ->]; [apply evolves_refl|by apply evolves_delete].
Qed.

Lemma wp_cleanupTempsAt B d ds o (Q : W -> res errno unit -> Prop) w :
  fds w = B -> B !! d = Some (mkDesc ds o) -> (forall q, temp_in ds q -> apart B q) ->
  (forall w' r, fds w' = B -> evolves (temp_in ds) (fun _ => False) (aview w) (aview w') -> r <> Panic -> Q w' r) ->
  wp (cleanupTempsAt d) Q w.
Proof.
  intros Hf Hd Ha HQ. apply wp_bind. eapply wp_readDirNamesAt; [done..|]. intros w1 r1 [Hv1 Hf1] Hr1. rewrite Hf in Hf1.
  destruct r1 as [names|e|]; [|apply HQ; [done|by apply evolves_eq|done]|done].
  eapply wp_cleanup_at_loop; [done..|by intros c Hc; apply Hr1|]. intros w' Hf' He. rewrite Hv1 in He. by apply HQ.
Qed.

Lemma opened_new p v v' : opened O_NEW p v v' -> v !! p = None /\ exists m, v' = <[p := NFile m []]> v.
Proof. unfold opened. destruct (v !! p); [naive_solver|]. intros [_ ?]. done. Qed.

Lemma wp_createTempAt B d ds o (Q : W -> res errno bytes -> Prop) w :
  fds w = B -> B !! d = Some (mkDesc ds o) ->
  (forall w' t m, plain t -> is_temp t = true -> fds w' = B -> aview w' = <[ds ++ [t] := NFile m []]> (aview w) -> Q w' (Ok t)) ->
  (forall w' e, same w w' -> Q w' (Err e)) -> wp (createTempAt d) Q w.
Proof.
  intros Hf Hd HQ HE. apply wp_bind, wp_call. intros w1 r1 (Hv1 & Hf1 & Hr1)%rand_law; [|lia].
  destruct r1 as [b|e|]; [|by apply HE|done]. cbv zeta. change (tmpPrefix ++ _) with (temp_name b). destruct (temp_name_plain b) as [Ht Hit].
  rewrite Hf in Hf1. apply wp_bind. eapply wp_openat; [done..| |].
  - intros w2 f Hn Hf2 Ho. apply opened_new in Ho as (_ & m & Hv2). apply wp_bind, wp_close_fd. intros w3 Hv3 Hf3.
    apply wp_ret. eapply HQ; [done..| |by rewrite Hv3, Hv2, Hv1]. by rewrite Hf3, Hf2, delete_insert_id.
  - intros w2 e Hs. apply HE. eapply same_trans; [|exact Hs]. split; congruence.
Qed.

(** ** Publication of one file *)

Lemma opened_empty p v v' m d : v !! p = Some (NFile m d) -> opened O_EMPTY p v v' -> v' = <[p := NFile m []]> v.
Proof. intros E. unfold opened. rewrite E. cbn. tauto. Qed.

Lemma wp_rename B d ds o t c m x (Q : W -> res errno unit -> Prop) w :
  fds w = B -> B !! d = Some (mkDesc ds o) -> plain t -> plain c -> aview w !! (ds ++ [t]) = Some (NFile m x) ->
  (forall w', aview w' = <[ds ++ [c] := NFile m x]> (delete (ds ++ [t]) (aview w)) ->
     fds w' = forget (ds ++ [t]) (forget (ds ++ [c]) B) -> Q w' (Ok tt)) ->
  (forall w' e, same w w' -> Q w' (Err e)) -> wp (Renameat d t d c) Q w.
Proof.
  intros <- Hd Ht Hc Hx HQ HE. apply wp_call. intros w' r E.
  assert (Hclear : clear_way (aview w) ds []) by (intros p ->%prefix_nil_inv; done).
  apply (renameat_law _ _ _ _ ds o [] t _ ds o [] c m x) in E; [|done..]. cbn [app] in E.
  destruct r as [[]|e|]; [|by apply HE|done]. destruct E. by apply HQ.
Qed.

(** Up to the rename, only the temporary file changes; the rename publishes the verified
    content. *)
Lemma wp_stageAt B src y d ds o c t want op m0 (Q : W -> res Error Z -> Prop) w :
  fds w = <[src := y]> B -> B !! src = None -> B !! d = Some (mkDesc ds o) -> plain c -> plain t ->
  (forall q, file_paths ds c q -> apart B q) -> is_temp t = true -> aview w !! (ds ++ [t]) = Some (NFile m0 []) ->
  (forall w' x, SHA256 x = want -> delete src (fds w') = B -> fds w' !! d = Some (mkDesc ds o) ->
     aview w' = <[ds ++ [c] := NFile (file_mode op) x]> (delete (ds ++ [t]) (aview w)) -> Q w' (Ok (len x))) ->
  (forall w' e y' m x, fds w' = <[src := y']> B -> aview w' = <[ds ++ [t] := NFile m x]> (aview w) -> Q w' (Err e)) ->
  wp (stageAt src d t c want op None) Q w.
Proof.
  intros Hf Hs Hd Hc Ht Ha Htt Hn HQ HE. unfold stageAt. cbv zeta.
  assert (Hne : d <> src) by congruence.
  assert (Hdm : forall z : desc, (<[src := z]> B) !! d = Some (mkDesc ds o)) by (intros; by rewrite lookup_insert_ne).
  assert (V0 : forall w' e, same w w' -> Q w' (Err e)).
  { intros w' e [Hv Hf']. eapply (HE _ _ y m0 []); [congruence|]. by rewrite Hv, insert_id. }
  apply wp_bind, wp_or_fail. eapply wp_openat; [exact Hf|done|done| |by intros; apply V0].
  intros w1 tmp Htmp Hf1 Ho. cbn [map_err]. apply lookup_insert_None in Htmp as [Htmp Hts]. eapply opened_empty in Ho; [|done].
  rewrite insert_id in Ho by done. apply wp_bind, wp_try, wp_call. intros w2 r2 E2.
  apply (copyfd_law _ _ _ _ _ (ds ++ [t]) 0 y m0 []) in E2 as (Hr2 & x & o1 & o2 & Hv2 & Hf2 & Hx);
    [|by rewrite Hf1, lookup_insert_eq|by rewrite Hf1, lookup_insert_ne, lookup_insert_eq|done|by rewrite Ho].
  rewrite Ho in Hv2. set (y2 := mkDesc (dpath y) o2) in *.
  assert (Hcopy : exists c2, match r2 with Ok a => Ok (inl a) | Err e => Ok (inr e) | Panic => Panic end
                    = @Ok Error (Z + errno) c2 /\ forall n, c2 = inl n -> n = len x).
  { destruct r2; [..|done]; eexists; (split; [done|]); [|done]. intros n [= <-]. by apply Hx. }
  destruct Hcopy as (c2 & -> & Hc2).
  apply wp_bind, wp_try_any. intros w3 r3 (Hv3 & Hf3 & Hr3)%fsync_law. split; [done|]. intros x3.
  apply wp_bind, wp_try_any. intros w4 r4 (Hv4 & Hf4 & Hr4)%closefd_law. split; [done|]. intros x4.
  rewrite Hv3, Hv2 in Hv4.
  assert (Hf4' : fds w4 = <[src := y2]> B).
  { rewrite Hf4, Hf3, Hf2, Hf1. apply map_eq. intros i. destruct (decide (i = tmp)) as [->|]; [by rewrite lookup_delete_eq, lookup_insert_ne|].
    rewrite lookup_delete_ne by done. destruct (decide (i = src)) as [->|]; [by rewrite !lookup_insert_eq|]. by rewrite !lookup_insert_ne. }
  assert (HE4 : forall w' e, aview w' = aview w4 -> fds w' = fds w4 -> Q w' (Err e)).
  { intros w' e Hv Hf'. eapply HE; [by rewrite Hf'|by rewrite Hv, Hv4]. }
  apply wp_bind, wp_lift. destruct c2 as [n|e]; [|by apply HE4]. rewrite (Hc2 n) by done.
  apply wp_bind, wp_lift. destruct x3; [|by apply HE4]. destruct x4; [|by apply HE4].
  apply wp_bind, wp_ret, wp_bind, wp_or_fail. eapply wp_hashAtName; [exact Hf4'|done|done|]. intros w5 r5 [[Hv5 Hf5] Hr5].
  destruct r5 as [[h k]|e|]; cbn [map_err]; [|by apply HE4|done]. destruct Hr5 as (m & x' & Hx' & -> & _).
  rewrite Hv4, lookup_insert_eq in Hx'. injection Hx' as <- <-.
  destruct (bool_decide _) eqn:Ew; [|by apply wp_throw, HE4]. cbn [negb]. reflect_bools.
  rewrite Hf4' in Hf5. apply wp_bind, wp_or_fail, wp_call. intros w6 r6 E6.
  apply (fchmodat_law _ _ _ _ ds o _ m0 _ x) in E6 as [Hf6 Hr6]; [|by rewrite Hf5|done|by rewrite Hv5, Hv4, lookup_insert_eq]. rewrite Hf5 in Hf6.
  destruct r6 as [[]|e|]; cbn [map_err]; [|eapply HE; [exact Hf6|by rewrite Hr6, Hv5, Hv4]|done].
  fold (file_mode op) in Hr6. rewrite Hv5, Hv4, insert_insert_eq in Hr6.
  apply wp_bind, wp_ret, wp_bind, wp_or_fail. eapply wp_rename; [exact Hf6|done..|by rewrite Hr6, lookup_insert_eq| |].
  - intros w7 Hv7 Hf7. cbn [map_err]. apply wp_ret, HQ; [done|..].
    + rewrite Hf7, !delete_forget, delete_insert_id by done. rewrite (forget_apart B (ds ++ [c])), forget_apart; [done| |]; apply Ha; [right; by exists t|by left].
    + rewrite Hf7. apply forget_keeps; [apply forget_keeps|]; [done|apply not_prefix_snoc..].
    + by rewrite Hv7, Hr6, delete_insert_eq.
  - intros w7 e [Hv7 Hf7]. cbn [map_err]. eapply HE; [by rewrite Hf7|by rewrite Hv7].
Qed.

(** What a publication ends with: the table as before, and the target as before or as
    planned. *)
Definition put (op : Op) (q : list bytes) (w w' : W) (r : res Error Z) : Prop :=
  fds w' = fds w /\
  match r with
  | Ok n => published op q (aview w') /\ exists m x, aview w' !! q = Some (NFile m x) /\ n = len x
  | Err _ => aview w' !! q = aview w !! q \/ published op q (aview w')
  | Panic => False
  end.

Lemma evolves_temp ds c v v' :
  evolves (temp_in ds) (fun _ => False) v v' -> is_temp c = false ->
  evolves (file_paths ds c) (fun _ => False) v v' /\ v' !! (ds ++ [c]) = v !! (ds ++ [c]).
Proof.
  intros He Hc. split; [eapply evolves_mono; [| |exact He]; [|done]; intros q; by right|].
  eapply evolves_target; [|exact Hc]. by eapply evolves_mono; [| |exact He].
Qed.

Lemma wp_deferred src d t (stage : io W Error Z) verify (Q : W -> res Error Z -> Prop) w :
  wp stage (fun w1 r =>
    match r with
    | Ok n => wp (with_close src (verify n)) Q w1
    | _ => forall w2 r2 w3 r3, CloseFd src w1 = (w2, r2) -> Unlinkat d t false w2 = (w3, r3) -> Q w3 r
    end) w -> wp (with_source src d t stage verify) Q w.
Proof.
  unfold wp, with_source. destruct (stage w) as [w1 [n|e|]]; cbn; [done|..];
    destruct (CloseFd src w1) as [w2 r2] eqn:E2, (Unlinkat d t false w2) as [w3 r3] eqn:E3; cbn; intros HQ; by eapply HQ.
Qed.

(** The end of the publication, with the source open. *)
Lemma wp_with_source B src y d ds o c t want op m0 v (Q : W -> res Error Z -> Prop) w :
  fds w = <[src := y]> B -> B !! src = None -> B !! d = Some (mkDesc ds o) -> plain c -> plain t -> is_temp c = false -> is_temp t = true ->
  (forall q, file_paths ds c q -> apart B q) -> aview w !! (ds ++ [t]) = Some (NFile m0 []) ->
  digestFromHex (ExpectedDigestHex op) = Ok want -> evolves (temp_in ds) (fun _ => False) v (aview w) ->
  (forall w' e, fds w' = B -> evolves (temp_in ds) (fun _ => False) v (aview w') -> Q w' (Err e)) ->
  (forall w' r, fds w' = B -> evolves (file_paths ds c) (fun _ => False) v (aview w') -> published op (ds ++ [c]) (aview w') ->
     match r with Ok n => exists m x, aview w' !! (ds ++ [c]) = Some (NFile m x) /\ n = len x | Err _ => True | Panic => False end -> Q w' r) ->
  wp (with_source src d t (stageAt src d t c want op None) (fun written =>
    let* _ := ignore (Fsync d) in
    let* (finalDig, _) := or_fail (hashAtName d c) (wrap KindVerify "apply" (Rel op)) in
    if negb (bool_decide (finalDig = want)) then throw (classify KindVerify "apply" (Rel op)) else ret written)) Q w.
Proof.
  intros Hf Hs Hd Hc Ht Htc Htt Ha Hn Ed He HE HQ. assert (Hx : temp_in ds (ds ++ [t])) by (eexists; eauto).
  apply wp_deferred. eapply wp_stageAt; [exact Hf|done..| |]; cycle 1.
  { intros w1 e y' m x Hf1 Hv1 w2 r2 w3 r3 E2 E3. apply closefd_law in E2 as (Hv2 & Hf2 & _).
    rewrite Hf1, delete_insert_id in Hf2 by done. eapply unlinkat_law in E3; [|by rewrite Hf2|done].
    assert (He2 : evolves (temp_in ds) (fun _ => False) v (aview w2)).
    { rewrite Hv2, Hv1. eapply evolves_trans; [exact He|by apply evolves_insert]. }
    destruct r3 as [[]|e'|]; [..|done].
    - destruct E3 as (Hv3 & Hf3 & _). rewrite Hf2, forget_apart in Hf3 by (apply Ha; by right). apply HE; [done|].
      rewrite Hv3. eapply evolves_trans; [exact He2|by apply evolves_delete].
    - destruct E3 as [Hv3 Hf3]. apply HE; [congruence|by rewrite Hv3]. }
  intros w1 x <- Hdel Hd1 Hv1.
  assert (G : forall w', aview w' = aview w1 -> fds w' = B -> forall r,
    match r with Ok n => n = len x | Err _ => True | Panic => False end -> Q w' r).
  { intros w' Hv' Hf' r Hr. apply HQ; [done|..]; rewrite Hv', Hv1.
    - eapply evolves_trans; [eapply evolves_mono; [| |exact He]; [|done]; intros q; by right|].
      eapply evolves_trans; [apply evolves_delete; right; exact Hx|]. apply evolves_insert. by left.
    - exists x. by rewrite lookup_insert_eq.
    - destruct r; [|done..]. exists (file_mode op), x. by rewrite lookup_insert_eq. }
  apply wp_with_close, wp_bind, wp_sync. intros w2 [Hv2 Hf2].
  apply wp_bind, wp_or_fail. eapply (wp_hashAtName (fds w1)); [done..|]. intros w3 r3 [[Hv3 Hf3] Hr3].
  assert (Hend : forall r, match r with Ok n => n = len x | Err _ => True | Panic => False end ->
    forall w', aview w' = aview w3 -> fds w' = delete src (fds w3) -> Q w' r).
  { intros r Hr w' Hv' Hf'. apply G; [congruence| |done]. by rewrite Hf', Hf3, Hf2. }
  destruct r3 as [[h k]|e|]; cbn [map_err]; [|by apply Hend|done]. case_if; [by apply wp_throw, Hend|by apply wp_ret, Hend].
Qed.

Lemma wp_publishAt B s ss os d ds o cs c want op (Q : W -> res Error Z -> Prop) w :
  fds w = B -> B !! s = Some (mkDesc ss os) -> B !! d = Some (mkDesc ds o) -> Forall plain cs -> plain c ->
  Rel op = join_slash (cs ++ [c]) -> is_temp c = false -> (forall q, file_paths ds c q -> apart B q) ->
  digestFromHex (ExpectedDigestHex op) = Ok want ->
  (forall w' r, put op (ds ++ [c]) w w' r -> evolves (file_paths ds c) (fun _ => False) (aview w) (aview w') -> Q w' r) ->
  wp (publishAt s d c want op None) Q w.
Proof.
  intros Hf Hs Hd Hcs Hc Hrel Htc Ha Ed HQ. unfold publishAt. cbv zeta.
  set (P := fun v => evolves (temp_in ds) (fun _ => False) (aview w) v).
  assert (HE : forall w' e, fds w' = B -> P (aview w') -> Q w' (Err e)).
  { intros w' e Hf' HP. eapply evolves_temp in HP as [HP Ht]; [|done]. apply HQ; [|done]. split; [congruence|by left]. }
  assert (Hat : forall q, temp_in ds q -> apart B q) by (intros q Hq; apply Ha; by right).
  apply wp_bind, wp_ignore. eapply wp_cleanupTempsAt; [done..|]. intros w1 r1 Hf1 P1 Hr1.
  assert (exists x, match r1 with Panic => Panic | _ => Ok tt end = @Ok Error unit x) as [x ->] by (destruct r1; eauto; done).
  apply wp_bind, wp_or_fail. eapply wp_createTempAt; [done..| |]; cbn [map_err]; cycle 1.
  { intros w2 e [Hv2 Hf2]. apply HE; [congruence|by rewrite Hv2]. }
  intros w2 t m Ht Htt Hf2 Hv2. assert (Hx : temp_in ds (ds ++ [t])) by (eexists; eauto).
  assert (P2 : P (aview w2)) by (rewrite Hv2; eapply evolves_trans; [exact P1|by apply evolves_insert]).
  rewrite Hrel. apply wp_bind, wp_try. eapply wp_openatRead; [done..| |].
  - intros w3 src Hsrc Hf3 Hv3. rewrite <- Hrel. eapply (wp_with_source B src _ d ds o c t want op m (aview w)); [done..|by rewrite Hv3, Hv2, lookup_insert_eq|done|by rewrite Hv3|done|].
    intros w' r Hf' He Hp Hr. apply HQ; [|done]. split; [congruence|]. destruct r; [done|by right|done].
  - intros w3 e [Hv3 Hf3]. apply wp_bind. eapply (wp_unlink B); [congruence|done|done|by apply Hat|].
    intros w4 Hf4 Hv4. apply wp_throw, HE; [done|]. rewrite Hv3 in Hv4. destruct Hv4 as [->| ->]; [done|].
    eapply evolves_trans; [exact P2|by apply evolves_delete].
Qed.

(** ** Operations *)

Lemma below_not_target dd cs c : ~ below dd cs (dd ++ cs ++ [c]).
Proof. intros (p & _ & Hp & E). apply app_inv_head in E as <-. by apply not_prefix_snoc in Hp. Qed.

Lemma evolves_parents dd cs c v v' : evolves (fun _ => False) (below dd cs) v v' ->
  evolves (file_paths (dd ++ cs) c) (below dd cs) v v' /\ v' !! (dd ++ cs ++ [c]) = v !! (dd ++ cs ++ [c]).
Proof.
  intros He. split; [by eapply evolves_mono; [| |exact He]|]. destruct (He (dd ++ cs ++ [c])) as [[?|[[]|(_ & Hb & _)]] _]; [done|].
  by apply below_not_target in Hb.
Qed.

Lemma wp_make_parent B d dd o cs c rel (Q : W -> res Error unit -> Prop) w :
  fds w = B -> B !! d = Some (mkDesc dd o) -> Forall plain cs -> plain c ->
  (forall w' r, fds w' = B -> evolves (fun _ => False) (below dd cs) (aview w) (aview w') -> r <> Panic -> Q w' r) ->
  wp (make_parent d (Dir (join_slash (cs ++ [c]))) rel) Q w.
Proof.
  intros Hf Hd Hcs Hc HQ. unfold make_parent. rewrite at_top_Dir by done. case_bool_decide.
  { apply wp_ret, HQ; [done|apply evolves_refl|done]. }
  rewrite Dir_deep by done. apply wp_bind, wp_or_fail. eapply wp_mkdiratAll; [done..| |]; cbn [map_err].
  - intros w1 f o' m Hn Hf1 He1 _. apply wp_close_fd. intros w2 Hv2 Hf2. apply HQ; [by rewrite Hf2, Hf1, delete_insert_id|by rewrite Hv2|done].
  - intros w1 e Hf1 He1. by apply HQ.
Qed.

Lemma wp_applyFileAt B s ss os d dd o cs c op (Q : W -> res Error Z -> Prop) w :
  fds w = B -> B !! s = Some (mkDesc ss os) -> B !! d = Some (mkDesc dd o) -> Forall plain cs -> plain c ->
  Rel op = join_slash (cs ++ [c]) -> is_temp c = false -> (forall q, file_paths (dd ++ cs) c q -> apart B q) ->
  (forall w' r, put op (dd ++ cs ++ [c]) w w' r -> evolves (file_paths (dd ++ cs) c) (below dd cs) (aview w) (aview w') -> Q w' r) ->
  wp (applyFileAt s d op None) Q w.
Proof.
  intros Hf Hs Hd Hcs Hc Hrel Htc Ha HQ. unfold applyFileAt. cbv zeta. rewrite Hrel.
  set (P := fun v => evolves (fun _ => False) (below dd cs) (aview w) v).
  assert (HE : forall w' e, fds w' = B -> P (aview w') -> Q w' (Err e)).
  { intros w' e Hf' HP. apply (evolves_parents dd cs c) in HP as [HP Ht]. apply HQ; [|done]. split; [congruence|by left]. }
  assert (HP : forall w1 w2 r, P (aview w1) -> fds w1 = B -> put op (dd ++ cs ++ [c]) w1 w2 r ->
    evolves (file_paths (dd ++ cs) c) (fun _ => False) (aview w1) (aview w2) -> Q w2 r).
  { intros w1 w2 r HP Hf1 [Hf2 Hr] He. apply (evolves_parents dd cs c) in HP as [HP Ht]. apply HQ.
    - split; [congruence|]. rewrite Ht in Hr. by destruct r.
    - eapply evolves_trans; [exact HP|]. by eapply evolves_mono; [| |exact He]. }
  assert (P0 : P (aview w)) by apply evolves_refl. apply wp_bind, wp_lift.
  destruct (digestFromHex (ExpectedDigestHex op)) as [want|e|] eqn:Ed; cbn [map_err]; [|by apply HE|].
  2: { unfold digestFromHex in Ed. destruct (hex_decode _); [|done]. by destruct (negb _). }
  apply wp_bind, wp_or_fail. eapply wp_hashAt; [exact Hf|exact Hs|done..|]. intros w1 r1 [[Hv1 Hf1] Hr1]. rewrite Hf in Hf1.
  assert (P1 : P (aview w1)) by (by rewrite Hv1).
  destruct r1 as [[got size]|e|]; cbn [map_err]; [|by apply HE|done]. case_if; [by apply wp_throw, HE|].
  apply wp_bind. eapply wp_make_parent; [done..|]. intros w2 r2 Hf2 He2 Hr2.
  assert (P2 : P (aview w2)) by (rewrite Hv1 in He2; done). destruct r2 as [[]|e|]; [|by apply HE|done].
  apply wp_bind, wp_try_any. intros w3 r3 (Hv3 & Hf3 & Hr3)%fstatat_law. split; [done|]. intros s3.
  assert (P3 : P (aview w3)) by (by rewrite Hv3). rewrite Hf2 in Hf3.
  apply wp_bind, wp_lift. destruct (match s3 with inl _ => _ | inr _ => _ end) as [[]|e|] eqn:E3; [|by apply HE|].
  2: { destruct s3; repeat case_match; done. }
  clear E3. rewrite at_top_Dir, rel_Base by done. destruct (bool_decide (cs = [])) eqn:Htop; reflect_bools.
  { clearbody P. subst cs. rewrite app_nil_r in *. eapply (wp_publishAt B s ss os d dd o []); [done..|]. intros w4 r4 Hp He. by eapply (HP w3). }
  rewrite Dir_deep by done. apply wp_bind, wp_or_fail. eapply wp_openDirAt; [exact Hf3|done..| |]; cbn [map_err].
  - intros w4 pfd o' Hp Hf4 Hv4. apply wp_with_close. eapply (wp_publishAt _ s ss os pfd (dd ++ cs) o' cs); [exact Hf4| |by rewrite lookup_insert_eq|done..| |done|].
    + rewrite lookup_insert_ne; [done|congruence].
    + intros q Hq. apply apart_insert; [by apply Ha|]. cbn. destruct Hq as [->|(t & -> & _)]; apply not_prefix_snoc.
    + intros w5 r5 [Hf5 Hr5] He5 w6 Hv6 Hf6. rewrite Hv4 in He5. rewrite <- Hv6 in He5, Hr5. rewrite Hv4, <- app_assoc in Hr5.
      eapply (HP w3); [done|done| |done]. split; [|done]. by rewrite Hf6, Hf5, Hf4, delete_insert_id.
  - intros w4 e [Hv4 Hf4]. apply HE; [congruence|by rewrite Hv4].
Qed.

Lemma wp_sync_parent B d dd o cs c (Q : W -> res Error unit -> Prop) w :
  fds w = B -> B !! d = Some (mkDesc dd o) -> Forall plain cs -> plain c ->
  (forall w', same w w' -> Q w' (Ok tt)) -> wp (sync_parent d (Dir (join_slash (cs ++ [c])))) Q w.
Proof.
  intros Hf Hd Hcs Hc HQ. unfold sync_parent. rewrite at_top_Dir by done. case_bool_decide; [by apply wp_sync|].
  rewrite Dir_deep by done. apply wp_bind, wp_try. eapply wp_openDirAt; [done..| |].
  - intros w1 pfd o' Hn Hf1 Hv1. apply wp_bind, wp_sync. intros w2 [Hv2 Hf2]. apply wp_close_fd. intros w3 Hv3 Hf3. apply HQ.
    split; [congruence|]. by rewrite Hf3, Hf2, Hf1, delete_insert_id.
  - intros w1 e Hs. by apply wp_ret, HQ.
Qed.

Lemma wp_applyMkdirAt B d dd o cs c op (Q : W -> res Error unit -> Prop) w :
  fds w = B -> B !! d = Some (mkDesc dd o) -> Forall plain cs -> plain c -> Rel op = join_slash (cs ++ [c]) ->
  (forall w' r, fds w' = B -> evolves (fun _ => False) (below dd (cs ++ [c])) (aview w) (aview w') ->
     match r with
     | Ok _ => clear_way (aview w) dd cs -> exists m, aview w' !! (dd ++ cs ++ [c]) = Some (NDir m)
     | Err _ => True
     | Panic => False
     end -> Q w' r) -> wp (applyMkdirAt d op) Q w.
Proof.
  intros Hf Hd Hcs Hc Hrel HQ. unfold applyMkdirAt. cbv zeta. rewrite Hrel. apply wp_bind, wp_try, wp_call. intros w1 r1 E1.
  pose proof (fstatat_law _ _ _ _ _ E1) as (Hv1 & Hf1 & Hr1). rewrite Hf in Hf1.
  assert (Hstop : forall e, Q w1 (Err e)) by (intros e; apply HQ; [done|by apply evolves_eq|done]).
  destruct r1 as [st|e|]; [..|done].
  - case_if; [by apply wp_throw|]. destruct (bool_decide (SType st = TDir)) eqn:Et; cbn [negb]; [|by apply wp_throw]. reflect_bools.
    apply wp_ret, HQ; [done|by apply evolves_eq|]. intros Hw. rewrite <- Hf in Hd.
    apply (fstatat_entry _ _ _ _ dd o) in E1 as (n & Hn & ->); [|done..]. rewrite Hv1. destruct n as [m| |[]]; try done. eauto.
  - case_if; [by apply wp_throw|].
    assert (Hp : Forall plain (cs ++ [c])) by (by apply plain_snoc). apply wp_bind, wp_or_fail. eapply wp_mkdiratAll; [done..|by destruct cs| |]; cbn [map_err].
    + intros w2 f o' m Hn Hf2 He2 Hm. rewrite Hv1 in He2. apply wp_bind, wp_close_fd. intros w3 Hv3 Hf3.
      rewrite Hf2, delete_insert_id in Hf3 by done. eapply wp_sync_parent; [done..|]. intros w4 [Hv4 Hf4].
      rewrite Hv3 in Hv4. apply HQ; [congruence|by rewrite Hv4|]. rewrite Hv4. eauto.
    + intros w2 e' Hf2 He2. rewrite Hv1 in He2. by apply HQ.
Qed.

(** ** The plan *)

(** No link was on the way to the operation's target, below the destination. *)
Definition unlinked (v : tree) (dd : list bytes) (op : Op) : Prop :=
  forall cs c, Split (Rel op) = cs ++ [c] -> clear_way v dd cs.

(** No descriptor is at or below what the operations replace. *)
Definition steady (B : table) (dd : list bytes) (ops : list Op) : Prop :=
  forall q, plan_paths dd ops q -> apart B q.

Lemma wp_apply_op_at B s ss os d dd o op (Q : W -> res Error (Z * bool) -> Prop) w :
  fds w = B -> B !! s = Some (mkDesc ss os) -> B !! d = Some (mkDesc dd o) -> untemp op -> (forall q, op_paths dd op q -> apart B q) ->
  (forall w' r, fds w' = B -> evolves (op_paths dd op) (below dd (Split (Rel op))) (aview w) (aview w') ->
     match r with
     | Ok (_, sk) => validateRel (Rel op) = Ok tt /\ sk = is_skip op /\ done_where (unlinked (aview w) dd) dd (aview w') op
     | Err _ => is_file_op op = true ->
         aview w' !! target dd op = aview w !! target dd op \/ published op (target dd op) (aview w')
     | Panic => False
     end -> Q w' r) ->
  wp (apply_op_at s d op None) Q w.
Proof.
  intros Hf Hs Hd Hu Ha HQ. unfold apply_op_at. apply wp_bind, wp_lift.
  assert (HE : forall e, Q w (Err e)) by (intros e; apply HQ; [done|apply evolves_refl|by left]).
  destruct (validateRel (Rel op)) as [[]|e|] eqn:Hval; [|by apply HE|].
  2: { unfold validateRel in Hval. destruct (_ || _ || _); [done|].
       pose proof (PathGrammar.ValidateJoined_safe (Rel op) PathGrammar.DefaultProfile). by destruct (PathGrammar.ValidateJoined _ _). }
  destruct (validateRel_inv _ Hval) as (l & Hn & Hp & Hrel). destruct (exists_last Hn) as (cs & c & ->).
  assert (Hsp : Split (Rel op) = cs ++ [c]) by (rewrite Hrel; by apply rel_Split).
  apply Forall_app in Hp as [Hcs Hc]. apply Forall_cons in Hc as [Hc _]. pose proof (Hu _ _ Hsp) as Htc.
  unfold done_where, target in HQ. rewrite Hsp in HQ. unfold is_file_op, is_skip in HQ.
  destruct (bool_decide (Action op = ActionSkip)) eqn:Es; reflect_bools.
  { apply wp_ret, HQ; [done|apply evolves_refl|]. by rewrite Es. }
  destruct (bool_decide (Action op = ActionMkdir)) eqn:Em; reflect_bools.
  { apply wp_bind. eapply wp_applyMkdirAt; [done..|]. intros w' r Hf' He Hr.
    assert (He' : evolves (op_paths dd op) (below dd (cs ++ [c])) (aview w) (aview w')) by (by eapply evolves_mono; [| |exact He]).
    destruct r as [[]|e|]; [apply wp_ret, HQ; [done..|]| |done].
    - rewrite Em. split_and!; [done|done| |done]. intros _ Hw. apply Hr. by eapply Hw.
    - apply HQ; [done..|]. by rewrite Em. }
  destruct (bool_decide (Action op = ActionCopy) || _) eqn:Ef; [|by apply wp_throw].
  assert (Hpaths : forall q, file_paths (dd ++ cs) c q -> op_paths dd op q) by (intros q Hq; split; [done|by exists cs, c]).
  apply wp_bind. eapply wp_applyFileAt; [done..|by intros q Hq; apply Ha, Hpaths|]. intros w' r [Hf' Hr] He. rewrite Hf in Hf'.
  assert (He' : evolves (op_paths dd op) (below dd (cs ++ [c])) (aview w) (aview w')).
  { eapply evolves_mono; [exact Hpaths| |exact He]. intros q (p & Hp1 & Hp2 & ->). exists p. split; [done|]. split; [|done]. by apply prefix_app_r. }
  destruct r as [n|e|]; [apply wp_ret| |done]; apply HQ; auto. destruct Hr as [Hr _]. by split_and!.
Qed.

(** Strictly below a directory. *)
Definition inside (dd q : list bytes) : Prop := dd `prefix_of` q /\ q <> dd.

Lemma inside_app (dd p : list bytes) : p <> [] -> inside dd (dd ++ p).
Proof. intros Hp. split; [by apply prefix_app_r|]. intros E%(f_equal length). rewrite length_app in E. destruct p; [done|]. cbn in E. lia. Qed.

Lemma inside_op dd op q : op_paths dd op q \/ below dd (Split (Rel op)) q -> inside dd q.
Proof.
  intros [(_ & cs & c & _ & [->|(t & -> & _)])|(p & Hp & _ & ->)]; [..|by apply inside_app];
    rewrite <- app_assoc; apply inside_app; by destruct cs.
Qed.

(** The state of a run that began in [v0]. *)
Definition held (B : table) (v0 : tree) (dd : list bytes) (w : W) : Prop :=
  fds w = B /\ (forall q, ~ inside dd q -> aview w !! q = v0 !! q) /\
  (forall q, aview w !! q = Some (NOther TSymlink) -> v0 !! q = Some (NOther TSymlink)).

Lemma held_evolves B v0 dd op w w' :
  held B v0 dd w -> fds w' = B -> evolves (op_paths dd op) (below dd (Split (Rel op))) (aview w) (aview w') -> held B v0 dd w'.
Proof.
  intros (_ & Ho & Hl) Hf He. split; [done|]. split.
  - intros q Hq. rewrite <- Ho by done. destruct (He q) as [[?|[Hx|(_ & Hx & _)]] _]; [done|..]; destruct Hq; apply (inside_op _ op); auto.
  - intros q Hq. by apply Hl, He.
Qed.

Lemma unlinked_held B v0 dd op w : held B v0 dd w -> unlinked v0 dd op -> unlinked (aview w) dd op.
Proof. intros (_ & _ & Hl) Hu cs c Hs p Hp Hn E. by apply (Hu cs c Hs p Hp Hn), Hl. Qed.

(** A callback that leaves the tree and the descriptors alone. *)
Definition mute (opts : ApplyOptions W) : Prop :=
  forall f, OnOpComplete opts = Some f -> forall i op b w w' r, f i op b w = (w', r) -> same w w' /\ r <> Panic.

Lemma wp_ApplyWithAt s ss os d dd o roots plan opts (Q : W -> res Error (ApplyResult * option Error) -> Prop) w :
  let ops := drop (Z.to_nat (StartAt opts)) (Ops plan) in
  Hooks opts = None -> mute opts -> fds w !! s = Some (mkDesc ss os) -> fds w !! d = Some (mkDesc dd o) ->
  steady (fds w) dd (Ops plan) -> Forall untemp (Ops plan) -> NoDup (map Rel (Ops plan)) ->
  (forall w' out err, held (fds w) (aview w) dd w' -> Forall (intact dd (aview w) (aview w')) ops ->
     (err = None -> Forall (fun op => validateRel (Rel op) = Ok tt /\ done_where (unlinked (aview w) dd) dd (aview w') op) ops /\
        (CountPrior opts = true \/ StartAt opts = 0 -> counts (Ops plan) emptyApplied out)) ->
     Q w' (Ok (out, err))) ->
  wp (ApplyWithAt (Some s) (Some d) roots plan opts) Q w.
Proof.
  intros ops Hh Hm Hs Hd Hst Hu Hnd HQ. unfold ApplyWithAt. cbv zeta.
  assert (H0' : held (fds w) (aview w) dd w) by done.
  assert (Hstop : forall out e, Q w (Ok (out, Some e))).
  { intros out e. apply HQ; [done| |done]. apply Forall_forall. intros op _ _. by left. }
  do 3 (case_if; [by apply wp_ret|]). rewrite Hh.
  apply (wp_apply_from aview (held (fds w) (aview w) dd) (done_where (unlinked (aview w) dd) dd) _ dd); [apply done_where_lasting|..|done|done|done|].
  - intros f Ef i op b w1 w2 r E. apply (Hm f Ef) in E as [[Hv Hf] Hr]. split; [done|]. split; [|done]. unfold held. by rewrite Hv, Hf.
  - intros op w1 Hop Hfit. pose proof Hfit as (Hf1 & _). assert (Hop' : op ∈ Ops plan) by (by eapply subseteq_drop).
    eapply wp_apply_op_at; [exact Hf1|exact Hs|exact Hd|by eapply Forall_forall in Hu| |].
    { intros q Hq. apply Hst. apply Exists_exists. eauto. }
    intros w2 r Hf2 He Hr. split; [by eapply held_evolves|]. split; [|destruct r as [[n sk]|e|]; [|done|done]].
    + eapply evolves_mono; [| |exact He]; [done|]. intros q (p & _ & Hp & ->). by apply prefix_app.
    + destruct Hr as (H1 & H2 & H3 & H4). split_and!; [done..|]. split; [|done]. intros Ha Hc. apply H3; [done|]. by eapply unlinked_held.
  - intros w' out err Hf' _ Hint Hok. by apply HQ.
Qed.


End AtRules.

(** ** Runs *)

(** A source and a destination where a link leads out of the destination. *)
Definition linked_tree : tree :=
  list_to_map [([str "s"], NDir 0x1ED); ([str "s"; str "a"], NFile 0x1A4 demo_data);
    ([str "s"; str "out"], NDir 0x1ED); ([str "s"; str "out"; str "b"], NFile 0x1A4 demo_data);
    ([str "d"], NDir 0x1ED); ([str "d"; str "out"], NOther TSymlink)].
Definition linked_at (faults : list (option errno)) : MemAt :=
  mkMemAt linked_tree (list_to_map [(3, mkDesc [str "s"] 0); (4, mkDesc [str "d"] 0)]) faults 7.
Definition at_opts : ApplyOptions MemAt := mkApplyOptions None 0 false 0 None.

(** The file below the link is refused, after the first was copied. *)
Example linked_run :
  let '(w, r) := ApplyWithAt (Some 3) (Some 4) demo_roots (demo_plan ["a"; "out/b"]) at_opts (linked_at []) in
  (exists out e, r = Ok (out, Some e) /\ Completed out = 1) /\
  anodes w !! [str "d"; str "a"] = Some (NFile 0x1A4 demo_data) /\
  map_size (atable w) = 2%nat.
Proof. vm_compute. split; [|split]; [|reflexivity|reflexivity]. do 2 eexists. split; reflexivity. Qed.

Lemma linked_steady faults ops : steady (atable (linked_at faults)) [str "d"] ops.
Proof.
  intros q Hq f x Hx Hp. apply Exists_exists in Hq as (op & _ & Hq). destruct (inside_op _ op q (or_introl Hq)) as [Hd Hne].
  apply elem_of_list_to_map_2 in Hx. repeat (apply elem_of_cons in Hx as [[= -> ->]|Hx]; [|]); [..|by apply not_elem_of_nil in Hx];
    apply prefix_length in Hp; apply Hne; symmetry; by apply prefix_length_eq.
Qed.

Lemma untemp_last op : is_temp (List.last (Split (Rel op)) []) = false -> untemp op.
Proof. intros Ht cs c E. by rewrite E, last_last in Ht. Qed.

Lemma linked_untemp : Forall untemp (Ops (demo_plan ["a"; "out/b"])).
Proof. repeat apply Forall_cons_2; try apply Forall_nil_2; apply untemp_last; vm_compute; reflexivity. Qed.


End LocalApplyAt.
