(* ===== verification/DeletionAt.v ===== *)
(** * Quarantine under directory descriptors (internal/deletion/quarantine_at_unix.go)

    The move of Deletion.v with openat and renameat.  [QuarantineCalls] are the calls
    beyond those of AtFS.v: the open of the root by its path, the open of an entry
    that follows a link, the volume of a descriptor, and a rename that replaces
    nothing.  Linux and Darwin have that rename; the file for other systems falls
    back to one that replaces ([exclusive] says which).  [quarantineAT_preserves]
    gives the move by descriptors the guarantee of the move by path; two lemmas show
    what is lost without the exclusive rename, and when the entry of the quarantine
    is a link. *)

From stdpp Require Import gmap.
From S2P Require Import Prelude Codec PathGrammar FilePath FileSystem LocalApply Deletion AtFS LocalApplyAt.
Import PathGrammar FilePath FileSystem LocalApply Deletion AtFS.

Module DeletionAt.

Class QuarantineCalls (W : Type) := {
  (** [unix.Open] with [O_DIRECTORY] *)
  OpenRoot : bytes -> io W errno Z;
  (** [unix.Openat] with [O_DIRECTORY] and without [O_NOFOLLOW] *)
  OpenatFollow : Z -> bytes -> io W errno Z;
  (** the device of [unix.Fstat] *)
  FstatDev : Z -> io W errno Z;
  (** [RENAME_NOREPLACE] and [RENAME_EXCL] *)
  RenameNoReplace : Z -> bytes -> Z -> bytes -> io W errno unit }.

(** [target w p] is where the directory is that opening [p] opens. *)
Class QuarantineLaws (W : Type) `{AtLaws W} `{QuarantineCalls W} := {
  target : W -> list bytes -> list bytes;
  target_entry w p : aview w !! p <> Some (NOther TSymlink) -> target w p = p;
  openroot_law w w' r rd :
    Forall plain rd -> OpenRoot (native rd) w = (w', r) ->
    aview w' = aview w /\
    match r with
    | Ok f => fds w !! f = None /\ fds w' = <[f := mkDesc (target w rd) 0]> (fds w)
    | Err _ => fds w' = fds w
    | Panic => False
    end;
  openatfollow_law w w' r d ds o c :
    fds w !! d = Some (mkDesc ds o) -> plain c -> OpenatFollow d c w = (w', r) ->
    aview w' = aview w /\
    match r with
    | Ok f => fds w !! f = None /\ fds w' = <[f := mkDesc (target w (ds ++ [c])) 0]> (fds w) /\
        (target w (ds ++ [c]) = ds ++ [c] -> exists m, aview w !! (ds ++ [c]) = Some (NDir m))
    | Err _ => fds w' = fds w
    | Panic => False
    end;
  fstatdev_law w w' r f : FstatDev f w = (w', r) -> aview w' = aview w /\ fds w' = fds w /\ r <> Panic;
  noreplace_law w w' r d ds o c d' es o' c' m x :
    fds w !! d = Some (mkDesc ds o) -> fds w !! d' = Some (mkDesc es o') -> plain c -> plain c' ->
    aview w !! (ds ++ [c]) = Some (NFile m x) -> RenameNoReplace d c d' c' w = (w', r) ->
    match r with
    | Ok _ => aview w !! (es ++ [c']) = None /\ aview w' = <[es ++ [c'] := NFile m x]> (delete (ds ++ [c]) (aview w)) /\
        fds w' = forget (ds ++ [c]) (fds w)
    | Err _ => aview w' = aview w /\ fds w' = fds w
    | Panic => False
    end }.

Section MoveAt.
Context {W : Type} `{AtCalls W} `{QuarantineCalls W} (exclusive : bool).
Abbreviation IO := (io W Error).

(** rename_excl_linux.go, rename_excl_darwin.go; rename_excl_other.go *)
Definition renameExclusive (fromDir : Z) (fromName : bytes) (toDir : Z) (toName : bytes) : io W errno unit :=
  if exclusive then RenameNoReplace fromDir fromName toDir toName else Renameat fromDir fromName toDir toName.

(** The directories open: the check of the volumes, the move and the syncs. *)
Definition move_between (rootFd qFd : Z) (qp : QuarantinePlan) : IO unit :=
  let* rst := or_fail (FstatDev rootFd) (fun _ => stop "io") in
  let* qst := or_fail (FstatDev qFd) (fun _ => stop "io") in
  if negb (rst =? qst) then throw (stop "volume") else
  let* _ := or_fail (renameExclusive rootFd (SourceName qp) qFd (QuarantineName qp))
    (fun e => if bool_decide (e = EEXIST) then stop "collision" else stop "io") in
  let* _ := or_fail (Fsync qFd) (fun _ => stop "io") in
  or_fail (Fsync rootFd) (fun _ => stop "io").

Definition ExecuteQuarantineMoveAT (root : bytes) (decision : Decision) (qp : QuarantinePlan) : IO unit :=
  if negb (Allowed decision) then throw (stop "decision") else
  if negb (PermanentDisabled decision) then throw (stop "policy") else
  let* _ := lift (validateComponent (SourceName qp)) in
  let* _ := lift (validateComponent (QuarantineName qp)) in
  let* rootFd := or_fail (OpenRoot root) (fun _ => stop "io") in
  LocalApplyAt.with_close rootFd (
    let* r := try (Mkdirat rootFd (str "quarantine") 0x1ED) in
    let* _ := match r with
      | inl _ => ret tt
      | inr e => if negb (bool_decide (e = EEXIST)) then throw (stop "io") else ret tt
      end in
    let* qFd := or_fail (OpenatFollow rootFd (str "quarantine")) (fun _ => stop "io") in
    LocalApplyAt.with_close qFd (move_between rootFd qFd qp)).

End MoveAt.

(** ** The object is never lost *)

Section PreservesAt.
Context {W : Type} `{QuarantineLaws W}.
Abbreviation IO := (io W Error).

Lemma closed_subset (k : Z) x (m m0 : table) : m0 !! k = None -> m ⊆ <[k := x]> m0 -> delete k m ⊆ m0.
Proof. intros Hk Hs%(delete_mono _ _ k). by rewrite delete_insert_id in Hs. Qed.

(** The outcome of a move from [rd] to the quarantine in it; [m0] are the descriptors
    that may be open. *)
Section Outcome.
Context (rd : list bytes) (dec : Decision) (qp : QuarantinePlan) (m : Z) (d : bytes) (v : tree).
Let sn := SourceName qp.
Let qn := QuarantineName qp.
Let qd := rd ++ [quarantineDir].

Definition outcome (m0 : table) (w : W) (r : res Error unit) : Prop :=
  r <> Panic /\ fds w ⊆ m0 /\ kept rd sn qn (NFile m d) v (aview w) /\
  evolves (moved_paths rd sn qn) (fun q => q = qd) v (aview w) /\
  (r = Ok tt -> Allowed dec = true /\ aview w !! (qd ++ [qn]) = Some (NFile m d)).

Lemma outcome_close f x m0 (c : IO unit) w :
  m0 !! f = None -> wp c (outcome (<[f := x]> m0)) w -> wp (LocalApplyAt.with_close f c) (outcome m0) w.
Proof.
  intros Hf Hc. apply LocalApplyAt.wp_with_close. eapply wp_mono; [exact Hc|]. intros w1 r (Hp & Hs & Hk & He & Ho) w2 Hv Ht.
  unfold outcome. rewrite Hv, Ht. split_and!; try done. by eapply closed_subset.
Qed.

(** A state in which nothing has moved. *)
Definition waiting (w : W) : Prop :=
  aview w !! (rd ++ [sn]) = Some (NFile m d) /\ aview w !! (qd ++ [qn]) = v !! (qd ++ [qn]) /\
  evolves (moved_paths rd sn qn) (fun q => q = qd) v (aview w).

Lemma waiting_fails m0 w e : waiting w -> fds w ⊆ m0 -> outcome m0 w (Err e).
Proof. intros (H1' & H2' & H3') Hs. split_and!; try done. by left. Qed.

Lemma wp_move_between rf qf m0 w :
  Allowed dec = true -> plain sn -> plain qn -> fds w !! rf = Some (mkDesc rd 0) -> fds w !! qf = Some (mkDesc qd 0) -> fds w = m0 ->
  waiting w -> wp (move_between true rf qf qp) (outcome m0) w.
Proof.
  intros Ha Hsn Hqn Hr Hq <- Hw.
  assert (Hstay : forall w1 e, aview w1 = aview w -> fds w1 = fds w -> outcome (fds w) w1 (Err e)).
  { intros w1 e Hv Ht. apply waiting_fails; [unfold waiting; by rewrite Hv|by rewrite Ht]. }
  unfold move_between. apply wp_bind, wp_or_fail, wp_call. intros w1 r1 (Hv1 & Ht1 & Hp1)%fstatdev_law. destruct r1 as [d1|e|]; cbn [map_err]; [|by apply Hstay|done].
  apply wp_bind, wp_or_fail, wp_call. intros w2 r2 (Hv2 & Ht2 & Hp2)%fstatdev_law. rewrite Hv1 in Hv2. rewrite Ht1 in Ht2.
  destruct r2 as [d2|e|]; cbn [map_err]; [|by apply Hstay|done]. wp_if; [by apply wp_throw, Hstay|].
  destruct Hw as (Hsrc & Hdst & Hev). apply wp_bind, wp_or_fail, wp_call. intros w3 r3 E3. cbn [renameExclusive] in E3.
  eapply noreplace_law in E3; [|by rewrite Ht2..|done|done|by rewrite Hv2]. fold sn qn in E3.
  destruct r3 as [[]|e|]; cbn [map_err]; [|destruct E3 as [Hv3 Ht3]; apply Hstay; congruence|done]. destruct E3 as (Hfree & Hv3 & Ht3).
  rewrite Hv2 in Hv3, Hfree. rewrite Ht2 in Ht3.
  assert (Hne : rd ++ [sn] <> qd ++ [qn]) by (intros E; rewrite E in Hsrc; congruence).
  assert (Hdone : forall w4 r4, aview w4 = aview w3 -> fds w4 = fds w3 -> r4 <> Panic -> outcome (fds w) w4 r4).
  { intros w4 r4 Hv Ht Hp. assert (Hat : aview w4 !! (qd ++ [qn]) = Some (NFile m d)) by (by rewrite Hv, Hv3, lookup_insert_eq).
    split_and!; [done|rewrite Ht, Ht3; apply map_filter_subseteq| | |done].
    - right. split_and!; [by rewrite Hv, Hv3, lookup_insert_ne, lookup_delete_eq by done|etrans; [symmetry; exact Hdst|exact Hfree]|done].
    - rewrite Hv, Hv3. eapply evolves_trans; [exact Hev|]. eapply evolves_trans; [apply evolves_delete; by left|apply evolves_insert; by right]. }
  apply wp_bind, wp_or_fail, wp_call. intros w4 r4 (Hv4 & Ht4 & Hp4)%fsync_law. destruct r4 as [[]|e|]; cbn [map_err]; [|by apply Hdone|done].
  apply wp_or_fail, wp_call. intros w5 r5 (Hv5 & Ht5 & Hp5)%fsync_law. rewrite Hv4 in Hv5. rewrite Ht4 in Ht5. destruct r5 as [[]|e|]; cbn [map_err]; by apply Hdone.
Qed.

End Outcome.

(** Quarantine under descriptors never loses an object.  With the exclusive
    rename, for a root that is a directory and not a link, and a quarantine entry that
    is not a link: what [quarantine_preserves] says of the move by path, and no
    descriptor stays open. *)
Lemma quarantineAT_preserves rd dec qp m d w w' r :
  Forall plain rd -> aview w !! rd <> Some (NOther TSymlink) -> aview w !! (rd ++ [quarantineDir]) <> Some (NOther TSymlink) ->
  aview w !! (rd ++ [SourceName qp]) = Some (NFile m d) ->
  ExecuteQuarantineMoveAT true (native rd) dec qp w = (w', r) -> outcome rd dec qp m d (aview w) (fds w) w' r.
Proof.
  intros Hrd Hroot Hql Hsrc E. enough (Hw : wp (ExecuteQuarantineMoveAT true (native rd) dec qp) (outcome rd dec qp m d (aview w) (fds w)) w) by exact (wp_run _ _ _ _ _ Hw E).
  clear E w' r. set (v := aview w) in *. assert (Hwait : waiting rd qp m d v w) by (split_and!; [done|done|apply evolves_refl]).
  assert (Hstay : forall w1 e, aview w1 = v -> fds w1 = fds w -> outcome rd dec qp m d v (fds w) w1 (Err e)).
  { intros w1 e Hv Ht. apply waiting_fails; [unfold waiting; by rewrite Hv|by rewrite Ht]. }
  unfold ExecuteQuarantineMoveAT. wp_if; [by apply wp_throw, Hstay|]. wp_if; [by apply wp_throw, Hstay|]. reflect_bools.
  apply wp_bind, wp_lift. destruct (validateComponent (SourceName qp)) as [[]|e|] eqn:Vs; [|by apply Hstay|unfold validateComponent in Vs; by repeat case_match].
  apply wp_bind, wp_lift. destruct (validateComponent (QuarantineName qp)) as [[]|e|] eqn:Vq; [|by apply Hstay|unfold validateComponent in Vq; by repeat case_match].
  apply validateComponent_plain in Vs, Vq. assert (Pq : plain quarantineDir) by (by split_and!; [..|repeat constructor]).
  apply wp_bind, wp_or_fail, wp_call. intros w1 r1 [Hv1 Hr1]%openroot_law; [|done]. destruct r1 as [rf|e|]; cbn [map_err]; [|by apply Hstay|done].
  destruct Hr1 as [Hf1 Ht1]. rewrite target_entry in Ht1 by done. apply (outcome_close _ _ _ _ _ _ rf (mkDesc rd 0)); [done|].
  assert (Hrf : fds w1 !! rf = Some (mkDesc rd 0)) by (by rewrite Ht1, lookup_insert_eq).
  apply wp_bind, wp_try, wp_call. intros w2 r2 E2. eapply mkdirat_law in E2 as [Ht2 Hr2]; [|done|done]. change (str "quarantine") with quarantineDir in *.
  assert (Hwait2 : waiting rd qp m d v w2 /\ aview w2 !! (rd ++ [quarantineDir]) <> Some (NOther TSymlink) /\ r2 <> Panic).
  { destruct r2 as [[]|e|]; [|destruct Hr2 as [Hv2 _]; unfold waiting; rewrite Hv2, Hv1; by split_and!; [apply Hwait..|done|done]|done].
    destruct Hr2 as (Hn & pm & Hv2). rewrite Hv1 in Hn, Hv2. assert (Hne : rd ++ [quarantineDir] <> rd ++ [SourceName qp]) by (intros Hx; rewrite Hx in Hn; subst v; congruence).
    assert (Hne2 : rd ++ [quarantineDir] <> (rd ++ [quarantineDir]) ++ [QuarantineName qp]) by (intros Hx%(f_equal length); rewrite !length_app in Hx; cbn in Hx; lia).
    split_and!; [|by rewrite Hv2, lookup_insert_eq|done]. split_and!; [by rewrite Hv2, lookup_insert_ne|by rewrite Hv2, lookup_insert_ne|].
    rewrite Hv2. intros q. destruct (decide (q = rd ++ [quarantineDir])) as [->|Hq]; [|rewrite lookup_insert_ne by done; auto].
    rewrite lookup_insert_eq. split; [|done]. right; right. split_and!; [done..|by exists pm]. }
  clear Hr2. destruct Hwait2 as (Hwait2 & Hl2 & Hp2). rewrite Ht1 in Ht2.
  assert (Hgo : wp (let* qFd := or_fail (OpenatFollow rf quarantineDir) (fun _ => stop "io") in LocalApplyAt.with_close qFd (move_between true rf qFd qp))
    (outcome rd dec qp m d v (<[rf := mkDesc rd 0]> (fds w))) w2).
  { apply wp_bind, wp_or_fail, wp_call. intros w3 r3 E3. eapply openatfollow_law in E3 as [Hv3 Hr3]; [|by rewrite Ht2, lookup_insert_eq|done].
    destruct r3 as [qf|e|]; cbn [map_err]; [|apply waiting_fails; [unfold waiting; by rewrite Hv3|by rewrite Hr3, Ht2]|done].
    destruct Hr3 as (Hf3 & Ht3 & _). rewrite target_entry in Ht3 by done. rewrite Ht2 in Hf3, Ht3.
    apply (outcome_close _ _ _ _ _ _ qf (mkDesc (rd ++ [quarantineDir]) 0)); [done|].
    apply wp_move_between; [done..| | |done|unfold waiting; by rewrite Hv3].
    - rewrite Ht3, lookup_insert_ne by (intros ->; by rewrite lookup_insert_eq in Hf3). apply lookup_insert_eq.
    - by rewrite Ht3, lookup_insert_eq. }
  destruct r2 as [[]|e|]; [exact Hgo| |done]. case_bool_decide; cbn [negb]; [exact Hgo|].
  apply wp_throw, waiting_fails; [done|by rewrite Ht2].
Qed.

End PreservesAt.

(** ** In memory *)

(** [links] says where a link leads; everything is on one volume. *)
Section Memory.
Context (links : list bytes -> list bytes).

Definition mem_target (w : MemAt) (p : list bytes) : list bytes := if is_link (anodes w) p then links p else p.

Definition mem_opendir (p : list bytes) : io MemAt errno Z := fun w =>
  match anodes w !! mem_target w p with
  | Some (NDir _) => new_fd (mkDesc (mem_target w p) 0) w
  | _ => (w, Err EOther)
  end.

Definition mem_noreplace (d : Z) (c : bytes) (d' : Z) (c' : bytes) : io MemAt errno unit :=
  on_fd d (fun x w =>
    match anodes w !! (dpath x ++ [c]), atable w !! d' with
    | Some (NFile m z), Some y =>
        match anodes w !! (dpath y ++ [c']) with
        | None => (set_atable (forget (dpath x ++ [c]) (atable w)) (set_nodes (<[dpath y ++ [c'] := NFile m z]> (delete (dpath x ++ [c]) (anodes w))) w), Ok tt)
        | Some _ => (w, Err EEXIST)
        end
    | _, _ => (w, Err EOther)
    end).

#[local] Instance MemAt_QuarantineCalls : QuarantineCalls MemAt := {|
  OpenRoot p := scripted_at (mem_opendir (filter (fun c => c <> []) (Split p)));
  OpenatFollow d c := on_fd d (fun x => mem_opendir (dpath x ++ [c]));
  FstatDev f := on_fd f (fun _ => ret 1);
  RenameNoReplace := mem_noreplace |}.

Lemma components_native rd : Forall plain rd -> filter (fun c => c <> []) (Split (native rd)) = rd.
Proof.
  intros Hrd. rewrite Split_native. rewrite filter_cons_False by (intros Hx; by apply Hx). destruct rd as [|c rd]; [done|].
  rewrite Split_join by done. clear -Hrd. induction Hrd as [|x l Hx Hl IH]; [done|]. rewrite filter_cons_True by apply Hx. by rewrite IH.
Qed.

Lemma mem_opendir_inv p w w' r :
  mem_opendir p w = (w', r) -> anodes w' = anodes w /\
    match r with
    | Ok f => atable w !! f = None /\ atable w' = <[f := mkDesc (mem_target w p) 0]> (atable w) /\ exists m, anodes w !! mem_target w p = Some (NDir m)
    | Err _ => atable w' = atable w
    | Panic => False
    end.
Proof.
  unfold mem_opendir, new_fd. destruct (anodes w !! mem_target w p) as [[m|m x|t]|] eqn:E; intros [= <- <-]; (split; [done|]); try done.
  split; [apply next_free_fresh|]. split; [done|by exists m].
Qed.

#[local] Program Instance MemAt_QuarantineLaws : QuarantineLaws MemAt := {| target := mem_target |}.
Next Obligation. intros w p Hp. cbn in Hp. unfold mem_target, is_link. by destruct (anodes w !! p) as [[| |[]]|]. Qed.
Next Obligation.
  intros w w' r rd Hrd E. cbn [OpenRoot MemAt_QuarantineCalls] in E. rewrite components_native in E by done.
  apply scripted_at_inv in E as [([Hv Ht] & e & -> & _)|(w1 & [Hv Ht] & E)]; [done|]. apply mem_opendir_inv in E as [Hv1 Hr].
  cbn. unfold mem_target in *. rewrite Hv, Ht in *. split; [by rewrite Hv1|]. destruct r; [|done..]. by destruct Hr as (? & ? & _).
Qed.
Next Obligation.
  intros w w' r d ds o c Hd Hc E. cbn in E. apply (on_fd_inv _ _ _ _ _ _ Hd) in E as [([Hv Ht] & e & -> & _)|(w1 & [Hv Ht] & E)]; [done|].
  apply mem_opendir_inv in E as [Hv1 Hr]. cbn in *. unfold mem_target in *. rewrite Hv, Ht in *. split; [by rewrite Hv1|].
  destruct r; [|done..]. destruct Hr as (? & ? & m & Hm). split_and!; [done..|]. intros Hx. exists m. by rewrite Hx in Hm.
Qed.
Next Obligation.
  intros w w' r f E. cbn in E. unfold on_fd in E. apply scripted_at_inv in E as [([Hv Ht] & e & -> & _)|(w1 & [Hv Ht] & E)]; [done|].
  cbn. rewrite <- Hv, <- Ht. by destruct (atable w1 !! f); injection E as <- <-.
Qed.
Next Obligation.
  intros w w' r d ds o c d' es o' c' m x Hd Hd' Hc Hc' Hx E. cbn in *. unfold mem_noreplace in E.
  apply (on_fd_inv _ _ _ _ _ _ Hd) in E as [([Hv Ht] & e & -> & _)|(w1 & [Hv Ht] & E)]; [done|]. cbn in E. rewrite Hv, Ht, Hx, Hd' in E. cbn in E.
  destruct (anodes w !! (es ++ [c'])) eqn:En; injection E as <- <-; [done|]. cbn. done.
Qed.

End Memory.

(** ** Witnesses and departures *)

#[local] Existing Instances MemAt_QuarantineCalls MemAt_QuarantineLaws.

Definition allowed_demo : Decision := mkDecision true true "quarantine permitted" 0.
Definition tree_demo (extra : list (list bytes * node)) : tree :=
  list_to_map ([([], NDir 493); ([str "a"], NDir 493); ([str "b"], NDir 493); ([str "a"; str "f"], NFile 420 (str "hi"))] ++ extra).
Definition to_b (_ : list bytes) : list bytes := [str "b"].
Definition run_demo (exclusive : bool) (extra : list (list bytes * node)) (faults : list (option errno)) : MemAt * res Error unit :=
  ExecuteQuarantineMoveAT (H0 := MemAt_QuarantineCalls to_b) exclusive (str "/a") allowed_demo move_demo (mkMemAt (tree_demo extra) ∅ faults 7).

(** The sync of the quarantine fails: the move is reported as failed, and the file is there. *)
Lemma quarantineAT_preserves_witness :
  exists w r, run_demo true [] [None; None; None; None; None; None; Some EOther] = (w, r) /\ r = Err (stop "io") /\
    outcome [str "a"] allowed_demo move_demo 420 (str "hi") (tree_demo []) ∅ w r.
Proof.
  destruct (run_demo true [] [None; None; None; None; None; None; Some EOther]) as [w r] eqn:E. exists w, r. split; [reflexivity|].
  split; [change r with (w, r).2; rewrite <- E; vm_compute; reflexivity|].
  unshelve eapply (quarantineAT_preserves (H2 := MemAt_QuarantineLaws to_b) [str "a"] allowed_demo move_demo 420 (str "hi") (mkMemAt (tree_demo []) ∅ [None; None; None; None; None; None; Some EOther] 7) w r).
  - repeat constructor; discriminate.
  - vm_compute. discriminate.
  - vm_compute. discriminate.
  - vm_compute. reflexivity.
  - exact E.
Defined.

Definition occupied : list (list bytes * node) :=
  [([str "a"; str "quarantine"], NDir 493); ([str "a"; str "quarantine"; str "q1"], NFile 420 (str "old"))].

(** The fallback for other systems is described as preceded by a check of the caller
    that the object does not exist.  There is no such check: an object that is in the
    quarantine is replaced, and the move succeeds; with the exclusive rename it is
    refused. *)
Lemma fallback_replaces :
  (run_demo false occupied []).2 = Ok tt /\
  anodes (run_demo false occupied []).1 !! [str "a"; str "quarantine"; str "q1"] = Some (NFile 420 (str "hi")) /\
  (run_demo true occupied []).2 = Err (stop "collision").
Proof. vm_compute. done. Qed.

(** The entry of the quarantine is opened without [O_NOFOLLOW]: when it is a link, the
    object is moved to where the link leads, outside the root. *)
Lemma quarantine_link_followed :
  let w := run_demo true [([str "a"; str "quarantine"], NOther TSymlink)] [] in
  w.2 = Ok tt /\ anodes w.1 !! [str "a"; str "f"] = None /\ anodes w.1 !! [str "b"; str "q1"] = Some (NFile 420 (str "hi")).
Proof. vm_compute. done. Qed.

End DeletionAt.
