(* ===== verification/LocalScanAt.v ===== *)
(** * Scanning, roots and snapshots under directory descriptors
      (internal/localsync: scan_at_unix.go, roots_at_unix.go, journaled_at_unix.go)

    [ScanAt] is the scan of LocalScan.v for a root that is an open directory.
    [ScanAt_agrees]: when it returns, it has left the tree and the descriptors as they
    were on every path, and on success it lists the entries that [Scan] lists on the same
    tree.  Every entry is opened before its type is known, so that a named pipe without
    a writer keeps it waiting (AtFS.v).  The snapshot of a plan under a descriptor is written beside its final name and renamed
    ([writePlanSnapshotAt_atomic]). *)

From stdpp Require Import gmap.
From S2P Require Import Prelude Sha256 Sorting Codec Journal PathGrammar FilePath FileSystem.
From S2P Require Import LocalPayload LocalPlan LocalApply LocalScan LocalSession LocalSync LocalRuns AtFS LocalApplyAt.
Import Sorting Codec PathGrammar FilePath FileSystem LocalPayload LocalPlan LocalApply LocalScan LocalSync AtFS LocalApplyAt.

Module LocalScanAt.

(** ** The walk (scan_at_unix.go) *)

Section Scan.
Context {W : Type} `{AtCalls W}.
Abbreviation IO := (io W Error).

(** An opened entry; [descend] scans a directory. *)
Definition scan_open (descend : Z -> bytes -> list Entry -> IO (list Entry)) (fd : Z) (rel : bytes) (acc : list Entry) : IO (list Entry) :=
  let* s := try (Fstat fd) in
  match s with
  | inr e => let* _ := ignore (CloseFd fd) in throw (wrap KindRead "scanat" rel (OSError e))
  | inl st =>
      match SType st with
      | TSymlink | TPipe | TSocket | TDevice | TIrregular =>
          let* _ := ignore (CloseFd fd) in throw (unsupported "scanat" rel)
      | TDir => with_close fd (descend fd rel (acc ++ [mkEntry rel EntryDir 0 (SPerm st) (zeros 32) false]))
      | TRegular =>
          let* (dig, size) := or_fail (with_close fd (HashOpenedFile fd)) (wrap KindRead "scanat" rel) in
          ret (acc ++ [mkEntry rel EntryFile size (SPerm st) dig true])
      end
  end.

(** One entry of a directory. *)
Definition scan_name (descend : Z -> bytes -> list Entry -> IO (list Entry)) (dirfd : Z) (relPrefix name : bytes)
    (acc : list Entry) : IO (list Entry) :=
  if bool_decide (name = str ".") || bool_decide (name = str "..") then ret acc else
  let rel := if bool_decide (relPrefix = []) then name else relPrefix ++ str "/" ++ name in
  if HasPrefix rel (str "../") || bool_decide (rel = str "..") then throw (pathUnsafe "scanat") else
  if isMetaRel rel then ret acc else
  let* _ := lift (map_err (fun _ => classify KindPathUnsafe "scanat" rel) (ValidateJoined rel DefaultProfile)) in
  let* o := try (Openat dirfd name O_READ 0) in
  match o with
  | inr e => if bool_decide (e = ELOOP) || bool_decide (e = EMLINK) then throw (unsupported "scanat" rel)
             else throw (wrap KindRead "scanat" rel (OSError e))
  | inl fd => scan_open descend fd rel acc
  end.

Fixpoint scan_names (descend : Z -> bytes -> list Entry -> IO (list Entry)) (dirfd : Z) (relPrefix : bytes)
    (names : list bytes) (acc : list Entry) : IO (list Entry) :=
  match names with
  | [] => ret acc
  | name :: names =>
      let* acc := scan_name descend dirfd relPrefix name acc in
      scan_names descend dirfd relPrefix names acc
  end.

Fixpoint scanAtDir (fuel : nat) (dirfd : Z) (relPrefix : bytes) (acc : list Entry) : IO (list Entry) :=
  match fuel with
  | O => lift Panic
  | S fuel =>
      let* names := or_fail (readDirNamesAt dirfd) (fun e => wrap KindRead "scanat" relPrefix (OSError e)) in
      scan_names (scanAtDir fuel) dirfd relPrefix (sort_key id bytes_Compare names) acc
  end.

Definition ScanAt (rootFD : option Z) (rootLabel : bytes) : IO Manifest :=
  match rootFD with
  | None => throw (invalidArg "scanat")
  | Some root =>
      let* st := or_fail (Fstat root) (fun e => wrap KindRead "scanat" [] (OSError e)) in
      if bool_decide (SType st = TSymlink) then throw (pathUnsafe "scanat") else
      if negb (bool_decide (SType st = TDir)) then throw (invalidArg "scanat") else
      let* entries := scanAtDir scan_fuel root [] [] in
      ret (mkManifest rootLabel (sort_key ERel bytes_Compare entries))
  end.

(** ** Roots (roots_at_unix.go) *)

Definition fstatDirFD (f : Z) (label : bytes) : IO unit :=
  let* st := or_fail (Fstat f) (fun e => wrap KindRead "roots" label (OSError e)) in
  if bool_decide (SType st = TSymlink) then throw (pathUnsafe "roots") else
  if negb (bool_decide (SType st = TDir)) then throw (invalidArg "roots") else ret tt.

Definition resolveRootsAt (cwd source destination : bytes) (srcFD dstFD : option Z) : IO Roots :=
  match srcFD, dstFD with
  | Some src, Some dst =>
      if blank source then throw (invalidArg "roots") else
      if blank destination then throw (invalidArg "roots") else
      let srcAbs := absClean cwd source in
      let dstAbs := absClean cwd destination in
      if bool_decide (srcAbs = dstAbs) then throw (pathUnsafe "roots") else
      let* _ := fstatDirFD src (str "source") in
      let* _ := fstatDirFD dst (str "destination") in
      if isNested srcAbs dstAbs then throw (pathUnsafe "roots") else
      if isNested dstAbs srcAbs &&
         (let metaAbs := Join dstAbs MetaDirName in
          negb (bool_decide (srcAbs = metaAbs)) && negb (isNested metaAbs srcAbs))
      then throw (pathUnsafe "roots")
      else ret (mkRoots srcAbs dstAbs)
  | _, _ => throw (invalidArg "roots")
  end.

(** ** The metadata directory and the snapshot (journaled_at_unix.go) *)

Definition ensureMetaDirAt (destFD : Z) : io W errno Z :=
  let* _ := mkdiratOne destFD MetaDirName 0x1C0 in
  Openat destFD MetaDirName O_DIR 0.

Definition ensureMetaReadyAt (destFD : Z) : io W errno unit :=
  let* metaFD := ensureMetaDirAt destFD in ignore (CloseFd metaFD).

Definition PlanFileName : bytes := str "last-plan.json".

Definition os_write_at (e : errno) : Error := wrap KindWrite "journal" [] (OSError e).
Definition os_read_at (e : errno) : Error := wrap KindRead "journal" [] (OSError e).

(** Each failure removes the temporary file. *)
Definition or_unlink (metaFD : Z) (tmpName : bytes) (r : unit + errno) : IO unit :=
  match r with
  | inl _ => ret tt
  | inr e => let* _ := ignore (Unlinkat metaFD tmpName false) in throw (os_write_at e)
  end.

Definition snapshot_in (metaFD : Z) (raw : bytes) : IO unit :=
  let tmpName := PlanFileName ++ str ".tmp" in
  let* f := or_fail (Openat metaFD tmpName O_REPLACE 0x180) os_write_at in
  let* werr := try (WriteFd f raw) in
  let* serr := try (Fsync f) in
  let* cerr := try (CloseFd f) in
  let* _ := or_unlink metaFD tmpName werr in
  let* _ := or_unlink metaFD tmpName serr in
  let* _ := or_unlink metaFD tmpName cerr in
  let* rerr := try (Renameat metaFD tmpName metaFD PlanFileName) in
  let* _ := or_unlink metaFD tmpName rerr in
  ignore (Fsync metaFD).

Definition writePlanSnapshotAt (destFD : option Z) (raw : bytes) : IO unit :=
  match destFD with
  | None => throw (invalidArg "journal")
  | Some dest =>
      let* metaFD := or_fail (ensureMetaDirAt dest) os_write_at in
      with_close metaFD (snapshot_in metaFD raw)
  end.

Definition load_in `{PlanJSON} (metaFD : Z) : IO (Plan * bytes) :=
  let* f := or_fail (Openat metaFD PlanFileName O_READ 0) os_read_at in
  let* raw := or_fail (with_close f (ReadFd f)) os_read_at in
  let* p := lift (map_err (wrap KindInvalidArgument "plan_json" []) (ParsePlanJSON raw)) in
  ret (p, SHA256 raw).

Definition loadPlanSnapshotAt `{PlanJSON} (destFD : option Z) : IO (Plan * bytes) :=
  match destFD with
  | None => throw (invalidArg "journal")
  | Some dest =>
      let* metaFD := or_fail (Openat dest MetaDirName O_DIR 0) os_read_at in
      with_close metaFD (load_in metaFD)
  end.

End Scan.

(** ** What a scan returns *)

Section ScanLaws.
Context {W : Type} `{AtLaws W}.
Variables (v : tree) (r : list bytes).
Hypothesis tree_v : tree_ok v.

(** The tree and the descriptors are as before, and the entries added cover [D]. *)
Definition scanned_at (B : table) (D : list bytes -> Prop) (acc : list Entry) (w' : W) (res_ : res Error (list Entry)) : Prop :=
  aview w' = v /\ fds w' = B /\
  match res_ with
  | Ok acc' => exists new, acc' = acc ++ new /\ covers v r D new
  | Err _ => True
  | Panic => False
  end.

(** What the scan of a subdirectory is assumed to do, in the induction on fuel. *)
Definition descends_at (descend : Z -> bytes -> list Entry -> io W Error (list Entry)) (ps : list bytes) : Prop :=
  forall B d o acc w, aview w = v -> fds w = B -> B !! d = Some (mkDesc (r ++ ps) o) -> nonmeta ps -> Forall plain ps -> len ps <= 1024 ->
    wp (descend d (join_slash ps) acc) (scanned_at B (LocalScan.below ps) acc) w.

Lemma rel_child ps c : Forall plain ps -> plain c ->
  (if bool_decide (join_slash ps = []) then c else join_slash ps ++ str "/" ++ c) = join_slash (ps ++ [c]).
Proof.
  intros Hp Hc. destruct ps as [|x ps]; [done|]. rewrite bool_decide_eq_false_2.
  - by rewrite rel_snoc.
  - intros E. pose proof (rel_not_dot (x :: ps) Hp ltac:(done)) as Hn. by rewrite E in Hn.
Qed.

Lemma rel_not_up l : Forall plain l -> l <> [] -> HasPrefix (join_slash l) (str "../") || bool_decide (join_slash l = str "..") = false.
Proof.
  intros Hp Hn. apply orb_false_iff. split.
  - unfold HasPrefix. apply bool_decide_eq_false_2. intros E.
    assert (Hs : join_slash l = str ".." ++ slash :: drop 3 (join_slash l)).
    { rewrite <- (take_drop 3 (join_slash l)) at 1. change 3%nat with (length (str "../")) at 1. by rewrite E. }
    pose proof (rel_Split l Hp Hn) as Hl. rewrite Hs, Split_app in Hl. change (Split (str "..")) with [str ".."] in Hl. rewrite <- Hl in Hp.
    apply Forall_cons in Hp as [(_ & _ & H2 & _) _]. done.
  - apply bool_decide_eq_false_2. intros E. pose proof (rel_Split l Hp Hn) as Hl. rewrite E in Hl. change (Split (str "..")) with [str ".."] in Hl.
    rewrite <- Hl in Hp. apply Forall_cons in Hp as [(_ & _ & H2 & _) _]. done.
Qed.

Lemma wp_scan_open descend ps c B f acc w :
  descends_at descend (ps ++ [c]) -> aview w = v -> B !! f = None -> fds w = <[f := mkDesc (r ++ ps ++ [c]) 0]> B ->
  nonmeta (ps ++ [c]) -> Forall plain (ps ++ [c]) -> len (ps ++ [c]) <= 1024 -> is_Some (v !! (r ++ ps ++ [c])) ->
  wp (scan_open descend f (join_slash (ps ++ [c])) acc) (scanned_at B (at_child ps c) acc) w.
Proof.
  intros Hdesc Hv Hn Hf Hnm Hpc Hlen [n Hnode]. unfold scan_open. apply wp_bind, wp_try, wp_call. intros w1 r1 E1.
  eapply fstat_law in E1 as (Hv1 & Hf1 & Hr1); [|by rewrite Hf, lookup_insert_eq]. rewrite Hv in Hv1, Hr1. rewrite Hf in Hf1.
  assert (Hstop : forall w2 e, aview w2 = aview w1 -> fds w2 = delete f (fds w1) -> scanned_at B (at_child ps c) acc w2 (Err e)).
  { intros w2 e Hv2 Hf2. split; [congruence|]. split; [|done]. by rewrite Hf2, Hf1, delete_insert_id. }
  assert (Hclose : forall e, wp (let* _ := ignore (CloseFd f) in throw e) (scanned_at B (at_child ps c) acc) w1).
  { intros e. apply wp_bind, wp_close_fd. intros w2 Hv2 Hf2. by apply wp_throw, Hstop. }
  destruct r1 as [st|e|]; [..|done]; [|by apply Hclose]. cbn [dpath] in Hr1. destruct Hr1 as (n' & Hn' & ->); [by destruct r, ps|].
  rewrite Hnode in Hn'. injection Hn' as <-. destruct n as [m|m x|t]; cbn [stat_of SType SPerm ftype fperm].
  - apply wp_with_close. eapply wp_mono; [eapply (Hdesc _ f 0 _ w1); [done|exact Hf1|by rewrite lookup_insert_eq|done..]|].
    intros w2 r2 (Hv2 & Hf2 & Hr2) w3 Hv3 Hf3. split; [congruence|]. split; [by rewrite Hf3, Hf2, delete_insert_id|].
    destruct r2 as [acc'| |]; try done. destruct Hr2 as (new & -> & Hcov). eexists. rewrite <- app_assoc. split; [done|].
    by eapply covers_dir.
  - apply wp_bind, wp_or_fail, wp_with_close. eapply wp_HashOpenedFile; [exact Hf1|]. intros w2 r2 o2 Hv2 Hf2 Hr2 w3 Hv3 Hf3.
    rewrite Hv1 in Hv2, Hr2. assert (Hf3' : fds w3 = B) by (by rewrite Hf3, Hf2, delete_insert_id).
    destruct r2 as [[dig size]|e|]; cbn [map_err]; [|by split; [congruence|]|done]. destruct Hr2 as (m' & x' & Hx & -> & ->). rewrite Hnode in Hx. injection Hx as <- <-.
    apply wp_ret. split; [congruence|]. split; [done|]. eexists. split; [done|].
    by eapply covers_file.
  - destruct t; apply Hclose.
Qed.

Lemma wp_scan_name descend ps c B d o acc w :
  descends_at descend (ps ++ [c]) -> aview w = v -> fds w = B -> B !! d = Some (mkDesc (r ++ ps) o) -> nonmeta ps -> Forall plain ps -> plain c ->
  is_Some (v !! (r ++ ps ++ [c])) -> wp (scan_name descend d (join_slash ps) c acc) (scanned_at B (at_child ps c) acc) w.
Proof.
  intros Hdesc Hv Hf Hd Hm Hps Hc Hn. pose proof Hc as (_ & Hc1 & Hc2 & _).
  assert (Hpc : Forall plain (ps ++ [c])) by (by apply plain_snoc). assert (Hne : ps ++ [c] <> []) by (by destruct ps).
  unfold scan_name. rewrite !(bool_decide_eq_false_2 (c = _)) by done. cbn [orb]. cbv zeta. rewrite rel_child, rel_not_up by done.
  assert (Hstop : forall w' e, same w w' -> scanned_at B (at_child ps c) acc w' (Err e)) by (intros w' e [??]; split; [congruence|]; split; [congruence|done]).
  destruct (isMetaRel _) eqn:Em.
  { apply isMetaRel_join in Em; [|done..]. apply wp_ret. split; [done|]. split; [done|]. exists []. split; [by rewrite app_nil_r|].
    by apply covers_meta. }
  assert (Hnm : nonmeta (ps ++ [c])).
  { destruct (decide (head (ps ++ [c]) = Some MetaDirName)) as [E|E]; [|done].
    assert (isMetaRel (join_slash (ps ++ [c])) = true) by (apply isMetaRel_join; try done; by intros ?). congruence. }
  apply wp_bind, wp_lift. destruct (ValidateJoined _ _) as [?|e|] eqn:Ev; cbn [map_err]; [|by apply Hstop|by apply ValidateJoined_safe in Ev].
  assert (Hlen : len (ps ++ [c]) <= 1024) by (apply validated_length; [done..|by rewrite Ev]).
  apply wp_bind, wp_try. eapply wp_openat; [done..| |].
  - intros w1 f Hfr Hf1 Ho. apply opened_read in Ho as [Hv1 _]; [|done..]. rewrite <- app_assoc in Hf1. eapply wp_scan_open; [done|congruence|done..].
  - intros w1 e Hs. case_if; by apply wp_throw, Hstop.
Qed.

Lemma wp_scan_names descend ps names B d o acc w :
  (forall c, c ∈ names -> descends_at descend (ps ++ [c]) /\ plain c /\ is_Some (v !! (r ++ ps ++ [c]))) -> NoDup names ->
  aview w = v -> fds w = B -> B !! d = Some (mkDesc (r ++ ps) o) -> nonmeta ps -> Forall plain ps ->
  wp (scan_names descend d (join_slash ps) names acc) (scanned_at B (fun cs => exists c, c ∈ names /\ at_child ps c cs) acc) w.
Proof.
  intros Hn Hnd Hv Hf Hd Hm Hps. revert acc w Hv Hf. induction names as [|c names IH]; intros acc w Hv Hf; cbn [scan_names].
  { apply wp_ret. split; [done|]. split; [done|]. exists []. split; [by rewrite app_nil_r|]. apply covers_nil. by intros cs n (c & []%not_elem_of_nil & _). }
  apply NoDup_cons in Hnd as [Hnc Hnd]. destruct (Hn c) as (Hd1 & Hc & Hs); [by left|].
  apply wp_bind. eapply wp_mono; [by eapply wp_scan_name|]. intros w1 r1 (Hv1 & Hf1 & Hr1).
  destruct r1 as [acc1| |]; [|done..]. destruct Hr1 as (new1 & -> & Hcov1).
  eapply wp_mono; [apply IH; [|done..]; intros; apply Hn; by right|].
  intros w2 r2 (Hv2 & Hf2 & Hr2). split; [done|]. split; [done|]. destruct r2 as [acc2| |]; [|done..].
  destruct Hr2 as (new2 & -> & Hcov2). exists (new1 ++ new2). split; [by rewrite app_assoc|].
  by apply covers_next.
Qed.

Lemma scan_descends fuel ps : 1026 <= Z.of_nat fuel + len ps -> descends_at (scanAtDir fuel) ps.
Proof.
  revert ps. induction fuel as [|fuel IH]; intros ps Hfu B d o acc w Hv Hf Hd Hm Hps Hlen; [lia|]. cbn [scanAtDir].
  apply wp_bind, wp_or_fail. eapply wp_readDirNamesAt; [done..|]. intros w1 r1 [Hv1 Hf1] Hr1. rewrite Hv in Hv1, Hr1. rewrite Hf in Hf1.
  destruct r1 as [names|e|]; cbn [map_err]; [|done|done]. destruct Hr1 as [Hnd Hnames].
  assert (Hperm : sort_key id bytes_Compare names ≡ₚ names) by apply insertion_sort_perm.
  assert (Hn : forall c, c ∈ sort_key id bytes_Compare names -> plain c /\ is_Some (v !! (r ++ ps ++ [c]))).
  { intros c. rewrite Hperm. intros Hc%Hnames. by rewrite <- app_assoc in Hc. }
  eapply wp_mono; [eapply wp_scan_names; [|by rewrite Hperm|done..]|].
  { intros c Hc. destruct (Hn c Hc). split; [|done]. apply IH. rewrite len_app, len_cons, len_nil. lia. }
  intros w2 r2 (Hv2 & Hf2 & Hr2). split; [done|]. split; [done|]. destruct r2 as [acc2| |]; [|done..].
  destruct Hr2 as (new & -> & Hcov). exists new. split; [done|]. eapply covers_children; [done| |exact Hcov].
  intros c. rewrite Hperm, Hnames. by rewrite <- app_assoc.
Qed.

End ScanLaws.

(** What the scan of a descriptor returns. *)
Definition lists_at (v : tree) (r : list bytes) (m : Manifest) : Prop :=
  sorted_manifest m /\
  (forall e, e ∈ Entries m <-> exists cs n, cs <> [] /\ nonmeta cs /\ v !! (r ++ cs) = Some n /\ entry_for cs n e) /\
  (forall cs n, cs <> [] -> nonmeta cs -> v !! (r ++ cs) = Some n -> exists e, entry_for cs n e).

Lemma wp_ScanAt {W} `{AtLaws W} (r : list bytes) d o label (w : W) :
  tree_ok (aview w) -> fds w !! d = Some (mkDesc r o) ->
  wp (ScanAt (Some d) label) (fun w' res_ => same w w' /\
    match res_ with Ok m => Root m = label /\ lists_at (aview w) r m | Err _ => True | Panic => False end) w.
Proof.
  intros Ht Hd. unfold ScanAt. apply wp_bind, wp_or_fail, wp_call. intros w1 r1 E1.
  eapply fstat_law in E1 as (Hv1 & Hf1 & Hr1); [|exact Hd]. destruct r1 as [st|e|]; cbn [map_err]; [|done..].
  do 2 (case_if; [by apply wp_throw|]). apply wp_bind.
  pose proof (scan_descends (aview w) r Ht scan_fuel [] ltac:(vm_compute; discriminate)) as Hs.
  eapply wp_mono; [apply (Hs (fds w) d o); [done|done|by rewrite app_nil_r|done|done|done]|].
  intros w2 r2 (Hv2 & Hf2 & Hr2). assert (Hsame : same w w2) by done. destruct r2 as [acc| |]; [|done..].
  destruct Hr2 as (new & -> & Hnd & Hcov & Hall). apply wp_ret. split; [done|]. split; [done|]. cbn [Root Entries].
  assert (Hperm : sort_key ERel bytes_Compare new ≡ₚ new) by apply insertion_sort_perm. split; [|split].
  - by apply sort_key_strict; [apply _|].
  - intros e. cbn [app Entries]. rewrite Hperm, Hcov. unfold LocalScan.below. split.
    + intros (cs & n & [(k & Hk & ->) Hm] & Hn & He). exists k, n. done.
    + intros (cs & n & Hne & Hm & Hn & He). exists cs, n. split; [|done]. split; [|done]. by exists cs.
  - intros cs n Hne Hm Hn. apply (Hall cs n); [|done]. split; [|done]. by exists cs.
Qed.

(** A strictly sorted manifest is determined by its entries. *)
Lemma sorted_manifest_ext m m' : sorted_manifest m -> sorted_manifest m' -> (forall e, e ∈ Entries m <-> e ∈ Entries m') -> Entries m = Entries m'.
Proof.
  intros Hs Hs' He. assert (Hnd : forall x, sorted_manifest x -> NoDup (Entries x)).
  { intros x Hx. unfold sorted_manifest in Hx. induction Hx as [|e l _ IH Hl]; constructor; [|done]. intros Hin. rewrite Forall_forall in Hl.
    specialize (Hl _ Hin). assert (Hz : bytes_Compare (ERel e) (ERel e) = 0) by (by apply cmp_eq). lia. }
  apply (StronglySorted_unique_strong (fun a b => bytes_Compare (ERel a) (ERel b) < 0)); [|done|done|by apply NoDup_Permutation; [apply Hnd..|]].
  intros a b _ _ H1 H2. pose proof (cmp_opp (cmp := bytes_Compare) (ERel a) (ERel b)). lia.
Qed.

(** C27. Scanning through a descriptor is scanning.  Whatever calls fail and wherever links
    lead, a [ScanAt] whose calls return (the open of a named pipe may wait for ever) does
    not panic, has changed nothing and leaves no descriptor open.  When it succeeds
    the manifest is strictly sorted and lists exactly the directories and files below the
    directory, without the metadata directory, and its entries are those of the scan of the
    same tree by path. *)
Theorem ScanAt_agrees {W V} `{AtLaws W} `{FileSystemLaws V} (r : list bytes) d o label (w w' : W) res_ :
  tree_ok (aview w) -> fds w !! d = Some (mkDesc r o) -> ScanAt (Some d) label w = (w', res_) ->
  aview w' = aview w /\ fds w' = fds w /\ res_ <> Panic /\
  forall m, res_ = Ok m -> Root m = label /\ sorted_manifest m /\
    (forall e, e ∈ Entries m <-> exists cs n, cs <> [] /\ nonmeta cs /\ aview w !! (r ++ cs) = Some n /\ entry_for cs n e) /\
    (forall (x x' : V) m', view x = aview w -> Forall plain r -> nolink (view x) r -> Scan (native r) x = (x', Ok m') -> Entries m = Entries m').
Proof.
  intros Ht Hd E. destruct (wp_run _ _ _ _ _ (wp_ScanAt r d o label w Ht Hd) E) as [[Hv Hf] Hr]. split; [done|]. split; [done|].
  split; [by destruct res_|]. intros m ->. destruct Hr as (Hroot & Hs & He & _). split; [done|]. split; [done|]. split; [done|].
  intros x x' m' Hx Hp Hl E'. rewrite <- Hx in Ht. destruct (wp_run _ _ _ _ _ (wp_Scan r x Ht Hp Hl) E') as [_ [(_ & Hs' & He' & _) _]].
  apply sorted_manifest_ext; [done..|]. intros e. by rewrite He, He', Hx.
Qed.

(** ** The snapshot *)

Section Snapshot.
Context {W : Type} `{AtLaws W}.

Definition snapshot_tmp : bytes := PlanFileName ++ str ".tmp".

Lemma snapshot_names : plain MetaDirName /\ plain PlanFileName /\ plain snapshot_tmp.
Proof. split_and!; (split_and!; [done..|]); repeat constructor; by vm_compute. Qed.

Lemma wp_or_unlink B d ds o c (X D : list bytes -> Prop) v x (Q : W -> res Error unit -> Prop) w :
  fds w = B -> B !! d = Some (mkDesc ds o) -> plain c -> apart B (ds ++ [c]) -> X (ds ++ [c]) -> evolves X D v (aview w) ->
  (x = inl tt -> Q w (Ok tt)) ->
  (forall w' e, fds w' = B -> evolves X D v (aview w') -> aview w' = aview w \/ aview w' = delete (ds ++ [c]) (aview w) -> Q w' (Err e)) ->
  wp (or_unlink d c x) Q w.
Proof.
  intros Hf Hd Hc Ha HX He HQ HE. destruct x as [[]|e]; [by apply wp_ret, HQ|]. apply wp_bind. eapply wp_unlink; [done..|].
  intros w1 Hf1 Hv1. apply wp_throw, HE; [done| |done]. destruct Hv1 as [->| ->]; [done|]. eapply evolves_trans; [exact He|by apply evolves_delete].
Qed.

Lemma wp_snapshot_in B d mm o raw (Q : W -> res Error unit -> Prop) w :
  let X q := q = mm ++ [snapshot_tmp] \/ q = mm ++ [PlanFileName] in
  fds w = B -> B !! d = Some (mkDesc mm o) -> (forall q, X q -> apart B q) -> (forall t, aview w !! (mm ++ [snapshot_tmp]) <> Some (NOther t)) ->
  (forall w' r, fds w' = B -> evolves X (fun _ => False) (aview w) (aview w') ->
     match r with
     | Ok _ => exists m, aview w' !! (mm ++ [PlanFileName]) = Some (NFile m raw)
     | Err _ => aview w' !! (mm ++ [PlanFileName]) = aview w !! (mm ++ [PlanFileName])
     | Panic => False
     end -> Q w' r) -> wp (snapshot_in d raw) Q w.
Proof.
  intros X Hf Hd Ha Hno HQ. destruct snapshot_names as (_ & Hp & Htp). unfold snapshot_in. cbv zeta. fold snapshot_tmp.
  assert (Hne : mm ++ [PlanFileName] <> mm ++ [snapshot_tmp]) by (intros E%app_inv_head; discriminate E).
  assert (HE : forall w' e, fds w' = B -> evolves (fun q => q = mm ++ [snapshot_tmp]) (fun _ => False) (aview w) (aview w') -> Q w' (Err e)).
  { intros w' e Hf' He. apply HQ; [done|eapply evolves_mono; [| |exact He]; [|done]; intros q ->; by left|].
    destruct (He (mm ++ [PlanFileName])) as [[?|[?|(_ & [] & _)]] _]; done. }
  apply wp_bind, wp_or_fail. eapply wp_openat; [done..| |]; cbn [map_err].
  2: { intros w1 e [Hv1 Hf1]. apply HE; [congruence|by apply evolves_eq]. }
  intros w1 f Hn Hf1 Ho. assert (exists m, aview w1 = <[mm ++ [snapshot_tmp] := NFile m []]> (aview w)) as [m Hv1].
  { unfold opened in Ho. destruct (aview w !! (mm ++ [snapshot_tmp])) as [[m|m y|t]|] eqn:Et.
    - destruct Ho as (_ & _ & _ & Hd' & _). by destruct Hd'.
    - destruct Ho as (_ & _ & _ & _ & ->). by exists m.
    - by destruct (Hno t).
    - destruct Ho as (_ & m & ->). by exists m. }
  apply wp_bind, wp_try, wp_call. intros w2 r2 E2. eapply writefd_law in E2; [|by rewrite Hf1, lookup_insert_eq|by rewrite Hv1, lookup_insert_eq|lia].
  assert (Hx : exists c2 y o2, match r2 with Ok a => Ok (inl a) | Err e => Ok (inr e) | Panic => Panic end = @Ok Error (unit + errno) c2 /\
    fds w2 = <[f := mkDesc (mm ++ [snapshot_tmp]) o2]> B /\ aview w2 = <[mm ++ [snapshot_tmp] := NFile m y]> (aview w) /\ (c2 = inl tt -> y = raw)).
  { rewrite Hf1, Hv1 in E2. destruct r2 as [[]|e|]; [..|done].
    - destruct E2 as [Hv2 Hf2]. rewrite insert_insert_eq in Hf2. rewrite insert_insert_eq in Hv2. rewrite patch_whole in Hv2. by eexists _, _, _.
    - destruct E2 as (y & o2 & _ & Hv2 & Hf2). rewrite insert_insert_eq in Hf2. rewrite insert_insert_eq in Hv2. by eexists _, _, _. }
  destruct Hx as (c2 & y & o2' & -> & Hf2 & Hv2 & Hy). apply wp_bind, wp_try_any. intros w3 r3 (Hv3 & Hf3 & Hr3)%fsync_law. split; [done|]. intros x3.
  apply wp_bind, wp_try_any. intros w4 r4 (Hv4 & Hf4 & Hr4)%closefd_law. split; [done|]. intros x4.
  rewrite Hf3, Hf2, delete_insert_id in Hf4 by done. rewrite Hv3, Hv2 in Hv4.
  assert (He4 : evolves (fun q => q = mm ++ [snapshot_tmp]) (fun _ => False) (aview w) (aview w4)) by (rewrite Hv4; by apply evolves_insert).
  assert (Hat : apart B (mm ++ [snapshot_tmp])) by (apply Ha; by left).
  assert (Hstep : forall x k, (x = inl tt -> wp k Q w4) -> wp (let* _ := or_unlink d snapshot_tmp x in k) Q w4).
  { intros x k Hk. apply wp_bind. eapply (wp_or_unlink B d mm o snapshot_tmp (fun q => q = mm ++ [snapshot_tmp]) (fun _ => False)); [done..|exact He4|done|].
    intros w' e Hf' He' _. by apply HE. }
  apply Hstep. intros Hc2. apply Hstep. intros _. apply Hstep. intros _.
  apply wp_bind, wp_try. eapply wp_rename; [exact Hf4|exact Hd|done|done|by rewrite Hv4, lookup_insert_eq| |].
  - intros w5 Hv5 Hf5. rewrite (forget_apart B) in Hf5 by (apply Ha; by right). rewrite forget_apart in Hf5 by done.
    apply wp_bind. unfold or_unlink. apply wp_ret, wp_sync. intros w6 [Hv6 Hf6]. apply HQ; [congruence|rewrite Hv6, Hv5..].
    + eapply evolves_trans; [eapply evolves_mono; [| |exact He4]; [|done]; intros q ->; by left|].
      eapply evolves_trans; [apply evolves_delete; by left|]. apply evolves_insert. by right.
    + exists m. by rewrite lookup_insert_eq, Hy.
  - intros w5 e [Hv5 Hf5]. apply wp_bind. unfold or_unlink. apply wp_bind. eapply (wp_unlink B); [congruence|exact Hd|done|done|].
    intros w6 Hf6 Hv6. apply wp_throw, HE; [done|]. rewrite Hv5 in Hv6. destruct Hv6 as [->| ->]; [done|]. eapply evolves_trans; [exact He4|by apply evolves_delete].
Qed.

(** The snapshot under a descriptor is replaced whole or not at all, wherever links lead
    and whatever call fails; only the metadata directory may be new, and the descriptors are
    as before. *)
Lemma writePlanSnapshotAt_atomic d dd o raw w w' r :
  let mm := dd ++ [MetaDirName] in
  let X q := q = mm ++ [snapshot_tmp] \/ q = mm ++ [PlanFileName] in
  fds w !! d = Some (mkDesc dd o) -> (forall q, X q -> apart (fds w) q) -> (forall t, aview w !! (mm ++ [snapshot_tmp]) <> Some (NOther t)) ->
  writePlanSnapshotAt (Some d) raw w = (w', r) ->
  fds w' = fds w /\ evolves X (fun q => q = mm) (aview w) (aview w') /\
  match r with
  | Ok _ => exists m, aview w' !! (mm ++ [PlanFileName]) = Some (NFile m raw)
  | Err _ => aview w' !! (mm ++ [PlanFileName]) = aview w !! (mm ++ [PlanFileName])
  | Panic => False
  end.
Proof.
  intros mm X Hd Ha Hno E. pattern w', r. refine (wp_run _ _ _ _ _ _ E). clear E w' r.
  destruct snapshot_names as (Hmd & _). unfold writePlanSnapshotAt, ensureMetaDirAt.
  assert (Hout : forall v v' c, evolves X (fun q => q = mm) v v' -> mm ++ [c] <> mm ++ [snapshot_tmp] -> mm ++ [c] <> mm ++ [PlanFileName] \/
     evolves (fun _ => False) (fun q => q = mm) v v' -> v' !! (mm ++ [c]) = v !! (mm ++ [c])).
  { intros v v' c He H1 H2. assert (Hmm : mm ++ [c] <> mm) by (intros Ec%(f_equal length); rewrite length_app in Ec; cbn in Ec; lia).
    destruct H2 as [H2|He2]; [destruct (He (mm ++ [c])) as [[?|[[?|?]|(_ & ? & _)]] _]; done|].
    destruct (He2 (mm ++ [c])) as [[?|[[]|(_ & ? & _)]] _]; done. }
  assert (Hgrow : forall v v', evolves (fun _ => False) (fun q => q = mm) v v' -> evolves X (fun q => q = mm) v v') by (intros v v' He; by eapply evolves_mono; [| |exact He]).
  assert (Hstop : forall w1, fds w1 = fds w -> evolves (fun _ => False) (fun q => q = mm) (aview w) (aview w1) ->
    fds w1 = fds w /\ evolves X (fun q => q = mm) (aview w) (aview w1) /\ aview w1 !! (mm ++ [PlanFileName]) = aview w !! (mm ++ [PlanFileName])).
  { intros w1 Hf1 He1. split; [done|]. split; [by apply Hgrow|]. apply Hout; [by apply Hgrow| |by right]. intros Ec%app_inv_head. discriminate Ec. }
  apply wp_bind, wp_or_fail, wp_bind. eapply (wp_mkdiratOne _ d dd o MetaDirName _ (fun _ => False) (fun q => q = mm)); [done..|].
  intros w1 r1 Hf1 He1 Hr1. destruct r1 as [[]|e|]; cbn [map_err]; [|by apply Hstop|done]. eapply wp_openat; [exact Hf1|done|done| |].
  - intros w2 f Hn Hf2 Ho. cbn [map_err]. apply opened_dir in Ho as [Hv2 _]. rewrite <- Hv2 in He1. apply wp_with_close.
    assert (Hinside : forall q, X q -> ~ q `prefix_of` mm) by (intros q [->| ->]; apply not_prefix_snoc).
    eapply (wp_snapshot_in _ f mm 0); [exact Hf2|by rewrite lookup_insert_eq| | |].
    + intros q Hq. apply apart_insert; [by apply Ha|]. by apply Hinside.
    + intros t Et. destruct (He1 (mm ++ [snapshot_tmp])) as [_ Hl]. by apply (Hno t), Hl.
    + intros w3 r3 Hf3 He3 Hr3 w4 Hv4 Hf4. rewrite <- Hv4 in He3, Hr3. destruct (Hstop w1 Hf1) as (_ & _ & Hsnap); [by rewrite Hv2 in He1|].
      split; [by rewrite Hf4, Hf3, delete_insert_id|]. split.
      * eapply evolves_trans; [by apply Hgrow|]. by eapply evolves_mono; [| |exact He3].
      * destruct r3; [done| |done]. by rewrite Hr3, Hv2.
  - intros w2 e [Hv2 Hf2]. cbn [map_err]. apply Hstop; [congruence|by rewrite Hv2].
Qed.

End Snapshot.

(** ** A run *)

Definition scan_at : MemAt := mkMemAt LocalRuns.runTree {[ 3 := mkDesc [str "s"] 0 ]} [] 7.

Lemma ScanAt_agrees_witness :
  exists w' m, ScanAt (Some 3) (str "label") scan_at = (w', Ok m) /\
    exists (x' : MemFS) m', Scan (native [str "s"]) (mkMemFS LocalRuns.runTree [] 7) = (x', Ok m') /\ Entries m = Entries m' /\ Entries m <> [].
Proof.
  assert (Hr : exists m, (ScanAt (Some 3) (str "label") scan_at).2 = Ok m /\ Entries m <> []) by (vm_compute; eexists; split; [reflexivity|discriminate]).
  destruct Hr as (m & Hr & Hne). destruct (ScanAt (Some 3) (str "label") scan_at) as [w' r] eqn:E. cbn [snd] in Hr. subst r.
  exists w', m. split; [reflexivity|].
  assert (Hs : exists m', (Scan (native [str "s"]) (mkMemFS LocalRuns.runTree [] 7)).2 = Ok m') by (vm_compute; eexists; reflexivity).
  destruct Hs as [m' Hs]. destruct (Scan (native [str "s"]) (mkMemFS LocalRuns.runTree [] 7)) as [x' r'] eqn:E'. cbn [snd] in Hs. subst r'.
  exists x', m'. split; [reflexivity|]. split; [|exact Hne].
  assert (Ht : tree_ok LocalRuns.runTree) by (apply LocalRuns.check_tree_ok; vm_compute; reflexivity).
  assert (Hl : nolink LocalRuns.runTree [str "s"]) by (apply LocalRuns.linkfree_nolink; vm_compute; reflexivity).
  assert (Hp : Forall plain [str "s"]) by (apply demo_root; vm_compute; reflexivity).
  destruct (@ScanAt_agrees MemAt MemFS MemAt_AtCalls MemAt_laws _ _ [str "s"] 3 0 (str "label") scan_at w' (Ok m) Ht eq_refl E) as (_ & _ & _ & Hm).
  exact (proj2 (proj2 (proj2 (Hm m eq_refl))) (mkMemFS LocalRuns.runTree [] 7) x' m' eq_refl Hp Hl E').
Defined.

Lemma writePlanSnapshotAt_run :
  let '(w, r) := writePlanSnapshotAt (Some 3) (str "plan") scan_at in
  r = Ok tt /\ anodes w !! [str "s"; MetaDirName; PlanFileName] = Some (NFile 0x180 (str "plan")) /\ atable w = atable scan_at.
Proof. vm_compute. split_and!; reflexivity. Qed.

End LocalScanAt.
