(* ===== verification/RemoteStoreAt.v ===== *)
(** * The receiving store under directory descriptors (internal/remotesync: store_at_unix.go)

    The store of RemoteStore.v for a destination that is conferred as an open directory:
    the staging directories are opened below it, and every file of a transfer is reached
    from their descriptors.  [store_at_confined] is about every sequence of requests, with
    any paths in those that prepare directories or stage a whole file: nothing changes outside the two staging directories, no descriptor is left open but the
    one of the partial file, and a transfer that ends well leaves a staged file with the
    announced digest.  The requests of a transfer need a path of proper components:
    [absolute_path_renames_outside] follows an absolute path out of the staging directories. *)

From stdpp Require Import gmap.
From S2P Require Import Prelude Sha256 Codec Journal PathGrammar FilePath FileSystem.
From S2P Require Import LocalPayload LocalPlan LocalApply LocalScan LocalSession LocalSync LocalResume AtFS LocalApplyAt.
From S2P Require Import RemoteMessages RemoteWire RemoteStore.
Import Codec PathGrammar FilePath FileSystem LocalPlan LocalApply LocalSync AtFS LocalApplyAt RemoteMessages RemoteWire.

Module RemoteStoreAt.

(** An error of a call, or one of this package. *)
Inductive Failure := Sys (e : errno) | App (e : Error).

Class PathTexts := path_text : PathGrammar.Error -> bytes.

(** [O_RDWR|O_CREAT], with [O_TRUNC] when there is nothing to resume. *)
Definition O_PART (trunc : bool) : flags := mkFlags true true false trunc false.

(** The open partial file: [None] for a file that was closed with an error. *)
Abbreviation file := (option Z).

Record localStore := mkStore {
  dest : bytes;
  destFD : Z;
  stageFD : Z;
  partialFD : Z;
  active : bool;
  begin : fileBegin;
  lastBegin : fileBegin;
  partPath : bytes;
  pf : option file;
  off : Z;
  destMan : option Manifest }.

Definition set_last b s := mkStore (dest s) (destFD s) (stageFD s) (partialFD s) (active s) (begin s) b (partPath s) (pf s) (off s) (destMan s).
Definition set_open b path f start s :=
  mkStore (dest s) (destFD s) (stageFD s) (partialFD s) true b (lastBegin s) path (Some (Some f)) start (destMan s).
Definition set_pf p s := mkStore (dest s) (destFD s) (stageFD s) (partialFD s) (active s) (begin s) (lastBegin s) (partPath s) p (off s) (destMan s).
Definition set_off o s := mkStore (dest s) (destFD s) (stageFD s) (partialFD s) (active s) (begin s) (lastBegin s) (partPath s) (pf s) o (destMan s).
Definition set_done s := mkStore (dest s) (destFD s) (stageFD s) (partialFD s) false (begin s) (lastBegin s) [] (pf s) (off s) (destMan s).
Definition set_closed s := mkStore (dest s) (destFD s) (stageFD s) (partialFD s) false (begin s) (lastBegin s) (partPath s) None (off s) (destMan s).
Definition set_fds st pt s := mkStore (dest s) (destFD s) st pt (active s) (begin s) (lastBegin s) (partPath s) (pf s) (off s) (destMan s).

Section Store.
Context {W : Type} `{AtCalls W} `{RemoteStore.MetaJSON} `{ErrorTexts} `{PathTexts}.
Abbreviation IO := (io (W * localStore) Error).

Definition failure_text (f : Failure) : bytes := match f with Sys e => os_text e | App e => error_text e end.
Definition as_error (f : Failure) : Error := match f with Sys e => Foreign (os_text e) | App e => e end.
Definition at_wrap (msg : string) (f : Failure) : Error := wrap KindApply (str msg) (failure_text f).
Definition os_wrap (msg : string) (e : errno) : Error := wrap KindApply (str msg) (os_text e).
Definition pathUnsafe (op msg : string) : Error := fail KindApply (str op ++ str ": " ++ str msg).

(** ** Directories *)

Definition has_byte (z : Z) (c : bytes) : bool := existsb (fun b => byteZ b =? z) c.

(** The checks of a component. *)
Definition check_component (comp : bytes) : res Failure unit :=
  if bool_decide (comp = str "..") then Err (App (pathUnsafe "mkdirat" "path escapes root")) else
  if has_byte 92 comp || has_byte 0 comp then Err (App (pathUnsafe "mkdirat" "invalid component")) else
  match ValidateJoined comp DefaultProfile with
  | Ok _ => Ok tt
  | Err e => Err (App (wrap KindApply (str "mkdirat " ++ comp) (path_text e)))
  | Panic => Panic
  end.

Fixpoint mkdirat_loop (cur : Z) (comps : list bytes) (perm : Z) : io W Failure Z :=
  match comps with
  | [] => ret cur
  | comp :: comps =>
      if bool_decide (comp = []) || bool_decide (comp = str ".") then mkdirat_loop cur comps perm else
      let* ok := try (lift (check_component comp)) in
      match ok with
      | inr e => let* _ := ignore (CloseFd cur) in throw e
      | inl _ =>
          let* r := try (mkdiratOne cur comp perm) in
          match r with
          | inr e => let* _ := ignore (CloseFd cur) in throw (Sys e)
          | inl _ => let* next := or_fail (step_down cur comp) Sys in mkdirat_loop next comps perm
          end
      end
  end.

Definition mkdiratAll (dirfd : Z) (rel : bytes) (perm : Z) : io W Failure Z :=
  if bool_decide (rel = []) || bool_decide (rel = str ".") then or_fail (Dup dirfd) Sys else
  let* cur := or_fail (Dup dirfd) Sys in mkdirat_loop cur (Split rel) perm.

Definition openDirAt (dirfd : Z) (rel : bytes) : io W errno Z :=
  let* cur := Dup dirfd in opendir_loop cur (Split rel).

Definition readDirNamesAt (dirfd : Z) : io W errno (list bytes) :=
  let* dup := Dup dirfd in with_close dup (Readdirnames dup).

(** ** Files *)

(** The open of a path whose directories are made first. *)
Definition open_below {E} (dirfd : Z) (rel : bytes) (perm : Z) (fl : flags) (mode : Z) (wm : Failure -> E) (wo : errno -> E) : io W E Z :=
  let parent := Dir rel in
  let base := Base rel in
  if at_top parent then or_fail (Openat dirfd base fl mode) wo else
  let* pfd := or_fail (mkdiratAll dirfd parent perm) wm in
  let* r := try (Openat pfd base fl mode) in
  let* _ := ignore (CloseFd pfd) in
  match r with inl f => ret f | inr e => throw (wo e) end.

Definition openatCreate (dirfd : Z) (rel : bytes) (fl : flags) (mode : Z) : io W Failure Z :=
  open_below dirfd rel 0x1C0 fl mode (fun e => e) Sys.

Definition openatRead (dirfd : Z) (rel : bytes) : io W Failure Z := openatCreate dirfd rel O_READ 0.

(** The digest of a file; nothing is done with the error. *)
Definition hashAt (dirfd : Z) (rel : bytes) : io W unit bytes :=
  let* f := or_fail (openatRead dirfd rel) (fun _ => tt) in
  let* (d, _) := or_fail (with_close f (HashOpenedFile f)) (fun _ => tt) in ret d.

Definition digest_is (dirfd : Z) (rel want : bytes) : io W Error bool :=
  let* h := try (hashAt dirfd rel) in
  ret match h with inl dig => bool_decide (dig = want) | inr _ => false end.

(** [os.ErrNotExist] for what is not a regular file. *)
Definition fstatatRegular (dirfd : Z) (rel : bytes) : io W errno Stat :=
  let* st := Fstatat dirfd rel in
  if negb (bool_decide (SType st = TRegular)) then throw ENOENT else ret st.

(** A call on the entry of a path, in its directory. *)
Definition on_entry (dirfd : Z) (rel : bytes) (call : Z -> bytes -> io W errno unit) : io W errno unit :=
  let parent := Dir rel in
  let base := Base rel in
  if at_top parent then call dirfd base else
  let* pfd := openDirAt dirfd parent in
  with_close pfd (call pfd base).

Definition unlinkatPath (dirfd : Z) (rel : bytes) : io W errno unit := on_entry dirfd rel (fun d c => Unlinkat d c false).
Definition fchmodatPath (dirfd : Z) (rel : bytes) (mode : Z) : io W errno unit := on_entry dirfd rel (fun d c => Fchmodat d c mode).

(** [f.Write] and [f.Close]: the first error. *)
Definition write_close {E} (f : Z) (data : bytes) (wrapped : errno -> E) : io W E unit :=
  let* werr := try (WriteFd f data) in
  let* cerr := try (CloseFd f) in
  lift match werr, cerr with
  | inr e, _ => Err (wrapped e)
  | _, inr e => Err (wrapped e)
  | _, _ => Ok tt
  end.

(** ** Resume points *)

Definition writePartialMetaAt (partialFD : Z) (rel : bytes) (m : RemoteStore.partialMeta) : io W Failure unit :=
  let raw := RemoteStore.MarshalMeta m in
  let metaRel := rel ++ str ".meta.json" in
  let tmpRel := metaRel ++ str ".tmp" in
  let* f := openatCreate partialFD tmpRel O_REPLACE 0x180 in
  let* _ := write_close f raw Sys in
  let* r := try (Renameat partialFD tmpRel partialFD metaRel) in
  match r with
  | inl _ => ret tt
  | inr e => let* _ := ignore (unlinkatPath partialFD tmpRel) in throw (Sys e)
  end.

Definition loadPartialMetaAt (partialFD : Z) (rel : bytes) : io W Error (option RemoteStore.partialMeta) :=
  let* o := try (openatRead partialFD (rel ++ str ".meta.json")) in
  match o with
  | inr (Sys e) => if bool_decide (e = ENOENT) then ret None else throw (as_error (Sys e))
  | inr e => throw (as_error e)
  | inl f =>
      let* raw := or_fail (with_close f (ReadFd f)) (fun e => Foreign (os_text e)) in
      match RemoteStore.UnmarshalMeta raw with
      | None => throw (Foreign RemoteStore.json_text)
      | Some m => ret (Some m)
      end
  end.

Definition clearPartialAt (partialFD : Z) (rel : bytes) : io W Error unit :=
  let* _ := ignore (unlinkatPath partialFD (rel ++ str ".meta.json")) in
  ignore (unlinkatPath partialFD (rel ++ str ".part")).

(** ** The parts of the operations that work on the tree *)

Fixpoint prepare_loop (stageFD : Z) (entries : list Entry) : io W Error unit :=
  match entries with
  | [] => ret tt
  | e :: entries =>
      if negb (bool_decide (EType e = EntryDir)) then prepare_loop stageFD entries else
      let mode := if EMode e =? 0 then 0x1ED else EMode e in
      let* f := or_fail (mkdiratAll stageFD (ERel e) mode) (at_wrap "mkdir") in
      let* _ := ignore (CloseFd f) in
      prepare_loop stageFD entries
  end.

Definition stage_file_at (stageFD : Z) (fw : fileWire) : io W Error unit :=
  let mode := if FMode fw =? 0 then 0x1A4 else FMode fw in
  let* f := open_below stageFD (FRel fw) 0x1ED O_REPLACE mode (at_wrap "mkdir parent") (os_wrap "write") in
  let* _ := write_close f (FData fw) (os_wrap "write") in
  let* same := digest_is stageFD (FRel fw) (FDigest fw) in
  if negb same then throw (fail KindApply (str "staged digest mismatch for " ++ FRel fw)) else ret tt.

(** The staged file is already there, whole. *)
Definition already_staged_at (stageFD : Z) (b : fileBegin) : io W Error bool :=
  let* st := try (fstatatRegular stageFD (BRel b)) in
  match st with
  | inl st => if SSize st =? i64 (BSize b) then digest_is stageFD (BRel b) (BDigest b) else ret false
  | inr _ => ret false
  end.

(** Where the transfer resumes; a resume point that does not fit is cleared. *)
Definition resume_point_at (partialFD : Z) (b : fileBegin) : io W Error Z :=
  let* meta := loadPartialMetaAt partialFD (BRel b) in
  let reset := let* _ := clearPartialAt partialFD (BRel b) in ret 0 in
  match meta with
  | Some m =>
      if bool_decide (RemoteStore.MDigest m = BDigest b) && (RemoteStore.MSize m =? i64 (BSize b)) && bool_decide (RemoteStore.MRel m = BRel b) then
        let* st := try (fstatatRegular partialFD (BRel b ++ str ".part")) in
        match st with
        | inl st => if SSize st =? RemoteStore.MOffset m then ret (u64 (RemoteStore.MOffset m)) else reset
        | inr _ => reset
        end
      else reset
  | None => reset
  end.

Definition open_partial_at (partialFD : Z) (partRel : bytes) (start : Z) : io W Error Z :=
  let* f := or_fail (openatCreate partialFD partRel (O_PART (start =? 0)) 0x180) (at_wrap "partial open") in
  if 0 <? start then
    let* r := try (SeekFd f (i64 start)) in
    match r with
    | inl _ => ret f
    | inr e => let* _ := ignore (CloseFd f) in throw (os_wrap "partial seek" e)
    end
  else ret f.

(** The copy when the rename fails. *)
Definition copy_staged (stageFD partialFD : Z) (partPath rel : bytes) (mode : Z) : io W Error unit :=
  let* src := or_fail (openatRead partialFD partPath) (at_wrap "finalize read") in
  let* data := or_fail (with_close src (ReadFd src)) (os_wrap "finalize read") in
  let* dst := or_fail (openatCreate stageFD rel O_REPLACE mode) (at_wrap "finalize write") in
  let* _ := write_close dst data (os_wrap "finalize write") in
  ignore (unlinkatPath partialFD partPath).

(** From the verified partial file to the staged file. *)
Definition finalize_at (stageFD partialFD : Z) (partPath rel : bytes) (mode : Z) : io W Error unit :=
  let mode := if mode =? 0 then 0x1A4 else mode in
  let parent := Dir rel in
  let* _ := if at_top parent then ret tt else
    let* pfd := or_fail (mkdiratAll stageFD parent 0x1ED) (at_wrap "final mkdir") in ignore (CloseFd pfd) in
  let* r := try (Renameat partialFD partPath stageFD rel) in
  let* _ := match r with
    | inr _ => copy_staged stageFD partialFD partPath rel mode
    | inl _ => ignore (fchmodatPath stageFD rel mode)
    end in
  let* _ := clearPartialAt partialFD rel in
  ignore (Fsync stageFD).

(** ** The operations *)

Definition get : IO localStore := fun '(w, s) => (w, s, Ok s).
Definition put (s : localStore) : IO unit := fun '(w, _) => (w, s, Ok tt).
Definition fs {E A} (c : io W E A) : io (W * localStore) E A := on_fst c.

Definition prepareDirsAt (entries : list Entry) : IO unit :=
  let* s := get in fs (prepare_loop (stageFD s) entries).

Definition stageLegacyAt (fw : fileWire) : IO unit :=
  let* s := get in fs (stage_file_at (stageFD s) fw).

Definition beginFileAt (b : fileBegin) : IO Z :=
  let* s := get in
  if active s then throw (fail KindProtocol (str "file already active")) else
  let s := set_last b s in
  let* _ := put s in
  let* complete := fs (already_staged_at (stageFD s) b) in
  if complete : bool then
    let* _ := fs (clearPartialAt (partialFD s) (BRel b)) in
    ret (BSize b)
  else
  let* start := fs (resume_point_at (partialFD s) b) in
  let partRel := BRel b ++ str ".part" in
  let* f := fs (open_partial_at (partialFD s) partRel start) in
  let* _ := put (set_open b partRel f start s) in
  ret start.

Definition active_meta (s : localStore) : RemoteStore.partialMeta :=
  RemoteStore.mkMeta (BRel (begin s)) (BMode (begin s)) (i64 (BSize (begin s))) (BDigest (begin s)) (i64 (off s)).

(** A call on a file; a closed one refuses it. *)
Definition on_file {A} (f : file) (call : Z -> io W errno A) : io W errno A :=
  match f with Some f => call f | None => throw EOther end.

(** store.go, with the descriptors in use. *)
Definition writeChunk (coff : Z) (data : bytes) : IO unit :=
  let* s := get in
  match active s, pf s with
  | true, Some f =>
      if negb (coff =? off s)
      then throw (fail KindProtocol (str "chunk offset " ++ itoa coff ++ str " want " ++ itoa (off s))) else
      let* _ := fs (or_fail (on_file f (fun f => WriteFd f data)) (os_wrap "partial write")) in
      let s := set_off (u64 (off s + len data)) s in
      let* _ := put s in
      if off s mod (RemoteStore.DefaultChunkSize * 4) =? 0 then
        let* _ := fs (ignore (on_file f Fsync)) in
        fs (ignore (writePartialMetaAt (partialFD s) (BRel (begin s)) (active_meta s)))
      else ret tt
  | _, _ => throw (fail KindProtocol (str "chunk without begin"))
  end.

Definition persistActiveAt : IO unit :=
  let* s := get in
  match active s, pf s with
  | true, Some f =>
      let* _ := fs (ignore (writePartialMetaAt (partialFD s) (BRel (begin s)) (active_meta s))) in
      fs (ignore (on_file f Fsync))
  | _, _ => ret tt
  end.

Definition endFileAt (rel dig : bytes) : IO unit :=
  let* s := get in
  match active s, pf s with
  | true, Some f =>
      if negb (bool_decide (rel = BRel (begin s))) || negb (bool_decide (dig = BDigest (begin s)))
      then throw (fail KindProtocol (str "file end mismatch")) else
      if negb (off s =? BSize (begin s))
      then throw (fail KindProtocol (str "unexpected file end before size complete")) else
      let* _ := fs (or_fail (on_file f Fsync) (os_wrap "partial sync")) in
      let* r := fs (try (on_file f CloseFd)) in
      let* _ := put (set_pf (Some None) s) in
      let* _ := lift match r with inl _ => Ok tt | inr e => Err (os_wrap "partial close" e) end in
      let s := set_pf None s in
      let* _ := put s in
      let* same := fs (digest_is (partialFD s) (partPath s) (BDigest (begin s))) in
      if negb same then throw (fail KindApply (str "chunked digest mismatch for " ++ BRel (begin s))) else
      let* _ := fs (finalize_at (stageFD s) (partialFD s) (partPath s) (BRel (begin s)) (BMode (begin s))) in
      put (set_done s)
  | _, _ => throw (fail KindProtocol (str "end without begin"))
  end.

(** ** Opening, clearing and closing *)

(** [defer unix.Close(metaFD)] around the two staging directories. *)
Definition open_staging (metaFD : Z) : io W Error (Z * Z) :=
  let* _ := or_fail (mkdiratOne metaFD (str "recv-stage") 0x1C0) (os_wrap "recv-stage") in
  let* _ := or_fail (mkdiratOne metaFD (str "recv-partial") 0x1C0) (os_wrap "recv-partial") in
  let* stageFD := or_fail (Openat metaFD (str "recv-stage") O_DIR 0) (os_wrap "recv-stage open") in
  let* r := try (Openat metaFD (str "recv-partial") O_DIR 0) in
  match r with
  | inl partialFD => ret (stageFD, partialFD)
  | inr e => let* _ := ignore (CloseFd stageFD) in throw (os_wrap "recv-partial open" e)
  end.

Definition ensureRecvStageAt (destFD : Z) : io W Error (Z * Z) :=
  let* _ := or_fail (mkdiratOne destFD LocalScan.MetaDirName 0x1C0) (os_wrap "recv-meta") in
  let* metaFD := or_fail (Openat destFD LocalScan.MetaDirName O_DIR 0) (os_wrap "recv-meta open") in
  with_close metaFD (open_staging metaFD).

(** The branch of a conferred descriptor. *)
Definition openLocalStoreAt (destination : bytes) (destFD : Z) : io W Error localStore :=
  let* (st, pt) := ensureRecvStageAt destFD in
  ret (mkStore destination destFD st pt false (mkBegin [] 0 (zeros 32) 0) (mkBegin [] 0 (zeros 32) 0) [] None 0 None).

(** [fuel] bounds the depth of the directories. *)
Fixpoint clearDirContentsAt (fuel : nat) (dirfd : Z) : io W errno unit :=
  match fuel with
  | O => fun w => (w, Panic)
  | S fuel =>
      let* names := readDirNamesAt dirfd in
      (fix clear_names (names : list bytes) : io W errno unit :=
         match names with
         | [] => ret tt
         | name :: names =>
             if bool_decide (name = str ".") || bool_decide (name = str "..") then clear_names names else
             let* st := try (Fstatat dirfd name) in
             match st with
             | inr _ => clear_names names
             | inl st =>
                 if bool_decide (SType st = TDir) then
                   let* sub := try (Openat dirfd name O_DIR 0) in
                   match sub with
                   | inr _ => clear_names names
                   | inl sub =>
                       let* _ := ignore (clearDirContentsAt fuel sub) in
                       let* _ := ignore (CloseFd sub) in
                       let* _ := ignore (Unlinkat dirfd name true) in
                       clear_names names
                   end
                 else let* _ := ignore (Unlinkat dirfd name false) in clear_names names
             end
         end) names
  end.

Definition close_valid (f : Z) : io W Error unit := if 0 <=? f then ignore (CloseFd f) else ret tt.

Definition closeAt : IO unit :=
  let* s := get in
  let* _ := fs (close_valid (stageFD s)) in
  let* _ := fs (close_valid (partialFD s)) in
  put (set_fds (-1) (-1) s).

Definition clear_valid (fuel : nat) (f : Z) : io W Error unit := if 0 <=? f then ignore (clearDirContentsAt fuel f) else ret tt.

Definition resetStageAt (fuel : nat) : IO unit :=
  let* s := get in
  let* _ := fs (clear_valid fuel (stageFD s)) in
  let* _ := fs (clear_valid fuel (partialFD s)) in
  let* _ := closeAt in
  let* (st, pt) := fs (ensureRecvStageAt (destFD s)) in
  let* s := get in
  put (set_fds st pt s).

(** store.go *)
Definition close : IO unit :=
  let* s := get in
  let* _ := match pf s with Some f => fs (ignore (on_file f CloseFd)) | None => ret tt end in
  let* _ := put (set_closed s) in
  if (0 <=? stageFD s) && (0 <=? partialFD s) then closeAt else ret tt.

End Store.

(** ** Paths *)

(** The components that name something. *)
Definition kept (cs : list bytes) : list bytes := filter (fun c => c <> [] /\ c <> str ".") cs.

(** The directories on the way to the entry of a path. *)
Definition dirs (rel : bytes) : list bytes := kept (Split (Dir rel)).

Lemma kept_plain cs : Forall plain cs -> kept cs = cs.
Proof.
  intros Hp. unfold kept. induction Hp as [|c cs (H1 & H2 & _) _ IH]; [done|]. rewrite filter_cons_True by done. by rewrite IH.
Qed.

Lemma Split_slashless s : Forall no_slash (Split s).
Proof.
  unfold Split. assert (H : forall cur out, no_slash cur -> Forall no_slash out -> Forall no_slash (split_loop s cur out)); [|by apply H; constructor].
  induction s as [|b s IH]; intros cur out Hc Ho; cbn [split_loop].
  - apply Forall_app. split; [done|]. constructor; [by apply Forall_rev|constructor].
  - destruct (byteZ b =? 47) eqn:Eb; reflect_bools.
    + apply IH; [constructor|]. apply Forall_app. split; [done|]. constructor; [by apply Forall_rev|constructor].
    + apply IH; [by constructor|done].
Qed.

Lemma dirs_rel cs c : Forall plain cs -> plain c -> dirs (join_slash (cs ++ [c])) = cs.
Proof.
  intros Hcs Hc. unfold dirs. rewrite rel_Dir by done. destruct cs as [|x cs]; [by vm_compute|]. rewrite rel_Split by done. by apply kept_plain.
Qed.

Lemma dirs_top rel : at_top (Dir rel) = true -> dirs rel = [].
Proof. unfold at_top, dirs. intros Ht. apply orb_prop in Ht as [->%bool_decide_eq_true| ->%bool_decide_eq_true]; by vm_compute. Qed.

Lemma take_while_no_slash l : Forall (fun b => byteZ b <> 47) (take_while not_slash l).
Proof.
  induction l as [|b l IH]; cbn; [constructor|]. destruct (not_slash b) eqn:Eb; [|constructor]. constructor; [|done].
  intros E. assert (b = slash) as -> by (apply byteZ_inj; by rewrite E). by vm_compute in Eb.
Qed.

Lemma Base_cases rel : plain (Base rel) \/ special (Base rel) = true.
Proof.
  unfold Base. case_bool_decide; [by right; vm_compute|]. set (s := after_slash _). case_bool_decide as Es; [by right; vm_compute|].
  assert (Hs : no_slash s) by (apply Forall_rev, take_while_no_slash). unfold special.
  destruct (decide (s = str ".")) as [->|H1]; [by right|]. destruct (decide (s = str "..")) as [->|H2]; [by right|]. by left.
Qed.

(** A name with a suffix of the store. *)
Lemma suffix_plain c x : plain c -> no_slash x -> (2 < length x)%nat -> plain (c ++ x).
Proof.
  intros (H1 & _ & _ & H4) Hx Hl. split_and!; [by destruct c| | |by apply Forall_app];
    intros E%(f_equal length); rewrite length_app in E; cbn in E; lia.
Qed.

Section Rules.
Context {W : Type} `{AtLaws W} `{RemoteStore.MetaJSON} `{ErrorTexts} `{PathTexts}.

(** ** Directories *)

Lemma check_component_plain c : c <> [] -> c <> str "." -> no_slash c ->
  match check_component c with Ok _ => plain c | Err _ => True | Panic => False end.
Proof.
  intros H1' H2' H3'. unfold check_component. case_bool_decide; [done|]. destruct (has_byte 92 c || has_byte 0 c); [done|].
  pose proof (ValidateJoined_safe c DefaultProfile). by destruct (ValidateJoined c DefaultProfile).
Qed.

(** New directories below [ds], and the table as before. *)
Definition grown (B : table) (ds cs : list bytes) (v : tree) (w' : W) : Prop :=
  fds w' = B /\ evolves (fun _ => False) (below ds cs) v (aview w').

Lemma wp_mkdirat_steps B perm cs : forall cur p o (Q : W -> res Failure Z -> Prop) w,
  B !! cur = None -> fds w = <[cur := mkDesc p o]> B -> Forall no_slash cs ->
  (forall w' f o', B !! f = None -> fds w' = <[f := mkDesc (p ++ kept cs) o']> B ->
     evolves (fun _ => False) (below p (kept cs)) (aview w) (aview w') -> Q w' (Ok f)) ->
  (forall w' e, grown B p (kept cs) (aview w) w' -> Q w' (Err e)) ->
  wp (mkdirat_loop cur cs perm) Q w.
Proof.
  induction cs as [|c cs IH]; intros cur p o Q w Hcur Hf Hp HQ HE; cbn [mkdirat_loop].
  { apply wp_ret. eapply HQ; [done| |apply evolves_refl]. by rewrite app_nil_r. }
  apply Forall_cons in Hp as [Hc Hp]. unfold kept in HQ, HE. rewrite filter_cons in HQ, HE. fold (kept cs) in HQ, HE.
  destruct (bool_decide (c = []) || bool_decide (c = str ".")) eqn:Ec.
  { rewrite decide_False in HQ, HE by (apply orb_prop in Ec as [?%bool_decide_eq_true|?%bool_decide_eq_true]; tauto). by eapply IH. }
  apply orb_false_iff in Ec as [Hc1%bool_decide_eq_false Hc2%bool_decide_eq_false]. rewrite decide_True in HQ, HE by done.
  pose proof (check_component_plain c Hc1 Hc2 Hc) as Hchk. apply wp_bind, wp_try, wp_lift.
  destruct (check_component c) as [[]|e|]; [..|done]; cycle 1.
  { apply wp_bind, wp_close_fd. intros w1 Hv1 Hf1. apply wp_throw, HE. split; [by rewrite Hf1, Hf, delete_insert_id|by apply evolves_eq]. }
  apply wp_bind, wp_try.
  eapply (wp_mkdiratOne _ cur p o c perm (fun _ => False) (below p (c :: kept cs))); [exact Hf|by rewrite lookup_insert_eq|done| |].
  { exists [c]. split; [done|]. split; [apply prefix_cons, prefix_nil|done]. }
  intros w1 r1 Hf1 He1 Hr1. destruct r1 as [[]|e|]; [..|done]; cycle 1.
  { apply wp_bind, wp_close_fd. intros w2 Hv2 Hf2. apply wp_throw, HE. split; [by rewrite Hf2, Hf1, delete_insert_id|by rewrite Hv2]. }
  apply wp_bind, wp_or_fail. eapply wp_step_down; [done|exact Hf1|done|..].
  - intros w2 next m Hn Hf2 Hv2 Hm. cbn [map_err]. eapply IH; [done..| |].
    + intros w3 f o' Hfr Hf3 He3. rewrite Hv2 in He3. eapply HQ; [done|by rewrite <- app_assoc in Hf3|].
      eapply evolves_trans; [exact He1|]. eapply evolves_mono; [| |exact He3]; [done|]. intros q. apply below_app.
    + intros w3 e [Hf3 He3]. rewrite Hv2 in He3. apply HE. split; [done|]. eapply evolves_trans; [exact He1|].
      eapply evolves_mono; [| |exact He3]; [done|]. intros q. apply below_app.
  - intros w2 e Hf2 Hv2. cbn [map_err]. apply HE. split; [done|by rewrite Hv2].
Qed.

Lemma wp_mkdir_all B d ds o rel perm (Q : W -> res Failure Z -> Prop) w :
  fds w = B -> B !! d = Some (mkDesc ds o) ->
  (forall w' f o', B !! f = None -> fds w' = <[f := mkDesc (ds ++ kept (Split rel)) o']> B ->
     evolves (fun _ => False) (below ds (kept (Split rel))) (aview w) (aview w') -> Q w' (Ok f)) ->
  (forall w' e, grown B ds (kept (Split rel)) (aview w) w' -> Q w' (Err e)) ->
  wp (mkdiratAll d rel perm) Q w.
Proof.
  intros Hf Hd HQ HE. unfold mkdiratAll. case_match eqn:Er.
  { assert (Hk : kept (Split rel) = []) by (apply orb_prop in Er as [->%bool_decide_eq_true| ->%bool_decide_eq_true]; by vm_compute).
    rewrite Hk in *. apply wp_or_fail. eapply wp_dup; [done..| |]; cbn [map_err].
    - intros w1 f Hn Hf1 Hv1. eapply HQ; [done|by rewrite app_nil_r|by apply evolves_eq].
    - intros w1 e [Hv1 Hf1]. apply HE. split; [congruence|by apply evolves_eq]. }
  apply wp_bind, wp_or_fail. eapply wp_dup; [done..| |]; cbn [map_err].
  - intros w1 cur Hc Hf1 Hv1. eapply wp_mkdirat_steps; [done..|apply Split_slashless| |]; rewrite Hv1; done.
  - intros w1 e [Hv1 Hf1]. apply HE. split; [congruence|by apply evolves_eq].
Qed.

(** ** Opening the entry of a path *)

Lemma wp_open_entry B d ds o c fl m (Q : W -> res errno Z -> Prop) w :
  fds w = B -> B !! d = Some (mkDesc ds o) -> plain c \/ special c = true ->
  (forall w' f p, B !! f = None -> fds w' = <[f := mkDesc p 0]> B ->
     (plain c /\ p = ds ++ [c] /\ opened fl p (aview w) (aview w') \/ special c = true /\ o_write fl = false /\ aview w' = aview w) -> Q w' (Ok f)) ->
  (forall w' e, same w w' -> Q w' (Err e)) -> wp (Openat d c fl m) Q w.
Proof.
  intros <- Hd Hc HQ HE. destruct Hc as [Hc|Hc].
  - eapply wp_openat; [done..| |done]. intros w' f Hn Hf Ho. eapply HQ; [done..|]. by left.
  - apply wp_call. intros w' r E. eapply openat_special in E as [Hv Hr]; [|done..].
    destruct r as [f|e|]; [|by apply HE|done]. destruct Hr as (Hw & Hn & p & Hf). eapply HQ; [done..|]. by right.
Qed.

(** The descriptor is of the entry, or of a directory that no file is in the way of. *)
Definition reaches (fl : flags) (ds : list bytes) (rel : bytes) (v : tree) (w' : W) (p : list bytes) : Prop :=
  exists v1, evolves (fun _ => False) (below ds (dirs rel)) v v1 /\
    (plain (Base rel) /\ p = ds ++ dirs rel ++ [Base rel] /\ opened fl p v1 (aview w') \/
     special (Base rel) = true /\ o_write fl = false /\ aview w' = v1).

Lemma wp_open_below {E} B d ds o rel perm fl m wm wo (Q : W -> res E Z -> Prop) w :
  fds w = B -> B !! d = Some (mkDesc ds o) ->
  (forall w' f p, B !! f = None -> fds w' = <[f := mkDesc p 0]> B -> reaches fl ds rel (aview w) w' p -> Q w' (Ok f)) ->
  (forall w' e, grown B ds (dirs rel) (aview w) w' -> Q w' (Err e)) ->
  wp (open_below d rel perm fl m wm wo) Q w.
Proof.
  intros Hf Hd HQ HE. unfold open_below. pose proof (Base_cases rel) as Hb. destruct (at_top (Dir rel)) eqn:Ht.
  { apply dirs_top in Ht. apply wp_or_fail. eapply wp_open_entry; [done..| |]; cbn [map_err].
    - intros w' f p Hn Hf' Ho. eapply HQ; [done..|]. exists (aview w). split; [apply evolves_refl|]. by rewrite Ht.
    - intros w' e [Hv Hf']. apply HE. split; [congruence|by apply evolves_eq]. }
  apply wp_bind, wp_or_fail. eapply wp_mkdir_all; [done..| |]; cbn [map_err]; [|by intros; apply HE].
  intros w1 g o1 Hg Hf1 He1. apply wp_bind, wp_try. eapply wp_open_entry; [exact Hf1|by rewrite lookup_insert_eq|done|..].
  - intros w2 f p Hn Hf2 Ho. apply lookup_insert_None in Hn as [Hn Hne]. apply wp_bind, wp_close_fd. intros w3 Hv3 Hf3.
    apply wp_ret. eapply HQ; [done| |].
    + by rewrite Hf3, Hf2, delete_insert_ne, delete_insert_id.
    + exists (aview w1). rewrite Hv3. split; [done|]. by rewrite <- app_assoc in Ho.
  - intros w2 e [Hv2 Hf2]. apply wp_bind, wp_close_fd. intros w3 Hv3 Hf3. apply wp_throw, HE. split; [|by rewrite Hv3, Hv2].
    by rewrite Hf3, Hf2, Hf1, delete_insert_id.
Qed.

(** ** Reading *)

Lemma wp_hash_path B d ds o rel (Q : W -> res unit bytes -> Prop) w :
  fds w = B -> B !! d = Some (mkDesc ds o) ->
  (forall w' r, grown B ds (dirs rel) (aview w) w' ->
     match r with
     | Ok h => plain (Base rel) -> exists m x, aview w' !! (ds ++ dirs rel ++ [Base rel]) = Some (NFile m x) /\ h = SHA256 x
     | Err _ => True
     | Panic => False
     end -> Q w' r) -> wp (hashAt d rel) Q w.
Proof.
  intros Hf Hd HQ. unfold hashAt. apply wp_bind, wp_or_fail. eapply wp_open_below; [done..| |]; cbn [map_err].
  - intros w1 f p Hn Hf1 (v1 & He & Hp). apply wp_bind, wp_or_fail, wp_with_close. eapply wp_HashOpenedFile; [exact Hf1|].
    intros w2 r o' Hv2 Hf2 Hr w3 Hv3 Hf3. assert (Hv1 : aview w1 = v1).
    { destruct Hp as [(_ & _ & Ho)|(_ & _ & ?)]; [|done]. by apply opened_read in Ho as [? _]. }
    assert (Hg : grown B ds (dirs rel) (aview w) w3).
    { split; [by rewrite Hf3, Hf2, delete_insert_id|]. by rewrite Hv3, Hv2, Hv1. }
    destruct r as [[h k]|e|]; cbn [map_err]; [|by apply HQ|done]. apply wp_ret, HQ; [done|]. intros Hb.
    destruct Hp as [(_ & -> & _)|(Hs & _)]; [|by rewrite special_plain in Hs].
    destruct Hr as (m & x & Hx & -> & _). exists m, x. by rewrite Hv3, Hv2.
  - intros w1 e Hg. by apply HQ.
Qed.

Lemma wp_digest_at_is B d ds o rel want (Q : W -> res Error bool -> Prop) w :
  fds w = B -> B !! d = Some (mkDesc ds o) ->
  (forall w' b, grown B ds (dirs rel) (aview w) w' ->
     (b = true -> plain (Base rel) -> exists m x, aview w' !! (ds ++ dirs rel ++ [Base rel]) = Some (NFile m x) /\ want = SHA256 x) ->
     Q w' (Ok b)) -> wp (digest_is d rel want) Q w.
Proof.
  intros Hf Hd HQ. unfold digest_is. apply wp_bind, wp_try. eapply wp_hash_path; [done..|]. intros w1 r1 Hg Hr.
  destruct r1 as [h|e|]; [..|done]; apply wp_ret, HQ; try done. intros Hb%bool_decide_eq_true Hp. destruct (Hr Hp) as (m & x & Hx & ->). by exists m, x.
Qed.

(** ** Writing *)

Lemma wp_write_close {E} B f p m (data : bytes) (wr : errno -> E) (Q : W -> res E unit -> Prop) w :
  B !! f = None -> fds w = <[f := mkDesc p 0]> B -> aview w !! p = Some (NFile m []) ->
  (forall w', fds w' = B -> aview w' = <[p := NFile m data]> (aview w) -> Q w' (Ok tt)) ->
  (forall w' e x, fds w' = B -> aview w' = <[p := NFile m x]> (aview w) -> Q w' (Err e)) ->
  wp (write_close f data wr) Q w.
Proof.
  intros Hn Hf Hp HQ HE. unfold write_close. apply wp_bind, wp_try, wp_call. intros w1 r1 E1.
  eapply writefd_law in E1; [|by rewrite Hf, lookup_insert_eq|done|lia].
  assert (Hx : exists c1 x o, match r1 with Ok a => Ok (inl a) | Err e => Ok (inr e) | Panic => Panic end = @Ok E (unit + errno) c1 /\
    fds w1 = <[f := mkDesc p o]> B /\ aview w1 = <[p := NFile m x]> (aview w) /\ (c1 = inl tt -> x = data)).
  { rewrite Hf in E1. destruct r1 as [[]|e|]; [..|done].
    - destruct E1 as [Hv1 Hf1]. rewrite insert_insert_eq in Hf1. rewrite patch_whole in Hv1. by eexists _, _, _.
    - destruct E1 as (x & o & _ & Hv1 & Hf1). rewrite insert_insert_eq in Hf1. by eexists _, _, _. }
  destruct Hx as (c1 & x & o & -> & Hf1 & Hv1 & Hx). apply wp_bind, wp_try_any. intros w2 r2 (Hv2 & Hf2 & Hr2)%closefd_law.
  rewrite Hf1, delete_insert_id in Hf2 by done. rewrite Hv1 in Hv2. split; [done|]. intros c2. apply wp_lift.
  destruct c1 as [[]|e]; [|by eapply HE]. destruct c2; [|by eapply HE]. apply HQ; [done|]. by rewrite Hv2, Hx.
Qed.

(** ** Entries of proper paths *)

Lemma wp_on_entry B d ds o cs c (call : Z -> bytes -> io W errno unit) (Q : W -> res errno unit -> Prop) w :
  fds w = B -> B !! d = Some (mkDesc ds o) -> Forall plain cs -> plain c ->
  (forall w' e, same w w' -> Q w' (Err e)) ->
  (forall w1 g B1 o1, aview w1 = aview w -> fds w1 = B1 -> B1 !! g = Some (mkDesc (ds ++ cs) o1) ->
     (forall q, apart B q -> ~ q `prefix_of` ds ++ cs -> apart B1 q) ->
     wp (call g c) (fun w2 r => fds w2 = B1 /\ forall w', aview w' = aview w2 -> fds w' = B -> Q w' r) w1) ->
  wp (on_entry d (join_slash (cs ++ [c])) call) Q w.
Proof.
  intros Hf Hd Hcs Hc HE HC. unfold on_entry. rewrite at_top_Dir, rel_Base by done. case_bool_decide as Hn.
  { subst cs. eapply wp_mono; [eapply (HC w d B o); [done|done|by rewrite app_nil_r|by auto]|]. intros w2 r [Hf2 Hk]. by apply Hk. }
  rewrite Dir_deep by done. apply wp_bind. unfold openDirAt. rewrite rel_Split by done. apply wp_bind. eapply wp_dup; [done..| |done].
  intros w1 cur Hcur Hf1 Hv1. eapply wp_opendir_loop; [done..| |].
  - intros w2 g o' Hg Hf2 Hv2. apply wp_with_close.
    eapply wp_mono; [eapply (HC w2 g _ o'); [congruence|exact Hf2|by rewrite lookup_insert_eq|]|].
    + intros q Ha Hq. by apply apart_insert.
    + intros w3 r [Hf3 Hk] w4 Hv4 Hf4. apply Hk; [done|]. by rewrite Hf4, Hf3, delete_insert_id.
  - intros w2 e Hf2 Hv2. apply HE. split; congruence.
Qed.

Lemma not_prefix_entry {A} (ds cs : list A) c : ~ ds ++ cs ++ [c] `prefix_of` ds ++ cs.
Proof. rewrite app_assoc. apply not_prefix_snoc. Qed.

Lemma wp_unlink_path {E} B d ds o cs c (Q : W -> res E unit -> Prop) w :
  fds w = B -> B !! d = Some (mkDesc ds o) -> Forall plain cs -> plain c -> apart B (ds ++ cs ++ [c]) ->
  (forall w', fds w' = B -> aview w' = aview w \/ aview w' = delete (ds ++ cs ++ [c]) (aview w) -> Q w' (Ok tt)) ->
  wp (ignore (unlinkatPath d (join_slash (cs ++ [c])))) Q w.
Proof.
  intros Hf Hd Hcs Hc Ha HQ. apply wp_ignore. eapply wp_on_entry; [done..| |].
  { intros w' e [Hv Hf']. apply HQ; [congruence|by left]. }
  intros w1 g B1 o1 Hv1 Hf1 Hg Hap. apply wp_call. intros w2 r E2. rewrite <- Hf1 in Hg. eapply unlinkat_law in E2; [|done..].
  rewrite <- app_assoc in E2. destruct r as [[]|e|]; [..|done].
  - destruct E2 as (Hv2 & Hf2 & _). rewrite Hf1, forget_apart in Hf2 by (apply Hap; [done|apply not_prefix_entry]). split; [done|].
    intros w' Hv' Hf'. apply HQ; [done|]. right. congruence.
  - destruct E2 as [Hv2 Hf2]. split; [congruence|]. intros w' Hv' Hf'. apply HQ; [done|]. left. congruence.
Qed.

Lemma wp_chmod_path {E} B d ds o cs c m0 m x (Q : W -> res E unit -> Prop) w :
  fds w = B -> B !! d = Some (mkDesc ds o) -> Forall plain cs -> plain c -> aview w !! (ds ++ cs ++ [c]) = Some (NFile m0 x) ->
  (forall w' m', fds w' = B -> aview w' = <[ds ++ cs ++ [c] := NFile m' x]> (aview w) -> Q w' (Ok tt)) ->
  wp (ignore (fchmodatPath d (join_slash (cs ++ [c])) m)) Q w.
Proof.
  intros Hf Hd Hcs Hc Hx HQ. apply wp_ignore. eapply wp_on_entry; [done..| |].
  { intros w' e [Hv Hf']. apply (HQ _ m0); [congruence|]. by rewrite Hv, insert_id. }
  intros w1 g B1 o1 Hv1 Hf1 Hg _. apply wp_call. intros w2 r E2. rewrite <- Hf1 in Hg.
  apply (fchmodat_law _ _ _ _ (ds ++ cs) o1 _ m0 _ x) in E2 as [Hf2 Hr]; [|done|done|by rewrite Hv1, <- app_assoc].
  split; [congruence|]. intros w' Hv' Hf'. rewrite Hv1, <- app_assoc in Hr. destruct r as [[]|e|]; [..|done].
  - eapply HQ; [done|]. by rewrite Hv', Hr.
  - apply (HQ _ m0); [done|]. by rewrite Hv', Hr, insert_id.
Qed.

(** ** The staging directories *)

(** Only files and directories below a directory. *)
Definition tidy (ds : list bytes) (v : tree) : Prop := forall q t, inside ds q -> v !! q <> Some (NOther t).

Lemma tidy_evolves X D ds v v' : evolves X D v v' -> tidy ds v -> tidy ds v'.
Proof. intros He Ht q t Hq E. apply (Ht q t Hq). by apply He. Qed.

Lemma inside_entry (ds cs : list bytes) (c : bytes) : inside ds (ds ++ cs ++ [c]).
Proof. apply inside_app. by destruct cs. Qed.

Lemma inside_below ds cs q : below ds cs q -> inside ds q.
Proof. intros (p & Hp & _ & ->). by apply inside_app. Qed.

Lemma tidy_way ds v cs : tidy ds v -> clear_way v ds cs.
Proof. intros Ht p _ Hn. by apply Ht, inside_app. Qed.

Lemma opened_write ds fl p v v' : tidy ds v -> inside ds p -> o_write fl = true -> opened fl p v v' ->
  exists m x, v' = <[p := NFile m x]> v /\ (o_trunc fl = true -> x = []).
Proof.
  intros Ht Hp Hw. unfold opened. pose proof (Ht p) as Hn. destruct (v !! p) as [[m|m x|t]|] eqn:E.
  - intros (_ & _ & _ & Hd & _). by destruct (Hd Hw).
  - intros (_ & _ & _ & _ & ->). destruct (o_trunc fl); [by exists m, []|]. exists m, x. by rewrite insert_id.
  - by destruct (Hn t Hp).
  - intros (_ & m & ->). by exists m, [].
Qed.

(** The open of a proper path. *)
Lemma reaches_plain fl ds cs c v (w' : W) p : Forall plain cs -> plain c -> reaches fl ds (join_slash (cs ++ [c])) v w' p ->
  p = ds ++ cs ++ [c] /\ exists v1, evolves (fun _ => False) (below ds cs) v v1 /\ opened fl (ds ++ cs ++ [c]) v1 (aview w').
Proof.
  intros Hcs Hc (v1 & He & Hp). unfold dirs in He, Hp. rewrite rel_Base in Hp by done. fold (dirs (join_slash (cs ++ [c]))) in He, Hp.
  rewrite dirs_rel in He, Hp by done. destruct Hp as [(_ & -> & Ho)|(Hs & _)]; [|by rewrite special_plain in Hs]. split; [done|]. by exists v1.
Qed.

(** New directories and one path. *)
Definition one_or (q0 : list bytes) (q : list bytes) : Prop := q = q0.

Lemma wp_create {E} B d ds o cs c perm fl m wm wo (Q : W -> res E Z -> Prop) w :
  fds w = B -> B !! d = Some (mkDesc ds o) -> Forall plain cs -> plain c -> tidy ds (aview w) ->
  o_write fl = true ->
  (forall w' f m x, B !! f = None -> fds w' = <[f := mkDesc (ds ++ cs ++ [c]) 0]> B -> aview w' !! (ds ++ cs ++ [c]) = Some (NFile m x) ->
     (o_trunc fl = true -> x = []) -> evolves (one_or (ds ++ cs ++ [c])) (below ds cs) (aview w) (aview w') -> Q w' (Ok f)) ->
  (forall w' e, grown B ds cs (aview w) w' -> Q w' (Err e)) ->
  wp (open_below d (join_slash (cs ++ [c])) perm fl m wm wo) Q w.
Proof.
  intros Hf Hd Hcs Hc Ht Hfl HQ HE. eapply wp_open_below; [done..| |].
  - intros w1 f p Hn Hf1 Hr. apply reaches_plain in Hr as (-> & v1 & He & Ho); [|done..].
    assert (Ht1 : tidy ds v1) by (by eapply tidy_evolves).
    destruct (opened_write ds _ _ _ _ Ht1 (inside_entry ds cs c) Hfl Ho) as (m' & x & Hv & Hx).
    eapply HQ; [done|done|by rewrite Hv, lookup_insert_eq|done|]. rewrite Hv.
    eapply evolves_trans; [eapply evolves_mono; [| |exact He]; done|]. by apply evolves_insert.
  - intros w1 e Hg. rewrite dirs_rel in Hg by done. by apply HE.
Qed.

(** ** Resume points *)

Lemma wp_writePartialMetaAt B d ds o cs c meta (Q : W -> res Failure unit -> Prop) w :
  let names q := q = ds ++ cs ++ [c ++ str ".meta.json"] \/ q = ds ++ cs ++ [(c ++ str ".meta.json") ++ str ".tmp"] in
  fds w = B -> B !! d = Some (mkDesc ds o) -> Forall plain cs -> plain c -> tidy ds (aview w) -> (forall q, names q -> apart B q) ->
  (forall w' r, fds w' = B -> evolves names (below ds cs) (aview w) (aview w') -> r <> Panic -> Q w' r) ->
  wp (writePartialMetaAt d (join_slash (cs ++ [c])) meta) Q w.
Proof.
  intros names Hf Hd Hcs Hc Ht Ha HQ. unfold writePartialMetaAt. cbv zeta.
  assert (Hm : plain (c ++ str ".meta.json")) by (apply suffix_plain; [done|repeat constructor; by vm_compute|cbn; lia]).
  assert (Htm : plain ((c ++ str ".meta.json") ++ str ".tmp")) by (apply suffix_plain; [done|repeat constructor; by vm_compute|cbn; lia]).
  rewrite !join_slash_snoc. set (meta_ := c ++ str ".meta.json") in *. set (tmp := meta_ ++ str ".tmp") in *. unfold openatCreate.
  assert (Hstop : forall w' e, grown B ds cs (aview w) w' -> Q w' (Err e)).
  { intros w' e [Hf' He]. apply HQ; [done|by eapply evolves_mono; [| |exact He]|done]. }
  apply wp_bind. eapply wp_create; [done..| |by intros; apply Hstop]. intros w1 f m x Hn Hf1 Hx Hnil He1. rewrite Hnil in Hx by done.
  assert (He1' : evolves names (below ds cs) (aview w) (aview w1)) by (eapply evolves_mono; [| |exact He1]; [|done]; intros q ->; by right).
  apply wp_bind. eapply wp_write_close; [done..| |].
  2: { intros w2 e x' Hf2 Hv2. apply HQ; [done| |done]. rewrite Hv2. eapply evolves_trans; [exact He1'|]. apply evolves_insert. by right. }
  intros w2 Hf2 Hv2. assert (He2 : evolves names (below ds cs) (aview w) (aview w2)).
  { rewrite Hv2. eapply evolves_trans; [exact He1'|]. apply evolves_insert. by right. }
  assert (Hw : clear_way (aview w2) ds cs) by (apply tidy_way; by eapply tidy_evolves).
  apply wp_bind, wp_try, wp_call. intros w3 r3 E3.
  apply (renameat_law _ _ _ _ ds o cs tmp _ ds o cs meta_ m (RemoteStore.MarshalMeta meta)) in E3; [|by rewrite Hf2|by rewrite Hf2|done..|by rewrite Hv2, lookup_insert_eq].
  destruct r3 as [[]|e|]; [..|done].
  - destruct E3 as [Hv3 Hf3]. rewrite Hf2, (forget_apart B) in Hf3 by (apply Ha; by left). rewrite forget_apart in Hf3 by (apply Ha; by right).
    apply wp_ret, HQ; [done| |done]. rewrite Hv3. eapply evolves_trans; [exact He2|].
    eapply evolves_trans; [apply evolves_delete; by right|]. apply evolves_insert. by left.
  - destruct E3 as [Hv3 Hf3]. apply wp_bind. eapply (wp_unlink_path B); [congruence|done..|by apply Ha; right|].
    intros w4 Hf4 Hv4. rewrite Hv3 in Hv4. apply wp_throw, HQ; [done| |done].
    destruct Hv4 as [->| ->]; [done|]. eapply evolves_trans; [exact He2|]. apply evolves_delete. by right.
Qed.

Lemma wp_loadPartialMetaAt B d ds o cs c (Q : W -> res Error (option RemoteStore.partialMeta) -> Prop) w :
  fds w = B -> B !! d = Some (mkDesc ds o) -> Forall plain cs -> plain c ->
  (forall w' r, grown B ds cs (aview w) w' -> r <> Panic -> Q w' r) ->
  wp (loadPartialMetaAt d (join_slash (cs ++ [c]))) Q w.
Proof.
  intros Hf Hd Hcs Hc HQ. unfold loadPartialMetaAt, openatRead, openatCreate.
  assert (Hm : plain (c ++ str ".meta.json")) by (apply suffix_plain; [done|repeat constructor; by vm_compute|cbn; lia]).
  rewrite join_slash_snoc. apply wp_bind, wp_try. eapply wp_open_below; [done..| |].
  - intros w1 f p Hn Hf1 Hr. apply reaches_plain in Hr as (-> & v1 & He & Ho); [|done..].
    apply opened_read in Ho as [Hv1 _]; [|done..]. apply wp_bind, wp_or_fail, wp_with_close, wp_call. intros w2 r2 E2.
    eapply readfd_law in E2 as (Hv2 & [o2 Hf2] & Hr2); [|by rewrite Hf1, lookup_insert_eq]. intros w3 Hv3 Hf3.
    assert (Hg : grown B ds cs (aview w) w3).
    { split; [by rewrite Hf3, Hf2, Hf1, insert_insert_eq, delete_insert_id|]. by rewrite Hv3, Hv2, Hv1. }
    destruct r2 as [raw|e|]; cbn [map_err]; [|by apply HQ|done].
    destruct (RemoteStore.UnmarshalMeta raw); [by apply wp_ret, HQ|by apply wp_throw, HQ].
  - intros w1 e Hg. rewrite dirs_rel in Hg by done. destruct e; [case_bool_decide; [apply wp_ret|apply wp_throw]|apply wp_throw]; by apply HQ.
Qed.

(** The two names of a partial transfer. *)
Definition partial_names (ds cs : list bytes) (c : bytes) (q : list bytes) : Prop :=
  q = ds ++ cs ++ [c ++ str ".meta.json"] \/ q = ds ++ cs ++ [c ++ str ".part"].

Lemma wp_clearPartialAt B d ds o cs c (Q : W -> res Error unit -> Prop) w :
  fds w = B -> B !! d = Some (mkDesc ds o) -> Forall plain cs -> plain c -> (forall q, partial_names ds cs c q -> apart B q) ->
  (forall w', fds w' = B -> evolves (partial_names ds cs c) (fun _ => False) (aview w) (aview w') -> Q w' (Ok tt)) ->
  wp (clearPartialAt d (join_slash (cs ++ [c]))) Q w.
Proof.
  intros Hf Hd Hcs Hc Ha HQ. unfold clearPartialAt.
  assert (Hm : plain (c ++ str ".meta.json")) by (apply suffix_plain; [done|repeat constructor; by vm_compute|cbn; lia]).
  assert (Hp : plain (c ++ str ".part")) by (apply suffix_plain; [done|repeat constructor; by vm_compute|cbn; lia]).
  assert (Hdel : forall v v' q, partial_names ds cs c q -> v' = v \/ v' = delete q v -> evolves (partial_names ds cs c) (fun _ => False) v v').
  { intros v v' q Hq [->| ->]; [apply evolves_refl|by apply evolves_delete]. }
  rewrite !join_slash_snoc. apply wp_bind. eapply wp_unlink_path; [done..|by apply Ha; left|]. intros w1 Hf1 Hv1.
  eapply wp_unlink_path; [done..|by apply Ha; right|]. intros w2 Hf2 Hv2. apply HQ; [done|].
  eapply evolves_trans; [eapply Hdel, Hv1; by left|eapply Hdel, Hv2; by right].
Qed.

Lemma wp_fstatatRegular d p (Q : W -> res errno Stat -> Prop) w :
  (forall w' r, same w w' -> r <> Panic -> Q w' r) -> wp (fstatatRegular d p) Q w.
Proof.
  intros HQ. apply wp_bind, wp_call. intros w1 r1 (Hv & Hf & Hr)%fstatat_law.
  destruct r1 as [st|e|]; [|by apply HQ|done]. case_if; [by apply wp_throw, HQ|by apply wp_ret, HQ].
Qed.

Lemma wp_resume_point_at B d ds o cs c b (Q : W -> res Error Z -> Prop) w :
  fds w = B -> B !! d = Some (mkDesc ds o) -> Forall plain cs -> plain c -> BRel b = join_slash (cs ++ [c]) ->
  (forall q, partial_names ds cs c q -> apart B q) ->
  (forall w' r, fds w' = B -> evolves (partial_names ds cs c) (below ds cs) (aview w) (aview w') -> r <> Panic -> Q w' r) ->
  wp (resume_point_at d b) Q w.
Proof.
  intros Hf Hd Hcs Hc Hrel Ha HQ. unfold resume_point_at. rewrite Hrel. apply wp_bind. eapply wp_loadPartialMetaAt; [done..|].
  intros w1 r1 [Hf1 He1] Hr1. assert (He : evolves (partial_names ds cs c) (below ds cs) (aview w) (aview w1)) by (by eapply evolves_mono; [| |exact He1]).
  destruct r1 as [meta|e|]; [|by apply HQ|done]. cbv zeta.
  assert (Hreset : forall w2, same w1 w2 -> wp (let* _ := clearPartialAt d (join_slash (cs ++ [c])) in ret 0) Q w2).
  { intros w2 [Hv2 Hf2]. apply wp_bind. eapply (wp_clearPartialAt B); [congruence|done..|]. intros w3 Hf3 He3. rewrite Hv2 in He3.
    apply wp_ret, HQ; [done| |done]. eapply evolves_trans; [exact He|]. by eapply evolves_mono; [| |exact He3]. }
  destruct meta as [m|]; [|by apply Hreset]. destruct (_ && _ && _); [|by apply Hreset].
  apply wp_bind, wp_try, wp_fstatatRegular. intros w2 r2 [Hv2 Hf2] Hr2.
  destruct r2 as [st|e|]; [..|done]; [|by apply Hreset]. case_if; [|by apply Hreset].
  apply wp_ret, HQ; [congruence|by rewrite Hv2|done].
Qed.

Lemma wp_open_partial_at B d ds o cs c start (Q : W -> res Error Z -> Prop) w :
  let p := ds ++ cs ++ [c] in
  fds w = B -> B !! d = Some (mkDesc ds o) -> Forall plain cs -> plain c -> tidy ds (aview w) ->
  (forall w' f o' m x, B !! f = None -> fds w' = <[f := mkDesc p o']> B -> 0 <= o' -> aview w' !! p = Some (NFile m x) ->
     evolves (one_or p) (below ds cs) (aview w) (aview w') -> Q w' (Ok f)) ->
  (forall w' e, fds w' = B -> evolves (one_or p) (below ds cs) (aview w) (aview w') -> Q w' (Err e)) ->
  wp (open_partial_at d (join_slash (cs ++ [c])) start) Q w.
Proof.
  intros p Hf Hd Hcs Hc Ht HQ HE. unfold open_partial_at, openatCreate. apply wp_bind, wp_or_fail. eapply wp_create; [done..| |]; cbn [map_err].
  - intros w1 f m x Hn Hf1 Hx _ He1. destruct (0 <? start); [|apply wp_ret; by eapply HQ].
    apply wp_bind, wp_try, wp_call. intros w2 r2 E2. eapply seekfd_law in E2 as [Hv2 Hr2]; [|by rewrite Hf1, lookup_insert_eq]. rewrite Hf1 in Hr2.
    destruct r2 as [[]|e|]; [..|done].
    + destruct Hr2 as [Hpos Hf2]. rewrite insert_insert_eq in Hf2. apply wp_ret. eapply HQ; [done|exact Hf2|done|by rewrite Hv2|by rewrite Hv2].
    + apply wp_bind, wp_close_fd. intros w3 Hv3 Hf3. apply wp_throw, HE; [by rewrite Hf3, Hr2, delete_insert_id|by rewrite Hv3, Hv2].
  - intros w1 e [Hf1 He1]. apply HE; [done|]. by eapply evolves_mono; [| |exact He1].
Qed.

(** ** The stage *)

Lemma inside_grown ds cs v v' : evolves (fun _ => False) (below ds cs) v v' -> evolves (inside ds) (fun _ => False) v v'.
Proof. intros He q. destruct (He q) as [[?|[[]|(_ & Hb & _)]] Hl]; (split; [|done]); [by left|]. right; left. by eapply inside_below. Qed.

Lemma wp_prepare_at_loop B d ds o entries (Q : W -> res Error unit -> Prop) w :
  fds w = B -> B !! d = Some (mkDesc ds o) ->
  (forall w' r, fds w' = B -> evolves (inside ds) (fun _ => False) (aview w) (aview w') -> r <> Panic -> Q w' r) ->
  wp (prepare_loop d entries) Q w.
Proof.
  revert w. induction entries as [|e entries IH]; intros w Hf Hd HQ; cbn [prepare_loop].
  { apply wp_ret, HQ; [done|apply evolves_refl|done]. }
  destruct (negb _); [by apply IH|]. apply wp_bind, wp_or_fail. eapply wp_mkdir_all; [done..| |]; cbn [map_err].
  - intros w1 f o' Hn Hf1 He1. apply wp_bind, wp_close_fd. intros w2 Hv2 Hf2. apply IH; [by rewrite Hf2, Hf1, delete_insert_id|done|].
    intros w3 r3 Hf3 He3 Hr3. apply HQ; [done| |done]. eapply evolves_trans; [by eapply inside_grown|]. by rewrite Hv2 in He3.
  - intros w1 x [Hf1 He1]. apply HQ; [done|by eapply inside_grown|done].
Qed.

Lemma wp_stage_file_at B d ds o fw (Q : W -> res Error unit -> Prop) w :
  fds w = B -> B !! d = Some (mkDesc ds o) -> tidy ds (aview w) ->
  (forall w' r, fds w' = B -> evolves (inside ds) (fun _ => False) (aview w) (aview w') -> r <> Panic -> Q w' r) ->
  wp (stage_file_at d fw) Q w.
Proof.
  intros Hf Hd Ht HQ. unfold stage_file_at. cbv zeta. apply wp_bind. eapply wp_open_below; [done..| |].
  2: { intros w1 e [Hf1 He1]. apply HQ; [done|by eapply inside_grown|done]. }
  intros w1 f p Hn Hf1 (v1 & He & [(Hb & -> & Ho)|(_ & Hw & _)]); [|done]. apply inside_grown in He as He'.
  assert (Ht1 : tidy ds v1) by (by eapply tidy_evolves). pose proof (inside_entry ds (dirs (FRel fw)) (Base (FRel fw))) as Hi.
  destruct (opened_write ds O_REPLACE _ _ _ Ht1 Hi eq_refl Ho) as (m & x & Hv1 & Hx). rewrite (Hx eq_refl) in Hv1.
  assert (He1 : evolves (inside ds) (fun _ => False) (aview w) (aview w1)).
  { eapply evolves_trans; [exact He'|]. rewrite Hv1. by apply evolves_insert. }
  apply wp_bind. eapply wp_write_close; [done|exact Hf1|by rewrite Hv1, lookup_insert_eq|..].
  2: { intros w2 e y Hf2 Hv2. apply HQ; [done| |done]. eapply evolves_trans; [exact He1|]. rewrite Hv2. by apply evolves_insert. }
  intros w2 Hf2 Hv2. apply wp_bind. eapply wp_digest_at_is; [done..|]. intros w3 b [Hf3 He3] _.
  assert (He4 : evolves (inside ds) (fun _ => False) (aview w) (aview w3)); [|destruct b; [apply wp_ret|apply wp_throw]; by apply HQ].
  eapply evolves_trans; [exact He1|]. eapply evolves_trans; [|by eapply inside_grown]. rewrite Hv2. by apply evolves_insert.
Qed.

(** ** The end of a transfer *)

(** Below one of the two directories. *)
Definition staged (sd pd q : list bytes) : Prop := inside sd q \/ inside pd q.

Lemma staged_stage sd pd v v' : evolves (inside sd) (fun _ => False) v v' -> evolves (staged sd pd) (fun _ => False) v v'.
Proof. intros He. eapply evolves_mono; [| |exact He]; [|done]. intros q. by left. Qed.

Lemma staged_partial X D sd pd v v' : (forall q, X q -> inside pd q) -> (forall q, D q -> inside pd q) ->
  evolves X D v v' -> evolves (staged sd pd) (fun _ => False) v v'.
Proof.
  intros HX HD He q. destruct (He q) as [[?|[Hx|(_ & Hx & _)]] Hl]; (split; [|done]); [by left|..]; right; left; right; auto.
Qed.

(** Neither directory is in the other. *)
Definition separate (sd pd : list bytes) : Prop := ~ sd `prefix_of` pd /\ ~ pd `prefix_of` sd.

Lemma separate_entries sd pd q : separate sd pd -> inside sd q -> ~ inside pd q.
Proof. intros [H1' H2'] [Hs _] [Hp _]. destruct (prefix_weak_total _ _ _ Hs Hp); done. Qed.

Lemma evolves_keeps (X D : list bytes -> Prop) v v' q n : evolves X D v v' -> v !! q = Some n -> ~ X q -> v' !! q = Some n.
Proof. intros He Hn Hx. destruct (He q) as [[->|[?|(? & _)]] _]; [done|done|congruence]. Qed.

Lemma grown_keeps D v v' q n : evolves (fun _ => False) D v v' -> v !! q = Some n -> v' !! q = Some n.
Proof. intros He Hn. eapply evolves_keeps; [exact He|done|]. by intros []. Qed.

Lemma wp_copy_staged B st sd o1 pt pd o2 cs c pc mode m x (Q : W -> res Error unit -> Prop) w :
  fds w = B -> B !! st = Some (mkDesc sd o1) -> B !! pt = Some (mkDesc pd o2) -> Forall plain cs -> plain c -> plain pc ->
  tidy sd (aview w) -> separate sd pd -> apart B (pd ++ cs ++ [pc]) -> aview w !! (pd ++ cs ++ [pc]) = Some (NFile m x) ->
  (forall w' r, fds w' = B -> evolves (staged sd pd) (fun _ => False) (aview w) (aview w') ->
     match r with
     | Ok _ => exists m', aview w' !! (sd ++ cs ++ [c]) = Some (NFile m' x)
     | Err _ => True
     | Panic => False
     end -> Q w' r) ->
  wp (copy_staged st pt (join_slash (cs ++ [pc])) (join_slash (cs ++ [c])) mode) Q w.
Proof.
  intros Hf Hst Hpt Hcs Hc Hpc Ht Hsep Ha Hx HQ. unfold copy_staged, openatRead, openatCreate.
  assert (HP : forall v v', evolves (fun _ => False) (below pd cs) v v' -> evolves (staged sd pd) (fun _ => False) v v').
  { intros v v'. apply staged_partial; [done|]. intros q. apply inside_below. }
  assert (HS : forall v v', evolves (one_or (sd ++ cs ++ [c])) (below sd cs) v v' -> evolves (staged sd pd) (fun _ => False) v v').
  { intros v v' He q. destruct (He q) as [[?|[Hq|(_ & Hq & _)]] Hl]; (split; [|done]); [by left|..]; right; left; left; [rewrite Hq; apply inside_entry|by eapply inside_below]. }
  apply wp_bind, wp_or_fail. eapply wp_open_below; [exact Hf|exact Hpt| |]; cbn [map_err].
  2: { intros w1 e [Hf1 He1]. rewrite dirs_rel in He1 by done. apply HQ; [done|by apply HP|done]. }
  intros w1 f p Hn Hf1 Hr. apply reaches_plain in Hr as (-> & v1 & He & Ho); [|done..]. apply opened_read in Ho as [Hv1 _]; [|done..]. subst v1.
  assert (Hx1 : aview w1 !! (pd ++ cs ++ [pc]) = Some (NFile m x)) by (by eapply grown_keeps).
  apply wp_bind, wp_or_fail, wp_with_close, wp_call. intros w2 r2 E2.
  eapply readfd_law in E2 as (Hv2 & [o' Hf2] & Hr2); [|by rewrite Hf1, lookup_insert_eq]. intros w3 Hv3 Hf3.
  assert (Hf3' : fds w3 = B) by (by rewrite Hf3, Hf2, Hf1, insert_insert_eq, delete_insert_id). clear Hf2 Hf3 Hf1.
  rewrite Hv2 in Hv3. assert (He3 : evolves (staged sd pd) (fun _ => False) (aview w) (aview w3)) by (rewrite Hv3; by apply HP).
  destruct r2 as [data|e|]; cbn [map_err]; [|by apply HQ|done]. destruct Hr2 as (m2 & x2 & Hx2 & ->). rewrite Hx1 in Hx2. injection Hx2 as <- <-.
  change (drop (Z.to_nat 0) x) with x.
  apply wp_bind, wp_or_fail. eapply wp_create; [exact Hf3'|exact Hst|done..|by eapply tidy_evolves|done| |]; cbn [map_err].
  2: { intros w4 e [Hf4 He4]. apply HQ; [done| |done]. eapply evolves_trans; [exact He3|]. by eapply staged_stage, inside_grown. }
  intros w4 g m4 x4 Hg Hf4 Hx4 Hnil He4. rewrite Hnil in Hx4 by done.
  assert (He4' : evolves (staged sd pd) (fun _ => False) (aview w) (aview w4)) by (eapply evolves_trans; [exact He3|by apply HS]).
  assert (Hins : forall v y, evolves (staged sd pd) (fun _ => False) v (<[sd ++ cs ++ [c] := NFile m4 y]> v)).
  { intros v y. apply evolves_insert. left. apply inside_entry. }
  apply wp_bind. eapply wp_write_close; [done..| |].
  2: { intros w5 e y Hf5 Hv5. apply HQ; [done| |done]. rewrite Hv5. eapply evolves_trans; [exact He4'|apply Hins]. }
  intros w5 Hf5 Hv5. eapply wp_unlink_path; [exact Hf5|done..|]. intros w6 Hf6 Hv6.
  assert (He5 : evolves (staged sd pd) (fun _ => False) (aview w) (aview w5)) by (rewrite Hv5; eapply evolves_trans; [exact He4'|apply Hins]).
  assert (Hne : pd ++ cs ++ [pc] <> sd ++ cs ++ [c]).
  { intros E. eapply separate_entries; [done|apply inside_entry|]. rewrite <- E. apply inside_entry. }
  apply HQ; [done|..]; destruct Hv6 as [->| ->]; [done| |exists m4; by rewrite Hv5, lookup_insert_eq|].
  - eapply evolves_trans; [exact He5|]. apply evolves_delete. right. apply inside_entry.
  - exists m4. by rewrite lookup_delete_ne, Hv5, lookup_insert_eq.
Qed.

Lemma wp_finalize_at B st sd o1 pt pd o2 cs c mode m x (Q : W -> res Error unit -> Prop) w :
  let pc := c ++ str ".part" in
  fds w = B -> B !! st = Some (mkDesc sd o1) -> B !! pt = Some (mkDesc pd o2) -> Forall plain cs -> plain c ->
  tidy sd (aview w) -> tidy pd (aview w) -> separate sd pd -> (forall q, staged sd pd q -> apart B q) ->
  aview w !! (pd ++ cs ++ [pc]) = Some (NFile m x) ->
  (forall w' r, fds w' = B -> evolves (staged sd pd) (fun _ => False) (aview w) (aview w') ->
     match r with
     | Ok _ => exists m', aview w' !! (sd ++ cs ++ [c]) = Some (NFile m' x)
     | Err _ => True
     | Panic => False
     end -> Q w' r) ->
  wp (finalize_at st pt (join_slash (cs ++ [pc])) (join_slash (cs ++ [c])) mode) Q w.
Proof.
  intros pc Hf Hst Hpt Hcs Hc Hts Htp Hsep Ha Hx HQ. unfold finalize_at. cbv zeta. set (md := if mode =? 0 then 0x1A4 else mode).
  assert (Hpc : plain pc) by (apply suffix_plain; [done|repeat constructor; by vm_compute|cbn; lia]).
  assert (Hne : pd ++ cs ++ [pc] <> sd ++ cs ++ [c]).
  { intros E. eapply separate_entries; [done|apply inside_entry|]. rewrite <- E. apply inside_entry. }
  assert (HS : forall v v', evolves (fun _ => False) (below sd cs) v v' -> evolves (staged sd pd) (fun _ => False) v v').
  { intros v v' He. by eapply staged_stage, inside_grown. }
  apply wp_bind.
  assert (Hpar : wp (if at_top (Dir (join_slash (cs ++ [c]))) then ret tt else
    let* pfd := or_fail (mkdiratAll st (Dir (join_slash (cs ++ [c]))) 0x1ED) (at_wrap "final mkdir") in ignore (CloseFd pfd))
    (fun w' (r : res Error unit) => grown B sd cs (aview w) w' /\ r <> Panic) w).
  { case_match; [apply wp_ret; split; [split; [done|apply evolves_refl]|done]|]. apply wp_bind, wp_or_fail. fold (dirs (join_slash (cs ++ [c]))).
    eapply wp_mkdir_all; [done..| |]; cbn [map_err]; fold (dirs (join_slash (cs ++ [c]))); rewrite dirs_rel by done.
    - intros w1 f o' Hn Hf1 He1. apply wp_close_fd. intros w2 Hv2 Hf2. split; [|done]. split; [by rewrite Hf2, Hf1, delete_insert_id|by rewrite Hv2].
    - intros w1 e Hg. done. }
  eapply wp_mono; [exact Hpar|]. clear Hpar. intros w1 r1 [[Hf1 He1] Hr1]. destruct r1 as [[]|e|]; [|by apply HQ; [|apply HS|]|done].
  assert (Hx1 : aview w1 !! (pd ++ cs ++ [pc]) = Some (NFile m x)) by (by eapply grown_keeps).
  apply wp_bind, wp_try, wp_call. intros w2 r2 E2.
  apply (renameat_law _ _ _ _ pd o2 cs pc _ sd o1 cs c m x) in E2; [|by rewrite Hf1|by rewrite Hf1|done..|by apply tidy_way; eapply tidy_evolves|by apply tidy_way; eapply tidy_evolves|done].
  assert (Hend : forall w3, fds w3 = B -> evolves (staged sd pd) (fun _ => False) (aview w) (aview w3) ->
    (exists m', aview w3 !! (sd ++ cs ++ [c]) = Some (NFile m' x)) ->
    wp (let* _ := clearPartialAt pt (join_slash (cs ++ [c])) in ignore (Fsync st)) Q w3).
  { intros w3 Hf3 He3 [m3 Hm3]. assert (Hnames : forall q, partial_names pd cs c q -> inside pd q) by (intros q [->| ->]; apply inside_entry).
    apply wp_bind. eapply wp_clearPartialAt; [exact Hf3|done..| |].
    - intros q Hq. apply Ha. right. by apply Hnames.
    - intros w4 Hf4 He4. apply wp_sync. intros w5 [Hv5 Hf5]. apply HQ; [congruence|rewrite Hv5..].
      + eapply evolves_trans; [exact He3|]. by eapply staged_partial; [exact Hnames| |exact He4].
      + exists m3. eapply evolves_keeps; [exact He4|done|]. intros Hq%Hnames. by eapply separate_entries; [|apply inside_entry|]. }
  destruct r2 as [[]|e|]; [..|done].
  - destruct E2 as [Hv2 Hf2]. rewrite Hf1, (forget_apart B) in Hf2 by (apply Ha; left; apply inside_entry).
    rewrite forget_apart in Hf2 by (apply Ha; right; apply inside_entry).
    assert (Hx2 : aview w2 !! (sd ++ cs ++ [c]) = Some (NFile m x)) by (by rewrite Hv2, lookup_insert_eq).
    apply wp_bind. eapply wp_chmod_path; [exact Hf2|done..|]. intros w3 m3 Hf3 Hv3. apply Hend; [done| |exists m3; by rewrite Hv3, lookup_insert_eq].
    rewrite Hv3, Hv2, insert_insert_eq. eapply evolves_trans; [by apply HS|]. eapply evolves_trans; [apply evolves_delete; right; apply inside_entry|].
    apply evolves_insert. left. apply inside_entry.
  - destruct E2 as [Hv2 Hf2]. rewrite Hf1 in Hf2. apply wp_bind.
    assert (He2 : evolves (staged sd pd) (fun _ => False) (aview w) (aview w2)) by (rewrite Hv2; by apply HS).
    eapply wp_copy_staged; [exact Hf2|exact Hst|exact Hpt|done..|by eapply tidy_evolves|done|by apply Ha; right; apply inside_entry|by rewrite Hv2|].
    intros w3 r3 Hf3 He3 Hr3. assert (He : evolves (staged sd pd) (fun _ => False) (aview w) (aview w3)) by (by eapply evolves_trans).
    destruct r3 as [[]|e3|]; [|by apply HQ|done]. by apply Hend.
Qed.

(** ** Requests *)

Abbreviation World := (W * localStore)%type.

Lemma wp_on_store {E A} (k : io W E A) (Q : World -> res E A -> Prop) w s : wp k (fun w' r => Q (w', s) r) w -> wp (fs k) Q (w, s).
Proof. unfold wp, fs, on_fst. by destruct (k w). Qed.

Lemma wp_read_store (Q : World -> res Error localStore -> Prop) w s : Q (w, s) (Ok s) -> wp get Q (w, s).
Proof. done. Qed.
Lemma wp_set_store s' (Q : World -> res Error unit -> Prop) w s : Q (w, s') (Ok tt) -> wp (put s') Q (w, s).
Proof. done. Qed.

Inductive request :=
| Prepare (entries : list Entry)
| Legacy (fw : fileWire)
| Begin (b : fileBegin)
| Chunk (coff : Z) (data : bytes)
| Persist
| End_ (rel dig : bytes).

Definition serve (q : request) : io World Error unit :=
  match q with
  | Prepare entries => prepareDirsAt entries
  | Legacy fw => stageLegacyAt fw
  | Begin b => let* _ := beginFileAt b in ret tt
  | Chunk coff data => writeChunk coff data
  | Persist => persistActiveAt
  | End_ rel dig => endFileAt rel dig
  end.

(** A request that fails does not end the store. *)
Fixpoint serve_all (qs : list request) : io World Error unit :=
  match qs with
  | [] => ret tt
  | q :: qs => let* _ := ignore (serve q) in serve_all qs
  end.

(** The path of a transfer has proper components, as [validateRel] ensures. *)
Definition proper (q : request) : Prop :=
  match q with Begin b => exists cs c, Forall plain cs /\ plain c /\ BRel b = join_slash (cs ++ [c]) | _ => True end.

Section Requests.
Context (B : table) (st pt : Z) (sd pd : list bytes) (o1 o2 : Z).
Hypothesis Hst : B !! st = Some (mkDesc sd o1).
Hypothesis Hpt : B !! pt = Some (mkDesc pd o2).
Hypothesis Hsep : separate sd pd.
Hypothesis Halone : forall q, staged sd pd q -> apart B q.

Abbreviation moved := (evolves (staged sd pd) (fun _ => False)).

(** The partial file is open, or no descriptor was added. *)
Definition partial_open (w : W) (s : localStore) (cs : list bytes) (c : bytes) : Prop :=
  let p := pd ++ cs ++ [c ++ str ".part"] in
  match pf s with
  | Some (Some f) => exists o m x, 0 <= o /\ B !! f = None /\ fds w = <[f := mkDesc p o]> B /\ aview w !! p = Some (NFile m x)
  | _ => fds w = B
  end.

Definition transferring (w : W) (s : localStore) : Prop :=
  exists cs c, Forall plain cs /\ plain c /\ BRel (begin s) = join_slash (cs ++ [c]) /\
    partPath s = join_slash (cs ++ [c ++ str ".part"]) /\ partial_open w s cs c.

Definition inv (z : World) : Prop :=
  let '(w, s) := z in
  stageFD s = st /\ partialFD s = pt /\ tidy sd (aview w) /\ tidy pd (aview w) /\
  if active s then transferring w s else fds w = B /\ pf s = None.

(** What a request ends with. *)
Definition served {A} (z z' : World) (r : res Error A) : Prop := inv z' /\ moved (aview z.1) (aview z'.1) /\ r <> Panic.

Lemma inv_move w s w' : inv (w, s) -> moved (aview w) (aview w') -> (if active s then transferring w' s else fds w' = B) -> inv (w', s).
Proof.
  intros (H1' & H2' & H3' & H4' & H5') He Ht. split_and!; [done|done|by eapply tidy_evolves|by eapply tidy_evolves|].
  destruct (active s); [done|]. by destruct H5'.
Qed.

(** The table of a store with or without a partial file. *)
Lemma inv_table w s : inv (w, s) -> exists B1, fds w = B1 /\ B1 !! st = Some (mkDesc sd o1) /\ B1 !! pt = Some (mkDesc pd o2) /\
  forall w', fds w' = B1 -> evolves (inside sd) (fun _ => False) (aview w) (aview w') -> inv (w', s).
Proof.
  intros Hi. pose proof Hi as (_ & _ & _ & _ & Hact). destruct (active s) eqn:Ea.
  - destruct Hact as (cs & c & Hcs & Hc & Hrel & Hpp & Ho). unfold partial_open in Ho. destruct (pf s) as [[f|]|] eqn:Ef.
    + destruct Ho as (o & m & x & Ho & Hn & Hf & Hx). exists (fds w). split; [done|]. rewrite Hf. split; [by rewrite lookup_insert_ne by congruence|].
      split; [by rewrite lookup_insert_ne by congruence|]. intros w' Hf' He. eapply inv_move; [done|by apply staged_stage|]. rewrite Ea.
      exists cs, c. split_and!; try done. unfold partial_open. rewrite Ef. exists o, m, x. split_and!; try done.
      eapply evolves_keeps; [exact He|done|]. intros Hs. eapply separate_entries; [done|exact Hs|apply inside_entry].
    + exists B. split_and!; try done. intros w' Hf' He. eapply inv_move; [done|by apply staged_stage|]. rewrite Ea.
      exists cs, c. split_and!; try done. unfold partial_open. by rewrite Ef.
    + exists B. split_and!; try done. intros w' Hf' He. eapply inv_move; [done|by apply staged_stage|]. rewrite Ea.
      exists cs, c. split_and!; try done. unfold partial_open. by rewrite Ef.
  - destruct Hact as [Hf Hp]. exists B. split_and!; try done. intros w' Hf' He. eapply inv_move; [done|by apply staged_stage|]. by rewrite Ea.
Qed.

Lemma serve_prepare entries w s : inv (w, s) -> wp (prepareDirsAt entries) (served (w, s)) (w, s).
Proof.
  intros Hi. destruct (inv_table _ _ Hi) as (B1 & Hf & Hs1 & _ & Hk). apply wp_bind, wp_read_store, wp_on_store. destruct Hi as (-> & _). eapply wp_prepare_at_loop; [done..|].
  intros w' r Hf' He Hr. split; [by apply Hk|]. split; [by apply staged_stage|done].
Qed.

Lemma serve_legacy fw w s : inv (w, s) -> wp (stageLegacyAt fw) (served (w, s)) (w, s).
Proof.
  intros Hi. destruct (inv_table _ _ Hi) as (B1 & Hf & Hs1 & _ & Hk). apply wp_bind, wp_read_store, wp_on_store.
  destruct Hi as (-> & _ & Ht & _). eapply wp_stage_file_at; [done..|].
  intros w' r Hf' He Hr. split; [by apply Hk|]. split; [by apply staged_stage|done].
Qed.

Lemma names_inside cs c q : partial_names pd cs c q -> inside pd q.
Proof. intros [->| ->]; apply inside_entry. Qed.

Lemma moved_partial X cs v v' : (forall q, X q -> inside pd q) -> evolves X (below pd cs) v v' -> moved v v'.
Proof. intros HX. apply staged_partial; [done|]. intros q. apply inside_below. Qed.

Lemma serve_begin b w s : proper (Begin b) -> inv (w, s) -> wp (beginFileAt b) (served (w, s)) (w, s).
Proof.
  intros (cs & c & Hcs & Hc & Hrel) Hi. unfold beginFileAt. apply wp_bind, wp_read_store.
  pose proof Hi as (Hs1 & Hp1 & Ht1 & Ht2 & Hact). destruct (active s) eqn:Ea.
  { apply wp_throw. split; [done|]. split; [apply evolves_refl|done]. }
  destruct Hact as [Hf Hpf]. apply wp_bind, wp_set_store.
  assert (Hdone : forall w' A (r : res Error A), fds w' = B -> moved (aview w) (aview w') -> r <> Panic -> served (w, s) (w', set_last b s) r).
  { intros w' A r Hf' He Hr. split; [|done]. split_and!; [done|done|by eapply tidy_evolves|by eapply tidy_evolves|]. cbn. by rewrite Ea. }
  assert (Hnames : forall q, partial_names pd cs c q -> apart B q) by (intros q Hq; apply Halone; right; by eapply names_inside).
  assert (Hpc : plain (c ++ str ".part")) by (apply suffix_plain; [done|repeat constructor; by vm_compute|cbn; lia]).
  cbn [stageFD partialFD set_last]. rewrite Hs1, Hp1. apply wp_bind, wp_on_store. unfold already_staged_at.
  assert (Hmain : forall w1 (complete : bool), fds w1 = B -> moved (aview w) (aview w1) ->
    wp (if complete then let* _ := fs (clearPartialAt pt (BRel b)) in ret (BSize b) else
        let* start := fs (resume_point_at pt b) in
        let* f := fs (open_partial_at pt (BRel b ++ str ".part") start) in
        let* _ := put (set_open b (BRel b ++ str ".part") f start (set_last b s)) in ret start) (served (w, s)) (w1, set_last b s)).
  { intros w1 complete Hf1 He1. destruct complete.
    - apply wp_bind, wp_on_store. rewrite Hrel. eapply wp_clearPartialAt; [done..|]. intros w2 Hf2 He2. apply wp_ret, Hdone; [done| |done].
      eapply evolves_trans; [exact He1|]. eapply (staged_partial (partial_names pd cs c) (fun _ => False)); [apply names_inside|done|exact He2].
    - apply wp_bind, wp_on_store. eapply (wp_resume_point_at B pt pd o2 cs c); [done..|]. intros w2 r2 Hf2 He2 Hr2.
      assert (He2' : moved (aview w) (aview w2)) by (eapply evolves_trans; [exact He1|]; eapply moved_partial, He2; apply names_inside).
      destruct r2 as [start|e|]; [|by apply Hdone|done].
      rewrite Hrel, join_slash_snoc. apply wp_bind, wp_on_store. eapply wp_open_partial_at; [done..|by eapply tidy_evolves| |].
      + intros w3 f o' m x Hn Hf3 Ho' Hx He3. apply wp_bind, wp_set_store, wp_ret.
        assert (He3' : moved (aview w) (aview w3)) by (eapply evolves_trans; [exact He2'|]; eapply moved_partial, He3; intros q ->; apply inside_entry).
        split; [|done]. split_and!; [done|done|by eapply tidy_evolves|by eapply tidy_evolves|]. cbn. exists cs, c. split_and!; try done.
        cbn. by exists o', m, x.
      + intros w3 e Hf3 He3. apply Hdone; [done| |done]. eapply evolves_trans; [exact He2'|]. eapply moved_partial, He3. intros q ->; apply inside_entry. }
  apply wp_bind, wp_try, wp_fstatatRegular. intros w1 r1 [Hv1 Hf1] Hr1. rewrite Hf in Hf1.
  destruct r1 as [stt|e|]; [..|done]; cycle 1.
  { apply wp_ret. apply (Hmain w1 false); [done|by apply evolves_eq]. }
  case_if; cycle 1.
  { apply wp_ret. apply (Hmain w1 false); [done|by apply evolves_eq]. }
  eapply wp_digest_at_is; [done..|]. intros w2 bb [Hf2 He2] _. apply Hmain; [done|]. rewrite Hv1 in He2. by eapply staged_stage, inside_grown.
Qed.

(** The resume point is beside the partial file. *)
Lemma not_part cs c x : x <> str ".part" -> pd ++ cs ++ [c ++ str ".part"] <> pd ++ cs ++ [c ++ x].
Proof. intros Hx E. apply app_inv_head, app_inv_head in E. injection E as E. by apply app_inv_head in E. Qed.

Lemma apart_part cs c x o f q : x <> str ".part" -> q = pd ++ cs ++ [c ++ x] -> apart (<[f := mkDesc (pd ++ cs ++ [c ++ str ".part"]) o]> B) q.
Proof.
  intros Hx ->. apply apart_insert; [apply Halone; right; apply inside_entry|]. cbn. intros Hp.
  apply (not_part cs c x Hx). symmetry. apply prefix_length_eq; [done|]. by rewrite !length_app.
Qed.

Lemma wp_save meta cs c s (Q : W -> res Error unit -> Prop) w :
  Forall plain cs -> plain c -> tidy pd (aview w) -> partial_open w s cs c ->
  (forall w', partial_open w' s cs c -> moved (aview w) (aview w') -> Q w' (Ok tt)) ->
  wp (ignore (writePartialMetaAt pt (join_slash (cs ++ [c])) meta)) Q w.
Proof.
  intros Hcs Hc Ht Ho HQ. apply wp_ignore.
  assert (Hend : forall B1, fds w = B1 -> B1 !! pt = Some (mkDesc pd o2) ->
    (forall x, x <> str ".part" -> apart B1 (pd ++ cs ++ [c ++ x])) ->
    (forall w', fds w' = B1 -> (forall m x, aview w !! (pd ++ cs ++ [c ++ str ".part"]) = Some (NFile m x) ->
       aview w' !! (pd ++ cs ++ [c ++ str ".part"]) = Some (NFile m x)) -> partial_open w' s cs c) ->
    wp (writePartialMetaAt pt (join_slash (cs ++ [c])) meta)
      (fun w' r => Q w' match r with Panic => Panic | _ => Ok tt end) w).
  { intros B1 Hf Hp1 Hap Hk. eapply wp_writePartialMetaAt; [done..| |].
    - intros q [->| ->]; [by apply Hap|]. rewrite <- app_assoc. by apply Hap.
    - intros w' r Hf' He Hr. assert (HQ' : Q w' (Ok tt)); [|by destruct r]. apply HQ.
      + apply Hk; [done|]. intros m x Hx. eapply evolves_keeps; [exact He|done|]. intros [E|E]; [by apply not_part in E|].
        rewrite <- app_assoc in E. by apply not_part in E.
      + eapply moved_partial, He. intros q [->| ->]; apply inside_entry. }
  unfold partial_open in Ho. destruct (pf s) as [[f|]|] eqn:Ef.
  - destruct Ho as (o & m & x & Ho & Hn & Hf & Hx). apply (Hend _ Hf); [by rewrite lookup_insert_ne by congruence|intros y Hy; by eapply apart_part|].
    intros w' Hf' Hk. unfold partial_open. rewrite Ef. exists o, m, x. split_and!; try done. by apply Hk.
  - apply (Hend _ Ho Hpt); [intros y _; apply Halone; right; apply inside_entry|]. intros w' Hf' _. unfold partial_open. by rewrite Ef.
  - apply (Hend _ Ho Hpt); [intros y _; apply Halone; right; apply inside_entry|]. intros w' Hf' _. unfold partial_open. by rewrite Ef.
Qed.

Lemma wp_sync_file {E} f (Q : W -> res E unit -> Prop) w : (forall w', same w w' -> Q w' (Ok tt)) -> wp (ignore (on_file f Fsync)) Q w.
Proof. intros HQ. destruct f as [f|]; [by apply wp_sync|]. by apply wp_ignore, wp_throw, HQ. Qed.

Lemma partial_open_same w w' s cs c : same w w' -> partial_open w s cs c -> partial_open w' s cs c.
Proof. intros [Hv Hf]. unfold partial_open. by rewrite Hv, Hf. Qed.

Lemma serve_persist w s : inv (w, s) -> wp persistActiveAt (served (w, s)) (w, s).
Proof.
  intros Hi. unfold persistActiveAt. apply wp_bind, wp_read_store. pose proof Hi as (Hs1 & Hp1 & Ht1 & Ht2 & Hact).
  assert (Hsame : served (w, s) (w, s) (@Ok Error unit tt)) by (split; [done|split; [apply evolves_refl|done]]).
  destruct (active s) eqn:Ea; [|by apply wp_ret]. destruct (pf s) as [f|] eqn:Ef; [|by apply wp_ret].
  destruct Hact as (cs & c & Hcs & Hc & Hrel & Hpp & Ho). rewrite Hp1, Hrel.
  apply wp_bind, wp_on_store. eapply wp_save; [done..|]. intros w1 Ho1 He1. apply wp_on_store, wp_sync_file. intros w2 Hs2.
  destruct Hs2 as [Hv2 Hf2]. assert (He2 : moved (aview w) (aview w2)) by (by rewrite Hv2).
  split; [|done]. eapply inv_move; [done|exact He2|]. rewrite Ea. exists cs, c. split_and!; try done. by eapply partial_open_same.
Qed.

Lemma serve_chunk coff data w s : inv (w, s) -> wp (writeChunk coff data) (served (w, s)) (w, s).
Proof.
  intros Hi. unfold writeChunk. apply wp_bind, wp_read_store. pose proof Hi as (Hs1 & Hp1 & Ht1 & Ht2 & Hact).
  assert (Hsame : forall e, served (w, s) (w, s) (@Err Error unit e)) by (intros e; split; [done|split; [apply evolves_refl|done]]).
  destruct (active s) eqn:Ea; [|by apply wp_throw]. destruct (pf s) as [[f|]|] eqn:Ef; [| |by apply wp_throw].
  2: { case_if; [by apply wp_throw|]. apply wp_bind, wp_on_store, wp_or_fail, wp_throw. apply Hsame. }
  case_if; [by apply wp_throw|]. destruct Hact as (cs & c & Hcs & Hc & Hrel & Hpp & Ho). unfold partial_open in Ho. rewrite Ef in Ho.
  destruct Ho as (o & m & x & Ho & Hn & Hf & Hx). apply wp_bind, wp_on_store, wp_or_fail, wp_call. cbn [on_file]. intros w1 r1 E1.
  eapply writefd_law in E1; [|by rewrite Hf, lookup_insert_eq|done|done].
  assert (H1' : r1 <> Panic /\ moved (aview w) (aview w1) /\ forall s', pf s' = Some (Some f) -> partial_open w1 s' cs c).
  { assert (Hins : forall y, moved (aview w) (<[pd ++ cs ++ [c ++ str ".part"] := NFile m y]> (aview w))).
    { intros y. apply evolves_insert. right. apply inside_entry. }
    rewrite Hf in E1. destruct r1 as [[]|e|]; [..|done].
    - destruct E1 as [Hv1 Hf1]. rewrite insert_insert_eq in Hf1. split; [done|]. rewrite Hv1. split; [apply Hins|]. intros s' Es'. unfold partial_open. rewrite Es', Hv1.
      eexists _, _, _. split; [|split; [done|split; [done|by rewrite lookup_insert_eq]]]. pose proof (len_nonneg data). lia.
    - destruct E1 as (y & oy & Hoy & Hv1 & Hf1). rewrite insert_insert_eq in Hf1. split; [done|]. rewrite Hv1. split; [apply Hins|]. intros s' Es'. unfold partial_open. rewrite Es', Hv1.
      eexists _, _, _. split; [exact Hoy|split; [done|split; [done|by rewrite lookup_insert_eq]]]. }
  destruct H1' as (Hr1 & He1 & Ho1).
  assert (Hend : forall w2 s' A (r : res Error A), stageFD s' = st -> partialFD s' = pt -> active s' = true -> begin s' = begin s -> partPath s' = partPath s ->
    partial_open w2 s' cs c -> moved (aview w) (aview w2) -> r <> Panic -> served (w, s) (w2, s') r).
  { intros w2 s' A r Hs' Hp' Ha' Hb' Hpp' Ho2 He2 Hr. split; [|done]. split_and!; [done|done|by eapply tidy_evolves|by eapply tidy_evolves|].
    rewrite Ha'. exists cs, c. rewrite Hb', Hpp'. by split_and!. }
  destruct r1 as [[]|e|]; cbn [map_err]; [|by apply Hend; auto|done].
  apply wp_bind, wp_set_store. set (s' := set_off _ s). case_if; [|apply wp_ret, Hend; auto; by apply Ho1].
  apply wp_bind, wp_on_store, (wp_sync_file (Some f)). intros w2 [Hv2 Hf2]. apply wp_on_store. change (partialFD s') with (partialFD s). change (BRel (begin s')) with (BRel (begin s)).
  rewrite Hp1, Hrel. eapply (wp_save _ cs c s'); [done|done|rewrite Hv2; by eapply tidy_evolves|eapply partial_open_same; [done|by apply Ho1]|].
  intros w3 Ho3 He3. apply Hend; [done|done|done|done|done|done| |done]. eapply evolves_trans; [exact He1|]. by rewrite <- Hv2.
Qed.

(** What the end of a transfer means. *)
Definition delivered (rel dig : bytes) (z' : World) (r : res Error unit) : Prop :=
  r = Ok tt -> fds z'.1 = B /\ exists m x, aview z'.1 !! (sd ++ Split rel) = Some (NFile m x) /\ dig = SHA256 x.

Lemma serve_end rel dig w s : inv (w, s) -> wp (endFileAt rel dig) (fun z' r => served (w, s) z' r /\ delivered rel dig z' r) (w, s).
Proof.
  intros Hi. unfold endFileAt. apply wp_bind, wp_read_store. pose proof Hi as (Hs1 & Hp1 & Ht1 & Ht2 & Hact).
  assert (Hsame : forall e, served (w, s) (w, s) (@Err Error unit e) /\ delivered rel dig (w, s) (Err e)) by (intros e; split; [split; [done|split; [apply evolves_refl|done]]|done]).
  destruct (active s) eqn:Ea; [|by apply wp_throw]. destruct (pf s) as [[f|]|] eqn:Ef; [| |by apply wp_throw].
  2: { case_if; [by apply wp_throw|]. case_if; [by apply wp_throw|]. apply wp_bind, wp_on_store, wp_or_fail, wp_throw. apply Hsame. }
  destruct (negb _ || negb _) eqn:Er; [by apply wp_throw|]. apply orb_false_iff in Er as [Er Ed]. reflect_bools.
  destruct (negb (off s =? _)); [by apply wp_throw|]. destruct Hact as (cs & c & Hcs & Hc & Hrel & Hpp & Ho). unfold partial_open in Ho. rewrite Ef in Ho.
  destruct Ho as (o & m & x & Ho & Hn & Hf & Hx). rewrite Hrel in Er. subst rel dig.
  assert (Hmove : forall w' s' A (r : res Error A), fds w' = B -> moved (aview w) (aview w') -> stageFD s' = st -> partialFD s' = pt ->
    active s' = true -> begin s' = begin s -> partPath s' = partPath s -> (forall f, pf s' <> Some (Some f)) -> r <> Panic -> served (w, s) (w', s') r).
  { intros w' s' A r Hf' He Hs' Hp' Ha' Hb' Hpp' Hpf' Hr. split; [|done]. split_and!; [done|done|by eapply tidy_evolves|by eapply tidy_evolves|].
    rewrite Ha'. exists cs, c. rewrite Hb', Hpp'. split_and!; try done. unfold partial_open. destruct (pf s') as [[g|]|]; [|done|done]. by destruct (Hpf' g). }
  apply wp_bind, wp_on_store, wp_or_fail, wp_call. cbn [on_file]. intros w1 r1 (Hv1 & Hf1 & Hr1)%fsync_law. rewrite Hf in Hf1.
  assert (Hopen1 : served (w, s) (w1, s) (@Err Error unit (Foreign []))).
  { split; [|split; [by apply evolves_eq|done]]. eapply inv_move; [done|by apply evolves_eq|]. rewrite Ea. exists cs, c. split_and!; try done.
    unfold partial_open. rewrite Ef, Hv1. by exists o, m, x. }
  destruct r1 as [[]|e|]; cbn [map_err]; [|split; [|done]; by destruct Hopen1 as (? & ? & _)|done].
  apply wp_bind, wp_on_store, wp_try_any. intros w2 r2 (Hv2 & Hf2 & Hr2)%closefd_law. rewrite Hf1, delete_insert_id in Hf2 by done. rewrite Hv1 in Hv2.
  split; [done|]. intros x2. apply wp_bind, wp_set_store, wp_bind, wp_lift. destruct x2 as [[]|e]; cycle 1.
  { split; [|done]. apply Hmove; try done. by apply evolves_eq. }
  apply wp_bind, wp_set_store. set (s2 := set_pf None s). apply wp_bind, wp_on_store.
  change (partialFD s2) with (partialFD s). change (partPath s2) with (partPath s). change (begin s2) with (begin s). change (stageFD s2) with (stageFD s).
  rewrite Hp1, Hs1, Hpp. assert (Hpc : plain (c ++ str ".part")) by (apply suffix_plain; [done|repeat constructor; by vm_compute|cbn; lia]).
  eapply wp_digest_at_is; [done..|]. rewrite dirs_rel, rel_Base by done. intros w3 b [Hf3 He3] Hb. rewrite Hv2 in He3.
  assert (He3' : moved (aview w) (aview w3)) by (by eapply moved_partial, He3).
  destruct b; cbn [negb]; cycle 1.
  { apply wp_throw. split; [|done]. by apply Hmove. }
  destruct (Hb eq_refl Hpc) as (m3 & x3 & Hx3 & Hd3). rewrite Hrel. apply wp_bind, wp_on_store.
  eapply wp_finalize_at; [exact Hf3|done..|by eapply tidy_evolves|by eapply tidy_evolves|done|done|exact Hx3|].
  intros w4 r4 Hf4 He4 Hr4. assert (He4' : moved (aview w) (aview w4)) by (by eapply evolves_trans).
  destruct r4 as [[]|e|]; [|split; [|done]; by apply Hmove|done]. apply wp_set_store. split.
  - split; [|done]. split_and!; [done|done|by eapply tidy_evolves|by eapply tidy_evolves|]. done.
  - intros _. split; [done|]. destruct Hr4 as [m4 Hm4]. exists m4, x3. cbn [fst]. rewrite rel_Split by (by apply plain_snoc || by destruct cs). done.
Qed.

Lemma serve_one q w s : proper q -> inv (w, s) -> wp (serve q) (served (w, s)) (w, s).
Proof.
  intros Hp Hi. destruct q; cbn [serve].
  - by apply serve_prepare.
  - by apply serve_legacy.
  - apply wp_bind. eapply wp_mono; [by apply serve_begin|]. intros z' [a|e|] (H1' & H2' & H3'); [apply wp_ret| |done]; by split_and!.
  - by apply serve_chunk.
  - by apply serve_persist.
  - eapply wp_mono; [by apply serve_end|]. by intros z' r [? _].
Qed.

Lemma serve_any qs w s : Forall proper qs -> inv (w, s) ->
  wp (serve_all qs) (fun z' r => r = Ok tt /\ inv z' /\ moved (aview w) (aview z'.1)) (w, s).
Proof.
  intros Hq. revert w s. induction Hq as [|q qs Hp _ IH]; intros w s Hi; cbn [serve_all].
  { apply wp_ret. split; [done|]. split; [done|apply evolves_refl]. }
  apply wp_bind, wp_ignore. eapply wp_mono; [by apply serve_one|]. intros [w1 s1] r1 (Hi1 & He1 & Hr1).
  assert (Hk : wp (serve_all qs) (fun z' r => r = Ok tt /\ inv z' /\ moved (aview w) (aview z'.1)) (w1, s1)); [|by destruct r1].
  eapply wp_mono; [by apply IH|]. intros z' r (-> & Hi' & He'). split; [done|]. split; [done|]. by eapply evolves_trans.
Qed.

End Requests.

(** C26. The receiving store under directory descriptors is confined to its two staging
    directories, whatever requests arrive in whatever order and whatever calls fail: no
    request panics, nothing changes that is not strictly below one of the two, and no
    descriptor is open but those from before and that of the partial file.  Directories and
    whole files are requested with any path at all, transfers with a path of proper
    components.  If a transfer is then ended without an error, the staged file has the
    announced digest and its partial file is closed. *)
Theorem store_at_confined B st pt sd pd o1 o2 qs w s w1 s1 r :
  B !! st = Some (mkDesc sd o1) -> B !! pt = Some (mkDesc pd o2) -> separate sd pd -> (forall q, staged sd pd q -> apart B q) ->
  stageFD s = st -> partialFD s = pt -> active s = false -> pf s = None -> fds w = B -> tidy sd (aview w) -> tidy pd (aview w) ->
  Forall proper qs -> serve_all qs (w, s) = (w1, s1, r) ->
  r = Ok tt /\
  (forall q, ~ staged sd pd q -> aview w1 !! q = aview w !! q) /\
  (fds w1 = B \/ exists f x, pf s1 = Some (Some f) /\ fds w1 = <[f := x]> B) /\
  (forall rel dig w2 s2, endFileAt rel dig (w1, s1) = (w2, s2, Ok tt) ->
     fds w2 = B /\ exists m x, aview w2 !! (sd ++ Split rel) = Some (NFile m x) /\ dig = SHA256 x).
Proof.
  intros Hst Hpt Hsep Ha Hs Hp Hact Hpf Hf Hts Htp Hq E.
  assert (Hi : inv B st pt sd pd (w, s)) by (split_and!; try done; by rewrite Hact).
  pose proof (wp_run _ _ _ _ _ (serve_any B st pt sd pd o1 o2 Hst Hpt Hsep Ha qs w s Hq Hi) E) as (-> & Hi1 & He1). cbn [fst] in He1.
  split; [done|]. split; [|split].
  - intros q Hn. destruct (He1 q) as [[?|[?|(_ & [] & _)]] _]; done.
  - destruct Hi1 as (_ & _ & _ & _ & Hc). destruct (active s1); [|left; by destruct Hc]. destruct Hc as (cs & c & _ & _ & _ & _ & Ho).
    unfold partial_open in Ho. destruct (pf s1) as [[f|]|]; [|by left..]. right. destruct Ho as (o & m & x & _ & _ & Hf1 & _). eauto.
  - intros rel dig w2 s2 E2. pose proof (wp_run _ _ _ _ _ (serve_end B st pt sd pd o1 o2 Hst Hpt Hsep Ha rel dig w1 s1 Hi1) E2) as [_ Hd]. by apply Hd.
Qed.

End Rules.

(** ** Runs *)

#[local] Instance demo_path_texts : PathTexts := fun _ => [].
#[local] Instance demo_error_texts : ErrorTexts := {| ipc_text _ := []; os_text _ := []; local_text _ := [] |}.
#[local] Instance demo_meta_json : RemoteStore.MetaJSON :=
  {| RemoteStore.MarshalMeta _ := []; RemoteStore.UnmarshalMeta _ := None; RemoteStore.json_text := [] |}.

Definition demo_meta_dir : list bytes := [str "d"; LocalScan.MetaDirName].
Definition demo_sd : list bytes := demo_meta_dir ++ [str "recv-stage"].
Definition demo_pd : list bytes := demo_meta_dir ++ [str "recv-partial"].

(** A destination, and a directory elsewhere with a file whose name ends in ".part". *)
Definition demo_tree : tree :=
  list_to_map [([str "d"], NDir 0x1ED); (demo_meta_dir, NDir 0x1C0); (demo_sd, NDir 0x1C0); (demo_pd, NDir 0x1C0);
    ([str "etc"], NDir 0x1ED); ([str "etc"; str "x"], NFile 0x1A4 (str "old")); ([str "etc"; str "x.part"], NFile 0x1A4 (str "other"))].
Definition demo_table : table := list_to_map [(4, mkDesc [str "d"] 0); (6, mkDesc demo_sd 0); (7, mkDesc demo_pd 0)].
Definition demo_at (faults : list (option errno)) : MemAt := mkMemAt demo_tree demo_table faults 7.
Definition demo_store : localStore :=
  mkStore (str "/d") 4 6 7 false (mkBegin [] 0 (zeros 32) 0) (mkBegin [] 0 (zeros 32) 0) [] None 0 None.

Definition demo_requests (rel : bytes) : list request :=
  [Prepare [mkEntry (str "../up") EntryDir 0 0 [] false]; Legacy (mkFileWire (str "/") 0 (zeros 32) []);
   Begin (mkBegin rel 0 (SHA256 demo_data) 5); Chunk 0 demo_data].

(** The descriptors of a store that is opened are those of the demonstration. *)
Example demo_opened :
  let '(w, r) := openLocalStoreAt (str "/d") 4 (mkMemAt {[ [str "d"] := NDir 0x1ED ]} {[ 4 := mkDesc [str "d"] 0 ]} [] 7) in
  r = Ok demo_store /\ atable w = demo_table.
Proof. vm_compute. split; reflexivity. Qed.

(** A transfer with an absolute path is received below the staging directories, but the
    rename at its end ignores the descriptors: a file outside them replaces another, and
    the end is reported as a success. *)
Lemma absolute_path_renames_outside :
  let '(w, s, _) := serve_all (demo_requests (str "/etc/x")) (demo_at [], demo_store) in
  let '(w', _, r) := endFileAt (str "/etc/x") (SHA256 demo_data) (w, s) in
  r = Ok tt /\
  anodes w' !! [str "etc"; str "x"] = Some (NFile 0x1A4 (str "other")) /\
  anodes w' !! [str "etc"; str "x.part"] = None /\
  anodes w' !! (demo_sd ++ [str "etc"; str "x"]) = None.
Proof. vm_compute. split_and!; reflexivity. Qed.

Lemma demo_alone q : staged demo_sd demo_pd q -> apart demo_table q.
Proof.
  intros Hq f x Hx Hp. assert (Hl : (3 < length q)%nat).
  { destruct Hq as [[Hd Hne]|[Hd Hne]]; (destruct (decide (3 < length q)%nat) as [|Hl]; [done|]); destruct Hne; symmetry;
      apply prefix_length_eq; [exact Hd|cbn; lia|exact Hd|cbn; lia]. }
  apply prefix_length in Hp. apply elem_of_list_to_map_2 in Hx.
  repeat (apply elem_of_cons in Hx as [[= -> ->]|Hx]; [cbn in Hp; lia|]). by apply not_elem_of_nil in Hx.
Qed.

Lemma demo_tidy ds : tidy ds demo_tree.
Proof.
  intros q t _ Hq%elem_of_list_to_map_2. repeat (apply elem_of_cons in Hq as [Hq|Hq]; [discriminate Hq|]). by apply not_elem_of_nil in Hq.
Qed.

Lemma demo_separate : separate demo_sd demo_pd.
Proof. split; apply (bool_decide_eq_true_1 (~ _)); vm_compute; reflexivity. Qed.

Lemma demo_proper : Forall proper (demo_requests (str "a/x")).
Proof.
  repeat apply Forall_cons_2; try apply Forall_nil_2; try exact I. exists [str "a"], (str "x").
  split; [apply demo_root; vm_compute; reflexivity|]. split; [apply demo_plain; vm_compute; reflexivity|]. reflexivity.
Qed.

Lemma store_at_confined_witness :
  exists w1 s1, serve_all (demo_requests (str "a/x")) (demo_at [], demo_store) = (w1, s1, Ok tt) /\
  exists w2 s2, endFileAt (str "a/x") (SHA256 demo_data) (w1, s1) = (w2, s2, Ok tt) /\
    exists m x, anodes w2 !! (demo_sd ++ [str "a"; str "x"]) = Some (NFile m x) /\ SHA256 demo_data = SHA256 x.
Proof.
  destruct (serve_all (demo_requests (str "a/x")) (demo_at [], demo_store)) as [[w1 s1] r1] eqn:E1.
  destruct (@store_at_confined MemAt MemAt_AtCalls MemAt_laws _ _ _ demo_table 6 7 demo_sd demo_pd 0 0 (demo_requests (str "a/x")) (demo_at []) demo_store w1 s1 r1
    eq_refl eq_refl demo_separate demo_alone eq_refl eq_refl eq_refl eq_refl eq_refl (demo_tidy _) (demo_tidy _) demo_proper E1) as (-> & _ & _ & Hd).
  exists w1, s1. split; [reflexivity|].
  assert (Hr : (endFileAt (str "a/x") (SHA256 demo_data) (serve_all (demo_requests (str "a/x")) (demo_at [], demo_store)).1).2 = Ok tt) by (vm_compute; reflexivity).
  rewrite E1 in Hr. cbn [fst] in Hr. destruct (endFileAt (str "a/x") (SHA256 demo_data) (w1, s1)) as [[w2 s2] r2] eqn:E2. cbn [snd] in Hr. subst r2.
  exists w2, s2. split; [reflexivity|]. exact (proj2 (Hd _ _ _ _ E2)).
Defined.

End RemoteStoreAt.
